(* ===== verification/_CoqProject ===== *)
-Q . S2P
Prelude.v
ProtoBase.v
ProtoContent.v
ProtoRuntime.v
ProtoTurn.v
ProtoQueue.v
ProtoWorkflow.v
ProtoAttention.v
ProtoCommand.v
ProtoEffect.v
ProtoProjection.v
CanonState.v
CanonInvariants.v
CanonContent.v
ReadModelBuild.v
ReadModelFanout.v
DurableLog.v
ProjectionJournal.v
ContentFiles.v
ContentProofs.v
StoreInterface.v
CommandOutbox.v
OutboxProofs.v
JournalReadModels.v
CanonStore.v
AdapterIdentity.v
StoreProofs.v
StoreReload.v
StoreDisk.v
DeviceStore.v
DeviceProofs.v
DeviceReceipts.v
DeviceHandouts.v
DeviceRecovery.v
HostBroker.v
BrokerProofs.v
TransportControl.v
TransportFrame.v
TransportCorrelation.v
TransportLimits.v
TransportAuth.v
TransportBootstrap.v
TransportRegistry.v
PrivateFiles.v
RegistryProofs.v
HostLimits.v
TransportRemote.v
RemoteClient.v
RelayIds.v
RelayRegistry.v
RelayRegistryProofs.v
RelayPromises.v
RelayAdmission.v
RelayControl.v
RelayControlProofs.v
RelayService.v
RelayFaults.v
HostRemote.v
HostRemoteProofs.v
HostRevocation.v
HostReopen.v
RelayLink.v
HostAuth.v
HostAuthProofs.v
ClientPath.v
ClientCache.v
ClientWorker.v
Witnesses.v
ClientWitnesses.v
ContentWitnesses.v
DeviceWitnesses.v
AuthWitnesses.v
RelayWitnesses.v
HostRemoteWitnesses.v
BrokerWitnesses.v
