(* ===== verification/Prelude.v ===== *)
(** * OneKaleidoscope: contract, state, transport, relay and clients

    ** The program

    OneKaleidoscope lets a person watch and steer coding agents that run on other
    machines.  A host daemon observes agent runtimes through adapters, turns what it
    sees into _effects_, and keeps one canonical state.  Devices pair with a host,
    authenticate, subscribe to read models and send commands; away from home they find
    the host through a self-hosted relay.  The crates, in the order in which they are
    modelled:

    - [kaleido-proto], the contract: identifiers, content references, hosts and
      runtimes with their negotiated capabilities, sessions, turns and items, the
      input queue, workflows, attention requests, commands, effects, snapshots and
      projections, each with the validator that every producer and consumer runs;
    - [kaleido-state], the canonical state, the append-only log, the read models and
      their journal, the outbox of device commands, the bodies of content, and the store
      that ties them together;
    - [kaleido-transport], the wire: frames, control messages and their correlation,
      connection stages and limits, pairing links, device authentication, the registry of
      devices, private files, and the remote control protocol with its client;
    - [kaleido-relay], the relay: the registry of routes, the control service, admission,
      pushes;
    - [kaleido-hostd], the host: the broker of subscriptions, the authentication of a
      connection, the limits on failures, and the remote control plane;
    - [kaleido-core], the client: path selection, the cache of views, the connection
      worker; and the identifiers of [kaleido-adapter].

    An effect is validated, applied to a copy of the state, its affected read models
    are rebuilt and validated, a record with the next cursor of its stream is appended
    to the log, the state advances, and the changed read models are appended to their
    journal and fanned out to subscribers.  A load replays the log, rebuilds the read
    models, repairs the journal where it lags behind, reads the idempotency side table and
    finishes the admissions that were interrupted.

    ** Files

    - [Prelude.v]: results with their [let?] and [;?] notations, machine integers at
      their width, strings as bytes, the iterator idioms of the source ([find_first],
      [filter_b], [filter_map], [try_for_each], [try_fold], stable [sort_by_key]),
      ordered maps, the hint databases.
    - [ProtoBase.v], [ProtoContent.v], [ProtoRuntime.v], [ProtoTurn.v], [ProtoQueue.v],
      [ProtoWorkflow.v], [ProtoAttention.v], [ProtoCommand.v], [ProtoEffect.v],
      [ProtoProjection.v]: [crates/kaleido-proto/src/], one file per group of modules.
      Each enum is an inductive type and each struct a record, in a module of its own
      name ([Turn.status], [QueueState.Pending]); a method [T::f] is a definition [T_f];
      a loop body is a definition of its own where a lemma is about it.
    - [CanonState.v]: [state.rs].  [apply_change] has one definition per effect;
      [CanonicalState_apply] adds the recomputed fields.  Because [apply] takes
      [&mut self], the outcome is a pair of the state reached and the result, so that a
      partial mutation before an error would show.  [CanonInvariants.v] has the
      well-formedness invariant and what follows from it, [CanonContent.v] the privacy of
      the content references of a reachable state.
    - [ReadModelBuild.v], [ReadModelFanout.v]: [projection.rs], the views and the fan-out
      from an effect to the views it refreshes, and the theorems about them.
    - [DurableLog.v]: [log.rs]; [ProjectionJournal.v]: [projection_journal.rs];
      [CommandOutbox.v], [OutboxProofs.v]: [command_outbox.rs]; [ContentFiles.v],
      [ContentProofs.v]: [content.rs].  A directory is a map from file names to contents.
    - [StoreInterface.v]: what the store asks of its read models, as a class of
      operations and a class of laws; [JournalReadModels.v] discharges the laws.
    - [CanonStore.v], [DeviceStore.v]: [store.rs], the commits and the command path, and
      the operations of devices with the whole load.  [StoreProofs.v], [StoreReload.v],
      [DeviceProofs.v], [DeviceReceipts.v], [DeviceHandouts.v], [DeviceRecovery.v]: what they
      guarantee.  [StoreDisk.v]: the load with the journal opened from its own files.
    - [AdapterIdentity.v]: [kaleido-adapter/src/identity.rs].
    - [HostBroker.v], [BrokerProofs.v]: [kaleido-hostd/src/broker.rs]; mailboxes are shared
      between the broker and its subscribers, so they live in a map of their own.
    - [TransportControl.v], [TransportFrame.v], [TransportCorrelation.v],
      [TransportLimits.v], [TransportAuth.v], [TransportBootstrap.v],
      [TransportRegistry.v], [PrivateFiles.v], [RegistryProofs.v]: the files of the same
      names in [kaleido-transport/src/] ([control.rs] in two parts; [private_file.rs] and
      [platform/linux.rs] in [PrivateFiles.v]).  A backend of the registry is a class with
      laws, which the memory and the file discharge.
    - [TransportRemote.v], [RemoteClient.v]: [remote.rs] and [remote_client.rs].
    - [HostLimits.v], [HostAuth.v], [HostAuthProofs.v]: [kaleido-hostd/src/server.rs], the
      limiter of failed logins and a connection from the TLS handshake to the business
      loop, with whatever the other threads do between two uses of a lock.
    - [RelayIds.v], [RelayRegistry.v], [RelayRegistryProofs.v], [RelayPromises.v],
      [RelayAdmission.v], [RelayControl.v], [RelayControlProofs.v], [RelayService.v],
      [RelayFaults.v]: [kaleido-relay/src/].  A run is a sequence of frames, failed writes
      and restarts; [run_service_is_relay] shows that a run of the service is one of calls
      of the registry, so that what is proved of the registry holds of the service.
    - [HostRemote.v], [HostRemoteProofs.v], [HostRevocation.v], [HostReopen.v]:
      [kaleido-hostd/src/remote_control.rs], its JSON file, its operations over any
      connection, and its runs.  [RevocationService] is what it relies on of the relay.
    - [RelayLink.v]: host and relay composed over a wire that may lose any part of a
      message ([handle_control_connection] of the relay's [main.rs] on the other side);
      discharges [RevocationService] for the relay.
    - [ClientPath.v], [ClientCache.v], [ClientWorker.v]: [kaleido-core/src/], [path.rs] and
      [reconnect.rs], [cache.rs], and the worker of [mobile.rs] for one connection.
    - [Witnesses.v], [ClientWitnesses.v], [ContentWitnesses.v], [DeviceWitnesses.v],
      [AuthWitnesses.v], [RelayWitnesses.v], [HostRemoteWitnesses.v], [BrokerWitnesses.v]:
      small deployments on which the hypotheses of the theorems hold.

    ** What is shown

    - Durability: a load returns the store that wrote the files, also when read models were
      lost on the way, with the views that replaying the log implies ([reload_converges]), and finishes an admission that was cut short
      ([interrupted_admission_recovers]); log, journal, outbox, uploads, the client's cache,
      the relay's registry and the host's remote state read back what was written, whatever
      write failed ([read_all_returns_history], [journal_reopens], [outbox_reopens],
      [uploads_read_back], [cache_reopens], [relay_registry_reopens],
      [remote_state_reopens]; a key of the cache whose files could not be removed is in doubt
      until the next success or start); the journal is repaired exactly when it is a prefix of what is
      expected ([reconcile_repairs_prefixes]).
    - State: reachable states are well formed, refused effects change nothing, control is
      claimed only after a runtime accepted a command, and acceptance is unique and
      correlated; content reachable from the state is private.
    - Commands: submission is idempotent, a request of a device is admitted once, a command
      is handed out at most once, through the outbox or through its queue, and completed only
      with its receipt, whatever fails between.
    - Subscriptions: a subscriber of the broker receives a contiguous piece of the journal
      ([subscribers_miss_nothing]), and a client that synchronises with a host ends with its
      current view ([subscriber_catches_up]).
    - Wire: the decoder accepts exactly what the encoder produces, in any fragments, and
      terminates; responses answer their requests; no business frame is accepted before
      authentication; stalled connections close.
    - Devices: a connection is authenticated only for a device that has just paired or has
      signed the challenge of this connection; a pairing secret is used once; a revoked
      device stays out, over failed writes and restarts.
    - Relay: operations are accepted once, routes change only for holders of their
      credentials and keep their host, limits hold, and a slot whose revocation was answered
      is refused ever after.  A host that enqueued a revocation keeps it until it is
      confirmed ([enqueued_revocations_stay]), and one that reports it as completed has it
      enforced by the relay ([completed_revocations_hold_at_the_relay]).
    - Defects: the theorems of kind "error" prove concrete misbehaviours, among them a retry
      after a failed append that makes the log unreadable, an interruption whose result was
      recorded and whose completion was not, which blocks every later load, endpoint names that the relay refuses, and frames without
      credentials that block its service; other files prove more of them as plain theorems
      ([misplaced_item_blocks_transcript], [retried_claim_breaks_outbox],
      [late_registration_outlives_revocation], [invalid_commit_blocks_opening]).

    ** Parameters and bounds

    JSON is a parameter: [Codec], [EnvelopeCodec], [SideTableCodec], [OutboxCodec],
    [OwnershipCodec], [ControlCodec], [BootstrapCodec], [RegistryCodec] and [JsonCodec] are
    an encoder and a decoder, and the theorems that read back ask that what was written
    decodes to what was encoded (and holds no line break, where lines are read).  SHA-256 is
    a function ([hex_digest], [sha256]); where collisions or a reserved digest would matter the
    theorem says so.  Base64 is the class [Base64], with its laws; P-256 is the class [P256].
    Random bytes, clocks and the outcome of every call of the system are inputs: an append
    fails after some bytes, a script of faults makes any call on a file or a stream fail, and
    what other threads do between two uses of a lock is any sequence of their calls.

    Recursion is structural except in four loops.  The frame decoder and the search for a free
    temporary name run on fuel that is shown to be enough ([push_terminates],
    [create_temporary_terminates]); a download in chunks is followed for as many reads as it
    has bytes; the draw of a device name stops after eight attempts, as in the source.
    [i64], [u64] and [u32] values are integers with the checks, saturations and overflows of
    the source written out; lengths of collections in memory are not bounded, except that
    [reload_converges] asks for a history of fewer than 2^64 records, and the [u32] counter
    that numbers a reordered queue is not wrapped.  An I/O or UTF-8 error on a single line of the
    ownership file counts as one of opening it; the answer is the same error.

    ** Not modelled

    TLS, QUIC tunnels and the relay server itself, which are third-party libraries; the
    process of the relay beyond admission and the loop of a control connection (start-up,
    health endpoint, relay map); the business loop of the host's server after authentication,
    its worker threads around provider processes and its command line; the reducers of the
    provider adapters, which translate third-party wire formats; scoped diagnostic reads of
    the store; the client's bindings, credential storage and tunnels; the applications, the
    build tools and the recorder under [spikes].  Zeroing of secrets in memory, redacted
    debug output and the poisoning of locks are left out throughout. *)
From stdpp Require Import prelude strings gmap list sorting.
From Stdlib Require Import ZArith Lia DecimalString DecimalNat.

(** * Results: the shape of every fallible Rust function

    [result T E] is Rust's [Result<T, E>]; [rbind] is the [?] operator. *)

Inductive result (T E : Type) : Type :=
| Ok (t : T)
| Err (e : E).
Arguments Ok {T E} t.
Arguments Err {T E} e.

Definition rbind {A B E} (m : result A E) (f : A → result B E) : result B E :=
  match m with
  | Ok a => f a
  | Err e => Err e
  end.

Declare Scope result_scope.
Delimit Scope result_scope with result.
Open Scope result_scope.

Notation "'let?' x := m 'in' k" := (rbind m (λ x, k))
  (at level 10, x name, m at level 100, k at level 200) : result_scope.
Notation "m ';?' k" := (rbind m (λ _, k))
  (at level 100, k at level 200, right associativity) : result_scope.

(** [if b { return Err(e) }] *)
Definition reject_if {E} (b : bool) (e : E) : result unit E :=
  if b then Err e else Ok tt.

Definition map_err {T E F} (f : E → F) (m : result T E) : result T F :=
  match m with
  | Ok t => Ok t
  | Err e => Err (f e)
  end.

Definition ok_or {T E} (o : option T) (e : E) : result T E :=
  match o with
  | Some t => Ok t
  | None => Err e
  end.

(** [if let Some(x) = o { f(x)?; }] *)
Definition if_some {T E} (o : option T) (f : T → result unit E) : result unit E :=
  match o with
  | Some t => f t
  | None => Ok tt
  end.

Definition is_ok {T E} (m : result T E) : bool :=
  match m with
  | Ok _ => true
  | Err _ => false
  end.

(** [for x in l { f(x)?; }] *)
Fixpoint try_for_each {A E} (f : A → result unit E) (l : list A) : result unit E :=
  match l with
  | [] => Ok tt
  | x :: l' => f x ;? try_for_each f l'
  end.

(** A loop that carries the collection of keys it has already seen
    ([Vec::contains]/[push] or [HashSet::insert] in the source). *)
Fixpoint try_for_each_seen {A K E} (key : A → K)
    (step : list K → A → result unit E) (seen : list K) (l : list A) : result unit E :=
  match l with
  | [] => Ok tt
  | x :: l' => step seen x ;? try_for_each_seen key step (key x :: seen) l'
  end.

(** A loop with an accumulator that may stop early. *)
Fixpoint try_fold {A B E} (f : B → A → result B E) (acc : B) (l : list A) : result B E :=
  match l with
  | [] => Ok acc
  | x :: l' => let? acc' := f acc x in try_fold f acc' l'
  end.

(** * Options and lists *)

Definition is_some {A} (o : option A) : bool :=
  match o with
  | Some _ => true
  | None => false
  end.

Definition is_none {A} (o : option A) : bool := negb (is_some o).

(** [Option::is_some_and] *)
Definition is_some_and {A} (o : option A) (p : A → bool) : bool :=
  match o with
  | Some a => p a
  | None => false
  end.

(** [Option::or] *)
Definition option_or {A} (a b : option A) : option A :=
  match a with
  | Some x => Some x
  | None => b
  end.

(** [iter().find(p)] *)
Fixpoint find_first {A} (p : A → bool) (l : list A) : option A :=
  match l with
  | [] => None
  | x :: l' => if p x then Some x else find_first p l'
  end.

(** [iter().filter(p)] with a boolean predicate. *)
Fixpoint filter_b {A} (p : A → bool) (l : list A) : list A :=
  match l with
  | [] => []
  | x :: l' => if p x then x :: filter_b p l' else filter_b p l'
  end.

(** [iter().filter_map(f)] *)
Fixpoint filter_map {A B} (f : A → option B) (l : list A) : list B :=
  match l with
  | [] => []
  | x :: l' => match f x with
               | Some y => y :: filter_map f l'
               | None => filter_map f l'
               end
  end.

Definition option_list {A} (o : option A) : list A :=
  match o with
  | Some a => [a]
  | None => []
  end.

(** [slice.contains(&x)] *)
Definition contains_b {A} `{EqDecision A} (x : A) (l : list A) : bool :=
  existsb (λ y, bool_decide (y = x)) l.

(** * Stable sorting: [sort_by_key]

    Rust's slice sort is stable; insertion sort folding from the right is the
    simplest stable sort, and stability plus sortedness determine the result. *)
Fixpoint insert_by {A} (leb : A → A → bool) (x : A) (l : list A) : list A :=
  match l with
  | [] => [x]
  | y :: l' => if leb x y then x :: y :: l' else y :: insert_by leb x l'
  end.

Definition sort_by {A} (leb : A → A → bool) (l : list A) : list A :=
  foldr (insert_by leb) [] l.

Definition sort_by_key {A} (key : A → Z) (l : list A) : list A :=
  sort_by (λ a b, (key a <=? key b)%Z) l.

(** [Vec::dedup]: drops an element equal to its successor. *)
Fixpoint dedup {A} `{EqDecision A} (l : list A) : list A :=
  match l with
  | [] => []
  | x :: l' =>
      match l' with
      | [] => [x]
      | y :: _ => if bool_decide (x = y) then dedup l' else x :: dedup l'
      end
  end.

(** * Machine integers

    Integers are [Z]; every place where the source can overflow writes out the
    checked, saturating or converting operation it uses. *)

Definition u32_max : Z := 4294967295.
Definition u64_max : Z := 18446744073709551615.
Definition i64_min : Z := -9223372036854775808.
Definition i64_max : Z := 9223372036854775807.

Definition checked_add_u32 (a b : Z) : option Z :=
  if (a + b <=? u32_max)%Z then Some (a + b)%Z else None.

Definition checked_add_u64 (a b : Z) : option Z :=
  if (a + b <=? u64_max)%Z then Some (a + b)%Z else None.

Definition checked_add_i64 (a b : Z) : option Z :=
  if (i64_min <=? a + b)%Z && (a + b <=? i64_max)%Z then Some (a + b)%Z else None.

Definition saturating_add_u32 (a b : Z) : Z := Z.min (a + b)%Z u32_max.

Definition saturating_sub_i64 (a b : Z) : Z := Z.max i64_min (Z.min i64_max (a - b)).

Definition saturating_add_u64 (a b : Z) : Z := Z.min (a + b)%Z u64_max.

Definition saturating_mul_u64 (a b : Z) : Z := Z.min (a * b)%Z u64_max.

Definition saturating_sub_u64 (a b : Z) : Z := Z.max 0 (a - b).

(** [u32::try_from(n).unwrap_or(u32::MAX)] for a [usize] count. *)
Definition u32_of_count (n : nat) : Z := Z.min (Z.of_nat n) u32_max.

Definition in_u32 (z : Z) : Prop := (0 ≤ z ≤ u32_max)%Z.
Definition in_u64 (z : Z) : Prop := (0 ≤ z ≤ u64_max)%Z.
Definition in_i64 (z : Z) : Prop := (i64_min ≤ z ≤ i64_max)%Z.

(** * Strings as UTF-8 byte sequences

    A Rust [String] is a UTF-8 byte sequence; here it is a [string], read as
    its bytes.  [str::len] is the byte count. *)

Fixpoint bytes_of (s : string) : list Ascii.ascii :=
  match s with
  | "" => []
  | String c s' => c :: bytes_of s'
  end.

Definition code (c : Ascii.ascii) : nat := Ascii.nat_of_ascii c.

Definition str_is_empty (s : string) : bool :=
  match s with
  | "" => true
  | String _ _ => false
  end.

(** [Ord] on strings: lexicographic on the bytes. *)
Fixpoint str_leb (a b : string) : bool :=
  match a, b with
  | "", _ => true
  | String _ _, "" => false
  | String x a', String y b' =>
      if code x <? code y then true
      else if code y <? code x then false
      else str_leb a' b'
  end.

Fixpoint strip_prefix (p s : string) : option string :=
  match p, s with
  | "", _ => Some s
  | String a p', String b s' => if Ascii.eqb a b then strip_prefix p' s' else None
  | String _ _, "" => None
  end.

Fixpoint str_contains (needle s : string) : bool :=
  is_some (strip_prefix needle s) ||
  match s with
  | "" => false
  | String _ s' => str_contains needle s'
  end.

Definition between (lo hi : nat) (c : Ascii.ascii) : bool :=
  (lo <=? code c) && (code c <=? hi).

Definition is_ascii_digit (c : Ascii.ascii) : bool := between 48 57 c.
Definition is_ascii_uppercase (c : Ascii.ascii) : bool := between 65 90 c.
Definition is_ascii_lowercase (c : Ascii.ascii) : bool := between 97 122 c.

Definition is_ascii_alphanumeric (c : Ascii.ascii) : bool :=
  is_ascii_digit c || is_ascii_uppercase c || is_ascii_lowercase c.

Definition is_ascii_hexdigit (c : Ascii.ascii) : bool :=
  is_ascii_digit c || between 65 70 c || between 97 102 c.

Definition ascii_lower (c : Ascii.ascii) : Ascii.ascii :=
  if is_ascii_uppercase c then Ascii.ascii_of_nat (code c + 32) else c.

Fixpoint to_ascii_lowercase (s : string) : string :=
  match s with
  | "" => ""
  | String c s' => String (ascii_lower c) (to_ascii_lowercase s')
  end.

(** [chars().any(char::is_control)] on UTF-8 bytes: the control characters are
    U+0000..U+001F and U+007F (one byte) and U+0080..U+009F (the byte C2
    followed by 80..9F). *)
Fixpoint has_control_char (s : string) : bool :=
  match s with
  | "" => false
  | String c s' =>
      (code c <? 32) || (code c =? 127) ||
      ((code c =? 194) && match s' with
                          | String d _ => between 128 159 d
                          | "" => false
                          end) ||
      has_control_char s'
  end.

Definition utf8_tail (c : Ascii.ascii) : bool := between 128 191 c.

(** [str::from_utf8]: the well-formed byte sequences of the Unicode standard. *)
Fixpoint utf8_valid (s : list Ascii.ascii) : bool :=
  match s with
  | [] => true
  | a :: s1 =>
      if code a <? 128 then utf8_valid s1
      else match s1 with
      | [] => false
      | b :: s2 =>
          if between 194 223 a then utf8_tail b && utf8_valid s2
          else match s2 with
          | [] => false
          | c :: s3 =>
              if between 224 239 a then
                between (if code a =? 224 then 160 else 128) (if code a =? 237 then 159 else 191) b
                && utf8_tail c && utf8_valid s3
              else match s3 with
              | [] => false
              | d :: s4 =>
                  between 240 244 a
                  && between (if code a =? 240 then 144 else 128) (if code a =? 244 then 143 else 191) b
                  && utf8_tail c && utf8_tail d && utf8_valid s4
              end
          end
      end
  end.

(** [trim().is_empty()]: only Unicode white space, on UTF-8 bytes. *)
Fixpoint is_blank (s : string) : bool :=
  match s with
  | "" => true
  | String a s1 =>
      if between 9 13 a || (code a =? 32)%nat then is_blank s1
      else match s1 with
           | "" => false
           | String b s2 =>
               if (code a =? 194)%nat && ((code b =? 133)%nat || (code b =? 160)%nat) then is_blank s2
               else match s2 with
                    | "" => false
                    | String c s3 =>
                        if ((code a =? 225)%nat && (code b =? 154)%nat && (code c =? 128)%nat)
                           || ((code a =? 226)%nat && (code b =? 128)%nat
                               && (between 128 138 c || (code c =? 168)%nat || (code c =? 169)%nat
                                   || (code c =? 175)%nat))
                           || ((code a =? 226)%nat && (code b =? 129)%nat && (code c =? 159)%nat)
                           || ((code a =? 227)%nat && (code b =? 128)%nat && (code c =? 128)%nat)
                        then is_blank s3 else false
                    end
           end
  end.

(** [str::trim] on UTF-8 bytes: the white space in front, and the blank tail. *)
Fixpoint trim_start (s : string) : string :=
  match s with
  | "" => ""
  | String a s1 =>
      if between 9 13 a || (code a =? 32) then trim_start s1
      else match s1 with
           | "" => s
           | String b s2 =>
               if (code a =? 194) && ((code b =? 133) || (code b =? 160)) then trim_start s2
               else match s2 with
                    | "" => s
                    | String c s3 =>
                        if ((code a =? 225) && (code b =? 154) && (code c =? 128))
                           || ((code a =? 226) && (code b =? 128)
                               && (between 128 138 c || (code c =? 168) || (code c =? 169) || (code c =? 175)))
                           || ((code a =? 226) && (code b =? 129) && (code c =? 159))
                           || ((code a =? 227) && (code b =? 128) && (code c =? 128))
                        then trim_start s3 else s
                    end
           end
  end.

Fixpoint trim_end (s : string) : string :=
  if is_blank s then ""
  else match s with
       | "" => ""
       | String c s' => String c (trim_end s')
       end.

Definition trim (s : string) : string := trim_end (trim_start s).

(** [chars().count()]: the bytes that do not continue a character. *)
Definition char_count (s : string) : nat := length (filter_b (λ c, negb (utf8_tail c)) (bytes_of s)).

(** [to_be_bytes] and [from_be_bytes]: the most significant byte first. *)
Fixpoint to_be_bytes (count : nat) (z : Z) : list Ascii.ascii :=
  match count with
  | O => []
  | S count' => Ascii.ascii_of_N (Z.to_N ((z / 256 ^ Z.of_nat count') mod 256)) :: to_be_bytes count' z
  end.

Definition byte_value (c : Ascii.ascii) : Z := Z.of_N (Ascii.N_of_ascii c).

Fixpoint from_be_bytes (s : list Ascii.ascii) : Z :=
  match s with
  | [] => 0
  | c :: s' => (byte_value c * 256 ^ Z.of_nat (length s') + from_be_bytes s')%Z
  end.

(** [split(c)]: at least one part, possibly empty parts. *)
Fixpoint split_on (sep : Ascii.ascii) (s : string) : list string :=
  match s with
  | "" => [""]
  | String c s' =>
      if Ascii.eqb c sep then "" :: split_on sep s'
      else match split_on sep s' with
           | [] => [String c ""]
           | p :: ps => String c p :: ps
           end
  end.

(** Decimal rendering of a [usize]/[u64] ([format!] of an integer). *)
Definition decimal (n : nat) : string := NilEmpty.string_of_uint (Nat.to_uint n).

Definition only_digits (s : string) : Prop := ∀ c, c ∈ bytes_of s → is_ascii_digit c = true.

Fixpoint digits_value (acc : Z) (s : string) : option Z :=
  match s with
  | "" => Some acc
  | String c s' =>
      if is_ascii_digit c
      then digits_value (acc * 10 + Z.of_nat (code c - 48))%Z s'
      else None
  end.

(** [str::parse::<u64>]: an optional plus sign, at least one digit, no overflow. *)
Definition parse_u64 (s : string) : option Z :=
  let body := match strip_prefix "+" s with
              | Some rest => rest
              | None => s
              end in
  if str_is_empty body then None
  else match digits_value 0 body with
       | Some v => if (v <=? u64_max)%Z then Some v else None
       | None => None
       end.

(** [str::ends_with], [str::starts_with] and the padding of [{:020}]. *)
Fixpoint ends_with (suffix s : string) : bool :=
  bool_decide (s = suffix) ||
  match s with
  | "" => false
  | String _ s => ends_with suffix s
  end.

Definition starts_with (prefix s : string) : bool := is_some (strip_prefix prefix s).

Fixpoint zeros (count : nat) : string :=
  match count with
  | O => ""
  | S count => String (Ascii.ascii_of_nat 48) (zeros count)
  end.

Definition padded (n : Z) : string :=
  let digits := decimal (Z.to_nat n) in zeros (20 - String.length digits) +:+ digits.

(** * Ordered maps: [BTreeMap]

    A [BTreeMap] is a [gmap]; its iteration order (ascending keys, compared
    bytewise) is recovered by sorting the entries on the key's bytes. *)

Class OrdKey (K : Type) := okey : K → string.

#[export] Instance string_ord_key : OrdKey string := id.

Definition btree_entries {K V} `{EqDecision K, Countable K, OrdKey K} (m : gmap K V) : list (K * V) :=
  sort_by (λ a b, str_leb (okey a.1) (okey b.1)) (map_to_list m).

Definition btree_values {K V} `{EqDecision K, Countable K, OrdKey K} (m : gmap K V) : list V :=
  (btree_entries m).*2.

Definition btree_keys {K V} `{EqDecision K, Countable K, OrdKey K} (m : gmap K V) : list K :=
  (btree_entries m).*1.

(** * Rewriting results into propositions

    The database [result_ok] turns [check = Ok tt] into the conjunction of the
    conditions the check tests; [simpl_ok] runs it everywhere. *)

Create HintDb kaleido.
Create Rewrite HintDb result_ok.

Lemma rbind_ok {A B E} (m : result A E) (f : A → result B E) y :
  rbind m f = Ok y ↔ ∃ x, m = Ok x ∧ f x = Ok y.
Proof. destruct m; simpl; naive_solver. Qed.

Lemma rbind_ok_unit {B E} (m : result unit E) (k : result B E) y :
  (m ;? k) = Ok y ↔ m = Ok tt ∧ k = Ok y.
Proof. rewrite rbind_ok. destruct m as [[]|]; naive_solver. Qed.

Lemma reject_if_ok {E} b (e : E) : reject_if b e = Ok tt ↔ b = false.
Proof. destruct b; simpl; naive_solver. Qed.

Lemma map_err_ok {T E F} (f : E → F) (m : result T E) t : map_err f m = Ok t ↔ m = Ok t.
Proof. destruct m; simpl; naive_solver. Qed.

Lemma ok_or_ok {T E} (o : option T) (e : E) t : ok_or o e = Ok t ↔ o = Some t.
Proof. destruct o; simpl; naive_solver. Qed.

Lemma if_some_ok {T E} (o : option T) (f : T → result unit E) :
  if_some o f = Ok tt ↔ ∀ t, o = Some t → f t = Ok tt.
Proof. destruct o; simpl; naive_solver. Qed.

Lemma is_ok_unit {E} (m : result unit E) : is_ok m = true ↔ m = Ok tt.
Proof. destruct m as [[]|]; naive_solver. Qed.

Lemma try_for_each_ok {A E} (f : A → result unit E) l :
  try_for_each f l = Ok tt ↔ ∀ x, x ∈ l → f x = Ok tt.
Proof.
  induction l as [|x l IH]; simpl.
  - split; [|done]. intros _ x Hx. by apply elem_of_nil in Hx.
  - rewrite rbind_ok_unit, IH. split.
    + intros [Hx Hl] y. rewrite elem_of_cons. naive_solver.
    + intros H. split; [apply H; left|]. intros y Hy. apply H. by right.
Qed.

(** The specification of every duplicate-rejecting loop: when one step accepts
    exactly the fresh elements that satisfy [P], the whole loop accepts exactly
    the lists without repeated keys whose elements all satisfy [P]. *)
Lemma try_for_each_seen_ok {A K E} (key : A → K) (P : A → Prop)
    (step : list K → A → result unit E) l :
  (∀ seen x, step seen x = Ok tt ↔ (key x ∉ seen) ∧ P x) →
  ∀ seen, try_for_each_seen key step seen l = Ok tt ↔
    NoDup (key <$> l) ∧ (∀ x, x ∈ l → (key x ∉ seen) ∧ P x).
Proof.
  intros Hstep. induction l as [|x l IH]; intros seen; simpl.
  - split; [|done]. intros _. split; [constructor|].
    intros x Hx. by apply elem_of_nil in Hx.
  - rewrite rbind_ok_unit, Hstep, IH, NoDup_cons. split.
    + intros [[Hx HP] [Hnd Hl]]. split; [split; [|done]|].
      * rewrite list_elem_of_fmap. intros (y & Hk & Hy).
        destruct (Hl y Hy) as [Hn _]. apply Hn. rewrite <-Hk. left.
      * intros y. rewrite elem_of_cons. intros [->|Hy]; [done|].
        destruct (Hl y Hy) as [Hn ?]. split; [|done]. intros Hin. apply Hn. by right.
    + intros [[Hx Hnd] Hl]. split; [apply Hl; left|]. split; [done|].
      intros y Hy. destruct (Hl y) as [Hn ?]; [by right|]. split; [|done].
      rewrite elem_of_cons. intros [Hk|Hin]; [|done].
      apply Hx. rewrite list_elem_of_fmap. by exists y.
Qed.

Corollary try_for_each_seen_nil_ok {A K E} (key : A → K) (P : A → Prop)
    (step : list K → A → result unit E) l :
  (∀ seen x, step seen x = Ok tt ↔ (key x ∉ seen) ∧ P x) →
  try_for_each_seen key step [] l = Ok tt ↔
    NoDup (key <$> l) ∧ (∀ x, x ∈ l → P x).
Proof.
  intros Hstep. rewrite (try_for_each_seen_ok _ P) by done.
  split; intros [? H]; split; try done; intros x Hx.
  - by apply H.
  - split; [apply not_elem_of_nil | by apply H].
Qed.

Lemma existsb_elem {A} (p : A → bool) l : existsb p l = true ↔ ∃ x, x ∈ l ∧ p x = true.
Proof.
  rewrite existsb_exists. split; intros (x & Hx & Hp); exists x; (split; [|done]).
  - by apply list_elem_of_In.
  - by apply list_elem_of_In in Hx.
Qed.

Lemma existsb_false {A} (p : A → bool) l : existsb p l = false ↔ ∀ x, x ∈ l → p x = false.
Proof.
  rewrite <-not_true_iff_false, existsb_elem. split.
  - intros H x Hx. apply not_true_iff_false. naive_solver.
  - intros H (x & Hx & Hp). by rewrite (H x Hx) in Hp.
Qed.

Lemma contains_b_true {A} `{EqDecision A} (x : A) l : contains_b x l = true ↔ x ∈ l.
Proof.
  unfold contains_b. rewrite existsb_elem. split.
  - intros (y & Hy & ->%bool_decide_eq_true). done.
  - intros Hx. exists x. split; [done|]. by apply bool_decide_eq_true.
Qed.

Lemma contains_b_false {A} `{EqDecision A} (x : A) l : contains_b x l = false ↔ x ∉ l.
Proof. rewrite <-not_true_iff_false, contains_b_true. done. Qed.

Lemma negb_false_true (b : bool) : negb b = false ↔ b = true.
Proof. destruct b; naive_solver. Qed.

Lemma negb_true_false (b : bool) : negb b = true ↔ b = false.
Proof. destruct b; naive_solver. Qed.

Lemma str_is_empty_false s : str_is_empty s = false ↔ s ≠ "".
Proof. destruct s; naive_solver. Qed.

Lemma str_is_empty_true s : str_is_empty s = true ↔ s = "".
Proof. destruct s; naive_solver. Qed.

Lemma is_some_true {A} (o : option A) : is_some o = true ↔ is_Some o.
Proof. by destruct o. Qed.

Lemma is_some_false {A} (o : option A) : is_some o = false ↔ o = None.
Proof. destruct o; naive_solver. Qed.

Lemma is_none_true {A} (o : option A) : is_none o = true ↔ o = None.
Proof. destruct o; naive_solver. Qed.

Lemma is_none_false {A} (o : option A) : is_none o = false ↔ is_Some o.
Proof. unfold is_none. rewrite negb_false_true. apply is_some_true. Qed.

Lemma is_some_and_false {A} (o : option A) p :
  is_some_and o p = false ↔ ∀ a, o = Some a → p a = false.
Proof. destruct o; naive_solver. Qed.

Lemma is_some_and_true {A} (o : option A) p :
  is_some_and o p = true ↔ ∃ a, o = Some a ∧ p a = true.
Proof. destruct o; naive_solver. Qed.

Lemma decide_bool_false {P : Prop} `{Decision P} : bool_decide P = false ↔ ¬ P.
Proof. apply bool_decide_eq_false. Qed.

Lemma decide_bool_true {P : Prop} `{Decision P} : bool_decide P = true ↔ P.
Proof. apply bool_decide_eq_true. Qed.

Lemma bool_decide_neq_false {A} `{EqDecision A} (x y : A) : bool_decide (x ≠ y) = false ↔ x = y.
Proof. rewrite bool_decide_eq_false. split; [apply dec_stable | tauto]. Qed.

Lemma not_neq_eq {A} `{EqDecision A} (x y : A) : ¬ (x ≠ y) ↔ x = y.
Proof. split; [apply dec_stable | tauto]. Qed.

Lemma andb_false_impl (a b : bool) : a && b = false ↔ (a = true → b = false).
Proof. destruct a, b; naive_solver. Qed.

Lemma and_iff (A A' B B' : Prop) : (A ↔ A') → (B ↔ B') → (A ∧ B ↔ A' ∧ B').
Proof. tauto. Qed.

#[export] Hint Rewrite @bool_decide_neq_false : result_ok.
#[export] Hint Rewrite @not_neq_eq using (typeclasses eauto) : result_ok.
#[export] Hint Rewrite @rbind_ok_unit @reject_if_ok @map_err_ok @ok_or_ok @if_some_ok
  @try_for_each_ok @existsb_elem @existsb_false @contains_b_true @contains_b_false
  negb_false_true negb_true_false str_is_empty_false str_is_empty_true
  @is_some_true @is_some_false @is_none_true @is_none_false
  @is_some_and_true @is_some_and_false @decide_bool_true @decide_bool_false
  orb_false_iff orb_true_iff andb_true_iff andb_false_iff
  Z.leb_le Z.ltb_lt Z.leb_gt Z.ltb_ge : result_ok.

Ltac simpl_ok := autorewrite with result_ok in *.

(** A check that is decided by evaluation. *)
Ltac by_vm := vm_compute; reflexivity.

(** * Searching and filtering *)

Lemma find_first_some {A} (p : A → bool) l x :
  find_first p l = Some x → x ∈ l ∧ p x = true.
Proof.
  induction l as [|y l IH]; simpl; [done|].
  destruct (p y) eqn:Hp; intros H.
  - simplify_eq. split; [left|done].
  - destruct (IH H). split; [by right|done].
Qed.

(** A search on a key that occurs once finds the element that carries it. *)
Lemma find_first_none {A} (p : A → bool) l :
  find_first p l = None ↔ ∀ x, x ∈ l → p x = false.
Proof.
  induction l as [|y l IH]; simpl.
  - split; [|done]. intros _ x Hx. by apply elem_of_nil in Hx.
  - setoid_rewrite elem_of_cons. destruct (p y) eqn:E; [|rewrite IH; naive_solver].
    split; [done|]. intros Hall. specialize (Hall y (or_introl eq_refl)). congruence.
Qed.

Lemma find_first_unique {A K} `{EqDecision K} (key : A → K) l x :
  NoDup (key <$> l) → x ∈ l →
  find_first (λ y, bool_decide (key y = key x)) l = Some x.
Proof.
  induction l as [|y l IH]; simpl; [by intros _ ?%elem_of_nil|].
  rewrite NoDup_cons, list_elem_of_fmap. intros [Hy Hnd] [->|Hx]%elem_of_cons.
  - by rewrite bool_decide_true.
  - rewrite bool_decide_false; [by apply IH|].
    intros Heq. apply Hy. by exists x.
Qed.

(** Elements of a list with distinct keys are determined by their key. *)
Lemma NoDup_key_inj {A K} (key : A → K) (l : list A) x y :
  NoDup (key <$> l) → x ∈ l → y ∈ l → key x = key y → x = y.
Proof.
  intros Hnd Hx Hy E. induction l as [|z l IH]; [by apply elem_of_nil in Hx|].
  csimpl in Hnd. rewrite NoDup_cons in Hnd. destruct Hnd as [Hz Hnd].
  apply elem_of_cons in Hx as [->|Hx], Hy as [->|Hy]; try done.
  - destruct Hz. rewrite E. by apply list_elem_of_fmap_2.
  - destruct Hz. rewrite <-E. by apply list_elem_of_fmap_2.
  - by apply IH.
Qed.

Lemma elem_of_filter_b {A} (p : A → bool) l x :
  x ∈ filter_b p l ↔ x ∈ l ∧ p x = true.
Proof.
  induction l as [|y l IH]; simpl.
  - rewrite elem_of_nil. naive_solver.
  - destruct (p y) eqn:Hp; rewrite ?elem_of_cons, IH; intuition congruence.
Qed.

Lemma filter_b_app {A} (p : A → bool) l k : filter_b p (l ++ k) = filter_b p l ++ filter_b p k.
Proof. induction l as [|x l IH]; simpl; [done|]. destruct (p x); simpl; by rewrite IH. Qed.

Lemma filter_b_filter {A} (p q : A → bool) l :
  (∀ x, p x = true → q x = true) → filter_b p (filter_b q l) = filter_b p l.
Proof.
  intros Hpq. induction l as [|x l IH]; simpl; [done|]. specialize (Hpq x).
  destruct (q x); simpl; [by rewrite IH|]. destruct (p x); [by discriminate Hpq|done].
Qed.

Lemma filter_b_sublist {A} (p : A → bool) l : filter_b p l `sublist_of` l.
Proof.
  induction l as [|y l IH]; simpl; [done|].
  destruct (p y); by constructor.
Qed.

Lemma filter_b_fmap_NoDup {A K} (key : A → K) (p : A → bool) l :
  NoDup (key <$> l) → NoDup (key <$> filter_b p l).
Proof.
  intros H. eapply sublist_NoDup; [done|].
  apply fmap_sublist, filter_b_sublist.
Qed.

Lemma filter_b_Permutation {A} (p : A → bool) l k :
  l ≡ₚ k → filter_b p l ≡ₚ filter_b p k.
Proof.
  induction 1 as [|x l k ? IH|x y l|]; simpl; try done.
  - by destruct (p x); rewrite IH.
  - destruct (p x), (p y); try done. apply Permutation_swap.
  - by etrans.
Qed.

Lemma elem_of_filter_map {A B} (f : A → option B) l y :
  y ∈ filter_map f l ↔ ∃ x, x ∈ l ∧ f x = Some y.
Proof.
  induction l as [|x l IH]; simpl.
  - rewrite elem_of_nil. setoid_rewrite elem_of_nil. naive_solver.
  - setoid_rewrite elem_of_cons.
    destruct (f x) eqn:Hf; [rewrite elem_of_cons|]; rewrite IH; naive_solver.
Qed.

Lemma try_fold_snoc {A B E} (f : B → A → result B E) acc l x :
  try_fold f acc (l ++ [x]) = (let? acc' := try_fold f acc l in f acc' x).
Proof.
  revert acc. induction l as [|y l IH]; intros acc; simpl; [by destruct (f acc x)|].
  destruct (f acc y); simpl; [apply IH|done].
Qed.

Lemma filter_map_ext {A B} (f g : A → option B) l :
  (∀ x, x ∈ l → f x = g x) → filter_map f l = filter_map g l.
Proof.
  induction l as [|x l IH]; intros H; simpl; [done|]. rewrite (H x) by left.
  destruct (g x); [f_equal|]; apply IH; intros y Hy; apply H; by right.
Qed.

Lemma filter_map_app {A B} (f : A → option B) l k : filter_map f (l ++ k) = filter_map f l ++ filter_map f k.
Proof. induction l as [|x l IH]; simpl; [done|]. destruct (f x); simpl; by rewrite IH. Qed.

Lemma filter_map_nil {A B} (f : A → option B) l :
  filter_map f l = [] ↔ ∀ x, x ∈ l → f x = None.
Proof.
  induction l as [|x l IH]; simpl.
  - split; [|done]. intros _ x Hx. by apply elem_of_nil in Hx.
  - setoid_rewrite elem_of_cons. destruct (f x) eqn:E; [|rewrite IH]; naive_solver.
Qed.

Lemma elem_of_option_list {A} (o : option A) x : x ∈ option_list o ↔ o = Some x.
Proof.
  destruct o; simpl; [rewrite list_elem_of_singleton | rewrite elem_of_nil]; naive_solver.
Qed.

#[export] Hint Rewrite @elem_of_filter_b @elem_of_filter_map @elem_of_option_list : result_ok.

(** * Sorting *)

Lemma insert_by_perm {A} (leb : A → A → bool) x l : insert_by leb x l ≡ₚ x :: l.
Proof.
  induction l as [|y l IH]; simpl; [done|].
  destruct (leb x y); [done|]. rewrite IH. apply Permutation_swap.
Qed.

Lemma sort_by_perm {A} (leb : A → A → bool) l : sort_by leb l ≡ₚ l.
Proof.
  induction l as [|x l IH]; simpl; [done|].
  etrans; [apply insert_by_perm|]. by apply Permutation_skip.
Qed.

Lemma sort_by_key_perm {A} (key : A → Z) l : sort_by_key key l ≡ₚ l.
Proof. apply sort_by_perm. Qed.

Lemma elem_of_sort_by_key {A} (key : A → Z) l x : x ∈ sort_by_key key l ↔ x ∈ l.
Proof. by rewrite sort_by_key_perm. Qed.

Section sorted.
Context {A : Type} (leb : A → A → bool).
Context (leb_total : ∀ a b, leb a b = true ∨ leb b a = true).
Context (leb_trans : ∀ a b c, leb a b = true → leb b c = true → leb a c = true).

Lemma insert_by_sorted x l :
  StronglySorted (λ a b, leb a b = true) l →
  StronglySorted (λ a b, leb a b = true) (insert_by leb x l).
Proof using leb_total leb_trans.
  induction 1 as [|y l Hs IH Hy]; simpl; [by repeat constructor|].
  destruct (leb x y) eqn:E.
  - constructor; [by constructor|]. constructor; [done|].
    eapply Forall_impl; [done|]. simpl. eauto.
  - constructor; [done|]. rewrite insert_by_perm. constructor; [|done].
    destruct (leb_total x y); congruence.
Qed.

Lemma sort_by_sorted l : StronglySorted (λ a b, leb a b = true) (sort_by leb l).
Proof using leb_total leb_trans. induction l; simpl; [constructor|]. by apply insert_by_sorted. Qed.
End sorted.

Lemma sort_by_key_sorted {A} (key : A → Z) l :
  StronglySorted (λ a b, (key a ≤ key b)%Z) (sort_by_key key l).
Proof.
  assert (StronglySorted (λ a b, (key a <=? key b)%Z = true) (sort_by_key key l)) as H.
  { apply sort_by_sorted; intros; rewrite ?Z.leb_le in *; lia. }
  induction H as [|? ? ? IH Hx]; constructor; [done|].
  eapply Forall_impl; [done|]. intros ?. apply Z.leb_le.
Qed.

(** [sort] then [dedup] keeps the length exactly when nothing repeats. *)
Lemma dedup_length_le {A} `{EqDecision A} (l : list A) : length (dedup l) ≤ length l.
Proof.
  induction l as [|x [|y l] IH]; simpl in *; [lia..|].
  case_bool_decide; simpl in *; lia.
Qed.

Lemma dedup_length {A} `{EqDecision A} (leb : A → A → bool) (l : list A) :
  (∀ a b, leb a b = true → leb b a = true → a = b) →
  StronglySorted (λ a b, leb a b = true) l →
  length (dedup l) = length l ↔ NoDup l.
Proof.
  intros Hanti. induction 1 as [|x l Hs IH Hx]; [by split; [constructor|]|].
  rewrite NoDup_cons. destruct l as [|y l]; [split; [|done]|].
  { intros _. split; [apply not_elem_of_nil | constructor]. }
  pose proof (dedup_length_le (y :: l)) as Hle. simpl in *.
  case_bool_decide as Hxy.
  - subst y. split; [lia|]. intros [Hn _]. destruct Hn. left.
  - simpl. split.
    + intros Hlen. split; [|apply IH; lia]. intros [->|Hin]%elem_of_cons; [done|].
      apply Hxy, Hanti.
      * rewrite Forall_cons in Hx. by destruct Hx.
      * inversion Hs as [|? ? _ Hy]; subst. rewrite Forall_forall in Hy. by apply Hy.
    + intros [_ Hnd]. f_equal. by apply IH.
Qed.

(** A list whose keys are its indices is sorted. *)
Lemma sorted_by_index {A} (key : A → Z) k l :
  (∀ i e, l !! i = Some e → key e = k + Z.of_nat i)%Z → StronglySorted (λ a b, (key a ≤ key b)%Z) l.
Proof.
  revert k. induction l as [|x l IH]; intros k Hl; constructor.
  - apply (IH (k + 1)%Z). intros i e He. rewrite (Hl (S i) e He). lia.
  - apply Forall_forall. intros y [i Hi]%list_elem_of_lookup.
    rewrite (Hl 0 x eq_refl), (Hl (S i) y Hi). lia.
Qed.

(** Sorting recovers the one order in which the keys are the indices. *)
Lemma sort_by_key_index {A} (key : A → Z) l l' :
  (∀ i e, l !! i = Some e → key e = Z.of_nat i) → l' ≡ₚ l → sort_by_key key l' = l.
Proof.
  intros Hl Hp. apply (StronglySorted_unique_strong (λ a b, (key a ≤ key b)%Z)).
  - intros x y Hx Hy ? ?. rewrite sort_by_key_perm, Hp in Hx.
    apply list_elem_of_lookup in Hx as [i Hi], Hy as [j Hj].
    rewrite (Hl i x Hi), (Hl j y Hj) in *. assert (i = j) as -> by lia. congruence.
  - apply sort_by_key_sorted.
  - apply (sorted_by_index key 0). intros i e He. rewrite (Hl i e He). lia.
  - by rewrite sort_by_key_perm.
Qed.

(** The byte order on strings is a total order. *)
Lemma str_leb_total a b : str_leb a b = true ∨ str_leb b a = true.
Proof.
  revert b. induction a as [|x a IH]; intros [|y b]; simpl; try by auto.
  destruct (Nat.ltb_spec (code x) (code y)), (Nat.ltb_spec (code y) (code x)); auto.
Qed.

Lemma str_leb_trans a b c : str_leb a b = true → str_leb b c = true → str_leb a c = true.
Proof.
  revert b c. induction a as [|x a IH]; intros [|y b] [|z c]; simpl; try done.
  destruct (Nat.ltb_spec (code x) (code y)), (Nat.ltb_spec (code y) (code x)),
    (Nat.ltb_spec (code y) (code z)), (Nat.ltb_spec (code z) (code y)),
    (Nat.ltb_spec (code x) (code z)), (Nat.ltb_spec (code z) (code x)); try done; try lia.
  apply IH.
Qed.

Lemma code_inj a b : code a = code b → a = b.
Proof.
  unfold code. intros H.
  by rewrite <-(Ascii.ascii_nat_embedding a), H, Ascii.ascii_nat_embedding.
Qed.

Lemma str_leb_antisym a b : str_leb a b = true → str_leb b a = true → a = b.
Proof.
  revert b. induction a as [|x a IH]; intros [|y b]; simpl; try done.
  destruct (Nat.ltb_spec (code x) (code y)), (Nat.ltb_spec (code y) (code x)); try done; try lia.
  intros H1 H2. f_equal; [apply code_inj; lia | by apply IH].
Qed.

(** * Ordered maps *)

Section btree.
Context {K V : Type} `{EqDecision K, Countable K, OrdKey K}.
Implicit Types m : gmap K V.

Lemma btree_entries_perm m : btree_entries m ≡ₚ map_to_list m.
Proof. apply sort_by_perm. Qed.

Lemma elem_of_btree_values m v : v ∈ btree_values m ↔ ∃ k, m !! k = Some v.
Proof.
  unfold btree_values. rewrite list_elem_of_fmap. split.
  - intros ([k w] & -> & Hin). rewrite btree_entries_perm, elem_of_map_to_list in Hin.
    by exists k.
  - intros [k Hk]. exists (k, v). split; [done|].
    by rewrite btree_entries_perm, elem_of_map_to_list.
Qed.

Lemma elem_of_btree_keys m k : k ∈ btree_keys m ↔ is_Some (m !! k).
Proof.
  unfold btree_keys. rewrite list_elem_of_fmap. split.
  - intros ([k' w] & -> & Hin). rewrite btree_entries_perm, elem_of_map_to_list in Hin.
    by exists w.
  - intros [v Hv]. exists (k, v). split; [done|].
    by rewrite btree_entries_perm, elem_of_map_to_list.
Qed.

Lemma btree_keys_NoDup m : NoDup (btree_keys m).
Proof. unfold btree_keys. rewrite btree_entries_perm. apply NoDup_fst_map_to_list. Qed.

(** The values of a table stored under their own key have distinct keys. *)
Lemma btree_values_NoDup (key : V → K) m :
  (∀ k v, m !! k = Some v → key v = k) → NoDup (key <$> btree_values m).
Proof.
  intros Hk. unfold btree_values. rewrite btree_entries_perm, <-list_fmap_compose.
  replace ((key ∘ snd) <$> map_to_list m) with ((map_to_list m).*1); [apply NoDup_fst_map_to_list|].
  apply list_fmap_ext. intros i [k v] Hi. simpl. symmetry. apply Hk.
  apply elem_of_map_to_list, list_elem_of_lookup. by exists i.
Qed.

End btree.

#[export] Hint Rewrite @elem_of_btree_values @elem_of_btree_keys : result_ok.

(** * Byte strings *)

Lemma append_nil_l (s : string) : "" +:+ s = s.
Proof. reflexivity. Qed.

Lemma append_cons_l c (s t : string) : String c s +:+ t = String c (s +:+ t).
Proof. reflexivity. Qed.

Lemma append_empty_r (s : string) : s +:+ "" = s.
Proof. induction s as [|c s IH]; [done|]. by rewrite append_cons_l, IH. Qed.

Lemma append_assoc (a b c : string) : (a +:+ b) +:+ c = a +:+ (b +:+ c).
Proof. induction a as [|x a IH]; [done|]. by rewrite !append_cons_l, IH. Qed.

Lemma append_inj_l (a b c : string) : a +:+ b = a +:+ c → b = c.
Proof. induction a as [|x a IH]; [done|]. rewrite !append_cons_l. intros [=]. auto. Qed.

Lemma strip_prefix_some p s r : strip_prefix p s = Some r ↔ s = p +:+ r.
Proof.
  revert s. induction p as [|a p IH]; intros s; simpl.
  - rewrite append_nil_l. split; [by intros [=] | by intros ->].
  - rewrite append_cons_l. destruct s as [|b s]; [done|].
    destruct (Ascii.eqb_spec a b) as [->|Hne]; [rewrite IH|]; split; congruence.
Qed.

(** Two concatenations with first halves of the same length are equal only
    componentwise. *)
Lemma append_inj_length (a a' b b' : string) :
  String.length a = String.length a' →
  a +:+ b = a' +:+ b' → a = a' ∧ b = b'.
Proof.
  revert a'. induction a as [|c a IH]; intros [|c' a'] Hlen; try done.
  rewrite !append_cons_l. injection Hlen as Hlen. injection 1 as -> Heq.
  by destruct (IH a' Hlen Heq) as [-> ->].
Qed.

Lemma decimal_digits n : only_digits (decimal n).
Proof.
  unfold decimal, only_digits. generalize (Nat.to_uint n). intros d.
  induction d as [|d IH|d IH|d IH|d IH|d IH|d IH|d IH|d IH|d IH|d IH]; simpl; intros c;
    rewrite ?elem_of_nil, ?elem_of_cons; intros Hc; [done|..];
    (destruct Hc as [->|Hc]; [done | by apply IH]).
Qed.

Lemma decimal_inj n m : decimal n = decimal m → n = m.
Proof.
  unfold decimal. intros H. apply Unsigned.to_uint_inj.
  assert (Some (Nat.to_uint n) = Some (Nat.to_uint m)) as Hs.
  { by rewrite <-!NilEmpty.usu, H. }
  by injection Hs.
Qed.

(** A run of digits is delimited by the first byte that is not a digit. *)
Lemma digits_delimited (d d' : string) c r r' :
  is_ascii_digit c = false → only_digits d → only_digits d' →
  d +:+ String c r = d' +:+ String c r' → d = d' ∧ r = r'.
Proof.
  intros Hc. revert d'.
  induction d as [|x d IH]; intros [|x' d'] Hd Hd';
    rewrite ?append_nil_l, ?append_cons_l; intros Heq.
  - by injection Heq.
  - injection Heq as -> _. rewrite (Hd' x') in Hc; [done|left].
  - injection Heq as -> _. rewrite (Hd c) in Hc; [done|left].
  - injection Heq as -> Heq. destruct (IH d') as [-> ->]; try done.
    + intros y Hy. apply Hd. by right.
    + intros y Hy. apply Hd'. by right.
Qed.

(** The length-prefixed framing [<len>:<text>] is self-delimiting. *)
Lemma length_prefixed_inj (a a' r r' : string) :
  decimal (String.length a) +:+ ":" +:+ a +:+ r =
  decimal (String.length a') +:+ ":" +:+ a' +:+ r' →
  a = a' ∧ r = r'.
Proof.
  rewrite !append_cons_l, !append_nil_l. intros H.
  apply digits_delimited in H as [Hlen H];
    [|done|apply decimal_digits|apply decimal_digits].
  apply decimal_inj in Hlen. by apply append_inj_length.
Qed.

(** * Bytes of integers *)

Lemma ends_with_spec suffix s : ends_with suffix s = true ↔ ∃ p, s = p +:+ suffix.
Proof.
  induction s as [|c s IH]; simpl; rewrite orb_true_iff, bool_decide_eq_true.
  - split.
    + intros [<-|]; [by exists ""|done].
    + intros [[|a p] Hp]; [by left|done].
  - rewrite IH. split.
    + intros [<-|[p ->]]; [by exists ""|]. by exists (String c p).
    + intros [[|a p] Hp]; [by left|]. rewrite append_cons_l in Hp. injection Hp as -> ->. right. by exists p.
Qed.

Lemma starts_with_spec prefix s : starts_with prefix s = true ↔ ∃ r, s = prefix +:+ r.
Proof.
  unfold starts_with. destruct (strip_prefix prefix s) as [r|] eqn:E; simpl.
  - apply strip_prefix_some in E. split; [by exists r|done].
  - split; [done|]. intros [r Hr]. apply strip_prefix_some in Hr. congruence.
Qed.

Lemma append_last_char (p q : string) (a b : Ascii.ascii) :
  p +:+ String a "" = q +:+ String b "" → a = b.
Proof.
  revert q. induction p as [|c p IH]; intros [|d q]; rewrite ?append_cons_l, ?append_nil_l; intros E.
  - by injection E.
  - injection E as -> E. by destruct q.
  - injection E as -> E. by destruct p.
  - injection E as -> E. by apply (IH q).
Qed.

Lemma byte_value_range c : (0 ≤ byte_value c < 256)%Z.
Proof. unfold byte_value. pose proof (Ascii.N_ascii_bounded c). lia. Qed.

Lemma byte_value_of z : (0 ≤ z < 256)%Z → byte_value (Ascii.ascii_of_N (Z.to_N z)) = z.
Proof. intros Hz. unfold byte_value. rewrite Ascii.N_ascii_embedding; lia. Qed.

Lemma byte_of_value c : Ascii.ascii_of_N (Z.to_N (byte_value c)) = c.
Proof. unfold byte_value. by rewrite N2Z.id, Ascii.ascii_N_embedding. Qed.

Lemma to_be_bytes_length count z : length (to_be_bytes count z) = count.
Proof. induction count; simpl; congruence. Qed.

Lemma pow_256_succ n : (256 ^ Z.of_nat (S n) = 256 * 256 ^ Z.of_nat n ∧ 0 < 256 ^ Z.of_nat n)%Z.
Proof.
  split; [|apply Z.pow_pos_nonneg; lia].
  replace (Z.of_nat (S n)) with (1 + Z.of_nat n)%Z by lia. by rewrite Z.pow_add_r by lia.
Qed.

Lemma from_be_bytes_range s : (0 ≤ from_be_bytes s < 256 ^ Z.of_nat (length s))%Z.
Proof.
  induction s as [|c s IH]; [simpl; lia|]. cbn [from_be_bytes length].
  pose proof (byte_value_range c). pose proof (pow_256_succ (length s)). nia.
Qed.

(** Only the low bytes matter to the bytes of an integer. *)
Lemma to_be_bytes_high count high z :
  to_be_bytes count (high * 256 ^ Z.of_nat count + z) = to_be_bytes count z.
Proof.
  revert high. induction count as [|n IH]; intros high; [done|]. cbn [to_be_bytes].
  destruct (pow_256_succ n) as [-> Hp].
  replace (high * (256 * 256 ^ Z.of_nat n) + z)%Z with ((high * 256) * 256 ^ Z.of_nat n + z)%Z by ring.
  f_equal; [|apply IH]. do 2 f_equal.
  rewrite Z.add_comm, Z.div_add by lia. by rewrite Z.mod_add by lia.
Qed.

(** An integer of [count] bytes is recovered from them, ... *)
Lemma from_to_be_bytes count z :
  (0 ≤ z < 256 ^ Z.of_nat count)%Z → from_be_bytes (to_be_bytes count z) = z.
Proof.
  revert z. induction count as [|n IH]; intros z Hz; cbn [to_be_bytes from_be_bytes]; [simpl in Hz; lia|].
  destruct (pow_256_succ n) as [Hs Hp]. rewrite Hs in Hz.
  rewrite to_be_bytes_length, byte_value_of by (apply Z.mod_pos_bound; lia).
  rewrite Z.mod_small by (split; [apply Z.div_pos; lia | apply Z.div_lt_upper_bound; lia]).
  rewrite (Z.div_mod z (256 ^ Z.of_nat n)) at 2 by lia.
  rewrite (Z.mul_comm (256 ^ _) (z / _)), to_be_bytes_high, IH by (apply Z.mod_pos_bound; lia).
  rewrite (Z.div_mod z (256 ^ Z.of_nat n)) at 3 by lia. lia.
Qed.

(** ... and bytes are recovered from the integer they spell. *)
Lemma to_from_be_bytes s : to_be_bytes (length s) (from_be_bytes s) = s.
Proof.
  induction s as [|c s IH]; [done|]. cbn [to_be_bytes from_be_bytes length].
  pose proof (from_be_bytes_range s) as Hr. pose proof (byte_value_range c).
  rewrite Z.div_add_l, (Z.div_small (from_be_bytes s)), Z.add_0_r, Z.mod_small, byte_of_value by lia.
  by rewrite to_be_bytes_high, IH.
Qed.

(** * Counting at machine width *)

Lemma u32_of_count_range n : in_u32 (u32_of_count n).
Proof. unfold in_u32, u32_of_count, u32_max. lia. Qed.

Lemma checked_add_u32_some a b c :
  checked_add_u32 a b = Some c ↔ (c = a + b ∧ a + b ≤ u32_max)%Z.
Proof. unfold checked_add_u32. destruct (Z.leb_spec (a + b) u32_max); naive_solver lia. Qed.

Lemma checked_add_u64_some a b c :
  checked_add_u64 a b = Some c ↔ (c = a + b ∧ a + b ≤ u64_max)%Z.
Proof. unfold checked_add_u64. destruct (Z.leb_spec (a + b) u64_max); naive_solver lia. Qed.

#[export] Hint Rewrite checked_add_u32_some checked_add_u64_some : result_ok.
#[export] Hint Resolve u32_of_count_range decimal_digits : kaleido.
