(* ===== verification/ProtoBase.v ===== *)
(** * Identifiers, shared vocabulary and the contract-violation type

    Models [crates/kaleido-proto/src/ids.rs] (the eighteen opaque identifier
    types and [ProviderBindingHandle]), [src/lib.rs] (protocol version,
    [ContractViolation]) and the field-less enumerations of the other modules
    that a [ContractViolation] carries. *)
From stdpp Require Import prelude strings gmap.
From Stdlib Require Import ZArith Lia Ascii.
From S2P Require Import Prelude.

(** ** Opaque identifiers

    The macro [id_type!] stamps out eighteen records with one [value] field.
    They are one record indexed by the name, so that a [SessionId] is not a
    [TurnId] but every operation is written once. *)

Inductive IdKind : Type :=
| KHost | KDevice | KProviderRuntime | KProject | KSession | KTurn | KItem
| KQueueEntry | KAttention | KWorkflow | KStep | KArtifact | KCommand
| KContent | KBlocker | KProjectBinding | KProviderBinding | KAgentTask.

Record Id (k : IdKind) : Type := mkId { id_value : string }.
Arguments mkId {k} id_value.
Arguments id_value {k} i.

Abbreviation HostId := (Id KHost).
Abbreviation DeviceId := (Id KDevice).
Abbreviation ProviderRuntimeId := (Id KProviderRuntime).
Abbreviation ProjectId := (Id KProject).
Abbreviation SessionId := (Id KSession).
Abbreviation TurnId := (Id KTurn).
Abbreviation ItemId := (Id KItem).
Abbreviation QueueEntryId := (Id KQueueEntry).
Abbreviation AttentionId := (Id KAttention).
Abbreviation WorkflowId := (Id KWorkflow).
Abbreviation StepId := (Id KStep).
Abbreviation ArtifactId := (Id KArtifact).
Abbreviation CommandId := (Id KCommand).
Abbreviation ContentId := (Id KContent).
Abbreviation BlockerId := (Id KBlocker).
Abbreviation ProjectBindingId := (Id KProjectBinding).
Abbreviation ProviderBindingId := (Id KProviderBinding).
Abbreviation AgentTaskId := (Id KAgentTask).

#[export] Instance Id_eq_dec k : EqDecision (Id k).
Proof. solve_decision. Defined.

#[export] Instance Id_countable k : Countable (Id k).
Proof.
  apply (inj_countable' id_value mkId). by intros [].
Defined.

#[export] Instance Id_ord_key k : OrdKey (Id k) := id_value.

Definition id_is_empty {k} (i : Id k) : bool := str_is_empty (id_value i).

(** ** Vocabulary carried by contract violations *)

Module ProviderBindingKind.
Inductive ProviderBindingKind : Type :=
| Session
| Turn
| Item
| InteractionRequest
| RuntimeAcknowledgement.
End ProviderBindingKind.
Abbreviation ProviderBindingKind := ProviderBindingKind.ProviderBindingKind.

#[export] Instance ProviderBindingKind_eq_dec : EqDecision ProviderBindingKind.
Proof. solve_decision. Defined.

Module ContentKind.
Inductive ContentKind : Type :=
| PlainText
| Markdown
| ToolArguments
| ToolOutput
| UnifiedDiff
| FilePath
| StructuredSummary.
End ContentKind.
Abbreviation ContentKind := ContentKind.ContentKind.

#[export] Instance ContentKind_eq_dec : EqDecision ContentKind.
Proof. solve_decision. Defined.

Module Sensitivity.
Inductive Sensitivity : Type :=
| Business
| Sensitive.
End Sensitivity.
Abbreviation Sensitivity := Sensitivity.Sensitivity.

#[export] Instance Sensitivity_eq_dec : EqDecision Sensitivity.
Proof. solve_decision. Defined.

Module ContentAvailability.
Inductive ContentAvailability : Type :=
| Inline
| Stored
| Evicted
| NeverStored.
End ContentAvailability.
Abbreviation ContentAvailability := ContentAvailability.ContentAvailability.

#[export] Instance ContentAvailability_eq_dec : EqDecision ContentAvailability.
Proof. solve_decision. Defined.

Module TurnStatus.
Inductive TurnStatus : Type :=
| Pending
| Running
| AwaitingInteraction
| Completed
| Failed
| Cancelled.
End TurnStatus.
Abbreviation TurnStatus := TurnStatus.TurnStatus.

#[export] Instance TurnStatus_eq_dec : EqDecision TurnStatus.
Proof. solve_decision. Defined.

Module EvidenceSource.
Inductive EvidenceSource : Type :=
| HandshakeDeclared
| ObservedInTraffic
| RecordedFixture
| ManualAcceptance
| Absent.
End EvidenceSource.
Abbreviation EvidenceSource := EvidenceSource.EvidenceSource.

#[export] Instance EvidenceSource_eq_dec : EqDecision EvidenceSource.
Proof. solve_decision. Defined.

Module Capability.
Inductive Capability : Type :=
| HistoryList
| HistoryRead
| HistoryResume
| LiveObserve
| LiveControl
| LiveMultiSubscriber
| TurnPrompt
| TurnSteer
| TurnInterrupt
| TurnRetry
| InteractionApproval
| InteractionQuestion
| StatePlan
| StateTasks
| StateDiff
| StateToolLifecycle
| QueueRead
| QueueWrite
| QueueReorder
| WorkflowParticipate.
End Capability.
Abbreviation Capability := Capability.Capability.

#[export] Instance Capability_eq_dec : EqDecision Capability.
Proof. solve_decision. Defined.

(** ** Contract violations *)

Module ContractViolation.
Inductive ContractViolation : Type :=
| EmptyIdentifier (field : string)
| InvalidProviderBindingId
| ProviderBindingKindMismatch (expected actual : ProviderBindingKind)
| MalformedDigest (digest : string)
| IdempotencyKeyTooLong (byte_len : Z)
| InvalidDeviceCommandTtl (ttl_ms : Z)
| UnsafePreview
| SensitivePreview
| PreviewTooLong (byte_len : Z)
| InlineTooLarge (byte_len : Z)
| SensitiveInline
| SensitiveContentRequired (field : string)
| InvalidContentReadSize (max_bytes : Z)
| ContentReadChunkTooLarge (byte_len : Z)
| ContentReadOffsetOverflow
| ContentReadOffsetMismatch (expected : Z) (found : option Z)
| ContentReadEofHasNext
| UnsupportedContentWriteKind (content_kind : ContentKind)
| InvalidContentWriteSize (byte_len : Z)
| ContentWriteResponseMismatch
| InvalidContentWriteAvailability (availability : ContentAvailability)
| TurnErrorWithoutFailure (status : TurnStatus)
| FailedTurnWithoutError
| TerminalTurnWithoutTimestamp
| DuplicateItemReference
| EditableNonPendingQueueEntry
| UnprovenSteerDelivery (evidence_source : EvidenceSource)
| SteerSessionMismatch
| SteerTurnMismatch
| SteerRuntimeMismatch
| SteerBindingMismatch
| SteerNotActiveTurn
| SteerCapabilityUnsupported
| QueueReorderDuplicate
| QueueReorderMissingPending
| QueueReorderCrossSession
| QueueReorderNonPending
| QueueReorderUnknownEntry
| DecisionOptionsMissing
| DuplicateDecisionOption (option_id : string)
| QuestionSetEmpty
| DuplicateQuestionKey (question_key : string)
| QuestionAnswersRequired
| QuestionAnswersUnexpected
| QuestionTopLevelDecision
| QuestionAnswerEmpty
| QuestionAnswerDuplicateKey
| QuestionAnswerDuplicateOption
| QuestionAnswerUnknownKey
| QuestionAnswerUnknownOption
| QuestionAnswerTooManyOptions
| QuestionAnswerMissing
| FreeFormNotAllowed
| InvalidFreeForm
| UnknownOption
| AttentionDecisionMissing
| AttentionSessionRequired
| AttentionWorkflowRequired
| ApprovalJoinTargetMismatch
| AttentionAnswerObserverHostMismatch
| LiveBindingUnsupported (missing : string)
| LiveBindingRuntimeMismatch
| LiveBindingEvidenceNotObserved
| DuplicateCapability (capability : Capability)
| DuplicateProjectBinding (binding_id : ProjectBindingId)
| ProjectBindingMismatch (binding_id : ProjectBindingId)
| CursorGap (expected found : Z)
| CursorRepeated (cursor : Z)
| CursorOverflow
| MixedStreams
| MixedProjectionKeys
| ProjectionKeyPayloadMismatch
| ProjectionSubscribeKeyMismatch
| ProjectionResumeWithoutCursor
| ProjectionResumeCursorMismatch (expected found : Z)
| ProjectionCurrentCursorNotAhead (since current : Z)
| InvalidProjectionCursorWindow (floor head : Z)
| SnapshotStreamMismatch
| DanglingReference (field : string)
| WorkflowTransitionNotAllowed
| WorkflowAttemptOverflow.
End ContractViolation.
Abbreviation ContractViolation := ContractViolation.ContractViolation.

(** [Result<(), ContractViolation>] *)
Abbreviation contract_check := (result unit ContractViolation).

Definition reject_empty {k} (i : Id k) (field : string) : contract_check :=
  reject_if (id_is_empty i) (ContractViolation.EmptyIdentifier field).

(** ** Provider binding handles *)

Module ProviderBindingHandle.
Record ProviderBindingHandle : Type := mk {
  id : ProviderBindingId;
  runtime_id : ProviderRuntimeId;
  kind : ProviderBindingKind
}.
End ProviderBindingHandle.
Abbreviation ProviderBindingHandle := ProviderBindingHandle.ProviderBindingHandle.

#[export] Instance ProviderBindingHandle_eq_dec : EqDecision ProviderBindingHandle.
Proof. solve_decision. Defined.

Definition ProviderBindingHandle_is_empty (h : ProviderBindingHandle) : bool :=
  id_is_empty h.(ProviderBindingHandle.id) || id_is_empty h.(ProviderBindingHandle.runtime_id).

Definition binding_id_byte (c : ascii) : bool :=
  is_ascii_alphanumeric c || Ascii.eqb c "-"%char || Ascii.eqb c "_"%char.

Definition ProviderBindingHandle_validate (h : ProviderBindingHandle) : contract_check :=
  let? suffix := ok_or (strip_prefix "bnd_" (id_value h.(ProviderBindingHandle.id)))
                       ContractViolation.InvalidProviderBindingId in
  reject_if ((String.length suffix <? 8) || negb (forallb binding_id_byte (bytes_of suffix)))
            ContractViolation.InvalidProviderBindingId ;?
  reject_empty h.(ProviderBindingHandle.runtime_id) "binding_handle.runtime_id".

Definition ProviderBindingHandle_validate_for
    (h : ProviderBindingHandle) (expected : ProviderBindingKind) : contract_check :=
  ProviderBindingHandle_validate h ;?
  reject_if (bool_decide (h.(ProviderBindingHandle.kind) ≠ expected))
            (ContractViolation.ProviderBindingKindMismatch expected h.(ProviderBindingHandle.kind)).

(** ** Protocol version *)

Definition PROTOCOL_VERSION : string := "0.5.0".

Definition parse_version (version : string) : option (Z * Z * Z) :=
  match split_on "."%char version with
  | [major; minor; patch] =>
      match parse_u64 major, parse_u64 minor, parse_u64 patch with
      | Some a, Some b, Some c => Some (a, b, c)
      | _, _, _ => None
      end
  | _ => None
  end.

Definition version_is_compatible (peer_version : string) : bool :=
  match parse_version PROTOCOL_VERSION, parse_version peer_version with
  | Some (our_major, our_minor, _), Some (peer_major, peer_minor, _) =>
      if ((our_major =? 0)%Z && (peer_major =? 0)%Z)
      then (our_minor =? peer_minor)%Z
      else (our_major =? peer_major)%Z
  | _, _ => false
  end.

(** ** Lemmas *)

Lemma id_is_empty_false {k} (i : Id k) : id_is_empty i = false ↔ id_value i ≠ "".
Proof. apply str_is_empty_false. Qed.

Lemma id_is_empty_true {k} (i : Id k) : id_is_empty i = true ↔ id_value i = "".
Proof. apply str_is_empty_true. Qed.

Lemma reject_empty_ok {k} (i : Id k) f : reject_empty i f = Ok tt ↔ id_value i ≠ "".
Proof. unfold reject_empty. rewrite reject_if_ok. apply id_is_empty_false. Qed.

#[export] Hint Rewrite @id_is_empty_false @id_is_empty_true @reject_empty_ok : result_ok.

(** What a valid handle looks like. *)
Record handle_ok (h : ProviderBindingHandle) : Prop := {
  handle_ok_id : ∃ suffix, id_value h.(ProviderBindingHandle.id) = "bnd_" +:+ suffix ∧
    8 ≤ String.length suffix ∧ ∀ c, c ∈ bytes_of suffix → binding_id_byte c = true;
  handle_ok_runtime : id_value h.(ProviderBindingHandle.runtime_id) ≠ ""
}.

Lemma forallb_elem {A} (p : A → bool) l : forallb p l = true ↔ ∀ x, x ∈ l → p x = true.
Proof.
  rewrite forallb_forall. split; intros H x Hx; apply H; by apply list_elem_of_In.
Qed.

Lemma ProviderBindingHandle_validate_ok h :
  ProviderBindingHandle_validate h = Ok tt ↔ handle_ok h.
Proof.
  unfold ProviderBindingHandle_validate. rewrite rbind_ok. split.
  - intros (suffix & Hs & H). simpl_ok. destruct H as ((Hlen & Hall) & Hr).
    apply strip_prefix_some in Hs. split; [|done]. exists suffix.
    split; [done|]. split; [by apply Nat.ltb_ge|]. by apply forallb_elem.
  - intros [(suffix & Hs & Hlen & Hall) Hr]. exists suffix.
    rewrite ok_or_ok, strip_prefix_some. split; [done|].
    simpl_ok. split; [split|done].
    + by apply Nat.ltb_ge.
    + by apply forallb_elem.
Qed.

Lemma ProviderBindingHandle_validate_for_ok h k :
  ProviderBindingHandle_validate_for h k = Ok tt ↔
  handle_ok h ∧ h.(ProviderBindingHandle.kind) = k.
Proof.
  unfold ProviderBindingHandle_validate_for.
  rewrite rbind_ok_unit, ProviderBindingHandle_validate_ok, reject_if_ok, bool_decide_eq_false.
  split; intros [? H]; (split; [done|]); [by apply dec_stable | tauto].
Qed.

#[export] Hint Rewrite ProviderBindingHandle_validate_ok ProviderBindingHandle_validate_for_ok
  @forallb_elem : result_ok.
