(* ===== verification/ProtoContent.v ===== *)
(** * Content references and the canonical error model

    Models [crates/kaleido-proto/src/content.rs] and [src/error.rs]: the
    reference type every payload body travels behind, its validator, the
    chunked read protocol, the authenticated write protocol, and the
    wire-visible error. *)
From stdpp Require Import prelude strings.
From Stdlib Require Import ZArith Lia Ascii.
From S2P Require Import Prelude ProtoBase.

Local Open Scope Z_scope.

Definition MAX_INLINE_BYTES : Z := 4096.
Definition MAX_PREVIEW_BYTES : Z := 256.
Definition MAX_CONTENT_READ_BYTES : Z := 65536.
Definition MAX_CONTENT_WRITE_BYTES : Z := 65536.

Definition str_len (s : string) : Z := Z.of_nat (String.length s).

(** ** Data *)

Module ContentRef.
Record ContentRef : Type := mk {
  content_id : ContentId;
  kind : ContentKind;
  byte_len : Z;
  digest : string;
  preview : option string;
  sensitivity : Sensitivity;
  availability : ContentAvailability
}.
End ContentRef.
Abbreviation ContentRef := ContentRef.ContentRef.

#[export] Instance ContentRef_eq_dec : EqDecision ContentRef.
Proof. solve_decision. Defined.

Module ContentReadRequest.
Record ContentReadRequest : Type := mk {
  content_id : ContentId;
  offset : Z;
  max_bytes : Z
}.
End ContentReadRequest.
Abbreviation ContentReadRequest := ContentReadRequest.ContentReadRequest.

#[export] Instance ContentReadRequest_eq_dec : EqDecision ContentReadRequest.
Proof. solve_decision. Defined.

Module ContentReadChunk.
Record ContentReadChunk : Type := mk {
  content_id : ContentId;
  offset : Z;
  bytes : list ascii;
  next_offset : option Z;
  eof : bool;
  digest : string
}.
End ContentReadChunk.
Abbreviation ContentReadChunk := ContentReadChunk.ContentReadChunk.

#[export] Instance ContentReadChunk_eq_dec : EqDecision ContentReadChunk.
Proof. solve_decision. Defined.

Module ContentUnavailableReason.
Inductive ContentUnavailableReason : Type :=
| Evicted
| NeverStored
| NotFound
| Unauthorized
| DigestMismatch.
End ContentUnavailableReason.
Abbreviation ContentUnavailableReason := ContentUnavailableReason.ContentUnavailableReason.

#[export] Instance ContentUnavailableReason_eq_dec : EqDecision ContentUnavailableReason.
Proof. solve_decision. Defined.

Module ContentReadResponse.
Inductive ContentReadResponse : Type :=
| Chunk (chunk : ContentReadChunk)
| Unavailable (content_id : ContentId) (reason : ContentUnavailableReason).
End ContentReadResponse.
Abbreviation ContentReadResponse := ContentReadResponse.ContentReadResponse.

#[export] Instance ContentReadResponse_eq_dec : EqDecision ContentReadResponse.
Proof. solve_decision. Defined.

Module ContentWriteRequest.
Record ContentWriteRequest : Type := mk {
  content_kind : ContentKind;
  byte_len : Z;
  digest : string
}.
End ContentWriteRequest.
Abbreviation ContentWriteRequest := ContentWriteRequest.ContentWriteRequest.

#[export] Instance ContentWriteRequest_eq_dec : EqDecision ContentWriteRequest.
Proof. solve_decision. Defined.

Module ErrorCode.
Inductive ErrorCode : Type :=
| NotFound
| InvalidCommand
| CommandExpired
| IdempotencyConflict
| CapabilityUnsupported
| CapabilityUnavailable
| UpstreamBlocked (blocker_id : BlockerId)
| ApprovalExpired
| ApprovalAlreadyAnswered
| JoinFailed
| RuntimeUnavailable
| RuntimeProtocolViolation
| UpstreamRejected
| UpstreamTimeout
| AuthRequired
| CursorGap
| ContentEvicted
| BackpressureDropped
| Internal.
End ErrorCode.
Abbreviation ErrorCode := ErrorCode.ErrorCode.

#[export] Instance ErrorCode_eq_dec : EqDecision ErrorCode.
Proof. solve_decision. Defined.

Module CanonicalError.
Record CanonicalError : Type := mk {
  code : ErrorCode;
  retriable : bool;
  detail_ref : option ContentRef;
  at_ms : Z
}.
End CanonicalError.
Abbreviation CanonicalError := CanonicalError.CanonicalError.

#[export] Instance CanonicalError_eq_dec : EqDecision CanonicalError.
Proof. solve_decision. Defined.

Module ContentWriteResponse.
Inductive ContentWriteResponse : Type :=
| Stored (content_ref : ContentRef)
| Rejected (error : CanonicalError).
End ContentWriteResponse.
Abbreviation ContentWriteResponse := ContentWriteResponse.ContentWriteResponse.

#[export] Instance ContentWriteResponse_eq_dec : EqDecision ContentWriteResponse.
Proof. solve_decision. Defined.

(** ** Operations *)

Definition lower_hex_byte (c : ascii) : bool :=
  is_ascii_hexdigit c && negb (is_ascii_uppercase c).

Definition digest_is_valid (digest : string) : bool :=
  is_some_and (strip_prefix "sha256:" digest)
    (λ hex, (str_len hex =? 64) && forallb lower_hex_byte (bytes_of hex)).

Definition validate_digest (digest : string) : contract_check :=
  if digest_is_valid digest then Ok tt else Err (ContractViolation.MalformedDigest digest).

Definition ContentRef_body_is_retrievable (r : ContentRef) : bool :=
  match r.(ContentRef.availability) with
  | ContentAvailability.Inline | ContentAvailability.Stored => true
  | ContentAvailability.Evicted | ContentAvailability.NeverStored => false
  end.

Definition ContentRef_loggable (r : ContentRef) : bool :=
  match r.(ContentRef.sensitivity) with
  | Sensitivity.Business => true
  | Sensitivity.Sensitive => false
  end.

Definition preview_is_unsafe (preview : string) : bool :=
  let lowercase := to_ascii_lowercase preview in
  has_control_char preview || str_contains "/" preview || str_contains "\" preview
  || str_contains "bearer" lowercase || str_contains "sk-" lowercase
  || str_contains "ghp_" lowercase.

Definition ContentRef_validate (r : ContentRef) : contract_check :=
  reject_empty r.(ContentRef.content_id) "content_id" ;?
  validate_digest r.(ContentRef.digest) ;?
  reject_if (bool_decide (r.(ContentRef.sensitivity) = Sensitivity.Sensitive)
             && is_some r.(ContentRef.preview)) ContractViolation.SensitivePreview ;?
  if_some r.(ContentRef.preview) (λ preview,
    reject_if (MAX_PREVIEW_BYTES <? str_len preview)
              (ContractViolation.PreviewTooLong (str_len preview)) ;?
    reject_if (preview_is_unsafe preview) ContractViolation.UnsafePreview) ;?
  (if bool_decide (r.(ContentRef.availability) = ContentAvailability.Inline) then
     reject_if (MAX_INLINE_BYTES <? r.(ContentRef.byte_len))
               (ContractViolation.InlineTooLarge r.(ContentRef.byte_len)) ;?
     reject_if (bool_decide (r.(ContentRef.sensitivity) = Sensitivity.Sensitive))
               ContractViolation.SensitiveInline
   else Ok tt).

Definition ContentRef_ensure_sensitive (r : ContentRef) (field : string) : contract_check :=
  reject_if (bool_decide (r.(ContentRef.sensitivity) ≠ Sensitivity.Sensitive))
            (ContractViolation.SensitiveContentRequired field) ;?
  ContentRef_validate r.

(** The helper [validate_sensitive] that [command.rs], [attention.rs] and
    [workflow.rs] each define: the same two checks in the other order. *)
Definition validate_sensitive (r : ContentRef) (field : string) : contract_check :=
  ContentRef_validate r ;?
  reject_if (bool_decide (r.(ContentRef.sensitivity) ≠ Sensitivity.Sensitive))
            (ContractViolation.SensitiveContentRequired field).

Definition ContentReadRequest_validate (r : ContentReadRequest) : contract_check :=
  reject_empty r.(ContentReadRequest.content_id) "content_id" ;?
  reject_if (negb ((1 <=? r.(ContentReadRequest.max_bytes))
                   && (r.(ContentReadRequest.max_bytes) <=? MAX_CONTENT_READ_BYTES)))
            (ContractViolation.InvalidContentReadSize r.(ContentReadRequest.max_bytes)).

Definition chunk_len (c : ContentReadChunk) : Z := Z.of_nat (length c.(ContentReadChunk.bytes)).

Definition ContentReadChunk_validate (c : ContentReadChunk) : contract_check :=
  reject_empty c.(ContentReadChunk.content_id) "content_id" ;?
  reject_if (MAX_CONTENT_READ_BYTES <? chunk_len c)
            (ContractViolation.ContentReadChunkTooLarge (chunk_len c)) ;?
  let? expected := ok_or (checked_add_u64 c.(ContentReadChunk.offset) (chunk_len c))
                         ContractViolation.ContentReadOffsetOverflow in
  (if c.(ContentReadChunk.eof) then
     reject_if (is_some c.(ContentReadChunk.next_offset)) ContractViolation.ContentReadEofHasNext
   else
     reject_if (bool_decide (c.(ContentReadChunk.next_offset) ≠ Some expected))
               (ContractViolation.ContentReadOffsetMismatch expected c.(ContentReadChunk.next_offset))) ;?
  validate_digest c.(ContentReadChunk.digest).

Definition ContentReadResponse_validate (r : ContentReadResponse) : contract_check :=
  match r with
  | ContentReadResponse.Chunk chunk => ContentReadChunk_validate chunk
  | ContentReadResponse.Unavailable content_id _ => reject_empty content_id "content_id"
  end.

Definition ContentWriteRequest_validate (r : ContentWriteRequest) : contract_check :=
  reject_if (match r.(ContentWriteRequest.content_kind) with
             | ContentKind.PlainText | ContentKind.Markdown => false
             | _ => true
             end)
            (ContractViolation.UnsupportedContentWriteKind r.(ContentWriteRequest.content_kind)) ;?
  reject_if (negb ((1 <=? r.(ContentWriteRequest.byte_len))
                   && (r.(ContentWriteRequest.byte_len) <=? MAX_CONTENT_WRITE_BYTES)))
            (ContractViolation.InvalidContentWriteSize r.(ContentWriteRequest.byte_len)) ;?
  validate_digest r.(ContentWriteRequest.digest).

Definition CanonicalError_validate (e : CanonicalError) : contract_check :=
  if_some e.(CanonicalError.detail_ref) (λ detail_ref,
    ContentRef_validate detail_ref ;?
    reject_if (bool_decide (detail_ref.(ContentRef.sensitivity) ≠ Sensitivity.Sensitive))
              (ContractViolation.SensitiveContentRequired "canonical_error.detail_ref")).

Definition ErrorCode_transient (c : ErrorCode) : bool :=
  match c with
  | ErrorCode.RuntimeUnavailable | ErrorCode.UpstreamTimeout | ErrorCode.CursorGap => true
  | _ => false
  end.

Definition ErrorCode_needs_human (c : ErrorCode) : bool :=
  match c with
  | ErrorCode.AuthRequired | ErrorCode.UpstreamBlocked _ | ErrorCode.ApprovalExpired => true
  | _ => false
  end.

Definition ContentWriteResponse_validate_for
    (r : ContentWriteResponse) (request : ContentWriteRequest) : contract_check :=
  ContentWriteRequest_validate request ;?
  match r with
  | ContentWriteResponse.Stored content_ref =>
      ContentRef_validate content_ref ;?
      reject_if (bool_decide (content_ref.(ContentRef.sensitivity) ≠ Sensitivity.Sensitive))
                (ContractViolation.SensitiveContentRequired "content_write.content_ref") ;?
      reject_if (bool_decide (content_ref.(ContentRef.availability) ≠ ContentAvailability.Stored))
                (ContractViolation.InvalidContentWriteAvailability
                   content_ref.(ContentRef.availability)) ;?
      reject_if (bool_decide (content_ref.(ContentRef.kind) ≠ request.(ContentWriteRequest.content_kind))
                 || bool_decide (content_ref.(ContentRef.byte_len) ≠ request.(ContentWriteRequest.byte_len))
                 || bool_decide (content_ref.(ContentRef.digest) ≠ request.(ContentWriteRequest.digest)))
                ContractViolation.ContentWriteResponseMismatch
  | ContentWriteResponse.Rejected error => CanonicalError_validate error
  end.

(** ** What the validators establish *)

Definition digest_ok (digest : string) : Prop :=
  ∃ hex, digest = "sha256:" +:+ hex ∧ String.length hex = 64%nat ∧
         ∀ c, c ∈ bytes_of hex → lower_hex_byte c = true.

Lemma validate_digest_ok d : validate_digest d = Ok tt ↔ digest_ok d.
Proof.
  unfold validate_digest, digest_is_valid, digest_ok, str_len.
  destruct (is_some_and _ _) eqn:E; simpl_ok.
  - destruct E as (hex & Hp & E). simpl_ok. destruct E as [Hlen Hall].
    split; [intros _|done]. apply strip_prefix_some in Hp. exists hex.
    split_and!; try done. lia.
  - split; [done|]. intros (hex & Hp & Hlen & Hall).
    apply strip_prefix_some in Hp. specialize (E hex Hp). simpl in E.
    rewrite Hlen, (proj2 (forallb_elem _ _) Hall) in E. done.
Qed.

Definition preview_ok (preview : string) : Prop :=
  str_len preview ≤ MAX_PREVIEW_BYTES ∧ preview_is_unsafe preview = false.

Record ref_ok (r : ContentRef) : Prop := {
  ref_ok_id : id_value r.(ContentRef.content_id) ≠ "";
  ref_ok_digest : digest_ok r.(ContentRef.digest);
  ref_ok_sensitive : r.(ContentRef.sensitivity) = Sensitivity.Sensitive →
    r.(ContentRef.preview) = None ∧ r.(ContentRef.availability) ≠ ContentAvailability.Inline;
  ref_ok_preview : ∀ p, r.(ContentRef.preview) = Some p → preview_ok p;
  ref_ok_inline : r.(ContentRef.availability) = ContentAvailability.Inline →
    r.(ContentRef.byte_len) ≤ MAX_INLINE_BYTES
}.

Lemma ContentRef_validate_ok r : ContentRef_validate r = Ok tt ↔ ref_ok r.
Proof.
  unfold ContentRef_validate. autorewrite with result_ok. rewrite validate_digest_ok.
  setoid_rewrite rbind_ok_unit. setoid_rewrite reject_if_ok. setoid_rewrite Z.ltb_ge.
  case_bool_decide as Ha; simpl_ok.
  - split.
    + by intros (Hid & Hd & Hs & Hp & Hl & Hns).
    + intros [Hid Hd Hs Hp Hl]. split_and!; try done; [|by apply Hl|].
      * left. by intros [? ?]%Hs.
      * by intros [? ?]%Hs.
  - split.
    + intros (Hid & Hd & Hs & Hp & _). split; try done.
      intros Hsen. split; [|done]. by destruct Hs.
    + intros [Hid Hd Hs Hp Hl]. split_and!; try done.
      destruct (decide (r.(ContentRef.sensitivity) = Sensitivity.Sensitive)) as [E|E]; [|by left].
      right. by apply Hs.
Qed.

(** A private reference: valid, and its body is never previewable. *)
Definition ref_private (r : ContentRef) : Prop :=
  ref_ok r ∧ r.(ContentRef.sensitivity) = Sensitivity.Sensitive.

Lemma ContentRef_ensure_sensitive_ok r f : ContentRef_ensure_sensitive r f = Ok tt ↔ ref_private r.
Proof.
  unfold ContentRef_ensure_sensitive, ref_private.
  rewrite rbind_ok_unit, reject_if_ok, bool_decide_eq_false, ContentRef_validate_ok.
  split; [intros [?%dec_stable ?] | intros [? ?]]; split; try done. tauto.
Qed.

Lemma validate_sensitive_ok r f : validate_sensitive r f = Ok tt ↔ ref_private r.
Proof.
  unfold validate_sensitive, ref_private.
  rewrite rbind_ok_unit, reject_if_ok, bool_decide_eq_false, ContentRef_validate_ok.
  split; [intros [? ?%dec_stable] | intros [? ?]]; split; try done. tauto.
Qed.

Lemma CanonicalError_validate_ok e :
  CanonicalError_validate e = Ok tt ↔ ∀ r, e.(CanonicalError.detail_ref) = Some r → ref_private r.
Proof.
  unfold CanonicalError_validate. rewrite if_some_ok.
  by setoid_rewrite <-(validate_sensitive_ok _ "canonical_error.detail_ref").
Qed.

#[export] Hint Rewrite validate_digest_ok ContentRef_validate_ok ContentRef_ensure_sensitive_ok
  validate_sensitive_ok CanonicalError_validate_ok : result_ok.

Lemma ref_private_hidden r :
  ref_private r →
  r.(ContentRef.preview) = None ∧ r.(ContentRef.availability) ≠ ContentAvailability.Inline
  ∧ ContentRef_loggable r = false.
Proof.
  intros [[_ _ Hs _ _] Hsen]. destruct (Hs Hsen). unfold ContentRef_loggable. by rewrite Hsen.
Qed.

(** ** The chunked read protocol *)

(** The responses one reader collects by following [next_offset] from [off]
    until the chunk marked [eof]. *)
Inductive read_chain (cid : ContentId) : Z → list ContentReadChunk → Prop :=
| read_chain_last off c :
    ContentReadChunk_validate c = Ok tt →
    c.(ContentReadChunk.content_id) = cid → c.(ContentReadChunk.offset) = off →
    c.(ContentReadChunk.eof) = true →
    read_chain cid off [c]
| read_chain_more off c next cs :
    ContentReadChunk_validate c = Ok tt →
    c.(ContentReadChunk.content_id) = cid → c.(ContentReadChunk.offset) = off →
    c.(ContentReadChunk.eof) = false → c.(ContentReadChunk.next_offset) = Some next →
    read_chain cid next cs →
    read_chain cid off (c :: cs).

Definition chain_body (cs : list ContentReadChunk) : list ascii :=
  concat (ContentReadChunk.bytes <$> cs).

Lemma ContentReadChunk_validate_ok c :
  ContentReadChunk_validate c = Ok tt →
  id_value c.(ContentReadChunk.content_id) ≠ "" ∧
  chunk_len c ≤ MAX_CONTENT_READ_BYTES ∧
  c.(ContentReadChunk.offset) + chunk_len c ≤ u64_max ∧
  (c.(ContentReadChunk.eof) = false →
   c.(ContentReadChunk.next_offset) = Some (c.(ContentReadChunk.offset) + chunk_len c)) ∧
  digest_ok c.(ContentReadChunk.digest).
Proof.
  unfold ContentReadChunk_validate. rewrite !rbind_ok_unit, rbind_ok.
  intros (Hid & Hlen & expected & Hadd & H). simpl_ok.
  destruct Hadd as [-> Hmax], H as [He Hd]. split_and!; try done.
  intros Heof. rewrite Heof in He. by simpl_ok.
Qed.

Lemma read_chain_offsets cid off cs :
  read_chain cid off cs → 0 ≤ off →
  off + Z.of_nat (length (chain_body cs)) ≤ u64_max ∧
  ∀ c, c ∈ cs →
    off ≤ c.(ContentReadChunk.offset) ∧
    take (length c.(ContentReadChunk.bytes))
         (drop (Z.to_nat (c.(ContentReadChunk.offset) - off)) (chain_body cs)) =
    c.(ContentReadChunk.bytes).
Proof.
  unfold chain_body. induction 1 as [off c Hv Hid Ho He|off c next cs Hv Hid Ho He Hn Hch IH];
    intros Hoff; csimpl; apply ContentReadChunk_validate_ok in Hv as (_ & _ & Hmax & Hnext & _);
    unfold chunk_len in *.
  - rewrite app_nil_r. split; [lia|]. intros c' ->%list_elem_of_singleton.
    split; [lia|]. rewrite Ho, Z.sub_diag. simpl. by rewrite take_ge.
  - rewrite Hnext in Hn by done. simplify_eq. rewrite length_app.
    destruct IH as [IHmax IH]; [lia|]. split; [lia|].
    intros c' [->|Hc']%elem_of_cons.
    + split; [lia|]. by rewrite Z.sub_diag, Z2Nat.inj_0, drop_0, take_app_length.
    + destruct (IH c' Hc') as [Hle Hc]. split; [lia|].
      rewrite drop_app_ge by lia. rewrite <-Hc at 2. do 2 f_equal. lia.
Qed.

(** A chain of validated content reads, each starting where the previous chunk ended, never exceeds the range
    of offsets, and every chunk is the part of the reassembled body at its offset: concatenating the chunks
    loses and overlaps nothing. *)
Theorem read_chain_reassembles cid cs (H : read_chain cid 0 cs) :
  Z.of_nat (length (chain_body cs)) ≤ u64_max ∧
  ∀ c, c ∈ cs →
    take (length c.(ContentReadChunk.bytes))
         (drop (Z.to_nat c.(ContentReadChunk.offset)) (chain_body cs)) =
    c.(ContentReadChunk.bytes).
Proof.
  destruct (read_chain_offsets _ _ _ H) as [Hmax Hc]; [lia|]. split; [lia|].
  intros c Hin. destruct (Hc c Hin) as [_ Ht]. by rewrite Z.sub_0_r in Ht.
Qed.
