(* ===== verification/ProtoRuntime.v ===== *)
(** * Capabilities, hosts, projects and sessions

    Models [crates/kaleido-proto/src/capability.rs], [src/host.rs] and
    [src/session.rs]: negotiated capabilities with evidence, the provider
    runtime that owns them, project bindings, live bindings, and the function
    that derives a session's status from the independent state families. *)
From stdpp Require Import prelude strings.
From Stdlib Require Import ZArith Lia.
From S2P Require Import Prelude ProtoBase ProtoContent.

Local Open Scope Z_scope.

(** ** Capability negotiation ([capability.rs]) *)

Module CapabilityUnavailableReason.
Inductive CapabilityUnavailableReason : Type :=
| RuntimeDisconnected
| AuthenticationRequired
| SubscriptionLost
| PolicyRestricted
| TemporarilyUnavailable.
End CapabilityUnavailableReason.
Abbreviation CapabilityUnavailableReason := CapabilityUnavailableReason.CapabilityUnavailableReason.

#[export] Instance CapabilityUnavailableReason_eq_dec : EqDecision CapabilityUnavailableReason.
Proof. solve_decision. Defined.

Module CapabilityState.
Inductive CapabilityState : Type :=
| Supported
| Unsupported
| UnavailableOnThisConnection (reason : CapabilityUnavailableReason)
| NotVerified
| UpstreamBlocked (blocker_id : BlockerId).
End CapabilityState.
Abbreviation CapabilityState := CapabilityState.CapabilityState.

#[export] Instance CapabilityState_eq_dec : EqDecision CapabilityState.
Proof. solve_decision. Defined.

Module CapabilityEvidence.
Record CapabilityEvidence : Type := mk {
  source : EvidenceSource;
  observed_at_ms : Z;
  note_ref : option ContentRef
}.
End CapabilityEvidence.
Abbreviation CapabilityEvidence := CapabilityEvidence.CapabilityEvidence.

#[export] Instance CapabilityEvidence_eq_dec : EqDecision CapabilityEvidence.
Proof. solve_decision. Defined.

Module CapabilityEntry.
Record CapabilityEntry : Type := mk {
  capability : Capability;
  state : CapabilityState;
  evidence : CapabilityEvidence
}.
End CapabilityEntry.
Abbreviation CapabilityEntry := CapabilityEntry.CapabilityEntry.

#[export] Instance CapabilityEntry_eq_dec : EqDecision CapabilityEntry.
Proof. solve_decision. Defined.

Module RuntimeCapabilities.
Record RuntimeCapabilities : Type := mk {
  runtime_id : ProviderRuntimeId;
  negotiated_at_ms : Z;
  entries : list CapabilityEntry
}.
End RuntimeCapabilities.
Abbreviation RuntimeCapabilities := RuntimeCapabilities.RuntimeCapabilities.

#[export] Instance RuntimeCapabilities_eq_dec : EqDecision RuntimeCapabilities.
Proof. solve_decision. Defined.

Definition CapabilityState_permits_use (s : CapabilityState) : bool :=
  match s with
  | CapabilityState.Supported => true
  | _ => false
  end.

Definition RuntimeCapabilities_state_of (c : RuntimeCapabilities) (cap : Capability) : CapabilityState :=
  match find_first (λ e, bool_decide (e.(CapabilityEntry.capability) = cap))
          c.(RuntimeCapabilities.entries) with
  | Some entry => entry.(CapabilityEntry.state)
  | None => CapabilityState.NotVerified
  end.

Definition RuntimeCapabilities_permits (c : RuntimeCapabilities) (cap : Capability) : bool :=
  CapabilityState_permits_use (RuntimeCapabilities_state_of c cap).

Definition CapabilityEvidence_validate (e : CapabilityEvidence) : contract_check :=
  if_some e.(CapabilityEvidence.note_ref) (λ note_ref,
    ContentRef_ensure_sensitive note_ref "capability_evidence.note_ref").

Definition CapabilityEntry_step (seen : list Capability) (entry : CapabilityEntry) : contract_check :=
  reject_if (contains_b entry.(CapabilityEntry.capability) seen)
            (ContractViolation.DuplicateCapability entry.(CapabilityEntry.capability)) ;?
  CapabilityEvidence_validate entry.(CapabilityEntry.evidence) ;?
  match entry.(CapabilityEntry.state) with
  | CapabilityState.UpstreamBlocked blocker_id => reject_empty blocker_id "capability.blocker_id"
  | _ => Ok tt
  end.

Definition RuntimeCapabilities_validate (c : RuntimeCapabilities) : contract_check :=
  reject_empty c.(RuntimeCapabilities.runtime_id) "runtime_capabilities.runtime_id" ;?
  try_for_each_seen CapabilityEntry.capability CapabilityEntry_step [] c.(RuntimeCapabilities.entries).

(** ** Hosts, runtimes and projects ([host.rs]) *)

Module HostPlatform.
Inductive HostPlatform : Type :=
| Windows
| MacOs
| Linux.
End HostPlatform.
Abbreviation HostPlatform := HostPlatform.HostPlatform.

#[export] Instance HostPlatform_eq_dec : EqDecision HostPlatform.
Proof. solve_decision. Defined.

Module HostReachability.
Inductive HostReachability : Type :=
| Offline
| LanDirect
| PeerToPeer
| Relayed.
End HostReachability.
Abbreviation HostReachability := HostReachability.HostReachability.

#[export] Instance HostReachability_eq_dec : EqDecision HostReachability.
Proof. solve_decision. Defined.

Module Host.
Record Host : Type := mk {
  id : HostId;
  display_name : string;
  platform : HostPlatform;
  reachability : HostReachability;
  protocol_version : string;
  last_seen_at_ms : Z
}.
End Host.
Abbreviation Host := Host.Host.

#[export] Instance Host_eq_dec : EqDecision Host.
Proof. solve_decision. Defined.

Module ProviderFamily.
Inductive ProviderFamily : Type :=
| Codex
| ClaudeCode
| OpenCode
| Acp.
End ProviderFamily.
Abbreviation ProviderFamily := ProviderFamily.ProviderFamily.

#[export] Instance ProviderFamily_eq_dec : EqDecision ProviderFamily.
Proof. solve_decision. Defined.

Module LaunchSurface.
Inductive LaunchSurface : Type :=
| BrokerLaunched
| SharedServer
| ExternalNativeCli
| ExternalNativeGui.
End LaunchSurface.
Abbreviation LaunchSurface := LaunchSurface.LaunchSurface.

#[export] Instance LaunchSurface_eq_dec : EqDecision LaunchSurface.
Proof. solve_decision. Defined.

Module ConnectionFaultReason.
Inductive ConnectionFaultReason : Type :=
| ProcessExited (exit_code : option Z)
| HandshakeRejected
| AuthRequired
| Timeout
| TransportError
| ProtocolViolation.
End ConnectionFaultReason.
Abbreviation ConnectionFaultReason := ConnectionFaultReason.ConnectionFaultReason.

#[export] Instance ConnectionFaultReason_eq_dec : EqDecision ConnectionFaultReason.
Proof. solve_decision. Defined.

Module ConnectionState.
Inductive ConnectionState : Type :=
| Disconnected
| Connecting
| Connected (since_at_ms : Z)
| Degraded (reason : ConnectionFaultReason) (since_at_ms : Z)
| Unavailable (reason : ConnectionFaultReason) (since_at_ms : Z).
End ConnectionState.
Abbreviation ConnectionState := ConnectionState.ConnectionState.

#[export] Instance ConnectionState_eq_dec : EqDecision ConnectionState.
Proof. solve_decision. Defined.

Module ProviderRuntime.
Record ProviderRuntime : Type := mk {
  id : ProviderRuntimeId;
  host_id : HostId;
  family : ProviderFamily;
  version_label : option string;
  launch_surface : LaunchSurface;
  connection : ConnectionState;
  capabilities : RuntimeCapabilities;
  binding_handle : option ProviderBindingHandle
}.
End ProviderRuntime.
Abbreviation ProviderRuntime := ProviderRuntime.ProviderRuntime.

#[export] Instance ProviderRuntime_eq_dec : EqDecision ProviderRuntime.
Proof. solve_decision. Defined.

Definition ProviderRuntime_set_capabilities (v : RuntimeCapabilities) (r : ProviderRuntime) : ProviderRuntime := {|
  ProviderRuntime.id := r.(ProviderRuntime.id);
  ProviderRuntime.host_id := r.(ProviderRuntime.host_id);
  ProviderRuntime.family := r.(ProviderRuntime.family);
  ProviderRuntime.version_label := r.(ProviderRuntime.version_label);
  ProviderRuntime.launch_surface := r.(ProviderRuntime.launch_surface);
  ProviderRuntime.connection := r.(ProviderRuntime.connection);
  ProviderRuntime.capabilities := v;
  ProviderRuntime.binding_handle := r.(ProviderRuntime.binding_handle)
|}.

Module ProjectBinding.
Record ProjectBinding : Type := mk {
  id : ProjectBindingId;
  project_id : ProjectId;
  runtime_id : ProviderRuntimeId;
  root_ref : ContentRef
}.
End ProjectBinding.
Abbreviation ProjectBinding := ProjectBinding.ProjectBinding.

#[export] Instance ProjectBinding_eq_dec : EqDecision ProjectBinding.
Proof. solve_decision. Defined.

Module SessionCounts.
Record SessionCounts : Type := mk {
  total : Z;
  running : Z;
  waiting_human : Z;
  failed : Z;
  archived : Z
}.
End SessionCounts.
Abbreviation SessionCounts := SessionCounts.SessionCounts.

#[export] Instance SessionCounts_eq_dec : EqDecision SessionCounts.
Proof. solve_decision. Defined.

Module Project.
Record Project : Type := mk {
  id : ProjectId;
  display_name : string;
  bindings : list ProjectBinding;
  session_counts : SessionCounts;
  workflow_count : Z;
  attention_count : Z;
  last_activity_at_ms : Z
}.
End Project.
Abbreviation Project := Project.Project.

#[export] Instance Project_eq_dec : EqDecision Project.
Proof. solve_decision. Defined.

Definition ConnectionState_is_usable (c : ConnectionState) : bool :=
  match c with
  | ConnectionState.Connected _ | ConnectionState.Degraded _ _ => true
  | _ => false
  end.

Definition Host_validate (h : Host) : contract_check := reject_empty h.(Host.id) "host.id".

Definition ProviderRuntime_validate (r : ProviderRuntime) : contract_check :=
  reject_empty r.(ProviderRuntime.id) "provider_runtime.id" ;?
  reject_empty r.(ProviderRuntime.host_id) "provider_runtime.host_id" ;?
  RuntimeCapabilities_validate r.(ProviderRuntime.capabilities) ;?
  reject_if (bool_decide (r.(ProviderRuntime.capabilities).(RuntimeCapabilities.runtime_id)
                          ≠ r.(ProviderRuntime.id)))
            (ContractViolation.DanglingReference "provider_runtime.capabilities.runtime_id") ;?
  if_some r.(ProviderRuntime.binding_handle) (λ binding_handle,
    ProviderBindingHandle_validate binding_handle ;?
    reject_if (bool_decide (binding_handle.(ProviderBindingHandle.runtime_id) ≠ r.(ProviderRuntime.id)))
              (ContractViolation.DanglingReference "provider_runtime.binding_handle.runtime_id")).

Definition ProjectBinding_step (project_id : ProjectId)
    (binding_ids : list ProjectBindingId) (binding : ProjectBinding) : contract_check :=
  reject_empty binding.(ProjectBinding.id) "project_binding.id" ;?
  reject_if (bool_decide (binding.(ProjectBinding.project_id) ≠ project_id))
            (ContractViolation.ProjectBindingMismatch binding.(ProjectBinding.id)) ;?
  reject_empty binding.(ProjectBinding.runtime_id) "project_binding.runtime_id" ;?
  ContentRef_ensure_sensitive binding.(ProjectBinding.root_ref) "project_binding.root_ref" ;?
  reject_if (contains_b binding.(ProjectBinding.id) binding_ids)
            (ContractViolation.DuplicateProjectBinding binding.(ProjectBinding.id)).

Definition Project_validate (p : Project) : contract_check :=
  reject_empty p.(Project.id) "project.id" ;?
  try_for_each_seen ProjectBinding.id (ProjectBinding_step p.(Project.id)) [] p.(Project.bindings).

(** ** Sessions ([session.rs]) *)

Module OwnershipMode.
Inductive OwnershipMode : Type :=
| BrokerManaged
| ProviderManaged
| SharedRuntime
| ExternalNative.
End OwnershipMode.
Abbreviation OwnershipMode := OwnershipMode.OwnershipMode.

#[export] Instance OwnershipMode_eq_dec : EqDecision OwnershipMode.
Proof. solve_decision. Defined.

Module SessionStatus.
Inductive SessionStatus : Type :=
| Offline
| Idle
| Running
| WaitingUser
| WaitingApproval
| Queued
| Failed
| Completed
| Cancelled.
End SessionStatus.
Abbreviation SessionStatus := SessionStatus.SessionStatus.

#[export] Instance SessionStatus_eq_dec : EqDecision SessionStatus.
Proof. solve_decision. Defined.

Module HistorySourceKind.
Inductive HistorySourceKind : Type :=
| None
| ProviderApi
| ProviderLocalStore
| BrokerLog.
End HistorySourceKind.
Abbreviation HistorySourceKind := HistorySourceKind.HistorySourceKind.

#[export] Instance HistorySourceKind_eq_dec : EqDecision HistorySourceKind.
Proof. solve_decision. Defined.

Module HistorySource.
Record HistorySource : Type := mk {
  kind : HistorySourceKind;
  runtime_id : option ProviderRuntimeId;
  evidence : CapabilityEvidence
}.
End HistorySource.
Abbreviation HistorySource := HistorySource.HistorySource.

#[export] Instance HistorySource_eq_dec : EqDecision HistorySource.
Proof. solve_decision. Defined.

Module LiveUnboundReason.
Inductive LiveUnboundReason : Type :=
| NeverStarted
| RuntimeExited
| SubscriptionLost
| NoPublicAttachPath.
End LiveUnboundReason.
Abbreviation LiveUnboundReason := LiveUnboundReason.LiveUnboundReason.

#[export] Instance LiveUnboundReason_eq_dec : EqDecision LiveUnboundReason.
Proof. solve_decision. Defined.

Module LiveBinding.
Inductive LiveBinding : Type :=
| NotBound (reason : LiveUnboundReason)
| Observing (runtime_id : ProviderRuntimeId) (since_at_ms : Z) (evidence : CapabilityEvidence)
| Controlling (runtime_id : ProviderRuntimeId) (since_at_ms : Z) (evidence : CapabilityEvidence)
| Blocked (blocker_id : BlockerId).
End LiveBinding.
Abbreviation LiveBinding := LiveBinding.LiveBinding.

#[export] Instance LiveBinding_eq_dec : EqDecision LiveBinding.
Proof. solve_decision. Defined.

Module Session.
Record Session : Type := mk {
  id : SessionId;
  project_id : ProjectId;
  project_binding_id : ProjectBindingId;
  ownership : OwnershipMode;
  history_source : HistorySource;
  live_binding : LiveBinding;
  status : SessionStatus;
  title : option string;
  created_at_ms : Z;
  updated_at_ms : Z;
  last_activity_at_ms : Z;
  active_turn_id : option TurnId;
  queue_depth : Z;
  open_attention_count : Z;
  archived : bool;
  binding_handle : option ProviderBindingHandle
}.
End Session.
Abbreviation Session := Session.Session.

#[export] Instance Session_eq_dec : EqDecision Session.
Proof. solve_decision. Defined.

Definition LiveBinding_is_live (b : LiveBinding) : bool :=
  match b with
  | LiveBinding.Observing _ _ _ | LiveBinding.Controlling _ _ _ => true
  | _ => false
  end.

Definition LiveBinding_accepts_control (b : LiveBinding) : bool :=
  match b with
  | LiveBinding.Controlling _ _ _ => true
  | _ => false
  end.

Definition validate_observed_evidence
    (runtime_id : ProviderRuntimeId) (evidence : CapabilityEvidence) : contract_check :=
  reject_empty runtime_id "live_binding.runtime_id" ;?
  reject_if (bool_decide (evidence.(CapabilityEvidence.source) ≠ EvidenceSource.ObservedInTraffic))
            ContractViolation.LiveBindingEvidenceNotObserved ;?
  CapabilityEvidence_validate evidence.

Definition validate_live_evidence (runtime_id : ProviderRuntimeId) (evidence : CapabilityEvidence)
    (capabilities : RuntimeCapabilities) : contract_check :=
  validate_observed_evidence runtime_id evidence ;?
  reject_if (bool_decide (runtime_id ≠ capabilities.(RuntimeCapabilities.runtime_id)))
            ContractViolation.LiveBindingRuntimeMismatch.

Definition LiveBinding_validate_shape (b : LiveBinding) : contract_check :=
  match b with
  | LiveBinding.NotBound _ => Ok tt
  | LiveBinding.Blocked blocker_id => reject_empty blocker_id "live_binding.blocker_id"
  | LiveBinding.Observing runtime_id _ evidence
  | LiveBinding.Controlling runtime_id _ evidence => validate_observed_evidence runtime_id evidence
  end.

Definition LiveBinding_validate_against (b : LiveBinding) (capabilities : RuntimeCapabilities)
    : contract_check :=
  match b with
  | LiveBinding.NotBound _ | LiveBinding.Blocked _ => Ok tt
  | LiveBinding.Observing runtime_id _ evidence =>
      validate_live_evidence runtime_id evidence capabilities ;?
      reject_if (negb (RuntimeCapabilities_permits capabilities Capability.LiveObserve))
                (ContractViolation.LiveBindingUnsupported "live_observe")
  | LiveBinding.Controlling runtime_id _ evidence =>
      validate_live_evidence runtime_id evidence capabilities ;?
      reject_if (negb (RuntimeCapabilities_permits capabilities Capability.LiveObserve))
                (ContractViolation.LiveBindingUnsupported "live_observe") ;?
      reject_if (negb (RuntimeCapabilities_permits capabilities Capability.LiveControl))
                (ContractViolation.LiveBindingUnsupported "live_control")
  end.

Definition SessionStatus_waits_for_human (s : SessionStatus) : bool :=
  match s with
  | SessionStatus.WaitingUser | SessionStatus.WaitingApproval => true
  | _ => false
  end.

Definition SessionStatus_is_active (s : SessionStatus) : bool :=
  match s with
  | SessionStatus.Running | SessionStatus.Queued => true
  | _ => false
  end.

Definition Session_validate_shape (s : Session) : contract_check :=
  reject_empty s.(Session.id) "session.id" ;?
  reject_empty s.(Session.project_id) "session.project_id" ;?
  reject_empty s.(Session.project_binding_id) "session.project_binding_id" ;?
  CapabilityEvidence_validate s.(Session.history_source).(HistorySource.evidence) ;?
  if_some s.(Session.history_source).(HistorySource.runtime_id) (λ runtime_id,
    reject_empty runtime_id "session.history_source.runtime_id") ;?
  if_some s.(Session.binding_handle) (λ binding_handle,
    ProviderBindingHandle_validate_for binding_handle ProviderBindingKind.Session) ;?
  LiveBinding_validate_shape s.(Session.live_binding).

Definition Session_validate (s : Session) (capabilities : RuntimeCapabilities) : contract_check :=
  Session_validate_shape s ;?
  RuntimeCapabilities_validate capabilities ;?
  LiveBinding_validate_against s.(Session.live_binding) capabilities.

Module StatusInputs.
Record StatusInputs : Type := mk {
  runtime_usable : bool;
  has_active_turn : bool;
  open_approval : bool;
  open_question : bool;
  pending_queue_entries : Z;
  terminal : option SessionStatus
}.
End StatusInputs.
Abbreviation StatusInputs := StatusInputs.StatusInputs.

#[export] Instance StatusInputs_eq_dec : EqDecision StatusInputs.
Proof. solve_decision. Defined.

Definition derive_session_status (inputs : StatusInputs) : SessionStatus :=
  if negb inputs.(StatusInputs.runtime_usable) then SessionStatus.Offline
  else if inputs.(StatusInputs.open_approval) then SessionStatus.WaitingApproval
  else if inputs.(StatusInputs.open_question) then SessionStatus.WaitingUser
  else if inputs.(StatusInputs.has_active_turn) then SessionStatus.Running
  else if 0 <? inputs.(StatusInputs.pending_queue_entries) then SessionStatus.Queued
  else match inputs.(StatusInputs.terminal) with
       | Some SessionStatus.Failed => SessionStatus.Failed
       | Some SessionStatus.Completed => SessionStatus.Completed
       | Some SessionStatus.Cancelled => SessionStatus.Cancelled
       | _ => SessionStatus.Idle
       end.

(** ** What the validators establish *)

Definition evidence_ok (e : CapabilityEvidence) : Prop :=
  ∀ r, e.(CapabilityEvidence.note_ref) = Some r → ref_private r.

Lemma CapabilityEvidence_validate_ok e : CapabilityEvidence_validate e = Ok tt ↔ evidence_ok e.
Proof.
  unfold CapabilityEvidence_validate, evidence_ok. rewrite if_some_ok.
  by setoid_rewrite ContentRef_ensure_sensitive_ok.
Qed.

Definition entry_ok (e : CapabilityEntry) : Prop :=
  evidence_ok e.(CapabilityEntry.evidence) ∧
  ∀ b, e.(CapabilityEntry.state) = CapabilityState.UpstreamBlocked b → id_value b ≠ "".

Lemma CapabilityEntry_step_ok seen e :
  CapabilityEntry_step seen e = Ok tt ↔ (e.(CapabilityEntry.capability) ∉ seen) ∧ entry_ok e.
Proof.
  unfold CapabilityEntry_step, entry_ok. rewrite !rbind_ok_unit, CapabilityEvidence_validate_ok.
  simpl_ok. destruct (e.(CapabilityEntry.state)); simpl_ok; naive_solver.
Qed.

Record capabilities_ok (c : RuntimeCapabilities) : Prop := {
  capabilities_ok_runtime : id_value c.(RuntimeCapabilities.runtime_id) ≠ "";
  capabilities_ok_nodup : NoDup (CapabilityEntry.capability <$> c.(RuntimeCapabilities.entries));
  capabilities_ok_entries : ∀ e, e ∈ c.(RuntimeCapabilities.entries) → entry_ok e
}.

Lemma RuntimeCapabilities_validate_ok c :
  RuntimeCapabilities_validate c = Ok tt ↔ capabilities_ok c.
Proof.
  unfold RuntimeCapabilities_validate. rewrite rbind_ok_unit, reject_empty_ok,
    (try_for_each_seen_nil_ok _ entry_ok) by apply CapabilityEntry_step_ok.
  split; [by intros (? & ? & ?) | by intros []].
Qed.

Record runtime_ok (r : ProviderRuntime) : Prop := {
  runtime_ok_id : id_value r.(ProviderRuntime.id) ≠ "";
  runtime_ok_host : id_value r.(ProviderRuntime.host_id) ≠ "";
  runtime_ok_capabilities : capabilities_ok r.(ProviderRuntime.capabilities);
  runtime_ok_match :
    r.(ProviderRuntime.capabilities).(RuntimeCapabilities.runtime_id) = r.(ProviderRuntime.id);
  runtime_ok_handle : ∀ h, r.(ProviderRuntime.binding_handle) = Some h →
    handle_ok h ∧ h.(ProviderBindingHandle.runtime_id) = r.(ProviderRuntime.id)
}.

Lemma ProviderRuntime_validate_ok r : ProviderRuntime_validate r = Ok tt ↔ runtime_ok r.
Proof.
  unfold ProviderRuntime_validate.
  rewrite !rbind_ok_unit, !reject_empty_ok, RuntimeCapabilities_validate_ok, if_some_ok.
  setoid_rewrite rbind_ok_unit. setoid_rewrite reject_if_ok. setoid_rewrite bool_decide_neq_false.
  setoid_rewrite ProviderBindingHandle_validate_ok.
  split; [by intros (? & ? & ? & ? & ?) | by intros []].
Qed.

Definition binding_ok (project_id : ProjectId) (b : ProjectBinding) : Prop :=
  id_value b.(ProjectBinding.id) ≠ "" ∧ b.(ProjectBinding.project_id) = project_id ∧
  id_value b.(ProjectBinding.runtime_id) ≠ "" ∧ ref_private b.(ProjectBinding.root_ref).

Record project_ok (p : Project) : Prop := {
  project_ok_id : id_value p.(Project.id) ≠ "";
  project_ok_nodup : NoDup (ProjectBinding.id <$> p.(Project.bindings));
  project_ok_bindings : ∀ b, b ∈ p.(Project.bindings) → binding_ok p.(Project.id) b
}.

Lemma Project_validate_ok p : Project_validate p = Ok tt ↔ project_ok p.
Proof.
  unfold Project_validate. rewrite rbind_ok_unit, reject_empty_ok,
    (try_for_each_seen_nil_ok _ (binding_ok p.(Project.id))).
  - split; [by intros (? & ? & ?) | by intros []].
  - intros seen b. unfold ProjectBinding_step, binding_ok. rewrite !rbind_ok_unit.
    rewrite !reject_empty_ok, !reject_if_ok, bool_decide_neq_false, contains_b_false,
      ContentRef_ensure_sensitive_ok. tauto.
Qed.

#[export] Hint Rewrite CapabilityEvidence_validate_ok RuntimeCapabilities_validate_ok
  ProviderRuntime_validate_ok Project_validate_ok : result_ok.

(** *** Capability resolution *)

Lemma permits_supported c cap :
  RuntimeCapabilities_permits c cap = true →
  ∃ e, e ∈ c.(RuntimeCapabilities.entries) ∧ e.(CapabilityEntry.capability) = cap ∧
       e.(CapabilityEntry.state) = CapabilityState.Supported.
Proof.
  unfold RuntimeCapabilities_permits, RuntimeCapabilities_state_of.
  destruct (find_first _ _) as [e|] eqn:Hf; [|done].
  apply find_first_some in Hf as [He Hc%bool_decide_eq_true].
  intros H. exists e. by destruct (e.(CapabilityEntry.state)).
Qed.

(** *** Live bindings *)

Lemma validate_observed_evidence_ok rid e :
  validate_observed_evidence rid e = Ok tt ↔
  id_value rid ≠ "" ∧ e.(CapabilityEvidence.source) = EvidenceSource.ObservedInTraffic ∧ evidence_ok e.
Proof. unfold validate_observed_evidence. by autorewrite with result_ok. Qed.

Lemma validate_live_evidence_ok rid e c :
  validate_live_evidence rid e c = Ok tt ↔
  id_value rid ≠ "" ∧ e.(CapabilityEvidence.source) = EvidenceSource.ObservedInTraffic ∧
  evidence_ok e ∧ rid = c.(RuntimeCapabilities.runtime_id).
Proof.
  unfold validate_live_evidence. rewrite rbind_ok_unit, validate_observed_evidence_ok.
  autorewrite with result_ok. tauto.
Qed.

(** The evidence a live binding carries. *)
Definition live_evidence (b : LiveBinding) : option (ProviderRuntimeId * CapabilityEvidence) :=
  match b with
  | LiveBinding.Observing rid _ e | LiveBinding.Controlling rid _ e => Some (rid, e)
  | _ => None
  end.

Lemma LiveBinding_validate_against_ok b c :
  LiveBinding_validate_against b c = Ok tt ↔
  ∀ rid e, live_evidence b = Some (rid, e) →
    id_value rid ≠ "" ∧ e.(CapabilityEvidence.source) = EvidenceSource.ObservedInTraffic ∧
    evidence_ok e ∧ rid = c.(RuntimeCapabilities.runtime_id) ∧
    RuntimeCapabilities_permits c Capability.LiveObserve = true ∧
    (LiveBinding_accepts_control b = true →
     RuntimeCapabilities_permits c Capability.LiveControl = true).
Proof.
  destruct b; simpl; rewrite ?rbind_ok_unit, ?validate_live_evidence_ok; autorewrite with result_ok;
    split; try done; first [intros H ? ? [= <- <-] | intros H; specialize (H _ _ eq_refl)];
    intuition congruence.
Qed.

Record session_ok (s : Session) : Prop := {
  session_ok_id : id_value s.(Session.id) ≠ "";
  session_ok_project : id_value s.(Session.project_id) ≠ "";
  session_ok_project_binding : id_value s.(Session.project_binding_id) ≠ "";
  session_ok_history : evidence_ok s.(Session.history_source).(HistorySource.evidence);
  session_ok_history_runtime : ∀ r, s.(Session.history_source).(HistorySource.runtime_id) = Some r →
    id_value r ≠ "";
  session_ok_handle : ∀ h, s.(Session.binding_handle) = Some h →
    handle_ok h ∧ h.(ProviderBindingHandle.kind) = ProviderBindingKind.Session;
  session_ok_live : ∀ rid e, live_evidence s.(Session.live_binding) = Some (rid, e) →
    id_value rid ≠ "" ∧ e.(CapabilityEvidence.source) = EvidenceSource.ObservedInTraffic ∧ evidence_ok e;
  session_ok_blocked : ∀ b, s.(Session.live_binding) = LiveBinding.Blocked b → id_value b ≠ ""
}.

Lemma LiveBinding_validate_shape_ok b :
  LiveBinding_validate_shape b = Ok tt ↔
  (∀ rid e, live_evidence b = Some (rid, e) →
    id_value rid ≠ "" ∧ e.(CapabilityEvidence.source) = EvidenceSource.ObservedInTraffic ∧ evidence_ok e)
  ∧ (∀ k, b = LiveBinding.Blocked k → id_value k ≠ "").
Proof.
  destruct b; simpl; rewrite ?validate_observed_evidence_ok, ?reject_empty_ok;
    split; try done; first [intros [H H']; try specialize (H _ _ eq_refl);
    try specialize (H' _ eq_refl); done | intros H; split; intros; simplify_eq; done].
Qed.

Lemma Session_validate_shape_ok s : Session_validate_shape s = Ok tt ↔ session_ok s.
Proof.
  unfold Session_validate_shape. rewrite !rbind_ok_unit, !if_some_ok, LiveBinding_validate_shape_ok,
    !reject_empty_ok, CapabilityEvidence_validate_ok.
  setoid_rewrite reject_empty_ok. setoid_rewrite ProviderBindingHandle_validate_for_ok.
  split; [by intros (? & ? & ? & ? & ? & ? & ? & ?) | by intros []].
Qed.

#[export] Hint Rewrite Session_validate_shape_ok : result_ok.

(** A validated session that claims to be live has evidence observed in traffic, by the runtime the
    capabilities belong to, and that runtime supports live observation, and live control when control is
    claimed. *)
Theorem validated_session_live_is_observed s c (Hv : Session_validate s c = Ok tt)
    (Hlive : LiveBinding_is_live s.(Session.live_binding) = true) :
  ∃ rid e, live_evidence s.(Session.live_binding) = Some (rid, e) ∧
    e.(CapabilityEvidence.source) = EvidenceSource.ObservedInTraffic ∧
    rid = c.(RuntimeCapabilities.runtime_id) ∧
    (∃ entry, entry ∈ c.(RuntimeCapabilities.entries) ∧
       entry.(CapabilityEntry.capability) = Capability.LiveObserve ∧
       entry.(CapabilityEntry.state) = CapabilityState.Supported) ∧
    (LiveBinding_accepts_control s.(Session.live_binding) = true →
     ∃ entry, entry ∈ c.(RuntimeCapabilities.entries) ∧
       entry.(CapabilityEntry.capability) = Capability.LiveControl ∧
       entry.(CapabilityEntry.state) = CapabilityState.Supported).
Proof.
  unfold Session_validate in Hv. rewrite !rbind_ok_unit in Hv. destruct Hv as (_ & Hc & Ha).
  rewrite LiveBinding_validate_against_ok in Ha.
  destruct (live_evidence s.(Session.live_binding)) as [[rid e]|] eqn:E;
    [|by destruct s.(Session.live_binding)].
  destruct (Ha rid e eq_refl) as (_ & Hsrc & _ & Hrid & Hobs & Hctl).
  exists rid, e. split_and!; try done.
  - by apply (permits_supported c).
  - intros H. by apply (permits_supported c), Hctl.
Qed.

(** *** Derived status *)

