(* ===== verification/ProtoTurn.v ===== *)
(** * Turns and items

    Models [crates/kaleido-proto/src/turn.rs]: the turn lifecycle, the item
    bodies, and the validators that keep bodies behind private references. *)
From stdpp Require Import prelude strings.
From Stdlib Require Import ZArith Lia.
From S2P Require Import Prelude ProtoBase ProtoContent.

Local Open Scope Z_scope.

(** ** Data *)

Module TurnOrigin.
Inductive TurnOrigin : Type :=
| LocalSurface
| RemoteCommand (command_id : CommandId)
| WorkflowStep (step_id : StepId).
End TurnOrigin.
Abbreviation TurnOrigin := TurnOrigin.TurnOrigin.

#[export] Instance TurnOrigin_eq_dec : EqDecision TurnOrigin.
Proof. solve_decision. Defined.

Module Turn.
Record Turn : Type := mk {
  id : TurnId;
  session_id : SessionId;
  status : TurnStatus;
  origin : TurnOrigin;
  started_at_ms : option Z;
  completed_at_ms : option Z;
  item_ids : list ItemId;
  error : option CanonicalError;
  binding_handle : option ProviderBindingHandle
}.
End Turn.
Abbreviation Turn := Turn.Turn.

#[export] Instance Turn_eq_dec : EqDecision Turn.
Proof. solve_decision. Defined.

Definition Turn_set_item_ids (v : list ItemId) (r : Turn) : Turn := {|
  Turn.id := r.(Turn.id);
  Turn.session_id := r.(Turn.session_id);
  Turn.status := r.(Turn.status);
  Turn.origin := r.(Turn.origin);
  Turn.started_at_ms := r.(Turn.started_at_ms);
  Turn.completed_at_ms := r.(Turn.completed_at_ms);
  Turn.item_ids := v;
  Turn.error := r.(Turn.error);
  Turn.binding_handle := r.(Turn.binding_handle)
|}.

Module ItemStatus.
Inductive ItemStatus : Type :=
| Pending
| InProgress
| Completed
| Declined
| Failed
| Cancelled.
End ItemStatus.
Abbreviation ItemStatus := ItemStatus.ItemStatus.

#[export] Instance ItemStatus_eq_dec : EqDecision ItemStatus.
Proof. solve_decision. Defined.

Module MessagePhase.
Inductive MessagePhase : Type :=
| Commentary
| FinalAnswer.
End MessagePhase.
Abbreviation MessagePhase := MessagePhase.MessagePhase.

#[export] Instance MessagePhase_eq_dec : EqDecision MessagePhase.
Proof. solve_decision. Defined.

Module ToolSurface.
Inductive ToolSurface : Type :=
| ShellCommand
| FileSystem
| McpServer (server_name : string)
| Builtin.
End ToolSurface.
Abbreviation ToolSurface := ToolSurface.ToolSurface.

#[export] Instance ToolSurface_eq_dec : EqDecision ToolSurface.
Proof. solve_decision. Defined.

Module ToolDescriptor.
Record ToolDescriptor : Type := mk {
  name : string;
  surface : ToolSurface
}.
End ToolDescriptor.
Abbreviation ToolDescriptor := ToolDescriptor.ToolDescriptor.

#[export] Instance ToolDescriptor_eq_dec : EqDecision ToolDescriptor.
Proof. solve_decision. Defined.

Module FileChangeKind.
Inductive FileChangeKind : Type :=
| Add
| Modify
| Delete
| Rename (from_ref : ContentRef).
End FileChangeKind.
Abbreviation FileChangeKind := FileChangeKind.FileChangeKind.

#[export] Instance FileChangeKind_eq_dec : EqDecision FileChangeKind.
Proof. solve_decision. Defined.

Module FileChange.
Record FileChange : Type := mk {
  path_ref : ContentRef;
  kind : FileChangeKind;
  diff : option ContentRef
}.
End FileChange.
Abbreviation FileChange := FileChange.FileChange.

#[export] Instance FileChange_eq_dec : EqDecision FileChange.
Proof. solve_decision. Defined.

Module ChangeSet.
Record ChangeSet : Type := mk {
  entries : list FileChange;
  truncated : bool
}.
End ChangeSet.
Abbreviation ChangeSet := ChangeSet.ChangeSet.

#[export] Instance ChangeSet_eq_dec : EqDecision ChangeSet.
Proof. solve_decision. Defined.

Module PlanEntryState.
Inductive PlanEntryState : Type :=
| Pending
| InProgress
| Completed
| Skipped.
End PlanEntryState.
Abbreviation PlanEntryState := PlanEntryState.PlanEntryState.

#[export] Instance PlanEntryState_eq_dec : EqDecision PlanEntryState.
Proof. solve_decision. Defined.

Module PlanEntry.
Record PlanEntry : Type := mk {
  title_ref : ContentRef;
  state : PlanEntryState
}.
End PlanEntry.
Abbreviation PlanEntry := PlanEntry.PlanEntry.

#[export] Instance PlanEntry_eq_dec : EqDecision PlanEntry.
Proof. solve_decision. Defined.

Module AgentTask.
Record AgentTask : Type := mk {
  id : AgentTaskId;
  title_ref : ContentRef;
  state : PlanEntryState
}.
End AgentTask.
Abbreviation AgentTask := AgentTask.AgentTask.

#[export] Instance AgentTask_eq_dec : EqDecision AgentTask.
Proof. solve_decision. Defined.

Module DiagnosticSeverity.
Inductive DiagnosticSeverity : Type :=
| Info
| Warning
| Error.
End DiagnosticSeverity.
Abbreviation DiagnosticSeverity := DiagnosticSeverity.DiagnosticSeverity.

#[export] Instance DiagnosticSeverity_eq_dec : EqDecision DiagnosticSeverity.
Proof. solve_decision. Defined.

Module ItemDiagnosticCode.
Inductive ItemDiagnosticCode : Type :=
| RuntimeNotice
| UnsupportedContent
| ContentUnavailable
| ValidationFailure.
End ItemDiagnosticCode.
Abbreviation ItemDiagnosticCode := ItemDiagnosticCode.ItemDiagnosticCode.

#[export] Instance ItemDiagnosticCode_eq_dec : EqDecision ItemDiagnosticCode.
Proof. solve_decision. Defined.

Module ItemBody.
Inductive ItemBody : Type :=
| UserMessage (content : ContentRef)
| AgentMessage (content : ContentRef) (phase : MessagePhase)
| Reasoning (content : ContentRef)
| ToolCall (tool : ToolDescriptor) (arguments output : option ContentRef) (exit_code : option Z)
| FileEdit (change_set : ChangeSet)
| PlanUpdate (entries : list PlanEntry)
| TaskUpdate (tasks : list AgentTask)
| Diagnostic (severity : DiagnosticSeverity) (code : ItemDiagnosticCode) (detail : ContentRef).
End ItemBody.
Abbreviation ItemBody := ItemBody.ItemBody.

#[export] Instance ItemBody_eq_dec : EqDecision ItemBody.
Proof. solve_decision. Defined.

Module Item.
Record Item : Type := mk {
  id : ItemId;
  session_id : SessionId;
  turn_id : TurnId;
  sequence : Z;
  status : ItemStatus;
  body : ItemBody;
  created_at_ms : Z;
  updated_at_ms : Z;
  binding_handle : option ProviderBindingHandle
}.
End Item.
Abbreviation Item := Item.Item.

#[export] Instance Item_eq_dec : EqDecision Item.
Proof. solve_decision. Defined.

(** ** Operations *)

Definition ItemStatus_is_terminal (s : ItemStatus) : bool :=
  match s with
  | ItemStatus.Completed | ItemStatus.Declined | ItemStatus.Failed | ItemStatus.Cancelled => true
  | _ => false
  end.

Definition ItemStatus_is_failure (s : ItemStatus) : bool :=
  match s with
  | ItemStatus.Failed => true
  | _ => false
  end.

Definition TurnStatus_is_terminal (s : TurnStatus) : bool :=
  match s with
  | TurnStatus.Completed | TurnStatus.Failed | TurnStatus.Cancelled => true
  | _ => false
  end.

Definition sort_ids {k} (l : list (Id k)) : list (Id k) :=
  sort_by (λ a b, str_leb (id_value a) (id_value b)) l.

Definition Turn_validate (t : Turn) : contract_check :=
  reject_if (is_some t.(Turn.error) && bool_decide (t.(Turn.status) ≠ TurnStatus.Failed))
            (ContractViolation.TurnErrorWithoutFailure t.(Turn.status)) ;?
  reject_if (bool_decide (t.(Turn.status) = TurnStatus.Failed) && is_none t.(Turn.error))
            ContractViolation.FailedTurnWithoutError ;?
  reject_if (TurnStatus_is_terminal t.(Turn.status) && is_none t.(Turn.completed_at_ms))
            ContractViolation.TerminalTurnWithoutTimestamp ;?
  (let seen := sort_ids t.(Turn.item_ids) in
   reject_if (negb (Nat.eqb (length (dedup seen)) (length seen)))
             ContractViolation.DuplicateItemReference) ;?
  if_some t.(Turn.binding_handle) (λ binding_handle,
    ProviderBindingHandle_validate_for binding_handle ProviderBindingKind.Turn).

Definition Turn_status_after_decline (t : Turn) : TurnStatus := t.(Turn.status).

Definition FileChange_validate (entry : FileChange) : contract_check :=
  ContentRef_ensure_sensitive entry.(FileChange.path_ref) "item.file_edit.path_ref" ;?
  if_some entry.(FileChange.diff) (λ diff,
    ContentRef_ensure_sensitive diff "item.file_edit.diff") ;?
  match entry.(FileChange.kind) with
  | FileChangeKind.Rename from_ref =>
      ContentRef_ensure_sensitive from_ref "item.file_edit.rename.from_ref"
  | _ => Ok tt
  end.

Definition ItemBody_validate (body : ItemBody) : contract_check :=
  match body with
  | ItemBody.UserMessage content =>
      ContentRef_ensure_sensitive content "item.user_message.content"
  | ItemBody.AgentMessage content _ =>
      ContentRef_ensure_sensitive content "item.agent_message.content"
  | ItemBody.Reasoning content =>
      ContentRef_ensure_sensitive content "item.reasoning.content"
  | ItemBody.ToolCall _ arguments output _ =>
      if_some arguments (λ r, ContentRef_ensure_sensitive r "item.tool_call.arguments") ;?
      if_some output (λ r, ContentRef_ensure_sensitive r "item.tool_call.output")
  | ItemBody.FileEdit change_set =>
      try_for_each FileChange_validate change_set.(ChangeSet.entries)
  | ItemBody.PlanUpdate entries =>
      try_for_each (λ entry,
        ContentRef_ensure_sensitive entry.(PlanEntry.title_ref) "item.plan_update.title_ref") entries
  | ItemBody.TaskUpdate tasks =>
      try_for_each (λ task,
        reject_empty task.(AgentTask.id) "agent_task.id" ;?
        ContentRef_ensure_sensitive task.(AgentTask.title_ref) "item.task_update.title_ref") tasks
  | ItemBody.Diagnostic _ _ detail =>
      ContentRef_ensure_sensitive detail "item.diagnostic.detail"
  end.

Definition Item_validate (i : Item) : contract_check :=
  reject_empty i.(Item.id) "item.id" ;?
  reject_empty i.(Item.session_id) "item.session_id" ;?
  reject_empty i.(Item.turn_id) "item.turn_id" ;?
  if_some i.(Item.binding_handle) (λ binding_handle,
    ProviderBindingHandle_validate_for binding_handle ProviderBindingKind.Item) ;?
  ItemBody_validate i.(Item.body).

(** The references an item carries ([state.rs], [item_content_refs]). *)
Definition item_content_refs (item : Item) : list ContentRef :=
  match item.(Item.body) with
  | ItemBody.UserMessage content | ItemBody.AgentMessage content _ | ItemBody.Reasoning content =>
      [content]
  | ItemBody.ToolCall _ arguments output _ => option_list arguments ++ option_list output
  | ItemBody.FileEdit change_set =>
      entry ← change_set.(ChangeSet.entries);
      entry.(FileChange.path_ref) :: option_list entry.(FileChange.diff) ++
      match entry.(FileChange.kind) with
      | FileChangeKind.Rename from_ref => [from_ref]
      | FileChangeKind.Add | FileChangeKind.Modify | FileChangeKind.Delete => []
      end
  | ItemBody.PlanUpdate entries => PlanEntry.title_ref <$> entries
  | ItemBody.TaskUpdate tasks => AgentTask.title_ref <$> tasks
  | ItemBody.Diagnostic _ _ detail => [detail]
  end.

(** ** What the validators establish *)

Lemma sort_ids_perm {k} (l : list (Id k)) : sort_ids l ≡ₚ l.
Proof. apply sort_by_perm. Qed.

Lemma sorted_dedup_length {k} (l : list (Id k)) :
  length (dedup (sort_ids l)) = length (sort_ids l) ↔ NoDup l.
Proof.
  rewrite (dedup_length (λ a b, str_leb (id_value a) (id_value b))).
  - by rewrite sort_ids_perm.
  - intros [a] [b] ? ?. f_equal. by apply str_leb_antisym.
  - apply sort_by_sorted; intros; [apply str_leb_total | by eapply str_leb_trans].
Qed.

Record turn_ok (t : Turn) : Prop := {
  turn_ok_error : is_Some t.(Turn.error) ↔ t.(Turn.status) = TurnStatus.Failed;
  turn_ok_completed : TurnStatus_is_terminal t.(Turn.status) = true → is_Some t.(Turn.completed_at_ms);
  turn_ok_items : NoDup t.(Turn.item_ids);
  turn_ok_handle : ∀ h, t.(Turn.binding_handle) = Some h →
    handle_ok h ∧ h.(ProviderBindingHandle.kind) = ProviderBindingKind.Turn
}.

Lemma Turn_validate_ok t : Turn_validate t = Ok tt ↔ turn_ok t.
Proof.
  unfold Turn_validate. rewrite !rbind_ok_unit, !reject_if_ok, !andb_false_impl, if_some_ok.
  setoid_rewrite ProviderBindingHandle_validate_for_ok.
  rewrite negb_false_true, Nat.eqb_eq, sorted_dedup_length.
  rewrite !is_none_false, is_some_true, bool_decide_neq_false, bool_decide_eq_true.
  split; [by intros (? & ? & ? & ? & ?) | by intros [[]]].
Qed.

#[export] Hint Rewrite Turn_validate_ok : result_ok.

Lemma FileChange_validate_ok e :
  FileChange_validate e = Ok tt ↔
  ref_private e.(FileChange.path_ref) ∧
  (∀ r, e.(FileChange.diff) = Some r → ref_private r) ∧
  (∀ r, e.(FileChange.kind) = FileChangeKind.Rename r → ref_private r).
Proof.
  unfold FileChange_validate.
  rewrite !rbind_ok_unit, if_some_ok, ContentRef_ensure_sensitive_ok.
  setoid_rewrite ContentRef_ensure_sensitive_ok.
  destruct e.(FileChange.kind); rewrite ?ContentRef_ensure_sensitive_ok; naive_solver.
Qed.

(** Every body an accepted item carries is private. *)
Lemma Item_validate_refs i r :
  Item_validate i = Ok tt → r ∈ item_content_refs i → ref_private r.
Proof.
  unfold Item_validate, item_content_refs. rewrite !rbind_ok_unit. intros (_ & _ & _ & _ & Hb).
  destruct i.(Item.body); simpl in Hb;
    rewrite ?rbind_ok_unit, ?if_some_ok, ?try_for_each_ok, ?ContentRef_ensure_sensitive_ok in Hb;
    rewrite ?list_elem_of_singleton; try by intros ->.
  - rewrite elem_of_app, !elem_of_option_list. destruct Hb as [Ha Ho].
    intros [H|H]; [apply Ha in H | apply Ho in H]; by apply ContentRef_ensure_sensitive_ok in H.
  - rewrite list_elem_of_bind. intros (e & Hr & He). apply Hb, FileChange_validate_ok in He as (Hp & Hd & Hk).
    apply elem_of_cons in Hr as [->|Hr]; [done|].
    apply elem_of_app in Hr as [Hr%elem_of_option_list|Hr]; [by apply Hd|].
    destruct e.(FileChange.kind); apply list_elem_of_singleton in Hr || by apply elem_of_nil in Hr.
    subst. by apply Hk.
  - rewrite list_elem_of_fmap. intros (e & -> & He). apply Hb in He.
    by apply ContentRef_ensure_sensitive_ok in He.
  - rewrite list_elem_of_fmap. intros (t & -> & Ht). apply Hb in Ht.
    rewrite rbind_ok_unit, ContentRef_ensure_sensitive_ok in Ht. by destruct Ht.
Qed.
