(* ===== verification/ProtoQueue.v ===== *)
(** * The user input queue

    Models [crates/kaleido-proto/src/queue.rs]: queue entries and their
    lifecycle, the proof a delivered steer must carry, and the two functions
    that fix what a reorder may do. *)
From stdpp Require Import prelude strings.
From Stdlib Require Import ZArith Lia.
From S2P Require Import Prelude ProtoBase ProtoContent ProtoRuntime.

Local Open Scope Z_scope.

(** ** Data *)

Module QueueIntent.
Inductive QueueIntent : Type :=
| NewTurn
| SteerActiveTurn.
End QueueIntent.
Abbreviation QueueIntent := QueueIntent.QueueIntent.

#[export] Instance QueueIntent_eq_dec : EqDecision QueueIntent.
Proof. solve_decision. Defined.

Module SteerAcknowledgement.
Record SteerAcknowledgement : Type := mk {
  source : EvidenceSource;
  runtime_id : ProviderRuntimeId;
  session_id : SessionId;
  turn_id : TurnId;
  binding_handle : ProviderBindingHandle;
  observed_at_ms : Z
}.
End SteerAcknowledgement.
Abbreviation SteerAcknowledgement := SteerAcknowledgement.SteerAcknowledgement.

#[export] Instance SteerAcknowledgement_eq_dec : EqDecision SteerAcknowledgement.
Proof. solve_decision. Defined.

Module QueueState.
Inductive QueueState : Type :=
| Pending
| Submitting (command_id : CommandId)
| DeliveredAsNewTurn (turn_id : TurnId) (delivered_at_ms : Z)
| DeliveredAsSteer (runtime_id : ProviderRuntimeId) (turn_id : TurnId)
    (binding_handle : ProviderBindingHandle) (injected_at_ms : Z) (ack : SteerAcknowledgement)
| Rejected (error : CanonicalError)
| Cancelled (at_ms : Z).
End QueueState.
Abbreviation QueueState := QueueState.QueueState.

#[export] Instance QueueState_eq_dec : EqDecision QueueState.
Proof. solve_decision. Defined.

Module QueueEntry.
Record QueueEntry : Type := mk {
  id : QueueEntryId;
  session_id : SessionId;
  position : Z;
  intent : QueueIntent;
  body : ContentRef;
  state : QueueState;
  editable : bool;
  created_at_ms : Z;
  updated_at_ms : Z
}.
End QueueEntry.
Abbreviation QueueEntry := QueueEntry.QueueEntry.

#[export] Instance QueueEntry_eq_dec : EqDecision QueueEntry.
Proof. solve_decision. Defined.

Definition QueueEntry_set_position (v : Z) (r : QueueEntry) : QueueEntry := {|
  QueueEntry.id := r.(QueueEntry.id);
  QueueEntry.session_id := r.(QueueEntry.session_id);
  QueueEntry.position := v;
  QueueEntry.intent := r.(QueueEntry.intent);
  QueueEntry.body := r.(QueueEntry.body);
  QueueEntry.state := r.(QueueEntry.state);
  QueueEntry.editable := r.(QueueEntry.editable);
  QueueEntry.created_at_ms := r.(QueueEntry.created_at_ms);
  QueueEntry.updated_at_ms := r.(QueueEntry.updated_at_ms)
|}.

(** ** Operations *)

Definition QueueState_reached_runtime (s : QueueState) : bool :=
  match s with
  | QueueState.DeliveredAsNewTurn _ _ | QueueState.DeliveredAsSteer _ _ _ _ _ => true
  | _ => false
  end.

Definition QueueState_is_pending (s : QueueState) : bool :=
  match s with
  | QueueState.Pending => true
  | _ => false
  end.

Definition QueueState_is_terminal (s : QueueState) : bool :=
  match s with
  | QueueState.DeliveredAsNewTurn _ _ | QueueState.DeliveredAsSteer _ _ _ _ _
  | QueueState.Rejected _ | QueueState.Cancelled _ => true
  | _ => false
  end.

Definition entry_pending (e : QueueEntry) : bool := QueueState_is_pending e.(QueueEntry.state).

Definition QueueEntry_validate_steer (e : QueueEntry) : contract_check :=
  match e.(QueueEntry.state) with
  | QueueState.DeliveredAsSteer runtime_id turn_id binding_handle _ ack =>
      reject_if (bool_decide (ack.(SteerAcknowledgement.source) ≠ EvidenceSource.ObservedInTraffic))
                (ContractViolation.UnprovenSteerDelivery ack.(SteerAcknowledgement.source)) ;?
      reject_if (bool_decide (ack.(SteerAcknowledgement.session_id) ≠ e.(QueueEntry.session_id)))
                ContractViolation.SteerSessionMismatch ;?
      reject_if (bool_decide (ack.(SteerAcknowledgement.turn_id) ≠ turn_id))
                ContractViolation.SteerTurnMismatch ;?
      reject_if (bool_decide (ack.(SteerAcknowledgement.runtime_id) ≠ runtime_id))
                ContractViolation.SteerRuntimeMismatch ;?
      reject_if (bool_decide (ack.(SteerAcknowledgement.binding_handle) ≠ binding_handle))
                ContractViolation.SteerBindingMismatch ;?
      ProviderBindingHandle_validate_for binding_handle ProviderBindingKind.RuntimeAcknowledgement ;?
      reject_if (bool_decide (binding_handle.(ProviderBindingHandle.runtime_id) ≠ runtime_id))
                ContractViolation.SteerBindingMismatch
  | _ => Ok tt
  end.

Definition QueueEntry_validate (e : QueueEntry) : contract_check :=
  ContentRef_validate e.(QueueEntry.body) ;?
  reject_if (bool_decide (e.(QueueEntry.body).(ContentRef.sensitivity) ≠ Sensitivity.Sensitive))
            (ContractViolation.SensitiveContentRequired "queue_entry.body") ;?
  reject_if (e.(QueueEntry.editable) && negb (entry_pending e))
            ContractViolation.EditableNonPendingQueueEntry ;?
  QueueEntry_validate_steer e ;?
  match e.(QueueEntry.state) with
  | QueueState.Rejected error => CanonicalError_validate error
  | _ => Ok tt
  end.

Definition QueueEntry_validate_for_active_turn (e : QueueEntry) (active_turn_id : TurnId)
    (capabilities : RuntimeCapabilities) : contract_check :=
  QueueEntry_validate e ;?
  match e.(QueueEntry.state) with
  | QueueState.DeliveredAsSteer runtime_id turn_id _ _ _ =>
      reject_if (bool_decide (turn_id ≠ active_turn_id)) ContractViolation.SteerNotActiveTurn ;?
      reject_if (bool_decide (capabilities.(RuntimeCapabilities.runtime_id) ≠ runtime_id))
                ContractViolation.SteerRuntimeMismatch ;?
      reject_if (negb (RuntimeCapabilities_permits capabilities Capability.TurnSteer))
                ContractViolation.SteerCapabilityUnsupported
  | _ => Ok tt
  end.

Definition QueueEntry_may_submit (e : QueueEntry) (capabilities : RuntimeCapabilities) : bool :=
  match e.(QueueEntry.intent) with
  | QueueIntent.NewTurn => RuntimeCapabilities_permits capabilities Capability.TurnPrompt
  | QueueIntent.SteerActiveTurn => RuntimeCapabilities_permits capabilities Capability.TurnSteer
  end.

Definition reorderable_entries (entries : list QueueEntry) : list QueueEntryId :=
  QueueEntry.id <$> sort_by_key QueueEntry.position (filter_b entry_pending entries).

Definition reorder_step (session_id : SessionId) (entries : list QueueEntry)
    (seen : list QueueEntryId) (entry_id : QueueEntryId) : contract_check :=
  reject_if (contains_b entry_id seen) ContractViolation.QueueReorderDuplicate ;?
  let? entry := ok_or (find_first (λ c, bool_decide (c.(QueueEntry.id) = entry_id)) entries)
                      ContractViolation.QueueReorderUnknownEntry in
  reject_if (bool_decide (entry.(QueueEntry.session_id) ≠ session_id))
            ContractViolation.QueueReorderCrossSession ;?
  reject_if (negb (entry_pending entry)) ContractViolation.QueueReorderNonPending.

Definition validate_queue_reorder (session_id : SessionId) (order : list QueueEntryId)
    (entries : list QueueEntry) : contract_check :=
  try_for_each_seen id (reorder_step session_id entries) [] order ;?
  reject_if (existsb (λ entry, bool_decide (entry.(QueueEntry.session_id) = session_id)
                               && entry_pending entry
                               && negb (contains_b entry.(QueueEntry.id) order)) entries)
            ContractViolation.QueueReorderMissingPending.

(** ** What the validators establish *)

(** The proof a delivered steer carries: the runtime acknowledged the injection
    in observed traffic, for this session, turn, runtime and binding. *)
Definition steer_proved (e : QueueEntry) : Prop :=
  ∀ rid tid h at_ms ack,
    e.(QueueEntry.state) = QueueState.DeliveredAsSteer rid tid h at_ms ack →
    ack.(SteerAcknowledgement.source) = EvidenceSource.ObservedInTraffic ∧
    ack.(SteerAcknowledgement.session_id) = e.(QueueEntry.session_id) ∧
    ack.(SteerAcknowledgement.turn_id) = tid ∧
    ack.(SteerAcknowledgement.runtime_id) = rid ∧
    ack.(SteerAcknowledgement.binding_handle) = h ∧
    handle_ok h ∧ h.(ProviderBindingHandle.kind) = ProviderBindingKind.RuntimeAcknowledgement ∧
    h.(ProviderBindingHandle.runtime_id) = rid.

Record entry_ok_q (e : QueueEntry) : Prop := {
  entry_ok_body : ref_private e.(QueueEntry.body);
  entry_ok_editable : e.(QueueEntry.editable) = true → e.(QueueEntry.state) = QueueState.Pending;
  entry_ok_steer : steer_proved e;
  entry_ok_rejected : ∀ err, e.(QueueEntry.state) = QueueState.Rejected err →
    CanonicalError_validate err = Ok tt
}.

Lemma entry_pending_true e : entry_pending e = true ↔ e.(QueueEntry.state) = QueueState.Pending.
Proof. unfold entry_pending. by destruct e.(QueueEntry.state). Qed.

Lemma QueueEntry_validate_steer_ok e : QueueEntry_validate_steer e = Ok tt ↔ steer_proved e.
Proof.
  unfold QueueEntry_validate_steer, steer_proved.
  destruct e.(QueueEntry.state) as [| | |rid tid h at_ms ack| |] eqn:E; try (by split; intros; simplify_eq).
  autorewrite with result_ok. split.
  - intros Hok ? ? ? ? ? [= <- <- <- <- <-]. tauto.
  - intros Hok. specialize (Hok _ _ _ _ _ eq_refl). tauto.
Qed.

Lemma QueueEntry_validate_ok e : QueueEntry_validate e = Ok tt ↔ entry_ok_q e.
Proof.
  unfold QueueEntry_validate. rewrite !rbind_ok_unit, QueueEntry_validate_steer_ok, !reject_if_ok,
    bool_decide_neq_false, ContentRef_validate_ok, andb_false_impl, negb_false_true, entry_pending_true.
  split.
  - intros (? & ? & ? & ? & H). split; try done. intros err E. by rewrite E in H.
  - intros [[? ?] ? ? Hrej]. split_and!; try done. destruct e.(QueueEntry.state); try done. by apply Hrej.
Qed.

Lemma reorder_step_ok sid entries seen x :
  NoDup (QueueEntry.id <$> entries) →
  reorder_step sid entries seen x = Ok tt ↔
  (x ∉ seen) ∧ ∃ e, e ∈ entries ∧ e.(QueueEntry.id) = x ∧
    e.(QueueEntry.session_id) = sid ∧ entry_pending e = true.
Proof.
  intros Hnd. unfold reorder_step. rewrite rbind_ok_unit, rbind_ok, reject_if_ok, contains_b_false.
  setoid_rewrite ok_or_ok. setoid_rewrite rbind_ok_unit. setoid_rewrite reject_if_ok.
  setoid_rewrite bool_decide_neq_false. setoid_rewrite negb_false_true.
  apply and_iff_compat_l. split.
  - intros (e & Hf & Hs & Hp). apply find_first_some in Hf as [He Hid%bool_decide_eq_true]. by exists e.
  - intros (e & He & <- & Hs & Hp). exists e. by rewrite find_first_unique.
Qed.

(** The entries a reorder of session [sid] must name. *)
Definition pending_of (sid : SessionId) (entries : list QueueEntry) : list QueueEntry :=
  filter_b (λ e, bool_decide (e.(QueueEntry.session_id) = sid) && entry_pending e) entries.

Lemma elem_of_pending_of sid entries e :
  e ∈ pending_of sid entries ↔
  e ∈ entries ∧ e.(QueueEntry.session_id) = sid ∧ entry_pending e = true.
Proof.
  unfold pending_of. by rewrite elem_of_filter_b, andb_true_iff, bool_decide_eq_true.
Qed.

Lemma validate_queue_reorder_perm sid order entries :
  NoDup (QueueEntry.id <$> entries) →
  validate_queue_reorder sid order entries = Ok tt ↔
  order ≡ₚ QueueEntry.id <$> pending_of sid entries.
Proof.
  intros Hnd. unfold validate_queue_reorder.
  rewrite rbind_ok_unit, (try_for_each_seen_nil_ok id (λ x, ∃ e, e ∈ entries ∧ e.(QueueEntry.id) = x ∧
    e.(QueueEntry.session_id) = sid ∧ entry_pending e = true)) by (intros; by apply reorder_step_ok).
  rewrite list_fmap_id, reject_if_ok, existsb_false. split.
  - intros [[Hno Hin] Hall]. apply NoDup_Permutation; [done|by apply filter_b_fmap_NoDup|].
    intros x. rewrite list_elem_of_fmap. split.
    + intros (e & ? & ? & ? & ?)%Hin. exists e. by rewrite elem_of_pending_of.
    + intros (e & -> & (He & Hs & Hp)%elem_of_pending_of).
      specialize (Hall e He). simpl in Hall. rewrite Hp, (bool_decide_true _ Hs) in Hall. simpl in Hall.
      by apply negb_false_true, contains_b_true in Hall.
  - intros Hperm. split; [split|].
    + rewrite Hperm. by apply filter_b_fmap_NoDup.
    + intros x. rewrite Hperm, list_elem_of_fmap. intros (e & -> & (? & ? & ?)%elem_of_pending_of). by exists e.
    + intros e He. apply not_true_iff_false. rewrite !andb_true_iff, bool_decide_eq_true,
        negb_true_false, contains_b_false, Hperm, list_elem_of_fmap.
      intros [[Hs Hp] Hn]. apply Hn. exists e. by rewrite elem_of_pending_of.
Qed.

(** A reorder request is accepted exactly when it is a permutation of the pending entries of the session: none
    missing, none foreign, none repeated. *)
Theorem validate_queue_reorder_exact sid order entries
    (Hnd : NoDup (QueueEntry.id <$> entries)) :
  validate_queue_reorder sid order entries = Ok tt ↔
  order ≡ₚ QueueEntry.id <$> pending_of sid entries.
Proof. by apply validate_queue_reorder_perm. Qed.

(** A queue entry accepted as delivered by steering has an acknowledgement observed in traffic for its session
    and the active turn, by a runtime that supports steering, under a handle of that runtime, and is no longer
    editable. *)
Theorem delivered_steer_is_proved e turn caps
    (Hv : QueueEntry_validate_for_active_turn e turn caps = Ok tt) rid tid h at_ms ack
    (Hs : e.(QueueEntry.state) = QueueState.DeliveredAsSteer rid tid h at_ms ack) :
  tid = turn ∧ rid = caps.(RuntimeCapabilities.runtime_id) ∧
  ack.(SteerAcknowledgement.source) = EvidenceSource.ObservedInTraffic ∧
  ack.(SteerAcknowledgement.session_id) = e.(QueueEntry.session_id) ∧
  ack.(SteerAcknowledgement.turn_id) = turn ∧
  h.(ProviderBindingHandle.runtime_id) = rid ∧
  h.(ProviderBindingHandle.kind) = ProviderBindingKind.RuntimeAcknowledgement ∧
  (∃ entry, entry ∈ caps.(RuntimeCapabilities.entries) ∧
     entry.(CapabilityEntry.capability) = Capability.TurnSteer ∧
     entry.(CapabilityEntry.state) = CapabilityState.Supported) ∧
  e.(QueueEntry.editable) = false.
Proof.
  unfold QueueEntry_validate_for_active_turn in Hv. rewrite rbind_ok_unit, QueueEntry_validate_ok in Hv.
  destruct Hv as [[_ Hed Hst _] Hv]. rewrite Hs in Hv. simpl_ok. destruct Hv as (-> & <- & Hperm).
  destruct (Hst _ _ _ _ _ Hs) as (? & ? & ? & ? & ? & ? & ? & ?).
  split_and!; try done; [by apply permits_supported|].
  rewrite Hs in Hed. destruct e.(QueueEntry.editable); [by specialize (Hed eq_refl)|done].
Qed.
