(* ===== verification/ProtoWorkflow.v ===== *)
(** * Cross-agent workflows

    Models [crates/kaleido-proto/src/workflow.rs] and the [Actor] type of
    [src/command.rs]: steps, the admission check, and the closed transition
    table for manual workflow actions. *)
From stdpp Require Import prelude strings.
From Stdlib Require Import ZArith Lia Relations.
From S2P Require Import Prelude ProtoBase ProtoContent ProtoRuntime.

Local Open Scope Z_scope.

(** ** Data *)

Module Actor.
Inductive Actor : Type :=
| Human (device_id : DeviceId)
| Workflow (workflow_id : WorkflowId)
| Broker.
End Actor.
Abbreviation Actor := Actor.Actor.

#[export] Instance Actor_eq_dec : EqDecision Actor.
Proof. solve_decision. Defined.

Module WorkflowState.
Inductive WorkflowState : Type :=
| Draft
| Ready
| Running
| Blocked
| WaitingHuman
| Review
| Rework
| Completed
| Failed
| Cancelled.
End WorkflowState.
Abbreviation WorkflowState := WorkflowState.WorkflowState.

#[export] Instance WorkflowState_eq_dec : EqDecision WorkflowState.
Proof. solve_decision. Defined.

Module Workflow.
Record Workflow : Type := mk {
  id : WorkflowId;
  project_id : ProjectId;
  title : string;
  state : WorkflowState;
  step_ids : list StepId;
  created_at_ms : Z;
  updated_at_ms : Z
}.
End Workflow.
Abbreviation Workflow := Workflow.Workflow.

#[export] Instance Workflow_eq_dec : EqDecision Workflow.
Proof. solve_decision. Defined.

Module StepRole.
Inductive StepRole : Type :=
| Plan
| Implement
| Review
| Verify
| Custom.
End StepRole.
Abbreviation StepRole := StepRole.StepRole.

#[export] Instance StepRole_eq_dec : EqDecision StepRole.
Proof. solve_decision. Defined.

Module StepState.
Inductive StepState : Type :=
| Draft
| Ready
| Running
| Blocked
| WaitingHuman
| Review
| Rework
| Completed
| Failed
| Skipped
| Cancelled.
End StepState.
Abbreviation StepState := StepState.StepState.

#[export] Instance StepState_eq_dec : EqDecision StepState.
Proof. solve_decision. Defined.

Module RuntimeSelector.
Record RuntimeSelector : Type := mk {
  family : ProviderFamily;
  required : list Capability;
  runtime_id : option ProviderRuntimeId
}.
End RuntimeSelector.
Abbreviation RuntimeSelector := RuntimeSelector.RuntimeSelector.

#[export] Instance RuntimeSelector_eq_dec : EqDecision RuntimeSelector.
Proof. solve_decision. Defined.

Module StepAssignment.
Record StepAssignment : Type := mk {
  selector : RuntimeSelector;
  project_binding_id : ProjectBindingId;
  worktree_ref : ContentRef
}.
End StepAssignment.
Abbreviation StepAssignment := StepAssignment.StepAssignment.

#[export] Instance StepAssignment_eq_dec : EqDecision StepAssignment.
Proof. solve_decision. Defined.

Module ArtifactKind.
Inductive ArtifactKind : Type :=
| Plan
| Diff
| Commit
| ReviewNotes
| TestReport.
End ArtifactKind.
Abbreviation ArtifactKind := ArtifactKind.ArtifactKind.

#[export] Instance ArtifactKind_eq_dec : EqDecision ArtifactKind.
Proof. solve_decision. Defined.

Module CompletionCondition.
Inductive CompletionCondition : Type :=
| AgentTurnCompleted
| ArtifactProduced (artifact_kind : ArtifactKind)
| HumanApproved.
End CompletionCondition.
Abbreviation CompletionCondition := CompletionCondition.CompletionCondition.

#[export] Instance CompletionCondition_eq_dec : EqDecision CompletionCondition.
Proof. solve_decision. Defined.

Module Artifact.
Record Artifact : Type := mk {
  id : ArtifactId;
  workflow_id : WorkflowId;
  produced_by : option StepId;
  kind : ArtifactKind;
  content : ContentRef;
  created_at_ms : Z
}.
End Artifact.
Abbreviation Artifact := Artifact.Artifact.

#[export] Instance Artifact_eq_dec : EqDecision Artifact.
Proof. solve_decision. Defined.

Module WorkflowAction.
Inductive WorkflowAction : Type :=
| Advance
| Retry
| Rework
| Skip
| Cancel
| Reassign.
End WorkflowAction.
Abbreviation WorkflowAction := WorkflowAction.WorkflowAction.

#[export] Instance WorkflowAction_eq_dec : EqDecision WorkflowAction.
Proof. solve_decision. Defined.

Module StepTransition.
Record StepTransition : Type := mk {
  from : StepState;
  to : StepState;
  action : WorkflowAction;
  actor : Actor;
  at_ms : Z;
  reason_ref : option ContentRef
}.
End StepTransition.
Abbreviation StepTransition := StepTransition.StepTransition.

#[export] Instance StepTransition_eq_dec : EqDecision StepTransition.
Proof. solve_decision. Defined.

Module Step.
Record Step : Type := mk {
  id : StepId;
  workflow_id : WorkflowId;
  title : string;
  role : StepRole;
  assignment : StepAssignment;
  depends_on : list StepId;
  inputs : list ArtifactId;
  outputs : list ArtifactId;
  completion : CompletionCondition;
  human_gate : option AttentionId;
  session_id : option SessionId;
  state : StepState;
  attempt : Z;
  audit : list StepTransition
}.
End Step.
Abbreviation Step := Step.Step.

#[export] Instance Step_eq_dec : EqDecision Step.
Proof. solve_decision. Defined.

Definition Step_set_attempt (v : Z) (r : Step) : Step := {|
  Step.id := r.(Step.id);
  Step.workflow_id := r.(Step.workflow_id);
  Step.title := r.(Step.title);
  Step.role := r.(Step.role);
  Step.assignment := r.(Step.assignment);
  Step.depends_on := r.(Step.depends_on);
  Step.inputs := r.(Step.inputs);
  Step.outputs := r.(Step.outputs);
  Step.completion := r.(Step.completion);
  Step.human_gate := r.(Step.human_gate);
  Step.session_id := r.(Step.session_id);
  Step.state := r.(Step.state);
  Step.attempt := v;
  Step.audit := r.(Step.audit)
|}.

Module StepBlocker.
Inductive StepBlocker : Type :=
| DependencyIncomplete (step_id : StepId)
| CapabilityNotSupported (capability : Capability)
| HumanGateOpen (attention_id : AttentionId)
| NotSchedulable (state : StepState).
End StepBlocker.
Abbreviation StepBlocker := StepBlocker.StepBlocker.

#[export] Instance StepBlocker_eq_dec : EqDecision StepBlocker.
Proof. solve_decision. Defined.

(** ** Operations *)

Definition Actor_validate (a : Actor) : contract_check :=
  match a with
  | Actor.Human device_id => reject_empty device_id "actor.device_id"
  | Actor.Workflow workflow_id => reject_empty workflow_id "actor.workflow_id"
  | Actor.Broker => Ok tt
  end.

Definition Workflow_validate (w : Workflow) : contract_check :=
  reject_empty w.(Workflow.id) "workflow.id" ;?
  reject_empty w.(Workflow.project_id) "workflow.project_id" ;?
  reject_if (existsb id_is_empty w.(Workflow.step_ids))
            (ContractViolation.EmptyIdentifier "workflow.step_ids").

(** The closed transition table. *)
Definition transition_allowed (from : StepState) (action : WorkflowAction) (to : StepState) : bool :=
  match action with
  | WorkflowAction.Advance =>
      match from, to with
      | StepState.Draft, StepState.Ready
      | StepState.Ready, StepState.Running
      | StepState.Running, StepState.Review
      | StepState.Running, StepState.Completed
      | StepState.WaitingHuman, StepState.Ready
      | StepState.Blocked, StepState.Ready
      | StepState.Rework, StepState.Ready
      | StepState.Review, StepState.Completed => true
      | _, _ => false
      end
  | WorkflowAction.Retry =>
      bool_decide (from = StepState.Failed) && bool_decide (to = StepState.Ready)
  | WorkflowAction.Rework =>
      match from with
      | StepState.Review | StepState.Completed | StepState.Failed => true
      | _ => false
      end && bool_decide (to = StepState.Rework)
  | WorkflowAction.Skip =>
      match from with
      | StepState.Draft | StepState.Ready | StepState.Blocked | StepState.WaitingHuman
      | StepState.Review | StepState.Rework | StepState.Failed => true
      | _ => false
      end && bool_decide (to = StepState.Skipped)
  | WorkflowAction.Cancel =>
      negb match from with
           | StepState.Completed | StepState.Failed | StepState.Skipped | StepState.Cancelled => true
           | _ => false
           end && bool_decide (to = StepState.Cancelled)
  | WorkflowAction.Reassign =>
      match from with
      | StepState.Draft | StepState.Ready | StepState.Blocked | StepState.WaitingHuman
      | StepState.Rework | StepState.Failed => true
      | _ => false
      end && bool_decide (to = from)
  end.

Definition validate_transition (from : StepState) (action : WorkflowAction) (to : StepState)
    : contract_check :=
  if transition_allowed from action to then Ok tt
  else Err ContractViolation.WorkflowTransitionNotAllowed.

Definition StepAssignment_validate (a : StepAssignment) : contract_check :=
  reject_empty a.(StepAssignment.project_binding_id) "project_binding_id" ;?
  validate_sensitive a.(StepAssignment.worktree_ref) "step_assignment.worktree_ref".

Definition StepTransition_validate (t : StepTransition) : contract_check :=
  validate_transition t.(StepTransition.from) t.(StepTransition.action) t.(StepTransition.to) ;?
  if_some t.(StepTransition.reason_ref) (λ reason_ref,
    validate_sensitive reason_ref "step_transition.reason_ref").

Definition Step_validate (s : Step) : contract_check :=
  reject_empty s.(Step.id) "step.id" ;?
  reject_empty s.(Step.workflow_id) "step.workflow_id" ;?
  StepAssignment_validate s.(Step.assignment) ;?
  try_for_each StepTransition_validate s.(Step.audit).

Definition step_done (s : StepState) : bool :=
  match s with
  | StepState.Completed | StepState.Skipped => true
  | _ => false
  end.

Definition Step_blockers (s : Step) (dependency_states : list (StepId * StepState))
    (capabilities : RuntimeCapabilities) (gate_open : bool) : list StepBlocker :=
  (if bool_decide (s.(Step.state) ≠ StepState.Ready)
   then [StepBlocker.NotSchedulable s.(Step.state)] else []) ++
  filter_map (λ dependency,
    if existsb (λ '(id, state), bool_decide (id = dependency) && step_done state) dependency_states
    then None else Some (StepBlocker.DependencyIncomplete dependency)) s.(Step.depends_on) ++
  filter_map (λ capability,
    if RuntimeCapabilities_permits capabilities capability
    then None else Some (StepBlocker.CapabilityNotSupported capability))
    s.(Step.assignment).(StepAssignment.selector).(RuntimeSelector.required) ++
  match s.(Step.human_gate) with
  | Some attention_id => if gate_open then [StepBlocker.HumanGateOpen attention_id] else []
  | None => []
  end.

Definition Step_validate_transition (s : Step) (action : WorkflowAction) (to : StepState)
    : contract_check :=
  validate_transition s.(Step.state) action to ;?
  reject_if (bool_decide (action = WorkflowAction.Retry) && is_none (checked_add_u32 s.(Step.attempt) 1))
            ContractViolation.WorkflowAttemptOverflow.

Definition Step_increment_attempt (s : Step) : result Step ContractViolation :=
  let? attempt := ok_or (checked_add_u32 s.(Step.attempt) 1) ContractViolation.WorkflowAttemptOverflow in
  Ok (Step_set_attempt attempt s).

Definition Artifact_validate (a : Artifact) : contract_check :=
  reject_empty a.(Artifact.id) "artifact.id" ;?
  reject_empty a.(Artifact.workflow_id) "artifact.workflow_id" ;?
  reject_if (is_some_and a.(Artifact.produced_by) id_is_empty)
            (ContractViolation.EmptyIdentifier "artifact.produced_by") ;?
  ContentRef_validate a.(Artifact.content).

(** ** The step state machine *)

(** One manual action on a step state. *)
Inductive step_moves : StepState → StepState → Prop :=
| step_moves_by action from to :
    validate_transition from action to = Ok tt → step_moves from to.

Abbreviation step_reaches := (clos_refl_trans _ step_moves).

Lemma validate_transition_ok from action to :
  validate_transition from action to = Ok tt ↔ transition_allowed from action to = true.
Proof. unfold validate_transition. by destruct (transition_allowed _ _ _). Qed.

Lemma step_moves_iff from to :
  step_moves from to ↔ ∃ action, transition_allowed from action to = true.
Proof.
  split.
  - intros Hm. inversion Hm as [action ? ? Hv]; subst. exists action. by apply validate_transition_ok.
  - intros [action Ha]. apply (step_moves_by action). by apply validate_transition_ok.
Qed.

(** The dependency test of [Step::blockers]. *)
Lemma dependency_done (d : StepId) (deps : list (StepId * StepState)) :
  existsb (λ '(id, state), bool_decide (id = d) && step_done state) deps = true ↔
  (d, StepState.Completed) ∈ deps ∨ (d, StepState.Skipped) ∈ deps.
Proof.
  rewrite existsb_elem. split.
  - intros ([i st] & Hin & [->%bool_decide_eq_true Hd]%andb_true_iff). destruct st; auto; done.
  - intros [Hin|Hin]; (eexists; split; [apply Hin|]); simpl; by rewrite bool_decide_true.
Qed.

(** A move that does not leave the running state. *)
Definition unstarted_move (from to : StepState) : Prop := step_moves from to ∧ from ≠ StepState.Running.

(** No sequence of allowed transitions brings a step to review or completed unless it leaves the running state
    on the way (the step was not already there), and only an advance completes a step: nothing is completed
    without having been run. *)
Theorem completion_requires_running from to
    (Hr : from ≠ StepState.Review) (Hc : from ≠ StepState.Completed)
    (H : clos_refl_trans _ unstarted_move from to) :
  to ≠ StepState.Review ∧ to ≠ StepState.Completed ∧
  ∀ mid action, validate_transition mid action StepState.Completed = Ok tt → action = WorkflowAction.Advance.
Proof.
  assert (to ≠ StepState.Review ∧ to ≠ StepState.Completed) as [H1 H2].
  { revert Hr Hc. induction H as [f t [[action Ha]%step_moves_iff Hn]|f|f m t _ IH1 _ IH2]; intros Hr Hc; [|done|].
    - destruct action, f, t; done.
    - destruct IH1; auto. }
  split_and!; [done..|]. intros mid a Hv%validate_transition_ok. destruct a, mid; done.
Qed.

(** A step may start exactly when nothing blocks it. *)
Lemma Step_blockers_nil s deps caps gate_open :
  Step_blockers s deps caps gate_open = [] ↔
  s.(Step.state) = StepState.Ready ∧
  (∀ d, d ∈ s.(Step.depends_on) →
     (d, StepState.Completed) ∈ deps ∨ (d, StepState.Skipped) ∈ deps) ∧
  (∀ c, c ∈ s.(Step.assignment).(StepAssignment.selector).(RuntimeSelector.required) →
     RuntimeCapabilities_permits caps c = true) ∧
  (is_Some s.(Step.human_gate) → gate_open = false).
Proof.
  unfold Step_blockers. rewrite !app_nil, !filter_map_nil. setoid_rewrite <-dependency_done.
  apply and_iff; [|apply and_iff; [|apply and_iff]].
  - case_bool_decide as Hs; split; done || (intros _; by apply dec_stable).
  - apply forall_proper; intros d. destruct (existsb _ deps); naive_solver.
  - apply forall_proper; intros c. destruct (RuntimeCapabilities_permits caps c); naive_solver.
  - destruct s.(Step.human_gate), gate_open; split; try done.
    intros Hg. by specialize (Hg ltac:(by eexists)).
Qed.
