(* ===== verification/ProtoAttention.v ===== *)
(** * The attention inbox

    Models [crates/kaleido-proto/src/attention.rs]: approvals, questions,
    workflow gates and connection faults, the check that a reply binds what the
    client observed, and the approval-to-item join. *)
From stdpp Require Import prelude strings.
From Stdlib Require Import ZArith Lia.
From S2P Require Import Prelude ProtoBase ProtoContent ProtoRuntime ProtoTurn.

Local Open Scope Z_scope.

(** ** Data *)

Module DecisionSemantics.
Inductive DecisionSemantics : Type :=
| Allow
| AllowAlways
| Deny
| DenyAlways
| Cancel
| Choose.
End DecisionSemantics.
Abbreviation DecisionSemantics := DecisionSemantics.DecisionSemantics.

#[export] Instance DecisionSemantics_eq_dec : EqDecision DecisionSemantics.
Proof. solve_decision. Defined.

Module DecisionOption.
Record DecisionOption : Type := mk {
  option_id : string;
  label : string;
  semantics : DecisionSemantics
}.
End DecisionOption.
Abbreviation DecisionOption := DecisionOption.DecisionOption.

#[export] Instance DecisionOption_eq_dec : EqDecision DecisionOption.
Proof. solve_decision. Defined.

Module WorkflowGateRequest.
Record WorkflowGateRequest : Type := mk {
  request_key : string;
  step_id : StepId;
  prompt_ref : ContentRef;
  options : list DecisionOption;
  free_form_allowed : bool
}.
End WorkflowGateRequest.
Abbreviation WorkflowGateRequest := WorkflowGateRequest.WorkflowGateRequest.

#[export] Instance WorkflowGateRequest_eq_dec : EqDecision WorkflowGateRequest.
Proof. solve_decision. Defined.

Module QuestionAnswer.
Record QuestionAnswer : Type := mk {
  question_key : string;
  option_ids : list string;
  free_form_ref : option ContentRef
}.
End QuestionAnswer.
Abbreviation QuestionAnswer := QuestionAnswer.QuestionAnswer.

#[export] Instance QuestionAnswer_eq_dec : EqDecision QuestionAnswer.
Proof. solve_decision. Defined.

Module QuestionPrompt.
Record QuestionPrompt : Type := mk {
  question_key : string;
  prompt_ref : ContentRef;
  options : list DecisionOption;
  multi_select : bool;
  free_form_allowed : bool
}.
End QuestionPrompt.
Abbreviation QuestionPrompt := QuestionPrompt.QuestionPrompt.

#[export] Instance QuestionPrompt_eq_dec : EqDecision QuestionPrompt.
Proof. solve_decision. Defined.

Module QuestionRequest.
Record QuestionRequest : Type := mk {
  request_key : string;
  questions : list QuestionPrompt;
  binding_handle : ProviderBindingHandle
}.
End QuestionRequest.
Abbreviation QuestionRequest := QuestionRequest.QuestionRequest.

#[export] Instance QuestionRequest_eq_dec : EqDecision QuestionRequest.
Proof. solve_decision. Defined.

Module JoinFailureReason.
Inductive JoinFailureReason : Type :=
| ItemNotYetSeen
| ItemUnknown
| AmbiguousTarget
| ScopeMismatch.
End JoinFailureReason.
Abbreviation JoinFailureReason := JoinFailureReason.JoinFailureReason.

#[export] Instance JoinFailureReason_eq_dec : EqDecision JoinFailureReason.
Proof. solve_decision. Defined.

Module JoinState.
Inductive JoinState : Type :=
| Joined (item_id : ItemId)
| Unjoined (reason : JoinFailureReason).
End JoinState.
Abbreviation JoinState := JoinState.JoinState.

#[export] Instance JoinState_eq_dec : EqDecision JoinState.
Proof. solve_decision. Defined.

Module ApprovalRequest.
Record ApprovalRequest : Type := mk {
  request_key : string;
  target_item_id : ItemId;
  join : JoinState;
  options : list DecisionOption;
  summary_ref : ContentRef;
  detail_ref : option ContentRef;
  binding_handle : ProviderBindingHandle
}.
End ApprovalRequest.
Abbreviation ApprovalRequest := ApprovalRequest.ApprovalRequest.

#[export] Instance ApprovalRequest_eq_dec : EqDecision ApprovalRequest.
Proof. solve_decision. Defined.

Definition ApprovalRequest_set_join (v : JoinState) (r : ApprovalRequest) : ApprovalRequest := {|
  ApprovalRequest.request_key := r.(ApprovalRequest.request_key);
  ApprovalRequest.target_item_id := r.(ApprovalRequest.target_item_id);
  ApprovalRequest.join := v;
  ApprovalRequest.options := r.(ApprovalRequest.options);
  ApprovalRequest.summary_ref := r.(ApprovalRequest.summary_ref);
  ApprovalRequest.detail_ref := r.(ApprovalRequest.detail_ref);
  ApprovalRequest.binding_handle := r.(ApprovalRequest.binding_handle)
|}.

Module AttentionAnswerEvidenceSource.
Inductive AttentionAnswerEvidenceSource : Type :=
| ObservedInTraffic
| RecordedFixture.
End AttentionAnswerEvidenceSource.
Abbreviation AttentionAnswerEvidenceSource := AttentionAnswerEvidenceSource.AttentionAnswerEvidenceSource.

#[export] Instance AttentionAnswerEvidenceSource_eq_dec : EqDecision AttentionAnswerEvidenceSource.
Proof. solve_decision. Defined.

Module AttentionAnswerEvidence.
Record AttentionAnswerEvidence : Type := mk {
  observer_host_id : HostId;
  observed_at_ms : Z;
  source : AttentionAnswerEvidenceSource
}.
End AttentionAnswerEvidence.
Abbreviation AttentionAnswerEvidence := AttentionAnswerEvidence.AttentionAnswerEvidence.

#[export] Instance AttentionAnswerEvidence_eq_dec : EqDecision AttentionAnswerEvidence.
Proof. solve_decision. Defined.

Module AttentionAnswerSource.
Inductive AttentionAnswerSource : Type :=
| LocalCommand (command_id : CommandId)
| ObservedExternal (evidence : AttentionAnswerEvidence).
End AttentionAnswerSource.
Abbreviation AttentionAnswerSource := AttentionAnswerSource.AttentionAnswerSource.

#[export] Instance AttentionAnswerSource_eq_dec : EqDecision AttentionAnswerSource.
Proof. solve_decision. Defined.

Module AttentionState.
Inductive AttentionState : Type :=
| Open
| Answered (option_id : option string) (free_form_ref : option ContentRef)
    (question_answers : list QuestionAnswer) (decided_at_ms : Z) (answer_source : AttentionAnswerSource)
| Expired (at_ms : Z)
| Superseded (by_ : AttentionId)
| Cancelled (at_ms : Z).
End AttentionState.
Abbreviation AttentionState := AttentionState.AttentionState.

#[export] Instance AttentionState_eq_dec : EqDecision AttentionState.
Proof. solve_decision. Defined.

Module AttentionSubject.
Inductive AttentionSubject : Type :=
| Approval (request : ApprovalRequest)
| Question (request : QuestionRequest)
| WorkflowGate (request : WorkflowGateRequest)
| ConnectionFault (runtime_id : ProviderRuntimeId) (reason : ConnectionFaultReason).
End AttentionSubject.
Abbreviation AttentionSubject := AttentionSubject.AttentionSubject.

#[export] Instance AttentionSubject_eq_dec : EqDecision AttentionSubject.
Proof. solve_decision. Defined.

Module AttentionItem.
Record AttentionItem : Type := mk {
  id : AttentionId;
  host_id : HostId;
  project_id : ProjectId;
  session_id : option SessionId;
  turn_id : option TurnId;
  workflow_id : option WorkflowId;
  subject : AttentionSubject;
  state : AttentionState;
  created_at_ms : Z;
  expires_at_ms : option Z
}.
End AttentionItem.
Abbreviation AttentionItem := AttentionItem.AttentionItem.

#[export] Instance AttentionItem_eq_dec : EqDecision AttentionItem.
Proof. solve_decision. Defined.

Definition AttentionItem_set_subject (v : AttentionSubject) (r : AttentionItem) : AttentionItem := {|
  AttentionItem.id := r.(AttentionItem.id);
  AttentionItem.host_id := r.(AttentionItem.host_id);
  AttentionItem.project_id := r.(AttentionItem.project_id);
  AttentionItem.session_id := r.(AttentionItem.session_id);
  AttentionItem.turn_id := r.(AttentionItem.turn_id);
  AttentionItem.workflow_id := r.(AttentionItem.workflow_id);
  AttentionItem.subject := v;
  AttentionItem.state := r.(AttentionItem.state);
  AttentionItem.created_at_ms := r.(AttentionItem.created_at_ms);
  AttentionItem.expires_at_ms := r.(AttentionItem.expires_at_ms)
|}.

Definition AttentionItem_set_state (v : AttentionState) (r : AttentionItem) : AttentionItem := {|
  AttentionItem.id := r.(AttentionItem.id);
  AttentionItem.host_id := r.(AttentionItem.host_id);
  AttentionItem.project_id := r.(AttentionItem.project_id);
  AttentionItem.session_id := r.(AttentionItem.session_id);
  AttentionItem.turn_id := r.(AttentionItem.turn_id);
  AttentionItem.workflow_id := r.(AttentionItem.workflow_id);
  AttentionItem.subject := r.(AttentionItem.subject);
  AttentionItem.state := v;
  AttentionItem.created_at_ms := r.(AttentionItem.created_at_ms);
  AttentionItem.expires_at_ms := r.(AttentionItem.expires_at_ms)
|}.

Module AttentionResponse.
Record AttentionResponse : Type := mk {
  attention_id : AttentionId;
  session_id : option SessionId;
  request_key : string;
  expected_expires_at_ms : option Z;
  option_id : option string;
  free_form_ref : option ContentRef;
  question_answers : list QuestionAnswer
}.
End AttentionResponse.
Abbreviation AttentionResponse := AttentionResponse.AttentionResponse.

#[export] Instance AttentionResponse_eq_dec : EqDecision AttentionResponse.
Proof. solve_decision. Defined.

Module ReplyRejection.
Inductive ReplyRejection : Type :=
| AttentionMismatch
| NotOpen
| NotReplyable
| SessionRequired
| SessionMismatch
| RequestKeyMismatch
| ExpiryMismatch
| Expired
| UnknownOption
| FreeFormNotAllowed
| InvalidFreeForm
| DecisionMissing
| QuestionAnswersRequired
| QuestionAnswersUnexpected
| QuestionTopLevelDecision
| QuestionAnswerEmpty
| QuestionAnswerDuplicateKey
| QuestionAnswerDuplicateOption
| QuestionAnswerUnknownKey
| QuestionAnswerUnknownOption
| QuestionAnswerTooManyOptions
| QuestionAnswerMissing.
End ReplyRejection.
Abbreviation ReplyRejection := ReplyRejection.ReplyRejection.

#[export] Instance ReplyRejection_eq_dec : EqDecision ReplyRejection.
Proof. solve_decision. Defined.

(** [Result<(), ReplyRejection>] *)
Abbreviation reply_check := (result unit ReplyRejection).

(** ** Operations *)

Definition AttentionState_is_open (s : AttentionState) : bool :=
  match s with
  | AttentionState.Open => true
  | _ => false
  end.

Definition AttentionItem_request_key (a : AttentionItem) : option string :=
  match a.(AttentionItem.subject) with
  | AttentionSubject.Approval request => Some request.(ApprovalRequest.request_key)
  | AttentionSubject.Question request => Some request.(QuestionRequest.request_key)
  | AttentionSubject.WorkflowGate request => Some request.(WorkflowGateRequest.request_key)
  | AttentionSubject.ConnectionFault _ _ => None
  end.

Definition AttentionItem_options (a : AttentionItem) : list DecisionOption :=
  match a.(AttentionItem.subject) with
  | AttentionSubject.Approval request => request.(ApprovalRequest.options)
  | AttentionSubject.Question request =>
      match request.(QuestionRequest.questions) with
      | question :: _ => question.(QuestionPrompt.options)
      | [] => []
      end
  | AttentionSubject.WorkflowGate request => request.(WorkflowGateRequest.options)
  | AttentionSubject.ConnectionFault _ _ => []
  end.

Definition AttentionItem_requires_session (a : AttentionItem) : bool :=
  match a.(AttentionItem.subject) with
  | AttentionSubject.Approval _ | AttentionSubject.Question _ => true
  | _ => false
  end.

Definition AttentionItem_expired_at (a : AttentionItem) (now_ms : Z) : bool :=
  is_some_and a.(AttentionItem.expires_at_ms) (λ expiry, expiry <=? now_ms).

Definition ReplyRejection_from_contract_violation (error : ContractViolation) : ReplyRejection :=
  match error with
  | ContractViolation.QuestionAnswersRequired => ReplyRejection.QuestionAnswersRequired
  | ContractViolation.QuestionAnswerEmpty => ReplyRejection.QuestionAnswerEmpty
  | ContractViolation.QuestionAnswerDuplicateKey => ReplyRejection.QuestionAnswerDuplicateKey
  | ContractViolation.QuestionAnswerDuplicateOption => ReplyRejection.QuestionAnswerDuplicateOption
  | ContractViolation.QuestionAnswerUnknownKey => ReplyRejection.QuestionAnswerUnknownKey
  | ContractViolation.QuestionAnswerUnknownOption => ReplyRejection.QuestionAnswerUnknownOption
  | ContractViolation.QuestionAnswerTooManyOptions => ReplyRejection.QuestionAnswerTooManyOptions
  | ContractViolation.QuestionAnswerMissing => ReplyRejection.QuestionAnswerMissing
  | ContractViolation.FreeFormNotAllowed => ReplyRejection.FreeFormNotAllowed
  | ContractViolation.InvalidFreeForm => ReplyRejection.InvalidFreeForm
  | ContractViolation.QuestionTopLevelDecision => ReplyRejection.QuestionTopLevelDecision
  | ContractViolation.QuestionAnswersUnexpected => ReplyRejection.QuestionAnswersUnexpected
  | _ => ReplyRejection.DecisionMissing
  end.

Definition ReplyRejection_contract_violation (r : ReplyRejection) : ContractViolation :=
  match r with
  | ReplyRejection.DecisionMissing => ContractViolation.AttentionDecisionMissing
  | ReplyRejection.QuestionAnswersUnexpected => ContractViolation.QuestionAnswersUnexpected
  | ReplyRejection.QuestionTopLevelDecision => ContractViolation.QuestionTopLevelDecision
  | ReplyRejection.QuestionAnswerEmpty => ContractViolation.QuestionAnswerEmpty
  | ReplyRejection.QuestionAnswerDuplicateKey => ContractViolation.QuestionAnswerDuplicateKey
  | ReplyRejection.QuestionAnswerDuplicateOption => ContractViolation.QuestionAnswerDuplicateOption
  | ReplyRejection.QuestionAnswerUnknownOption => ContractViolation.QuestionAnswerUnknownOption
  | ReplyRejection.QuestionAnswerTooManyOptions => ContractViolation.QuestionAnswerTooManyOptions
  | ReplyRejection.QuestionAnswerUnknownKey => ContractViolation.QuestionAnswerUnknownKey
  | ReplyRejection.QuestionAnswerMissing => ContractViolation.QuestionAnswerMissing
  | ReplyRejection.FreeFormNotAllowed => ContractViolation.FreeFormNotAllowed
  | ReplyRejection.InvalidFreeForm => ContractViolation.InvalidFreeForm
  | ReplyRejection.UnknownOption => ContractViolation.UnknownOption
  | _ => ContractViolation.AttentionDecisionMissing
  end.

Definition validate_options (options : list DecisionOption) (free_form_allowed : bool) : contract_check :=
  reject_if (bool_decide (options = []) && negb free_form_allowed)
            ContractViolation.DecisionOptionsMissing ;?
  try_for_each_seen DecisionOption.option_id (λ seen option,
    reject_if (str_is_empty option.(DecisionOption.option_id))
              (ContractViolation.EmptyIdentifier "option_id") ;?
    reject_if (contains_b option.(DecisionOption.option_id) seen)
              (ContractViolation.DuplicateDecisionOption option.(DecisionOption.option_id)))
    [] options.

Definition validate_questions (questions : list QuestionPrompt) : contract_check :=
  reject_if (bool_decide (questions = [])) ContractViolation.QuestionSetEmpty ;?
  try_for_each_seen QuestionPrompt.question_key (λ seen question,
    reject_if (str_is_empty question.(QuestionPrompt.question_key))
              (ContractViolation.EmptyIdentifier "question_key") ;?
    reject_if (contains_b question.(QuestionPrompt.question_key) seen)
              (ContractViolation.DuplicateQuestionKey question.(QuestionPrompt.question_key)) ;?
    validate_options question.(QuestionPrompt.options) question.(QuestionPrompt.free_form_allowed) ;?
    validate_sensitive question.(QuestionPrompt.prompt_ref) "question.prompt_ref")
    [] questions.

(** [free_form_ref.validate().is_err() || free_form_ref.sensitivity != Sensitive] *)
Definition free_form_invalid (r : ContentRef) : bool :=
  negb (is_ok (ContentRef_validate r))
  || bool_decide (r.(ContentRef.sensitivity) ≠ Sensitivity.Sensitive).

Definition validate_answer_options_shape (answer : QuestionAnswer) : contract_check :=
  try_for_each_seen id (λ seen option_id,
    reject_if (str_is_empty option_id) (ContractViolation.EmptyIdentifier "question_answer.option_id") ;?
    reject_if (contains_b option_id seen) ContractViolation.QuestionAnswerDuplicateOption)
    [] answer.(QuestionAnswer.option_ids) ;?
  reject_if (bool_decide (answer.(QuestionAnswer.option_ids) = [])
             && is_none answer.(QuestionAnswer.free_form_ref)) ContractViolation.QuestionAnswerEmpty ;?
  if_some answer.(QuestionAnswer.free_form_ref) (λ free_form_ref,
    reject_if (free_form_invalid free_form_ref) ContractViolation.InvalidFreeForm).

Definition validate_question_answers_shape (answers : list QuestionAnswer) : contract_check :=
  reject_if (bool_decide (answers = [])) ContractViolation.QuestionAnswersRequired ;?
  try_for_each_seen QuestionAnswer.question_key (λ keys answer,
    reject_if (str_is_empty answer.(QuestionAnswer.question_key))
              (ContractViolation.EmptyIdentifier "question_answer.question_key") ;?
    reject_if (contains_b answer.(QuestionAnswer.question_key) keys)
              ContractViolation.QuestionAnswerDuplicateKey ;?
    validate_answer_options_shape answer)
    [] answers.

(** One iteration of the answer loop of [validate_question_answers]. *)
Definition validate_question_answer (questions : list QuestionPrompt) (answer : QuestionAnswer)
    : reply_check :=
  reject_if (negb (contains_b answer.(QuestionAnswer.question_key)
                              (QuestionPrompt.question_key <$> questions)))
            ReplyRejection.QuestionAnswerUnknownKey ;?
  let? question := ok_or (find_first (λ question,
      bool_decide (question.(QuestionPrompt.question_key) = answer.(QuestionAnswer.question_key))) questions)
    ReplyRejection.QuestionAnswerUnknownKey in
  reject_if (negb question.(QuestionPrompt.multi_select)
             && (1 <? Z.of_nat (length answer.(QuestionAnswer.option_ids))))
            ReplyRejection.QuestionAnswerTooManyOptions ;?
  try_for_each (λ option_id,
    reject_if (negb (existsb (λ option, bool_decide (option.(DecisionOption.option_id) = option_id))
                             question.(QuestionPrompt.options)))
              ReplyRejection.QuestionAnswerUnknownOption) answer.(QuestionAnswer.option_ids) ;?
  reject_if (is_some answer.(QuestionAnswer.free_form_ref)
             && negb question.(QuestionPrompt.free_form_allowed)) ReplyRejection.FreeFormNotAllowed.

Definition validate_question_answers (request : QuestionRequest) (answers : list QuestionAnswer)
    : reply_check :=
  map_err ReplyRejection_from_contract_violation (validate_question_answers_shape answers) ;?
  try_for_each (validate_question_answer request.(QuestionRequest.questions)) answers ;?
  reject_if (negb (Nat.eqb (length answers) (length request.(QuestionRequest.questions))))
            ReplyRejection.QuestionAnswerMissing.

Definition validate_question_answers_state (request : QuestionRequest) (answers : list QuestionAnswer)
    : contract_check :=
  map_err ReplyRejection_contract_violation (validate_question_answers request answers).

Definition validate_top_level_response (options : list DecisionOption) (free_form_allowed : bool)
    (option_id : option string) (free_form_ref : option ContentRef) : reply_check :=
  if_some option_id (λ option_id,
    reject_if (str_is_empty option_id) ReplyRejection.UnknownOption ;?
    reject_if (negb (bool_decide (options = []))
               && negb (existsb (λ option, bool_decide (option.(DecisionOption.option_id) = option_id)) options))
              ReplyRejection.UnknownOption) ;?
  if_some free_form_ref (λ free_form_ref,
    reject_if (negb free_form_allowed) ReplyRejection.FreeFormNotAllowed ;?
    reject_if (free_form_invalid free_form_ref) ReplyRejection.InvalidFreeForm) ;?
  reject_if (is_none option_id && is_none free_form_ref) ReplyRejection.DecisionMissing.

Definition validate_top_level_state (options : list DecisionOption) (free_form_allowed : bool)
    (option_id : option string) (free_form_ref : option ContentRef) : contract_check :=
  map_err ReplyRejection_contract_violation
    (validate_top_level_response options free_form_allowed option_id free_form_ref).

(** The last [match] of [check_reply]: the decision itself. *)
Definition check_reply_decision (a : AttentionItem) (response : AttentionResponse) : reply_check :=
  match a.(AttentionItem.subject) with
  | AttentionSubject.Question request =>
      reject_if (is_some response.(AttentionResponse.option_id)
                 || is_some response.(AttentionResponse.free_form_ref))
                ReplyRejection.QuestionTopLevelDecision ;?
      validate_question_answers request response.(AttentionResponse.question_answers)
  | AttentionSubject.Approval request =>
      reject_if (negb (bool_decide (response.(AttentionResponse.question_answers) = [])))
                ReplyRejection.QuestionAnswersUnexpected ;?
      validate_top_level_response request.(ApprovalRequest.options) false
        response.(AttentionResponse.option_id) response.(AttentionResponse.free_form_ref)
  | AttentionSubject.WorkflowGate request =>
      reject_if (negb (bool_decide (response.(AttentionResponse.question_answers) = [])))
                ReplyRejection.QuestionAnswersUnexpected ;?
      validate_top_level_response request.(WorkflowGateRequest.options)
        request.(WorkflowGateRequest.free_form_allowed)
        response.(AttentionResponse.option_id) response.(AttentionResponse.free_form_ref)
  | AttentionSubject.ConnectionFault _ _ => Err ReplyRejection.NotReplyable
  end.

Definition AttentionItem_check_reply (a : AttentionItem) (response : AttentionResponse) (now_ms : Z)
    : reply_check :=
  reject_if (bool_decide (response.(AttentionResponse.attention_id) ≠ a.(AttentionItem.id)))
            ReplyRejection.AttentionMismatch ;?
  reject_if (negb (AttentionState_is_open a.(AttentionItem.state))) ReplyRejection.NotOpen ;?
  let? request_key := ok_or (AttentionItem_request_key a) ReplyRejection.NotReplyable in
  reject_if (AttentionItem_requires_session a && is_none a.(AttentionItem.session_id))
            ReplyRejection.SessionRequired ;?
  reject_if (bool_decide (response.(AttentionResponse.session_id) ≠ a.(AttentionItem.session_id)))
            ReplyRejection.SessionMismatch ;?
  reject_if (bool_decide (response.(AttentionResponse.request_key) ≠ request_key))
            ReplyRejection.RequestKeyMismatch ;?
  reject_if (bool_decide (response.(AttentionResponse.expected_expires_at_ms) ≠ a.(AttentionItem.expires_at_ms)))
            ReplyRejection.ExpiryMismatch ;?
  reject_if (AttentionItem_expired_at a now_ms) ReplyRejection.Expired ;?
  check_reply_decision a response.

(** The subject checks of [AttentionItem::validate]. *)
Definition AttentionItem_validate_subject (a : AttentionItem) : contract_check :=
  match a.(AttentionItem.subject) with
  | AttentionSubject.Approval request =>
      reject_if (is_none a.(AttentionItem.session_id)) ContractViolation.AttentionSessionRequired ;?
      reject_if (str_is_empty request.(ApprovalRequest.request_key))
                (ContractViolation.EmptyIdentifier "request_key") ;?
      reject_empty request.(ApprovalRequest.target_item_id) "target_item_id" ;?
      ProviderBindingHandle_validate_for request.(ApprovalRequest.binding_handle)
        ProviderBindingKind.InteractionRequest ;?
      validate_options request.(ApprovalRequest.options) false ;?
      validate_sensitive request.(ApprovalRequest.summary_ref) "approval.summary_ref" ;?
      if_some request.(ApprovalRequest.detail_ref) (λ detail_ref,
        validate_sensitive detail_ref "approval.detail_ref") ;?
      match request.(ApprovalRequest.join) with
      | JoinState.Joined item_id =>
          reject_if (bool_decide (item_id ≠ request.(ApprovalRequest.target_item_id)))
                    ContractViolation.ApprovalJoinTargetMismatch
      | JoinState.Unjoined _ => Ok tt
      end
  | AttentionSubject.Question request =>
      reject_if (is_none a.(AttentionItem.session_id)) ContractViolation.AttentionSessionRequired ;?
      reject_if (str_is_empty request.(QuestionRequest.request_key))
                (ContractViolation.EmptyIdentifier "request_key") ;?
      ProviderBindingHandle_validate_for request.(QuestionRequest.binding_handle)
        ProviderBindingKind.InteractionRequest ;?
      validate_questions request.(QuestionRequest.questions)
  | AttentionSubject.WorkflowGate request =>
      reject_if (is_none a.(AttentionItem.workflow_id)) ContractViolation.AttentionWorkflowRequired ;?
      reject_if (str_is_empty request.(WorkflowGateRequest.request_key))
                (ContractViolation.EmptyIdentifier "request_key") ;?
      validate_options request.(WorkflowGateRequest.options)
                       request.(WorkflowGateRequest.free_form_allowed) ;?
      validate_sensitive request.(WorkflowGateRequest.prompt_ref) "workflow_gate.prompt_ref"
  | AttentionSubject.ConnectionFault _ _ => Ok tt
  end.

(** The decision a recorded answer carries, checked against its subject. *)
Definition validate_answer_decision (subject : AttentionSubject) (option_id : option string)
    (free_form_ref : option ContentRef) (question_answers : list QuestionAnswer) : contract_check :=
  match subject with
  | AttentionSubject.Question request =>
      reject_if (is_some option_id || is_some free_form_ref) ContractViolation.QuestionTopLevelDecision ;?
      validate_question_answers_state request question_answers
  | AttentionSubject.Approval request =>
      reject_if (negb (bool_decide (question_answers = []))) ContractViolation.QuestionAnswersUnexpected ;?
      validate_top_level_state request.(ApprovalRequest.options) false option_id free_form_ref
  | AttentionSubject.WorkflowGate request =>
      reject_if (negb (bool_decide (question_answers = []))) ContractViolation.QuestionAnswersUnexpected ;?
      validate_top_level_state request.(WorkflowGateRequest.options)
        request.(WorkflowGateRequest.free_form_allowed) option_id free_form_ref
  | AttentionSubject.ConnectionFault _ _ => Err ContractViolation.AttentionDecisionMissing
  end.

(** The checks of [AttentionItem::validate] on a recorded answer. *)
Definition AttentionItem_validate_answer (a : AttentionItem) : contract_check :=
  match a.(AttentionItem.state) with
  | AttentionState.Answered option_id free_form_ref question_answers _ answer_source =>
      validate_answer_decision a.(AttentionItem.subject) option_id free_form_ref question_answers ;?
      match answer_source with
      | AttentionAnswerSource.LocalCommand command_id =>
          reject_empty command_id "attention_state.answer_source.command_id"
      | AttentionAnswerSource.ObservedExternal evidence =>
          reject_empty evidence.(AttentionAnswerEvidence.observer_host_id)
            "attention_state.answer_source.evidence.observer_host_id" ;?
          reject_if (bool_decide (evidence.(AttentionAnswerEvidence.observer_host_id)
                                  ≠ a.(AttentionItem.host_id)))
                    ContractViolation.AttentionAnswerObserverHostMismatch
      end
  | _ => Ok tt
  end.

Definition AttentionItem_validate (a : AttentionItem) : contract_check :=
  reject_empty a.(AttentionItem.id) "attention.id" ;?
  reject_empty a.(AttentionItem.host_id) "attention.host_id" ;?
  reject_empty a.(AttentionItem.project_id) "attention.project_id" ;?
  try_for_each (λ '(field, is_empty), reject_if is_empty (ContractViolation.EmptyIdentifier field))
    [("attention.session_id", is_some_and a.(AttentionItem.session_id) id_is_empty);
     ("attention.turn_id", is_some_and a.(AttentionItem.turn_id) id_is_empty);
     ("attention.workflow_id", is_some_and a.(AttentionItem.workflow_id) id_is_empty)] ;?
  AttentionItem_validate_subject a ;?
  AttentionItem_validate_answer a.

(** The join computed by [refresh_approval_join] from the items observed. *)
Definition approval_join (session_id : option SessionId) (turn_id : option TurnId)
    (target_item_id : ItemId) (items : list Item) (observation_complete : bool) : JoinState :=
  match filter_b (λ item, bool_decide (item.(Item.id) = target_item_id)) items with
  | _ :: _ :: _ => JoinState.Unjoined JoinFailureReason.AmbiguousTarget
  | [item] =>
      if bool_decide (session_id = Some item.(Item.session_id))
         && bool_decide (turn_id = Some item.(Item.turn_id))
      then JoinState.Joined item.(Item.id)
      else JoinState.Unjoined JoinFailureReason.ScopeMismatch
  | [] =>
      if observation_complete then JoinState.Unjoined JoinFailureReason.ItemUnknown
      else JoinState.Unjoined JoinFailureReason.ItemNotYetSeen
  end.

Definition AttentionItem_refresh_approval_join (a : AttentionItem) (items : list Item)
    (observation_complete : bool) : AttentionItem :=
  match a.(AttentionItem.subject) with
  | AttentionSubject.Approval request =>
      AttentionItem_set_subject (AttentionSubject.Approval
        (ApprovalRequest_set_join
           (approval_join a.(AttentionItem.session_id) a.(AttentionItem.turn_id)
              request.(ApprovalRequest.target_item_id) items observation_complete) request)) a
  | _ => a
  end.

Definition AttentionResponse_validate (r : AttentionResponse) : contract_check :=
  reject_empty r.(AttentionResponse.attention_id) "attention_id" ;?
  reject_if (str_is_empty r.(AttentionResponse.request_key))
            (ContractViolation.EmptyIdentifier "request_key") ;?
  reject_if (is_some_and r.(AttentionResponse.session_id) id_is_empty)
            (ContractViolation.EmptyIdentifier "session_id") ;?
  reject_if (is_some_and r.(AttentionResponse.option_id) str_is_empty)
            (ContractViolation.EmptyIdentifier "option_id") ;?
  (if negb (bool_decide (r.(AttentionResponse.question_answers) = [])) then
     reject_if (is_some r.(AttentionResponse.option_id) || is_some r.(AttentionResponse.free_form_ref))
               ContractViolation.QuestionTopLevelDecision ;?
     validate_question_answers_shape r.(AttentionResponse.question_answers)
   else
     map_err ReplyRejection_contract_violation
       (validate_top_level_response [] true r.(AttentionResponse.option_id)
          r.(AttentionResponse.free_form_ref))).

(** The references an attention entry carries ([state.rs], [attention_content_refs]). *)
Definition attention_content_refs (item : AttentionItem) : list ContentRef :=
  match item.(AttentionItem.subject) with
  | AttentionSubject.Approval request =>
      request.(ApprovalRequest.summary_ref) :: option_list request.(ApprovalRequest.detail_ref)
  | AttentionSubject.Question request =>
      QuestionPrompt.prompt_ref <$> request.(QuestionRequest.questions)
  | AttentionSubject.WorkflowGate request => [request.(WorkflowGateRequest.prompt_ref)]
  | AttentionSubject.ConnectionFault _ _ => []
  end ++
  match item.(AttentionItem.state) with
  | AttentionState.Answered _ free_form_ref question_answers _ _ =>
      option_list free_form_ref ++ filter_map QuestionAnswer.free_form_ref question_answers
  | _ => []
  end.

(** ** What the validators establish *)

Lemma free_form_invalid_false r : free_form_invalid r = false ↔ ref_private r.
Proof.
  unfold free_form_invalid, ref_private.
  by rewrite orb_false_iff, negb_false_true, is_ok_unit, ContentRef_validate_ok, bool_decide_neq_false.
Qed.

Definition options_ok (options : list DecisionOption) (free_form_allowed : bool) : Prop :=
  (options = [] → free_form_allowed = true) ∧
  NoDup (DecisionOption.option_id <$> options) ∧
  ∀ o, o ∈ options → o.(DecisionOption.option_id) ≠ "".

Lemma validate_options_ok options ffa : validate_options options ffa = Ok tt ↔ options_ok options ffa.
Proof.
  unfold validate_options, options_ok.
  rewrite rbind_ok_unit, reject_if_ok, andb_false_impl, negb_false_true, bool_decide_eq_true,
    (try_for_each_seen_nil_ok _ (λ o, o.(DecisionOption.option_id) ≠ "")); [done|].
  intros seen o. simpl_ok. tauto.
Qed.

(** A well-formed prompt of a question request. *)
Definition prompt_ok (q : QuestionPrompt) : Prop :=
  q.(QuestionPrompt.question_key) ≠ "" ∧
  options_ok q.(QuestionPrompt.options) q.(QuestionPrompt.free_form_allowed) ∧
  ref_private q.(QuestionPrompt.prompt_ref).

Lemma validate_questions_ok questions :
  validate_questions questions = Ok tt ↔
  questions ≠ [] ∧ NoDup (QuestionPrompt.question_key <$> questions) ∧
  ∀ q, q ∈ questions → prompt_ok q.
Proof.
  unfold validate_questions.
  rewrite rbind_ok_unit, reject_if_ok, bool_decide_eq_false, (try_for_each_seen_nil_ok _ prompt_ok);
    [done|].
  intros seen q. rewrite !rbind_ok_unit, validate_options_ok, validate_sensitive_ok. unfold prompt_ok.
  simpl_ok. tauto.
Qed.

(** An answer that is well-formed by itself. *)
Definition answer_shape_ok (a : QuestionAnswer) : Prop :=
  NoDup a.(QuestionAnswer.option_ids) ∧ ("" ∉ a.(QuestionAnswer.option_ids)) ∧
  (a.(QuestionAnswer.option_ids) = [] → is_Some a.(QuestionAnswer.free_form_ref)) ∧
  (∀ r, a.(QuestionAnswer.free_form_ref) = Some r → ref_private r).

Lemma validate_answer_options_shape_ok a :
  validate_answer_options_shape a = Ok tt ↔ answer_shape_ok a.
Proof.
  unfold validate_answer_options_shape, answer_shape_ok.
  rewrite !rbind_ok_unit, (try_for_each_seen_nil_ok id (λ o, o ≠ "")), list_fmap_id,
    reject_if_ok, andb_false_impl, is_none_false, bool_decide_eq_true, if_some_ok.
  - setoid_rewrite reject_if_ok. setoid_rewrite free_form_invalid_false.
    split; [intros [[? Hne] ?] | intros (? & Hne & ?)]; (split_and!; try tauto).
    + intros Hin. by apply Hne in Hin.
    + by intros o Ho ->.
  - intros seen o. simpl_ok. unfold id. tauto.
Qed.

Lemma validate_question_answers_shape_ok answers :
  validate_question_answers_shape answers = Ok tt ↔
  answers ≠ [] ∧ NoDup (QuestionAnswer.question_key <$> answers) ∧
  ∀ a, a ∈ answers → a.(QuestionAnswer.question_key) ≠ "" ∧ answer_shape_ok a.
Proof.
  unfold validate_question_answers_shape.
  rewrite rbind_ok_unit, reject_if_ok, bool_decide_eq_false,
    (try_for_each_seen_nil_ok _ (λ a, a.(QuestionAnswer.question_key) ≠ "" ∧ answer_shape_ok a)); [done|].
  intros seen a. rewrite !rbind_ok_unit, validate_answer_options_shape_ok. simpl_ok. tauto.
Qed.

(** An answer to prompt [q] that stays within what the prompt offers. *)
Definition answers_prompt (q : QuestionPrompt) (a : QuestionAnswer) : Prop :=
  a.(QuestionAnswer.question_key) = q.(QuestionPrompt.question_key) ∧
  (q.(QuestionPrompt.multi_select) = false → (length a.(QuestionAnswer.option_ids) ≤ 1)%nat) ∧
  (∀ o, o ∈ a.(QuestionAnswer.option_ids) → o ∈ DecisionOption.option_id <$> q.(QuestionPrompt.options)) ∧
  (is_Some a.(QuestionAnswer.free_form_ref) → q.(QuestionPrompt.free_form_allowed) = true).

Lemma existsb_option_id o options :
  existsb (λ option, bool_decide (option.(DecisionOption.option_id) = o)) options = true ↔
  o ∈ DecisionOption.option_id <$> options.
Proof.
  rewrite existsb_elem, list_elem_of_fmap. setoid_rewrite bool_decide_eq_true. naive_solver.
Qed.

Lemma validate_question_answer_ok questions a :
  NoDup (QuestionPrompt.question_key <$> questions) →
  validate_question_answer questions a = Ok tt ↔ ∃ q, q ∈ questions ∧ answers_prompt q a.
Proof.
  intros Hnd. unfold validate_question_answer, answers_prompt.
  rewrite rbind_ok_unit, rbind_ok, reject_if_ok, negb_false_true, contains_b_true.
  setoid_rewrite ok_or_ok. setoid_rewrite rbind_ok_unit. setoid_rewrite rbind_ok_unit.
  setoid_rewrite try_for_each_ok. setoid_rewrite reject_if_ok.
  setoid_rewrite andb_false_impl. setoid_rewrite negb_true_false. setoid_rewrite negb_false_true.
  setoid_rewrite is_some_true. setoid_rewrite existsb_option_id. setoid_rewrite Z.ltb_ge.
  split.
  - intros (_ & q & [Hin Hk%bool_decide_eq_true]%find_first_some & Hm & Ho & Hf).
    exists q. split_and!; try done. intros Hms. specialize (Hm Hms). lia.
  - intros (q & Hin & Hk & Hm & Ho & Hf). rewrite Hk. split; [by apply list_elem_of_fmap_2|].
    exists q. split; [by apply find_first_unique|]. split_and!; try done.
    intros Hms. specialize (Hm Hms). lia.
Qed.

(** A complete answer set: exactly one admissible answer for each prompt. *)
Definition answers_request (request : QuestionRequest) (answers : list QuestionAnswer) : Prop :=
  QuestionAnswer.question_key <$> answers ≡ₚ
    QuestionPrompt.question_key <$> request.(QuestionRequest.questions) ∧
  ∀ a, a ∈ answers → answer_shape_ok a ∧
    ∃ q, q ∈ request.(QuestionRequest.questions) ∧ answers_prompt q a.

Lemma validate_question_answers_ok request answers :
  validate_questions request.(QuestionRequest.questions) = Ok tt →
  validate_question_answers request answers = Ok tt ↔ answers_request request answers.
Proof.
  intros (Hne & Hnd & Hq)%validate_questions_ok. unfold validate_question_answers, answers_request.
  rewrite !rbind_ok_unit, map_err_ok, validate_question_answers_shape_ok, try_for_each_ok, reject_if_ok,
    negb_false_true, Nat.eqb_eq.
  setoid_rewrite validate_question_answer_ok; [|done..]. split.
  - intros ((_ & Hand & Hshape) & Hfit & Hlen). split.
    + apply submseteq_length_Permutation.
      * apply NoDup_submseteq; [done|]. intros k (a & -> & Ha)%list_elem_of_fmap.
        destruct (Hfit a Ha) as (q & Hin & -> & _). by apply list_elem_of_fmap_2.
      * by rewrite !length_fmap, Hlen.
    + intros a Ha. split; [by apply Hshape | by apply Hfit].
  - intros [Hperm Ha]. split_and!.
    + intros ->. apply Permutation_nil_l in Hperm. by destruct request.(QuestionRequest.questions).
    + by rewrite Hperm.
    + intros a Hin. destruct (Ha a Hin) as (Hs & q & Hqin & Hk & _). split; [|done].
      rewrite Hk. by apply Hq.
    + intros a Hin. by apply Ha.
    + apply Permutation_length in Hperm. by rewrite !length_fmap in Hperm.
Qed.

(** A top-level decision within what a request offers.  An empty option list
    (only possible when free-form text is allowed) accepts every option id. *)
Definition decides (options : list DecisionOption) (free_form_allowed : bool)
    (option_id : option string) (free_form_ref : option ContentRef) : Prop :=
  (∀ o, option_id = Some o → o ≠ "" ∧ (options = [] ∨ o ∈ DecisionOption.option_id <$> options)) ∧
  (∀ r, free_form_ref = Some r → free_form_allowed = true ∧ ref_private r) ∧
  (option_id = None → is_Some free_form_ref).

Lemma validate_top_level_response_ok options ffa o f :
  validate_top_level_response options ffa o f = Ok tt ↔ decides options ffa o f.
Proof.
  unfold validate_top_level_response, decides.
  rewrite !rbind_ok_unit, !if_some_ok, reject_if_ok, andb_false_impl, is_none_true, is_none_false.
  setoid_rewrite rbind_ok_unit. setoid_rewrite reject_if_ok. setoid_rewrite negb_false_true.
  setoid_rewrite free_form_invalid_false. setoid_rewrite str_is_empty_false.
  setoid_rewrite andb_false_impl. setoid_rewrite negb_true_false. setoid_rewrite negb_false_true.
  setoid_rewrite existsb_option_id. setoid_rewrite bool_decide_eq_false.
  apply and_iff; [|done]. apply forall_proper; intros x.
  destruct (decide (options = [])); naive_solver.
Qed.

#[export] Hint Rewrite validate_options_ok validate_questions_ok validate_top_level_response_ok : result_ok.

(** The decision part of an admissible reply. *)
Definition decision_spec (subject : AttentionSubject) (option_id : option string)
    (free_form_ref : option ContentRef) (answers : list QuestionAnswer) : Prop :=
  match subject with
  | AttentionSubject.Question request =>
      option_id = None ∧ free_form_ref = None ∧ answers_request request answers
  | AttentionSubject.Approval request =>
      answers = [] ∧ decides request.(ApprovalRequest.options) false option_id free_form_ref
  | AttentionSubject.WorkflowGate request =>
      answers = [] ∧ decides request.(WorkflowGateRequest.options)
        request.(WorkflowGateRequest.free_form_allowed) option_id free_form_ref
  | AttentionSubject.ConnectionFault _ _ => False
  end.

Lemma subject_questions_ok a request :
  AttentionItem_validate_subject a = Ok tt → a.(AttentionItem.subject) = AttentionSubject.Question request →
  validate_questions request.(QuestionRequest.questions) = Ok tt.
Proof. unfold AttentionItem_validate_subject. intros Hv E. rewrite E, !rbind_ok_unit in Hv. tauto. Qed.

Lemma check_reply_decision_ok a r :
  AttentionItem_validate_subject a = Ok tt →
  check_reply_decision a r = Ok tt ↔
  decision_spec a.(AttentionItem.subject) r.(AttentionResponse.option_id)
    r.(AttentionResponse.free_form_ref) r.(AttentionResponse.question_answers).
Proof.
  intros Hv. unfold check_reply_decision, decision_spec.
  destruct (a.(AttentionItem.subject)) as [req|req|req|] eqn:E; [| |  |done];
    rewrite !rbind_ok_unit, reject_if_ok.
  - by rewrite validate_top_level_response_ok, negb_false_true, bool_decide_eq_true.
  - rewrite validate_question_answers_ok by (by eapply subject_questions_ok).
    rewrite orb_false_iff, !is_some_false. tauto.
  - by rewrite validate_top_level_response_ok, negb_false_true, bool_decide_eq_true.
Qed.

(** Recording an answer re-runs the very checks the reply went through. *)
Lemma validate_answer_decision_reply a r :
  validate_answer_decision a.(AttentionItem.subject) r.(AttentionResponse.option_id)
    r.(AttentionResponse.free_form_ref) r.(AttentionResponse.question_answers) = Ok tt ↔
  check_reply_decision a r = Ok tt.
Proof.
  unfold validate_answer_decision, check_reply_decision, validate_question_answers_state,
    validate_top_level_state.
  destruct (a.(AttentionItem.subject)); rewrite ?rbind_ok_unit, ?reject_if_ok, ?map_err_ok; done.
Qed.

(** What a reply must bind, in the words of section 4.7 of the protocol: the
    entry, its session, its request key and its expiry, before that expiry. *)
Record reply_binds (a : AttentionItem) (r : AttentionResponse) (now_ms : Z) : Prop := {
  binds_id : r.(AttentionResponse.attention_id) = a.(AttentionItem.id);
  binds_open : a.(AttentionItem.state) = AttentionState.Open;
  binds_session : r.(AttentionResponse.session_id) = a.(AttentionItem.session_id);
  binds_key : AttentionItem_request_key a = Some r.(AttentionResponse.request_key);
  binds_expiry : r.(AttentionResponse.expected_expires_at_ms) = a.(AttentionItem.expires_at_ms);
  binds_in_time : ∀ expiry, a.(AttentionItem.expires_at_ms) = Some expiry → now_ms < expiry
}.

Lemma AttentionState_is_open_true s : AttentionState_is_open s = true ↔ s = AttentionState.Open.
Proof. by destruct s. Qed.

Lemma AttentionItem_expired_at_false a now :
  AttentionItem_expired_at a now = false ↔
  ∀ expiry, a.(AttentionItem.expires_at_ms) = Some expiry → now < expiry.
Proof. unfold AttentionItem_expired_at. rewrite is_some_and_false. by setoid_rewrite Z.leb_gt. Qed.

Lemma subject_session a :
  AttentionItem_validate_subject a = Ok tt →
  AttentionItem_requires_session a && is_none a.(AttentionItem.session_id) = false.
Proof.
  unfold AttentionItem_validate_subject, AttentionItem_requires_session.
  destruct (a.(AttentionItem.subject)); rewrite ?rbind_ok_unit, ?reject_if_ok; [tauto..| |]; done.
Qed.

Lemma AttentionItem_validate_parts a :
  AttentionItem_validate a = Ok tt →
  AttentionItem_validate_subject a = Ok tt ∧ AttentionItem_validate_answer a = Ok tt.
Proof. unfold AttentionItem_validate. rewrite !rbind_ok_unit. tauto. Qed.

Lemma check_reply_ok a r now :
  AttentionItem_validate_subject a = Ok tt →
  AttentionItem_check_reply a r now = Ok tt ↔
  reply_binds a r now ∧
  decision_spec a.(AttentionItem.subject) r.(AttentionResponse.option_id)
    r.(AttentionResponse.free_form_ref) r.(AttentionResponse.question_answers).
Proof.
  intros Hv. rewrite <-check_reply_decision_ok by done. unfold AttentionItem_check_reply.
  rewrite !rbind_ok_unit, rbind_ok, !reject_if_ok, bool_decide_neq_false, negb_false_true,
    AttentionState_is_open_true. setoid_rewrite ok_or_ok.
  repeat setoid_rewrite rbind_ok_unit.
  setoid_rewrite reject_if_ok. setoid_rewrite bool_decide_neq_false.
  setoid_rewrite AttentionItem_expired_at_false. split.
  - by intros (? & ? & key & Hk & _ & ? & <- & ? & ? & ?).
  - intros [[] ?]. apply subject_session in Hv. by eauto 15.
Qed.

(** For a valid attention item, a reply is accepted if and only if it binds to it (same attention, open, not
    expired, same request key, session and expiry) and decides it: a top-level option or free-form answer of a
    kind the subject offers, or one answer per question with options the question offers and free-form text
    only where it is allowed. *)
Theorem check_reply_exact a r now (Hv : AttentionItem_validate a = Ok tt) :
  AttentionItem_check_reply a r now = Ok tt ↔
  reply_binds a r now ∧
  decision_spec a.(AttentionItem.subject) r.(AttentionResponse.option_id)
    r.(AttentionResponse.free_form_ref) r.(AttentionResponse.question_answers).
Proof. by apply check_reply_ok, AttentionItem_validate_parts. Qed.

(** The entry after a local command answered it. *)
Definition answered_by (a : AttentionItem) (r : AttentionResponse) (now_ms : Z) (cid : CommandId)
    : AttentionItem :=
  AttentionItem_set_state
    (AttentionState.Answered r.(AttentionResponse.option_id) r.(AttentionResponse.free_form_ref)
       r.(AttentionResponse.question_answers) now_ms (AttentionAnswerSource.LocalCommand cid)) a.

(** Recording an accepted reply as the answer of the item gives an item that is again valid, and every later
    reply to it is refused as NotOpen: a request is answered at most once. *)
Theorem accepted_reply_is_recordable a r now cid later r'
    (Hv : AttentionItem_validate a = Ok tt)
    (Hr : AttentionItem_check_reply a r now = Ok tt)
    (Hc : id_value cid ≠ "") :
  AttentionItem_validate (answered_by a r now cid) = Ok tt ∧
  (r'.(AttentionResponse.attention_id) = a.(AttentionItem.id) →
   AttentionItem_check_reply (answered_by a r now cid) r' later = Err ReplyRejection.NotOpen).
Proof.
  destruct (AttentionItem_validate_parts a Hv) as [Hs _]. split.
  - unfold AttentionItem_validate in *. rewrite !rbind_ok_unit in *.
    destruct Hv as (? & ? & ? & ? & ? & _). split_and!; try done.
    unfold AttentionItem_validate_answer, answered_by. simpl.
    rewrite rbind_ok_unit, validate_answer_decision_reply, reject_empty_ok. split; [|done].
    unfold AttentionItem_check_reply in Hr. rewrite !rbind_ok_unit, rbind_ok in Hr.
    destruct Hr as (_ & _ & key & _ & Hr). rewrite !rbind_ok_unit in Hr. tauto.
  - intros E. unfold AttentionItem_check_reply, answered_by. simpl. by rewrite E, bool_decide_false by tauto.
Qed.

(** A workflow gate that offers no options accepts a reply with any non-empty option identifier, though none
    was offered. *)
Theorem gate_without_options_accepts_any_option a r now request o
    (Hv : AttentionItem_validate a = Ok tt)
    (Hg : a.(AttentionItem.subject) = AttentionSubject.WorkflowGate request)
    (Hno : request.(WorkflowGateRequest.options) = [])
    (Hb : reply_binds a r now) (Hq : r.(AttentionResponse.question_answers) = [])
    (Hf : r.(AttentionResponse.free_form_ref) = None)
    (Ho : r.(AttentionResponse.option_id) = Some o) :
  AttentionItem_check_reply a r now = Ok tt ↔ o ≠ "".
Proof.
  rewrite check_reply_ok by (by apply AttentionItem_validate_parts).
  rewrite Hg, Ho, Hf, Hq. simpl. rewrite Hno. unfold decides. naive_solver.
Qed.

(** ** The approval-to-item join *)

Lemma approval_join_perm sid tid target items items' complete :
  items ≡ₚ items' →
  approval_join sid tid target items complete = approval_join sid tid target items' complete.
Proof.
  intros Hp. unfold approval_join.
  apply (filter_b_Permutation (λ item, bool_decide (item.(Item.id) = target))) in Hp.
  destruct (filter_b _ items) as [|x [|y l]], (filter_b _ items') as [|x' [|y' l']];
    try (apply Permutation_length in Hp; discriminate Hp); try done.
  apply Permutation_singleton_l in Hp. by simplify_eq.
Qed.

Lemma approval_join_joined sid tid target items complete i :
  approval_join sid tid target items complete = JoinState.Joined i ↔
  i = target ∧ ∃ item,
    filter_b (λ it, bool_decide (it.(Item.id) = target)) items = [item] ∧
    sid = Some item.(Item.session_id) ∧ tid = Some item.(Item.turn_id).
Proof.
  unfold approval_join.
  destruct (filter_b _ items) as [|x [|y l]] eqn:E; [destruct complete; naive_solver| |naive_solver].
  assert (x.(Item.id) = target) as Hx.
  { assert (x ∈ filter_b (λ item, bool_decide (item.(Item.id) = target)) items) as Hin by (rewrite E; left).
    by apply elem_of_filter_b in Hin as [_ ?%bool_decide_eq_true]. }
  repeat case_bool_decide; simpl; naive_solver.
Qed.

(** Rewriting the join of a valid approval to its own target keeps it valid. *)
Lemma validate_with_join a request j :
  AttentionItem_validate a = Ok tt →
  a.(AttentionItem.subject) = AttentionSubject.Approval request →
  (∀ i, j = JoinState.Joined i → i = request.(ApprovalRequest.target_item_id)) →
  AttentionItem_validate
    (AttentionItem_set_subject (AttentionSubject.Approval (ApprovalRequest_set_join j request)) a) = Ok tt.
Proof.
  intros Hv Hs Hj.
  unfold AttentionItem_validate, AttentionItem_validate_subject, AttentionItem_validate_answer in *.
  rewrite Hs in Hv. simpl in *. rewrite !rbind_ok_unit in Hv. rewrite !rbind_ok_unit.
  destruct Hv as (? & ? & ? & [? [? [? ?]]] & (? & ? & ? & ? & ? & ? & ? & _) & ?). split_and!; try done.
  destruct j as [i|]; [|done]. by rewrite (Hj i eq_refl), bool_decide_false by tauto.
Qed.

(** Refreshing the join of a valid approval keeps the item valid, does not depend on the order of the observed
    items, and joins exactly when one and only one observed item has the target identifier and it is of the
    session and turn of the approval. *)
Theorem refresh_approval_join_exact a items complete request
    (Hv : AttentionItem_validate a = Ok tt)
    (Hs : a.(AttentionItem.subject) = AttentionSubject.Approval request) :
  AttentionItem_validate (AttentionItem_refresh_approval_join a items complete) = Ok tt ∧
  (∀ items', items ≡ₚ items' →
     AttentionItem_refresh_approval_join a items' complete =
     AttentionItem_refresh_approval_join a items complete) ∧
  (∀ request', (AttentionItem_refresh_approval_join a items complete).(AttentionItem.subject)
               = AttentionSubject.Approval request' →
     ∀ i, request'.(ApprovalRequest.join) = JoinState.Joined i ↔
       i = request.(ApprovalRequest.target_item_id) ∧ ∃ item,
         filter_b (λ it, bool_decide (it.(Item.id) = request.(ApprovalRequest.target_item_id))) items = [item] ∧
         a.(AttentionItem.session_id) = Some item.(Item.session_id) ∧
         a.(AttentionItem.turn_id) = Some item.(Item.turn_id)).
Proof.
  unfold AttentionItem_refresh_approval_join. rewrite Hs. split_and!.
  - apply validate_with_join; [done..|].
    intros i E. by apply approval_join_joined in E as [-> _].
  - intros items' Hp. by rewrite (approval_join_perm _ _ _ items' items) by done.
  - intros request' [= <-] i. simpl. apply approval_join_joined.
Qed.

(** ** Bodies stay private *)

Lemma validate_subject_refs a r :
  AttentionItem_validate_subject a = Ok tt →
  r ∈ (match a.(AttentionItem.subject) with
       | AttentionSubject.Approval request =>
           request.(ApprovalRequest.summary_ref) :: option_list request.(ApprovalRequest.detail_ref)
       | AttentionSubject.Question request =>
           QuestionPrompt.prompt_ref <$> request.(QuestionRequest.questions)
       | AttentionSubject.WorkflowGate request => [request.(WorkflowGateRequest.prompt_ref)]
       | AttentionSubject.ConnectionFault _ _ => []
       end) → ref_private r.
Proof.
  unfold AttentionItem_validate_subject.
  destruct (a.(AttentionItem.subject)) as [req|req|req|].
  - rewrite !rbind_ok_unit, validate_sensitive_ok, if_some_ok, elem_of_cons, elem_of_option_list.
    intros (_ & _ & _ & _ & _ & Hsum & Hd & _) [->|Hr]; [done|].
    apply Hd in Hr. by apply validate_sensitive_ok in Hr.
  - rewrite !rbind_ok_unit, validate_questions_ok, list_elem_of_fmap.
    intros (_ & _ & _ & _ & _ & Hq) (q & -> & Hin). by apply Hq.
  - rewrite !rbind_ok_unit, validate_sensitive_ok, list_elem_of_singleton. by intros (_ & _ & _ & ?) ->.
  - by intros _ ?%elem_of_nil.
Qed.

Lemma decision_spec_refs subject o f answers r :
  decision_spec subject o f answers →
  r ∈ option_list f ++ filter_map QuestionAnswer.free_form_ref answers → ref_private r.
Proof.
  rewrite elem_of_app, elem_of_option_list, elem_of_filter_map.
  destruct subject; simpl; unfold decides, answers_request, answer_shape_ok.
  - intros (-> & _ & Hf & _) [E|(x & Hx%elem_of_nil & _)]; [by apply Hf|done].
  - intros (_ & -> & _ & Ha) [E|(x & Hx & E)]; [done|]. destruct (Ha x Hx) as [(_ & _ & _ & Hp) _]. by apply Hp.
  - intros (-> & _ & Hf & _) [E|(x & Hx%elem_of_nil & _)]; [by apply Hf|done].
  - done.
Qed.

Lemma AttentionItem_validate_refs a r :
  AttentionItem_validate a = Ok tt → r ∈ attention_content_refs a → ref_private r.
Proof.
  intros [Hs Ha]%AttentionItem_validate_parts. unfold attention_content_refs. rewrite elem_of_app.
  intros [Hr|Hr]; [by eapply validate_subject_refs|].
  unfold AttentionItem_validate_answer in Ha.
  destruct (a.(AttentionItem.state)) as [|o f qs at_ms src| | |] eqn:E; try by apply elem_of_nil in Hr.
  rewrite rbind_ok_unit in Ha. destruct Ha as [Ha _].
  pose (resp := AttentionResponse.mk a.(AttentionItem.id) None "" None o f qs).
  apply (validate_answer_decision_reply a resp), check_reply_decision_ok in Ha; [|done].
  by eapply decision_spec_refs.
Qed.
