(* ===== verification/ProtoCommand.v ===== *)
(** * Commands and acknowledgements

    Models [crates/kaleido-proto/src/command.rs]: the command envelope and its
    idempotency scope, the device-supplied request, and the acknowledgement
    outcomes. *)
From stdpp Require Import prelude strings.
From Stdlib Require Import ZArith Lia.
From S2P Require Import Prelude ProtoBase ProtoContent ProtoRuntime ProtoQueue ProtoWorkflow ProtoAttention.

Local Open Scope Z_scope.

Definition MAX_IDEMPOTENCY_KEY_BYTES : Z := 128.
Definition MAX_DEVICE_COMMAND_TTL_MS : Z := 300000.

(** ** Data *)

Module Command.
Inductive Command : Type :=
| SubmitPrompt (session_id : SessionId) (body : ContentRef)
| EnqueueInput (session_id : SessionId) (body : ContentRef) (intent : QueueIntent)
| EditQueueEntry (entry_id : QueueEntryId) (body : ContentRef)
| ReorderQueue (session_id : SessionId) (order : list QueueEntryId)
| CancelQueueEntry (entry_id : QueueEntryId)
| InterruptTurn (session_id : SessionId) (turn_id : TurnId)
| RetryTurn (session_id : SessionId) (turn_id : TurnId)
| RespondAttention (response : AttentionResponse)
| OpenSession (project_id : ProjectId) (runtime_id : ProviderRuntimeId)
| ResumeSession (session_id : SessionId)
| CloseSession (session_id : SessionId)
| AdvanceStep (step_id : StepId)
| RetryStep (step_id : StepId)
| ReworkStep (step_id : StepId) (reason_ref : option ContentRef)
| SkipStep (step_id : StepId) (reason_ref : option ContentRef)
| CancelStep (step_id : StepId)
| ReassignStep (step_id : StepId) (assignment : StepAssignment)
| CancelWorkflow (workflow_id : WorkflowId).
End Command.
Abbreviation Command := Command.Command.

#[export] Instance Command_eq_dec : EqDecision Command.
Proof. solve_decision. Defined.

Module CommandEnvelope.
Record CommandEnvelope : Type := mk {
  command_id : CommandId;
  idempotency_key : string;
  actor : Actor;
  issued_at_ms : Z;
  expires_at_ms : option Z;
  body : Command
}.
End CommandEnvelope.
Abbreviation CommandEnvelope := CommandEnvelope.CommandEnvelope.

#[export] Instance CommandEnvelope_eq_dec : EqDecision CommandEnvelope.
Proof. solve_decision. Defined.

Module DeviceCommandRequest.
Record DeviceCommandRequest : Type := mk {
  idempotency_key : string;
  ttl_ms : option Z;
  body : Command
}.
End DeviceCommandRequest.
Abbreviation DeviceCommandRequest := DeviceCommandRequest.DeviceCommandRequest.

#[export] Instance DeviceCommandRequest_eq_dec : EqDecision DeviceCommandRequest.
Proof. solve_decision. Defined.

Module RuntimeAcceptanceKind.
Inductive RuntimeAcceptanceKind : Type :=
| PromptTurn
| SessionControl.
End RuntimeAcceptanceKind.
Abbreviation RuntimeAcceptanceKind := RuntimeAcceptanceKind.RuntimeAcceptanceKind.

#[export] Instance RuntimeAcceptanceKind_eq_dec : EqDecision RuntimeAcceptanceKind.
Proof. solve_decision. Defined.

Module CommandOutcome.
Inductive CommandOutcome : Type :=
| AcceptedLocally (note_ref : option ContentRef)
| AcceptedByRuntime (session_id : SessionId) (acceptance_kind : RuntimeAcceptanceKind)
    (binding_handle : ProviderBindingHandle)
| Enqueued (entry_id : QueueEntryId)
| Rejected (error : CanonicalError)
| Duplicate (original_command_id : CommandId).
End CommandOutcome.
Abbreviation CommandOutcome := CommandOutcome.CommandOutcome.

#[export] Instance CommandOutcome_eq_dec : EqDecision CommandOutcome.
Proof. solve_decision. Defined.

Module CommandAck.
Record CommandAck : Type := mk {
  command_id : CommandId;
  outcome : CommandOutcome;
  acked_at_ms : Z
}.
End CommandAck.
Abbreviation CommandAck := CommandAck.CommandAck.

#[export] Instance CommandAck_eq_dec : EqDecision CommandAck.
Proof. solve_decision. Defined.

(** ** Operations *)

Definition CommandOutcome_reached_runtime (o : CommandOutcome) : bool :=
  match o with
  | CommandOutcome.AcceptedByRuntime _ _ _ => true
  | _ => false
  end.

Definition CommandOutcome_is_rejection (o : CommandOutcome) : bool :=
  match o with
  | CommandOutcome.Rejected _ => true
  | _ => false
  end.

Definition CommandOutcome_validate (o : CommandOutcome) : contract_check :=
  match o with
  | CommandOutcome.AcceptedLocally (Some note_ref) =>
      validate_sensitive note_ref "command_outcome.note_ref"
  | CommandOutcome.AcceptedByRuntime session_id _ binding_handle =>
      reject_empty session_id "command_outcome.session_id" ;?
      ProviderBindingHandle_validate_for binding_handle ProviderBindingKind.RuntimeAcknowledgement
  | CommandOutcome.Rejected error => CanonicalError_validate error
  | CommandOutcome.AcceptedLocally None | CommandOutcome.Enqueued _ | CommandOutcome.Duplicate _ => Ok tt
  end.

Definition CommandEnvelope_expired_at (e : CommandEnvelope) (now_ms : Z) : bool :=
  is_some_and e.(CommandEnvelope.expires_at_ms) (λ expiry, expiry <=? now_ms).

(** [format!("{}:{}", s.len(), s)] *)
Definition length_prefixed (s : string) : string := decimal (String.length s) +:+ ":" +:+ s.

Definition actor_scope (a : Actor) : string :=
  match a with
  | Actor.Human device_id => "human:" +:+ length_prefixed (id_value device_id)
  | Actor.Workflow workflow_id => "workflow:" +:+ length_prefixed (id_value workflow_id)
  | Actor.Broker => "broker:0:"
  end.

Definition CommandEnvelope_dedupe_key (e : CommandEnvelope) : string :=
  actor_scope e.(CommandEnvelope.actor) +:+ "|key:" +:+
  length_prefixed e.(CommandEnvelope.idempotency_key).

Definition Command_validate (c : Command) : contract_check :=
  match c with
  | Command.SubmitPrompt _ body | Command.EnqueueInput _ body _ | Command.EditQueueEntry _ body =>
      validate_sensitive body "command.body"
  | Command.RespondAttention response => AttentionResponse_validate response
  | Command.ReworkStep _ (Some reason_ref) => validate_sensitive reason_ref "command.rework.reason_ref"
  | Command.SkipStep _ (Some reason_ref) => validate_sensitive reason_ref "command.skip.reason_ref"
  | Command.ReassignStep _ assignment => StepAssignment_validate assignment
  | Command.ReorderQueue _ _ | Command.CancelQueueEntry _ | Command.InterruptTurn _ _
  | Command.RetryTurn _ _ | Command.OpenSession _ _ | Command.ResumeSession _ | Command.CloseSession _
  | Command.AdvanceStep _ | Command.RetryStep _ | Command.ReworkStep _ None | Command.SkipStep _ None
  | Command.CancelStep _ | Command.CancelWorkflow _ => Ok tt
  end.

Definition CommandEnvelope_validate (e : CommandEnvelope) : contract_check :=
  reject_empty e.(CommandEnvelope.command_id) "command_id" ;?
  reject_if (str_is_empty e.(CommandEnvelope.idempotency_key))
            (ContractViolation.EmptyIdentifier "idempotency_key") ;?
  Actor_validate e.(CommandEnvelope.actor) ;?
  Command_validate e.(CommandEnvelope.body).

Definition DeviceCommandRequest_validate (r : DeviceCommandRequest) : contract_check :=
  reject_if (str_is_empty r.(DeviceCommandRequest.idempotency_key))
            (ContractViolation.EmptyIdentifier "device_command.idempotency_key") ;?
  reject_if (MAX_IDEMPOTENCY_KEY_BYTES <? str_len r.(DeviceCommandRequest.idempotency_key))
            (ContractViolation.IdempotencyKeyTooLong (str_len r.(DeviceCommandRequest.idempotency_key))) ;?
  if_some r.(DeviceCommandRequest.ttl_ms) (λ ttl_ms,
    reject_if (negb ((1 <=? ttl_ms) && (ttl_ms <=? MAX_DEVICE_COMMAND_TTL_MS)))
              (ContractViolation.InvalidDeviceCommandTtl ttl_ms)) ;?
  Command_validate r.(DeviceCommandRequest.body).

Definition CommandAck_validate (a : CommandAck) : contract_check :=
  reject_empty a.(CommandAck.command_id) "command_id" ;?
  CommandOutcome_validate a.(CommandAck.outcome).

(** ** The idempotency scope *)

Lemma length_prefixed_app_inj (a a' r r' : string) :
  length_prefixed a +:+ r = length_prefixed a' +:+ r' → a = a' ∧ r = r'.
Proof. unfold length_prefixed. rewrite !append_assoc. apply length_prefixed_inj. Qed.

(** Two commands share the idempotency scope exactly when the same actor used
    the same key: no choice of identifiers or keys makes two scopes collide. *)
Lemma dedupe_key_inj e1 e2 :
  CommandEnvelope_dedupe_key e1 = CommandEnvelope_dedupe_key e2 ↔
  e1.(CommandEnvelope.actor) = e2.(CommandEnvelope.actor) ∧
  e1.(CommandEnvelope.idempotency_key) = e2.(CommandEnvelope.idempotency_key).
Proof.
  split; [|unfold CommandEnvelope_dedupe_key; by intros [-> ->]].
  unfold CommandEnvelope_dedupe_key.
  destruct e1 as [? k1 a1 ? ? ?], e2 as [? k2 a2 ? ? ?]; simpl.
  assert (∀ k k', "|key:" +:+ length_prefixed k = "|key:" +:+ length_prefixed k' → k = k') as Hkey.
  { intros k k' Hk%append_inj_l. assert (length_prefixed k +:+ "" = length_prefixed k' +:+ "") as Hk'
      by (by rewrite Hk). by apply length_prefixed_app_inj in Hk' as [-> _]. }
  destruct a1 as [[d1]|[w1]|], a2 as [[d2]|[w2]|]; unfold actor_scope;
    rewrite ?append_assoc; intros Heq; try discriminate Heq;
    apply append_inj_l in Heq; simpl in Heq.
  - apply length_prefixed_app_inj in Heq as [-> ->%Hkey]. done.
  - apply length_prefixed_app_inj in Heq as [-> ->%Hkey]. done.
  - by apply Hkey in Heq as ->.
Qed.

(** The references an acknowledgement carries ([state.rs], [content_refs]). *)
Definition ack_content_ref (ack : CommandAck) : option ContentRef :=
  match ack.(CommandAck.outcome) with
  | CommandOutcome.AcceptedLocally note_ref => note_ref
  | CommandOutcome.Rejected error => error.(CanonicalError.detail_ref)
  | CommandOutcome.AcceptedByRuntime _ _ _ | CommandOutcome.Enqueued _ | CommandOutcome.Duplicate _ => None
  end.

Lemma CommandAck_validate_refs ack r :
  CommandAck_validate ack = Ok tt → ack_content_ref ack = Some r → ref_private r.
Proof.
  unfold CommandAck_validate, CommandOutcome_validate, ack_content_ref. rewrite rbind_ok_unit. intros [_ Hv].
  destruct (ack.(CommandAck.outcome)) as [[note|]| | |err|]; try done.
  - intros [= <-]. by apply validate_sensitive_ok in Hv.
  - rewrite CanonicalError_validate_ok in Hv. apply Hv.
Qed.
