(* ===== verification/ProtoEffect.v ===== *)
(** * Effects, cursors, the durable log's records and snapshots

    Models [crates/kaleido-proto/src/effect.rs]: the effects that are the only
    way canonical state may change, the cursor discipline of one stream, and
    the snapshot validators with their referential-integrity checks. *)
From stdpp Require Import prelude strings.
From Stdlib Require Import ZArith Lia.
From S2P Require Import Prelude ProtoBase ProtoContent ProtoRuntime ProtoTurn ProtoQueue ProtoWorkflow ProtoAttention ProtoCommand.

Local Open Scope Z_scope.

(** ** Data *)

Module DiagnosticCode.
Inductive DiagnosticCode : Type :=
| UnknownUpstreamMessage
| UnknownUpstreamLabel
| PointerResolutionFailed
| JoinDeferred
| JoinFailed
| BackpressureCoalesced
| MalformedProviderMessage.
End DiagnosticCode.
Abbreviation DiagnosticCode := DiagnosticCode.DiagnosticCode.

#[export] Instance DiagnosticCode_eq_dec : EqDecision DiagnosticCode.
Proof. solve_decision. Defined.

Module DiagnosticRecord.
Record DiagnosticRecord : Type := mk {
  runtime_id : option ProviderRuntimeId;
  session_id : option SessionId;
  code : DiagnosticCode;
  count : Z;
  first_at_ms : Z;
  last_at_ms : Z;
  detail_ref : option ContentRef
}.
End DiagnosticRecord.
Abbreviation DiagnosticRecord := DiagnosticRecord.DiagnosticRecord.

#[export] Instance DiagnosticRecord_eq_dec : EqDecision DiagnosticRecord.
Proof. solve_decision. Defined.

Module StateEffect.
Inductive StateEffect : Type :=
| HostUpserted (host : Host)
| RuntimeUpserted (runtime : ProviderRuntime)
| CapabilitiesUpdated (capabilities : RuntimeCapabilities)
| ProjectUpserted (project : Project)
| SessionUpserted (session : Session)
| SessionStatusChanged (session_id : SessionId) (status : SessionStatus)
| TurnUpserted (turn : Turn)
| ItemUpserted (item : Item)
| QueueEntryUpserted (entry : QueueEntry)
| QueueReordered (session_id : SessionId) (order : list QueueEntryId)
| AttentionUpserted (item : AttentionItem)
| WorkflowUpserted (workflow : Workflow)
| StepUpserted (step : Step)
| ArtifactUpserted (artifact : Artifact)
| CommandAcknowledged (ack : CommandAck)
| DiagnosticRecorded (diagnostic : DiagnosticRecord).
End StateEffect.
Abbreviation StateEffect := StateEffect.StateEffect.

#[export] Instance StateEffect_eq_dec : EqDecision StateEffect.
Proof. solve_decision. Defined.

Module StreamKey.
Inductive StreamKey : Type :=
| Host (host_id : HostId)
| Project (project_id : ProjectId)
| Session (session_id : SessionId)
| Workflow (workflow_id : WorkflowId).
End StreamKey.
Abbreviation StreamKey := StreamKey.StreamKey.

#[export] Instance StreamKey_eq_dec : EqDecision StreamKey.
Proof. solve_decision. Defined.

Module Cursor.
Record Cursor : Type := mk {
  seq : Z
}.
End Cursor.
Abbreviation Cursor := Cursor.Cursor.

#[export] Instance Cursor_eq_dec : EqDecision Cursor.
Proof. solve_decision. Defined.

Module LogRecord.
Record LogRecord : Type := mk {
  cursor : Cursor;
  stream : StreamKey;
  appended_at_ms : Z;
  effect : StateEffect
}.
End LogRecord.
Abbreviation LogRecord := LogRecord.LogRecord.

#[export] Instance LogRecord_eq_dec : EqDecision LogRecord.
Proof. solve_decision. Defined.

Module HostSnapshot.
Record HostSnapshot : Type := mk {
  host : Host;
  runtimes : list ProviderRuntime;
  projects : list Project
}.
End HostSnapshot.
Abbreviation HostSnapshot := HostSnapshot.HostSnapshot.

#[export] Instance HostSnapshot_eq_dec : EqDecision HostSnapshot.
Proof. solve_decision. Defined.

Module ProjectSnapshot.
Record ProjectSnapshot : Type := mk {
  project : Project;
  sessions : list Session;
  workflows : list Workflow;
  attention : list AttentionItem
}.
End ProjectSnapshot.
Abbreviation ProjectSnapshot := ProjectSnapshot.ProjectSnapshot.

#[export] Instance ProjectSnapshot_eq_dec : EqDecision ProjectSnapshot.
Proof. solve_decision. Defined.

Module SessionSnapshot.
Record SessionSnapshot : Type := mk {
  session : Session;
  turns : list Turn;
  items : list Item;
  queue : list QueueEntry;
  attention : list AttentionItem;
  capabilities : RuntimeCapabilities
}.
End SessionSnapshot.
Abbreviation SessionSnapshot := SessionSnapshot.SessionSnapshot.

#[export] Instance SessionSnapshot_eq_dec : EqDecision SessionSnapshot.
Proof. solve_decision. Defined.

Module WorkflowSnapshot.
Record WorkflowSnapshot : Type := mk {
  workflow : Workflow;
  steps : list Step;
  artifacts : list Artifact;
  attention : list AttentionItem
}.
End WorkflowSnapshot.
Abbreviation WorkflowSnapshot := WorkflowSnapshot.WorkflowSnapshot.

#[export] Instance WorkflowSnapshot_eq_dec : EqDecision WorkflowSnapshot.
Proof. solve_decision. Defined.

Module SnapshotPayload.
Inductive SnapshotPayload : Type :=
| Host (snapshot : HostSnapshot)
| Project (snapshot : ProjectSnapshot)
| Session (snapshot : SessionSnapshot)
| Workflow (snapshot : WorkflowSnapshot).
End SnapshotPayload.
Abbreviation SnapshotPayload := SnapshotPayload.SnapshotPayload.

#[export] Instance SnapshotPayload_eq_dec : EqDecision SnapshotPayload.
Proof. solve_decision. Defined.

Module SnapshotEnvelope.
Record SnapshotEnvelope : Type := mk {
  stream : StreamKey;
  cursor : Cursor;
  payload : SnapshotPayload
}.
End SnapshotEnvelope.
Abbreviation SnapshotEnvelope := SnapshotEnvelope.SnapshotEnvelope.

#[export] Instance SnapshotEnvelope_eq_dec : EqDecision SnapshotEnvelope.
Proof. solve_decision. Defined.

Module Subscribe.
Record Subscribe : Type := mk {
  stream : StreamKey;
  since : option Cursor
}.
End Subscribe.
Abbreviation Subscribe := Subscribe.Subscribe.

#[export] Instance Subscribe_eq_dec : EqDecision Subscribe.
Proof. solve_decision. Defined.

Module SubscribeOutcome.
Inductive SubscribeOutcome : Type :=
| Resumed (from_cursor : Cursor)
| SnapshotFollows (snapshot_cursor : Cursor)
| Rejected (error : CanonicalError).
End SubscribeOutcome.
Abbreviation SubscribeOutcome := SubscribeOutcome.SubscribeOutcome.

#[export] Instance SubscribeOutcome_eq_dec : EqDecision SubscribeOutcome.
Proof. solve_decision. Defined.

Module SubscribeAck.
Record SubscribeAck : Type := mk {
  stream : StreamKey;
  outcome : SubscribeOutcome
}.
End SubscribeAck.
Abbreviation SubscribeAck := SubscribeAck.SubscribeAck.

#[export] Instance SubscribeAck_eq_dec : EqDecision SubscribeAck.
Proof. solve_decision. Defined.

(** ** Cursors *)

Definition Cursor_START : Cursor := Cursor.mk 0.

Definition Cursor_next (c : Cursor) : result Cursor ContractViolation :=
  ok_or (Cursor.mk <$> checked_add_u64 c.(Cursor.seq) 1) ContractViolation.CursorOverflow.

Definition Cursor_follows (c previous : Cursor) : bool :=
  match Cursor_next previous with
  | Ok expected => bool_decide (c = expected)
  | Err _ => false
  end.

(** One iteration of the loop of [verify_contiguous] after the first record. *)
Definition check_successor (last_cursor : Cursor) (last_stream : StreamKey) (record : LogRecord)
    : contract_check :=
  reject_if (bool_decide (last_stream ≠ record.(LogRecord.stream))) ContractViolation.MixedStreams ;?
  let? expected := Cursor_next last_cursor in
  reject_if (bool_decide (record.(LogRecord.cursor) = last_cursor))
            (ContractViolation.CursorRepeated record.(LogRecord.cursor).(Cursor.seq)) ;?
  reject_if (bool_decide (record.(LogRecord.cursor) ≠ expected))
            (ContractViolation.CursorGap expected.(Cursor.seq) record.(LogRecord.cursor).(Cursor.seq)).

Fixpoint verify_contiguous_from (previous : option (Cursor * StreamKey)) (records : list LogRecord)
    : contract_check :=
  match records with
  | [] => Ok tt
  | record :: rest =>
      match previous with
      | None => Ok tt
      | Some (last_cursor, last_stream) => check_successor last_cursor last_stream record
      end ;?
      verify_contiguous_from (Some (record.(LogRecord.cursor), record.(LogRecord.stream))) rest
  end.

Definition verify_contiguous (records : list LogRecord) : contract_check :=
  verify_contiguous_from None records.

(** ** Effect validation *)

Definition DiagnosticRecord_validate (d : DiagnosticRecord) : contract_check :=
  reject_if (is_some_and d.(DiagnosticRecord.runtime_id) id_is_empty)
            (ContractViolation.EmptyIdentifier "diagnostic.runtime_id") ;?
  reject_if (is_some_and d.(DiagnosticRecord.session_id) id_is_empty)
            (ContractViolation.EmptyIdentifier "diagnostic.session_id") ;?
  if_some d.(DiagnosticRecord.detail_ref) (λ detail_ref,
    ContentRef_ensure_sensitive detail_ref "diagnostic.detail_ref").

Definition StateEffect_validate_for_log (e : StateEffect) : contract_check :=
  match e with
  | StateEffect.HostUpserted host => Host_validate host
  | StateEffect.RuntimeUpserted runtime => ProviderRuntime_validate runtime
  | StateEffect.CapabilitiesUpdated capabilities => RuntimeCapabilities_validate capabilities
  | StateEffect.ProjectUpserted project => Project_validate project
  | StateEffect.SessionUpserted session => Session_validate_shape session
  | StateEffect.SessionStatusChanged session_id _ =>
      reject_empty session_id "session_status_changed.session_id"
  | StateEffect.TurnUpserted turn => Turn_validate turn
  | StateEffect.ItemUpserted item => Item_validate item
  | StateEffect.QueueEntryUpserted entry => QueueEntry_validate entry
  | StateEffect.QueueReordered session_id order =>
      reject_empty session_id "queue_reordered.session_id" ;?
      reject_if (existsb id_is_empty order)
                (ContractViolation.EmptyIdentifier "queue_reordered.order") ;?
      try_for_each_seen id (λ seen entry_id,
        reject_if (contains_b entry_id seen) ContractViolation.QueueReorderDuplicate) [] order
  | StateEffect.AttentionUpserted item => AttentionItem_validate item
  | StateEffect.WorkflowUpserted workflow => Workflow_validate workflow
  | StateEffect.StepUpserted step => Step_validate step
  | StateEffect.ArtifactUpserted artifact => Artifact_validate artifact
  | StateEffect.CommandAcknowledged ack => CommandAck_validate ack
  | StateEffect.DiagnosticRecorded diagnostic => DiagnosticRecord_validate diagnostic
  end.

(** ** Snapshots *)

Abbreviation dangling field := (ContractViolation.DanglingReference field).

Definition HostSnapshot_validate (s : HostSnapshot) : contract_check :=
  Host_validate s.(HostSnapshot.host) ;?
  try_for_each (λ runtime,
    ProviderRuntime_validate runtime ;?
    reject_if (bool_decide (runtime.(ProviderRuntime.host_id) ≠ s.(HostSnapshot.host).(Host.id)))
              (dangling "host_snapshot.runtimes.host_id")) s.(HostSnapshot.runtimes) ;?
  try_for_each (λ project,
    Project_validate project ;?
    try_for_each (λ binding,
      reject_if (negb (existsb (λ runtime,
          bool_decide (runtime.(ProviderRuntime.id) = binding.(ProjectBinding.runtime_id)))
          s.(HostSnapshot.runtimes)))
        (dangling "host_snapshot.projects.bindings.runtime_id")) project.(Project.bindings))
    s.(HostSnapshot.projects).

Definition ProjectSnapshot_validate (s : ProjectSnapshot) : contract_check :=
  Project_validate s.(ProjectSnapshot.project) ;?
  try_for_each (λ session,
    Session_validate_shape session ;?
    reject_if (bool_decide (session.(Session.project_id) ≠ s.(ProjectSnapshot.project).(Project.id)))
              (dangling "project_snapshot.sessions.project_id") ;?
    reject_if (negb (existsb (λ binding,
        bool_decide (binding.(ProjectBinding.id) = session.(Session.project_binding_id)))
        s.(ProjectSnapshot.project).(Project.bindings)))
      (dangling "project_snapshot.sessions.project_binding_id")) s.(ProjectSnapshot.sessions) ;?
  try_for_each (λ workflow,
    Workflow_validate workflow ;?
    reject_if (bool_decide (workflow.(Workflow.project_id) ≠ s.(ProjectSnapshot.project).(Project.id)))
              (dangling "project_snapshot.workflows.project_id")) s.(ProjectSnapshot.workflows) ;?
  try_for_each (λ attention,
    AttentionItem_validate attention ;?
    reject_if (bool_decide (attention.(AttentionItem.project_id) ≠ s.(ProjectSnapshot.project).(Project.id)))
              (dangling "project_snapshot.attention.project_id") ;?
    if_some attention.(AttentionItem.session_id) (λ session_id,
      reject_if (negb (existsb (λ session, bool_decide (session.(Session.id) = session_id))
                               s.(ProjectSnapshot.sessions)))
                (dangling "project_snapshot.attention.session_id")) ;?
    if_some attention.(AttentionItem.workflow_id) (λ workflow_id,
      reject_if (negb (existsb (λ workflow, bool_decide (workflow.(Workflow.id) = workflow_id))
                               s.(ProjectSnapshot.workflows)))
                (dangling "project_snapshot.attention.workflow_id"))) s.(ProjectSnapshot.attention).

(** [self.turns.iter().any(|turn| &turn.id == turn_id)] *)
Definition has_turn (turns : list Turn) (turn_id : TurnId) : bool :=
  existsb (λ turn, bool_decide (turn.(Turn.id) = turn_id)) turns.

(** The binding handle of a nested record must name the snapshot's runtime. *)
Definition check_handle_runtime (s : SessionSnapshot) (handle : option ProviderBindingHandle)
    (field : string) : contract_check :=
  if_some handle (λ binding_handle,
    reject_if (bool_decide (binding_handle.(ProviderBindingHandle.runtime_id)
                            ≠ s.(SessionSnapshot.capabilities).(RuntimeCapabilities.runtime_id)))
              (dangling field)).

(** One iteration of the turn loop of [SessionSnapshot::validate]. *)
Definition snapshot_turn_step (s : SessionSnapshot) (turn_ids : list TurnId) (turn : Turn) : contract_check :=
  Turn_validate turn ;?
  reject_if (contains_b turn.(Turn.id) turn_ids) (dangling "session_snapshot.turns.id") ;?
  reject_if (bool_decide (turn.(Turn.session_id) ≠ s.(SessionSnapshot.session).(Session.id)))
            (dangling "session_snapshot.turns.session_id") ;?
  try_for_each (λ item_id,
    reject_if (negb (existsb (λ item, bool_decide (item.(Item.id) = item_id)
                                      && bool_decide (item.(Item.turn_id) = turn.(Turn.id)))
                             s.(SessionSnapshot.items)))
              (dangling "session_snapshot.turns.item_ids")) turn.(Turn.item_ids) ;?
  check_handle_runtime s turn.(Turn.binding_handle) "session_snapshot.turns.binding_handle.runtime_id".

Definition snapshot_item_step (s : SessionSnapshot) (item_ids : list ItemId) (item : Item) : contract_check :=
  Item_validate item ;?
  reject_if (contains_b item.(Item.id) item_ids) (dangling "session_snapshot.items.id") ;?
  reject_if (bool_decide (item.(Item.session_id) ≠ s.(SessionSnapshot.session).(Session.id))
             || negb (existsb (λ turn, bool_decide (turn.(Turn.id) = item.(Item.turn_id))
                                       && contains_b item.(Item.id) turn.(Turn.item_ids))
                              s.(SessionSnapshot.turns)))
            (dangling "session_snapshot.items.turn_id") ;?
  check_handle_runtime s item.(Item.binding_handle) "session_snapshot.items.binding_handle.runtime_id".

Definition snapshot_queue_step (s : SessionSnapshot) (queue_ids : list QueueEntryId) (entry : QueueEntry)
    : contract_check :=
  QueueEntry_validate entry ;?
  reject_if (contains_b entry.(QueueEntry.id) queue_ids) (dangling "session_snapshot.queue.id") ;?
  reject_if (bool_decide (entry.(QueueEntry.session_id) ≠ s.(SessionSnapshot.session).(Session.id)))
            (dangling "session_snapshot.queue.session_id") ;?
  match entry.(QueueEntry.state) with
  | QueueState.DeliveredAsNewTurn turn_id _ =>
      reject_if (negb (has_turn s.(SessionSnapshot.turns) turn_id))
                (dangling "session_snapshot.queue.turn_id")
  | QueueState.DeliveredAsSteer _ _ _ _ _ =>
      let? active_turn_id := ok_or s.(SessionSnapshot.session).(Session.active_turn_id)
                                   (dangling "session_snapshot.queue.active_turn_id") in
      QueueEntry_validate_for_active_turn entry active_turn_id s.(SessionSnapshot.capabilities)
  | QueueState.Pending | QueueState.Submitting _ | QueueState.Rejected _ | QueueState.Cancelled _ => Ok tt
  end.

(** [for (expected, entry) in (0_u32..).zip(pending)] *)
Fixpoint check_positions (expected : Z) (pending : list QueueEntry) : contract_check :=
  match pending with
  | [] => Ok tt
  | entry :: rest =>
      reject_if (bool_decide (entry.(QueueEntry.position) ≠ expected))
                (dangling "session_snapshot.queue.position") ;?
      check_positions (expected + 1) rest
  end.

Definition snapshot_attention_step (s : SessionSnapshot) (attention_ids : list AttentionId)
    (attention : AttentionItem) : contract_check :=
  AttentionItem_validate attention ;?
  reject_if (contains_b attention.(AttentionItem.id) attention_ids)
            (dangling "session_snapshot.attention.id") ;?
  reject_if (bool_decide (attention.(AttentionItem.session_id)
                          ≠ Some s.(SessionSnapshot.session).(Session.id)))
            (dangling "session_snapshot.attention.session_id") ;?
  reject_if (bool_decide (attention.(AttentionItem.project_id)
                          ≠ s.(SessionSnapshot.session).(Session.project_id)))
            (dangling "session_snapshot.attention.project_id") ;?
  if_some attention.(AttentionItem.turn_id) (λ turn_id,
    reject_if (negb (has_turn s.(SessionSnapshot.turns) turn_id))
              (dangling "session_snapshot.attention.turn_id")) ;?
  match attention.(AttentionItem.subject) with
  | AttentionSubject.Approval request =>
      match request.(ApprovalRequest.join) with
      | JoinState.Joined item_id =>
          reject_if (negb (existsb (λ item,
              bool_decide (item.(Item.id) = item_id)
              && bool_decide (Some item.(Item.turn_id) = attention.(AttentionItem.turn_id))
              && bool_decide (item.(Item.session_id) = s.(SessionSnapshot.session).(Session.id)))
              s.(SessionSnapshot.items)))
            (dangling "session_snapshot.attention.approval.join")
      | JoinState.Unjoined _ => Ok tt
      end
  | _ => Ok tt
  end.

Definition SessionSnapshot_validate (s : SessionSnapshot) : contract_check :=
  RuntimeCapabilities_validate s.(SessionSnapshot.capabilities) ;?
  Session_validate s.(SessionSnapshot.session) s.(SessionSnapshot.capabilities) ;?
  check_handle_runtime s s.(SessionSnapshot.session).(Session.binding_handle)
    "session_snapshot.session.binding_handle.runtime_id" ;?
  if_some s.(SessionSnapshot.session).(Session.active_turn_id) (λ active,
    reject_if (negb (has_turn s.(SessionSnapshot.turns) active))
              (dangling "session_snapshot.session.active_turn_id")) ;?
  try_for_each_seen Turn.id (snapshot_turn_step s) [] s.(SessionSnapshot.turns) ;?
  try_for_each_seen Item.id (snapshot_item_step s) [] s.(SessionSnapshot.items) ;?
  try_for_each_seen QueueEntry.id (snapshot_queue_step s) [] s.(SessionSnapshot.queue) ;?
  check_positions 0 (sort_by_key QueueEntry.position (filter_b entry_pending s.(SessionSnapshot.queue))) ;?
  try_for_each_seen AttentionItem.id (snapshot_attention_step s) [] s.(SessionSnapshot.attention).

(** One iteration of the step loop of [WorkflowSnapshot::validate]. *)
Definition snapshot_step_check (s : WorkflowSnapshot) (step : Step) : contract_check :=
  Step_validate step ;?
  reject_if (bool_decide (step.(Step.workflow_id) ≠ s.(WorkflowSnapshot.workflow).(Workflow.id))
             || negb (contains_b step.(Step.id) s.(WorkflowSnapshot.workflow).(Workflow.step_ids)))
            (dangling "workflow_snapshot.steps.workflow_id") ;?
  try_for_each (λ dependency,
    reject_if (negb (existsb (λ candidate, bool_decide (candidate.(Step.id) = dependency))
                             s.(WorkflowSnapshot.steps)))
              (dangling "workflow_snapshot.steps.depends_on")) step.(Step.depends_on) ;?
  try_for_each (λ artifact_id,
    reject_if (negb (existsb (λ artifact, bool_decide (artifact.(Artifact.id) = artifact_id))
                             s.(WorkflowSnapshot.artifacts)))
              (dangling "workflow_snapshot.steps.artifacts"))
    (step.(Step.inputs) ++ step.(Step.outputs)) ;?
  if_some step.(Step.human_gate) (λ attention_id,
    reject_if (negb (existsb (λ attention, bool_decide (attention.(AttentionItem.id) = attention_id))
                             s.(WorkflowSnapshot.attention)))
              (dangling "workflow_snapshot.steps.human_gate")).

Definition WorkflowSnapshot_validate (s : WorkflowSnapshot) : contract_check :=
  Workflow_validate s.(WorkflowSnapshot.workflow) ;?
  try_for_each (λ step_id,
    reject_if (negb (existsb (λ step, bool_decide (step.(Step.id) = step_id)) s.(WorkflowSnapshot.steps)))
              (dangling "workflow_snapshot.workflow.step_ids"))
    s.(WorkflowSnapshot.workflow).(Workflow.step_ids) ;?
  try_for_each (snapshot_step_check s) s.(WorkflowSnapshot.steps) ;?
  try_for_each (λ artifact,
    Artifact_validate artifact ;?
    reject_if (bool_decide (artifact.(Artifact.workflow_id) ≠ s.(WorkflowSnapshot.workflow).(Workflow.id)))
              (dangling "workflow_snapshot.artifacts.workflow_id") ;?
    if_some artifact.(Artifact.produced_by) (λ step_id,
      reject_if (negb (existsb (λ step, bool_decide (step.(Step.id) = step_id)) s.(WorkflowSnapshot.steps)))
                (dangling "workflow_snapshot.artifacts.produced_by"))) s.(WorkflowSnapshot.artifacts) ;?
  try_for_each (λ attention,
    AttentionItem_validate attention ;?
    reject_if (bool_decide (attention.(AttentionItem.project_id)
                            ≠ s.(WorkflowSnapshot.workflow).(Workflow.project_id)))
              (dangling "workflow_snapshot.attention.project_id") ;?
    reject_if (bool_decide (attention.(AttentionItem.workflow_id)
                            ≠ Some s.(WorkflowSnapshot.workflow).(Workflow.id)))
              (dangling "workflow_snapshot.attention.workflow_id") ;?
    match attention.(AttentionItem.subject) with
    | AttentionSubject.WorkflowGate request =>
        reject_if (negb (existsb (λ step, bool_decide (step.(Step.id) = request.(WorkflowGateRequest.step_id)))
                                 s.(WorkflowSnapshot.steps)))
                  (dangling "workflow_snapshot.attention.step_id")
    | _ => Ok tt
    end) s.(WorkflowSnapshot.attention).

Definition SnapshotEnvelope_validate (e : SnapshotEnvelope) : contract_check :=
  match e.(SnapshotEnvelope.stream), e.(SnapshotEnvelope.payload) with
  | StreamKey.Host host_id, SnapshotPayload.Host snapshot =>
      if bool_decide (host_id = snapshot.(HostSnapshot.host).(Host.id))
      then HostSnapshot_validate snapshot else Err ContractViolation.SnapshotStreamMismatch
  | StreamKey.Project project_id, SnapshotPayload.Project snapshot =>
      if bool_decide (project_id = snapshot.(ProjectSnapshot.project).(Project.id))
      then ProjectSnapshot_validate snapshot else Err ContractViolation.SnapshotStreamMismatch
  | StreamKey.Session session_id, SnapshotPayload.Session snapshot =>
      if bool_decide (session_id = snapshot.(SessionSnapshot.session).(Session.id))
      then SessionSnapshot_validate snapshot else Err ContractViolation.SnapshotStreamMismatch
  | StreamKey.Workflow workflow_id, SnapshotPayload.Workflow snapshot =>
      if bool_decide (workflow_id = snapshot.(WorkflowSnapshot.workflow).(Workflow.id))
      then WorkflowSnapshot_validate snapshot else Err ContractViolation.SnapshotStreamMismatch
  | _, _ => Err ContractViolation.SnapshotStreamMismatch
  end.

Definition validate_replay_window (snapshot : SnapshotEnvelope) (records : list LogRecord) : contract_check :=
  SnapshotEnvelope_validate snapshot ;?
  match records with
  | [] => Ok tt
  | first :: _ =>
      reject_if (bool_decide (first.(LogRecord.stream) ≠ snapshot.(SnapshotEnvelope.stream)))
                ContractViolation.MixedStreams ;?
      let? expected := Cursor_next snapshot.(SnapshotEnvelope.cursor) in
      reject_if (bool_decide (first.(LogRecord.cursor) = snapshot.(SnapshotEnvelope.cursor)))
                (ContractViolation.CursorRepeated first.(LogRecord.cursor).(Cursor.seq)) ;?
      reject_if (bool_decide (first.(LogRecord.cursor) ≠ expected))
                (ContractViolation.CursorGap expected.(Cursor.seq) first.(LogRecord.cursor).(Cursor.seq)) ;?
      verify_contiguous records ;?
      try_for_each (λ record, StateEffect_validate_for_log record.(LogRecord.effect)) records
  end.

(** ** The cursor discipline *)

(** A run of records of one stream whose cursors count up from [from]. *)
Definition run_from (stream : StreamKey) (from : Z) (records : list LogRecord) : Prop :=
  ∀ i r, records !! i = Some r →
    r.(LogRecord.stream) = stream ∧ r.(LogRecord.cursor).(Cursor.seq) = from + Z.of_nat i.

(** Cursors are [u64] values. *)
Definition cursors_in_range (records : list LogRecord) : Prop :=
  ∀ r, r ∈ records → in_u64 r.(LogRecord.cursor).(Cursor.seq).

Lemma Cursor_next_ok c d :
  Cursor_next c = Ok d ↔ d.(Cursor.seq) = c.(Cursor.seq) + 1 ∧ c.(Cursor.seq) + 1 ≤ u64_max.
Proof.
  unfold Cursor_next. rewrite ok_or_ok, fmap_Some. setoid_rewrite checked_add_u64_some.
  destruct d as [d]; simpl. split; [by intros (x & [-> ?] & [= ->]) | intros [-> ?]; eauto].
Qed.

Lemma check_successor_ok last stream r :
  in_u64 r.(LogRecord.cursor).(Cursor.seq) →
  check_successor last stream r = Ok tt ↔
  r.(LogRecord.stream) = stream ∧ r.(LogRecord.cursor).(Cursor.seq) = last.(Cursor.seq) + 1.
Proof.
  intros [_ Hmax]. unfold check_successor. rewrite rbind_ok_unit, rbind_ok.
  setoid_rewrite rbind_ok_unit. setoid_rewrite reject_if_ok. setoid_rewrite bool_decide_neq_false.
  setoid_rewrite bool_decide_eq_false. setoid_rewrite Cursor_next_ok. split.
  - by intros (-> & expected & [He _] & _ & ->).
  - intros [-> Hs]. split; [done|]. exists r.(LogRecord.cursor). split_and!; try done; [lia|].
    intros E. rewrite E in Hs. lia.
Qed.

Lemma run_from_cons stream from r records :
  run_from stream from (r :: records) ↔
  (r.(LogRecord.stream) = stream ∧ r.(LogRecord.cursor).(Cursor.seq) = from)
  ∧ run_from stream (from + 1) records.
Proof.
  unfold run_from. split.
  - intros H. split; [destruct (H 0%nat r eq_refl); split; [done|lia]|].
    intros i x Hx. destruct (H (S i) x Hx). split; [done|lia].
  - intros [[Hs Hc] H] [|i] x Hx; simpl in Hx.
    + simplify_eq. split; [done|lia].
    + destruct (H i x Hx). split; [done|lia].
Qed.

Lemma verify_contiguous_from_ok last stream records :
  cursors_in_range records →
  verify_contiguous_from (Some (last, stream)) records = Ok tt ↔
  run_from stream (last.(Cursor.seq) + 1) records.
Proof.
  revert last stream. induction records as [|r records IH]; intros last stream Hr; simpl; [done|].
  rewrite rbind_ok_unit, run_from_cons, check_successor_ok by (apply Hr; left).
  rewrite IH by (intros x Hx; apply Hr; by right).
  split; intros [[<- Hc] Hrest]; [by rewrite <-Hc | by rewrite Hc].
Qed.

Lemma verify_contiguous_ok records :
  cursors_in_range records →
  verify_contiguous records = Ok tt ↔ ∃ stream from, run_from stream from records.
Proof.
  intros Hr. destruct records as [|r records]; unfold verify_contiguous; simpl.
  { split; [intros _|done]. exists (StreamKey.Host (mkId "")), 0. by intros i r. }
  rewrite verify_contiguous_from_ok by (intros x Hx; apply Hr; by right). split.
  - intros H. eexists _, _. by apply run_from_cons.
  - intros (stream & from & [[<- <-] H]%run_from_cons). done.
Qed.

(** A record list passes the contiguity check exactly when all its records belong to one stream and their
    cursors increase by one from each record to the next. *)
Theorem verify_contiguous_exact records (Hr : cursors_in_range records) :
  verify_contiguous records = Ok tt ↔
  ∀ i j r r', records !! i = Some r → records !! j = Some r' →
    r.(LogRecord.stream) = r'.(LogRecord.stream) ∧
    r'.(LogRecord.cursor).(Cursor.seq) - r.(LogRecord.cursor).(Cursor.seq) = Z.of_nat j - Z.of_nat i.
Proof.
  rewrite verify_contiguous_ok by done. split.
  - intros (stream & from & H) i j r r' [-> ->]%H [-> ->]%H. split; [done|lia].
  - intros H. destruct records as [|r0 records]; [by exists (StreamKey.Host (mkId "")), 0|].
    exists r0.(LogRecord.stream), r0.(LogRecord.cursor).(Cursor.seq). intros i r Hi.
    destruct (H 0%nat i r0 r eq_refl Hi) as [-> ?]. split; [done|lia].
Qed.

(** A replay window is accepted exactly when its snapshot is valid, every record may be logged, and the
    records belong to the stream of the snapshot and continue its cursor one by one. *)
Theorem validate_replay_window_exact snapshot records
    (Hr : cursors_in_range records) :
  validate_replay_window snapshot records = Ok tt ↔
  SnapshotEnvelope_validate snapshot = Ok tt ∧
  run_from snapshot.(SnapshotEnvelope.stream)
           (snapshot.(SnapshotEnvelope.cursor).(Cursor.seq) + 1) records ∧
  ∀ r, r ∈ records → StateEffect_validate_for_log r.(LogRecord.effect) = Ok tt.
Proof.
  unfold validate_replay_window. rewrite rbind_ok_unit. apply and_iff; [done|].
  destruct records as [|first rest].
  { split; [|done]. intros _. split; [by intros i r | by intros r ?%elem_of_nil]. }
  assert (cursors_in_range rest) as Hrest by (intros x Hx; apply Hr; by right).
  rewrite rbind_ok_unit, rbind_ok. repeat setoid_rewrite rbind_ok_unit.
  setoid_rewrite (λ c k, verify_contiguous_from_ok c k rest Hrest). clear Hrest.
  rewrite run_from_cons, reject_if_ok, bool_decide_neq_false. setoid_rewrite try_for_each_ok.
  setoid_rewrite reject_if_ok. setoid_rewrite bool_decide_neq_false. setoid_rewrite bool_decide_eq_false.
  setoid_rewrite Cursor_next_ok. split.
  - intros (-> & expected & [Hn _] & _ & -> & [_ Hrest] & Hf & Hall). rewrite <-Hn.
    split; [done|]. by intros r [->|Hin]%elem_of_cons; [|apply Hall].
  - intros ([[<- Hseq] Hrest] & Hall). split; [done|].
    destruct (Hr first ltac:(left)) as [_ Hmax]. exists first.(LogRecord.cursor). rewrite Hseq.
    split_and!; try done; [lia| |by apply Hall; left|by intros r Hin; apply Hall; right].
    intros E. rewrite E in Hseq. lia.
Qed.

(** ** Effects *)

(** ** What a validated session snapshot guarantees *)

Definition turn_in_snapshot (s : SessionSnapshot) (t : Turn) : Prop :=
  turn_ok t ∧ t.(Turn.session_id) = s.(SessionSnapshot.session).(Session.id) ∧
  ∀ iid, iid ∈ t.(Turn.item_ids) →
    ∃ item, item ∈ s.(SessionSnapshot.items) ∧ item.(Item.id) = iid ∧ item.(Item.turn_id) = t.(Turn.id).

Lemma snapshot_turn_step_ok s seen t :
  snapshot_turn_step s seen t = Ok tt ↔
  (t.(Turn.id) ∉ seen) ∧ turn_in_snapshot s t ∧
  check_handle_runtime s t.(Turn.binding_handle) "session_snapshot.turns.binding_handle.runtime_id" = Ok tt.
Proof.
  unfold snapshot_turn_step, turn_in_snapshot.
  rewrite !rbind_ok_unit, Turn_validate_ok, !reject_if_ok, contains_b_false, bool_decide_neq_false,
    try_for_each_ok.
  setoid_rewrite reject_if_ok. setoid_rewrite negb_false_true. setoid_rewrite existsb_elem.
  setoid_rewrite andb_true_iff. setoid_rewrite bool_decide_eq_true. tauto.
Qed.

Definition item_in_snapshot (s : SessionSnapshot) (i : Item) : Prop :=
  Item_validate i = Ok tt ∧ i.(Item.session_id) = s.(SessionSnapshot.session).(Session.id) ∧
  ∃ t, t ∈ s.(SessionSnapshot.turns) ∧ t.(Turn.id) = i.(Item.turn_id) ∧ i.(Item.id) ∈ t.(Turn.item_ids).

Lemma snapshot_item_step_ok s seen i :
  snapshot_item_step s seen i = Ok tt ↔
  (i.(Item.id) ∉ seen) ∧ item_in_snapshot s i ∧
  check_handle_runtime s i.(Item.binding_handle) "session_snapshot.items.binding_handle.runtime_id" = Ok tt.
Proof.
  unfold snapshot_item_step, item_in_snapshot.
  rewrite !rbind_ok_unit, !reject_if_ok, contains_b_false, orb_false_iff, bool_decide_neq_false,
    negb_false_true, existsb_elem.
  setoid_rewrite andb_true_iff. setoid_rewrite bool_decide_eq_true. setoid_rewrite contains_b_true. tauto.
Qed.

Lemma check_positions_ok k l :
  check_positions k l = Ok tt ↔ ∀ i e, l !! i = Some e → e.(QueueEntry.position) = k + Z.of_nat i.
Proof.
  revert k. induction l as [|x l IH]; intros k; simpl; [done|].
  rewrite rbind_ok_unit, reject_if_ok, bool_decide_neq_false, IH. split.
  - intros [Hx Hl] [|i] e He; simpl in He; simplify_eq; [lia|]. rewrite (Hl i e He). lia.
  - intros H. split; [rewrite (H 0%nat x eq_refl); lia|].
    intros i e He. rewrite (H (S i) e He). lia.
Qed.

(** Item ids listed by the turns of a snapshot, in turn order. *)
Definition listed_items (s : SessionSnapshot) : list ItemId :=
  t ← s.(SessionSnapshot.turns); t.(Turn.item_ids).

(** Pending queue entries of a snapshot, in delivery order. *)
Definition pending_in_order (s : SessionSnapshot) : list QueueEntry :=
  sort_by_key QueueEntry.position (filter_b entry_pending s.(SessionSnapshot.queue)).

Lemma snapshot_turns_items s :
  SessionSnapshot_validate s = Ok tt →
  NoDup (Turn.id <$> s.(SessionSnapshot.turns)) ∧ NoDup (Item.id <$> s.(SessionSnapshot.items)) ∧
  (∀ t, t ∈ s.(SessionSnapshot.turns) → turn_in_snapshot s t) ∧
  (∀ i, i ∈ s.(SessionSnapshot.items) → item_in_snapshot s i).
Proof.
  unfold SessionSnapshot_validate. rewrite !rbind_ok_unit.
  intros (_ & _ & _ & _ & Ht & Hi & _).
  rewrite (try_for_each_seen_nil_ok _ (λ t, turn_in_snapshot s t ∧
    check_handle_runtime s t.(Turn.binding_handle) "session_snapshot.turns.binding_handle.runtime_id" = Ok tt)) in Ht
    by apply snapshot_turn_step_ok.
  rewrite (try_for_each_seen_nil_ok _ (λ i, item_in_snapshot s i ∧
    check_handle_runtime s i.(Item.binding_handle) "session_snapshot.items.binding_handle.runtime_id" = Ok tt)) in Hi
    by apply snapshot_item_step_ok.
  destruct Ht as [? Ht], Hi as [? Hi]. split_and!; try done; intros x Hx; [by apply Ht | by apply Hi].
Qed.

(** Each item of a snapshot is listed exactly once, by the turn it names. *)
Lemma snapshot_items_partition s :
  SessionSnapshot_validate s = Ok tt →
  listed_items s ≡ₚ Item.id <$> s.(SessionSnapshot.items).
Proof.
  intros (Hnt & Hni & Ht & Hi)%snapshot_turns_items. unfold listed_items. apply NoDup_Permutation.
  - apply NoDup_bind.
    + intros t1 t2 x Ht1 Ht2 Hx1 Hx2. apply (NoDup_key_inj Turn.id _ _ _ Hnt Ht1 Ht2).
      destruct (Ht t1 Ht1) as (_ & _ & H1), (Ht t2 Ht2) as (_ & _ & H2).
      destruct (H1 x Hx1) as (i1 & Hi1 & E1 & <-), (H2 x Hx2) as (i2 & Hi2 & E2 & <-).
      f_equal. apply (NoDup_key_inj Item.id _ _ _ Hni Hi1 Hi2). congruence.
    + intros t Hin. by apply Ht in Hin as [[] _].
    + by apply NoDup_fmap_1 in Hnt.
  - done.
  - intros x. rewrite list_elem_of_bind, list_elem_of_fmap. split.
    + intros (t & Hx & Hin). destruct (Ht t Hin) as (_ & _ & H). destruct (H x Hx) as (i & ? & <- & _). by exists i.
    + intros (i & -> & Hin). destruct (Hi i Hin) as (_ & _ & t & ? & _ & ?). by exists t.
Qed.

(** In a validated session snapshot the turns list every item of the snapshot exactly once, and an item is
    listed by a turn exactly when it names that turn. *)
Theorem validated_snapshot_partitions_items s (Hv : SessionSnapshot_validate s = Ok tt) :
  listed_items s ≡ₚ Item.id <$> s.(SessionSnapshot.items) ∧
  NoDup (listed_items s) ∧
  ∀ t i, t ∈ s.(SessionSnapshot.turns) → i ∈ s.(SessionSnapshot.items) →
    (i.(Item.id) ∈ t.(Turn.item_ids) ↔ i.(Item.turn_id) = t.(Turn.id)).
Proof.
  pose proof (snapshot_items_partition s Hv) as Hp.
  destruct (snapshot_turns_items s Hv) as (Hnt & Hni & Ht & Hi). split_and!; [done|by rewrite Hp|].
  intros t i Hint Hini. split.
  - intros Hin. destruct (Ht t Hint) as (_ & _ & H). destruct (H _ Hin) as (i' & Hi' & E & <-).
    f_equal. by apply (NoDup_key_inj Item.id _ _ _ Hni).
  - intros E. destruct (Hi i Hini) as (_ & _ & t' & Ht' & E' & Hin).
    by rewrite (NoDup_key_inj Turn.id _ t t' Hnt Hint Ht') by congruence.
Qed.

Lemma snapshot_queue_ok s :
  SessionSnapshot_validate s = Ok tt →
  check_positions 0 (pending_in_order s) = Ok tt ∧
  NoDup (QueueEntry.id <$> s.(SessionSnapshot.queue)) ∧
  ∀ e, e ∈ s.(SessionSnapshot.queue) → snapshot_queue_step s [] e = Ok tt.
Proof.
  unfold SessionSnapshot_validate. rewrite !rbind_ok_unit. intros (_ & _ & _ & _ & _ & _ & Hq & Hp & _).
  split; [done|].
  rewrite (try_for_each_seen_nil_ok _ (λ e, snapshot_queue_step s [] e = Ok tt)) in Hq; [done|].
  intros seen e. unfold snapshot_queue_step. rewrite !rbind_ok_unit, !reject_if_ok, !contains_b_false.
  pose proof (not_elem_of_nil e.(QueueEntry.id)). tauto.
Qed.

(** In a validated session snapshot the pending queue entries, in order, have the positions 0, 1, 2, ...;
    every entry is valid and of that session; and an entry delivered as a steer went to the active turn of a
    runtime that supports steering. *)
Theorem validated_snapshot_queue_is_dense s (Hv : SessionSnapshot_validate s = Ok tt) :
  QueueEntry.position <$> pending_in_order s = seqZ 0 (Z.of_nat (length (pending_in_order s))) ∧
  (∀ e, e ∈ s.(SessionSnapshot.queue) →
     e.(QueueEntry.session_id) = s.(SessionSnapshot.session).(Session.id) ∧ entry_ok_q e) ∧
  (∀ e rid tid h at_ms ack, e ∈ s.(SessionSnapshot.queue) →
     e.(QueueEntry.state) = QueueState.DeliveredAsSteer rid tid h at_ms ack →
     s.(SessionSnapshot.session).(Session.active_turn_id) = Some tid ∧
     rid = s.(SessionSnapshot.capabilities).(RuntimeCapabilities.runtime_id) ∧
     RuntimeCapabilities_permits s.(SessionSnapshot.capabilities) Capability.TurnSteer = true).
Proof.
  destruct (snapshot_queue_ok s Hv) as (Hpos & _ & Hq). rewrite check_positions_ok in Hpos. split_and!.
  - apply list_eq. intros i. rewrite list_lookup_fmap.
    destruct (pending_in_order s !! i) as [e|] eqn:E; simpl.
    + symmetry. rewrite lookup_seqZ. rewrite (Hpos i e E). split; [done|].
      apply lookup_lt_Some in E. lia.
    + symmetry. apply lookup_seqZ_ge. apply lookup_ge_None in E. lia.
  - intros e He. specialize (Hq e He). unfold snapshot_queue_step in Hq.
    rewrite !rbind_ok_unit, QueueEntry_validate_ok, !reject_if_ok, bool_decide_neq_false in Hq. tauto.
  - intros e rid tid h at_ms ack He Hs. specialize (Hq e He). unfold snapshot_queue_step in Hq.
    rewrite Hs, !rbind_ok_unit, rbind_ok in Hq.
    destruct Hq as (_ & _ & _ & active & Ha%ok_or_ok & Hv').
    unfold QueueEntry_validate_for_active_turn in Hv'. rewrite Hs in Hv'. simpl_ok.
    destruct Hv' as (_ & -> & <- & ?). done.
Qed.
