(* ===== verification/ProtoProjection.v ===== *)
(** * Subscriber read models: the wire contract

    Models [crates/kaleido-proto/src/projection.rs]: projection keys and their
    payloads, the validators a payload passes before it is transported, and the
    subscription protocol (the decision of the host, the check of the client,
    and the sequence check both sides share). *)
From stdpp Require Import prelude strings gmap.
From Stdlib Require Import ZArith Lia.
From S2P Require Import Prelude ProtoBase ProtoContent ProtoRuntime ProtoTurn ProtoQueue ProtoWorkflow ProtoAttention ProtoCommand ProtoEffect.

Local Open Scope Z_scope.

(** ** Data *)

Definition PROJECTION_VERSION : Z := 3.

Module ProjectionKey.
Inductive ProjectionKey : Type :=
| ProjectIndex (host_id : HostId)
| SessionIndex (project_id : ProjectId)
| Transcript (session_id : SessionId)
| LiveActivity (session_id : SessionId)
| InputQueue (session_id : SessionId)
| AttentionInbox (host_id : HostId)
| WorkflowBoard (workflow_id : WorkflowId)
| RuntimeCapability (host_id : HostId) (runtime_id : ProviderRuntimeId).
End ProjectionKey.
Abbreviation ProjectionKey := ProjectionKey.ProjectionKey.

#[export] Instance ProjectionKey_eq_dec : EqDecision ProjectionKey.
Proof. solve_decision. Defined.

#[export] Instance ProjectionKey_countable : Countable ProjectionKey.
Proof.
  refine (inj_countable' (λ k, match k with
    | ProjectionKey.ProjectIndex i => (0%nat, id_value i, "")
    | ProjectionKey.SessionIndex i => (1%nat, id_value i, "")
    | ProjectionKey.Transcript i => (2%nat, id_value i, "")
    | ProjectionKey.LiveActivity i => (3%nat, id_value i, "")
    | ProjectionKey.InputQueue i => (4%nat, id_value i, "")
    | ProjectionKey.AttentionInbox i => (5%nat, id_value i, "")
    | ProjectionKey.WorkflowBoard i => (6%nat, id_value i, "")
    | ProjectionKey.RuntimeCapability i r => (7%nat, id_value i, id_value r)
    end) (λ p, match p.1.1 with
    | 0%nat => ProjectionKey.ProjectIndex (mkId p.1.2)
    | 1%nat => ProjectionKey.SessionIndex (mkId p.1.2)
    | 2%nat => ProjectionKey.Transcript (mkId p.1.2)
    | 3%nat => ProjectionKey.LiveActivity (mkId p.1.2)
    | 4%nat => ProjectionKey.InputQueue (mkId p.1.2)
    | 5%nat => ProjectionKey.AttentionInbox (mkId p.1.2)
    | 6%nat => ProjectionKey.WorkflowBoard (mkId p.1.2)
    | _ => ProjectionKey.RuntimeCapability (mkId p.1.2) (mkId p.2)
    end) _). by intros [[]|[]|[]|[]|[]|[]|[]|[] []].
Defined.

Module ProjectBindingSummary.
Record ProjectBindingSummary : Type := mk {
  binding_id : ProjectBindingId;
  runtime_id : ProviderRuntimeId
}.
End ProjectBindingSummary.
Abbreviation ProjectBindingSummary := ProjectBindingSummary.ProjectBindingSummary.

#[export] Instance ProjectBindingSummary_eq_dec : EqDecision ProjectBindingSummary.
Proof. solve_decision. Defined.

Module ProjectSummary.
Record ProjectSummary : Type := mk {
  project_id : ProjectId;
  display_name : string;
  bindings : list ProjectBindingSummary;
  session_counts : SessionCounts;
  attention_count : Z;
  workflow_count : Z;
  last_activity_at_ms : Z
}.
End ProjectSummary.
Abbreviation ProjectSummary := ProjectSummary.ProjectSummary.

#[export] Instance ProjectSummary_eq_dec : EqDecision ProjectSummary.
Proof. solve_decision. Defined.

Module ProviderGroup.
Record ProviderGroup : Type := mk {
  family : ProviderFamily;
  runtime_ids : list ProviderRuntimeId;
  projects : list ProjectSummary
}.
End ProviderGroup.
Abbreviation ProviderGroup := ProviderGroup.ProviderGroup.

#[export] Instance ProviderGroup_eq_dec : EqDecision ProviderGroup.
Proof. solve_decision. Defined.

Module ProjectIndexView.
Record ProjectIndexView : Type := mk {
  host_id : HostId;
  reachability : HostReachability;
  groups : list ProviderGroup
}.
End ProjectIndexView.
Abbreviation ProjectIndexView := ProjectIndexView.ProjectIndexView.

#[export] Instance ProjectIndexView_eq_dec : EqDecision ProjectIndexView.
Proof. solve_decision. Defined.

Module SessionSummary.
Record SessionSummary : Type := mk {
  session_id : SessionId;
  project_binding_id : ProjectBindingId;
  title : option string;
  status : SessionStatus;
  ownership : OwnershipMode;
  live_binding : LiveBinding;
  queue_depth : Z;
  open_attention_count : Z;
  last_activity_at_ms : Z
}.
End SessionSummary.
Abbreviation SessionSummary := SessionSummary.SessionSummary.

#[export] Instance SessionSummary_eq_dec : EqDecision SessionSummary.
Proof. solve_decision. Defined.

Module SessionIndexView.
Record SessionIndexView : Type := mk {
  project_id : ProjectId;
  active : list SessionSummary;
  history : list SessionSummary;
  archived : list SessionSummary
}.
End SessionIndexView.
Abbreviation SessionIndexView := SessionIndexView.SessionIndexView.

#[export] Instance SessionIndexView_eq_dec : EqDecision SessionIndexView.
Proof. solve_decision. Defined.

Module TranscriptTurn.
Record TranscriptTurn : Type := mk {
  turn : Turn;
  items : list Item
}.
End TranscriptTurn.
Abbreviation TranscriptTurn := TranscriptTurn.TranscriptTurn.

#[export] Instance TranscriptTurn_eq_dec : EqDecision TranscriptTurn.
Proof. solve_decision. Defined.

Module TranscriptView.
Record TranscriptView : Type := mk {
  session_id : SessionId;
  turns : list TranscriptTurn;
  has_earlier : bool
}.
End TranscriptView.
Abbreviation TranscriptView := TranscriptView.TranscriptView.

#[export] Instance TranscriptView_eq_dec : EqDecision TranscriptView.
Proof. solve_decision. Defined.

Module LiveActivityView.
Record LiveActivityView : Type := mk {
  session_id : SessionId;
  active_turn_id : option TurnId;
  streaming_item_ids : list ItemId;
  plan : list PlanEntry;
  tasks : list AgentTask;
  updated_at_ms : Z
}.
End LiveActivityView.
Abbreviation LiveActivityView := LiveActivityView.LiveActivityView.

#[export] Instance LiveActivityView_eq_dec : EqDecision LiveActivityView.
Proof. solve_decision. Defined.

Module InputQueueView.
Record InputQueueView : Type := mk {
  session_id : SessionId;
  entries : list QueueEntry;
  writable : bool;
  steer_supported : bool
}.
End InputQueueView.
Abbreviation InputQueueView := InputQueueView.InputQueueView.

#[export] Instance InputQueueView_eq_dec : EqDecision InputQueueView.
Proof. solve_decision. Defined.

Module AttentionInboxView.
Record AttentionInboxView : Type := mk {
  entries : list AttentionItem
}.
End AttentionInboxView.
Abbreviation AttentionInboxView := AttentionInboxView.AttentionInboxView.

#[export] Instance AttentionInboxView_eq_dec : EqDecision AttentionInboxView.
Proof. solve_decision. Defined.

Module WorkflowBoardStep.
Record WorkflowBoardStep : Type := mk {
  step_id : StepId;
  title : string;
  state : StepState;
  depends_on : list StepId;
  assignment : StepAssignment;
  session_id : option SessionId;
  blockers : list StepBlocker
}.
End WorkflowBoardStep.
Abbreviation WorkflowBoardStep := WorkflowBoardStep.WorkflowBoardStep.

#[export] Instance WorkflowBoardStep_eq_dec : EqDecision WorkflowBoardStep.
Proof. solve_decision. Defined.

Module WorkflowBoardView.
Record WorkflowBoardView : Type := mk {
  workflow_id : WorkflowId;
  state : WorkflowState;
  steps : list WorkflowBoardStep;
  artifacts : list Artifact
}.
End WorkflowBoardView.
Abbreviation WorkflowBoardView := WorkflowBoardView.WorkflowBoardView.

#[export] Instance WorkflowBoardView_eq_dec : EqDecision WorkflowBoardView.
Proof. solve_decision. Defined.

Module RuntimeCapabilityView.
Record RuntimeCapabilityView : Type := mk {
  host_id : HostId;
  runtime_id : ProviderRuntimeId;
  negotiated_at_ms : Z;
  entries : list CapabilityEntry
}.
End RuntimeCapabilityView.
Abbreviation RuntimeCapabilityView := RuntimeCapabilityView.RuntimeCapabilityView.

#[export] Instance RuntimeCapabilityView_eq_dec : EqDecision RuntimeCapabilityView.
Proof. solve_decision. Defined.

Module ProjectionPayload.
Inductive ProjectionPayload : Type :=
| ProjectIndex (view : ProjectIndexView)
| SessionIndex (view : SessionIndexView)
| Transcript (view : TranscriptView)
| LiveActivity (view : LiveActivityView)
| InputQueue (view : InputQueueView)
| AttentionInbox (view : AttentionInboxView)
| WorkflowBoard (view : WorkflowBoardView)
| RuntimeCapability (view : RuntimeCapabilityView).
End ProjectionPayload.
Abbreviation ProjectionPayload := ProjectionPayload.ProjectionPayload.

#[export] Instance ProjectionPayload_eq_dec : EqDecision ProjectionPayload.
Proof. solve_decision. Defined.

Module ProjectionEnvelope.
Record ProjectionEnvelope : Type := mk {
  projection_version : Z;
  key : ProjectionKey;
  cursor : Cursor;
  payload : ProjectionPayload
}.
End ProjectionEnvelope.
Abbreviation ProjectionEnvelope := ProjectionEnvelope.ProjectionEnvelope.

#[export] Instance ProjectionEnvelope_eq_dec : EqDecision ProjectionEnvelope.
Proof. solve_decision. Defined.

Module ProjectionSubscribe.
Record ProjectionSubscribe : Type := mk {
  key : ProjectionKey;
  since : option Cursor
}.
End ProjectionSubscribe.
Abbreviation ProjectionSubscribe := ProjectionSubscribe.ProjectionSubscribe.

#[export] Instance ProjectionSubscribe_eq_dec : EqDecision ProjectionSubscribe.
Proof. solve_decision. Defined.

Module ProjectionSubscribeOutcome.
Inductive ProjectionSubscribeOutcome : Type :=
| Resumed (from_cursor : Cursor)
| CurrentFollows (current_cursor : Cursor)
| Rejected (error : CanonicalError).
End ProjectionSubscribeOutcome.
Abbreviation ProjectionSubscribeOutcome := ProjectionSubscribeOutcome.ProjectionSubscribeOutcome.

#[export] Instance ProjectionSubscribeOutcome_eq_dec : EqDecision ProjectionSubscribeOutcome.
Proof. solve_decision. Defined.

Module ProjectionSubscribeAck.
Record ProjectionSubscribeAck : Type := mk {
  key : ProjectionKey;
  outcome : ProjectionSubscribeOutcome
}.
End ProjectionSubscribeAck.
Abbreviation ProjectionSubscribeAck := ProjectionSubscribeAck.ProjectionSubscribeAck.

#[export] Instance ProjectionSubscribeAck_eq_dec : EqDecision ProjectionSubscribeAck.
Proof. solve_decision. Defined.

(** ** Payload validators *)

Definition RuntimeCapabilityView_from_capabilities (host_id : HostId) (c : RuntimeCapabilities)
    : RuntimeCapabilityView :=
  RuntimeCapabilityView.mk host_id c.(RuntimeCapabilities.runtime_id)
    c.(RuntimeCapabilities.negotiated_at_ms) c.(RuntimeCapabilities.entries).

Definition RuntimeCapabilityView_validate (v : RuntimeCapabilityView) : contract_check :=
  reject_empty v.(RuntimeCapabilityView.host_id) "runtime_capability.host_id" ;?
  RuntimeCapabilities_validate
    {| RuntimeCapabilities.runtime_id := v.(RuntimeCapabilityView.runtime_id);
       RuntimeCapabilities.negotiated_at_ms := v.(RuntimeCapabilityView.negotiated_at_ms);
       RuntimeCapabilities.entries := v.(RuntimeCapabilityView.entries) |}.

Definition ProjectBindingSummary_validate (b : ProjectBindingSummary) : contract_check :=
  reject_empty b.(ProjectBindingSummary.binding_id) "project_binding_summary.binding_id" ;?
  reject_empty b.(ProjectBindingSummary.runtime_id) "project_binding_summary.runtime_id".

Definition ProjectSummary_validate (p : ProjectSummary) : contract_check :=
  reject_empty p.(ProjectSummary.project_id) "project_summary.project_id" ;?
  try_for_each ProjectBindingSummary_validate p.(ProjectSummary.bindings).

Definition ProviderGroup_validate (g : ProviderGroup) : contract_check :=
  reject_if (existsb id_is_empty g.(ProviderGroup.runtime_ids))
            (ContractViolation.EmptyIdentifier "provider_group.runtime_ids") ;?
  try_for_each (λ project,
    ProjectSummary_validate project ;?
    try_for_each (λ binding,
      reject_if (negb (contains_b binding.(ProjectBindingSummary.runtime_id) g.(ProviderGroup.runtime_ids)))
                (dangling "provider_group.projects.bindings.runtime_id"))
      project.(ProjectSummary.bindings)) g.(ProviderGroup.projects).

Definition ProjectIndexView_validate (v : ProjectIndexView) : contract_check :=
  reject_empty v.(ProjectIndexView.host_id) "project_index.host_id" ;?
  try_for_each ProviderGroup_validate v.(ProjectIndexView.groups).

Definition SessionSummary_validate (s : SessionSummary) : contract_check :=
  reject_empty s.(SessionSummary.session_id) "session_summary.session_id" ;?
  reject_empty s.(SessionSummary.project_binding_id) "session_summary.project_binding_id" ;?
  LiveBinding_validate_shape s.(SessionSummary.live_binding).

Definition SessionIndexView_validate (v : SessionIndexView) : contract_check :=
  reject_empty v.(SessionIndexView.project_id) "session_index.project_id" ;?
  try_for_each SessionSummary_validate
    (v.(SessionIndexView.active) ++ v.(SessionIndexView.history) ++ v.(SessionIndexView.archived)).

(** One iteration of the loop of [TranscriptView::validate]. *)
Definition transcript_turn_check (session_id : SessionId) (t : TranscriptTurn) : contract_check :=
  let turn := t.(TranscriptTurn.turn) in
  Turn_validate turn ;?
  reject_if (bool_decide (turn.(Turn.session_id) ≠ session_id)) (dangling "transcript.turns.session_id") ;?
  try_for_each (λ item_id,
    reject_if (negb (existsb (λ item, bool_decide (item.(Item.id) = item_id)
                                      && bool_decide (item.(Item.turn_id) = turn.(Turn.id)))
                             t.(TranscriptTurn.items)))
              (dangling "transcript.turns.item_ids")) turn.(Turn.item_ids) ;?
  try_for_each (λ item,
    Item_validate item ;?
    reject_if (bool_decide (item.(Item.session_id) ≠ session_id)
               || bool_decide (item.(Item.turn_id) ≠ turn.(Turn.id))
               || negb (contains_b item.(Item.id) turn.(Turn.item_ids)))
              (dangling "transcript.turns.items")) t.(TranscriptTurn.items).

Definition TranscriptView_validate (v : TranscriptView) : contract_check :=
  reject_empty v.(TranscriptView.session_id) "transcript.session_id" ;?
  try_for_each (transcript_turn_check v.(TranscriptView.session_id)) v.(TranscriptView.turns).

Definition LiveActivityView_validate (v : LiveActivityView) : contract_check :=
  reject_empty v.(LiveActivityView.session_id) "live_activity.session_id" ;?
  reject_if (is_some_and v.(LiveActivityView.active_turn_id) id_is_empty)
            (ContractViolation.EmptyIdentifier "live_activity.active_turn_id") ;?
  reject_if (existsb id_is_empty v.(LiveActivityView.streaming_item_ids))
            (ContractViolation.EmptyIdentifier "live_activity.streaming_item_ids") ;?
  try_for_each (λ entry,
    ContentRef_ensure_sensitive entry.(PlanEntry.title_ref) "live_activity.plan.title_ref")
    v.(LiveActivityView.plan) ;?
  try_for_each (λ task,
    reject_empty task.(AgentTask.id) "live_activity.tasks.id" ;?
    ContentRef_ensure_sensitive task.(AgentTask.title_ref) "live_activity.tasks.title_ref")
    v.(LiveActivityView.tasks).

Definition InputQueueView_validate (v : InputQueueView) : contract_check :=
  reject_empty v.(InputQueueView.session_id) "input_queue.session_id" ;?
  try_for_each (λ entry,
    QueueEntry_validate entry ;?
    reject_if (bool_decide (entry.(QueueEntry.session_id) ≠ v.(InputQueueView.session_id)))
              (dangling "input_queue.entries.session_id")) v.(InputQueueView.entries).

Definition AttentionInboxView_validate (v : AttentionInboxView) : contract_check :=
  try_for_each AttentionItem_validate v.(AttentionInboxView.entries).

Definition step_blocker_check (b : StepBlocker) : contract_check :=
  match b with
  | StepBlocker.DependencyIncomplete step_id =>
      reject_empty step_id "workflow_board_step.blockers.step_id"
  | StepBlocker.HumanGateOpen attention_id =>
      reject_empty attention_id "workflow_board_step.blockers.attention_id"
  | StepBlocker.CapabilityNotSupported _ | StepBlocker.NotSchedulable _ => Ok tt
  end.

Definition WorkflowBoardStep_validate (s : WorkflowBoardStep) : contract_check :=
  reject_empty s.(WorkflowBoardStep.step_id) "workflow_board_step.step_id" ;?
  reject_if (existsb id_is_empty s.(WorkflowBoardStep.depends_on))
            (ContractViolation.EmptyIdentifier "workflow_board_step.depends_on") ;?
  reject_if (is_some_and s.(WorkflowBoardStep.session_id) id_is_empty)
            (ContractViolation.EmptyIdentifier "workflow_board_step.session_id") ;?
  StepAssignment_validate s.(WorkflowBoardStep.assignment) ;?
  try_for_each step_blocker_check s.(WorkflowBoardStep.blockers).

Definition WorkflowBoardView_validate (v : WorkflowBoardView) : contract_check :=
  let known step_id := existsb (λ step, bool_decide (step.(WorkflowBoardStep.step_id) = step_id))
                               v.(WorkflowBoardView.steps) in
  reject_empty v.(WorkflowBoardView.workflow_id) "workflow_board.workflow_id" ;?
  try_for_each (λ step,
    WorkflowBoardStep_validate step ;?
    try_for_each (λ dependency,
      reject_if (negb (known dependency)) (dangling "workflow_board.steps.depends_on"))
      step.(WorkflowBoardStep.depends_on)) v.(WorkflowBoardView.steps) ;?
  try_for_each (λ artifact,
    Artifact_validate artifact ;?
    reject_if (bool_decide (artifact.(Artifact.workflow_id) ≠ v.(WorkflowBoardView.workflow_id)))
              (dangling "workflow_board.artifacts.workflow_id") ;?
    if_some artifact.(Artifact.produced_by) (λ step_id,
      reject_if (negb (known step_id)) (dangling "workflow_board.artifacts.produced_by")))
    v.(WorkflowBoardView.artifacts).

(** ** Keys and envelopes *)

Definition ProjectionKey_validate (key : ProjectionKey) : contract_check :=
  match key with
  | ProjectionKey.ProjectIndex host_id | ProjectionKey.AttentionInbox host_id =>
      reject_empty host_id "projection_key.host_id"
  | ProjectionKey.SessionIndex project_id => reject_empty project_id "projection_key.project_id"
  | ProjectionKey.Transcript session_id | ProjectionKey.LiveActivity session_id
  | ProjectionKey.InputQueue session_id => reject_empty session_id "projection_key.session_id"
  | ProjectionKey.WorkflowBoard workflow_id => reject_empty workflow_id "projection_key.workflow_id"
  | ProjectionKey.RuntimeCapability host_id runtime_id =>
      reject_empty host_id "projection_key.host_id" ;?
      reject_empty runtime_id "projection_key.runtime_id"
  end.

Definition scoped {A} `{EqDecision A} (key_id view_id : A) (check : contract_check) : contract_check :=
  if bool_decide (key_id = view_id) then check else Err ContractViolation.ProjectionKeyPayloadMismatch.

Definition ProjectionPayload_validate_for_key (payload : ProjectionPayload) (key : ProjectionKey)
    : contract_check :=
  ProjectionKey_validate key ;?
  match key, payload with
  | ProjectionKey.ProjectIndex host_id, ProjectionPayload.ProjectIndex view =>
      scoped host_id view.(ProjectIndexView.host_id) (ProjectIndexView_validate view)
  | ProjectionKey.SessionIndex project_id, ProjectionPayload.SessionIndex view =>
      scoped project_id view.(SessionIndexView.project_id) (SessionIndexView_validate view)
  | ProjectionKey.Transcript session_id, ProjectionPayload.Transcript view =>
      scoped session_id view.(TranscriptView.session_id) (TranscriptView_validate view)
  | ProjectionKey.LiveActivity session_id, ProjectionPayload.LiveActivity view =>
      scoped session_id view.(LiveActivityView.session_id) (LiveActivityView_validate view)
  | ProjectionKey.InputQueue session_id, ProjectionPayload.InputQueue view =>
      scoped session_id view.(InputQueueView.session_id) (InputQueueView_validate view)
  | ProjectionKey.AttentionInbox host_id, ProjectionPayload.AttentionInbox view =>
      AttentionInboxView_validate view ;?
      reject_if (existsb (λ entry, bool_decide (entry.(AttentionItem.host_id) ≠ host_id))
                         view.(AttentionInboxView.entries))
                (dangling "attention_inbox.entries.host_id")
  | ProjectionKey.WorkflowBoard workflow_id, ProjectionPayload.WorkflowBoard view =>
      scoped workflow_id view.(WorkflowBoardView.workflow_id) (WorkflowBoardView_validate view)
  | ProjectionKey.RuntimeCapability host_id runtime_id, ProjectionPayload.RuntimeCapability view =>
      scoped host_id view.(RuntimeCapabilityView.host_id)
        (scoped runtime_id view.(RuntimeCapabilityView.runtime_id) (RuntimeCapabilityView_validate view))
  | _, _ => Err ContractViolation.ProjectionKeyPayloadMismatch
  end.

Definition ProjectionEnvelope_requires_full_refresh (e : ProjectionEnvelope) : bool :=
  bool_decide (e.(ProjectionEnvelope.projection_version) ≠ PROJECTION_VERSION).

Definition ProjectionEnvelope_validate_for_transport (e : ProjectionEnvelope) : contract_check :=
  ProjectionKey_validate e.(ProjectionEnvelope.key) ;?
  ProjectionPayload_validate_for_key e.(ProjectionEnvelope.payload) e.(ProjectionEnvelope.key).

(** ** Subscriptions *)

Definition ProjectionSubscribeAck_validate_for (ack : ProjectionSubscribeAck) (request : ProjectionSubscribe)
    : contract_check :=
  ProjectionKey_validate request.(ProjectionSubscribe.key) ;?
  ProjectionKey_validate ack.(ProjectionSubscribeAck.key) ;?
  reject_if (bool_decide (ack.(ProjectionSubscribeAck.key) ≠ request.(ProjectionSubscribe.key)))
            ContractViolation.ProjectionSubscribeKeyMismatch ;?
  match ack.(ProjectionSubscribeAck.outcome) with
  | ProjectionSubscribeOutcome.Resumed from_cursor =>
      let? since := ok_or request.(ProjectionSubscribe.since) ContractViolation.ProjectionResumeWithoutCursor in
      let? expected := Cursor_next since in
      reject_if (bool_decide (from_cursor ≠ expected))
        (ContractViolation.ProjectionResumeCursorMismatch expected.(Cursor.seq) from_cursor.(Cursor.seq))
  | ProjectionSubscribeOutcome.Rejected error => CanonicalError_validate error
  | ProjectionSubscribeOutcome.CurrentFollows current_cursor =>
      if_some request.(ProjectionSubscribe.since) (λ since,
        reject_if (current_cursor.(Cursor.seq) <=? since.(Cursor.seq))
          (ContractViolation.ProjectionCurrentCursorNotAhead since.(Cursor.seq) current_cursor.(Cursor.seq)))
  end.

Definition cursor_gap_error (at_ms : Z) : CanonicalError := CanonicalError.mk ErrorCode.CursorGap true None at_ms.

Definition subscription_outcome (since : option Cursor) (retained_floor current_head : Cursor) (at_ms : Z)
    : result ProjectionSubscribeOutcome ContractViolation :=
  match since with
  | None => Ok (ProjectionSubscribeOutcome.CurrentFollows current_head)
  | Some since =>
      if current_head.(Cursor.seq) <? since.(Cursor.seq)
      then Ok (ProjectionSubscribeOutcome.Rejected (cursor_gap_error at_ms))
      else match Cursor_next since with
           | Err ContractViolation.CursorOverflow =>
               Ok (ProjectionSubscribeOutcome.Rejected (cursor_gap_error at_ms))
           | Err other => Err other
           | Ok next =>
               if next.(Cursor.seq) <? retained_floor.(Cursor.seq)
               then Ok (ProjectionSubscribeOutcome.CurrentFollows current_head)
               else Ok (ProjectionSubscribeOutcome.Resumed next)
           end
  end.

Definition decide_projection_subscription (request : ProjectionSubscribe) (retained_floor current_head : Cursor)
    (at_ms : Z) : result ProjectionSubscribeAck ContractViolation :=
  ProjectionKey_validate request.(ProjectionSubscribe.key) ;?
  reject_if (current_head.(Cursor.seq) <? retained_floor.(Cursor.seq))
    (ContractViolation.InvalidProjectionCursorWindow retained_floor.(Cursor.seq) current_head.(Cursor.seq)) ;?
  let? outcome := subscription_outcome request.(ProjectionSubscribe.since) retained_floor current_head at_ms in
  Ok (ProjectionSubscribeAck.mk request.(ProjectionSubscribe.key) outcome).

(** The loop of [validate_projection_sequence]. *)
Fixpoint projection_sequence_from (key : ProjectionKey) (previous : Cursor) (envelopes : list ProjectionEnvelope)
    : contract_check :=
  match envelopes with
  | [] => Ok tt
  | envelope :: rest =>
      ProjectionEnvelope_validate_for_transport envelope ;?
      reject_if (bool_decide (envelope.(ProjectionEnvelope.key) ≠ key)) ContractViolation.MixedProjectionKeys ;?
      reject_if (bool_decide (envelope.(ProjectionEnvelope.cursor) = previous))
        (ContractViolation.CursorRepeated envelope.(ProjectionEnvelope.cursor).(Cursor.seq)) ;?
      (let? expected := Cursor_next previous in
       reject_if (bool_decide (envelope.(ProjectionEnvelope.cursor) ≠ expected))
         (ContractViolation.CursorGap expected.(Cursor.seq) envelope.(ProjectionEnvelope.cursor).(Cursor.seq))) ;?
      projection_sequence_from key envelope.(ProjectionEnvelope.cursor) rest
  end.

Definition validate_projection_sequence (key : ProjectionKey) (after : Cursor)
    (envelopes : list ProjectionEnvelope) : contract_check :=
  ProjectionKey_validate key ;? projection_sequence_from key after envelopes.

(** ** The subscription protocol *)

(** A run of transportable envelopes of one key whose cursors count up from
    [from]. *)
Definition envelope_run (key : ProjectionKey) (from : Z) (envelopes : list ProjectionEnvelope) : Prop :=
  ∀ i e, envelopes !! i = Some e →
    ProjectionEnvelope_validate_for_transport e = Ok tt ∧ e.(ProjectionEnvelope.key) = key ∧
    e.(ProjectionEnvelope.cursor).(Cursor.seq) = from + Z.of_nat i.

Lemma envelope_run_cons key from e es :
  envelope_run key from (e :: es) ↔
  (ProjectionEnvelope_validate_for_transport e = Ok tt ∧ e.(ProjectionEnvelope.key) = key ∧
   e.(ProjectionEnvelope.cursor).(Cursor.seq) = from) ∧ envelope_run key (from + 1) es.
Proof.
  split.
  - intros H. split; [destruct (H 0%nat e eq_refl) as (? & ? & ?); split_and!; [done..|lia]|].
    intros i x Hx. destruct (H (S i) x Hx) as (? & ? & ?). split_and!; [done..|lia].
  - intros [(? & ? & ?) Hrun] [|i] x Hx; [injection Hx as <-; split_and!; [done..|lia]|].
    destruct (Hrun i x Hx) as (? & ? & ?). split_and!; [done..|lia].
Qed.

Lemma projection_sequence_from_ok key previous es :
  projection_sequence_from key previous es = Ok tt ↔
  envelope_run key (previous.(Cursor.seq) + 1) es ∧
  (es = [] ∨ previous.(Cursor.seq) + Z.of_nat (length es) ≤ u64_max).
Proof.
  revert previous. induction es as [|e es IH]; intros previous; simpl.
  - split; [|done]. split; [by intros i e ?|by left].
  - rewrite !rbind_ok_unit, rbind_ok, !reject_if_ok, bool_decide_neq_false, bool_decide_eq_false, IH, envelope_run_cons.
    setoid_rewrite reject_if_ok. setoid_rewrite bool_decide_neq_false. split.
    + intros (Ht & Hk & _ & (d & [Hd Hmax]%Cursor_next_ok & ->) & Hrun & Hlen). rewrite Hd in *.
      split_and!; try done. right. destruct Hlen as [->|Hlen]; simpl; lia.
    + intros (((Ht & Hk & Hc) & Hrun) & [?|Hlen]); [done|].
      split_and!; try done.
      * intros Heq. rewrite Heq in Hc. lia.
      * exists e.(ProjectionEnvelope.cursor). split; [apply Cursor_next_ok; lia|done].
      * by rewrite Hc.
      * destruct es; [by left|]. right. simpl in *. lia.
Qed.

Lemma subscription_outcome_ok request floor head at_ms :
  floor.(Cursor.seq) ≤ head.(Cursor.seq) →
  ∃ outcome, subscription_outcome request.(ProjectionSubscribe.since) floor head at_ms = Ok outcome ∧
    match outcome with
    | ProjectionSubscribeOutcome.CurrentFollows c => c = head ∧
        ∀ s, request.(ProjectionSubscribe.since) = Some s → s.(Cursor.seq) + 1 < floor.(Cursor.seq)
    | ProjectionSubscribeOutcome.Resumed c => floor.(Cursor.seq) ≤ c.(Cursor.seq) ∧
        ∃ s, request.(ProjectionSubscribe.since) = Some s ∧ Cursor_next s = Ok c ∧
             s.(Cursor.seq) ≤ head.(Cursor.seq)
    | ProjectionSubscribeOutcome.Rejected e => e = cursor_gap_error at_ms
    end.
Proof.
  intros Hwin. unfold subscription_outcome. destruct (request.(ProjectionSubscribe.since)) as [s|]; [|by eexists].
  destruct (Z.ltb_spec head.(Cursor.seq) s.(Cursor.seq)); [by eexists|].
  unfold Cursor_next at 1. destruct (checked_add_u64 s.(Cursor.seq) 1) as [n|] eqn:E; simpl; [|by eexists].
  apply checked_add_u64_some in E as En. destruct En as [-> Hmax].
  destruct (Z.ltb_spec (s.(Cursor.seq) + 1) floor.(Cursor.seq)); (eexists; split; [done|]); simpl.
  - split; [done|]. intros s' [= <-]. lia.
  - split; [lia|]. exists s. split_and!; try done. unfold Cursor_next. by rewrite E.
Qed.

(** For a valid key and a retained window, the decision of the host on a subscription always produces an
    acknowledgement, the client accepts it as an answer to its request, a resume never starts before the
    retained floor nor past the head, and a full view is always the head. *)
Theorem subscription_decision_is_accepted request floor head at_ms
    (Hk : ProjectionKey_validate request.(ProjectionSubscribe.key) = Ok tt)
    (Hwin : floor.(Cursor.seq) ≤ head.(Cursor.seq)) :
  ∃ ack, decide_projection_subscription request floor head at_ms = Ok ack ∧
    ProjectionSubscribeAck_validate_for ack request = Ok tt ∧
    (∀ c, ack.(ProjectionSubscribeAck.outcome) = ProjectionSubscribeOutcome.Resumed c →
       floor.(Cursor.seq) ≤ c.(Cursor.seq) ≤ head.(Cursor.seq) + 1) ∧
    (∀ c, ack.(ProjectionSubscribeAck.outcome) = ProjectionSubscribeOutcome.CurrentFollows c → c = head).
Proof.
  unfold decide_projection_subscription. rewrite Hk. simpl.
  rewrite (proj2 (Z.ltb_ge _ _)) by lia. simpl.
  destruct (subscription_outcome_ok request floor head at_ms Hwin) as (outcome & -> & Ho). simpl.
  eexists. split; [done|]. unfold ProjectionSubscribeAck_validate_for. simpl. rewrite Hk. simpl.
  rewrite bool_decide_false by tauto. simpl.
  destruct outcome as [c|c|e]; simpl.
  - destruct Ho as (Hf & s & Hs & Hn & Hle). rewrite Hs. simpl. rewrite Hn. simpl.
    rewrite bool_decide_false by tauto. apply Cursor_next_ok in Hn as [Hn _].
    split_and!; [done| |done]. intros c' [= <-]. lia.
  - destruct Ho as [-> Ho]. split_and!; [|done|by intros c' [= <-]].
    apply if_some_ok. intros s Hs. specialize (Ho s Hs). apply reject_if_ok, Z.leb_gt. lia.
  - subst e. split_and!; done.
Qed.
