(* ===== verification/CanonState.v ===== *)
(** * Canonical state

    Models [crates/kaleido-state/src/state.rs] (and the error type of
    [src/error.rs]): the in-memory canonical state and [CanonicalState::apply],
    the rules for changing it, with every derived field recomputed. *)
From stdpp Require Import prelude strings gmap.
From Stdlib Require Import ZArith Lia.
From S2P Require Import Prelude ProtoBase ProtoContent ProtoRuntime ProtoTurn ProtoQueue ProtoWorkflow ProtoAttention ProtoCommand ProtoEffect ProtoProjection.

Local Open Scope Z_scope.

(** ** Data *)

(** [StateError]; the operating-system and codec errors two variants wrap carry
    no information here. *)
Module StateError.
Inductive StateError : Type :=
| Contract (violation : ContractViolation)
| Io (path : string)
| Codec
| UnknownSession (session_id : SessionId)
| UnknownRuntime (runtime_id : ProviderRuntimeId)
| RuntimeHostChanged
| UnknownTurn (turn_id : TurnId)
| UnknownHost
| UnknownHostId (host_id : HostId)
| UnknownWorkflow (workflow_id : WorkflowId)
| AmbiguousScope (detail : string)
| UnsupportedEffect (detail : string)
| UnknownAttention (attention_id : AttentionId)
| ContentMissing (content_id : ContentId)
| ContentDigestMismatch (content_id : ContentId)
| ContentUnauthorized (content_id : ContentId)
| ContentExpired (content_id : ContentId)
| ContentMetadataMismatch (content_id : ContentId)
| UnsafeContentId (content_id : ContentId)
| InvalidContentOffset (content_id : ContentId) (offset : Z)
| TimestampOverflow
| InvalidProjectionRetention
| ProjectionJournalDiverged (key : ProjectionKey)
| DispatchNotAvailable (command_id : CommandId)
| DispatchNotAccepted (command_id : CommandId)
| CommandOutboxDiverged
| RecoveryRequired
| DeviceCommandMismatch (detail : string)
| UntrustedLocalAcknowledgement
| UncorrelatedRuntimeAcknowledgement
| RuntimeAcknowledgementWithoutRemoteTurn
| AmbiguousRuntimeAcknowledgement
| RuntimeAcknowledgementRuntimeMismatch
| DuplicateRuntimeAcknowledgement
| LiveControlCapabilityWithoutRuntimeAcceptance
| ControllingBindingWithoutRuntimeAcceptance
| RemoteCommandTurnConflict
| TurnSessionChanged
| TurnOriginChanged
| TurnBindingChanged
| LiveSessionWithoutRuntimeReference
| MalformedRecord (path : string) (line : Z).
End StateError.
Abbreviation StateError := StateError.StateError.

Module CanonicalState.
Record CanonicalState : Type := mk {
  hosts : gmap HostId Host;
  runtimes : gmap ProviderRuntimeId ProviderRuntime;
  projects : gmap ProjectId Project;
  sessions : gmap SessionId Session;
  reported_status : gmap SessionId SessionStatus;
  turns : gmap TurnId Turn;
  turn_order : list TurnId;
  items : gmap ItemId Item;
  queue : gmap QueueEntryId QueueEntry;
  attention : gmap AttentionId AttentionItem;
  attention_order : list AttentionId;
  workflows : gmap WorkflowId Workflow;
  steps : gmap StepId Step;
  artifacts : gmap ArtifactId Artifact;
  diagnostics : gmap string DiagnosticRecord;
  acks : list CommandAck
}.
End CanonicalState.
Abbreviation CanonicalState := CanonicalState.CanonicalState.

Definition CanonicalState_set_hosts (v : gmap HostId Host) (r : CanonicalState) : CanonicalState := {|
  CanonicalState.hosts := v;
  CanonicalState.runtimes := r.(CanonicalState.runtimes);
  CanonicalState.projects := r.(CanonicalState.projects);
  CanonicalState.sessions := r.(CanonicalState.sessions);
  CanonicalState.reported_status := r.(CanonicalState.reported_status);
  CanonicalState.turns := r.(CanonicalState.turns);
  CanonicalState.turn_order := r.(CanonicalState.turn_order);
  CanonicalState.items := r.(CanonicalState.items);
  CanonicalState.queue := r.(CanonicalState.queue);
  CanonicalState.attention := r.(CanonicalState.attention);
  CanonicalState.attention_order := r.(CanonicalState.attention_order);
  CanonicalState.workflows := r.(CanonicalState.workflows);
  CanonicalState.steps := r.(CanonicalState.steps);
  CanonicalState.artifacts := r.(CanonicalState.artifacts);
  CanonicalState.diagnostics := r.(CanonicalState.diagnostics);
  CanonicalState.acks := r.(CanonicalState.acks)
|}.

Definition CanonicalState_set_runtimes (v : gmap ProviderRuntimeId ProviderRuntime) (r : CanonicalState) : CanonicalState := {|
  CanonicalState.hosts := r.(CanonicalState.hosts);
  CanonicalState.runtimes := v;
  CanonicalState.projects := r.(CanonicalState.projects);
  CanonicalState.sessions := r.(CanonicalState.sessions);
  CanonicalState.reported_status := r.(CanonicalState.reported_status);
  CanonicalState.turns := r.(CanonicalState.turns);
  CanonicalState.turn_order := r.(CanonicalState.turn_order);
  CanonicalState.items := r.(CanonicalState.items);
  CanonicalState.queue := r.(CanonicalState.queue);
  CanonicalState.attention := r.(CanonicalState.attention);
  CanonicalState.attention_order := r.(CanonicalState.attention_order);
  CanonicalState.workflows := r.(CanonicalState.workflows);
  CanonicalState.steps := r.(CanonicalState.steps);
  CanonicalState.artifacts := r.(CanonicalState.artifacts);
  CanonicalState.diagnostics := r.(CanonicalState.diagnostics);
  CanonicalState.acks := r.(CanonicalState.acks)
|}.

Definition CanonicalState_set_projects (v : gmap ProjectId Project) (r : CanonicalState) : CanonicalState := {|
  CanonicalState.hosts := r.(CanonicalState.hosts);
  CanonicalState.runtimes := r.(CanonicalState.runtimes);
  CanonicalState.projects := v;
  CanonicalState.sessions := r.(CanonicalState.sessions);
  CanonicalState.reported_status := r.(CanonicalState.reported_status);
  CanonicalState.turns := r.(CanonicalState.turns);
  CanonicalState.turn_order := r.(CanonicalState.turn_order);
  CanonicalState.items := r.(CanonicalState.items);
  CanonicalState.queue := r.(CanonicalState.queue);
  CanonicalState.attention := r.(CanonicalState.attention);
  CanonicalState.attention_order := r.(CanonicalState.attention_order);
  CanonicalState.workflows := r.(CanonicalState.workflows);
  CanonicalState.steps := r.(CanonicalState.steps);
  CanonicalState.artifacts := r.(CanonicalState.artifacts);
  CanonicalState.diagnostics := r.(CanonicalState.diagnostics);
  CanonicalState.acks := r.(CanonicalState.acks)
|}.

Definition CanonicalState_set_sessions (v : gmap SessionId Session) (r : CanonicalState) : CanonicalState := {|
  CanonicalState.hosts := r.(CanonicalState.hosts);
  CanonicalState.runtimes := r.(CanonicalState.runtimes);
  CanonicalState.projects := r.(CanonicalState.projects);
  CanonicalState.sessions := v;
  CanonicalState.reported_status := r.(CanonicalState.reported_status);
  CanonicalState.turns := r.(CanonicalState.turns);
  CanonicalState.turn_order := r.(CanonicalState.turn_order);
  CanonicalState.items := r.(CanonicalState.items);
  CanonicalState.queue := r.(CanonicalState.queue);
  CanonicalState.attention := r.(CanonicalState.attention);
  CanonicalState.attention_order := r.(CanonicalState.attention_order);
  CanonicalState.workflows := r.(CanonicalState.workflows);
  CanonicalState.steps := r.(CanonicalState.steps);
  CanonicalState.artifacts := r.(CanonicalState.artifacts);
  CanonicalState.diagnostics := r.(CanonicalState.diagnostics);
  CanonicalState.acks := r.(CanonicalState.acks)
|}.

Definition CanonicalState_set_reported_status (v : gmap SessionId SessionStatus) (r : CanonicalState) : CanonicalState := {|
  CanonicalState.hosts := r.(CanonicalState.hosts);
  CanonicalState.runtimes := r.(CanonicalState.runtimes);
  CanonicalState.projects := r.(CanonicalState.projects);
  CanonicalState.sessions := r.(CanonicalState.sessions);
  CanonicalState.reported_status := v;
  CanonicalState.turns := r.(CanonicalState.turns);
  CanonicalState.turn_order := r.(CanonicalState.turn_order);
  CanonicalState.items := r.(CanonicalState.items);
  CanonicalState.queue := r.(CanonicalState.queue);
  CanonicalState.attention := r.(CanonicalState.attention);
  CanonicalState.attention_order := r.(CanonicalState.attention_order);
  CanonicalState.workflows := r.(CanonicalState.workflows);
  CanonicalState.steps := r.(CanonicalState.steps);
  CanonicalState.artifacts := r.(CanonicalState.artifacts);
  CanonicalState.diagnostics := r.(CanonicalState.diagnostics);
  CanonicalState.acks := r.(CanonicalState.acks)
|}.

Definition CanonicalState_set_turns (v : gmap TurnId Turn) (r : CanonicalState) : CanonicalState := {|
  CanonicalState.hosts := r.(CanonicalState.hosts);
  CanonicalState.runtimes := r.(CanonicalState.runtimes);
  CanonicalState.projects := r.(CanonicalState.projects);
  CanonicalState.sessions := r.(CanonicalState.sessions);
  CanonicalState.reported_status := r.(CanonicalState.reported_status);
  CanonicalState.turns := v;
  CanonicalState.turn_order := r.(CanonicalState.turn_order);
  CanonicalState.items := r.(CanonicalState.items);
  CanonicalState.queue := r.(CanonicalState.queue);
  CanonicalState.attention := r.(CanonicalState.attention);
  CanonicalState.attention_order := r.(CanonicalState.attention_order);
  CanonicalState.workflows := r.(CanonicalState.workflows);
  CanonicalState.steps := r.(CanonicalState.steps);
  CanonicalState.artifacts := r.(CanonicalState.artifacts);
  CanonicalState.diagnostics := r.(CanonicalState.diagnostics);
  CanonicalState.acks := r.(CanonicalState.acks)
|}.

Definition CanonicalState_set_turn_order (v : list TurnId) (r : CanonicalState) : CanonicalState := {|
  CanonicalState.hosts := r.(CanonicalState.hosts);
  CanonicalState.runtimes := r.(CanonicalState.runtimes);
  CanonicalState.projects := r.(CanonicalState.projects);
  CanonicalState.sessions := r.(CanonicalState.sessions);
  CanonicalState.reported_status := r.(CanonicalState.reported_status);
  CanonicalState.turns := r.(CanonicalState.turns);
  CanonicalState.turn_order := v;
  CanonicalState.items := r.(CanonicalState.items);
  CanonicalState.queue := r.(CanonicalState.queue);
  CanonicalState.attention := r.(CanonicalState.attention);
  CanonicalState.attention_order := r.(CanonicalState.attention_order);
  CanonicalState.workflows := r.(CanonicalState.workflows);
  CanonicalState.steps := r.(CanonicalState.steps);
  CanonicalState.artifacts := r.(CanonicalState.artifacts);
  CanonicalState.diagnostics := r.(CanonicalState.diagnostics);
  CanonicalState.acks := r.(CanonicalState.acks)
|}.

Definition CanonicalState_set_items (v : gmap ItemId Item) (r : CanonicalState) : CanonicalState := {|
  CanonicalState.hosts := r.(CanonicalState.hosts);
  CanonicalState.runtimes := r.(CanonicalState.runtimes);
  CanonicalState.projects := r.(CanonicalState.projects);
  CanonicalState.sessions := r.(CanonicalState.sessions);
  CanonicalState.reported_status := r.(CanonicalState.reported_status);
  CanonicalState.turns := r.(CanonicalState.turns);
  CanonicalState.turn_order := r.(CanonicalState.turn_order);
  CanonicalState.items := v;
  CanonicalState.queue := r.(CanonicalState.queue);
  CanonicalState.attention := r.(CanonicalState.attention);
  CanonicalState.attention_order := r.(CanonicalState.attention_order);
  CanonicalState.workflows := r.(CanonicalState.workflows);
  CanonicalState.steps := r.(CanonicalState.steps);
  CanonicalState.artifacts := r.(CanonicalState.artifacts);
  CanonicalState.diagnostics := r.(CanonicalState.diagnostics);
  CanonicalState.acks := r.(CanonicalState.acks)
|}.

Definition CanonicalState_set_queue (v : gmap QueueEntryId QueueEntry) (r : CanonicalState) : CanonicalState := {|
  CanonicalState.hosts := r.(CanonicalState.hosts);
  CanonicalState.runtimes := r.(CanonicalState.runtimes);
  CanonicalState.projects := r.(CanonicalState.projects);
  CanonicalState.sessions := r.(CanonicalState.sessions);
  CanonicalState.reported_status := r.(CanonicalState.reported_status);
  CanonicalState.turns := r.(CanonicalState.turns);
  CanonicalState.turn_order := r.(CanonicalState.turn_order);
  CanonicalState.items := r.(CanonicalState.items);
  CanonicalState.queue := v;
  CanonicalState.attention := r.(CanonicalState.attention);
  CanonicalState.attention_order := r.(CanonicalState.attention_order);
  CanonicalState.workflows := r.(CanonicalState.workflows);
  CanonicalState.steps := r.(CanonicalState.steps);
  CanonicalState.artifacts := r.(CanonicalState.artifacts);
  CanonicalState.diagnostics := r.(CanonicalState.diagnostics);
  CanonicalState.acks := r.(CanonicalState.acks)
|}.

Definition CanonicalState_set_attention (v : gmap AttentionId AttentionItem) (r : CanonicalState) : CanonicalState := {|
  CanonicalState.hosts := r.(CanonicalState.hosts);
  CanonicalState.runtimes := r.(CanonicalState.runtimes);
  CanonicalState.projects := r.(CanonicalState.projects);
  CanonicalState.sessions := r.(CanonicalState.sessions);
  CanonicalState.reported_status := r.(CanonicalState.reported_status);
  CanonicalState.turns := r.(CanonicalState.turns);
  CanonicalState.turn_order := r.(CanonicalState.turn_order);
  CanonicalState.items := r.(CanonicalState.items);
  CanonicalState.queue := r.(CanonicalState.queue);
  CanonicalState.attention := v;
  CanonicalState.attention_order := r.(CanonicalState.attention_order);
  CanonicalState.workflows := r.(CanonicalState.workflows);
  CanonicalState.steps := r.(CanonicalState.steps);
  CanonicalState.artifacts := r.(CanonicalState.artifacts);
  CanonicalState.diagnostics := r.(CanonicalState.diagnostics);
  CanonicalState.acks := r.(CanonicalState.acks)
|}.

Definition CanonicalState_set_attention_order (v : list AttentionId) (r : CanonicalState) : CanonicalState := {|
  CanonicalState.hosts := r.(CanonicalState.hosts);
  CanonicalState.runtimes := r.(CanonicalState.runtimes);
  CanonicalState.projects := r.(CanonicalState.projects);
  CanonicalState.sessions := r.(CanonicalState.sessions);
  CanonicalState.reported_status := r.(CanonicalState.reported_status);
  CanonicalState.turns := r.(CanonicalState.turns);
  CanonicalState.turn_order := r.(CanonicalState.turn_order);
  CanonicalState.items := r.(CanonicalState.items);
  CanonicalState.queue := r.(CanonicalState.queue);
  CanonicalState.attention := r.(CanonicalState.attention);
  CanonicalState.attention_order := v;
  CanonicalState.workflows := r.(CanonicalState.workflows);
  CanonicalState.steps := r.(CanonicalState.steps);
  CanonicalState.artifacts := r.(CanonicalState.artifacts);
  CanonicalState.diagnostics := r.(CanonicalState.diagnostics);
  CanonicalState.acks := r.(CanonicalState.acks)
|}.

Definition CanonicalState_set_workflows (v : gmap WorkflowId Workflow) (r : CanonicalState) : CanonicalState := {|
  CanonicalState.hosts := r.(CanonicalState.hosts);
  CanonicalState.runtimes := r.(CanonicalState.runtimes);
  CanonicalState.projects := r.(CanonicalState.projects);
  CanonicalState.sessions := r.(CanonicalState.sessions);
  CanonicalState.reported_status := r.(CanonicalState.reported_status);
  CanonicalState.turns := r.(CanonicalState.turns);
  CanonicalState.turn_order := r.(CanonicalState.turn_order);
  CanonicalState.items := r.(CanonicalState.items);
  CanonicalState.queue := r.(CanonicalState.queue);
  CanonicalState.attention := r.(CanonicalState.attention);
  CanonicalState.attention_order := r.(CanonicalState.attention_order);
  CanonicalState.workflows := v;
  CanonicalState.steps := r.(CanonicalState.steps);
  CanonicalState.artifacts := r.(CanonicalState.artifacts);
  CanonicalState.diagnostics := r.(CanonicalState.diagnostics);
  CanonicalState.acks := r.(CanonicalState.acks)
|}.

Definition CanonicalState_set_steps (v : gmap StepId Step) (r : CanonicalState) : CanonicalState := {|
  CanonicalState.hosts := r.(CanonicalState.hosts);
  CanonicalState.runtimes := r.(CanonicalState.runtimes);
  CanonicalState.projects := r.(CanonicalState.projects);
  CanonicalState.sessions := r.(CanonicalState.sessions);
  CanonicalState.reported_status := r.(CanonicalState.reported_status);
  CanonicalState.turns := r.(CanonicalState.turns);
  CanonicalState.turn_order := r.(CanonicalState.turn_order);
  CanonicalState.items := r.(CanonicalState.items);
  CanonicalState.queue := r.(CanonicalState.queue);
  CanonicalState.attention := r.(CanonicalState.attention);
  CanonicalState.attention_order := r.(CanonicalState.attention_order);
  CanonicalState.workflows := r.(CanonicalState.workflows);
  CanonicalState.steps := v;
  CanonicalState.artifacts := r.(CanonicalState.artifacts);
  CanonicalState.diagnostics := r.(CanonicalState.diagnostics);
  CanonicalState.acks := r.(CanonicalState.acks)
|}.

Definition CanonicalState_set_artifacts (v : gmap ArtifactId Artifact) (r : CanonicalState) : CanonicalState := {|
  CanonicalState.hosts := r.(CanonicalState.hosts);
  CanonicalState.runtimes := r.(CanonicalState.runtimes);
  CanonicalState.projects := r.(CanonicalState.projects);
  CanonicalState.sessions := r.(CanonicalState.sessions);
  CanonicalState.reported_status := r.(CanonicalState.reported_status);
  CanonicalState.turns := r.(CanonicalState.turns);
  CanonicalState.turn_order := r.(CanonicalState.turn_order);
  CanonicalState.items := r.(CanonicalState.items);
  CanonicalState.queue := r.(CanonicalState.queue);
  CanonicalState.attention := r.(CanonicalState.attention);
  CanonicalState.attention_order := r.(CanonicalState.attention_order);
  CanonicalState.workflows := r.(CanonicalState.workflows);
  CanonicalState.steps := r.(CanonicalState.steps);
  CanonicalState.artifacts := v;
  CanonicalState.diagnostics := r.(CanonicalState.diagnostics);
  CanonicalState.acks := r.(CanonicalState.acks)
|}.

Definition CanonicalState_set_diagnostics (v : gmap string DiagnosticRecord) (r : CanonicalState) : CanonicalState := {|
  CanonicalState.hosts := r.(CanonicalState.hosts);
  CanonicalState.runtimes := r.(CanonicalState.runtimes);
  CanonicalState.projects := r.(CanonicalState.projects);
  CanonicalState.sessions := r.(CanonicalState.sessions);
  CanonicalState.reported_status := r.(CanonicalState.reported_status);
  CanonicalState.turns := r.(CanonicalState.turns);
  CanonicalState.turn_order := r.(CanonicalState.turn_order);
  CanonicalState.items := r.(CanonicalState.items);
  CanonicalState.queue := r.(CanonicalState.queue);
  CanonicalState.attention := r.(CanonicalState.attention);
  CanonicalState.attention_order := r.(CanonicalState.attention_order);
  CanonicalState.workflows := r.(CanonicalState.workflows);
  CanonicalState.steps := r.(CanonicalState.steps);
  CanonicalState.artifacts := r.(CanonicalState.artifacts);
  CanonicalState.diagnostics := v;
  CanonicalState.acks := r.(CanonicalState.acks)
|}.

Definition CanonicalState_set_acks (v : list CommandAck) (r : CanonicalState) : CanonicalState := {|
  CanonicalState.hosts := r.(CanonicalState.hosts);
  CanonicalState.runtimes := r.(CanonicalState.runtimes);
  CanonicalState.projects := r.(CanonicalState.projects);
  CanonicalState.sessions := r.(CanonicalState.sessions);
  CanonicalState.reported_status := r.(CanonicalState.reported_status);
  CanonicalState.turns := r.(CanonicalState.turns);
  CanonicalState.turn_order := r.(CanonicalState.turn_order);
  CanonicalState.items := r.(CanonicalState.items);
  CanonicalState.queue := r.(CanonicalState.queue);
  CanonicalState.attention := r.(CanonicalState.attention);
  CanonicalState.attention_order := r.(CanonicalState.attention_order);
  CanonicalState.workflows := r.(CanonicalState.workflows);
  CanonicalState.steps := r.(CanonicalState.steps);
  CanonicalState.artifacts := r.(CanonicalState.artifacts);
  CanonicalState.diagnostics := r.(CanonicalState.diagnostics);
  CanonicalState.acks := v
|}.

(** [CanonicalState::default()] *)
Definition CanonicalState_default : CanonicalState :=
  CanonicalState.mk ∅ ∅ ∅ ∅ ∅ ∅ [] ∅ ∅ ∅ [] ∅ ∅ ∅ ∅ [].

(** A check of the contract inside a fallible operation on the state. *)
Abbreviation contract := (map_err StateError.Contract).

(** ** Queries *)

Definition attention_entries (s : CanonicalState) : list AttentionItem :=
  filter_map (λ id, s.(CanonicalState.attention) !! id) s.(CanonicalState.attention_order).

Definition steps_of (s : CanonicalState) (workflow_id : WorkflowId) : list Step :=
  filter_b (λ step, bool_decide (step.(Step.workflow_id) = workflow_id))
           (btree_values s.(CanonicalState.steps)).

Definition artifacts_of (s : CanonicalState) (workflow_id : WorkflowId) : list Artifact :=
  filter_b (λ artifact, bool_decide (artifact.(Artifact.workflow_id) = workflow_id))
           (btree_values s.(CanonicalState.artifacts)).

Definition queue_command_id (s : CanonicalState) (entry_id : QueueEntryId) : option CommandId :=
  CommandAck.command_id <$> find_first (λ ack,
    match ack.(CommandAck.outcome) with
    | CommandOutcome.Enqueued acknowledged => bool_decide (acknowledged = entry_id)
    | _ => false
    end) s.(CanonicalState.acks).

Definition turns_of (s : CanonicalState) (session_id : SessionId) : list Turn :=
  filter_b (λ turn, bool_decide (turn.(Turn.session_id) = session_id))
    (filter_map (λ id, s.(CanonicalState.turns) !! id) s.(CanonicalState.turn_order)).

Definition items_of (s : CanonicalState) (session_id : SessionId) : list Item :=
  sort_by_key Item.sequence
    (filter_b (λ item, bool_decide (item.(Item.session_id) = session_id))
       (btree_values s.(CanonicalState.items))).

Definition queue_of (s : CanonicalState) (session_id : SessionId) : list QueueEntry :=
  sort_by_key QueueEntry.position
    (filter_b (λ entry, bool_decide (entry.(QueueEntry.session_id) = session_id))
       (btree_values s.(CanonicalState.queue))).

Definition attention_of (s : CanonicalState) (session_id : SessionId) : list AttentionItem :=
  filter_b (λ entry, bool_decide (entry.(AttentionItem.session_id) = Some session_id))
    (attention_entries s).

(** The runtime a session names directly, by its binding or its history. *)
Definition direct_runtime_id (session : Session) : option ProviderRuntimeId :=
  option_or (ProviderBindingHandle.runtime_id <$> session.(Session.binding_handle))
            session.(Session.history_source).(HistorySource.runtime_id).

Definition runtime_of (s : CanonicalState) (session : Session) : option ProviderRuntime :=
  runtime_id ← option_or (direct_runtime_id session)
    (project ← s.(CanonicalState.projects) !! session.(Session.project_id);
     ProjectBinding.runtime_id <$>
       find_first (λ binding, bool_decide (binding.(ProjectBinding.id) = session.(Session.project_binding_id)))
                  project.(Project.bindings));
  s.(CanonicalState.runtimes) !! runtime_id.

Definition capabilities_of (s : CanonicalState) (session : Session) : option RuntimeCapabilities :=
  ProviderRuntime.capabilities <$> runtime_of s session.

Definition session_snapshot (s : CanonicalState) (session_id : SessionId)
    : result SessionSnapshot StateError :=
  let? session := ok_or (s.(CanonicalState.sessions) !! session_id) (StateError.UnknownSession session_id) in
  let? capabilities := ok_or (capabilities_of s session)
    (StateError.UnknownRuntime
       match session.(Session.binding_handle) with
       | Some handle => handle.(ProviderBindingHandle.runtime_id)
       | None => mkId "unbound"
       end) in
  let snapshot := SessionSnapshot.mk session (turns_of s session_id) (items_of s session_id)
                    (queue_of s session_id) (attention_of s session_id) capabilities in
  contract (SessionSnapshot_validate snapshot) ;?
  Ok snapshot.

(** Every content reference reachable from the state. *)
Definition content_refs (s : CanonicalState) : list ContentRef :=
  (runtime ← btree_values s.(CanonicalState.runtimes);
   filter_map (λ entry, entry.(CapabilityEntry.evidence).(CapabilityEvidence.note_ref))
              runtime.(ProviderRuntime.capabilities).(RuntimeCapabilities.entries)) ++
  (project ← btree_values s.(CanonicalState.projects);
   ProjectBinding.root_ref <$> project.(Project.bindings)) ++
  (session ← btree_values s.(CanonicalState.sessions);
   option_list session.(Session.history_source).(HistorySource.evidence).(CapabilityEvidence.note_ref) ++
   option_list match session.(Session.live_binding) with
               | LiveBinding.Observing _ _ evidence | LiveBinding.Controlling _ _ evidence =>
                   evidence.(CapabilityEvidence.note_ref)
               | LiveBinding.NotBound _ | LiveBinding.Blocked _ => None
               end) ++
  (turn ← btree_values s.(CanonicalState.turns);
   filter_map CanonicalError.detail_ref (option_list turn.(Turn.error))) ++
  (item ← btree_values s.(CanonicalState.items); item_content_refs item) ++
  (QueueEntry.body <$> btree_values s.(CanonicalState.queue)) ++
  (item ← btree_values s.(CanonicalState.attention); attention_content_refs item) ++
  (step ← btree_values s.(CanonicalState.steps);
   step.(Step.assignment).(StepAssignment.worktree_ref) ::
   filter_map StepTransition.reason_ref step.(Step.audit)) ++
  (Artifact.content <$> btree_values s.(CanonicalState.artifacts)) ++
  filter_map DiagnosticRecord.detail_ref (btree_values s.(CanonicalState.diagnostics)) ++
  filter_map ack_content_ref s.(CanonicalState.acks).

Definition content_ref (s : CanonicalState) (content_id : ContentId) : option ContentRef :=
  find_first (λ reference, bool_decide (reference.(ContentRef.content_id) = content_id)) (content_refs s).

Definition attention_is_answered (s : CanonicalState) (attention_id : AttentionId) : bool :=
  is_some_and (s.(CanonicalState.attention) !! attention_id) (λ entry,
    match entry.(AttentionItem.state) with
    | AttentionState.Answered _ _ _ _ _ => true
    | _ => false
    end).

(** ** Acceptance by a runtime *)

Definition accepted_runtime_session (s : CanonicalState) (ack : CommandAck) (runtime_id : ProviderRuntimeId)
    : option Session :=
  match ack.(CommandAck.outcome) with
  | CommandOutcome.AcceptedByRuntime session_id _ binding_handle =>
      if bool_decide (binding_handle.(ProviderBindingHandle.runtime_id) ≠ runtime_id) then None
      else session ← s.(CanonicalState.sessions) !! session_id;
           if is_some_and (runtime_of s session)
                (λ runtime, bool_decide (runtime.(ProviderRuntime.id) = runtime_id))
           then Some session else None
  | _ => None
  end.

Definition has_runtime_acceptance_for (s : CanonicalState) (runtime_id : ProviderRuntimeId) : bool :=
  existsb (λ ack, is_some (accepted_runtime_session s ack runtime_id)) s.(CanonicalState.acks).

Definition live_runtime_of (s : CanonicalState) (session : Session) : result ProviderRuntime StateError :=
  let? runtime_id := ok_or (direct_runtime_id session) StateError.LiveSessionWithoutRuntimeReference in
  ok_or (s.(CanonicalState.runtimes) !! runtime_id) (StateError.UnknownRuntime runtime_id).

(** Whether a turn was started by the remote command [command_id]. *)
Definition is_remote_turn (command_id : CommandId) (turn : Turn) : bool :=
  match turn.(Turn.origin) with
  | TurnOrigin.RemoteCommand turn_command_id => bool_decide (turn_command_id = command_id)
  | _ => false
  end.

Definition remote_command_turn (s : CanonicalState) (command_id : CommandId) : result Turn StateError :=
  match filter_b (is_remote_turn command_id) (btree_values s.(CanonicalState.turns)) with
  | [] => Err StateError.RuntimeAcknowledgementWithoutRemoteTurn
  | [turn] => Ok turn
  | _ :: _ :: _ => Err StateError.AmbiguousRuntimeAcknowledgement
  end.

(** ** Derived fields *)

Definition last_activity_of (s : CanonicalState) (session_id : SessionId) : Z :=
  let latest := i64_min in
  let latest := foldl (λ latest item,
    if bool_decide (item.(Item.session_id) = session_id)
    then Z.max latest item.(Item.updated_at_ms) else latest) latest (btree_values s.(CanonicalState.items)) in
  let latest := foldl (λ latest turn,
    if bool_decide (turn.(Turn.session_id) = session_id)
    then Z.max (Z.max latest (default i64_min turn.(Turn.completed_at_ms)))
               (default i64_min turn.(Turn.started_at_ms))
    else latest) latest (btree_values s.(CanonicalState.turns)) in
  let latest := foldl (λ latest entry,
    if bool_decide (entry.(QueueEntry.session_id) = session_id)
    then Z.max latest entry.(QueueEntry.updated_at_ms) else latest) latest (btree_values s.(CanonicalState.queue)) in
  foldl (λ latest entry,
    if bool_decide (entry.(AttentionItem.session_id) = Some session_id)
    then Z.max latest entry.(AttentionItem.created_at_ms) else latest)
    latest (btree_values s.(CanonicalState.attention)).

(** Open attention of a session that satisfies a test on its subject. *)
Definition open_attention (s : CanonicalState) (session_id : SessionId) (p : AttentionSubject → bool)
    : list AttentionItem :=
  filter_b (λ entry, bool_decide (entry.(AttentionItem.session_id) = Some session_id)
                     && AttentionState_is_open entry.(AttentionItem.state)
                     && p entry.(AttentionItem.subject)) (btree_values s.(CanonicalState.attention)).

Definition is_approval (subject : AttentionSubject) : bool :=
  match subject with
  | AttentionSubject.Approval _ => true
  | _ => false
  end.

Definition is_question (subject : AttentionSubject) : bool :=
  match subject with
  | AttentionSubject.Question _ => true
  | _ => false
  end.

Definition active_turn_of (s : CanonicalState) (session_id : SessionId) : option TurnId :=
  Turn.id <$> last (filter_b (λ turn, negb (TurnStatus_is_terminal turn.(Turn.status))) (turns_of s session_id)).

Definition pending_queue_entries_of (s : CanonicalState) (session_id : SessionId) : Z :=
  u32_of_count (length (filter_b (λ entry,
    bool_decide (entry.(QueueEntry.session_id) = session_id) && entry_pending entry)
    (btree_values s.(CanonicalState.queue)))).

Definition terminal_status (status : SessionStatus) : bool :=
  match status with
  | SessionStatus.Failed | SessionStatus.Completed | SessionStatus.Cancelled => true
  | _ => false
  end.

(** [Option::filter] *)
Definition option_filter {A} (p : A → bool) (o : option A) : option A :=
  match o with
  | Some a => if p a then Some a else None
  | None => None
  end.

Definition status_inputs (s : CanonicalState) (session_id : SessionId) : StatusInputs :=
  let reported := s.(CanonicalState.reported_status) !! session_id in
  StatusInputs.mk
    (is_some_and (session ← s.(CanonicalState.sessions) !! session_id; runtime_of s session)
       (λ runtime, ConnectionState_is_usable runtime.(ProviderRuntime.connection)))
    (is_some (active_turn_of s session_id) || bool_decide (reported = Some SessionStatus.Running))
    (negb (bool_decide (open_attention s session_id is_approval = [])))
    (negb (bool_decide (open_attention s session_id is_question = [])))
    (pending_queue_entries_of s session_id)
    (option_filter terminal_status reported).

(** The body of the session loop of [recompute_derived]. *)
Definition derived_session (s : CanonicalState) (session_id : SessionId) (session : Session) : Session :=
  let latest := last_activity_of s session_id in
  let newer := session.(Session.last_activity_at_ms) <? latest in
  {| Session.id := session.(Session.id);
     Session.project_id := session.(Session.project_id);
     Session.project_binding_id := session.(Session.project_binding_id);
     Session.ownership := session.(Session.ownership);
     Session.history_source := session.(Session.history_source);
     Session.live_binding := session.(Session.live_binding);
     Session.status := derive_session_status (status_inputs s session_id);
     Session.title := session.(Session.title);
     Session.created_at_ms := session.(Session.created_at_ms);
     Session.updated_at_ms := if newer then latest else session.(Session.updated_at_ms);
     Session.last_activity_at_ms := if newer then latest else session.(Session.last_activity_at_ms);
     Session.active_turn_id := active_turn_of s session_id;
     Session.queue_depth := pending_queue_entries_of s session_id;
     Session.open_attention_count := u32_of_count (length (open_attention s session_id (λ _, true)));
     Session.archived := session.(Session.archived);
     Session.binding_handle := session.(Session.binding_handle) |}.

Definition recompute_session (s : CanonicalState) (session_id : SessionId) : CanonicalState :=
  match s.(CanonicalState.sessions) !! session_id with
  | Some session =>
      CanonicalState_set_sessions
        (<[session_id := derived_session s session_id session]> s.(CanonicalState.sessions)) s
  | None => s
  end.

(** One session's contribution to the counts of its project. *)
Definition count_session (counts : SessionCounts) (session : Session) : SessionCounts :=
  SessionCounts.mk
    (saturating_add_u32 counts.(SessionCounts.total) 1)
    (match session.(Session.status) with
     | SessionStatus.Running => saturating_add_u32 counts.(SessionCounts.running) 1
     | _ => counts.(SessionCounts.running)
     end)
    (if SessionStatus_waits_for_human session.(Session.status)
     then saturating_add_u32 counts.(SessionCounts.waiting_human) 1
     else counts.(SessionCounts.waiting_human))
    (match session.(Session.status) with
     | SessionStatus.Failed => saturating_add_u32 counts.(SessionCounts.failed) 1
     | _ => counts.(SessionCounts.failed)
     end)
    (if session.(Session.archived) then saturating_add_u32 counts.(SessionCounts.archived) 1
     else counts.(SessionCounts.archived)).

Definition sessions_of_project (s : CanonicalState) (project_id : ProjectId) : list Session :=
  filter_b (λ session, bool_decide (session.(Session.project_id) = project_id))
           (btree_values s.(CanonicalState.sessions)).

(** The body of the project loop of [recompute_project_counts]. *)
Definition derived_project (s : CanonicalState) (project_id : ProjectId) (project : Project) : Project :=
  let sessions := sessions_of_project s project_id in
  let latest := foldl (λ latest session, Z.max latest session.(Session.last_activity_at_ms)) i64_min sessions in
  {| Project.id := project.(Project.id);
     Project.display_name := project.(Project.display_name);
     Project.bindings := project.(Project.bindings);
     Project.session_counts := foldl count_session (SessionCounts.mk 0 0 0 0 0) sessions;
     Project.workflow_count := u32_of_count (length (filter_b
       (λ workflow, bool_decide (workflow.(Workflow.project_id) = project_id))
       (btree_values s.(CanonicalState.workflows))));
     Project.attention_count := u32_of_count (length (filter_b
       (λ entry, bool_decide (entry.(AttentionItem.project_id) = project_id)
                 && AttentionState_is_open entry.(AttentionItem.state))
       (btree_values s.(CanonicalState.attention))));
     Project.last_activity_at_ms := if project.(Project.last_activity_at_ms) <? latest then latest
                                    else project.(Project.last_activity_at_ms) |}.

Definition recompute_project (s : CanonicalState) (project_id : ProjectId) : CanonicalState :=
  match s.(CanonicalState.projects) !! project_id with
  | Some project =>
      CanonicalState_set_projects
        (<[project_id := derived_project s project_id project]> s.(CanonicalState.projects)) s
  | None => s
  end.

Definition recompute_project_counts (s : CanonicalState) : CanonicalState :=
  foldl recompute_project s (btree_keys s.(CanonicalState.projects)).

Definition recompute_derived (s : CanonicalState) : CanonicalState :=
  recompute_project_counts (foldl recompute_session s (btree_keys s.(CanonicalState.sessions))).

(** ** Applying one effect

    [apply] takes [&mut self]: an error leaves whatever was mutated before it.
    The change of each effect is therefore a pair of the state reached and the
    result.  Every branch but [ItemUpserted] checks first and mutates last. *)
Abbreviation outcome := (CanonicalState * result unit StateError)%type.

(** A branch whose checks all precede its mutations. *)
Definition checked (s : CanonicalState) (m : result CanonicalState StateError) : outcome :=
  match m with
  | Ok s' => (s', Ok tt)
  | Err e => (s, Err e)
  end.

Definition apply_runtime (s : CanonicalState) (runtime : ProviderRuntime) : result CanonicalState StateError :=
  reject_if (is_some_and (s.(CanonicalState.runtimes) !! runtime.(ProviderRuntime.id))
               (λ existing, bool_decide (existing.(ProviderRuntime.host_id) ≠ runtime.(ProviderRuntime.host_id))))
            StateError.RuntimeHostChanged ;?
  reject_if (RuntimeCapabilities_permits runtime.(ProviderRuntime.capabilities) Capability.LiveControl
             && negb (has_runtime_acceptance_for s runtime.(ProviderRuntime.id)))
            StateError.LiveControlCapabilityWithoutRuntimeAcceptance ;?
  Ok (CanonicalState_set_runtimes
        (<[runtime.(ProviderRuntime.id) := runtime]> s.(CanonicalState.runtimes)) s).

Definition apply_capabilities (s : CanonicalState) (capabilities : RuntimeCapabilities)
    : result CanonicalState StateError :=
  let rid := capabilities.(RuntimeCapabilities.runtime_id) in
  reject_if (RuntimeCapabilities_permits capabilities Capability.LiveControl
             && negb (has_runtime_acceptance_for s rid))
            StateError.LiveControlCapabilityWithoutRuntimeAcceptance ;?
  let? runtime := ok_or (s.(CanonicalState.runtimes) !! rid) (StateError.UnknownRuntime rid) in
  Ok (CanonicalState_set_runtimes
        (<[rid := ProviderRuntime_set_capabilities capabilities runtime]> s.(CanonicalState.runtimes)) s).

(** Replace the binding with the incoming identifier, or append it. *)
Fixpoint upsert_binding (bindings : list ProjectBinding) (incoming : ProjectBinding) : list ProjectBinding :=
  match bindings with
  | [] => [incoming]
  | binding :: rest =>
      if bool_decide (binding.(ProjectBinding.id) = incoming.(ProjectBinding.id))
      then incoming :: rest else binding :: upsert_binding rest incoming
  end.

Definition merge_project (existing : option Project) (project : Project) : Project :=
  match existing with
  | Some existing =>
      {| Project.id := project.(Project.id);
         Project.display_name := project.(Project.display_name);
         Project.bindings := foldl upsert_binding existing.(Project.bindings) project.(Project.bindings);
         Project.session_counts := project.(Project.session_counts);
         Project.workflow_count := project.(Project.workflow_count);
         Project.attention_count := project.(Project.attention_count);
         Project.last_activity_at_ms :=
           Z.max project.(Project.last_activity_at_ms) existing.(Project.last_activity_at_ms) |}
  | None => project
  end.

Definition apply_project (s : CanonicalState) (project : Project) : CanonicalState :=
  let merged := merge_project (s.(CanonicalState.projects) !! project.(Project.id)) project in
  CanonicalState_set_projects (<[merged.(Project.id) := merged]> s.(CanonicalState.projects)) s.

Definition merge_session (existing : option Session) (session : Session) : Session :=
  match existing with
  | Some existing =>
      {| Session.id := session.(Session.id);
         Session.project_id := session.(Session.project_id);
         Session.project_binding_id := session.(Session.project_binding_id);
         Session.ownership := session.(Session.ownership);
         Session.history_source := session.(Session.history_source);
         Session.live_binding := session.(Session.live_binding);
         Session.status := session.(Session.status);
         Session.title := session.(Session.title);
         Session.created_at_ms := existing.(Session.created_at_ms);
         Session.updated_at_ms := session.(Session.updated_at_ms);
         Session.last_activity_at_ms := session.(Session.last_activity_at_ms);
         Session.active_turn_id := session.(Session.active_turn_id);
         Session.queue_depth := session.(Session.queue_depth);
         Session.open_attention_count := session.(Session.open_attention_count);
         Session.archived := session.(Session.archived);
         Session.binding_handle := session.(Session.binding_handle) |}
  | None => session
  end.

Definition apply_session (s : CanonicalState) (session : Session) : result CanonicalState StateError :=
  (if LiveBinding_is_live session.(Session.live_binding) then
     let? candidate_runtime := live_runtime_of s session in
     contract (LiveBinding_validate_against session.(Session.live_binding)
                 candidate_runtime.(ProviderRuntime.capabilities))
   else Ok tt) ;?
  (if LiveBinding_accepts_control session.(Session.live_binding) then
     let? candidate_runtime := live_runtime_of s session in
     reject_if (negb (existsb (λ ack,
         is_some_and (accepted_runtime_session s ack candidate_runtime.(ProviderRuntime.id))
           (λ accepted, bool_decide (accepted.(Session.id) = session.(Session.id))))
         s.(CanonicalState.acks)))
       StateError.ControllingBindingWithoutRuntimeAcceptance
   else Ok tt) ;?
  let merged := merge_session (s.(CanonicalState.sessions) !! session.(Session.id)) session in
  Ok (CanonicalState_set_sessions (<[merged.(Session.id) := merged]> s.(CanonicalState.sessions)) s).

Definition apply_status (s : CanonicalState) (session_id : SessionId) (status : SessionStatus)
    : result CanonicalState StateError :=
  reject_if (is_none (s.(CanonicalState.sessions) !! session_id)) (StateError.UnknownSession session_id) ;?
  Ok (CanonicalState_set_reported_status (<[session_id := status]> s.(CanonicalState.reported_status)) s).

(** [if !list.contains(x) { list.push(x) }] *)
Definition push_new {A} `{EqDecision A} (l : list A) (x : A) : list A :=
  if contains_b x l then l else l ++ [x].

(** The merged turn: section 4.4, the accumulated item list may only grow. *)
Definition merge_turn (existing : option Turn) (turn : Turn) : result Turn StateError :=
  match existing with
  | Some existing =>
      reject_if (bool_decide (existing.(Turn.session_id) ≠ turn.(Turn.session_id)))
                StateError.TurnSessionChanged ;?
      reject_if (bool_decide (existing.(Turn.origin) ≠ turn.(Turn.origin))) StateError.TurnOriginChanged ;?
      reject_if (is_some existing.(Turn.binding_handle) && is_some turn.(Turn.binding_handle)
                 && bool_decide (existing.(Turn.binding_handle) ≠ turn.(Turn.binding_handle)))
                StateError.TurnBindingChanged ;?
      Ok {| Turn.id := turn.(Turn.id);
            Turn.session_id := turn.(Turn.session_id);
            Turn.status := turn.(Turn.status);
            Turn.origin := turn.(Turn.origin);
            Turn.started_at_ms := option_or turn.(Turn.started_at_ms) existing.(Turn.started_at_ms);
            Turn.completed_at_ms := turn.(Turn.completed_at_ms);
            Turn.item_ids := foldl push_new existing.(Turn.item_ids) turn.(Turn.item_ids);
            Turn.error := turn.(Turn.error);
            Turn.binding_handle := option_or turn.(Turn.binding_handle) existing.(Turn.binding_handle) |}
  | None => Ok turn
  end.

Definition apply_turn (s : CanonicalState) (turn : Turn) : result CanonicalState StateError :=
  match turn.(Turn.origin) with
  | TurnOrigin.RemoteCommand command_id =>
      reject_if (existsb (λ existing, bool_decide (existing.(Turn.id) ≠ turn.(Turn.id))
                                      && is_remote_turn command_id existing)
                         (btree_values s.(CanonicalState.turns)))
                StateError.RemoteCommandTurnConflict
  | _ => Ok tt
  end ;?
  let? merged := merge_turn (s.(CanonicalState.turns) !! turn.(Turn.id)) turn in
  contract (Turn_validate merged) ;?
  Ok (CanonicalState_set_turns (<[merged.(Turn.id) := merged]> s.(CanonicalState.turns))
        (CanonicalState_set_turn_order (push_new s.(CanonicalState.turn_order) merged.(Turn.id)) s)).

(** The item is pushed onto its turn before the turn is validated. *)
Definition apply_item (s : CanonicalState) (item : Item) : outcome :=
  match s.(CanonicalState.turns) !! item.(Item.turn_id) with
  | None => (s, Err (StateError.UnknownTurn item.(Item.turn_id)))
  | Some turn =>
      let turn' := Turn_set_item_ids (push_new turn.(Turn.item_ids) item.(Item.id)) turn in
      let s' := CanonicalState_set_turns (<[item.(Item.turn_id) := turn']> s.(CanonicalState.turns)) s in
      match contract (Turn_validate turn') with
      | Ok _ => (CanonicalState_set_items (<[item.(Item.id) := item]> s.(CanonicalState.items)) s', Ok tt)
      | Err e => (s', Err e)
      end
  end.

(** [for (position, entry_id) in (0_u32..).zip(order)] *)
Fixpoint reorder_queue (session_id : SessionId) (position : Z) (order : list QueueEntryId)
    (queue : gmap QueueEntryId QueueEntry) : gmap QueueEntryId QueueEntry :=
  match order with
  | [] => queue
  | entry_id :: rest =>
      reorder_queue session_id (position + 1) rest
        match queue !! entry_id with
        | Some entry =>
            if bool_decide (entry.(QueueEntry.session_id) = session_id)
            then <[entry_id := QueueEntry_set_position position entry]> queue else queue
        | None => queue
        end
  end.

Definition apply_attention (s : CanonicalState) (item : AttentionItem) : CanonicalState :=
  CanonicalState_set_attention (<[item.(AttentionItem.id) := item]> s.(CanonicalState.attention))
    (CanonicalState_set_attention_order
       (push_new s.(CanonicalState.attention_order) item.(AttentionItem.id)) s).

Definition is_accepted_locally (o : CommandOutcome) : bool :=
  match o with
  | CommandOutcome.AcceptedLocally _ => true
  | _ => false
  end.

(** Whether an earlier acknowledgement of the command has such an outcome. *)
Definition has_ack (s : CanonicalState) (command_id : CommandId) (p : CommandOutcome → bool) : bool :=
  existsb (λ existing, bool_decide (existing.(CommandAck.command_id) = command_id)
                       && p existing.(CommandAck.outcome)) s.(CanonicalState.acks).

Definition apply_ack (s : CanonicalState) (ack : CommandAck) : result CanonicalState StateError :=
  match ack.(CommandAck.outcome) with
  | CommandOutcome.AcceptedByRuntime session_id acceptance_kind binding_handle =>
      reject_if (negb (has_ack s ack.(CommandAck.command_id) is_accepted_locally))
                StateError.UncorrelatedRuntimeAcknowledgement ;?
      reject_if (has_ack s ack.(CommandAck.command_id) CommandOutcome_reached_runtime)
                StateError.DuplicateRuntimeAcknowledgement ;?
      let? session := ok_or (s.(CanonicalState.sessions) !! session_id) (StateError.UnknownSession session_id) in
      reject_if (negb (is_some_and (runtime_of s session) (λ runtime,
                   bool_decide (runtime.(ProviderRuntime.id) = binding_handle.(ProviderBindingHandle.runtime_id)))))
                StateError.RuntimeAcknowledgementRuntimeMismatch ;?
      (if bool_decide (acceptance_kind = RuntimeAcceptanceKind.PromptTurn) then
         let? turn := remote_command_turn s ack.(CommandAck.command_id) in
         reject_if (bool_decide (turn.(Turn.session_id) ≠ session_id))
                   StateError.RuntimeAcknowledgementRuntimeMismatch
       else Ok tt)
  | _ => Ok tt
  end ;?
  Ok (CanonicalState_set_acks (s.(CanonicalState.acks) ++ [ack]) s).

(** The [Debug] rendering of a diagnostic code. *)
Definition DiagnosticCode_debug (code : DiagnosticCode) : string :=
  match code with
  | DiagnosticCode.UnknownUpstreamMessage => "UnknownUpstreamMessage"
  | DiagnosticCode.UnknownUpstreamLabel => "UnknownUpstreamLabel"
  | DiagnosticCode.PointerResolutionFailed => "PointerResolutionFailed"
  | DiagnosticCode.JoinDeferred => "JoinDeferred"
  | DiagnosticCode.JoinFailed => "JoinFailed"
  | DiagnosticCode.BackpressureCoalesced => "BackpressureCoalesced"
  | DiagnosticCode.MalformedProviderMessage => "MalformedProviderMessage"
  end.

Definition diagnostic_key (d : DiagnosticRecord) : string :=
  DiagnosticCode_debug d.(DiagnosticRecord.code) +:+ "|" +:+
  match d.(DiagnosticRecord.runtime_id) with Some r => id_value r | None => "-" end +:+ "|" +:+
  match d.(DiagnosticRecord.session_id) with Some i => id_value i | None => "-" end.

Definition apply_change (s : CanonicalState) (effect : StateEffect) : outcome :=
  match effect with
  | StateEffect.HostUpserted host =>
      (CanonicalState_set_hosts (<[host.(Host.id) := host]> s.(CanonicalState.hosts)) s, Ok tt)
  | StateEffect.RuntimeUpserted runtime => checked s (apply_runtime s runtime)
  | StateEffect.CapabilitiesUpdated capabilities => checked s (apply_capabilities s capabilities)
  | StateEffect.ProjectUpserted project => (apply_project s project, Ok tt)
  | StateEffect.SessionUpserted session => checked s (apply_session s session)
  | StateEffect.SessionStatusChanged session_id status => checked s (apply_status s session_id status)
  | StateEffect.TurnUpserted turn => checked s (apply_turn s turn)
  | StateEffect.ItemUpserted item => apply_item s item
  | StateEffect.QueueEntryUpserted entry =>
      (CanonicalState_set_queue (<[entry.(QueueEntry.id) := entry]> s.(CanonicalState.queue)) s, Ok tt)
  | StateEffect.QueueReordered session_id order =>
      (CanonicalState_set_queue (reorder_queue session_id 0 order s.(CanonicalState.queue)) s, Ok tt)
  | StateEffect.AttentionUpserted item => (apply_attention s item, Ok tt)
  | StateEffect.CommandAcknowledged ack => checked s (apply_ack s ack)
  | StateEffect.DiagnosticRecorded diagnostic =>
      (CanonicalState_set_diagnostics
         (<[diagnostic_key diagnostic := diagnostic]> s.(CanonicalState.diagnostics)) s, Ok tt)
  | StateEffect.WorkflowUpserted workflow =>
      (CanonicalState_set_workflows (<[workflow.(Workflow.id) := workflow]> s.(CanonicalState.workflows)) s, Ok tt)
  | StateEffect.StepUpserted step =>
      (CanonicalState_set_steps (<[step.(Step.id) := step]> s.(CanonicalState.steps)) s, Ok tt)
  | StateEffect.ArtifactUpserted artifact =>
      (CanonicalState_set_artifacts (<[artifact.(Artifact.id) := artifact]> s.(CanonicalState.artifacts)) s, Ok tt)
  end.

Definition CanonicalState_apply (s : CanonicalState) (effect : StateEffect) : outcome :=
  let '(s', r) := apply_change s effect in
  match r with
  | Ok _ => (recompute_derived s', Ok tt)
  | Err e => (s', Err e)
  end.
