(* ===== verification/CanonInvariants.v ===== *)
(** * Invariants of canonical state

    The derived-field loops of [state.rs] as whole-map functions, the
    well-formedness invariant every applied effect preserves, and what it
    implies for turns, acknowledgements, control and content. *)
From stdpp Require Import prelude strings gmap.
From Stdlib Require Import ZArith Lia.
From S2P Require Import Prelude ProtoBase ProtoContent ProtoRuntime ProtoTurn ProtoQueue ProtoWorkflow ProtoAttention ProtoCommand ProtoEffect ProtoProjection CanonState.

Local Open Scope Z_scope.

Implicit Types s : CanonicalState.

(** ** The derived-field loops *)

(** Deriving a session reads the session table only at that session. *)
Lemma derived_session_set_sessions s m k x :
  m !! k = s.(CanonicalState.sessions) !! k →
  derived_session (CanonicalState_set_sessions m s) k x = derived_session s k x.
Proof. intros E. unfold derived_session, status_inputs. simpl. by rewrite E. Qed.

Lemma recompute_session_fold s l :
  NoDup l → ∃ m, foldl recompute_session s l = CanonicalState_set_sessions m s ∧
    ∀ k, m !! k = if decide (k ∈ l) then derived_session s k <$> s.(CanonicalState.sessions) !! k
                  else s.(CanonicalState.sessions) !! k.
Proof.
  revert s. induction l as [|x l IH]; intros s Hnd; cbn [foldl].
  { exists s.(CanonicalState.sessions). split; [by destruct s|].
    intros k. rewrite decide_False; [done|]. apply not_elem_of_nil. }
  rewrite NoDup_cons in Hnd. destruct Hnd as [Hx Hnd].
  destruct (IH (recompute_session s x) Hnd) as (m & -> & Hm). unfold recompute_session in *.
  destruct (s.(CanonicalState.sessions) !! x) as [y|] eqn:E; simpl in Hm; exists m; (split; [done|]);
    intros k; rewrite Hm; destruct (decide (k = x)) as [->|Hne].
  - rewrite decide_False by done. rewrite decide_True by left. by rewrite lookup_insert_eq, E.
  - rewrite lookup_insert_ne by done. destruct (decide (k ∈ l)).
    + rewrite decide_True by (by right). destruct (s.(CanonicalState.sessions) !! k) eqn:Ek; [|done]; simpl.
      f_equal. apply derived_session_set_sessions. by rewrite lookup_insert_ne.
    + rewrite decide_False; [done|]. rewrite elem_of_cons. naive_solver.
  - rewrite decide_False by done. by rewrite decide_True, E by left.
  - destruct (decide (k ∈ l)); [by rewrite decide_True by (by right)|].
    rewrite decide_False; [done|]. rewrite elem_of_cons. naive_solver.
Qed.

Lemma recompute_project_fold s l :
  NoDup l → ∃ m, foldl recompute_project s l = CanonicalState_set_projects m s ∧
    ∀ k, m !! k = if decide (k ∈ l) then derived_project s k <$> s.(CanonicalState.projects) !! k
                  else s.(CanonicalState.projects) !! k.
Proof.
  revert s. induction l as [|x l IH]; intros s Hnd; cbn [foldl].
  { exists s.(CanonicalState.projects). split; [by destruct s|].
    intros k. rewrite decide_False; [done|]. apply not_elem_of_nil. }
  rewrite NoDup_cons in Hnd. destruct Hnd as [Hx Hnd].
  destruct (IH (recompute_project s x) Hnd) as (m & -> & Hm). unfold recompute_project in *.
  destruct (s.(CanonicalState.projects) !! x) as [y|] eqn:E; simpl in Hm; exists m; (split; [done|]);
    intros k; rewrite Hm; destruct (decide (k = x)) as [->|Hne].
  - rewrite decide_False by done. rewrite decide_True by left. by rewrite lookup_insert_eq, E.
  - rewrite lookup_insert_ne by done. destruct (decide (k ∈ l)).
    + by rewrite decide_True by (by right).
    + rewrite decide_False; [done|]. rewrite elem_of_cons. naive_solver.
  - rewrite decide_False by done. by rewrite decide_True, E by left.
  - destruct (decide (k ∈ l)); [by rewrite decide_True by (by right)|].
    rewrite decide_False; [done|]. rewrite elem_of_cons. naive_solver.
Qed.

(** Reference definitions: every session, then every project, derived at once. *)
Definition derive_sessions s : CanonicalState :=
  CanonicalState_set_sessions
    (map_imap (λ k x, Some (derived_session s k x)) s.(CanonicalState.sessions)) s.

Definition derive_projects s : CanonicalState :=
  CanonicalState_set_projects
    (map_imap (λ k p, Some (derived_project s k p)) s.(CanonicalState.projects)) s.

Lemma recompute_derived_eq s : recompute_derived s = derive_projects (derive_sessions s).
Proof.
  unfold recompute_derived, recompute_project_counts.
  destruct (recompute_session_fold s _ (btree_keys_NoDup s.(CanonicalState.sessions))) as (ms & -> & Hs).
  assert (CanonicalState_set_sessions ms s = derive_sessions s) as ->.
  { unfold derive_sessions. f_equal. apply map_eq. intros k. rewrite Hs, map_lookup_imap.
    destruct (decide (k ∈ btree_keys s.(CanonicalState.sessions))) as [Hin|Hin];
      rewrite elem_of_btree_keys in Hin; destruct (s.(CanonicalState.sessions) !! k) eqn:E; try done.
    by destruct Hin. }
  destruct (recompute_project_fold (derive_sessions s) _
    (btree_keys_NoDup (derive_sessions s).(CanonicalState.projects))) as (mp & -> & Hp).
  unfold derive_projects. f_equal. apply map_eq. intros k. rewrite Hp, map_lookup_imap.
  destruct (decide _) as [Hin|Hin]; rewrite elem_of_btree_keys in Hin;
    destruct ((derive_sessions s).(CanonicalState.projects) !! k) eqn:E; try done.
  by destruct Hin.
Qed.

Lemma lookup_derived_session s k :
  (recompute_derived s).(CanonicalState.sessions) !! k =
  derived_session s k <$> s.(CanonicalState.sessions) !! k.
Proof.
  rewrite recompute_derived_eq. simpl. rewrite map_lookup_imap. by destruct (_ !! k).
Qed.

Lemma lookup_derived_project s k :
  (recompute_derived s).(CanonicalState.projects) !! k =
  derived_project (derive_sessions s) k <$> s.(CanonicalState.projects) !! k.
Proof.
  rewrite recompute_derived_eq. simpl. rewrite map_lookup_imap. by destruct (_ !! k).
Qed.

(** The loops touch nothing but sessions and projects. *)
Lemma recompute_derived_frame s :
  ∃ ms mp, recompute_derived s = CanonicalState_set_projects mp (CanonicalState_set_sessions ms s).
Proof. rewrite recompute_derived_eq. by eexists _, _. Qed.

(** Runtime resolution only reads fields that deriving preserves. *)
Lemma runtime_of_derived s x k :
  runtime_of (recompute_derived s) (derived_session s k x) = runtime_of s x.
Proof.
  unfold runtime_of. rewrite lookup_derived_project.
  replace ((recompute_derived s).(CanonicalState.runtimes)) with s.(CanonicalState.runtimes)
    by (by rewrite recompute_derived_eq).
  simpl. by destruct (s.(CanonicalState.projects) !! _).
Qed.

Lemma apply_ok s e s' :
  CanonicalState_apply s e = (s', Ok tt) ↔
  ∃ s1, apply_change s e = (s1, Ok tt) ∧ s' = recompute_derived s1.
Proof.
  unfold CanonicalState_apply. destruct (apply_change s e) as [s1 [[]|err]]; [|naive_solver].
  split; [intros [= <-]; eauto | by intros (? & [= ->] & ->)].
Qed.

(** After any applied effect, the status, active turn, queue depth and open-attention count of every session
    are those computed from the resulting state itself, whatever the effect carried in those fields, and the
    last activity of the session is not earlier than that of anything it contains. *)
Theorem applied_session_fields_are_derived s e s' sid session
    (Ha : CanonicalState_apply s e = (s', Ok tt))
    (Hs : s'.(CanonicalState.sessions) !! sid = Some session) :
  session.(Session.status) = derive_session_status (status_inputs s' sid) ∧
  session.(Session.active_turn_id) = active_turn_of s' sid ∧
  session.(Session.queue_depth) = pending_queue_entries_of s' sid ∧
  session.(Session.open_attention_count) =
    u32_of_count (length (open_attention s' sid (λ _, true))) ∧
  last_activity_of s' sid ≤ session.(Session.last_activity_at_ms).
Proof.
  apply apply_ok in Ha as (s1 & _ & ->). rewrite lookup_derived_session in Hs.
  destruct (s1.(CanonicalState.sessions) !! sid) as [x|] eqn:E; [|done]. injection Hs as <-.
  assert (∃ ms mp, recompute_derived s1
          = CanonicalState_set_projects mp (CanonicalState_set_sessions ms s1)) as (ms & mp & Eq)
    by apply recompute_derived_frame.
  assert (status_inputs (recompute_derived s1) sid = status_inputs s1 sid) as ->.
  { unfold status_inputs. rewrite lookup_derived_session, E. simpl. rewrite runtime_of_derived.
    by rewrite Eq. }
  rewrite Eq. split_and!; try done. simpl.
  change (last_activity_of _ sid) with (last_activity_of s1 sid).
  destruct (Z.ltb_spec x.(Session.last_activity_at_ms) (last_activity_of s1 sid)); lia.
Qed.

(** *** Project counters *)

Lemma saturating_count n : saturating_add_u32 (u32_of_count n) 1 = u32_of_count (S n).
Proof. unfold saturating_add_u32, u32_of_count, u32_max. lia. Qed.

Definition count_where (p : Session → bool) (l : list Session) : nat := length (filter_b p l).

Definition session_is (status : SessionStatus) (x : Session) : bool :=
  bool_decide (x.(Session.status) = status).

Definition session_waits (x : Session) : bool := SessionStatus_waits_for_human x.(Session.status).

(** The counters a list of sessions should show, saturating at [u32::MAX]. *)
Definition counts_of (l : list Session) (a b c d e : nat) : SessionCounts :=
  SessionCounts.mk (u32_of_count (a + length l))
    (u32_of_count (b + count_where (session_is SessionStatus.Running) l))
    (u32_of_count (c + count_where session_waits l))
    (u32_of_count (d + count_where (session_is SessionStatus.Failed) l))
    (u32_of_count (e + count_where Session.archived l)).

Lemma count_session_fold l a b c d e :
  foldl count_session (counts_of [] a b c d e) l = counts_of l a b c d e.
Proof.
  revert a b c d e. induction l as [|x l IH]; intros a b c d e; [done|]. cbn [foldl].
  set (bump := λ (t : bool) (n : nat), if t then S n else n).
  assert (count_session (counts_of [] a b c d e) x =
    counts_of [] (S a) (bump (session_is SessionStatus.Running x) b) (bump (session_waits x) c)
      (bump (session_is SessionStatus.Failed x) d) (bump x.(Session.archived) e)) as ->.
  { unfold count_session, counts_of, count_where, session_is, session_waits, bump. simpl.
    rewrite !Nat.add_0_r, !saturating_count.
    destruct x.(Session.status), x.(Session.archived); simpl; by rewrite ?Nat.add_0_r. }
  rewrite IH. unfold counts_of, count_where, bump. cbn [length filter_b].
  f_equal; [f_equal; lia|..];
    match goal with |- context [if ?t then _ else _] => destruct t end; simpl; f_equal; lia.
Qed.

(** After any applied effect the session counts of every project are the numbers of its sessions in total,
    running, waiting for a human, failed and archived, and its attention count that of its open entries,
    saturating at the width of the field. *)
Theorem applied_project_counts s e s' pid project
    (Ha : CanonicalState_apply s e = (s', Ok tt))
    (Hp : s'.(CanonicalState.projects) !! pid = Some project) :
  let sessions := sessions_of_project s' pid in
  project.(Project.session_counts) =
    SessionCounts.mk (u32_of_count (length sessions))
      (u32_of_count (count_where (session_is SessionStatus.Running) sessions))
      (u32_of_count (count_where session_waits sessions))
      (u32_of_count (count_where (session_is SessionStatus.Failed) sessions))
      (u32_of_count (count_where Session.archived sessions)) ∧
  project.(Project.attention_count) = u32_of_count (length (filter_b
    (λ entry, bool_decide (entry.(AttentionItem.project_id) = pid)
              && AttentionState_is_open entry.(AttentionItem.state))
    (btree_values s'.(CanonicalState.attention)))).
Proof.
  apply apply_ok in Ha as (s1 & _ & ->). rewrite lookup_derived_project in Hp.
  destruct (s1.(CanonicalState.projects) !! pid) as [x|] eqn:E; [|done]. injection Hp as <-.
  rewrite recompute_derived_eq. split; [|done].
  exact (count_session_fold (sessions_of_project (derive_sessions s1) pid) 0 0 0 0 0).
Qed.

(** ** The invariant

    Each part is a predicate on the tables it constrains, so that an effect
    that leaves those tables alone preserves it by computation. *)

(** Turns are stored under their identifier, listed once in observation order,
    valid, and at most one belongs to a given remote command; an item is listed
    by the turn it names. *)
Record turn_table_wf (turns : gmap TurnId Turn) (order : list TurnId) (items : gmap ItemId Item) : Prop := {
  turn_table_key : ∀ k t, turns !! k = Some t → t.(Turn.id) = k;
  turn_table_ok : ∀ k t, turns !! k = Some t → turn_ok t;
  turn_table_nodup : NoDup order;
  turn_table_order : ∀ k, k ∈ order ↔ is_Some (turns !! k);
  turn_table_items : ∀ k i, items !! k = Some i →
    i.(Item.id) = k ∧ ∃ t, turns !! i.(Item.turn_id) = Some t ∧ k ∈ t.(Turn.item_ids);
  turn_table_remote : ∀ k1 k2 t1 t2 c, turns !! k1 = Some t1 → turns !! k2 = Some t2 →
    is_remote_turn c t1 = true → is_remote_turn c t2 = true → k1 = k2
}.

(** Attention entries are stored under their identifier and listed once. *)
Record attention_table_wf (attention : gmap AttentionId AttentionItem) (order : list AttentionId) : Prop := {
  attention_table_key : ∀ k a, attention !! k = Some a → a.(AttentionItem.id) = k;
  attention_table_nodup : NoDup order;
  attention_table_order : ∀ k, k ∈ order ↔ is_Some (attention !! k)
}.

Definition queue_table_wf (queue : gmap QueueEntryId QueueEntry) : Prop :=
  ∀ k e, queue !! k = Some e → e.(QueueEntry.id) = k.

(** A runtime acceptance follows a local acceptance of the same command and is
    the only runtime acceptance of that command. *)
Definition acks_wf (acks : list CommandAck) : Prop :=
  ∀ i a, acks !! i = Some a → CommandOutcome_reached_runtime a.(CommandAck.outcome) = true →
    (∃ j b, (j < i)%nat ∧ acks !! j = Some b ∧ b.(CommandAck.command_id) = a.(CommandAck.command_id) ∧
            is_accepted_locally b.(CommandAck.outcome) = true) ∧
    (∀ j b, acks !! j = Some b → b.(CommandAck.command_id) = a.(CommandAck.command_id) →
            CommandOutcome_reached_runtime b.(CommandAck.outcome) = true → j = i).

(** An acknowledgement by which runtime [rid] accepted a command of session [sid]. *)
Definition accepts (sid : SessionId) (rid : ProviderRuntimeId) (ack : CommandAck) : Prop :=
  ∃ kind h, ack.(CommandAck.outcome) = CommandOutcome.AcceptedByRuntime sid kind h ∧
            h.(ProviderBindingHandle.runtime_id) = rid.

(** Control is never claimed without an acceptance by the runtime it names. *)
Record control_wf (sessions : gmap SessionId Session) (runtimes : gmap ProviderRuntimeId ProviderRuntime)
    (acks : list CommandAck) : Prop := {
  control_session_key : ∀ k x, sessions !! k = Some x → x.(Session.id) = k;
  control_runtime_key : ∀ k r, runtimes !! k = Some r → r.(ProviderRuntime.id) = k;
  control_capability : ∀ rid r, runtimes !! rid = Some r →
    RuntimeCapabilities_permits r.(ProviderRuntime.capabilities) Capability.LiveControl = true →
    ∃ sid ack, ack ∈ acks ∧ accepts sid rid ack;
  control_binding : ∀ sid x, sessions !! sid = Some x →
    LiveBinding_accepts_control x.(Session.live_binding) = true →
    ∃ rid ack, direct_runtime_id x = Some rid ∧ ack ∈ acks ∧ accepts sid rid ack
}.

(** Entries are stored under their own key. *)
Definition keyed {K V} `{Countable K} (key : V → K) (table : gmap K V) : Prop := ∀ k v, table !! k = Some v → key v = k.

Record state_wf s : Prop := {
  wf_hosts : keyed Host.id s.(CanonicalState.hosts);
  wf_projects : keyed Project.id s.(CanonicalState.projects);
  wf_workflows : keyed Workflow.id s.(CanonicalState.workflows);
  wf_steps : keyed Step.id s.(CanonicalState.steps);
  wf_artifacts : keyed Artifact.id s.(CanonicalState.artifacts);
  wf_diagnostics : keyed diagnostic_key s.(CanonicalState.diagnostics);
  wf_turns : turn_table_wf s.(CanonicalState.turns) s.(CanonicalState.turn_order) s.(CanonicalState.items);
  wf_attention : attention_table_wf s.(CanonicalState.attention) s.(CanonicalState.attention_order);
  wf_queue : queue_table_wf s.(CanonicalState.queue);
  wf_acks : acks_wf s.(CanonicalState.acks);
  wf_control : control_wf s.(CanonicalState.sessions) s.(CanonicalState.runtimes) s.(CanonicalState.acks)
}.

(** States reached from the empty one by applied effects. *)
Inductive reachable : CanonicalState → Prop :=
| reachable_init : reachable CanonicalState_default
| reachable_step s e s' :
    reachable s → CanonicalState_apply s e = (s', Ok tt) → reachable s'.

(** *** Preservation, table by table *)

Lemma elem_of_push_new {A} `{EqDecision A} (l : list A) x y : y ∈ push_new l x ↔ y ∈ l ∨ y = x.
Proof.
  unfold push_new. destruct (contains_b x l) eqn:E.
  - apply contains_b_true in E. naive_solver.
  - by rewrite elem_of_app, list_elem_of_singleton.
Qed.

Lemma NoDup_push_new {A} `{EqDecision A} (l : list A) x : NoDup l → NoDup (push_new l x).
Proof.
  intros Hl. unfold push_new. destruct (contains_b x l) eqn:E; [done|].
  apply contains_b_false in E. rewrite NoDup_app. split_and!; [done| |apply NoDup_singleton].
  by intros y Hy ->%list_elem_of_singleton.
Qed.

Lemma push_new_prefix {A} `{EqDecision A} (l : list A) x : l `prefix_of` push_new l x.
Proof. unfold push_new. destruct (contains_b x l); [done|]. by eexists. Qed.

Lemma foldl_push_new_prefix {A} `{EqDecision A} (l k : list A) : l `prefix_of` foldl push_new l k.
Proof.
  revert l. induction k as [|x k IH]; intros l; simpl; [done|].
  etrans; [apply (push_new_prefix l x)|apply IH].
Qed.

#[export] Hint Resolve NoDup_push_new push_new_prefix foldl_push_new_prefix : kaleido.

(** Adding or replacing one key in a table listed by [push_new]. *)
Lemma push_new_order {K V} `{Countable K} (m : gmap K V) (order : list K) k v :
  (∀ x, x ∈ order ↔ is_Some (m !! x)) → ∀ x, x ∈ push_new order k ↔ is_Some (<[k := v]> m !! x).
Proof.
  intros Ho x. rewrite elem_of_push_new, Ho. destruct (decide (x = k)) as [->|Hne].
  - rewrite lookup_insert_eq. naive_solver.
  - rewrite lookup_insert_ne by done. naive_solver.
Qed.

Lemma queue_table_insert q e : queue_table_wf q → queue_table_wf (<[e.(QueueEntry.id) := e]> q).
Proof. intros Hq k x. rewrite lookup_insert_Some. intros [[<- <-]|[_ Hx]]; [done|by apply Hq]. Qed.

Lemma queue_table_reorder sid pos order q : queue_table_wf q → queue_table_wf (reorder_queue sid pos order q).
Proof.
  revert pos q. induction order as [|x order IH]; intros pos q Hq; simpl; [done|]. apply IH.
  destruct (q !! x) as [e|] eqn:E; [|done]. case_bool_decide; [|done].
  rewrite <-(Hq x e E). by apply (queue_table_insert q (QueueEntry_set_position pos e)).
Qed.

Lemma attention_table_insert m order a :
  attention_table_wf m order →
  attention_table_wf (<[a.(AttentionItem.id) := a]> m) (push_new order a.(AttentionItem.id)).
Proof.
  intros [Hk Hn Ho]. split; [|by apply NoDup_push_new|by apply push_new_order].
  intros k x. rewrite lookup_insert_Some. intros [[<- <-]|[_ Hx]]; [done|by apply Hk].
Qed.

Lemma push_new_in {A} `{EqDecision A} (l : list A) x : x ∈ l → push_new l x = l.
Proof. intros Hx. unfold push_new. by rewrite (proj2 (contains_b_true x l)). Qed.

(** Storing a valid turn that keeps the items and the origin already recorded. *)
Lemma turn_table_insert turns order items t :
  turn_table_wf turns order items → turn_ok t →
  (∀ ex, turns !! t.(Turn.id) = Some ex →
     ex.(Turn.origin) = t.(Turn.origin) ∧ ∀ x, x ∈ ex.(Turn.item_ids) → x ∈ t.(Turn.item_ids)) →
  (∀ c k t', is_remote_turn c t = true → turns !! k = Some t' → is_remote_turn c t' = true → k = t.(Turn.id)) →
  turn_table_wf (<[t.(Turn.id) := t]> turns) (push_new order t.(Turn.id)) items.
Proof.
  intros [Hk Hok Hn Ho Hi Hr] Ht Hex Hrem. split.
  - intros k x. rewrite lookup_insert_Some. intros [[<- <-]|[_ Hx]]; [done|by apply Hk].
  - intros k x. rewrite lookup_insert_Some. intros [[<- <-]|[_ Hx]]; [done|by eapply Hok].
  - by apply NoDup_push_new.
  - by apply push_new_order.
  - intros k i Hki. destruct (Hi k i Hki) as (<- & t' & Ht' & Hin). split; [done|].
    destruct (decide (t.(Turn.id) = i.(Item.turn_id))) as [E|E].
    + exists t. rewrite <-E, lookup_insert_eq. split; [done|]. rewrite <-E in Ht'. by eapply Hex.
    + exists t'. by rewrite lookup_insert_ne.
  - intros k1 k2 t1 t2 c. rewrite !lookup_insert_Some.
    intros [[<- <-]|[Hn1 H1]] [[<- <-]|[Hn2 H2]] Hr1 Hr2; [done| | |by apply (Hr k1 k2 t1 t2 c)].
    + symmetry. by apply (Hrem c k2 t2).
    + by apply (Hrem c k1 t1).
Qed.

Lemma turn_table_item turns order items i t :
  turn_table_wf turns order items → turns !! i.(Item.turn_id) = Some t → i.(Item.id) ∈ t.(Turn.item_ids) →
  turn_table_wf turns order (<[i.(Item.id) := i]> items).
Proof.
  intros [Hk Hok Hn Ho Hi Hr] Ht Hin. split; try done.
  intros k x. rewrite lookup_insert_Some. intros [[<- <-]|[_ Hx]]; [|by apply Hi]. split; [done|]. by exists t.
Qed.

Lemma turn_ok_push t x : turn_ok t → turn_ok (Turn_set_item_ids (push_new t.(Turn.item_ids) x) t).
Proof. intros []. split; try done. simpl. by apply NoDup_push_new. Qed.

Lemma merge_turn_ok existing turn merged :
  merge_turn existing turn = Ok merged →
  merged.(Turn.id) = turn.(Turn.id) ∧ merged.(Turn.origin) = turn.(Turn.origin) ∧
  merged.(Turn.session_id) = turn.(Turn.session_id) ∧
  ∀ ex, existing = Some ex →
    ex.(Turn.session_id) = merged.(Turn.session_id) ∧ ex.(Turn.origin) = merged.(Turn.origin) ∧
    ex.(Turn.item_ids) `prefix_of` merged.(Turn.item_ids) ∧
    (∀ h, ex.(Turn.binding_handle) = Some h → merged.(Turn.binding_handle) = Some h).
Proof.
  destruct existing as [ex|]; simpl; [|by intros [= ->]].
  rewrite !rbind_ok_unit, !reject_if_ok, !bool_decide_neq_false. intros (Hs & Ho & Hb & [= <-]).
  simpl. split_and!; try done. intros ? [= <-]. split_and!; auto with kaleido.
  intros h Hh. rewrite Hh in Hb. destruct turn.(Turn.binding_handle); [|done].
  simpl in *. rewrite bool_decide_neq_false in Hb. congruence.
Qed.

Lemma apply_turn_ok s turn s' :
  apply_turn s turn = Ok s' →
  ∃ merged, merge_turn (s.(CanonicalState.turns) !! turn.(Turn.id)) turn = Ok merged ∧ turn_ok merged ∧
    s' = CanonicalState_set_turns (<[merged.(Turn.id) := merged]> s.(CanonicalState.turns))
           (CanonicalState_set_turn_order (push_new s.(CanonicalState.turn_order) merged.(Turn.id)) s) ∧
    ∀ c t', is_remote_turn c merged = true → t' ∈ btree_values s.(CanonicalState.turns) →
      is_remote_turn c t' = true → t'.(Turn.id) = merged.(Turn.id).
Proof.
  unfold apply_turn. rewrite rbind_ok_unit, rbind_ok.
  intros (Hrem & merged & Hm & H). rewrite rbind_ok_unit, map_err_ok, Turn_validate_ok in H.
  destruct H as [Hok [= <-]]. exists merged. split_and!; try done.
  intros c t' Hc Hin Hc'. destruct (merge_turn_ok _ _ _ Hm) as (Hid & Ho & _).
  unfold is_remote_turn in Hc. rewrite Ho in Hc.
  destruct turn.(Turn.origin) as [|c'|]; try done. apply bool_decide_eq_true in Hc as ->.
  rewrite reject_if_ok, existsb_false in Hrem. specialize (Hrem t' Hin). simpl in Hrem.
  rewrite Hc', andb_true_r, bool_decide_neq_false in Hrem. congruence.
Qed.

Lemma apply_turn_wf s turn s' :
  turn_table_wf s.(CanonicalState.turns) s.(CanonicalState.turn_order) s.(CanonicalState.items) →
  apply_turn s turn = Ok s' →
  turn_table_wf s'.(CanonicalState.turns) s'.(CanonicalState.turn_order) s'.(CanonicalState.items).
Proof.
  intros Hwf (merged & Hm & Hok & -> & Hrem)%apply_turn_ok. simpl.
  destruct (merge_turn_ok _ _ _ Hm) as (Hid & _ & _ & Hex). apply turn_table_insert; try done.
  - intros ex He. rewrite Hid in He. destruct (Hex ex He) as (_ & Ho & Hp & _). split; [done|].
    intros x Hx. by eapply elem_of_prefix.
  - intros c k t' Hc Hk Hc'. rewrite <-(Hrem c t'); try done; [by rewrite (turn_table_key _ _ _ Hwf k t')|].
    apply elem_of_btree_values. by exists k.
Qed.

(** The validation inside [ItemUpserted] cannot fail on a well-formed state. *)
Lemma apply_item_cases s item :
  turn_table_wf s.(CanonicalState.turns) s.(CanonicalState.turn_order) s.(CanonicalState.items) →
  (s.(CanonicalState.turns) !! item.(Item.turn_id) = None ∧
   apply_item s item = (s, Err (StateError.UnknownTurn item.(Item.turn_id)))) ∨
  ∃ t, s.(CanonicalState.turns) !! item.(Item.turn_id) = Some t ∧
    let t' := Turn_set_item_ids (push_new t.(Turn.item_ids) item.(Item.id)) t in
    turn_ok t' ∧
    apply_item s item =
      (CanonicalState_set_items (<[item.(Item.id) := item]> s.(CanonicalState.items))
         (CanonicalState_set_turns (<[item.(Item.turn_id) := t']> s.(CanonicalState.turns)) s), Ok tt).
Proof.
  intros Hwf. unfold apply_item. destruct (s.(CanonicalState.turns) !! _) as [t|] eqn:E; [right|by left].
  exists t. split; [done|]. simpl. pose proof (turn_ok_push t item.(Item.id) (turn_table_ok _ _ _ Hwf _ t E)) as Hok.
  split; [done|]. by rewrite (proj2 (Turn_validate_ok _) Hok).
Qed.

Lemma apply_item_wf s item s' :
  turn_table_wf s.(CanonicalState.turns) s.(CanonicalState.turn_order) s.(CanonicalState.items) →
  apply_item s item = (s', Ok tt) →
  turn_table_wf s'.(CanonicalState.turns) s'.(CanonicalState.turn_order) s'.(CanonicalState.items).
Proof.
  intros Hwf Ha. destruct (apply_item_cases s item Hwf) as [[_ E]|(t & Ht & Hok & E)];
    rewrite E in Ha; [done|]. injection Ha as <-. simpl in Hok. simpl.
  set (t' := Turn_set_item_ids (push_new t.(Turn.item_ids) item.(Item.id)) t) in *.
  pose proof (turn_table_key _ _ _ Hwf _ _ Ht) as Hid.
  assert (turn_table_wf (<[t'.(Turn.id) := t']> s.(CanonicalState.turns))
            (push_new s.(CanonicalState.turn_order) t'.(Turn.id)) s.(CanonicalState.items)) as Hwf'.
  { apply turn_table_insert; try done; simpl; rewrite Hid.
    - intros ex He. rewrite Ht in He. injection He as <-. split; [done|].
      intros x Hx. apply elem_of_push_new. by left.
    - intros c k u Hc Hu Hc'. by eapply (turn_table_remote _ _ _ Hwf k (item.(Item.turn_id)) u t c). }
  simpl in Hwf'. rewrite Hid, push_new_in in Hwf' by (apply (turn_table_order _ _ _ Hwf); by eexists).
  eapply turn_table_item; [done|by rewrite lookup_insert_eq|]. simpl. apply elem_of_push_new. by right.
Qed.

(** *** Acknowledgements and control *)

Lemma has_ack_true s cid p :
  has_ack s cid p = true ↔
  ∃ j b, s.(CanonicalState.acks) !! j = Some b ∧ b.(CommandAck.command_id) = cid ∧
         p b.(CommandAck.outcome) = true.
Proof.
  unfold has_ack. rewrite existsb_elem. setoid_rewrite list_elem_of_lookup.
  setoid_rewrite andb_true_iff. setoid_rewrite bool_decide_eq_true. naive_solver.
Qed.

Lemma acks_wf_app acks a :
  acks_wf acks →
  (CommandOutcome_reached_runtime a.(CommandAck.outcome) = true →
   (∃ j b, acks !! j = Some b ∧ b.(CommandAck.command_id) = a.(CommandAck.command_id) ∧
           is_accepted_locally b.(CommandAck.outcome) = true) ∧
   ∀ j b, acks !! j = Some b → b.(CommandAck.command_id) = a.(CommandAck.command_id) →
          CommandOutcome_reached_runtime b.(CommandAck.outcome) = false) →
  acks_wf (acks ++ [a]).
Proof.
  intros Hwf Ha i x Hx Hrx. rewrite lookup_snoc_Some in Hx. destruct Hx as [[Hi Hx]|[-> <-]].
  - destruct (Hwf i x Hx Hrx) as ((j & b & Hj & Hb & Hc & Hl) & Huniq). split.
    + exists j, b. by rewrite lookup_app_l by (apply lookup_lt_Some in Hb; lia).
    + intros k y Hy Hcy Hry. rewrite lookup_snoc_Some in Hy. destruct Hy as [[_ Hy]|[-> <-]].
      * by eapply Huniq.
      * destruct (Ha Hry) as [_ Hno]. specialize (Hno i x Hx). rewrite Hno in Hrx; congruence.
  - destruct (Ha Hrx) as [(j & b & Hb & Hc & Hl) Hno]. split.
    + exists j, b. pose proof (lookup_lt_Some _ _ _ Hb). by rewrite lookup_app_l by lia.
    + intros k y Hy Hcy Hry. rewrite lookup_snoc_Some in Hy. destruct Hy as [[_ Hy]|[-> _]]; [|done].
      rewrite (Hno k y Hy Hcy) in Hry. done.
Qed.

Lemma apply_ack_ok s ack s' :
  apply_ack s ack = Ok s' →
  s' = CanonicalState_set_acks (s.(CanonicalState.acks) ++ [ack]) s ∧
  ∀ sid kind h, ack.(CommandAck.outcome) = CommandOutcome.AcceptedByRuntime sid kind h →
    has_ack s ack.(CommandAck.command_id) is_accepted_locally = true ∧
    has_ack s ack.(CommandAck.command_id) CommandOutcome_reached_runtime = false ∧
    (∃ session runtime, s.(CanonicalState.sessions) !! sid = Some session ∧
       runtime_of s session = Some runtime ∧
       runtime.(ProviderRuntime.id) = h.(ProviderBindingHandle.runtime_id)) ∧
    (kind = RuntimeAcceptanceKind.PromptTurn → ∃ turn,
       remote_command_turn s ack.(CommandAck.command_id) = Ok turn ∧ turn.(Turn.session_id) = sid).
Proof.
  unfold apply_ack. rewrite rbind_ok_unit. intros [Hc [= <-]]. split; [done|].
  intros sid kind h E. rewrite E, !rbind_ok_unit, rbind_ok in Hc.
  destruct Hc as (Hl & Hr & session & Hs%ok_or_ok & Hc). rewrite rbind_ok_unit in Hc. destruct Hc as [Hrt Hp].
  rewrite reject_if_ok, negb_false_true in *. rewrite is_some_and_true in Hrt.
  destruct Hrt as (runtime & Hrt & Hid%bool_decide_eq_true). split_and!; try done; [by eexists _, _|].
  intros ->. simpl in Hp. rewrite rbind_ok in Hp. destruct Hp as (turn & Ht & Hsid).
  rewrite reject_if_ok, bool_decide_neq_false in Hsid. by exists turn.
Qed.

Lemma apply_ack_wf s ack s' :
  acks_wf s.(CanonicalState.acks) → apply_ack s ack = Ok s' → acks_wf s'.(CanonicalState.acks).
Proof.
  intros Hwf [-> Hok]%apply_ack_ok. simpl. apply acks_wf_app; [done|]. intros Hr.
  destruct (ack.(CommandAck.outcome)) as [|sid kind h| | |] eqn:E; try done.
  destruct (Hok sid kind h eq_refl) as ((j & b & Hb & Hc & Hl)%has_ack_true & Hno & _). split; [eauto|].
  intros k y Hy Hcy. apply not_true_iff_false. intros Hry.
  assert (has_ack s ack.(CommandAck.command_id) CommandOutcome_reached_runtime = true); [|congruence].
  apply has_ack_true. eauto.
Qed.

Lemma control_wf_acks sessions runtimes acks extra :
  control_wf sessions runtimes acks → control_wf sessions runtimes (acks ++ extra).
Proof.
  intros [Hks Hkr Hcap Hbind]. split; try done.
  - intros rid r Hr Hp. destruct (Hcap rid r Hr Hp) as (sid & ack & ? & ?).
    exists sid, ack. rewrite elem_of_app. auto.
  - intros sid x Hx Hc. destruct (Hbind sid x Hx Hc) as (rid & ack & ? & ? & ?).
    exists rid, ack. rewrite elem_of_app. auto.
Qed.

Lemma accepted_runtime_session_some s ack rid x :
  (∀ k y, s.(CanonicalState.sessions) !! k = Some y → y.(Session.id) = k) →
  accepted_runtime_session s ack rid = Some x → accepts x.(Session.id) rid ack.
Proof.
  intros Hk. unfold accepted_runtime_session, accepts.
  destruct (ack.(CommandAck.outcome)) as [|sid kind h| | |]; try done.
  case_bool_decide as Hrid; [done|].
  destruct (s.(CanonicalState.sessions) !! sid) as [y|] eqn:E; [|done]. simpl.
  destruct (is_some_and _ _); [|done]. intros [= ->]. rewrite (Hk sid x E). by exists kind, h.
Qed.

Lemma has_runtime_acceptance_for_true s rid :
  control_wf s.(CanonicalState.sessions) s.(CanonicalState.runtimes) s.(CanonicalState.acks) →
  has_runtime_acceptance_for s rid = true →
  ∃ sid ack, ack ∈ s.(CanonicalState.acks) ∧ accepts sid rid ack.
Proof.
  intros Hwf. unfold has_runtime_acceptance_for. rewrite existsb_elem. intros (ack & Hin & Ha).
  rewrite is_some_true in Ha. destruct Ha as [x Hx].
  exists x.(Session.id), ack. split; [done|]. eapply accepted_runtime_session_some; [|done].
  apply (control_session_key _ _ _ Hwf).
Qed.

(** Storing a runtime whose control capability, if any, is already proved. *)
Lemma control_wf_runtime sessions runtimes acks rid r :
  control_wf sessions runtimes acks → r.(ProviderRuntime.id) = rid →
  (RuntimeCapabilities_permits r.(ProviderRuntime.capabilities) Capability.LiveControl = true →
   ∃ sid ack, ack ∈ acks ∧ accepts sid rid ack) →
  control_wf sessions (<[rid := r]> runtimes) acks.
Proof.
  intros [Hks Hkr Hcap Hbind] Hid Hr. split; try done.
  - intros k x. rewrite lookup_insert_Some. intros [[<- <-]|[_ Hx]]; [done|by apply Hkr].
  - intros k x. rewrite lookup_insert_Some. intros [[<- <-]|[_ Hx]]; [done|by apply Hcap].
Qed.

Lemma control_wf_session sessions runtimes acks x :
  control_wf sessions runtimes acks →
  (LiveBinding_accepts_control x.(Session.live_binding) = true →
   ∃ rid ack, direct_runtime_id x = Some rid ∧ ack ∈ acks ∧ accepts x.(Session.id) rid ack) →
  control_wf (<[x.(Session.id) := x]> sessions) runtimes acks.
Proof.
  intros [Hks Hkr Hcap Hbind] Hx. split; try done.
  - intros k y. rewrite lookup_insert_Some. intros [[<- <-]|[_ Hy]]; [done|by apply Hks].
  - intros k y. rewrite lookup_insert_Some. intros [[<- <-]|[_ Hy]]; [done|by apply Hbind].
Qed.

Lemma apply_session_control s session s' :
  control_wf s.(CanonicalState.sessions) s.(CanonicalState.runtimes) s.(CanonicalState.acks) →
  apply_session s session = Ok s' →
  control_wf s'.(CanonicalState.sessions) s'.(CanonicalState.runtimes) s'.(CanonicalState.acks).
Proof.
  intros Hwf. unfold apply_session. rewrite !rbind_ok_unit. intros (_ & Hctl & [= <-]). simpl.
  apply control_wf_session; [done|]. intros Hc.
  assert (LiveBinding_accepts_control session.(Session.live_binding) = true) as Hc'
    by (destruct (s.(CanonicalState.sessions) !! _); done).
  rewrite Hc', rbind_ok in Hctl. destruct Hctl as (r & Hr & Hacc).
  rewrite reject_if_ok, negb_false_true, existsb_elem in Hacc. destruct Hacc as (ack & Hin & Hacc).
  rewrite is_some_and_true in Hacc. destruct Hacc as (accepted & Hacc & Hid%bool_decide_eq_true).
  apply accepted_runtime_session_some in Hacc; [|apply (control_session_key _ _ _ Hwf)].
  unfold live_runtime_of in Hr. rewrite rbind_ok in Hr. destruct Hr as (rid & Hd%ok_or_ok & Hl%ok_or_ok).
  rewrite (control_runtime_key _ _ _ Hwf _ _ Hl), Hid in Hacc. exists rid, ack.
  destruct (s.(CanonicalState.sessions) !! _); done.
Qed.

Lemma derive_control sessions runtimes acks (f : SessionId → Session → Session) :
  (∀ k x, (f k x).(Session.id) = x.(Session.id) ∧ (f k x).(Session.live_binding) = x.(Session.live_binding) ∧
          direct_runtime_id (f k x) = direct_runtime_id x) →
  control_wf sessions runtimes acks →
  control_wf (map_imap (λ k x, Some (f k x)) sessions) runtimes acks.
Proof.
  intros Hf [Hks Hkr Hcap Hbind]. split; try done; intros k y; rewrite map_lookup_imap;
    destruct (sessions !! k) as [x|] eqn:E; try done; intros [= <-]; destruct (Hf k x) as (Hi & Hl & Hd).
  - rewrite Hi. by apply Hks.
  - rewrite Hl, Hd. by apply Hbind.
Qed.

(** *** Every effect preserves the invariant *)

Lemma checked_ok s m s' : checked s m = (s', Ok tt) ↔ m = Ok s'.
Proof. destruct m; simpl; naive_solver. Qed.

Lemma apply_runtime_control s runtime s' :
  control_wf s.(CanonicalState.sessions) s.(CanonicalState.runtimes) s.(CanonicalState.acks) →
  apply_runtime s runtime = Ok s' →
  control_wf s'.(CanonicalState.sessions) s'.(CanonicalState.runtimes) s'.(CanonicalState.acks).
Proof.
  intros Hwf. unfold apply_runtime. rewrite !rbind_ok_unit, !reject_if_ok, andb_false_impl, negb_false_true.
  intros (_ & Hc & [= <-]). apply control_wf_runtime; [done..|]. intros Hp.
  by apply (has_runtime_acceptance_for_true s), Hc.
Qed.

Lemma apply_capabilities_control s c s' :
  control_wf s.(CanonicalState.sessions) s.(CanonicalState.runtimes) s.(CanonicalState.acks) →
  apply_capabilities s c = Ok s' →
  control_wf s'.(CanonicalState.sessions) s'.(CanonicalState.runtimes) s'.(CanonicalState.acks).
Proof.
  intros Hwf. unfold apply_capabilities. rewrite rbind_ok_unit, rbind_ok, reject_if_ok, andb_false_impl,
    negb_false_true. intros (Hc & r & Hr%ok_or_ok & [= <-]). apply control_wf_runtime; [done| |].
  - simpl. by apply (control_runtime_key _ _ _ Hwf).
  - intros Hp. by apply (has_runtime_acceptance_for_true s), Hc.
Qed.

(** Opens an applied effect, down to the state it stored; turns, items and
    acknowledgements are left to their own lemmas. *)
Ltac inv_change H :=
  simpl in H; rewrite ?checked_ok in H;
  lazymatch type of H with
  | apply_runtime _ _ = _ => unfold apply_runtime in H; rewrite !rbind_ok_unit in H; destruct H as (_ & _ & [= <-])
  | apply_capabilities _ _ = _ =>
      unfold apply_capabilities in H; rewrite rbind_ok_unit, rbind_ok in H; destruct H as (_ & ? & _ & [= <-])
  | apply_session _ _ = _ => unfold apply_session in H; rewrite !rbind_ok_unit in H; destruct H as (_ & _ & [= <-])
  | apply_status _ _ _ = _ => unfold apply_status in H; rewrite rbind_ok_unit in H; destruct H as (_ & [= <-])
  | apply_turn _ _ = _ => idtac
  | apply_item _ _ = _ => idtac
  | apply_ack _ _ = _ => idtac
  | _ => injection H as <-
  end.

Lemma keyed_insert {K V} `{Countable K} (key : V → K) table v : keyed key table → keyed key (<[key v := v]> table).
Proof. intros Ht k x [[<- <-]|[_ Hx]]%lookup_insert_Some; [done|by apply Ht]. Qed.

Lemma keyed_imap {K V} `{Countable K} (key : V → K) (f : K → V → V) table :
  (∀ k v, key (f k v) = key v) → keyed key table → keyed key (map_imap (λ k v, Some (f k v)) table).
Proof.
  intros Hf Ht k x. rewrite map_lookup_imap. destruct (table !! k) as [v|] eqn:E; [|done]. intros [= <-]. rewrite Hf. by apply Ht.
Qed.

Lemma apply_change_wf s e s' : state_wf s → apply_change s e = (s', Ok tt) → state_wf s'.
Proof.
  intros [Hh Hp Hw Hs Hf Hd Ht Ha Hq Hk Hc]. destruct e; simpl; rewrite ?checked_ok; intros H.
  - injection H as <-. split; try done; by apply keyed_insert.
  - pose proof H as H'. apply apply_runtime_control in H'; [|done]. unfold apply_runtime in H.
    rewrite !rbind_ok_unit in H. destruct H as (_ & _ & [= <-]). by split.
  - pose proof H as H'. apply apply_capabilities_control in H'; [|done]. unfold apply_capabilities in H.
    rewrite rbind_ok_unit, rbind_ok in H. destruct H as (_ & r & _ & [= <-]). by split.
  - injection H as <-. split; try done; by apply keyed_insert.
  - pose proof H as H'. apply apply_session_control in H'; [|done]. unfold apply_session in H.
    rewrite !rbind_ok_unit in H. destruct H as (_ & _ & [= <-]). by split.
  - unfold apply_status in H. rewrite rbind_ok_unit in H. destruct H as (_ & [= <-]). by split.
  - pose proof H as H'. apply apply_turn_wf in H'; [|done]. apply apply_turn_ok in H as (m & _ & _ & -> & _).
    by split.
  - pose proof H as H'. apply apply_item_wf in H'; [|done].
    destruct (apply_item_cases s item Ht) as [[_ E]|(t & _ & _ & E)]; rewrite E in H; [done|].
    injection H as <-. by split.
  - injection H as <-. split; try done. by apply queue_table_insert.
  - injection H as <-. split; try done. by apply queue_table_reorder.
  - injection H as <-. split; try done. by apply attention_table_insert.
  - injection H as <-. split; try done; by apply keyed_insert.
  - injection H as <-. split; try done; by apply keyed_insert.
  - injection H as <-. split; try done; by apply keyed_insert.
  - pose proof H as H'. apply apply_ack_wf in H'; [|done]. apply apply_ack_ok in H as [-> _].
    split; try done. by apply control_wf_acks.
  - injection H as <-. split; try done; by apply keyed_insert.
Qed.

Lemma recompute_derived_wf s : state_wf s → state_wf (recompute_derived s).
Proof.
  intros []. rewrite recompute_derived_eq. split; try done; [by apply keyed_imap|by apply derive_control].
Qed.

Lemma apply_wf s e s' : state_wf s → CanonicalState_apply s e = (s', Ok tt) → state_wf s'.
Proof. intros Hwf (s1 & H & ->)%apply_ok. by eapply recompute_derived_wf, apply_change_wf. Qed.

Lemma default_wf : state_wf CanonicalState_default.
Proof.
  split; try done.
  - split; try done; [constructor|]. intros k. split; [by intros ?%elem_of_nil | by intros [? ?]].
  - split; try done; [constructor|]. intros k. split; [by intros ?%elem_of_nil | by intros [? ?]].
Qed.

Lemma reachable_wf s : reachable s → state_wf s.
Proof. induction 1; [apply default_wf|by eapply apply_wf]. Qed.

(** C11: Every state reached by applied effects is well formed: all tables are keyed by the
    identifiers of their entries, the observation orders list each entry once, stored turns are
    valid, an item is listed by its turn, acknowledgements and control claims are justified; and
    looking up the turn of a remote command is never ambiguous: it finds the only one, or there is
    none. *)
Theorem reachable_states_are_well_formed s (Hr : reachable s) :
  state_wf s ∧
  ∀ cid, (∃ turn, remote_command_turn s cid = Ok turn) ∨
         (remote_command_turn s cid = Err StateError.RuntimeAcknowledgementWithoutRemoteTurn ∧
          ∀ k t, s.(CanonicalState.turns) !! k = Some t → is_remote_turn cid t = false).
Proof.
  apply reachable_wf in Hr as Hwf. split; [done|]. intros cid. unfold remote_command_turn.
  destruct (filter_b _ _) as [|t1 [|t2 l]] eqn:E; [right|left; by eexists|].
  - split; [done|]. intros k t Hk. apply not_true_iff_false. intros Hc.
    assert (t ∈ filter_b (is_remote_turn cid) (btree_values s.(CanonicalState.turns))) as Hin.
    { apply elem_of_filter_b. split; [|done]. apply elem_of_btree_values. by exists k. }
    rewrite E in Hin. by apply elem_of_nil in Hin.
  - exfalso. assert (NoDup (Turn.id <$> t1 :: t2 :: l)) as Hnd.
    { rewrite <-E. apply filter_b_fmap_NoDup. apply (btree_values_NoDup Turn.id).
      apply (turn_table_key _ _ _ (wf_turns _ Hwf)). }
    assert (∀ t, t ∈ t1 :: t2 :: l → s.(CanonicalState.turns) !! t.(Turn.id) = Some t ∧
                                     is_remote_turn cid t = true) as Hall.
    { rewrite <-E. intros t [[k Hk]%elem_of_btree_values Ht]%elem_of_filter_b.
      by rewrite (turn_table_key _ _ _ (wf_turns _ Hwf) k t Hk). }
    destruct (Hall t1 ltac:(left)) as [H1 R1], (Hall t2 ltac:(right; left)) as [H2 R2].
    pose proof (turn_table_remote _ _ _ (wf_turns _ Hwf) _ _ _ _ _ H1 H2 R1 R2) as Heq.
    csimpl in Hnd. rewrite NoDup_cons in Hnd. destruct Hnd as [Hn _]. apply Hn. rewrite Heq. left.
Qed.

(** ** Refusals change nothing *)

Lemma checked_err s m s' err : checked s m = (s', Err err) → s' = s.
Proof. destruct m; simpl; naive_solver. Qed.

(** An effect refused by a reachable state leaves that state exactly as it was, even on the branch that pushes
    an item onto its turn before the turn is validated. *)
Theorem refused_effect_changes_nothing s e s' err (Hr : reachable s)
    (Ha : CanonicalState_apply s e = (s', Err err)) : s' = s.
Proof.
  unfold CanonicalState_apply in Ha. destruct (apply_change s e) as [s1 [[]|err']] eqn:E; [done|].
  injection Ha as <- ->. destruct e; simpl in E; try discriminate E; try by apply checked_err in E.
  destruct (apply_item_cases s item) as [[_ E']|(t & _ & _ & E')];
    [apply wf_turns; by apply reachable_wf|..]; rewrite E' in E; [by injection E|done].
Qed.

(** ** Turns only grow *)

Lemma apply_change_turn s e s' k t :
  state_wf s → apply_change s e = (s', Ok tt) → s.(CanonicalState.turns) !! k = Some t →
  ∃ t', s'.(CanonicalState.turns) !! k = Some t' ∧
    t'.(Turn.session_id) = t.(Turn.session_id) ∧ t'.(Turn.origin) = t.(Turn.origin) ∧
    t.(Turn.item_ids) `prefix_of` t'.(Turn.item_ids) ∧
    (∀ h, t.(Turn.binding_handle) = Some h → t'.(Turn.binding_handle) = Some h).
Proof.
  intros Hwf Ha Hk.
  assert (s'.(CanonicalState.turns) = s.(CanonicalState.turns) →
    ∃ t', s'.(CanonicalState.turns) !! k = Some t' ∧
    t'.(Turn.session_id) = t.(Turn.session_id) ∧ t'.(Turn.origin) = t.(Turn.origin) ∧
    t.(Turn.item_ids) `prefix_of` t'.(Turn.item_ids) ∧
    (∀ h, t.(Turn.binding_handle) = Some h → t'.(Turn.binding_handle) = Some h)) as Hsame
    by (intros ->; by exists t).
  destruct e; inv_change Ha; try by apply Hsame.
  - apply apply_turn_ok in Ha as (m & Hm & _ & -> & _). simpl.
    destruct (merge_turn_ok _ _ _ Hm) as (Hid & _ & _ & Hex).
    destruct (decide (k = m.(Turn.id))) as [->|Hne]; [|exists t; by rewrite lookup_insert_ne].
    rewrite Hid in Hk. destruct (Hex t Hk) as (? & ? & ? & ?). exists m. by rewrite lookup_insert_eq.
  - destruct (apply_item_cases s item (wf_turns _ Hwf)) as [[_ E]|(u & Hu & _ & E)]; rewrite E in Ha; [done|].
    injection Ha as <-. simpl. destruct (decide (k = item.(Item.turn_id))) as [->|Hne];
      [|exists t; by rewrite lookup_insert_ne].
    rewrite Hk in Hu. injection Hu as ->. eexists. rewrite lookup_insert_eq. split_and!; [done..| |done].
    simpl. auto with kaleido.
  - apply apply_ack_ok in Ha as [-> _]. by apply Hsame.
Qed.

Lemma apply_turn_grows s e s' k t :
  state_wf s → CanonicalState_apply s e = (s', Ok tt) → s.(CanonicalState.turns) !! k = Some t →
  ∃ t', s'.(CanonicalState.turns) !! k = Some t' ∧
    t'.(Turn.session_id) = t.(Turn.session_id) ∧ t'.(Turn.origin) = t.(Turn.origin) ∧
    t.(Turn.item_ids) `prefix_of` t'.(Turn.item_ids) ∧
    (∀ h, t.(Turn.binding_handle) = Some h → t'.(Turn.binding_handle) = Some h).
Proof.
  intros Hwf (s1 & Ha & ->)%apply_ok Hk. destruct (recompute_derived_frame s1) as (ms & mp & ->).
  by apply (apply_change_turn s e s1).
Qed.

(** Applying an effect to a reachable state never removes a turn, never changes its session, its origin or a
    binding it already has, and only ever extends its item list at the end. *)
Theorem turns_only_grow s e s' k t (Hr : reachable s)
    (Ha : CanonicalState_apply s e = (s', Ok tt))
    (Ht : s.(CanonicalState.turns) !! k = Some t) :
  ∃ t', s'.(CanonicalState.turns) !! k = Some t' ∧
    t'.(Turn.session_id) = t.(Turn.session_id) ∧ t'.(Turn.origin) = t.(Turn.origin) ∧
    t.(Turn.item_ids) `prefix_of` t'.(Turn.item_ids) ∧
    (∀ h, t.(Turn.binding_handle) = Some h → t'.(Turn.binding_handle) = Some h).
Proof. eapply apply_turn_grows; [by apply reachable_wf|done..]. Qed.

(** ** Acceptance by the runtime *)

(** A prompt a runtime accepted has its turn, in the session that was named. *)
Definition prompt_acks_wf s : Prop :=
  ∀ a sid h, a ∈ s.(CanonicalState.acks) →
    a.(CommandAck.outcome) = CommandOutcome.AcceptedByRuntime sid RuntimeAcceptanceKind.PromptTurn h →
    ∃ k t, s.(CanonicalState.turns) !! k = Some t ∧ t.(Turn.session_id) = sid ∧
           is_remote_turn a.(CommandAck.command_id) t = true.

Lemma apply_change_acks s e s' :
  apply_change s e = (s', Ok tt) →
  s'.(CanonicalState.acks) = s.(CanonicalState.acks) ∨
  ∃ ack, e = StateEffect.CommandAcknowledged ack ∧ apply_ack s ack = Ok s'.
Proof.
  intros Ha. destruct e; inv_change Ha; try by left.
  - left. by apply apply_turn_ok in Ha as (m & _ & _ & -> & _).
  - left. unfold apply_item in Ha. destruct (s.(CanonicalState.turns) !! _); [|done].
    destruct (contract _); [|done]. by injection Ha as <-.
  - right. by eexists.
Qed.

Lemma remote_command_turn_ok s cid t :
  remote_command_turn s cid = Ok t →
  (∃ k, s.(CanonicalState.turns) !! k = Some t) ∧ is_remote_turn cid t = true.
Proof.
  unfold remote_command_turn. destruct (filter_b _ _) as [|x [|y l]] eqn:E; try done. intros [= ->].
  assert (t ∈ filter_b (is_remote_turn cid) (btree_values s.(CanonicalState.turns))) as Hin
    by (rewrite E; left). by apply elem_of_filter_b in Hin as [?%elem_of_btree_values ?].
Qed.

Lemma prompt_acks_step s e s' :
  state_wf s → prompt_acks_wf s → CanonicalState_apply s e = (s', Ok tt) → prompt_acks_wf s'.
Proof.
  intros Hwf Hp Ha a sid h Hin Ho.
  assert (∃ k t, s.(CanonicalState.turns) !! k = Some t ∧ t.(Turn.session_id) = sid ∧
                 is_remote_turn a.(CommandAck.command_id) t = true) as (k & t & Hk & Hs & Hc).
  { apply apply_ok in Ha as (s1 & Ha & ->). destruct (recompute_derived_frame s1) as (ms & mp & Eq).
    rewrite Eq in Hin. simpl in Hin. destruct (apply_change_acks _ _ _ Ha) as [E|(ack & -> & Hack)].
    - rewrite E in Hin. by apply (Hp a sid h).
    - apply apply_ack_ok in Hack as [-> Hok]. simpl in Hin.
      apply elem_of_app in Hin as [Hin| ->%list_elem_of_singleton]; [by apply (Hp a sid h)|].
      destruct (Hok _ _ _ Ho) as (_ & _ & _ & Hturn). destruct (Hturn eq_refl) as (t & Ht & Hs).
      apply remote_command_turn_ok in Ht as [[k Hk] Hc]. by exists k, t. }
  destruct (apply_turn_grows s e s' k t Hwf Ha Hk) as (t' & Hk' & Hs' & Ho' & _).
  exists k, t'. split_and!; [done|congruence|]. unfold is_remote_turn in *. by rewrite Ho'.
Qed.

(** C26: In every reachable state, an acknowledgement of runtime acceptance comes after a local
    acceptance of the same command, is the only runtime acceptance of that command, and, when it
    accepts a prompt, there is a turn of the acknowledged session that originates from the command.
    *)
Theorem runtime_acceptance_is_unique_and_correlated s (Hr : reachable s) i a sid kind h
    (Hi : s.(CanonicalState.acks) !! i = Some a)
    (Ho : a.(CommandAck.outcome) = CommandOutcome.AcceptedByRuntime sid kind h) :
  (∃ j b note, (j < i)%nat ∧ s.(CanonicalState.acks) !! j = Some b ∧
     b.(CommandAck.command_id) = a.(CommandAck.command_id) ∧
     b.(CommandAck.outcome) = CommandOutcome.AcceptedLocally note) ∧
  (∀ j b sid' kind' h', s.(CanonicalState.acks) !! j = Some b →
     b.(CommandAck.command_id) = a.(CommandAck.command_id) →
     b.(CommandAck.outcome) = CommandOutcome.AcceptedByRuntime sid' kind' h' → j = i) ∧
  (kind = RuntimeAcceptanceKind.PromptTurn → ∃ k t,
     s.(CanonicalState.turns) !! k = Some t ∧ t.(Turn.session_id) = sid ∧
     t.(Turn.origin) = TurnOrigin.RemoteCommand a.(CommandAck.command_id)).
Proof.
  assert (state_wf s ∧ prompt_acks_wf s) as [Hwf Hp].
  { clear Hi. induction Hr as [|s0 e s' Hr [IHw IHp] Ha]; [split; [apply default_wf|by intros ? ? ? ?%elem_of_nil]|].
    split; [by eapply apply_wf|by eapply prompt_acks_step]. }
  destruct (wf_acks _ Hwf i a Hi) as [(j & b & Hj & Hb & Hc & Hl) Huniq]; [by rewrite Ho|]. split_and!.
  - destruct (b.(CommandAck.outcome)) as [note| | | |] eqn:E; try done. by exists j, b, note.
  - intros k y sid' kind' h' Hy Hcy Hoy. apply (Huniq k y); [done..|by rewrite Hoy].
  - intros ->. destruct (Hp a sid h) as (k & t & Hk & Hs & Hc'); [|done|].
    { apply list_elem_of_lookup. by exists i. }
    exists k, t. split_and!; try done. unfold is_remote_turn in Hc'.
    destruct t.(Turn.origin); try done. by apply bool_decide_eq_true in Hc' as ->.
Qed.

(** C20: In every reachable state, a session whose live binding claims control has an
    acknowledgement by which the very runtime it names accepted a command of that session, and a
    runtime whose capabilities permit live control has accepted some command. *)
Theorem control_requires_runtime_acceptance s (Hr : reachable s) :
  (∀ sid x, s.(CanonicalState.sessions) !! sid = Some x →
     LiveBinding_accepts_control x.(Session.live_binding) = true →
     ∃ rid ack kind h, direct_runtime_id x = Some rid ∧ ack ∈ s.(CanonicalState.acks) ∧
       ack.(CommandAck.outcome) = CommandOutcome.AcceptedByRuntime sid kind h ∧
       h.(ProviderBindingHandle.runtime_id) = rid) ∧
  (∀ rid r, s.(CanonicalState.runtimes) !! rid = Some r →
     RuntimeCapabilities_permits r.(ProviderRuntime.capabilities) Capability.LiveControl = true →
     ∃ sid ack kind h, ack ∈ s.(CanonicalState.acks) ∧
       ack.(CommandAck.outcome) = CommandOutcome.AcceptedByRuntime sid kind h ∧
       h.(ProviderBindingHandle.runtime_id) = rid).
Proof.
  destruct (wf_control _ (reachable_wf _ Hr)) as [_ _ Hcap Hbind]. split.
  - intros sid x Hx Hc. destruct (Hbind sid x Hx Hc) as (rid & ack & ? & ? & kind & h & ? & ?).
    by exists rid, ack, kind, h.
  - intros rid r Hx Hc. destruct (Hcap rid r Hx Hc) as (sid & ack & ? & kind & h & ? & ?).
    by exists sid, ack, kind, h.
Qed.

(** ** Reordering the queue *)

Lemma reorder_queue_other sid pos order q x :
  x ∉ order → reorder_queue sid pos order q !! x = q !! x.
Proof.
  revert pos q. induction order as [|y order IH]; intros pos q Hx; simpl; [done|].
  rewrite not_elem_of_cons in Hx. destruct Hx as [Hxy Hx]. rewrite IH by done.
  destruct (q !! y); [|done]. case_bool_decide; [|done]. by rewrite lookup_insert_ne.
Qed.

Lemma reorder_queue_listed sid pos order q i x e :
  NoDup order → order !! i = Some x → q !! x = Some e → e.(QueueEntry.session_id) = sid →
  reorder_queue sid pos order q !! x = Some (QueueEntry_set_position (pos + Z.of_nat i) e).
Proof.
  revert pos q i. induction order as [|y order IH]; intros pos q i Hnd Hi Hx Hs; [done|].
  rewrite NoDup_cons in Hnd. destruct Hnd as [Hy Hnd]. destruct i as [|i]; simpl in Hi |- *.
  - injection Hi as ->. rewrite Hx, (bool_decide_true _ Hs), reorder_queue_other by done.
    by rewrite lookup_insert_eq, Z.add_0_r.
  - assert (x ≠ y) as Hne by (intros ->; apply Hy, list_elem_of_lookup; by exists i).
    rewrite (IH _ _ i); [f_equal; f_equal; lia|done|done| |done].
    destruct (q !! y); [|done]. case_bool_decide; [|done]. by rewrite lookup_insert_ne.
Qed.

Lemma elem_of_queue_of s sid e :
  e ∈ queue_of s sid ↔ (∃ k, s.(CanonicalState.queue) !! k = Some e) ∧ e.(QueueEntry.session_id) = sid.
Proof.
  unfold queue_of. by rewrite elem_of_sort_by_key, elem_of_filter_b, elem_of_btree_values, bool_decide_eq_true.
Qed.

Lemma queue_of_NoDup s sid :
  queue_table_wf s.(CanonicalState.queue) → NoDup (QueueEntry.id <$> queue_of s sid).
Proof.
  intros Hq. unfold queue_of. rewrite sort_by_key_perm. by apply filter_b_fmap_NoDup, btree_values_NoDup.
Qed.

Lemma reorder_sorts (order : list QueueEntryId) (P : list QueueEntry) :
  order ≡ₚ QueueEntry.id <$> P →
  (∀ i e, e ∈ P → order !! i = Some e.(QueueEntry.id) → e.(QueueEntry.position) = Z.of_nat i) →
  QueueEntry.id <$> sort_by_key QueueEntry.position P = order.
Proof.
  intros Hperm Hpos. destruct (Permutation_map_inv _ _ Hperm) as (l & Hl & HP).
  rewrite (sort_by_key_index QueueEntry.position l P); [by symmetry| |done].
  intros i e Hi. apply Hpos; [rewrite HP; apply list_elem_of_lookup; by exists i|].
  rewrite Hl. change (map QueueEntry.id l) with (QueueEntry.id <$> l). by rewrite list_lookup_fmap, Hi.
Qed.

(** The entries of a session after an exact reorder. *)
Lemma reorder_queue_elem sid order (q : gmap QueueEntryId QueueEntry) e' :
  queue_table_wf q → NoDup order →
  (∀ x, x ∈ order → ∃ e, q !! x = Some e ∧ e.(QueueEntry.session_id) = sid) →
  (∃ k, reorder_queue sid 0 order q !! k = Some e') ↔
  (e'.(QueueEntry.id) ∉ order ∧ ∃ k, q !! k = Some e') ∨
  ∃ i e, order !! i = Some e.(QueueEntry.id) ∧ q !! e.(QueueEntry.id) = Some e ∧
         e' = QueueEntry_set_position (Z.of_nat i) e.
Proof.
  intros Hq Hnd Hall. split.
  - intros [k Hk]. destruct (decide (k ∈ order)) as [Hin|Hin].
    + right. destruct (Hall k Hin) as (e & He & Hs). apply list_elem_of_lookup in Hin as [i Hi].
      rewrite (reorder_queue_listed sid 0 order q i k e Hnd Hi He Hs) in Hk. injection Hk as <-.
      exists i, e. by rewrite (Hq k e He).
    + left. rewrite reorder_queue_other in Hk by done. rewrite (Hq k e' Hk). eauto.
  - intros [[Hn [k Hk]]|(i & e & Hi & He & ->)].
    + exists k. rewrite reorder_queue_other; [done|]. by rewrite <-(Hq k e' Hk).
    + exists e.(QueueEntry.id).
      destruct (Hall e.(QueueEntry.id)) as (e2 & He2 & Hs); [apply list_elem_of_lookup; by exists i|].
      rewrite He in He2. injection He2 as <-.
      by apply (reorder_queue_listed sid 0 order q i).
Qed.

(** Applying a reorder that the queue contract accepted makes the pending entries of the session come out
    exactly in the requested order, and leaves every other entry as it was. *)
Theorem reordered_queue_follows_order s sid order s' (Hr : reachable s)
    (Hv : validate_queue_reorder sid order (queue_of s sid) = Ok tt)
    (Ha : CanonicalState_apply s (StateEffect.QueueReordered sid order) = (s', Ok tt)) :
  reorderable_entries (queue_of s' sid) = order ∧
  ∀ k, k ∉ order → s'.(CanonicalState.queue) !! k = s.(CanonicalState.queue) !! k.
Proof.
  pose proof (wf_queue _ (reachable_wf _ Hr)) as Hq.
  apply apply_ok in Ha as (s1 & Ha & ->). injection Ha as <-.
  rewrite validate_queue_reorder_perm in Hv by (by apply queue_of_NoDup).
  assert (∀ x, x ∈ order ↔ ∃ e, s.(CanonicalState.queue) !! x = Some e ∧
            e.(QueueEntry.session_id) = sid ∧ entry_pending e = true) as Hord.
  { intros x. rewrite Hv, list_elem_of_fmap. setoid_rewrite elem_of_pending_of.
    setoid_rewrite elem_of_queue_of. split.
    - intros (e & -> & [[k Hk] _] & Hs & Hp). exists e. by rewrite (Hq k e Hk).
    - intros (e & He & Hs & Hp). exists e. rewrite (Hq x e He). eauto 10. }
  assert (NoDup order) as Hnd by (rewrite Hv; by apply filter_b_fmap_NoDup, queue_of_NoDup).
  destruct (recompute_derived_frame (CanonicalState_set_queue
    (reorder_queue sid 0 order s.(CanonicalState.queue)) s)) as (ms & mp & ->). simpl.
  split; [|intros k Hk; by apply reorder_queue_other].
  set (s2 := CanonicalState_set_projects _ _).
  assert (∀ e', e' ∈ filter_b entry_pending (queue_of s2 sid) ↔
    ∃ i e, order !! i = Some e.(QueueEntry.id) ∧ s.(CanonicalState.queue) !! e.(QueueEntry.id) = Some e ∧
           e' = QueueEntry_set_position (Z.of_nat i) e) as Helem.
  { intros e'. rewrite elem_of_filter_b, elem_of_queue_of. unfold s2. simpl.
    rewrite reorder_queue_elem; [|done|done|intros x (e & ? & ? & _)%Hord; eauto]. split.
    - intros [[[[Hn [k Hk]]|H] Hs] Hp]; [|done]. exfalso. apply Hn, Hord. exists e'.
      by rewrite (Hq k e' Hk).
    - intros (i & e & Hi & He & ->). assert (e.(QueueEntry.id) ∈ order) as Hin
        by (apply list_elem_of_lookup; by exists i).
      apply Hord in Hin as (e2 & He2 & Hs & Hp). rewrite He in He2. injection He2 as <-.
      split_and!; [right; by exists i, e|done|done]. }
  unfold reorderable_entries. apply reorder_sorts.
  - apply NoDup_Permutation; [done|apply filter_b_fmap_NoDup, queue_of_NoDup; by apply queue_table_reorder|].
    intros x. rewrite list_elem_of_fmap. setoid_rewrite Helem. split.
    + intros Hx. apply list_elem_of_lookup in Hx as Hi. destruct Hi as [i Hi].
      apply Hord in Hx as (e & He & _). pose proof (Hq x e He) as <-.
      exists (QueueEntry_set_position (Z.of_nat i) e). split; [done|]. by exists i, e.
    + intros (e' & -> & i & e & Hi & He & ->). apply list_elem_of_lookup. by exists i.
  - intros i e' (j & e & Hj & He & ->)%Helem Hi. simpl in *. by rewrite (NoDup_lookup _ _ _ _ Hnd Hi Hj).
Qed.
