(* ===== verification/CanonContent.v ===== *)
(** * Content reachable from canonical state

    [content_refs] of [state.rs] is the complete traversal that mobile reads and
    cleanup rely on.  This file shows which of the references it yields are
    private, for every state built from effects that passed
    [StateEffect::validate_for_log], and where the guarantee stops. *)
From stdpp Require Import prelude strings gmap.
From Stdlib Require Import ZArith Lia.
From S2P Require Import Prelude ProtoBase ProtoContent ProtoRuntime ProtoTurn ProtoQueue ProtoWorkflow ProtoAttention ProtoCommand ProtoEffect ProtoProjection CanonState CanonInvariants.

Local Open Scope Z_scope.

(** States reached by effects that were validated before they were applied. *)
Inductive logged : CanonicalState → Prop :=
| logged_init : logged CanonicalState_default
| logged_step s e s' :
    logged s → StateEffect_validate_for_log e = Ok tt → CanonicalState_apply s e = (s', Ok tt) → logged s'.

Lemma logged_reachable s : logged s → reachable s.
Proof. induction 1; [constructor|by econstructor]. Qed.

(** ** The bodies each table holds *)

Definition runtime_refs_ok (r : ProviderRuntime) : Prop := capabilities_ok r.(ProviderRuntime.capabilities).

Definition project_refs_ok (p : Project) : Prop :=
  ∀ b, b ∈ p.(Project.bindings) → ref_private b.(ProjectBinding.root_ref).

Definition session_refs_ok (x : Session) : Prop :=
  evidence_ok x.(Session.history_source).(HistorySource.evidence) ∧
  ∀ rid e, live_evidence x.(Session.live_binding) = Some (rid, e) → evidence_ok e.

Definition item_refs_ok (i : Item) : Prop := ∀ r, r ∈ item_content_refs i → ref_private r.

Definition attention_refs_ok (a : AttentionItem) : Prop := ∀ r, r ∈ attention_content_refs a → ref_private r.

Definition step_refs_ok (st : Step) : Prop :=
  ref_private st.(Step.assignment).(StepAssignment.worktree_ref) ∧
  ∀ t r, t ∈ st.(Step.audit) → t.(StepTransition.reason_ref) = Some r → ref_private r.

Definition diagnostic_refs_ok (d : DiagnosticRecord) : Prop :=
  ∀ r, d.(DiagnosticRecord.detail_ref) = Some r → ref_private r.

Definition ack_refs_ok (a : CommandAck) : Prop := ∀ r, ack_content_ref a = Some r → ref_private r.

Record refs_wf (s : CanonicalState) : Prop := {
  refs_runtimes : map_Forall (λ _, runtime_refs_ok) s.(CanonicalState.runtimes);
  refs_projects : map_Forall (λ _, project_refs_ok) s.(CanonicalState.projects);
  refs_sessions : map_Forall (λ _, session_refs_ok) s.(CanonicalState.sessions);
  refs_items : map_Forall (λ _, item_refs_ok) s.(CanonicalState.items);
  refs_queue : map_Forall (λ _ e, ref_private e.(QueueEntry.body)) s.(CanonicalState.queue);
  refs_attention : map_Forall (λ _, attention_refs_ok) s.(CanonicalState.attention);
  refs_steps : map_Forall (λ _, step_refs_ok) s.(CanonicalState.steps);
  refs_artifacts : map_Forall (λ _ a, ref_ok a.(Artifact.content)) s.(CanonicalState.artifacts);
  refs_diagnostics : map_Forall (λ _, diagnostic_refs_ok) s.(CanonicalState.diagnostics);
  refs_acks : ∀ a, a ∈ s.(CanonicalState.acks) → ack_refs_ok a
}.

Lemma elem_of_upsert_binding l b x : x ∈ upsert_binding l b → x ∈ l ∨ x = b.
Proof.
  induction l as [|y l IH]; simpl; [rewrite list_elem_of_singleton; auto|].
  case_bool_decide; rewrite !elem_of_cons; naive_solver.
Qed.

Lemma elem_of_merged_bindings k l x : x ∈ foldl upsert_binding l k → x ∈ l ∨ x ∈ k.
Proof.
  revert l. induction k as [|b k IH]; intros l; simpl; [auto|]. intros [H|H]%IH.
  - apply elem_of_upsert_binding in H as [H| ->]; [auto|]. right. left.
  - right. by right.
Qed.

Lemma merge_project_refs existing p :
  (∀ ex, existing = Some ex → project_refs_ok ex) → project_refs_ok p →
  project_refs_ok (merge_project existing p).
Proof.
  intros Hex Hp. destruct existing as [ex|]; [|done]. intros b [H|H]%elem_of_merged_bindings.
  - by apply (Hex ex eq_refl).
  - by apply Hp.
Qed.

Lemma Step_validate_refs st : Step_validate st = Ok tt → step_refs_ok st.
Proof.
  unfold Step_validate, StepAssignment_validate. rewrite !rbind_ok_unit, validate_sensitive_ok, try_for_each_ok.
  intros (_ & _ & [_ Hw] & Ha). split; [done|]. intros t r Ht Hr. specialize (Ha t Ht).
  unfold StepTransition_validate in Ha. rewrite rbind_ok_unit, Hr in Ha. destruct Ha as [_ Ha].
  by apply validate_sensitive_ok in Ha.
Qed.

Lemma reorder_queue_refs sid pos order q :
  map_Forall (λ _ e, ref_private e.(QueueEntry.body)) q →
  map_Forall (λ _ e, ref_private e.(QueueEntry.body)) (reorder_queue sid pos order q).
Proof.
  revert pos q. induction order as [|x order IH]; intros pos q Hq; simpl; [done|]. apply IH.
  destruct (q !! x) as [e|] eqn:E; [|done]. case_bool_decide; [|done].
  apply map_Forall_insert_2; [|done]. by apply (Hq x e).
Qed.

(** ** Preservation *)

(** The effect's own content, by the validator of its kind. *)
Ltac validated Hv :=
  simpl in Hv;
  first [ apply Project_validate_ok in Hv | apply Session_validate_shape_ok in Hv
        | apply ProviderRuntime_validate_ok in Hv | apply RuntimeCapabilities_validate_ok in Hv
        | apply QueueEntry_validate_ok in Hv | apply Step_validate_refs in Hv | idtac ].

Lemma apply_change_refs s e s' :
  refs_wf s → StateEffect_validate_for_log e = Ok tt → apply_change s e = (s', Ok tt) → refs_wf s'.
Proof.
  intros [] Hv Ha. destruct e; validated Hv; inv_change Ha.
  - done.
  - split; try done. apply map_Forall_insert_2; [apply Hv|done].
  - split; try done. apply map_Forall_insert_2; [exact Hv|done].
  - split; try done. apply map_Forall_insert_2; [|done]. apply merge_project_refs.
    + intros ex Hex. by apply (refs_projects0 _ ex Hex).
    + intros b Hb. by apply Hv.
  - split; try done. apply map_Forall_insert_2; [|done].
    assert (session_refs_ok session) as Hs by (split; [apply Hv|intros rid e He; by apply (session_ok_live _ Hv rid e)]).
    by destruct (s.(CanonicalState.sessions) !! _).
  - done.
  - by apply apply_turn_ok in Ha as (m & _ & _ & -> & _).
  - unfold apply_item in Ha. destruct (s.(CanonicalState.turns) !! _); [|done].
    destruct (contract _); [|done]. injection Ha as <-. split; try done.
    apply map_Forall_insert_2; [|done]. intros r. by apply Item_validate_refs.
  - split; try done. apply map_Forall_insert_2; [apply Hv|done].
  - split; try done. by apply reorder_queue_refs.
  - split; try done. apply map_Forall_insert_2; [|done].
    intros r. by apply AttentionItem_validate_refs.
  - done.
  - split; try done. by apply map_Forall_insert_2.
  - split; try done. apply map_Forall_insert_2; [|done].
    unfold Artifact_validate in Hv. rewrite !rbind_ok_unit, ContentRef_validate_ok in Hv. by apply Hv.
  - apply apply_ack_ok in Ha as [-> _]. split; try done. simpl.
    intros a [Hin| ->%list_elem_of_singleton]%elem_of_app; [auto|].
    intros r. by apply CommandAck_validate_refs.
  - split; try done. apply map_Forall_insert_2; [|done].
    unfold DiagnosticRecord_validate in Hv. rewrite !rbind_ok_unit, if_some_ok in Hv.
    destruct Hv as (_ & _ & Hv). intros r Hr. by eapply ContentRef_ensure_sensitive_ok, Hv.
Qed.

Lemma recompute_derived_refs s : refs_wf s → refs_wf (recompute_derived s).
Proof.
  intros []. rewrite recompute_derived_eq. split; try done; simpl; intros k y; rewrite map_lookup_imap.
  - destruct (s.(CanonicalState.projects) !! k) as [p|] eqn:E; [|done]. intros [= <-].
    by apply (refs_projects0 k p).
  - destruct (s.(CanonicalState.sessions) !! k) as [x|] eqn:E; [|done]. intros [= <-].
    by apply (refs_sessions0 k x).
Qed.

Lemma logged_refs s : logged s → refs_wf s.
Proof.
  induction 1 as [|s e s' _ IH Hv Ha].
  - split; try apply map_Forall_empty. by intros a ?%elem_of_nil.
  - apply apply_ok in Ha as (s1 & Ha & ->). by eapply recompute_derived_refs, apply_change_refs.
Qed.

(** ** What the traversal yields *)

(** Where a reference may come from that is not private: an artifact's body,
    which is only required to be valid, and the detail of a turn's error, which
    no validator inspects. *)
Definition from_artifact (s : CanonicalState) (r : ContentRef) : Prop :=
  ∃ k a, s.(CanonicalState.artifacts) !! k = Some a ∧ r = a.(Artifact.content) ∧ ref_ok r.

Definition from_turn_error (s : CanonicalState) (r : ContentRef) : Prop :=
  ∃ k t err, s.(CanonicalState.turns) !! k = Some t ∧ t.(Turn.error) = Some err ∧
             err.(CanonicalError.detail_ref) = Some r.

Lemma elem_of_table_bind {K V B} `{Countable K, OrdKey K} (m : gmap K V) (f : V → list B) y :
  y ∈ btree_values m ≫= f ↔ ∃ k v, m !! k = Some v ∧ y ∈ f v.
Proof. rewrite list_elem_of_bind. setoid_rewrite elem_of_btree_values. naive_solver. Qed.

Lemma elem_of_table_fmap {K V B} `{Countable K, OrdKey K} (m : gmap K V) (f : V → B) y :
  y ∈ f <$> btree_values m ↔ ∃ k v, m !! k = Some v ∧ y = f v.
Proof. rewrite list_elem_of_fmap. setoid_rewrite elem_of_btree_values. naive_solver. Qed.

Lemma session_notes_private x r :
  session_refs_ok x →
  r ∈ option_list x.(Session.history_source).(HistorySource.evidence).(CapabilityEvidence.note_ref) ++
      option_list match x.(Session.live_binding) with
                  | LiveBinding.Observing _ _ evidence | LiveBinding.Controlling _ _ evidence =>
                      evidence.(CapabilityEvidence.note_ref)
                  | LiveBinding.NotBound _ | LiveBinding.Blocked _ => None
                  end → ref_private r.
Proof.
  intros [Hh Hl]. rewrite elem_of_app, !elem_of_option_list. intros [Hr|Hr]; [by apply Hh|].
  destruct x.(Session.live_binding) as [|rid ? e|rid ? e|]; try done; by apply (Hl rid e).
Qed.

Lemma content_refs_private s r :
  refs_wf s → r ∈ content_refs s → ref_private r ∨ from_artifact s r ∨ from_turn_error s r.
Proof.
  intros [Hrt Hpj Hse Hit Hqu Hat Hst Har Hdi Hak]. unfold content_refs.
  rewrite !elem_of_app, !elem_of_table_bind, !elem_of_table_fmap, !elem_of_filter_map.
  intros [H|[H|[H|[H|[H|[H|[H|[H|[H|[H|H]]]]]]]]]].
  - left. destruct H as (k & rt & Hk & (e & He & Hr)%elem_of_filter_map). 
    destruct (capabilities_ok_entries _ (Hrt k rt Hk) e He) as [Hev _]. by apply Hev.
  - left. destruct H as (k & p & Hk & (b & -> & Hb)%list_elem_of_fmap). by apply (Hpj k p Hk).
  - left. destruct H as (k & x & Hk & Hr). by eapply session_notes_private, Hr; apply (Hse k x Hk).
  - right. right. destruct H as (k & t & Hk & (err & Ht%elem_of_option_list & Hr)%elem_of_filter_map).
    by exists k, t, err.
  - left. destruct H as (k & i & Hk & Hr). by apply (Hit k i Hk).
  - left. destruct H as (k & e & Hk & ->). by apply (Hqu k e Hk).
  - left. destruct H as (k & a & Hk & Hr). by apply (Hat k a Hk).
  - left. destruct H as (k & st & Hk & Hr). destruct (Hst k st Hk) as [Hw Ha].
    apply elem_of_cons in Hr as [->|(t & Ht & Hr)%elem_of_filter_map]; [done|by apply (Ha t r)].
  - right. left. destruct H as (k & a & Hk & ->). exists k, a. split_and!; [done..|]. by apply (Har k a Hk).
  - left. destruct H as (d & [k Hk]%elem_of_btree_values & Hr). by apply (Hdi k d Hk).
  - left. destruct H as (a & Ha & Hr). by apply (Hak a Ha).
Qed.

(** C36: Every content reference reachable from a state built from loggable effects is sensitive,
    has no preview, is not inline and has a well-formed digest, except the content of a workflow
    artifact and the detail of a turn error. *)
Theorem reachable_content_is_private s (Hl : logged s) r (Hr : r ∈ content_refs s) :
  (r.(ContentRef.sensitivity) = Sensitivity.Sensitive ∧ r.(ContentRef.preview) = None ∧
   r.(ContentRef.availability) ≠ ContentAvailability.Inline ∧ digest_ok r.(ContentRef.digest)) ∨
  from_artifact s r ∨ from_turn_error s r.
Proof.
  destruct (content_refs_private s r (logged_refs s Hl) Hr) as [Hp|H]; [left|by right].
  destruct (ref_private_hidden r Hp) as (? & ? & _). destruct Hp as [[] ?]. done.
Qed.

(** ** Where the guarantees stop *)

Definition sample_digest : string :=
  "sha256:0123456789abcdef0123456789abcdef0123456789abcdef0123456789abcdef".

Definition sample_ref (cid : string) (sensitivity : Sensitivity) (preview : option string) : ContentRef :=
  ContentRef.mk (mkId cid) ContentKind.PlainText 12 sample_digest preview sensitivity ContentAvailability.Stored.

Definition sample_error (detail : ContentRef) : CanonicalError :=
  CanonicalError.mk ErrorCode.Internal false (Some detail) 5.

(** A failed turn whose error detail is readable in the clear. *)
Definition leaky_turn : Turn :=
  Turn.mk (mkId "trn_1") (mkId "ses_1") TurnStatus.Failed TurnOrigin.LocalSurface (Some 1) (Some 5) []
    (Some (sample_error (sample_ref "cnt_detail" Sensitivity.Business (Some "disk full on build host")))) None.

(** A turn whose error carries a detail reference with a readable preview, which the validation of the error
    itself refuses, is loggable and applied, and the preview is reachable from the state. *)
Theorem turn_error_detail_is_not_validated :
  StateEffect_validate_for_log (StateEffect.TurnUpserted leaky_turn) = Ok tt ∧
  (∀ err, leaky_turn.(Turn.error) = Some err →
     CanonicalError_validate err =
       Err (ContractViolation.SensitiveContentRequired "canonical_error.detail_ref")) ∧
  ∃ s, CanonicalState_apply CanonicalState_default (StateEffect.TurnUpserted leaky_turn) = (s, Ok tt) ∧
    ∃ r, content_ref s (mkId "cnt_detail") = Some r ∧ r.(ContentRef.preview) = Some "disk full on build host".
Proof.
  split_and!.
  - vm_compute. reflexivity.
  - intros err [= <-]. vm_compute. reflexivity.
  - eexists. split; [reflexivity|]. eexists. vm_compute. split; reflexivity.
Qed.

(** A queue entry that was rejected with a private error detail. *)
Definition rejected_entry : QueueEntry :=
  QueueEntry.mk (mkId "que_1") (mkId "ses_1") 0 QueueIntent.NewTurn
    (sample_ref "cnt_body" Sensitivity.Sensitive None)
    (QueueState.Rejected (sample_error (sample_ref "cnt_detail" Sensitivity.Sensitive None))) false 1 2.

(** The detail reference of a rejected queue entry is stored in the state but missing from the traversal of
    content references, which therefore does not protect its body. *)
Theorem rejected_queue_detail_is_not_traversed :
  StateEffect_validate_for_log (StateEffect.QueueEntryUpserted rejected_entry) = Ok tt ∧
  ∃ s, CanonicalState_apply CanonicalState_default (StateEffect.QueueEntryUpserted rejected_entry) = (s, Ok tt) ∧
    s.(CanonicalState.queue) !! mkId "que_1" = Some rejected_entry ∧
    is_Some (content_ref s (mkId "cnt_body")) ∧ content_ref s (mkId "cnt_detail") = None.
Proof.
  split; [vm_compute; reflexivity|]. eexists. split; [reflexivity|]. vm_compute. by eauto.
Qed.

