(* ===== verification/ReadModelBuild.v ===== *)
(** * Building the read models

    Models [crates/kaleido-state/src/projection.rs]: how each subscriber view is
    selected from canonical state, and the fan-out from an effect to the
    projection keys it may change. *)
From stdpp Require Import prelude strings gmap.
From Stdlib Require Import ZArith Lia.
From S2P Require Import Prelude ProtoBase ProtoContent ProtoRuntime ProtoTurn ProtoQueue ProtoWorkflow ProtoAttention ProtoCommand ProtoEffect ProtoProjection CanonState CanonInvariants.

Local Open Scope Z_scope.

(** ** The names of the views *)

Module ProjectionName.
Inductive ProjectionName : Type :=
| ProjectIndex
| SessionIndex
| Transcript
| LiveActivity
| InputQueue
| AttentionInbox
| RuntimeCapability
| WorkflowBoard.
End ProjectionName.
Abbreviation ProjectionName := ProjectionName.ProjectionName.

#[export] Instance ProjectionName_eq_dec : EqDecision ProjectionName.
Proof. solve_decision. Defined.

Definition ProjectionName_ALL : list ProjectionName :=
  [ProjectionName.ProjectIndex; ProjectionName.SessionIndex; ProjectionName.Transcript;
   ProjectionName.LiveActivity; ProjectionName.InputQueue; ProjectionName.AttentionInbox;
   ProjectionName.RuntimeCapability; ProjectionName.WorkflowBoard].

Definition ProjectionName_as_str (name : ProjectionName) : string :=
  match name with
  | ProjectionName.ProjectIndex => "project-index"
  | ProjectionName.SessionIndex => "session-index"
  | ProjectionName.Transcript => "transcript"
  | ProjectionName.LiveActivity => "live-activity"
  | ProjectionName.InputQueue => "input-queue"
  | ProjectionName.AttentionInbox => "attention-inbox"
  | ProjectionName.RuntimeCapability => "runtime-capability"
  | ProjectionName.WorkflowBoard => "workflow-board"
  end.

Definition ProjectionName_parse (text : string) : option ProjectionName :=
  if bool_decide (text = "project-index") then Some ProjectionName.ProjectIndex
  else if bool_decide (text = "session-index") then Some ProjectionName.SessionIndex
  else if bool_decide (text = "transcript") then Some ProjectionName.Transcript
  else if bool_decide (text = "live-activity") then Some ProjectionName.LiveActivity
  else if bool_decide (text = "input-queue") then Some ProjectionName.InputQueue
  else if bool_decide (text = "attention-inbox") then Some ProjectionName.AttentionInbox
  else if bool_decide (text = "runtime-capability") then Some ProjectionName.RuntimeCapability
  else if bool_decide (text = "workflow-board") then Some ProjectionName.WorkflowBoard
  else None.

(** ** The views *)

(** The projects with a binding to one of the runtimes. *)
Definition group_projects (s : CanonicalState) (runtime_ids : list ProviderRuntimeId) : list ProjectSummary :=
  filter_map (λ project,
    let bindings :=
      (λ binding, ProjectBindingSummary.mk binding.(ProjectBinding.id) binding.(ProjectBinding.runtime_id)) <$>
      filter_b (λ binding, contains_b binding.(ProjectBinding.runtime_id) runtime_ids)
               project.(Project.bindings) in
    if bool_decide (bindings = []) then None
    else Some (ProjectSummary.mk project.(Project.id) project.(Project.display_name) bindings
                 project.(Project.session_counts) project.(Project.attention_count)
                 project.(Project.workflow_count) project.(Project.last_activity_at_ms)))
    (btree_values s.(CanonicalState.projects)).

Definition family_runtimes (s : CanonicalState) (host_id : HostId) (family : ProviderFamily)
    : list ProviderRuntimeId :=
  ProviderRuntime.id <$>
  filter_b (λ runtime, bool_decide (runtime.(ProviderRuntime.host_id) = host_id)
                       && bool_decide (runtime.(ProviderRuntime.family) = family))
           (btree_values s.(CanonicalState.runtimes)).

Definition project_index (s : CanonicalState) (host_id : HostId) : result ProjectIndexView StateError :=
  let? host := ok_or (find_first (λ host, bool_decide (host.(Host.id) = host_id))
                                 (btree_values s.(CanonicalState.hosts)))
                     (StateError.UnknownHostId host_id) in
  Ok (ProjectIndexView.mk host.(Host.id) host.(Host.reachability)
    (filter_map (λ family,
       let runtime_ids := family_runtimes s host_id family in
       if bool_decide (runtime_ids = []) then None
       else Some (ProviderGroup.mk family runtime_ids (group_projects s runtime_ids)))
       [ProviderFamily.Codex; ProviderFamily.ClaudeCode; ProviderFamily.OpenCode; ProviderFamily.Acp])).

Definition summarise (session : Session) : SessionSummary :=
  SessionSummary.mk session.(Session.id) session.(Session.project_binding_id) session.(Session.title)
    session.(Session.status) session.(Session.ownership) session.(Session.live_binding)
    session.(Session.queue_depth) session.(Session.open_attention_count) session.(Session.last_activity_at_ms).

(** The three bins of [session_index]. *)
Definition session_is_current (session : Session) : bool :=
  SessionStatus_is_active session.(Session.status) || SessionStatus_waits_for_human session.(Session.status).

Definition index_session (view : SessionIndexView) (session : Session) : SessionIndexView :=
  let summary := summarise session in
  if session.(Session.archived)
  then SessionIndexView.mk view.(SessionIndexView.project_id) view.(SessionIndexView.active)
         view.(SessionIndexView.history) (view.(SessionIndexView.archived) ++ [summary])
  else if session_is_current session
  then SessionIndexView.mk view.(SessionIndexView.project_id) (view.(SessionIndexView.active) ++ [summary])
         view.(SessionIndexView.history) view.(SessionIndexView.archived)
  else SessionIndexView.mk view.(SessionIndexView.project_id) view.(SessionIndexView.active)
         (view.(SessionIndexView.history) ++ [summary]) view.(SessionIndexView.archived).

Definition session_index (s : CanonicalState) (project_id : ProjectId) : SessionIndexView :=
  foldl index_session (SessionIndexView.mk project_id [] [] [])
    (filter_b (λ session, bool_decide (session.(Session.project_id) = project_id))
              (btree_values s.(CanonicalState.sessions))).

Definition require_session (s : CanonicalState) (session_id : SessionId) : result Session StateError :=
  ok_or (s.(CanonicalState.sessions) !! session_id) (StateError.UnknownSession session_id).

Definition transcript_turn (s : CanonicalState) (turn : Turn) : TranscriptTurn :=
  TranscriptTurn.mk turn (filter_map (λ item_id, s.(CanonicalState.items) !! item_id) turn.(Turn.item_ids)).

Definition transcript (s : CanonicalState) (session_id : SessionId) : result TranscriptView StateError :=
  require_session s session_id ;?
  Ok (TranscriptView.mk session_id (transcript_turn s <$> turns_of s session_id) false).

Definition live_activity (s : CanonicalState) (session_id : SessionId) : result LiveActivityView StateError :=
  let? session := require_session s session_id in
  let streaming_item_ids :=
    match session.(Session.active_turn_id) with
    | Some active_turn_id =>
        Item.id <$> filter_b (λ item, bool_decide (item.(Item.turn_id) = active_turn_id)
                                      && bool_decide (item.(Item.status) = ItemStatus.InProgress))
                             (items_of s session_id)
    | None => []
    end in
  let '(plan, tasks) :=
    foldl (λ '(plan, tasks) item,
      match item.(Item.body) with
      | ItemBody.PlanUpdate entries => (entries, tasks)
      | ItemBody.TaskUpdate updated => (plan, updated)
      | _ => (plan, tasks)
      end) ([], []) (items_of s session_id) in
  Ok (LiveActivityView.mk session_id session.(Session.active_turn_id) streaming_item_ids plan tasks
        session.(Session.last_activity_at_ms)).

Definition input_queue (s : CanonicalState) (session_id : SessionId) : result InputQueueView StateError :=
  let? session := require_session s session_id in
  Ok (InputQueueView.mk session_id (queue_of s session_id)
        (negb session.(Session.archived) && bool_decide (session.(Session.status) ≠ SessionStatus.Offline))
        (is_some_and (capabilities_of s session)
           (λ capabilities, RuntimeCapabilities_permits capabilities Capability.TurnSteer))).

Definition attention_inbox (s : CanonicalState) (host_id : HostId) : AttentionInboxView :=
  AttentionInboxView.mk
    (sort_by_key (λ entry, default i64_max entry.(AttentionItem.expires_at_ms))
       (filter_b (λ entry, AttentionState_is_open entry.(AttentionItem.state))
          (filter_b (λ entry, bool_decide (entry.(AttentionItem.host_id) = host_id)) (attention_entries s)))).

Definition unavailable_runtime_blockers (step : Step) (dependency_states : list (StepId * StepState))
    (gate_open : bool) : list StepBlocker :=
  (if bool_decide (step.(Step.state) ≠ StepState.Ready)
   then [StepBlocker.NotSchedulable step.(Step.state)] else []) ++
  filter_map (λ dependency,
    if existsb (λ '(id, state), bool_decide (id = dependency) && step_done state) dependency_states
    then None else Some (StepBlocker.DependencyIncomplete dependency)) step.(Step.depends_on) ++
  (StepBlocker.CapabilityNotSupported <$>
     step.(Step.assignment).(StepAssignment.selector).(RuntimeSelector.required)) ++
  (if gate_open then match step.(Step.human_gate) with
                     | Some attention_id => [StepBlocker.HumanGateOpen attention_id]
                     | None => []
                     end else []).

(** The runtime a step is assigned to, through the binding of its project. *)
Definition step_runtime (s : CanonicalState) (project : option Project) (step : Step) : option ProviderRuntime :=
  binding ← (project ← project;
             find_first (λ binding, bool_decide (binding.(ProjectBinding.id)
                                      = step.(Step.assignment).(StepAssignment.project_binding_id)))
                        project.(Project.bindings));
  s.(CanonicalState.runtimes) !! binding.(ProjectBinding.runtime_id).

Definition dependency_states_of (s : CanonicalState) (step : Step) : list (StepId * StepState) :=
  filter_map (λ dependency_id,
    (λ dependency, (dependency.(Step.id), dependency.(Step.state))) <$>
    s.(CanonicalState.steps) !! dependency_id) step.(Step.depends_on).

Definition gate_is_open (s : CanonicalState) (step : Step) : bool :=
  is_some_and (attention_id ← step.(Step.human_gate); s.(CanonicalState.attention) !! attention_id)
    (λ attention, AttentionState_is_open attention.(AttentionItem.state)).

Definition board_step (s : CanonicalState) (project : option Project) (step : Step) : WorkflowBoardStep :=
  let dependency_states := dependency_states_of s step in
  let gate_open := gate_is_open s step in
  WorkflowBoardStep.mk step.(Step.id) step.(Step.title) step.(Step.state) step.(Step.depends_on)
    step.(Step.assignment) step.(Step.session_id)
    match step_runtime s project step with
    | Some runtime => Step_blockers step dependency_states runtime.(ProviderRuntime.capabilities) gate_open
    | None => unavailable_runtime_blockers step dependency_states gate_open
    end.

Definition workflow_board (s : CanonicalState) (workflow_id : WorkflowId) : result WorkflowBoardView StateError :=
  let? workflow := ok_or (s.(CanonicalState.workflows) !! workflow_id)
                         (StateError.UnknownWorkflow workflow_id) in
  let project := s.(CanonicalState.projects) !! workflow.(Workflow.project_id) in
  Ok (WorkflowBoardView.mk workflow.(Workflow.id) workflow.(Workflow.state)
        (filter_map (λ step_id, board_step s project <$> s.(CanonicalState.steps) !! step_id)
                    workflow.(Workflow.step_ids))
        (artifacts_of s workflow_id)).

Definition runtime_capability (s : CanonicalState) (runtime_id : ProviderRuntimeId)
    : result RuntimeCapabilityView StateError :=
  let? runtime := ok_or (s.(CanonicalState.runtimes) !! runtime_id) (StateError.UnknownRuntime runtime_id) in
  Ok (RuntimeCapabilityView_from_capabilities runtime.(ProviderRuntime.host_id)
        runtime.(ProviderRuntime.capabilities)).

(** The payload of a key, before it is validated against the key. *)
Definition view_of (s : CanonicalState) (key : ProjectionKey) : result ProjectionPayload StateError :=
  match key with
  | ProjectionKey.ProjectIndex host_id =>
      let? view := project_index s host_id in Ok (ProjectionPayload.ProjectIndex view)
  | ProjectionKey.SessionIndex project_id => Ok (ProjectionPayload.SessionIndex (session_index s project_id))
  | ProjectionKey.Transcript session_id =>
      let? view := transcript s session_id in Ok (ProjectionPayload.Transcript view)
  | ProjectionKey.LiveActivity session_id =>
      let? view := live_activity s session_id in Ok (ProjectionPayload.LiveActivity view)
  | ProjectionKey.InputQueue session_id =>
      let? view := input_queue s session_id in Ok (ProjectionPayload.InputQueue view)
  | ProjectionKey.AttentionInbox host_id => Ok (ProjectionPayload.AttentionInbox (attention_inbox s host_id))
  | ProjectionKey.WorkflowBoard workflow_id =>
      let? view := workflow_board s workflow_id in Ok (ProjectionPayload.WorkflowBoard view)
  | ProjectionKey.RuntimeCapability _ runtime_id =>
      let? view := runtime_capability s runtime_id in Ok (ProjectionPayload.RuntimeCapability view)
  end.

Definition build_projection (s : CanonicalState) (key : ProjectionKey) : result ProjectionPayload StateError :=
  let? payload := view_of s key in
  contract (ProjectionPayload_validate_for_key payload key) ;?
  Ok payload.

(** ** The fan-out from an effect to the keys it may change *)

(** [if !keys.contains(&key) { keys.push(key) }] *)
Definition push_unique (keys : list ProjectionKey) (key : ProjectionKey) : list ProjectionKey := push_new keys key.

Definition push_host_roots (keys : list ProjectionKey) (host_id : HostId) : list ProjectionKey :=
  push_unique (push_unique keys (ProjectionKey.ProjectIndex host_id)) (ProjectionKey.AttentionInbox host_id).

Definition project_host_ids (s : CanonicalState) (project_id : ProjectId) : list HostId :=
  match s.(CanonicalState.projects) !! project_id with
  | None => []
  | Some project =>
      foldl (λ host_ids binding,
        match s.(CanonicalState.runtimes) !! binding.(ProjectBinding.runtime_id) with
        | Some runtime => push_new host_ids runtime.(ProviderRuntime.host_id)
        | None => host_ids
        end) [] project.(Project.bindings)
  end.

Definition push_project (s : CanonicalState) (project_id : ProjectId) (keys : list ProjectionKey)
    : list ProjectionKey :=
  foldl (λ keys host_id, push_unique keys (ProjectionKey.ProjectIndex host_id)) keys (project_host_ids s project_id).

Definition push_session (s : CanonicalState) (session : Session) (keys : list ProjectionKey)
    : list ProjectionKey :=
  push_project s session.(Session.project_id)
    (foldl push_unique keys
       [ProjectionKey.SessionIndex session.(Session.project_id); ProjectionKey.Transcript session.(Session.id);
        ProjectionKey.LiveActivity session.(Session.id); ProjectionKey.InputQueue session.(Session.id)]).

(** [if let Some(session) = state.session(id) { push_session(...) }] *)
Definition push_session_id (s : CanonicalState) (session_id : SessionId) (keys : list ProjectionKey)
    : list ProjectionKey :=
  match s.(CanonicalState.sessions) !! session_id with
  | Some session => push_session s session keys
  | None => keys
  end.

Definition push_attention (s : CanonicalState) (item : AttentionItem) (keys : list ProjectionKey)
    : list ProjectionKey :=
  let keys := push_unique keys (ProjectionKey.AttentionInbox item.(AttentionItem.host_id)) in
  let keys := push_project s item.(AttentionItem.project_id) keys in
  match item.(AttentionItem.session_id) with
  | Some session_id => push_session_id s session_id keys
  | None => keys
  end.

Definition push_runtime_sessions (s : CanonicalState) (runtime_id : ProviderRuntimeId)
    (keys : list ProjectionKey) : list ProjectionKey :=
  foldl (λ keys session,
    if is_some_and (runtime_of s session) (λ runtime, bool_decide (runtime.(ProviderRuntime.id) = runtime_id))
    then push_session s session keys else keys) keys (btree_values s.(CanonicalState.sessions)).

Definition push_project_workflows (s : CanonicalState) (project_id : ProjectId) (keys : list ProjectionKey)
    : list ProjectionKey :=
  foldl (λ keys workflow, push_unique keys (ProjectionKey.WorkflowBoard workflow.(Workflow.id))) keys
    (filter_b (λ workflow, bool_decide (workflow.(Workflow.project_id) = project_id))
              (btree_values s.(CanonicalState.workflows))).

Definition push_runtime_workflows (s : CanonicalState) (runtime_id : ProviderRuntimeId)
    (keys : list ProjectionKey) : list ProjectionKey :=
  foldl (λ keys project,
    if existsb (λ binding, bool_decide (binding.(ProjectBinding.runtime_id) = runtime_id)) project.(Project.bindings)
    then push_project_workflows s project.(Project.id) keys else keys) keys
    (btree_values s.(CanonicalState.projects)).

Definition push_all_workflows (s : CanonicalState) (keys : list ProjectionKey) : list ProjectionKey :=
  foldl (λ keys workflow, push_unique keys (ProjectionKey.WorkflowBoard workflow.(Workflow.id))) keys
    (btree_values s.(CanonicalState.workflows)).

Definition fanout_runtime (before after : CanonicalState) (runtime : ProviderRuntime) : list ProjectionKey :=
  let rid := runtime.(ProviderRuntime.id) in
  let keys := match before.(CanonicalState.runtimes) !! rid with
              | Some previous => push_unique [] (ProjectionKey.ProjectIndex previous.(ProviderRuntime.host_id))
              | None => []
              end in
  let keys := push_unique keys (ProjectionKey.ProjectIndex runtime.(ProviderRuntime.host_id)) in
  let keys := push_unique keys (ProjectionKey.RuntimeCapability runtime.(ProviderRuntime.host_id) rid) in
  let keys := push_runtime_sessions before rid keys in
  let keys := push_runtime_sessions after rid keys in
  let keys := push_runtime_workflows before rid keys in
  push_runtime_workflows after rid keys.

Definition fanout_capabilities (after : CanonicalState) (capabilities : RuntimeCapabilities)
    : list ProjectionKey :=
  let rid := capabilities.(RuntimeCapabilities.runtime_id) in
  let keys := match after.(CanonicalState.runtimes) !! rid with
              | Some runtime => push_unique [] (ProjectionKey.RuntimeCapability runtime.(ProviderRuntime.host_id)
                                                  runtime.(ProviderRuntime.id))
              | None => []
              end in
  push_runtime_workflows after rid (push_runtime_sessions after rid keys).

Definition fanout_project (before after : CanonicalState) (project_id : ProjectId) : list ProjectionKey :=
  let keys := push_project after project_id (push_project before project_id []) in
  let keys := push_unique keys (ProjectionKey.SessionIndex project_id) in
  push_project_workflows after project_id (push_project_workflows before project_id keys).

Definition fanout_artifact (before : CanonicalState) (artifact : Artifact) : list ProjectionKey :=
  let keys := foldl (λ keys workflow,
    if existsb (λ existing, bool_decide (existing.(Artifact.id) = artifact.(Artifact.id)))
               (artifacts_of before workflow.(Workflow.id))
    then push_unique keys (ProjectionKey.WorkflowBoard workflow.(Workflow.id)) else keys) []
    (btree_values before.(CanonicalState.workflows)) in
  push_unique keys (ProjectionKey.WorkflowBoard artifact.(Artifact.workflow_id)).

Definition affected_keys (before after : CanonicalState) (effect : StateEffect) : list ProjectionKey :=
  match effect with
  | StateEffect.HostUpserted host => push_host_roots [] host.(Host.id)
  | StateEffect.RuntimeUpserted runtime => fanout_runtime before after runtime
  | StateEffect.CapabilitiesUpdated capabilities => fanout_capabilities after capabilities
  | StateEffect.ProjectUpserted project => fanout_project before after project.(Project.id)
  | StateEffect.SessionUpserted session =>
      push_session_id after session.(Session.id) (push_session_id before session.(Session.id) [])
  | StateEffect.SessionStatusChanged session_id _ => push_session_id after session_id []
  | StateEffect.TurnUpserted turn => push_session_id after turn.(Turn.session_id) []
  | StateEffect.ItemUpserted item =>
      let keys := match before.(CanonicalState.items) !! item.(Item.id) with
                  | Some previous => push_session_id before previous.(Item.session_id) []
                  | None => []
                  end in
      push_session_id after item.(Item.session_id) keys
  | StateEffect.QueueEntryUpserted entry =>
      let keys := match before.(CanonicalState.queue) !! entry.(QueueEntry.id) with
                  | Some previous => push_session_id before previous.(QueueEntry.session_id) []
                  | None => []
                  end in
      push_session_id after entry.(QueueEntry.session_id) keys
  | StateEffect.QueueReordered session_id _ => push_session_id after session_id []
  | StateEffect.AttentionUpserted item =>
      let keys := match before.(CanonicalState.attention) !! item.(AttentionItem.id) with
                  | Some previous => push_attention before previous []
                  | None => []
                  end in
      push_all_workflows after (push_attention after item keys)
  | StateEffect.WorkflowUpserted workflow =>
      let keys := match before.(CanonicalState.workflows) !! workflow.(Workflow.id) with
                  | Some previous => push_project before previous.(Workflow.project_id) []
                  | None => []
                  end in
      push_unique (push_project after workflow.(Workflow.project_id) keys)
                  (ProjectionKey.WorkflowBoard workflow.(Workflow.id))
  | StateEffect.StepUpserted step =>
      let keys := match before.(CanonicalState.steps) !! step.(Step.id) with
                  | Some previous => push_unique [] (ProjectionKey.WorkflowBoard previous.(Step.workflow_id))
                  | None => []
                  end in
      push_unique keys (ProjectionKey.WorkflowBoard step.(Step.workflow_id))
  | StateEffect.ArtifactUpserted artifact => fanout_artifact before artifact
  | StateEffect.CommandAcknowledged _ | StateEffect.DiagnosticRecorded _ => []
  end.

(** ** The fan-out lists a key once *)

Lemma foldl_preserves {A B} (P : A → Prop) (f : A → B → A) l a :
  (∀ a b, P a → P (f a b)) → P a → P (foldl f a l).
Proof. intros Hf. revert a. induction l as [|b l IH]; intros a Ha; simpl; [done|]. by apply IH, Hf. Qed.

Lemma NoDup_push_project s pid keys : NoDup keys → NoDup (push_project s pid keys).
Proof. apply foldl_preserves. intros k h. apply NoDup_push_new. Qed.

Lemma NoDup_push_session s session keys : NoDup keys → NoDup (push_session s session keys).
Proof. intros H. apply NoDup_push_project, foldl_preserves; [|done]. intros. by apply NoDup_push_new. Qed.

Lemma NoDup_push_session_id s sid keys : NoDup keys → NoDup (push_session_id s sid keys).
Proof. unfold push_session_id. destruct (_ !! sid); [apply NoDup_push_session|done]. Qed.

Lemma NoDup_push_attention s item keys : NoDup keys → NoDup (push_attention s item keys).
Proof.
  intros H. unfold push_attention. destruct (item.(AttentionItem.session_id)); [apply NoDup_push_session_id|];
    by apply NoDup_push_project, NoDup_push_new.
Qed.

Lemma NoDup_push_workflows keys (l : list Workflow) :
  NoDup keys →
  NoDup (foldl (λ keys workflow, push_unique keys (ProjectionKey.WorkflowBoard workflow.(Workflow.id))) keys l).
Proof. apply foldl_preserves. intros. by apply NoDup_push_new. Qed.

Lemma NoDup_push_runtime_sessions s rid keys : NoDup keys → NoDup (push_runtime_sessions s rid keys).
Proof. apply foldl_preserves. intros k x Hk. destruct (is_some_and _ _); [by apply NoDup_push_session|done]. Qed.

Lemma NoDup_push_runtime_workflows s rid keys : NoDup keys → NoDup (push_runtime_workflows s rid keys).
Proof. apply foldl_preserves. intros k p Hk. destruct (existsb _ _); [by apply NoDup_push_workflows|done]. Qed.

Create HintDb fanout.
#[export] Hint Resolve NoDup_nil_2 NoDup_push_new NoDup_push_project NoDup_push_session NoDup_push_session_id
  NoDup_push_attention NoDup_push_workflows NoDup_push_runtime_sessions NoDup_push_runtime_workflows : fanout.

Lemma affected_keys_NoDup before after effect : NoDup (affected_keys before after effect).
Proof.
  destruct effect as [host|runtime|caps|project|session|sid st|turn|item|entry|sid order|item|ack|diag|wf|step|artifact];
    simpl; unfold push_host_roots, fanout_runtime, fanout_capabilities, fanout_project, fanout_artifact, push_unique,
      push_project_workflows, push_all_workflows;
    repeat match goal with |- context [match ?o with Some _ => _ | None => _ end] => destruct o end;
    eauto 12 with fanout.
  apply NoDup_push_new, foldl_preserves; [|constructor]. intros k w Hk.
  destruct (existsb _ _); [by apply NoDup_push_new|done].
Qed.

(** ** What the views select *)

(** Every session of the project is in exactly one of the three lists, and each
    list keeps the order of the sessions. *)
Lemma index_session_fold l view :
  foldl index_session view l =
  SessionIndexView.mk view.(SessionIndexView.project_id)
    (view.(SessionIndexView.active) ++
       (summarise <$> filter_b (λ x, negb x.(Session.archived) && session_is_current x) l))
    (view.(SessionIndexView.history) ++
       (summarise <$> filter_b (λ x, negb x.(Session.archived) && negb (session_is_current x)) l))
    (view.(SessionIndexView.archived) ++ (summarise <$> filter_b Session.archived l)).
Proof.
  revert view. induction l as [|x l IH]; intros view; simpl; [by rewrite !app_nil_r; destruct view|].
  rewrite IH. unfold index_session. destruct (x.(Session.archived)), (session_is_current x);
    simpl; by rewrite <-?app_assoc.
Qed.
