(* ===== verification/ReadModelFanout.v ===== *)
(** * What the read models show, and when they are refreshed

    Theorems on [ReadModelBuild.v]: the selections of the session index, the
    attention inbox and the workflow board, and how far the fan-out of an effect
    reaches the views that it changes. *)
From stdpp Require Import prelude strings gmap sorting.
From Stdlib Require Import ZArith Lia.
From S2P Require Import Prelude ProtoBase ProtoContent ProtoRuntime ProtoTurn ProtoQueue ProtoWorkflow ProtoAttention ProtoCommand ProtoEffect ProtoProjection CanonState CanonInvariants ReadModelBuild.

Local Open Scope Z_scope.

(** ** Membership of the fan-out *)

Lemma elem_of_foldl_push {B} (f : B → ProjectionKey) l : ∀ keys k,
  k ∈ foldl (λ keys b, push_unique keys (f b)) keys l ↔ k ∈ keys ∨ ∃ b, b ∈ l ∧ k = f b.
Proof.
  induction l as [|b l IH]; intros keys k; simpl.
  { split; [by left|]. by intros [?|(b & ?%elem_of_nil & _)]. }
  rewrite IH. unfold push_unique. rewrite elem_of_push_new. setoid_rewrite elem_of_cons. naive_solver.
Qed.

Definition session_keys (x : Session) : list ProjectionKey :=
  [ProjectionKey.SessionIndex x.(Session.project_id); ProjectionKey.Transcript x.(Session.id);
   ProjectionKey.LiveActivity x.(Session.id); ProjectionKey.InputQueue x.(Session.id)].

Lemma elem_of_push_project s pid keys k :
  k ∈ push_project s pid keys ↔ k ∈ keys ∨ ∃ h, h ∈ project_host_ids s pid ∧ k = ProjectionKey.ProjectIndex h.
Proof. apply elem_of_foldl_push. Qed.

Lemma elem_of_push_session s x keys k :
  k ∈ push_session s x keys ↔
  k ∈ keys ∨ k ∈ session_keys x ∨ ∃ h, h ∈ project_host_ids s x.(Session.project_id) ∧ k = ProjectionKey.ProjectIndex h.
Proof.
  unfold push_session. rewrite elem_of_push_project.
  change (foldl push_unique keys (session_keys x))
    with (foldl (λ keys b, push_unique keys (id b)) keys (session_keys x)).
  rewrite elem_of_foldl_push. unfold id. naive_solver.
Qed.

(** A fan-out by session id reaches the views of that session and no others. *)
Lemma transcript_in_push_session_id s sid keys x :
  s.(CanonicalState.sessions) !! sid = Some x → x.(Session.id) = sid →
  ProjectionKey.Transcript sid ∈ push_session_id s sid keys.
Proof.
  intros Hx <-. unfold push_session_id. rewrite Hx, elem_of_push_session. right. left. unfold session_keys. set_solver.
Qed.

Lemma transcript_push_session_id_inv s sid k keys :
  (∀ x, s.(CanonicalState.sessions) !! sid = Some x → x.(Session.id) = sid) →
  ProjectionKey.Transcript k ∈ push_session_id s sid keys → ProjectionKey.Transcript k ∈ keys ∨ k = sid.
Proof.
  intros Hkey. unfold push_session_id. destruct (_ !! sid) as [x|] eqn:E; [|by left].
  rewrite elem_of_push_session. intros [?|[Hin|(h & _ & ?)]]; [by left| |done]. right.
  rewrite <-(Hkey x eq_refl). unfold session_keys in Hin. rewrite !elem_of_cons, elem_of_nil in Hin. naive_solver.
Qed.

(** ** The transcript is refreshed whenever it changes *)

(** What the transcripts are made of changes through three effects. *)
Lemma apply_change_transcript s e s' :
  apply_change s e = (s', Ok tt) →
  (s'.(CanonicalState.sessions) = s.(CanonicalState.sessions) ∧ s'.(CanonicalState.turns) = s.(CanonicalState.turns) ∧
   s'.(CanonicalState.turn_order) = s.(CanonicalState.turn_order) ∧ s'.(CanonicalState.items) = s.(CanonicalState.items)) ∨
  (∃ session merged, e = StateEffect.SessionUpserted session ∧ merged.(Session.id) = session.(Session.id) ∧
     s' = CanonicalState_set_sessions (<[session.(Session.id) := merged]> s.(CanonicalState.sessions)) s) ∨
  (∃ turn, e = StateEffect.TurnUpserted turn ∧ apply_turn s turn = Ok s') ∨
  (∃ item, e = StateEffect.ItemUpserted item ∧ apply_item s item = (s', Ok tt)).
Proof.
  intros Ha. destruct e; inv_change Ha; try by left.
  - right. left.
    assert ((merge_session (s.(CanonicalState.sessions) !! session.(Session.id)) session).(Session.id)
            = session.(Session.id)) as Hid by by destruct (s.(CanonicalState.sessions) !! _).
    eexists _, _. split_and!; [done|exact Hid|by rewrite Hid].
  - right. right. left. by eexists.
  - right. right. right. by eexists.
  - left. by apply apply_ack_ok in Ha as [-> _].
Qed.

Lemma transcript_frame s s' sid :
  is_some (s'.(CanonicalState.sessions) !! sid) = is_some (s.(CanonicalState.sessions) !! sid) →
  turns_of s' sid = turns_of s sid →
  (∀ t i, t ∈ turns_of s sid → i ∈ t.(Turn.item_ids) →
     s'.(CanonicalState.items) !! i = s.(CanonicalState.items) !! i) →
  transcript s' sid = transcript s sid.
Proof.
  intros Hs Ht Hi. unfold transcript, require_session. rewrite Ht.
  assert (transcript_turn s' <$> turns_of s sid = transcript_turn s <$> turns_of s sid) as ->.
  { apply list_fmap_ext. intros n t Hn. unfold transcript_turn. f_equal. apply filter_map_ext.
    intros i Hin. apply (Hi t); [|done]. by apply list_elem_of_lookup_2 in Hn. }
  by destruct (s'.(CanonicalState.sessions) !! sid), (s.(CanonicalState.sessions) !! sid).
Qed.

Lemma transcript_derived s sid : transcript (recompute_derived s) sid = transcript s sid.
Proof.
  destruct (recompute_derived_frame s) as (ms & mp & E). apply transcript_frame.
  - rewrite lookup_derived_session. by destruct (_ !! sid).
  - by rewrite E.
  - intros t i _ _. by rewrite E.
Qed.

(** Storing a turn of another session leaves the turns of a session alone. *)
Lemma turns_of_insert_other (turns : gmap TurnId Turn) order k t sid :
  t.(Turn.session_id) ≠ sid →
  (∀ old, turns !! k = Some old → old.(Turn.session_id) ≠ sid) →
  (∀ k', k' ∈ order ↔ is_Some (turns !! k')) →
  filter_b (λ turn, bool_decide (turn.(Turn.session_id) = sid))
    (filter_map (λ id, <[k := t]> turns !! id) (push_new order k)) =
  filter_b (λ turn, bool_decide (turn.(Turn.session_id) = sid)) (filter_map (λ id, turns !! id) order).
Proof.
  intros Ht Hold Hdom.
  assert (∀ l, filter_b (λ turn, bool_decide (turn.(Turn.session_id) = sid)) (filter_map (λ id, <[k := t]> turns !! id) l) =
    filter_b (λ turn, bool_decide (turn.(Turn.session_id) = sid)) (filter_map (λ id, turns !! id) l)) as Hsame.
  { induction l as [|x l IH]; simpl; [done|]. destruct (decide (x = k)) as [->|Hne].
    - rewrite lookup_insert_eq. simpl. rewrite bool_decide_false by done. rewrite IH.
      destruct (turns !! k) as [old|] eqn:E; simpl; [|done]. by rewrite bool_decide_false by by apply Hold.
    - rewrite lookup_insert_ne by done. destruct (turns !! x); simpl; [|done]. by rewrite IH. }
  rewrite Hsame. unfold push_new. destruct (contains_b k order) eqn:E; [done|]. apply contains_b_false in E.
  rewrite filter_map_app. simpl. destruct (turns !! k) as [old|] eqn:Ek; [|by rewrite app_nil_r].
  destruct E. apply Hdom. by eexists.
Qed.

Lemma transcript_turn_other s turn s' sid :
  state_wf s → apply_turn s turn = Ok s' → turn.(Turn.session_id) ≠ sid → transcript s' sid = transcript s sid.
Proof.
  intros Hwf (m & Hm & _ & -> & _)%apply_turn_ok Hne. destruct (merge_turn_ok _ _ _ Hm) as (Hid & _ & Hs & Hex).
  apply transcript_frame; [done| |done]. apply turns_of_insert_other; [congruence| |apply (wf_turns _ Hwf)].
  intros old Hold. rewrite Hid in Hold. destruct (Hex old Hold) as (Hold' & _). congruence.
Qed.

(** The turns that hold an item, or will, are of the session it names. *)
Definition item_in_place (s : CanonicalState) (item : Item) : Prop :=
  ∀ k t, s.(CanonicalState.turns) !! k = Some t → k = item.(Item.turn_id) ∨ item.(Item.id) ∈ t.(Turn.item_ids) →
    t.(Turn.session_id) = item.(Item.session_id).

Lemma elem_of_turns_of s sid t :
  t ∈ turns_of s sid → ∃ k, s.(CanonicalState.turns) !! k = Some t ∧ t.(Turn.session_id) = sid.
Proof.
  unfold turns_of. rewrite elem_of_filter_b, elem_of_filter_map, bool_decide_eq_true.
  intros [(k & _ & Hk) Hs]. by exists k.
Qed.

Lemma transcript_item_other s item s' sid :
  state_wf s → item_in_place s item → apply_item s item = (s', Ok tt) → item.(Item.session_id) ≠ sid →
  transcript s' sid = transcript s sid.
Proof.
  intros Hwf Hin Ha Hne.
  destruct (apply_item_cases s item (wf_turns _ Hwf)) as [[_ E]|(t & Ht & _ & E)]; rewrite E in Ha; [done|].
  injection Ha as <-. pose proof (Hin _ t Ht (or_introl eq_refl)) as Hs.
  apply transcript_frame; [done|..].
  - unfold turns_of. simpl.
    rewrite <-(push_new_in s.(CanonicalState.turn_order) item.(Item.turn_id)) at 1
      by (apply (turn_table_order _ _ _ (wf_turns _ Hwf)); by eexists).
    apply turns_of_insert_other; [simpl; congruence|intros old Hold; congruence|apply (wf_turns _ Hwf)].
  - intros u i (k & Hk & Hu)%elem_of_turns_of Hi. simpl. apply lookup_insert_ne. intros <-.
    pose proof (Hin k u Hk (or_intror Hi)). congruence.
Qed.

(** No transcript goes stale: whenever an applied effect changes the transcript of a session, the fan-out of
    that effect names the transcript of that session. For an item the effect must be in place: the turns that
    list it, or will, belong to the session it names. *)
Theorem transcript_fanout_complete s e s' sid (Hr : reachable s)
    (Ha : CanonicalState_apply s e = (s', Ok tt))
    (Hplace : ∀ item, e = StateEffect.ItemUpserted item → item_in_place s item) :
  view_of s' (ProjectionKey.Transcript sid) = view_of s (ProjectionKey.Transcript sid) ∨
  ProjectionKey.Transcript sid ∈ affected_keys s s' e.
Proof.
  simpl. pose proof (reachable_wf s Hr) as Hwf. assert (state_wf s') as Hwf' by by eapply apply_wf.
  apply apply_ok in Ha as (s1 & Ha & ->). rewrite transcript_derived.
  assert (∀ x, (recompute_derived s1).(CanonicalState.sessions) !! sid = Some x → x.(Session.id) = sid) as Hkey
    by (intros x; apply (control_session_key _ _ _ (wf_control _ Hwf'))).
  assert (s1.(CanonicalState.sessions) = s.(CanonicalState.sessions) → ∀ keys,
    transcript s1 sid = transcript s sid ∨
    ProjectionKey.Transcript sid ∈ push_session_id (recompute_derived s1) sid keys) as Hown.
  { intros Hs keys. destruct ((recompute_derived s1).(CanonicalState.sessions) !! sid) as [x|] eqn:E.
    - right. by eapply transcript_in_push_session_id, Hkey.
    - left. rewrite lookup_derived_session, Hs in E. unfold transcript, require_session. rewrite Hs.
      by destruct (s.(CanonicalState.sessions) !! sid). }
  destruct (apply_change_transcript s e s1 Ha) as [(Es & Et & Eo & Ei)|[(session & m & -> & Hm & ->)|[(turn & -> & Ht)|(item & -> & Hi)]]].
  - left. f_equal. apply transcript_frame; [by rewrite Es|unfold turns_of; by rewrite Et, Eo|intros; by rewrite Ei].
  - destruct (decide (session.(Session.id) = sid)) as [<-|Hne].
    + right. simpl. eapply transcript_in_push_session_id; [|eapply Hkey];
        rewrite lookup_derived_session; simpl; by rewrite lookup_insert_eq.
    + left. f_equal. apply transcript_frame; [|done..]. simpl. by rewrite lookup_insert_ne.
  - destruct (decide (turn.(Turn.session_id) = sid)) as [<-|Hne].
    + destruct (Hown ltac:(by apply apply_turn_ok in Ht as (? & _ & _ & -> & _)) []) as [->|?]; [by left|by right].
    + left. by rewrite (transcript_turn_other s turn s1 sid).
  - destruct (decide (item.(Item.session_id) = sid)) as [<-|Hne].
    + assert (s1.(CanonicalState.sessions) = s.(CanonicalState.sessions)) as Hs.
      { destruct (apply_item_cases s item (wf_turns _ Hwf)) as [[_ E]|(t & _ & _ & E)]; rewrite E in Hi; [done|].
        by injection Hi as <-. }
      simpl. edestruct (Hown Hs) as [->|?]; [by left|right; eassumption].
    + left. by rewrite (transcript_item_other s item s1 sid) by auto.
Qed.

(** ** An item outside its turn's session *)

Lemma turn_in_turns_of s k t :
  state_wf s → s.(CanonicalState.turns) !! k = Some t → t ∈ turns_of s t.(Turn.session_id).
Proof.
  intros Hwf Hk. unfold turns_of. rewrite elem_of_filter_b, elem_of_filter_map, bool_decide_eq_true.
  split; [|done]. exists k. split; [|done]. apply (turn_table_order _ _ _ (wf_turns _ Hwf)). by eexists.
Qed.

(** A transcript that builds has every item in the session of its turn. *)
Lemma built_transcript_places_items s sid t i item :
  is_ok (build_projection s (ProjectionKey.Transcript sid)) = true → t ∈ turns_of s sid →
  i ∈ t.(Turn.item_ids) → s.(CanonicalState.items) !! i = Some item → item.(Item.session_id) = sid.
Proof.
  intros Hb Ht Hi Hitem. unfold build_projection in Hb. simpl in Hb. unfold transcript in Hb.
  destruct (require_session s sid); [|done]. simpl in Hb. unfold ProjectionPayload_validate_for_key in Hb.
  destruct (contract _) as [[]|] eqn:Hv; [|done]. rewrite map_err_ok, rbind_ok_unit in Hv.
  destruct Hv as [_ Hv]. unfold scoped in Hv. rewrite bool_decide_true in Hv by done.
  unfold TranscriptView_validate in Hv. simpl in Hv.
  rewrite rbind_ok_unit, try_for_each_ok in Hv. destruct Hv as [_ Hv].
  specialize (Hv (transcript_turn s t) ltac:(apply list_elem_of_fmap; by eexists)).
  unfold transcript_turn_check in Hv. rewrite !rbind_ok_unit, !try_for_each_ok in Hv. simpl in Hv.
  destruct Hv as (_ & _ & _ & Hv). specialize (Hv item).
  rewrite elem_of_filter_map, rbind_ok_unit, reject_if_ok, !orb_false_iff, bool_decide_neq_false in Hv.
  by destruct Hv as (_ & [Hs _] & _); [exists i|].
Qed.

(** An item that names another session than the turn it joins is accepted, without a refresh of the transcript
    of the session of the turn; from then on that transcript does not build, so a change of status of that
    session, which has to rebuild it, cannot be committed. *)
Theorem misplaced_item_blocks_transcript s item s' t (Hr : reachable s)
    (Ha : CanonicalState_apply s (StateEffect.ItemUpserted item) = (s', Ok tt))
    (Ht : s.(CanonicalState.turns) !! item.(Item.turn_id) = Some t)
    (Hne : t.(Turn.session_id) ≠ item.(Item.session_id)) (Hnew : s.(CanonicalState.items) !! item.(Item.id) = None) :
  let key := ProjectionKey.Transcript t.(Turn.session_id) in
  key ∉ affected_keys s s' (StateEffect.ItemUpserted item) ∧
  is_ok (build_projection s' key) = false ∧
  ∀ status s2, CanonicalState_apply s' (StateEffect.SessionStatusChanged t.(Turn.session_id) status) = (s2, Ok tt) →
    key ∈ affected_keys s' s2 (StateEffect.SessionStatusChanged t.(Turn.session_id) status) ∧
    is_ok (build_projection s2 key) = false.
Proof.
  set (sid := t.(Turn.session_id)) in *. pose proof (reachable_wf s Hr) as Hwf.
  assert (state_wf s') as Hwf' by by eapply apply_wf.
  assert (∃ t', s'.(CanonicalState.turns) !! item.(Item.turn_id) = Some t' ∧ t'.(Turn.session_id) = sid ∧
    item.(Item.id) ∈ t'.(Turn.item_ids) ∧ s'.(CanonicalState.items) !! item.(Item.id) = Some item)
    as (t' & Ht' & Hs' & Hin & Hi).
  { apply apply_ok in Ha as (s1 & Ha & ->). destruct (recompute_derived_frame s1) as (ms & mp & ->). simpl in *.
    destruct (apply_item_cases s item (wf_turns _ Hwf)) as [[E _]|(u & Hu & _ & E)]; [congruence|].
    assert (u = t) as -> by congruence. rewrite E in Ha. injection Ha as <-. simpl. rewrite !lookup_insert_eq. eexists. split_and!; [done|simpl..|done].
    - done.
    - apply elem_of_push_new. by right. }
  assert (∀ s2, state_wf s2 → s2.(CanonicalState.turns) = s'.(CanonicalState.turns) →
    s2.(CanonicalState.items) = s'.(CanonicalState.items) →
    is_ok (build_projection s2 (ProjectionKey.Transcript sid)) = false) as Hfail.
  { intros s2 Hwf2 E1 E2. apply not_true_is_false. intros Hb.
    pose proof (turn_in_turns_of s2 _ t' Hwf2 (eq_trans (f_equal (lookup _) E1) Ht')) as Hturn. rewrite Hs' in Hturn.
    rewrite <-E2 in Hi. by destruct Hne; rewrite (built_transcript_places_items s2 sid t' _ item Hb Hturn Hin Hi). }
  split_and!; [|by apply Hfail|].
  - simpl. rewrite Hnew. intros H%transcript_push_session_id_inv; [|apply (control_session_key _ _ _ (wf_control _ Hwf'))].
    by destruct H as [?%elem_of_nil|?].
  - intros status s2 Ha2. assert (state_wf s2) as Hwf2 by by eapply apply_wf.
    apply apply_ok in Ha2 as (s3 & Ha2 & ->). simpl in Ha2. rewrite checked_ok in Ha2. unfold apply_status in Ha2.
    rewrite rbind_ok_unit, reject_if_ok in Ha2. destruct Ha2 as [Hsome [= <-]].
    split; [|apply Hfail; [done|..]; by rewrite recompute_derived_eq].
    destruct (s'.(CanonicalState.sessions) !! sid) as [x|] eqn:Ex; [|done].
    eapply transcript_in_push_session_id; [rewrite lookup_derived_session; simpl; by rewrite Ex|].
    simpl. apply (control_session_key _ _ _ (wf_control _ Hwf') _ _ Ex).
Qed.

(** ** A project that moves a binding *)

(** Storing a project refreshes indexes and boards, never a view of one session. *)
Lemma fanout_project_no_queue before after pid sid :
  ProjectionKey.InputQueue sid ∉ fanout_project before after pid.
Proof.
  unfold fanout_project, push_project_workflows. rewrite !elem_of_foldl_push. unfold push_unique.
  rewrite elem_of_push_new, !elem_of_push_project, elem_of_nil.
  intros [[[[[[]|(? & _ & ?)]|(? & _ & ?)]|?]|(? & _ & ?)]|(? & _ & ?)]; done.
Qed.

Lemma apply_project_bindings s project :
  Project.bindings <$> (recompute_derived (apply_project s project)).(CanonicalState.projects) !! project.(Project.id) =
  Some (merge_project (s.(CanonicalState.projects) !! project.(Project.id)) project).(Project.bindings).
Proof.
  rewrite lookup_derived_project. unfold apply_project. simpl.
  assert ((merge_project (s.(CanonicalState.projects) !! project.(Project.id)) project).(Project.id) = project.(Project.id))
    as -> by by destruct (s.(CanonicalState.projects) !! _).
  by rewrite lookup_insert_eq.
Qed.

(** Whether the runtime a session resolves to can be steered. *)
Definition steerable (s : CanonicalState) (x : Session) : bool :=
  is_some_and (capabilities_of s x) (λ c, RuntimeCapabilities_permits c Capability.TurnSteer).

(** When a stored project moves the binding through which alone a session resolves its runtime to a runtime
    that differs in whether it can be steered, the input queue view of that session changes, but its key is
    not among the affected keys: subscribers keep the stale view. *)
Theorem project_fanout_misses_input_queue s project s' sid x b r
    (Ha : CanonicalState_apply s (StateEffect.ProjectUpserted project) = (s', Ok tt))
    (Hx : s.(CanonicalState.sessions) !! sid = Some x) (Hp : x.(Session.project_id) = project.(Project.id))
    (Hdirect : direct_runtime_id x = None)
    (Hb : find_first (λ b, bool_decide (b.(ProjectBinding.id) = x.(Session.project_binding_id)))
            (merge_project (s.(CanonicalState.projects) !! project.(Project.id)) project).(Project.bindings) = Some b)
    (Hr : s.(CanonicalState.runtimes) !! b.(ProjectBinding.runtime_id) = Some r)
    (Hsteer : RuntimeCapabilities_permits r.(ProviderRuntime.capabilities) Capability.TurnSteer ≠ steerable s x) :
  (∃ v v', input_queue s sid = Ok v ∧ input_queue s' sid = Ok v' ∧
     v.(InputQueueView.steer_supported) = steerable s x ∧
     v'.(InputQueueView.steer_supported) ≠ v.(InputQueueView.steer_supported)) ∧
  ProjectionKey.InputQueue sid ∉ affected_keys s s' (StateEffect.ProjectUpserted project).
Proof.
  apply apply_ok in Ha as (s1 & [= <-] & ->). split; [|apply fanout_project_no_queue].
  assert ((apply_project s project).(CanonicalState.sessions) !! sid = Some x) as Hx1 by done.
  unfold input_queue, require_session. rewrite lookup_derived_session, Hx, Hx1. simpl.
  eexists _, _. split_and!; [done..|]. simpl. fold (steerable s x). unfold capabilities_of, runtime_of.
  change (direct_runtime_id (derived_session _ sid x)) with (direct_runtime_id x). rewrite Hdirect. simpl.
  rewrite Hp. pose proof (apply_project_bindings s project) as Hm. apply fmap_Some in Hm as (p & -> & Hm). simpl.
  rewrite <-Hm, Hb. simpl. rewrite recompute_derived_eq. simpl. by rewrite Hr.
Qed.

(** ** The session index *)

(** The session index of a project lists every session of that project exactly once, and each session in the
    right list: archived sessions in the archive, and the others among the active ones when they run or wait
    for a human and in the history otherwise. *)
Theorem session_index_partitions s pid :
  let v := session_index s pid in
  let sessions := filter_b (λ x, bool_decide (x.(Session.project_id) = pid)) (btree_values s.(CanonicalState.sessions)) in
  v.(SessionIndexView.active) ++ v.(SessionIndexView.history) ++ v.(SessionIndexView.archived) ≡ₚ
    summarise <$> sessions ∧
  (∀ x, x ∈ sessions →
     summarise x ∈ if x.(Session.archived) then v.(SessionIndexView.archived)
                   else if session_is_current x then v.(SessionIndexView.active) else v.(SessionIndexView.history)) ∧
  (∀ summary, summary ∈ v.(SessionIndexView.active) →
     SessionStatus_is_active summary.(SessionSummary.status) = true ∨
     SessionStatus_waits_for_human summary.(SessionSummary.status) = true).
Proof.
  intros v sessions. unfold v, session_index. fold sessions. rewrite index_session_fold. simpl. clear v. split_and!.
  - induction sessions as [|x l IH]; simpl; [done|]. rewrite <-IH.
    destruct (x.(Session.archived)), (session_is_current x); simpl; solve_Permutation.
  - intros x Hx. destruct (x.(Session.archived)) eqn:Ea, (session_is_current x) eqn:Ec;
      apply list_elem_of_fmap_2, elem_of_filter_b; by rewrite ?Ea, ?Ec.
  - intros summary (x & -> & [_ [_ Hc]%andb_true_iff]%elem_of_filter_b)%list_elem_of_fmap. simpl.
    by apply orb_true_iff.
Qed.

(** ** The attention inbox *)

Lemma attention_entries_spec s :
  state_wf s → NoDup (attention_entries s) ∧
  ∀ a, a ∈ attention_entries s ↔ s.(CanonicalState.attention) !! a.(AttentionItem.id) = Some a.
Proof.
  intros [Hkey Hnd Hord]%wf_attention. unfold attention_entries. split.
  - clear Hord. induction Hnd as [|k order Hk Hnd IH]; simpl; [constructor|].
    destruct (s.(CanonicalState.attention) !! k) as [a|] eqn:E; [|done]. constructor; [|done].
    rewrite elem_of_filter_map. intros (k' & Hk' & E'). apply Hkey in E, E'. congruence.
  - intros a. rewrite elem_of_filter_map. split.
    + intros (k & _ & Hk). by rewrite (Hkey _ _ Hk).
    + intros Ha. exists a.(AttentionItem.id). split; [|done]. apply Hord. by eexists.
Qed.

(** In a reachable state, the attention inbox of a host holds each open attention item of that host exactly
    once and nothing else, ordered by expiry with the items that never expire last. *)
Theorem attention_inbox_is_open_by_expiry s host_id (Hr : reachable s) :
  let entries := (attention_inbox s host_id).(AttentionInboxView.entries) in
  NoDup entries ∧
  (∀ a, a ∈ entries ↔ s.(CanonicalState.attention) !! a.(AttentionItem.id) = Some a ∧
     a.(AttentionItem.host_id) = host_id ∧ AttentionState_is_open a.(AttentionItem.state) = true) ∧
  StronglySorted (λ a b, default i64_max a.(AttentionItem.expires_at_ms) ≤ default i64_max b.(AttentionItem.expires_at_ms))
    entries.
Proof.
  destruct (attention_entries_spec s (reachable_wf s Hr)) as [Hnd Hin]. simpl. split_and!.
  - rewrite sort_by_key_perm. by do 2 (eapply sublist_NoDup, filter_b_sublist).
  - intros a. rewrite elem_of_sort_by_key, !elem_of_filter_b, Hin, bool_decide_eq_true. tauto.
  - apply (sort_by_key_sorted (λ a, default i64_max a.(AttentionItem.expires_at_ms))).
Qed.

(** ** The workflow board *)

(** What only one effect stores: the steps. *)
Lemma apply_change_steps s e s' :
  apply_change s e = (s', Ok tt) →
  s'.(CanonicalState.steps) = s.(CanonicalState.steps) ∨
  ∃ step, s'.(CanonicalState.steps) = <[step.(Step.id) := step]> s.(CanonicalState.steps).
Proof.
  intros Ha. destruct e; inv_change Ha; try by left.
  - left. by apply apply_turn_ok in Ha as (m & _ & _ & -> & _).
  - left. unfold apply_item in Ha. destruct (s.(CanonicalState.turns) !! _); [|done].
    destruct (contract _); [|done]. by injection Ha as <-.
  - right. by eexists.
  - left. by apply apply_ack_ok in Ha as [-> _].
Qed.

Lemma steps_keyed s : reachable s → ∀ k step, s.(CanonicalState.steps) !! k = Some step → step.(Step.id) = k.
Proof.
  induction 1 as [|s e s' _ IH Ha]; [intros k step; simpl; by rewrite lookup_empty|].
  apply apply_ok in Ha as (s1 & Ha & ->). destruct (recompute_derived_frame s1) as (ms & mp & ->). simpl.
  destruct (apply_change_steps s e s1 Ha) as [->|[step ->]]; [done|].
  intros k step'. intros [[<- <-]|[_ Hk]]%lookup_insert_Some; [done|by apply IH].
Qed.

(** Without a runtime, no capability is available. *)
Lemma unavailable_runtime_blockers_eq step deps gate_open caps :
  caps.(RuntimeCapabilities.entries) = [] →
  unavailable_runtime_blockers step deps gate_open = Step_blockers step deps caps gate_open.
Proof.
  intros Hc. unfold unavailable_runtime_blockers, Step_blockers. do 3 f_equal.
  - induction (step.(Step.assignment).(StepAssignment.selector).(RuntimeSelector.required)) as [|c l IH]; simpl; [done|].
    unfold RuntimeCapabilities_permits at 1, RuntimeCapabilities_state_of. rewrite Hc. simpl. by rewrite <-IH.
  - by destruct gate_open, (step.(Step.human_gate)).
Qed.

(** A dependency counts as done when it is stored and completed or skipped. *)
Lemma dependency_states_done s step d :
  (∀ k x, s.(CanonicalState.steps) !! k = Some x → x.(Step.id) = k) → d ∈ step.(Step.depends_on) →
  ((d, StepState.Completed) ∈ dependency_states_of s step ∨ (d, StepState.Skipped) ∈ dependency_states_of s step) ↔
  ∃ x, s.(CanonicalState.steps) !! d = Some x ∧ step_done x.(Step.state) = true.
Proof.
  intros Hkey Hd. unfold dependency_states_of. rewrite !elem_of_filter_map. split.
  - intros [(k & _ & Hk)|(k & _ & Hk)]; apply fmap_Some in Hk as (x & Hx & [= -> Hs]); exists x;
      (split; [by rewrite (Hkey _ _ Hx)|]); by rewrite <-Hs.
  - intros (x & Hx & Hdone). pose proof (Hkey _ _ Hx) as Hid.
    destruct (x.(Step.state)) eqn:Hs; try done; [left|right]; exists d; (split; [done|]); by rewrite Hx; simpl; rewrite Hid, Hs.
Qed.

(** In a reachable state, the workflow board shows a step without blockers exactly when the step is Ready,
    every step it depends on exists and is completed or skipped, every required capability is permitted by the
    runtime its binding resolves to (so none is required if it resolves to no runtime), and its human gate is
    not open. *)
Theorem board_step_unblocked_iff s project step (Hr : reachable s) :
  (board_step s project step).(WorkflowBoardStep.blockers) = [] ↔
  step.(Step.state) = StepState.Ready ∧
  (∀ d, d ∈ step.(Step.depends_on) →
     ∃ x, s.(CanonicalState.steps) !! d = Some x ∧ step_done x.(Step.state) = true) ∧
  (∀ c, c ∈ step.(Step.assignment).(StepAssignment.selector).(RuntimeSelector.required) →
     ∃ r, step_runtime s project step = Some r ∧ RuntimeCapabilities_permits r.(ProviderRuntime.capabilities) c = true) ∧
  (∀ k a, step.(Step.human_gate) = Some k → s.(CanonicalState.attention) !! k = Some a →
     AttentionState_is_open a.(AttentionItem.state) = false).
Proof.
  unfold board_step. simpl. set (caps := match step_runtime s project step with
    | Some r => r.(ProviderRuntime.capabilities) | None => RuntimeCapabilities.mk (mkId "") 0 [] end).
  replace (match step_runtime s project step with Some _ => _ | None => _ end)
    with (Step_blockers step (dependency_states_of s step) caps (gate_is_open s step))
    by (subst caps; destruct (step_runtime s project step); [done|]; symmetry; by apply unavailable_runtime_blockers_eq).
  rewrite Step_blockers_nil. apply and_iff_compat_l, and_iff; [|apply and_iff].
  - apply forall_proper; intros d. split; intros H Hd; by apply (dependency_states_done s step d (steps_keyed s Hr)), H.
  - apply forall_proper; intros c. subst caps. destruct (step_runtime s project step); naive_solver.
  - unfold gate_is_open. destruct (step.(Step.human_gate)) as [k|]; simpl; [|split; [done|by intros _ [? ?]]].
    destruct (s.(CanonicalState.attention) !! k) as [a|] eqn:E; simpl; [|split; [naive_solver|done]].
    split; [intros H ? ? [= <-]; rewrite E; intros [= <-]; by apply H|intros H _; by eapply H].
Qed.
