(* ===== verification/DurableLog.v ===== *)
(** * The durable log

    Models [crates/kaleido-state/src/log.rs]: one append-only file per stream,
    one JSON record per line.  The stream directory is a map from file names to
    file contents.  The JSON codec is [serde_json], a library, and is a
    parameter: [encode] and [decode], with the laws of [Codec]. *)
From stdpp Require Import prelude strings gmap sorting.
From Stdlib Require Import ZArith Lia Ascii.
From S2P Require Import Prelude ProtoBase ProtoContent ProtoRuntime ProtoTurn ProtoQueue ProtoWorkflow ProtoAttention ProtoCommand ProtoEffect ProtoProjection CanonState.

Local Open Scope Z_scope.

(** ** File names *)

Definition safe_char (c : ascii) : bool :=
  is_ascii_alphanumeric c || Ascii.eqb c "."%char || Ascii.eqb c "_"%char || Ascii.eqb c "-"%char.

(** A byte that continues a multi-byte UTF-8 character. *)
Definition utf8_continuation (c : ascii) : bool := between 128 191 c.

(** [for character in identifier.chars()]: an unsafe character of any width
    becomes one underscore, so its continuation bytes produce nothing. *)
Fixpoint sanitise (s : string) : string :=
  match s with
  | "" => ""
  | String c s' =>
      if safe_char c then String c (sanitise s')
      else if utf8_continuation c then sanitise s'
      else String "_" (sanitise s')
  end.

Definition stream_kind (stream : StreamKey) : string :=
  match stream with
  | StreamKey.Host _ => "host"
  | StreamKey.Project _ => "project"
  | StreamKey.Session _ => "session"
  | StreamKey.Workflow _ => "workflow"
  end.

Definition stream_identifier (stream : StreamKey) : string :=
  match stream with
  | StreamKey.Host i => id_value i
  | StreamKey.Project i => id_value i
  | StreamKey.Session i => id_value i
  | StreamKey.Workflow i => id_value i
  end.

Definition stream_file_name (stream : StreamKey) : string :=
  stream_kind stream +:+ "-" +:+ sanitise (stream_identifier stream) +:+ ".jsonl".

(** ** Lines *)

Definition newline : ascii := Ascii.ascii_of_nat 10.
Definition carriage_return : ascii := Ascii.ascii_of_nat 13.

(** The last byte of a line is dropped when it is a carriage return. *)
Fixpoint strip_cr (s : string) : string :=
  match s with
  | "" => ""
  | String c s' =>
      if Ascii.eqb c carriage_return && str_is_empty s' then "" else String c (strip_cr s')
  end.

(** Lines end with a newline, or a carriage return and a newline; what follows
    the last newline is a line only when it is not empty. *)
Fixpoint finish_lines (pieces : list string) : list string :=
  match pieces with
  | [] => []
  | [rest] => if str_is_empty rest then [] else [rest]
  | line :: pieces' => strip_cr line :: finish_lines pieces'
  end.

(** [BufRead::lines] *)
Definition lines_of (content : string) : list string := finish_lines (split_on newline content).

(** ** The codec *)

Class Codec := {
  encode : LogRecord → string;
  decode : string → option LogRecord
}.

(** What the log relies on for a record it writes: [serde_json] decodes what it
    encoded, and its compact output is one line that does not end in white
    space and is not blank. *)
Record line_codec {A} (encode : A → string) (decode : string → option A) (r : A) : Prop := {
  codec_roundtrip : decode (encode r) = Some r;
  codec_one_line : newline ∉ bytes_of (encode r);
  codec_no_cr : strip_cr (encode r) = encode r;
  codec_not_blank : is_blank (encode r) = false
}.

Definition codec_ok `{Codec} (r : LogRecord) : Prop := line_codec encode decode r.

(** ** Operations *)

(** The stream directory: the content of each file. *)
Abbreviation StreamLog := (gmap string string).

(** What the operating system made of one append: everything reached the disk;
    an error was reported after some bytes were written (by [write_all], or by
    [flush] or [sync_data], then after all of them); or the file did not open. *)
Module IoOutcome.
Inductive IoOutcome : Type :=
| Written
| Failed (bytes : nat)
| NotOpened.
End IoOutcome.
Abbreviation IoOutcome := IoOutcome.IoOutcome.

#[export] Instance IoOutcome_eq_dec : EqDecision IoOutcome.
Proof. solve_decision. Defined.

Fixpoint str_take (n : nat) (s : string) : string :=
  match n, s with
  | S n', String c s' => String c (str_take n' s')
  | _, _ => ""
  end.

Section log.
Context `{Codec}.

Definition append (log : StreamLog) (record : LogRecord) (io : IoOutcome)
    : StreamLog * result unit StateError :=
  let path := stream_file_name record.(LogRecord.stream) in
  let line := encode record +:+ String newline "" in
  let content := default "" (log !! path) in
  match io with
  | IoOutcome.Written => (<[path := content +:+ line]> log, Ok tt)
  | IoOutcome.Failed bytes => (<[path := content +:+ str_take bytes line]> log, Err (StateError.Io path))
  | IoOutcome.NotOpened => (log, Err (StateError.Io path))
  end.

(** The loop of [read_stream_file], from line number [index]. *)
Fixpoint read_lines (path : string) (index : Z) (lines : list string) : result (list LogRecord) StateError :=
  match lines with
  | [] => Ok []
  | line :: rest =>
      if is_blank line then read_lines path (index + 1) rest
      else let? record := ok_or (decode line) (StateError.MalformedRecord path (index + 1)) in
           let? records := read_lines path (index + 1) rest in
           Ok (record :: records)
  end.

Definition read_stream_file (log : StreamLog) (path : string) : result (list LogRecord) StateError :=
  let? content := ok_or (log !! path) (StateError.Io path) in
  read_lines path 0 (lines_of content).

(** [path.extension() == Some("jsonl")] *)
Definition has_jsonl_extension (name : string) : bool :=
  match rev (split_on "."%char name) with
  | extension :: stem :: more =>
      bool_decide (extension = "jsonl") && negb (str_is_empty stem && bool_decide (more = []))
  | _ => false
  end.

(** The loop of [read_streams] over the sorted paths. *)
Fixpoint read_paths (log : StreamLog) (paths : list string)
    : result (list (string * list LogRecord)) StateError :=
  match paths with
  | [] => Ok []
  | path :: rest =>
      let? records := read_stream_file log path in
      contract (verify_contiguous records) ;?
      let? streams := read_paths log rest in
      Ok ((path, records) :: streams)
  end.

Definition read_streams (log : StreamLog) : result (list (string * list LogRecord)) StateError :=
  read_paths log (filter_b has_jsonl_extension (btree_keys log)).

(** The order of [read_all]: time, then file name, then cursor. *)
Definition record_leb (left right : LogRecord) : bool :=
  let ln := stream_file_name left.(LogRecord.stream) in
  let rn := stream_file_name right.(LogRecord.stream) in
  if left.(LogRecord.appended_at_ms) <? right.(LogRecord.appended_at_ms) then true
  else if right.(LogRecord.appended_at_ms) <? left.(LogRecord.appended_at_ms) then false
  else if negb (str_leb rn ln) then true
  else if negb (str_leb ln rn) then false
  else left.(LogRecord.cursor).(Cursor.seq) <=? right.(LogRecord.cursor).(Cursor.seq).

Definition read_all (log : StreamLog) : result (list LogRecord) StateError :=
  let? per_stream := read_streams log in
  Ok (sort_by record_leb (concat per_stream.*2)).

Definition stream_heads (log : StreamLog) : result (list (StreamKey * Cursor)) StateError :=
  let? per_stream := read_streams log in
  Ok (filter_map (λ '(_, records),
        (λ r, (r.(LogRecord.stream), r.(LogRecord.cursor))) <$> last records) per_stream).

End log.

Lemma str_take_all (s : string) : str_take (String.length s) s = s.
Proof. induction s as [|c s IH]; simpl; [done|]. by rewrite IH. Qed.

(** ** Reading back lines *)

Lemma split_on_nonempty sep s : split_on sep s ≠ [].
Proof. destruct s as [|c s]; simpl; [done|]. destruct (Ascii.eqb c sep); [done|]. by destruct (split_on sep s). Qed.

Lemma split_on_app sep a b :
  sep ∉ bytes_of a → split_on sep (a +:+ String sep b) = a :: split_on sep b.
Proof.
  induction a as [|c a IH]; intros Ha.
  - rewrite append_nil_l. simpl. by rewrite Ascii.eqb_refl.
  - simpl in Ha. rewrite not_elem_of_cons in Ha. destruct Ha as [Hc Ha]. rewrite append_cons_l. simpl.
    destruct (Ascii.eqb_spec c sep) as [->|_]; [done|]. by rewrite IH.
Qed.

Lemma split_on_snoc sep a b :
  sep ∉ bytes_of b → split_on sep (a +:+ String sep b) = split_on sep a ++ [b].
Proof.
  intros Hb. induction a as [|c a IH].
  - rewrite append_nil_l. simpl. rewrite Ascii.eqb_refl. f_equal.
    induction b as [|d b IHb]; [done|]. simpl in *. rewrite not_elem_of_cons in Hb. destruct Hb as [Hd Hb].
    destruct (Ascii.eqb_spec d sep) as [->|_]; [done|]. by rewrite IHb.
  - rewrite append_cons_l. simpl. rewrite IH. destruct (Ascii.eqb c sep); [done|].
    destruct (split_on sep a) eqn:E; [by apply split_on_nonempty in E|done].
Qed.

Lemma lines_of_line a rest :
  newline ∉ bytes_of a → strip_cr a = a → lines_of (a +:+ String newline rest) = a :: lines_of rest.
Proof.
  intros Hn Hcr. unfold lines_of. rewrite split_on_app by done. simpl.
  destruct (split_on newline rest) eqn:E; [by apply split_on_nonempty in E|]. by rewrite Hcr.
Qed.

(** The content of a file with one encoded value per line. *)
Definition file_content {A} (encode : A → string) (l : list A) : string :=
  foldr (λ x rest, encode x +:+ String newline rest) "" l.

Lemma file_content_snoc {A} (encode : A → string) l x :
  file_content encode l +:+ (encode x +:+ String newline "") = file_content encode (l ++ [x]).
Proof.
  induction l as [|y l IH]; [by rewrite append_nil_l|]. simpl.
  rewrite append_assoc, append_cons_l. by rewrite IH.
Qed.

Lemma lines_of_content {A} (encode : A → string) decode l :
  Forall (line_codec encode decode) l → lines_of (file_content encode l) = encode <$> l.
Proof.
  induction 1 as [|x l [_ Hn Hc _] _ IH]; [done|]. simpl. rewrite lines_of_line by done. by rewrite IH.
Qed.

Section reading.
Context `{Codec}.

(** The content of a file to which [rs] were appended. *)
Definition content_of (rs : list LogRecord) : string := file_content encode rs.

Lemma content_of_snoc rs r : content_of rs +:+ (encode r +:+ String newline "") = content_of (rs ++ [r]).
Proof. apply file_content_snoc. Qed.

Lemma read_lines_content path i rs :
  Forall codec_ok rs → read_lines path i (lines_of (content_of rs)) = Ok rs.
Proof.
  revert i. induction rs as [|r rs IH]; intros i; [done|]. rewrite Forall_cons. intros [[Hd Hn Hc Hb] Hrs].
  simpl. rewrite lines_of_line by done. simpl. by rewrite Hb, Hd, (IH _ Hrs).
Qed.

(** *** The directory after a history of appends *)

Definition record_path (r : LogRecord) : string := stream_file_name r.(LogRecord.stream).

Definition records_at (path : string) (h : list LogRecord) : list LogRecord :=
  filter_b (λ r, bool_decide (record_path r = path)) h.

Definition append_written (log : StreamLog) (r : LogRecord) : StreamLog := (append log r IoOutcome.Written).1.

Definition log_of (h : list LogRecord) : StreamLog := foldl append_written ∅ h.

Lemma log_of_snoc h r : log_of (h ++ [r]) = append_written (log_of h) r.
Proof. unfold log_of. by rewrite foldl_app. Qed.

Lemma log_of_lookup h path :
  log_of h !! path = (if bool_decide (records_at path h = []) then None else Some (content_of (records_at path h))).
Proof.
  induction h as [|r h IH] using rev_ind; [done|]. rewrite log_of_snoc. unfold append_written, append. simpl.
  unfold records_at in *. rewrite filter_b_app. simpl.
  destruct (decide (record_path r = path)) as [E|E].
  - rewrite !(bool_decide_true (record_path r = path)) by done.
    unfold record_path in E. rewrite E, lookup_insert_eq, IH.
    rewrite (bool_decide_false (_ ++ _ = [])) by (intros [_ ?]%app_nil; done).
    f_equal. rewrite <-content_of_snoc. f_equal.
    case_bool_decide as Hn; [by rewrite Hn|done].
  - rewrite !(bool_decide_false (record_path r = path)) by done.
    rewrite app_nil_r, lookup_insert_ne by done. apply IH.
Qed.

Lemma records_at_elem path h r : r ∈ records_at path h ↔ r ∈ h ∧ record_path r = path.
Proof. unfold records_at. by rewrite elem_of_filter_b, bool_decide_eq_true. Qed.

Lemma log_of_keys h path : is_Some (log_of h !! path) ↔ ∃ r, r ∈ h ∧ record_path r = path.
Proof.
  rewrite log_of_lookup. setoid_rewrite <-records_at_elem. case_bool_decide as Hn.
  - rewrite Hn. split; [by intros [? ?] | by intros (r & ?%elem_of_nil)].
  - split; [intros _|by eexists]. destruct (records_at path h) as [|r l]; [done|]. exists r. left.
Qed.

Lemma stream_file_extension stream : has_jsonl_extension (stream_file_name stream) = true.
Proof.
  unfold has_jsonl_extension, stream_file_name.
  rewrite <-!append_assoc. change ".jsonl" with (String "."%char "jsonl").
  rewrite split_on_snoc, rev_unit by (vm_compute; set_solver).
  destruct (rev (split_on "."%char _)) as [|stem more] eqn:E.
  { apply (f_equal (@rev string)) in E. rewrite rev_involutive in E. by apply split_on_nonempty in E. }
  rewrite bool_decide_true by done. simpl. destruct stem; [|done]. simpl.
  case_bool_decide as Hm; [|done]. subst more. apply (f_equal (@rev string)) in E. rewrite rev_involutive in E.
  assert (∃ c rest, (stream_kind stream +:+ "-") +:+ sanitise (stream_identifier stream) = String c rest ∧
            Ascii.eqb c "."%char = false) as (c & rest & Eq & Hc).
  { destruct stream; eexists _, _; split; reflexivity. }
  rewrite Eq in E. simpl in E. rewrite Hc in E. destruct (split_on "."%char rest); discriminate E.
Qed.
End reading.

(** ** The global order *)

Lemma record_leb_true a b :
  record_leb a b = true ↔
  a.(LogRecord.appended_at_ms) < b.(LogRecord.appended_at_ms) ∨
  (a.(LogRecord.appended_at_ms) = b.(LogRecord.appended_at_ms) ∧
   str_leb (record_path a) (record_path b) = true ∧
   (record_path a = record_path b → a.(LogRecord.cursor).(Cursor.seq) ≤ b.(LogRecord.cursor).(Cursor.seq))).
Proof.
  unfold record_leb. fold (record_path a) (record_path b).
  destruct (Z.ltb_spec a.(LogRecord.appended_at_ms) b.(LogRecord.appended_at_ms)); [naive_solver|].
  destruct (Z.ltb_spec b.(LogRecord.appended_at_ms) a.(LogRecord.appended_at_ms)); [naive_solver lia|].
  destruct (str_leb (record_path b) (record_path a)) eqn:Hba; simpl.
  - destruct (str_leb (record_path a) (record_path b)) eqn:Hab; simpl; [|naive_solver lia].
    pose proof (str_leb_antisym _ _ Hab Hba). rewrite Z.leb_le. naive_solver lia.
  - split; [|done]. intros _. right. split; [lia|].
    destruct (str_leb_total (record_path a) (record_path b)) as [Hab|Hab]; [|congruence]. split; [done|].
    intros E. rewrite E in *. congruence.
Qed.

Lemma record_leb_total a b : record_leb a b = true ∨ record_leb b a = true.
Proof.
  rewrite !record_leb_true.
  destruct (Z.lt_trichotomy a.(LogRecord.appended_at_ms) b.(LogRecord.appended_at_ms)) as [?|[E|?]]; [auto| |auto].
  destruct (decide (record_path a = record_path b)) as [Ep|Hne].
  - rewrite Ep, E. destruct (str_leb_total (record_path b) (record_path b)) as [Hr|Hr]; rewrite Hr;
      destruct (Z.le_ge_cases a.(LogRecord.cursor).(Cursor.seq) b.(LogRecord.cursor).(Cursor.seq)); naive_solver.
  - destruct (str_leb_total (record_path a) (record_path b)); naive_solver.
Qed.

Lemma record_leb_trans a b c : record_leb a b = true → record_leb b c = true → record_leb a c = true.
Proof.
  rewrite !record_leb_true. intros [?|(E1 & L1 & C1)] [?|(E2 & L2 & C2)]; [left; lia..|].
  right. split; [lia|]. split; [by eapply str_leb_trans|]. intros E.
  assert (record_path a = record_path b) as Eab.
  { apply str_leb_antisym; [done|]. by rewrite E. }
  assert (record_path b = record_path c) as Ebc by congruence. specialize (C1 Eab). specialize (C2 Ebc). lia.
Qed.

(** Records in strictly increasing append time are recovered by the sort. *)
Definition times_increase (h : list LogRecord) : Prop :=
  StronglySorted (λ a b, a.(LogRecord.appended_at_ms) < b.(LogRecord.appended_at_ms)) h.

Lemma times_distinct h a b :
  times_increase h → a ∈ h → b ∈ h →
  a.(LogRecord.appended_at_ms) = b.(LogRecord.appended_at_ms) → a = b.
Proof.
  induction 1 as [|x l Hs IH Hx]; [by intros ?%elem_of_nil|]. rewrite Forall_forall in Hx.
  rewrite !elem_of_cons. intros [->|Ha] [->|Hb] E; [done| | |by apply IH].
  - specialize (Hx b Hb). lia.
  - specialize (Hx a Ha). lia.
Qed.

Lemma sort_recovers h l : times_increase h → l ≡ₚ h → sort_by record_leb l = h.
Proof.
  intros Ht Hp. apply (StronglySorted_unique_strong (λ a b, record_leb a b = true)).
  - intros x y Hx Hy. rewrite sort_by_perm, Hp in Hx. rewrite !record_leb_true. intros H1 H2.
    apply (times_distinct h); try done. lia.
  - apply sort_by_sorted; [apply record_leb_total|apply record_leb_trans].
  - clear Hp. induction Ht as [|x k Hs IH Hx]; constructor; [done|].
    eapply Forall_impl; [done|]. simpl. intros y ?. rewrite record_leb_true. by left.
  - by rewrite sort_by_perm.
Qed.

(** ** The round trip *)

Lemma filter_b_split {A} (p q : A → bool) l :
  (∀ x, p x = true → q x = true → False) →
  filter_b p l ++ filter_b q l ≡ₚ filter_b (λ x, p x || q x) l.
Proof.
  intros Hd. induction l as [|x l IH]; simpl; [done|].
  destruct (p x) eqn:Ep, (q x) eqn:Eq; simpl; [by destruct (Hd x)| | |done].
  - by apply Permutation_skip.
  - rewrite <-IH. symmetry. apply Permutation_middle.
Qed.

Lemma filter_b_ext_in {A} (p q : A → bool) l : (∀ x, x ∈ l → p x = q x) → filter_b p l = filter_b q l.
Proof.
  induction l as [|x l IH]; simpl; intros Hpq; [done|]. rewrite (Hpq x) by left.
  rewrite IH; [done|]. intros y Hy. apply Hpq. by right.
Qed.

Lemma filter_b_true {A} (p : A → bool) l : (∀ x, x ∈ l → p x = true) → filter_b p l = l.
Proof.
  induction l as [|x l IH]; simpl; intros Hp; [done|]. rewrite (Hp x) by left.
  f_equal. apply IH. intros y Hy. apply Hp. by right.
Qed.

Lemma records_by_path_perm h paths :
  NoDup paths → (∀ r, r ∈ h → record_path r ∈ paths) →
  concat ((λ path, records_at path h) <$> paths) ≡ₚ h.
Proof.
  intros Hnd Hall.
  assert (concat ((λ path, records_at path h) <$> paths) ≡ₚ
          filter_b (λ r, contains_b (record_path r) paths) h) as ->.
  - clear Hall. induction Hnd as [|p paths Hp Hnd IH]; csimpl.
    + induction h; simpl; done.
    + rewrite IH. unfold records_at. rewrite filter_b_split.
      * erewrite filter_b_ext_in; [done|]. intros r _. unfold contains_b. simpl. f_equal.
        apply bool_decide_ext. naive_solver.
      * intros r ->%bool_decide_eq_true Hc. by apply contains_b_true in Hc.
  - rewrite filter_b_true; [done|]. intros r Hr. by apply contains_b_true, Hall.
Qed.

(** What a store guarantees of the history it wrote: append times increase,
    the cursors of each stream count up from the start position, and two
    streams never share a file. *)
Record history_ok (h : list LogRecord) : Prop := {
  history_times : times_increase h;
  history_cursors : ∀ stream,
    run_from stream 0 (filter_b (λ r, bool_decide (r.(LogRecord.stream) = stream)) h);
  history_range : cursors_in_range h;
  history_paths : ∀ r1 r2, r1 ∈ h → r2 ∈ h → record_path r1 = record_path r2 →
    r1.(LogRecord.stream) = r2.(LogRecord.stream)
}.

Section roundtrip.
Context `{Codec}.

Lemma records_at_contiguous h path :
  history_ok h → verify_contiguous (records_at path h) = Ok tt.
Proof.
  intros [_ Hc Hr Hp]. apply verify_contiguous_ok.
  { intros r [Hin _]%records_at_elem. by apply Hr. }
  destruct (records_at path h) as [|r0 l] eqn:E; [by exists (StreamKey.Host (mkId "")), 0|].
  assert (r0 ∈ records_at path h) as [Hin0 Hp0]%records_at_elem by (rewrite E; left).
  exists r0.(LogRecord.stream), 0. rewrite <-E. unfold records_at.
  erewrite filter_b_ext_in; [apply (Hc r0.(LogRecord.stream))|]. intros r Hin. apply bool_decide_ext. split.
  - intros E'. apply (Hp r r0); [done..|congruence].
  - intros E'. unfold record_path in *. by rewrite E'.
Qed.

Lemma read_paths_log_of h paths :
  history_ok h → Forall codec_ok h → (∀ p, p ∈ paths → is_Some (log_of h !! p)) →
  read_paths (log_of h) paths = Ok ((λ p, (p, records_at p h)) <$> paths).
Proof.
  intros Hh Hc. induction paths as [|p paths IH]; intros Hin; [done|]. csimpl.
  destruct (Hin p ltac:(left)) as [content Hp]. unfold read_stream_file. rewrite Hp. simpl.
  rewrite log_of_lookup in Hp. case_bool_decide; [done|]. injection Hp as <-.
  rewrite read_lines_content.
  - simpl. rewrite records_at_contiguous by done. simpl. rewrite IH; [done|]. intros q Hq. apply Hin. by right.
  - rewrite Forall_forall in *. intros r [Hr _]%records_at_elem. by apply Hc.
Qed.

Lemma read_all_log_of h : history_ok h → Forall codec_ok h → read_all (log_of h) = Ok h.
Proof.
  intros Hh Hc. unfold read_all, read_streams.
  assert (∀ p, p ∈ btree_keys (log_of h) → has_jsonl_extension p = true) as Hext.
  { intros p Hp. apply elem_of_btree_keys, log_of_keys in Hp as (r & _ & <-). apply stream_file_extension. }
  rewrite filter_b_true by done.
  rewrite read_paths_log_of; [|done|done|intros p Hp; by apply elem_of_btree_keys]. simpl. f_equal.
  apply sort_recovers; [apply Hh|]. rewrite <-list_fmap_compose. apply records_by_path_perm.
  - apply btree_keys_NoDup.
  - intros r Hr. apply elem_of_btree_keys, log_of_keys. by exists r.
Qed.
End roundtrip.

(** ** A repeated cursor *)

Lemma verify_repeated_from l r1 r2 : ∀ previous,
  verify_contiguous_from previous (l ++ [r1]) = Ok tt → r2.(LogRecord.stream) = r1.(LogRecord.stream) →
  r2.(LogRecord.cursor) = r1.(LogRecord.cursor) → r1.(LogRecord.cursor).(Cursor.seq) < u64_max →
  verify_contiguous_from previous (l ++ [r1; r2]) = Err (ContractViolation.CursorRepeated r1.(LogRecord.cursor).(Cursor.seq)).
Proof.
  induction l as [|x l IH]; intros previous; simpl; rewrite rbind_ok_unit; intros [-> Hl] Hs Hc Hmax; simpl; [|by apply IH].
  unfold check_successor. rewrite Hs, Hc, bool_decide_false by tauto. simpl.
  rewrite (proj2 (Cursor_next_ok r1.(LogRecord.cursor) (Cursor.mk (r1.(LogRecord.cursor).(Cursor.seq) + 1)))) by (simpl; split; [done|lia]).
  simpl. by rewrite bool_decide_true.
Qed.

(** A log in which the last record of a stream comes twice. *)
Lemma repeated_record_unreadable `{Codec} h r1 r2 :
  history_ok (h ++ [r1]) → Forall codec_ok (h ++ [r1; r2]) → r2.(LogRecord.stream) = r1.(LogRecord.stream) →
  r2.(LogRecord.cursor) = r1.(LogRecord.cursor) → r1.(LogRecord.cursor).(Cursor.seq) < u64_max →
  read_all (log_of (h ++ [r1; r2])) =
    Err (StateError.Contract (ContractViolation.CursorRepeated r1.(LogRecord.cursor).(Cursor.seq))).
Proof.
  intros Hh Hc Hs Hcur Hmax. unfold read_all, read_streams.
  assert (record_path r2 = record_path r1) as Hp by (unfold record_path; by rewrite Hs).
  rewrite filter_b_true.
  2: { intros p Hin. apply elem_of_btree_keys, log_of_keys in Hin as (r & _ & <-). apply stream_file_extension. }
  assert (record_path r1 ∈ btree_keys (log_of (h ++ [r1; r2]))) as Hin.
  { apply elem_of_btree_keys, log_of_keys. exists r1. split; [|done]. apply elem_of_app. right. left. }
  assert (∀ p, p ∈ btree_keys (log_of (h ++ [r1; r2])) → is_Some (log_of (h ++ [r1; r2]) !! p)) as Hall
    by (intros p Hx; by apply elem_of_btree_keys).
  assert (∀ p, records_at p (h ++ [r1; r2]) = records_at p (h ++ [r1]) ++ (if bool_decide (record_path r1 = p) then [r2] else [])) as Hat.
  { intros p. change [r1; r2] with ([r1] ++ [r2]). rewrite app_assoc. unfold records_at. rewrite filter_b_app. f_equal. simpl. by rewrite Hp. }
  revert Hin Hall. generalize (btree_keys (log_of (h ++ [r1; r2]))). intros paths Hin Hall.
  match goal with |- rbind ?m _ = Err ?e => assert (m = Err e) as ->; [|done] end.
  induction paths as [|p paths IH]; [by apply elem_of_nil in Hin|]. cbn [read_paths]. unfold read_stream_file at 1.
  destruct (Hall p ltac:(left)) as [content Hl]. rewrite Hl. cbn [ok_or rbind]. rewrite log_of_lookup in Hl. case_bool_decide; [done|].
  injection Hl as <-. rewrite read_lines_content by (rewrite Forall_forall in *; intros r [Hr _]%records_at_elem; by apply Hc).
  cbn [rbind]. rewrite Hat. pose proof (records_at_contiguous (h ++ [r1]) p Hh) as Hok. case_bool_decide as E.
  - assert (records_at p (h ++ [r1]) = records_at p h ++ [r1]) as Er.
    { unfold records_at. rewrite filter_b_app. simpl. by rewrite bool_decide_true. }
    rewrite Er in *. rewrite <-app_assoc. change ([r1] ++ [r2]) with [r1; r2]. unfold verify_contiguous in *.
    by rewrite (verify_repeated_from _ _ _ None Hok).
  - rewrite app_nil_r, Hok. cbn [contract map_err rbind]. rewrite IH; [done| |].
    + apply elem_of_cons in Hin as [?|?]; [congruence|done].
    + intros q Hq. apply Hall. by right.
Qed.

(** ** File names identify streams whose identifiers are safe *)

Definition safe_identifier (s : string) : Prop := ∀ c, c ∈ bytes_of s → safe_char c = true.

Lemma sanitise_safe s : safe_identifier s → sanitise s = s.
Proof.
  induction s as [|c s IH]; intros Hs; simpl; [done|]. rewrite (Hs c) by left.
  rewrite IH; [done|]. intros d Hd. apply Hs. by right.
Qed.

Lemma str_length_append (a b : string) : String.length (a +:+ b) = (String.length a + String.length b)%nat.
Proof. induction a as [|x a IH]; [done|]. rewrite append_cons_l. simpl. by rewrite IH. Qed.

Lemma append_inj_r (a b c : string) : a +:+ c = b +:+ c → a = b.
Proof.
  intros E. assert (String.length a = String.length b) as Hlen.
  { apply (f_equal String.length) in E. rewrite !str_length_append in E. lia. }
  by destruct (append_inj_length a b c c Hlen E).
Qed.

Lemma stream_file_name_inj s1 s2 :
  safe_identifier (stream_identifier s1) → safe_identifier (stream_identifier s2) →
  stream_file_name s1 = stream_file_name s2 → s1 = s2.
Proof.
  unfold stream_file_name. intros H1 H2. rewrite !sanitise_safe by done.
  destruct s1 as [[i]|[i]|[i]|[i]], s2 as [[j]|[j]|[j]|[j]]; simpl; intros E; try discriminate E;
    apply append_inj_l in E; rewrite <-!append_assoc in E; by apply append_inj_r, append_inj_l in E as ->.
Qed.

(** Appending any history of records with increasing timestamps and contiguous streams to an empty directory,
    one file per stream, and reading all the files back returns that history in its original order. *)
Theorem read_all_returns_history `{Codec} h
    (Hs : ∀ r, r ∈ h → safe_identifier (stream_identifier r.(LogRecord.stream)))
    (Ht : times_increase h) (Hr : cursors_in_range h)
    (Hcur : ∀ stream, run_from stream 0 (filter_b (λ r, bool_decide (r.(LogRecord.stream) = stream)) h))
    (Hc : Forall codec_ok h) :
  read_all (foldl (λ log r, (append log r IoOutcome.Written).1) ∅ h) = Ok h.
Proof.
  apply read_all_log_of; [split; try done|done].
  intros r1 r2 H1 H2. apply stream_file_name_inj; by apply Hs.
Qed.

(** Two records in one file are read back only if they are contiguous. *)
Lemma two_records_unreadable `{Codec} r1 r2 violation :
  record_path r1 = record_path r2 → codec_ok r1 → codec_ok r2 →
  verify_contiguous [r1; r2] = Err violation →
  read_all (log_of [r1; r2]) = Err (StateError.Contract violation).
Proof.
  intros Hp Hc1 Hc2 Hv. unfold read_all, read_streams.
  assert (btree_keys (log_of [r1; r2]) = [record_path r1]) as ->.
  { apply Permutation_singleton_r. apply NoDup_Permutation; [apply btree_keys_NoDup|apply NoDup_singleton|].
    intros p. rewrite elem_of_btree_keys, log_of_keys, list_elem_of_singleton.
    setoid_rewrite elem_of_cons. setoid_rewrite list_elem_of_singleton. naive_solver. }
  rewrite filter_b_true by (intros p ->%list_elem_of_singleton; apply stream_file_extension).
  cbn [read_paths]. unfold read_stream_file. rewrite log_of_lookup.
  assert (records_at (record_path r1) [r1; r2] = [r1; r2]) as E.
  { unfold records_at. simpl. by rewrite !bool_decide_true. }
  rewrite E. rewrite bool_decide_false by done. cbn [ok_or rbind].
  rewrite read_lines_content by (by rewrite !Forall_cons, Forall_nil). cbn [rbind]. by rewrite Hv.
Qed.

Definition collision_record (session : string) (seq at_ms : Z) : LogRecord :=
  LogRecord.mk (Cursor.mk seq) (StreamKey.Session (mkId session)) at_ms
    (StateEffect.SessionStatusChanged (mkId session) SessionStatus.Idle).

(** Two different session streams whose identifiers differ only in a character a file name does not keep share
    one file, and a log with one record of each can no longer be read. *)
Theorem sanitised_names_can_collide `{Codec} at1 at2
    (Hc1 : codec_ok (collision_record "a/b" 0 at1)) (Hc2 : codec_ok (collision_record "a_b" 0 at2)) :
  StreamKey.Session (mkId "a/b") ≠ StreamKey.Session (mkId "a_b") ∧
  stream_file_name (StreamKey.Session (mkId "a/b")) = stream_file_name (StreamKey.Session (mkId "a_b")) ∧
  read_all (append_written (append_written ∅ (collision_record "a/b" 0 at1)) (collision_record "a_b" 0 at2)) =
    Err (StateError.Contract ContractViolation.MixedStreams).
Proof.
  split_and!; [by intros [=]|reflexivity|]. by apply (two_records_unreadable
    (collision_record "a/b" 0 at1) (collision_record "a_b" 0 at2)).
Qed.
