(* ===== verification/ProjectionJournal.v ===== *)
(** * The projection journal

    Models [crates/kaleido-state/src/projection_journal.rs]: the complete views
    of each projection key, numbered by their own cursors, kept in memory and in
    one append-only file per key; recording a view, reading the files back,
    reconciling them with the history the canonical log implies, and answering
    a subscription.  The JSON codec and SHA-256 are parameters. *)
From stdpp Require Import prelude strings gmap sorting.
From Stdlib Require Import ZArith Lia Ascii.
From S2P Require Import Prelude ProtoBase ProtoContent ProtoRuntime ProtoTurn ProtoQueue ProtoWorkflow ProtoAttention ProtoCommand ProtoEffect ProtoProjection CanonState CanonInvariants ReadModelBuild DurableLog.

Local Open Scope Z_scope.

(** ** Data *)

Definition DEFAULT_RETENTION_ENTRIES : nat := 256.

(** [serde_json] on envelopes and on keys. *)
Class EnvelopeCodec := {
  encode_envelope : ProjectionEnvelope → string;
  decode_envelope : string → option ProjectionEnvelope;
  encode_key : ProjectionKey → string
}.

(** [root] tells a persistent journal from one in memory; [files] is the
    projection directory. *)
Module ProjectionJournal.
Record ProjectionJournal : Type := mk {
  root : bool;
  retention_entries : nat;
  entries : gmap ProjectionKey (list ProjectionEnvelope);
  files : gmap string string
}.
End ProjectionJournal.
Abbreviation ProjectionJournal := ProjectionJournal.ProjectionJournal.

Definition ProjectionJournal_set_entries (v : gmap ProjectionKey (list ProjectionEnvelope)) (r : ProjectionJournal) : ProjectionJournal := {|
  ProjectionJournal.root := r.(ProjectionJournal.root);
  ProjectionJournal.retention_entries := r.(ProjectionJournal.retention_entries);
  ProjectionJournal.entries := v;
  ProjectionJournal.files := r.(ProjectionJournal.files)
|}.

Definition ProjectionJournal_set_files (v : gmap string string) (r : ProjectionJournal) : ProjectionJournal := {|
  ProjectionJournal.root := r.(ProjectionJournal.root);
  ProjectionJournal.retention_entries := r.(ProjectionJournal.retention_entries);
  ProjectionJournal.entries := r.(ProjectionJournal.entries);
  ProjectionJournal.files := v
|}.

Module ProjectionReplay.
Record ProjectionReplay : Type := mk {
  ack : ProjectionSubscribeAck;
  envelopes : list ProjectionEnvelope
}.
End ProjectionReplay.
Abbreviation ProjectionReplay := ProjectionReplay.ProjectionReplay.

(** ** Reading the history of a key *)

Definition entries_of (j : ProjectionJournal) (key : ProjectionKey) : list ProjectionEnvelope :=
  default [] (j.(ProjectionJournal.entries) !! key).

Definition current (j : ProjectionJournal) (key : ProjectionKey) : option ProjectionEnvelope :=
  entries ← j.(ProjectionJournal.entries) !! key; last entries.

Definition head_cursor (j : ProjectionJournal) (key : ProjectionKey) : option Cursor :=
  ProjectionEnvelope.cursor <$> current j key.

Definition floor_cursor (j : ProjectionJournal) (key : ProjectionKey) : option Cursor :=
  entries ← j.(ProjectionJournal.entries) !! key;
  ProjectionEnvelope.cursor <$> entries !! (length entries - j.(ProjectionJournal.retention_entries))%nat.

Definition rejected_replay (request : ProjectionSubscribe) (code : ErrorCode) (retriable : bool) (at_ms : Z)
    : ProjectionReplay :=
  ProjectionReplay.mk (ProjectionSubscribeAck.mk request.(ProjectionSubscribe.key)
    (ProjectionSubscribeOutcome.Rejected (CanonicalError.mk code retriable None at_ms))) [].

(** The views that follow a decision. *)
Definition replayed_envelopes (outcome : ProjectionSubscribeOutcome) (entries : list ProjectionEnvelope)
    : list ProjectionEnvelope :=
  match outcome with
  | ProjectionSubscribeOutcome.CurrentFollows current_cursor =>
      option_list (find_first (λ entry, bool_decide (entry.(ProjectionEnvelope.cursor) = current_cursor)) entries)
  | ProjectionSubscribeOutcome.Resumed from_cursor =>
      filter_b (λ entry, from_cursor.(Cursor.seq) <=? entry.(ProjectionEnvelope.cursor).(Cursor.seq)) entries
  | ProjectionSubscribeOutcome.Rejected _ => []
  end.

Definition replay (j : ProjectionJournal) (request : ProjectionSubscribe) (at_ms : Z)
    : result ProjectionReplay StateError :=
  let key := request.(ProjectionSubscribe.key) in
  contract (ProjectionKey_validate key) ;?
  match head_cursor j key with
  | None => Ok (rejected_replay request ErrorCode.NotFound false at_ms)
  | Some head =>
      let? floor := ok_or (floor_cursor j key) (StateError.ProjectionJournalDiverged key) in
      let? ack := contract (decide_projection_subscription request floor head at_ms) in
      let? entries := ok_or (j.(ProjectionJournal.entries) !! key) (StateError.ProjectionJournalDiverged key) in
      Ok (ProjectionReplay.mk ack (replayed_envelopes ack.(ProjectionSubscribeAck.outcome) entries))
  end.

Section journal.
Context `{EnvelopeCodec} (hex_digest : string → string).

(** ** Opening and recording *)

Definition journal_path (key : ProjectionKey) : string := hex_digest (encode_key key) +:+ ".jsonl".

(** [ProjectionJournal::memory] *)
Definition memory (retention_entries : nat) : result ProjectionJournal StateError :=
  reject_if (retention_entries =? 0)%nat StateError.InvalidProjectionRetention ;?
  Ok (ProjectionJournal.mk false retention_entries ∅ ∅).

Definition append_file (j : ProjectionJournal) (envelope : ProjectionEnvelope) (io : IoOutcome)
    : ProjectionJournal * result unit StateError :=
  if negb j.(ProjectionJournal.root) then (j, Ok tt)
  else
    let path := journal_path envelope.(ProjectionEnvelope.key) in
    let line := encode_envelope envelope +:+ String newline "" in
    let content := default "" (j.(ProjectionJournal.files) !! path) in
    match io with
    | IoOutcome.Written =>
        (ProjectionJournal_set_files (<[path := content +:+ line]> j.(ProjectionJournal.files)) j, Ok tt)
    | IoOutcome.Failed bytes =>
        (ProjectionJournal_set_files (<[path := content +:+ str_take bytes line]> j.(ProjectionJournal.files)) j,
         Err (StateError.Io path))
    | IoOutcome.NotOpened => (j, Err (StateError.Io path))
    end.

(** [self.entries.entry(key).or_default().push(envelope)] *)
Definition push_entry (j : ProjectionJournal) (envelope : ProjectionEnvelope) : ProjectionJournal :=
  let key := envelope.(ProjectionEnvelope.key) in
  ProjectionJournal_set_entries
    (<[key := entries_of j key ++ [envelope]]> j.(ProjectionJournal.entries)) j.

(** The envelope [record] appends, or none when the view did not change. *)
Definition next_envelope (j : ProjectionJournal) (key : ProjectionKey) (payload : ProjectionPayload)
    : result (option ProjectionEnvelope) StateError :=
  contract (ProjectionPayload_validate_for_key payload key) ;?
  if is_some_and (current j key) (λ current, bool_decide (current.(ProjectionEnvelope.payload) = payload))
  then Ok None
  else
    let? cursor := match head_cursor j key with
                   | Some previous => contract (Cursor_next previous)
                   | None => Ok Cursor_START
                   end in
    let envelope := ProjectionEnvelope.mk PROJECTION_VERSION key cursor payload in
    contract (ProjectionEnvelope_validate_for_transport envelope) ;?
    Ok (Some envelope).

Definition record (j : ProjectionJournal) (io : IoOutcome) (key : ProjectionKey) (payload : ProjectionPayload)
    : ProjectionJournal * result (option ProjectionEnvelope) StateError :=
  match next_envelope j key payload with
  | Err e => (j, Err e)
  | Ok None => (j, Ok None)
  | Ok (Some envelope) =>
      match append_file j envelope io with
      | (j', Err e) => (j', Err e)
      | (j', Ok _) => (push_entry j' envelope, Ok (Some envelope))
      end
  end.

(** ** Reconciling with the canonical log *)

Definition entries_diverge (actual expected : list ProjectionEnvelope) : bool :=
  (length expected <? length actual)%nat
  || existsb (λ '(a, e), bool_decide (a ≠ e)) (zip actual expected).

(** The check of one key.  The source walks a hash map, whose order is not
    specified: which of several divergent keys is reported is not either. *)
Definition check_prefix (expected : ProjectionJournal) (entry : ProjectionKey * list ProjectionEnvelope)
    : result unit StateError :=
  match expected.(ProjectionJournal.entries) !! entry.1 with
  | None => Err (StateError.ProjectionJournalDiverged entry.1)
  | Some expected_entries =>
      reject_if (entries_diverge entry.2 expected_entries) (StateError.ProjectionJournalDiverged entry.1)
  end.

(** Append the missing envelopes of one key; [ios] are the outcomes of the
    appends, a successful one when the list has run out. *)
Fixpoint append_missing (j : ProjectionJournal) (ios : list IoOutcome) (envelopes : list ProjectionEnvelope)
    : ProjectionJournal * list IoOutcome * result unit StateError :=
  match envelopes with
  | [] => (j, ios, Ok tt)
  | envelope :: rest =>
      match append_file j envelope (default IoOutcome.Written (head ios)) with
      | (j', Ok _) => append_missing (push_entry j' envelope) (tail ios) rest
      | (j', Err e) => (j', tail ios, Err e)
      end
  end.

Fixpoint repair_keys (j : ProjectionJournal) (ios : list IoOutcome)
    (expected : list (ProjectionKey * list ProjectionEnvelope)) : ProjectionJournal * result unit StateError :=
  match expected with
  | [] => (j, Ok tt)
  | (key, expected_entries) :: rest =>
      match append_missing j ios (drop (length (entries_of j key)) expected_entries) with
      | (j', ios', Ok _) => repair_keys j' ios' rest
      | (j', _, Err e) => (j', Err e)
      end
  end.

Definition reconcile (j : ProjectionJournal) (ios : list IoOutcome) (expected : ProjectionJournal)
    : ProjectionJournal * result unit StateError :=
  match try_for_each (check_prefix expected) (map_to_list j.(ProjectionJournal.entries)) with
  | Err e => (j, Err e)
  | Ok _ => repair_keys j ios (map_to_list expected.(ProjectionJournal.entries))
  end.

(** ** Changes since a checkpoint *)

Definition checkpoint (j : ProjectionJournal) : gmap ProjectionKey nat :=
  length <$> j.(ProjectionJournal.entries).

Definition changes_since (j : ProjectionJournal) (checkpoint : gmap ProjectionKey nat)
    : list ProjectionEnvelope :=
  sort_by (λ left right, str_leb (encode_key left.(ProjectionEnvelope.key))
                                 (encode_key right.(ProjectionEnvelope.key)))
    ('(key, entries) ← map_to_list j.(ProjectionJournal.entries);
     drop (default 0%nat (checkpoint !! key)) entries).

(** ** Reading the files *)

(** The checks [read_file] makes of one envelope against the previous one. *)
Definition check_envelope (previous : option ProjectionEnvelope) (envelope : ProjectionEnvelope)
    : contract_check :=
  ProjectionEnvelope_validate_for_transport envelope ;?
  match previous with
  | Some previous =>
      reject_if (bool_decide (envelope.(ProjectionEnvelope.key) ≠ previous.(ProjectionEnvelope.key)))
                ContractViolation.MixedProjectionKeys ;?
      reject_if (bool_decide (envelope.(ProjectionEnvelope.cursor) = previous.(ProjectionEnvelope.cursor)))
        (ContractViolation.CursorRepeated envelope.(ProjectionEnvelope.cursor).(Cursor.seq)) ;?
      let? expected := Cursor_next previous.(ProjectionEnvelope.cursor) in
      reject_if (bool_decide (envelope.(ProjectionEnvelope.cursor) ≠ expected))
        (ContractViolation.CursorGap expected.(Cursor.seq) envelope.(ProjectionEnvelope.cursor).(Cursor.seq))
  | None =>
      reject_if (bool_decide (envelope.(ProjectionEnvelope.cursor) ≠ Cursor_START))
        (ContractViolation.CursorGap Cursor_START.(Cursor.seq) envelope.(ProjectionEnvelope.cursor).(Cursor.seq))
  end.

Fixpoint read_envelopes (path : string) (index : Z) (previous : option ProjectionEnvelope) (lines : list string)
    : result (list ProjectionEnvelope) StateError :=
  match lines with
  | [] => Ok []
  | line :: rest =>
      if is_blank line then read_envelopes path (index + 1) previous rest
      else
        let? envelope := ok_or (decode_envelope line) (StateError.MalformedRecord path (index + 1)) in
        contract (check_envelope previous envelope) ;?
        let? envelopes := read_envelopes path (index + 1) (Some envelope) rest in
        Ok (envelope :: envelopes)
  end.

(** The loop of [read_all] over the sorted paths. *)
Fixpoint read_journal_paths (files : gmap string string)
    (entries : gmap ProjectionKey (list ProjectionEnvelope)) (paths : list string)
    : result (gmap ProjectionKey (list ProjectionEnvelope)) StateError :=
  match paths with
  | [] => Ok entries
  | path :: rest =>
      let? content := ok_or (files !! path) (StateError.Io path) in
      let? envelopes := read_envelopes path 0 None (lines_of content) in
      match envelopes with
      | [] => read_journal_paths files entries rest
      | first :: _ =>
          let key := first.(ProjectionEnvelope.key) in
          reject_if (bool_decide (journal_path key ≠ path) || is_some (entries !! key))
                    (StateError.ProjectionJournalDiverged key) ;?
          read_journal_paths files (<[key := envelopes]> entries) rest
      end
  end.

(** [ProjectionJournal::open_with_retention] on an existing directory. *)
Definition open_with_retention (files : gmap string string) (retention_entries : nat)
    : result ProjectionJournal StateError :=
  reject_if (retention_entries =? 0)%nat StateError.InvalidProjectionRetention ;?
  let? entries := read_journal_paths files ∅ (filter_b has_jsonl_extension (btree_keys files)) in
  Ok (ProjectionJournal.mk true retention_entries entries files).

End journal.

(** ** The journal invariant *)

(** The history of one key: numbered from zero without gaps, every view
    transportable and different from the one before it. *)
Record history_wf (key : ProjectionKey) (es : list ProjectionEnvelope) : Prop := {
  history_nonempty : es ≠ [];
  history_run : envelope_run key 0 es;
  history_range : Z.of_nat (length es) - 1 ≤ u64_max;
  history_changes : ∀ i a b, es !! i = Some a → es !! S i = Some b →
    a.(ProjectionEnvelope.payload) ≠ b.(ProjectionEnvelope.payload)
}.

Record journal_wf (j : ProjectionJournal) : Prop := {
  journal_histories : ∀ key es, j.(ProjectionJournal.entries) !! key = Some es → history_wf key es;
  journal_retention : j.(ProjectionJournal.retention_entries) ≠ 0%nat
}.

Lemma history_last key es :
  history_wf key es → ∃ e, last es = Some e ∧ e.(ProjectionEnvelope.cursor).(Cursor.seq) = Z.of_nat (length es) - 1.
Proof.
  intros [Hne Hrun _ _]. rewrite last_lookup. destruct es as [|x es]; [done|]. simpl.
  destruct (lookup_lt_is_Some_2 (x :: es) (length es)) as [e He]; [simpl; lia|]. exists e. split; [done|].
  destruct (Hrun _ _ He) as (_ & _ & ->). lia.
Qed.

Lemma head_cursor_wf j key :
  journal_wf j →
  match head_cursor j key with
  | Some c => c.(Cursor.seq) = Z.of_nat (length (entries_of j key)) - 1
  | None => j.(ProjectionJournal.entries) !! key = None
  end.
Proof.
  intros Hj. unfold head_cursor, current, entries_of.
  destruct (j.(ProjectionJournal.entries) !! key) as [es|] eqn:E; simpl; [|done].
  destruct (history_last key es) as (e & -> & He); [by eapply journal_histories|]. by simpl.
Qed.

(** The envelope that extends a history. *)
Lemma next_envelope_some j key payload e :
  journal_wf j → next_envelope j key payload = Ok (Some e) →
  e = ProjectionEnvelope.mk PROJECTION_VERSION key (Cursor.mk (Z.of_nat (length (entries_of j key)))) payload ∧
  ProjectionEnvelope_validate_for_transport e = Ok tt ∧ Z.of_nat (length (entries_of j key)) ≤ u64_max ∧
  (∀ x, current j key = Some x → x.(ProjectionEnvelope.payload) ≠ payload).
Proof.
  intros Hj. pose proof (head_cursor_wf j key Hj) as Hh. unfold next_envelope. rewrite rbind_ok_unit.
  intros [_ Hn]. destruct (is_some_and _ _) eqn:Hsame; [done|]. rewrite rbind_ok in Hn.
  destruct Hn as (cursor & Hc & Hn). rewrite rbind_ok_unit in Hn. destruct Hn as [Ht%map_err_ok [= <-]].
  assert (cursor = Cursor.mk (Z.of_nat (length (entries_of j key))) ∧
          Z.of_nat (length (entries_of j key)) ≤ u64_max) as [-> Hmax].
  { destruct (head_cursor j key) as [prev|].
    - apply map_err_ok, Cursor_next_ok in Hc as [Hc Hmax]. split; [|lia].
      destruct cursor as [n]. simpl in *. f_equal. lia.
    - injection Hc as <-. unfold entries_of. rewrite Hh. simpl. unfold u64_max. split; [done|lia]. }
  split_and!; try done. rewrite is_some_and_false in Hsame. intros x Hx.
  specialize (Hsame x Hx). by apply bool_decide_eq_false in Hsame.
Qed.

Lemma history_snoc key es e :
  (es = [] ∨ history_wf key es) →
  ProjectionEnvelope_validate_for_transport e = Ok tt → e.(ProjectionEnvelope.key) = key →
  e.(ProjectionEnvelope.cursor).(Cursor.seq) = Z.of_nat (length es) → Z.of_nat (length es) ≤ u64_max →
  (∀ x, last es = Some x → x.(ProjectionEnvelope.payload) ≠ e.(ProjectionEnvelope.payload)) →
  history_wf key (es ++ [e]).
Proof.
  intros Hes Ht Hk Hc Hmax Hne. split.
  - by destruct es.
  - intros i x [[Hi Hx]|[-> <-]]%lookup_snoc_Some; [|by rewrite Hc].
    destruct Hes as [->|Hw]; [done|]. by apply (history_run _ _ Hw).
  - rewrite length_app. simpl. lia.
  - intros i a b [[Hi Ha]|[-> <-]]%lookup_snoc_Some Hb; [|rewrite lookup_ge_None_2 in Hb; [done|rewrite length_app; simpl; lia]].
    apply lookup_snoc_Some in Hb as [[Hi' Hb]|[Hlen <-]].
    + destruct Hes as [->|Hw]; [done|]. by eapply (history_changes _ _ Hw).
    + apply Hne. by rewrite last_lookup, <-Hlen.
Qed.

Lemma next_envelope_key j key payload e :
  next_envelope j key payload = Ok (Some e) → e.(ProjectionEnvelope.key) = key.
Proof.
  unfold next_envelope. rewrite rbind_ok_unit. intros [_ E].
  destruct (is_some_and _ _); [done|]. rewrite rbind_ok in E. destruct E as (c & _ & E).
  rewrite rbind_ok_unit in E. by destruct E as [_ [= <-]].
Qed.

Section recording.
Context `{EnvelopeCodec} (hex_digest : string → string).

(** Recording keeps the invariant, whatever becomes of the append. *)
Lemma record_wf j io key payload :
  journal_wf j → journal_wf (record hex_digest j io key payload).1.
Proof.
  intros Hj. unfold record. destruct (next_envelope j key payload) as [[e|]|] eqn:E; [|done|done].
  apply next_envelope_some in E as (-> & Ht & Hmax & Hne); [|done].
  assert (∀ f, journal_wf (ProjectionJournal_set_files f j)) as Hfiles by (intros f; destruct Hj; by split).
  assert (∀ f, journal_wf (push_entry (ProjectionJournal_set_files f j)
    (ProjectionEnvelope.mk PROJECTION_VERSION key (Cursor.mk (Z.of_nat (length (entries_of j key)))) payload))) as Hpush.
  { intros f. split; [|apply Hj]. intros k es. simpl. intros [[<- <-]|[Hk Hes]]%lookup_insert_Some;
      [|by eapply journal_histories].
    change (entries_of (ProjectionJournal_set_files f j) key) with (entries_of j key).
    apply history_snoc; try done.
    - unfold entries_of. destruct (j.(ProjectionJournal.entries) !! key) as [es|] eqn:E; [right; by eapply journal_histories|].
      left. reflexivity.
    - intros x Hx. apply Hne. unfold current, entries_of in *.
      by destruct (j.(ProjectionJournal.entries) !! key). }
  unfold append_file. destruct (j.(ProjectionJournal.root)) eqn:Er; simpl.
  - destruct io; simpl; [apply Hpush|apply Hfiles|done].
  - specialize (Hpush j.(ProjectionJournal.files)). by destruct j.
Qed.
End recording.

(** ** Answering a subscription *)

Lemma filter_run key n from es :
  envelope_run key n es → n ≤ from →
  filter_b (λ e, from <=? e.(ProjectionEnvelope.cursor).(Cursor.seq)) es = drop (Z.to_nat (from - n)) es.
Proof.
  revert n. induction es as [|e es IH]; intros n; [by rewrite drop_nil|].
  rewrite envelope_run_cons. intros [(_ & _ & Hc) Hrun] Hle. simpl. rewrite Hc.
  destruct (Z.leb_spec from n) as [Hfrom|Hfrom].
  - replace from with n by lia. rewrite Z.sub_diag. simpl. f_equal.
    clear IH Hle Hfrom from. assert (∀ x, x ∈ es → n <=? x.(ProjectionEnvelope.cursor).(Cursor.seq) = true) as Hall.
    { intros x [i Hi]%list_elem_of_lookup. destruct (Hrun i x Hi) as (_ & _ & ->). apply Z.leb_le. lia. }
    clear Hrun. induction es as [|x es IH]; [done|]. simpl. rewrite (Hall x) by left.
    f_equal. apply IH. intros y Hy. apply Hall. by right.
  - rewrite (IH (n + 1)) by (done || lia). replace (Z.to_nat (from - n)) with (S (Z.to_nat (from - (n + 1)))) by lia.
    done.
Qed.

Lemma envelope_run_drop key n k es : envelope_run key n es → envelope_run key (n + Z.of_nat k) (drop k es).
Proof.
  intros Hrun i e. rewrite lookup_drop. intros He. destruct (Hrun _ _ He) as (? & ? & Hc).
  split_and!; [done..|]. rewrite Hc. lia.
Qed.

Lemma floor_cursor_wf j key es :
  journal_wf j → j.(ProjectionJournal.entries) !! key = Some es →
  ∃ c, floor_cursor j key = Some c ∧ c.(Cursor.seq) ≤ Z.of_nat (length es) - 1.
Proof.
  intros Hj Hes. destruct (journal_histories j Hj key es Hes) as [Hne Hrun _ _]. unfold floor_cursor. rewrite Hes. simpl.
  pose proof (journal_retention j Hj) as Hret.
  destruct (lookup_lt_is_Some_2 es (length es - j.(ProjectionJournal.retention_entries))%nat) as [e He].
  { destruct es; [done|]. simpl. lia. }
  exists e.(ProjectionEnvelope.cursor). rewrite He. split; [done|]. destruct (Hrun _ _ He) as (_ & _ & ->).
  destruct es; [done|]. simpl in *. lia.
Qed.

Lemma find_last key es e :
  history_wf key es → last es = Some e →
  find_first (λ x, bool_decide (x.(ProjectionEnvelope.cursor) = e.(ProjectionEnvelope.cursor))) es = Some e.
Proof.
  intros [_ Hrun _ _] Hl. apply (find_first_unique ProjectionEnvelope.cursor); [|by apply last_Some_elem_of].
  apply NoDup_alt. intros i k c. rewrite !list_lookup_fmap, !fmap_Some.
  intros (x & Hx & ->) (y & Hy & Heq). destruct (Hrun _ _ Hx) as (_ & _ & Cx), (Hrun _ _ Hy) as (_ & _ & Cy).
  rewrite Heq in Cx. lia.
Qed.

(** A well-formed journal answers every subscription to a valid key: the client accepts the acknowledgement; a
    resumed subscription gets exactly the retained views after its cursor, all of them, and they pass the
    sequence check of the client; otherwise it gets the current view alone, or a rejection and nothing. *)
Theorem replay_serves_subscription j request at_ms (Hj : journal_wf j)
    (Hk : ProjectionKey_validate request.(ProjectionSubscribe.key) = Ok tt)
    (Hs : ∀ since, request.(ProjectionSubscribe.since) = Some since → in_u64 since.(Cursor.seq)) :
  ∃ r, replay j request at_ms = Ok r ∧
    ProjectionSubscribeAck_validate_for r.(ProjectionReplay.ack) request = Ok tt ∧
    match r.(ProjectionReplay.ack).(ProjectionSubscribeAck.outcome) with
    | ProjectionSubscribeOutcome.Resumed _ => ∃ since, request.(ProjectionSubscribe.since) = Some since ∧
        r.(ProjectionReplay.envelopes) =
          drop (Z.to_nat (since.(Cursor.seq) + 1)) (entries_of j request.(ProjectionSubscribe.key)) ∧
        validate_projection_sequence request.(ProjectionSubscribe.key) since r.(ProjectionReplay.envelopes) = Ok tt
    | ProjectionSubscribeOutcome.CurrentFollows current_cursor =>
        ∃ e, current j request.(ProjectionSubscribe.key) = Some e ∧
          e.(ProjectionEnvelope.cursor) = current_cursor ∧ r.(ProjectionReplay.envelopes) = [e]
    | ProjectionSubscribeOutcome.Rejected _ => r.(ProjectionReplay.envelopes) = []
    end.
Proof.
  unfold replay. rewrite Hk. simpl. set (key := request.(ProjectionSubscribe.key)) in *.
  destruct (j.(ProjectionJournal.entries) !! key) as [es|] eqn:Hes.
  2: { unfold head_cursor, current. rewrite Hes. simpl. eexists. split; [done|]. simpl. split; [|done].
       unfold ProjectionSubscribeAck_validate_for. simpl. fold key. rewrite Hk. simpl.
       by rewrite bool_decide_false by tauto. }
  pose proof (journal_histories j Hj key es Hes) as Hw. destruct (history_last key es Hw) as (e & Hlast & Hc).
  destruct (floor_cursor_wf j key es Hj Hes) as (floor & Hf & Hle).
  assert (current j key = Some e) as Hcur by (unfold current; by rewrite Hes).
  unfold head_cursor. rewrite Hcur, Hf. simpl.
  unfold decide_projection_subscription. fold key. rewrite Hk. simpl.
  rewrite (proj2 (Z.ltb_ge _ _)) by lia. simpl.
  destruct (subscription_outcome_ok request floor e.(ProjectionEnvelope.cursor) at_ms) as (outcome & -> & Ho); [lia|].
  simpl. eexists. split; [done|]. simpl. fold key. unfold ProjectionSubscribeAck_validate_for. simpl.
  fold key. rewrite Hk. simpl. rewrite bool_decide_false by tauto. simpl. unfold entries_of. rewrite Hes.
  destruct outcome as [c|c|err]; simpl.
  - destruct Ho as (_ & since & Hsince & Hn & Hhead). rewrite Hsince. simpl. rewrite Hn. simpl.
    rewrite bool_decide_false by tauto. apply Cursor_next_ok in Hn as [Hn _]. specialize (Hs since Hsince).
    destruct Hs as [Hs _]. split; [done|]. exists since. split; [done|]. rewrite Hn.
    rewrite (filter_run key 0) by (apply Hw || lia). rewrite Z.sub_0_r. split; [done|].
    unfold validate_projection_sequence. rewrite Hk. simpl. apply projection_sequence_from_ok. split.
    + replace (since.(Cursor.seq) + 1) with (0 + Z.of_nat (Z.to_nat (since.(Cursor.seq) + 1))) at 1 by lia.
      apply envelope_run_drop, Hw.
    + right. rewrite length_drop. pose proof (history_range _ _ Hw). lia.
  - destruct Ho as [-> Ho]. split.
    + apply if_some_ok. intros since Hsince. specialize (Ho since Hsince). apply reject_if_ok, Z.leb_gt. lia.
    + exists e. split; [done|]. split; [done|]. by rewrite (find_last key es e Hw Hlast).
  - subst err. done.
Qed.

(** ** Reconciliation *)

(** What is persisted is a prefix of what the canonical log implies. *)
Definition journal_prefix (j expected : ProjectionJournal) : Prop :=
  ∀ key es, j.(ProjectionJournal.entries) !! key = Some es →
    ∃ es', expected.(ProjectionJournal.entries) !! key = Some es' ∧ es `prefix_of` es'.

Lemma entries_diverge_false actual expected :
  entries_diverge actual expected = false ↔ actual `prefix_of` expected.
Proof.
  unfold entries_diverge. revert expected. induction actual as [|a actual IH]; intros expected; simpl.
  { split; [intros _; apply prefix_nil|]. intros _. by destruct expected. }
  destruct expected as [|e expected]; simpl.
  { split; [done|]. intros H%prefix_nil_inv. done. }
  specialize (IH expected). change (S (length expected) <? S (length actual))%nat with (length expected <? length actual)%nat.
  rewrite orb_false_iff, orb_false_iff, bool_decide_neq_false in *. split.
  - intros (Hl & -> & Hz). apply prefix_cons, IH. by split.
  - intros Hp. pose proof (prefix_cons_inv_1 _ _ _ _ Hp) as ->. apply prefix_cons_inv_2 in Hp.
    apply IH in Hp as [? ?]. by split_and!.
Qed.

Lemma check_prefix_ok j expected :
  try_for_each (check_prefix expected) (map_to_list j.(ProjectionJournal.entries)) = Ok tt ↔
  journal_prefix j expected.
Proof.
  rewrite try_for_each_ok. split.
  - intros H key es Hes. specialize (H (key, es) (proj2 (elem_of_map_to_list _ _ _) Hes)).
    unfold check_prefix in H. simpl in H. destruct (_ !! key) as [es'|]; [|done].
    apply reject_if_ok, entries_diverge_false in H. by exists es'.
  - intros H [key es] Hin%elem_of_map_to_list. destruct (H key es Hin) as (es' & He & Hp).
    unfold check_prefix. simpl. rewrite He. by apply reject_if_ok, entries_diverge_false.
Qed.

Section reconciling.
Context `{EnvelopeCodec} (hex_digest : string → string).

Abbreviation all_written ios := (Forall (λ io, io = IoOutcome.Written) ios).

Lemma append_file_written j e :
  ∃ f, append_file hex_digest j e IoOutcome.Written = (ProjectionJournal_set_files f j, Ok tt).
Proof.
  unfold append_file. destruct (j.(ProjectionJournal.root)) eqn:E; simpl; [by eexists|].
  exists j.(ProjectionJournal.files). by destruct j.
Qed.

Lemma append_missing_ok j ios key es :
  all_written ios → (∀ e, e ∈ es → e.(ProjectionEnvelope.key) = key) →
  ∃ j' ios', append_missing hex_digest j ios es = (j', ios', Ok tt) ∧ all_written ios' ∧
    j'.(ProjectionJournal.retention_entries) = j.(ProjectionJournal.retention_entries) ∧
    j'.(ProjectionJournal.entries) =
      if bool_decide (es = []) then j.(ProjectionJournal.entries)
      else <[key := entries_of j key ++ es]> j.(ProjectionJournal.entries).
Proof.
  revert j ios. induction es as [|e es IH]; intros j ios Hio Hk; simpl; [by eexists _, _|].
  assert (default IoOutcome.Written (head ios) = IoOutcome.Written) as ->.
  { destruct Hio; [done|by subst]. }
  destruct (append_file_written j e) as [f ->].
  destruct (IH (push_entry (ProjectionJournal_set_files f j) e) (tail ios)) as (j' & ios' & -> & Hio' & Hret & Hent).
  { by destruct Hio. }
  { intros x Hx. apply Hk. by right. }
  eexists _, _. split_and!; [done..|]. rewrite Hent. specialize (Hk e (list_elem_of_here e es)). simpl.
  unfold entries_of. simpl. rewrite Hk. rewrite lookup_insert_eq. simpl.
  case_bool_decide as Hes; [by subst es|]. by rewrite insert_insert_eq, <-app_assoc.
Qed.

(** Repairing the keys of [m], each once. *)
Lemma repair_keys_ok j ios expected m :
  all_written ios → NoDup m.*1 →
  (∀ key es, (key, es) ∈ m → history_wf key es ∧ entries_of j key `prefix_of` es) →
  (∀ key es, (key, es) ∈ m → expected !! key = Some es) →
  (∀ key, key ∉ m.*1 → j.(ProjectionJournal.entries) !! key = expected !! key) →
  ∃ j', repair_keys hex_digest j ios m = (j', Ok tt) ∧ j'.(ProjectionJournal.entries) = expected ∧
    j'.(ProjectionJournal.retention_entries) = j.(ProjectionJournal.retention_entries).
Proof.
  revert j ios. induction m as [|[key es] m IH]; intros j ios Hio Hnd Hw He Hout; simpl.
  { exists j. split_and!; [done| |done]. apply map_eq. intros key. apply Hout. apply not_elem_of_nil. }
  apply NoDup_cons in Hnd as [Hnew Hnd]. destruct (Hw key es (list_elem_of_here _ _)) as [Hh [rest ->]].
  rewrite drop_app_length.
  destruct (append_missing_ok j ios key rest Hio) as (j' & ios' & -> & Hio' & Hret & Hent).
  { intros e Hin. assert (e ∈ entries_of j key ++ rest) as [i Hi]%list_elem_of_lookup by (apply elem_of_app; by right).
    by destruct (history_run _ _ Hh i e Hi) as (_ & -> & _). }
  assert (j'.(ProjectionJournal.entries) !! key = Some (entries_of j key ++ rest)) as Hkey.
  { rewrite Hent. case_bool_decide as Hr; [|by rewrite lookup_insert_eq]. subst rest. rewrite app_nil_r in *.
    pose proof (history_nonempty _ _ Hh) as Hne. unfold entries_of in *.
    by destruct (j.(ProjectionJournal.entries) !! key). }
  assert (∀ k, k ≠ key → j'.(ProjectionJournal.entries) !! k = j.(ProjectionJournal.entries) !! k) as Hother.
  { intros k Hk. rewrite Hent. case_bool_decide; [done|]. by rewrite lookup_insert_ne. }
  destruct (IH j' ios' Hio' Hnd) as (j'' & -> & Hent' & Hret').
  - intros k es' Hin. destruct (Hw k es') as [Hw1 Hw2]; [by right|]. split; [done|].
    unfold entries_of. rewrite Hother; [done|]. intros ->. apply Hnew. apply list_elem_of_fmap. by exists (key, es').
  - intros k es' Hin. apply He. by right.
  - intros k Hk. destruct (decide (k = key)) as [->|Hne].
    + rewrite Hkey. symmetry. apply He. left.
    + rewrite Hother by done. apply Hout. simpl. rewrite elem_of_cons. by intros [?|?].
  - exists j''. split_and!; [done..|]. by rewrite Hret'.
Qed.

Lemma reconcile_ok j ios expected :
  journal_wf expected → all_written ios → journal_prefix j expected →
  ∃ j', reconcile hex_digest j ios expected = (j', Ok tt) ∧
    j'.(ProjectionJournal.entries) = expected.(ProjectionJournal.entries) ∧
    j'.(ProjectionJournal.retention_entries) = j.(ProjectionJournal.retention_entries).
Proof.
  intros He Hio Hp. unfold reconcile. rewrite (proj2 (check_prefix_ok j expected)) by done.
  destruct (repair_keys_ok j ios expected.(ProjectionJournal.entries)
              (map_to_list expected.(ProjectionJournal.entries))) as (j' & -> & Hent & Hret); [done|..].
  - apply NoDup_fst_map_to_list.
  - intros key es Hin%elem_of_map_to_list. split; [by eapply journal_histories|]. unfold entries_of.
    destruct (j.(ProjectionJournal.entries) !! key) as [es0|] eqn:E; [|apply prefix_nil].
    destruct (Hp key es0 E) as (es' & He' & Hpre). simpl. congruence.
  - by intros key es Hin%elem_of_map_to_list.
  - intros key Hnot. destruct (expected.(ProjectionJournal.entries) !! key) as [es|] eqn:E.
    { destruct Hnot. apply list_elem_of_fmap. exists (key, es). by rewrite elem_of_map_to_list. }
    destruct (j.(ProjectionJournal.entries) !! key) as [es0|] eqn:E'; [|done].
    destruct (Hp key es0 E') as (? & ? & _). congruence.
  - by exists j'.
Qed.

(** C28: When the appends succeed, reconciling a persisted journal with the history rebuilt from the
    canonical log succeeds exactly when every persisted history is a prefix of the rebuilt one, and
    then the journal holds precisely the rebuilt histories; a divergent journal is refused and left
    untouched. *)
Theorem reconcile_repairs_prefixes j ios expected (He : journal_wf expected)
    (Hio : Forall (λ io, io = IoOutcome.Written) ios) :
  (journal_prefix j expected →
     ∃ j', reconcile hex_digest j ios expected = (j', Ok tt) ∧
       j'.(ProjectionJournal.entries) = expected.(ProjectionJournal.entries)) ∧
  (∀ j', reconcile hex_digest j ios expected = (j', Ok tt) → journal_prefix j expected) ∧
  (∀ j' e, reconcile hex_digest j ios expected = (j', Err e) → j' = j).
Proof.
  split_and!.
  - intros Hp. destruct (reconcile_ok j ios expected He Hio Hp) as (j' & Hr & Hent & _). by exists j'.
  - intros j' Hr. apply check_prefix_ok. unfold reconcile in Hr.
    by destruct (try_for_each _ _) as [[]|].
  - intros j' e Hr. destruct (try_for_each (check_prefix expected) (map_to_list j.(ProjectionJournal.entries)))
      as [[]|e'] eqn:E.
    + apply check_prefix_ok in E. destruct (reconcile_ok j ios expected He Hio E) as (j2 & Hj2 & _). congruence.
    + unfold reconcile in Hr. rewrite E in Hr. by injection Hr as <- _.
Qed.
End reconciling.

(** ** Reopening what was written *)

Section reopening.
Context `{EnvelopeCodec} (hex_digest : string → string).

(** A persistent journal that never lost a write: every record was appended, or
    its file did not open and nothing was recorded. *)
Inductive recorded : ProjectionJournal → Prop :=
| recorded_open retention : retention ≠ 0%nat → recorded (ProjectionJournal.mk true retention ∅ ∅)
| recorded_step j io key payload :
    recorded j → io = IoOutcome.Written ∨ io = IoOutcome.NotOpened →
    recorded (record hex_digest j io key payload).1.

(** The digests of the recorded keys tell them apart. *)
Definition paths_distinct (j : ProjectionJournal) : Prop :=
  ∀ k1 k2, is_Some (j.(ProjectionJournal.entries) !! k1) → is_Some (j.(ProjectionJournal.entries) !! k2) →
    journal_path hex_digest k1 = journal_path hex_digest k2 → k1 = k2.

(** Every file is the history of one key, and every history has its file. *)
Definition files_match (j : ProjectionJournal) : Prop :=
  ∀ path content, j.(ProjectionJournal.files) !! path = Some content ↔
    ∃ key es, j.(ProjectionJournal.entries) !! key = Some es ∧ path = journal_path hex_digest key ∧
      content = file_content encode_envelope es.

(** Recording either leaves the journal alone or appends one envelope. *)
Lemma record_cases j io key payload :
  j.(ProjectionJournal.root) = true → io = IoOutcome.Written ∨ io = IoOutcome.NotOpened →
  let j' := (record hex_digest j io key payload).1 in
  j' = j ∨
  ∃ e path, e.(ProjectionEnvelope.key) = key ∧ path = journal_path hex_digest key ∧
    j' = ProjectionJournal.mk true j.(ProjectionJournal.retention_entries)
      (<[key := entries_of j key ++ [e]]> j.(ProjectionJournal.entries))
      (<[path := default "" (j.(ProjectionJournal.files) !! path) +:+ (encode_envelope e +:+ String newline "")]>
         j.(ProjectionJournal.files)).
Proof.
  intros Hr Hio. unfold record. destruct (next_envelope j key payload) as [[e|]|] eqn:E; simpl; [|by left|by left].
  apply next_envelope_key in E as Hk.
  unfold append_file. rewrite Hr. simpl. destruct Hio as [-> | ->]; simpl; [|by left]. right.
  exists e, (journal_path hex_digest key). rewrite Hk. split_and!; try done.
  unfold push_entry, entries_of. simpl. rewrite Hk. destruct j. simpl in *. by subst.
Qed.

Lemma files_match_step j key e :
  files_match j → paths_distinct j →
  (∀ k, is_Some (j.(ProjectionJournal.entries) !! k) →
        journal_path hex_digest k = journal_path hex_digest key → k = key) →
  files_match (ProjectionJournal.mk true j.(ProjectionJournal.retention_entries)
    (<[key := entries_of j key ++ [e]]> j.(ProjectionJournal.entries))
    (<[journal_path hex_digest key := default "" (j.(ProjectionJournal.files) !! journal_path hex_digest key) +:+
         (encode_envelope e +:+ String newline "")]> j.(ProjectionJournal.files))).
Proof.
  intros Hf Hd Hnew path content. simpl.
  assert (default "" (j.(ProjectionJournal.files) !! journal_path hex_digest key) =
          file_content encode_envelope (entries_of j key)) as Hold.
  { unfold entries_of. destruct (j.(ProjectionJournal.entries) !! key) as [es|] eqn:E; simpl.
    - by rewrite (proj2 (Hf _ (file_content encode_envelope es))) by eauto.
    - destruct (j.(ProjectionJournal.files) !! _) as [c|] eqn:Ef; [|done].
      apply Hf in Ef as (k & es & Hk & Hp & _). rewrite (Hnew k) in Hk by eauto. congruence. }
  rewrite Hold, file_content_snoc. destruct (decide (path = journal_path hex_digest key)) as [->|Hne].
  - rewrite lookup_insert_eq. split.
    + intros [= <-]. exists key. eexists. by rewrite lookup_insert_eq.
    + intros (k & es & [[<- <-]|[Hne Hk]]%lookup_insert_Some & Hp & ->); [done|].
      destruct Hne. symmetry. apply Hnew; [by eexists|done].
  - rewrite lookup_insert_ne by done. etrans; [apply Hf|]. split.
    + intros (k & es & Hk & -> & ->). exists k, es. rewrite lookup_insert_ne; [done|]. by intros <-.
    + intros (k & es & [[<- <-]|[_ Hk]]%lookup_insert_Some & -> & ->); [done|]. eauto.
Qed.

Lemma recorded_ok j :
  recorded j → journal_wf j ∧ j.(ProjectionJournal.root) = true ∧ (paths_distinct j → files_match j).
Proof.
  induction 1 as [retention Hret|j io key payload _ (Hw & Hroot & Hf) Hio].
  - split_and!; [|done|].
    + split; [intros key es; simpl; by rewrite lookup_empty|done].
    + intros _ path content. simpl. rewrite lookup_empty. split; [done|]. by intros (k & es & Hk%lookup_empty_Some & _).
  - split; [by apply record_wf|]. destruct (record_cases j io key payload Hroot Hio) as [->|(e & path & Hk & -> & ->)];
      [done|]. simpl. split; [done|]. intros Hd.
    assert (∀ k, is_Some (j.(ProjectionJournal.entries) !! k) →
        is_Some (<[key:=entries_of j key ++ [e]]> j.(ProjectionJournal.entries) !! k)) as Hsub.
    { intros k Hsome. destruct (decide (k = key)) as [->|]; [by rewrite lookup_insert_eq|by rewrite lookup_insert_ne]. }
    assert (paths_distinct j) as Hd'.
    { intros k1 k2 H1 H2. apply Hd; simpl; by apply Hsub. }
    apply files_match_step; [by apply Hf|done|]. intros k Hsome Hp. apply Hd; [by apply Hsub| |done].
    simpl. by rewrite lookup_insert_eq.
Qed.

Lemma check_envelope_ok key previous e es :
  match previous with
  | Some p => p.(ProjectionEnvelope.key) = key ∧
      envelope_run key (p.(ProjectionEnvelope.cursor).(Cursor.seq) + 1) (e :: es) ∧
      p.(ProjectionEnvelope.cursor).(Cursor.seq) + 1 ≤ u64_max
  | None => envelope_run key 0 (e :: es)
  end → check_envelope previous e = Ok tt.
Proof.
  unfold check_envelope. destruct previous as [p|].
  - rewrite envelope_run_cons. intros (Hp & ((Ht & Hk & Hc) & _) & Hmax). rewrite Ht. simpl.
    rewrite Hp, Hk, bool_decide_false by tauto. simpl.
    rewrite bool_decide_false by (intros Heq; rewrite Heq in Hc; lia). simpl.
    rewrite (proj2 (Cursor_next_ok _ e.(ProjectionEnvelope.cursor))) by lia. simpl.
    by rewrite bool_decide_false by tauto.
  - rewrite envelope_run_cons. intros ((Ht & _ & Hc) & _). rewrite Ht. simpl.
    rewrite bool_decide_false; [done|]. intros Hn. apply Hn. destruct e.(ProjectionEnvelope.cursor). simpl in *. by subst.
Qed.

Lemma read_envelopes_content path key es : ∀ i previous,
  Forall (line_codec encode_envelope decode_envelope) es →
  match previous with
  | Some p => p.(ProjectionEnvelope.key) = key ∧
      envelope_run key (p.(ProjectionEnvelope.cursor).(Cursor.seq) + 1) es ∧
      p.(ProjectionEnvelope.cursor).(Cursor.seq) + Z.of_nat (length es) ≤ u64_max
  | None => envelope_run key 0 es ∧ Z.of_nat (length es) - 1 ≤ u64_max
  end →
  read_envelopes path i previous (lines_of (file_content encode_envelope es)) = Ok es.
Proof.
  induction es as [|e es IH]; intros i previous; [done|]. rewrite Forall_cons. intros [[Hd Hn Hc Hb] Hes] Hprev.
  simpl. rewrite lines_of_line by done. simpl. rewrite Hb, Hd. simpl.
  rewrite (check_envelope_ok key previous e es).
  2: { destruct previous as [p|]; [|apply Hprev]. destruct Hprev as (? & ? & ?). simpl in *. split_and!; [done..|lia]. }
  simpl. rewrite IH; [done..|]. destruct previous as [p|].
  - destruct Hprev as (Hp & [(_ & Hk & Hcur) Hrun]%envelope_run_cons & Hmax). simpl in Hmax. rewrite Hcur.
    split_and!; [done..|lia].
  - destruct Hprev as ([(_ & Hk & Hcur) Hrun]%envelope_run_cons & Hmax). simpl in Hmax. rewrite Hcur.
    split_and!; [done..|lia].
Qed.

(** Reading the files of some keys adds exactly their histories. *)
Lemma read_journal_paths_ok j paths : ∀ acc,
  journal_wf j → files_match j → paths_distinct j →
  (∀ key es, j.(ProjectionJournal.entries) !! key = Some es →
     Forall (line_codec encode_envelope decode_envelope) es) →
  NoDup paths → (∀ p, p ∈ paths → is_Some (j.(ProjectionJournal.files) !! p)) →
  (∀ key, is_Some (acc !! key) → acc !! key = j.(ProjectionJournal.entries) !! key ∧
     journal_path hex_digest key ∉ paths) →
  ∃ acc', read_journal_paths hex_digest j.(ProjectionJournal.files) acc paths = Ok acc' ∧
    (∀ key, is_Some (acc' !! key) → acc' !! key = j.(ProjectionJournal.entries) !! key) ∧
    (∀ key, is_Some (acc !! key) → is_Some (acc' !! key)) ∧
    (∀ key, is_Some (j.(ProjectionJournal.entries) !! key) → journal_path hex_digest key ∈ paths →
       is_Some (acc' !! key)).
Proof.
  induction paths as [|path paths IH]; intros acc Hw Hf Hd Hc Hnd Hp Hacc; simpl.
  { exists acc. split_and!; [done| |done|by intros ? ? ?%elem_of_nil]. intros key Hs. by apply Hacc. }
  apply NoDup_cons in Hnd as [Hnew Hnd]. destruct (Hp path (list_elem_of_here _ _)) as [content Hcontent].
  rewrite Hcontent. simpl. apply Hf in Hcontent as (key & es & Hes & -> & ->).
  pose proof (journal_histories j Hw key es Hes) as Hh.
  rewrite (read_envelopes_content _ key es 0 None (Hc key es Hes)) by (split; apply Hh). simpl.
  destruct es as [|e es]; [by destruct (history_nonempty _ _ Hh)|].
  assert (e.(ProjectionEnvelope.key) = key) as -> by by destruct (history_run _ _ Hh 0%nat e eq_refl) as (_ & -> & _).
  assert (acc !! key = None) as Hnone.
  { destruct (acc !! key) as [x|] eqn:E; [|done]. destruct (Hacc key) as [_ Hnot]; [by eexists|].
    destruct Hnot. left. }
  rewrite bool_decide_false by tauto. rewrite Hnone. simpl.
  destruct (IH (<[key := e :: es]> acc)) as (acc' & -> & H1 & H2 & H3); try done.
  - intros p Hin. apply Hp. by right.
  - intros k Hk. destruct (decide (k = key)) as [->|Hne].
    + rewrite lookup_insert_eq. by rewrite Hes.
    + rewrite lookup_insert_ne in Hk |- * by done. destruct (Hacc k Hk) as [? Hnot]. split; [done|].
      intros Hin. apply Hnot. by right.
  - exists acc'. split_and!; [done..| |].
    + intros k Hk. apply H2. destruct (decide (k = key)) as [->|Hne]; [by rewrite lookup_insert_eq|].
      by rewrite lookup_insert_ne.
    + intros k Hk [Heq|Hin]%elem_of_cons; [|by apply H3]. apply H2.
      rewrite (Hd k key Hk) by (done || by eexists). by rewrite lookup_insert_eq.
Qed.

Lemma journal_path_extension key :
  hex_digest (encode_key key) ≠ "" → has_jsonl_extension (journal_path hex_digest key) = true.
Proof.
  intros Hne. unfold has_jsonl_extension, journal_path. change ".jsonl" with (String "."%char "jsonl").
  rewrite split_on_snoc, rev_unit by (vm_compute; set_solver).
  destruct (rev (split_on "."%char (hex_digest (encode_key key)))) as [|stem more] eqn:E.
  { apply (f_equal (@rev string)) in E. rewrite rev_involutive in E. by apply split_on_nonempty in E. }
  rewrite bool_decide_true by done. simpl. destruct stem; [|done]. simpl.
  case_bool_decide as Hm; [|done]. subst more. apply (f_equal (@rev string)) in E. rewrite rev_involutive in E.
  destruct (hex_digest (encode_key key)) as [|c rest]; [done|]. simpl in E.
  destruct (Ascii.eqb c "."); [|by destruct (split_on "." rest)].
  injection E as E. by apply split_on_nonempty in E.
Qed.

(** A journal whose files match it is read back as it is. *)
Lemma open_matching j :
  journal_wf j → j.(ProjectionJournal.root) = true → files_match j → paths_distinct j →
  (∀ key, hex_digest (encode_key key) ≠ "") →
  (∀ key es, j.(ProjectionJournal.entries) !! key = Some es → Forall (line_codec encode_envelope decode_envelope) es) →
  open_with_retention hex_digest j.(ProjectionJournal.files) j.(ProjectionJournal.retention_entries) = Ok j.
Proof.
  intros Hw Hroot Hf Hd Hne Hc. unfold open_with_retention.
  pose proof (journal_retention j Hw) as Hret. destruct (j.(ProjectionJournal.retention_entries)) eqn:Eret; [done|]. simpl.
  destruct (read_journal_paths_ok j (filter_b has_jsonl_extension (btree_keys j.(ProjectionJournal.files))) ∅)
    as (acc & -> & H1 & _ & H3); try done.
  - apply (sublist_NoDup _ (btree_keys j.(ProjectionJournal.files))); [apply btree_keys_NoDup|apply filter_b_sublist].
  - intros p [Hin _]%elem_of_filter_b. by apply elem_of_btree_keys.
  - intros key [x Hx]. by rewrite lookup_empty in Hx.
  - simpl. f_equal. destruct j as [root retention entries files]. simpl in *. subst. f_equal.
    apply map_eq. intros key. destruct (acc !! key) as [es|] eqn:E; [rewrite <-E; apply H1; by eexists|].
    destruct (entries !! key) as [es|] eqn:E'; [|done].
    assert (is_Some (acc !! key)) as [x Hx]; [|congruence]. apply H3; [by eexists|].
    apply elem_of_filter_b. split; [|by apply journal_path_extension].
    apply elem_of_btree_keys. eexists. apply Hf. by eauto.
Qed.

(** *** Repairing the files *)

(** A persistent journal whose files match it and which holds only keys of [E]. *)
Definition matching (E : gmap ProjectionKey (list ProjectionEnvelope)) (j : ProjectionJournal) : Prop :=
  j.(ProjectionJournal.root) = true ∧ files_match j ∧
  ∀ key, is_Some (j.(ProjectionJournal.entries) !! key) → is_Some (E !! key).

Section repair.
Context (E : gmap ProjectionKey (list ProjectionEnvelope)).
Context (HE : ∀ k1 k2, is_Some (E !! k1) → is_Some (E !! k2) →
  journal_path hex_digest k1 = journal_path hex_digest k2 → k1 = k2).

Lemma append_matching j e :
  matching E j → is_Some (E !! e.(ProjectionEnvelope.key)) →
  ∃ j', append_file hex_digest j e IoOutcome.Written = (j', Ok tt) ∧ matching E (push_entry j' e).
Proof.
  intros (Hroot & Hf & Hk) He. unfold append_file. rewrite Hroot. simpl. eexists. split; [done|].
  destruct j as [root retention entries files]. simpl in *. subst root. split_and!; [done|..].
  - unfold push_entry, entries_of. simpl.
    apply (files_match_step (ProjectionJournal.mk true retention entries files) e.(ProjectionEnvelope.key) e Hf).
    + intros k1 k2 H1 H2. apply HE; by apply Hk.
    + intros k Hs. apply HE; [by apply Hk|done].
  - intros key. simpl. destruct (decide (key = e.(ProjectionEnvelope.key))) as [->|Hne]; [done|].
    rewrite lookup_insert_ne by done. apply Hk.
Qed.

Lemma append_missing_matching es : ∀ j ios,
  Forall (λ io, io = IoOutcome.Written) ios → matching E j →
  (∀ e, e ∈ es → is_Some (E !! e.(ProjectionEnvelope.key))) →
  let r := append_missing hex_digest j ios es in matching E r.1.1 ∧ Forall (λ io, io = IoOutcome.Written) r.1.2.
Proof.
  induction es as [|e es IH]; intros j ios Hio Hm Hes; simpl; [done|].
  assert (default IoOutcome.Written (head ios) = IoOutcome.Written) as ->.
  { destruct Hio; [done|by subst]. }
  destruct (append_matching j e Hm) as (j' & -> & Hm'); [apply Hes; left|].
  apply IH; [by destruct Hio|done|]. intros x Hx. apply Hes. by right.
Qed.

Lemma repair_keys_matching m : ∀ j ios,
  Forall (λ io, io = IoOutcome.Written) ios → matching E j →
  (∀ key es e, (key, es) ∈ m → e ∈ es → is_Some (E !! e.(ProjectionEnvelope.key))) →
  matching E (repair_keys hex_digest j ios m).1.
Proof.
  induction m as [|[key es] m IH]; intros j ios Hio Hm Hes; simpl; [done|].
  destruct (append_missing_matching (drop (length (entries_of j key)) es) j ios Hio Hm) as [Hm' Hio'].
  { intros e He%subseteq_drop. eapply Hes; [left|done]. }
  destruct (append_missing _ _ _ _) as [[j' ios'] [[]|err]]; [|done]. apply IH; [done..|].
  intros k l e Hin. apply (Hes k l e). by right.
Qed.
End repair.

(** Reconciling repairs the files along with the histories. *)
Lemma reconcile_matching j ios expected :
  journal_wf expected → Forall (λ io, io = IoOutcome.Written) ios → journal_prefix j expected →
  paths_distinct expected → j.(ProjectionJournal.root) = true → files_match j →
  matching expected.(ProjectionJournal.entries) (reconcile hex_digest j ios expected).1.
Proof.
  intros He Hio Hp Hd Hroot Hf.
  assert (matching expected.(ProjectionJournal.entries) j) as Hm.
  { split_and!; [done..|]. intros key [es Hes]. destruct (Hp key es Hes) as (es' & -> & _). done. }
  unfold reconcile. destruct (try_for_each _ _) as [[]|]; [|done].
  apply repair_keys_matching; [exact Hd|done..|]. intros key es e Hin%elem_of_map_to_list [i Hi]%list_elem_of_lookup.
  destruct (history_run _ _ (journal_histories expected He key es Hin) i e Hi) as (_ & -> & _). by eexists.
Qed.

(** C27: A persistent journal whose appends were complete, or did not happen, is read back from its
    files exactly as it was, with every history of every key, provided the digests of its keys are
    distinct and the JSON codec decodes what it encoded. *)
Theorem journal_reopens j (Hr : recorded j) (Hd : paths_distinct j)
    (Hne : ∀ key, hex_digest (encode_key key) ≠ "")
    (Hc : ∀ key es, j.(ProjectionJournal.entries) !! key = Some es →
       Forall (line_codec encode_envelope decode_envelope) es) :
  open_with_retention hex_digest j.(ProjectionJournal.files) j.(ProjectionJournal.retention_entries) = Ok j.
Proof. destruct (recorded_ok j Hr) as (Hw & Hroot & Hf). specialize (Hf Hd). by apply open_matching. Qed.
End reopening.
