(* ===== verification/ContentFiles.v ===== *)
(** * Bodies on disk

    Models [crates/kaleido-state/src/content.rs]: bodies under the digest of
    their bytes, the uploads a device owns, their quota and expiry, chunked
    reads, the clean-up after a replay, and the recovery of an interrupted
    rewrite of the ownership file.

    The content directory is a map from file names to contents.  Every call
    into the file system takes the next fault of a script: none, or a failure,
    which for a write comes after some bytes reached the file.  [Path::exists]
    does not fail, and a directory is listed in the order of its names.  The
    JSON codec of the ownership file and SHA-256 are parameters. *)
From stdpp Require Import prelude strings gmap.
From Stdlib Require Import ZArith Lia Ascii.
From S2P Require Import Prelude ProtoBase ProtoContent CanonState DurableLog.

Local Open Scope Z_scope.

Definition OWNERSHIP_FILE : string := "device-ownership.jsonl".
Definition OWNERSHIP_FORMAT_VERSION : Z := 1.
Definition OWNERSHIP_REWRITE_PREFIX : string := ".device-ownership-rewrite-".
Definition DEVICE_CONTENT_TTL_MS : Z := 600000.
Definition DEVICE_CONTENT_QUOTA_BYTES : Z := 8 * 1024 * 1024.

(** ** Data *)

Module OwnershipRecord.
Record OwnershipRecord : Type := mk {
  format_version : Z;
  device_digest : string;
  content_ref : ContentRef;
  created_at_ms : Z;
  expires_at_ms : Z
}.
End OwnershipRecord.
Abbreviation OwnershipRecord := OwnershipRecord.OwnershipRecord.

#[export] Instance OwnershipRecord_eq_dec : EqDecision OwnershipRecord.
Proof. solve_decision. Defined.

(** [sequence] is the counter [TEMP_FILE_SEQUENCE] of the process. *)
Module Disk.
Record Disk : Type := mk {
  files : gmap string string;
  faults : list (option nat);
  sequence : nat
}.
End Disk.
Abbreviation Disk := Disk.Disk.

Definition Disk_set_files (v : gmap string string) (r : Disk) : Disk := {|
  Disk.files := v;
  Disk.faults := r.(Disk.faults);
  Disk.sequence := r.(Disk.sequence)
|}.

Definition Disk_set_faults (v : list (option nat)) (r : Disk) : Disk := {|
  Disk.files := r.(Disk.files);
  Disk.faults := v;
  Disk.sequence := r.(Disk.sequence)
|}.

Definition Disk_set_sequence (v : nat) (r : Disk) : Disk := {|
  Disk.files := r.(Disk.files);
  Disk.faults := r.(Disk.faults);
  Disk.sequence := v
|}.

(** The digest of a device has a fixed length, so the order of the
    concatenation is the order of the pairs. *)
#[export] Instance ownership_ord_key : OrdKey (string * ContentId) := λ k, k.1 +:+ id_value k.2.

Module ContentStore.
Record ContentStore : Type := mk {
  disk : Disk;
  ownership : gmap (string * ContentId) OwnershipRecord
}.
End ContentStore.
Abbreviation ContentStore := ContentStore.ContentStore.

(** [serde_json] on the lines of the ownership file. *)
Class OwnershipCodec := {
  encode_owner : OwnershipRecord → string;
  decode_owner : string → option OwnershipRecord
}.

(** ** The file system *)

Definition disk (T : Type) : Type := Disk → Disk * result T StateError.

#[export] Instance disk_ret : MRet disk := λ T value d, (d, Ok value).
#[export] Instance disk_bind : MBind disk := λ T U k m d,
  match m d with
  | (d, Ok value) => k value d
  | (d, Err e) => (d, Err e)
  end.

Definition disk_fail {T} (e : StateError) : disk T := λ d, (d, Err e).
Definition disk_lift {T} (r : result T StateError) : disk T := λ d, (d, r).
Definition io_error {T} (name : string) : disk T := disk_fail (StateError.Io name).

(** The fault of the next call. *)
Definition next_fault : disk (option nat) := λ d,
  (Disk_set_faults (tail d.(Disk.faults)) d, Ok (default None (head d.(Disk.faults)))).

(** A call that only succeeds or fails: listing, opening, synchronising. *)
Definition attempt (name : string) : disk unit :=
  fault ← next_fault;
  match fault with
  | None => mret tt
  | Some _ => io_error name
  end.

Definition files_of : disk (gmap string string) := λ d, (d, Ok d.(Disk.files)).
Definition put_file (name content : string) : disk unit := λ d,
  (Disk_set_files (<[name := content]> d.(Disk.files)) d, Ok tt).
Definition drop_file (name : string) : disk unit := λ d,
  (Disk_set_files (delete name d.(Disk.files)) d, Ok tt).

(** [Path::exists] *)
Definition path_exists (name : string) : disk bool :=
  files ← files_of; mret (is_some (files !! name)).

Definition read_dir : disk (list string) :=
  _ ← attempt ""; files ← files_of; mret (btree_keys files).

Definition remove_file (name : string) : disk unit := _ ← attempt name; drop_file name.

(** [let _ = fs::remove_file(..)] *)
Definition discard (name : string) : disk unit :=
  fault ← next_fault;
  match fault with
  | None => drop_file name
  | Some _ => mret tt
  end.

Definition rename (from to : string) : disk unit :=
  _ ← attempt from;
  files ← files_of;
  match files !! from with
  | Some content => _ ← drop_file from; put_file to content
  | None => io_error from
  end.

Definition sync_parent_directory : disk unit := attempt "".

(** [OpenOptions::create_new]; [true] when the file was created. *)
Definition create_new (name : string) : disk bool :=
  _ ← attempt name;
  exists_already ← path_exists name;
  if (exists_already : bool) then mret false else _ ← put_file name ""; mret true.

(** Append to an open temporary file; when that fails, give it up. *)
Definition write_or_discard (name bytes : string) : disk unit :=
  files ← files_of;
  let content := default "" (files !! name) in
  fault ← next_fault;
  match fault with
  | None => put_file name (content +:+ bytes)
  | Some written => _ ← put_file name (content +:+ str_take written bytes); _ ← discard name; io_error name
  end.

Definition sync_or_discard (name : string) : disk unit :=
  fault ← next_fault;
  match fault with
  | None => mret tt
  | Some _ => _ ← discard name; io_error name
  end.

(** Go through a listing and remove the files it selects; whether any was. *)
Fixpoint remove_each (select : string → bool) (names : list string) (removed : bool) : disk bool :=
  match names with
  | [] => mret removed
  | name :: rest =>
      _ ← attempt "";
      if select name then _ ← remove_file name; remove_each select rest true
      else remove_each select rest removed
  end.

(** Go through a listing and collect. *)
Fixpoint listed (select : string → bool) (names : list string) : disk (list string) :=
  match names with
  | [] => mret []
  | name :: rest =>
      _ ← attempt "";
      found ← listed select rest;
      mret (if select name then name :: found else found)
  end.

Fixpoint remove_all (names : list string) : disk unit :=
  match names with
  | [] => mret tt
  | name :: rest => _ ← remove_file name; remove_all rest
  end.

Definition sync_if (changed : bool) : disk unit := if changed then sync_parent_directory else mret tt.

(** ** Names *)

Definition safe_content_component (component : string) : bool :=
  (String.length component =? 64)%nat && forallb lower_hex_byte (bytes_of component).

Definition is_temporary (name : string) : bool := starts_with "." name && ends_with ".tmp" name.

Definition is_ready (name : string) : bool := starts_with OWNERSHIP_REWRITE_PREFIX name && ends_with ".ready" name.

Definition path_for (content_id : ContentId) : result string StateError :=
  reject_if (negb (safe_content_component (id_value content_id))) (StateError.UnsafeContentId content_id) ;?
  Ok (id_value content_id).

(** [str::trim_start_matches]; the prefix is not empty. *)
Fixpoint trim_start_matches (fuel : nat) (prefix s : string) : string :=
  match fuel, strip_prefix prefix s with
  | S fuel, Some rest => trim_start_matches fuel prefix rest
  | _, _ => s
  end.

Definition cleanup_temporary_files : disk unit :=
  names ← read_dir;
  removed ← remove_each is_temporary names false;
  sync_if removed.

Definition rejected_write (at_ms : Z) : ContentWriteResponse :=
  ContentWriteResponse.Rejected (CanonicalError.mk ErrorCode.InvalidCommand false None at_ms).

Definition unavailable (content_id : ContentId) (reason : ContentUnavailableReason) : ContentReadResponse :=
  ContentReadResponse.Unavailable content_id reason.

Section content.
Context `{OwnershipCodec} (hex_digest : string → string) (process_id : nat).

Definition device_digest (device_id : DeviceId) : string :=
  let bytes := id_value device_id in
  hex_digest (String.string_of_list_ascii (to_be_bytes 8 (str_len bytes)) +:+ bytes).

(** ** Bodies *)

Definition verify_body (path : string) (content_id : ContentId) (bytes_len : Z) (hex : string) : disk unit :=
  _ ← attempt path;
  files ← files_of;
  bytes ← disk_lift (ok_or (files !! path) (StateError.Io path));
  if negb (str_len bytes =? bytes_len) || negb (bool_decide (hex_digest bytes = hex))
  then disk_fail (StateError.ContentDigestMismatch content_id) else mret tt.

Definition temporary_body (content_id : ContentId) (sequence : nat) : string :=
  "." +:+ id_value content_id +:+ "." +:+ decimal process_id +:+ "." +:+ decimal sequence +:+ ".tmp".

Definition fetch_sequence : disk nat := λ d,
  (Disk_set_sequence (S d.(Disk.sequence)) d, Ok d.(Disk.sequence)).

(** The loop that looks for a free name; [create_temporary_terminates] shows
    that its fuel does not run out. *)
Fixpoint create_temporary (fuel : nat) (content_id : ContentId) : disk string :=
  match fuel with
  | O => io_error ""
  | S fuel =>
      sequence ← fetch_sequence;
      let candidate := temporary_body content_id sequence in
      created ← create_new candidate;
      if (created : bool) then mret candidate else create_temporary fuel content_id
  end.

Definition install_body (path : string) (content_id : ContentId) (bytes hex : string) : disk unit :=
  files ← files_of;
  temporary ← create_temporary (S (size files)) content_id;
  _ ← write_or_discard temporary bytes;
  _ ← sync_or_discard temporary;
  linked ← next_fault;
  taken ← path_exists path;
  match linked, (taken : bool) with
  | Some _, _ => _ ← discard temporary; io_error path
  | None, false =>
      files ← files_of;
      _ ← put_file path (default "" (files !! temporary));
      _ ← remove_file temporary;
      sync_parent_directory
  | None, true =>
      _ ← remove_file temporary;
      _ ← verify_body path content_id (str_len bytes) hex;
      sync_parent_directory
  end.

Definition store (kind : ContentKind) (sensitivity : Sensitivity) (bytes : string) : disk ContentRef :=
  let hex := hex_digest bytes in
  let content_id : ContentId := mkId hex in
  path ← disk_lift (path_for content_id);
  present ← path_exists path;
  _ ← (if (present : bool) then verify_body path content_id (str_len bytes) hex
       else install_body path content_id bytes hex);
  let reference := ContentRef.mk content_id kind (str_len bytes) ("sha256:" +:+ hex) None sensitivity
                     ContentAvailability.Stored in
  _ ← disk_lift (contract (ContentRef_validate reference));
  mret reference.

Definition load (reference : ContentRef) : disk string :=
  path ← disk_lift (path_for reference.(ContentRef.content_id));
  _ ← attempt path;
  files ← files_of;
  match files !! path with
  | None => disk_fail (StateError.ContentMissing reference.(ContentRef.content_id))
  | Some bytes =>
      if negb (str_len bytes =? reference.(ContentRef.byte_len))
         || negb (bool_decide ("sha256:" +:+ hex_digest bytes = reference.(ContentRef.digest)))
      then disk_fail (StateError.ContentDigestMismatch reference.(ContentRef.content_id)) else mret bytes
  end.

Definition contains (d : Disk) (content_id : ContentId) : bool :=
  match path_for content_id with
  | Ok path => is_some (d.(Disk.files) !! path)
  | Err _ => false
  end.

(** ** The ownership file *)

Definition ownership_line (record : OwnershipRecord) : string := encode_owner record +:+ String newline "".

Definition rewrite_stem (sequence : nat) : string :=
  OWNERSHIP_REWRITE_PREFIX +:+ decimal process_id +:+ "-" +:+ padded (Z.of_nat sequence).

(** Among the complete rewrites that were left behind the last one is recovered
    when the file itself is missing; the others go. *)
Definition recover_ownership_rewrite : disk unit :=
  names ← read_dir;
  ready ← listed is_ready names;
  present ← path_exists OWNERSHIP_FILE;
  let recover := if (present : bool) then None else last ready in
  _ ← match recover with
      | Some candidate => rename candidate OWNERSHIP_FILE
      | None => mret tt
      end;
  let rest := if is_some recover then removelast ready else ready in
  _ ← remove_all rest;
  sync_if (negb (is_none (head ready))).

Fixpoint write_records (name : string) (records : list OwnershipRecord) : disk unit :=
  match records with
  | [] => mret tt
  | record :: rest => _ ← write_or_discard name (ownership_line record); write_records name rest
  end.

(** The second half of [rewrite_ownership]: the complete file takes the place of
    the old one; where renaming over it fails, the old one goes first. *)
Definition replace_ownership (ready : string) : disk unit :=
  fault ← next_fault;
  files ← files_of;
  _ ← match fault, files !! OWNERSHIP_FILE with
      | None, _ =>
          match files !! ready with
          | Some content => _ ← drop_file ready; put_file OWNERSHIP_FILE content
          | None => io_error ready
          end
      | Some _, None => io_error ready
      | Some _, Some _ =>
          _ ← remove_file OWNERSHIP_FILE;
          _ ← sync_parent_directory;
          rename ready OWNERSHIP_FILE
      end;
  sync_parent_directory.

(** A rewrite under its two names. *)
Definition rewrite_through (temporary ready : string) (ownership : gmap (string * ContentId) OwnershipRecord) : disk unit :=
  created ← create_new temporary;
  if negb created then io_error temporary
  else
    _ ← write_records temporary (btree_values ownership);
    _ ← sync_or_discard temporary;
    _ ← rename temporary ready;
    _ ← sync_parent_directory;
    replace_ownership ready.

Definition rewrite_ownership (ownership : gmap (string * ContentId) OwnershipRecord) : disk unit :=
  sequence ← fetch_sequence;
  rewrite_through (rewrite_stem sequence +:+ ".tmp") (rewrite_stem sequence +:+ ".ready") ownership.

Definition append_ownership (record : OwnershipRecord) : disk unit :=
  existed ← path_exists OWNERSHIP_FILE;
  _ ← attempt OWNERSHIP_FILE;
  files ← files_of;
  let content := default "" (files !! OWNERSHIP_FILE) in
  fault ← next_fault;
  match fault with
  | Some written =>
      _ ← put_file OWNERSHIP_FILE (content +:+ str_take written (ownership_line record));
      io_error OWNERSHIP_FILE
  | None =>
      _ ← put_file OWNERSHIP_FILE (content +:+ ownership_line record);
      _ ← attempt OWNERSHIP_FILE;
      _ ← attempt OWNERSHIP_FILE;
      sync_if (negb existed)
  end.

Definition owner_key (record : OwnershipRecord) : string * ContentId :=
  (record.(OwnershipRecord.device_digest), record.(OwnershipRecord.content_ref).(ContentRef.content_id)).

(** The checks of one line of the ownership file. *)
Definition check_owner (line_number : Z) (record : OwnershipRecord) : result unit StateError :=
  let reference := record.(OwnershipRecord.content_ref) in
  let content_id := id_value reference.(ContentRef.content_id) in
  reject_if (negb (record.(OwnershipRecord.format_version) =? OWNERSHIP_FORMAT_VERSION)
             || negb (safe_content_component record.(OwnershipRecord.device_digest))
             || (record.(OwnershipRecord.expires_at_ms) <=? record.(OwnershipRecord.created_at_ms))
             || negb (safe_content_component content_id)
             || negb (bool_decide (reference.(ContentRef.digest) = "sha256:" +:+ content_id))
             || negb (bool_decide (reference.(ContentRef.availability) = ContentAvailability.Stored)))
            (StateError.MalformedRecord OWNERSHIP_FILE line_number) ;?
  contract (ContentRef_ensure_sensitive reference "device_ownership.content_ref").

Fixpoint read_owner_lines (index : Z) (ownership : gmap (string * ContentId) OwnershipRecord) (lines : list string) :
    result (gmap (string * ContentId) OwnershipRecord) StateError :=
  match lines with
  | [] => Ok ownership
  | line :: rest =>
      if is_blank line then read_owner_lines (index + 1) ownership rest
      else
        let? record := ok_or (decode_owner line) (StateError.MalformedRecord OWNERSHIP_FILE (index + 1)) in
        check_owner (index + 1) record ;?
        read_owner_lines (index + 1) (<[owner_key record := record]> ownership) rest
  end.

Definition read_ownership : disk (gmap (string * ContentId) OwnershipRecord) :=
  _ ← attempt OWNERSHIP_FILE;
  files ← files_of;
  match files !! OWNERSHIP_FILE with
  | None => mret ∅
  | Some content => disk_lift (read_owner_lines 0 ∅ (lines_of content))
  end.

Definition ContentStore_open : disk (gmap (string * ContentId) OwnershipRecord) :=
  _ ← recover_ownership_rewrite;
  _ ← cleanup_temporary_files;
  read_ownership.

(** ** Uploads, reads and clean-up *)

Definition unexpired (now_ms : Z) (record : OwnershipRecord) : bool := now_ms <? record.(OwnershipRecord.expires_at_ms).

(** A disk operation of the store. *)
Definition on_disk {T} (op : disk T) (c : ContentStore) : ContentStore * result T StateError :=
  let '(d, r) := op c.(ContentStore.disk) in (ContentStore.mk d c.(ContentStore.ownership), r).

(** The expired records go in memory first; the file is rewritten when any did. *)
Definition cleanup_expired_ownership (now_ms : Z) (c : ContentStore) : ContentStore * result unit StateError :=
  let kept := filter (λ entry, unexpired now_ms entry.2 = true) c.(ContentStore.ownership) in
  on_disk (_ ← (if (size kept =? size c.(ContentStore.ownership))%nat then mret tt else rewrite_ownership kept);
           cleanup_temporary_files)
          (ContentStore.mk c.(ContentStore.disk) kept).

(** The bytes a device owns and may still use. *)
Definition device_bytes (now_ms : Z) (digest : string) (ownership : gmap (string * ContentId) OwnershipRecord) : Z :=
  foldl (λ total record, saturating_add_u64 total record.(OwnershipRecord.content_ref).(ContentRef.byte_len)) 0
    (filter_b (λ record, bool_decide (record.(OwnershipRecord.device_digest) = digest) && unexpired now_ms record)
              (btree_values ownership)).

(** What is done once the request is within the quota. *)
Definition store_upload (request : ContentWriteRequest) (key : string * ContentId) (bytes : string) (now_ms expires_at_ms : Z)
    (c : ContentStore) : ContentStore * result ContentWriteResponse StateError :=
  match on_disk (store request.(ContentWriteRequest.content_kind) Sensitivity.Sensitive bytes) c with
  | (c, Err e) => (c, Err e)
  | (c, Ok content_ref) =>
      let record := OwnershipRecord.mk OWNERSHIP_FORMAT_VERSION key.1 content_ref now_ms expires_at_ms in
      match on_disk (append_ownership record) c with
      | (c, Err e) => (c, Err e)
      | (c, Ok _) =>
          let response := ContentWriteResponse.Stored content_ref in
          (ContentStore.mk c.(ContentStore.disk) (<[key := record]> c.(ContentStore.ownership)),
           contract (ContentWriteResponse_validate_for response request) ;? Ok response)
      end
  end.

Definition write_for_device (device_id : DeviceId) (request : ContentWriteRequest) (bytes : string) (now_ms : Z)
    (c : ContentStore) : ContentStore * result ContentWriteResponse StateError :=
  match cleanup_expired_ownership now_ms c with
  | (c, Err e) => (c, Err e)
  | (c, Ok _) =>
      let actual_len := str_len bytes in
      let actual_digest := "sha256:" +:+ hex_digest bytes in
      let content_id : ContentId := mkId (trim_start_matches (String.length actual_digest) "sha256:" actual_digest) in
      let key := (device_digest device_id, content_id) in
      let already_owned := is_some_and (c.(ContentStore.ownership) !! key) (λ record,
        unexpired now_ms record && (record.(OwnershipRecord.content_ref).(ContentRef.byte_len) =? actual_len)) in
      let current_bytes := device_bytes now_ms key.1 c.(ContentStore.ownership) in
      let fits := is_some_and (checked_add_u64 current_bytes actual_len) (λ total, total <=? DEVICE_CONTENT_QUOTA_BYTES) in
      if negb (is_ok (ContentWriteRequest_validate request))
         || negb (actual_len =? request.(ContentWriteRequest.byte_len))
         || negb (bool_decide (actual_digest = request.(ContentWriteRequest.digest)))
         || negb (already_owned || fits)
      then (c, Ok (rejected_write now_ms))
      else
        match checked_add_i64 now_ms DEVICE_CONTENT_TTL_MS with
        | None => (c, Ok (rejected_write now_ms))
        | Some expires_at_ms => store_upload request key bytes now_ms expires_at_ms c
        end
  end.

(** A body that is neither protected nor owned. *)
Definition is_orphan (protected : gset ContentId) (name : string) : bool :=
  safe_content_component name && negb (bool_decide ((mkId name : ContentId) ∈ protected)).

Definition cleanup_after_replay (now_ms : Z) (canonical_content_ids : gset ContentId) (c : ContentStore) :
    ContentStore * result unit StateError :=
  match cleanup_expired_ownership now_ms c with
  | (c, Err e) => (c, Err e)
  | (c, Ok _) =>
      let owned := (λ record, record.(OwnershipRecord.content_ref).(ContentRef.content_id)) <$>
                   btree_values c.(ContentStore.ownership) in
      let protected := canonical_content_ids ∪ list_to_set owned in
      on_disk (_ ← cleanup_temporary_files;
               names ← read_dir;
               removed ← remove_each (is_orphan protected) names false;
               sync_if removed) c
  end.

(** The chunk of a body a request asks for. *)
Definition chunk_of (reference : ContentRef) (request : ContentReadRequest) (bytes : string) :
    result ContentReadResponse StateError :=
  let invalid := StateError.InvalidContentOffset request.(ContentReadRequest.content_id) request.(ContentReadRequest.offset) in
  reject_if (str_len bytes <? request.(ContentReadRequest.offset)) invalid ;?
  let last_byte := Z.min (saturating_add_u64 request.(ContentReadRequest.offset) request.(ContentReadRequest.max_bytes))
                         (str_len bytes) in
  let eof := last_byte =? str_len bytes in
  let response := ContentReadResponse.Chunk (ContentReadChunk.mk request.(ContentReadRequest.content_id)
    request.(ContentReadRequest.offset)
    (take (Z.to_nat (last_byte - request.(ContentReadRequest.offset)))
          (drop (Z.to_nat request.(ContentReadRequest.offset)) (bytes_of bytes)))
    (if eof then None else Some last_byte) eof reference.(ContentRef.digest)) in
  contract (ContentReadResponse_validate response) ;?
  Ok response.

Definition read_reference (reference : ContentRef) (request : ContentReadRequest) : disk ContentReadResponse :=
  _ ← disk_lift (contract (ContentReadRequest_validate request));
  let content_id := request.(ContentReadRequest.content_id) in
  if negb (bool_decide (reference.(ContentRef.content_id) = content_id))
  then disk_fail (StateError.ContentMetadataMismatch content_id)
  else
    match reference.(ContentRef.availability) with
    | ContentAvailability.Evicted => mret (unavailable content_id ContentUnavailableReason.Evicted)
    | ContentAvailability.Inline | ContentAvailability.NeverStored =>
        mret (unavailable content_id ContentUnavailableReason.NeverStored)
    | ContentAvailability.Stored => λ d,
        match load reference d with
        | (d, Ok bytes) => (d, chunk_of reference request bytes)
        | (d, Err (StateError.ContentMissing _)) => (d, Ok (unavailable content_id ContentUnavailableReason.Evicted))
        | (d, Err (StateError.ContentDigestMismatch _)) =>
            (d, Ok (unavailable content_id ContentUnavailableReason.DigestMismatch))
        | (d, Err e) => (d, Err e)
        end
    end.

Definition read_for_device (ownership : gmap (string * ContentId) OwnershipRecord) (device_id : DeviceId)
    (request : ContentReadRequest) (now_ms : Z) : disk ContentReadResponse :=
  _ ← disk_lift (contract (ContentReadRequest_validate request));
  let content_id := request.(ContentReadRequest.content_id) in
  match ownership !! (device_digest device_id, content_id) with
  | None => mret (unavailable content_id ContentUnavailableReason.Unauthorized)
  | Some record =>
      if negb (unexpired now_ms record) then mret (unavailable content_id ContentUnavailableReason.Evicted)
      else read_reference record.(OwnershipRecord.content_ref) request
  end.

Definition validate_device_reference (ownership : gmap (string * ContentId) OwnershipRecord) (device_id : DeviceId)
    (reference : ContentRef) (now_ms : Z) : disk unit :=
  _ ← disk_lift (contract (ContentRef_ensure_sensitive reference "device_command.content_ref"));
  let content_id := reference.(ContentRef.content_id) in
  match ownership !! (device_digest device_id, content_id) with
  | None => disk_fail (StateError.ContentUnauthorized content_id)
  | Some record =>
      if negb (unexpired now_ms record) then disk_fail (StateError.ContentExpired content_id)
      else if negb (bool_decide (record.(OwnershipRecord.content_ref) = reference))
      then disk_fail (StateError.ContentMetadataMismatch content_id)
      else _ ← load reference; mret tt
  end.
End content.

(** ** What the operations do to the bodies

    The bodies are the files whose name is a digest.  Temporary files, rewrites
    and the ownership file have other names, so most operations leave the bodies
    alone whatever fails on the way. *)

Definition bodies (files : gmap string string) : gmap string string :=
  filter (λ entry, safe_content_component entry.1 = true) files.

Lemma lookup_bodies files name content :
  bodies files !! name = Some content ↔ files !! name = Some content ∧ safe_content_component name = true.
Proof. apply map_lookup_filter_Some. Qed.

Lemma bodies_put files name content :
  safe_content_component name = false → bodies (<[name := content]> files) = bodies files.
Proof. intros Hn. apply map_filter_insert_not. simpl. congruence. Qed.

Lemma bodies_put_safe files name content :
  safe_content_component name = true → bodies (<[name := content]> files) = <[name := content]> (bodies files).
Proof. intros Hn. unfold bodies. by rewrite map_filter_insert_True. Qed.

Lemma bodies_drop files name : safe_content_component name = false → bodies (delete name files) = bodies files.
Proof. intros Hn. apply map_filter_delete_not. intros y _. simpl. congruence. Qed.

Lemma dot_is_not_a_body name : starts_with "." name = true → safe_content_component name = false.
Proof.
  rewrite starts_with_spec. intros [r ->]. unfold safe_content_component. simpl. apply andb_false_r.
Qed.

Lemma temporary_is_not_a_body name : is_temporary name = true → safe_content_component name = false.
Proof. unfold is_temporary. rewrite andb_true_iff. intros [Hd _]. by apply dot_is_not_a_body. Qed.

Lemma prefix_is_not_a_body rest : safe_content_component (OWNERSHIP_REWRITE_PREFIX +:+ rest) = false.
Proof. apply dot_is_not_a_body. apply starts_with_spec. by eexists. Qed.

Lemma ready_is_not_a_body name : is_ready name = true → safe_content_component name = false.
Proof.
  unfold is_ready. rewrite andb_true_iff, starts_with_spec. intros [[r ->] _]. apply prefix_is_not_a_body.
Qed.

Lemma ownership_is_not_a_body : safe_content_component OWNERSHIP_FILE = false.
Proof. reflexivity. Qed.

(** An invariant of the files that an operation keeps, whatever fails. *)
Definition keeps {T} (I : gmap string string → Prop) (op : disk T) : Prop :=
  ∀ d, I d.(Disk.files) → I (op d).1.(Disk.files).

Lemma keeps_bind {T U} I (op : disk T) (k : T → disk U) :
  keeps I op → (∀ v, keeps I (k v)) → keeps I (op ≫= k).
Proof.
  intros Hop Hk d Hd. unfold mbind, disk_bind. specialize (Hop d Hd). destruct (op d) as [d' [v|e]]; [|done].
  by apply Hk.
Qed.

Lemma keeps_ret {T} I (v : T) : keeps I (mret v).
Proof. by intros d. Qed.
Lemma keeps_fail {T} I e : keeps I (disk_fail e : disk T).
Proof. by intros d. Qed.
Lemma keeps_io {T} I name : keeps I (io_error name : disk T).
Proof. by intros d. Qed.
Lemma keeps_lift {T} I (r : result T StateError) : keeps I (disk_lift r).
Proof. by intros d. Qed.
Lemma keeps_fault I : keeps I next_fault.
Proof. by intros d. Qed.
Lemma keeps_files_of I : keeps I files_of.
Proof. by intros d. Qed.
Lemma keeps_sequence I : keeps I fetch_sequence.
Proof. by intros d. Qed.

Lemma keeps_put I name content : (∀ f, I f → I (<[name := content]> f)) → keeps I (put_file name content).
Proof. intros Hp d Hd. by apply Hp. Qed.
Lemma keeps_drop I name : (∀ f, I f → I (delete name f)) → keeps I (drop_file name).
Proof. intros Hp d Hd. by apply Hp. Qed.

#[export] Hint Resolve keeps_ret keeps_fail keeps_io keeps_lift keeps_fault keeps_files_of keeps_sequence : kaleido.

(** Unfold a sequence of calls into its parts. *)
Ltac keeps_steps :=
  repeat first
    [ progress auto with kaleido
    | apply keeps_bind; [|intros ?]
    | match goal with |- keeps _ (match ?x with _ => _ end) => destruct x end
    | match goal with |- keeps _ (if ?x then _ else _) => destruct x end ].

Lemma keeps_attempt I name : keeps I (attempt name).
Proof. unfold attempt. keeps_steps. Qed.
#[export] Hint Resolve keeps_attempt : kaleido.

Lemma keeps_exists I name : keeps I (path_exists name).
Proof. unfold path_exists. keeps_steps. Qed.
Lemma keeps_read_dir I : keeps I read_dir.
Proof. unfold read_dir. keeps_steps. Qed.
Lemma keeps_sync I : keeps I sync_parent_directory.
Proof. apply keeps_attempt. Qed.
Lemma keeps_sync_if I changed : keeps I (sync_if changed).
Proof. unfold sync_if. destruct changed; auto using keeps_sync with kaleido. Qed.
#[export] Hint Resolve keeps_exists keeps_read_dir keeps_sync keeps_sync_if : kaleido.

Lemma keeps_remove I name : (∀ f, I f → I (delete name f)) → keeps I (remove_file name).
Proof. intros Hp. unfold remove_file. keeps_steps. by apply keeps_drop. Qed.

Lemma keeps_remove_each I select names removed :
  (∀ name f, select name = true → I f → I (delete name f)) → keeps I (remove_each select names removed).
Proof.
  intros Hs. revert removed. induction names as [|n names IH]; intros removed; simpl; [auto with kaleido|].
  apply keeps_bind; [auto with kaleido|intros _]. destruct (select n) eqn:E; [|done]. apply keeps_bind; [|done].
  apply keeps_remove. intros f. by apply Hs.
Qed.

(** An invariant that says nothing about one file. *)
Definition local (I : gmap string string → Prop) (name : string) : Prop :=
  ∀ f, I f → (∀ content, I (<[name := content]> f)) ∧ I (delete name f).

Section local.
Context (I : gmap string string → Prop) (name : string) (Hlocal : local I name).

Lemma local_put content : keeps I (put_file name content).
Proof. apply keeps_put. intros f Hf. by apply Hlocal. Qed.
Lemma local_drop : keeps I (drop_file name).
Proof. apply keeps_drop. intros f Hf. by apply Hlocal. Qed.
Hint Resolve local_put local_drop : kaleido.
Lemma local_remove : keeps I (remove_file name).
Proof. unfold remove_file. keeps_steps. Qed.
Lemma local_discard : keeps I (discard name).
Proof. unfold discard. keeps_steps. Qed.
Hint Resolve local_discard : kaleido.
Lemma local_create : keeps I (create_new name).
Proof. unfold create_new. keeps_steps. Qed.
Lemma local_write bytes : keeps I (write_or_discard name bytes).
Proof. unfold write_or_discard. keeps_steps. Qed.
Lemma local_sync : keeps I (sync_or_discard name).
Proof. unfold sync_or_discard. keeps_steps. Qed.
End local.

(** The bodies stay as they are. *)
Definition same_bodies (b : gmap string string) (files : gmap string string) : Prop := bodies files = b.

Section same_bodies.
Context (b : gmap string string).
Notation keeps_b op := (keeps (same_bodies b) op).

Lemma same_bodies_local name : safe_content_component name = false → local (same_bodies b) name.
Proof. intros Hn f Hf. unfold same_bodies. split; [intros content; by rewrite bodies_put|by rewrite bodies_drop]. Qed.

Lemma put_other name content : safe_content_component name = false → keeps_b (put_file name content).
Proof. intros Hn. by apply local_put, same_bodies_local. Qed.
Lemma drop_other name : safe_content_component name = false → keeps_b (drop_file name).
Proof. intros Hn. by apply local_drop, same_bodies_local. Qed.
Hint Resolve put_other drop_other : kaleido.

Lemma remove_other name : safe_content_component name = false → keeps_b (remove_file name).
Proof. intros Hn. by apply local_remove, same_bodies_local. Qed.
Lemma discard_other name : safe_content_component name = false → keeps_b (discard name).
Proof. intros Hn. by apply local_discard, same_bodies_local. Qed.
Hint Resolve remove_other discard_other : kaleido.

Lemma rename_other from to :
  safe_content_component from = false → safe_content_component to = false → keeps_b (rename from to).
Proof. intros Hf Ht. unfold rename. keeps_steps. Qed.
Lemma create_other name : safe_content_component name = false → keeps_b (create_new name).
Proof. intros Hn. by apply local_create, same_bodies_local. Qed.
Lemma write_other name bytes : safe_content_component name = false → keeps_b (write_or_discard name bytes).
Proof. intros Hn. by apply local_write, same_bodies_local. Qed.
Lemma sync_other name : safe_content_component name = false → keeps_b (sync_or_discard name).
Proof. intros Hn. by apply local_sync, same_bodies_local. Qed.
Hint Resolve rename_other create_other write_other sync_other ownership_is_not_a_body : kaleido.

Lemma cleanup_temporary_same : keeps_b cleanup_temporary_files.
Proof.
  unfold cleanup_temporary_files. keeps_steps. apply keeps_remove_each. intros name f Ht Hf.
  unfold same_bodies. by rewrite bodies_drop by by apply temporary_is_not_a_body.
Qed.

Context `{OwnershipCodec} (hex_digest : string → string) (process_id : nat).

Lemma stem_is_not_a_body sequence rest : safe_content_component (rewrite_stem process_id sequence +:+ rest) = false.
Proof. unfold rewrite_stem. rewrite append_assoc. apply prefix_is_not_a_body. Qed.

Lemma temporary_body_is_not_a_body content_id sequence :
  safe_content_component (temporary_body process_id content_id sequence) = false.
Proof. apply dot_is_not_a_body. apply starts_with_spec. by eexists. Qed.
Hint Resolve stem_is_not_a_body temporary_body_is_not_a_body : kaleido.

Lemma write_records_same name records : safe_content_component name = false → keeps_b (write_records name records).
Proof. intros Hn. induction records as [|r records IH]; simpl; keeps_steps. Qed.
Hint Resolve write_records_same : kaleido.

Lemma replace_ownership_same ready : safe_content_component ready = false → keeps_b (replace_ownership ready).
Proof. intros Hr. unfold replace_ownership. keeps_steps. Qed.
Hint Resolve replace_ownership_same : kaleido.

Lemma rewrite_ownership_same ownership : keeps_b (rewrite_ownership process_id ownership).
Proof. unfold rewrite_ownership, rewrite_through. keeps_steps. Qed.

Lemma append_ownership_same record : keeps_b (append_ownership record).
Proof. unfold append_ownership. keeps_steps. Qed.

Lemma create_temporary_same fuel content_id : keeps_b (create_temporary process_id fuel content_id).
Proof. induction fuel as [|fuel IH]; simpl; keeps_steps. Qed.
End same_bodies.

Lemma listed_spec select names d d' found :
  listed select names d = (d', Ok found) → d'.(Disk.files) = d.(Disk.files) ∧ found = filter_b select names.
Proof.
  revert d d' found. induction names as [|n names IH]; intros d d' found; simpl; [by intros [= <- <-]|].
  unfold mbind, disk_bind, attempt, mbind, disk_bind, next_fault. destruct (default None _); [done|]. simpl.
  destruct (listed select names _) as [d1 [l|e]] eqn:E; [|done]. intros [= <- <-].
  apply IH in E as [-> ->]. by destruct (select n).
Qed.

(** A triple over the files, with a postcondition for failures. *)
Definition triple {T} (P : gmap string string → Prop) (op : disk T) (Q : T → gmap string string → Prop)
    (E : gmap string string → Prop) : Prop :=
  ∀ d, P d.(Disk.files) →
    match (op d).2 with
    | Ok v => Q v (op d).1.(Disk.files)
    | Err _ => E (op d).1.(Disk.files)
    end.

Lemma triple_bind {T U} P (op : disk T) R (k : T → disk U) Q E :
  triple P op R E → (∀ v, triple (R v) (k v) Q E) → triple P (op ≫= k) Q E.
Proof.
  intros Hop Hk d Hd. unfold mbind, disk_bind. specialize (Hop d Hd). destruct (op d) as [d' [v|e]]; [|done].
  exact (Hk v d' Hop).
Qed.

Lemma triple_keeps {T} I (op : disk T) : keeps I op → triple I op (λ _, I) I.
Proof. intros Hk d Hd. specialize (Hk d Hd). by destruct (op d).2. Qed.

Lemma triple_weaken {T} (P P' : gmap string string → Prop) (op : disk T) (Q Q' : T → gmap string string → Prop)
    (E E' : gmap string string → Prop) :
  triple P op Q E → (∀ f, P' f → P f) → (∀ v f, Q v f → Q' v f) → (∀ f, E f → E' f) → triple P' op Q' E'.
Proof. intros Ht HP HQ HE d Hd. specialize (Ht d (HP _ Hd)). destruct (op d).2; auto. Qed.

Lemma triple_ret {T} (P : gmap string string → Prop) (v : T) (Q : T → gmap string string → Prop) E :
  (∀ f, P f → Q v f) → triple P (mret v) Q E.
Proof. intros HQ d Hd. by apply HQ. Qed.

Lemma triple_io {T} (P : gmap string string → Prop) name (Q : T → gmap string string → Prop) (E : gmap string string → Prop) :
  (∀ f, P f → E f) → triple P (io_error name) Q E.
Proof. intros HE d Hd. by apply HE. Qed.

Lemma triple_files_of P (Q : gmap string string → gmap string string → Prop) E :
  (∀ f, P f → Q f f) → triple P files_of Q E.
Proof. intros HQ d Hd. by apply HQ. Qed.

Lemma triple_put P name content (Q : unit → gmap string string → Prop) E :
  (∀ f, P f → Q tt (<[name := content]> f)) → triple P (put_file name content) Q E.
Proof. intros HQ d Hd. by apply HQ. Qed.

Lemma triple_exists P name (Q : bool → gmap string string → Prop) E :
  (∀ f, P f → Q (is_some (f !! name)) f) → triple P (path_exists name) Q E.
Proof. intros HQ d Hd. by apply HQ. Qed.

Lemma triple_lift {T} (P : gmap string string → Prop) (r : result T StateError) (Q : T → gmap string string → Prop)
    (E : gmap string string → Prop) :
  (∀ f v, P f → r = Ok v → Q v f) → (∀ f, P f → E f) → triple P (disk_lift r) Q E.
Proof. intros HQ HE d Hd. unfold disk_lift. destruct r; simpl; eauto. Qed.

(** A fact the precondition implies. *)
Lemma triple_pre {T} (φ : Prop) (P : gmap string string → Prop) (op : disk T) Q E :
  (∀ f, P f → φ) → (φ → triple P op Q E) → triple P op Q E.
Proof. intros Hφ Ht d Hd. exact (Ht (Hφ _ Hd) d Hd). Qed.

(** A call that changes no file. *)
Lemma triple_same {T} (P : gmap string string → Prop) (op : disk T) (E : gmap string string → Prop) :
  (∀ I, keeps I op) → (∀ f, P f → E f) → triple P op (λ _, P) E.
Proof. intros Hk HE. eapply (triple_weaken P); [apply (triple_keeps P), Hk|by auto..]. Qed.

Lemma triple_remove P name (Q : unit → gmap string string → Prop) (E : gmap string string → Prop) :
  (∀ f, P f → Q tt (delete name f)) → (∀ f, P f → E f) → triple P (remove_file name) Q E.
Proof.
  intros HQ HE. unfold remove_file. eapply triple_bind; [apply (triple_same P); auto with kaleido|].
  intros ? d Hd. by apply HQ.
Qed.

Lemma triple_rename P from to (Q : unit → gmap string string → Prop) (E : gmap string string → Prop) :
  (∀ f content, P f → f !! from = Some content → Q tt (<[to := content]> (delete from f))) → (∀ f, P f → E f) →
  triple P (rename from to) Q E.
Proof.
  intros HQ HE. unfold rename. eapply triple_bind; [apply (triple_same P); auto with kaleido|].
  intros ? d Hd. unfold mbind, disk_bind. simpl. destruct (d.(Disk.files) !! from) eqn:E'; simpl; auto.
Qed.

(** The failures of an operation that keeps an invariant need no proof of their own. *)
Lemma triple_of_keeps {T} (P I : gmap string string → Prop) (op : disk T) (Q : T → gmap string string → Prop) :
  keeps I op → (∀ f, P f → I f) →
  (∀ d d' v, P d.(Disk.files) → I d'.(Disk.files) → op d = (d', Ok v) → Q v d'.(Disk.files)) → triple P op Q I.
Proof.
  intros Hk HP HQ d Hd. specialize (Hk d (HP _ Hd)). specialize (HQ d). destruct (op d) as [d' [v|e]]; simpl in *; auto.
Qed.

Lemma disk_bind_ok {T U} (op : disk T) (k : T → disk U) d d' v :
  (op ≫= k) d = (d', Ok v) ↔ ∃ d1 x, op d = (d1, Ok x) ∧ k x d1 = (d', Ok v).
Proof. unfold mbind, disk_bind. destruct (op d) as [d1 [x|e]]; naive_solver. Qed.

Lemma next_fault_ok d d' fault : next_fault d = (d', Ok fault) → d'.(Disk.files) = d.(Disk.files).
Proof. by intros [= <- _]. Qed.

Section stored.
Context `{OwnershipCodec} (hex_digest : string → string) (process_id : nat).

Lemma create_new_spec I name :
  local I name → triple I (create_new name) (λ created f, I f ∧ if created then f !! name = Some "" else True) I.
Proof.
  intros HI. unfold create_new. eapply triple_bind; [apply triple_same; auto with kaleido|intros ?].
  eapply triple_bind; [by apply (triple_exists I name (λ _, I))|intros [|]]; [by apply triple_ret|].
  eapply triple_bind; [apply (triple_put I name "" (λ _ f, I f ∧ f !! name = Some ""))|intros ?; by apply triple_ret].
  intros f Hf. split; [by apply HI|by rewrite lookup_insert_eq].
Qed.

Lemma create_temporary_spec b fuel content_id :
  triple (same_bodies b) (create_temporary process_id fuel content_id)
    (λ temporary f, same_bodies b f ∧ safe_content_component temporary = false ∧ f !! temporary = Some "") (same_bodies b).
Proof.
  induction fuel as [|fuel IH]; simpl; [by apply triple_io|].
  eapply triple_bind; [apply triple_same; auto with kaleido|intros sequence].
  pose proof (temporary_body_is_not_a_body process_id content_id sequence) as Hn.
  eapply triple_bind; [by apply create_new_spec, same_bodies_local|].
  intros [|]; [by apply triple_ret; intros f [? ?]|]. eapply triple_weaken; [apply IH|by intros f [? _]|done..].
Qed.

Lemma write_or_discard_spec I name prior bytes :
  local I name →
  triple (λ f, I f ∧ f !! name = Some prior) (write_or_discard name bytes)
    (λ _ f, I f ∧ f !! name = Some (prior +:+ bytes)) I.
Proof.
  intros HI. apply triple_of_keeps; [by apply local_write|by intros f [? _]|].
  intros d d' [] [_ Hd] Hb Hk. split; [done|]. unfold write_or_discard in Hk.
  apply disk_bind_ok in Hk as (d1 & files & [= <- <-] & Hk). rewrite Hd in Hk. simpl in Hk.
  apply disk_bind_ok in Hk as (d2 & fault & Hf%next_fault_ok & Hk). destruct fault.
  - by apply disk_bind_ok in Hk as (d3 & [] & _ & (d4 & [] & _ & ?)%disk_bind_ok).
  - injection Hk as <-. simpl. by rewrite lookup_insert_eq.
Qed.

Lemma sync_or_discard_spec I name content :
  local I name →
  triple (λ f, I f ∧ f !! name = Some content) (sync_or_discard name) (λ _ f, I f ∧ f !! name = Some content) I.
Proof.
  intros HI. apply triple_of_keeps; [by apply local_sync|by intros f [? _]|].
  intros d d' [] [_ Hd] Hb Hs. split; [done|]. unfold sync_or_discard in Hs.
  apply disk_bind_ok in Hs as (d1 & fault & Hf%next_fault_ok & Hs). destruct fault.
  - by apply disk_bind_ok in Hs as (d2 & [] & _ & ?).
  - injection Hs as <-. by rewrite Hf.
Qed.

(** What a store attempt may change: nothing, or one new body. *)
Definition maybe_added (b : gmap string string) (name content : string) (files : gmap string string) : Prop :=
  bodies files = b ∨ (b !! name = None ∧ bodies files = <[name := content]> b).

Lemma install_body_spec b path content_id bytes hex :
  safe_content_component path = true → b !! path = None →
  triple (same_bodies b) (install_body hex_digest process_id path content_id bytes hex)
    (λ _ f, bodies f = <[path := bytes]> b) (maybe_added b path bytes).
Proof.
  intros Hp Hnone. unfold install_body.
  assert (∀ f, same_bodies b f → maybe_added b path bytes f) as HE by (by left).
  eapply triple_bind; [by apply (triple_files_of _ (λ _, same_bodies b))|intros files].
  eapply triple_bind; [eapply triple_weaken; [apply create_temporary_spec|done..]|intros t].
  destruct (safe_content_component t) eqn:Ht; [intros d (_ & ? & _); congruence|].
  eapply triple_bind; [eapply triple_weaken; [by apply (write_or_discard_spec (same_bodies b) t "" bytes), same_bodies_local|naive_solver|done..]|intros ?].
  eapply triple_bind with (R := λ _ f, same_bodies b f ∧ f !! t = Some bytes).
  { eapply triple_weaken; [by apply (sync_or_discard_spec (same_bodies b) t bytes), same_bodies_local|auto..]. }
  intros ?.
  eapply triple_bind; [apply triple_same; [auto with kaleido|naive_solver]|intros linked].
  eapply triple_bind; [by apply (triple_exists _ path (λ taken f, (same_bodies b f ∧ f !! t = Some bytes) ∧
    taken = is_some (f !! path)))|intros taken].
  destruct linked as [k|]; [|destruct taken].
  - eapply triple_weaken with (E := same_bodies b) (P := same_bodies b) (Q := λ _ _, False); [|naive_solver|done..].
    eapply triple_bind; [apply triple_keeps; by apply (discard_other b)|intros ?; by apply triple_io].
  - intros d [[Hb _] Ht']. exfalso. symmetry in Ht'. apply is_some_true in Ht' as [x Hx].
    assert (bodies d.(Disk.files) !! path = Some x) as Hx' by (by apply lookup_bodies). rewrite Hb in Hx'. congruence.
  - eapply triple_weaken with (P := λ f, same_bodies b f ∧ f !! t = Some bytes)
      (Q := λ _, same_bodies (<[path := bytes]> b)) (E := same_bodies (<[path := bytes]> b)); [|naive_solver|done|by right].
    eapply triple_bind; [by apply (triple_files_of _ (λ files f, same_bodies b f ∧ files !! t = Some bytes))|intros current].
    eapply triple_bind; [apply (triple_put _ path _ (λ _, same_bodies (<[path := bytes]> b)))|intros ?].
    + intros f [Hb ->]. simpl. unfold same_bodies. by rewrite bodies_put_safe, Hb.
    + apply (triple_keeps (same_bodies (<[path := bytes]> b))), keeps_bind; [by apply remove_other|auto with kaleido].
Qed.

(** The reference of some bytes. *)
Definition reference_of (kind : ContentKind) (sensitivity : Sensitivity) (bytes : string) : ContentRef :=
  ContentRef.mk (mkId (hex_digest bytes)) kind (str_len bytes) ("sha256:" +:+ hex_digest bytes) None sensitivity
    ContentAvailability.Stored.

(** A body with the digest and the length of some bytes is on disk. *)
Definition holds_body (bytes : string) (files : gmap string string) : Prop :=
  ∃ content, bodies files !! hex_digest bytes = Some content ∧ str_len content = str_len bytes ∧
    hex_digest content = hex_digest bytes.

Lemma verify_body_spec b path content_id bytes :
  path = hex_digest bytes → safe_content_component path = true →
  triple (same_bodies b) (verify_body hex_digest path content_id (str_len bytes) (hex_digest bytes))
    (λ _ f, same_bodies b f ∧ holds_body bytes f) (same_bodies b).
Proof.
  intros -> Hs. apply triple_of_keeps; [unfold verify_body; keeps_steps|done|].
  intros d d' [] Hd Hb Hv. split; [done|]. unfold verify_body in Hv.
  apply disk_bind_ok in Hv as (d1 & [] & Ha & Hv). apply disk_bind_ok in Hv as (d2 & files & [= <- <-] & Hv).
  apply disk_bind_ok in Hv as (d3 & content & Hc & Hv). unfold disk_lift in Hc. injection Hc as <- Hc.
  rewrite ok_or_ok in Hc. destruct (_ || _) eqn:Ecmp; [done|]. injection Hv as <-. simpl_ok.
  destruct Ecmp as [Hlen Hhex]. exists content. split_and!; [by apply lookup_bodies|lia|done].
Qed.

(** Storing adds at most one body, and a reference is returned only when the
    bytes it names are on disk. *)
Lemma store_spec b kind sensitivity bytes :
  triple (same_bodies b) (store hex_digest process_id kind sensitivity bytes)
    (λ reference f, maybe_added b (hex_digest bytes) bytes f ∧ holds_body bytes f ∧
                    reference = reference_of kind sensitivity bytes) (maybe_added b (hex_digest bytes) bytes).
Proof.
  unfold store. assert (∀ f, same_bodies b f → maybe_added b (hex_digest bytes) bytes f) as HE by (by left).
  eapply triple_bind with (R := λ path f, same_bodies b f ∧ path = hex_digest bytes ∧ safe_content_component path = true).
  { apply triple_lift; [|auto]. intros f v Hf. unfold path_for. rewrite rbind_ok_unit, reject_if_ok, negb_false_true.
    by intros [? [= <-]]. }
  intros path. eapply triple_bind; [by apply (triple_exists _ path (λ present f, (same_bodies b f ∧ path = hex_digest bytes ∧
    safe_content_component path = true) ∧ present = is_some (f !! path)))|intros present].
  eapply triple_bind with (R := λ _ f, maybe_added b (hex_digest bytes) bytes f ∧ holds_body bytes f).
  - apply (triple_pre (path = hex_digest bytes ∧ safe_content_component path = true)); [naive_solver|intros [-> Hs]].
    destruct present.
    + eapply triple_weaken; [by apply (verify_body_spec b)|naive_solver| |auto]. intros ? f [? ?]. auto.
    + apply (triple_pre (b !! hex_digest bytes = None)); [|intros Hn].
      { intros f [(Hb & _) Hnone]. symmetry in Hnone. apply is_some_false in Hnone. rewrite <-Hb.
        apply eq_None_not_Some. intros [x Hx]. apply lookup_bodies in Hx as [Hx _]. congruence. }
      eapply triple_weaken; [by apply (install_body_spec b)|naive_solver| |done].
      intros ? f Hf. split; [by right|]. exists bytes. by rewrite Hf, lookup_insert_eq.
  - intros []. eapply triple_bind; [eapply triple_lift; [intros f v Hf ?; exact Hf|by intros f [? _]]|intros ?].
    apply triple_ret. intros f [? ?]. done.
Qed.
End stored.
