(* ===== verification/ContentProofs.v ===== *)
(** * The uploads of devices

    What the content store of [ContentFiles.v] promises: every upload a device
    owns has its body and reads back in chunks, is served to that device only,
    and stays within the quota, whatever fails on disk; and an interrupted
    rewrite of the ownership file leaves the old records or the new ones. *)
From stdpp Require Import prelude strings gmap.
From Stdlib Require Import ZArith Lia Ascii.
From S2P Require Import Prelude ProtoBase ProtoContent CanonState DurableLog ContentFiles.

Local Open Scope Z_scope.

Section stored.
Context `{OwnershipCodec} (hex_digest : string → string) (process_id : nat).

Notation holds_body := (holds_body hex_digest).
Notation reference_of := (reference_of hex_digest).

(** ** The store *)

(** The body an ownership record stands for. *)
Definition owned_body (files : gmap string string) (key : string * ContentId) (record : OwnershipRecord) : Prop :=
  ∃ content, bodies files !! id_value key.2 = Some content ∧ owner_key record = key ∧
    record.(OwnershipRecord.content_ref) = reference_of record.(OwnershipRecord.content_ref).(ContentRef.kind)
                                             Sensitivity.Sensitive content.

(** Every body is stored under its digest, and every upload that is owned has
    its body. *)
Record content_inv (c : ContentStore) : Prop := {
  bodies_are_addressed name content :
    bodies c.(ContentStore.disk).(Disk.files) !! name = Some content → hex_digest content = name;
  uploads_are_present : map_Forall (owned_body c.(ContentStore.disk).(Disk.files)) c.(ContentStore.ownership)
}.

Notation files_in c := (c.(ContentStore.disk).(Disk.files)).

Lemma on_disk_same {T} (op : disk T) c :
  (∀ b, keeps (same_bodies b) op) →
  bodies (files_in (on_disk op c).1) = bodies (files_in c) ∧ (on_disk op c).1.(ContentStore.ownership) = c.(ContentStore.ownership).
Proof.
  intros Hk. unfold on_disk. specialize (Hk (bodies (files_in c)) c.(ContentStore.disk) eq_refl).
  by destruct (op _) as [d r].
Qed.

Lemma cleanup_expired_spec now_ms c :
  bodies (files_in (cleanup_expired_ownership process_id now_ms c).1) = bodies (files_in c) ∧
  (cleanup_expired_ownership process_id now_ms c).1.(ContentStore.ownership) =
    filter (λ entry, unexpired now_ms entry.2 = true) c.(ContentStore.ownership).
Proof.
  unfold cleanup_expired_ownership. set (kept := filter _ _).
  destruct (on_disk_same (_ ← (if (size kept =? size c.(ContentStore.ownership))%nat then mret tt
      else rewrite_ownership process_id kept); cleanup_temporary_files) (ContentStore.mk c.(ContentStore.disk) kept)) as [Hb Ho].
  - intros b. apply keeps_bind; [|intros _; apply cleanup_temporary_same].
    destruct (_ =? _)%nat; [auto with kaleido|apply rewrite_ownership_same].
  - by rewrite Hb, Ho.
Qed.

Lemma content_inv_bodies c c' :
  content_inv c → bodies (files_in c') = bodies (files_in c) →
  (∀ k r, c'.(ContentStore.ownership) !! k = Some r → c.(ContentStore.ownership) !! k = Some r) → content_inv c'.
Proof.
  intros [Ia Iu] Hb Ho. split; [by rewrite Hb|]. intros k r Hr. unfold owned_body. rewrite Hb. by apply Iu, Ho.
Qed.

Lemma cleanup_expired_inv now_ms c : content_inv c → content_inv (cleanup_expired_ownership process_id now_ms c).1.
Proof.
  intros Hc. destruct (cleanup_expired_spec now_ms c) as [Hb Ho]. eapply content_inv_bodies; [done..|].
  intros k r. rewrite Ho, map_lookup_filter_Some. naive_solver.
Qed.

(** Adding a body keeps the others. *)
Lemma maybe_added_inv c d name content :
  content_inv c → hex_digest content = name → maybe_added (bodies (files_in c)) name content d.(Disk.files) →
  content_inv (ContentStore.mk d c.(ContentStore.ownership)).
Proof.
  intros [Ia Iu] Hn [Hb|[Hnone Hb]].
  { eapply (content_inv_bodies c); [by split|done..]. }
  split; simpl; rewrite ?Hb.
  - intros k x. rewrite lookup_insert_Some. naive_solver.
  - intros k r (x & Hx & Hr)%Iu. exists x. split; [|done]. rewrite Hb. apply lookup_insert_Some. right.
    split; [|done]. intros Heq. rewrite Heq in Hnone. congruence.
Qed.

Lemma trim_step fuel prefix s rest :
  strip_prefix prefix s = Some rest → trim_start_matches (S fuel) prefix s = trim_start_matches fuel prefix rest.
Proof. intros Hs. simpl. by rewrite Hs. Qed.

Lemma trim_none fuel prefix s : strip_prefix prefix s = None → trim_start_matches fuel prefix s = s.
Proof. intros Hs. destruct fuel; simpl; [done|]. by rewrite Hs. Qed.

Lemma trim_digest hex :
  safe_content_component hex = true →
  trim_start_matches (String.length ("sha256:" +:+ hex)) "sha256:" ("sha256:" +:+ hex) = hex.
Proof.
  intros Hs. change (String.length ("sha256:" +:+ hex)) with (S (6 + String.length hex)).
  rewrite (trim_step _ _ _ hex) by by apply strip_prefix_some. apply trim_none. apply eq_None_not_Some.
  intros [r Hr]. apply strip_prefix_some in Hr as ->. unfold safe_content_component in Hs. simpl in Hs.
  by rewrite andb_false_r in Hs.
Qed.

Lemma store_ok_safe kind sensitivity bytes d d' reference :
  store hex_digest process_id kind sensitivity bytes d = (d', Ok reference) → safe_content_component (hex_digest bytes) = true.
Proof.
  unfold store. intros (d1 & path & Hp & _)%disk_bind_ok. unfold disk_lift in Hp. injection Hp as _ Hp. revert Hp.
  unfold path_for. rewrite rbind_ok_unit, reject_if_ok, negb_false_true. by intros [? _].
Qed.

(** The record an upload leaves. *)
Definition upload_record (device : string) (request : ContentWriteRequest) (bytes : string) (now_ms expires_at_ms : Z) : OwnershipRecord :=
  OwnershipRecord.mk OWNERSHIP_FORMAT_VERSION device
    (reference_of request.(ContentWriteRequest.content_kind) Sensitivity.Sensitive bytes) now_ms expires_at_ms.

(** Nothing owned, or the record of the upload, whose body is then on disk; a
    stored reference is returned in the second case only. *)
Lemma store_upload_spec request device bytes now_ms expires_at_ms c c' r :
  let key := (device, mkId (trim_start_matches (String.length ("sha256:" +:+ hex_digest bytes)) "sha256:"
                              ("sha256:" +:+ hex_digest bytes))) in
  content_inv c → store_upload hex_digest process_id request key bytes now_ms expires_at_ms c = (c', r) →
  content_inv c' ∧ bodies (files_in c) ⊆ bodies (files_in c') ∧
  ((c'.(ContentStore.ownership) = c.(ContentStore.ownership) ∧ ∃ e, r = Err e) ∨
   (key = (device, mkId (hex_digest bytes)) ∧ holds_body bytes (files_in c') ∧
    c'.(ContentStore.ownership) = <[key := upload_record device request bytes now_ms expires_at_ms]> c.(ContentStore.ownership) ∧
    ∀ response, r = Ok response →
      response = ContentWriteResponse.Stored (reference_of request.(ContentWriteRequest.content_kind) Sensitivity.Sensitive bytes) ∧
      ContentWriteResponse_validate_for response request = Ok tt)).
Proof.
  intros key Hc. unfold store_upload, on_disk.
  pose proof (store_spec hex_digest process_id (bodies (files_in c)) request.(ContentWriteRequest.content_kind) Sensitivity.Sensitive bytes
    c.(ContentStore.disk) eq_refl) as Hs.
  pose proof (store_ok_safe request.(ContentWriteRequest.content_kind) Sensitivity.Sensitive bytes c.(ContentStore.disk)) as Hsafe.
  assert (∀ d, maybe_added (bodies (files_in c)) (hex_digest bytes) bytes d.(Disk.files) →
            content_inv (ContentStore.mk d c.(ContentStore.ownership)) ∧ bodies (files_in c) ⊆ bodies d.(Disk.files)) as Hadd.
  { intros d Hm. split; [by eapply maybe_added_inv|]. destruct Hm as [->|[Hn ->]]; [done|]. by apply insert_subseteq. }
  destruct (store _ _ _ _ _ _) as [d [reference|e]]; simpl in Hs.
  2: { intros [= <- <-]. destruct (Hadd d Hs). split_and!; [done..|]. left. naive_solver. }
  destruct Hs as (Hm & (x & Hx & Hlen & Hhex) & ->). specialize (Hsafe d _ eq_refl). simpl.
  destruct (Hadd d Hm) as [Hi Hsub].
  pose proof (append_ownership_same (bodies d.(Disk.files)) (upload_record device request bytes now_ms expires_at_ms) d eq_refl) as Ha.
  fold (upload_record device request bytes now_ms expires_at_ms).
  destruct (append_ownership _ d) as [d' [[]|e]]; simpl in Ha; intros [= <- <-]; simpl; rewrite Ha.
  2: { split_and!; [by eapply content_inv_bodies; [exact Hi|..]|done|]. left. naive_solver. }
  assert (key = (device, mkId (hex_digest bytes))) as Hkey by (unfold key; by rewrite trim_digest).
  split_and!; [|done|right; split_and!].
  - destruct Hi as [Ia Iu]. split; simpl; [by rewrite Ha|]. apply map_Forall_insert_2.
    + exists x. rewrite Hkey. simpl. rewrite Ha. split_and!; [done..|]. unfold reference_of. by rewrite Hhex, Hlen.
    + intros k r Hr. unfold owned_body. rewrite Ha. by apply (Iu k r).
  - done.
  - exists x. by rewrite Ha.
  - done.
  - intros response. rewrite rbind_ok_unit. intros [Hv [= <-]]. split; [done|]. by apply (map_err_ok StateError.Contract).
Qed.

(** ** The quota *)

(** The bytes a device owns, expired or not. *)
Definition share (digest : string) (record : OwnershipRecord) : Z :=
  if bool_decide (record.(OwnershipRecord.device_digest) = digest)
  then record.(OwnershipRecord.content_ref).(ContentRef.byte_len) else 0.

Definition usage (digest : string) (ownership : gmap (string * ContentId) OwnershipRecord) : Z :=
  map_fold (λ _ record total, share digest record + total) 0 ownership.

Lemma usage_delete digest ownership key record :
  ownership !! key = Some record → usage digest ownership = share digest record + usage digest (delete key ownership).
Proof.
  intros Hk. unfold usage. apply (map_fold_delete_L (λ _ record total, share digest record + total)); [|done]. intros. lia.
Qed.

Lemma usage_insert digest ownership key record :
  usage digest (<[key := record]> ownership) = share digest record + usage digest (delete key ownership).
Proof.
  rewrite (usage_delete digest _ key record) by by rewrite lookup_insert_eq. by rewrite delete_insert_eq.
Qed.

Definition sized (ownership : gmap (string * ContentId) OwnershipRecord) : Prop :=
  map_Forall (λ key record, 0 ≤ record.(OwnershipRecord.content_ref).(ContentRef.byte_len) ∧
                            record.(OwnershipRecord.device_digest) = key.1) ownership.

Lemma inv_sized c : content_inv c → sized c.(ContentStore.ownership).
Proof.
  intros [_ Iu] k r (x & _ & Hk & Hr)%Iu. rewrite Hr. simpl. unfold str_len. split; [lia|].
  by rewrite <-Hk.
Qed.

Lemma share_nonneg digest k r ownership : sized ownership → ownership !! k = Some r → 0 ≤ share digest r.
Proof. intros Hs Hk. destruct (Hs k r Hk). unfold share. case_bool_decide; lia. Qed.

(** A smaller table uses less. *)
Lemma usage_mono digest small ownership : small ⊆ ownership → sized ownership → usage digest small ≤ usage digest ownership.
Proof.
  revert small. induction ownership as [|k r m Hn IH] using map_ind; intros small Hsub Hs.
  { assert (small = ∅) as -> by (apply map_empty; intros k; apply eq_None_not_Some; intros [x Hx]; eapply lookup_weaken in Hx; [|exact Hsub]; done). done. }
  assert (sized m) as Hm by (by eapply map_Forall_insert_1_2).
  assert (0 ≤ share digest r) as Hr by (eapply share_nonneg; [exact Hs|apply lookup_insert_eq]).
  rewrite usage_insert, delete_id by done.
  destruct (small !! k) as [r'|] eqn:Hk.
  - assert (r' = r) as -> by (pose proof (lookup_weaken _ _ _ _ Hk Hsub) as E; rewrite lookup_insert_eq in E; congruence).
    rewrite (usage_delete digest small k r Hk). enough (usage digest (delete k small) ≤ usage digest m) by lia.
    apply IH; [|done]. apply map_subseteq_spec. intros k' x. rewrite lookup_delete_Some. intros [Hne Hx].
    eapply lookup_weaken in Hx; [|exact Hsub]. by rewrite lookup_insert_ne in Hx.
  - enough (usage digest small ≤ usage digest m) by lia. apply IH; [|done]. apply map_subseteq_spec. intros k' x Hx.
    assert (k' ≠ k) by congruence. eapply lookup_weaken in Hx; [|exact Hsub]. by rewrite lookup_insert_ne in Hx.
Qed.

(** The saturating sum of the source. *)
Lemma saturating_sum (l : list OwnershipRecord) (total : Z) :
  Forall (λ r, 0 ≤ r.(OwnershipRecord.content_ref).(ContentRef.byte_len)) l → total ≤ u64_max →
  foldl (λ total record, saturating_add_u64 total record.(OwnershipRecord.content_ref).(ContentRef.byte_len)) total l =
  Z.min (total + foldr (λ r acc, r.(OwnershipRecord.content_ref).(ContentRef.byte_len) + acc) 0 l) u64_max.
Proof.
  intros Hl. revert total. induction Hl as [|r l Hr Hl IH]; intros total Ht; simpl; [lia|].
  rewrite IH by (unfold saturating_add_u64; lia). unfold saturating_add_u64.
  assert (0 ≤ foldr (λ r acc, r.(OwnershipRecord.content_ref).(ContentRef.byte_len) + acc) 0 l)
    by (clear -Hl; induction Hl; simpl; lia). lia.
Qed.

Lemma sum_of_shares digest now_ms (l : list OwnershipRecord) :
  Forall (λ r, unexpired now_ms r = true) l →
  foldr (λ r acc, r.(OwnershipRecord.content_ref).(ContentRef.byte_len) + acc) 0
    (filter_b (λ r, bool_decide (r.(OwnershipRecord.device_digest) = digest) && unexpired now_ms r) l) =
  foldr (λ r acc, share digest r + acc) 0 l.
Proof.
  induction 1 as [|r l Hr _ IH]; simpl; [done|]. rewrite Hr, andb_true_r. rewrite <-IH. unfold share at 1.
  case_bool_decide; simpl; lia.
Qed.

Lemma device_bytes_usage now_ms digest ownership :
  sized ownership → map_Forall (λ _ r, unexpired now_ms r = true) ownership →
  device_bytes now_ms digest ownership = Z.min (usage digest ownership) u64_max.
Proof.
  intros Hs Hu. unfold device_bytes. rewrite saturating_sum; [|apply Forall_forall; intros r Hr|done].
  - rewrite sum_of_shares; [|apply Forall_forall; intros r (k & Hk)%elem_of_btree_values; by eapply Hu].
    f_equal. rewrite Z.add_0_l. unfold usage. rewrite map_fold_foldr.
    transitivity (foldr (λ r acc, share digest r + acc) 0 (map_to_list ownership).*2).
    + apply (foldr_permutation_proper (=) (λ r acc, share digest r + acc));
        [intros r x y ->; done|intros; lia|unfold btree_values; by rewrite btree_entries_perm].
    + generalize (map_to_list ownership). clear. intros l. induction l as [|[k r] l IH]; csimpl; [done|]. by f_equal.
  - apply elem_of_filter_b in Hr as [(k & Hk)%elem_of_btree_values _]. by apply (Hs k r).
Qed.

(** ** Sequences of calls *)

Inductive ContentCall : Type :=
| Upload (device_id : DeviceId) (request : ContentWriteRequest) (bytes : string) (now_ms : Z)
| CleanUp (now_ms : Z) (protected : gset ContentId)
| StoreBody (kind : ContentKind) (sensitivity : Sensitivity) (bytes : string).

(** One call, with the faults it meets. *)
Definition apply_content (c : ContentStore) (call : ContentCall * list (option nat)) : ContentStore :=
  let c := ContentStore.mk (Disk_set_faults call.2 c.(ContentStore.disk)) c.(ContentStore.ownership) in
  match call.1 with
  | Upload device_id request bytes now_ms => (write_for_device hex_digest process_id device_id request bytes now_ms c).1
  | CleanUp now_ms protected => (cleanup_after_replay process_id now_ms protected c).1
  | StoreBody kind sensitivity bytes => (on_disk (store hex_digest process_id kind sensitivity bytes) c).1
  end.

Definition empty_store : ContentStore := ContentStore.mk (Disk.mk ∅ [] 0) ∅.

Definition run_content (c : ContentStore) (calls : list (ContentCall * list (option nat))) : ContentStore :=
  foldl apply_content c calls.

Lemma set_faults_inv c faults :
  content_inv c → content_inv (ContentStore.mk (Disk_set_faults faults c.(ContentStore.disk)) c.(ContentStore.ownership)).
Proof. intros Hc. by eapply content_inv_bodies. Qed.

(** An upload: what expired goes, and either nothing else is owned or the upload is. *)
Lemma write_for_device_spec device_id request bytes now_ms c c' r :
  content_inv c → write_for_device hex_digest process_id device_id request bytes now_ms c = (c', r) →
  let kept := filter (λ entry, unexpired now_ms entry.2 = true) c.(ContentStore.ownership) in
  let key := (device_digest hex_digest device_id, mkId (hex_digest bytes)) in
  content_inv c' ∧ bodies (files_in c) ⊆ bodies (files_in c') ∧
  ((c'.(ContentStore.ownership) = kept ∧ ∀ reference, r ≠ Ok (ContentWriteResponse.Stored reference)) ∨
   (holds_body bytes (files_in c') ∧
    c'.(ContentStore.ownership) =
      <[key := upload_record key.1 request bytes now_ms (now_ms + DEVICE_CONTENT_TTL_MS)]> kept ∧
    (is_some_and (kept !! key) (λ record, unexpired now_ms record &&
       (record.(OwnershipRecord.content_ref).(ContentRef.byte_len) =? str_len bytes)) = true ∨
     device_bytes now_ms key.1 kept + str_len bytes ≤ DEVICE_CONTENT_QUOTA_BYTES) ∧
    ∀ response, r = Ok response →
      response = ContentWriteResponse.Stored (reference_of request.(ContentWriteRequest.content_kind) Sensitivity.Sensitive bytes) ∧
      ContentWriteResponse_validate_for response request = Ok tt)).
Proof.
  intros Hc Hw kept key. unfold write_for_device in Hw.
  destruct (cleanup_expired_spec now_ms c) as [Hb Ho]. pose proof (cleanup_expired_inv now_ms c Hc) as Hc1.
  fold kept in Ho. destruct (cleanup_expired_ownership process_id now_ms c) as [c1 [[]|e]]; simpl in Hb, Ho, Hc1.
  2: { injection Hw as <- <-. split_and!; [done|by rewrite Hb|left]. by split. }
  rewrite <-Hb. revert Hw. set (trimmed := trim_start_matches (String.length ("sha256:" +:+ hex_digest bytes)) "sha256:"
    ("sha256:" +:+ hex_digest bytes)).
  destruct (_ || _ || _ || _) eqn:Echk.
  { intros [= <- <-]. split_and!; [done..|left]. by split. }
  destruct (checked_add_i64 now_ms DEVICE_CONTENT_TTL_MS) as [expires|] eqn:Eadd.
  2: { intros [= <- <-]. split_and!; [done..|left]. by split. }
  intros Hs. apply store_upload_spec in Hs as (Hi & Hsub & Hcase); [|done]. split_and!; [done..|].
  rewrite Ho in Hcase. destruct Hcase as [[? [e ->]]|(Hk & Hh & Ho' & Hr)]; [left; by split|right].
  fold trimmed in Hk, Ho', Echk. injection Hk as Hk.
  assert (expires = now_ms + DEVICE_CONTENT_TTL_MS) as -> by (unfold checked_add_i64 in Eadd; case_match; congruence).
  rewrite Hk in Ho', Echk. split_and!; [done..| |done].
  apply orb_false_iff in Echk as [_ Hq%negb_false_true]. apply orb_true_iff in Hq as [Hq|Hq]; [left; by rewrite <-Ho|right].
  apply is_some_and_true in Hq as (total & Ht & Hq%Z.leb_le). apply checked_add_u64_some in Ht as [-> _].
  rewrite <-Ho. exact Hq.
Qed.

Lemma store_inv kind sensitivity bytes c :
  content_inv c →
  content_inv (on_disk (store hex_digest process_id kind sensitivity bytes) c).1 ∧
  bodies (files_in c) ⊆ bodies (files_in (on_disk (store hex_digest process_id kind sensitivity bytes) c).1).
Proof.
  intros Hc. pose proof (store_spec hex_digest process_id _ kind sensitivity bytes c.(ContentStore.disk) eq_refl) as Hs.
  unfold on_disk. destruct (store _ _ _ _ _ _) as [d r]. simpl in *.
  assert (maybe_added (bodies (files_in c)) (hex_digest bytes) bytes d.(Disk.files)) as Hm by (destruct r; tauto).
  split; [by eapply maybe_added_inv|]. destruct Hm as [->|[Hn ->]]; [done|]. by apply insert_subseteq.
Qed.

(** ** The clean-up after a replay *)

Lemma remove_each_keeps_file select names removed name content :
  select name = false → keeps (λ f, f !! name = Some content) (remove_each select names removed).
Proof.
  intros Hs. apply keeps_remove_each. intros n f Hn Hf. apply lookup_delete_Some. split; [|done]. congruence.
Qed.

Lemma remove_each_subset select names removed b : keeps (λ f, bodies f ⊆ b) (remove_each select names removed).
Proof.
  apply keeps_remove_each. intros n f _ Hf. etrans; [|exact Hf]. apply map_subseteq_spec. intros k x.
  rewrite !lookup_bodies, lookup_delete_Some. naive_solver.
Qed.

(** What is owned keeps its body, whatever is removed and whatever fails. *)
Lemma cleanup_inv now_ms protected c :
  content_inv c →
  content_inv (cleanup_after_replay process_id now_ms protected c).1 ∧
  (cleanup_after_replay process_id now_ms protected c).1.(ContentStore.ownership) =
    filter (λ entry, unexpired now_ms entry.2 = true) c.(ContentStore.ownership) ∧
  ∀ name content, bodies (files_in c) !! name = Some content →
    (mkId name ∈ protected ∨
     ∃ k r, c.(ContentStore.ownership) !! k = Some r ∧ unexpired now_ms r = true ∧ id_value k.2 = name) →
    bodies (files_in (cleanup_after_replay process_id now_ms protected c).1) !! name = Some content.
Proof.
  intros Hc. unfold cleanup_after_replay.
  destruct (cleanup_expired_spec now_ms c) as [Hb Ho]. pose proof (cleanup_expired_inv now_ms c Hc) as Hc1.
  destruct (cleanup_expired_ownership process_id now_ms c) as [c1 [[]|e]]; simpl in Hb, Ho, Hc1.
  2: { simpl. rewrite Hb. split_and!; [done..|by intros]. }
  set (everything := protected ∪ _). set (op := _ ≫= _).
  assert (∀ name content, is_orphan everything name = false → keeps (λ f, bodies f !! name = Some content) op) as Hkeep.
  { intros name content Hn. unfold op. apply keeps_bind; [|intros _; apply keeps_bind; [auto with kaleido|intros names];
      apply keeps_bind; [|auto with kaleido]].
    - intros d Hd. rewrite (cleanup_temporary_same (bodies d.(Disk.files)) d eq_refl). done.
    - intros d Hd. apply lookup_bodies in Hd as [Hd Hs]. apply lookup_bodies. split; [|done].
      by apply (remove_each_keeps_file _ _ _ name content Hn d). }
  assert (∀ b, keeps (λ f, bodies f ⊆ b) op) as Hless.
  { intros b. unfold op. apply keeps_bind; [|intros _; apply keeps_bind; [auto with kaleido|intros names];
      apply keeps_bind; [apply remove_each_subset|auto with kaleido]].
    intros d Hd. by rewrite (cleanup_temporary_same (bodies d.(Disk.files)) d eq_refl). }
  assert (∀ k r, c1.(ContentStore.ownership) !! k = Some r → is_orphan everything (id_value k.2) = false) as Howned.
  { intros k r Hk. unfold is_orphan. apply andb_false_iff. right. apply negb_false_true, bool_decide_eq_true.
    destruct (uploads_are_present _ Hc1 k r Hk) as (x & _ & Hkey & _). apply elem_of_union_r, elem_of_list_to_set, list_elem_of_fmap.
    exists r. split; [|apply elem_of_btree_values; by exists k]. rewrite <-Hkey. simpl.
    by destruct (r.(OwnershipRecord.content_ref).(ContentRef.content_id)). }
  unfold on_disk. pose proof (Hless (bodies (files_in c1)) c1.(ContentStore.disk)) as Hle.
  assert (∀ name content, is_orphan everything name = false → bodies (files_in c1) !! name = Some content →
            bodies (op c1.(ContentStore.disk)).1.(Disk.files) !! name = Some content) as Hkept
    by (intros; by apply Hkeep).
  destruct (op c1.(ContentStore.disk)) as [d r]. simpl in *. split_and!; [|done|].
  - destruct Hc1 as [Ia Iu]. split; simpl.
    + intros name x Hx. apply Ia. by eapply lookup_weaken in Hx; [|by apply Hle].
    + intros k r' Hk. destruct (Iu k r' Hk) as (x & Hx & ?). exists x. split; [|done].
      apply Hkept; [by apply (Howned k r')|done].
  - intros name x Hx Hp. apply Hkept; [|by rewrite Hb]. destruct Hp as [Hp|(k & r' & Hk & Hu & <-)].
    + unfold is_orphan. apply andb_false_iff. right. apply negb_false_true, bool_decide_eq_true. by apply elem_of_union_l.
    + apply (Howned k r'). rewrite Ho. by apply map_lookup_filter_Some.
Qed.

Lemma apply_content_inv c call : content_inv c → content_inv (apply_content c call).
Proof.
  intros Hc. apply (set_faults_inv c call.2) in Hc. unfold apply_content.
  destruct call as [[device request bytes now|now protected|kind sensitivity bytes] faults]; simpl in *.
  - destruct (write_for_device _ _ _ _ _ _ _) as [c' r] eqn:E. by eapply write_for_device_spec in E as (? & _).
  - by apply cleanup_inv.
  - by apply store_inv.
Qed.

Lemma run_content_inv calls c : content_inv c → content_inv (run_content c calls).
Proof. revert c. induction calls as [|call calls IH]; intros c Hc; [done|]. by apply IH, apply_content_inv. Qed.

Lemma empty_inv : content_inv empty_store.
Proof. split; [|apply map_Forall_empty]. intros name content [? _]%lookup_bodies. done. Qed.

(** ** The quota holds *)

Definition within_quota (c : ContentStore) : Prop :=
  ∀ digest, usage digest c.(ContentStore.ownership) ≤ DEVICE_CONTENT_QUOTA_BYTES.

Lemma filter_quota p `{∀ x, Decision (p x)} c :
  content_inv c → within_quota c →
  ∀ digest, usage digest (filter p c.(ContentStore.ownership)) ≤ DEVICE_CONTENT_QUOTA_BYTES.
Proof.
  intros Hc Hq digest. etrans; [|apply Hq]. apply usage_mono; [apply map_filter_subseteq|by apply inv_sized].
Qed.

Lemma write_quota device_id request bytes now_ms c :
  content_inv c → within_quota c → within_quota (write_for_device hex_digest process_id device_id request bytes now_ms c).1.
Proof.
  intros Hc Hq. pose proof (filter_quota (λ entry, unexpired now_ms entry.2 = true) c Hc Hq) as Hk.
  destruct (write_for_device _ _ _ _ _ _ _) as [c' r] eqn:E.
  apply write_for_device_spec in E as (Hi & _ & Hcase); [|done]. simpl in Hcase |- *.
  set (kept := filter _ _) in *. assert (sized kept) as Hs.
  { intros k x [Hx _]%map_lookup_filter_Some. by apply (inv_sized c Hc). }
  destruct Hcase as [[Ho _]|(_ & Ho & Hfit & _)]; intros digest; rewrite Ho; [apply Hk|].
  rewrite usage_insert. set (key := (_, _)) in *. set (record := upload_record _ _ _ _ _).
  assert (∀ g, usage g (delete key kept) ≤ usage g kept) as Hdel by (intros g; apply usage_mono; [apply delete_subseteq|done]).
  unfold share. case_bool_decide as Hd; [|specialize (Hdel digest); specialize (Hk digest); lia].
  simpl in Hd. subst digest. simpl. destruct Hfit as [Howned|Hfit].
  - apply is_some_and_true in Howned as (r0 & Hr0 & Hlen). apply andb_true_iff in Hlen as [_ Hlen%Z.eqb_eq].
    specialize (Hk key.1). rewrite (usage_delete _ _ key r0 Hr0) in Hk. unfold share in Hk.
    destruct (Hs key r0 Hr0) as [_ Hdev]. rewrite bool_decide_true in Hk by done. simpl in Hk. lia.
  - rewrite device_bytes_usage in Hfit; [|done|by intros k x [_ ?]%map_lookup_filter_Some].
    specialize (Hdel (device_digest hex_digest device_id)). unfold DEVICE_CONTENT_QUOTA_BYTES, u64_max, str_len in *. lia.
Qed.

(** After any sequence of uploads, clean-ups and stored bodies, and whatever fails on disk in between, the
    uploads a device owns amount to at most 8 MiB. *)
Theorem device_quota_holds (device_id : DeviceId) (calls : list (ContentCall * list (option nat))) :
  usage (device_digest hex_digest device_id) (run_content empty_store calls).(ContentStore.ownership)
  ≤ DEVICE_CONTENT_QUOTA_BYTES.
Proof.
  revert device_id. enough (within_quota (run_content empty_store calls)) as Hq by (intros; apply Hq).
  pose proof empty_inv as Hi. assert (within_quota empty_store) as Hq by done. revert Hi Hq. generalize empty_store.
  induction calls as [|call calls IH]; intros c Hc Hq; [done|]. apply IH; [by apply apply_content_inv|].
  apply (set_faults_inv c call.2) in Hc. unfold apply_content.
  destruct call as [[device request bytes now|now protected|kind sensitivity bytes] faults]; simpl in *.
  - by apply write_quota.
  - intros digest. destruct (cleanup_inv now protected _ Hc) as (_ & -> & _). by apply filter_quota.
  - unfold on_disk. by destruct (store _ _ _ _ _ _).
Qed.

(** ** Reading back *)

Definition no_faults (c : ContentStore) : Disk := Disk_set_faults [] c.(ContentStore.disk).

Lemma length_bytes_of s : length (bytes_of s) = String.length s.
Proof. induction s as [|a s IH]; simpl; [done|]. by rewrite IH. Qed.

Lemma safe_id_not_empty name : safe_content_component name = true → name ≠ "".
Proof. by intros Hs ->. Qed.

Lemma safe_digest name : safe_content_component name = true → validate_digest ("sha256:" +:+ name) = Ok tt.
Proof.
  unfold safe_content_component. rewrite andb_true_iff. intros [Hl%Nat.eqb_eq Ha]. apply validate_digest_ok.
  exists name. split_and!; [done..|]. intros c Hc. rewrite forallb_forall in Ha. apply Ha. by apply list_elem_of_In.
Qed.

(** The chunk of a body at an offset. *)
Definition chunk_at (reference : ContentRef) (bytes : string) (offset max_bytes : Z) : ContentReadChunk :=
  let last_byte := Z.min (offset + max_bytes) (str_len bytes) in
  ContentReadChunk.mk reference.(ContentRef.content_id) offset
    (take (Z.to_nat (last_byte - offset)) (drop (Z.to_nat offset) (bytes_of bytes)))
    (if last_byte =? str_len bytes then None else Some last_byte) (last_byte =? str_len bytes) reference.(ContentRef.digest).

Lemma chunk_at_valid kind content offset max_bytes :
  safe_content_component (hex_digest content) = true → str_len content ≤ MAX_CONTENT_WRITE_BYTES →
  1 ≤ max_bytes ≤ MAX_CONTENT_READ_BYTES → 0 ≤ offset ≤ str_len content →
  ContentReadChunk_validate (chunk_at (reference_of kind Sensitivity.Sensitive content) content offset max_bytes) = Ok tt.
Proof.
  unfold MAX_CONTENT_WRITE_BYTES, MAX_CONTENT_READ_BYTES, str_len. intros Hs Hw Hm Ho.
  set (l := Z.of_nat (String.length content)) in *.
  assert (Z.of_nat (length (take (Z.to_nat (Z.min (offset + max_bytes) l - offset)) (drop (Z.to_nat offset) (bytes_of content))))
          = Z.min (offset + max_bytes) l - offset) as Hlen.
  { rewrite length_take, length_drop, length_bytes_of. lia. }
  unfold ContentReadChunk_validate, chunk_at, chunk_len. simpl. fold l. unfold str_len. fold l. rewrite Hlen.
  rewrite !rbind_ok_unit, rbind_ok. split_and!.
  - unfold reject_empty. apply reject_if_ok. unfold id_is_empty. by apply str_is_empty_false, safe_id_not_empty.
  - apply reject_if_ok, Z.ltb_ge. unfold MAX_CONTENT_READ_BYTES. lia.
  - exists (Z.min (offset + max_bytes) l). split.
    + unfold checked_add_u64, u64_max. rewrite (proj2 (Z.leb_le _ _)) by lia. simpl. f_equal. lia.
    + rewrite rbind_ok_unit. split; [|by apply safe_digest]. destruct (_ =? l); simpl; [done|].
      by rewrite bool_decide_false by tauto.
Qed.

(** A device that owns a body gets the chunk it asks for. *)
Lemma read_for_device_chunk c device_id record content now_ms offset max_bytes :
  c.(ContentStore.ownership) !! (device_digest hex_digest device_id, mkId (hex_digest content)) = Some record →
  unexpired now_ms record = true → bodies (files_in c) !! hex_digest content = Some content →
  record.(OwnershipRecord.content_ref) =
    reference_of record.(OwnershipRecord.content_ref).(ContentRef.kind) Sensitivity.Sensitive content →
  str_len content ≤ MAX_CONTENT_WRITE_BYTES → 1 ≤ max_bytes ≤ MAX_CONTENT_READ_BYTES → 0 ≤ offset ≤ str_len content →
  (read_for_device hex_digest c.(ContentStore.ownership) device_id
     (ContentReadRequest.mk (mkId (hex_digest content)) offset max_bytes) now_ms (no_faults c)).2 =
  Ok (ContentReadResponse.Chunk (chunk_at record.(OwnershipRecord.content_ref) content offset max_bytes)).
Proof.
  intros Hown Hu [Hf Hs]%lookup_bodies Href Hw Hm Ho.
  assert (ContentReadRequest_validate (ContentReadRequest.mk (mkId (hex_digest content)) offset max_bytes) = Ok tt) as Hreq.
  { unfold ContentReadRequest_validate, reject_empty. simpl. rewrite rbind_ok_unit, !reject_if_ok. split.
    - by apply str_is_empty_false, safe_id_not_empty.
    - apply negb_false_true, andb_true_iff. rewrite !Z.leb_le. lia. }
  pose proof (chunk_at_valid record.(OwnershipRecord.content_ref).(ContentRef.kind) content offset max_bytes Hs Hw Hm Ho) as Hv.
  remember (ContentReadRequest.mk _ _ _) as request eqn:Erequest.
  unfold read_for_device, read_reference, mbind, disk_bind, disk_lift. rewrite Hreq. simpl.
  assert (request.(ContentReadRequest.content_id) = mkId (hex_digest content)) as -> by by rewrite Erequest.
  rewrite Hown, Hu. simpl. revert Href Hv. generalize (record.(OwnershipRecord.content_ref).(ContentRef.kind)).
  intros kind Href Hv. rewrite Href. simpl. rewrite bool_decide_true by done. simpl.
  unfold load, mbind, disk_bind, disk_lift, path_for. simpl. rewrite Hs. simpl. rewrite Hf. simpl.
  rewrite Z.eqb_refl, bool_decide_true by done. subst request. simpl. unfold chunk_of. simpl.
  rewrite (proj2 (Z.ltb_ge _ _)) by lia. simpl.
  assert (saturating_add_u64 offset max_bytes = offset + max_bytes) as ->.
  { unfold saturating_add_u64, MAX_CONTENT_READ_BYTES, MAX_CONTENT_WRITE_BYTES, u64_max in *. lia. }
  unfold chunk_at in *. simpl in *. rewrite Hv. done.
Qed.

(** A reader that follows the offsets it is given. *)
Fixpoint read_through (fuel : nat) (c : ContentStore) (device_id : DeviceId) (content_id : ContentId) (max_bytes now_ms offset : Z) :
    option (list ContentReadChunk) :=
  match fuel with
  | O => None
  | S fuel =>
      match (read_for_device hex_digest c.(ContentStore.ownership) device_id
               (ContentReadRequest.mk content_id offset max_bytes) now_ms (no_faults c)).2 with
      | Ok (ContentReadResponse.Chunk chunk) =>
          match chunk.(ContentReadChunk.next_offset) with
          | None => Some [chunk]
          | Some next => cons chunk <$> read_through fuel c device_id content_id max_bytes now_ms next
          end
      | _ => None
      end
  end.

Lemma read_through_body c device_id record content now_ms max_bytes :
  c.(ContentStore.ownership) !! (device_digest hex_digest device_id, mkId (hex_digest content)) = Some record →
  unexpired now_ms record = true → bodies (files_in c) !! hex_digest content = Some content →
  record.(OwnershipRecord.content_ref) =
    reference_of record.(OwnershipRecord.content_ref).(ContentRef.kind) Sensitivity.Sensitive content →
  str_len content ≤ MAX_CONTENT_WRITE_BYTES → 1 ≤ max_bytes ≤ MAX_CONTENT_READ_BYTES →
  ∀ fuel offset, 0 ≤ offset ≤ str_len content → str_len content - offset < Z.of_nat fuel →
  ∃ chunks, read_through fuel c device_id (mkId (hex_digest content)) max_bytes now_ms offset = Some chunks ∧
    read_chain (mkId (hex_digest content)) offset chunks ∧ chain_body chunks = drop (Z.to_nat offset) (bytes_of content).
Proof.
  intros Hown Hu Hf Href Hw Hm. induction fuel as [|fuel IH]; intros offset Ho Hfuel; [lia|]. simpl.
  rewrite (read_for_device_chunk c device_id record content) by done. simpl.
  assert (ContentReadChunk_validate (chunk_at record.(OwnershipRecord.content_ref) content offset max_bytes) = Ok tt) as Hv.
  { rewrite Href. apply lookup_bodies in Hf as [_ Hs]. by apply chunk_at_valid. }
  assert (record.(OwnershipRecord.content_ref).(ContentRef.content_id) = mkId (hex_digest content)) as Hid by by rewrite Href.
  unfold str_len in *. destruct (Z.min (offset + max_bytes) (Z.of_nat (String.length content)) =? _) eqn:Eeof.
  - apply Z.eqb_eq in Eeof. eexists. split; [done|]. split.
    + apply read_chain_last; [done..|]. simpl. unfold str_len. by apply Z.eqb_eq.
    + unfold chain_body, chunk_at, str_len. simpl. rewrite Eeof, app_nil_r. apply take_ge. rewrite length_drop, length_bytes_of. lia.
  - apply Z.eqb_neq in Eeof. set (next := Z.min _ _) in *. destruct (IH next) as (chunks & -> & Hch & Hb); [lia..|].
    eexists. split; [done|]. split.
    + eapply read_chain_more; [done|done|done| | |exact Hch]; simpl; unfold str_len; fold next.
      * by apply Z.eqb_neq.
      * by rewrite (proj2 (Z.eqb_neq _ _)).
    + unfold chain_body in *. csimpl. rewrite Hb. simpl. unfold str_len. fold next.
      rewrite <-(take_drop (Z.to_nat (next - offset)) (drop (Z.to_nat offset) (bytes_of content))) at 2.
      f_equal. rewrite drop_drop. f_equal. lia.
Qed.

Definition call_time (call : ContentCall) : option Z :=
  match call with
  | Upload _ _ _ now_ms | CleanUp now_ms _ => Some now_ms
  | StoreBody _ _ _ => None
  end.

(** A call made between two times. *)
Definition called_in (from until : Z) (call : ContentCall * list (option nat)) : Prop :=
  ∀ now_ms, call_time call.1 = Some now_ms → from ≤ now_ms < until.

(** What a key owns until some time. *)
Definition owned_until (key : string * ContentId) (until : Z) (c : ContentStore) : Prop :=
  ∃ record, c.(ContentStore.ownership) !! key = Some record ∧ until ≤ record.(OwnershipRecord.expires_at_ms).

Lemma owned_step key from c call :
  content_inv c → called_in from (from + DEVICE_CONTENT_TTL_MS) call →
  owned_until key (from + DEVICE_CONTENT_TTL_MS) c → owned_until key (from + DEVICE_CONTENT_TTL_MS) (apply_content c call).
Proof.
  intros Hc Ht (record & Hr & Hexp). apply (set_faults_inv c call.2) in Hc. unfold apply_content.
  assert (∀ now, from ≤ now < from + DEVICE_CONTENT_TTL_MS →
            filter (λ entry, unexpired now entry.2 = true) c.(ContentStore.ownership) !! key = Some record) as Hkept.
  { intros now Hn. apply map_lookup_filter_Some. split; [done|]. apply Z.ltb_lt. simpl. lia. }
  destruct call as [[device request bytes now|now protected|kind sensitivity bytes] faults]; simpl in *.
  - specialize (Ht now eq_refl). destruct (write_for_device _ _ _ _ _ _ _) as [c' r] eqn:E.
    apply write_for_device_spec in E as (_ & _ & Hcase); [|done]. simpl in Hcase |- *.
    destruct Hcase as [[Ho _]|(_ & Ho & _)]; unfold owned_until; rewrite Ho.
    + exists record. split; [by apply Hkept|done].
    + set (new := (_, _)). destruct (decide (key = new)) as [->|Hne].
      * eexists. split; [apply lookup_insert_eq|]. simpl. lia.
      * exists record. rewrite lookup_insert_ne by done. split; [by apply Hkept|done].
  - specialize (Ht now eq_refl). destruct (cleanup_inv now protected _ Hc) as (_ & Ho & _).
    unfold owned_until. rewrite Ho. exists record. split; [by apply Hkept|done].
  - unfold on_disk. destruct (store _ _ _ _ _ _) as [d r]. by exists record.
Qed.

Lemma owned_run key from calls c :
  content_inv c → Forall (called_in from (from + DEVICE_CONTENT_TTL_MS)) calls →
  owned_until key (from + DEVICE_CONTENT_TTL_MS) c →
  owned_until key (from + DEVICE_CONTENT_TTL_MS) (run_content c calls).
Proof.
  intros Hc Hcalls. revert c Hc. induction Hcalls as [|call calls Hcall _ IH]; intros c Hc Ho; [done|].
  apply IH; [by apply apply_content_inv|by apply owned_step].
Qed.

(** C21: What a device uploaded it can read back, in chunks of any size, until the upload expires:
    whatever other uploads, clean-ups and disk failures come in between, following the offsets of
    the answers returns exactly the bytes that were uploaded. The digest must have no collision with
    them. *)
Theorem uploads_read_back before after faults device_id request bytes now_ms at_ms max_bytes c c' reference
    (Hreached : c = run_content empty_store before)
    (Hwrite : write_for_device hex_digest process_id device_id request bytes now_ms
                (ContentStore.mk (Disk_set_faults faults c.(ContentStore.disk)) c.(ContentStore.ownership)) =
              (c', Ok (ContentWriteResponse.Stored reference)))
    (Hafter : Forall (called_in now_ms (now_ms + DEVICE_CONTENT_TTL_MS)) after)
    (Hat : at_ms < now_ms + DEVICE_CONTENT_TTL_MS) (Hmax : 1 ≤ max_bytes ≤ MAX_CONTENT_READ_BYTES)
    (Hcollision : ∀ other, hex_digest other = hex_digest bytes → other = bytes) :
  ∃ chunks,
    read_through (S (String.length bytes)) (run_content c' after) device_id reference.(ContentRef.content_id) max_bytes at_ms 0 =
      Some chunks ∧
    read_chain reference.(ContentRef.content_id) 0 chunks ∧ chain_body chunks = bytes_of bytes.
Proof.
  pose proof (run_content_inv before empty_store empty_inv) as Hc. rewrite <-Hreached in Hc.
  apply (set_faults_inv c faults) in Hc. apply write_for_device_spec in Hwrite as (Hc' & _ & Hcase); [|done].
  destruct Hcase as [[_ Hno]|(_ & Ho & _ & Hr)]; [by destruct (Hno reference)|].
  destruct (Hr _ eq_refl) as [[= ->] Hvalid]. clear Hr. simpl.
  set (key := (device_digest hex_digest device_id, mkId (hex_digest bytes)) : string * ContentId) in *.
  assert (owned_until key (now_ms + DEVICE_CONTENT_TTL_MS) c') as Hown.
  { eexists. rewrite Ho. split; [apply lookup_insert_eq|]. simpl. lia. }
  apply (owned_run _ now_ms after) in Hown as (record & Hrec & Hexp); [|done..].
  destruct (uploads_are_present _ (run_content_inv after c' Hc') key record Hrec) as (content & Hbody & Hkey & Href).
  assert (content = bytes) as ->.
  { apply Hcollision. rewrite (bodies_are_addressed _ (run_content_inv after c' Hc') _ _ Hbody). done. }
  assert (str_len bytes ≤ MAX_CONTENT_WRITE_BYTES) as Hlen.
  { unfold ContentWriteResponse_validate_for, ContentWriteRequest_validate in Hvalid. simpl in Hvalid.
    rewrite !rbind_ok_unit, !reject_if_ok in Hvalid. simpl_ok. unfold str_len in *. lia. }
  assert (unexpired at_ms record = true) as Hu by (apply Z.ltb_lt; lia).
  destruct (read_through_body _ _ _ _ at_ms max_bytes Hrec Hu Hbody Href Hlen Hmax (S (String.length bytes)) 0)
    as (chunks & Hch & Hchain & Hall); [unfold str_len; lia..|]. by exists chunks.
Qed.

(** ** Who is served *)

(** Every record in memory comes from an upload. *)
Definition uploaded_in (calls : list (ContentCall * list (option nat))) (c : ContentStore) : Prop :=
  ∀ k r, c.(ContentStore.ownership) !! k = Some r →
    ∃ owner write bytes now_ms faults,
      (Upload owner write bytes now_ms, faults) ∈ calls ∧
      k = (device_digest hex_digest owner, mkId (hex_digest bytes)) ∧
      r.(OwnershipRecord.expires_at_ms) = now_ms + DEVICE_CONTENT_TTL_MS.

Lemma uploaded_run calls : uploaded_in calls (run_content empty_store calls).
Proof.
  induction calls as [|call calls IH] using rev_ind; [by intros k r|].
  unfold run_content. rewrite foldl_app. simpl. fold (run_content empty_store calls).
  pose proof (run_content_inv calls empty_store empty_inv) as Hc. set (c := run_content empty_store calls) in *.
  apply (set_faults_inv c call.2) in Hc.
  assert (∀ k r, c.(ContentStore.ownership) !! k = Some r → ∃ owner write bytes now_ms faults,
      (Upload owner write bytes now_ms, faults) ∈ calls ++ [call] ∧
      k = (device_digest hex_digest owner, mkId (hex_digest bytes)) ∧
      r.(OwnershipRecord.expires_at_ms) = now_ms + DEVICE_CONTENT_TTL_MS) as Hold.
  { intros k r (owner & write & bytes & now & faults & Hin & ?)%IH. exists owner, write, bytes, now, faults.
    split; [|done]. apply elem_of_app. by left. }
  clear IH. intros k r. unfold apply_content.
  destruct call as [[device request bytes now|now protected|kind sensitivity bytes] faults]; simpl in Hc |- *.
  - destruct (write_for_device _ _ _ _ _ _ _) as [c' res] eqn:E.
    apply write_for_device_spec in E as (_ & _ & Hcase); [|done]. simpl in Hcase |- *.
    destruct Hcase as [[Ho _]|(_ & Ho & _)]; rewrite Ho.
    + intros [Hr _]%map_lookup_filter_Some. by apply Hold.
    + intros [[<- <-]|[_ [Hr _]%map_lookup_filter_Some]]%lookup_insert_Some; [|by apply Hold].
      exists device, request, bytes, now, faults. split; [|done]. apply elem_of_app. right. by apply list_elem_of_singleton.
  - destruct (cleanup_inv now protected _ Hc) as (_ & -> & _). intros [Hr _]%map_lookup_filter_Some. by apply Hold.
  - unfold on_disk. destruct (store _ _ _ _ _ _) as [d res]. apply Hold.
Qed.

(** A device is served a part of a body only if an upload of bytes with that digest was made for the same
    device, less than ten minutes before the read. *)
Theorem reads_are_authorised calls device_id request at_ms chunk
    (Hread : (read_for_device hex_digest (run_content empty_store calls).(ContentStore.ownership) device_id request at_ms
                (no_faults (run_content empty_store calls))).2 = Ok (ContentReadResponse.Chunk chunk)) :
  ∃ owner write bytes now_ms faults,
    (Upload owner write bytes now_ms, faults) ∈ calls ∧ device_digest hex_digest owner = device_digest hex_digest device_id ∧
    mkId (hex_digest bytes) = request.(ContentReadRequest.content_id) ∧ at_ms < now_ms + DEVICE_CONTENT_TTL_MS.
Proof.
  destruct ((run_content empty_store calls).(ContentStore.ownership) !!
    (device_digest hex_digest device_id, request.(ContentReadRequest.content_id))) as [record|] eqn:Hown;
    unfold read_for_device, mbind, disk_bind, disk_lift in Hread; rewrite Hown in Hread;
    destruct (ContentReadRequest_validate request) as [[]|]; try done.
  destruct (uploaded_run calls _ _ Hown) as (owner & write & bytes & now & faults & Hin & [= -> ->] & Hexp).
  exists owner, write, bytes, now, faults. split_and!; [done..|]. simpl in Hread.
  destruct (unexpired at_ms record) eqn:Hu; [|done]. apply Z.ltb_lt in Hu. lia.
Qed.

(** ** The search for a temporary name ends *)

Lemma temporary_body_inj content_id s s' :
  temporary_body process_id content_id s = temporary_body process_id content_id s' → s = s'.
Proof.
  unfold temporary_body. intros E. do 5 apply append_inj_l in E. apply decimal_inj.
  eapply (digits_delimited (decimal s) (decimal s') "." "tmp" "tmp"); [done|apply decimal_digits..|done].
Qed.

Lemma create_temporary_taken content_id fuel d :
  d.(Disk.faults) = [] →
  (∃ d' name, create_temporary process_id fuel content_id d = (d', Ok name) ∧ d.(Disk.files) !! name = None) ∨
  (∀ s, (d.(Disk.sequence) ≤ s < d.(Disk.sequence) + fuel)%nat →
        is_Some (d.(Disk.files) !! temporary_body process_id content_id s)).
Proof.
  revert d. induction fuel as [|fuel IH]; intros d Hd; [right; lia|]. simpl.
  unfold mbind, disk_bind, fetch_sequence, create_new, attempt, mbind, disk_bind, next_fault. simpl. rewrite Hd. simpl.
  destruct (d.(Disk.files) !! temporary_body process_id content_id d.(Disk.sequence)) as [x|] eqn:E; simpl.
  2: { left. by eexists _, _. }
  match goal with |- context [create_temporary process_id fuel content_id ?d1] => destruct (IH d1) as [Hok|Hall] end; [done|by left|].
  right. intros s Hs. destruct (decide (s = d.(Disk.sequence))) as [->|Hne]; [by eexists|]. apply Hall. simpl. lia.
Qed.

(** Without faults, a free name is found within one turn more than there are files. *)
Lemma create_temporary_terminates content_id d :
  d.(Disk.faults) = [] →
  ∃ d' name, create_temporary process_id (S (size d.(Disk.files))) content_id d = (d', Ok name) ∧
    d.(Disk.files) !! name = None.
Proof.
  intros Hd. destruct (create_temporary_taken content_id (S (size d.(Disk.files))) d Hd) as [?|Hall]; [done|exfalso].
  set (names := temporary_body process_id content_id <$> seq d.(Disk.sequence) (S (size d.(Disk.files)))).
  assert (list_to_set (C := gset string) names ⊆ dom d.(Disk.files)) as Hsub.
  { intros name. unfold names. rewrite elem_of_list_to_set, list_elem_of_fmap, elem_of_dom. intros (s & -> & Hs%elem_of_seq). apply Hall. lia. }
  apply subseteq_size in Hsub. rewrite size_list_to_set, size_dom in Hsub; unfold names in *.
  - rewrite length_fmap, length_seq in Hsub. lia.
  - apply NoDup_fmap_2_strong; [|apply NoDup_seq]. intros s s' _ _. apply temporary_body_inj.
Qed.

End stored.

(** ** Rewriting the ownership file *)

Section rewrites.
Context `{OwnershipCodec} (process_id : nat).

(** The file reads as a table. *)
Definition reads_as (file : option string) (ownership : gmap (string * ContentId) OwnershipRecord) : Prop :=
  match file with
  | None => ownership = ∅
  | Some content => read_owner_lines 0 ∅ (lines_of content) = Ok ownership
  end.

(** A record that can be written and read again. *)
Definition owner_readable (record : OwnershipRecord) : Prop :=
  line_codec encode_owner decode_owner record ∧ ∀ line_number, check_owner line_number record = Ok tt.

Lemma read_owner_records records : ∀ index acc,
  Forall owner_readable records →
  read_owner_lines index acc (lines_of (file_content encode_owner records)) =
    Ok (foldl (λ m record, <[owner_key record := record]> m) acc records).
Proof.
  induction records as [|r records IH]; intros index acc; [done|]. rewrite Forall_cons. intros [[[Hd Hn Hc Hb] Hchk] Hrest].
  simpl. rewrite lines_of_line by done. simpl. rewrite Hb, Hd. simpl. rewrite Hchk. simpl. by apply IH.
Qed.

Lemma insert_records records : ∀ (acc : gmap (string * ContentId) OwnershipRecord) k,
  NoDup (owner_key <$> records) →
  foldl (λ m record, <[owner_key record := record]> m) acc records !! k =
    match find_first (λ record, bool_decide (owner_key record = k)) records with
    | Some record => Some record
    | None => acc !! k
    end.
Proof.
  induction records as [|r records IH]; intros acc k; csimpl; [done|]. rewrite NoDup_cons. intros [Hnew Hnd].
  rewrite IH by done. case_bool_decide as Hk.
  - subst k. destruct (find_first _ records) as [r'|] eqn:E; [|apply lookup_insert_eq].
    apply find_first_some in E as [Hin Heq%bool_decide_eq_true]. destruct Hnew. rewrite <-Heq. by apply list_elem_of_fmap_2.
  - destruct (find_first _ records); [done|]. by apply lookup_insert_ne.
Qed.

Lemma read_whole_table ownership :
  map_Forall (λ key record, owner_key record = key ∧ owner_readable record) ownership →
  reads_as (Some (file_content encode_owner (btree_values ownership))) ownership.
Proof.
  intros Hall. unfold reads_as. rewrite read_owner_records.
  2: { apply Forall_forall. intros r (k & Hk)%elem_of_btree_values. by apply (Hall k r). }
  f_equal. apply map_eq. intros k.
  assert (NoDup (owner_key <$> btree_values ownership)) as Hnd.
  { apply btree_values_NoDup. intros k' r Hr. by apply (Hall k' r). }
  rewrite insert_records by done. destruct (find_first _ _) as [r|] eqn:E.
  - apply find_first_some in E as [[k' Hk']%elem_of_btree_values <-%bool_decide_eq_true]. by destruct (Hall k' r Hk') as [<- _].
  - rewrite lookup_empty. symmetry. apply eq_None_not_Some. intros [r Hr]. rewrite find_first_none in E.
    specialize (E r). rewrite elem_of_btree_values in E. destruct (Hall k r Hr) as [Hk _].
    rewrite bool_decide_true in E by done. by discriminate E; exists k.
Qed.

(** The stages of a rewrite: nothing visible yet; the complete file waits, with
    the old one still there or already gone; the new file is in place. *)
Definition no_ready (files : gmap string string) : Prop := ∀ name, is_ready name = true → files !! name = None.

Inductive rewrite_stage (old : option string) (ready full : string) (files : gmap string string) : Prop :=
| stage_hidden : no_ready files → files !! OWNERSHIP_FILE = old → rewrite_stage old ready full files
| stage_waiting :
    is_ready ready = true → files !! ready = Some full →
    (∀ name, is_ready name = true → is_Some (files !! name) → name = ready) →
    (files !! OWNERSHIP_FILE = old ∨ files !! OWNERSHIP_FILE = None) → rewrite_stage old ready full files
| stage_done : no_ready files → files !! OWNERSHIP_FILE = Some full → rewrite_stage old ready full files.

Lemma tmp_is_not_ready p : is_ready (p +:+ ".tmp") = false.
Proof.
  unfold is_ready. apply andb_false_iff. right. apply not_true_iff_false. rewrite ends_with_spec. intros [q Hq].
  assert ("p" = "y")%char; [|done]. apply (append_last_char (p +:+ ".tm") (q +:+ ".read")). by rewrite !append_assoc.
Qed.

Lemma stem_is_ready sequence : is_ready (rewrite_stem process_id sequence +:+ ".ready") = true.
Proof.
  unfold is_ready. apply andb_true_iff. split; [|apply ends_with_spec; by eexists].
  apply starts_with_spec. unfold rewrite_stem. rewrite append_assoc. by eexists.
Qed.

Lemma stem_is_not_ownership sequence rest : rewrite_stem process_id sequence +:+ rest ≠ OWNERSHIP_FILE.
Proof. unfold rewrite_stem. rewrite append_assoc. done. Qed.

Section rewriting.
Context (old : option string) (ready full : string) (Hready : is_ready ready = true) (Hnot : ready ≠ OWNERSHIP_FILE).
Notation stage := (rewrite_stage old ready full).

Definition hidden (f : gmap string string) : Prop := no_ready f ∧ f !! OWNERSHIP_FILE = old.
Definition waiting (f : gmap string string) : Prop :=
  f !! ready = Some full ∧ (∀ name, is_ready name = true → is_Some (f !! name) → name = ready) ∧ f !! OWNERSHIP_FILE = old.

Lemma hidden_stage f : hidden f → stage f.
Proof. intros [? ?]. by apply stage_hidden. Qed.
Lemma waiting_stage f : waiting f → stage f.
Proof. intros (? & ? & ?). apply stage_waiting; auto. Qed.

Lemma ownership_is_not_ready : is_ready OWNERSHIP_FILE = false.
Proof. reflexivity. Qed.

Lemma hidden_local name : is_ready name = false → name ≠ OWNERSHIP_FILE → local hidden name.
Proof.
  intros Hr Hn f [Hf Ho]. unfold hidden, no_ready. split; [intros content; split|split].
  - intros name' Hr'. rewrite lookup_insert_ne by congruence. by apply Hf.
  - by rewrite lookup_insert_ne.
  - intros name' Hr'. rewrite lookup_delete_ne by congruence. by apply Hf.
  - by rewrite lookup_delete_ne.
Qed.

Lemma write_records_spec name records : local hidden name → ∀ prior,
  triple (λ f, hidden f ∧ f !! name = Some prior) (write_records name records)
    (λ _ f, hidden f ∧ f !! name = Some (prior +:+ file_content encode_owner records)) hidden.
Proof.
  intros Hl. induction records as [|r records IH]; intros prior; simpl.
  { apply triple_ret. intros f. by rewrite append_empty_r. }
  eapply triple_bind; [by apply write_or_discard_spec|intros ?].
  eapply triple_weaken; [apply (IH (prior +:+ ownership_line r))|done| |done]. intros ? f. unfold ownership_line.
  by rewrite !append_assoc, append_cons_l, append_nil_l.
Qed.

(** The complete file becomes visible under its waiting name. *)
Lemma rename_ready_spec name :
  is_ready name = false → name ≠ OWNERSHIP_FILE →
  triple (λ f, hidden f ∧ f !! name = Some full) (rename name ready) (λ _, waiting) stage.
Proof.
  intros Hn Ho. apply triple_rename; [|intros f [? _]; by apply hidden_stage].
  intros f content [[Hf Hold] Hfull] Hc. assert (content = full) as -> by congruence. split_and!.
  - apply lookup_insert_eq.
  - intros name' Hr' [x Hx]. apply lookup_insert_Some in Hx as [[? _]|[_ Hx]]; [done|].
    apply lookup_delete_Some in Hx as [_ Hx]. rewrite Hf in Hx; done.
  - rewrite lookup_insert_ne, lookup_delete_ne by done. done.
Qed.

(** The waiting file, with or without the old one. *)
Definition complete_file (f : gmap string string) : Prop :=
  f !! ready = Some full ∧ (∀ name, is_ready name = true → is_Some (f !! name) → name = ready) ∧
  (f !! OWNERSHIP_FILE = old ∨ f !! OWNERSHIP_FILE = None).

Lemma complete_stage f : complete_file f → stage f.
Proof. intros (? & ? & ?). by apply stage_waiting. Qed.

Definition in_place (f : gmap string string) : Prop := no_ready f ∧ f !! OWNERSHIP_FILE = Some full.

Lemma in_place_stage f : in_place f → stage f.
Proof. intros [? ?]. by apply stage_done. Qed.

Lemma complete_moved f : complete_file f → in_place (<[OWNERSHIP_FILE := full]> (delete ready f)).
Proof.
  intros (Hf & Hu & _). split; [|apply lookup_insert_eq]. intros name Hr.
  rewrite lookup_insert_ne by (intros <-; by rewrite ownership_is_not_ready in Hr).
  destruct (decide (name = ready)) as [->|Hne]; [apply lookup_delete_eq|]. rewrite lookup_delete_ne by done.
  apply eq_None_not_Some. intros Hs. by destruct Hne; apply Hu.
Qed.

Lemma replace_ownership_spec : triple waiting (replace_ownership ready) (λ _, in_place) stage.
Proof.
  unfold replace_ownership. eapply triple_bind; [apply (triple_same waiting); [auto with kaleido|apply waiting_stage]|intros fault].
  eapply triple_bind; [by apply (triple_files_of _ (λ files f, waiting f ∧ files = f))|intros files].
  assert (∀ f, waiting f → complete_file f) as Hwc by (intros f (? & ? & ?); split_and!; auto).
  eapply triple_bind with (R := λ _, in_place).
  2: { intros ?. apply triple_same; [auto with kaleido|apply in_place_stage]. }
  apply (triple_pre (files !! ready = Some full)); [by intros f [(? & _) ->]|intros Hfiles].
  destruct fault as [k|].
  - destruct (files !! OWNERSHIP_FILE); [|apply triple_io; intros f [? _]; by apply waiting_stage].
    eapply triple_bind; [apply (triple_remove _ _ (λ _, complete_file)); [|intros f [? _]; by apply waiting_stage]|intros ?].
    + intros f [(Hf & Hu & _) _]. split_and!; [by rewrite lookup_delete_ne| |right; apply lookup_delete_eq].
      intros name Hr [x Hx]. apply lookup_delete_Some in Hx as [_ Hx]. apply Hu; [done|by eexists].
    + eapply triple_bind; [apply (triple_same complete_file); [auto with kaleido|apply complete_stage]|intros ?].
      apply triple_rename; [|apply complete_stage]. intros f content Hc E. assert (content = full) as -> by (destruct Hc; congruence).
      by apply complete_moved.
  - rewrite Hfiles. intros d [Hw _]. by apply complete_moved, Hwc.
Qed.
End rewriting.

(** Whatever fails, a rewrite stops at one of its stages. *)
Lemma rewrite_ownership_spec ownership d :
  no_ready d.(Disk.files) →
  let ready := rewrite_stem process_id d.(Disk.sequence) +:+ ".ready" in
  let full := file_content encode_owner (btree_values ownership) in
  let old := d.(Disk.files) !! OWNERSHIP_FILE in
  match (rewrite_ownership process_id ownership d).2 with
  | Ok _ => in_place full (rewrite_ownership process_id ownership d).1.(Disk.files)
  | Err _ => rewrite_stage old ready full (rewrite_ownership process_id ownership d).1.(Disk.files)
  end.
Proof.
  intros Hno ready full old. unfold rewrite_ownership. unfold mbind at 1, disk_bind at 1. simpl.
  set (d1 := Disk_set_sequence _ d). set (temporary := rewrite_stem process_id d.(Disk.sequence) +:+ ".tmp").
  enough (triple (hidden old) (rewrite_through temporary ready ownership) (λ _, in_place full) (rewrite_stage old ready full))
    as Hrun by by apply (Hrun d1).
  assert (is_ready temporary = false) as Ht by apply tmp_is_not_ready.
  assert (temporary ≠ OWNERSHIP_FILE) as Hto by apply stem_is_not_ownership.
  assert (is_ready ready = true) as Hr by apply stem_is_ready.
  assert (ready ≠ OWNERSHIP_FILE) as Hro by apply stem_is_not_ownership.
  pose proof (hidden_local old ready Hr temporary Ht Hto) as Hl.
  assert (∀ f, hidden old f → rewrite_stage old ready full f) as HE by (intros; by apply hidden_stage).
  unfold rewrite_through.
  eapply triple_bind; [eapply triple_weaken; [by apply create_new_spec|by auto|intros ? f Hv; exact Hv|by auto]|intros created].
  destruct created; [|apply triple_io; intros f [? _]; auto].
  eapply triple_bind; [eapply triple_weaken; [apply (write_records_spec old temporary _ Hl "")|by auto|intros ? f Hv; exact Hv|by auto]|intros ?].
  eapply triple_bind; [eapply triple_weaken; [by apply (sync_or_discard_spec (hidden old) temporary full)|intros f Hf; exact Hf|intros ? f Hv; exact Hv|by auto]|intros ?].
  eapply triple_bind; [by apply rename_ready_spec|intros ?].
  eapply triple_bind; [apply (triple_same (waiting old ready full)); [auto with kaleido|by apply waiting_stage]|intros ?].
  by apply replace_ownership_spec.
Qed.

(** ** Opening without faults *)

Lemma listed_quiet select names d :
  d.(Disk.faults) = [] → listed select names d = (d, Ok (filter_b select names)).
Proof.
  intros Hd. assert (∀ d, d.(Disk.faults) = [] → Disk_set_faults [] d = d) as Hset by by intros [] <-.
  induction names as [|n names IH]; simpl; [done|].
  unfold mbind, disk_bind, attempt, mbind, disk_bind, next_fault. rewrite Hd. simpl. rewrite Hset by done.
  rewrite IH. by destruct (select n).
Qed.

Lemma remove_each_quiet select names removed d :
  d.(Disk.faults) = [] →
  ∃ d' r, remove_each select names removed d = (d', Ok r) ∧ d'.(Disk.faults) = [].
Proof.
  revert removed d. induction names as [|n names IH]; intros removed d Hd; simpl; [by eexists _, _|].
  unfold mbind, disk_bind, attempt, mbind, disk_bind, next_fault. rewrite Hd. simpl.
  destruct (select n); simpl; apply IH; done.
Qed.

Lemma sync_if_quiet changed d : d.(Disk.faults) = [] → ∃ d', sync_if changed d = (d', Ok tt) ∧ d'.(Disk.faults) = [] ∧ d'.(Disk.files) = d.(Disk.files).
Proof.
  intros Hd. destruct changed; simpl; [|by exists d]. unfold sync_parent_directory, attempt, mbind, disk_bind, next_fault.
  rewrite Hd. simpl. by eexists.
Qed.

Lemma cleanup_temporary_quiet d :
  d.(Disk.faults) = [] →
  ∃ d', cleanup_temporary_files d = (d', Ok tt) ∧ d'.(Disk.faults) = [] ∧
    d'.(Disk.files) !! OWNERSHIP_FILE = d.(Disk.files) !! OWNERSHIP_FILE.
Proof.
  intros Hd. unfold cleanup_temporary_files, read_dir, mbind, disk_bind, attempt, mbind, disk_bind, next_fault.
  rewrite Hd. simpl. set (d1 := Disk_set_faults [] d). set (names := btree_keys _).
  destruct (remove_each_quiet is_temporary names false d1 eq_refl) as (d2 & r & E & Hd2). rewrite E.
  destruct (sync_if_quiet r d2 Hd2) as (d3 & -> & Hd3 & Hf). exists d3. split_and!; [done..|]. rewrite Hf.
  assert (keeps (λ f, f !! OWNERSHIP_FILE = d.(Disk.files) !! OWNERSHIP_FILE) (remove_each is_temporary names false)) as Hk.
  { apply keeps_remove_each. intros name f Ht Hkeep. rewrite lookup_delete_ne; [done|]. by intros ->. }
  specialize (Hk d1 eq_refl). by rewrite E in Hk.
Qed.

(** Opening reads the old table or the new one. *)
Lemma recover_quiet old ready full d :
  d.(Disk.faults) = [] → rewrite_stage old ready full d.(Disk.files) → ready ≠ OWNERSHIP_FILE →
  ∃ d', recover_ownership_rewrite d = (d', Ok tt) ∧ d'.(Disk.faults) = [] ∧
    (d'.(Disk.files) !! OWNERSHIP_FILE = old ∨ d'.(Disk.files) !! OWNERSHIP_FILE = Some full).
Proof.
  intros Hd Hst Hro. unfold recover_ownership_rewrite, read_dir, mbind, disk_bind, attempt, mbind, disk_bind, next_fault.
  rewrite Hd. simpl. set (d1 := Disk_set_faults [] d). set (names := btree_keys _).
  rewrite (listed_quiet is_ready names d1 eq_refl). simpl.
  assert (∀ f, no_ready f → f = d.(Disk.files) → filter_b is_ready names = []) as Hnone.
  { intros f Hf ->. destruct (filter_b is_ready names) as [|n l] eqn:E; [done|exfalso].
    assert (n ∈ filter_b is_ready names) as [Hn Hr]%elem_of_filter_b by (rewrite E; left).
    apply elem_of_btree_keys in Hn as [x Hx]. rewrite Hf in Hx; done. }
  destruct Hst as [Hno Ho|Hr Hfull Hu Ho|Hno Ho].
  - rewrite (Hnone _ Hno eq_refl). simpl. exists d1. destruct (is_some _); simpl; auto.
  - assert (filter_b is_ready names = [ready]) as ->.
    { apply Permutation_singleton_r, NoDup_Permutation; [|apply NoDup_singleton|].
      - eapply sublist_NoDup; [apply (btree_keys_NoDup d.(Disk.files))|apply filter_b_sublist].
      - intros n. rewrite elem_of_filter_b, list_elem_of_singleton. unfold names. rewrite elem_of_btree_keys. split.
        + intros [? ?]. by apply Hu.
        + intros ->. split; [by eexists|done]. }
    simpl. destruct (d.(Disk.files) !! OWNERSHIP_FILE) as [content|] eqn:E; simpl; unfold mbind, disk_bind; simpl.
    + eexists. split; [done|]. split; [done|]. simpl. rewrite lookup_delete_ne by done. rewrite E. naive_solver.
    + unfold rename, mbind, disk_bind. simpl. rewrite Hfull. simpl. eexists. split; [done|]. split; [done|]. simpl. right. by rewrite lookup_insert_eq.
  - rewrite (Hnone _ Hno eq_refl). simpl. exists d1. destruct (is_some _); simpl; auto.
Qed.

Lemma open_quiet old ready full d ownership table :
  d.(Disk.faults) = [] → rewrite_stage old ready full d.(Disk.files) → ready ≠ OWNERSHIP_FILE →
  reads_as old ownership → reads_as (Some full) table →
  ∃ m, (ContentStore_open d).2 = Ok m ∧ (m = ownership ∨ m = table).
Proof.
  intros Hd Hst Hro Hold Hnew. destruct (recover_quiet old ready full d Hd Hst Hro) as (d1 & E1 & Hd1 & Ho1).
  destruct (cleanup_temporary_quiet d1 Hd1) as (d2 & E2 & Hd2 & Ho2).
  unfold ContentStore_open, mbind, disk_bind. rewrite E1, E2. unfold read_ownership, mbind, disk_bind, attempt, mbind, disk_bind, next_fault.
  rewrite Hd2. simpl. rewrite Ho2. destruct Ho1 as [->| ->]; simpl.
  - destruct old; simpl in *; [|subst; eauto]. rewrite Hold. eauto.
  - simpl in Hnew. rewrite Hnew. eauto.
Qed.

(** C30: Rewriting the ownership file is atomic: wherever it fails, opening the store afterwards
    succeeds and reads the records from before or the new ones, and the new ones if the rewrite
    reported success. No complete rewrite may have been left behind earlier, and the records must be
    ones the reader accepts. *)
Theorem ownership_rewrite_is_atomic ownership old d d' r
    (Hno : no_ready d.(Disk.files)) (Hold : reads_as (d.(Disk.files) !! OWNERSHIP_FILE) old)
    (Hreadable : map_Forall (λ key record, owner_key record = key ∧ owner_readable record) ownership)
    (Hrewrite : rewrite_ownership process_id ownership d = (d', r)) :
  ∃ m, (ContentStore_open (Disk_set_faults [] d')).2 = Ok m ∧ (m = old ∨ m = ownership) ∧ (r = Ok tt → m = ownership).
Proof.
  pose proof (rewrite_ownership_spec ownership d Hno) as Hs. rewrite Hrewrite in Hs. simpl in Hs.
  pose proof (read_whole_table ownership Hreadable) as Hnew.
  destruct r as [[]|e].
  - edestruct (open_quiet (Some (file_content encode_owner (btree_values ownership))) (rewrite_stem process_id 0 +:+ ".ready")
      (file_content encode_owner (btree_values ownership)) (Disk_set_faults [] d') ownership ownership) as (m & Hm & Hcase); try done.
    + destruct Hs as [? ?]. by apply stage_done.
    + exists m. split_and!; [done|right|intros _]; by destruct Hcase.
  - edestruct (open_quiet _ _ _ (Disk_set_faults [] d') old ownership eq_refl Hs) as (m & Hm & Hcase); try done.
    by exists m.
Qed.
End rewrites.
