(* ===== verification/StoreInterface.v ===== *)
(** * What the store asks of its read models

    The store feeds a journal of read models with every commit and rebuilds it
    when it loads.  [ReadModels] are the operations it calls; [ReadModelsLaws]
    are the promises its theorems rest on.  [JournalReadModels.v] discharges
    them for the builders and the journal of the program. *)
From stdpp Require Import prelude strings gmap.
From Stdlib Require Import ZArith Lia.
From S2P Require Import Prelude ProtoBase ProtoEffect ProtoProjection CanonState DurableLog.

Local Open Scope Z_scope.

Class ReadModels := {
  Journal : Type;
  Payload : Type;
  Envelope : Type;
  Checkpoint : Type;
  (** [projection::affected_keys] *)
  rm_affected_keys : CanonicalState → CanonicalState → StateEffect → list ProjectionKey;
  (** [projection::build] *)
  rm_build : CanonicalState → ProjectionKey → result Payload StateError;
  (** [ProjectionJournal::record], given what becomes of its append *)
  rm_record : Journal → IoOutcome → ProjectionKey → Payload → Journal * result (option Envelope) StateError;
  (** [ProjectionJournal::memory] with the retention of a journal *)
  rm_expected : Journal → result Journal StateError;
  (** [ProjectionJournal::reconcile] *)
  rm_reconcile : Journal → list IoOutcome → Journal → Journal * result unit StateError;
  (** [ProjectionJournal::checkpoint] and [ProjectionJournal::changes_since] *)
  rm_checkpoint : Journal → Checkpoint;
  rm_changes_since : Journal → Checkpoint → list Envelope
}.

(** An append that is complete, or never started. *)
Definition clean_io (io : IoOutcome) : Prop := io = IoOutcome.Written ∨ io = IoOutcome.NotOpened.

Class ReadModelsLaws `{ReadModels} := {
  (** the persistent journal holds what the in-memory one expects *)
  rm_live : Journal → Journal → Prop;
  (** the persistent journal lacks at most a tail of each history *)
  rm_behind : Journal → Journal → Prop;
  (** the number of views recorded for a key *)
  rm_size : Journal → ProjectionKey → nat;
  rm_keys_nodup before after effect : NoDup (rm_affected_keys before after effect);
  rm_live_behind j m : rm_live j m → rm_behind j m;
  rm_expected_size j m key : rm_expected j = Ok m → rm_size m key = 0%nat;
  rm_expected_record j io key payload : rm_expected (rm_record j io key payload).1 = rm_expected j;
  rm_record_size j io key payload key' :
    (rm_size (rm_record j io key payload).1 key' ≤
     rm_size j key' + (if bool_decide (key' = key) then 1 else 0))%nat;
  (** with room for one more cursor, recording a built view fails only on I/O *)
  rm_record_live j m io s key payload :
    rm_live j m → clean_io io → rm_build s key = Ok payload → Z.of_nat (rm_size m key) ≤ u64_max →
    ∃ m' e, rm_record m IoOutcome.Written key payload = (m', Ok e) ∧
      (io = IoOutcome.Written → is_ok (rm_record j io key payload).2 = true) ∧
      match (rm_record j io key payload).2 with
      | Ok _ => rm_live (rm_record j io key payload).1 m'
      | Err _ => rm_behind (rm_record j io key payload).1 m'
      end;
  rm_record_behind j m s key payload :
    rm_behind j m → rm_build s key = Ok payload → Z.of_nat (rm_size m key) ≤ u64_max →
    ∃ m' e, rm_record m IoOutcome.Written key payload = (m', Ok e) ∧ rm_behind j m';
  rm_reconcile_behind j m ios :
    rm_behind j m → Forall (λ io, io = IoOutcome.Written) ios →
    ∃ j', rm_reconcile j ios m = (j', Ok tt) ∧ rm_live j' m
}.
