(* ===== verification/CommandOutbox.v ===== *)
(** * The device command outbox

    Models [crates/kaleido-state/src/command_outbox.rs]: the write-ahead file of
    device commands, their dispatch tickets and claims, and the recovery list a
    restart works from. *)
From stdpp Require Import prelude strings gmap.
From Stdlib Require Import ZArith Lia.
From S2P Require Import Prelude ProtoBase ProtoContent ProtoWorkflow ProtoAttention ProtoCommand ProtoProjection CanonState DurableLog.

Local Open Scope Z_scope.

Definition OUTBOX_FILE : string := "device-command-outbox.jsonl".
Definition OUTBOX_FORMAT_VERSION : Z := 1.

(** ** Data *)

Module DispatchTicket.
Record DispatchTicket : Type := mk {
  command_id : CommandId;
  token_digest : string
}.
End DispatchTicket.
Abbreviation DispatchTicket := DispatchTicket.DispatchTicket.

#[export] Instance DispatchTicket_eq_dec : EqDecision DispatchTicket.
Proof. solve_decision. Defined.

Module PendingDispatch.
Record PendingDispatch : Type := mk {
  ticket : DispatchTicket;
  envelope : CommandEnvelope
}.
End PendingDispatch.
Abbreviation PendingDispatch := PendingDispatch.PendingDispatch.

#[export] Instance PendingDispatch_eq_dec : EqDecision PendingDispatch.
Proof. solve_decision. Defined.

Module AdmissionRecovery.
Record AdmissionRecovery : Type := mk {
  ticket : DispatchTicket;
  envelope : CommandEnvelope;
  admission_ack : CommandAck;
  complete_after_recovery : bool
}.
End AdmissionRecovery.
Abbreviation AdmissionRecovery := AdmissionRecovery.AdmissionRecovery.

#[export] Instance AdmissionRecovery_eq_dec : EqDecision AdmissionRecovery.
Proof. solve_decision. Defined.

Module OutboxStatus.
Inductive OutboxStatus : Type :=
| Ready
| Claimed
| Completed.
End OutboxStatus.
Abbreviation OutboxStatus := OutboxStatus.OutboxStatus.

#[export] Instance OutboxStatus_eq_dec : EqDecision OutboxStatus.
Proof. solve_decision. Defined.

Module OutboxRecord.
Record OutboxRecord : Type := mk {
  format_version : Z;
  key_digest : string;
  request_digest : string;
  envelope : CommandEnvelope;
  admission_ack : CommandAck;
  status : OutboxStatus
}.
End OutboxRecord.
Abbreviation OutboxRecord := OutboxRecord.OutboxRecord.

#[export] Instance OutboxRecord_eq_dec : EqDecision OutboxRecord.
Proof. solve_decision. Defined.

Definition OutboxRecord_set_status (v : OutboxStatus) (r : OutboxRecord) : OutboxRecord := {|
  OutboxRecord.format_version := r.(OutboxRecord.format_version);
  OutboxRecord.key_digest := r.(OutboxRecord.key_digest);
  OutboxRecord.request_digest := r.(OutboxRecord.request_digest);
  OutboxRecord.envelope := r.(OutboxRecord.envelope);
  OutboxRecord.admission_ack := r.(OutboxRecord.admission_ack);
  OutboxRecord.status := v
|}.

(** [file] is the content of the outbox file; a missing file and an empty one
    read the same. *)
Module DeviceCommandOutbox.
Record DeviceCommandOutbox : Type := mk {
  file : string;
  by_key : gmap string OutboxRecord
}.
End DeviceCommandOutbox.
Abbreviation DeviceCommandOutbox := DeviceCommandOutbox.DeviceCommandOutbox.

(** The JSON of a record on one line, and of the digested part of a request. *)
Class OutboxCodec := {
  encode_outbox : OutboxRecord → string;
  decode_outbox : string → option OutboxRecord;
  encode_request : option Z → Command → string
}.

(** ** Digests and tickets *)

(** [u64::to_be_bytes], the most significant byte first. *)
Fixpoint be_bytes (count : nat) (z : Z) : string :=
  match count with
  | O => ""
  | S count' => String (Ascii.ascii_of_N (Z.to_N ((z / 256 ^ Z.of_nat count') mod 256))) (be_bytes count' z)
  end.

Definition extend_field (target bytes : string) : string := target +:+ be_bytes 8 (str_len bytes) +:+ bytes.

Definition checked_sub_i64 (a b : Z) : option Z :=
  if (i64_min <=? a - b) && (a - b <=? i64_max) then Some (a - b) else None.

Definition request_from_envelope (envelope : CommandEnvelope) : option DeviceCommandRequest :=
  ttl_ms ← match envelope.(CommandEnvelope.expires_at_ms) with
           | Some expires_at_ms =>
               relative ← checked_sub_i64 expires_at_ms envelope.(CommandEnvelope.issued_at_ms);
               if relative <? 0 then None else Some (Some relative)
           | None => Some None
           end;
  Some (DeviceCommandRequest.mk envelope.(CommandEnvelope.idempotency_key) ttl_ms envelope.(CommandEnvelope.body)).

Definition valid_digest (digest : string) : bool :=
  (String.length digest =? 64)%nat && forallb lower_hex_byte (bytes_of digest).

Definition valid_record (record : OutboxRecord) : bool :=
  bool_decide (record.(OutboxRecord.format_version) = OUTBOX_FORMAT_VERSION)
  && valid_digest record.(OutboxRecord.key_digest) && valid_digest record.(OutboxRecord.request_digest).

Definition valid_transition (previous next : OutboxStatus) : bool :=
  match previous, next with
  | OutboxStatus.Ready, OutboxStatus.Claimed | OutboxStatus.Claimed, OutboxStatus.Completed => true
  | _, _ => false
  end.

Section outbox.
Context `{OutboxCodec} (hex_digest : string → string).

Definition device_command_key_digest (device_id : DeviceId) (idempotency_key : string) : string :=
  hex_digest (extend_field (extend_field (extend_field "" "human") (id_value device_id)) idempotency_key).

Definition device_request_digest (request : DeviceCommandRequest) : string :=
  hex_digest (extend_field (extend_field "" "device-request-v1")
    (encode_request request.(DeviceCommandRequest.ttl_ms) request.(DeviceCommandRequest.body))).

Definition ticket_for (key_digest request_digest : string) (command_id : CommandId) : DispatchTicket :=
  DispatchTicket.mk command_id
    (hex_digest (extend_field (extend_field (extend_field "" key_digest) request_digest) (id_value command_id))).

(** [ticket_for] of the fields of a record. *)
Definition ticket_of (record : OutboxRecord) : DispatchTicket :=
  ticket_for record.(OutboxRecord.key_digest) record.(OutboxRecord.request_digest)
    record.(OutboxRecord.envelope).(CommandEnvelope.command_id).

(** ** Reading the file *)

(** The checks of one record on its own. *)
Definition check_outbox_record (index : Z) (record : OutboxRecord) : result unit StateError :=
  let malformed := StateError.MalformedRecord OUTBOX_FILE (index + 1) in
  let envelope := record.(OutboxRecord.envelope) in
  let ack := record.(OutboxRecord.admission_ack) in
  reject_if (negb (valid_record record)) malformed ;?
  contract (CommandEnvelope_validate envelope) ;?
  contract (CommandAck_validate ack) ;?
  let? request := ok_or (request_from_envelope envelope) malformed in
  let? device_id := match envelope.(CommandEnvelope.actor) with
                    | Actor.Human device_id => Ok device_id
                    | _ => Err malformed
                    end in
  let digests_match :=
    bool_decide (device_command_key_digest device_id request.(DeviceCommandRequest.idempotency_key)
                 = record.(OutboxRecord.key_digest))
    && bool_decide (device_request_digest request = record.(OutboxRecord.request_digest)) in
  reject_if (bool_decide (ack.(CommandAck.command_id) ≠ envelope.(CommandEnvelope.command_id))
             || bool_decide (ack.(CommandAck.acked_at_ms) ≠ envelope.(CommandEnvelope.issued_at_ms))
             || negb (is_ok (DeviceCommandRequest_validate request))
             || negb digests_match) malformed.

(** The check of one record against what the file said before. *)
Definition check_outbox_history (index : Z) (by_key : gmap string OutboxRecord) (command_ids : gset CommandId)
    (record : OutboxRecord) : result (gset CommandId) StateError :=
  let malformed := StateError.MalformedRecord OUTBOX_FILE (index + 1) in
  match by_key !! record.(OutboxRecord.key_digest) with
  | None =>
      let command_id := record.(OutboxRecord.envelope).(CommandEnvelope.command_id) in
      reject_if (bool_decide (command_id ∈ command_ids)) malformed ;?
      Ok ({[ command_id ]} ∪ command_ids)
  | Some previous =>
      reject_if (bool_decide (previous.(OutboxRecord.request_digest) ≠ record.(OutboxRecord.request_digest))
                 || bool_decide (previous.(OutboxRecord.envelope) ≠ record.(OutboxRecord.envelope))
                 || bool_decide (previous.(OutboxRecord.admission_ack) ≠ record.(OutboxRecord.admission_ack))
                 || negb (valid_transition previous.(OutboxRecord.status) record.(OutboxRecord.status))) malformed ;?
      Ok command_ids
  end.

(** One line of the file, with the accumulators of the loop. *)
Definition read_outbox_line (acc : Z * gmap string OutboxRecord * gset CommandId) (line : string)
    : result (Z * gmap string OutboxRecord * gset CommandId) StateError :=
  let '(index, by_key, command_ids) := acc in
  if is_blank line then Ok (index + 1, by_key, command_ids)
  else
    let? record := ok_or (decode_outbox line) (StateError.MalformedRecord OUTBOX_FILE (index + 1)) in
    check_outbox_record index record ;?
    let? command_ids := check_outbox_history index by_key command_ids record in
    Ok (index + 1, <[record.(OutboxRecord.key_digest) := record]> by_key, command_ids).

Definition read_records (content : string) : result (gmap string OutboxRecord) StateError :=
  let? acc := try_fold read_outbox_line (0, ∅, ∅) (lines_of content) in
  Ok acc.1.2.

Definition DeviceCommandOutbox_open (content : string) : result DeviceCommandOutbox StateError :=
  let? by_key := read_records content in
  Ok (DeviceCommandOutbox.mk content by_key).

(** ** Writing *)

(** The parent directory is synchronised after the file is created; its failure
    is an [IoOutcome.Failed] with the whole line written. *)
Definition DeviceCommandOutbox_append (o : DeviceCommandOutbox) (record : OutboxRecord) (io : IoOutcome)
    : DeviceCommandOutbox * result unit StateError :=
  let line := encode_outbox record +:+ String newline "" in
  let content := o.(DeviceCommandOutbox.file) in
  match io with
  | IoOutcome.Written => (DeviceCommandOutbox.mk (content +:+ line) o.(DeviceCommandOutbox.by_key), Ok tt)
  | IoOutcome.Failed bytes =>
      (DeviceCommandOutbox.mk (content +:+ str_take bytes line) o.(DeviceCommandOutbox.by_key),
       Err (StateError.Io OUTBOX_FILE))
  | IoOutcome.NotOpened => (o, Err (StateError.Io OUTBOX_FILE))
  end.

(** [self.append(&record)?; self.by_key.insert(key, record)] *)
Definition append_and_store (o : DeviceCommandOutbox) (io : IoOutcome) (key : string) (record : OutboxRecord)
    : DeviceCommandOutbox * result unit StateError :=
  match DeviceCommandOutbox_append o record io with
  | (o', Ok _) =>
      (DeviceCommandOutbox.mk o'.(DeviceCommandOutbox.file) (<[key := record]> o'.(DeviceCommandOutbox.by_key)), Ok tt)
  | (o', Err e) => (o', Err e)
  end.

Definition insert_initial (o : DeviceCommandOutbox) (io : IoOutcome) (record : OutboxRecord)
    : DeviceCommandOutbox * result unit StateError :=
  if is_some (o.(DeviceCommandOutbox.by_key) !! record.(OutboxRecord.key_digest))
     || existsb (λ existing, bool_decide (existing.(OutboxRecord.envelope).(CommandEnvelope.command_id)
                                          = record.(OutboxRecord.envelope).(CommandEnvelope.command_id)))
                (btree_values o.(DeviceCommandOutbox.by_key))
  then (o, Err StateError.CommandOutboxDiverged)
  else append_and_store o io record.(OutboxRecord.key_digest) record.

(** [insert_ready] and [insert_claimed] differ in the initial status only. *)
Definition insert_with (status : OutboxStatus) (o : DeviceCommandOutbox) (io : IoOutcome)
    (key_digest request_digest : string) (envelope : CommandEnvelope) (admission_ack : CommandAck)
    : DeviceCommandOutbox * result DispatchTicket StateError :=
  let ticket := ticket_for key_digest request_digest envelope.(CommandEnvelope.command_id) in
  match insert_initial o io (OutboxRecord.mk OUTBOX_FORMAT_VERSION key_digest request_digest envelope
                               admission_ack status) with
  | (o', Ok _) => (o', Ok ticket)
  | (o', Err e) => (o', Err e)
  end.

Definition insert_ready := insert_with OutboxStatus.Ready.
Definition insert_claimed := insert_with OutboxStatus.Claimed.

(** The entry a ticket was issued for. *)
Definition find_ticket (o : DeviceCommandOutbox) (ticket : DispatchTicket) : option (string * OutboxRecord) :=
  find_first (λ '(_, record),
    bool_decide (record.(OutboxRecord.envelope).(CommandEnvelope.command_id) = ticket.(DispatchTicket.command_id))
    && bool_decide (ticket_of record = ticket)) (btree_entries o.(DeviceCommandOutbox.by_key)).

Definition not_available (ticket : DispatchTicket) : StateError :=
  StateError.DispatchNotAvailable ticket.(DispatchTicket.command_id).

Definition claim (o : DeviceCommandOutbox) (io : IoOutcome) (ticket : DispatchTicket)
    : DeviceCommandOutbox * result CommandEnvelope StateError :=
  match find_ticket o ticket with
  | None => (o, Err (not_available ticket))
  | Some (key, current) =>
      if bool_decide (current.(OutboxRecord.status) ≠ OutboxStatus.Ready) then (o, Err (not_available ticket))
      else
        let claimed := OutboxRecord_set_status OutboxStatus.Claimed current in
        match append_and_store o io key claimed with
        | (o', Ok _) => (o', Ok claimed.(OutboxRecord.envelope))
        | (o', Err e) => (o', Err e)
        end
  end.

Definition complete (o : DeviceCommandOutbox) (io : IoOutcome) (ticket : DispatchTicket)
    : DeviceCommandOutbox * result unit StateError :=
  match find_ticket o ticket with
  | None => (o, Err (not_available ticket))
  | Some (key, current) =>
      if bool_decide (current.(OutboxRecord.status) ≠ OutboxStatus.Claimed) then (o, Err (not_available ticket))
      else append_and_store o io key (OutboxRecord_set_status OutboxStatus.Completed current)
  end.

(** ** Queries *)

Definition existing (o : DeviceCommandOutbox) (key_digest : string) : option (string * CommandAck) :=
  (λ record, (record.(OutboxRecord.request_digest), record.(OutboxRecord.admission_ack))) <$>
  o.(DeviceCommandOutbox.by_key) !! key_digest.

Definition ensure_claimed (o : DeviceCommandOutbox) (ticket : DispatchTicket) : result CommandEnvelope StateError :=
  ok_or (OutboxRecord.envelope <$> find_first (λ record,
      bool_decide (record.(OutboxRecord.status) = OutboxStatus.Claimed)
      && bool_decide (record.(OutboxRecord.envelope).(CommandEnvelope.command_id) = ticket.(DispatchTicket.command_id))
      && bool_decide (ticket_of record = ticket)) (btree_values o.(DeviceCommandOutbox.by_key)))
    (not_available ticket).

Definition pending (o : DeviceCommandOutbox) : list PendingDispatch :=
  (λ record, PendingDispatch.mk (ticket_of record) record.(OutboxRecord.envelope)) <$>
  filter_b (λ record, bool_decide (record.(OutboxRecord.status) = OutboxStatus.Ready))
           (btree_values o.(DeviceCommandOutbox.by_key)).

Definition uncertain (o : DeviceCommandOutbox) : list CommandId :=
  (λ record, record.(OutboxRecord.envelope).(CommandEnvelope.command_id)) <$>
  filter_b (λ record, bool_decide (record.(OutboxRecord.status) = OutboxStatus.Claimed)
                      && is_accepted_locally record.(OutboxRecord.admission_ack).(CommandAck.outcome))
           (btree_values o.(DeviceCommandOutbox.by_key)).

Definition has_unfinished_attention (o : DeviceCommandOutbox) (attention_id : AttentionId) : bool :=
  existsb (λ record,
    bool_decide (record.(OutboxRecord.status) ≠ OutboxStatus.Completed)
    && match record.(OutboxRecord.envelope).(CommandEnvelope.body) with
       | Command.RespondAttention response => bool_decide (response.(AttentionResponse.attention_id) = attention_id)
       | _ => false
       end) (btree_values o.(DeviceCommandOutbox.by_key)).

(** The bodies a command refers to. *)
Definition command_content_ids (command : Command) : list ContentId :=
  ContentRef.content_id <$>
  match command with
  | Command.SubmitPrompt _ body | Command.EnqueueInput _ body _ | Command.EditQueueEntry _ body => [body]
  | Command.RespondAttention response => option_list response.(AttentionResponse.free_form_ref)
  | Command.ReworkStep _ reason_ref | Command.SkipStep _ reason_ref => option_list reason_ref
  | Command.ReorderQueue _ _ | Command.CancelQueueEntry _ | Command.InterruptTurn _ _ | Command.RetryTurn _ _
  | Command.OpenSession _ _ | Command.ResumeSession _ | Command.CloseSession _ | Command.AdvanceStep _
  | Command.RetryStep _ | Command.CancelStep _ | Command.ReassignStep _ _ | Command.CancelWorkflow _ => []
  end.

Definition referenced_content_ids (o : DeviceCommandOutbox) : gset ContentId :=
  list_to_set (record ← filter_b (λ record, bool_decide (record.(OutboxRecord.status) ≠ OutboxStatus.Completed))
                                 (btree_values o.(DeviceCommandOutbox.by_key));
               command_content_ids record.(OutboxRecord.envelope).(CommandEnvelope.body)).

Definition admission_recoveries (o : DeviceCommandOutbox) : list AdmissionRecovery :=
  (λ record, AdmissionRecovery.mk (ticket_of record) record.(OutboxRecord.envelope) record.(OutboxRecord.admission_ack)
     (negb (is_accepted_locally record.(OutboxRecord.admission_ack).(CommandAck.outcome)))) <$>
  filter_b (λ record, bool_decide (record.(OutboxRecord.status) ≠ OutboxStatus.Completed))
           (btree_values o.(DeviceCommandOutbox.by_key)).

End outbox.
