(* ===== verification/OutboxProofs.v ===== *)
(** * A device command is dispatched at most once

    The life of a command in the outbox ([CommandOutbox.v]), over any sequence of
    operations and I/O outcomes, and what reopening the outbox file restores. *)
From stdpp Require Import prelude strings gmap.
From Stdlib Require Import ZArith Lia.
From S2P Require Import Prelude ProtoBase ProtoContent ProtoWorkflow ProtoAttention ProtoCommand CanonState DurableLog StoreInterface CommandOutbox.

Local Open Scope Z_scope.

Abbreviation command_of r := r.(OutboxRecord.envelope).(CommandEnvelope.command_id).

(** ** Well-formed outboxes *)

(** Records are stored under their key, and each command has one record. *)
Record outbox_wf (m : gmap string OutboxRecord) : Prop := {
  outbox_key : ∀ k r, m !! k = Some r → r.(OutboxRecord.key_digest) = k;
  outbox_command : ∀ k1 k2 r1 r2, m !! k1 = Some r1 → m !! k2 = Some r2 → command_of r1 = command_of r2 → k1 = k2
}.

Lemma outbox_wf_update m k r r' :
  outbox_wf m → m !! k = Some r → r'.(OutboxRecord.key_digest) = r.(OutboxRecord.key_digest) →
  command_of r' = command_of r → outbox_wf (<[k := r']> m).
Proof.
  intros [Hk Hc] Hr Hkey Hcmd. split.
  - intros j x [[<- <-]|[_ Hj]]%lookup_insert_Some; [rewrite Hkey|]; by apply Hk.
  - intros k1 k2 r1 r2 [[<- <-]|[? H1]]%lookup_insert_Some [[<- <-]|[? H2]]%lookup_insert_Some; intros E; try done.
    + by apply (Hc k k2 r r2); [..|congruence].
    + by apply (Hc k1 k r1 r); [..|congruence].
    + by apply (Hc k1 k2 r1 r2).
Qed.

Lemma outbox_wf_insert m r :
  outbox_wf m → (∀ k x, m !! k = Some x → command_of x ≠ command_of r) →
  outbox_wf (<[r.(OutboxRecord.key_digest) := r]> m).
Proof.
  intros [Hk Hc] Hnew. split.
  - intros j x [[<- <-]|[_ Hj]]%lookup_insert_Some; [done|by apply Hk].
  - intros k1 k2 r1 r2 [[<- <-]|[? H1]]%lookup_insert_Some [[<- <-]|[? H2]]%lookup_insert_Some E; try done.
    + by destruct (Hnew _ _ H2).
    + by destruct (Hnew _ _ H1).
    + by apply (Hc k1 k2 r1 r2).
Qed.

Section outbox.
Context `{OutboxCodec} (hex_digest : string → string).

Lemma find_ticket_some o ticket k r :
  find_ticket hex_digest o ticket = Some (k, r) →
  o.(DeviceCommandOutbox.by_key) !! k = Some r ∧ ticket_of hex_digest r = ticket.
Proof.
  unfold find_ticket. intros [Hin Hp]%find_first_some. apply andb_true_iff in Hp as [_ Ht%bool_decide_eq_true].
  rewrite btree_entries_perm, elem_of_map_to_list in Hin. done.
Qed.

(** A ticket finds the record it was issued for. *)
Lemma find_ticket_unique o k r :
  outbox_wf o.(DeviceCommandOutbox.by_key) → o.(DeviceCommandOutbox.by_key) !! k = Some r →
  find_ticket hex_digest o (ticket_of hex_digest r) = Some (k, r).
Proof.
  intros [_ Hc] Hr. destruct (find_ticket hex_digest o (ticket_of hex_digest r)) as [[k' r']|] eqn:E.
  - apply find_ticket_some in E as [Hr' Ht]. apply (f_equal DispatchTicket.command_id) in Ht. simpl in Ht.
    assert (k' = k) as -> by by eapply Hc. congruence.
  - exfalso. unfold find_ticket in E.
    assert ((k, r) ∈ btree_entries o.(DeviceCommandOutbox.by_key)) as Hin
      by by rewrite btree_entries_perm, elem_of_map_to_list.
    induction (btree_entries o.(DeviceCommandOutbox.by_key)) as [|[k' r'] l IH]; [by apply elem_of_nil in Hin|].
    simpl in E. apply elem_of_cons in Hin as [[= <- <-]|Hin].
    + by rewrite !bool_decide_true in E.
    + destruct (_ && _); [done|by apply IH].
Qed.

(** What one append leaves behind. *)
Lemma append_and_store_cases o io key record o' res :
  append_and_store o io key record = (o', res) →
  (res = Ok tt ∧ io = IoOutcome.Written ∧
   o' = DeviceCommandOutbox.mk (o.(DeviceCommandOutbox.file) +:+ (encode_outbox record +:+ String newline ""))
          (<[key := record]> o.(DeviceCommandOutbox.by_key))) ∨
  (res = Err (StateError.Io OUTBOX_FILE) ∧ io ≠ IoOutcome.Written ∧
   o'.(DeviceCommandOutbox.by_key) = o.(DeviceCommandOutbox.by_key) ∧ (io = IoOutcome.NotOpened → o' = o)).
Proof.
  unfold append_and_store, DeviceCommandOutbox_append. destruct io; intros [= <- <-]; [left|right..]; by split_and!.
Qed.

(** ** Runs and events *)

Inductive outbox_op : Type :=
| OpInsert (status : OutboxStatus) (key_digest request_digest : string) (envelope : CommandEnvelope)
    (admission_ack : CommandAck)
| OpClaim (ticket : DispatchTicket)
| OpComplete (ticket : DispatchTicket).

(** What a successful operation promises about a command. *)
Inductive outbox_event : Type :=
| Entered (command_id : CommandId) (status : OutboxStatus)
| Dispatched (command_id : CommandId)
| Finished (command_id : CommandId).

#[export] Instance outbox_event_eq_dec : EqDecision outbox_event.
Proof. solve_decision. Defined.

Definition event_command (e : outbox_event) : CommandId :=
  match e with Entered c _ | Dispatched c | Finished c => c end.

Definition initial_status (status : OutboxStatus) : Prop := status ≠ OutboxStatus.Completed.

Definition outbox_step (o : DeviceCommandOutbox) (io : IoOutcome) (op : outbox_op)
    : DeviceCommandOutbox * list outbox_event :=
  match op with
  | OpInsert status kd rd envelope ack =>
      match insert_with hex_digest status o io kd rd envelope ack with
      | (o', Ok _) => (o', [Entered envelope.(CommandEnvelope.command_id) status])
      | (o', Err _) => (o', [])
      end
  | OpClaim ticket =>
      match claim hex_digest o io ticket with
      | (o', Ok envelope) => (o', [Dispatched envelope.(CommandEnvelope.command_id)])
      | (o', Err _) => (o', [])
      end
  | OpComplete ticket =>
      match complete hex_digest o io ticket with
      | (o', Ok _) => (o', [Finished ticket.(DispatchTicket.command_id)])
      | (o', Err _) => (o', [])
      end
  end.

Definition empty_outbox : DeviceCommandOutbox := DeviceCommandOutbox.mk "" ∅.

(** The states an outbox reaches from an empty file, with the events so far.
    A record enters as [Ready] or [Claimed]. *)
Inductive outbox_run : DeviceCommandOutbox → list outbox_event → list (IoOutcome * outbox_op) → Prop :=
| run_empty : outbox_run empty_outbox [] []
| run_step o events ops io op :
    outbox_run o events ops →
    (∀ status kd rd envelope ack, op = OpInsert status kd rd envelope ack → initial_status status) →
    outbox_run (outbox_step o io op).1 (events ++ (outbox_step o io op).2) (ops ++ [(io, op)]).

(** One successful step changes one record, as its event says. *)
Inductive outbox_change (m m' : gmap string OutboxRecord) : list outbox_event → option OutboxRecord → Prop :=
| change_none : m' = m → outbox_change m m' [] None
| change_insert r :
    initial_status r.(OutboxRecord.status) →
    (∀ k x, m !! k = Some x → command_of x ≠ command_of r) → m !! r.(OutboxRecord.key_digest) = None →
    m' = <[r.(OutboxRecord.key_digest) := r]> m →
    outbox_change m m' [Entered (command_of r) r.(OutboxRecord.status)] (Some r)
| change_claim k r :
    m !! k = Some r → r.(OutboxRecord.status) = OutboxStatus.Ready →
    m' = <[k := OutboxRecord_set_status OutboxStatus.Claimed r]> m →
    outbox_change m m' [Dispatched (command_of r)] (Some (OutboxRecord_set_status OutboxStatus.Claimed r))
| change_complete k r :
    m !! k = Some r → r.(OutboxRecord.status) = OutboxStatus.Claimed →
    m' = <[k := OutboxRecord_set_status OutboxStatus.Completed r]> m →
    outbox_change m m' [Finished (command_of r)] (Some (OutboxRecord_set_status OutboxStatus.Completed r)).

(** The file after a step whose append was complete or never started. *)
Definition file_after (o : DeviceCommandOutbox) (written : option OutboxRecord) : string :=
  match written with
  | Some r => o.(DeviceCommandOutbox.file) +:+ (encode_outbox r +:+ String newline "")
  | None => o.(DeviceCommandOutbox.file)
  end.

(** Nothing was stored. *)
Ltac unchanged := exists None; split_and!; [by constructor|try done|done].

Lemma outbox_step_change o io op :
  (∀ status kd rd envelope ack, op = OpInsert status kd rd envelope ack → initial_status status) →
  ∃ written,
    outbox_change o.(DeviceCommandOutbox.by_key) (outbox_step o io op).1.(DeviceCommandOutbox.by_key)
      (outbox_step o io op).2 written ∧
    (clean_io io → (outbox_step o io op).1.(DeviceCommandOutbox.file) = file_after o written) ∧
    (∀ r, written = Some r → match op with
       | OpInsert status kd rd envelope ack => r = OutboxRecord.mk OUTBOX_FORMAT_VERSION kd rd envelope ack status
       | _ => ∀ c st, (outbox_step o io op).2 ≠ [Entered c st]
       end).
Proof.
  intros Hinit. destruct op as [status kd rd envelope ack|ticket|ticket]; simpl.
  - unfold insert_with, insert_initial.
    set (r := OutboxRecord.mk OUTBOX_FORMAT_VERSION kd rd envelope ack status). simpl.
    destruct (_ || _) eqn:Hnew; simpl; [unchanged|].
    apply orb_false_iff in Hnew as [Hkey Hcmd]. rewrite existsb_false in Hcmd.
    destruct (append_and_store o io kd r) as [o' res] eqn:E.
    destruct (append_and_store_cases _ _ _ _ _ _ E) as [(-> & -> & ->)|(-> & Hio & Hm & Hn)]; simpl.
    + exists (Some r). split_and!; [|done|by intros ? [= <-]].
      change envelope.(CommandEnvelope.command_id) with (command_of r). change status with r.(OutboxRecord.status).
      apply change_insert; [by eapply Hinit| |by destruct (_ !! _)|done].
      intros k x Hx. specialize (Hcmd x). rewrite elem_of_btree_values in Hcmd. specialize (Hcmd (ex_intro _ k Hx)).
      by apply bool_decide_eq_false in Hcmd.
    + unchanged. by intros [->| ->]; [|rewrite Hn].
  - unfold claim. destruct (find_ticket hex_digest o ticket) as [[k r]|] eqn:Hf; simpl;
      [|unchanged].
    apply find_ticket_some in Hf as [Hr _]. case_bool_decide as Hs; simpl; [unchanged|].
    destruct (append_and_store o io k _) as [o' res] eqn:E.
    destruct (append_and_store_cases _ _ _ _ _ _ E) as [(-> & -> & ->)|(-> & Hio & Hm & Hn)]; simpl.
    + eexists. split_and!; [by eapply change_claim|done..].
    + unchanged. by intros [->| ->]; [|rewrite Hn].
  - unfold complete. destruct (find_ticket hex_digest o ticket) as [[k r]|] eqn:Hf; simpl;
      [|unchanged].
    apply find_ticket_some in Hf as [Hr <-]. case_bool_decide as Hs; simpl; [unchanged|].
    destruct (append_and_store o io k _) as [o' res] eqn:E.
    destruct (append_and_store_cases _ _ _ _ _ _ E) as [(-> & -> & ->)|(-> & Hio & Hm & Hn)]; simpl.
    + eexists. split_and!; [by eapply change_complete|done..].
    + unchanged. by intros [->| ->]; [|rewrite Hn].
Qed.

Lemma outbox_change_wf m m' ev w : outbox_wf m → outbox_change m m' ev w → outbox_wf m'.
Proof.
  intros Hwf [->|r _ Hnew _ ->|k r Hr _ ->|k r Hr _ ->]; [done|by apply outbox_wf_insert|by eapply outbox_wf_update..].
Qed.

Lemma outbox_run_wf o events ops : outbox_run o events ops → outbox_wf o.(DeviceCommandOutbox.by_key).
Proof.
  induction 1 as [|o events ops io op Hrun IH Hst]; [split; intros *; simpl; by rewrite lookup_empty|].
  destruct (outbox_step_change o io op Hst) as (w & Hch & _). by eapply outbox_change_wf.
Qed.

(** ** The life of a command *)

Definition events_of (command_id : CommandId) (events : list outbox_event) : list outbox_event :=
  filter_b (λ e, bool_decide (event_command e = command_id)) events.

(** The histories that end in a status. *)
Definition lifecycle (command_id : CommandId) (status : OutboxStatus) : list (list outbox_event) :=
  match status with
  | OutboxStatus.Ready => [[Entered command_id OutboxStatus.Ready]]
  | OutboxStatus.Claimed =>
      [[Entered command_id OutboxStatus.Ready; Dispatched command_id]; [Entered command_id OutboxStatus.Claimed]]
  | OutboxStatus.Completed =>
      [[Entered command_id OutboxStatus.Ready; Dispatched command_id; Finished command_id];
       [Entered command_id OutboxStatus.Claimed; Finished command_id]]
  end.

(** The command is unknown, or its record is in the status its events lead to. *)
Definition lives (m : gmap string OutboxRecord) (command_id : CommandId) (mine : list outbox_event) : Prop :=
  ((∀ k r, m !! k = Some r → command_of r ≠ command_id) ∧ mine = []) ∨
  ∃ k r, m !! k = Some r ∧ command_of r = command_id ∧ mine ∈ lifecycle command_id r.(OutboxRecord.status).

Lemma lives_other m k r cid mine :
  lives m cid mine → command_of r ≠ cid → (∀ old, m !! k = Some old → command_of old ≠ cid) →
  lives (<[k := r]> m) cid mine.
Proof.
  intros [[Hno ->]|(j & x & Hj & Hc & Hm)] Hne Hold.
  - left. split; [|done]. by intros k' r' [[<- <-]|[_ Hk]]%lookup_insert_Some; [|eapply Hno].
  - right. exists j, x. split; [|done]. rewrite lookup_insert_ne; [done|]. intros ->. by destruct (Hold x Hj).
Qed.

Lemma lives_advance m k r r' mine (event : outbox_event) :
  outbox_wf m → m !! k = Some r → lives m (command_of r) mine → command_of r' = command_of r →
  (∀ l, l ∈ lifecycle (command_of r) r.(OutboxRecord.status) →
     l ++ [event] ∈ lifecycle (command_of r) r'.(OutboxRecord.status)) →
  lives (<[k := r']> m) (command_of r) (mine ++ [event]).
Proof.
  intros [_ Hc] Hr [[Hno _]|(j & x & Hj & Hx & Hm)] Hcmd Hl; [by destruct (Hno k r Hr)|].
  assert (j = k) as -> by by eapply Hc. assert (x = r) as -> by congruence.
  right. exists k, r'. rewrite lookup_insert_eq. split_and!; [done..|by apply Hl].
Qed.

Lemma outbox_change_lives m m' ev w cid mine :
  outbox_wf m → outbox_change m m' ev w → lives m cid mine → lives m' cid (mine ++ events_of cid ev).
Proof.
  intros Hwf Hch Hl. destruct Hch as [->|r Hinit Hnew Hkey ->|k r Hr Hs ->|k r Hr Hs ->]; [by rewrite app_nil_r|..];
    unfold events_of; simpl; (case_bool_decide as Hcid; [subst cid|rewrite app_nil_r; apply lives_other; [done..|]]).
  - destruct Hl as [[_ ->]|(k & x & Hk & Hx & _)]; [|by destruct (Hnew k x Hk)]. right.
    eexists _, r. rewrite lookup_insert_eq. split_and!; [done..|].
    unfold initial_status in Hinit. destruct (r.(OutboxRecord.status)); simpl; [left|right; left|done].
  - intros old Hold. congruence.
  - apply lives_advance with (r := r); [done..|]. rewrite Hs. intros l ->%list_elem_of_singleton. left.
  - intros old Hold. congruence.
  - apply lives_advance with (r := r); [done..|]. rewrite Hs. simpl.
    intros l [->| ->%list_elem_of_singleton]%elem_of_cons; [left|right; left].
  - intros old Hold. congruence.
Qed.

Lemma run_lives o events ops command_id :
  outbox_run o events ops → lives o.(DeviceCommandOutbox.by_key) command_id (events_of command_id events).
Proof.
  induction 1 as [|o events ops io op Hrun IH Hst]; [left; split; [intros *; simpl; by rewrite lookup_empty|done]|].
  destruct (outbox_step_change o io op Hst) as (w & Hch & _). unfold events_of. rewrite filter_b_app.
  eapply outbox_change_lives; [by eapply outbox_run_wf|done|done].
Qed.

Definition dispatches_of (command_id : CommandId) (events : list outbox_event) : list outbox_event :=
  filter_b (λ e, match e with Dispatched c => bool_decide (c = command_id) | _ => false end) events.

Lemma dispatches_of_mine command_id events :
  dispatches_of command_id events = dispatches_of command_id (events_of command_id events).
Proof. symmetry. apply filter_b_filter. by intros []. Qed.

(** Whatever the events of a command are, it was dispatched at most once, and
    not at all while it is ready. *)
Lemma lifecycle_dispatches command_id status mine :
  mine ∈ lifecycle command_id status →
  (length (dispatches_of command_id mine) ≤ (if bool_decide (status = OutboxStatus.Ready) then 0 else 1))%nat.
Proof.
  destruct status; simpl; rewrite ?elem_of_cons, ?elem_of_nil; intros Hm; destruct_or?; subst; try done; unfold dispatches_of; simpl;
    repeat case_bool_decide; simpl; lia.
Qed.

Lemma lives_dispatches m command_id events :
  lives m command_id (events_of command_id events) → (length (dispatches_of command_id events) ≤ 1)%nat.
Proof.
  rewrite dispatches_of_mine. intros [[_ ->]|(k & r & _ & _ & Hm)]; [simpl; lia|]. apply lifecycle_dispatches in Hm.
  by destruct (bool_decide _); lia.
Qed.

(** Over any sequence of admissions, claims and completions, with any I/O failures in between, the successful
    operations on a device command follow its life: admitted once, dispatched at most once and only if it was
    admitted Ready, finished at most once and only after it was claimed; and its record always has the status
    those operations lead to. *)
Theorem commands_are_dispatched_at_most_once o events ops command_id (Hrun : outbox_run o events ops) :
  lives o.(DeviceCommandOutbox.by_key) command_id (events_of command_id events) ∧
  (length (dispatches_of command_id events) ≤ 1)%nat.
Proof.
  pose proof (run_lives o events ops command_id Hrun) as Hl. split; [done|]. by eapply lives_dispatches.
Qed.

(** ** Reopening *)

(** A record the reader accepts on its own, whatever line it is on. *)
Definition admissible (r : OutboxRecord) : Prop :=
  (∀ index, check_outbox_record hex_digest index r = Ok tt) ∧ line_codec encode_outbox decode_outbox r.

(** The admitted records are acceptable in every status they go through. *)
Definition admissible_op (op : outbox_op) : Prop :=
  match op with
  | OpInsert _ kd rd envelope ack =>
      ∀ status, admissible (OutboxRecord.mk OUTBOX_FORMAT_VERSION kd rd envelope ack status)
  | _ => True
  end.

(** What reading the lines of [recs] gives. *)
Definition reads (recs : list OutboxRecord) (m : gmap string OutboxRecord) : Prop :=
  ∃ ids, try_fold (read_outbox_line hex_digest) (0, ∅, ∅) (encode_outbox <$> recs) =
    Ok (Z.of_nat (length recs), m, ids) ∧
  ∀ c, c ∈ ids ↔ ∃ k r, m !! k = Some r ∧ command_of r = c.

Lemma read_line_admissible index m ids r :
  admissible r →
  read_outbox_line hex_digest (index, m, ids) (encode_outbox r) =
  (let? ids' := check_outbox_history index m ids r in
   Ok (index + 1, <[r.(OutboxRecord.key_digest) := r]> m, ids')).
Proof. intros [Hck [Hd _ _ Hb]]. unfold read_outbox_line. rewrite Hb, Hd. simpl. by rewrite Hck. Qed.

Lemma reads_snoc recs m ids r ids' :
  try_fold (read_outbox_line hex_digest) (0, ∅, ∅) (encode_outbox <$> recs) = Ok (Z.of_nat (length recs), m, ids) →
  admissible r → check_outbox_history (Z.of_nat (length recs)) m ids r = Ok ids' →
  try_fold (read_outbox_line hex_digest) (0, ∅, ∅) (encode_outbox <$> recs ++ [r]) =
    Ok (Z.of_nat (length (recs ++ [r])), <[r.(OutboxRecord.key_digest) := r]> m, ids').
Proof.
  intros Hread Hr Hh. rewrite fmap_app. simpl. rewrite try_fold_snoc, Hread. cbn [rbind].
  rewrite read_line_admissible, Hh by done. simpl. rewrite length_app. simpl. do 3 f_equal. lia.
Qed.

(** The next status of a record continues its history. *)
Lemma check_history_update index m ids k r status :
  outbox_wf m → m !! k = Some r → valid_transition r.(OutboxRecord.status) status = true →
  check_outbox_history index m ids (OutboxRecord_set_status status r) = Ok ids.
Proof.
  intros [Hk _] Hr Ht. unfold check_outbox_history. simpl. rewrite (Hk k r Hr), Hr, Ht. simpl.
  by rewrite !bool_decide_false by by intros [].
Qed.

Lemma reads_update recs m k r status :
  outbox_wf m → reads recs m → m !! k = Some r → valid_transition r.(OutboxRecord.status) status = true →
  admissible (OutboxRecord_set_status status r) →
  reads (recs ++ [OutboxRecord_set_status status r]) (<[k := OutboxRecord_set_status status r]> m).
Proof.
  intros Hwf (ids & Hread & Hids) Hr Ht Ha. exists ids. split.
  - rewrite (reads_snoc recs m ids _ ids Hread Ha) by by eapply check_history_update.
    simpl. by rewrite (outbox_key _ Hwf k r Hr).
  - intros c. rewrite Hids. split.
    + intros (j & x & Hj & Hc). destruct (decide (j = k)) as [->|Hne]; [|exists j, x; by rewrite lookup_insert_ne].
      eexists k, _. rewrite lookup_insert_eq. split; [done|]. simpl. congruence.
    + intros (j & x & [[<- <-]|[_ Hj]]%lookup_insert_Some & Hc); [by exists k, r|by exists j, x].
Qed.

Lemma reads_insert recs m r :
  reads recs m → m !! r.(OutboxRecord.key_digest) = None →
  (∀ k x, m !! k = Some x → command_of x ≠ command_of r) → admissible r →
  reads (recs ++ [r]) (<[r.(OutboxRecord.key_digest) := r]> m).
Proof.
  intros (ids & Hread & Hids) Hkey Hnew Ha. exists ({[ command_of r ]} ∪ ids). split.
  - apply (reads_snoc recs m ids); [done..|]. unfold check_outbox_history. rewrite Hkey. simpl.
    rewrite bool_decide_false; [done|]. rewrite Hids. intros (k & x & Hx & Hc). by destruct (Hnew k x Hx).
  - intros c. rewrite elem_of_union, elem_of_singleton, Hids. split.
    + intros [->|(k & x & Hx & Hc)]; [exists r.(OutboxRecord.key_digest), r; by rewrite lookup_insert_eq|].
      exists k, x. rewrite lookup_insert_ne; [done|]. intros <-. by rewrite Hkey in Hx.
    + intros (k & x & [[<- <-]|[_ Hx]]%lookup_insert_Some & Hc); [by left|right; by exists k, x].
Qed.

Record outbox_on_disk (o : DeviceCommandOutbox) (recs : list OutboxRecord) : Prop := {
  disk_file : o.(DeviceCommandOutbox.file) = file_content encode_outbox recs;
  disk_lines : Forall (line_codec encode_outbox decode_outbox) recs;
  disk_reads : reads recs o.(DeviceCommandOutbox.by_key);
  disk_admissible : ∀ k r status, o.(DeviceCommandOutbox.by_key) !! k = Some r →
    admissible (OutboxRecord_set_status status r)
}.

Lemma disk_append o o' recs r m :
  outbox_on_disk o recs → o'.(DeviceCommandOutbox.file) = file_after o (Some r) →
  o'.(DeviceCommandOutbox.by_key) = m → admissible r → reads (recs ++ [r]) m →
  (∀ k x status, m !! k = Some x → admissible (OutboxRecord_set_status status x)) → outbox_on_disk o' (recs ++ [r]).
Proof.
  intros [Hf Hl _ _] Hf' <- Ha Hr Hall. split; [|by rewrite Forall_app, Forall_singleton; split; [|apply Ha]|done..].
  rewrite Hf'. simpl. rewrite Hf. apply file_content_snoc.
Qed.

Lemma outbox_run_on_disk o events ops :
  outbox_run o events ops → Forall (λ x, clean_io x.1 ∧ admissible_op x.2) ops → ∃ recs, outbox_on_disk o recs.
Proof.
  induction 1 as [|o events ops io op Hrun IH Hst].
  { intros _. exists []. split; [done..|exists ∅; split; [done|]|intros *; simpl; by rewrite lookup_empty].
    intros c. split; [by intros ?%elem_of_empty|]. intros (k & r & Hk & _). simpl in Hk. by rewrite lookup_empty in Hk. }
  rewrite Forall_app, Forall_singleton. intros [Hops [Hio Hop]]. destruct (IH Hops) as [recs Hdisk].
  pose proof (outbox_run_wf _ _ _ Hrun) as Hwf. destruct Hdisk as [Df Dl Dr Da] eqn:Hd. clear Hd.
  destruct (outbox_step_change o io op Hst) as (w & Hch & Hfile & Hins). specialize (Hfile Hio).
  destruct (outbox_step o io op) as [o' ev]. simpl in *.
  destruct Hch as [Hm|r _ Hnew Hkey Hm|k r Hr Hs Hm|k r Hr Hs Hm].
  - exists recs. split; [by rewrite Hfile|done|by rewrite Hm|intros k r st; rewrite Hm; apply Da].
  - assert (∀ st, admissible (OutboxRecord_set_status st r)) as Hadm.
    { destruct op as [st0 kd rd env ack| |]; [by rewrite (Hins r eq_refl)|..];
        by destruct (Hins r eq_refl (command_of r) r.(OutboxRecord.status)). }
    assert (admissible r) as Hself by (specialize (Hadm r.(OutboxRecord.status)); by destruct r).
    exists (recs ++ [r]). eapply disk_append; [done..|by apply reads_insert|].
    intros j x st [[<- <-]|[_ Hj]]%lookup_insert_Some; [done|by eapply Da].
  - eexists. eapply disk_append; [done..|by eapply Da|by eapply reads_update; [..|rewrite Hs|eapply Da]|].
    intros j x st [[<- <-]|[_ Hj]]%lookup_insert_Some; [by apply (Da k r st)|by eapply Da].
  - eexists. eapply disk_append; [done..|by eapply Da|by eapply reads_update; [..|rewrite Hs|eapply Da]|].
    intros j x st [[<- <-]|[_ Hj]]%lookup_insert_Some; [by apply (Da k r st)|by eapply Da].
Qed.

Lemma open_on_disk o recs : outbox_on_disk o recs → DeviceCommandOutbox_open hex_digest o.(DeviceCommandOutbox.file) = Ok o.
Proof.
  intros [Hf Hl (ids & Hread & _) _]. unfold DeviceCommandOutbox_open, read_records.
  rewrite Hf, (lines_of_content _ _ _ Hl), Hread. simpl. rewrite <-Hf. by destruct o.
Qed.

(** Reopening the outbox file after any sequence of operations whose appends were complete or did not start
    restores exactly the outbox that wrote it, when the admitted records pass the checks of the reader. *)
Theorem outbox_reopens o events ops (Hrun : outbox_run o events ops)
    (Hops : Forall (λ x, clean_io x.1 ∧ admissible_op x.2) ops) :
  DeviceCommandOutbox_open hex_digest o.(DeviceCommandOutbox.file) = Ok o.
Proof. destruct (outbox_run_on_disk _ _ _ Hrun Hops) as [recs Hdisk]. by eapply open_on_disk. Qed.

(** ** Claiming *)

Lemma elem_of_pending o p :
  p ∈ pending hex_digest o ↔ ∃ k r, o.(DeviceCommandOutbox.by_key) !! k = Some r ∧
    r.(OutboxRecord.status) = OutboxStatus.Ready ∧ p = PendingDispatch.mk (ticket_of hex_digest r) r.(OutboxRecord.envelope).
Proof.
  unfold pending. rewrite list_elem_of_fmap. setoid_rewrite elem_of_filter_b. setoid_rewrite elem_of_btree_values.
  setoid_rewrite bool_decide_eq_true. naive_solver.
Qed.

(** The outbox after a claim that was written. *)
Definition with_claim (o : DeviceCommandOutbox) (k : string) (r : OutboxRecord) : DeviceCommandOutbox :=
  let claimed := OutboxRecord_set_status OutboxStatus.Claimed r in
  DeviceCommandOutbox.mk (o.(DeviceCommandOutbox.file) +:+ (encode_outbox claimed +:+ String newline ""))
    (<[k := claimed]> o.(DeviceCommandOutbox.by_key)).

Lemma claim_written o k r :
  outbox_wf o.(DeviceCommandOutbox.by_key) → o.(DeviceCommandOutbox.by_key) !! k = Some r →
  r.(OutboxRecord.status) = OutboxStatus.Ready →
  claim hex_digest o IoOutcome.Written (ticket_of hex_digest r) = (with_claim o k r, Ok r.(OutboxRecord.envelope)).
Proof.
  intros Hwf Hr Hs. unfold claim. rewrite (find_ticket_unique o k r Hwf Hr), bool_decide_false by (rewrite Hs; tauto). done.
Qed.

Lemma with_claim_wf o k r :
  outbox_wf o.(DeviceCommandOutbox.by_key) → o.(DeviceCommandOutbox.by_key) !! k = Some r →
  outbox_wf (with_claim o k r).(DeviceCommandOutbox.by_key).
Proof. intros Hwf Hr. by eapply outbox_wf_update. Qed.

Lemma ensure_claimed_found o k r :
  outbox_wf o.(DeviceCommandOutbox.by_key) → o.(DeviceCommandOutbox.by_key) !! k = Some r →
  r.(OutboxRecord.status) = OutboxStatus.Claimed →
  ensure_claimed hex_digest o (ticket_of hex_digest r) = Ok r.(OutboxRecord.envelope).
Proof.
  intros [_ Hc] Hr Hs. unfold ensure_claimed.
  assert (r ∈ btree_values o.(DeviceCommandOutbox.by_key)) as Hin by (apply elem_of_btree_values; by exists k).
  destruct (find_first _ _) as [x|] eqn:E.
  - apply find_first_some in E as [(j & Hj)%elem_of_btree_values Hp]. rewrite !andb_true_iff in Hp.
    destruct Hp as [[_ Hcmd%bool_decide_eq_true] _]. simpl in Hcmd.
    assert (j = k) as -> by by eapply Hc. assert (x = r) as -> by congruence. done.
  - exfalso. rewrite find_first_none in E. specialize (E r Hin). by rewrite !bool_decide_true in E.
Qed.

(** Every pending dispatch an outbox lists can be claimed with its ticket: the claim returns its envelope, the
    command is then reported as claimed and no longer pending, every other pending dispatch stays, and a
    second claim is refused. *)
Theorem pending_commands_can_be_claimed o events ops p (Hrun : outbox_run o events ops)
    (Hp : p ∈ pending hex_digest o) :
  ∃ o', claim hex_digest o IoOutcome.Written p.(PendingDispatch.ticket) = (o', Ok p.(PendingDispatch.envelope)) ∧
    ensure_claimed hex_digest o' p.(PendingDispatch.ticket) = Ok p.(PendingDispatch.envelope) ∧
    (∀ q, q ∈ pending hex_digest o' ↔ q ∈ pending hex_digest o ∧ q ≠ p) ∧
    ∀ io, claim hex_digest o' io p.(PendingDispatch.ticket) = (o', Err (not_available p.(PendingDispatch.ticket))).
Proof.
  apply elem_of_pending in Hp as (k & r & Hr & Hs & ->). pose proof (outbox_run_wf _ _ _ Hrun) as Hwf.
  exists (with_claim o k r). simpl. set (c := OutboxRecord_set_status OutboxStatus.Claimed r).
  assert ((with_claim o k r).(DeviceCommandOutbox.by_key) !! k = Some c) as Hc by apply lookup_insert_eq.
  pose proof (with_claim_wf o k r Hwf Hr) as Hwf'. split_and!.
  - by apply claim_written.
  - by apply (ensure_claimed_found (with_claim o k r) k c).
  - intros q. rewrite !elem_of_pending. unfold with_claim. simpl. fold c. split.
    + intros (j & x & [[<- <-]|[Hne Hj]]%lookup_insert_Some & Hx & ->); [done|]. split; [by exists j, x|].
      intros [= _ _ E]. destruct Hne. apply (outbox_command _ Hwf k j r x); [done..|]. by rewrite E.
    + intros [(j & x & Hj & Hx & ->) Hne]. exists j, x. split; [|done]. simpl. rewrite lookup_insert_ne; [done|].
      intros ->. destruct Hne. congruence.
  - intros io. unfold claim. change (ticket_of hex_digest r) with (ticket_of hex_digest c).
    by rewrite (find_ticket_unique (with_claim o k r) k c Hwf' Hc), bool_decide_true.
Qed.

(** ** A claim whose append fails late *)

(** When the append of a claim fails after its line reached the file, the command stays Ready in memory;
    claiming it again succeeds and writes the same transition twice, and the file is then refused when it is
    reopened. *)
Theorem retried_claim_breaks_outbox o events ops k r (Hrun : outbox_run o events ops)
    (Hops : Forall (λ x, clean_io x.1 ∧ admissible_op x.2) ops)
    (Hr : o.(DeviceCommandOutbox.by_key) !! k = Some r) (Hs : r.(OutboxRecord.status) = OutboxStatus.Ready) :
  let line := encode_outbox (OutboxRecord_set_status OutboxStatus.Claimed r) +:+ String newline "" in
  ∃ o1 o2 n,
    claim hex_digest o (IoOutcome.Failed (String.length line)) (ticket_of hex_digest r) =
      (o1, Err (StateError.Io OUTBOX_FILE)) ∧
    claim hex_digest o1 IoOutcome.Written (ticket_of hex_digest r) = (o2, Ok r.(OutboxRecord.envelope)) ∧
    DeviceCommandOutbox_open hex_digest o2.(DeviceCommandOutbox.file) = Err (StateError.MalformedRecord OUTBOX_FILE n).
Proof.
  intros line. destruct (outbox_run_on_disk _ _ _ Hrun Hops) as [recs [Df Dl (ids & Hread & _) Da]].
  pose proof (outbox_run_wf _ _ _ Hrun) as Hwf. set (c := OutboxRecord_set_status OutboxStatus.Claimed r) in *.
  set (o1 := DeviceCommandOutbox.mk (o.(DeviceCommandOutbox.file) +:+ line) o.(DeviceCommandOutbox.by_key)).
  exists o1, (with_claim o1 k r). eexists. split_and!.
  - unfold claim. rewrite (find_ticket_unique o k r Hwf Hr), bool_decide_false by (rewrite Hs; tauto). simpl.
    unfold append_and_store, DeviceCommandOutbox_append. fold c line. by rewrite str_take_all.
  - by apply claim_written.
  - assert (admissible c) as Hc by by eapply Da.
    assert ((with_claim o1 k r).(DeviceCommandOutbox.file) = file_content encode_outbox ((recs ++ [c]) ++ [c])) as ->.
    { simpl. fold c line. rewrite Df. unfold line. by rewrite !file_content_snoc. }
    unfold DeviceCommandOutbox_open, read_records.
    rewrite (lines_of_content _ decode_outbox) by (rewrite !Forall_app, !Forall_singleton; split_and!; [done|apply Hc..]).
    rewrite fmap_app. simpl fmap at 2. rewrite try_fold_snoc.
    rewrite (reads_snoc recs _ ids c ids Hread Hc) by by eapply check_history_update; [..|rewrite Hs].
    cbn [rbind]. rewrite read_line_admissible by done. unfold check_outbox_history. rewrite lookup_insert_eq. simpl.
    by rewrite !orb_true_r.
Qed.

(** ** What a restart protects *)

(** The content an unfinished command needs does not include the free-form bodies of question answers: they
    are not among the referenced content that a restart protects from clean-up. *)
Theorem question_answer_bodies_are_unprotected o k r response answer body
    (Hr : o.(DeviceCommandOutbox.by_key) = {[ k := r ]})
    (Hbody : r.(OutboxRecord.envelope).(CommandEnvelope.body) = Command.RespondAttention response)
    (Ha : answer ∈ response.(AttentionResponse.question_answers))
    (Href : answer.(QuestionAnswer.free_form_ref) = Some body)
    (Htop : response.(AttentionResponse.free_form_ref) = None) :
  body.(ContentRef.content_id) ∉ referenced_content_ids o.
Proof.
  unfold referenced_content_ids. rewrite elem_of_list_to_set, list_elem_of_bind.
  intros (x & Hin & [Hx _]%elem_of_filter_b). apply elem_of_btree_values in Hx as [j Hj].
  rewrite Hr in Hj. apply lookup_singleton_Some in Hj as [_ <-].
  rewrite Hbody in Hin. unfold command_content_ids in Hin. rewrite Htop in Hin. by apply elem_of_nil in Hin.
Qed.
End outbox.
