(* ===== verification/JournalReadModels.v ===== *)
(** * The program's read models discharge the interface of the store *)
From stdpp Require Import prelude strings gmap.
From Stdlib Require Import ZArith Lia.
From S2P Require Import Prelude ProtoBase ProtoContent ProtoEffect ProtoProjection CanonState CanonInvariants ReadModelBuild DurableLog ProjectionJournal StoreInterface.

Local Open Scope Z_scope.

Section instance.
Context `{EnvelopeCodec} (hex_digest : string → string).

#[export] Instance journal_read_models : ReadModels := {|
  Journal := ProjectionJournal;
  Payload := ProjectionPayload;
  Envelope := ProjectionEnvelope;
  Checkpoint := gmap ProjectionKey nat;
  rm_affected_keys := affected_keys;
  rm_build := build_projection;
  rm_record := record hex_digest;
  rm_expected := λ j, memory j.(ProjectionJournal.retention_entries);
  rm_reconcile := reconcile hex_digest;
  rm_checkpoint := checkpoint;
  rm_changes_since := changes_since
|}.

(** The same histories, on disk and in memory. *)
Definition same_histories (j m : ProjectionJournal) : Prop :=
  j.(ProjectionJournal.entries) = m.(ProjectionJournal.entries) ∧ m.(ProjectionJournal.root) = false ∧
  journal_wf m.

Definition lagging_histories (j m : ProjectionJournal) : Prop :=
  journal_prefix j m ∧ m.(ProjectionJournal.root) = false ∧ journal_wf m.

Lemma next_envelope_entries j m key payload :
  j.(ProjectionJournal.entries) = m.(ProjectionJournal.entries) →
  next_envelope j key payload = next_envelope m key payload.
Proof. intros E. unfold next_envelope, head_cursor, current. by rewrite E. Qed.

(** A built view can be recorded while there is room for its cursor. *)
Lemma next_envelope_built m s key payload :
  journal_wf m → build_projection s key = Ok payload → Z.of_nat (length (entries_of m key)) ≤ u64_max →
  is_ok (next_envelope m key payload) = true.
Proof.
  intros Hw Hb Hroom. unfold build_projection in Hb. rewrite rbind_ok in Hb. destruct Hb as (p & _ & Hb).
  rewrite rbind_ok_unit in Hb. destruct Hb as [Hv%map_err_ok [= ->]]. unfold next_envelope. rewrite Hv. simpl.
  destruct (is_some_and _ _); [done|]. pose proof (head_cursor_wf m key Hw) as Hh.
  assert (ProjectionKey_validate key = Ok tt) as Hk.
  { unfold ProjectionPayload_validate_for_key in Hv. rewrite rbind_ok_unit in Hv. apply Hv. }
  assert (∃ c, match head_cursor m key with
               | Some previous => contract (Cursor_next previous)
               | None => Ok Cursor_START
               end = Ok c) as [c ->].
  { destruct (head_cursor m key) as [prev|]; [|by eexists].
    exists (Cursor.mk (prev.(Cursor.seq) + 1)). apply map_err_ok, Cursor_next_ok. simpl. lia. }
  simpl. unfold ProjectionEnvelope_validate_for_transport. simpl. rewrite Hk. simpl. by rewrite Hv.
Qed.

(** Recording in memory appends the next envelope. *)
Lemma record_memory m key payload :
  m.(ProjectionJournal.root) = false →
  record hex_digest m IoOutcome.Written key payload =
  match next_envelope m key payload with
  | Ok (Some e) => (push_entry m e, Ok (Some e))
  | Ok None => (m, Ok None)
  | Err e => (m, Err e)
  end.
Proof. intros Hr. unfold record, append_file. rewrite Hr. by destruct (next_envelope m key payload) as [[]|]. Qed.

Lemma prefix_push j m e : journal_prefix j m → journal_prefix j (push_entry m e).
Proof.
  intros Hp key es Hes. destruct (Hp key es Hes) as (es' & He & Hpre). simpl.
  destruct (decide (key = e.(ProjectionEnvelope.key))) as [->|Hne].
  - rewrite lookup_insert_eq. eexists. split; [done|]. unfold entries_of. rewrite He. by apply prefix_app_r.
  - rewrite lookup_insert_ne by done. by exists es'.
Qed.

Lemma prefix_same j m : j.(ProjectionJournal.entries) = m.(ProjectionJournal.entries) → journal_prefix j m.
Proof. intros E key es Hes. exists es. by rewrite <- E. Qed.

Lemma memory_record_ok j m s key payload :
  lagging_histories j m → build_projection s key = Ok payload →
  Z.of_nat (length (entries_of m key)) ≤ u64_max →
  ∃ m' e, record hex_digest m IoOutcome.Written key payload = (m', Ok e) ∧ lagging_histories j m'.
Proof.
  intros (Hp & Hr & Hw) Hb Hroom. pose proof (next_envelope_built m s key payload Hw Hb Hroom) as Hok.
  pose proof (record_wf hex_digest m IoOutcome.Written key payload Hw) as Hw'.
  rewrite record_memory in * by done. destruct (next_envelope m key payload) as [[e|]|]; [..|done].
  - eexists _, _. split; [done|]. split_and!; [by apply prefix_push|done..].
  - by eexists _, _.
Qed.

#[export] Program Instance journal_read_models_laws : ReadModelsLaws := {|
  rm_live := same_histories;
  rm_behind := lagging_histories;
  rm_size := λ j key, length (entries_of j key)
|}.
Next Obligation. apply affected_keys_NoDup. Qed.
Next Obligation. intros j m (He & Hr & Hw). split_and!; [by apply prefix_same|done..]. Qed.
Next Obligation.
  intros j m key Hm. simpl in Hm. unfold memory in Hm. destruct (_ =? 0)%nat; [done|]. injection Hm as <-.
  unfold entries_of. simpl. by rewrite lookup_empty.
Qed.
Next Obligation.
  intros j io key payload. simpl. f_equal. unfold record, append_file.
  destruct (next_envelope j key payload) as [[e|]|]; [|done..].
  destruct (j.(ProjectionJournal.root)); [by destruct io|done].
Qed.
Next Obligation.
  intros j io key payload key'. simpl. unfold record.
  destruct (next_envelope j key payload) as [[e|]|] eqn:E; simpl; [|case_bool_decide; lia..].
  assert (e.(ProjectionEnvelope.key) = key) as Hk by by eapply next_envelope_key.
  destruct (append_file hex_digest j e io) as [j' [[]|err]] eqn:Ea; simpl.
  all: assert (j'.(ProjectionJournal.entries) = j.(ProjectionJournal.entries)) as He
    by (unfold append_file in Ea; destruct (j.(ProjectionJournal.root)); [destruct io|];
        injection Ea; intros; by subst j').
  - unfold push_entry, entries_of. simpl. rewrite Hk, He. case_bool_decide as Hc.
    + subst key'. rewrite lookup_insert_eq. simpl. rewrite length_app. simpl. lia.
    + rewrite lookup_insert_ne by done. lia.
  - unfold entries_of. rewrite He. case_bool_decide; lia.
Qed.
Next Obligation.
  intros j m io s key payload Hj Hio Hb Hroom. simpl in *.
  destruct (memory_record_ok j m s key payload) as (m' & e & Hm & Hl); [|done..|].
  { destruct Hj as (? & ? & ?). split_and!; [by apply prefix_same|done..]. }
  exists m', e. split; [done|]. destruct Hj as (He & Hr & Hw). rewrite record_memory in Hm by done.
  unfold record. rewrite (next_envelope_entries j m) by done.
  destruct (next_envelope m key payload) as [[x|]|] eqn:E; [..|done].
  - injection Hm as <- <-. unfold append_file.
    assert (∀ f, same_histories (push_entry (ProjectionJournal_set_files f j) x) (push_entry m x)) as Hlive.
    { intros f. split_and!; [|done|apply Hl]. unfold push_entry, entries_of. simpl. by rewrite He. }
    destruct (j.(ProjectionJournal.root)) eqn:Ej; simpl.
    + destruct Hio as [-> | ->]; simpl; split; done || apply Hlive.
    + specialize (Hlive j.(ProjectionJournal.files)). by destruct j.
  - injection Hm as <- <-. simpl. by split_and!.
Qed.
Next Obligation. intros. simpl in *. by eapply memory_record_ok. Qed.
Next Obligation.
  intros j m ios (Hp & Hr & Hw) Hio. simpl in *. unfold reconcile.
  destruct (reconcile_ok hex_digest j ios m Hw Hio Hp) as (j' & Hj' & He & _). unfold reconcile in Hj'.
  exists j'. by split_and!.
Qed.
End instance.
