(* ===== verification/CanonStore.v ===== *)
(** * The canonical store

    Models the write path of [crates/kaleido-state/src/store.rs]: validate,
    route to a stream, transition, assign a cursor, append, and the command
    admission with its idempotency table; and the replay loop of [load].

    The read models the store feeds ([projection.rs], [projection_journal.rs])
    are reached through the interface [ReadModels]; SHA-256 ([hex_digest]) and
    the JSON codecs are library code and parameters. *)
From stdpp Require Import prelude strings gmap sorting.
From Stdlib Require Import ZArith Lia Ascii.
From S2P Require Import Prelude ProtoBase ProtoContent ProtoRuntime ProtoTurn ProtoQueue ProtoWorkflow ProtoAttention ProtoCommand ProtoEffect ProtoProjection CanonState CanonInvariants CanonContent DurableLog StoreInterface.

Local Open Scope Z_scope.

#[export] Instance StreamKey_countable : Countable StreamKey.
Proof.
  refine (inj_countable' (λ k, match k with
    | StreamKey.Host i => (0%nat, id_value i)
    | StreamKey.Project i => (1%nat, id_value i)
    | StreamKey.Session i => (2%nat, id_value i)
    | StreamKey.Workflow i => (3%nat, id_value i)
    end) (λ p, match p.1 with
    | 0%nat => StreamKey.Host (mkId p.2)
    | 1%nat => StreamKey.Project (mkId p.2)
    | 2%nat => StreamKey.Session (mkId p.2)
    | _ => StreamKey.Workflow (mkId p.2)
    end) _). by intros [[]|[]|[]|[]].
Defined.

(** One line of the idempotency side table. *)
Definition IDEMPOTENCY_FILE : string := "idempotency.jsonl".
Definition IDEMPOTENCY_FORMAT_VERSION : Z := 2.

Module IdempotencyRecord.
Record IdempotencyRecord : Type := mk {
  format_version : Z;
  key_digest : string;
  command_id : CommandId
}.
End IdempotencyRecord.
Abbreviation IdempotencyRecord := IdempotencyRecord.IdempotencyRecord.

#[export] Instance IdempotencyRecord_eq_dec : EqDecision IdempotencyRecord.
Proof. solve_decision. Defined.

(** [serde_json] on the lines of the side table. *)
Class SideTableCodec := {
  encode_side : IdempotencyRecord → string;
  decode_side : string → option IdempotencyRecord
}.

Section store.
Context `{Codec, ReadModels, SideTableCodec} (hex_digest : string → string).

(** ** Data *)

Record StateCommit : Type := { records : list LogRecord; projections : list Envelope }.

Record CanonicalStore : Type := mkStore {
  store_log : StreamLog;
  store_journal : Journal;
  store_state : CanonicalState;
  store_cursors : gmap StreamKey Cursor;
  store_last_appended_at_ms : Z;
  store_idempotency : gmap string CommandId;
  store_idempotency_file : string;
  store_recovery_required : bool
}.

(** [CanonicalStore::open] on an empty root, with the journal it opened. *)
Definition store_open (journal : Journal) : CanonicalStore :=
  mkStore ∅ journal CanonicalState_default ∅ i64_min ∅ "" false.

(** What the environment contributes to one commit: the clock reading, what
    became of the append to the log, and what became of the appends to the
    journal (complete once the list has run out). *)
Record Tick : Type := mkTick { tick_now_ms : Z; tick_io : IoOutcome; tick_views : list IoOutcome }.

(** ** Committing one effect *)

Definition next_timestamp (st : CanonicalStore) (now : Z) : result Z StateError :=
  if st.(store_last_appended_at_ms) <? now then Ok now
  else ok_or (checked_add_i64 st.(store_last_appended_at_ms) 1) StateError.TimestampOverflow.

(** The stream of the first host, in identifier order. *)
Definition host_stream_of (s : CanonicalState) : result StreamKey StateError :=
  match btree_values s.(CanonicalState.hosts) with
  | host :: _ => Ok (StreamKey.Host host.(Host.id))
  | [] => Err StateError.UnknownHost
  end.

Definition stream_for (s : CanonicalState) (effect : StateEffect) : result StreamKey StateError :=
  match effect with
  | StateEffect.HostUpserted host => Ok (StreamKey.Host host.(Host.id))
  | StateEffect.RuntimeUpserted runtime => Ok (StreamKey.Host runtime.(ProviderRuntime.host_id))
  | StateEffect.SessionUpserted session => Ok (StreamKey.Session session.(Session.id))
  | StateEffect.SessionStatusChanged session_id _ => Ok (StreamKey.Session session_id)
  | StateEffect.TurnUpserted turn => Ok (StreamKey.Session turn.(Turn.session_id))
  | StateEffect.ItemUpserted item => Ok (StreamKey.Session item.(Item.session_id))
  | StateEffect.QueueEntryUpserted entry => Ok (StreamKey.Session entry.(QueueEntry.session_id))
  | StateEffect.QueueReordered session_id _ => Ok (StreamKey.Session session_id)
  | StateEffect.AttentionUpserted item =>
      match item.(AttentionItem.session_id) with
      | Some session_id => Ok (StreamKey.Session session_id)
      | None => host_stream_of s
      end
  | StateEffect.DiagnosticRecorded diagnostic =>
      match diagnostic.(DiagnosticRecord.session_id) with
      | Some session_id => Ok (StreamKey.Session session_id)
      | None => host_stream_of s
      end
  | StateEffect.CapabilitiesUpdated _ | StateEffect.ProjectUpserted _
  | StateEffect.CommandAcknowledged _ => host_stream_of s
  | StateEffect.WorkflowUpserted workflow => Ok (StreamKey.Workflow workflow.(Workflow.id))
  | StateEffect.StepUpserted step => Ok (StreamKey.Workflow step.(Step.workflow_id))
  | StateEffect.ArtifactUpserted artifact => Ok (StreamKey.Workflow artifact.(Artifact.workflow_id))
  end.

(** Build the payload of each affected key, or fail on the first refusal. *)
Fixpoint build_all (s : CanonicalState) (keys : list ProjectionKey)
    : result (list (ProjectionKey * Payload)) StateError :=
  match keys with
  | [] => Ok []
  | key :: rest =>
      let? payload := rm_build s key in
      let? payloads := build_all s rest in
      Ok ((key, payload) :: payloads)
  end.

(** Record the candidates in the journal, stopping at the first error. *)
Fixpoint record_all (journal : Journal) (ios : list IoOutcome) (candidates : list (ProjectionKey * Payload))
    : Journal * result (list Envelope) StateError :=
  match candidates with
  | [] => (journal, Ok [])
  | (key, payload) :: rest =>
      match rm_record journal (default IoOutcome.Written (head ios)) key payload with
      | (journal', Ok envelope) =>
          match record_all journal' (tail ios) rest with
          | (journal'', Ok envelopes) => (journal'', Ok (option_list envelope ++ envelopes))
          | (journal'', Err e) => (journal'', Err e)
          end
      | (journal', Err e) => (journal', Err e)
      end
  end.

(** Everything [apply_trusted_commit] checks and computes before it appends. *)
Record Prepared : Type := mkPrepared {
  prepared_state : CanonicalState;
  prepared_candidates : list (ProjectionKey * Payload);
  prepared_record : LogRecord
}.

Definition next_cursor (st : CanonicalStore) (stream : StreamKey) : result Cursor ContractViolation :=
  match st.(store_cursors) !! stream with
  | Some previous => Cursor_next previous
  | None => Ok Cursor_START
  end.

Definition prepare_commit (st : CanonicalStore) (now : Z) (effect : StateEffect)
    : result Prepared StateError :=
  reject_if st.(store_recovery_required) StateError.RecoveryRequired ;?
  contract (StateEffect_validate_for_log effect) ;?
  let? stream := stream_for st.(store_state) effect in
  let before := st.(store_state) in
  let? next_state := match CanonicalState_apply before effect with
                     | (s', Ok _) => Ok s'
                     | (_, Err e) => Err e
                     end in
  let? candidates := build_all next_state (rm_affected_keys before next_state effect) in
  let? cursor := contract (next_cursor st stream) in
  let? appended_at_ms := next_timestamp st now in
  Ok (mkPrepared next_state candidates (LogRecord.mk cursor stream appended_at_ms effect)).

Definition apply_trusted_commit (st : CanonicalStore) (tick : Tick) (effect : StateEffect)
    : CanonicalStore * result StateCommit StateError :=
  match prepare_commit st tick.(tick_now_ms) effect with
  | Err e => (st, Err e)
  | Ok p =>
      let record := p.(prepared_record) in
      match append st.(store_log) record tick.(tick_io) with
      | (log', Err e) =>
          (mkStore log' st.(store_journal) st.(store_state) st.(store_cursors)
             st.(store_last_appended_at_ms) st.(store_idempotency) st.(store_idempotency_file)
             st.(store_recovery_required), Err e)
      | (log', Ok _) =>
          let '(journal', r) := record_all st.(store_journal) tick.(tick_views) p.(prepared_candidates) in
          (mkStore log' journal' p.(prepared_state)
             (<[record.(LogRecord.stream) := record.(LogRecord.cursor)]> st.(store_cursors))
             record.(LogRecord.appended_at_ms) st.(store_idempotency) st.(store_idempotency_file)
             (match r with Ok _ => st.(store_recovery_required) | Err _ => true end),
           let? envelopes := r in Ok {| records := [record]; projections := envelopes |})
      end
  end.

Definition is_local_acknowledgement (effect : StateEffect) : bool :=
  match effect with
  | StateEffect.CommandAcknowledged ack => is_accepted_locally ack.(CommandAck.outcome)
  | _ => false
  end.

Definition apply_commit (st : CanonicalStore) (tick : Tick) (effect : StateEffect)
    : CanonicalStore * result StateCommit StateError :=
  if is_local_acknowledgement effect then (st, Err StateError.UntrustedLocalAcknowledgement)
  else apply_trusted_commit st tick effect.

(** A batch stops at the first refusal; what was applied stays applied. *)
Fixpoint apply_all (st : CanonicalStore) (effects : list (Tick * StateEffect))
    : CanonicalStore * result (list LogRecord) StateError :=
  match effects with
  | [] => (st, Ok [])
  | (tick, effect) :: rest =>
      match apply_commit st tick effect with
      | (st', Ok commit) =>
          match apply_all st' rest with
          | (st'', Ok more) => (st'', Ok (commit.(records) ++ more))
          | (st'', Err e) => (st'', Err e)
          end
      | (st', Err e) => (st', Err e)
      end
  end.

(** ** Commands *)

Definition canonical_error (code : ErrorCode) (retriable : bool) (at_ms : Z) : CanonicalError :=
  CanonicalError.mk code retriable None at_ms.

Definition reply_rejection_code (entry : AttentionItem) (rejection : ReplyRejection) : ErrorCode :=
  match rejection with
  | ReplyRejection.Expired => ErrorCode.ApprovalExpired
  | ReplyRejection.NotOpen =>
      match entry.(AttentionItem.state) with
      | AttentionState.Answered _ _ _ _ _ => ErrorCode.ApprovalAlreadyAnswered
      | _ => ErrorCode.InvalidCommand
      end
  | ReplyRejection.AttentionMismatch | ReplyRejection.NotReplyable => ErrorCode.NotFound
  | _ => ErrorCode.InvalidCommand
  end.

Definition queue_entry_id (command_id : CommandId) : QueueEntryId :=
  mkId ("que_" +:+ str_take 16 (hex_digest (id_value command_id))).

Definition rejected (code : ErrorCode) (now_ms : Z) : CommandOutcome :=
  CommandOutcome.Rejected (canonical_error code false now_ms).

(** The entry [enqueue] appends at the end of the pending queue. *)
Definition new_queue_entry (s : CanonicalState) (command_id : CommandId) (session_id : SessionId)
    (body : ContentRef) (intent : QueueIntent) (now_ms : Z) : QueueEntry :=
  QueueEntry.mk (queue_entry_id command_id) session_id
    (u32_of_count (length (filter_b entry_pending (queue_of s session_id))))
    intent body QueueState.Pending true now_ms now_ms.

Definition enqueue (st : CanonicalStore) (tick : Tick) (command_id : CommandId) (session_id : SessionId)
    (body : ContentRef) (intent : QueueIntent) (now_ms : Z)
    : CanonicalStore * result CommandOutcome StateError :=
  if is_none (st.(store_state).(CanonicalState.sessions) !! session_id)
  then (st, Ok (rejected ErrorCode.NotFound now_ms))
  else
    let entry := new_queue_entry st.(store_state) command_id session_id body intent now_ms in
    match apply_commit st tick (StateEffect.QueueEntryUpserted entry) with
    | (st', Ok _) => (st', Ok (CommandOutcome.Enqueued entry.(QueueEntry.id)))
    | (st', Err e) => (st', Err e)
    end.

Definition dispatch (st : CanonicalStore) (tick : Tick) (envelope : CommandEnvelope) (now_ms : Z)
    : CanonicalStore * result CommandOutcome StateError :=
  match envelope.(CommandEnvelope.body) with
  | Command.SubmitPrompt session_id _ =>
      (st, Ok (if is_some (st.(store_state).(CanonicalState.sessions) !! session_id)
               then CommandOutcome.AcceptedLocally None else rejected ErrorCode.NotFound now_ms))
  | Command.RespondAttention response =>
      (st, Ok match st.(store_state).(CanonicalState.attention) !! response.(AttentionResponse.attention_id) with
              | None => rejected ErrorCode.NotFound now_ms
              | Some entry =>
                  match AttentionItem_check_reply entry response now_ms with
                  | Ok _ => CommandOutcome.AcceptedLocally None
                  | Err rejection => rejected (reply_rejection_code entry rejection) now_ms
                  end
              end)
  | Command.EnqueueInput session_id body intent =>
      enqueue st tick envelope.(CommandEnvelope.command_id) session_id body intent now_ms
  | _ => (st, Ok (CommandOutcome.AcceptedLocally None))
  end.

(** The admission decision for an authenticated device, without recording it;
    [unfinished] is the outbox's answer to whether a reply to that attention is
    still in flight. *)
Definition preview_outcome (s : CanonicalState) (unfinished : AttentionId → bool) (envelope : CommandEnvelope)
    (now_ms : Z) : CommandOutcome * bool :=
  if CommandEnvelope_expired_at envelope now_ms then (rejected ErrorCode.CommandExpired now_ms, false)
  else match envelope.(CommandEnvelope.body) with
       | Command.SubmitPrompt session_id _ =>
           if is_some (s.(CanonicalState.sessions) !! session_id)
           then (CommandOutcome.AcceptedLocally None, true) else (rejected ErrorCode.NotFound now_ms, false)
       | Command.RespondAttention response =>
           if unfinished response.(AttentionResponse.attention_id)
           then (rejected ErrorCode.ApprovalAlreadyAnswered now_ms, false)
           else match s.(CanonicalState.attention) !! response.(AttentionResponse.attention_id) with
                | None => (rejected ErrorCode.NotFound now_ms, false)
                | Some entry =>
                    match AttentionItem_check_reply entry response now_ms with
                    | Ok _ => (CommandOutcome.AcceptedLocally None, true)
                    | Err rejection => (rejected (reply_rejection_code entry rejection) now_ms, false)
                    end
                end
       | Command.InterruptTurn session_id _ =>
           if is_some (s.(CanonicalState.sessions) !! session_id)
           then (CommandOutcome.AcceptedLocally None, true) else (rejected ErrorCode.NotFound now_ms, false)
       | Command.ResumeSession session_id =>
           match s.(CanonicalState.sessions) !! session_id with
           | None => (rejected ErrorCode.NotFound now_ms, false)
           | Some session =>
               if is_some_and (runtime_of s session) (λ runtime,
                    RuntimeCapabilities_permits runtime.(ProviderRuntime.capabilities) Capability.HistoryResume)
               then (CommandOutcome.AcceptedLocally None, true)
               else (rejected ErrorCode.CapabilityUnavailable now_ms, false)
           end
       | Command.EnqueueInput session_id _ _ =>
           if is_some (s.(CanonicalState.sessions) !! session_id)
           then (CommandOutcome.Enqueued (queue_entry_id envelope.(CommandEnvelope.command_id)), false)
           else (rejected ErrorCode.NotFound now_ms, false)
       | _ => (rejected ErrorCode.InvalidCommand now_ms, false)
       end.

Definition preview_device_admission (s : CanonicalState) (unfinished : AttentionId → bool)
    (envelope : CommandEnvelope) (now_ms : Z) : CommandAck * bool :=
  let '(outcome, dispatch) := preview_outcome s unfinished envelope now_ms in
  (CommandAck.mk envelope.(CommandEnvelope.command_id) outcome now_ms, dispatch).

Definition device_route_uses_submit (command : Command) : bool :=
  match command with
  | Command.SubmitPrompt _ _ | Command.RespondAttention _ | Command.EnqueueInput _ _ _ => true
  | _ => false
  end.

(** The in-memory table is updated before the durable side table is written. *)
Definition record_idempotency (st : CanonicalStore) (io : IoOutcome) (key : string) (command_id : CommandId)
    : CanonicalStore * result unit StateError :=
  let line := encode_side (IdempotencyRecord.mk IDEMPOTENCY_FORMAT_VERSION key command_id)
              +:+ String newline "" in
  let content := st.(store_idempotency_file) in
  (mkStore st.(store_log) st.(store_journal) st.(store_state) st.(store_cursors)
     st.(store_last_appended_at_ms) (<[key := command_id]> st.(store_idempotency))
     match io with
     | IoOutcome.Written => content +:+ line
     | IoOutcome.Failed bytes => content +:+ str_take bytes line
     | IoOutcome.NotOpened => content
     end st.(store_recovery_required),
   match io with
   | IoOutcome.Written => Ok tt
   | _ => Err (StateError.Io IDEMPOTENCY_FILE)
   end).

(** The checks of one line of the side table. *)
Definition side_record_valid (record : IdempotencyRecord) : bool :=
  bool_decide (record.(IdempotencyRecord.format_version) = IDEMPOTENCY_FORMAT_VERSION)
  && (String.length record.(IdempotencyRecord.key_digest) =? 64)%nat
  && forallb lower_hex_byte (bytes_of record.(IdempotencyRecord.key_digest))
  && negb (id_is_empty record.(IdempotencyRecord.command_id)).

(** The loop of [read_idempotency], from line number [index]. *)
Fixpoint read_side_lines (index : Z) (table : gmap string CommandId) (lines : list string)
    : result (gmap string CommandId) StateError :=
  match lines with
  | [] => Ok table
  | line :: rest =>
      if is_blank line then read_side_lines (index + 1) table rest
      else
        let malformed := StateError.MalformedRecord IDEMPOTENCY_FILE (index + 1) in
        let? record := ok_or (decode_side line) malformed in
        reject_if (negb (side_record_valid record)) malformed ;?
        reject_if (is_some_and (table !! record.(IdempotencyRecord.key_digest))
                     (λ existing, bool_decide (existing ≠ record.(IdempotencyRecord.command_id)))) malformed ;?
        read_side_lines (index + 1)
          (<[record.(IdempotencyRecord.key_digest) := record.(IdempotencyRecord.command_id)]> table) rest
  end.

(** A missing file and an empty one read the same. *)
Definition read_idempotency (content : string) : result (gmap string CommandId) StateError :=
  read_side_lines 0 ∅ (lines_of content).

(** The environment of one submission: the tick of the queue commit, the tick
    of the acknowledgement, and what became of the write to the side table. *)
Record SubmitEnv : Type := mkSubmitEnv { env_queue : Tick; env_ack : Tick; env_side_table : IoOutcome }.

Definition dedupe_digest (envelope : CommandEnvelope) : string :=
  hex_digest (CommandEnvelope_dedupe_key envelope).

Definition submit_command (st : CanonicalStore) (env : SubmitEnv) (envelope : CommandEnvelope) (now_ms : Z)
    : CanonicalStore * result CommandAck StateError :=
  match contract (CommandEnvelope_validate envelope) with
  | Err e => (st, Err e)
  | Ok _ =>
      let key := dedupe_digest envelope in
      match st.(store_idempotency) !! key with
      | Some original_command_id =>
          (st, Ok (CommandAck.mk envelope.(CommandEnvelope.command_id)
                     (CommandOutcome.Duplicate original_command_id) now_ms))
      | None =>
          let '(st1, outcome) :=
            if CommandEnvelope_expired_at envelope now_ms
            then (st, Ok (rejected ErrorCode.CommandExpired now_ms))
            else dispatch st env.(env_queue) envelope now_ms in
          match outcome with
          | Err e => (st1, Err e)
          | Ok outcome =>
              let ack := CommandAck.mk envelope.(CommandEnvelope.command_id) outcome now_ms in
              match apply_trusted_commit st1 env.(env_ack) (StateEffect.CommandAcknowledged ack) with
              | (st2, Err e) => (st2, Err e)
              | (st2, Ok _) =>
                  match record_idempotency st2 env.(env_side_table) key envelope.(CommandEnvelope.command_id) with
                  | (st3, Err e) => (st3, Err e)
                  | (st3, Ok _) => (st3, Ok ack)
                  end
              end
          end
      end
  end.

(** ** Replay *)

(** The accumulators of the replay loop of [load]. *)
Record Replayed : Type := mkReplayed {
  replayed_state : CanonicalState;
  replayed_cursors : gmap StreamKey Cursor;
  replayed_last : Z;
  replayed_expected : Journal
}.

(** Rebuild and record the views of some keys in the expected journal. *)
Fixpoint replay_views (s : CanonicalState) (expected : Journal) (keys : list ProjectionKey)
    : result Journal StateError :=
  match keys with
  | [] => Ok expected
  | key :: rest =>
      let? payload := rm_build s key in
      match rm_record expected IoOutcome.Written key payload with
      | (expected', Ok _) => replay_views s expected' rest
      | (_, Err e) => Err e
      end
  end.

Definition replay_record (r : Replayed) (record : LogRecord) : result Replayed StateError :=
  match CanonicalState_apply r.(replayed_state) record.(LogRecord.effect) with
  | (s', Ok _) =>
      let? expected := replay_views s' r.(replayed_expected)
        (rm_affected_keys r.(replayed_state) s' record.(LogRecord.effect)) in
      Ok (mkReplayed s' (<[record.(LogRecord.stream) := record.(LogRecord.cursor)]> r.(replayed_cursors))
            (Z.max r.(replayed_last) record.(LogRecord.appended_at_ms)) expected)
  | (_, Err e) => Err e
  end.

Definition replay_all (expected : Journal) (records : list LogRecord) : result Replayed StateError :=
  try_fold replay_record (mkReplayed CanonicalState_default ∅ i64_min expected) records.

(** [CanonicalStore::load] up to the recovery of device admissions and the
    clean-up of content: [journal] is the journal as it was opened, [side] the
    content of the side table, and [ios] the outcomes of the appends with which
    the journal is repaired. *)
Definition load_replayed (log : StreamLog) (journal : Journal) (side : string) (ios : list IoOutcome)
    : result CanonicalStore StateError :=
  let? records := read_all log in
  let? expected := rm_expected journal in
  let? r := replay_all expected records in
  let? journal := match rm_reconcile journal ios r.(replayed_expected) with
                  | (journal', Ok _) => Ok journal'
                  | (_, Err e) => Err e
                  end in
  let? table := read_idempotency side in
  Ok (mkStore log journal r.(replayed_state) r.(replayed_cursors) r.(replayed_last) table side false).

End store.

(** ** Device envelopes *)

(** The absolute expiry a device request asks for, at its receive time. *)
Definition expected_expiry (request : DeviceCommandRequest) (now_ms : Z) : result (option Z) StateError :=
  match request.(DeviceCommandRequest.ttl_ms) with
  | Some ttl_ms =>
      let? expiry := ok_or (if ttl_ms <=? i64_max then checked_add_i64 now_ms ttl_ms else None)
        (StateError.DeviceCommandMismatch "ttl cannot be represented as an absolute expiry") in
      Ok (Some expiry)
  | None => Ok None
  end.

Definition validate_device_envelope (authenticated_device : DeviceId) (envelope : CommandEnvelope)
    (request : DeviceCommandRequest) (now_ms : Z) : result unit StateError :=
  reject_if (match envelope.(CommandEnvelope.actor) with
             | Actor.Human device_id => negb (bool_decide (device_id = authenticated_device))
             | _ => true
             end) (StateError.DeviceCommandMismatch "actor is not the authenticated device") ;?
  reject_if (bool_decide (envelope.(CommandEnvelope.idempotency_key)
                          ≠ request.(DeviceCommandRequest.idempotency_key)))
    (StateError.DeviceCommandMismatch "idempotency key differs from the authenticated request") ;?
  reject_if (bool_decide (envelope.(CommandEnvelope.body) ≠ request.(DeviceCommandRequest.body)))
    (StateError.DeviceCommandMismatch "command body differs from the authenticated request") ;?
  reject_if (bool_decide (envelope.(CommandEnvelope.issued_at_ms) ≠ now_ms))
    (StateError.DeviceCommandMismatch "issued timestamp was not injected from host receive time") ;?
  let? expected := expected_expiry request now_ms in
  reject_if (bool_decide (envelope.(CommandEnvelope.expires_at_ms) ≠ expected))
    (StateError.DeviceCommandMismatch "absolute expiry does not match the request ttl").
