(* ===== verification/AdapterIdentity.v ===== *)
(** * Minted identifiers

    Models [crates/kaleido-adapter/src/identity.rs]: canonical identifiers derived
    from a salt, a name space and a seed.  [hex_digest] is SHA-256 in lower-case
    hexadecimal, of which the first eight bytes are kept. *)
From stdpp Require Import prelude strings.
From Stdlib Require Import ZArith Lia Ascii.
From S2P Require Import Prelude ProtoBase ProtoContent DurableLog.

Local Open Scope Z_scope.

Definition TOKEN_LENGTH : nat := 16.

Module IdentityMint.
Record IdentityMint : Type := mk {
  salt : string
}.
End IdentityMint.
Abbreviation IdentityMint := IdentityMint.IdentityMint.

#[export] Instance IdentityMint_eq_dec : EqDecision IdentityMint.
Proof. solve_decision. Defined.

Section mint.
Variable hex_digest : string → string.

Definition nul : string := String (ascii_of_nat 0) "".

Definition token (mint : IdentityMint) (namespace seed : string) : string :=
  str_take TOKEN_LENGTH (hex_digest (mint.(IdentityMint.salt) +:+ nul +:+ namespace +:+ nul +:+ seed)).

Definition identifier (mint : IdentityMint) (prefix namespace seed : string) : string :=
  prefix +:+ "_" +:+ token mint namespace seed.

Definition mint_host_id (mint : IdentityMint) (seed : string) : HostId := mkId (identifier mint "hst" "host" seed).
Definition mint_runtime_id (mint : IdentityMint) (seed : string) : ProviderRuntimeId := mkId (identifier mint "rtm" "runtime" seed).
Definition mint_project_id (mint : IdentityMint) (seed : string) : ProjectId := mkId (identifier mint "prj" "project" seed).
Definition mint_project_binding_id (mint : IdentityMint) (seed : string) : ProjectBindingId :=
  mkId (identifier mint "pbd" "project-binding" seed).
Definition mint_session_id (mint : IdentityMint) (seed : string) : SessionId := mkId (identifier mint "ses" "session" seed).
Definition mint_turn_id (mint : IdentityMint) (seed : string) : TurnId := mkId (identifier mint "trn" "turn" seed).
Definition mint_item_id (mint : IdentityMint) (seed : string) : ItemId := mkId (identifier mint "itm" "item" seed).
Definition mint_attention_id (mint : IdentityMint) (seed : string) : AttentionId := mkId (identifier mint "atn" "attention" seed).
Definition mint_queue_entry_id (mint : IdentityMint) (seed : string) : QueueEntryId := mkId (identifier mint "que" "queue-entry" seed).
Definition mint_command_id (mint : IdentityMint) (seed : string) : CommandId := mkId (identifier mint "cmd" "command" seed).
Definition mint_content_id (mint : IdentityMint) (seed : string) : ContentId := mkId (identifier mint "cnt" "content" seed).
Definition request_key (mint : IdentityMint) (seed : string) : string := identifier mint "req" "request-key" seed.

Definition binding_namespace (kind : ProviderBindingKind) : string :=
  match kind with
  | ProviderBindingKind.Session => "binding-session"
  | ProviderBindingKind.Turn => "binding-turn"
  | ProviderBindingKind.Item => "binding-item"
  | ProviderBindingKind.InteractionRequest => "binding-interaction"
  | ProviderBindingKind.RuntimeAcknowledgement => "binding-acknowledgement"
  end.

Definition binding_handle (mint : IdentityMint) (runtime_id : ProviderRuntimeId) (kind : ProviderBindingKind) (seed : string) :
    ProviderBindingHandle :=
  ProviderBindingHandle.mk (mkId (identifier mint "bnd" (binding_namespace kind) seed)) runtime_id kind.
End mint.

(** ** Minted handles satisfy the contract *)

(** What SHA-256 in hexadecimal looks like. *)
Definition hexadecimal (hex_digest : string → string) : Prop :=
  ∀ s, String.length (hex_digest s) = 64%nat ∧ forallb lower_hex_byte (bytes_of (hex_digest s)) = true.

Lemma str_take_bytes n s : bytes_of (str_take n s) = take n (bytes_of s).
Proof. revert s. induction n as [|n IH]; intros [|c s]; simpl; try done. by rewrite IH. Qed.

Lemma str_take_length n s : String.length (str_take n s) = Nat.min n (String.length s).
Proof. revert s. induction n as [|n IH]; intros [|c s]; simpl; try done. by rewrite IH. Qed.

Lemma token_shape hex_digest mint namespace seed :
  hexadecimal hex_digest →
  String.length (token hex_digest mint namespace seed) = TOKEN_LENGTH ∧
  ∀ c, c ∈ bytes_of (token hex_digest mint namespace seed) → lower_hex_byte c = true.
Proof.
  intros Hhex. unfold token. destruct (Hhex (mint.(IdentityMint.salt) +:+ nul +:+ namespace +:+ nul +:+ seed)) as [Hl Ha].
  rewrite str_take_length, Hl, str_take_bytes. split; [done|]. intros c Hc. rewrite forallb_elem in Ha. apply Ha.
  rewrite <-(take_drop TOKEN_LENGTH (bytes_of (hex_digest _))). apply elem_of_app. by left.
Qed.

Lemma hex_is_binding_byte c : lower_hex_byte c = true → binding_id_byte c = true.
Proof. by destruct c as [[] [] [] [] [] [] [] []]. Qed.

(** C35: Every handle that the mint makes for a provider-private identifier of a runtime with a non-
    empty identifier is well formed and of the kind it was asked for, whatever the seed, so it
    passes the check that keeps raw provider identifiers out of the canonical state. The digest must
    be written in 64 hexadecimal digits. *)
Theorem minted_handles_are_valid hex_digest mint runtime_id kind seed
    (Hhex : hexadecimal hex_digest) (Hruntime : id_is_empty runtime_id = false) :
  ProviderBindingHandle_validate_for (binding_handle hex_digest mint runtime_id kind seed) kind = Ok tt.
Proof.
  destruct (token_shape hex_digest mint (binding_namespace kind) seed Hhex) as [Hl Hc].
  apply ProviderBindingHandle_validate_for_ok. split; [|done]. split; [|by apply id_is_empty_false].
  exists (token hex_digest mint (binding_namespace kind) seed). split_and!; [done|rewrite Hl; unfold TOKEN_LENGTH; lia|].
  intros c Hin. by apply hex_is_binding_byte, Hc.
Qed.
