(* ===== verification/StoreProofs.v ===== *)
(** * What the store guarantees

    The history a store has written and what it keeps to, what refusals and
    failures leave, that command submission is idempotent, and that local
    acceptance has one provenance. *)
From stdpp Require Import prelude strings gmap sorting.
From Stdlib Require Import ZArith Lia Ascii.
From S2P Require Import Prelude ProtoBase ProtoContent ProtoRuntime ProtoTurn ProtoQueue ProtoWorkflow ProtoAttention ProtoCommand ProtoEffect ProtoProjection CanonState CanonInvariants CanonContent DurableLog StoreInterface CanonStore.

Local Open Scope Z_scope.

Section proofs.
Context `{Codec, ReadModels, SideTableCodec} (hex_digest : string → string).

(** ** One commit *)

Lemma checked_add_i64_some a b c : checked_add_i64 a b = Some c → c = a + b ∧ i64_min ≤ c ≤ i64_max.
Proof. unfold checked_add_i64. destruct (_ && _) eqn:E; [|done]. simpl_ok. intros [= <-]. lia. Qed.

Lemma next_timestamp_increases st now t :
  next_timestamp st now = Ok t → st.(store_last_appended_at_ms) < t.
Proof.
  unfold next_timestamp. destruct (Z.ltb_spec st.(store_last_appended_at_ms) now); [by intros [= <-]|].
  rewrite ok_or_ok. intros [-> _]%checked_add_i64_some. lia.
Qed.

Lemma prepare_commit_ok st now effect p :
  prepare_commit st now effect = Ok p →
  st.(store_recovery_required) = false ∧ StateEffect_validate_for_log effect = Ok tt ∧
  CanonicalState_apply st.(store_state) effect = (p.(prepared_state), Ok tt) ∧
  ∃ stream cursor at_ms,
    p.(prepared_record) = LogRecord.mk cursor stream at_ms effect ∧
    stream_for st.(store_state) effect = Ok stream ∧
    next_cursor st stream = Ok cursor ∧ next_timestamp st now = Ok at_ms.
Proof.
  unfold prepare_commit. rewrite !rbind_ok_unit, reject_if_ok, map_err_ok, rbind_ok.
  intros (Hr & Hv & stream & Hs & Hp). rewrite rbind_ok in Hp. destruct Hp as (s' & Ha & Hp).
  rewrite rbind_ok in Hp. destruct Hp as (cands & _ & Hp).
  rewrite rbind_ok in Hp. destruct Hp as (cursor & Hc%map_err_ok & Hp).
  rewrite rbind_ok in Hp. destruct Hp as (at_ms & Ht & [= <-]). split_and!; try done; simpl.
  - destruct (CanonicalState_apply _ _) as [s2 [[]|]]; [by injection Ha as ->|done].
  - by exists stream, cursor, at_ms.
Qed.

(** A commit whose record was appended: the store has moved, whatever became of
    the read models. *)
Lemma commit_written st now ios effect p :
  prepare_commit st now effect = Ok p →
  let st' := (apply_trusted_commit st (mkTick now IoOutcome.Written ios) effect).1 in
  let views := record_all st.(store_journal) ios p.(prepared_candidates) in
  st'.(store_log) = append_written st.(store_log) p.(prepared_record) ∧
  st'.(store_state) = p.(prepared_state) ∧
  st'.(store_cursors) =
    <[p.(prepared_record).(LogRecord.stream) := p.(prepared_record).(LogRecord.cursor)]> st.(store_cursors) ∧
  st'.(store_last_appended_at_ms) = p.(prepared_record).(LogRecord.appended_at_ms) ∧
  st'.(store_journal) = views.1 ∧ st'.(store_idempotency) = st.(store_idempotency) ∧
  st'.(store_idempotency_file) = st.(store_idempotency_file) ∧
  st'.(store_recovery_required) = negb (is_ok views.2).
Proof.
  intros Hp. apply prepare_commit_ok in Hp as Hok. destruct Hok as (Hr & _).
  unfold apply_trusted_commit. simpl tick_now_ms. rewrite Hp. simpl tick_io. unfold append_written, append.
  simpl tick_views. destruct (record_all st.(store_journal) ios p.(prepared_candidates)) as [j []]; simpl;
    by rewrite ?Hr.
Qed.

(** A commit that reports success was appended. *)
Lemma apply_trusted_commit_ok st tick effect st' c :
  apply_trusted_commit st tick effect = (st', Ok c) →
  ∃ p, prepare_commit st tick.(tick_now_ms) effect = Ok p ∧
    tick = mkTick tick.(tick_now_ms) IoOutcome.Written tick.(tick_views) ∧ c.(records) = [p.(prepared_record)].
Proof.
  destruct tick as [now io ios]. unfold apply_trusted_commit. simpl tick_now_ms. simpl tick_io. simpl tick_views.
  destruct (prepare_commit st now effect) as [p|]; [|done]. unfold append. destruct io; [|done..].
  destruct (record_all st.(store_journal) ios p.(prepared_candidates)) as [j [envs|]]; [|done].
  intros [= <- <-]. by exists p.
Qed.

(** ** The history a store has written *)

(** The record a commit adds to the log when the disk takes it: none when the
    commit is refused. *)
Definition written_by (st : CanonicalStore) (now : Z) (effect : StateEffect) : list LogRecord :=
  match prepare_commit st now effect with
  | Ok p => [p.(prepared_record)]
  | Err _ => []
  end.

(** Stores reached from a fresh one by commits whose appends to the log did not
    fail (accepted, refused, or cut short by a read model whose file did not
    open) and by new entries of the side table. *)
Inductive committed (journal : Journal) : CanonicalStore → list LogRecord → Prop :=
| committed_open : committed journal (store_open journal) []
| committed_commit st h now ios effect :
    committed journal st h → Forall clean_io ios →
    committed journal (apply_trusted_commit st (mkTick now IoOutcome.Written ios) effect).1
      (h ++ written_by st now effect)
| committed_key st h key command_id :
    committed journal st h → st.(store_idempotency) !! key = None →
    let record := IdempotencyRecord.mk IDEMPOTENCY_FORMAT_VERSION key command_id in
    side_record_valid record = true → line_codec encode_side decode_side record →
    committed journal (record_idempotency st IoOutcome.Written key command_id).1 h.

Definition of_stream (stream : StreamKey) (h : list LogRecord) : list LogRecord :=
  filter_b (λ r, bool_decide (r.(LogRecord.stream) = stream)) h.

(** The cursor a store holds for a stream is the last one it wrote there. *)
Definition cursors_match (cursors : gmap StreamKey Cursor) (h : list LogRecord) : Prop :=
  ∀ stream, match cursors !! stream with
            | None => of_stream stream h = []
            | Some c => c.(Cursor.seq) + 1 = Z.of_nat (length (of_stream stream h)) ∧ c.(Cursor.seq) ≤ u64_max
            end.

Record store_inv (st : CanonicalStore) (h : list LogRecord) : Prop := {
  inv_log : st.(store_log) = log_of h;
  inv_times : times_increase h;
  inv_last : ∀ r, r ∈ h → r.(LogRecord.appended_at_ms) ≤ st.(store_last_appended_at_ms);
  inv_cursors : cursors_match st.(store_cursors) h;
  inv_runs : ∀ stream, run_from stream 0 (of_stream stream h);
  inv_range : cursors_in_range h;
  inv_logged : logged st.(store_state)
}.

Lemma times_increase_snoc h r :
  times_increase h → (∀ x, x ∈ h → x.(LogRecord.appended_at_ms) < r.(LogRecord.appended_at_ms)) →
  times_increase (h ++ [r]).
Proof.
  unfold times_increase. induction 1 as [|x l Hs IH Hx]; intros Hr; simpl; [by repeat constructor|].
  constructor; [apply IH; intros y Hy; apply Hr; by right|]. apply Forall_app. split; [done|].
  constructor; [apply Hr; left|constructor].
Qed.

Lemma run_from_snoc stream from l r :
  run_from stream from l → r.(LogRecord.stream) = stream →
  r.(LogRecord.cursor).(Cursor.seq) = from + Z.of_nat (length l) → run_from stream from (l ++ [r]).
Proof. intros Hl Hs Hc i x [[Hi Hx]|[-> <-]]%lookup_snoc_Some; [by apply Hl|done]. Qed.

Lemma of_stream_snoc stream h r :
  of_stream stream (h ++ [r]) =
  if bool_decide (r.(LogRecord.stream) = stream) then of_stream stream h ++ [r] else of_stream stream h.
Proof.
  unfold of_stream. rewrite filter_b_app. simpl. case_bool_decide; [done|]. by rewrite app_nil_r.
Qed.

(** The cursor of a new record continues its stream. *)
Lemma next_cursor_seq st h stream c :
  cursors_match st.(store_cursors) h → next_cursor st stream = Ok c →
  c.(Cursor.seq) = Z.of_nat (length (of_stream stream h)) ∧ in_u64 c.(Cursor.seq).
Proof.
  intros Hm. specialize (Hm stream). unfold next_cursor.
  destruct (st.(store_cursors) !! stream) as [prev|].
  - destruct Hm as [Hlen _]. rewrite Cursor_next_ok. intros [-> Hmax]. unfold in_u64. lia.
  - intros [= <-]. rewrite Hm. simpl. unfold in_u64, u64_max. lia.
Qed.

(** Appending the record of a prepared commit keeps the invariant. *)
Lemma store_inv_step st h now ios effect p :
  store_inv st h → prepare_commit st now effect = Ok p →
  store_inv (apply_trusted_commit st (mkTick now IoOutcome.Written ios) effect).1 (h ++ [p.(prepared_record)]).
Proof.
  intros [Il It Ila Ic Iru Ira Ilg] Hp.
  destruct (commit_written _ _ ios _ _ Hp) as (Hlog & Hstate & Hcur & Hlast & _).
  apply prepare_commit_ok in Hp as (_ & Hv & Happ & stream & cursor & at_ms & Hrec & _ & Hnext & Htime).
  apply next_timestamp_increases in Htime.
  destruct (next_cursor_seq st h stream cursor Ic Hnext) as [Hseq Hu64]. rewrite Hrec in *. simpl in *.
  split.
  - by rewrite Hlog, Il, log_of_snoc.
  - apply times_increase_snoc; [done|]. intros x Hx. specialize (Ila x Hx). simpl. lia.
  - rewrite Hlast. intros r [Hr| ->%list_elem_of_singleton]%elem_of_app; [|simpl; lia]. specialize (Ila r Hr). lia.
  - rewrite Hcur. intros stream'. rewrite of_stream_snoc. simpl. destruct (decide (stream = stream')) as [<-|Hne].
    + rewrite lookup_insert_eq, bool_decide_true, length_app by done. simpl. destruct Hu64. lia.
    + rewrite lookup_insert_ne, bool_decide_false by done. apply Ic.
  - intros stream'. rewrite of_stream_snoc. simpl. case_bool_decide as E; [|apply Iru].
    apply run_from_snoc; [apply Iru|done|]. simpl. rewrite Hseq, E. lia.
  - intros r [Hr| ->%list_elem_of_singleton]%elem_of_app; [by apply Ira|done].
  - rewrite Hstate. by eapply logged_step.
Qed.

(** A refused commit changes nothing. *)
Lemma commit_refused st tick effect e :
  prepare_commit st tick.(tick_now_ms) effect = Err e → apply_trusted_commit st tick effect = (st, Err e).
Proof. intros Hp. unfold apply_trusted_commit. by rewrite Hp. Qed.

Lemma committed_inv journal st h : committed journal st h → store_inv st h.
Proof.
  induction 1 as [|st h now ios effect Hc IH Hio|st h k cid Hc IH Hnew record Hv Hl].
  - split; try done; [constructor|by intros r ?%elem_of_nil|by intros r ?%elem_of_nil|constructor].
  - unfold written_by. destruct (prepare_commit st now effect) as [p|e] eqn:Hp; [by apply store_inv_step|].
    rewrite app_nil_r. by rewrite (commit_refused st (mkTick now IoOutcome.Written ios) effect e Hp).
  - destruct IH. by split.
Qed.

(** A successful commit writes one record with a validated effect, the next cursor of its stream (the number
    of records the stream already has) and a timestamp later than every earlier one, and remembers that
    cursor. *)
Theorem commits_extend_their_stream journal st h tick effect st' c r (Hc : committed journal st h)
    (Ha : apply_trusted_commit st tick effect = (st', Ok c)) (Hr : c.(records) = [r]) :
  StateEffect_validate_for_log effect = Ok tt ∧ r.(LogRecord.effect) = effect ∧
  r.(LogRecord.cursor).(Cursor.seq) = Z.of_nat (length (of_stream r.(LogRecord.stream) h)) ∧
  (∀ x, x ∈ h → x.(LogRecord.appended_at_ms) < r.(LogRecord.appended_at_ms)) ∧
  st'.(store_cursors) !! r.(LogRecord.stream) = Some r.(LogRecord.cursor).
Proof.
  destruct (committed_inv journal st h Hc) as [_ _ Ila Ic _ _ _].
  apply apply_trusted_commit_ok in Ha as Hok. destruct Hok as (p & Hp & Et & Hrec).
  rewrite Hr in Hrec. injection Hrec as ->. destruct (commit_written _ _ tick.(tick_views) _ _ Hp) as (_ & _ & Hcur & _).
  rewrite <-Et, Ha in Hcur. simpl in Hcur.
  apply prepare_commit_ok in Hp as (_ & Hv & _ & stream & cursor & at_ms & Hrec & _ & Hnext & Htime).
  apply next_timestamp_increases in Htime. rewrite Hcur, Hrec in *. simpl.
  destruct (next_cursor_seq st h stream cursor Ic Hnext) as [Hseq _]. split_and!; try done.
  - intros x Hx. specialize (Ila x Hx). lia.
  - by rewrite lookup_insert_eq.
Qed.

(** ** Failed commits *)

Definition with_log (st : CanonicalStore) (log : StreamLog) : CanonicalStore :=
  mkStore log st.(store_journal) st.(store_state) st.(store_cursors) st.(store_last_appended_at_ms)
    st.(store_idempotency) st.(store_idempotency_file) st.(store_recovery_required).

(** A commit that reports an error left the store as it was; or only the file of its stream grew, by a prefix
    of the line; or the record is durable and the state advanced but a read model failed, and then every later
    commit is refused with RecoveryRequired. *)
Theorem failed_commit_is_contained st tick effect st' e
    (Ha : apply_trusted_commit st tick effect = (st', Err e)) :
  (* refused, or the file did not open: nothing changed *)
  st' = st ∨
  (* the append failed: only the log file may have grown, by a prefix of the line *)
  (∃ p bytes, prepare_commit st tick.(tick_now_ms) effect = Ok p ∧ tick.(tick_io) = IoOutcome.Failed bytes ∧
     let path := stream_file_name p.(prepared_record).(LogRecord.stream) in
     st' = with_log st (<[path := default "" (st.(store_log) !! path) +:+
       str_take bytes (encode p.(prepared_record) +:+ String newline "")]> st.(store_log)) ∧
     e = StateError.Io path) ∨
  (* the record is durable but a read model is not: every later commit is refused *)
  (∃ p, prepare_commit st tick.(tick_now_ms) effect = Ok p ∧
     st'.(store_log) = append_written st.(store_log) p.(prepared_record) ∧
     st'.(store_state) = p.(prepared_state) ∧
     ∀ tick' effect', apply_trusted_commit st' tick' effect' = (st', Err StateError.RecoveryRequired)).
Proof.
  unfold apply_trusted_commit in Ha. destruct (prepare_commit st _ effect) as [p|] eqn:Ep;
    [|left; by injection Ha]. unfold append in Ha. destruct (tick.(tick_io)) as [|bytes|] eqn:Eio.
  - destruct (record_all st.(store_journal) tick.(tick_views) p.(prepared_candidates)) as [j [envs|e']]; [done|].
    injection Ha as <- <-. right. right. by exists p.
  - right. left. exists p, bytes. by injection Ha as <- <-.
  - left. injection Ha as <- _. by destruct st.
Qed.

(** ** Provenance of local acceptance *)

Definition local_acks (s : CanonicalState) : list CommandAck :=
  filter_b (λ a, is_accepted_locally a.(CommandAck.outcome)) s.(CanonicalState.acks).

Lemma apply_local_acks s effect s' :
  is_local_acknowledgement effect = false → CanonicalState_apply s effect = (s', Ok tt) →
  local_acks s' = local_acks s.
Proof.
  intros Hl (s1 & Ha & ->)%apply_ok. unfold local_acks.
  destruct (recompute_derived_frame s1) as (ms & mp & ->). simpl.
  destruct (apply_change_acks _ _ _ Ha) as [->|(ack & -> & Hack)]; [done|].
  apply apply_ack_ok in Hack as [-> _]. simpl in Hl |- *. rewrite filter_b_app. simpl.
  by rewrite Hl, app_nil_r.
Qed.

(** Whatever the outcome of a commit, its state is the old one or the one the
    effect leads to. *)
Lemma commit_state_cases st tick effect st' r :
  apply_trusted_commit st tick effect = (st', r) →
  st'.(store_state) = st.(store_state) ∨
  CanonicalState_apply st.(store_state) effect = (st'.(store_state), Ok tt).
Proof.
  unfold apply_trusted_commit. destruct (prepare_commit st _ effect) as [p|] eqn:Ep;
    [|intros [= <- _]; by left]. apply prepare_commit_ok in Ep as (_ & _ & Happ & _). unfold append.
  destruct (tick.(tick_io)); [|intros [= <- _]; by left..].
  destruct (record_all _ _ _) as [j r']. intros [= <- _]. by right.
Qed.

(** No batch of effects applied through the public entry point adds a local acceptance to the
    acknowledgements, whether it succeeds or stops early: local acceptance has one provenance. *)
Theorem batches_never_accept_locally st effects st' r (Ha : apply_all st effects = (st', r)) :
  local_acks st'.(store_state) = local_acks st.(store_state).
Proof.
  revert st st' r Ha. induction effects as [|[tick effect] rest IH]; intros st st' r; simpl; [by intros [= <- _]|].
  destruct (apply_commit st tick effect) as [st1 r1] eqn:E.
  assert (local_acks st1.(store_state) = local_acks st.(store_state)) as Hone.
  { unfold apply_commit in E. destruct (is_local_acknowledgement effect) eqn:Hl; [by injection E as <- _|].
    destruct (commit_state_cases _ _ _ _ _ E) as [->|Happ]; [done|by eapply apply_local_acks]. }
  destruct r1 as [c|e]; [|by intros [= <- _]].
  destruct (apply_all st1 rest) as [st2 r2] eqn:E2. apply IH in E2. rewrite <-Hone. by destruct r2; intros [= <- _].
Qed.

(** ** Idempotent submission *)

Lemma commit_keeps_idempotency st tick effect st' r :
  apply_trusted_commit st tick effect = (st', r) → st'.(store_idempotency) = st.(store_idempotency).
Proof.
  unfold apply_trusted_commit. destruct (prepare_commit st _ effect); [|by intros [= <- _]].
  destruct (append _ _ _) as [log' []]; [|by intros [= <- _]]. destruct (record_all _ _ _) as [j r'].
  by intros [= <- _].
Qed.

Lemma dispatch_keeps_idempotency st tick envelope now st' r :
  dispatch hex_digest st tick envelope now = (st', r) → st'.(store_idempotency) = st.(store_idempotency).
Proof.
  unfold dispatch, enqueue, apply_commit.
  destruct (envelope.(CommandEnvelope.body)); try (by intros [= <- _]).
  destruct (is_none _); [by intros [= <- _]|]. simpl.
  destruct (apply_trusted_commit _ _ _) as [st1 r1] eqn:E. apply commit_keeps_idempotency in E.
  by destruct r1; intros [= <- _].
Qed.

(** Enqueued, rejected or accepted: a first submission records its scope. *)
Lemma submit_first st env envelope now st' ack :
  CommandEnvelope_validate envelope = Ok tt →
  st.(store_idempotency) !! dedupe_digest hex_digest envelope = None →
  submit_command hex_digest st env envelope now = (st', Ok ack) →
  st'.(store_idempotency) =
    <[dedupe_digest hex_digest envelope := envelope.(CommandEnvelope.command_id)]> st.(store_idempotency) ∧
  ack.(CommandAck.command_id) = envelope.(CommandEnvelope.command_id) ∧
  ack ∈ st'.(store_state).(CanonicalState.acks).
Proof.
  intros Hv Hnone. unfold submit_command. rewrite Hv. simpl. rewrite Hnone.
  destruct (if CommandEnvelope_expired_at envelope now then _ else _) as [st1 [outcome|e]] eqn:E1; [|done].
  assert (st1.(store_idempotency) = st.(store_idempotency)) as Hsame.
  { destruct (CommandEnvelope_expired_at envelope now); [by injection E1 as <- _|].
    by eapply dispatch_keeps_idempotency. }
  destruct (apply_trusted_commit st1 _ _) as [st2 [c|e]] eqn:E2; [|done].
  apply commit_keeps_idempotency in E2 as Hsame2.
  apply apply_trusted_commit_ok in E2 as Hok. destruct Hok as (p & Hp & Et & _).
  destruct (commit_written _ _ env.(env_ack).(tick_views) _ _ Hp) as (_ & Hstate & _). rewrite <-Et, E2 in Hstate. simpl in Hstate.
  apply prepare_commit_ok in Hp as (_ & _ & Happ & _).
  unfold record_idempotency. destruct (env.(env_side_table)); [|done..]. intros [= <- <-]. simpl.
  rewrite Hsame2, Hsame. split_and!; try done. rewrite Hstate.
  apply apply_ok in Happ as (s1 & Ha & ->). destruct (recompute_derived_frame s1) as (ms & mp & ->). simpl.
  apply checked_ok, apply_ack_ok in Ha as [-> _]. simpl. apply elem_of_app. right. by apply list_elem_of_singleton.
Qed.

Lemma submit_duplicate st env envelope now original :
  CommandEnvelope_validate envelope = Ok tt →
  st.(store_idempotency) !! dedupe_digest hex_digest envelope = Some original →
  submit_command hex_digest st env envelope now =
    (st, Ok (CommandAck.mk envelope.(CommandEnvelope.command_id) (CommandOutcome.Duplicate original) now)).
Proof. intros Hv Hs. unfold submit_command. rewrite Hv. simpl. by rewrite Hs. Qed.

(** The digest does not confuse two scopes. *)
Definition no_collision (a b : string) : Prop := hex_digest a = hex_digest b → a = b.

(** What becomes of a store through any commits and submissions, whatever fails. *)
Inductive later_store : CanonicalStore → CanonicalStore → Prop :=
| later_same st : later_store st st
| later_commit st st' tick effect : later_store st st' → later_store st (apply_trusted_commit st' tick effect).1
| later_submission st st' env envelope now :
    later_store st st' → later_store st (submit_command hex_digest st' env envelope now).1.

(** A submission writes at most the entry of its own scope, and only when it is new. *)
Lemma submit_table st env envelope now st' r :
  submit_command hex_digest st env envelope now = (st', r) →
  st'.(store_idempotency) = st.(store_idempotency) ∨
  (st.(store_idempotency) !! dedupe_digest hex_digest envelope = None ∧
   st'.(store_idempotency) =
     <[dedupe_digest hex_digest envelope := envelope.(CommandEnvelope.command_id)]> st.(store_idempotency)).
Proof.
  unfold submit_command. destruct (contract _); [|by intros [= <- _]; left].
  destruct (st.(store_idempotency) !! _) eqn:Hnone; [by intros [= <- _]; left|].
  destruct (if CommandEnvelope_expired_at envelope now then _ else _) as [st1 [outcome|e]] eqn:E1;
    (assert (st1.(store_idempotency) = st.(store_idempotency)) as Hsame
       by (destruct (CommandEnvelope_expired_at envelope now); [by injection E1 as <- _|by eapply dispatch_keeps_idempotency]));
    [|intros [= <- _]; by left].
  destruct (apply_trusted_commit st1 _ _) as [st2 [c|e]] eqn:E2; apply commit_keeps_idempotency in E2; [|intros [= <- _]; left; congruence].
  unfold record_idempotency. destruct (env.(env_side_table)); intros [= <- _]; right; simpl; split; congruence.
Qed.

Lemma later_keeps_entry st st' key original :
  later_store st st' → st.(store_idempotency) !! key = Some original → st'.(store_idempotency) !! key = Some original.
Proof.
  intros Hl Hk. induction Hl as [st|st st' tick effect _ IH|st st' env envelope now _ IH]; [done|..].
  - destruct (apply_trusted_commit st' tick effect) as [st2 r] eqn:E. apply commit_keeps_idempotency in E. simpl. rewrite E. by apply IH.
  - destruct (submit_command hex_digest st' env envelope now) as [st2 r] eqn:E. simpl. specialize (IH Hk).
    destruct (submit_table _ _ _ _ _ _ E) as [->|[Hnone ->]]; [done|]. rewrite lookup_insert_ne; [done|]. congruence.
Qed.

(** The command a scope stands for: the one recorded for it, else the one submitted. *)
Definition original_command (st : CanonicalStore) (envelope : CommandEnvelope) : CommandId :=
  default envelope.(CommandEnvelope.command_id) (st.(store_idempotency) !! dedupe_digest hex_digest envelope).

(** A submission that succeeds leaves its scope recorded. *)
Lemma submit_records st env envelope now st' ack :
  submit_command hex_digest st env envelope now = (st', Ok ack) →
  st'.(store_idempotency) !! dedupe_digest hex_digest envelope = Some (original_command st envelope).
Proof.
  intros Hs. assert (CommandEnvelope_validate envelope = Ok tt) as Hv
    by (unfold submit_command in Hs; by destruct (CommandEnvelope_validate envelope) as [[]|]).
  unfold original_command. destruct (st.(store_idempotency) !! dedupe_digest hex_digest envelope) as [original|] eqn:E.
  - rewrite (submit_duplicate _ _ _ _ original) in Hs by done. by injection Hs as <- <-.
  - apply submit_first in Hs as (-> & _ & _); [|done..]. by rewrite lookup_insert_eq.
Qed.

(** C12: After a submission succeeded, every later valid submission by the same actor with the same
    idempotency key changes nothing and is answered as a duplicate of the original command, whatever
    commits and submissions, failed ones too, come in between. The original is the command that was
    recorded for the actor and key before, and the submitted one if there was none. The submission
    leaves the scope of any other actor or key untouched, unless its digest collides. *)
Theorem submission_is_idempotent st env envelope now st' ack
    (Hs : submit_command hex_digest st env envelope now = (st', Ok ack)) :
  (∀ st2 env' envelope' now', later_store st' st2 →
     envelope'.(CommandEnvelope.actor) = envelope.(CommandEnvelope.actor) →
     envelope'.(CommandEnvelope.idempotency_key) = envelope.(CommandEnvelope.idempotency_key) →
     CommandEnvelope_validate envelope' = Ok tt →
     submit_command hex_digest st2 env' envelope' now' =
       (st2, Ok (CommandAck.mk envelope'.(CommandEnvelope.command_id)
                   (CommandOutcome.Duplicate (original_command st envelope)) now'))) ∧
  (∀ envelope', (envelope'.(CommandEnvelope.actor) ≠ envelope.(CommandEnvelope.actor) ∨
                 envelope'.(CommandEnvelope.idempotency_key) ≠ envelope.(CommandEnvelope.idempotency_key)) →
     no_collision (CommandEnvelope_dedupe_key envelope') (CommandEnvelope_dedupe_key envelope) →
     st'.(store_idempotency) !! dedupe_digest hex_digest envelope' =
     st.(store_idempotency) !! dedupe_digest hex_digest envelope').
Proof.
  split.
  - intros st2 env' envelope' now' Hlater Ha Hk Hv'. apply submit_duplicate; [done|].
    assert (dedupe_digest hex_digest envelope' = dedupe_digest hex_digest envelope) as ->
      by (unfold dedupe_digest; f_equal; by apply dedupe_key_inj).
    eapply later_keeps_entry; [done|by eapply submit_records].
  - intros envelope' Hne Hcol. destruct (submit_table _ _ _ _ _ _ Hs) as [->|[_ ->]]; [done|].
    rewrite lookup_insert_ne; [done|]. intros Heq%symmetry%Hcol%dedupe_key_inj. naive_solver.
Qed.
End proofs.

(** ** Device commands *)

Section device.
Context `{Codec, ReadModels, SideTableCodec} (hex_digest : string → string).

(** For the commands the device route submits, when the scope is fresh and no reply to the attention is in
    flight, the admission preview gives the very acknowledgement the submission returns, and asks for a
    dispatch exactly when that acknowledgement is a local acceptance. *)
Theorem preview_agrees_with_submission st env envelope now unfinished st' ack
    (Hroute : device_route_uses_submit envelope.(CommandEnvelope.body) = true)
    (Hfresh : st.(store_idempotency) !! dedupe_digest hex_digest envelope = None)
    (Hidle : ∀ response, envelope.(CommandEnvelope.body) = Command.RespondAttention response →
       unfinished response.(AttentionResponse.attention_id) = false)
    (Hs : submit_command hex_digest st env envelope now = (st', Ok ack)) :
  (preview_device_admission hex_digest st.(store_state) unfinished envelope now).1 = ack ∧
  ((preview_device_admission hex_digest st.(store_state) unfinished envelope now).2 = true ↔
   is_accepted_locally ack.(CommandAck.outcome) = true).
Proof.
  assert (∃ st1 outcome, ack = CommandAck.mk envelope.(CommandEnvelope.command_id) outcome now ∧
    (if CommandEnvelope_expired_at envelope now then (st, Ok (rejected ErrorCode.CommandExpired now))
     else dispatch hex_digest st env.(env_queue) envelope now) = (st1, Ok outcome)) as (st1 & outcome & -> & E).
  { unfold submit_command in Hs. destruct (contract _); [|done]. rewrite Hfresh in Hs.
    destruct (if CommandEnvelope_expired_at envelope now then _ else _) as [st1 [outcome|e]] eqn:E; [|done].
    destruct (apply_trusted_commit st1 _ _) as [st2 [c|e]]; [|done].
    destruct (record_idempotency _ _ _ _) as [st3 [u|e]]; [|done]. injection Hs as _ <-. by exists st1, outcome. }
  assert (preview_outcome hex_digest st.(store_state) unfinished envelope now =
          (outcome, is_accepted_locally outcome)) as Hp.
  { unfold preview_outcome. destruct (CommandEnvelope_expired_at envelope now); [by injection E as _ <-|].
    unfold dispatch, enqueue in E.
    destruct (envelope.(CommandEnvelope.body)) as [sid body|sid body intent| | | | | |resp| | | | | | | | | | ];
      try done.
    - injection E as _ <-. by destruct (is_some _).
    - unfold is_none in E. destruct (is_some _); simpl in E; [|by injection E as _ <-].
      destruct (apply_commit _ _ _) as [st2 [c|e]]; [|done]. by injection E as _ <-.
    - rewrite (Hidle resp eq_refl). injection E as _ <-.
      destruct (_ !! resp.(AttentionResponse.attention_id)) as [entry|]; [|done].
      by destruct (AttentionItem_check_reply entry resp now). }
  unfold preview_device_admission. by rewrite Hp.
Qed.

(** An envelope accepted for a valid device request is by the authenticated device, carries the body of the
    request and the receive time of the host, has a key within the limit, and expires, if at all, after it was
    received, within the longest lifetime and without overflow: it is not expired on arrival. *)
Theorem device_envelope_is_bound device envelope request now
    (Hr : DeviceCommandRequest_validate request = Ok tt)
    (Hv : validate_device_envelope device envelope request now = Ok tt) :
  envelope.(CommandEnvelope.actor) = Actor.Human device ∧
  envelope.(CommandEnvelope.body) = request.(DeviceCommandRequest.body) ∧
  envelope.(CommandEnvelope.issued_at_ms) = now ∧
  (1 ≤ str_len envelope.(CommandEnvelope.idempotency_key) ≤ MAX_IDEMPOTENCY_KEY_BYTES) ∧
  (∀ expiry, envelope.(CommandEnvelope.expires_at_ms) = Some expiry →
     now < expiry ≤ now + MAX_DEVICE_COMMAND_TTL_MS ∧ expiry ≤ i64_max) ∧
  CommandEnvelope_expired_at envelope now = false.
Proof.
  unfold DeviceCommandRequest_validate in Hr. rewrite !rbind_ok_unit, !reject_if_ok, if_some_ok in Hr.
  destruct Hr as (Hne%str_is_empty_false & Hlen%Z.ltb_ge & Httl & _).
  unfold validate_device_envelope in Hv. rewrite !rbind_ok_unit, rbind_ok, !reject_if_ok, !bool_decide_neq_false in Hv.
  destruct Hv as (Hact & Hkey & Hbody & Hiss & expected & Hexp & He).
  rewrite reject_if_ok, bool_decide_neq_false in He.
  assert (∀ expiry, envelope.(CommandEnvelope.expires_at_ms) = Some expiry →
     now < expiry ≤ now + MAX_DEVICE_COMMAND_TTL_MS ∧ expiry ≤ i64_max) as Hbound.
  { intros expiry Ee. rewrite Ee in He. subst expected. unfold expected_expiry in Hexp.
    destruct (request.(DeviceCommandRequest.ttl_ms)) as [ttl|]; [|done]. specialize (Httl ttl eq_refl).
    rewrite reject_if_ok, negb_false_true, andb_true_iff, !Z.leb_le in Httl.
    rewrite rbind_ok in Hexp. destruct Hexp as (x & Hx%ok_or_ok & [= ->]).
    destruct (ttl <=? i64_max); [|done]. apply checked_add_i64_some in Hx. lia. }
  split_and!; try done.
  - destruct (envelope.(CommandEnvelope.actor)) as [d| |]; try done.
    by apply negb_false_true, bool_decide_eq_true in Hact as ->.
  - rewrite Hkey. unfold str_len in *. destruct (request.(DeviceCommandRequest.idempotency_key)); [done|].
    simpl. lia.
  - by rewrite Hkey.
  - unfold CommandEnvelope_expired_at. rewrite is_some_and_false. intros expiry Ee. specialize (Hbound expiry Ee).
    apply Z.leb_gt. lia.
Qed.
End device.
