(* ===== verification/StoreReload.v ===== *)
(** * Reloading a store

    [CanonicalStore::load] rebuilds what the write path left on disk: the
    canonical state from the log, the read models from the replay, and the
    idempotency table from its side file.  The theorems are proved against the
    interface of the read models ([StoreInterface.v]). *)
From stdpp Require Import prelude strings gmap.
From Stdlib Require Import ZArith Lia.
From S2P Require Import Prelude ProtoBase ProtoContent ProtoEffect ProtoProjection CanonState DurableLog StoreInterface CanonStore StoreProofs.

Local Open Scope Z_scope.

(** ** The side table *)

Section side.
Context `{SideTableCodec}.

Lemma read_side_snoc r recs : ∀ i t t',
  Forall (line_codec encode_side decode_side) (recs ++ [r]) →
  read_side_lines i t (lines_of (file_content encode_side recs)) = Ok t' →
  side_record_valid r = true → t' !! r.(IdempotencyRecord.key_digest) = None →
  read_side_lines i t (lines_of (file_content encode_side (recs ++ [r]))) =
    Ok (<[r.(IdempotencyRecord.key_digest) := r.(IdempotencyRecord.command_id)]> t').
Proof.
  induction recs as [|x recs IH]; intros i t t'; simpl; rewrite Forall_cons; intros [[Hd Hn Hc Hb] Hrest].
  - intros [= <-] Hv Hnone. rewrite lines_of_line by done. simpl. rewrite Hb, Hd. simpl. rewrite Hv. simpl. by rewrite Hnone.
  - rewrite !lines_of_line by done. simpl. rewrite Hb, Hd. simpl.
    destruct (side_record_valid x); simpl; [|done]. destruct (is_some_and _ _); simpl; [done|]. by apply IH.
Qed.
End side.

Section reload.
Context `{Codec, ReadModels, !ReadModelsLaws, SideTableCodec}.

Lemma side_inv journal st h :
  committed journal st h →
  ∃ recs, st.(store_idempotency_file) = file_content encode_side recs ∧
    Forall (line_codec encode_side decode_side) recs ∧
    read_idempotency st.(store_idempotency_file) = Ok st.(store_idempotency).
Proof.
  induction 1 as [|st h now ios effect Hc (recs & Hf & Hr & Ht) Hio|st h k cid Hc (recs & Hf & Hr & Ht) Hnew record Hv Hl].
  - by exists [].
  - exists recs. destruct (prepare_commit st now effect) as [p|e] eqn:Hp.
    + destruct (commit_written _ _ ios _ _ Hp) as (_ & _ & _ & _ & _ & -> & -> & _). done.
    + by rewrite (commit_refused st (mkTick now IoOutcome.Written ios) effect e Hp).
  - exists (recs ++ [record]). simpl. rewrite Hf in Ht |- *. rewrite file_content_snoc.
    assert (Forall (line_codec encode_side decode_side) (recs ++ [record])) as Hall
      by by rewrite Forall_app, Forall_singleton.
    split_and!; [done..|]. exact (read_side_snoc record recs 0 ∅ _ Hall Ht Hv Hnew).
Qed.

(** ** The read models *)

Definition room (m : Journal) (keys : list ProjectionKey) : Prop :=
  ∀ k, k ∈ keys → Z.of_nat (rm_size m k) ≤ u64_max.

(** Each key grows by at most one view. *)
Definition grows (m m' : Journal) (keys : list ProjectionKey) : Prop :=
  ∀ k, (rm_size m' k ≤ rm_size m k + (if bool_decide (k ∈ keys) then 1 else 0))%nat.

Lemma record_grows m key payload m' e keys m'' :
  rm_record m IoOutcome.Written key payload = (m', Ok e) → key ∉ keys → grows m' m'' keys →
  grows m m'' (key :: keys).
Proof.
  intros Hr Hnew Hg k. specialize (Hg k). pose proof (rm_record_size m IoOutcome.Written key payload k) as Hs.
  rewrite Hr in Hs. simpl in Hs. repeat case_bool_decide; subst; set_solver by lia.
Qed.

Lemma record_room m key payload m' e keys :
  rm_record m IoOutcome.Written key payload = (m', Ok e) → key ∉ keys → room m (key :: keys) → room m' keys.
Proof.
  intros Hr Hnew Hroom k Hk. specialize (Hroom k (list_elem_of_further _ _ _ Hk)).
  pose proof (rm_record_size m IoOutcome.Written key payload k) as Hs. rewrite Hr in Hs. simpl in Hs.
  rewrite bool_decide_false in Hs by (by intros ->). lia.
Qed.

(** Replaying views a persistent journal has missed. *)
Lemma replay_views_behind s keys : ∀ cands j m,
  build_all s keys = Ok cands → rm_behind j m → NoDup keys → room m keys →
  ∃ m', replay_views s m keys = Ok m' ∧ rm_behind j m' ∧ grows m m' keys.
Proof.
  induction keys as [|key keys IH]; intros cands j m Hb Hj Hnd Hroom; simpl.
  { exists m. split_and!; [done..|]. intros k. lia. }
  apply NoDup_cons in Hnd as [Hnew Hnd]. simpl in Hb. rewrite rbind_ok in Hb.
  destruct Hb as (payload & Hp & Hb). rewrite rbind_ok in Hb. destruct Hb as (rest & Hb & _). rewrite Hp. simpl.
  destruct (rm_record_behind j m s key payload Hj Hp) as (m1 & e & Hr & Hj1).
  { apply Hroom. left. }
  rewrite Hr. destruct (IH rest j m1 Hb Hj1 Hnd) as (m' & -> & Hj' & Hg); [by eapply record_room|].
  exists m'. split_and!; [done..|]. by eapply record_grows.
Qed.

(** Recording views and replaying them stay in step. *)
Lemma record_all_replay s keys : ∀ cands ios j m,
  build_all s keys = Ok cands → Forall clean_io ios → rm_live j m → NoDup keys → room m keys →
  ∃ m', replay_views s m keys = Ok m' ∧ grows m m' keys ∧
    rm_expected (record_all j ios cands).1 = rm_expected j ∧ rm_behind (record_all j ios cands).1 m' ∧
    (is_ok (record_all j ios cands).2 = true → rm_live (record_all j ios cands).1 m').
Proof.
  induction keys as [|key keys IH]; intros cands ios j m Hb Hio Hj Hnd Hroom; simpl in *.
  { injection Hb as <-. exists m. simpl. split_and!; [done|intros k; lia|done|by apply rm_live_behind|done]. }
  apply NoDup_cons in Hnd as [Hnew Hnd]. rewrite rbind_ok in Hb.
  destruct Hb as (payload & Hp & Hb). rewrite rbind_ok in Hb. destruct Hb as (rest & Hb & [= <-]). rewrite Hp. simpl.
  assert (clean_io (default IoOutcome.Written (head ios))) as Hhead by (destruct Hio; [by left|done]).
  assert (Forall clean_io (tail ios)) as Htail by (destruct Hio; done).
  destruct (rm_record_live j m _ s key payload Hj Hhead Hp) as (m1 & e & Hr & _ & Hlive).
  { apply Hroom. left. }
  pose proof (rm_expected_record j (default IoOutcome.Written (head ios)) key payload) as Hexp.
  rewrite Hr. assert (room m1 keys) as Hroom1 by by eapply record_room.
  destruct (rm_record j _ key payload) as [j1 [env|err]]; simpl in *.
  - destruct (IH rest (tail ios) j1 m1 Hb Htail Hlive Hnd Hroom1) as (m' & -> & Hg & He & Hbeh & Hlive').
    exists m'. destruct (record_all j1 (tail ios) rest) as [j2 [envs|err]]; simpl in *;
      (split_and!; [done|by eapply record_grows|congruence|done|done]).
  - destruct (replay_views_behind s keys rest j1 m1 Hb Hlive Hnd Hroom1) as (m' & -> & Hbeh & Hg).
    exists m'. split_and!; [done|by eapply record_grows|done..].
Qed.

(** With every append written, the views of a commit are recorded. *)
Lemma record_all_written s keys : ∀ cands j m,
  build_all s keys = Ok cands → rm_live j m → NoDup keys → room m keys →
  ∃ m', is_ok (record_all j [] cands).2 = true ∧ rm_live (record_all j [] cands).1 m' ∧ grows m m' keys.
Proof.
  induction keys as [|key keys IH]; intros cands j m Hb Hj Hnd Hroom; simpl in Hb.
  { injection Hb as <-. exists m. simpl. split_and!; [done..|]. intros k. lia. }
  apply NoDup_cons in Hnd as [Hnew Hnd]. rewrite rbind_ok in Hb.
  destruct Hb as (payload & Hp & Hb). rewrite rbind_ok in Hb. destruct Hb as (rest & Hb & [= <-]).
  destruct (rm_record_live j m IoOutcome.Written s key payload Hj ltac:(by left) Hp) as (m1 & e & Hr & Hok & Hlive).
  { apply Hroom. left. }
  assert (room m1 keys) as Hroom1 by by eapply record_room. simpl.
  specialize (Hok eq_refl). destruct (rm_record j IoOutcome.Written key payload) as [j1 [env|err]]; [|done]. simpl in Hlive.
  destruct (IH rest j1 m1 Hb Hlive Hnd Hroom1) as (m' & Hok' & Hlive' & Hg). exists m'.
  destruct (record_all j1 [] rest) as [j2 [envs|err]]; [|done]. simpl in *. split_and!; [done..|]. by eapply record_grows.
Qed.

(** What the replay of the log rebuilds, and how far the journal is from it. *)
Record views_inv (journal : Journal) (st : CanonicalStore) (h : list LogRecord) (m0 m : Journal) : Prop := {
  views_expected : rm_expected st.(store_journal) = Ok m0;
  views_replay : replay_all m0 h =
    Ok (mkReplayed st.(store_state) st.(store_cursors) st.(store_last_appended_at_ms) m);
  views_behind : rm_behind st.(store_journal) m;
  views_live : st.(store_recovery_required) = false → rm_live st.(store_journal) m;
  views_size : ∀ k, (rm_size m k ≤ length h)%nat
}.

Lemma prepare_candidates st now effect p :
  prepare_commit st now effect = Ok p →
  build_all p.(prepared_state) (rm_affected_keys st.(store_state) p.(prepared_state) effect) =
    Ok p.(prepared_candidates).
Proof.
  unfold prepare_commit. rewrite !rbind_ok_unit, rbind_ok. intros (_ & _ & stream & _ & Hp).
  rewrite rbind_ok in Hp. destruct Hp as (s' & _ & Hp). rewrite rbind_ok in Hp. destruct Hp as (cands & Hb & Hp).
  rewrite rbind_ok in Hp. destruct Hp as (cursor & _ & Hp). rewrite rbind_ok in Hp. by destruct Hp as (at_ms & _ & [= <-]).
Qed.

Lemma views_step journal st h now ios effect p m0 m :
  views_inv journal st h m0 m → prepare_commit st now effect = Ok p → Forall clean_io ios →
  Z.of_nat (length h) ≤ u64_max →
  ∃ m', views_inv journal (apply_trusted_commit st (mkTick now IoOutcome.Written ios) effect).1
          (h ++ [p.(prepared_record)]) m0 m'.
Proof.
  intros [Ve Vr Vb Vl Vs] Hp Hio Hlen.
  destruct (commit_written _ _ ios _ _ Hp) as (_ & Hstate & Hcur & Hlast & Hj & _ & _ & Hrec').
  pose proof (prepare_candidates _ _ _ _ Hp) as Hb.
  apply prepare_commit_ok in Hp as (Hrec & _ & Happ & stream & cursor & at_ms & Er & _ & _ & Ht).
  apply next_timestamp_increases in Ht.
  destruct (record_all_replay p.(prepared_state) _ _ ios st.(store_journal) m Hb Hio (Vl Hrec))
    as (m' & Hm & Hg & He & Hbeh & Hlive); [apply rm_keys_nodup|intros k _; specialize (Vs k); lia|].
  exists m'. split.
  - by rewrite Hj, He.
  - unfold replay_all in *. rewrite try_fold_snoc, Vr. simpl. unfold replay_record. rewrite Er. simpl.
    rewrite Happ, Hm. simpl. rewrite Hstate, Hcur, Hlast, Er. simpl. do 2 f_equal. lia.
  - by rewrite Hj.
  - rewrite Hj, Hrec'. intros Hok%negb_false_true. by apply Hlive.
  - intros k. specialize (Vs k). specialize (Hg k). rewrite length_app. simpl. case_bool_decide; lia.
Qed.

Lemma committed_views journal st h m0 :
  committed journal st h → rm_expected journal = Ok m0 → rm_live journal m0 → Z.of_nat (length h) ≤ u64_max →
  ∃ m, views_inv journal st h m0 m.
Proof.
  intros Hc He Hl. induction Hc as [|st h now ios effect Hc IH Hio|st h k cid Hc IH Hnew record Hv Hcd]; intros Hlen.
  - exists m0. split; try done; [by apply rm_live_behind|]. intros k. simpl. by rewrite (rm_expected_size journal m0).
  - rewrite length_app in Hlen. destruct IH as [m Hm]; [lia|]. unfold written_by.
    destruct (prepare_commit st now effect) as [p|e] eqn:Hp; [eapply views_step; first [done|lia]|].
    rewrite (commit_refused st (mkTick now IoOutcome.Written ios) effect e Hp), app_nil_r. by exists m.
  - destruct (IH Hlen) as [m []]. exists m. by split.
Qed.

(** Loading what a store has written, with the journal as it is in memory: the
    state is the one the replay of the log leads to, and so are the views. *)
Lemma load_replays journal m0 st h ios :
  rm_expected journal = Ok m0 → rm_live journal m0 → committed journal st h → Z.of_nat (length h) ≤ u64_max →
  (∀ r, r ∈ h → safe_identifier (stream_identifier r.(LogRecord.stream))) →
  Forall codec_ok h → Forall (λ io, io = IoOutcome.Written) ios →
  ∃ journal' m,
    load_replayed st.(store_log) st.(store_journal) st.(store_idempotency_file) ios =
      Ok (mkStore st.(store_log) journal' st.(store_state) st.(store_cursors) st.(store_last_appended_at_ms)
            st.(store_idempotency) st.(store_idempotency_file) false) ∧
    replay_all m0 h = Ok (mkReplayed st.(store_state) st.(store_cursors) st.(store_last_appended_at_ms) m) ∧
    rm_reconcile st.(store_journal) ios m = (journal', Ok tt) ∧ rm_behind st.(store_journal) m ∧
    rm_live journal' m ∧ (st.(store_recovery_required) = false → rm_live st.(store_journal) m).
Proof.
  intros Hfresh Hlive Hc Hlen Hs Hcodec Hio.
  destruct (committed_inv journal st h Hc) as [Il It _ _ Iru Ira _].
  destruct (committed_views journal st h m0 Hc Hfresh Hlive Hlen) as [m [Ve Vr Vb Vl _]].
  destruct (side_inv journal st h Hc) as (_ & _ & _ & Hside).
  assert (read_all st.(store_log) = Ok h) as Hread.
  { rewrite Il. apply read_all_log_of; [split; try done|done].
    intros r1 r2 ? ?. apply stream_file_name_inj; by apply Hs. }
  destruct (rm_reconcile_behind st.(store_journal) m ios Vb Hio) as (journal' & Hrec & Hj).
  exists journal', m. unfold load_replayed. rewrite Hread. simpl. rewrite Ve. simpl. rewrite Vr. simpl. rewrite Hrec. simpl.
  by rewrite Hside.
Qed.

(** ** A failed append is not fenced *)

Lemma committed_last journal st h : committed journal st h → i64_min ≤ st.(store_last_appended_at_ms).
Proof.
  induction 1 as [|st h now ios effect _ IH _|]; [done| |done].
  destruct (prepare_commit st now effect) as [p|e] eqn:Hp.
  - destruct (commit_written _ _ ios _ _ Hp) as (_ & _ & _ & -> & _).
    apply prepare_commit_ok in Hp as (_ & _ & _ & stream & cursor & at_ms & -> & _ & _ & Ht%next_timestamp_increases). simpl. lia.
  - by rewrite (commit_refused st (mkTick now IoOutcome.Written ios) effect e Hp).
Qed.

(** The same effect can be prepared again: only its time may differ. *)
Lemma prepare_again st log now now' effect p :
  prepare_commit st now effect = Ok p → now ≤ i64_max → i64_min ≤ st.(store_last_appended_at_ms) →
  ∃ at_ms, next_timestamp st now' = Ok at_ms ∧ prepare_commit (with_log st log) now' effect =
    Ok (mkPrepared p.(prepared_state) p.(prepared_candidates)
          (LogRecord.mk p.(prepared_record).(LogRecord.cursor) p.(prepared_record).(LogRecord.stream) at_ms effect)).
Proof.
  intros Hp Hnow Hlast.
  assert (∃ at_ms, next_timestamp st now' = Ok at_ms) as [at_ms Hat].
  { apply prepare_commit_ok in Hp as (_ & _ & _ & _ & _ & t & _ & _ & _ & Ht). unfold next_timestamp in *.
    destruct (Z.ltb_spec st.(store_last_appended_at_ms) now'); [by eexists|].
    destruct (Z.ltb_spec st.(store_last_appended_at_ms) now); [|by eexists].
    exists (st.(store_last_appended_at_ms) + 1). unfold checked_add_i64. destruct (_ && _) eqn:E; [done|].
    apply andb_false_iff in E as [E|E]; lia. }
  exists at_ms. split; [done|]. revert Hp. unfold prepare_commit, next_timestamp, next_cursor in *. simpl.
  destruct (reject_if _ _); [|done]. simpl. destruct (contract _); [|done]. simpl. destruct (stream_for _ _); [|done]. simpl.
  destruct (CanonicalState_apply _ _) as [s' [[]|]]; [|done]. simpl. destruct (build_all _ _); [|done]. simpl.
  destruct (contract _); [|done]. simpl. rewrite Hat. destruct (if _ <? now then _ else _); [|done]. simpl. by intros [= <-].
Qed.

(** A prepared commit whose record and views are written is answered with its
    record. *)
Lemma commit_accepted st now ios effect p :
  prepare_commit st now effect = Ok p → is_ok (record_all st.(store_journal) ios p.(prepared_candidates)).2 = true →
  ∃ st' c, apply_trusted_commit st (mkTick now IoOutcome.Written ios) effect = (st', Ok c) ∧ c.(records) = [p.(prepared_record)].
Proof.
  intros Hp Hok. unfold apply_trusted_commit. simpl. rewrite Hp. simpl.
  destruct (record_all _ ios _) as [j [envs|e]]; [|done]. simpl. by eexists _, _.
Qed.

(** C40: When an append to the log reports an error after its line reached the file (a failed flush
    or sync), the store is not fenced: for any store whose earlier appends were complete, and any
    effect it accepts, retrying the effect with working files succeeds and repeats the cursor, and
    the log can no longer be loaded. The identifiers of the streams must be made of the characters a
    file name keeps, the codec decode the records, the clock fit an i64 and the log hold fewer than
    2^64 - 1 records. *)
Theorem retry_after_failed_append_breaks_reload journal m0 st h effect now1 now2 p1
    (Hfresh : rm_expected journal = Ok m0) (Hlive : rm_live journal m0)
    (Hc : committed journal st h) (Hlen : Z.of_nat (length h) < u64_max)
    (Hp : prepare_commit st now1 effect = Ok p1) (Hnow : now1 ≤ i64_max)
    (Hs : ∀ r, r ∈ h ++ [p1.(prepared_record)] → safe_identifier (stream_identifier r.(LogRecord.stream)))
    (Hcodec : Forall codec_ok (h ++ [p1.(prepared_record)]))
    (Hcodec2 : ∀ at_ms, next_timestamp st now2 = Ok at_ms → codec_ok (LogRecord.mk p1.(prepared_record).(LogRecord.cursor)
                                    p1.(prepared_record).(LogRecord.stream) at_ms effect)) :
  let line := encode p1.(prepared_record) +:+ String newline "" in
  let failed := apply_trusted_commit st (mkTick now1 (IoOutcome.Failed (String.length line)) []) effect in
  is_ok failed.2 = false ∧ failed.1.(store_recovery_required) = false ∧
  ∃ st2 c r2,
    apply_trusted_commit failed.1 (mkTick now2 IoOutcome.Written []) effect = (st2, Ok c) ∧ c.(records) = [r2] ∧
    r2.(LogRecord.stream) = p1.(prepared_record).(LogRecord.stream) ∧
    r2.(LogRecord.cursor) = p1.(prepared_record).(LogRecord.cursor) ∧
    ∀ journal' side ios,
      load_replayed st2.(store_log) journal' side ios =
        Err (StateError.Contract (ContractViolation.CursorRepeated r2.(LogRecord.cursor).(Cursor.seq))).
Proof.
  intros line failed. pose proof (committed_inv journal st h Hc) as Hinv.
  pose proof (store_inv_step st h now1 [] effect p1 Hinv Hp) as [Il1 It1 _ _ Iru1 Ira1 _].
  destruct (committed_views journal st h m0 Hc Hfresh Hlive ltac:(lia)) as [m [_ _ _ Vl Vs]].
  pose proof Hp as (Hopen & _ & _ & stream & cursor & at1 & Er1 & _ & Hcur & _)%prepare_commit_ok.
  assert (failed = (with_log st (append_written st.(store_log) p1.(prepared_record)), Err (StateError.Io (record_path p1.(prepared_record))))) as Ef.
  { unfold failed, apply_trusted_commit. simpl. rewrite Hp. unfold append, append_written, append. unfold line. by rewrite str_take_all. }
  destruct (prepare_again st (append_written st.(store_log) p1.(prepared_record)) now1 now2 effect p1 Hp Hnow (committed_last _ _ _ Hc)) as (at2 & Hat2 & Hp2).
  set (r2 := LogRecord.mk _ _ at2 effect) in Hp2. rewrite Ef. simpl. split; [done|]. split; [done|].
  destruct (record_all_written p1.(prepared_state) _ p1.(prepared_candidates) st.(store_journal) m (prepare_candidates _ _ _ _ Hp) (Vl Hopen)
    (rm_keys_nodup _ _ _)) as (m' & Hok & _); [intros k _; specialize (Vs k); lia|].
  destruct (commit_accepted _ now2 [] effect _ Hp2 Hok) as (st2 & c & Ha & Hrec).
  pose proof (commit_written _ now2 [] effect _ Hp2) as (Hlog & _). rewrite Ha in Hlog. simpl in Hlog, Hrec.
  exists st2, c, r2. split_and!; [done..|]. intros journal' side ios. rewrite Hlog.
  destruct Hinv as [Il _ _ Ic _ _ _]. rewrite Il, <-!log_of_snoc, <-app_assoc. simpl.
  unfold load_replayed. rewrite (repeated_record_unreadable h p1.(prepared_record) r2); [done|..].
  - split; [done..|]. intros x y Hx Hy. apply stream_file_name_inj; by apply Hs.
  - change (h ++ [p1.(prepared_record); r2]) with (h ++ [p1.(prepared_record)] ++ [r2]). rewrite app_assoc.
    apply Forall_app. split; [done|]. apply Forall_singleton. by apply Hcodec2.
  - done.
  - done.
  - rewrite Er1. simpl. destruct (next_cursor_seq st h stream cursor Ic Hcur) as [-> _].
    assert (length (of_stream stream h) ≤ length h)%nat; [|lia]. apply sublist_length, filter_b_sublist.
Qed.
End reload.
