(* ===== verification/StoreDisk.v ===== *)
(** * Loading a store from its files

    [CanonicalStore::load] opens the projection journal from its directory before
    it replays the log: here the journal is the program's own
    ([ProjectionJournal.v]), read back from the files the write path left. *)
From stdpp Require Import prelude strings gmap.
From Stdlib Require Import ZArith Lia.
From S2P Require Import Prelude ProtoBase ProtoContent ProtoEffect ProtoProjection CanonState ReadModelBuild DurableLog ProjectionJournal StoreInterface JournalReadModels CanonStore StoreProofs StoreReload.

Local Open Scope Z_scope.

Section disk.
Context `{Codec, EnvelopeCodec, SideTableCodec} (hex_digest : string → string).

#[local] Instance disk_read_models : ReadModels := journal_read_models hex_digest.
#[local] Instance disk_read_models_laws : ReadModelsLaws := journal_read_models_laws hex_digest.

(** [CanonicalStore::load] up to the recovery of device admissions: [views] are
    the files of the projection directory. *)
Definition load_from_files (log : StreamLog) (views : gmap string string) (side : string) (ios : list IoOutcome)
    : result CanonicalStore StateError :=
  let? journal := open_with_retention hex_digest views DEFAULT_RETENTION_ENTRIES in
  load_replayed log journal side ios.

(** The journals [open] and [load] start from on an empty root. *)
Definition new_journal : ProjectionJournal := ProjectionJournal.mk true DEFAULT_RETENTION_ENTRIES ∅ ∅.
Definition no_views : ProjectionJournal := ProjectionJournal.mk false DEFAULT_RETENTION_ENTRIES ∅ ∅.

Lemma record_all_recorded cands : ∀ j ios,
  recorded hex_digest j → Forall clean_io ios → recorded hex_digest (record_all j ios cands).1.
Proof.
  induction cands as [|[key payload] cands IH]; intros j ios Hj Hio; simpl; [done|].
  assert (clean_io (default IoOutcome.Written (head ios))) as Hhead by (destruct Hio; [by left|done]).
  pose proof (recorded_step hex_digest j _ key payload Hj Hhead) as Hj'.
  destruct (record hex_digest j _ key payload) as [j' [env|e]]; [|done]. simpl in Hj'.
  specialize (IH j' (tail ios) Hj' ltac:(by destruct Hio)). by destruct (record_all _ (tail ios) cands) as [j'' []].
Qed.

Lemma record_retention j io key payload :
  (record hex_digest j io key payload).1.(ProjectionJournal.retention_entries) = j.(ProjectionJournal.retention_entries).
Proof.
  unfold record, append_file. destruct (next_envelope j key payload) as [[e|]|]; [|done..].
  destruct (j.(ProjectionJournal.root)); [by destruct io|done].
Qed.

(** The journal of a store whose appends were complete or never started. *)
Lemma committed_recorded st h :
  committed new_journal st h →
  recorded hex_digest st.(store_journal) ∧
  st.(store_journal).(ProjectionJournal.retention_entries) = DEFAULT_RETENTION_ENTRIES.
Proof.
  induction 1 as [|st h now ios effect Hc [IH Hret] Hio|st h k cid Hc [IH Hret] Hnew record Hv Hcd]; [|..|done].
  - split; [by apply recorded_open|done].
  - destruct (prepare_commit st now effect) as [p|e] eqn:Hp;
      [|by rewrite (commit_refused st (mkTick now IoOutcome.Written ios) effect e Hp)].
    destruct (commit_written _ _ ios _ _ Hp) as (_ & _ & _ & _ & -> & _).
    split; [by apply record_all_recorded|].
    assert (∀ cands j l, (record_all j l cands).1.(ProjectionJournal.retention_entries) =
              j.(ProjectionJournal.retention_entries)) as ->; [|done].
    clear. induction cands as [|[key payload] cands IH]; intros j l; simpl; [done|].
    pose proof (record_retention j (default IoOutcome.Written (head l)) key payload) as Hr.
    destruct (record hex_digest j _ key payload) as [j' [env|e]]; [|done]. simpl in Hr. specialize (IH j' (tail l)).
    destruct (record_all _ (tail l) cands) as [j'' []]; simpl in *; congruence.
Qed.

(** The views the replay of a log implies can be told apart on disk, and their
    lines read back. *)
Definition views_storable (h : list LogRecord) : Prop :=
  ∀ r, replay_all no_views h = Ok r →
    paths_distinct hex_digest r.(replayed_expected) ∧
    ∀ key es, r.(replayed_expected).(ProjectionJournal.entries) !! key = Some es →
      Forall (line_codec encode_envelope decode_envelope) es.

Lemma prefix_storable j m :
  journal_prefix j m →
  paths_distinct hex_digest m ∧ (∀ key es, m.(ProjectionJournal.entries) !! key = Some es →
      Forall (line_codec encode_envelope decode_envelope) es) →
  paths_distinct hex_digest j ∧ (∀ key es, j.(ProjectionJournal.entries) !! key = Some es →
      Forall (line_codec encode_envelope decode_envelope) es).
Proof.
  intros Hp [Hd Hc]. split.
  - intros k1 k2 [es1 Hk1] [es2 Hk2]. destruct (Hp k1 es1 Hk1) as (? & ? & _), (Hp k2 es2 Hk2) as (? & ? & _).
    apply Hd; by eexists.
  - intros key es Hes. destruct (Hp key es Hes) as (es' & He & l & ->). apply Hc in He. by apply Forall_app in He as [? _].
Qed.

(** C1: Whatever sequence of commits and new idempotency entries a store went through (accepted,
    refused, or cut short by a read model whose file did not open), as long as no append to the log
    failed and no append to a read model was cut short, loading it from its files alone returns the
    store it was: the same canonical state, cursors, last timestamp and idempotency table, not
    fenced. Replaying the log succeeds, the journal of read models holds exactly the histories the
    replay implies, in memory and in its repaired files, and a store that was not fenced held them
    before. The repairing appends must succeed, the identifiers be made of the characters a file
    name keeps, the codecs decode what they encoded, and the digests of the projection keys be non-
    empty and distinct. *)
Theorem reload_converges st h ios (Hc : committed new_journal st h) (Hlen : Z.of_nat (length h) ≤ u64_max)
    (Hs : ∀ r, r ∈ h → safe_identifier (stream_identifier r.(LogRecord.stream)))
    (Hcodec : Forall codec_ok h) (Hviews : views_storable h)
    (Hne : ∀ key, hex_digest (encode_key key) ≠ "")
    (Hio : Forall (λ io, io = IoOutcome.Written) ios) :
  ∃ implied journal',
    replay_all no_views h =
      Ok (mkReplayed st.(store_state) st.(store_cursors) st.(store_last_appended_at_ms) implied) ∧
    load_from_files st.(store_log) st.(store_journal).(ProjectionJournal.files) st.(store_idempotency_file) ios =
      Ok (mkStore st.(store_log) journal' st.(store_state) st.(store_cursors) st.(store_last_appended_at_ms)
            st.(store_idempotency) st.(store_idempotency_file) false) ∧
    journal'.(ProjectionJournal.entries) = implied.(ProjectionJournal.entries) ∧
    open_with_retention hex_digest journal'.(ProjectionJournal.files) DEFAULT_RETENTION_ENTRIES = Ok journal' ∧
    (st.(store_recovery_required) = false →
       st.(store_journal).(ProjectionJournal.entries) = implied.(ProjectionJournal.entries)).
Proof.
  destruct (committed_recorded st h Hc) as [(Hw & Hroot & Hf)%recorded_ok Hret].
  assert (rm_live new_journal no_views) as Hlive.
  { split_and!; [done..|]. split; [intros key es; simpl; by rewrite lookup_empty|done]. }
  destruct (@load_replays _ disk_read_models disk_read_models_laws _ new_journal no_views st h ios eq_refl Hlive Hc Hlen Hs Hcodec Hio)
    as (journal' & m & Hload & Hreplay & Hrec & (Hp & Hm & Hwm) & (He & _) & Hopen).
  pose proof (Hviews _ Hreplay) as Hsm. simpl in Hsm. destruct (prefix_storable _ m Hp Hsm) as [Hdj Hcj].
  specialize (Hf Hdj). exists m, journal'. split; [done|]. split.
  { unfold load_from_files. rewrite <-Hret, (open_matching hex_digest st.(store_journal)) by done. exact Hload. }
  split; [done|]. split; [|intros Hl; by destruct (Hopen Hl)].
  destruct Hsm as [Hdm Hcm]. pose proof (reconcile_matching hex_digest _ ios m Hwm Hio Hp Hdm Hroot Hf) as Hmatch.
  destruct (reconcile_ok hex_digest _ ios m Hwm Hio Hp) as (j2 & Hj2 & _ & Hret2). simpl in Hrec.
  rewrite Hrec in Hj2, Hmatch. injection Hj2 as <-. destruct Hmatch as (Hroot' & Hf' & _). rewrite Hret in Hret2.
  rewrite <-Hret2. apply open_matching; [|done..| |done|].
  - split; [rewrite He; apply Hwm|by rewrite Hret2].
  - intros k1 k2. rewrite He. apply Hdm.
  - intros key es. rewrite He. apply Hcm.
Qed.
End disk.
