(* ===== verification/DeviceStore.v ===== *)
(** * The device operations of the store

    Models the rest of [crates/kaleido-state/src/store.rs]: the admission of
    device commands through the outbox, dispatch and queue-delivery claims and
    their completion, content access for devices, the recovery of admissions
    that were interrupted, and the whole of [load].

    [CanonStore.v] has the log, the state, the read models and the idempotency
    table; this file joins it with the outbox ([CommandOutbox.v]) and the
    content store ([ContentFiles.v]).  The operations are in a state and error
    monad, so that what was done before an error shows. *)
From stdpp Require Import prelude strings gmap.
From Stdlib Require Import ZArith Lia.
From S2P Require Import Prelude ProtoBase ProtoContent ProtoRuntime ProtoTurn ProtoQueue ProtoWorkflow ProtoAttention ProtoCommand ProtoEffect ProtoProjection CanonState CanonContent DurableLog ContentFiles CommandOutbox StoreInterface CanonStore.

Local Open Scope Z_scope.

(** ** Results of a dispatch

    The checks of [finish_dispatch] and [finish_queue_delivery] on the effects
    an adapter reports. *)

Definition is_terminal (outcome : CommandOutcome) : bool :=
  match outcome with
  | CommandOutcome.AcceptedByRuntime _ _ _ | CommandOutcome.Rejected _ => true
  | _ => false
  end.

Definition acknowledges (command_id : CommandId) (test : CommandOutcome → bool) (effect : StateEffect) : bool :=
  match effect with
  | StateEffect.CommandAcknowledged ack =>
      bool_decide (ack.(CommandAck.command_id) = command_id) && test ack.(CommandAck.outcome)
  | _ => false
  end.

Definition is_acknowledgement (effect : StateEffect) : bool :=
  match effect with
  | StateEffect.CommandAcknowledged _ => true
  | _ => false
  end.

Definition is_foreign_ack (command_id : CommandId) (effect : StateEffect) : bool :=
  match effect with
  | StateEffect.CommandAcknowledged ack => bool_decide (ack.(CommandAck.command_id) ≠ command_id)
  | _ => false
  end.

Definition terminal_ack_count (command_id : CommandId) (effects : list StateEffect) : nat :=
  length (filter_b (acknowledges command_id is_terminal) effects).

(** Neither an acknowledgement of the command that is not terminal, nor one of
    another command. *)
Definition acks_are_proper (command_id : CommandId) (effects : list StateEffect) : bool :=
  negb (existsb (acknowledges command_id (λ outcome, negb (is_terminal outcome))) effects)
  && negb (existsb (is_foreign_ack command_id) effects).

Definition terminal_outcome (command_id : CommandId) (effects : list StateEffect) : option CommandOutcome :=
  head (filter_map (λ effect,
    match effect with
    | StateEffect.CommandAcknowledged ack =>
        if bool_decide (ack.(CommandAck.command_id) = command_id) then Some ack.(CommandAck.outcome) else None
    | _ => None
    end) effects).

Definition is_remote_turn_of (command_id : CommandId) (session_id : SessionId) (turn : Turn) : bool :=
  bool_decide (turn.(Turn.session_id) = session_id)
  && bool_decide (turn.(Turn.origin) = TurnOrigin.RemoteCommand command_id).

(** The answer of a reply, by the command that sent it. *)
Definition answers (command_id : CommandId) (response : AttentionResponse) (state : AttentionState) : option Z :=
  match state with
  | AttentionState.Answered option_id free_form_ref question_answers decided_at_ms
      (AttentionAnswerSource.LocalCommand answered_command) =>
      if bool_decide (option_id = response.(AttentionResponse.option_id))
         && bool_decide (free_form_ref = response.(AttentionResponse.free_form_ref))
         && bool_decide (question_answers = response.(AttentionResponse.question_answers))
         && bool_decide (answered_command = command_id)
      then Some decided_at_ms else None
  | _ => None
  end.

Definition is_rejected (outcome : option CommandOutcome) : bool :=
  match outcome with
  | Some (CommandOutcome.Rejected _) => true
  | _ => false
  end.

(** The runtime accepted the command for a session. *)
Definition accepted_for (kind : RuntimeAcceptanceKind) (session_id : SessionId) (outcome : option CommandOutcome) : bool :=
  match outcome with
  | Some (CommandOutcome.AcceptedByRuntime acknowledged_session acceptance_kind _) =>
      bool_decide (acceptance_kind = kind) && bool_decide (acknowledged_session = session_id)
  | _ => false
  end.

Definition valid_terminal (s : CanonicalState) (claimed : CommandEnvelope) (effects : list StateEffect) : bool :=
  let command_id := claimed.(CommandEnvelope.command_id) in
  let count := terminal_ack_count command_id effects in
  let outcome := terminal_outcome command_id effects in
  let common_terminal := (count =? 1)%nat && acks_are_proper command_id effects in
  let unacknowledged := (count =? 0)%nat && acks_are_proper command_id effects in
  match claimed.(CommandEnvelope.body) with
  | Command.SubmitPrompt session_id _ =>
      common_terminal &&
      (if accepted_for RuntimeAcceptanceKind.PromptTurn session_id outcome
       then existsb (λ effect, match effect with
                               | StateEffect.TurnUpserted turn => is_remote_turn_of command_id session_id turn
                               | _ => false
                               end) effects
       else is_rejected outcome)
  | Command.InterruptTurn session_id _ =>
      common_terminal && (accepted_for RuntimeAcceptanceKind.SessionControl session_id outcome || is_rejected outcome)
  | Command.ResumeSession session_id =>
      unacknowledged &&
      existsb (λ effect, match effect with
                         | StateEffect.SessionUpserted session =>
                             bool_decide (session.(Session.id) = session_id) && is_some (runtime_of s session)
                         | _ => false
                         end) effects
  | Command.RespondAttention response =>
      unacknowledged &&
      existsb (λ effect, match effect with
                         | StateEffect.AttentionUpserted item =>
                             bool_decide (item.(AttentionItem.id) = response.(AttentionResponse.attention_id))
                             && bool_decide (item.(AttentionItem.session_id) = response.(AttentionResponse.session_id))
                             && is_some (answers command_id response item.(AttentionItem.state))
                         | _ => false
                         end) effects
  | _ => false
  end.

(** The route exists for these commands only. *)
Definition has_runtime_route (command : Command) : bool :=
  match command with
  | Command.SubmitPrompt _ _ | Command.RespondAttention _ | Command.InterruptTurn _ _ | Command.ResumeSession _ => true
  | _ => false
  end.

Definition mismatch (detail : string) : StateError := StateError.DeviceCommandMismatch detail.

Definition is_new_turn_delivery (entry : QueueEntry) : bool :=
  bool_decide (entry.(QueueEntry.intent) = QueueIntent.NewTurn)
  && bool_decide (entry.(QueueEntry.state) = QueueState.Pending).

(** The entry and the command a finished delivery is checked against. *)
Definition claimed_delivery (s : CanonicalState) (entry_id : QueueEntryId) : result (QueueEntry * CommandId) StateError :=
  let? current := ok_or (s.(CanonicalState.queue) !! entry_id) (mismatch "queue delivery has no canonical entry") in
  match current.(QueueEntry.state) with
  | QueueState.Submitting command_id => Ok (current, command_id)
  | _ => Err (mismatch "queue delivery was not durably claimed")
  end.

Definition delivered_entries (entry_id : QueueEntryId) (effects : list StateEffect) : list QueueEntry :=
  filter_map (λ effect, match effect with
                        | StateEffect.QueueEntryUpserted entry =>
                            if bool_decide (entry.(QueueEntry.id) = entry_id) then Some entry else None
                        | _ => None
                        end) effects.

Definition check_delivery (entry_id : QueueEntryId) (current : QueueEntry) (command_id : CommandId)
    (effects : list StateEffect) : result unit StateError :=
  reject_if (existsb is_acknowledgement effects)
    (mismatch "queue delivery cannot fabricate a command acknowledgement") ;?
  match delivered_entries entry_id effects with
  | [delivered] =>
      reject_if (negb (bool_decide (delivered.(QueueEntry.session_id) = current.(QueueEntry.session_id)))
                 || negb (bool_decide (delivered.(QueueEntry.intent) = current.(QueueEntry.intent)))
                 || negb (bool_decide (delivered.(QueueEntry.body) = current.(QueueEntry.body)))
                 || negb (bool_decide (delivered.(QueueEntry.created_at_ms) = current.(QueueEntry.created_at_ms)))
                 || delivered.(QueueEntry.editable))
        (mismatch "queue delivery changed immutable entry fields") ;?
      match delivered.(QueueEntry.state) with
      | QueueState.DeliveredAsNewTurn turn_id _ =>
          reject_if (negb (existsb (λ effect,
            match effect with
            | StateEffect.TurnUpserted turn =>
                bool_decide (turn.(Turn.id) = turn_id)
                && is_remote_turn_of command_id current.(QueueEntry.session_id) turn
            | _ => false
            end) effects)) (mismatch "queue delivery has no correlated provider turn")
      | _ => Err (mismatch "new-turn queue delivery lacks a structured terminal receipt")
      end
  | _ => Err (mismatch "queue delivery requires one exact terminal entry")
  end.

(** The references a device command carries. *)
Definition device_command_references (command : Command) : list ContentRef :=
  match command with
  | Command.SubmitPrompt _ body | Command.EnqueueInput _ body _ | Command.EditQueueEntry _ body => [body]
  | Command.RespondAttention response =>
      filter_map QuestionAnswer.free_form_ref response.(AttentionResponse.question_answers)
      ++ option_list response.(AttentionResponse.free_form_ref)
  | Command.ReworkStep _ reason_ref | Command.SkipStep _ reason_ref => option_list reason_ref
  | Command.ReorderQueue _ _ | Command.CancelQueueEntry _ | Command.InterruptTurn _ _ | Command.RetryTurn _ _
  | Command.OpenSession _ _ | Command.ResumeSession _ | Command.CloseSession _ | Command.AdvanceStep _
  | Command.RetryStep _ | Command.CancelStep _ | Command.ReassignStep _ _ | Command.CancelWorkflow _ => []
  end.

Definition acks_of (s : CanonicalState) (command_id : CommandId) : list CommandAck :=
  filter_b (λ ack, bool_decide (ack.(CommandAck.command_id) = command_id)) s.(CanonicalState.acks).

(** A second acknowledgement that recovery takes for the result of the command. *)
Definition recoverable_terminal (command : Command) (outcome : CommandOutcome) : bool :=
  match command, outcome with
  | Command.SubmitPrompt _ _, (CommandOutcome.AcceptedByRuntime _ _ _ | CommandOutcome.Rejected _)
  | Command.RespondAttention _, CommandOutcome.Rejected _ => true
  | _, _ => false
  end.

(** What recovery finds in the acknowledgements: none, the admission alone, or
    the admission and its result. *)
Definition committed_admission (s : CanonicalState) (recovery : AdmissionRecovery) : result (option bool) StateError :=
  match acks_of s recovery.(AdmissionRecovery.envelope).(CommandEnvelope.command_id) with
  | [] => Ok None
  | existing :: rest =>
      reject_if (bool_decide (existing ≠ recovery.(AdmissionRecovery.admission_ack))) StateError.CommandOutboxDiverged ;?
      match rest with
      | [] => Ok (Some false)
      | [terminal] =>
          if recoverable_terminal recovery.(AdmissionRecovery.envelope).(CommandEnvelope.body) terminal.(CommandAck.outcome)
          then Ok (Some true) else Err StateError.CommandOutboxDiverged
      | _ => Err StateError.CommandOutboxDiverged
      end
  end.

(** What recovery finds of an enqueued input whose acknowledgement is missing:
    whether its entry was committed. *)
Definition committed_entry (hex_digest : string → string) (s : CanonicalState) (recovery : AdmissionRecovery) :
    result bool StateError :=
  let envelope := recovery.(AdmissionRecovery.envelope) in
  match recovery.(AdmissionRecovery.admission_ack).(CommandAck.outcome) with
  | CommandOutcome.Enqueued entry_id =>
      match envelope.(CommandEnvelope.body) with
      | Command.EnqueueInput session_id body intent =>
          reject_if (bool_decide (entry_id ≠ queue_entry_id hex_digest envelope.(CommandEnvelope.command_id)))
            StateError.CommandOutboxDiverged ;?
          match s.(CanonicalState.queue) !! entry_id with
          | None => Ok false
          | Some existing =>
              let others := filter_b (λ entry, bool_decide (entry.(QueueEntry.id) ≠ entry_id) && entry_pending entry)
                                     (queue_of s session_id) in
              let expected := QueueEntry.mk entry_id session_id (u32_of_count (length others)) intent body
                                QueueState.Pending true envelope.(CommandEnvelope.issued_at_ms)
                                envelope.(CommandEnvelope.issued_at_ms) in
              reject_if (bool_decide (existing ≠ expected)) StateError.CommandOutboxDiverged ;?
              Ok true
          end
      | _ => Err StateError.CommandOutboxDiverged
      end
  | _ => Ok false
  end.

(** What recovery finds of a reply whose acknowledgement is missing: whether the
    attention already has its answer. *)
Definition committed_answer (s : CanonicalState) (recovery : AdmissionRecovery) : result bool StateError :=
  let envelope := recovery.(AdmissionRecovery.envelope) in
  match recovery.(AdmissionRecovery.admission_ack).(CommandAck.outcome), envelope.(CommandEnvelope.body) with
  | CommandOutcome.AcceptedLocally _, Command.RespondAttention response =>
      match s.(CanonicalState.attention) !! response.(AttentionResponse.attention_id) with
      | None => Err StateError.CommandOutboxDiverged
      | Some attention =>
          if bool_decide (answers envelope.(CommandEnvelope.command_id) response attention.(AttentionItem.state)
                          = Some envelope.(CommandEnvelope.issued_at_ms)) then Ok true
          else
            reject_if (negb (AttentionState_is_open attention.(AttentionItem.state))) StateError.CommandOutboxDiverged ;?
            Ok false
      end
  | _, _ => Ok false
  end.

(** ** Operations with state and errors *)

Definition action (S T : Type) : Type := S → S * result T StateError.

#[export] Instance action_ret S : MRet (action S) := λ T value s, (s, Ok value).
#[export] Instance action_bind S : MBind (action S) := λ T U k m s,
  match m s with
  | (s, Ok value) => k value s
  | (s, Err e) => (s, Err e)
  end.

Definition action_fail {S T} (e : StateError) : action S T := λ s, (s, Err e).
Definition action_lift {S T} (r : result T StateError) : action S T := λ s, (s, r).
Definition action_get {S T} (f : S → T) : action S T := λ s, (s, Ok (f s)).
Definition action_fail_if {S} (refused : bool) (e : StateError) : action S unit := action_lift (reject_if refused e).

Section device.
Context `{Codec, ReadModels, SideTableCodec, OutboxCodec, OwnershipCodec} (hex_digest : string → string) (process_id : nat).

(** The whole of the store. *)
Record HostStore : Type := mkHost {
  canonical : CanonicalStore;
  device_outbox : DeviceCommandOutbox;
  content : ContentStore
}.

Record DeviceCommandAdmission : Type := mkAdmission {
  admission_ack : CommandAck;
  dispatch_ticket : option DispatchTicket;
  admission_projections : list Envelope
}.

Record DispatchClaim : Type := mkClaim {
  claim_envelope : CommandEnvelope;
  claim_ticket : DispatchTicket;
  claim_projections : list Envelope
}.

Record QueueDeliveryClaim : Type := mkDeliveryClaim {
  delivery_entry : QueueEntry;
  delivery_command_id : CommandId;
  delivery_projections : list Envelope
}.

Definition on_canonical {T} (op : CanonicalStore → CanonicalStore * result T StateError) : action HostStore T := λ h,
  let '(st, r) := op h.(canonical) in (mkHost st h.(device_outbox) h.(content), r).
Definition on_outbox {T} (op : DeviceCommandOutbox → DeviceCommandOutbox * result T StateError) : action HostStore T := λ h,
  let '(o, r) := op h.(device_outbox) in (mkHost h.(canonical) o h.(content), r).
Definition on_content {T} (op : ContentStore → ContentStore * result T StateError) : action HostStore T := λ h,
  let '(c, r) := op h.(content) in (mkHost h.(canonical) h.(device_outbox) c, r).

Definition current_state : action HostStore CanonicalState := action_get (λ h, h.(canonical).(store_state)).
Definition checkpoint : action HostStore Checkpoint := action_get (λ h, rm_checkpoint h.(canonical).(store_journal)).
Definition changes_since (before : Checkpoint) : action HostStore (list Envelope) :=
  action_get (λ h, rm_changes_since h.(canonical).(store_journal) before).

Definition set_recovery_required (st : CanonicalStore) : CanonicalStore :=
  mkStore st.(store_log) st.(store_journal) st.(store_state) st.(store_cursors) st.(store_last_appended_at_ms)
    st.(store_idempotency) st.(store_idempotency_file) true.

(** An error of this part requires recovery. *)
Definition fenced {T} (op : action HostStore T) : action HostStore T := λ h,
  match op h with
  | (h, Ok value) => (h, Ok value)
  | (h, Err e) => (mkHost (set_recovery_required h.(canonical)) h.(device_outbox) h.(content), Err e)
  end.

Definition ensure_writable : action HostStore unit :=
  refused ← action_get (λ h, h.(canonical).(store_recovery_required));
  action_fail_if refused StateError.RecoveryRequired.

(** [apply_trusted] and [apply] *)
Definition commit_trusted (tick : Tick) (effect : StateEffect) : action HostStore unit :=
  _ ← on_canonical (λ st, apply_trusted_commit st tick effect); mret tt.
Definition commit (tick : Tick) (effect : StateEffect) : action HostStore unit :=
  _ ← on_canonical (λ st, apply_commit st tick effect); mret tt.

(** ** Content for devices *)

Definition write_content_for_device (device_id : DeviceId) (request : ContentWriteRequest) (bytes : string) (now_ms : Z) :
    action HostStore ContentWriteResponse :=
  on_content (write_for_device hex_digest process_id device_id request bytes now_ms).

Definition read_content_for_device (device_id : DeviceId) (request : ContentReadRequest) (now_ms : Z) :
    action HostStore ContentReadResponse :=
  s ← current_state;
  match content_ref s request.(ContentReadRequest.content_id) with
  | Some reference => on_content (on_disk (read_reference hex_digest reference request))
  | None =>
      on_content (λ c, on_disk (read_for_device hex_digest c.(ContentStore.ownership) device_id request now_ms) c)
  end.

Fixpoint validate_references (device_id : DeviceId) (references : list ContentRef) (now_ms : Z) : action HostStore unit :=
  match references with
  | [] => mret tt
  | reference :: rest =>
      _ ← on_content (λ c,
            on_disk (validate_device_reference hex_digest c.(ContentStore.ownership) device_id reference now_ms) c);
      validate_references device_id rest now_ms
  end.

Definition validate_device_command_content (device_id : DeviceId) (command : Command) (now_ms : Z) : action HostStore unit :=
  validate_references device_id (device_command_references command) now_ms.

(** ** Admission *)

(** The environment of an admission: the append to the outbox, the commits of
    the submission or of the acknowledgement, and the completion. *)
Record AdmitEnv : Type := mkAdmitEnv { env_insert : IoOutcome; env_submit : SubmitEnv; env_complete : IoOutcome }.

(** The answer to a request whose key was admitted before. *)
Definition repeated_admission (envelope : CommandEnvelope) (now_ms : Z) (request_digest : string)
    (original : string * CommandAck) : DeviceCommandAdmission :=
  let outcome := if bool_decide (original.1 = request_digest)
                 then CommandOutcome.Duplicate original.2.(CommandAck.command_id)
                 else CommandOutcome.Rejected (canonical_error ErrorCode.IdempotencyConflict false now_ms) in
  mkAdmission (CommandAck.mk envelope.(CommandEnvelope.command_id) outcome now_ms) None [].

(** Submit the command, and compare with what was promised. *)
Definition submit_as (env : SubmitEnv) (envelope : CommandEnvelope) (now_ms : Z) (ack : CommandAck) : action HostStore CommandAck :=
  actual ← on_canonical (λ st, submit_command hex_digest st env envelope now_ms);
  _ ← action_fail_if (bool_decide (actual ≠ ack)) StateError.CommandOutboxDiverged;
  mret actual.

Definition dispatched_admission (env : AdmitEnv) (key_digest request_digest : string) (envelope : CommandEnvelope)
    (ack : CommandAck) (now_ms : Z) : action HostStore DeviceCommandAdmission :=
  ticket ← on_outbox (λ o, insert_ready hex_digest o env.(env_insert) key_digest request_digest envelope ack);
  before ← checkpoint;
  actual ← fenced (submit_as env.(env_submit) envelope now_ms ack);
  changes ← changes_since before;
  mret (mkAdmission actual (Some ticket) changes).

(** A command that is answered at once: its record is claimed from the start and
    completed after the acknowledgement. *)
Definition settled_admission (env : AdmitEnv) (key_digest request_digest : string) (envelope : CommandEnvelope)
    (ack : CommandAck) (now_ms : Z) : action HostStore DeviceCommandAdmission :=
  ticket ← on_outbox (λ o, insert_claimed hex_digest o env.(env_insert) key_digest request_digest envelope ack);
  before ← checkpoint;
  actual ← fenced
    (if device_route_uses_submit envelope.(CommandEnvelope.body)
        && match ack.(CommandAck.outcome) with
           | CommandOutcome.AcceptedLocally _ | CommandOutcome.Enqueued _ => true
           | _ => false
           end
     then submit_as env.(env_submit) envelope now_ms ack
     else _ ← commit_trusted env.(env_submit).(env_ack) (StateEffect.CommandAcknowledged ack); mret ack);
  _ ← fenced (on_outbox (λ o, complete hex_digest o env.(env_complete) ticket));
  changes ← changes_since before;
  mret (mkAdmission actual None changes).

Definition admit_device_command (env : AdmitEnv) (authenticated_device : DeviceId) (envelope : CommandEnvelope)
    (request : DeviceCommandRequest) (now_ms : Z) : action HostStore DeviceCommandAdmission :=
  _ ← ensure_writable;
  _ ← action_lift (contract (DeviceCommandRequest_validate request));
  _ ← action_lift (contract (CommandEnvelope_validate envelope));
  _ ← action_lift (validate_device_envelope authenticated_device envelope request now_ms);
  let key_digest := device_command_key_digest hex_digest authenticated_device request.(DeviceCommandRequest.idempotency_key) in
  let request_digest := device_request_digest hex_digest request in
  known ← action_get (λ h, existing h.(device_outbox) key_digest);
  match known with
  | Some original => mret (repeated_admission envelope now_ms request_digest original)
  | None =>
      _ ← validate_device_command_content authenticated_device request.(DeviceCommandRequest.body) now_ms;
      preview ← action_get (λ h, preview_device_admission hex_digest h.(canonical).(store_state)
                                   (has_unfinished_attention h.(device_outbox)) envelope now_ms);
      if (preview.2 : bool)
      then dispatched_admission env key_digest request_digest envelope preview.1 now_ms
      else settled_admission env key_digest request_digest envelope preview.1 now_ms
  end.

(** ** Dispatch *)

Definition claim_dispatch (io : IoOutcome) (ticket : DispatchTicket) : action HostStore DispatchClaim :=
  _ ← ensure_writable;
  envelope ← on_outbox (λ o, claim hex_digest o io ticket);
  mret (mkClaim envelope ticket []).

Definition unavailable_runtime (command_id : CommandId) (at_ms : Z) : CommandAck :=
  CommandAck.mk command_id
    (CommandOutcome.Rejected (CanonicalError.mk ErrorCode.RuntimeUnavailable true None at_ms)) at_ms.

Definition reject_ready_dispatch (claim_io : IoOutcome) (tick : Tick) (complete_io : IoOutcome) (ticket : DispatchTicket)
    (at_ms : Z) : action HostStore (list Envelope) :=
  _ ← ensure_writable;
  found ← action_get (λ h, find_first (λ p, bool_decide (p.(PendingDispatch.ticket) = ticket)) (pending hex_digest h.(device_outbox)));
  dispatch ← action_lift (ok_or found (not_available ticket));
  _ ← action_fail_if (negb (has_runtime_route dispatch.(PendingDispatch.envelope).(CommandEnvelope.body)))
        (mismatch "only a concrete R3 runtime route can be rejected during recovery");
  envelope ← on_outbox (λ o, claim hex_digest o claim_io ticket);
  before ← checkpoint;
  _ ← commit tick (StateEffect.CommandAcknowledged (unavailable_runtime envelope.(CommandEnvelope.command_id) at_ms));
  _ ← on_outbox (λ o, complete hex_digest o complete_io ticket);
  changes_since before.

Definition finish_dispatch (io : IoOutcome) (ticket : DispatchTicket) (effects : list (Tick * StateEffect)) :
    action HostStore (list Envelope) :=
  _ ← ensure_writable;
  found ← action_get (λ h, ensure_claimed hex_digest h.(device_outbox) ticket);
  claimed ← action_lift found;
  s ← current_state;
  _ ← action_fail_if (negb (valid_terminal s claimed effects.*2))
        (mismatch "dispatch result does not close the claimed command's concrete runtime route");
  before ← checkpoint;
  _ ← on_canonical (λ st, apply_all st effects);
  _ ← on_outbox (λ o, complete hex_digest o io ticket);
  changes_since before.

Definition pending_dispatches (h : HostStore) : list PendingDispatch := pending hex_digest h.(device_outbox).
Definition uncertain_dispatches (h : HostStore) : list CommandId := uncertain h.(device_outbox).

(** ** Queue deliveries *)

Definition pending_queue_deliveries (s : CanonicalState) : list (QueueEntry * CommandId) :=
  filter_map (λ entry, (λ command_id, (entry, command_id)) <$> queue_command_id s entry.(QueueEntry.id))
    (filter_map (λ session, find_first is_new_turn_delivery (queue_of s session.(Session.id)))
       (filter_b (λ session, is_none session.(Session.active_turn_id)) (btree_values s.(CanonicalState.sessions)))).

Definition claim_queue_delivery (tick : Tick) (entry_id : QueueEntryId) (at_ms : Z) : action HostStore QueueDeliveryClaim :=
  _ ← ensure_writable;
  s ← current_state;
  pending ← action_lift (ok_or (entry ← s.(CanonicalState.queue) !! entry_id;
                                if is_new_turn_delivery entry then Some entry else None)
                           (mismatch "queue entry is not a pending new-turn delivery"));
  command_id ← action_lift (ok_or (queue_command_id s entry_id) StateError.CommandOutboxDiverged);
  let entry := QueueEntry.mk pending.(QueueEntry.id) pending.(QueueEntry.session_id) pending.(QueueEntry.position)
                 pending.(QueueEntry.intent) pending.(QueueEntry.body) (QueueState.Submitting command_id) false
                 pending.(QueueEntry.created_at_ms) at_ms in
  before ← checkpoint;
  _ ← commit tick (StateEffect.QueueEntryUpserted entry);
  changes ← changes_since before;
  mret (mkDeliveryClaim entry command_id changes).

Definition finish_queue_delivery (entry_id : QueueEntryId) (effects : list (Tick * StateEffect)) :
    action HostStore (list Envelope) :=
  _ ← ensure_writable;
  s ← current_state;
  claimed ← action_lift (claimed_delivery s entry_id);
  _ ← action_lift (check_delivery entry_id claimed.1 claimed.2 effects.*2);
  before ← checkpoint;
  _ ← on_canonical (λ st, apply_all st effects);
  changes_since before.

(** ** Recovery and loading *)

(** The environment of the recovery of one admission; commands of an outbox have
    distinct identifiers, so there is one per command. *)
Record RecoverEnv : Type := mkRecoverEnv { recover_submit : SubmitEnv; recover_complete : IoOutcome }.

Definition ensure_command_idempotency (io : IoOutcome) (envelope : CommandEnvelope) : action HostStore unit :=
  let key := dedupe_digest hex_digest envelope in
  known ← action_get (λ h, h.(canonical).(store_idempotency) !! key);
  match known with
  | Some command_id =>
      action_fail_if (bool_decide (command_id ≠ envelope.(CommandEnvelope.command_id))) StateError.CommandOutboxDiverged
  | None => on_canonical (λ st, record_idempotency st io key envelope.(CommandEnvelope.command_id))
  end.

(** Commit the acknowledgement that an interrupted submission lacks. *)
Definition finish_submission (env : SubmitEnv) (recovery : AdmissionRecovery) : action HostStore bool :=
  _ ← commit_trusted env.(env_ack) (StateEffect.CommandAcknowledged recovery.(AdmissionRecovery.admission_ack));
  _ ← ensure_command_idempotency env.(env_side_table) recovery.(AdmissionRecovery.envelope);
  mret false.

(** Do again what the admission did not get to. *)
Definition repeat_submission (env : SubmitEnv) (recovery : AdmissionRecovery) : action HostStore bool :=
  let envelope := recovery.(AdmissionRecovery.envelope) in
  let ack := recovery.(AdmissionRecovery.admission_ack) in
  _ ← (if device_route_uses_submit envelope.(CommandEnvelope.body)
       then submit_as env envelope envelope.(CommandEnvelope.issued_at_ms) ack
       else _ ← commit_trusted env.(env_ack) (StateEffect.CommandAcknowledged ack); mret ack);
  mret false.

Definition recover_admission (env : SubmitEnv) (recovery : AdmissionRecovery) : action HostStore bool :=
  let envelope := recovery.(AdmissionRecovery.envelope) in
  s ← current_state;
  known ← action_lift (committed_admission s recovery);
  match known with
  | Some terminal_already_committed =>
      _ ← (if device_route_uses_submit envelope.(CommandEnvelope.body)
           then ensure_command_idempotency env.(env_side_table) envelope else mret tt);
      mret terminal_already_committed
  | None =>
      entry_committed ← action_lift (committed_entry hex_digest s recovery);
      if (entry_committed : bool) then finish_submission env recovery
      else
        answer_committed ← action_lift (committed_answer s recovery);
        if (answer_committed : bool) then finish_submission env recovery else repeat_submission env recovery
  end.

Fixpoint recover_each (envs : CommandId → RecoverEnv) (recoveries : list AdmissionRecovery) : action HostStore unit :=
  match recoveries with
  | [] => mret tt
  | recovery :: rest =>
      let env := envs recovery.(AdmissionRecovery.envelope).(CommandEnvelope.command_id) in
      terminal_already_committed ← recover_admission env.(recover_submit) recovery;
      _ ← (if recovery.(AdmissionRecovery.complete_after_recovery) || terminal_already_committed
           then on_outbox (λ o, complete hex_digest o env.(recover_complete) recovery.(AdmissionRecovery.ticket))
           else mret tt);
      recover_each envs rest
  end.

(** The list is computed once, before the first recovery. *)
Definition recover_admissions (envs : CommandId → RecoverEnv) : action HostStore unit :=
  recoveries ← action_get (λ h, admission_recoveries hex_digest h.(device_outbox));
  recover_each envs recoveries.

(** What is kept of the content when the state and the outbox are known. *)
Definition protected_content (h : HostStore) : gset ContentId :=
  list_to_set (ContentRef.content_id <$> content_refs h.(canonical).(store_state))
  ∪ referenced_content_ids h.(device_outbox).

(** [CanonicalStore::load]: [journal] is the journal as it was opened, the other
    arguments are the files and what becomes of the writes. *)
Definition load_store (log : StreamLog) (disk : Disk) (journal : Journal) (outbox_file side : string) (ios : list IoOutcome)
    (envs : CommandId → RecoverEnv) (now_ms : Z) : result HostStore StateError :=
  match ContentStore_open disk with
  | (_, Err e) => Err e
  | (disk, Ok ownership) =>
      let? outbox := DeviceCommandOutbox_open hex_digest outbox_file in
      let? st := load_replayed log journal side ios in
      match recover_admissions envs (mkHost st outbox (ContentStore.mk disk ownership)) with
      | (_, Err e) => Err e
      | (h, Ok _) =>
          match on_content (cleanup_after_replay process_id now_ms (protected_content h)) h with
          | (_, Err e) => Err e
          | (h, Ok _) => Ok h
          end
      end
  end.
End device.
