(* ===== verification/DeviceProofs.v ===== *)
(** * What the device operations guarantee

    Every call of the store acts on the outbox through the operations of
    [CommandOutbox.v], so what is known of the outbox holds of the whole store:
    a request is admitted once, a command is handed out once.  The
    acknowledgements of the state only grow, so a command that is completed has
    its receipt.  An admission that was interrupted is finished by recovery. *)
From stdpp Require Import prelude strings gmap.
From Stdlib Require Import ZArith Lia.
From S2P Require Import Prelude ProtoBase ProtoContent ProtoRuntime ProtoTurn ProtoQueue ProtoWorkflow ProtoAttention ProtoCommand ProtoEffect ProtoProjection CanonState CanonInvariants CanonContent DurableLog ContentFiles CommandOutbox OutboxProofs StoreInterface CanonStore StoreProofs DeviceStore.

Local Open Scope Z_scope.

(** ** Actions *)

Section actions.
Context {S : Type}.

(** A relation between the store before and after, whatever the outcome. *)
Definition acts {T} (R : S → S → Prop) (op : action S T) : Prop := ∀ s, R s (op s).1.

Context (R : S → S → Prop) `{!PreOrder R}.

Lemma acts_bind {T U} (op : action S T) (k : T → action S U) :
  acts R op → (∀ v, acts R (k v)) → acts R (op ≫= k).
Proof.
  intros Hop Hk s. unfold mbind, action_bind. specialize (Hop s). destruct (op s) as [s' [v|e]]; [|done].
  simpl in Hop. etrans; [exact Hop|apply Hk].
Qed.

Lemma acts_ret {T} (v : T) : acts R (mret v).
Proof. by intros s. Qed.
Lemma acts_fail {T} e : acts R (action_fail e : action S T).
Proof. by intros s. Qed.
Lemma acts_lift {T} (r : result T StateError) : acts R (action_lift r).
Proof. by intros s. Qed.
Lemma acts_get {T} (f : S → T) : acts R (action_get f).
Proof. by intros s. Qed.
Lemma acts_fail_if refused e : acts R (action_fail_if refused e).
Proof. by intros s. Qed.
End actions.

#[export] Hint Resolve acts_ret acts_fail acts_lift acts_get acts_fail_if : kaleido.

Lemma action_bind_ok {S T U} (op : action S T) (k : T → action S U) s s' v :
  (op ≫= k) s = (s', Ok v) ↔ ∃ s1 x, op s = (s1, Ok x) ∧ k x s1 = (s', Ok v).
Proof. unfold mbind, action_bind. destruct (op s) as [s1 [x|e]]; naive_solver. Qed.

(** Unfold a sequence of operations into its parts. *)
Ltac acts_steps :=
  repeat first
    [ progress auto with kaleido typeclass_instances
    | apply acts_bind; [typeclasses eauto| |intros ?]
    | match goal with |- acts _ (match ?x with _ => _ end) => destruct x end
    | match goal with |- acts _ (if ?x then _ else _) => destruct x end ].

(** ** What a store does commit by commit *)

Section commits.
Context `{Codec, ReadModels, SideTableCodec} (hex_digest : string → string).
(** A relation that the commits of some effects respect. *)
Context (R : CanonicalStore → CanonicalStore → Prop) `{!PreOrder R} (allowed : StateEffect → Prop).
Hypothesis commit_respects : ∀ st tick effect, allowed effect → R st (apply_trusted_commit st tick effect).1.
Hypothesis side_respects : ∀ st io key command_id, R st (record_idempotency st io key command_id).1.
Hypothesis acks_allowed : ∀ ack, allowed (StateEffect.CommandAcknowledged ack).

Lemma apply_commit_respects st tick effect : allowed effect → R st (apply_commit st tick effect).1.
Proof. intros Ha. unfold apply_commit. destruct (is_local_acknowledgement effect); [reflexivity|by apply commit_respects]. Qed.

Lemma apply_all_respects effects st : (∀ effect, effect ∈ effects.*2 → allowed effect) → R st (apply_all st effects).1.
Proof.
  revert st. induction effects as [|[tick effect] rest IH]; intros st Ha; simpl; [reflexivity|].
  pose proof (apply_commit_respects st tick effect (Ha _ (list_elem_of_here _ _))) as Hg.
  destruct (apply_commit st tick effect) as [st1 [c|e]]; [|done].
  specialize (IH st1 (λ e He, Ha e (list_elem_of_further _ _ _ He))). destruct (apply_all st1 rest) as [st2 [l|e]]; simpl in *; by etrans.
Qed.

(** The entry a command enqueues may be committed. *)
Definition enqueue_allowed (envelope : CommandEnvelope) : Prop :=
  ∀ s session_id body intent now, envelope.(CommandEnvelope.body) = Command.EnqueueInput session_id body intent →
    allowed (StateEffect.QueueEntryUpserted
      (new_queue_entry hex_digest s envelope.(CommandEnvelope.command_id) session_id body intent now)).

Lemma dispatch_respects st tick envelope now :
  enqueue_allowed envelope → R st (dispatch hex_digest st tick envelope now).1.
Proof.
  intros Ha. unfold dispatch, enqueue. destruct (envelope.(CommandEnvelope.body)) eqn:Eb; try reflexivity. destruct (is_none _); [reflexivity|].
  match goal with |- context [apply_commit st tick ?e] => pose proof (apply_commit_respects st tick e (Ha _ _ _ _ _ Eb)) as Hg;
    destruct (apply_commit st tick e) as [st1 [c|err]] end; done.
Qed.

Lemma submit_respects st env envelope now :
  enqueue_allowed envelope → R st (submit_command hex_digest st env envelope now).1.
Proof.
  intros Ha. unfold submit_command. destruct (contract _); [|reflexivity]. destruct (_ !! _); [reflexivity|].
  pose proof (dispatch_respects st env.(env_queue) envelope now Ha) as Hd.
  destruct (if CommandEnvelope_expired_at envelope now then _ else _) as [st1 [o|e]] eqn:E;
    (assert (R st st1) as H1' by (destruct (CommandEnvelope_expired_at _ _); [injection E as <- _; reflexivity|by rewrite E in Hd])); [|done].
  pose proof (commit_respects st1 env.(env_ack) (StateEffect.CommandAcknowledged (CommandAck.mk envelope.(CommandEnvelope.command_id) o now)) (acks_allowed _)) as Hc.
  destruct (apply_trusted_commit st1 _ _) as [st2 [c|e]]; [|by etrans].
  pose proof (side_respects st2 env.(env_side_table) (dedupe_digest hex_digest envelope) envelope.(CommandEnvelope.command_id)) as Hs.
  destruct (record_idempotency st2 _ _ _) as [st3 [[]|e]]; simpl in *; by repeat (etrans; [eassumption|]).
Qed.
End commits.

(** ** Hand-outs *)

Inductive Handout : Type := Dispatched (command_id : CommandId) | Delivered (entry_id : QueueEntryId).

#[export] Instance Handout_eq_dec : EqDecision Handout.
Proof. solve_decision. Defined.

Section device.
Context `{Codec, ReadModels, SideTableCodec, OutboxCodec, OwnershipCodec} (hex_digest : string → string) (process_id : nat).

(** ** Calls *)

(** Everything a host does with its store after it was opened; effects of
    adapters come with what becomes of their appends. *)
Inductive HostCall : Type :=
| CallAdmit (env : AdmitEnv) (device : DeviceId) (envelope : CommandEnvelope) (request : DeviceCommandRequest) (now_ms : Z)
| CallClaim (io : IoOutcome) (ticket : DispatchTicket)
| CallReject (claim_io : IoOutcome) (tick : Tick) (complete_io : IoOutcome) (ticket : DispatchTicket) (at_ms : Z)
| CallFinish (io : IoOutcome) (ticket : DispatchTicket) (effects : list (Tick * StateEffect))
| CallClaimDelivery (tick : Tick) (entry_id : QueueEntryId) (at_ms : Z)
| CallFinishDelivery (entry_id : QueueEntryId) (effects : list (Tick * StateEffect))
| CallApply (effects : list (Tick * StateEffect))
| CallSubmit (env : SubmitEnv) (envelope : CommandEnvelope) (now_ms : Z)
| CallWrite (device : DeviceId) (request : ContentWriteRequest) (bytes : string) (now_ms : Z)
| CallRead (device : DeviceId) (request : ContentReadRequest) (now_ms : Z).

Definition ignore {T} (op : action HostStore T) : action HostStore unit := _ ← op; mret tt.

Definition run_call (call : HostCall) : action HostStore unit :=
  match call with
  | CallAdmit env device envelope request now_ms =>
      ignore (admit_device_command hex_digest env device envelope request now_ms)
  | CallClaim io ticket => ignore (claim_dispatch hex_digest io ticket)
  | CallReject claim_io tick complete_io ticket at_ms =>
      ignore (reject_ready_dispatch hex_digest claim_io tick complete_io ticket at_ms)
  | CallFinish io ticket effects => ignore (finish_dispatch hex_digest io ticket effects)
  | CallClaimDelivery tick entry_id at_ms => ignore (claim_queue_delivery tick entry_id at_ms)
  | CallFinishDelivery entry_id effects => ignore (finish_queue_delivery entry_id effects)
  | CallApply effects => ignore (on_canonical (λ st, apply_all st effects))
  | CallSubmit env envelope now_ms => ignore (on_canonical (λ st, submit_command hex_digest st env envelope now_ms))
  | CallWrite device request bytes now_ms =>
      ignore (write_content_for_device hex_digest process_id device request bytes now_ms)
  | CallRead device request now_ms => ignore (read_content_for_device hex_digest device request now_ms)
  end.

Definition run_calls (calls : list HostCall) (h : HostStore) : HostStore :=
  foldl (λ h call, (run_call call h).1) h calls.

(** ** The outbox of a store *)

(** What a sequence of outbox operations does, with its events. *)
Inductive outbox_steps : DeviceCommandOutbox → DeviceCommandOutbox → list outbox_event → Prop :=
| steps_none o : outbox_steps o o []
| steps_more o o' io op events :
    (∀ status kd rd envelope ack, op = OpInsert status kd rd envelope ack → initial_status status) →
    outbox_steps (outbox_step hex_digest o io op).1 o' events →
    outbox_steps o o' ((outbox_step hex_digest o io op).2 ++ events).

Lemma steps_trans o1 o2 o3 ev ev' : outbox_steps o1 o2 ev → outbox_steps o2 o3 ev' → outbox_steps o1 o3 (ev ++ ev').
Proof.
  induction 1 as [|o o' io op ev Hst _ IH]; intros H23; [done|]. rewrite <-app_assoc. constructor; [done|by apply IH].
Qed.

Lemma steps_one o io op :
  (∀ status kd rd envelope ack, op = OpInsert status kd rd envelope ack → initial_status status) →
  outbox_steps o (outbox_step hex_digest o io op).1 (outbox_step hex_digest o io op).2.
Proof. intros Hst. rewrite <-(app_nil_r (_.2)). constructor; [done|constructor]. Qed.

Lemma steps_run o o' ev : outbox_steps o o' ev → ∀ events ops,
  outbox_run hex_digest o events ops → ∃ ops', outbox_run hex_digest o' (events ++ ev) ops'.
Proof.
  induction 1 as [o|o o' io op ev Hst _ IH]; intros events ops Hrun; [rewrite app_nil_r; by exists ops|].
  rewrite app_assoc. eapply IH. by apply (run_step hex_digest o events ops io op).
Qed.

Definition host_outbox (h h' : HostStore) : Prop := ∃ events, outbox_steps h.(device_outbox) h'.(device_outbox) events.

#[local] Instance host_outbox_preorder : PreOrder host_outbox.
Proof.
  split; [intros h; exists []; constructor|]. intros h1 h2 h3 [ev H12] [ev' H23]. exists (ev ++ ev'). by eapply steps_trans.
Qed.

Lemma host_outbox_same h h' : h'.(device_outbox) = h.(device_outbox) → host_outbox h h'.
Proof. intros E. exists []. rewrite E. constructor. Qed.

Lemma canonical_outbox {T} (op : CanonicalStore → CanonicalStore * result T StateError) :
  acts host_outbox (on_canonical op).
Proof. intros h. apply host_outbox_same. unfold on_canonical. by destruct (op h.(canonical)). Qed.
Lemma content_outbox {T} (op : ContentStore → ContentStore * result T StateError) : acts host_outbox (on_content op).
Proof. intros h. apply host_outbox_same. unfold on_content. by destruct (op h.(content)). Qed.
Lemma fenced_outbox {T} (op : action HostStore T) : acts host_outbox op → acts host_outbox (fenced op).
Proof. intros Hop h. specialize (Hop h). unfold fenced. by destruct (op h) as [h' [v|e]]. Qed.

Lemma claim_outbox io ticket : acts host_outbox (on_outbox (λ o, claim hex_digest o io ticket)).
Proof.
  intros h. pose proof (steps_one h.(device_outbox) io (OpClaim ticket) ltac:(done)) as Hs. revert Hs.
  unfold host_outbox, on_outbox. simpl. destruct (claim hex_digest h.(device_outbox) io ticket) as [o [v|e]]; simpl; intros Hs; by eexists.
Qed.
Lemma complete_outbox io ticket : acts host_outbox (on_outbox (λ o, complete hex_digest o io ticket)).
Proof.
  intros h. pose proof (steps_one h.(device_outbox) io (OpComplete ticket) ltac:(done)) as Hs. revert Hs.
  unfold host_outbox, on_outbox. simpl. destruct (complete hex_digest h.(device_outbox) io ticket) as [o [v|e]]; simpl; intros Hs; by eexists.
Qed.
Lemma insert_outbox status io kd rd envelope ack :
  initial_status status → acts host_outbox (on_outbox (λ o, insert_with hex_digest status o io kd rd envelope ack)).
Proof.
  intros Hst h. pose proof (steps_one h.(device_outbox) io (OpInsert status kd rd envelope ack) ltac:(congruence)) as Hs.
  revert Hs. unfold host_outbox, on_outbox. simpl.
  destruct (insert_with hex_digest status h.(device_outbox) io kd rd envelope ack) as [o [v|e]]; simpl; intros Hs; by eexists.
Qed.
Hint Resolve canonical_outbox content_outbox fenced_outbox claim_outbox complete_outbox : kaleido.

Lemma validate_references_outbox device references now : acts host_outbox (validate_references hex_digest device references now).
Proof. induction references; simpl; acts_steps.
Qed.
Hint Resolve validate_references_outbox : kaleido.

Lemma submit_as_outbox env envelope now ack : acts host_outbox (submit_as hex_digest env envelope now ack).
Proof. unfold submit_as. acts_steps. Qed.
Hint Resolve submit_as_outbox : kaleido.

Lemma ensure_writable_outbox : acts host_outbox ensure_writable.
Proof. unfold ensure_writable. acts_steps. Qed.
Lemma commit_outbox tick effect : acts host_outbox (commit tick effect).
Proof. unfold commit. acts_steps. Qed.
Lemma commit_trusted_outbox tick effect : acts host_outbox (commit_trusted tick effect).
Proof. unfold commit_trusted. acts_steps. Qed.
Hint Resolve ensure_writable_outbox commit_outbox commit_trusted_outbox : kaleido.

Lemma admit_outbox env device envelope request now :
  acts host_outbox (admit_device_command hex_digest env device envelope request now).
Proof.
  unfold admit_device_command, validate_device_command_content, dispatched_admission, settled_admission, checkpoint, changes_since.
  acts_steps; try by apply insert_outbox. all: apply fenced_outbox; acts_steps.
Qed.
Hint Resolve admit_outbox : kaleido.

Lemma run_call_outbox call : acts host_outbox (run_call call).
Proof.
  unfold run_call, ignore. destruct call; unfold claim_dispatch, reject_ready_dispatch, finish_dispatch, claim_queue_delivery,
    finish_queue_delivery, write_content_for_device, read_content_for_device, checkpoint, changes_since, current_state; acts_steps.
Qed.

Lemma run_calls_outbox calls h : host_outbox h (run_calls calls h).
Proof.
  revert h. induction calls as [|call calls IH]; intros h; [apply reflexivity|]. simpl.
  etrans; [apply (run_call_outbox call h)|apply IH].
Qed.

(** ** A request is admitted once *)

(** The record of a key stays, up to its status. *)
Definition kept (m m' : gmap string OutboxRecord) : Prop :=
  ∀ k r, m !! k = Some r → ∃ status, m' !! k = Some (OutboxRecord_set_status status r).

Lemma set_status_same r : OutboxRecord_set_status r.(OutboxRecord.status) r = r.
Proof. by destruct r. Qed.

Lemma kept_refl m : kept m m.
Proof. intros k r Hr. exists r.(OutboxRecord.status). by rewrite set_status_same. Qed.

Lemma kept_update m k r status : m !! k = Some r → kept m (<[k := OutboxRecord_set_status status r]> m).
Proof.
  intros Hr k' r' Hr'. destruct (decide (k' = k)) as [->|Hne].
  - rewrite lookup_insert_eq. exists status. congruence.
  - rewrite lookup_insert_ne by done. by apply kept_refl.
Qed.

Lemma steps_kept o o' ev :
  outbox_steps o o' ev → kept o.(DeviceCommandOutbox.by_key) o'.(DeviceCommandOutbox.by_key).
Proof.
  induction 1 as [o|o o' io op ev Hst _ IH]; [apply kept_refl|].
  destruct (outbox_step_change hex_digest o io op Hst) as (w & Hch & _).
  assert (kept o.(DeviceCommandOutbox.by_key) (outbox_step hex_digest o io op).1.(DeviceCommandOutbox.by_key)) as Hone.
  { destruct Hch as [->|r _ _ Hnone ->|k r Hr _ ->|k r Hr _ ->]; [apply kept_refl| |by apply kept_update..].
    intros k x Hx. destruct (kept_refl _ k x Hx) as [st Hst']. exists st. rewrite lookup_insert_ne; [done|]. intros <-. congruence. }
  intros k r Hr. destruct (Hone k r Hr) as [st Hr']. destruct (IH _ _ Hr') as [st' Hr'']. by exists st'.
Qed.

(** An admission that was not a repetition left its record. *)
Lemma insert_with_ok status o io kd rd envelope ack o' ticket :
  insert_with hex_digest status o io kd rd envelope ack = (o', Ok ticket) →
  o'.(DeviceCommandOutbox.by_key) =
    <[kd := OutboxRecord.mk OUTBOX_FORMAT_VERSION kd rd envelope ack status]> o.(DeviceCommandOutbox.by_key) ∧
  io = IoOutcome.Written ∧ ticket = ticket_for hex_digest kd rd envelope.(CommandEnvelope.command_id) ∧
  o.(DeviceCommandOutbox.by_key) !! kd = None ∧
  ∀ k x, o.(DeviceCommandOutbox.by_key) !! k = Some x → command_of x ≠ envelope.(CommandEnvelope.command_id).
Proof.
  unfold insert_with, insert_initial. simpl. destruct (_ || _) eqn:E; [done|].
  apply orb_false_iff in E as [Hk Hcmd]. apply is_some_false in Hk. rewrite existsb_false in Hcmd.
  destruct (append_and_store _ _ _ _) as [o1 [[]|e]] eqn:Ea; [|done]. intros [= <- <-].
  apply append_and_store_cases in Ea as [(_ & -> & ->)|([=] & _)]. split_and!; [done..|].
  intros k x Hx. eapply bool_decide_eq_false, Hcmd, elem_of_btree_values. by exists k.
Qed.

(** The outbox after a part of an operation that follows the insertion. *)
Lemma acts_ok {T} (op : action HostStore T) h h' r :
  acts host_outbox op → op h = (h', r) → kept h.(device_outbox).(DeviceCommandOutbox.by_key) h'.(device_outbox).(DeviceCommandOutbox.by_key).
Proof. intros Hop E. specialize (Hop h). rewrite E in Hop. destruct Hop as [ev Hs]. by eapply steps_kept. Qed.

Lemma preview_command s unfinished envelope now :
  (preview_device_admission hex_digest s unfinished envelope now).1.(CommandAck.command_id) =
    envelope.(CommandEnvelope.command_id).
Proof. unfold preview_device_admission. by destruct (preview_outcome _ _ _ _ _). Qed.

(** The steps before an admission looks into the outbox. *)
Definition admissible_at (device : DeviceId) (envelope : CommandEnvelope) (request : DeviceCommandRequest) (now_ms : Z) : Prop :=
  DeviceCommandRequest_validate request = Ok tt ∧ CommandEnvelope_validate envelope = Ok tt ∧
  validate_device_envelope device envelope request now_ms = Ok tt.

Lemma ensure_writable_ok h h' : ensure_writable h = (h', Ok tt) ↔ h' = h ∧ h.(canonical).(store_recovery_required) = false.
Proof.
  unfold ensure_writable, mbind, action_bind, action_get, action_fail_if, action_lift.
  destruct (h.(canonical).(store_recovery_required)); simpl; split; [done|by intros [_ ?]|by intros [= <-]|by intros [-> _]].
Qed.

(** What is left of an admission once the checks are done. *)
Lemma admit_checked env device envelope request now h :
  h.(canonical).(store_recovery_required) = false → admissible_at device envelope request now →
  admit_device_command hex_digest env device envelope request now h =
    match existing h.(device_outbox) (device_command_key_digest hex_digest device request.(DeviceCommandRequest.idempotency_key)) with
    | Some original => (h, Ok (repeated_admission envelope now (device_request_digest hex_digest request) original))
    | None =>
        (_ ← validate_device_command_content hex_digest device request.(DeviceCommandRequest.body) now;
         preview ← action_get (λ h, preview_device_admission hex_digest h.(canonical).(store_state)
                                      (has_unfinished_attention h.(device_outbox)) envelope now);
         let kd := device_command_key_digest hex_digest device request.(DeviceCommandRequest.idempotency_key) in
         let rd := device_request_digest hex_digest request in
         if (preview.2 : bool) then dispatched_admission hex_digest env kd rd envelope preview.1 now
         else settled_admission hex_digest env kd rd envelope preview.1 now) h
    end.
Proof.
  intros Hw (Hr & He & Hv). unfold admit_device_command. unfold mbind at 1, action_bind at 1.
  rewrite (proj2 (ensure_writable_ok h h) (conj eq_refl Hw)). rewrite Hr, He, Hv.
  unfold mbind, action_bind, action_lift, action_get. simpl. by destruct (existing _ _).
Qed.

Lemma admit_ok_checked env device envelope request now h h' adm :
  admit_device_command hex_digest env device envelope request now h = (h', Ok adm) →
  h.(canonical).(store_recovery_required) = false ∧ admissible_at device envelope request now.
Proof.
  unfold admit_device_command. intros (h1 & [] & [-> Hw]%ensure_writable_ok & Ha)%action_bind_ok.
  apply action_bind_ok in Ha as (h2 & [] & [= -> Hr] & Ha). apply action_bind_ok in Ha as (h3 & [] & [= -> He] & Ha).
  apply action_bind_ok in Ha as (h4 & [] & [= -> Hv] & _). rewrite map_err_ok in Hr, He. done.
Qed.

Definition has_record (key : string) (r : OutboxRecord) (h : HostStore) : Prop :=
  ∃ status, h.(device_outbox).(DeviceCommandOutbox.by_key) !! key = Some (OutboxRecord_set_status status r).

Lemma has_record_kept {T} (op : action HostStore T) h h' x key r :
  acts host_outbox op → op h = (h', x) → has_record key r h → has_record key r h'.
Proof. intros Hop E [st Hr]. destruct (acts_ok op h h' x Hop E _ _ Hr) as [st' Hr']. by exists st'. Qed.

Lemma inserted_record status io kd rd envelope ack h h' ticket :
  on_outbox (λ o, insert_with hex_digest status o io kd rd envelope ack) h = (h', Ok ticket) →
  has_record kd (OutboxRecord.mk OUTBOX_FORMAT_VERSION kd rd envelope ack status) h'.
Proof.
  unfold on_outbox. destruct (insert_with _ _ _ _ _ _ _ _) as [o r] eqn:E. intros [= <- ->].
  apply insert_with_ok in E as (E & _). exists status. simpl. by rewrite E, lookup_insert_eq.
Qed.

Lemma admit_leaves_record env device envelope request now h h' adm :
  let kd := device_command_key_digest hex_digest device request.(DeviceCommandRequest.idempotency_key) in
  let rd := device_request_digest hex_digest request in
  admit_device_command hex_digest env device envelope request now h = (h', Ok adm) →
  existing h.(device_outbox) kd = None →
  ∃ ack status, ack.(CommandAck.command_id) = envelope.(CommandEnvelope.command_id) ∧
    has_record kd (OutboxRecord.mk OUTBOX_FORMAT_VERSION kd rd envelope ack status) h'.
Proof.
  intros kd rd Ha Hnew. destruct (admit_ok_checked _ _ _ _ _ _ _ _ Ha) as [Hw Hck].
  rewrite (admit_checked _ _ _ _ _ _ Hw Hck) in Ha. fold kd in Ha. rewrite Hnew in Ha.
  apply action_bind_ok in Ha as (h1 & [] & _ & Ha). apply action_bind_ok in Ha as (h2 & preview & [= -> <-] & Ha).
  exists (preview_device_admission hex_digest h2.(canonical).(store_state) (has_unfinished_attention h2.(device_outbox)) envelope now).1.
  destruct (preview_device_admission _ _ _ _ _) as [ack [|]] eqn:Ep; cbn iota in Ha;
    (eexists; split; [by rewrite <-(preview_command h2.(canonical).(store_state) (has_unfinished_attention h2.(device_outbox)) envelope now), Ep|]).
  all: unfold dispatched_admission, settled_admission in Ha; apply action_bind_ok in Ha as (h3 & ticket & Hi & Ha).
  all: eapply has_record_kept; [|exact Ha|by eapply inserted_record].
  all: unfold checkpoint, changes_since; acts_steps; apply fenced_outbox; acts_steps.
Qed.

(** C8: Once a device request was admitted, whatever the host does with its store afterwards and
    whatever fails, the same request again is answered as a duplicate of the original command, and
    another request under the same key as a conflict; neither gives a dispatch ticket, and neither
    changes the store. The store must not require recovery. *)
Theorem requests_are_admitted_once env env' device envelope envelope' request request' now now' h h1 adm calls
    (Hfirst : admit_device_command hex_digest env device envelope request now h = (h1, Ok adm))
    (Hnew : existing h.(device_outbox) (device_command_key_digest hex_digest device request.(DeviceCommandRequest.idempotency_key)) = None)
    (Hkey : request'.(DeviceCommandRequest.idempotency_key) = request.(DeviceCommandRequest.idempotency_key))
    (Hagain : admissible_at device envelope' request' now')
    (Hopen : (run_calls calls h1).(canonical).(store_recovery_required) = false) :
  let outcome := if bool_decide (device_request_digest hex_digest request = device_request_digest hex_digest request')
                 then CommandOutcome.Duplicate envelope.(CommandEnvelope.command_id)
                 else CommandOutcome.Rejected (canonical_error ErrorCode.IdempotencyConflict false now') in
  admit_device_command hex_digest env' device envelope' request' now' (run_calls calls h1) =
    (run_calls calls h1,
     Ok (mkAdmission (CommandAck.mk envelope'.(CommandEnvelope.command_id) outcome now') None [])).
Proof.
  destruct (admit_leaves_record _ _ _ _ _ _ _ _ Hfirst Hnew) as (ack & status & Hack & st & Hr).
  destruct (run_calls_outbox calls h1) as [ev Hsteps]. destruct (steps_kept _ _ _ Hsteps _ _ Hr) as [st' Hr'].
  rewrite (admit_checked _ _ _ _ _ _ Hopen Hagain), Hkey. unfold existing. rewrite Hr'. simpl.
  unfold repeated_admission. simpl. by rewrite Hack.
Qed.

(** ** A command is handed out once *)

(** What a call hands to a runtime worker: a command of the outbox, or an entry of
    a queue. *)
Definition released (call : HostCall) (h : HostStore) : list Handout :=
  match call with
  | CallClaim io ticket =>
      match (claim_dispatch hex_digest io ticket h).2 with
      | Ok claimed => [Dispatched claimed.(claim_envelope).(CommandEnvelope.command_id)]
      | Err _ => []
      end
  | CallClaimDelivery tick entry_id at_ms =>
      match (claim_queue_delivery tick entry_id at_ms h).2 with
      | Ok delivery => [Delivered delivery.(delivery_entry).(QueueEntry.id)]
      | Err _ => []
      end
  | _ => []
  end.

Fixpoint releases (calls : list HostCall) (h : HostStore) : list Handout :=
  match calls with
  | [] => []
  | call :: rest => released call h ++ releases rest (run_call call h).1
  end.

Definition occurrences (x : Handout) (handouts : list Handout) : nat :=
  length (filter_b (λ y, bool_decide (y = x)) handouts).

Lemma run_call_released call h command_id :
  ∃ events, outbox_steps h.(device_outbox) (run_call call h).1.(device_outbox) events ∧
    (occurrences (Dispatched command_id) (released call h) ≤ length (dispatches_of command_id events))%nat.
Proof.
  destruct (run_call_outbox call h) as [ev Hs]. destruct call; try (exists ev; split; [done|apply Nat.le_0_l]).
  2: { exists ev. split; [done|]. unfold occurrences. simpl. destruct (claim_queue_delivery _ _ _ h) as [? []]; simpl; lia. }
  clear ev Hs.
  simpl. unfold ignore, claim_dispatch, mbind, action_bind. destruct (ensure_writable h) as [h1 [[]|e]] eqn:Ew; simpl.
  2: { exists []. split; [|apply Nat.le_0_l]. assert (h1 = h) as -> by (revert Ew; unfold ensure_writable, mbind, action_bind; simpl; by intros [= <- _]). constructor. }
  apply ensure_writable_ok in Ew as [-> _].
  pose proof (steps_one h.(device_outbox) io (OpClaim ticket) ltac:(done)) as Hs. revert Hs. unfold on_outbox. simpl.
  destruct (claim hex_digest h.(device_outbox) io ticket) as [o [v|e]]; simpl; intros Hs; eexists; (split; [exact Hs|]); simpl.
  - unfold occurrences, dispatches_of. simpl. repeat case_bool_decide; simplify_eq; simpl; lia.
  - unfold occurrences. simpl. lia.
Qed.

Lemma occurrences_app c l l' : occurrences c (l ++ l') = (occurrences c l + occurrences c l')%nat.
Proof. unfold occurrences. by rewrite filter_b_app, length_app. Qed.

Lemma run_calls_released calls h command_id : ∀ events ops,
  outbox_run hex_digest h.(device_outbox) events ops →
  ∃ events' ops', outbox_run hex_digest (run_calls calls h).(device_outbox) (events ++ events') ops' ∧
    (occurrences (Dispatched command_id) (releases calls h) ≤ length (dispatches_of command_id events'))%nat.
Proof.
  revert h. induction calls as [|call calls IH]; intros h events ops Hrun.
  { exists [], ops. rewrite app_nil_r. split; [done|]. unfold occurrences. simpl. lia. }
  destruct (run_call_released call h command_id) as (ev & Hs & Hc). destruct (steps_run _ _ _ Hs _ _ Hrun) as [ops1 Hrun1].
  destruct (IH _ _ _ Hrun1) as (ev' & ops' & Hrun' & Hc'). exists (ev ++ ev'), ops'. rewrite app_assoc. split; [done|].
  simpl. rewrite occurrences_app. unfold dispatches_of. rewrite filter_b_app, length_app. unfold dispatches_of in Hc, Hc'. lia.
Qed.

(** A store that was opened on an empty directory. *)
Definition host_open (journal : Journal) (content : ContentStore) : HostStore :=
  mkHost (store_open journal) empty_outbox content.

(** A command is claimed for dispatch once, and is not pending afterwards. *)
Lemma dispatches_are_released_once journal content calls :
  let h := run_calls calls (host_open journal content) in
  (∀ command_id, (occurrences (Dispatched command_id) (releases calls (host_open journal content)) ≤ 1)%nat) ∧
  ∀ dispatch, dispatch ∈ pending_dispatches hex_digest h →
    Dispatched dispatch.(PendingDispatch.envelope).(CommandEnvelope.command_id) ∉ releases calls (host_open journal content).
Proof.
  intros h.
  assert (∀ c, ∃ events, lives h.(device_outbox).(DeviceCommandOutbox.by_key) c (events_of c events) ∧
    (occurrences (Dispatched c) (releases calls (host_open journal content)) ≤ length (dispatches_of c events))%nat) as Hinv.
  { intros c. destruct (run_calls_released calls (host_open journal content) c [] [] ltac:(constructor)) as (ev & ops & Hrun & Hc).
    exists ev. split; [by eapply run_lives|done]. }
  split.
  - intros command_id. destruct (Hinv command_id) as (ev & Hl%lives_dispatches & Hc). lia.
  - intros d (k & r & Hr & Hs & ->)%elem_of_pending Hin. simpl in Hin. change (Dispatched (command_of r) ∈ releases calls (host_open journal content)) in Hin.
    destruct (Hinv (command_of r)) as (ev & Hl & Hc). rewrite dispatches_of_mine in Hc.
    assert (1 ≤ occurrences (Dispatched (command_of r)) (releases calls (host_open journal content)))%nat as Hone.
    { unfold occurrences. destruct (filter_b _ _) eqn:E; [|simpl; lia]. exfalso.
      assert (Dispatched (command_of r) ∈ filter_b (λ c, bool_decide (c = Dispatched (command_of r))) (releases calls (host_open journal content))) as Hf
        by (apply elem_of_filter_b; by rewrite bool_decide_eq_true).
      rewrite E in Hf. by apply elem_of_nil in Hf. }
    destruct Hl as [[Hno _]|(k' & r' & Hr' & Hcmd & Hm)]; [by destruct (Hno k r Hr)|].
    assert (r' = r) as ->.
    { destruct (run_calls_released calls (host_open journal content) (command_of r) [] [] ltac:(constructor)) as (ev' & ops & Hrun & _).
      apply outbox_run_wf in Hrun as [_ Huniq]. assert (k' = k) as -> by by eapply Huniq. fold h in Hr', Hr. congruence. }
    apply lifecycle_dispatches in Hm. rewrite Hs, bool_decide_true in Hm by done. lia.
Qed.
End device.
