(* ===== verification/DeviceReceipts.v ===== *)
(** * Completed commands have receipts

    A command leaves the outbox as completed only when the canonical state holds
    the structured result that closes it.  The acknowledgements of the state only
    grow, so the receipt stays. *)
From stdpp Require Import prelude strings gmap.
From Stdlib Require Import ZArith Lia.
From S2P Require Import Prelude ProtoBase ProtoContent ProtoRuntime ProtoTurn ProtoQueue ProtoWorkflow ProtoAttention ProtoCommand ProtoEffect ProtoProjection CanonState CanonInvariants CanonContent DurableLog ContentFiles CommandOutbox OutboxProofs StoreInterface CanonStore StoreProofs DeviceStore DeviceProofs.

Local Open Scope Z_scope.

(** ** Acknowledgements only grow *)

Lemma apply_acks_grow s effect s' :
  CanonicalState_apply s effect = (s', Ok tt) →
  s'.(CanonicalState.acks) = s.(CanonicalState.acks) ++ match effect with
    | StateEffect.CommandAcknowledged ack => [ack]
    | _ => []
    end.
Proof.
  intros (s1 & Ha & ->)%apply_ok. destruct (recompute_derived_frame s1) as (ms & mp & ->). simpl.
  destruct (apply_change_acks _ _ _ Ha) as [E|(ack & -> & Hack)].
  - rewrite E. destruct effect; try by rewrite app_nil_r. exfalso. simpl in Ha. unfold checked in Ha.
    destruct (apply_ack s ack) as [s2|] eqn:Eack; [|by destruct (_ : result _ _)]. apply apply_ack_ok in Eack as [-> _].
    injection Ha as <-. simpl in E. apply (f_equal length) in E. rewrite length_app in E. simpl in E. lia.
  - by apply apply_ack_ok in Hack as [-> _].
Qed.

Section receipts.
Context `{Codec, ReadModels, SideTableCodec, OutboxCodec, OwnershipCodec} (hex_digest : string → string) (process_id : nat).

Definition acks_in (st : CanonicalStore) : list CommandAck := st.(store_state).(CanonicalState.acks).
Definition store_grows (st st' : CanonicalStore) : Prop := acks_in st `prefix_of` acks_in st'.

#[local] Instance store_grows_preorder : PreOrder store_grows.
Proof. split; [intros st; by unfold store_grows|]. intros st1 st2 st3. unfold store_grows. apply transitivity. Qed.

Lemma commit_grows st tick effect : store_grows st (apply_trusted_commit st tick effect).1.
Proof.
  destruct (apply_trusted_commit st tick effect) as [st' r] eqn:E. unfold store_grows, acks_in. simpl.
  destruct (commit_state_cases _ _ _ _ _ E) as [->|Ha]; [done|]. rewrite (apply_acks_grow _ _ _ Ha). by apply prefix_app_r.
Qed.

Lemma commit_acknowledged st tick ack st' c :
  apply_trusted_commit st tick (StateEffect.CommandAcknowledged ack) = (st', Ok c) → ack ∈ acks_in st'.
Proof.
  intros Ha. apply apply_trusted_commit_ok in Ha as Hok. destruct Hok as (p & Hp & Et & _).
  destruct (commit_written _ _ tick.(tick_views) _ _ Hp) as (_ & Hst & _). rewrite <-Et, Ha in Hst. simpl in Hst.
  apply prepare_commit_ok in Hp as (_ & _ & Happ & _). unfold acks_in. rewrite Hst, (apply_acks_grow _ _ _ Happ).
  apply elem_of_app. right. by apply list_elem_of_singleton.
Qed.

Lemma side_grows st io key command_id : store_grows st (record_idempotency st io key command_id).1.
Proof. by unfold store_grows, acks_in. Qed.

Lemma apply_commit_grows st tick effect : store_grows st (apply_commit st tick effect).1.
Proof. apply (apply_commit_respects _ (λ _, True)); [intros; apply commit_grows|done]. Qed.

Lemma apply_all_grows effects st : store_grows st (apply_all st effects).1.
Proof. apply (apply_all_respects _ (λ _, True)); [intros; apply commit_grows|done]. Qed.

(** A batch that went through recorded all its acknowledgements. *)
Lemma apply_all_acknowledged effects st st' records ack :
  apply_all st effects = (st', Ok records) → StateEffect.CommandAcknowledged ack ∈ effects.*2 → ack ∈ acks_in st'.
Proof.
  revert st records. induction effects as [|[tick effect] rest IH]; intros st recs; simpl; [by intros _ ?%elem_of_nil|].
  destruct (apply_commit st tick effect) as [st1 [c|e]] eqn:E; [|done].
  pose proof (apply_all_grows rest st1) as Hg. destruct (apply_all st1 rest) as [st2 [l|e]] eqn:E2; [|done].
  intros [= -> _] [<-|Hin]%elem_of_cons; [|by eapply IH].
  unfold apply_commit in E. destruct (is_local_acknowledgement _); [done|]. apply commit_acknowledged in E.
  destruct Hg as [more Hg]. simpl in Hg. rewrite Hg. apply elem_of_app. by left.
Qed.

Lemma submit_grows st env envelope now : store_grows st (submit_command hex_digest st env envelope now).1.
Proof. apply (submit_respects _ _ (λ _, True)); [intros; apply commit_grows|apply side_grows|done..]. Qed.

(** ** Receipts *)

(** An acknowledgement that closes a command. *)
Definition closes (command : Command) (outcome : CommandOutcome) : bool :=
  match command with
  | Command.SubmitPrompt session_id _ =>
      accepted_for RuntimeAcceptanceKind.PromptTurn session_id (Some outcome) || is_rejected (Some outcome)
  | Command.InterruptTurn session_id _ =>
      accepted_for RuntimeAcceptanceKind.SessionControl session_id (Some outcome) || is_rejected (Some outcome)
  | _ => true
  end.

(** These commands are closed by an acknowledgement. *)
Definition needs_receipt (r : OutboxRecord) : bool :=
  is_accepted_locally r.(OutboxRecord.admission_ack).(CommandAck.outcome)
  && match r.(OutboxRecord.envelope).(CommandEnvelope.body) with
     | Command.SubmitPrompt _ _ | Command.InterruptTurn _ _ => true
     | _ => false
     end.

Definition has_receipt (acks : list CommandAck) (r : OutboxRecord) : Prop :=
  needs_receipt r = true →
  ∃ ack, ack ∈ acks ∧ ack.(CommandAck.command_id) = command_of r ∧ is_terminal ack.(CommandAck.outcome) = true ∧
    closes r.(OutboxRecord.envelope).(CommandEnvelope.body) ack.(CommandAck.outcome) = true.

Lemma has_receipt_grows acks acks' r : acks `prefix_of` acks' → has_receipt acks r → has_receipt acks' r.
Proof.
  intros [more ->] Hr Hn. destruct (Hr Hn) as (ack & Hin & Hrest). exists ack. split; [|done]. apply elem_of_app. by left.
Qed.

Lemma has_receipt_status acks r status : has_receipt acks (OutboxRecord_set_status status r) ↔ has_receipt acks r.
Proof. done. Qed.

Notation records_of h := h.(device_outbox).(DeviceCommandOutbox.by_key).

(** The acknowledgements grow, and what becomes completed has its receipt. *)
Definition receipted (h h' : HostStore) : Prop :=
  store_grows h.(canonical) h'.(canonical) ∧
  ∀ k r, records_of h' !! k = Some r → r.(OutboxRecord.status) = OutboxStatus.Completed →
    records_of h !! k = Some r ∨ has_receipt (acks_in h'.(canonical)) r.

#[local] Instance receipted_preorder : PreOrder receipted.
Proof.
  split; [intros h; split; [apply (reflexivity (R := store_grows))|by left]|].
  intros h1 h2 h3 [Hg12 Hr12] [Hg23 Hr23]. split; [by apply (transitivity (R := store_grows) Hg12)|].
  intros k r Hr Hs. destruct (Hr23 k r Hr Hs) as [Hr2|?]; [|by right].
  destruct (Hr12 k r Hr2 Hs) as [?|Hrec]; [by left|right]. by eapply has_receipt_grows.
Qed.

Lemma receipted_canonical {T} (op : CanonicalStore → CanonicalStore * result T StateError) :
  (∀ st, store_grows st (op st).1) → acts receipted (on_canonical op).
Proof.
  intros Hop h. specialize (Hop h.(canonical)). unfold on_canonical. destruct (op h.(canonical)) as [st r]. split; [done|].
  by left.
Qed.
Lemma receipted_content {T} (op : ContentStore → ContentStore * result T StateError) : acts receipted (on_content op).
Proof. intros h. unfold on_content. destruct (op h.(content)) as [c r]. split; [done|by left]. Qed.
Lemma receipted_fenced_at {T} (op : action HostStore T) h : receipted h (op h).1 → receipted h (fenced op h).1.
Proof. intros Hop. unfold fenced. by destruct (op h) as [h' [v|e]]. Qed.
Lemma receipted_fenced {T} (op : action HostStore T) : acts receipted op → acts receipted (fenced op).
Proof. intros Hop h. apply receipted_fenced_at, Hop. Qed.

(** An outbox operation that completes nothing new. *)
Lemma receipted_outbox {T} (op : DeviceCommandOutbox → DeviceCommandOutbox * result T StateError) :
  (∀ o k r, (op o).1.(DeviceCommandOutbox.by_key) !! k = Some r → r.(OutboxRecord.status) = OutboxStatus.Completed →
     o.(DeviceCommandOutbox.by_key) !! k = Some r) → acts receipted (on_outbox op).
Proof.
  intros Hop h. specialize (Hop h.(device_outbox)). unfold on_outbox. destruct (op h.(device_outbox)) as [o r]. split; [done|].
  intros k x Hx Hs. left. by apply Hop.
Qed.

Lemma receipted_step op io :
  (∀ status kd rd envelope ack, op = OpInsert status kd rd envelope ack → initial_status status) →
  (∀ ticket, op ≠ OpComplete ticket) →
  ∀ o k r, (outbox_step hex_digest o io op).1.(DeviceCommandOutbox.by_key) !! k = Some r →
    r.(OutboxRecord.status) = OutboxStatus.Completed → o.(DeviceCommandOutbox.by_key) !! k = Some r.
Proof.
  intros Hst Hno o k r Hr Hs. destruct (outbox_step_change hex_digest o io op Hst) as (w & Hch & _).
  remember (outbox_step hex_digest o io op).2 as ev eqn:Hev.
  destruct Hch as [E|r0 Hi _ _ E|k0 r0 Hr0 _ E|k0 r0 Hr0 Hc E]; rewrite E in Hr.
  - done.
  - apply lookup_insert_Some in Hr as [[_ <-]|[_ Hr]]; [by destruct (Hi Hs)|done].
  - apply lookup_insert_Some in Hr as [[_ <-]|[_ Hr]]; [done|done].
  - exfalso. destruct op as [st kd rd env ack|t|t]; [| |by destruct (Hno t)]; simpl in Hev.
    + by destruct (insert_with _ _ _ _ _ _ _ _) as [o' [v|e]].
    + by destruct (claim _ _ _ _) as [o' [v|e]].
Qed.

Lemma receipted_claim io ticket : acts receipted (on_outbox (λ o, claim hex_digest o io ticket)).
Proof.
  apply receipted_outbox. intros o k r Hr Hs. apply (receipted_step (OpClaim ticket) io ltac:(done) ltac:(done)); [|done].
  simpl. by destruct (claim _ _ _ _) as [o' [v|e]].
Qed.
Lemma receipted_insert status io kd rd envelope ack :
  initial_status status → acts receipted (on_outbox (λ o, insert_with hex_digest status o io kd rd envelope ack)).
Proof.
  intros Hst. apply receipted_outbox. intros o k r Hr Hs.
  apply (receipted_step (OpInsert status kd rd envelope ack) io ltac:(congruence) ltac:(done)); [|done].
  simpl. by destruct (insert_with _ _ _ _ _ _ _ _) as [o' [v|e]].
Qed.

(** Completing a record that has its receipt. *)
Lemma receipted_complete io ticket h :
  (∀ k r, records_of h !! k = Some r → ticket_of hex_digest r = ticket → has_receipt (acks_in h.(canonical)) r) →
  receipted h (on_outbox (λ o, complete hex_digest o io ticket) h).1.
Proof.
  intros Hrec. unfold on_outbox, complete. destruct (find_ticket hex_digest h.(device_outbox) ticket) as [[k r]|] eqn:Ef; [|split; [done|by left]].
  apply find_ticket_some in Ef as [Hr Ht]. case_bool_decide; [split; [done|by left]|].
  destruct (append_and_store _ _ _ _) as [o' res] eqn:Ea. split; [done|]. simpl.
  destruct (append_and_store_cases _ _ _ _ _ _ Ea) as [(_ & _ & ->)|(_ & _ & -> & _)]; [|by left]. simpl.
  intros k' r' [[<- <-]|[_ Hr']]%lookup_insert_Some _; [right|by left]. apply has_receipt_status. by eapply Hrec.
Qed.

(** ** The calls *)

Hint Resolve receipted_content receipted_fenced receipted_claim : kaleido.

Lemma receipted_commit tick effect : acts receipted (commit tick effect).
Proof. unfold commit. acts_steps. apply receipted_canonical. intros st. apply apply_commit_grows. Qed.
Lemma receipted_commit_trusted tick effect : acts receipted (commit_trusted tick effect).
Proof. unfold commit_trusted. acts_steps. apply receipted_canonical. intros st. apply commit_grows. Qed.
Lemma receipted_submit env envelope now : acts receipted (on_canonical (λ st, submit_command hex_digest st env envelope now)).
Proof. apply receipted_canonical. intros st. apply submit_grows. Qed.
Lemma receipted_batch effects : acts receipted (on_canonical (λ st, apply_all st effects)).
Proof. apply receipted_canonical. intros st. apply apply_all_grows. Qed.
Hint Resolve receipted_commit receipted_commit_trusted receipted_submit receipted_batch : kaleido.

Lemma receipted_writable : acts receipted ensure_writable.
Proof. unfold ensure_writable. acts_steps. Qed.
Lemma receipted_references device references now : acts receipted (validate_references hex_digest device references now).
Proof. induction references; simpl; acts_steps. Qed.
Lemma receipted_submit_as env envelope now ack : acts receipted (submit_as hex_digest env envelope now ack).
Proof. unfold submit_as. acts_steps. Qed.
Hint Resolve receipted_writable receipted_references receipted_submit_as : kaleido.

(** Parts that do not touch the outbox. *)
Definition same_outbox (h h' : HostStore) : Prop := h'.(device_outbox) = h.(device_outbox).

#[local] Instance same_outbox_preorder : PreOrder same_outbox.
Proof. split; [by intros h|]. unfold same_outbox. intros h1 h2 h3. congruence. Qed.

Lemma same_canonical {T} (op : CanonicalStore → CanonicalStore * result T StateError) : acts same_outbox (on_canonical op).
Proof. intros h. unfold on_canonical, same_outbox. by destruct (op h.(canonical)). Qed.
Lemma same_fenced {T} (op : action HostStore T) : acts same_outbox op → acts same_outbox (fenced op).
Proof. intros Hop h. specialize (Hop h). unfold fenced. by destruct (op h) as [h' [v|e]]. Qed.
Hint Resolve same_canonical same_fenced : kaleido.

Lemma same_ok {T} (op : action HostStore T) h h' x : acts same_outbox op → op h = (h', x) → h'.(device_outbox) = h.(device_outbox).
Proof. intros Hop E. specialize (Hop h). by rewrite E in Hop. Qed.

(** An action followed by another, from one store. *)
Lemma receipted_bind {T U} (op : action HostStore T) (k : T → action HostStore U) h :
  receipted h (op h).1 → (∀ v h1, op h = (h1, Ok v) → receipted h1 (k v h1).1) → receipted h ((op ≫= k) h).1.
Proof.
  intros Hop Hk. unfold mbind, action_bind. destruct (op h) as [h1 [v|e]] eqn:E; [|done].
  simpl in Hop. etrans; [exact Hop|]. by apply Hk.
Qed.

Lemma preview_settles s unfinished envelope now ack :
  preview_device_admission hex_digest s unfinished envelope now = (ack, false) →
  is_accepted_locally ack.(CommandAck.outcome) = false.
Proof.
  unfold preview_device_admission. destruct (preview_outcome _ _ _ _ _) as [outcome b] eqn:E. intros [= <- ->]. simpl.
  revert E. unfold preview_outcome. destruct (CommandEnvelope_expired_at _ _); [by intros [= <-]|].
  repeat case_match; by intros [= <-].
Qed.

Lemma settled_receipted env kd rd envelope ack now h :
  is_accepted_locally ack.(CommandAck.outcome) = false →
  receipted h (settled_admission hex_digest env kd rd envelope ack now h).1.
Proof.
  intros Hack. unfold settled_admission. apply receipted_bind; [by apply receipted_insert|].
  intros ticket h1 Hi. apply receipted_bind; [apply (reflexivity (R := receipted))|]. intros before h2 [= -> _].
  apply receipted_bind; [apply receipted_fenced; destruct (_ && _); acts_steps|]. intros actual h3 Hm.
  apply same_ok in Hm; [|apply same_fenced; destruct (_ && _); unfold submit_as, commit_trusted; acts_steps].
  apply receipted_bind; [|intros [] h4 _; apply (reflexivity (R := receipted))].
  apply receipted_fenced_at, receipted_complete. intros k r Hr Ht.
  unfold on_outbox in Hi. destruct (insert_claimed _ _ _ _ _ _ _) as [o x] eqn:Ei. injection Hi as <- ->.
  apply insert_with_ok in Ei as (Eo & _ & -> & _ & Hnew). rewrite Hm in Hr. simpl in Hr. rewrite Eo in Hr.
  intros Hneed. apply (f_equal DispatchTicket.command_id) in Ht. simpl in Ht.
  apply lookup_insert_Some in Hr as [[_ <-]|[_ Hr]]; [|by destruct (Hnew k r Hr)].
  unfold needs_receipt in Hneed. simpl in Hneed. by rewrite Hack in Hneed.
Qed.

Lemma terminal_outcome_some command_id effects outcome :
  terminal_outcome command_id effects = Some outcome →
  ∃ ack, StateEffect.CommandAcknowledged ack ∈ effects ∧ ack.(CommandAck.command_id) = command_id ∧
    ack.(CommandAck.outcome) = outcome.
Proof.
  unfold terminal_outcome. intros Hh. apply head_Some_elem_of, elem_of_filter_map in Hh as (effect & Hin & He).
  destruct effect; try done. case_bool_decide; [|done]. injection He as <-. by exists ack.
Qed.

Lemma valid_terminal_receipt s claimed effects :
  valid_terminal s claimed effects = true →
  match claimed.(CommandEnvelope.body) with
  | Command.SubmitPrompt _ _ | Command.InterruptTurn _ _ => true
  | _ => false
  end = true →
  ∃ ack, StateEffect.CommandAcknowledged ack ∈ effects ∧
    ack.(CommandAck.command_id) = claimed.(CommandEnvelope.command_id) ∧
    is_terminal ack.(CommandAck.outcome) = true ∧ closes claimed.(CommandEnvelope.body) ack.(CommandAck.outcome) = true.
Proof.
  unfold valid_terminal. intros Hv Hbody.
  assert (∃ outcome, terminal_outcome claimed.(CommandEnvelope.command_id) effects = Some outcome ∧
    is_terminal outcome = true ∧ closes claimed.(CommandEnvelope.body) outcome = true) as (outcome & Ho & Ht & Hc).
  { destruct (claimed.(CommandEnvelope.body)); try done; apply andb_true_iff in Hv as [_ Hv];
      destruct (terminal_outcome _ _) as [outcome|]; try done; exists outcome; (split; [done|]); unfold closes.
    - destruct (accepted_for _ _ _) eqn:Ea; [|by destruct outcome]. split; [by destruct outcome|done].
    - split; [|done]. by destruct outcome. }
  apply terminal_outcome_some in Ho as (ack & Hin & Hcmd & <-). by exists ack.
Qed.

Lemma ensure_claimed_ok o ticket envelope :
  ensure_claimed hex_digest o ticket = Ok envelope →
  ∃ k r, o.(DeviceCommandOutbox.by_key) !! k = Some r ∧ r.(OutboxRecord.status) = OutboxStatus.Claimed ∧
    ticket_of hex_digest r = ticket ∧ r.(OutboxRecord.envelope) = envelope.
Proof.
  unfold ensure_claimed. rewrite ok_or_ok. intros (r & Hf & ->)%fmap_Some. apply find_first_some in Hf as [Hin Hp].
  apply elem_of_btree_values in Hin as [k Hk]. exists k, r. simpl_ok. destruct Hp as [[Hs _] Ht]. done.
Qed.

Lemma ticket_command r ticket : ticket_of hex_digest r = ticket → command_of r = ticket.(DispatchTicket.command_id).
Proof. by intros <-. Qed.

Lemma finish_receipted io ticket effects h :
  outbox_wf (records_of h) → receipted h (finish_dispatch hex_digest io ticket effects h).1.
Proof.
  intros Hwf. unfold finish_dispatch. apply receipted_bind; [apply receipted_writable|].
  intros [] h0 [-> _]%ensure_writable_ok. apply receipted_bind; [apply (reflexivity (R := receipted))|].
  intros found ? [= -> <-]. apply receipted_bind; [apply (reflexivity (R := receipted))|]. intros claimed ? [= -> Hclaimed].
  apply receipted_bind; [apply (reflexivity (R := receipted))|]. intros s h2 [= -> <-].
  apply receipted_bind; [apply (reflexivity (R := receipted))|]. intros [] h3 [= -> Hv]. apply reject_if_ok, negb_false_true in Hv.
  apply receipted_bind; [apply (reflexivity (R := receipted))|]. intros before h4 [= -> _].
  apply receipted_bind; [apply receipted_batch|]. intros records h5 Ha.
  apply receipted_bind; [|intros [] h6 _; apply (reflexivity (R := receipted))]. apply receipted_complete. intros k r Hr Ht Hneed.
  rewrite (same_ok _ _ _ _ (same_canonical _) Ha) in Hr. unfold on_canonical in Ha.
  destruct (apply_all h4.(canonical) effects) as [st x] eqn:Eall. injection Ha as <- ->.
  destruct (ensure_claimed_ok _ _ _ Hclaimed) as (k0 & r0 & Hr0 & _ & Ht0 & <-).
  destruct Hwf as [_ Huniq]. assert (k = k0) as ->.
  { eapply Huniq; [exact Hr|exact Hr0|]. by rewrite (ticket_command _ _ Ht), (ticket_command _ _ Ht0). }
  assert (r0 = r) as -> by congruence. unfold needs_receipt in Hneed. apply andb_true_iff in Hneed as [_ Hneed].
  destruct (valid_terminal_receipt _ _ _ Hv Hneed) as (ack & Hin & Hrest). exists ack.
  split; [by eapply apply_all_acknowledged|done].
Qed.

Lemma reject_receipted claim_io tick complete_io ticket at_ms h :
  receipted h (reject_ready_dispatch hex_digest claim_io tick complete_io ticket at_ms h).1.
Proof.
  unfold reject_ready_dispatch. apply receipted_bind; [apply receipted_writable|].
  intros [] h0 [-> _]%ensure_writable_ok. apply receipted_bind; [apply (reflexivity (R := receipted))|].
  intros found h1 [= -> _]. apply receipted_bind; [apply (reflexivity (R := receipted))|]. intros dispatch h2 [= -> _].
  apply receipted_bind; [apply (reflexivity (R := receipted))|]. intros [] h3 [= -> _].
  apply receipted_bind; [apply receipted_claim|]. intros envelope h4 Hclaim.
  apply receipted_bind; [apply (reflexivity (R := receipted))|]. intros before h5 [= -> _].
  apply receipted_bind; [apply receipted_commit|]. intros [] h6 Hcommit.
  apply receipted_bind; [|intros [] h7 _; apply (reflexivity (R := receipted))]. apply receipted_complete. intros k r Hr Ht _.
  assert (envelope.(CommandEnvelope.command_id) = command_of r) as Hcmd.
  { rewrite (ticket_command _ _ Ht). unfold on_outbox, claim in Hclaim.
    destruct (find_ticket hex_digest h3.(device_outbox) ticket) as [[k0 r0]|] eqn:Ef; [|done].
    apply find_ticket_some in Ef as [_ <-]. case_bool_decide; [done|]. destruct (append_and_store _ _ _ _) as [o [v|e]]; [|done].
    by injection Hclaim as _ <-. }
  exists (unavailable_runtime envelope.(CommandEnvelope.command_id) at_ms). split_and!; [|by rewrite <-Hcmd|done|].
  - unfold commit in Hcommit. apply action_bind_ok in Hcommit as (h7 & c & Hc & [= <-]). unfold on_canonical in Hc.
    destruct (apply_commit _ _ _) as [st x] eqn:Ea. injection Hc as <- ->. unfold apply_commit in Ea. simpl in Ea.
    by apply commit_acknowledged in Ea.
  - by destruct (r.(OutboxRecord.envelope).(CommandEnvelope.body)).
Qed.

Lemma dispatched_receipted env kd rd envelope ack now : acts receipted (dispatched_admission hex_digest env kd rd envelope ack now).
Proof.
  unfold dispatched_admission, checkpoint, changes_since.
  apply acts_bind; [typeclasses eauto|by apply receipted_insert|intros ticket]. acts_steps.
Qed.

Lemma admit_receipted env device envelope request now h :
  receipted h (admit_device_command hex_digest env device envelope request now h).1.
Proof.
  unfold admit_device_command, validate_device_command_content. apply receipted_bind; [apply receipted_writable|].
  intros [] h0 [-> _]%ensure_writable_ok. do 3 (apply receipted_bind; [apply (reflexivity (R := receipted))|intros [] ? [= -> _]]).
  apply receipted_bind; [apply (reflexivity (R := receipted))|]. intros known ? [= -> _].
  destruct known; [apply (reflexivity (R := receipted))|].
  apply receipted_bind; [apply receipted_references|]. intros [] h4 _.
  apply receipted_bind; [apply (reflexivity (R := receipted))|]. intros preview ? [= -> <-].
  destruct (preview_device_admission _ _ _ _ _) as [ack [|]] eqn:Ep; cbn iota.
  - apply dispatched_receipted.
  - apply settled_receipted. by eapply preview_settles.
Qed.

Lemma run_call_receipted call h :
  outbox_wf (records_of h) → receipted h (run_call hex_digest process_id call h).1.
Proof.
  intros Hwf. unfold run_call, ignore. destruct call;
    (apply receipted_bind; [|intros ? ? _; apply (reflexivity (R := receipted))]).
  - apply admit_receipted.
  - unfold claim_dispatch. by apply acts_bind; [typeclasses eauto|apply receipted_writable|intros ?; acts_steps].
  - apply reject_receipted.
  - by apply finish_receipted.
  - revert h Hwf. intros h _. revert h. change (acts receipted (claim_queue_delivery tick entry_id at_ms)).
    unfold claim_queue_delivery, current_state, checkpoint, changes_since. acts_steps.
  - revert h Hwf. intros h _. revert h. change (acts receipted (finish_queue_delivery entry_id effects)).
    unfold finish_queue_delivery, current_state, checkpoint, changes_since. acts_steps.
  - apply receipted_batch.
  - apply receipted_submit.
  - apply receipted_content.
  - revert h Hwf. intros h _. revert h. change (acts receipted (read_content_for_device hex_digest device request now_ms)).
    unfold read_content_for_device, current_state. acts_steps.
Qed.

Lemma run_calls_receipted calls h events ops :
  outbox_run hex_digest h.(device_outbox) events ops →
  (∀ k r, records_of h !! k = Some r → r.(OutboxRecord.status) = OutboxStatus.Completed → has_receipt (acks_in h.(canonical)) r) →
  ∀ k r, records_of (run_calls hex_digest process_id calls h) !! k = Some r →
    r.(OutboxRecord.status) = OutboxStatus.Completed →
    has_receipt (acks_in (run_calls hex_digest process_id calls h).(canonical)) r.
Proof.
  revert h events ops. induction calls as [|call calls IH]; intros h events ops Hrun Hinv; [done|].
  destruct (run_call_outbox hex_digest process_id call h) as [ev Hs]. destruct (steps_run _ _ _ _ Hs _ _ Hrun) as [ops' Hrun'].
  apply (IH _ _ _ Hrun'). intros k r Hr Hst.
  destruct (run_call_receipted call h (outbox_run_wf _ _ _ _ Hrun)) as [Hg Hnew].
  destruct (Hnew k r Hr Hst) as [Hold|?]; [|done]. eapply has_receipt_grows; [exact Hg|by eapply Hinv].
Qed.

(** C10: In any use of a store, whatever fails on the way, a prompt or an interruption that was
    accepted for dispatch is completed only when the canonical state holds a terminal
    acknowledgement of it: the runtime accepted it for the session it names, or it was rejected. *)
Theorem completed_commands_have_receipts journal content calls k r
    (Hr : records_of (run_calls hex_digest process_id calls (host_open journal content)) !! k = Some r)
    (Hcompleted : r.(OutboxRecord.status) = OutboxStatus.Completed)
    (Hlocal : is_accepted_locally r.(OutboxRecord.admission_ack).(CommandAck.outcome) = true)
    (Hbody : match r.(OutboxRecord.envelope).(CommandEnvelope.body) with
             | Command.SubmitPrompt _ _ | Command.InterruptTurn _ _ => true
             | _ => false
             end = true) :
  ∃ ack, ack ∈ (run_calls hex_digest process_id calls (host_open journal content)).(canonical).(store_state).(CanonicalState.acks) ∧
    ack.(CommandAck.command_id) = r.(OutboxRecord.envelope).(CommandEnvelope.command_id) ∧
    is_terminal ack.(CommandAck.outcome) = true ∧
    closes r.(OutboxRecord.envelope).(CommandEnvelope.body) ack.(CommandAck.outcome) = true.
Proof.
  eapply (run_calls_receipted calls (host_open journal content) [] []); [constructor| |exact Hr|done|].
  - intros k' r' Hr'. simpl in Hr'. by rewrite lookup_empty in Hr'.
  - unfold needs_receipt. by rewrite Hlocal, Hbody.
Qed.

(** ** Queue deliveries *)

Lemma commit_ok_state tick effect (h h' : HostStore) :
  commit tick effect h = (h', Ok tt) →
  CanonicalState_apply h.(canonical).(store_state) effect = (h'.(canonical).(store_state), Ok tt) ∧
  h'.(canonical).(store_recovery_required) = false.
Proof.
  unfold commit. intros (h1 & c & Hc & [= <-])%action_bind_ok. unfold on_canonical in Hc.
  destruct (apply_commit h.(canonical) tick effect) as [st x] eqn:Ea. injection Hc as <- ->. unfold apply_commit in Ea.
  destruct (is_local_acknowledgement effect); [done|]. simpl. apply apply_trusted_commit_ok in Ea as Hok.
  destruct Hok as (p & Hp & Et & _). destruct (commit_written _ _ tick.(tick_views) _ _ Hp) as (_ & Hst & _ & _ & _ & _ & _ & Hrec).
  rewrite <-Et, Ea in Hst, Hrec. simpl in Hst, Hrec. rewrite Hst. split; [by apply prepare_commit_ok in Hp as (_ & _ & Happ & _)|].
  revert Ea Hrec. unfold apply_trusted_commit. rewrite Hp. destruct (append _ _ _) as [log [?|?]]; [|done].
  destruct (record_all _ _ _) as [j [envs|e]]; [|done]. by intros [= <- _] ->.
Qed.

Lemma queue_upserted s entry s' :
  CanonicalState_apply s (StateEffect.QueueEntryUpserted entry) = (s', Ok tt) →
  s'.(CanonicalState.queue) = <[entry.(QueueEntry.id) := entry]> s.(CanonicalState.queue).
Proof.
  intros (x & Ha & ->)%apply_ok. injection Ha as <-. destruct (recompute_derived_frame (CanonicalState_set_queue
    (<[entry.(QueueEntry.id) := entry]> s.(CanonicalState.queue)) s)) as (ms & mp & ->). done.
Qed.

(** Only pending entries of the queue are offered for delivery. *)
Lemma offered_is_pending s entry command_id :
  (entry, command_id) ∈ pending_queue_deliveries s →
  is_new_turn_delivery entry = true ∧ ∃ k, s.(CanonicalState.queue) !! k = Some entry.
Proof.
  unfold pending_queue_deliveries. rewrite elem_of_filter_map. intros (e & Hin & He).
  apply fmap_Some in He as (c & _ & [= -> ->]). apply elem_of_filter_map in Hin as (session & _ & [Hin Hp]%find_first_some).
  split; [done|]. unfold queue_of in Hin. rewrite elem_of_sort_by_key, elem_of_filter_b, elem_of_btree_values in Hin. tauto.
Qed.

(** Once a delivery is claimed the entry is being submitted: it is not offered
    again, and a second claim is refused and changes nothing. *)
Theorem deliveries_are_claimed_once tick entry_id at_ms h h' delivery
    (Hreach : reachable h.(canonical).(store_state))
    (Hclaim : claim_queue_delivery tick entry_id at_ms h = (h', Ok delivery)) :
  h'.(canonical).(store_state).(CanonicalState.queue) !! entry_id = Some delivery.(delivery_entry) ∧
  delivery.(delivery_entry).(QueueEntry.state) = QueueState.Submitting delivery.(delivery_command_id) ∧
  queue_command_id h.(canonical).(store_state) entry_id = Some delivery.(delivery_command_id) ∧
  (∀ entry command_id, (entry, command_id) ∈ pending_queue_deliveries h'.(canonical).(store_state) →
     entry.(QueueEntry.id) ≠ entry_id) ∧
  ∀ tick' at_ms', claim_queue_delivery tick' entry_id at_ms' h' =
    (h', Err (mismatch "queue entry is not a pending new-turn delivery")).
Proof.
  unfold claim_queue_delivery in Hclaim. apply action_bind_ok in Hclaim as (? & [] & [-> Hopen]%ensure_writable_ok & Hclaim).
  apply action_bind_ok in Hclaim as (? & s & [= -> <-] & Hclaim). apply action_bind_ok in Hclaim as (? & pending & [= -> Hp] & Hclaim).
  apply action_bind_ok in Hclaim as (? & cid & [= -> Hcid] & Hclaim). apply action_bind_ok in Hclaim as (? & before & [= -> _] & Hclaim).
  apply action_bind_ok in Hclaim as (h1 & [] & Hcommit & Hclaim). apply action_bind_ok in Hclaim as (h2 & changes & [= <- _] & [= <- <-]).
  apply ok_or_ok in Hp, Hcid. apply bind_Some in Hp as (e & He & Hp). destruct (is_new_turn_delivery e) eqn:En; [|done]. injection Hp as <-.
  pose proof (reachable_wf _ Hreach) as Hwf.
  assert (e.(QueueEntry.id) = entry_id) as Hid by (by apply (wf_queue _ Hwf)).
  apply commit_ok_state in Hcommit as [Happ Hrec]. pose proof (queue_upserted _ _ _ Happ) as Hq. simpl in Hq. rewrite Hid in Hq.
  pose proof (reachable_wf _ (reachable_step _ _ _ Hreach Happ)) as Hwf'.
  assert (h1.(canonical).(store_state).(CanonicalState.queue) !! entry_id = Some (QueueEntry.mk entry_id e.(QueueEntry.session_id)
    e.(QueueEntry.position) e.(QueueEntry.intent) e.(QueueEntry.body) (QueueState.Submitting cid) false e.(QueueEntry.created_at_ms) at_ms))
    as Hl by (by rewrite Hq, lookup_insert_eq).
  split_and!; simpl; [by rewrite Hl, Hid|done|done| |].
  - intros entry command_id [Hpend [k Hk]]%offered_is_pending Heq. assert (k = entry_id) as -> by (rewrite <-(wf_queue _ Hwf' _ _ Hk); done).
    rewrite Hl in Hk. injection Hk as <-. unfold is_new_turn_delivery in Hpend. simpl in Hpend. by rewrite andb_false_r in Hpend.
  - intros tick' at'. unfold claim_queue_delivery, mbind, action_bind. rewrite (proj2 (ensure_writable_ok h1 h1) (conj eq_refl Hrec)).
    unfold current_state, action_get, action_lift. rewrite Hl. simpl. unfold is_new_turn_delivery. simpl. by rewrite andb_false_r.
Qed.
End receipts.
