(* ===== verification/DeviceHandouts.v ===== *)
(** * What is handed to the runtimes

    A command reaches a runtime worker through a claim of the outbox or, when it
    was enqueued, through a claim of its queue entry.  Neither hands the same
    work out twice. *)
From stdpp Require Import prelude strings gmap.
From Stdlib Require Import ZArith Lia.
From S2P Require Import Prelude ProtoBase ProtoContent ProtoRuntime ProtoTurn ProtoQueue ProtoWorkflow ProtoAttention ProtoCommand ProtoEffect ProtoProjection CanonState CanonInvariants CanonContent DurableLog ContentFiles CommandOutbox OutboxProofs StoreInterface CanonStore StoreProofs DeviceStore DeviceProofs DeviceReceipts.

Local Open Scope Z_scope.

(** ** The entry in the queue *)

(** The effect puts the entry into its queue, pending for a new turn. *)
Definition offers (entry_id : QueueEntryId) (effect : StateEffect) : bool :=
  match effect with
  | StateEffect.QueueEntryUpserted entry => bool_decide (entry.(QueueEntry.id) = entry_id) && is_new_turn_delivery entry
  | _ => false
  end.

Definition waits (entry_id : QueueEntryId) (s : CanonicalState) : bool :=
  is_some_and (s.(CanonicalState.queue) !! entry_id) is_new_turn_delivery.

Lemma reorder_waits sid order x : ∀ pos q,
  is_some_and (reorder_queue sid pos order q !! x) is_new_turn_delivery = is_some_and (q !! x) is_new_turn_delivery.
Proof.
  induction order as [|y order IH]; intros pos q; simpl; [done|]. rewrite IH. destruct (q !! y) as [e|] eqn:E; [|done].
  case_bool_decide; [|done]. destruct (decide (x = y)) as [->|Hne]; [by rewrite lookup_insert_eq, E|by rewrite lookup_insert_ne].
Qed.

(** Every other effect leaves the entry out, or as it was. *)
Lemma apply_waits entry_id s effect s' :
  CanonicalState_apply s effect = (s', Ok tt) → offers entry_id effect = false → waits entry_id s = false →
  waits entry_id s' = false.
Proof.
  intros (x & Ha & ->)%apply_ok Ho Hw. unfold waits in *.
  destruct (recompute_derived_frame x) as (ms & mp & ->). simpl.
  destruct effect; inv_change Ha; try done.
  - by apply apply_turn_ok in Ha as (m & _ & _ & -> & _).
  - unfold apply_item in Ha. destruct (s.(CanonicalState.turns) !! _); [|done]. destruct (contract _); [|done]. by injection Ha as <-.
  - simpl in *. destruct (decide (entry.(QueueEntry.id) = entry_id)) as [<-|Hne]; [|by rewrite lookup_insert_ne].
    rewrite lookup_insert_eq. by rewrite bool_decide_true in Ho.
  - simpl. by rewrite reorder_waits.
  - by apply apply_ack_ok in Ha as [-> _].
Qed.

Section handouts.
Context `{Codec, ReadModels, SideTableCodec, OutboxCodec, OwnershipCodec} (hex_digest : string → string) (process_id : nat).

(** ** Calls that put an entry into its queue *)

(** The command enqueues the entry for a new turn. *)
Definition enqueues (entry_id : QueueEntryId) (envelope : CommandEnvelope) : bool :=
  match envelope.(CommandEnvelope.body) with
  | Command.EnqueueInput _ _ QueueIntent.NewTurn =>
      bool_decide (queue_entry_id hex_digest envelope.(CommandEnvelope.command_id) = entry_id)
  | _ => false
  end.

Definition queues (entry_id : QueueEntryId) (call : HostCall) : bool :=
  match call with
  | CallAdmit _ _ envelope _ _ | CallSubmit _ envelope _ => enqueues entry_id envelope
  | CallFinish _ _ effects | CallFinishDelivery _ effects | CallApply effects => existsb (offers entry_id) effects.*2
  | _ => false
  end.

(** How many of the calls put the entry into its queue. *)
Definition times_queued (entry_id : QueueEntryId) (calls : list HostCall) : nat := length (filter_b (queues entry_id) calls).

Section entry.
Context (entry_id : QueueEntryId) (may_queue : bool).

(** States stay reachable, and the entry stays out of the queue unless the call
    may put it there. *)
Definition keeps (s s' : CanonicalState) : Prop :=
  (reachable s → reachable s') ∧ (may_queue = false → waits entry_id s = false → waits entry_id s' = false).

Definition store_keeps (st st' : CanonicalStore) : Prop := keeps st.(store_state) st'.(store_state).
Definition host_keeps (h h' : HostStore) : Prop := store_keeps h.(canonical) h'.(canonical).

#[local] Instance keeps_preorder : PreOrder keeps.
Proof. split; [by intros s|]. intros s1 s2 s3 [H12 W12] [H23 W23]. split; auto. Qed.
#[local] Instance store_keeps_preorder : PreOrder store_keeps.
Proof. split; [by intros s|]. intros s1 s2 s3. unfold store_keeps. by intros ->. Qed.
#[local] Instance host_keeps_preorder : PreOrder host_keeps.
Proof. split; [by intros s|]. intros s1 s2 s3. unfold host_keeps. by intros ->. Qed.

Definition allowed (effect : StateEffect) : Prop := may_queue = false → offers entry_id effect = false.

Lemma commit_keeps_entry st tick effect : allowed effect → store_keeps st (apply_trusted_commit st tick effect).1.
Proof.
  intros Ha. destruct (apply_trusted_commit st tick effect) as [st' r] eqn:E. unfold store_keeps. simpl.
  destruct (commit_state_cases _ _ _ _ _ E) as [->|Happ]; [reflexivity|].
  split; [intros Hr; by eapply reachable_step|]. intros Hq. by eapply apply_waits; [|apply Ha].
Qed.

Lemma side_keeps st io key command_id : store_keeps st (record_idempotency st io key command_id).1.
Proof. unfold store_keeps, record_idempotency. reflexivity. Qed.

Lemma enqueue_keeps envelope : (may_queue = false → enqueues entry_id envelope = false) → enqueue_allowed hex_digest allowed envelope.
Proof.
  intros He s sid body intent now Eb Hq. specialize (He Hq). unfold enqueues in He. rewrite Eb in He. simpl.
  destruct intent; [by rewrite He|..]; by rewrite andb_false_r.
Qed.

Lemma keeps_canonical {T} (op : CanonicalStore → CanonicalStore * result T StateError) :
  (∀ st, store_keeps st (op st).1) → acts host_keeps (on_canonical op).
Proof. intros Hop h. unfold on_canonical, host_keeps. specialize (Hop h.(canonical)). by destruct (op h.(canonical)). Qed.
Lemma keeps_outbox {T} (op : DeviceCommandOutbox → DeviceCommandOutbox * result T StateError) : acts host_keeps (on_outbox op).
Proof. intros h. unfold on_outbox. destruct (op h.(device_outbox)). apply (reflexivity (R := store_keeps)). Qed.
Lemma keeps_content {T} (op : ContentStore → ContentStore * result T StateError) : acts host_keeps (on_content op).
Proof. intros h. unfold on_content. destruct (op h.(content)). apply (reflexivity (R := store_keeps)). Qed.
Lemma keeps_fenced {T} (op : action HostStore T) : acts host_keeps op → acts host_keeps (fenced op).
Proof. intros Hop h. specialize (Hop h). unfold fenced. by destruct (op h) as [h' [v|e]]. Qed.
Lemma keeps_writable : acts host_keeps ensure_writable.
Proof. unfold ensure_writable. acts_steps. Qed.
Hint Resolve keeps_outbox keeps_content keeps_fenced keeps_writable : kaleido.

Lemma keeps_references device references now : acts host_keeps (validate_references hex_digest device references now).
Proof. induction references; simpl; acts_steps. Qed.
Lemma keeps_commit tick effect : allowed effect → acts host_keeps (on_canonical (λ st, apply_commit st tick effect)).
Proof. intros Ha. apply keeps_canonical. intros st. by apply (apply_commit_respects store_keeps allowed commit_keeps_entry). Qed.
Lemma keeps_ack tick ack : acts host_keeps (commit_trusted tick (StateEffect.CommandAcknowledged ack)).
Proof. unfold commit_trusted. acts_steps. apply keeps_canonical. intros st. by apply commit_keeps_entry. Qed.
Lemma keeps_batch effects :
  (may_queue = false → existsb (offers entry_id) effects.*2 = false) → acts host_keeps (on_canonical (λ st, apply_all st effects)).
Proof.
  intros He. apply keeps_canonical. intros st. apply (apply_all_respects store_keeps allowed commit_keeps_entry).
  intros effect Hin Hq. specialize (He Hq). rewrite existsb_false in He. by apply He.
Qed.
Lemma keeps_submit env envelope now :
  (may_queue = false → enqueues entry_id envelope = false) →
  acts host_keeps (on_canonical (λ st, submit_command hex_digest st env envelope now)).
Proof.
  intros He. apply keeps_canonical. intros st.
  apply (submit_respects hex_digest store_keeps allowed commit_keeps_entry side_keeps); [done|by apply enqueue_keeps].
Qed.
Hint Resolve keeps_references keeps_ack : kaleido.

Lemma keeps_submit_as env envelope now ack :
  (may_queue = false → enqueues entry_id envelope = false) → acts host_keeps (submit_as hex_digest env envelope now ack).
Proof. intros He. unfold submit_as. acts_steps. by apply keeps_submit. Qed.

Lemma keeps_admit env device envelope request now :
  (may_queue = false → enqueues entry_id envelope = false) →
  acts host_keeps (admit_device_command hex_digest env device envelope request now).
Proof.
  intros He. pose proof (keeps_submit_as env.(env_submit) envelope now) as Hs.
  unfold admit_device_command, validate_device_command_content, dispatched_admission, settled_admission, checkpoint, changes_since,
    insert_ready, insert_claimed.
  acts_steps; try (by apply keeps_outbox). all: apply keeps_fenced; acts_steps.
Qed.

Lemma run_call_keeps call :
  (may_queue = false → queues entry_id call = false) → acts host_keeps (run_call hex_digest process_id call).
Proof.
  intros Hq. destruct call; simpl in *; unfold ignore.
  all: try (apply acts_bind; [typeclasses eauto| |intros ?; by apply acts_ret; typeclasses eauto]).
  - by apply keeps_admit.
  - unfold claim_dispatch. acts_steps.
  - unfold reject_ready_dispatch, checkpoint, changes_since. acts_steps. by apply keeps_commit.
  - unfold finish_dispatch, checkpoint, changes_since, current_state. acts_steps. by apply keeps_batch.
  - unfold claim_queue_delivery, checkpoint, changes_since, current_state. acts_steps. apply keeps_commit.
    intros _. simpl. unfold is_new_turn_delivery. simpl. by rewrite !andb_false_r.
  - unfold finish_queue_delivery, checkpoint, changes_since, current_state. acts_steps. by apply keeps_batch.
  - by apply keeps_batch.
  - by apply keeps_submit.
  - unfold write_content_for_device. acts_steps.
  - unfold read_content_for_device, current_state. acts_steps.
Qed.
End entry.

Abbreviation state_of h := h.(canonical).(store_state).

Lemma run_calls_reachable calls h : reachable (state_of h) → reachable (state_of (run_calls hex_digest process_id calls h)).
Proof.
  revert h. induction calls as [|call calls IH]; intros h Hr; [done|]. simpl. apply IH.
  by apply (run_call_keeps (mkId "") true call ltac:(done) h).
Qed.

(** ** Deliveries *)

(** A claim hands out an entry that waits, and takes it from the queue. *)
Lemma claim_delivery_ok tick entry_id at_ms h h' delivery :
  reachable (state_of h) → claim_queue_delivery tick entry_id at_ms h = (h', Ok delivery) →
  delivery.(delivery_entry).(QueueEntry.id) = entry_id ∧ waits entry_id (state_of h) = true ∧ waits entry_id (state_of h') = false.
Proof.
  intros Hr Hc. destruct (deliveries_are_claimed_once tick entry_id at_ms h h' delivery Hr Hc) as (Hq & Hs & _).
  assert (reachable (state_of h')) as Hr'.
  { pose proof (run_call_keeps entry_id true (CallClaimDelivery tick entry_id at_ms) ltac:(done) h) as [Hk _].
    revert Hk. simpl. unfold ignore, mbind, action_bind. rewrite Hc. simpl. auto. }
  split; [by apply (wf_queue _ (reachable_wf _ Hr'))|]. split.
  - unfold claim_queue_delivery in Hc. apply action_bind_ok in Hc as (? & [] & [-> _]%ensure_writable_ok & Hc).
    apply action_bind_ok in Hc as (? & s & [= -> <-] & Hc). apply action_bind_ok in Hc as (? & pending & [= -> Hp] & _).
    apply ok_or_ok, bind_Some in Hp as (e & He & Hp). unfold waits. rewrite He. simpl. by destruct (is_new_turn_delivery e).
  - unfold waits. rewrite Hq. simpl. unfold is_new_turn_delivery. rewrite Hs. by rewrite andb_false_r.
Qed.

Abbreviation waiting entry_id h := (if waits entry_id (state_of h) then 1 else 0)%nat.

Lemma run_call_delivers call h entry_id :
  reachable (state_of h) →
  (occurrences (Delivered entry_id) (released hex_digest call h) + waiting entry_id (run_call hex_digest process_id call h).1 ≤
   waiting entry_id h + (if queues entry_id call then 1 else 0))%nat.
Proof.
  intros Hr.
  assert (waiting entry_id (run_call hex_digest process_id call h).1 ≤ waiting entry_id h + (if queues entry_id call then 1 else 0))%nat as Hw.
  { destruct (queues entry_id call) eqn:Eq; [destruct (waits _ _); lia|].
    destruct (run_call_keeps entry_id false call ltac:(done) h) as [_ Hk].
    destruct (waits entry_id (state_of h)) eqn:Ew; [|by rewrite Hk].
    clear Hk. destruct (waits _ (state_of (run_call hex_digest process_id call h).1)); lia. }
  destruct call; try exact Hw; simpl in *.
  - destruct (claim_dispatch hex_digest io ticket h) as [h1 [c|e]]; exact Hw.
  - revert Hw. unfold ignore, mbind, action_bind. destruct (claim_queue_delivery tick entry_id0 at_ms h) as [h1 [d|e]] eqn:E;
      simpl; [|done]. destruct (claim_delivery_ok _ _ _ _ _ _ Hr E) as (-> & Hwait & Hout). intros Hw.
    unfold occurrences. simpl. case_bool_decide as Heq; simpl; [|lia]. injection Heq as ->. rewrite Hwait, Hout. simpl. lia.
Qed.

Lemma run_calls_deliver calls entry_id : ∀ h,
  reachable (state_of h) →
  (occurrences (Delivered entry_id) (releases hex_digest process_id calls h) +
     waiting entry_id (run_calls hex_digest process_id calls h) ≤ waiting entry_id h + times_queued entry_id calls)%nat.
Proof.
  unfold times_queued. induction calls as [|call calls IH]; intros h Hr; [unfold occurrences; simpl; destruct (waits _ _); lia|].
  pose proof (run_call_delivers call h entry_id Hr) as Hc.
  specialize (IH (run_call hex_digest process_id call h).1 (run_calls_reachable [call] h Hr)).
  simpl in *. rewrite occurrences_app. destruct (queues entry_id call); simpl; lia.
Qed.

End handouts.
