(* ===== verification/DeviceRecovery.v ===== *)
(** * Recovery of interrupted admissions

    An admission that was cut short after its record reached the outbox is
    finished when the store is loaded again.  Recovery finds how far the
    admission came from the state alone and does the rest, so that the state and
    the idempotency table end up as if nothing had happened. *)
From stdpp Require Import prelude strings gmap.
From Stdlib Require Import ZArith Lia.
From S2P Require Import Prelude ProtoBase ProtoContent ProtoRuntime ProtoTurn ProtoQueue ProtoWorkflow ProtoAttention ProtoCommand ProtoEffect ProtoProjection CanonState CanonInvariants CanonContent DurableLog ContentFiles CommandOutbox OutboxProofs StoreInterface CanonStore StoreProofs StoreReload DeviceStore DeviceProofs DeviceReceipts.

Local Open Scope Z_scope.

Section recovery.
Context `{Codec, ReadModelsLaws, SideTableCodec, OutboxCodec, OwnershipCodec} (hex_digest : string → string) (process_id : nat).

(** ** Commits that succeed *)

(** The state accepts an effect and its views can be built. *)
Record acceptable (s : CanonicalState) (effect : StateEffect) (s' : CanonicalState) : Prop := {
  acceptable_log : StateEffect_validate_for_log effect = Ok tt;
  acceptable_apply : CanonicalState_apply s effect = (s', Ok tt);
  acceptable_stream : is_ok (stream_for s effect) = true;
  acceptable_views : is_ok (build_all s' (rm_affected_keys s s' effect)) = true
}.

Lemma prepared_acceptable st now effect p :
  prepare_commit st now effect = Ok p → acceptable st.(store_state) effect p.(prepared_state).
Proof.
  intros Hp. pose proof (prepare_candidates _ _ _ _ Hp) as Hb.
  apply prepare_commit_ok in Hp as (_ & Hv & Ha & stream & cursor & at_ms & _ & Hs & _).
  split; [done|done|by rewrite Hs|by rewrite Hb].
Qed.

(** A store that can take some more commits: it is not fenced, its journal is in
    step, and there is room for its cursors and timestamps. *)
Record healthy (st : CanonicalStore) (m : Journal) (n : Z) : Prop := {
  healthy_open : st.(store_recovery_required) = false;
  healthy_live : rm_live st.(store_journal) m;
  healthy_views : ∀ k, Z.of_nat (rm_size m k) + n ≤ u64_max + 1;
  healthy_cursors : ∀ stream c, st.(store_cursors) !! stream = Some c → 0 ≤ c.(Cursor.seq) ∧ c.(Cursor.seq) + n ≤ u64_max;
  healthy_times : st.(store_last_appended_at_ms) + n ≤ i64_max ∧ i64_min ≤ st.(store_last_appended_at_ms)
}.

Lemma commit_healthy st m n now effect s' :
  healthy st m (n + 1) → 0 ≤ n → now + n ≤ i64_max → acceptable st.(store_state) effect s' →
  ∃ st' c m', apply_trusted_commit st (mkTick now IoOutcome.Written []) effect = (st', Ok c) ∧
    st'.(store_state) = s' ∧ st'.(store_idempotency) = st.(store_idempotency) ∧ healthy st' m' n.
Proof.
  intros [Ho Hl Hv Hc Ht] Hn Hnow [Alog Aapp Astr Avw].
  destruct (stream_for st.(store_state) effect) as [stream|] eqn:Es; [|done].
  destruct (build_all s' _) as [cands|] eqn:Eb; [|done].
  assert (∃ cursor, next_cursor st stream = Ok cursor ∧ 0 ≤ cursor.(Cursor.seq) ∧ cursor.(Cursor.seq) + n ≤ u64_max) as (cursor & Ecur & Hcur0 & Hcur).
  { unfold next_cursor. destruct (st.(store_cursors) !! stream) as [c|] eqn:E.
    - specialize (Hc _ _ E). exists (Cursor.mk (c.(Cursor.seq) + 1)). split; [apply Cursor_next_ok; simpl; lia|simpl; lia].
    - exists Cursor_START. split; [done|]. simpl. unfold u64_max, i64_max, i64_min in *. lia. }
  assert (∃ at_ms, next_timestamp st now = Ok at_ms ∧ at_ms + n ≤ i64_max ∧ i64_min ≤ at_ms) as (at_ms & Etime & Htime).
  { unfold next_timestamp. destruct (Z.ltb_spec st.(store_last_appended_at_ms) now).
    - exists now. split; [done|lia].
    - exists (st.(store_last_appended_at_ms) + 1). split; [|lia]. unfold checked_add_i64.
      destruct (_ && _) eqn:E; [done|]. apply andb_false_iff in E as [E|E]; lia. }
  set (p := mkPrepared s' cands (LogRecord.mk cursor stream at_ms effect)).
  assert (prepare_commit st now effect = Ok p) as Hp.
  { unfold prepare_commit. rewrite Ho, Alog. simpl. rewrite Es. simpl. rewrite Aapp. simpl. rewrite Eb. simpl.
    rewrite Ecur. simpl. rewrite Etime. done. }
  destruct (record_all_written s' _ cands st.(store_journal) m Eb Hl (rm_keys_nodup _ _ _)) as (m' & Hok & Hlive & Hg).
  { intros k _. specialize (Hv k). lia. }
  destruct (commit_written st now [] effect p Hp) as (_ & Hst & Hcs & Hlast & Hj & Hi & _ & Hrec). simpl in *.
  unfold apply_trusted_commit in *. simpl in *. rewrite Hp in *. unfold append in *. simpl in *.
  destruct (record_all st.(store_journal) [] cands) as [j [envs|err]]; [|done].
  eexists _, _, m'. split; [done|]. simpl in *. split_and!; [done|done|]. split; simpl.
  - done.
  - done.
  - intros k. specialize (Hv k). specialize (Hg k). case_bool_decide; lia.
  - intros stream' c [[<- <-]|[_ Hc']]%lookup_insert_Some; [done|]. specialize (Hc _ _ Hc'). lia.
  - lia.
Qed.

(** ** The steps of a submission *)

(** What a submission does to the state: for an input that is enqueued the entry
    comes first, then, for every command, the acknowledgement. *)
Inductive submission (s : CanonicalState) (envelope : CommandEnvelope) (now : Z) : CanonicalState → CommandOutcome → Prop :=
| submission_decided outcome :
    (∀ entry_id, outcome ≠ CommandOutcome.Enqueued entry_id) →
    (∀ session_id body intent, envelope.(CommandEnvelope.body) = Command.EnqueueInput session_id body intent →
       CommandEnvelope_expired_at envelope now = true ∨ s.(CanonicalState.sessions) !! session_id = None) →
    (∀ st tick, st.(store_state) = s →
       (if CommandEnvelope_expired_at envelope now then (st, Ok (rejected ErrorCode.CommandExpired now))
        else dispatch hex_digest st tick envelope now) = (st, Ok outcome)) →
    submission s envelope now s outcome
| submission_enqueued session_id body intent s1 :
    CommandEnvelope_expired_at envelope now = false →
    envelope.(CommandEnvelope.body) = Command.EnqueueInput session_id body intent →
    is_Some (s.(CanonicalState.sessions) !! session_id) →
    acceptable s (StateEffect.QueueEntryUpserted
      (new_queue_entry hex_digest s envelope.(CommandEnvelope.command_id) session_id body intent now)) s1 →
    submission s envelope now s1 (CommandOutcome.Enqueued (queue_entry_id hex_digest envelope.(CommandEnvelope.command_id))).

Lemma commit_acceptable st tick effect st' c :
  apply_trusted_commit st tick effect = (st', Ok c) → acceptable st.(store_state) effect st'.(store_state).
Proof.
  intros Ha. apply apply_trusted_commit_ok in Ha as Hok. destruct Hok as (p & Hp & Et & _).
  destruct (commit_written _ _ tick.(tick_views) _ _ Hp) as (_ & Hst & _). rewrite <-Et, Ha in Hst. simpl in Hst.
  rewrite Hst. by eapply prepared_acceptable.
Qed.

Lemma submit_plan st env envelope now st' ack :
  st.(store_idempotency) !! dedupe_digest hex_digest envelope = None →
  submit_command hex_digest st env envelope now = (st', Ok ack) →
  CommandEnvelope_validate envelope = Ok tt ∧
  ∃ s1, submission st.(store_state) envelope now s1 ack.(CommandAck.outcome) ∧
    acceptable s1 (StateEffect.CommandAcknowledged ack) st'.(store_state) ∧
    ack = CommandAck.mk envelope.(CommandEnvelope.command_id) ack.(CommandAck.outcome) now ∧
    st'.(store_idempotency) =
      <[dedupe_digest hex_digest envelope := envelope.(CommandEnvelope.command_id)]> st.(store_idempotency).
Proof.
  intros Hfresh. unfold submit_command. destruct (contract (CommandEnvelope_validate envelope)) as [[]|] eqn:Ev; [|done].
  apply map_err_ok in Ev. rewrite Hfresh.
  destruct (if CommandEnvelope_expired_at envelope now then _ else _) as [st1 [outcome|e]] eqn:E; [|done].
  set (a := CommandAck.mk _ outcome now).
  destruct (apply_trusted_commit st1 env.(env_ack) (StateEffect.CommandAcknowledged a)) as [st2 [c|e]] eqn:Ec; [|done].
  destruct (record_idempotency st2 _ _ _) as [st3 [u|e]] eqn:Er; [|done]. intros [= <- <-]. split; [done|].
  pose proof (commit_keeps_idempotency _ _ _ _ _ Ec) as Hi2.
  assert (st3.(store_state) = st2.(store_state) ∧ st3.(store_idempotency) =
    <[dedupe_digest hex_digest envelope := envelope.(CommandEnvelope.command_id)]> st2.(store_idempotency)) as [Hs3 Hi3]
    by (by injection Er as <- _).
  exists st1.(store_state). rewrite Hs3, Hi3, Hi2.
  assert (submission st.(store_state) envelope now st1.(store_state) outcome ∧ st1.(store_idempotency) = st.(store_idempotency)) as [Hsub ->].
  2: { split_and!; [done|by eapply commit_acceptable|done|done]. }
  destruct (CommandEnvelope_expired_at envelope now) eqn:Ex.
  - injection E as <- <-. split; [|done]. apply submission_decided; [done|by left|]. intros st' tick _. by rewrite Ex.
  - unfold dispatch in E. destruct (envelope.(CommandEnvelope.body)) eqn:Eb;
      try (injection E as <- <-; split; [|done]; apply submission_decided; [by repeat case_match|intros *; rewrite Eb; by intros [=]|];
           intros st' tick Hst; rewrite Ex; unfold dispatch; rewrite Eb, ?Hst; done).
    unfold enqueue in E. destruct (_ !! session_id) as [session|] eqn:Es; simpl in E.
    + destruct (apply_commit st _ _) as [st4 [c4|]] eqn:Ea; [|done]. injection E as <- <-.
      unfold apply_commit in Ea. simpl in Ea. split; [|by eapply commit_keeps_idempotency].
      eapply submission_enqueued; [done..|by rewrite Es|]. by eapply commit_acceptable.
    + injection E as <- <-. split; [|done]. apply submission_decided; [done|intros *; rewrite Eb; intros [= <- _ _]; by right|].
      intros st' tick Hst. rewrite Ex. unfold dispatch. rewrite Eb. unfold enqueue. by rewrite Hst, Es.
Qed.

Section one_submission.
Context (s s1 s2 : CanonicalState) (envelope : CommandEnvelope) (now : Z) (outcome : CommandOutcome).
Context (Hvalid : CommandEnvelope_validate envelope = Ok tt).
Context (Hsub : submission s envelope now s1 outcome).
Let key := dedupe_digest hex_digest envelope.
Let command_id := envelope.(CommandEnvelope.command_id).
Let ack := CommandAck.mk command_id outcome now.
Context (Hack : acceptable s1 (StateEffect.CommandAcknowledged ack) s2).

(** How far a submission came, and whether it reached the idempotency table. *)
Definition cut_short (table : gmap string CommandId) (st : CanonicalStore) : Prop :=
  (st.(store_state) ∈ [s; s1; s2] ∧ st.(store_idempotency) = table) ∨
  (st.(store_state) = s2 ∧ st.(store_idempotency) = <[key := command_id]> table).

Lemma commit_either st tick effect s' :
  CanonicalState_apply st.(store_state) effect = (s', Ok tt) →
  let st' := (apply_trusted_commit st tick effect).1 in
  (st'.(store_state) = st.(store_state) ∧ is_ok (apply_trusted_commit st tick effect).2 = false ∨ st'.(store_state) = s') ∧
  st'.(store_idempotency) = st.(store_idempotency).
Proof.
  intros Ha. destruct (apply_trusted_commit st tick effect) as [st' r] eqn:E. simpl.
  split; [|by eapply commit_keeps_idempotency]. destruct (commit_state_cases _ _ _ _ _ E) as [Hs|Hs]; [|right; congruence].
  destruct r as [c|e]; [|by left]. right. apply commit_acceptable in E. destruct E as [_ Ea _ _]. congruence.
Qed.

Lemma submit_cut st env st' r :
  st.(store_state) = s → st.(store_idempotency) !! key = None →
  submit_command hex_digest st env envelope now = (st', r) → cut_short st.(store_idempotency) st'.
Proof.
  intros Hs Hfresh. unfold submit_command. rewrite Hvalid. cbn [contract map_err]. fold key. rewrite Hfresh.
  destruct (if CommandEnvelope_expired_at envelope now then _ else _) as [st1 [o|e]] eqn:E.
  - assert (o = outcome ∧ st1.(store_state) = s1 ∧ st1.(store_idempotency) = st.(store_idempotency)) as (-> & Hs1 & Hi1).
    { destruct Hsub as [out _ _ Hd|sid body intent s1' Hex Hb Hsome [_ Ha _ _]].
      - rewrite (Hd st env.(env_queue) Hs) in E. injection E as <- <-. done.
      - rewrite Hex in E. unfold dispatch, enqueue in E. rewrite Hb, Hs in E. destruct Hsome as [x Hx]. rewrite Hx in E. simpl in E.
        unfold apply_commit in E. simpl in E. rewrite <-Hs in Ha. destruct (commit_either st env.(env_queue) _ _ Ha) as [Hc Hi].
        rewrite Hs in Hc, Hi. destruct (apply_trusted_commit st env.(env_queue) _) as [st4 [c|e]]; [|done]. injection E as <- <-.
        simpl in *. by destruct Hc as [[_ ?]|?]. }
    destruct Hack as [_ Ha _ _]. rewrite <-Hs1 in Ha. destruct (commit_either st1 env.(env_ack) _ _ Ha) as [Hc Hi].
    fold command_id ack. destruct (apply_trusted_commit st1 env.(env_ack) _) as [st2 [c|e]]; simpl in Hc, Hi.
    + destruct Hc as [[_ ?]|Hc]; [done|]. destruct (record_idempotency st2 _ _ _) as [st3 x] eqn:Er.
      assert (st3.(store_state) = s2 ∧ st3.(store_idempotency) = <[key := command_id]> st.(store_idempotency)) as [? ?]
        by (injection Er as <- _; simpl; by rewrite Hi, Hi1).
      destruct x; intros [= <- _]; by right.
    + intros [= <- _]. left. split; [|congruence]. rewrite !elem_of_cons. destruct Hc as [[Hc _]|Hc]; rewrite Hc; auto.
  - intros [= <- _]. left. destruct Hsub as [out _ _ Hd|sid body intent s1' Hex Hb Hsome [_ Ha _ _]].
    + rewrite (Hd st env.(env_queue) Hs) in E. done.
    + rewrite Hex in E. unfold dispatch, enqueue in E. rewrite Hb, Hs in E. destruct Hsome as [x Hx]. rewrite Hx in E. simpl in E.
      unfold apply_commit in E. simpl in E. rewrite <-Hs in Ha. destruct (commit_either st env.(env_queue) _ _ Ha) as [Hc Hi].
      rewrite Hs in Hc, Hi. destruct (apply_trusted_commit st env.(env_queue) _) as [st4 [c|e']]; [done|]. injection E as <- <-.
      simpl in *. split; [|done]. rewrite !elem_of_cons. destruct Hc as [[Hc _]|Hc]; rewrite Hc; auto.
Qed.

(** An environment in which everything is written. *)
Context (now1 now2 : Z) (Hnow1 : now1 + 2 ≤ i64_max) (Hnow2 : now2 + 2 ≤ i64_max).
Definition written_env : SubmitEnv :=
  mkSubmitEnv (mkTick now1 IoOutcome.Written []) (mkTick now2 IoOutcome.Written []) IoOutcome.Written.

Lemma submit_again st m :
  st.(store_state) = s → st.(store_idempotency) !! key = None → healthy st m 2 →
  ∃ st', submit_command hex_digest st written_env envelope now = (st', Ok ack) ∧
    st'.(store_state) = s2 ∧ st'.(store_idempotency) = <[key := command_id]> st.(store_idempotency).
Proof.
  intros Hs Hfresh Hh.
  assert (∃ st1 m1, (if CommandEnvelope_expired_at envelope now then (st, Ok (rejected ErrorCode.CommandExpired now))
    else dispatch hex_digest st written_env.(env_queue) envelope now) = (st1, Ok outcome) ∧ st1.(store_state) = s1 ∧
    st1.(store_idempotency) = st.(store_idempotency) ∧ healthy st1 m1 1) as (st1 & m1 & E & Hs1 & Hi1 & Hh1).
  { destruct Hsub as [out _ _ Hd|sid body intent s1' Hex Hb Hsome Ha].
    - rewrite (Hd st _ Hs). exists st, m. split_and!; [done..|]. destruct Hh as [? ? Hv Hc ?]. split; [done|done| | |lia].
      + intros k. specialize (Hv k). lia.
      + intros stream c Hc'. specialize (Hc stream c Hc'). lia.
    - rewrite Hex. unfold dispatch, enqueue. rewrite Hb, Hs. destruct Hsome as [x Hx]. rewrite Hx. simpl.
      rewrite <-Hs in Ha. destruct (commit_healthy st m 1 now1 _ _ Hh ltac:(lia) ltac:(lia) Ha) as (st1 & c & m1 & Hc & Hs1 & Hi1 & Hh1).
      exists st1, m1. unfold apply_commit. simpl. rewrite Hs in Hc. rewrite Hc. done. }
  assert (acceptable st1.(store_state) (StateEffect.CommandAcknowledged ack) s2) as Ha by by rewrite Hs1.
  destruct (commit_healthy st1 m1 0 now2 _ _ Hh1 ltac:(lia) ltac:(lia) Ha) as (st2 & c & m2 & Hc & Hst2 & Hi2 & Hh2).
  eexists. unfold submit_command. rewrite Hvalid. cbn [contract map_err]. fold key. rewrite Hfresh, E. fold command_id ack.
  simpl env_ack. rewrite Hc. simpl. split; [done|]. simpl. split; [done|]. by rewrite Hi2, Hi1.
Qed.

(** *** What recovery finds *)

Context (Hwf : state_wf s) (Hissued : envelope.(CommandEnvelope.issued_at_ms) = now).
Context (Hroute : device_route_uses_submit envelope.(CommandEnvelope.body) = true).
Context (Hnoack : acks_of s command_id = []) (Hnoentry : s.(CanonicalState.queue) !! queue_entry_id hex_digest command_id = None).
Context (ticket : DispatchTicket) (last : bool).
Let recovery := AdmissionRecovery.mk ticket envelope ack last.

Lemma acks_of_applied state effect state' :
  CanonicalState_apply state effect = (state', Ok tt) →
  acks_of state' command_id = acks_of state command_id ++ match effect with
    | StateEffect.CommandAcknowledged a => if bool_decide (a.(CommandAck.command_id) = command_id) then [a] else []
    | _ => []
    end.
Proof.
  intros Ha. unfold acks_of. rewrite (apply_acks_grow _ _ _ Ha), filter_b_app. f_equal. by destruct effect.
Qed.

Lemma noack_entered : acks_of s1 command_id = [].
Proof. destruct Hsub as [|sid body intent s1' _ _ _ [_ Ha _ _]]; [done|]. by rewrite (acks_of_applied _ _ _ Ha), Hnoack. Qed.

Lemma ack_committed : acks_of s2 command_id = [ack].
Proof.
  destruct Hack as [_ Ha _ _]. rewrite (acks_of_applied _ _ _ Ha), noack_entered. simpl. by rewrite bool_decide_true.
Qed.

(** The position of the new entry counts the pending ones before it. *)
Lemma pending_before entry state' :
  entry.(QueueEntry.id) = queue_entry_id hex_digest command_id →
  CanonicalState_apply s (StateEffect.QueueEntryUpserted entry) = (state', Ok tt) →
  state'.(CanonicalState.queue) = <[entry.(QueueEntry.id) := entry]> s.(CanonicalState.queue) ∧
  ∀ session_id,
    length (filter_b (λ e, bool_decide (e.(QueueEntry.id) ≠ entry.(QueueEntry.id)) && entry_pending e) (queue_of state' session_id)) =
    length (filter_b entry_pending (queue_of s session_id)).
Proof.
  intros Hid (x & Ha & ->)%apply_ok. injection Ha as <-. destruct (recompute_derived_frame (CanonicalState_set_queue
    (<[entry.(QueueEntry.id) := entry]> s.(CanonicalState.queue)) s)) as (ms & mp & ->). simpl. split; [done|].
  intros session_id. apply Permutation_length. unfold queue_of. simpl.
  rewrite !(filter_b_Permutation _ _ _ (sort_by_key_perm _ _)).
  assert (btree_values (<[entry.(QueueEntry.id) := entry]> s.(CanonicalState.queue)) ≡ₚ entry :: btree_values s.(CanonicalState.queue)) as Hp.
  { unfold btree_values. rewrite !btree_entries_perm, map_to_list_insert by by rewrite Hid. done. }
  rewrite (filter_b_Permutation _ _ _ (filter_b_Permutation _ _ _ Hp)). simpl.
  assert (∀ l, (∀ e, e ∈ l → e.(QueueEntry.id) ≠ entry.(QueueEntry.id)) →
    filter_b (λ e, bool_decide (e.(QueueEntry.id) ≠ entry.(QueueEntry.id)) && entry_pending e) l = filter_b entry_pending l) as Hall.
  { induction l as [|e l IH]; intros Hl; simpl; [done|]. rewrite (bool_decide_true (e.(QueueEntry.id) ≠ _)) by (apply Hl; left).
    simpl. rewrite IH; [done|]. intros e' He'. apply Hl. by right. }
  assert (∀ e, e ∈ filter_b (λ e, bool_decide (e.(QueueEntry.session_id) = session_id)) (btree_values s.(CanonicalState.queue)) →
    e.(QueueEntry.id) ≠ entry.(QueueEntry.id)) as Hne.
  { intros e [[k Hk]%elem_of_btree_values _]%elem_of_filter_b. rewrite (wf_queue _ Hwf k e Hk), Hid. congruence. }
  case_bool_decide; simpl; [rewrite (bool_decide_false (entry.(QueueEntry.id) ≠ _)) by tauto; simpl|]; by rewrite Hall.
Qed.

(** Nothing was committed. *)
Lemma found_nothing st :
  st.(store_state) = s →
  committed_admission s recovery = Ok None ∧ committed_entry hex_digest s recovery = Ok false ∧
  committed_answer s recovery = Ok false.
Proof.
  intros Hst. split_and!.
  - unfold committed_admission. simpl. fold command_id. by rewrite Hnoack.
  - unfold committed_entry. simpl. destruct Hsub as [out Hno _ _|sid body intent s1' _ Hb _ _].
    + destruct out; try done. by destruct (Hno entry_id).
    + rewrite Hb. fold command_id. rewrite bool_decide_false by tauto. simpl. by rewrite Hnoentry.
  - unfold committed_answer. simpl. destruct Hsub as [out _ _ Hd|]; [|done]. destruct out; try done.
    destruct (envelope.(CommandEnvelope.body)) as [| | | | | | |response| | | | | | | | | | ] eqn:Eb; try done.
    specialize (Hd st (mkTick 0 IoOutcome.Written []) Hst). destruct (CommandEnvelope_expired_at envelope now); [done|].
    unfold dispatch in Hd. rewrite Eb, Hst in Hd. revert Hd.
    destruct (s.(CanonicalState.attention) !! _) as [a|]; [|done]. intros Hd.
    destruct (AttentionItem_check_reply a response now) as [[]|] eqn:Ec; [|done].
    unfold AttentionItem_check_reply in Ec. rewrite !rbind_ok_unit, !reject_if_ok in Ec.
    assert (AttentionState_is_open a.(AttentionItem.state) = true) as Hopen by (apply negb_false_true; tauto).
    rewrite Hopen. simpl. rewrite bool_decide_false; [done|]. by destruct (a.(AttentionItem.state)).
Qed.

(** The entry was committed, the acknowledgement was not. *)
Lemma found_entry :
  s1 = s ∨
  (committed_admission s1 recovery = Ok None ∧ committed_entry hex_digest s1 recovery = Ok true).
Proof.
  pose proof noack_entered as Hno. destruct Hsub as [out _ _ _|sid body intent s1' _ Hb _ [_ Ha _ _]]; [by left|right]. split.
  - unfold committed_admission. simpl. fold command_id. by rewrite Hno.
  - unfold committed_entry. simpl. rewrite Hb. fold command_id. rewrite bool_decide_false by tauto. simpl.
    pose proof (λ E, pending_before _ _ E Ha) as Hp. destruct (Hp eq_refl) as [Hq Hpos]. rewrite Hq. simpl. rewrite lookup_insert_eq.
    specialize (Hpos sid). simpl in Hpos. fold command_id in Hpos. rewrite Hpos, Hissued. unfold new_queue_entry.
    rewrite bool_decide_false; [done|]. intros Hne. by apply Hne.
Qed.

Lemma found_ack : committed_admission s2 recovery = Ok (Some false).
Proof.
  unfold committed_admission. simpl. fold command_id. rewrite ack_committed, bool_decide_false by tauto. done.
Qed.

(** Recovery finishes what was cut short. *)
Lemma recovered table st o c m :
  table !! key = None → cut_short table st → healthy st m 2 →
  ∃ st', recover_admission hex_digest written_env recovery (mkHost st o c) = (mkHost st' o c, Ok false) ∧
    st'.(store_state) = s2 ∧ st'.(store_idempotency) = <[key := command_id]> table.
Proof.
  intros Hfresh Hcut Hh.
  assert (st.(store_state) = s2 →
    ∃ st', recover_admission hex_digest written_env recovery (mkHost st o c) = (mkHost st' o c, Ok false) ∧
      st'.(store_state) = s2 ∧ st'.(store_idempotency) = <[key := command_id]> table) as Hdone.
  { intros Hs2. unfold recover_admission, current_state, ensure_command_idempotency, mbind, action_bind, action_get, action_lift. simpl.
    rewrite Hs2, found_ack, Hroute. fold key command_id. cbn [canonical]. destruct Hcut as [[_ Ht]|[_ Ht]]; rewrite Ht.
    - rewrite Hfresh. eexists. split; [done|]. simpl. by rewrite Ht.
    - rewrite lookup_insert_eq. unfold action_fail_if, action_lift. rewrite bool_decide_false by tauto. by exists st. }
  destruct Hcut as [[Hin Ht]|[Hs _]]; [|by apply Hdone].
  assert (st.(store_state) = s →
    ∃ st', recover_admission hex_digest written_env recovery (mkHost st o c) = (mkHost st' o c, Ok false) ∧
      st'.(store_state) = s2 ∧ st'.(store_idempotency) = <[key := command_id]> table) as Hstart.
  { intros Hs. destruct (found_nothing st Hs) as (F1 & F2 & F3).
    destruct (submit_again st m Hs ltac:(by rewrite Ht) Hh) as (st' & Hsubmit & Hs' & Hi'). exists st'. rewrite Ht in Hi'. split; [|done].
    unfold recover_admission, current_state, repeat_submission, submit_as, on_canonical, mbind, action_bind, action_get, action_lift,
      action_fail_if, action_lift. simpl. rewrite Hs, F1, F2, F3, Hroute, Hissued.
    cbn [canonical]. rewrite Hsubmit. fold command_id ack.
    by rewrite bool_decide_false by tauto. }
  rewrite !elem_of_cons, elem_of_nil in Hin. destruct Hin as [Hs|[Hs|[Hs|[]]]]; [by apply Hstart| |by apply Hdone].
  destruct found_entry as [E|[F1 F2]]; [apply Hstart; congruence|].
  assert (acceptable st.(store_state) (StateEffect.CommandAcknowledged ack) s2) as Ha by by rewrite Hs.
  assert (healthy st m (1 + 1)) as Hh' by done.
  destruct (commit_healthy st m 1 now2 _ _ Hh' ltac:(lia) ltac:(lia) Ha) as (st2 & c2 & m2 & Hc & Hst2 & Hi2 & _).
  unfold recover_admission, current_state, finish_submission, commit_trusted, on_canonical, ensure_command_idempotency, mbind, action_bind,
    action_get, action_lift. simpl. rewrite Hs, F1, F2. simpl. fold ack. rewrite Hc. simpl. fold key command_id.
  rewrite Hi2, Ht, Hfresh.
  eexists. split; [done|]. simpl. by rewrite Hi2, Ht.
Qed.
End one_submission.

(** ** Admissions *)

Notation records_of h := h.(device_outbox).(DeviceCommandOutbox.by_key).

(** Parts that touch the content only. *)
Definition only_content (h h' : HostStore) : Prop :=
  h'.(canonical) = h.(canonical) ∧ h'.(device_outbox) = h.(device_outbox).

#[local] Instance only_content_preorder : PreOrder only_content.
Proof. split; [by intros h|]. intros h1 h2 h3 [? ?] [? ?]. split; congruence. Qed.

Lemma references_only_content device references now : acts only_content (validate_references hex_digest device references now).
Proof.
  induction references as [|r references IH]; simpl; [acts_steps|]. apply acts_bind; [typeclasses eauto| |done].
  intros h. unfold on_content. destruct (on_disk _ _) as [c x]. done.
Qed.

(** The record of an admission and its recovery. *)
Definition admitted_record (device : DeviceId) (envelope : CommandEnvelope) (request : DeviceCommandRequest) (ack : CommandAck)
    (status : OutboxStatus) : OutboxRecord :=
  OutboxRecord.mk OUTBOX_FORMAT_VERSION
    (device_command_key_digest hex_digest device request.(DeviceCommandRequest.idempotency_key))
    (device_request_digest hex_digest request) envelope ack status.

Definition recovery_of (r : OutboxRecord) : AdmissionRecovery :=
  AdmissionRecovery.mk (ticket_of hex_digest r) r.(OutboxRecord.envelope) r.(OutboxRecord.admission_ack)
    (negb (is_accepted_locally r.(OutboxRecord.admission_ack).(CommandAck.outcome))).

Lemma submit_as_ok env envelope now ack h h' actual :
  submit_as hex_digest env envelope now ack h = (h', Ok actual) →
  actual = ack ∧ submit_command hex_digest h.(canonical) env envelope now = (h'.(canonical), Ok ack) ∧
  h'.(device_outbox) = h.(device_outbox).
Proof.
  unfold submit_as. intros (h1 & a & Hs & Hr)%action_bind_ok. apply action_bind_ok in Hr as (h2 & [] & [= -> Hr] & [= -> ->]).
  apply reject_if_ok, bool_decide_neq_false in Hr as ->. unfold on_canonical in Hs.
  destruct (submit_command _ _ _ _ _) as [st x]. by injection Hs as <- ->.
Qed.

Lemma submit_as_any env envelope now ack h h' r :
  submit_as hex_digest env envelope now ack h = (h', r) →
  ∃ x, submit_command hex_digest h.(canonical) env envelope now = (h'.(canonical), x) ∧ h'.(device_outbox) = h.(device_outbox).
Proof.
  unfold submit_as, mbind, action_bind, on_canonical. destruct (submit_command _ _ _ _ _) as [st [a|e]].
  - unfold action_fail_if, action_lift. destruct (reject_if _ _); intros [= <- _]; simpl; eauto.
  - intros [= <- _]; simpl; eauto.
Qed.

(** An admission that goes through [submit_command]. *)
Definition submitted (command : Command) (outcome : CommandOutcome) : bool :=
  device_route_uses_submit command
  && match outcome with
     | CommandOutcome.AcceptedLocally _ | CommandOutcome.Enqueued _ => true
     | _ => false
     end.

(** The status of the record while the admission is under way, and after it. *)
Definition entry_status (outcome : CommandOutcome) : OutboxStatus :=
  if is_accepted_locally outcome then OutboxStatus.Ready else OutboxStatus.Claimed.
Definition final_status (outcome : CommandOutcome) : OutboxStatus :=
  if is_accepted_locally outcome then OutboxStatus.Ready else OutboxStatus.Completed.

Lemma insert_written status o kd rd envelope ack :
  o.(DeviceCommandOutbox.by_key) !! kd = None →
  (∀ k x, o.(DeviceCommandOutbox.by_key) !! k = Some x → command_of x ≠ envelope.(CommandEnvelope.command_id)) →
  ∃ o', insert_with hex_digest status o IoOutcome.Written kd rd envelope ack =
      (o', Ok (ticket_for hex_digest kd rd envelope.(CommandEnvelope.command_id))) ∧
    o'.(DeviceCommandOutbox.by_key) =
      <[kd := OutboxRecord.mk OUTBOX_FORMAT_VERSION kd rd envelope ack status]> o.(DeviceCommandOutbox.by_key).
Proof.
  intros Hkd Hcmd. unfold insert_with, insert_initial. simpl. rewrite Hkd. simpl.
  assert (existsb (λ existing, bool_decide (existing.(OutboxRecord.envelope).(CommandEnvelope.command_id) =
    envelope.(CommandEnvelope.command_id))) (btree_values o.(DeviceCommandOutbox.by_key)) = false) as ->.
  { apply existsb_false. intros x [k Hk]%elem_of_btree_values. apply bool_decide_eq_false. by eapply Hcmd. }
  by eexists.
Qed.

Lemma complete_written o k r :
  outbox_wf o.(DeviceCommandOutbox.by_key) → o.(DeviceCommandOutbox.by_key) !! k = Some r →
  r.(OutboxRecord.status) = OutboxStatus.Claimed →
  ∃ o', complete hex_digest o IoOutcome.Written (ticket_of hex_digest r) = (o', Ok tt) ∧
    o'.(DeviceCommandOutbox.by_key) = <[k := OutboxRecord_set_status OutboxStatus.Completed r]> o.(DeviceCommandOutbox.by_key).
Proof.
  intros Hwf Hr Hs. unfold complete. rewrite (find_ticket_unique hex_digest o k r Hwf Hr), bool_decide_false by (rewrite Hs; tauto).
  by eexists.
Qed.

Lemma complete_ok o io k r o' :
  outbox_wf o.(DeviceCommandOutbox.by_key) → o.(DeviceCommandOutbox.by_key) !! k = Some r →
  complete hex_digest o io (ticket_of hex_digest r) = (o', Ok tt) →
  o'.(DeviceCommandOutbox.by_key) = <[k := OutboxRecord_set_status OutboxStatus.Completed r]> o.(DeviceCommandOutbox.by_key).
Proof.
  intros Hwf Hr. unfold complete. rewrite (find_ticket_unique hex_digest o k r Hwf Hr). case_bool_decide; [done|].
  intros Ha. by apply append_and_store_cases in Ha as [(_ & _ & ->)|([=] & _)].
Qed.

Lemma complete_err o io ticket o' e :
  complete hex_digest o io ticket = (o', Err e) → o'.(DeviceCommandOutbox.by_key) = o.(DeviceCommandOutbox.by_key).
Proof.
  unfold complete. destruct (find_ticket _ _ _) as [[k r]|]; [|by intros [= <- _]]. case_bool_decide; [by intros [= <- _]|].
  intros Ha. by apply append_and_store_cases in Ha as [([=] & _)|(_ & _ & -> & _)].
Qed.

Section admission.
Context (device : DeviceId) (envelope : CommandEnvelope) (request : DeviceCommandRequest) (now : Z) (h : HostStore).
Let kd := device_command_key_digest hex_digest device request.(DeviceCommandRequest.idempotency_key).
Let rd := device_request_digest hex_digest request.
Let command_id := envelope.(CommandEnvelope.command_id).
Context (Hwf : outbox_wf (records_of h)) (Hnew : existing h.(device_outbox) kd = None).
Let preview := preview_device_admission hex_digest h.(canonical).(store_state) (has_unfinished_attention h.(device_outbox)) envelope now.
Let record := admitted_record device envelope request preview.1.
Context (Hsubmitted : submitted envelope.(CommandEnvelope.body) preview.1.(CommandAck.outcome) = true).
Context (Hcheck : h.(canonical).(store_recovery_required) = false) (Hadm : admissible_at device envelope request now).

Let content_check := (validate_device_command_content hex_digest device request.(DeviceCommandRequest.body) now h).2.

(** What follows the checks and the look at the content. *)
Lemma admit_submits env h' r :
  admit_device_command hex_digest env device envelope request now h = (h', r) →
  (is_ok r = false ∧ is_ok content_check = false) ∨
  is_ok content_check = true ∧ ∃ h1, only_content h h1 ∧ preview.2 = is_accepted_locally preview.1.(CommandAck.outcome) ∧
    (if preview.2 then dispatched_admission hex_digest env kd rd envelope preview.1 now h1
     else settled_admission hex_digest env kd rd envelope preview.1 now h1) = (h', r).
Proof.
  rewrite (admit_checked hex_digest env device envelope request now h Hcheck Hadm). fold kd rd. rewrite Hnew.
  unfold mbind at 1, action_bind at 1. unfold content_check, validate_device_command_content.
  pose proof (references_only_content device (device_command_references request.(DeviceCommandRequest.body)) now h) as Hc.
  destruct (validate_references _ _ _ _ h) as [h1 [[]|e]]; simpl in Hc.
  2: { intros [= <- <-]. by left. }
  intros Hp. right. split; [done|]. exists h1. split; [done|]. unfold mbind, action_bind, action_get in Hp. destruct Hc as [Hc1 Hc2].
  rewrite Hc1, Hc2 in Hp. fold preview in Hp. split; [|by destruct preview as [a []]].
  unfold preview in *. destruct (preview_device_admission _ _ _ _ _) as [a [|]] eqn:Ep; simpl.
  - unfold preview_device_admission in Ep. destruct (preview_outcome _ _ _ _ _) as [out b] eqn:Eo. injection Ep as <- ->. simpl.
    revert Eo. unfold preview_outcome. repeat case_match; by intros [= <-].
  - by rewrite (preview_settles _ _ _ _ _ _ Ep).
Qed.

(** The submission at the heart of both kinds of admission. *)
Lemma settled_submits env h1 :
  preview.2 = false →
  settled_admission hex_digest env kd rd envelope preview.1 now h1 =
    (ticket ← on_outbox (λ o, insert_claimed hex_digest o env.(env_insert) kd rd envelope preview.1);
     before ← checkpoint;
     actual ← fenced (submit_as hex_digest env.(env_submit) envelope now preview.1);
     _ ← fenced (on_outbox (λ o, complete hex_digest o env.(env_complete) ticket));
     changes ← changes_since before;
     mret (mkAdmission actual None changes)) h1.
Proof. intros _. unfold settled_admission. unfold submitted in Hsubmitted. by rewrite Hsubmitted. Qed.

Lemma fenced_ok {T} (op : action HostStore T) g g' v : fenced op g = (g', Ok v) → op g = (g', Ok v).
Proof. unfold fenced. destruct (op g) as [g1 [x|e]]; [done|by intros [=]]. Qed.

(** A store that was fenced or not. *)
Definition maybe_fenced (st st' : CanonicalStore) : Prop := st' = st ∨ st' = set_recovery_required st.

Lemma fenced_any {T} (op : action HostStore T) g g' r :
  fenced op g = (g', r) → ∃ g1, op g = (g1, r) ∧ g'.(device_outbox) = g1.(device_outbox) ∧ maybe_fenced g1.(canonical) g'.(canonical).
Proof.
  unfold fenced. destruct (op g) as [g1 [x|e]]; intros [= <- <-]; exists g1; (split; [done|]); (split; [done|]); [by left|by right].
Qed.

Lemma inserted_wf status :
  records_of h !! kd = None → (∀ k x, records_of h !! k = Some x → command_of x ≠ command_id) →
  outbox_wf (<[kd := record status]> (records_of h)).
Proof. intros Hk Hc. apply (outbox_wf_insert (records_of h) (record status)); [done|]. intros k x Hx. by eapply Hc. Qed.

Lemma admission_ok env h' adm :
  admit_device_command hex_digest env device envelope request now h = (h', Ok adm) →
  is_ok content_check = true ∧
  (records_of h !! kd = None ∧ ∀ k x, records_of h !! k = Some x → command_of x ≠ command_id) ∧
  submit_command hex_digest h.(canonical) env.(env_submit) envelope now = (h'.(canonical), Ok preview.1) ∧
  records_of h' = <[kd := record (final_status preview.1.(CommandAck.outcome))]> (records_of h).
Proof.
  intros Ha. destruct (admit_submits env h' (Ok adm) Ha) as [[[=] _]|(Hcc & h1 & [Hc Ho] & Hp & E)]. split; [done|].
  unfold final_status. rewrite <-Hp. destruct preview.2 eqn:Eb.
  - unfold dispatched_admission in E. apply action_bind_ok in E as (h2 & ticket & Hi & E).
    apply action_bind_ok in E as (h3 & before & [= -> _] & E). apply action_bind_ok in E as (h4 & actual & Hs & E).
    apply fenced_ok, submit_as_ok in Hs as (-> & Hs & Ho4). unfold mbind, action_bind, changes_since, action_get in E. injection E as <- _.
    unfold on_outbox in Hi. destruct (insert_ready _ _ _ _ _ _ _) as [o x] eqn:Ei. injection Hi as <- ->.
    apply insert_with_ok in Ei as (Eo & _ & _ & Hk & Hcmd). simpl in *. rewrite Ho4, Eo. rewrite Ho in *. rewrite Hc in Hs. done.
  - rewrite settled_submits in E by done. apply action_bind_ok in E as (h2 & ticket & Hi & E).
    apply action_bind_ok in E as (h3 & before & [= -> _] & E). apply action_bind_ok in E as (h4 & actual & Hs & E).
    apply fenced_ok, submit_as_ok in Hs as (-> & Hs & Ho4). apply action_bind_ok in E as (h5 & [] & Hcomp & E).
    apply fenced_ok in Hcomp. unfold mbind, action_bind, changes_since, action_get in E. injection E as <- _.
    unfold on_outbox in Hi. destruct (insert_claimed _ _ _ _ _ _ _) as [o x] eqn:Ei. injection Hi as <- ->.
    apply insert_with_ok in Ei as (Eo & _ & -> & Hk & Hcmd). simpl in *. rewrite Ho in Eo, Hk, Hcmd. rewrite Hc in Hs.
    unfold on_outbox in Hcomp. destruct (complete _ _ _ _) as [o5 x5] eqn:Ec. injection Hcomp as <- ->. simpl. rewrite Ho4 in Ec.
    split; [done|]. split; [done|]. pose proof (inserted_wf OutboxStatus.Claimed Hk Hcmd) as Hw.
    change (OutboxRecord.mk OUTBOX_FORMAT_VERSION kd rd envelope preview.1 OutboxStatus.Claimed) with (record OutboxStatus.Claimed) in Eo.
    rewrite <-Eo in Hw. erewrite (complete_ok o _ kd (record OutboxStatus.Claimed)); [|done| |exact Ec].
    + by rewrite Eo, insert_insert_eq.
    + by rewrite Eo, lookup_insert_eq.
Qed.

Lemma admission_cut env h' e :
  records_of h !! kd = None → (∀ k x, records_of h !! k = Some x → command_of x ≠ command_id) →
  env.(env_insert) = IoOutcome.Written → is_ok content_check = true →
  admit_device_command hex_digest env device envelope request now h = (h', Err e) →
  records_of h' = <[kd := record (entry_status preview.1.(CommandAck.outcome))]> (records_of h) ∧
  ∃ st x, submit_command hex_digest h.(canonical) env.(env_submit) envelope now = (st, x) ∧
    h'.(canonical).(store_state) = st.(store_state) ∧ h'.(canonical).(store_idempotency) = st.(store_idempotency).
Proof.
  intros Hk Hcmd Hio Hcc Ha. destruct (admit_submits env h' (Err e) Ha) as [[_ ?]|(_ & h1 & [Hc Ho] & Hp & E)]; [congruence|].
  assert (∀ st st', maybe_fenced st st' → st'.(store_state) = st.(store_state) ∧ st'.(store_idempotency) = st.(store_idempotency)) as Hmf.
  { by intros st st' [->| ->]. }
  destruct (insert_written (entry_status preview.1.(CommandAck.outcome)) h1.(device_outbox) kd rd envelope preview.1) as (o & Ei & Eo);
    [by rewrite Ho..|]. rewrite Ho in Eo.
  unfold entry_status in *. rewrite <-Hp in *. destruct preview.2 eqn:Eb.
  - unfold dispatched_admission, insert_ready in E. unfold mbind at 1, action_bind at 1 in E. unfold on_outbox at 1 in E. rewrite Hio, Ei in E.
    unfold checkpoint, mbind, action_bind, action_get, changes_since in E.
    destruct (fenced _ _) as [h4 [actual|e']] eqn:Ef; [done|]. injection E as <- <-. apply fenced_any in Ef as (h5 & Hs & Ho5 & Hf).
    apply submit_as_any in Hs as (x & Hs & Hos). simpl in Hs, Hos. rewrite Ho5, Hos. simpl. split; [done|].
    exists h5.(canonical), x. rewrite Hc in Hs. split; [done|]. by apply Hmf.
  - rewrite settled_submits in E by done. unfold insert_claimed in E. unfold mbind at 1, action_bind at 1 in E. unfold on_outbox at 1 in E.
    rewrite Hio, Ei in E. unfold checkpoint, mbind, action_bind, action_get, changes_since in E.
    destruct (fenced (submit_as _ _ _ _ _) _) as [h4 [actual|e']] eqn:Ef.
    + apply fenced_any in Ef as (h5 & Hs & Ho5 & Hf). apply submit_as_any in Hs as (x & Hs & Hos). simpl in Hs, Hos.
      destruct (fenced (on_outbox _) h4) as [h6 [[]|e']] eqn:Eg; [done|]. injection E as <- <-.
      apply fenced_any in Eg as (h7 & Hcomp & Ho7 & Hg). unfold on_outbox in Hcomp.
      destruct (complete _ _ _ _) as [o7 x7] eqn:Ec. injection Hcomp as <- ->. apply complete_err in Ec. simpl in *.
      rewrite Ho7, Ec, Ho5, Hos. split; [done|]. exists h5.(canonical), x. rewrite Hc in Hs. split; [done|].
      apply Hmf in Hf as [? ?], Hg as [? ?]. split; congruence.
    + injection E as <- <-. apply fenced_any in Ef as (h5 & Hs & Ho5 & Hf). apply submit_as_any in Hs as (x & Hs & Hos). simpl in Hs, Hos.
      rewrite Ho5, Hos. simpl. split; [done|]. exists h5.(canonical), x. rewrite Hc in Hs. split; [done|]. by apply Hmf.
Qed.
End admission.

Lemma recovers_record o k r :
  o.(DeviceCommandOutbox.by_key) !! k = Some r → r.(OutboxRecord.status) ≠ OutboxStatus.Completed →
  recovery_of r ∈ admission_recoveries hex_digest o.
Proof.
  intros Hr Hs. unfold admission_recoveries. apply list_elem_of_fmap. exists r. split; [done|]. apply elem_of_filter_b.
  rewrite bool_decide_eq_true. split; [apply elem_of_btree_values; by exists k|done].
Qed.

(** The acknowledgement of an admission is the one that was previewed. *)
Lemma admission_promise env device envelope request now h h' adm :
  existing h.(device_outbox) (device_command_key_digest hex_digest device request.(DeviceCommandRequest.idempotency_key)) = None →
  admit_device_command hex_digest env device envelope request now h = (h', Ok adm) →
  adm.(admission_ack) = (preview_device_admission hex_digest h.(canonical).(store_state)
    (has_unfinished_attention h.(device_outbox)) envelope now).1.
Proof.
  intros Hnew Ha. destruct (admit_ok_checked _ _ _ _ _ _ _ _ _ Ha) as [Hopen Hadm].
  rewrite (admit_checked hex_digest env device envelope request now h Hopen Hadm), Hnew in Ha.
  apply action_bind_ok in Ha as (h1 & [] & Hv & Ha). apply action_bind_ok in Ha as (h2 & preview & [= -> <-] & Ha).
  pose proof (references_only_content device (device_command_references request.(DeviceCommandRequest.body)) now h) as [Hc Ho].
  unfold validate_device_command_content in Hv. rewrite Hv in Hc, Ho. simpl in Hc, Ho. rewrite Hc, Ho in Ha.
  destruct (preview_device_admission _ _ _ _ _) as [ack [|]]; cbn iota in Ha.
  - unfold dispatched_admission in Ha. apply action_bind_ok in Ha as (h3 & ticket & _ & Ha).
    apply action_bind_ok in Ha as (h4 & before & _ & Ha). apply action_bind_ok in Ha as (h5 & actual & Hs & Ha).
    apply fenced_ok, submit_as_ok in Hs as (-> & _). by injection Ha as _ <-.
  - unfold settled_admission in Ha. apply action_bind_ok in Ha as (h3 & ticket & _ & Ha).
    apply action_bind_ok in Ha as (h4 & before & _ & Ha). apply action_bind_ok in Ha as (h5 & actual & Hs & Ha).
    apply action_bind_ok in Ha as (h6 & [] & _ & Ha). injection Ha as _ <-. simpl. apply fenced_ok in Hs. destruct (_ && _).
    + by apply submit_as_ok in Hs as (-> & _).
    + apply action_bind_ok in Hs as (h7 & [] & _ & Hs). by injection Hs as _ <-.
Qed.

(** After the recovery of its acknowledgement the record gets its final status. *)
Lemma recover_record env k r st o st' c :
  outbox_wf o.(DeviceCommandOutbox.by_key) → o.(DeviceCommandOutbox.by_key) !! k = Some r →
  r.(OutboxRecord.status) = entry_status r.(OutboxRecord.admission_ack).(CommandAck.outcome) →
  recover_admission hex_digest env (recovery_of r) (mkHost st o c) = (mkHost st' o c, Ok false) →
  ∃ h3, recovery_of r ∈ admission_recoveries hex_digest o ∧
    recover_each hex_digest (λ _, mkRecoverEnv env IoOutcome.Written) [recovery_of r] (mkHost st o c) = (h3, Ok tt) ∧
    h3.(canonical) = st' ∧
    records_of h3 = <[k := OutboxRecord_set_status (final_status r.(OutboxRecord.admission_ack).(CommandAck.outcome)) r]>
                      o.(DeviceCommandOutbox.by_key).
Proof.
  intros Hwf Hr Hs Hrun. unfold recover_each, mbind, action_bind. simpl recover_submit. rewrite Hrun, orb_false_r.
  change (AdmissionRecovery.complete_after_recovery (recovery_of r)) with
    (negb (is_accepted_locally r.(OutboxRecord.admission_ack).(CommandAck.outcome))).
  unfold entry_status, final_status in *. destruct (is_accepted_locally _); cbn [negb].
  - eexists. split; [eapply recovers_record; [done|by rewrite Hs]|]. split; [done|]. split; [done|]. simpl.
    rewrite <-Hs, set_status_same. symmetry. by apply insert_id.
  - destruct (complete_written o k r Hwf Hr Hs) as (o' & Ho & Hrecs). unfold on_outbox. simpl. rewrite Ho.
    eexists. split; [eapply recovers_record; [done|by rewrite Hs]|]. done.
Qed.

(** C2: An admission that was cut short by a failed write, after its record reached the outbox, is
    finished when the store is loaded again: recovery succeeds and leaves the canonical state, the
    idempotency table and the outbox as they would be had nothing failed, wherever the admission
    stopped. It is the recovery of one record, on a store with the state that was reached and room
    for two more commits; the command and its queue entry must be new, and the command one that is
    submitted. *)
Theorem interrupted_admission_recovers env env' device envelope request now h h_ok adm h' e st2 content2 m now1 now2
    (Hreach : reachable h.(canonical).(store_state)) (Hwf : outbox_wf (records_of h))
    (Hnew : existing h.(device_outbox) (device_command_key_digest hex_digest device request.(DeviceCommandRequest.idempotency_key)) = None)
    (Hkey : h.(canonical).(store_idempotency) !! dedupe_digest hex_digest envelope = None)
    (Hnoack : acks_of h.(canonical).(store_state) envelope.(CommandEnvelope.command_id) = [])
    (Hnoentry : h.(canonical).(store_state).(CanonicalState.queue) !! queue_entry_id hex_digest envelope.(CommandEnvelope.command_id) = None)
    (Honce : admit_device_command hex_digest env device envelope request now h = (h_ok, Ok adm))
    (Hsubmitted : submitted envelope.(CommandEnvelope.body) adm.(admission_ack).(CommandAck.outcome) = true)
    (Hinsert : env'.(env_insert) = IoOutcome.Written)
    (Hcut : admit_device_command hex_digest env' device envelope request now h = (h', Err e))
    (Hstate : st2.(store_state) = h'.(canonical).(store_state))
    (Htable : st2.(store_idempotency) = h.(canonical).(store_idempotency) ∨
              st2.(store_idempotency) = h'.(canonical).(store_idempotency))
    (Hhealthy : healthy st2 m 2) (Hnow1 : now1 + 2 ≤ i64_max) (Hnow2 : now2 + 2 ≤ i64_max) :
  ∃ recovery h3,
    recovery ∈ admission_recoveries hex_digest h'.(device_outbox) ∧
    recover_each hex_digest (λ _, mkRecoverEnv (written_env now1 now2) IoOutcome.Written) [recovery]
      (mkHost st2 h'.(device_outbox) content2) = (h3, Ok tt) ∧
    h3.(canonical).(store_state) = h_ok.(canonical).(store_state) ∧
    h3.(canonical).(store_idempotency) = h_ok.(canonical).(store_idempotency) ∧
    records_of h3 = records_of h_ok.
Proof.
  destruct (admit_ok_checked _ _ _ _ _ _ _ _ _ Honce) as [Hopen Hadm].
  rewrite (admission_promise _ _ _ _ _ _ _ _ Hnew Honce) in Hsubmitted.
  destruct (admission_ok _ _ _ _ _ Hwf Hnew Hsubmitted Hopen Hadm _ _ _ Honce) as (Hcc & [Hk Hc] & Hsub & Hrec).
  destruct (admission_cut _ _ _ _ _ Hnew Hsubmitted Hopen Hadm _ _ _ Hk Hc Hinsert Hcc Hcut) as (Hrec' & st & x & Hst & Hs' & Hi').
  clear Honce Hcut. revert Hsubmitted Hsub Hrec Hrec'. set (ack := (preview_device_admission _ _ _ _ _).1). intros Hsubmitted Hsub Hrec Hrec'.
  apply submit_plan in Hsub as (Hvalid & s1 & Hplan & Hacc & Eack & Hi); [|done]. rewrite Eack in Hacc.
  pose proof (submit_cut _ _ _ _ _ _ Hvalid Hplan Hacc _ _ _ _ eq_refl Hkey Hst) as Hcutshort.
  set (r := admitted_record device envelope request ack (entry_status ack.(CommandAck.outcome))).
  exists (recovery_of r).
  assert (records_of h' !! r.(OutboxRecord.key_digest) = Some r) as Hr by (rewrite Hrec'; apply lookup_insert_eq).
  apply andb_true_iff in Hsubmitted as [Hroute Houtcome].
  assert (envelope.(CommandEnvelope.issued_at_ms) = now) as Hissued.
  { destruct Hadm as (_ & _ & Hv). unfold validate_device_envelope in Hv. rewrite !rbind_ok_unit, !reject_if_ok, !bool_decide_neq_false in Hv. tauto. }
  destruct (recovered _ _ _ _ _ _ Hvalid Hplan Hacc now1 now2 Hnow1 Hnow2 (reachable_wf _ Hreach) Hissued Hroute Hnoack Hnoentry
    (ticket_of hex_digest r) (negb (is_accepted_locally ack.(CommandAck.outcome))) h.(canonical).(store_idempotency) st2
    h'.(device_outbox) content2 m Hkey) as (st3 & Hrun & Hs3 & Hi3); [|done|].
  { unfold cut_short in *. rewrite Hstate, Hs'. rewrite Hi' in Htable. destruct Hcutshort as [[Hin Ht]|[Hs2 Ht]].
    - left. split; [done|]. destruct Htable; congruence.
    - destruct Htable as [Htable|Htable]; [left; split; [|done]|right; split; [done|congruence]].
      rewrite Hs2. right. right. left. }
  assert (recover_admission hex_digest (written_env now1 now2) (recovery_of r) (mkHost st2 h'.(device_outbox) content2) =
    (mkHost st3 h'.(device_outbox) content2, Ok false)) as Hrun' by (unfold recovery_of; simpl; rewrite Eack at 1; exact Hrun). clear Hrun.
  assert (outbox_wf (records_of h')) as Hwf' by (rewrite Hrec'; by apply inserted_wf).
  destruct (recover_record _ _ _ _ _ st3 _ Hwf' Hr eq_refl Hrun') as (h3 & Hin & Hrun & Hc3 & Hr3).
  exists h3. split; [done|]. split; [done|]. rewrite Hc3, Hs3, Hi3, Hi, Hr3, Hrec', Hrec, insert_insert_eq. done.
Qed.

(** ** Where recovery gives up

    Two interruptions that recovery takes for a diverged outbox, so that the
    store cannot be loaded any more. *)

Definition acks_for (command_id : CommandId) (effects : list StateEffect) : list CommandAck :=
  filter_map (λ effect, match effect with
    | StateEffect.CommandAcknowledged a => if bool_decide (a.(CommandAck.command_id) = command_id) then Some a else None
    | _ => None
    end) effects.

Lemma acks_of_batch command_id effects : ∀ st st' records,
  apply_all st effects = (st', Ok records) →
  acks_of st'.(store_state) command_id = acks_of st.(store_state) command_id ++ acks_for command_id effects.*2.
Proof.
  induction effects as [|[tick effect] rest IH]; intros st st' records; simpl; [intros [= <- _]; by rewrite app_nil_r|].
  destruct (apply_commit st tick effect) as [st1 [c|e]] eqn:E; [|done].
  destruct (apply_all st1 rest) as [st2 [l|e]] eqn:E2; [|done]. intros [= <- _]. rewrite (IH _ _ _ E2).
  unfold apply_commit in E. destruct (is_local_acknowledgement effect); [done|]. apply commit_acceptable in E as [_ Ha _ _].
  unfold acks_of. rewrite (apply_acks_grow _ _ _ Ha), filter_b_app, <-app_assoc. f_equal.
  unfold acks_for. destruct effect; simpl; try done. by case_bool_decide.
Qed.

(** One terminal acknowledgement and no other. *)
Lemma one_terminal command_id effects :
  terminal_ack_count command_id effects = 1%nat → acks_are_proper command_id effects = true →
  ∃ ack, acks_for command_id effects = [ack].
Proof.
  unfold acks_are_proper. rewrite andb_true_iff, !negb_true_iff, !existsb_false. intros Hcount [Hinv _].
  assert (length (acks_for command_id effects) = 1%nat) as Hl.
  { rewrite <-Hcount. unfold terminal_ack_count. clear Hcount. induction effects as [|effect effects IH]; [done|]. simpl.
    assert (length (acks_for command_id effects) = length (filter_b (acknowledges command_id is_terminal) effects)) as IH'
      by (apply IH; intros e He; apply Hinv; by right). specialize (Hinv effect ltac:(left)).
    unfold acks_for in *.
    destruct effect; simpl in *; try done. case_bool_decide; simpl in *; [|done]. apply negb_false_true in Hinv. rewrite Hinv. simpl. by f_equal. }
  destruct (acks_for command_id effects) as [|a [|b l]]; [done|by exists a|done].
Qed.

(** *** Recovery keeps the acknowledgements *)

Definition host_grows (h h' : HostStore) : Prop := store_grows h.(canonical) h'.(canonical).

#[local] Instance host_grows_preorder : PreOrder host_grows.
Proof. split; [intros h; apply (reflexivity (R := prefix))|]. intros h1 h2 h3. apply (transitivity (R := prefix)). Qed.

Lemma grows_canonical {T} (op : CanonicalStore → CanonicalStore * result T StateError) :
  (∀ st, store_grows st (op st).1) → acts host_grows (on_canonical op).
Proof. intros Hop h. unfold on_canonical, host_grows. specialize (Hop h.(canonical)). by destruct (op h.(canonical)). Qed.
Lemma grows_outbox {T} (op : DeviceCommandOutbox → DeviceCommandOutbox * result T StateError) : acts host_grows (on_outbox op).
Proof. intros h. unfold on_outbox. destruct (op h.(device_outbox)). apply (reflexivity (R := prefix)). Qed.
Lemma grows_commit tick effect : acts host_grows (commit_trusted tick effect).
Proof. unfold commit_trusted. acts_steps. apply grows_canonical. intros st. apply commit_grows. Qed.
Lemma grows_submit env envelope now ack : acts host_grows (submit_as hex_digest env envelope now ack).
Proof. unfold submit_as. acts_steps. apply grows_canonical. intros st. apply submit_grows. Qed.
Lemma grows_idempotency io envelope : acts host_grows (ensure_command_idempotency hex_digest io envelope).
Proof. unfold ensure_command_idempotency. acts_steps. apply grows_canonical. intros st. apply side_grows. Qed.
Hint Resolve grows_outbox grows_commit grows_submit grows_idempotency : kaleido.

Lemma recover_admission_grows env recovery : acts host_grows (recover_admission hex_digest env recovery).
Proof. unfold recover_admission, finish_submission, repeat_submission, current_state. acts_steps. Qed.

Abbreviation answers_in h command_id := (acks_of h.(canonical).(store_state) command_id).

Lemma grows_answers h h' command_id : host_grows h h' → (length (answers_in h command_id) ≤ length (answers_in h' command_id))%nat.
Proof.
  intros [more E]. unfold acks_of. unfold acks_in in E. rewrite E, filter_b_app, length_app. lia.
Qed.

(** An interruption with two acknowledgements is taken for a divergence. *)
Lemma interruption_diverges env recovery session_id turn_id h :
  recovery.(AdmissionRecovery.envelope).(CommandEnvelope.body) = Command.InterruptTurn session_id turn_id →
  (2 ≤ length (answers_in h recovery.(AdmissionRecovery.envelope).(CommandEnvelope.command_id)))%nat →
  recover_admission hex_digest env recovery h = (h, Err StateError.CommandOutboxDiverged).
Proof.
  intros Hbody Hl. unfold recover_admission, current_state, mbind, action_bind, action_get, action_lift, committed_admission. simpl.
  destruct (answers_in h _) as [|a [|b l]]; simpl in Hl; [lia..|]. destruct (bool_decide _); [done|]. simpl. rewrite Hbody. by destruct l.
Qed.

(** Whatever is recovered before it, the interruption ends the recovery. *)
Lemma recover_each_stuck envs recovery session_id turn_id recoveries : ∀ h,
  recovery.(AdmissionRecovery.envelope).(CommandEnvelope.body) = Command.InterruptTurn session_id turn_id →
  recovery ∈ recoveries →
  (2 ≤ length (answers_in h recovery.(AdmissionRecovery.envelope).(CommandEnvelope.command_id)))%nat →
  is_ok (recover_each hex_digest envs recoveries h).2 = false.
Proof.
  induction recoveries as [|x rest IH]; intros h Hbody Hin Hl; [by apply elem_of_nil in Hin|].
  simpl. set (env := envs _). unfold mbind at 1, action_bind at 1.
  apply elem_of_cons in Hin as [<-|Hin]; [by rewrite (interruption_diverges _ _ _ _ _ Hbody Hl)|].
  pose proof (recover_admission_grows env.(recover_submit) x h) as Hg.
  destruct (recover_admission _ _ x h) as [h1 [b|e]]; [|done]. simpl in Hg. unfold mbind at 1, action_bind at 1.
  match goal with |- context [(if ?b then ?op else ?none) h1] =>
    assert (acts host_grows (if b then op else none)) as Hop by acts_steps; specialize (Hop h1);
    destruct ((if b then op else none) h1) as [h2 [v|e]] end; [|done]. simpl in Hop. apply IH; [done..|].
  etrans; [exact Hl|]. etrans; [by apply grows_answers|]. by apply grows_answers.
Qed.

(** C39: When the result of a claimed interruption, which had no acknowledgement but that of its
    admission, was recorded but its completion could not be written, finishing the dispatch reports
    the failed write, and from then on the store cannot be loaded: with a log that replays to the
    state that was reached and an outbox that reads back as it was, loading fails, whatever else it
    recovers before, because recovery takes the admission with its result for a diverged outbox. *)
Theorem closed_interruption_blocks_load h ticket effects k r session_id turn_id st records
    (Hwf : outbox_wf (records_of h)) (Hopen : h.(canonical).(store_recovery_required) = false)
    (Hr : records_of h !! k = Some r) (Hclaimed : r.(OutboxRecord.status) = OutboxStatus.Claimed)
    (Hticket : ticket = ticket_of hex_digest r)
    (Hbody : r.(OutboxRecord.envelope).(CommandEnvelope.body) = Command.InterruptTurn session_id turn_id)
    (Hadmitted : acks_of h.(canonical).(store_state) (command_of r) = [r.(OutboxRecord.admission_ack)])
    (Hvalid : valid_terminal h.(canonical).(store_state) r.(OutboxRecord.envelope) effects.*2 = true)
    (Happlied : apply_all h.(canonical) effects = (st, Ok records)) :
  finish_dispatch hex_digest IoOutcome.NotOpened ticket effects h =
    (mkHost st h.(device_outbox) h.(content), Err (StateError.Io OUTBOX_FILE)) ∧
  ∀ log disk journal outbox_file side ios envs now_ms st2 o2,
    load_replayed log journal side ios = Ok st2 → st2.(store_state) = st.(store_state) →
    DeviceCommandOutbox_open hex_digest outbox_file = Ok o2 → o2.(DeviceCommandOutbox.by_key) = records_of h →
    is_ok (load_store hex_digest process_id log disk journal outbox_file side ios envs now_ms) = false.
Proof.
  subst ticket. split.
  { unfold finish_dispatch, mbind, action_bind. rewrite (proj2 (ensure_writable_ok h h) (conj eq_refl Hopen)).
    unfold action_get, action_lift, current_state, action_get, checkpoint, action_get, on_canonical, on_outbox, action_fail_if, action_lift.
    rewrite (ensure_claimed_found hex_digest _ k r Hwf Hr Hclaimed), Hvalid. simpl. rewrite Happlied. simpl.
    unfold complete. rewrite (find_ticket_unique hex_digest _ k r Hwf Hr), bool_decide_false by (rewrite Hclaimed; tauto). done. }
  intros log disk journal outbox_file side ios envs now_ms st2 o2 Hload Hst Houtbox Ho. unfold load_store.
  destruct (ContentStore_open disk) as [disk' [ownership|e]]; [|done]. rewrite Houtbox. simpl. rewrite Hload. simpl.
  set (h2 := mkHost st2 o2 _).
  assert (is_ok (recover_admissions hex_digest envs h2).2 = false) as Hstuck.
  { unfold recover_admissions, mbind, action_bind, action_get. apply (recover_each_stuck envs (recovery_of r) session_id turn_id); [done| |].
    - apply (recovers_record _ k); [by rewrite <-Hr, <-Ho|by rewrite Hclaimed].
    - unfold valid_terminal in Hvalid. rewrite Hbody, !andb_true_iff in Hvalid. destruct Hvalid as [[Hcount%Nat.eqb_eq Hproper] _].
      destruct (one_terminal _ _ Hcount Hproper) as [ack Hack]. simpl. rewrite Hst.
      change (2 ≤ length (acks_of st.(store_state) (command_of r)))%nat.
      by rewrite (acks_of_batch _ _ _ _ _ Happlied), Hadmitted, Hack. }
  by destruct (recover_admissions hex_digest envs h2) as [h3 [v|e]].
Qed.

(** A reply that is refused because another reply to the same request is in flight, and whose refusal was not
    committed, is submitted again on recovery, where the other reply is not looked at: it is accepted, the
    acceptance is recorded, and this and every later load fail as diverged. *)
Theorem refused_reply_blocks_load h envelope response attention now ticket m now1 now2 s'
    (Hbody : envelope.(CommandEnvelope.body) = Command.RespondAttention response)
    (Hissued : envelope.(CommandEnvelope.issued_at_ms) = now)
    (Hvalid : CommandEnvelope_validate envelope = Ok tt) (Hfresh : CommandEnvelope_expired_at envelope now = false)
    (Hattention : h.(canonical).(store_state).(CanonicalState.attention) !! response.(AttentionResponse.attention_id) = Some attention)
    (Hreply : AttentionItem_check_reply attention response now = Ok tt)
    (Hflight : has_unfinished_attention h.(device_outbox) response.(AttentionResponse.attention_id) = true)
    (Hkey : h.(canonical).(store_idempotency) !! dedupe_digest hex_digest envelope = None)
    (Hnoack : acks_of h.(canonical).(store_state) envelope.(CommandEnvelope.command_id) = [])
    (Haccept : acceptable h.(canonical).(store_state) (StateEffect.CommandAcknowledged
       (CommandAck.mk envelope.(CommandEnvelope.command_id) (CommandOutcome.AcceptedLocally None) now)) s')
    (Hhealthy : healthy h.(canonical) m 2) (Hnow1 : now1 + 2 ≤ i64_max) (Hnow2 : now2 + 2 ≤ i64_max) :
  let preview := preview_device_admission hex_digest h.(canonical).(store_state) (has_unfinished_attention h.(device_outbox)) envelope now in
  let recovery := AdmissionRecovery.mk ticket envelope preview.1 true in
  preview = (CommandAck.mk envelope.(CommandEnvelope.command_id) (rejected ErrorCode.ApprovalAlreadyAnswered now) now, false) ∧
  ∃ h3, recover_admission hex_digest (written_env now1 now2) recovery h = (h3, Err StateError.CommandOutboxDiverged) ∧
    h3.(canonical).(store_state) = s' ∧
    ∀ env h4, h4.(canonical).(store_state) = s' →
      recover_admission hex_digest env recovery h4 = (h4, Err StateError.CommandOutboxDiverged).
Proof.
  intros preview recovery.
  assert (preview = (CommandAck.mk envelope.(CommandEnvelope.command_id) (rejected ErrorCode.ApprovalAlreadyAnswered now) now, false)) as Hp
    by (unfold preview, preview_device_admission, preview_outcome; by rewrite Hfresh, Hbody, Hflight).
  split; [done|].
  assert (submission h.(canonical).(store_state) envelope now h.(canonical).(store_state) (CommandOutcome.AcceptedLocally None)) as Hsub.
  { apply submission_decided; [done|intros *; by rewrite Hbody|]. intros st tick Hst. rewrite Hfresh. unfold dispatch.
    by rewrite Hbody, Hst, Hattention, Hreply. }
  destruct (submit_again _ _ _ _ _ _ Hvalid Hsub Haccept now1 now2 Hnow1 Hnow2 h.(canonical) m eq_refl Hkey Hhealthy) as (st' & Hrun & Hst' & _).
  exists (mkHost st' h.(device_outbox) h.(content)). unfold recovery. rewrite Hp.
  split; [|split; [done|]].
  - unfold recover_admission, current_state, repeat_submission, submit_as, on_canonical, mbind, action_bind, action_get, action_lift,
      committed_admission, committed_entry, committed_answer, action_fail_if, action_lift. simpl. rewrite Hnoack. simpl.
    rewrite Hbody, Hissued. simpl. rewrite Hrun. by rewrite bool_decide_true.
  - intros env h4 Hst4. destruct Haccept as [_ Ha _ _]. unfold recover_admission, current_state, mbind, action_bind, action_get, action_lift,
      committed_admission. simpl. rewrite Hst4. unfold acks_of in *. rewrite (apply_acks_grow _ _ _ Ha), filter_b_app, Hnoack. simpl.
    rewrite bool_decide_true by done. simpl. by rewrite bool_decide_true.
Qed.
End recovery.
