(* ===== verification/HostBroker.v ===== *)
(** * The broker

    Models [crates/kaleido-hostd/src/broker.rs]: the one place through which a
    host changes its store, which fans the changed read models out to the
    mailboxes of its subscribers.

    A mailbox is shared between the broker and the connection that subscribed, so
    mailboxes live in a map of their own, and the broker keeps which of them are
    registered for which key.  The lock of the broker makes each call atomic. *)
From stdpp Require Import prelude strings gmap.
From Stdlib Require Import ZArith Lia.
From S2P Require Import Prelude ProtoBase ProtoContent ProtoRuntime ProtoTurn ProtoQueue ProtoWorkflow ProtoAttention ProtoCommand ProtoEffect ProtoProjection CanonState CanonInvariants ReadModelBuild DurableLog ProjectionJournal ContentFiles CommandOutbox StoreInterface JournalReadModels CanonStore AdapterIdentity DeviceStore.

Local Open Scope Z_scope.

(** ** Mailboxes *)

Definition DEFAULT_SUBSCRIPTION_CAPACITY : nat := 32.

Module SubscriptionEvent.
Inductive SubscriptionEvent : Type :=
| Projection (envelope : ProjectionEnvelope)
| Closed (error : CanonicalError).
End SubscriptionEvent.
Abbreviation SubscriptionEvent := SubscriptionEvent.SubscriptionEvent.

#[export] Instance SubscriptionEvent_eq_dec : EqDecision SubscriptionEvent.
Proof. solve_decision. Defined.

Module MailboxState.
Record MailboxState : Type := mk {
  events : list SubscriptionEvent;
  capacity : nat;
  closed : bool
}.
End MailboxState.
Abbreviation MailboxState := MailboxState.MailboxState.

Definition gap_error (at_ms : Z) : CanonicalError := CanonicalError.mk ErrorCode.CursorGap true None at_ms.

(** The mailbox after a push, and whether it took the envelope. *)
Definition mailbox_push (envelope : ProjectionEnvelope) (at_ms : Z) (m : MailboxState) : MailboxState * bool :=
  if m.(MailboxState.closed) then (m, false)
  else if (m.(MailboxState.capacity) <=? length m.(MailboxState.events))%nat
  then (MailboxState.mk [SubscriptionEvent.Closed (gap_error at_ms)] m.(MailboxState.capacity) true, false)
  else (MailboxState.mk (m.(MailboxState.events) ++ [SubscriptionEvent.Projection envelope]) m.(MailboxState.capacity) false, true).

(** [recv_timeout] once the wait is over. *)
Definition mailbox_recv (m : MailboxState) : MailboxState * option SubscriptionEvent :=
  match m.(MailboxState.events) with
  | [] => (m, None)
  | event :: rest => (MailboxState.mk rest m.(MailboxState.capacity) m.(MailboxState.closed), Some event)
  end.

(** The pushes of the envelopes of a key into one mailbox; [false] when some was
    not taken. *)
Fixpoint push_all (key : ProjectionKey) (envelopes : list ProjectionEnvelope) (at_ms : Z) (m : MailboxState) : MailboxState * bool :=
  match envelopes with
  | [] => (m, true)
  | envelope :: rest =>
      if bool_decide (envelope.(ProjectionEnvelope.key) = key) then
        let (m, taken) := mailbox_push envelope at_ms m in
        let (m, all_taken) := push_all key rest at_ms m in
        (m, taken && all_taken)
      else push_all key rest at_ms m
  end.

Module BrokerError.
Inductive BrokerError : Type :=
| State (error : StateError)
| InvalidSubscriptionCapacity
| SubscriptionIdExhausted
| CommandExpiryOverflow
| HostIdentityMismatch.
End BrokerError.
Abbreviation BrokerError := BrokerError.BrokerError.

Section broker.
Context `{Codec, EnvelopeCodec, SideTableCodec, OutboxCodec, OwnershipCodec} (hex_digest : string → string) (process_id : nat).

#[local] Hint Extern 0 ReadModels => exact (journal_read_models hex_digest) : typeclass_instances.

(** ** State *)

Record BrokerState : Type := mkBroker {
  broker_store : HostStore;
  subscribers : gmap Z ProjectionKey;
  mailboxes : gmap Z MailboxState;
  next_subscription_token : Z;
  broker_host_id : HostId;
  authenticated_reachability : HostReachability
}.

Record BrokerSubscription : Type := mkSubscription { subscription_token : Z; subscription_replay : ProjectionReplay }.

Definition set_broker_store (h : HostStore) (b : BrokerState) : BrokerState :=
  mkBroker h b.(subscribers) b.(mailboxes) b.(next_subscription_token) b.(broker_host_id) b.(authenticated_reachability).
Definition set_subscribers (s : gmap Z ProjectionKey) (m : gmap Z MailboxState) (b : BrokerState) : BrokerState :=
  mkBroker b.(broker_store) s m b.(next_subscription_token) b.(broker_host_id) b.(authenticated_reachability).
Definition set_reachability (r : HostReachability) (b : BrokerState) : BrokerState :=
  mkBroker b.(broker_store) b.(subscribers) b.(mailboxes) b.(next_subscription_token) b.(broker_host_id) r.

(** [Broker::open] and the end of [Broker::load], on an opened or loaded store. *)
Definition broker_of (h : HostStore) (host_id : HostId) : BrokerState := mkBroker h ∅ ∅ 1 host_id HostReachability.Offline.

Definition broker_load (h : HostStore) (host_id : HostId) : result BrokerState BrokerError :=
  reject_if (existsb (λ host, bool_decide (host.(Host.id) ≠ host_id)) (btree_values h.(canonical).(store_state).(CanonicalState.hosts)))
    BrokerError.HostIdentityMismatch ;?
  Ok (broker_of h host_id).

(** ** Fan-out *)

(** A mailbox belongs to one subscriber, so the loop over the envelopes and the
    subscribers is a loop over the envelopes for each subscriber. *)
Definition publish (envelopes : list ProjectionEnvelope) (at_ms : Z) (b : BrokerState) : BrokerState :=
  set_subscribers
    (filter (λ subscriber, is_some_and (b.(mailboxes) !! subscriber.1)
                             (λ m, (push_all subscriber.2 envelopes at_ms m).2) = true) b.(subscribers))
    (map_imap (λ token m, Some (match b.(subscribers) !! token with
                                | Some key => (push_all key envelopes at_ms m).1
                                | None => m
                                end)) b.(mailboxes)) b.

Definition broker (T : Type) : Type := BrokerState → BrokerState * result T BrokerError.

(** A call of the store under the lock; its projections are published when it
    succeeds. *)
Definition publishing {T} (op : action HostStore T) (projections : T → list ProjectionEnvelope) (at_ms : Z) : broker T := λ b,
  match op b.(broker_store) with
  | (h, Ok value) => (publish (projections value) at_ms (set_broker_store h b), Ok value)
  | (h, Err e) => (set_broker_store h b, Err (BrokerError.State e))
  end.

(** ** Effects *)

Definition commit_effect (tick : Tick) (effect : StateEffect) : action HostStore (list ProjectionEnvelope) :=
  c ← on_canonical (λ st, apply_commit st tick effect); mret c.(projections).

Definition with_reachability (r : HostReachability) (host : Host) : Host :=
  Host.mk host.(Host.id) host.(Host.display_name) host.(Host.platform) r host.(Host.protocol_version) host.(Host.last_seen_at_ms).

(** The effect that is committed for an effect of an adapter. *)
Definition owned_effect (b : BrokerState) (effect : StateEffect) : result StateEffect BrokerError :=
  match effect with
  | StateEffect.HostUpserted host =>
      reject_if (bool_decide (host.(Host.id) ≠ b.(broker_host_id))) BrokerError.HostIdentityMismatch ;?
      Ok (StateEffect.HostUpserted (with_reachability b.(authenticated_reachability) host))
  | other => Ok other
  end.

Definition apply_effect (tick : Tick) (effect : StateEffect) (at_ms : Z) : broker (list ProjectionEnvelope) := λ b,
  match owned_effect b effect with
  | Err e => (b, Err e)
  | Ok effect => publishing (commit_effect tick effect) id at_ms b
  end.

Fixpoint apply_effects (effects : list (Tick * StateEffect)) (at_ms : Z) : broker (list ProjectionEnvelope) := λ b,
  match effects with
  | [] => (b, Ok [])
  | (tick, effect) :: rest =>
      match apply_effect tick effect at_ms b with
      | (b, Err e) => (b, Err e)
      | (b, Ok published) =>
          match apply_effects rest at_ms b with
          | (b, Err e) => (b, Err e)
          | (b, Ok more) => (b, Ok (published ++ more))
          end
      end
  end.

(** The latch is set even when the commit fails. *)
Definition set_authenticated_reachability (tick : Tick) (reachability : HostReachability) (at_ms : Z) :
    broker (list ProjectionEnvelope) := λ b,
  if bool_decide (b.(authenticated_reachability) = reachability) then (b, Ok [])
  else
    let b := set_reachability reachability b in
    match find_first (λ host, bool_decide (host.(Host.id) = b.(broker_host_id)))
            (btree_values b.(broker_store).(canonical).(store_state).(CanonicalState.hosts)) with
    | None => (b, Ok [])
    | Some host =>
        let host := Host.mk host.(Host.id) host.(Host.display_name) host.(Host.platform) reachability
                      host.(Host.protocol_version) at_ms in
        publishing (commit_effect tick (StateEffect.HostUpserted host)) id at_ms b
    end.

Definition set_lan_ready (tick : Tick) (ready : bool) (at_ms : Z) : broker (list ProjectionEnvelope) :=
  set_authenticated_reachability tick (if ready then HostReachability.LanDirect else HostReachability.Offline) at_ms.

(** ** Subscriptions *)

(** The subscriber is registered before its replay is read. *)
Definition subscribe_with_capacity (request : ProjectionSubscribe) (at_ms : Z) (capacity : nat) : broker BrokerSubscription := λ b,
  if (capacity =? 0)%nat then (b, Err BrokerError.InvalidSubscriptionCapacity)
  else
    let token := b.(next_subscription_token) in
    match checked_add_u64 token 1 with
    | None => (b, Err BrokerError.SubscriptionIdExhausted)
    | Some next =>
        let b := mkBroker b.(broker_store) (<[token := request.(ProjectionSubscribe.key)]> b.(subscribers))
                   (<[token := MailboxState.mk [] capacity false]> b.(mailboxes)) next b.(broker_host_id)
                   b.(authenticated_reachability) in
        match replay b.(broker_store).(canonical).(store_journal) request at_ms with
        | Err e => (b, Err (BrokerError.State e))
        | Ok replayed =>
            let b := match replayed.(ProjectionReplay.ack).(ProjectionSubscribeAck.outcome) with
                     | ProjectionSubscribeOutcome.Rejected _ => set_subscribers (delete token b.(subscribers)) b.(mailboxes) b
                     | _ => b
                     end in
            (b, Ok (mkSubscription token replayed))
        end
    end.

Definition broker_subscribe (request : ProjectionSubscribe) (at_ms : Z) : broker BrokerSubscription :=
  subscribe_with_capacity request at_ms DEFAULT_SUBSCRIPTION_CAPACITY.

(** [BrokerSubscription::recv_timeout], [unsubscribe] and its [Drop]. *)
Definition receive (token : Z) (b : BrokerState) : BrokerState * option SubscriptionEvent :=
  match b.(mailboxes) !! token with
  | None => (b, None)
  | Some m => let (m, event) := mailbox_recv m in (set_subscribers b.(subscribers) (<[token := m]> b.(mailboxes)) b, event)
  end.

Definition broker_unsubscribe (token : Z) (b : BrokerState) : BrokerState :=
  set_subscribers (delete token b.(subscribers)) b.(mailboxes) b.

(** ** Device commands *)

Definition command_seed (device_id : DeviceId) (idempotency_key : string) : string :=
  decimal (String.length (id_value device_id)) +:+ ":" +:+ id_value device_id +:+ "|" +:+
  decimal (String.length idempotency_key) +:+ ":" +:+ idempotency_key.

Definition envelope_expiry (now_ms ttl : Z) : result Z BrokerError :=
  reject_if (i64_max <? ttl) BrokerError.CommandExpiryOverflow ;?
  ok_or (checked_add_i64 now_ms ttl) BrokerError.CommandExpiryOverflow.

Definition device_envelope (mint : IdentityMint) (device_id : DeviceId) (request : DeviceCommandRequest) (now_ms : Z) :
    result CommandEnvelope BrokerError :=
  let? expires_at_ms := match request.(DeviceCommandRequest.ttl_ms) with
                        | None => Ok None
                        | Some ttl => let? at_ms := envelope_expiry now_ms ttl in Ok (Some at_ms)
                        end in
  Ok (CommandEnvelope.mk (mint_command_id hex_digest mint (command_seed device_id request.(DeviceCommandRequest.idempotency_key)))
        request.(DeviceCommandRequest.idempotency_key) (Actor.Human device_id) now_ms expires_at_ms
        request.(DeviceCommandRequest.body)).

Definition broker_admit (env : AdmitEnv) (mint : IdentityMint) (device_id : DeviceId) (request : DeviceCommandRequest) (now_ms : Z) :
    broker DeviceCommandAdmission := λ b,
  match device_envelope mint device_id request now_ms with
  | Err e => (b, Err e)
  | Ok envelope =>
      publishing (admit_device_command hex_digest env device_id envelope request now_ms) admission_projections now_ms b
  end.

Definition broker_claim_queue_delivery (tick : Tick) (entry_id : QueueEntryId) (at_ms : Z) : broker QueueDeliveryClaim :=
  publishing (claim_queue_delivery tick entry_id at_ms) delivery_projections at_ms.
Definition broker_finish_queue_delivery (entry_id : QueueEntryId) (effects : list (Tick * StateEffect)) (at_ms : Z) :
    broker (list ProjectionEnvelope) :=
  publishing (finish_queue_delivery entry_id effects) id at_ms.
Definition broker_claim_dispatch (io : IoOutcome) (ticket : DispatchTicket) (at_ms : Z) : broker DispatchClaim :=
  publishing (claim_dispatch hex_digest io ticket) claim_projections at_ms.
Definition broker_reject_ready_dispatch (claim_io : IoOutcome) (tick : Tick) (complete_io : IoOutcome) (ticket : DispatchTicket)
    (at_ms : Z) : broker (list ProjectionEnvelope) :=
  publishing (reject_ready_dispatch hex_digest claim_io tick complete_io ticket at_ms) id at_ms.
Definition broker_finish_dispatch (io : IoOutcome) (ticket : DispatchTicket) (effects : list (Tick * StateEffect)) (at_ms : Z) :
    broker (list ProjectionEnvelope) :=
  publishing (finish_dispatch hex_digest io ticket effects) id at_ms.

(** ** Content *)

Definition broker_write_content (device_id : DeviceId) (request : ContentWriteRequest) (bytes : string) (now_ms : Z) :
    broker ContentWriteResponse :=
  publishing (write_content_for_device hex_digest process_id device_id request bytes now_ms) (λ _, []) now_ms.
Definition broker_read_content (device_id : DeviceId) (request : ContentReadRequest) (now_ms : Z) : broker ContentReadResponse :=
  publishing (read_content_for_device hex_digest device_id request now_ms) (λ _, []) now_ms.
End broker.
