(* ===== verification/BrokerProofs.v ===== *)
(** * What a subscriber of the broker receives

    Every call of the store that succeeds reports exactly the views it added to
    the journal, and most calls that fail either added none or fence the store.
    So what a subscriber was replayed, has received and has waiting in its mailbox
    is one contiguous piece of the journal. *)
From stdpp Require Import prelude strings gmap.
From Stdlib Require Import ZArith Lia.
From S2P Require Import Prelude ProtoBase ProtoContent ProtoRuntime ProtoTurn ProtoQueue ProtoWorkflow ProtoAttention ProtoCommand ProtoEffect ProtoProjection CanonState CanonInvariants ReadModelBuild DurableLog ProjectionJournal ContentFiles CommandOutbox StoreInterface JournalReadModels CanonStore StoreProofs AdapterIdentity DeviceStore DeviceProofs HostBroker.

Local Open Scope Z_scope.

(** ** Stable sorting keeps the order of equals *)

Lemma insert_by_skip {A} (leb : A → A → bool) (p : A → bool) x l :
  p x = false → filter_b p (insert_by leb x l) = filter_b p l.
Proof.
  intros Hx. induction l as [|y l IH]; simpl; [by rewrite Hx|].
  destruct (leb x y); simpl; [by rewrite Hx|]. by rewrite IH.
Qed.

Lemma insert_by_first {A} (leb : A → A → bool) (p : A → bool) x l :
  p x = true → (∀ y, p y = true → leb x y = true) → filter_b p (insert_by leb x l) = x :: filter_b p l.
Proof.
  intros Hx Hle. induction l as [|y l IH]; simpl; [by rewrite Hx|].
  destruct (leb x y) eqn:E; simpl; [by rewrite Hx|].
  destruct (p y) eqn:Ey; [|done]. by rewrite (Hle y Ey) in E.
Qed.

Lemma filter_sort_by {A} (leb : A → A → bool) (p : A → bool) l :
  (∀ x y, p x = true → p y = true → leb x y = true) → filter_b p (sort_by leb l) = filter_b p l.
Proof.
  intros Hle. induction l as [|x l IH]; simpl; [done|]. destruct (p x) eqn:E.
  - rewrite insert_by_first by auto. by rewrite <-IH.
  - by rewrite insert_by_skip.
Qed.

(** ** The views of a key *)

Definition views_of (key : ProjectionKey) (envelopes : list ProjectionEnvelope) : list ProjectionEnvelope :=
  filter_b (λ envelope, bool_decide (envelope.(ProjectionEnvelope.key) = key)) envelopes.

Lemma views_app key l l' : views_of key (l ++ l') = views_of key l ++ views_of key l'.
Proof. apply filter_b_app. Qed.

Lemma views_all key l : (∀ e, e ∈ l → e.(ProjectionEnvelope.key) = key) → views_of key l = l.
Proof.
  unfold views_of. induction l as [|e l IH]; intros Hl; simpl; [done|].
  rewrite bool_decide_true by (apply Hl; by left). f_equal. apply IH. intros x Hx. apply Hl. by right.
Qed.

Lemma views_none key l : (∀ e, e ∈ l → e.(ProjectionEnvelope.key) ≠ key) → views_of key l = [].
Proof.
  unfold views_of. induction l as [|e l IH]; intros Hl; simpl; [done|].
  rewrite bool_decide_false by (apply Hl; by left). apply IH. intros x Hx. apply Hl. by right.
Qed.

Lemma entries_key j key es e :
  journal_wf j → j.(ProjectionJournal.entries) !! key = Some es → e ∈ es → e.(ProjectionEnvelope.key) = key.
Proof.
  intros Hj Hes [i Hi]%list_elem_of_lookup. by destruct (history_run _ _ (journal_histories j Hj key es Hes) i e Hi) as (_ & ? & _).
Qed.

(** The changes of some keys, looked at for one key. *)
Lemma views_bind key (size : ProjectionKey → nat) (l : list (ProjectionKey * list ProjectionEnvelope)) :
  NoDup l.*1 → (∀ k es e, (k, es) ∈ l → e ∈ es → e.(ProjectionEnvelope.key) = k) →
  (∀ es, (key, es) ∈ l → views_of key ('(k, es) ← l; drop (size k) es) = drop (size key) es) ∧
  (key ∉ l.*1 → views_of key ('(k, es) ← l; drop (size k) es) = []).
Proof.
  induction l as [|[k es] l IH]; intros Hnd Hk; [split; [by intros ? ?%elem_of_nil|done]|].
  apply NoDup_cons in Hnd as [Hnot Hnd]. destruct IH as [IH1 IH2]; [done|intros; eapply Hk; [by right|done]|].
  assert (∀ e, e ∈ drop (size k) es → e.(ProjectionEnvelope.key) = k) as Hes.
  { intros e He. eapply Hk; [by left|]. by eapply subseteq_drop. }
  rewrite bind_cons, views_app. split.
  - intros es' [[= <- <-]|Hin]%elem_of_cons.
    + rewrite views_all by done. by rewrite IH2, app_nil_r.
    + rewrite (IH1 es') by done. rewrite views_none; [done|]. intros e He Heq. rewrite (Hes e He) in Heq. subst k. destruct Hnot.
      by apply (list_elem_of_fmap_2 fst) in Hin.
  - intros [Hne Hn]%not_elem_of_cons. rewrite IH2, app_nil_r by done. apply views_none. intros e He Heq. by rewrite (Hes e He) in Heq.
Qed.

Section changes.
Context `{EnvelopeCodec}.

Lemma changes_of_key j checkpoint key :
  journal_wf j →
  views_of key (ProjectionJournal.changes_since j checkpoint) = drop (default 0%nat (checkpoint !! key)) (entries_of j key).
Proof.
  intros Hj. unfold ProjectionJournal.changes_since, views_of. rewrite filter_sort_by.
  2: { intros x y ->%bool_decide_eq_true ->%bool_decide_eq_true. by destruct (str_leb_total (encode_key key) (encode_key key)). }
  destruct (views_bind key (λ k, default 0%nat (checkpoint !! k)) (map_to_list j.(ProjectionJournal.entries))) as [Hin Hout].
  - apply NoDup_fst_map_to_list.
  - intros k es e Hes. eapply entries_key; [done|by apply elem_of_map_to_list].
  - unfold entries_of. destruct (j.(ProjectionJournal.entries) !! key) as [es|] eqn:E; simpl.
    + by apply Hin, elem_of_map_to_list.
    + rewrite drop_nil. apply Hout. intros ([k es] & -> & He%elem_of_map_to_list)%list_elem_of_fmap. simpl in E. congruence.
Qed.

(** Since a checkpoint of the same journal, those are the views added. *)
Lemma changes_since_checkpoint j j' key :
  journal_wf j' →
  views_of key (ProjectionJournal.changes_since j' (ProjectionJournal.checkpoint j)) =
    drop (length (entries_of j key)) (entries_of j' key).
Proof.
  intros Hj. rewrite changes_of_key by done. f_equal. unfold ProjectionJournal.checkpoint, entries_of.
  rewrite lookup_fmap. by destruct (j.(ProjectionJournal.entries) !! key).
Qed.
End changes.

(** ** The store *)

Section broker.
Context `{Codec, EnvelopeCodec, SideTableCodec, OutboxCodec, OwnershipCodec} (hex_digest : string → string) (process_id : nat).

#[local] Hint Extern 0 ReadModels => exact (journal_read_models hex_digest) : typeclass_instances.

Definition store_history (st : CanonicalStore) (key : ProjectionKey) : list ProjectionEnvelope := entries_of st.(store_journal) key.
Definition history (h : HostStore) (key : ProjectionKey) : list ProjectionEnvelope := store_history h.(canonical) key.

(** Histories only grow, and not at all once the store is fenced. *)
Record grown (st st' : CanonicalStore) : Prop := {
  grown_wf : journal_wf st.(store_journal) → journal_wf st'.(store_journal);
  grown_prefix : ∀ key, store_history st key `prefix_of` store_history st' key;
  grown_fenced : st.(store_recovery_required) = true →
    st'.(store_recovery_required) = true ∧ ∀ key, store_history st' key = store_history st key
}.

#[local] Instance grown_preorder : PreOrder grown.
Proof.
  split; [by intros st; split|]. intros st1 st2 st3 [W1 P1 F1] [W2 P2 F2]. split; [tauto|intros key; etrans; [apply P1|apply P2]|].
  intros [F Hh]%F1. destruct (F2 F) as [F' Hh']. split; [done|]. intros key. by rewrite Hh', Hh.
Qed.

Lemma record_extends j io key payload j' r :
  record hex_digest j io key payload = (j', r) →
  (journal_wf j → journal_wf j') ∧
  ∀ k, ∃ more, entries_of j' k = entries_of j k ++ more ∧ ∀ e, r = Ok e → views_of k (option_list e) = more.
Proof.
  intros E. split; [intros Hj; pose proof (record_wf hex_digest j io key payload Hj) as Hw; by rewrite E in Hw|].
  intros k. unfold record in E. destruct (next_envelope j key payload) as [[e|]|err] eqn:En.
  - assert (∀ f, entries_of (ProjectionJournal_set_files f j) k = entries_of j k) as Hf by done.
    assert (∀ f, entries_of (push_entry (ProjectionJournal_set_files f j) e) k = entries_of j k ++ views_of k [e]) as Hp.
    { intros f. unfold push_entry, entries_of, views_of. simpl. case_bool_decide as Hk.
      - by rewrite <-Hk, lookup_insert_eq.
      - by rewrite lookup_insert_ne, app_nil_r. }
    assert (ProjectionJournal_set_files j.(ProjectionJournal.files) j = j) as Hsame by by destruct j.
    unfold append_file in E. destruct (j.(ProjectionJournal.root)); [destruct io|]; injection E as <- <-.
    1: by eexists; split; [apply Hp|intros ? [= <-]]. 1,2: exists []; split; [by rewrite app_nil_r|by intros ?].
    specialize (Hp j.(ProjectionJournal.files)). rewrite Hsame in Hp. by eexists; split; [apply Hp|intros ? [= <-]].
  - injection E as <- <-. exists []. split; [by rewrite app_nil_r|by intros ? [= <-]].
  - injection E as <- <-. exists []. by split; [rewrite app_nil_r|].
Qed.

Lemma record_all_grows candidates : ∀ j ios j' r,
  record_all j ios candidates = (j', r) →
  (journal_wf j → journal_wf j') ∧
  ∀ k, ∃ more, entries_of j' k = entries_of j k ++ more ∧ ∀ es, r = Ok es → views_of k es = more.
Proof.
  induction candidates as [|[key payload] rest IH]; intros j ios j' r; simpl.
  { intros [= <- <-]. split; [done|]. intros k. exists []. split; [by rewrite app_nil_r|by intros ? [= <-]]. }
  destruct (record hex_digest j (default IoOutcome.Written (head ios)) key payload) as [j1 [e|err]] eqn:Er;
    apply record_extends in Er as [Hw1 V1].
  - destruct (record_all _ (tail ios) rest) as [j2 [es|err]] eqn:Ea; apply IH in Ea as [Hw2 V2]; intros [= <- <-].
    all: split; [tauto|]; intros k; destruct (V1 k) as (m1 & E1 & R1), (V2 k) as (m2 & E2 & R2); exists (m1 ++ m2);
      (split; [by rewrite E2, E1, app_assoc|]); intros ? [= <-]; by rewrite views_app, (R1 e), (R2 es).
  - intros [= <- <-]. split; [done|]. intros k. destruct (V1 k) as (m1 & E1 & _). by exists m1.
Qed.

(** A commit that goes through reports the views it added; one that fails added
    none or fences the store. *)
Lemma commit_views st tick effect st' r :
  apply_trusted_commit st tick effect = (st', r) →
  grown st st' ∧
  match r with
  | Ok c => ∀ key, views_of key c.(projections) = drop (length (store_history st key)) (store_history st' key)
  | Err _ => st'.(store_recovery_required) = true ∨ ∀ key, store_history st' key = store_history st key
  end.
Proof.
  unfold apply_trusted_commit. destruct (prepare_commit st tick.(tick_now_ms) effect) as [p|e] eqn:Ep.
  2: { intros [= <- <-]. split; [reflexivity|by right]. }
  assert (st.(store_recovery_required) = false) as Hopen.
  { unfold prepare_commit in Ep. destruct st.(store_recovery_required); [done|reflexivity]. }
  destruct (append st.(store_log) p.(prepared_record) tick.(tick_io)) as [log' [u|e]].
  2: { intros [= <- <-]. split; [|by right]. by split. }
  destruct (record_all st.(store_journal) tick.(tick_views) p.(prepared_candidates)) as [j' rr] eqn:Er.
  apply record_all_grows in Er as [Hw Hk]. intros [= <- <-]. split.
  - split; simpl; [done| |by rewrite Hopen]. intros key. destruct (Hk key) as (more & E & _).
    unfold store_history. simpl. rewrite E. by apply prefix_app_r.
  - destruct rr as [es|e]; simpl; [|by left]. intros key. destruct (Hk key) as (more & E & Hes).
    unfold store_history. simpl. rewrite E, drop_app_length. by apply Hes.
Qed.

Lemma commit_grown st tick effect : grown st (apply_trusted_commit st tick effect).1.
Proof. destruct (apply_trusted_commit st tick effect) as [st' r] eqn:E. by apply commit_views in E as [? _]. Qed.
Lemma side_grown st io key command_id : grown st (record_idempotency st io key command_id).1.
Proof. by split. Qed.

Definition host_grown (h h' : HostStore) : Prop := grown h.(canonical) h'.(canonical).

#[local] Instance host_grown_preorder : PreOrder host_grown.
Proof. unfold host_grown. split; [intros h; reflexivity|intros h1 h2 h3 ? ?; by etrans]. Qed.

Lemma canonical_grown {T} (op : CanonicalStore → CanonicalStore * result T StateError) :
  (∀ st, grown st (op st).1) → acts host_grown (on_canonical op).
Proof. intros Hop h. specialize (Hop h.(canonical)). unfold on_canonical, host_grown. by destruct (op h.(canonical)). Qed.
Lemma apply_commit_grown tick effect : acts host_grown (on_canonical (λ st, apply_commit st tick effect)).
Proof. apply canonical_grown. intros st. apply (apply_commit_respects _ (λ _, True)); [intros; apply commit_grown|done]. Qed.
Lemma trusted_grown tick effect : acts host_grown (on_canonical (λ st, apply_trusted_commit st tick effect)).
Proof. apply canonical_grown. intros st. apply commit_grown. Qed.
Lemma apply_all_grown effects : acts host_grown (on_canonical (λ st, apply_all st effects)).
Proof. apply canonical_grown. intros st. apply (apply_all_respects _ (λ _, True)); [intros; apply commit_grown|done]. Qed.
Lemma submit_grown env envelope now : acts host_grown (on_canonical (λ st, submit_command hex_digest st env envelope now)).
Proof. apply canonical_grown. intros st. apply (submit_respects _ _ (λ _, True)); [intros; apply commit_grown|apply side_grown|done..]. Qed.
Lemma outbox_grown {T} (op : DeviceCommandOutbox → DeviceCommandOutbox * result T StateError) : acts host_grown (on_outbox op).
Proof. intros h. unfold on_outbox, host_grown. destruct (op h.(device_outbox)). reflexivity. Qed.
Lemma content_grown {T} (op : ContentStore → ContentStore * result T StateError) : acts host_grown (on_content op).
Proof. intros h. unfold on_content, host_grown. destruct (op h.(content)). reflexivity. Qed.
Lemma fenced_grown {T} (op : action HostStore T) : acts host_grown op → acts host_grown (fenced op).
Proof.
  intros Hop h. specialize (Hop h). unfold fenced. destruct (op h) as [h' [v|e]]; [done|]. unfold host_grown in *. simpl in *.
  etrans; [exact Hop|]. by split.
Qed.
#[local] Hint Resolve apply_commit_grown trusted_grown apply_all_grown submit_grown outbox_grown content_grown fenced_grown : kaleido.

Lemma validate_references_grown device references now : acts host_grown (validate_references hex_digest device references now).
Proof. induction references; simpl; acts_steps. Qed.
Lemma ensure_writable_grown : acts host_grown ensure_writable.
Proof. unfold ensure_writable. acts_steps. Qed.
Lemma submit_as_grown env envelope now ack : acts host_grown (submit_as hex_digest env envelope now ack).
Proof. unfold submit_as. acts_steps. Qed.
Lemma commits_grown tick effect : acts host_grown (commit tick effect) ∧ acts host_grown (commit_trusted tick effect).
Proof. unfold commit, commit_trusted. split; acts_steps. Qed.
#[local] Hint Resolve validate_references_grown ensure_writable_grown submit_as_grown : kaleido.
#[local] Hint Extern 1 (acts host_grown (commit _ _)) => apply commits_grown : kaleido.
#[local] Hint Extern 1 (acts host_grown (commit_trusted _ _)) => apply commits_grown : kaleido.

Ltac grown_steps := unfold admit_device_command, validate_device_command_content, dispatched_admission, settled_admission, claim_dispatch,
  reject_ready_dispatch, finish_dispatch, claim_queue_delivery, finish_queue_delivery, write_content_for_device,
  read_content_for_device, commit_effect, checkpoint, changes_since, current_state; acts_steps.

Lemma admit_grown env device envelope request now :
  acts host_grown (admit_device_command hex_digest env device envelope request now).
Proof. grown_steps. all: apply fenced_grown; acts_steps. Qed.
Lemma claim_grown io ticket : acts host_grown (claim_dispatch hex_digest io ticket).
Proof. grown_steps. Qed.
Lemma reject_grown claim_io tick complete_io ticket at_ms :
  acts host_grown (reject_ready_dispatch hex_digest claim_io tick complete_io ticket at_ms).
Proof. grown_steps. Qed.
Lemma finish_grown io ticket effects : acts host_grown (finish_dispatch hex_digest io ticket effects).
Proof. grown_steps. Qed.
Lemma claim_delivery_grown tick entry_id at_ms : acts host_grown (claim_queue_delivery tick entry_id at_ms).
Proof. grown_steps. Qed.
Lemma finish_delivery_grown entry_id effects : acts host_grown (finish_queue_delivery entry_id effects).
Proof. grown_steps. Qed.
Lemma commit_effect_grown tick effect : acts host_grown (commit_effect hex_digest tick effect).
Proof. grown_steps. Qed.

(** *** Calls that do not touch the journal *)

Definition same_canonical (h h' : HostStore) : Prop := h'.(canonical) = h.(canonical).

#[local] Instance same_canonical_preorder : PreOrder same_canonical.
Proof. unfold same_canonical. split; [by intros h|]. intros h1 h2 h3 E E'. by rewrite E', E. Qed.

Lemma outbox_quiet {T} (op : DeviceCommandOutbox → DeviceCommandOutbox * result T StateError) : acts same_canonical (on_outbox op).
Proof. intros h. unfold on_outbox, same_canonical. by destruct (op h.(device_outbox)). Qed.
Lemma content_quiet {T} (op : ContentStore → ContentStore * result T StateError) : acts same_canonical (on_content op).
Proof. intros h. unfold on_content, same_canonical. by destruct (op h.(content)). Qed.
#[local] Hint Resolve outbox_quiet content_quiet : kaleido.
Lemma validate_references_quiet device references now : acts same_canonical (validate_references hex_digest device references now).
Proof. induction references; simpl; acts_steps. Qed.
Lemma ensure_writable_quiet : acts same_canonical ensure_writable.
Proof. unfold ensure_writable. acts_steps. Qed.
#[local] Hint Resolve validate_references_quiet ensure_writable_quiet : kaleido.

(** *** Calls report the views they added *)

Definition reports {T} (op : action HostStore T) (projections : T → list ProjectionEnvelope) : Prop := ∀ h h' value,
  journal_wf h.(canonical).(store_journal) → op h = (h', Ok value) →
  ∀ key, views_of key (projections value) = drop (length (history h key)) (history h' key).

(** The same, counted from an earlier store. *)
Definition tracks {T} (st : CanonicalStore) (op : action HostStore T) (projections : T → list ProjectionEnvelope) : Prop := ∀ h h' value,
  journal_wf st.(store_journal) → grown st h.(canonical) → op h = (h', Ok value) →
  ∀ key, views_of key (projections value) = drop (length (store_history st key)) (history h' key).

(** An error leaves the histories as they were, or a fenced store. *)
Definition settles {T} (op : action HostStore T) : Prop := ∀ h h' e, op h = (h', Err e) →
  h'.(canonical).(store_recovery_required) = true ∨ ∀ key, history h' key = history h key.
Definition fences {T} (op : action HostStore T) : Prop := ∀ h h' e, op h = (h', Err e) →
  h'.(canonical).(store_recovery_required) = true.

Section sequences.
Context {T U : Type}.
Implicit Types (op : action HostStore T) (k : T → action HostStore U) (projections : U → list ProjectionEnvelope).

Lemma reports_quiet (op : action HostStore U) projections :
  acts same_canonical op → (∀ v, projections v = []) → reports op projections.
Proof.
  intros Hq Hp h h' v Hj E key. specialize (Hq h). rewrite E in Hq. unfold same_canonical in Hq. simpl in Hq.
  unfold history. by rewrite Hq, Hp, drop_all.
Qed.

Lemma reports_ret v projections : projections v = [] → reports (mret v) projections.
Proof. intros Hp h h' x Hj [= <- <-] key. by rewrite Hp, drop_all. Qed.

Lemma reports_bind_quiet op k projections :
  acts same_canonical op → (∀ v, reports (k v) projections) → reports (op ≫= k) projections.
Proof.
  intros Hq Hk h h' v Hj (h1 & x & E1 & E2)%action_bind_ok key. specialize (Hq h). rewrite E1 in Hq.
  unfold same_canonical in Hq. simpl in Hq. rewrite (Hk x h1 h' v) by (by rewrite ?Hq). unfold history. by rewrite Hq.
Qed.

Lemma tracks_bind st op k projections :
  acts host_grown op → (∀ v, tracks st (k v) projections) → tracks st (op ≫= k) projections.
Proof.
  intros Hg Hk h h' v Hj Hst (h1 & x & E1 & E2)%action_bind_ok key. apply (Hk x h1 h' v); [done| |done].
  specialize (Hg h). rewrite E1 in Hg. etrans; [exact Hst|exact Hg].
Qed.

Lemma settles_bind_quiet op k : acts same_canonical op → (∀ v, settles (k v)) → settles (op ≫= k).
Proof.
  intros Hq Hk h h' e. unfold mbind, action_bind. specialize (Hq h). unfold same_canonical in Hq.
  destruct (op h) as [h1 [v|x]]; simpl in Hq; unfold history; rewrite <-Hq; [apply Hk|]. intros [= <- _]. by right.
Qed.

Lemma settles_bind op k : settles op → (∀ v, fences (k v)) → settles (op ≫= k).
Proof.
  intros Hs Hk h h' e. unfold mbind, action_bind. destruct (op h) as [h1 [v|x]] eqn:E; [intros ?; left; by eapply Hk|].
  intros [= <- _]. by eapply Hs.
Qed.

Lemma fences_bind op k : fences op → (∀ v, fences (k v)) → fences (op ≫= k).
Proof.
  intros Hs Hk h h' e. unfold mbind, action_bind. destruct (op h) as [h1 [v|x]] eqn:E; [by apply Hk|].
  intros [= <- _]. by eapply Hs.
Qed.

Lemma settles_ret (v : T) : settles (mret v).
Proof. by intros h h' e [=]. Qed.
Lemma fences_ret (v : T) : fences (mret v).
Proof. by intros h h' e [=]. Qed.
Lemma fences_get (f : HostStore → T) : fences (action_get f).
Proof. by intros h h' e [=]. Qed.
Lemma fences_fenced op : fences (fenced op).
Proof. intros h h' e. unfold fenced. destruct (op h) as [h1 [v|x]]; [done|]. by intros [= <- _]. Qed.
Lemma settles_fences op : fences op → settles op.
Proof. intros Hf h h' e E. left. by eapply Hf. Qed.
End sequences.
#[local] Hint Resolve settles_ret fences_ret fences_get fences_fenced settles_fences : kaleido.

Lemma tracks_changes {T} st (f : list ProjectionEnvelope → T) (projections : T → list ProjectionEnvelope) :
  (∀ changes, projections (f changes) = changes) →
  tracks st (changes ← changes_since (rm_checkpoint st.(store_journal)); mret (f changes)) projections.
Proof.
  intros Hf h h' v Hj Hst [= <- <-] key. rewrite Hf. apply changes_since_checkpoint. by eapply grown_wf.
Qed.

Lemma tracks_changes_only st : tracks st (changes_since (rm_checkpoint st.(store_journal))) id.
Proof. intros h h' v Hj Hst [= <- <-] key. apply changes_since_checkpoint. by eapply grown_wf. Qed.

Lemma reports_checkpoint {T} (k : Checkpoint → action HostStore T) projections :
  (∀ st, tracks st (k (rm_checkpoint st.(store_journal))) projections) → reports (checkpoint ≫= k) projections.
Proof. intros Hk h h' v Hj E. apply (Hk h.(canonical) h h' v); [done|reflexivity|exact E]. Qed.

Lemma settles_checkpoint {T} (k : Checkpoint → action HostStore T) : (∀ v, settles (k v)) → settles (checkpoint ≫= k).
Proof. apply settles_bind_quiet. unfold checkpoint. acts_steps. Qed.

(** Unfold a sequence of operations up to its checkpoint, and from there. *)
Ltac report_steps :=
  repeat first
    [ progress auto with kaleido typeclass_instances
    | apply reports_checkpoint; intros ?
    | apply settles_checkpoint; intros ?
    | apply tracks_changes; done
    | apply tracks_changes_only
    | apply reports_ret; done
    | apply reports_bind_quiet; [solve [unfold current_state, validate_device_command_content; acts_steps]|intros ?]
    | apply settles_bind_quiet; [solve [unfold current_state, validate_device_command_content; acts_steps]|intros ?]
    | apply settles_bind; [|intros ?]
    | apply fences_bind; [|intros ?]
    | apply tracks_bind; [acts_steps|intros ?]
    | match goal with |- _ (match ?x with _ => _ end) => destruct x end
    | match goal with |- _ (match ?x with _ => _ end) _ => destruct x end ].

Lemma commit_effect_reports tick effect : reports (commit_effect hex_digest tick effect) id.
Proof.
  unfold commit_effect. intros h h' v Hj (h1 & c & E1 & [= <- <-])%action_bind_ok key. unfold on_canonical in E1.
  destruct (apply_commit h.(canonical) tick effect) as [st r] eqn:E. injection E1 as <- ->. unfold apply_commit in E.
  destruct (is_local_acknowledgement effect); [done|]. by apply commit_views in E as [_ Hv].
Qed.

Lemma commit_settles tick effect : settles (on_canonical (λ st, apply_commit st tick effect)).
Proof.
  intros h h' e. unfold on_canonical, history. destruct (apply_commit h.(canonical) tick effect) as [st r] eqn:E. intros [= <- ->].
  unfold apply_commit in E. destruct (is_local_acknowledgement effect); [injection E as <- _; by right|].
  by apply commit_views in E as [_ Hv].
Qed.
#[local] Hint Resolve commit_settles : kaleido.

Lemma commit_effect_settles tick effect : settles (commit_effect hex_digest tick effect).
Proof. unfold commit_effect. report_steps. Qed.

Lemma admit_reports env device envelope request now :
  reports (admit_device_command hex_digest env device envelope request now) admission_projections.
Proof. unfold admit_device_command, dispatched_admission, settled_admission. report_steps. apply fenced_grown. acts_steps. Qed.
Lemma admit_settles env device envelope request now : settles (admit_device_command hex_digest env device envelope request now).
Proof. unfold admit_device_command, dispatched_admission, settled_admission, changes_since. report_steps. Qed.

Lemma claim_reports io ticket : reports (claim_dispatch hex_digest io ticket) claim_projections.
Proof. unfold claim_dispatch. report_steps. Qed.
Lemma claim_settles io ticket : settles (claim_dispatch hex_digest io ticket).
Proof. unfold claim_dispatch. report_steps. Qed.
Lemma claim_delivery_reports tick entry_id at_ms : reports (claim_queue_delivery tick entry_id at_ms) delivery_projections.
Proof. unfold claim_queue_delivery. report_steps. Qed.
Lemma claim_delivery_settles tick entry_id at_ms : settles (claim_queue_delivery tick entry_id at_ms).
Proof. unfold claim_queue_delivery, commit, changes_since. report_steps. Qed.
Lemma reject_reports claim_io tick complete_io ticket at_ms :
  reports (reject_ready_dispatch hex_digest claim_io tick complete_io ticket at_ms) id.
Proof. unfold reject_ready_dispatch. report_steps. Qed.
Lemma finish_reports io ticket effects : reports (finish_dispatch hex_digest io ticket effects) id.
Proof. unfold finish_dispatch. report_steps. Qed.
Lemma finish_delivery_reports entry_id effects : reports (finish_queue_delivery entry_id effects) id.
Proof. unfold finish_queue_delivery. report_steps. Qed.
Lemma write_quiet device request bytes now : acts same_canonical (write_content_for_device hex_digest process_id device request bytes now).
Proof. unfold write_content_for_device. acts_steps. Qed.
Lemma read_quiet device request now : acts same_canonical (read_content_for_device hex_digest device request now).
Proof. unfold read_content_for_device, current_state. acts_steps. Qed.

Lemma quiet_grown {T} (op : action HostStore T) : acts same_canonical op → acts host_grown op.
Proof. intros Hq h. specialize (Hq h). unfold host_grown. rewrite Hq. reflexivity. Qed.
Lemma quiet_settles {T} (op : action HostStore T) : acts same_canonical op → settles op.
Proof. intros Hq h h' e E. specialize (Hq h). rewrite E in Hq. unfold same_canonical in Hq. simpl in Hq. right. intros key. unfold history. by rewrite Hq. Qed.

(** ** Mailboxes *)

Definition projected (envelopes : list ProjectionEnvelope) : list SubscriptionEvent := SubscriptionEvent.Projection <$> envelopes.

Lemma push_closed key envelopes at_ms m : m.(MailboxState.closed) = true → (push_all key envelopes at_ms m).1 = m.
Proof.
  intros Hc. induction envelopes as [|e es IH]; [done|]. simpl. case_bool_decide; [|done].
  unfold mailbox_push. rewrite Hc. by destruct (push_all key es at_ms m).
Qed.

(** All views of the key are taken, or the mailbox is closed with a gap alone. *)
Lemma push_all_open key envelopes at_ms : ∀ m, m.(MailboxState.closed) = false →
  let (m', taken) := push_all key envelopes at_ms m in
  (taken = true ∧ m'.(MailboxState.closed) = false ∧
     m'.(MailboxState.events) = m.(MailboxState.events) ++ projected (views_of key envelopes)) ∨
  (taken = false ∧ m'.(MailboxState.closed) = true ∧ m'.(MailboxState.events) = [SubscriptionEvent.Closed (gap_error at_ms)]).
Proof.
  induction envelopes as [|e es IH]; intros m Hm; simpl; [left; by rewrite app_nil_r|].
  unfold views_of. simpl. case_bool_decide; [|by apply IH]. unfold mailbox_push. rewrite Hm.
  destruct (_ <=? _)%nat.
  - match goal with |- context [push_all key es at_ms ?m1] => pose proof (push_closed key es at_ms m1 eq_refl) as Hp;
      destruct (push_all key es at_ms m1) as [m' taken] end. simpl in Hp. subst m'. by right.
  - match goal with |- context [push_all key es at_ms ?m1] => specialize (IH m1 eq_refl);
      destruct (push_all key es at_ms m1) as [m' taken] end. simpl in IH. rewrite <-app_assoc in IH. by destruct IH; [left|right].
Qed.

(** ** Calls of a broker *)

(** One locked section of the broker each, in the order they run. *)
Inductive BrokerCall : Type :=
| BrokerApply (tick : Tick) (effect : StateEffect) (at_ms : Z)
| BrokerReachability (tick : Tick) (reachability : HostReachability) (at_ms : Z)
| BrokerAdmit (env : AdmitEnv) (mint : IdentityMint) (device_id : DeviceId) (request : DeviceCommandRequest) (now_ms : Z)
| BrokerClaimDelivery (tick : Tick) (entry_id : QueueEntryId) (at_ms : Z)
| BrokerFinishDelivery (entry_id : QueueEntryId) (effects : list (Tick * StateEffect)) (at_ms : Z)
| BrokerClaim (io : IoOutcome) (ticket : DispatchTicket) (at_ms : Z)
| BrokerReject (claim_io : IoOutcome) (tick : Tick) (complete_io : IoOutcome) (ticket : DispatchTicket) (at_ms : Z)
| BrokerFinish (io : IoOutcome) (ticket : DispatchTicket) (effects : list (Tick * StateEffect)) (at_ms : Z)
| BrokerWrite (device_id : DeviceId) (request : ContentWriteRequest) (bytes : string) (now_ms : Z)
| BrokerRead (device_id : DeviceId) (request : ContentReadRequest) (now_ms : Z)
| BrokerSubscribe (request : ProjectionSubscribe) (at_ms : Z) (capacity : nat)
| BrokerReceive (token : Z)
| BrokerUnsubscribe (token : Z).

Definition run_broker_call (call : BrokerCall) (b : BrokerState hex_digest) : BrokerState hex_digest :=
  match call with
  | BrokerApply tick effect at_ms => (apply_effect hex_digest tick effect at_ms b).1
  | BrokerReachability tick reachability at_ms => (set_authenticated_reachability hex_digest tick reachability at_ms b).1
  | BrokerAdmit env mint device_id request now_ms => (broker_admit hex_digest env mint device_id request now_ms b).1
  | BrokerClaimDelivery tick entry_id at_ms => (broker_claim_queue_delivery hex_digest tick entry_id at_ms b).1
  | BrokerFinishDelivery entry_id effects at_ms => (broker_finish_queue_delivery hex_digest entry_id effects at_ms b).1
  | BrokerClaim io ticket at_ms => (broker_claim_dispatch hex_digest io ticket at_ms b).1
  | BrokerReject claim_io tick complete_io ticket at_ms =>
      (broker_reject_ready_dispatch hex_digest claim_io tick complete_io ticket at_ms b).1
  | BrokerFinish io ticket effects at_ms => (broker_finish_dispatch hex_digest io ticket effects at_ms b).1
  | BrokerWrite device_id request bytes now_ms => (broker_write_content hex_digest process_id device_id request bytes now_ms b).1
  | BrokerRead device_id request now_ms => (broker_read_content hex_digest device_id request now_ms b).1
  | BrokerSubscribe request at_ms capacity => (subscribe_with_capacity hex_digest request at_ms capacity b).1
  | BrokerReceive token => (receive hex_digest token b).1
  | BrokerUnsubscribe token => broker_unsubscribe hex_digest token b
  end.

(** What a call hands to the holder of a subscription. *)
Definition handed (token : Z) (call : BrokerCall) (b : BrokerState hex_digest) : list SubscriptionEvent :=
  match call with
  | BrokerReceive t => if bool_decide (t = token) then option_list (receive hex_digest t b).2 else []
  | _ => []
  end.

Fixpoint run_broker (token : Z) (calls : list BrokerCall) (b : BrokerState hex_digest) : BrokerState hex_digest * list SubscriptionEvent :=
  match calls with
  | [] => (b, [])
  | call :: rest =>
      let (b', more) := run_broker token rest (run_broker_call call b) in (b', handed token call b ++ more)
  end.

Definition broker_history (b : BrokerState hex_digest) (key : ProjectionKey) : list ProjectionEnvelope := history b.(broker_store hex_digest) key.
Definition broker_fenced (b : BrokerState hex_digest) : bool := b.(broker_store hex_digest).(canonical).(store_recovery_required).

(** The three calls that commit a batch go through, are refused before they commit
    anything, or leave a fenced store; what they commit and then do not report would
    be in no mailbox. *)
Definition batch_settles (call : BrokerCall) (b : BrokerState hex_digest) : Prop :=
  let settled {T} (r : BrokerState hex_digest * result T BrokerError) :=
    is_ok r.2 = true ∨ broker_fenced r.1 = true ∨ ∀ key, broker_history r.1 key = broker_history b key in
  match call with
  | BrokerFinishDelivery entry_id effects at_ms => settled (broker_finish_queue_delivery hex_digest entry_id effects at_ms b)
  | BrokerReject claim_io tick complete_io ticket at_ms =>
      settled (broker_reject_ready_dispatch hex_digest claim_io tick complete_io ticket at_ms b)
  | BrokerFinish io ticket effects at_ms => settled (broker_finish_dispatch hex_digest io ticket effects at_ms b)
  | _ => True
  end.

Fixpoint batches_settle (calls : list BrokerCall) (b : BrokerState hex_digest) : Prop :=
  match calls with
  | [] => True
  | call :: rest => batch_settles call b ∧ batches_settle rest (run_broker_call call b)
  end.

(** ** The stream of a subscription *)

(** How the stream of a mailbox ends: it is open, or one gap error closed it. *)
Definition closing_of (m : MailboxState) (closing : list SubscriptionEvent) : Prop :=
  if m.(MailboxState.closed) then ∃ at_ms, closing = [SubscriptionEvent.Closed (gap_error at_ms)] else closing = [].

Lemma closing_of_open m closing : m.(MailboxState.closed) = false → closing_of m closing → closing = [].
Proof. unfold closing_of. by intros ->. Qed.

(** What was handed out and what waits are the views after the first [base] of the
    key, up to the last one while the subscription is registered; a mailbox that was
    closed has told of a gap, and of nothing after it; a subscription that is not
    registered was closed that way, or was given up by one of the calls [past]. *)
Record follows (key : ProjectionKey) (base : nat) (token : Z) (past : list BrokerCall) (b : BrokerState hex_digest)
    (got : list SubscriptionEvent) : Prop := {
  follows_wf : journal_wf b.(broker_store hex_digest).(canonical).(store_journal);
  follows_base : (base ≤ length (broker_history b key))%nat;
  follows_token : token < b.(next_subscription_token hex_digest);
  follows_stream : ∃ m sent closing,
    b.(mailboxes hex_digest) !! token = Some m ∧ got ++ m.(MailboxState.events) = projected sent ++ closing ∧
    sent `prefix_of` drop base (broker_history b key) ∧
    closing_of m closing ∧
    match b.(subscribers hex_digest) !! token with
    | Some k => k = key ∧ m.(MailboxState.closed) = false ∧
        (broker_fenced b = false → sent = drop base (broker_history b key))
    | None => m.(MailboxState.closed) = true ∨ BrokerUnsubscribe token ∈ past
    end
}.

Lemma prefix_drop_both {A} n (l l' : list A) : l `prefix_of` l' → drop n l `prefix_of` drop n l'.
Proof. intros [k ->]. rewrite drop_app. by apply prefix_app_r. Qed.

Lemma drop_grown {A} n (l l' : list A) :
  (n ≤ length l)%nat → l `prefix_of` l' → drop n l' = drop n l ++ drop (length l) l'.
Proof. intros Hn [k ->]. rewrite drop_app_length. by rewrite drop_app_le. Qed.

Lemma publish_lookup envelopes at_ms b token m :
  b.(mailboxes hex_digest) !! token = Some m →
  (publish hex_digest envelopes at_ms b).(mailboxes hex_digest) !! token =
    Some (match b.(subscribers hex_digest) !! token with Some k => (push_all k envelopes at_ms m).1 | None => m end) ∧
  (publish hex_digest envelopes at_ms b).(subscribers hex_digest) !! token =
    match b.(subscribers hex_digest) !! token with
    | Some k => if (push_all k envelopes at_ms m).2 then Some k else None
    | None => None
    end.
Proof.
  intros Hm. unfold publish. simpl. rewrite map_lookup_imap, Hm. simpl. split; [done|].
  rewrite map_lookup_filter. destruct (b.(subscribers hex_digest) !! token) as [k|]; simpl; [|done].
  rewrite Hm. simpl. by destruct (push_all k envelopes at_ms m) as [m' []].
Qed.

Lemma split_projected got events sent closing :
  got ++ events = projected sent ++ closing → closing = [] → ∃ taken, got = projected taken ∧ taken `prefix_of` sent.
Proof.
  intros E ->. rewrite app_nil_r in E. unfold projected in *. symmetry in E.
  apply fmap_app_inv in E as (taken & rest & -> & _ & ->). exists taken. split; [done|]. by apply prefix_app_r.
Qed.

Section step.
Context (key : ProjectionKey) (base : nat) (token : Z) (past : list BrokerCall).
Context (b : BrokerState hex_digest) (got : list SubscriptionEvent).
Hypothesis (Hf : follows key base token past b got).

Lemma base_grown h : (base ≤ length (broker_history b key))%nat →
  grown b.(broker_store hex_digest).(canonical) h.(canonical) → (base ≤ length (history h key))%nat.
Proof. intros Hb Hg. pose proof (prefix_length _ _ (grown_prefix _ _ Hg key)). unfold broker_history, history in *. lia. Qed.

Lemma follows_failed h :
  grown b.(broker_store hex_digest).(canonical) h.(canonical) →
  h.(canonical).(store_recovery_required) = true ∨ (∀ k, history h k = broker_history b k) →
  follows key base token past (set_broker_store hex_digest h b) got.
Proof.
  intros Hg Hs. destruct Hf as [Hw Hb Ht (m & sent & closing & Hm & He & Hp & Hcl & Hr)].
  split; simpl; [by eapply grown_wf|by eapply base_grown|done|].
  exists m, sent, closing. split_and!; [done..| |done|].
  - etrans; [exact Hp|]. apply prefix_drop_both. unfold broker_history. simpl. by apply grown_prefix.
  - destruct (b.(subscribers hex_digest) !! token) as [k|]; [|done]. destruct Hr as (-> & Hc & Hsent). split_and!; [done..|].
    unfold broker_fenced, broker_history. simpl. destruct Hs as [->|Hs]; [done|]. intros Hopen. rewrite Hs. apply Hsent.
    destruct (broker_fenced b) eqn:Ef; [|done]. destruct (grown_fenced _ _ Hg Ef) as [Hx _]. congruence.
Qed.

Lemma follows_published h envelopes at_ms :
  grown b.(broker_store hex_digest).(canonical) h.(canonical) →
  views_of key envelopes = drop (length (broker_history b key)) (history h key) →
  follows key base token past (publish hex_digest envelopes at_ms (set_broker_store hex_digest h b)) got.
Proof.
  intros Hg Hv. destruct Hf as [Hw Hb Ht (m & sent & closing & Hm & He & Hp & Hcl & Hr)].
  destruct (publish_lookup envelopes at_ms (set_broker_store hex_digest h b) token m Hm) as [Em Es].
  pose proof (grown_prefix _ _ Hg key) as Hpre. change (broker_history b key `prefix_of` history h key) in Hpre.
  split; [simpl; by eapply grown_wf|by eapply base_grown|done|]. change (broker_history _ key) with (history h key).
  change (broker_fenced _) with h.(canonical).(store_recovery_required). rewrite Em, Es.
  change (subscribers hex_digest (set_broker_store hex_digest h b)) with b.(subscribers hex_digest).
  assert (sent `prefix_of` drop base (history h key)) as Hp' by (etrans; [exact Hp|by apply prefix_drop_both]).
  destruct (b.(subscribers hex_digest) !! token) as [k|]; [|by exists m, sent, closing].
  destruct Hr as (-> & Hc & Hsent). apply closing_of_open in Hcl as ->; [|done]. pose proof (push_all_open key envelopes at_ms m Hc) as Hpush.
  destruct (push_all key envelopes at_ms m) as [m' []]; simpl; destruct Hpush as [(E & Hc' & Hev)|(E & Hc' & Hev)]; try done.
  - assert (sent ++ views_of key envelopes `prefix_of` drop base (history h key) ∧
            (h.(canonical).(store_recovery_required) = false → sent ++ views_of key envelopes = drop base (history h key))) as [Hp1 Hs1].
    { rewrite Hv. destruct (broker_fenced b) eqn:Efence.
      - destruct (grown_fenced _ _ Hg Efence) as [-> Hsame]. specialize (Hsame key).
        change (history h key = broker_history b key) in Hsame. rewrite Hsame, drop_all, app_nil_r. by rewrite Hsame in Hp'.
      - rewrite (Hsent eq_refl). by rewrite (drop_grown base _ _ Hb Hpre). }
    exists m', (sent ++ views_of key envelopes), []. split_and!; [done| |done|by unfold closing_of; rewrite Hc'|done..]. rewrite Hev, app_assoc, He, !app_nil_r.
    unfold projected. by rewrite fmap_app.
  - destruct (split_projected _ _ _ _ He eq_refl) as (taken & -> & Htaken).
    exists m', taken, [SubscriptionEvent.Closed (gap_error at_ms)]. split_and!; [done|by rewrite Hev|by etrans| |by left].
    unfold closing_of. rewrite Hc'. by exists at_ms.
Qed.

Lemma follows_publishing {T} (op : action HostStore T) projections at_ms :
  acts host_grown op → reports op projections →
  is_ok (publishing hex_digest op projections at_ms b).2 = true ∨
  broker_fenced (publishing hex_digest op projections at_ms b).1 = true ∨
  (∀ k, broker_history (publishing hex_digest op projections at_ms b).1 k = broker_history b k) →
  follows key base token past (publishing hex_digest op projections at_ms b).1 got.
Proof.
  intros Hg Hr Hs. specialize (Hg b.(broker_store hex_digest)). unfold publishing in *.
  destruct (op b.(broker_store hex_digest)) as [h [v|e]] eqn:E; simpl in *.
  - apply follows_published; [exact Hg|]. eapply Hr; [apply Hf|done].
  - apply follows_failed; [exact Hg|]. by destruct Hs as [|[|]]; [|left|right].
Qed.

Lemma follows_settled {T} (op : action HostStore T) projections at_ms :
  acts host_grown op → reports op projections → settles op →
  follows key base token past (publishing hex_digest op projections at_ms b).1 got.
Proof.
  intros Hg Hr Hs. apply follows_publishing; [done..|]. unfold publishing.
  destruct (op b.(broker_store hex_digest)) as [h [v|e]] eqn:E; simpl; [by left|]. right. by eapply Hs.
Qed.

Lemma follows_same b' :
  b'.(broker_store hex_digest) = b.(broker_store hex_digest) →
  b'.(mailboxes hex_digest) !! token = b.(mailboxes hex_digest) !! token →
  b'.(subscribers hex_digest) !! token = b.(subscribers hex_digest) !! token →
  b.(next_subscription_token hex_digest) ≤ b'.(next_subscription_token hex_digest) →
  follows key base token past b' got.
Proof.
  intros Es Em Er Hn. destruct Hf as [Hw Hb Ht (m & sent & closing & Hm & He & Hp & Hcl & Hr)].
  unfold broker_history, broker_fenced in *. split; unfold broker_history, broker_fenced; rewrite ?Es; [done..|lia|].
  exists m, sent, closing. rewrite Em, Er. split_and!; done.
Qed.

(** The calls that are noted do not have to be the last. *)
Lemma follows_more call : follows key base token (past ++ [call]) b got.
Proof.
  destruct Hf as [Hw Hb Ht (m & sent & closing & Hm & He & Hp & Hcl & Hr)]. split; [done..|]. exists m, sent, closing. split_and!; [done..|].
  destruct (b.(subscribers hex_digest) !! token); [done|]. destruct Hr as [?|Hin]; [by left|right]. apply elem_of_app. by left.
Qed.

Lemma follows_unsubscribe : follows key base token (past ++ [BrokerUnsubscribe token]) (broker_unsubscribe hex_digest token b) got.
Proof.
  destruct Hf as [Hw Hb Ht (m & sent & closing & Hm & He & Hp & Hcl & Hr)]. split; simpl; [done..|]. exists m, sent, closing.
  rewrite lookup_delete_eq. split_and!; [done..|]. right. apply elem_of_app. right. by left.
Qed.

Lemma follows_receive :
  follows key base token past (receive hex_digest token b).1 (got ++ option_list (receive hex_digest token b).2).
Proof.
  destruct Hf as [Hw Hb Ht (m & sent & closing & Hm & He & Hp & Hcl & Hr)]. unfold receive. rewrite Hm. unfold mailbox_recv.
  destruct m as [[|event events] capacity closed]; simpl in *; (split; simpl; [done..|]).
  all: eexists _, sent, closing; rewrite lookup_insert_eq; split_and!; [done| |done|exact Hcl|done]; simpl.
  - by rewrite app_nil_r.
  - by rewrite <-app_assoc.
Qed.

Lemma follows_subscribe request at_ms capacity :
  follows key base token past (subscribe_with_capacity hex_digest request at_ms capacity b).1 got.
Proof.
  unfold subscribe_with_capacity. pose proof (follows_token _ _ _ _ _ _ Hf) as Ht.
  destruct (_ =? 0)%nat; [done|]. unfold checked_add_u64. destruct (_ <=? u64_max); [|done].
  destruct (replay _ _ _) as [[[k outcome] es]|e]; [destruct outcome|]; apply follows_same; simpl; try done; try lia.
  all: try (rewrite lookup_insert_ne; [done|lia]).
  rewrite lookup_delete_ne, lookup_insert_ne by lia. done.
Qed.
End step.

Lemma follows_call key base token past b got call :
  follows key base token past b got → batch_settles call b →
  follows key base token (past ++ [call]) (run_broker_call call b) (got ++ handed token call b).
Proof.
  intros Hf Hs. assert ((∃ t, call = BrokerUnsubscribe t ∧ t = token) ∨ call ≠ BrokerUnsubscribe token) as [(t & -> & ->)|Hno].
  { destruct call as [| | | | | | | | | | | |t]; try (by right). destruct (decide (t = token)) as [->|]; [left; by eexists|right; congruence]. }
  { cbn [handed]. rewrite app_nil_r. by apply follows_unsubscribe. }
  apply follows_more. destruct call; cbn [handed]; rewrite ?app_nil_r; cbn [run_broker_call].
  - unfold apply_effect. destruct (owned_effect _ b effect); [|done]. by apply follows_settled;
      [|apply commit_effect_grown|apply commit_effect_reports|apply commit_effect_settles].
  - unfold set_authenticated_reachability. case_bool_decide; [done|].
    assert (follows key base token past (set_reachability hex_digest reachability b) got) as Hr by (eapply follows_same; [exact Hf|done|done|done|reflexivity]).
    destruct (find_first _ _); [|done]. by apply follows_settled;
      [|apply commit_effect_grown|apply commit_effect_reports|apply commit_effect_settles].
  - unfold broker_admit. destruct (device_envelope _ _ _ _ _); [|done].
    by apply follows_settled; [|apply admit_grown|apply admit_reports|apply admit_settles].
  - by apply follows_settled; [|apply claim_delivery_grown|apply claim_delivery_reports|apply claim_delivery_settles].
  - by apply follows_publishing; [|apply finish_delivery_grown|apply finish_delivery_reports|].
  - by apply follows_settled; [|apply claim_grown|apply claim_reports|apply claim_settles].
  - by apply follows_publishing; [|apply reject_grown|apply reject_reports|].
  - by apply follows_publishing; [|apply finish_grown|apply finish_reports|].
  - pose proof (write_quiet device_id request bytes now_ms) as Hq.
    by apply follows_settled; [|apply quiet_grown|apply reports_quiet|apply quiet_settles].
  - pose proof (read_quiet device_id request now_ms) as Hq.
    by apply follows_settled; [|apply quiet_grown|apply reports_quiet|apply quiet_settles].
  - by apply follows_subscribe.
  - case_bool_decide as Ht; [subst; by apply follows_receive|]. rewrite app_nil_r. unfold receive.
    destruct (b.(mailboxes hex_digest) !! _) as [m|]; [|done]. destruct (mailbox_recv m) as [m' event].
    eapply follows_same; simpl; [exact Hf|done|by rewrite lookup_insert_ne|done|reflexivity].
  - eapply follows_same; simpl; [exact Hf|done|done| |reflexivity]. rewrite lookup_delete_ne; [done|congruence].
Qed.

Lemma follows_run key base token calls : ∀ past b got,
  follows key base token past b got → batches_settle calls b →
  follows key base token (past ++ calls) (run_broker token calls b).1 (got ++ (run_broker token calls b).2).
Proof.
  induction calls as [|call calls IH]; intros past b got Hf Hs; simpl; [by rewrite !app_nil_r|]. destruct Hs as [Hs Hrest].
  specialize (IH _ _ _ (follows_call _ _ _ _ _ _ _ Hf Hs) Hrest). rewrite <-app_assoc in IH. destruct (run_broker token calls _) as [b' more]. simpl in *.
  by rewrite app_assoc.
Qed.

(** What an accepted subscription is replayed is a suffix of the journal. *)
Lemma replay_suffix j request at_ms r :
  journal_wf j → (∀ since, request.(ProjectionSubscribe.since) = Some since → in_u64 since.(Cursor.seq)) →
  replay j request at_ms = Ok r →
  (∀ error, r.(ProjectionReplay.ack).(ProjectionSubscribeAck.outcome) ≠ ProjectionSubscribeOutcome.Rejected error) →
  ∃ skip, r.(ProjectionReplay.envelopes) = drop skip (entries_of j request.(ProjectionSubscribe.key)).
Proof.
  intros Hj Hs Hr Hacc.
  assert (ProjectionKey_validate request.(ProjectionSubscribe.key) = Ok tt) as Hk.
  { unfold replay in Hr. rewrite rbind_ok_unit in Hr. by destruct Hr as [?%map_err_ok _]. }
  destruct (replay_serves_subscription j request at_ms Hj Hk Hs) as (r' & Hr' & _ & Ho). rewrite Hr in Hr'. injection Hr' as <-.
  destruct (r.(ProjectionReplay.ack).(ProjectionSubscribeAck.outcome)) as [c|c|e]; [| |by destruct (Hacc e)].
  - destruct Ho as (since & _ & -> & _). by eexists.
  - destruct Ho as (e & Hcur & _ & ->). unfold current, entries_of in *.
    destruct (j.(ProjectionJournal.entries) !! _) as [es|]; [|done]. simpl in *.
    apply last_Some in Hcur as [es' ->]. exists (length es'). by rewrite drop_app_length.
Qed.

Lemma run_broker_call_grown call b :
  grown b.(broker_store hex_digest).(canonical) (run_broker_call call b).(broker_store hex_digest).(canonical).
Proof.
  assert (∀ T (op : action HostStore T) proj at_ms b, acts host_grown op →
    grown b.(broker_store hex_digest).(canonical)
      (publishing hex_digest op proj at_ms b).1.(broker_store hex_digest).(canonical)) as Hpub.
  { intros T op proj at_ms b0 Hg. specialize (Hg b0.(broker_store hex_digest)). unfold publishing. by destruct (op _) as [h []]. }
  destruct call; simpl; try apply Hpub;
    auto using claim_delivery_grown, finish_delivery_grown, claim_grown, reject_grown, finish_grown, quiet_grown, write_quiet, read_quiet.
  - unfold apply_effect. destruct (owned_effect _ _ _); [apply Hpub, commit_effect_grown|reflexivity].
  - unfold set_authenticated_reachability. case_bool_decide; [reflexivity|].
    destruct (find_first _ _); [|reflexivity]. apply (Hpub _ _ _ _ (set_reachability hex_digest reachability b)), commit_effect_grown.
  - unfold broker_admit. destruct (device_envelope _ _ _ _ _); [apply Hpub, admit_grown|reflexivity].
  - unfold subscribe_with_capacity. destruct (_ =? 0)%nat; [reflexivity|]. destruct (checked_add_u64 _ _); [|reflexivity].
    destruct (replay _ _ _) as [[[k outcome] es]|e]; [by destruct outcome|reflexivity].
  - unfold receive. destruct (_ !! _) as [m|]; [|reflexivity]. by destruct (mailbox_recv m).
  - reflexivity.
Qed.

Lemma run_grown token calls b :
  grown b.(broker_store hex_digest).(canonical) (run_broker token calls b).1.(broker_store hex_digest).(canonical).
Proof.
  revert b. induction calls as [|call calls IH]; intros b; simpl; [reflexivity|]. specialize (IH (run_broker_call call b)).
  destruct (run_broker token calls _) as [b' more]. simpl in *. etrans; [apply run_broker_call_grown|exact IH].
Qed.

(** The state a subscription starts from. *)
Lemma subscribed_follows b request at_ms capacity b1 subscription :
  journal_wf b.(broker_store hex_digest).(canonical).(store_journal) →
  (∀ since, request.(ProjectionSubscribe.since) = Some since → in_u64 since.(Cursor.seq)) →
  subscribe_with_capacity hex_digest request at_ms capacity b = (b1, Ok subscription) →
  (∀ error, subscription.(subscription_replay).(ProjectionReplay.ack).(ProjectionSubscribeAck.outcome)
              ≠ ProjectionSubscribeOutcome.Rejected error) →
  let key := request.(ProjectionSubscribe.key) in
  ∃ skip, (skip ≤ length (broker_history b1 key))%nat ∧
    subscription.(subscription_replay).(ProjectionReplay.envelopes) = drop skip (broker_history b1 key) ∧
    follows key (length (broker_history b1 key)) subscription.(subscription_token) [] b1 [] ∧
    broker_history b1 key = broker_history b key.
Proof.
  intros Hj Hsince Hsub Hacc key. unfold subscribe_with_capacity in Hsub. destruct (_ =? 0)%nat; [done|].
  destruct (checked_add_u64 _ _) as [next|] eqn:En; [|done]. simpl in Hsub.
  destruct (replay _ _ _) as [r|e] eqn:Er; [|done].
  assert (b.(next_subscription_token hex_digest) < next) as Hn by (unfold checked_add_u64 in En; destruct (_ <=? u64_max); naive_solver lia).
  assert (∃ o, r.(ProjectionReplay.ack).(ProjectionSubscribeAck.outcome) = o ∧ ∀ error, o ≠ ProjectionSubscribeOutcome.Rejected error)
    as (o & Eo & Ho) by (eexists; split; [done|]; intros error; by injection Hsub as _ <-; apply Hacc).
  rewrite Eo in Hsub. destruct (replay_suffix _ _ _ _ Hj Hsince Er) as [skip Hr]; [by rewrite Eo|].
  assert (b1 = mkBroker hex_digest b.(broker_store hex_digest) (<[b.(next_subscription_token hex_digest) := key]> b.(subscribers hex_digest))
            (<[b.(next_subscription_token hex_digest) := MailboxState.mk [] capacity false]> b.(mailboxes hex_digest)) next
            b.(broker_host_id hex_digest) b.(authenticated_reachability hex_digest)
          ∧ subscription = mkSubscription b.(next_subscription_token hex_digest) r) as [-> ->].
  { destruct o; [| |by destruct (Ho error)]; by injection Hsub as <- <-. }
  exists (skip `min` length (broker_history b key))%nat. unfold broker_history. simpl. split_and!; [lia| | |done].
  - rewrite Hr. unfold history, store_history, key.
    destruct (Nat.min_spec skip (length (entries_of b.(broker_store hex_digest).(canonical).(store_journal) request.(ProjectionSubscribe.key))))
      as [[? ->]|[? ->]]; [done|]. rewrite drop_all. by apply drop_ge.
  - split; simpl; [done|done|lia|]. eexists _, [], []. rewrite !lookup_insert_eq. split_and!; try done; [apply prefix_nil|].
    intros _. unfold broker_history. simpl. by rewrite drop_all.
Qed.

(** C4: Whatever a host does after a subscription was accepted, what its holder was replayed, has
    received and has waiting in its mailbox is, in order, one contiguous piece of the journal of its
    key: no view is missed, repeated or reordered. A closed mailbox ends with exactly one gap error,
    an open one with none. While the subscription is registered its mailbox is open and, if the
    store is not fenced, the piece reaches the newest view; it stops being registered only when its
    mailbox was closed or somebody unsubscribed it. The three calls that commit a batch must not
    fail after committing a part of it. *)
Theorem subscribers_miss_nothing b request at_ms capacity b1 subscription calls
    (Hj : journal_wf b.(broker_store hex_digest).(canonical).(store_journal))
    (Hsince : ∀ since, request.(ProjectionSubscribe.since) = Some since → in_u64 since.(Cursor.seq))
    (Hsub : subscribe_with_capacity hex_digest request at_ms capacity b = (b1, Ok subscription))
    (Hacc : ∀ error, subscription.(subscription_replay).(ProjectionReplay.ack).(ProjectionSubscribeAck.outcome)
                       ≠ ProjectionSubscribeOutcome.Rejected error)
    (Hs : batches_settle calls b1) :
  let key := request.(ProjectionSubscribe.key) in
  let token := subscription.(subscription_token) in
  let replayed := subscription.(subscription_replay).(ProjectionReplay.envelopes) in
  let (b2, got) := run_broker token calls b1 in
  ∃ skip sent closing m,
    b2.(mailboxes hex_digest) !! token = Some m ∧ got ++ m.(MailboxState.events) = projected sent ++ closing ∧
    closing_of m closing ∧
    replayed ++ sent `prefix_of` drop skip (broker_history b2 key) ∧
    match b2.(subscribers hex_digest) !! token with
    | Some _ => m.(MailboxState.closed) = false ∧
        (broker_fenced b2 = false → replayed ++ sent = drop skip (broker_history b2 key))
    | None => m.(MailboxState.closed) = true ∨ BrokerUnsubscribe token ∈ calls
    end.
Proof.
  intros key token replayed. destruct (subscribed_follows _ _ _ _ _ _ Hj Hsince Hsub Hacc) as (skip & Hskip & Hr & Hf & Hpre).
  fold key in Hskip, Hf, Hr, Hpre. fold replayed in Hr. fold token in Hf. pose proof (follows_run _ _ _ calls _ _ _ Hf Hs) as Hrun.
  pose proof (run_grown token calls b1) as Hg. destruct (run_broker token calls b1) as [b2 got]. simpl in Hrun, Hg.
  destruct Hrun as [_ Hb _ (m & sent & closing & Hm & He & Hp & Hcl & Hreg)].
  assert (drop skip (broker_history b2 key) = replayed ++ drop (length (broker_history b1 key)) (broker_history b2 key)) as Hd.
  { rewrite Hr. apply drop_grown; [done|apply grown_prefix, Hg]. }
  exists skip, sent, closing, m. rewrite Hd. split_and!; [done..|by apply prefix_app|].
  destruct (b2.(subscribers hex_digest) !! token); [|done]. destruct Hreg as (_ & Hc & Hsent). split; [done|]. intros Hopen. by rewrite (Hsent Hopen).
Qed.

(** A dispatch that finishes, but for the file of the outbox. *)
Lemma completion_fails ticket effects h h' envelopes :
  finish_dispatch hex_digest IoOutcome.Written ticket effects h = (h', Ok envelopes) →
  ∃ h'' e, finish_dispatch hex_digest IoOutcome.NotOpened ticket effects h = (h'', Err e) ∧ h''.(canonical) = h'.(canonical).
Proof.
  unfold finish_dispatch. intros E.
  repeat match type of E with
  | (on_outbox _ ≫= _) _ = _ => fail 1
  | _ => apply action_bind_ok in E as (? & ? & Hstep & E); unfold mbind at 1, action_bind at 1; rewrite Hstep; clear Hstep
  end.
  apply action_bind_ok in E as (h1 & [] & Ho & [= <- _]). unfold on_outbox in Ho. unfold mbind, action_bind, on_outbox.
  revert Ho. unfold complete. destruct (find_ticket _ _ _) as [[k r]|]; [|done]. destruct (bool_decide _); [done|]. simpl.
  intros [= <-]. by eexists _, _.
Qed.

(** When the file of the outbox cannot be opened at the end of a dispatch that would otherwise succeed, the
    broker fails, but the views of its effects are in the journal as if it had succeeded, the store stays as
    writable as it would be, and no mailbox was given them: the next view a live subscriber receives leaves a
    gap. *)
Theorem unreported_batch_leaves_gap b ticket effects at_ms b' envelopes
    (Hok : broker_finish_dispatch hex_digest IoOutcome.Written ticket effects at_ms b = (b', Ok envelopes)) :
  ∃ b'' e, broker_finish_dispatch hex_digest IoOutcome.NotOpened ticket effects at_ms b = (b'', Err e) ∧
    (∀ key, broker_history b'' key = broker_history b' key) ∧ broker_fenced b'' = broker_fenced b' ∧
    b''.(mailboxes hex_digest) = b.(mailboxes hex_digest) ∧ b''.(subscribers hex_digest) = b.(subscribers hex_digest).
Proof.
  revert Hok. unfold broker_finish_dispatch, publishing.
  destruct (finish_dispatch hex_digest IoOutcome.Written ticket effects b.(broker_store hex_digest)) as [h [v|e]] eqn:E; [|done].
  intros [= <- <-]. destruct (completion_fails _ _ _ _ _ E) as (h' & e & -> & Hc). eexists _, _. split; [done|].
  unfold broker_history, broker_fenced, history. simpl. by rewrite Hc.
Qed.

(** A subscription whose replay fails is refused, but its subscriber stays. *)
Theorem refused_subscription_is_kept b request at_ms capacity next e
    (Hcapacity : capacity ≠ 0%nat) (Hnext : checked_add_u64 b.(next_subscription_token hex_digest) 1 = Some next)
    (Hreplay : replay b.(broker_store hex_digest).(canonical).(store_journal) request at_ms = Err e) :
  let (b1, r) := subscribe_with_capacity hex_digest request at_ms capacity b in
  r = Err (BrokerError.State e) ∧
  b1.(subscribers hex_digest) !! b.(next_subscription_token hex_digest) = Some request.(ProjectionSubscribe.key).
Proof.
  unfold subscribe_with_capacity. destruct capacity; [done|]. simpl. rewrite Hnext. simpl. rewrite Hreplay. split; [done|].
  simpl. by rewrite lookup_insert_eq.
Qed.
End broker.
