(* ===== verification/TransportControl.v ===== *)
(** * Transport: errors, limits and control frames

    Models [crates/kaleido-transport/src/lib.rs] (the limits and the version
    line), [error.rs] and the data of [control.rs]: the control frames, their
    codec around [serde_json] and the shape of a response. *)
From stdpp Require Import prelude strings.
From Stdlib Require Import ZArith Lia Ascii.
From S2P Require Import Prelude ProtoBase ProtoContent ProtoRuntime ProtoCommand ProtoProjection.

Local Open Scope Z_scope.

(** ** Errors *)

Module TransportError.
Inductive TransportError : Type :=
| VersionMismatch
| MalformedFrame
| FrameTooLarge
| RateLimited
| PairingInvalid
| AuthenticationFailed
| ChallengeExpired
| ChallengeReplayed
| DeviceRevoked
| TooManyConnections
| TooManySubscriptions
| Persistence
| InvalidKeyMaterial
| InsecurePermissions
| Internal
| TimeOverflow.
End TransportError.
Abbreviation TransportError := TransportError.TransportError.

#[export] Instance TransportError_eq_dec : EqDecision TransportError.
Proof. solve_decision. Defined.

(** ** Limits *)

Definition MAX_FRAME_LENGTH : Z := 65545.
Definition MAX_CONTROL_BODY_BYTES : Z := 65536.
Definition MAX_CONTENT_BODY_BYTES : Z := 65536.
Definition MAX_PENDING_REQUESTS : Z := 32.
Definition MAX_ACTIVE_SUBSCRIPTIONS : Z := 16.
Definition MAX_GLOBAL_CONNECTIONS : Z := 64.
Definition MAX_PRE_AUTH_CONNECTIONS : Z := 16.
Definition MAX_CONNECTIONS_PER_SOURCE_IP : Z := 4.
Definition MAX_CONNECTIONS_PER_DEVICE : Z := 2.
Definition TLS_HANDSHAKE_TIMEOUT_MS : Z := 5000.
Definition HELLO_TIMEOUT_MS : Z := 5000.
Definition AUTH_TIMEOUT_MS : Z := 30000.
Definition FRAME_IO_TIMEOUT_MS : Z := 10000.
Definition IDLE_PING_AFTER_MS : Z := 30000.
Definition IDLE_CLOSE_AFTER_MS : Z := 90000.
Definition PAIRING_LIFETIME_MS : Z := 300000.
Definition CHALLENGE_LIFETIME_MS : Z := 30000.
Definition SESSION_LIFETIME_MS : Z := 900000.

(** ** The version line *)

Definition parse_version_component (component : string) : option Z :=
  if str_is_empty component
     || ((1 <? str_len component) && is_some (strip_prefix "0" component))
     || negb (forallb is_ascii_digit (bytes_of component))
  then None else parse_u64 component.

Definition transport_parse_version (version : string) : option (Z * Z * Z) :=
  match split_on "." version with
  | [major; minor; patch] =>
      major ← parse_version_component major;
      minor ← parse_version_component minor;
      patch ← parse_version_component patch;
      Some (major, minor, patch)
  | _ => None
  end.

Definition transport_version_is_compatible (peer_version : string) : bool :=
  is_some_and (transport_parse_version peer_version)
    (λ '(major, minor, _), (major =? 0) && (minor =? 1)).

(** ** Control frames *)

Module TransportErrorCode.
Inductive TransportErrorCode : Type :=
| VersionMismatch
| MalformedFrame
| FrameTooLarge
| RateLimited
| PairingInvalid
| AuthenticationFailed
| ChallengeExpired
| ChallengeReplayed
| DeviceRevoked
| TooManyConnections
| TooManySubscriptions
| Internal.
End TransportErrorCode.
Abbreviation TransportErrorCode := TransportErrorCode.TransportErrorCode.

#[export] Instance TransportErrorCode_eq_dec : EqDecision TransportErrorCode.
Proof. solve_decision. Defined.

Module PairRequest.
Record PairRequest : Type := mk {
  request_id : Z;
  secret : list ascii;
  device_public_key_spki : list ascii;
  device_label : string
}.
End PairRequest.
Abbreviation PairRequest := PairRequest.PairRequest.

#[export] Instance PairRequest_eq_dec : EqDecision PairRequest.
Proof. solve_decision. Defined.

Module PairResponse.
Record PairResponse : Type := mk {
  request_id : Z;
  device_id : DeviceId;
  host_id : HostId;
  transport_version : string;
  protocol_version : string;
  connection_id : string;
  session_expires_at_ms : Z
}.
End PairResponse.
Abbreviation PairResponse := PairResponse.PairResponse.

#[export] Instance PairResponse_eq_dec : EqDecision PairResponse.
Proof. solve_decision. Defined.

Module ControlFrame.
Inductive ControlFrame : Type :=
| TransportHello (request_id : Z) (transport_version : string) (max_frame_length : Z)
| TransportHelloAck (request_id : Z) (transport_version : string) (max_frame_length : Z)
| UacpHello (request_id : Z) (protocol_version : string)
| UacpHelloAck (request_id : Z) (protocol_version : string)
| PairRequest (request : PairRequest)
| PairResponse (response : PairResponse)
| ChallengeRequest (request_id : Z) (device_id : DeviceId)
| DeviceChallenge (request_id : Z) (challenge_id nonce : list ascii) (expires_at_ms : Z)
| ChallengeProof (request_id : Z) (challenge_id signature_der : list ascii)
| AuthAccepted (request_id : Z) (connection_id : string) (expires_at_ms : Z)
| ProjectionSubscribeFrame (request_id subscription_id : Z) (subscribe : ProjectionSubscribe)
| ProjectionSubscribeAckFrame (request_id subscription_id : Z) (ack : ProjectionSubscribeAck)
| ProjectionEnvelopeFrame (subscription_id : Z) (envelope : ProjectionEnvelope)
| ProjectionSubscriptionClosed (subscription_id : Z) (error : CanonicalError)
| UnsubscribeRequest (request_id subscription_id : Z)
| UnsubscribeAck (request_id subscription_id : Z)
| ContentWriteHeader (request_id : Z) (request : ContentWriteRequest)
| ContentWriteResult (request_id : Z) (response : ContentWriteResponse)
| ContentReadFrame (request_id : Z) (request : ContentReadRequest)
| ContentReadResult (request_id : Z) (response : ContentReadResponse)
| DeviceCommandFrame (request_id : Z) (request : DeviceCommandRequest)
| DeviceCommandAck (request_id : Z) (ack : CommandAck)
| Ping (request_id nonce : Z)
| Pong (request_id nonce : Z)
| TransportError (request_id : option Z) (code : TransportErrorCode) (retriable : bool).
End ControlFrame.
Abbreviation ControlFrame := ControlFrame.ControlFrame.

(** [serde_json] on control frames: the bytes a frame serialises to, and for an
    input the frame at its start, whether some field of it was ignored
    ([serde_ignored]), and what follows it, which [end] requires to be blank. *)
Class ControlCodec := {
  json_of_control : ControlFrame → option (list ascii);
  control_of_json : list ascii → option (ControlFrame * bool * list ascii);
  json_end : list ascii → bool
}.

(** A frame that serialises is read back, whole and with every field known. *)
Class ControlCodecOk `{ControlCodec} : Prop := {
  json_of_control_text frame body :
    json_of_control frame = Some body → body ≠ [] ∧ utf8_valid body = true;
  control_of_json_of frame body :
    json_of_control frame = Some body →
    ∃ rest, control_of_json body = Some (frame, false, rest) ∧ json_end rest = true
}.

Section codec.
Context `{ControlCodec}.

Definition ControlFrame_decode (bytes : list ascii) : result ControlFrame TransportError :=
  reject_if (is_none (head bytes) || negb (utf8_valid bytes)) TransportError.MalformedFrame ;?
  match control_of_json bytes with
  | None => Err TransportError.MalformedFrame
  | Some (frame, ignored, rest) =>
      reject_if (negb (json_end rest)) TransportError.MalformedFrame ;?
      if (ignored : bool) then Err TransportError.MalformedFrame else Ok frame
  end.

Definition ControlFrame_encode (frame : ControlFrame) : result (list ascii) TransportError :=
  ok_or (json_of_control frame) TransportError.MalformedFrame.
End codec.

(** ** The response a request waits for *)

Module ExpectedResponse.
Inductive ExpectedResponse : Type :=
| ProjectionSubscribeAck (subscription_id : Z)
| UnsubscribeAck (subscription_id : Z)
| ContentWriteResult
| ContentReadResult
| DeviceCommandAck
| Pong (nonce : Z).
End ExpectedResponse.
Abbreviation ExpectedResponse := ExpectedResponse.ExpectedResponse.

#[export] Instance ExpectedResponse_eq_dec : EqDecision ExpectedResponse.
Proof. solve_decision. Defined.

Definition response_shape (frame : ControlFrame) : result (Z * ExpectedResponse) TransportError :=
  match frame with
  | ControlFrame.ProjectionSubscribeAckFrame request_id subscription_id _ =>
      Ok (request_id, ExpectedResponse.ProjectionSubscribeAck subscription_id)
  | ControlFrame.UnsubscribeAck request_id subscription_id =>
      Ok (request_id, ExpectedResponse.UnsubscribeAck subscription_id)
  | ControlFrame.ContentWriteResult request_id _ => Ok (request_id, ExpectedResponse.ContentWriteResult)
  | ControlFrame.ContentReadResult request_id _ => Ok (request_id, ExpectedResponse.ContentReadResult)
  | ControlFrame.DeviceCommandAck request_id _ => Ok (request_id, ExpectedResponse.DeviceCommandAck)
  | ControlFrame.Pong request_id nonce => Ok (request_id, ExpectedResponse.Pong nonce)
  | _ => Err TransportError.MalformedFrame
  end.
