(* ===== verification/TransportFrame.v ===== *)
(** * Transport frames

    Models [crates/kaleido-transport/src/frame.rs]: the length-prefixed wire
    format and the incremental decoder that reassembles frames from arbitrary
    fragments of the byte stream.  The decoder's [while] loop runs on fuel, one
    unit per byte of the input; [push_terminates] shows that this is enough. *)
From stdpp Require Import prelude strings list.
From Stdlib Require Import ZArith Lia Ascii.
From S2P Require Import Prelude TransportControl.

Local Open Scope Z_scope.
Local Opaque to_be_bytes from_be_bytes.

Definition CONTROL_KIND : ascii := Ascii.ascii_of_nat 1.
Definition CONTENT_KIND : ascii := Ascii.ascii_of_nat 2.
Definition HEADER_BYTES : nat := 5.

(** ** Data *)

Module Frame.
Inductive Frame : Type :=
| Control (body : list ascii)
| Content (request_id : Z) (body : list ascii).
End Frame.
Abbreviation Frame := Frame.Frame.

#[export] Instance Frame_eq_dec : EqDecision Frame.
Proof. solve_decision. Defined.

Module DecodeState.
Inductive DecodeState : Type :=
| Header (bytes : list ascii) (filled : nat)
| Body (kind : ascii) (expected : nat) (bytes : list ascii).
End DecodeState.
Abbreviation DecodeState := DecodeState.DecodeState.

#[export] Instance DecodeState_eq_dec : EqDecision DecodeState.
Proof. solve_decision. Defined.

Module FrameDecoder.
Record FrameDecoder : Type := mk {
  state : DecodeState;
  failed : bool
}.
End FrameDecoder.
Abbreviation FrameDecoder := FrameDecoder.FrameDecoder.

#[export] Instance FrameDecoder_eq_dec : EqDecision FrameDecoder.
Proof. solve_decision. Defined.

Definition FrameDecoder_new : FrameDecoder :=
  {| FrameDecoder.state := DecodeState.Header (replicate HEADER_BYTES Ascii.zero) 0;
     FrameDecoder.failed := false |}.

(** ** Encoding *)

Definition encode (kind : ascii) (body : list ascii) : result (list ascii) TransportError :=
  let? frame_length := ok_or (if Z.of_nat (length body) + 1 <=? u32_max
                              then Some (Z.of_nat (length body) + 1) else None)
                         TransportError.FrameTooLarge in
  reject_if (MAX_FRAME_LENGTH <? frame_length) TransportError.FrameTooLarge ;?
  Ok (to_be_bytes 4 frame_length ++ kind :: body).

Definition encode_control `{ControlCodec} (frame : ControlFrame) : result (list ascii) TransportError :=
  let? body := ControlFrame_encode frame in
  reject_if (is_none (head body) || (MAX_CONTROL_BODY_BYTES <? Z.of_nat (length body)))
            TransportError.FrameTooLarge ;?
  encode CONTROL_KIND body.

Definition encode_content (request_id : Z) (body : list ascii) : result (list ascii) TransportError :=
  reject_if ((request_id =? 0) || is_none (head body) || (MAX_CONTENT_BODY_BYTES <? Z.of_nat (length body)))
            TransportError.MalformedFrame ;?
  encode CONTENT_KIND (to_be_bytes 8 request_id ++ body).

(** ** Decoding one frame *)

Definition validate_header (frame_length : Z) (kind : ascii) : result nat TransportError :=
  reject_if (frame_length =? 0) TransportError.MalformedFrame ;?
  reject_if (MAX_FRAME_LENGTH <? frame_length) TransportError.FrameTooLarge ;?
  let body_len := frame_length - 1 in
  if Ascii.eqb kind CONTROL_KIND && (1 <=? body_len) && (body_len <=? MAX_CONTROL_BODY_BYTES)
  then Ok (Z.to_nat body_len)
  else if Ascii.eqb kind CONTENT_KIND && (9 <=? body_len) && (body_len <=? 8 + MAX_CONTENT_BODY_BYTES)
  then Ok (Z.to_nat body_len)
  else Err TransportError.MalformedFrame.

Definition decode_body (kind : ascii) (body : list ascii) : result Frame TransportError :=
  if Ascii.eqb kind CONTROL_KIND then
    reject_if (negb (utf8_valid body)) TransportError.MalformedFrame ;?
    Ok (Frame.Control body)
  else if Ascii.eqb kind CONTENT_KIND then
    reject_if (Nat.ltb (length body) 8) TransportError.MalformedFrame ;?
    let request_id := from_be_bytes (take 8 body) in
    let content := drop 8 body in
    reject_if ((request_id =? 0) || is_none (head content)) TransportError.MalformedFrame ;?
    Ok (Frame.Content request_id content)
  else Err TransportError.MalformedFrame.

Definition Frame_decode_control `{ControlCodec} (frame : Frame) : result ControlFrame TransportError :=
  match frame with
  | Frame.Control body => ControlFrame_decode body
  | Frame.Content _ _ => Err TransportError.MalformedFrame
  end.

(** ** The incremental decoder *)

(** The length prefix is judged as soon as its four bytes are there. *)
Definition check_prefix (bytes : list ascii) (filled : nat) : result unit TransportError :=
  if Nat.leb 4 filled then
    let frame_length := from_be_bytes (take 4 bytes) in
    reject_if (frame_length =? 0) TransportError.MalformedFrame ;?
    reject_if (MAX_FRAME_LENGTH <? frame_length) TransportError.FrameTooLarge
  else Ok tt.

(** [bytes.get_mut(filled..filled + n)] overwritten with [source]. *)
Definition fill (bytes : list ascii) (filled : nat) (source : list ascii) : list ascii :=
  take filled bytes ++ source ++ drop (filled + length source) bytes.

(** The header after a copy into it: refused, complete, or still waiting; the
    decoder, and the input that is left or the error returned. *)
Definition header_turn (failed : bool) (bytes : list ascii) (filled : nat) (input : list ascii) :
    FrameDecoder * result (list ascii * option Frame) TransportError :=
  let header := DecodeState.Header bytes filled in
  match check_prefix bytes filled with
  | Err e => (FrameDecoder.mk header true, Err e)
  | Ok _ =>
      if Nat.eqb filled HEADER_BYTES then
        match bytes !! 4%nat with
        | None => (FrameDecoder.mk header failed, Err TransportError.MalformedFrame)
        | Some kind =>
            match validate_header (from_be_bytes (take 4 bytes)) kind with
            | Err e => (FrameDecoder.mk header true, Err e)
            | Ok body_len => (FrameDecoder.mk (DecodeState.Body kind body_len []) failed, Ok (input, None))
            end
        end
      else (FrameDecoder.mk header failed, Ok (input, None))
  end.

(** One turn of the loop in the [Header] state. *)
Definition push_header (failed : bool) (bytes : list ascii) (filled : nat) (input : list ascii) :
    FrameDecoder * result (list ascii * option Frame) TransportError :=
  let n := Nat.min (HEADER_BYTES - filled) (length input) in
  if Nat.ltb (length bytes) (filled + n)
  then (FrameDecoder.mk (DecodeState.Header bytes filled) failed, Err TransportError.MalformedFrame)
  else header_turn failed (fill bytes filled (take n input)) (filled + n) (drop n input).

(** One turn of the loop in the [Body] state. *)
Definition push_body (failed : bool) (kind : ascii) (expected : nat) (bytes input : list ascii) :
    FrameDecoder * result (list ascii * option Frame) TransportError :=
  let n := Nat.min (expected - length bytes) (length input) in
  let bytes := bytes ++ take n input in
  let input := drop n input in
  if Nat.eqb (length bytes) expected then
    match decode_body kind bytes with
    | Err e => (FrameDecoder.mk (DecodeState.Body kind expected []) true, Err e)
    | Ok frame => (FrameDecoder.mk (DecodeState.Header (replicate HEADER_BYTES Ascii.zero) 0) failed,
                   Ok (input, Some frame))
    end
  else (FrameDecoder.mk (DecodeState.Body kind expected bytes) failed, Ok (input, None)).

Definition push_step (decoder : FrameDecoder) (input : list ascii) :
    FrameDecoder * result (list ascii * option Frame) TransportError :=
  match decoder.(FrameDecoder.state) with
  | DecodeState.Header bytes filled => push_header decoder.(FrameDecoder.failed) bytes filled input
  | DecodeState.Body kind expected bytes => push_body decoder.(FrameDecoder.failed) kind expected bytes input
  end.

(** [while !input.is_empty()]; [None] when the fuel runs out. *)
Fixpoint push_loop (fuel : nat) (decoder : FrameDecoder) (input : list ascii) (frames : list Frame) :
    option (FrameDecoder * result (list Frame) TransportError) :=
  match input with
  | [] => Some (decoder, Ok frames)
  | _ =>
      match fuel with
      | O => None
      | S fuel =>
          match push_step decoder input with
          | (decoder, Err e) => Some (decoder, Err e)
          | (decoder, Ok (input, frame)) => push_loop fuel decoder input (frames ++ option_list frame)
          end
      end
  end.

Definition FrameDecoder_push (decoder : FrameDecoder) (input : list ascii) :
    option (FrameDecoder * result (list Frame) TransportError) :=
  if decoder.(FrameDecoder.failed) then Some (decoder, Err TransportError.MalformedFrame)
  else push_loop (length input) decoder input [].

Definition FrameDecoder_finish (decoder : FrameDecoder) : result unit TransportError :=
  match decoder.(FrameDecoder.state) with
  | DecodeState.Header _ 0 => if decoder.(FrameDecoder.failed) then Err TransportError.MalformedFrame else Ok tt
  | _ => Err TransportError.MalformedFrame
  end.

(** ** The wire format *)

(** What a frame looks like on the wire. *)
Definition frame_wire (frame : Frame) (wire : list ascii) : Prop :=
  match frame with
  | Frame.Control body =>
      1 ≤ Z.of_nat (length body) ≤ MAX_CONTROL_BODY_BYTES ∧ utf8_valid body = true ∧
      wire = to_be_bytes 4 (Z.of_nat (length body) + 1) ++ CONTROL_KIND :: body
  | Frame.Content request_id body =>
      1 ≤ request_id ≤ u64_max ∧ 1 ≤ Z.of_nat (length body) ≤ MAX_CONTENT_BODY_BYTES ∧
      wire = to_be_bytes 4 (Z.of_nat (length body) + 9) ++ CONTENT_KIND :: to_be_bytes 8 request_id ++ body
  end.

(** A decoder that has accepted everything so far and can go on. *)
Definition decoding (decoder : FrameDecoder) : Prop :=
  decoder.(FrameDecoder.failed) = false ∧
  match decoder.(FrameDecoder.state) with
  | DecodeState.Header bytes filled =>
      (filled < HEADER_BYTES)%nat ∧ length bytes = HEADER_BYTES ∧
      drop filled bytes = replicate (HEADER_BYTES - filled) Ascii.zero ∧
      check_prefix bytes filled = Ok tt
  | DecodeState.Body kind expected bytes =>
      validate_header (Z.of_nat expected + 1) kind = Ok expected ∧ (length bytes < expected)%nat
  end.

(** The bytes of the current frame the decoder has taken in. *)
Definition taken (decoder : FrameDecoder) : list ascii :=
  match decoder.(FrameDecoder.state) with
  | DecodeState.Header bytes filled => take filled bytes
  | DecodeState.Body kind expected bytes => to_be_bytes 4 (Z.of_nat expected + 1) ++ kind :: bytes
  end.

(** ** One turn of the loop *)

Lemma validate_header_ok frame_length kind body_len :
  validate_header frame_length kind = Ok body_len →
  frame_length = Z.of_nat body_len + 1 ∧
  ((kind = CONTROL_KIND ∧ 1 ≤ Z.of_nat body_len ≤ MAX_CONTROL_BODY_BYTES) ∨
   (kind = CONTENT_KIND ∧ 9 ≤ Z.of_nat body_len ≤ 8 + MAX_CONTENT_BODY_BYTES)).
Proof.
  unfold validate_header. rewrite !rbind_ok_unit, !reject_if_ok. intros (H0 & H1 & H).
  destruct (Ascii.eqb_spec kind CONTROL_KIND) as [->|Hk]; simpl in H.
  - destruct (1 <=? frame_length - 1) eqn:?; simpl in H; [|done].
    destruct (frame_length - 1 <=? MAX_CONTROL_BODY_BYTES) eqn:?; simpl in H; [|done].
    injection H as <-. split; [lia|]. left. split; [done|lia].
  - destruct (Ascii.eqb_spec kind CONTENT_KIND) as [->|]; simpl in H; [|done].
    destruct (9 <=? frame_length - 1) eqn:?; simpl in H; [|done].
    destruct (frame_length - 1 <=? 8 + MAX_CONTENT_BODY_BYTES) eqn:?; simpl in H; [|done].
    injection H as <-. split; [lia|]. right. split; [done|lia].
Qed.

Lemma validate_header_control body_len :
  1 ≤ Z.of_nat body_len ≤ MAX_CONTROL_BODY_BYTES →
  validate_header (Z.of_nat body_len + 1) CONTROL_KIND = Ok body_len.
Proof.
  unfold validate_header, MAX_CONTROL_BODY_BYTES, MAX_FRAME_LENGTH. intros H.
  rewrite (proj2 (Z.eqb_neq _ _)), (proj2 (Z.ltb_ge _ _)) by lia. simpl.
  rewrite !(proj2 (Z.leb_le _ _)) by lia. simpl. f_equal. lia.
Qed.

Lemma validate_header_content body_len :
  9 ≤ Z.of_nat body_len ≤ 8 + MAX_CONTENT_BODY_BYTES →
  validate_header (Z.of_nat body_len + 1) CONTENT_KIND = Ok body_len.
Proof.
  unfold validate_header, MAX_CONTENT_BODY_BYTES, MAX_FRAME_LENGTH. intros H.
  rewrite (proj2 (Z.eqb_neq _ _)), (proj2 (Z.ltb_ge _ _)) by lia. simpl.
  rewrite !(proj2 (Z.leb_le _ _)) by lia. simpl. f_equal. lia.
Qed.

(** A wire is its prefix, kind and body in one way only. *)
Lemma wire_inj (n m : Z) kind kind' (body body' : list ascii) :
  to_be_bytes 4 n ++ kind :: body = to_be_bytes 4 m ++ kind' :: body' → kind = kind' ∧ body = body'.
Proof. intros [_ [=]]%app_inj_1; [done|]. by rewrite !to_be_bytes_length. Qed.

Lemma is_none_head {A} (l : list A) : is_none (head l) = false ↔ (1 ≤ length l)%nat.
Proof. destruct l; unfold is_none; simpl; split; (done || lia). Qed.

(** A body of a length the header allows decodes to the frame it is the wire of. *)
Lemma decode_body_wire kind body frame :
  validate_header (Z.of_nat (length body) + 1) kind = Ok (length body) →
  decode_body kind body = Ok frame ↔
  frame_wire frame (to_be_bytes 4 (Z.of_nat (length body) + 1) ++ kind :: body).
Proof.
  intros [_ [[-> Hl]|[-> Hl]]]%validate_header_ok; unfold decode_body; simpl Ascii.eqb; cbn iota.
  - rewrite rbind_ok_unit, reject_if_ok, negb_false_iff. split.
    + intros [Hu [= <-]]. done.
    + destruct frame as [b|r b]; intros (H1 & H2 & [Hk ->]%wire_inj); done.
  - rewrite !rbind_ok_unit, !reject_if_ok, orb_false_iff, Z.eqb_neq, is_none_head, Nat.ltb_ge. split.
    + intros (H8 & [Hr Hc] & [= <-]). rewrite length_drop in Hc. cbn [frame_wire]. rewrite length_drop.
      pose proof (from_be_bytes_range (take 8 body)) as Hb.
      pose proof (to_from_be_bytes (take 8 body)) as Ht.
      rewrite length_take_le in Hb, Ht by done. unfold u64_max. split; [lia|]. split; [lia|].
      rewrite Ht, take_drop. do 2 f_equal. lia.
    + destruct frame as [b|r b]; intros (H1 & H2 & [Hk ->]%wire_inj); [done|].
      rewrite take_app_length', drop_app_length', length_app, !to_be_bytes_length by (by rewrite to_be_bytes_length).
      unfold u64_max in H1. rewrite from_to_be_bytes by lia. split; [lia|]. split; [|done]. lia.
Qed.

Section fill.
Context (bytes : list ascii) (filled : nat) (source : list ascii).
Context (Hfit : (filled + length source ≤ length bytes)%nat).

Lemma fill_length : length (fill bytes filled source) = length bytes.
Proof using Hfit. unfold fill. rewrite !length_app, length_take, length_drop. lia. Qed.

Lemma fill_take : take (filled + length source) (fill bytes filled source) = take filled bytes ++ source.
Proof using Hfit.
  unfold fill. rewrite app_assoc, take_app_length'; [done|].
  rewrite length_app, length_take. lia.
Qed.

Lemma fill_drop : drop (filled + length source) (fill bytes filled source) = drop (filled + length source) bytes.
Proof using Hfit.
  unfold fill. rewrite app_assoc, drop_app_length'; [done|].
  rewrite length_app, length_take. lia.
Qed.

Lemma fill_fill more :
  fill (fill bytes filled source) (filled + length source) more = fill bytes filled (source ++ more).
Proof using Hfit.
  unfold fill at 1. rewrite fill_take, <-drop_drop, fill_drop, drop_drop.
  unfold fill. rewrite length_app, <-!app_assoc. do 4 f_equal. lia.
Qed.
End fill.

(** A full header is its prefix followed by its kind. *)
Lemma full_header (bytes : list ascii) kind frame_length :
  length bytes = HEADER_BYTES → bytes !! 4%nat = Some kind → from_be_bytes (take 4 bytes) = frame_length →
  bytes = to_be_bytes 4 frame_length ++ [kind].
Proof.
  intros Hlen Hk <-. rewrite <-(take_drop 4 bytes) at 1. f_equal.
  - rewrite <-(to_from_be_bytes (take 4 bytes)) at 1. by rewrite length_take_le by (rewrite Hlen; unfold HEADER_BYTES; lia).
  - do 6 (destruct bytes as [|? bytes]; try done). simpl in *. congruence.
Qed.

Lemma decoding_new : decoding FrameDecoder_new.
Proof. repeat split. unfold HEADER_BYTES. simpl. lia. Qed.

(** An accepted turn in the header makes progress and keeps what was taken in. *)
Lemma push_header_ok bytes filled input decoder rest frame :
  decoding (FrameDecoder.mk (DecodeState.Header bytes filled) false) → input ≠ [] →
  push_header false bytes filled input = (decoder, Ok (rest, frame)) →
  frame = None ∧ decoding decoder ∧ (length rest < length input)%nat ∧
  take filled bytes ++ input = taken decoder ++ rest.
Proof.
  intros (_ & Hf & Hlen & Hz & Hpre) Hin. unfold push_header, header_turn. simpl in *.
  set (n := Nat.min (HEADER_BYTES - filled) (length input)).
  assert (1 ≤ n ∧ n ≤ length input ∧ filled + n ≤ HEADER_BYTES)%nat as (Hn & Hni & Hn5).
  { subst n. destruct input; [done|]. simpl. lia. }
  assert (length (take n input) = n) as Hs by (rewrite length_take; lia).
  rewrite (proj2 (Nat.ltb_ge _ _)) by lia.
  pose proof (fill_length bytes filled (take n input)) as Hlen'.
  pose proof (fill_take bytes filled (take n input)) as Ht.
  pose proof (fill_drop bytes filled (take n input)) as Hd.
  rewrite Hs in Hlen', Ht, Hd. specialize (Hlen' ltac:(lia)). specialize (Ht ltac:(lia)). specialize (Hd ltac:(lia)).
  rewrite Hlen in Hlen'. revert Hlen' Ht Hd. generalize (fill bytes filled (take n input)). intros bytes' Hlen' Ht Hd.
  assert (take filled bytes ++ input = take (filled + n) bytes' ++ drop n input) as Hkeep.
  { by rewrite Ht, <-app_assoc, take_drop. }
  destruct (check_prefix bytes' (filled + n)) as [[]|] eqn:Hp; [|done].
  destruct (Nat.eqb_spec (filled + n) HEADER_BYTES) as [He|He].
  - destruct (bytes' !! 4%nat) as [kind|] eqn:Hk; [|done].
    destruct (validate_header _ kind) as [body_len|] eqn:Hv; [|done].
    intros [= <- <- <-]. pose proof (validate_header_ok _ _ _ Hv) as [Hl Hr]. split; [done|].
    split; [repeat split; simpl; [by rewrite <-Hl|lia]|]. split; [rewrite length_drop; lia|].
    rewrite Hkeep, He, take_ge by lia. rewrite (full_header bytes' kind _ Hlen' Hk Hl) at 1.
    by rewrite <-app_assoc.
  - intros [= <- <- <-]. split; [done|]. repeat split; simpl; try done.
    + lia.
    + rewrite Hd, <-drop_drop, Hz, drop_replicate. f_equal. lia.
    + rewrite length_drop. lia.
Qed.

(** An accepted turn in the body makes progress, keeps what was taken in, and
    yields the frame whose wire is complete. *)
Lemma push_body_ok kind expected bytes input decoder rest frame :
  decoding (FrameDecoder.mk (DecodeState.Body kind expected bytes) false) → input ≠ [] →
  push_body false kind expected bytes input = (decoder, Ok (rest, frame)) →
  decoding decoder ∧ (length rest < length input)%nat ∧
  ∃ wires, Forall2 frame_wire (option_list frame) wires ∧
    taken (FrameDecoder.mk (DecodeState.Body kind expected bytes) false) ++ input =
    concat wires ++ taken decoder ++ rest.
Proof.
  intros (_ & Hv & Hlen) Hin. unfold push_body. simpl in *.
  set (n := Nat.min (expected - length bytes) (length input)).
  assert (1 ≤ n ∧ n ≤ length input ∧ length bytes + n ≤ expected)%nat as (Hn & Hni & Hne).
  { subst n. destruct input; [done|]. simpl. lia. }
  assert (length (bytes ++ take n input) = (length bytes + n)%nat) as Hs by (rewrite length_app, length_take; lia).
  destruct (Nat.eqb_spec (length (bytes ++ take n input)) expected) as [He|He].
  - destruct (decode_body kind _) as [f|] eqn:Hd; [|done]. intros [= <- <- <-].
    split; [exact decoding_new|]. split; [rewrite length_drop; lia|].
    rewrite <-He in Hv. apply decode_body_wire in Hd; [|done]. rewrite He in Hd.
    eexists [_]. split; [constructor; [exact Hd | constructor]|].
    unfold taken. simpl. rewrite app_nil_r, <-!app_assoc. simpl. by rewrite <-app_assoc, take_drop.
  - intros [= <- <- <-]. split; [repeat split; simpl; [done|lia]|]. split; [rewrite length_drop; lia|].
    exists []. split; [constructor|]. unfold taken. simpl. rewrite <-!app_assoc. simpl.
    by rewrite <-app_assoc, take_drop.
Qed.

(** An accepted turn of the loop consumes input; what the decoder had taken in
    and the input are the wires of the frames it yields and what is left. *)
Lemma push_step_ok decoder input decoder' rest frame :
  decoding decoder → input ≠ [] → push_step decoder input = (decoder', Ok (rest, frame)) →
  decoding decoder' ∧ (length rest < length input)%nat ∧
  ∃ wires, Forall2 frame_wire (option_list frame) wires ∧
    taken decoder ++ input = concat wires ++ taken decoder' ++ rest.
Proof.
  destruct decoder as [[bytes filled|kind expected bytes] failed];
    intros Hd Hin; pose proof Hd as [Hf _]; simpl in Hf; subst failed; unfold push_step; simpl; intros Hp.
  - destruct (push_header_ok _ _ _ _ _ _ Hd Hin Hp) as (-> & Hd' & Hl & He).
    split; [done|]. split; [done|]. exists []. by split; [constructor|].
  - by apply (push_body_ok kind expected bytes).
Qed.

(** A refused turn marks the decoder as failed. *)
Lemma push_step_err decoder input decoder' e :
  decoding decoder → push_step decoder input = (decoder', Err e) → decoder'.(FrameDecoder.failed) = true.
Proof.
  destruct decoder as [[bytes filled|kind expected bytes] failed];
    intros (Hf & Hd); simpl in *; subst failed; unfold push_step; simpl.
  - destruct Hd as (Hf & Hlen & _ & _). unfold push_header, header_turn.
    rewrite (proj2 (Nat.ltb_ge _ _)) by lia.
    set (bytes' := fill _ _ _).
    assert (is_Some (bytes' !! 4%nat)) as [kind ->].
    { apply lookup_lt_is_Some. subst bytes'. rewrite fill_length, Hlen; [unfold HEADER_BYTES; lia|].
      rewrite length_take. lia. }
    destruct (check_prefix _ _); [|by intros [= <- _]].
    case_match; [|done]. destruct (validate_header _ _); [done | by intros [= <- _]].
  - unfold push_body. case_match; [|done]. destruct (decode_body _ _); [done | by intros [= <- _]].
Qed.

(** ** The loop *)

(** More fuel than bytes changes nothing: the loop never runs out. *)
Lemma push_loop_total fuel decoder input frames :
  decoding decoder → (length input ≤ fuel)%nat →
  ∃ decoder' r, push_loop fuel decoder input frames = Some (decoder', r) ∧
    match r with
    | Ok frames' =>
        decoding decoder' ∧
        ∃ more wires, frames' = frames ++ more ∧ Forall2 frame_wire more wires ∧
          taken decoder ++ input = concat wires ++ taken decoder'
    | Err _ => decoder'.(FrameDecoder.failed) = true
    end.
Proof.
  revert decoder input frames.
  induction fuel as [|fuel IH]; intros decoder [|c input] frames Hd Hl; simpl in *; try lia;
    try (exists decoder, (Ok frames); split; [done|]; split; [done|]; exists [], []; simpl; by rewrite !app_nil_r).
  destruct (push_step decoder (c :: input)) as [decoder1 [[rest frame]|e]] eqn:Hs.
  - destruct (push_step_ok _ (c :: input) _ _ _ Hd ltac:(done) Hs) as (Hd1 & Hl1 & wires1 & Hw1 & He1). simpl in Hl1.
    destruct (IH decoder1 rest (frames ++ option_list frame) Hd1 ltac:(lia)) as (decoder' & r & Hr & Hok).
    exists decoder', r. split; [done|]. destruct r as [frames'|]; [|done].
    destruct Hok as (Hd' & more & wires & -> & Hw & He). split; [done|].
    exists (option_list frame ++ more), (wires1 ++ wires). split; [by rewrite app_assoc|].
    split; [by apply Forall2_app|]. by rewrite He1, He, concat_app, app_assoc.
  - exists decoder1, (Err e). split; [done|]. by eapply push_step_err.
Qed.

(** Frames decoded so far are only carried along. *)
Lemma push_loop_frames fuel decoder input frames :
  push_loop fuel decoder input frames =
  (λ '(decoder', r), (decoder', let? more := r in Ok (frames ++ more))) <$> push_loop fuel decoder input [].
Proof.
  revert decoder input frames. induction fuel as [|fuel IH]; intros decoder [|c input] frames; simpl;
    try by rewrite ?app_nil_r.
  destruct (push_step decoder (c :: input)) as [decoder1 [[rest frame]|e]]; [|done].
  rewrite (IH _ _ (frames ++ _)), (IH _ _ (option_list frame)).
  destruct (push_loop fuel decoder1 rest []) as [[d' [more|e]]|]; simpl; [|done..].
  by rewrite app_assoc.
Qed.

Lemma push_loop_fuel fuel fuel' decoder input frames :
  decoding decoder → (length input ≤ fuel)%nat → (length input ≤ fuel')%nat →
  push_loop fuel decoder input frames = push_loop fuel' decoder input frames.
Proof.
  revert fuel' decoder input frames.
  induction fuel as [|fuel IH]; intros [|fuel'] decoder [|c input] frames Hd H1 H2; simpl in *; try done; try lia.
  destruct (push_step decoder (c :: input)) as [decoder1 [[rest frame]|e]] eqn:Hs; [|done].
  destruct (push_step_ok _ (c :: input) _ _ _ Hd ltac:(done) Hs) as (Hd1 & Hl1 & _). simpl in Hl1.
  apply IH; [done|lia..].
Qed.

(** ** Fragments *)

(** Decoders that no later call can tell apart: a failed one refuses everything. *)
#[export] Instance decoder_equiv : Equiv FrameDecoder := λ d1 d2,
  (d1.(FrameDecoder.failed) = true ∧ d2.(FrameDecoder.failed) = true) ∨ d1 = d2.

#[export] Instance decoder_equivalence : Equivalence (≡@{FrameDecoder}).
Proof.
  split.
  - intros d. by right.
  - intros d1 d2 [[? ?]| ->]; [by left | by right].
  - intros d1 d2 d3 [[? ?]| ->] [[? ?]| ->]; by (left + right).
Qed.

(** The same outcome, up to indistinguishable decoders. *)
Definition same_run (x y : option (FrameDecoder * result (list Frame) TransportError)) : Prop :=
  match x, y with
  | Some (d1, r1), Some (d2, r2) => d1 ≡ d2 ∧ r1 = r2
  | None, None => True
  | _, _ => False
  end.

#[export] Instance same_run_equivalence : Equivalence same_run.
Proof.
  split.
  - intros [[d r]|]; done.
  - intros [[d r]|] [[d' r']|]; simpl; try done. by intros [-> ->].
  - intros [[d1 r1]|] [[d2 r2]|] [[d3 r3]|]; simpl; try done. intros [-> ->] [-> ->]. done.
Qed.

#[export] Instance push_proper : Proper ((≡) ==> (=) ==> same_run) FrameDecoder_push.
Proof.
  intros d1 d2 Hd input ? <-. destruct Hd as [[H1 H2]| ->]; [|done].
  unfold FrameDecoder_push. rewrite H1, H2. simpl. split; [by left|done].
Qed.

#[export] Instance finish_proper : Proper ((≡) ==> (=)) FrameDecoder_finish.
Proof.
  intros d1 d2 [[H1 H2]| ->]; [|done]. unfold FrameDecoder_finish. rewrite H1, H2.
  by destruct d1 as [[? []|] ?], d2 as [[? []|] ?].
Qed.

Lemma nonempty_length {A} (l : list A) : l ≠ [] → (1 ≤ length l)%nat.
Proof. destruct l; simpl; [done|lia]. Qed.

(** Two calls of [push], the second only when the first accepts. *)
Definition push_two (decoder : FrameDecoder) (a b : list ascii) :
    option (FrameDecoder * result (list Frame) TransportError) :=
  match FrameDecoder_push decoder a with
  | Some (decoder1, Ok frames) =>
      (λ '(decoder2, r), (decoder2, let? more := r in Ok (frames ++ more))) <$> FrameDecoder_push decoder1 b
  | refused => refused
  end.

(** Bytes the current state waits for. *)
Definition need (decoder : FrameDecoder) : nat :=
  match decoder.(FrameDecoder.state) with
  | DecodeState.Header _ filled => HEADER_BYTES - filled
  | DecodeState.Body _ expected bytes => expected - length bytes
  end.

Definition leave {A} (b : list ascii) (r : result (list ascii * A) TransportError) : result (list ascii * A) TransportError :=
  let? x := r in Ok (x.1 ++ b, x.2).

(** A turn that completes its state does not look past it. *)
Lemma push_step_enough decoder a b :
  (need decoder ≤ length a)%nat →
  push_step decoder (a ++ b) = (λ '(d, r), (d, leave b r)) (push_step decoder a).
Proof.
  destruct decoder as [[bytes filled|kind expected bytes] failed]; unfold need, push_step; simpl; intros Hn.
  - unfold push_header, header_turn. rewrite length_app, !Nat.min_l by lia.
    rewrite take_app_le, drop_app_le by lia.
    repeat (case_match; simplify_eq/=; try done).
  - unfold push_body. rewrite (length_app a b), !Nat.min_l by lia.
    rewrite take_app_le, drop_app_le by lia.
    repeat (case_match; simplify_eq/=; try done).
Qed.

Lemma check_prefix_more bytes filled bytes' filled' :
  (filled ≤ filled')%nat → (filled ≤ length bytes)%nat → take filled bytes' = take filled bytes →
  (4 ≤ filled)%nat → check_prefix bytes' filled' = check_prefix bytes filled.
Proof.
  intros Hf Hl Ht H4. unfold check_prefix.
  rewrite !(proj2 (Nat.leb_le _ _)) by lia.
  replace (take 4 bytes') with (take 4 bytes); [done|].
  assert (∀ l : list ascii, take 4 (take filled l) = take 4 l) as Htt.
  { intros l. rewrite take_take. f_equal. lia. }
  by rewrite <-Htt, <-(Htt bytes'), Ht.
Qed.

(** A header cut inside: the first fragment is taken in whole, or its length
    prefix is refused the way the longer input is refused. *)
Lemma push_header_partial bytes filled a b :
  length bytes = HEADER_BYTES → b ≠ [] → (filled + length a < HEADER_BYTES)%nat →
  let bytes1 := fill bytes filled a in
  (push_header false bytes filled a =
     (FrameDecoder.mk (DecodeState.Header bytes1 (filled + length a)) false, Ok ([], None)) ∧
   push_header false bytes1 (filled + length a) b = push_header false bytes filled (a ++ b)) ∨
  (∃ decoder1 decoder2 e, push_header false bytes filled a = (decoder1, Err e) ∧
     push_header false bytes filled (a ++ b) = (decoder2, Err e)).
Proof.
  intros Hlen Hb%nonempty_length Hn bytes1.
  assert (length bytes1 = HEADER_BYTES) as Hl1 by (subst bytes1; rewrite fill_length; lia).
  set (m := Nat.min (HEADER_BYTES - (filled + length a)) (length b)).
  assert (push_header false bytes filled a = header_turn false bytes1 (filled + length a) []) as ->.
  { unfold push_header. rewrite Nat.min_r, (proj2 (Nat.ltb_ge _ _)), firstn_all, drop_all by lia. done. }
  assert (push_header false bytes filled (a ++ b) =
          header_turn false (fill bytes1 (filled + length a) (take m b)) (filled + length a + m) (drop m b)) as ->.
  { unfold push_header. rewrite length_app.
    replace (Nat.min (HEADER_BYTES - filled) (length a + length b)) with (length a + m)%nat by lia.
    rewrite (proj2 (Nat.ltb_ge _ _)) by lia. subst bytes1.
    rewrite take_app_add, drop_app_add, fill_fill, Nat.add_assoc by lia. done. }
  unfold header_turn at 1 3. destruct (check_prefix bytes1 (filled + length a)) as [[]|e] eqn:Hp.
  - left. rewrite (proj2 (Nat.eqb_neq _ _)) by lia. split; [done|].
    unfold push_header. fold m. by rewrite (proj2 (Nat.ltb_ge _ _)) by lia.
  - right. eexists _, _, e. split; [done|]. unfold header_turn.
    rewrite (check_prefix_more bytes1 (filled + length a)), Hp; try lia.
    + done.
    + unfold fill. rewrite take_app_length'; [done|]. rewrite length_take. lia.
    + unfold check_prefix in Hp. destruct (Nat.leb_spec 4 (filled + length a)); [lia|done].
Qed.

(** A body cut inside: the first fragment is taken in whole. *)
Lemma push_body_partial failed kind expected bytes a b :
  (length bytes + length a < expected)%nat →
  push_body failed kind expected bytes a =
    (FrameDecoder.mk (DecodeState.Body kind expected (bytes ++ a)) failed, Ok ([], None)) ∧
  push_body failed kind expected (bytes ++ a) b = push_body failed kind expected bytes (a ++ b).
Proof.
  intros Hn. unfold push_body. rewrite !(length_app bytes a), !(length_app a b), (Nat.min_r _ (length a)) by lia.
  rewrite firstn_all, drop_all, length_app, (proj2 (Nat.eqb_neq _ _)) by lia. split; [done|].
  set (m := Nat.min (expected - (length bytes + length a)) (length b)).
  replace (Nat.min (expected - length bytes) (length a + length b)) with (length a + m)%nat by lia.
  by rewrite take_app_add, drop_app_add, app_assoc.
Qed.

(** A turn that does not complete its state takes in the whole fragment, or
    refuses the way the longer input is refused. *)
Lemma push_step_partial decoder a b :
  decoding decoder → b ≠ [] → (length a < need decoder)%nat →
  (∃ decoder1, push_step decoder a = (decoder1, Ok ([], None)) ∧
     push_step decoder1 b = push_step decoder (a ++ b)) ∨
  (∃ decoder1 decoder2 e, push_step decoder a = (decoder1, Err e) ∧
     push_step decoder (a ++ b) = (decoder2, Err e)).
Proof.
  destruct decoder as [[bytes filled|kind expected bytes] failed]; unfold need, push_step; simpl;
    intros (Hf & Hd) Hb Hn; simpl in *; subst failed.
  - destruct Hd as (Hf & Hlen & _ & _).
    destruct (push_header_partial bytes filled a b Hlen Hb ltac:(lia)) as [[H1 H2]|H]; [left|by right].
    by eexists.
  - left. destruct (push_body_partial false kind expected bytes a b ltac:(lia)) as [H1 H2]. by eexists.
Qed.

Definition and_then (frames : list Frame) (run : option (FrameDecoder * result (list Frame) TransportError)) :
    option (FrameDecoder * result (list Frame) TransportError) :=
  (λ '(decoder, r), (decoder, let? more := r in Ok (frames ++ more))) <$> run.

#[local] Instance and_then_proper frames : Proper (same_run ==> same_run) (and_then frames).
Proof. intros [[d r]|] [[d' r']|]; simpl; try done. by intros [-> ->]. Qed.

Lemma and_then_nil run : and_then [] run = run.
Proof. by destruct run as [[d [more|e]]|]. Qed.

Lemma and_then_app frames frames' run : and_then frames (and_then frames' run) = and_then (frames ++ frames') run.
Proof. destruct run as [[d [more|e]]|]; simpl; [|done..]. by rewrite app_assoc. Qed.

Definition two_loops (fuel : nat) (decoder : FrameDecoder) (a b : list ascii) :
    option (FrameDecoder * result (list Frame) TransportError) :=
  match push_loop fuel decoder a [] with
  | Some (decoder1, Ok frames) => and_then frames (push_loop fuel decoder1 b [])
  | refused => refused
  end.

Lemma push_loop_turn fuel decoder input :
  input ≠ [] →
  push_loop (S fuel) decoder input [] =
  match push_step decoder input with
  | (decoder, Err e) => Some (decoder, Err e)
  | (decoder, Ok (rest, frame)) => and_then (option_list frame) (push_loop fuel decoder rest [])
  end.
Proof.
  intros Hin. destruct input as [|c input]; [done|]. cbn [push_loop].
  destruct (push_step _ _) as [d [[rest frame]|e]]; [|done]. by rewrite push_loop_frames.
Qed.

Lemma push_loop_nil fuel decoder frames : push_loop fuel decoder [] frames = Some (decoder, Ok frames).
Proof. by destruct fuel. Qed.

Local Opaque push_loop.

Lemma two_loops_turn fuel decoder a b :
  decoding decoder → a ≠ [] → (length a + length b ≤ S fuel)%nat →
  two_loops (S fuel) decoder a b =
  match push_step decoder a with
  | (decoder, Err e) => Some (decoder, Err e)
  | (decoder, Ok (rest, frame)) => and_then (option_list frame) (two_loops fuel decoder rest b)
  end.
Proof.
  intros Hd Ha Hl. unfold two_loops. rewrite push_loop_turn by done.
  destruct (push_step decoder a) as [d [[rest frame]|e]] eqn:Hs; [|done].
  destruct (push_step_ok _ _ _ _ _ Hd Ha Hs) as (Hd1 & Hl1 & _).
  destruct (push_loop_total fuel d rest [] Hd1 ltac:(lia)) as (d' & r & -> & Hr).
  destruct r as [more|e]; simpl; [|done]. destruct Hr as [Hd' _].
  rewrite <-and_then_app. do 2 f_equal. apply nonempty_length in Ha. apply push_loop_fuel; [done|lia..].
Qed.

Lemma push_loop_app fuel decoder a b :
  decoding decoder → (length a + length b ≤ fuel)%nat →
  same_run (push_loop fuel decoder (a ++ b) []) (two_loops fuel decoder a b).
Proof.
  revert decoder a. induction fuel as [|fuel IH]; intros decoder a Hd Hl.
  { destruct a, b; simpl in *; try lia. unfold two_loops. by rewrite !push_loop_nil. }
  destruct (decide (a = [])) as [->|Ha].
  { unfold two_loops. rewrite push_loop_nil. by rewrite and_then_nil. }
  destruct (decide (b = [])) as [->|Hb].
  { unfold two_loops. rewrite app_nil_r. simpl in Hl.
    destruct (push_loop_total (S fuel) decoder a [] Hd ltac:(lia)) as (d' & [more|e] & -> & _); [|done].
    rewrite push_loop_nil. simpl. by rewrite app_nil_r. }
  assert (a ++ b ≠ []) as Hab by (by destruct a).
  rewrite two_loops_turn, push_loop_turn by done.
  destruct (decide (need decoder ≤ length a)%nat) as [Hn|Hn].
  - rewrite push_step_enough by done.
    destruct (push_step decoder a) as [d [[rest frame]|e]] eqn:Hs; simpl; [|done].
    destruct (push_step_ok _ _ _ _ _ Hd Ha Hs) as (Hd1 & Hl1 & _).
    by rewrite IH by (done || lia).
  - destruct (push_step_partial decoder a b Hd Hb ltac:(lia)) as [(d1 & H1 & H2)|(d1 & d2 & e & H1 & H2)].
    + rewrite H1, <-H2. unfold two_loops. rewrite push_loop_nil, !and_then_nil.
      rewrite <-push_loop_turn by done.
      destruct (push_step_ok _ _ _ _ _ Hd Ha H1) as (Hd1 & Hl1 & _).
      apply nonempty_length in Ha. by rewrite (push_loop_fuel (S fuel) fuel) by (done || lia).
    + rewrite H1, H2. simpl. split; [left|done]. split; by eapply push_step_err.
Qed.

(** Cutting an input in two changes nothing that can be observed. *)
Lemma push_app decoder a b :
  decoding decoder → same_run (FrameDecoder_push decoder (a ++ b)) (push_two decoder a b).
Proof.
  intros Hd. unfold FrameDecoder_push, push_two. pose proof Hd as [Hf _]. rewrite Hf.
  rewrite push_loop_app by (done || rewrite length_app; lia). unfold two_loops, FrameDecoder_push. rewrite Hf.
  rewrite (push_loop_fuel _ (length a) _ a) by (done || rewrite ?length_app; lia).
  destruct (push_loop_total (length a) decoder a [] Hd ltac:(lia)) as (d' & [more|e] & -> & Hr); [|done].
  destruct Hr as [Hd' _]. pose proof Hd' as [-> _].
  by rewrite (push_loop_fuel _ (length b)) by (done || rewrite ?length_app; lia).
Qed.

(** ** Streams *)

(** The chunks of a stream in the order they arrive; the first refusal ends it. *)
Fixpoint feed (decoder : FrameDecoder) (chunks : list (list ascii)) :
    option (FrameDecoder * result (list Frame) TransportError) :=
  match chunks with
  | [] => Some (decoder, Ok [])
  | chunk :: chunks =>
      match FrameDecoder_push decoder chunk with
      | Some (decoder1, Ok frames) => and_then frames (feed decoder1 chunks)
      | refused => refused
      end
  end.

Lemma push_total decoder input :
  decoding decoder →
  ∃ decoder' r, FrameDecoder_push decoder input = Some (decoder', r) ∧
    match r with
    | Ok frames =>
        decoding decoder' ∧
        ∃ wires, Forall2 frame_wire frames wires ∧ taken decoder ++ input = concat wires ++ taken decoder'
    | Err _ => decoder'.(FrameDecoder.failed) = true
    end.
Proof.
  intros Hd. unfold FrameDecoder_push. pose proof Hd as [-> _].
  destruct (push_loop_total (length input) decoder input [] Hd ltac:(lia)) as (d' & r & -> & Hr).
  exists d', r. split; [done|]. destruct r; [|done].
  destruct Hr as (? & more & wires & -> & ? & ?). by eauto.
Qed.

(** However a stream is cut, it decodes as it would in one piece. *)
Lemma feed_concat decoder chunks :
  decoding decoder → same_run (feed decoder chunks) (FrameDecoder_push decoder (concat chunks)).
Proof.
  revert decoder. induction chunks as [|chunk chunks IH]; intros decoder Hd; simpl.
  { unfold FrameDecoder_push. pose proof Hd as [-> _]. by rewrite push_loop_nil. }
  rewrite push_app by done. unfold push_two.
  destruct (push_total decoder chunk Hd) as (d' & [frames|e] & -> & Hr); [|done].
  destruct Hr as [Hd' _]. apply and_then_proper. by apply IH.
Qed.

(** Five bytes complete a header. *)
Lemma push_header_wire kind body rest :
  validate_header (Z.of_nat (length body) + 1) kind = Ok (length body) →
  push_step FrameDecoder_new ((to_be_bytes 4 (Z.of_nat (length body) + 1) ++ kind :: body) ++ rest) =
  (FrameDecoder.mk (DecodeState.Body kind (length body) []) false, Ok (body ++ rest, None)).
Proof.
  intros Hv. pose proof (validate_header_ok _ _ _ Hv) as [_ Hr].
  unfold MAX_CONTROL_BODY_BYTES, MAX_CONTENT_BODY_BYTES in Hr.
  pose proof (to_be_bytes_length 4 (Z.of_nat (length body) + 1)) as Hl4.
  pose proof (from_to_be_bytes 4 (Z.of_nat (length body) + 1) ltac:(lia)) as Hfrom.
  destruct (to_be_bytes 4 _) as [|b0 [|b1 [|b2 [|b3 [|]]]]]; try done.
  unfold push_step, push_header, header_turn, check_prefix, MAX_FRAME_LENGTH. simpl.
  unfold fill. simpl. rewrite Hfrom, Hv, (proj2 (Z.eqb_neq _ _)), (proj2 (Z.ltb_ge _ _)) by lia. done.
Qed.

(** The expected bytes complete a body. *)
Lemma push_body_wire kind body rest frame :
  validate_header (Z.of_nat (length body) + 1) kind = Ok (length body) →
  decode_body kind body = Ok frame →
  push_step (FrameDecoder.mk (DecodeState.Body kind (length body) []) false) (body ++ rest) =
  (FrameDecoder_new, Ok (rest, Some frame)).
Proof.
  intros Hv Hd. unfold push_step, push_body. simpl.
  rewrite length_app, Nat.sub_0_r, Nat.min_l, take_app_length, drop_app_length, Nat.eqb_refl, Hd by lia. done.
Qed.

(** The parts of a frame's wire. *)
Lemma frame_wire_parts frame wire :
  frame_wire frame wire →
  ∃ kind body, wire = to_be_bytes 4 (Z.of_nat (length body) + 1) ++ kind :: body ∧
    validate_header (Z.of_nat (length body) + 1) kind = Ok (length body) ∧
    decode_body kind body = Ok frame ∧ body ≠ [].
Proof.
  intros Hw.
  assert (∃ kind body, wire = to_be_bytes 4 (Z.of_nat (length body) + 1) ++ kind :: body ∧
            validate_header (Z.of_nat (length body) + 1) kind = Ok (length body)) as (kind & body & -> & Hv).
  { destruct frame as [body|request_id body]; simpl in Hw.
    - destruct Hw as (Hl & _ & ->). eexists _, _. split; [done|]. by apply validate_header_control.
    - destruct Hw as (_ & Hl & ->). eexists _, (to_be_bytes 8 request_id ++ body).
      rewrite length_app, to_be_bytes_length, Nat2Z.inj_add. split; [do 2 f_equal; lia|].
      rewrite <-Nat2Z.inj_add. apply validate_header_content. lia. }
  exists kind, body. split; [done|]. split; [done|]. split; [by apply decode_body_wire|].
  destruct (validate_header_ok _ _ _ Hv) as [_ Hr]. intros ->. simpl in Hr. lia.
Qed.

(** The wire of a frame, from the start of a frame, is that frame. *)
Lemma push_wire fuel frame wire rest :
  frame_wire frame wire →
  push_loop (S (S fuel)) FrameDecoder_new (wire ++ rest) [] =
  and_then [frame] (push_loop fuel FrameDecoder_new rest []).
Proof.
  intros (kind & body & -> & Hv & Hb & Hne)%frame_wire_parts.
  rewrite push_loop_turn, push_header_wire by (done || by destruct (to_be_bytes 4 _)). simpl option_list.
  by rewrite and_then_nil, push_loop_turn, (push_body_wire _ _ _ frame) by (done || by destruct body).
Qed.

Lemma frame_wire_length frame wire : frame_wire frame wire → (6 ≤ length wire)%nat.
Proof.
  intros (kind & body & -> & _ & _ & Hne%nonempty_length)%frame_wire_parts.
  rewrite length_app, to_be_bytes_length. simpl. lia.
Qed.

Lemma push_wires frames wires :
  Forall2 frame_wire frames wires →
  FrameDecoder_push FrameDecoder_new (concat wires) = Some (FrameDecoder_new, Ok frames).
Proof.
  unfold FrameDecoder_push. simpl FrameDecoder.failed. cbn iota. generalize (le_n (length (concat wires))).
  generalize (length (concat wires)) at 2 3. intros fuel Hl Hw. revert fuel Hl.
  induction Hw as [|frame wire frames wires Hf Hw IH]; intros fuel Hl; simpl; [apply push_loop_nil|].
  simpl in Hl. rewrite length_app in Hl. pose proof (frame_wire_length _ _ Hf).
  destruct fuel as [|[|fuel]]; [lia..|]. by rewrite (push_wire fuel frame), (IH fuel) by (done || lia).
Qed.

(** C19: However the byte stream of a connection is cut into chunks, the incremental decoder accepts
    it to its end with a list of frames exactly when the stream is the concatenation of the wires of
    those frames (length prefix, kind, body), each within the size limits; so no frame is lost,
    invented or altered by fragmentation. *)
Theorem framing_is_exact chunks frames :
  (∃ decoder, feed FrameDecoder_new chunks = Some (decoder, Ok frames) ∧ FrameDecoder_finish decoder = Ok tt) ↔
  (∃ wires, Forall2 frame_wire frames wires ∧ concat chunks = concat wires).
Proof.
  pose proof (feed_concat FrameDecoder_new chunks decoding_new) as Hc. split.
  - intros (decoder & Hfeed & Hfin). rewrite Hfeed in Hc.
    destruct (push_total FrameDecoder_new (concat chunks) decoding_new) as (d' & r & Hp & Hr).
    rewrite Hp in Hc. simpl in Hc. destruct Hc as [Hd <-]. rewrite Hd in Hfin.
    destruct Hr as (_ & wires & Hw & He). exists wires. split; [done|]. simpl in He. rewrite He.
    unfold FrameDecoder_finish in Hfin. unfold taken. destruct d' as [[bytes [|]|] failed]; try done.
    by rewrite app_nil_r.
  - intros (wires & Hw & He). rewrite He, (push_wires frames) in Hc by done.
    destruct (feed FrameDecoder_new chunks) as [[d r]|]; [|done]. destruct Hc as [Hd ->].
    exists d. split; [done|]. by rewrite Hd.
Qed.

(** ** Messages *)

Section messages.
Context `{ControlCodecOk}.

Inductive Message : Type :=
| ControlMessage (frame : ControlFrame)
| ContentMessage (request_id : Z) (body : list ascii).

Definition encode_message (message : Message) : result (list ascii) TransportError :=
  match message with
  | ControlMessage frame => encode_control frame
  | ContentMessage request_id body => encode_content request_id body
  end.

(** What the receiver obtains from a frame is what the sender sent. *)
Definition delivers (message : Message) (frame : Frame) : Prop :=
  match message with
  | ControlMessage control => Frame_decode_control frame = Ok control
  | ContentMessage request_id body => frame = Frame.Content request_id body
  end.

Definition message_in_range (message : Message) : Prop :=
  match message with
  | ControlMessage _ => True
  | ContentMessage request_id _ => in_u64 request_id
  end.

Lemma encode_ok kind body wire :
  encode kind body = Ok wire ↔
  Z.of_nat (length body) + 1 ≤ MAX_FRAME_LENGTH ∧
  wire = to_be_bytes 4 (Z.of_nat (length body) + 1) ++ kind :: body.
Proof.
  unfold encode. destruct (Z.leb_spec (Z.of_nat (length body) + 1) u32_max) as [Hle|Hgt]; simpl.
  - rewrite rbind_ok_unit, reject_if_ok, Z.ltb_ge. naive_solver.
  - split; [done|]. unfold MAX_FRAME_LENGTH, u32_max in *. lia.
Qed.

Lemma encode_message_wire message wire :
  message_in_range message → encode_message message = Ok wire →
  ∃ frame, frame_wire frame wire ∧ delivers message frame.
Proof using All.
  destruct message as [control|request_id body]; simpl; intros Hr He.
  - unfold encode_control in He. rewrite rbind_ok in He. destruct He as (body & Hb & He).
    unfold ControlFrame_encode in Hb. rewrite ok_or_ok in Hb.
    rewrite rbind_ok_unit, reject_if_ok, orb_false_iff, Z.ltb_ge, is_none_head, encode_ok in He.
    destruct He as ([Hne Hmax] & _ & ->).
    destruct (json_of_control_text _ _ Hb) as [_ Hu].
    destruct (control_of_json_of _ _ Hb) as (rest & Hj & Hend).
    exists (Frame.Control body). split; [split; [lia|done]|]. simpl. unfold ControlFrame_decode.
    rewrite (proj2 (is_none_head body)), Hu, Hj by done. simpl. by rewrite Hend.
  - unfold encode_content in He.
    rewrite rbind_ok_unit, reject_if_ok, !orb_false_iff, Z.eqb_neq, Z.ltb_ge, is_none_head, encode_ok in He.
    destruct He as ([[Hz Hne] Hmax] & _ & ->).
    exists (Frame.Content request_id body). split; [|done]. unfold in_u64 in Hr. split; [lia|]. split; [lia|].
    rewrite length_app, to_be_bytes_length. do 2 f_equal. lia.
Qed.

(** Control messages and content bodies encoded one after another and delivered in chunks cut at any positions
    come out of the decoder as the same messages in the same order, with nothing left over. *)
Theorem messages_cross_the_wire messages wires chunks :
  Forall message_in_range messages →
  Forall2 (λ message wire, encode_message message = Ok wire) messages wires →
  concat chunks = concat wires →
  ∃ decoder frames,
    feed FrameDecoder_new chunks = Some (decoder, Ok frames) ∧ FrameDecoder_finish decoder = Ok tt ∧
    Forall2 delivers messages frames.
Proof using All.
  intros Hr Hw Hc.
  assert (∃ frames, Forall2 frame_wire frames wires ∧ Forall2 delivers messages frames) as (frames & Hf & Hm).
  { clear Hc. induction Hw as [|message wire messages wires He Hw IH]; [by exists []|].
    apply Forall_cons in Hr as [Hr Hrs]. destruct (IH Hrs) as (frames & ? & ?).
    destruct (encode_message_wire _ _ Hr He) as (frame & ? & ?). exists (frame :: frames). by split; constructor. }
  pose proof (feed_concat FrameDecoder_new chunks decoding_new) as Hfeed.
  rewrite Hc, (push_wires frames) in Hfeed by done.
  destruct (feed FrameDecoder_new chunks) as [[d r]|]; [|done]. destruct Hfeed as [Hd ->].
  exists d, frames. split; [done|]. by rewrite Hd.
Qed.
End messages.

(** ** Every decoder a connection can hold *)

Inductive reached : FrameDecoder → Prop :=
| reached_new : reached FrameDecoder_new
| reached_push decoder input decoder' r :
    reached decoder → FrameDecoder_push decoder input = Some (decoder', r) → reached decoder'.

Lemma reached_decoding decoder :
  reached decoder → decoding decoder ∨ decoder.(FrameDecoder.failed) = true.
Proof.
  induction 1 as [|decoder input decoder' r _ [IH|IH] Hp]; [left; apply decoding_new|..].
  - destruct (push_total decoder input IH) as (d & r' & Hp' & Hr). rewrite Hp in Hp'. injection Hp' as <- <-.
    destruct r; [left; by destruct Hr | by right].
  - unfold FrameDecoder_push in Hp. rewrite IH in Hp. injection Hp as <- _. by right.
Qed.

(** C34: From every decoder a connection can hold, the decoding loop ends on every input, within one
    turn per byte; and once it has refused an input, every later push and the final check refuse
    too, whatever arrives. *)
Theorem push_terminates decoder input :
  reached decoder →
  ∃ decoder' r, FrameDecoder_push decoder input = Some (decoder', r) ∧
    (∀ e, r = Err e →
       (∀ more, FrameDecoder_push decoder' more = Some (decoder', Err TransportError.MalformedFrame)) ∧
       FrameDecoder_finish decoder' = Err TransportError.MalformedFrame).
Proof.
  intros Hreach.
  assert (∀ d, d.(FrameDecoder.failed) = true →
    (∀ more, FrameDecoder_push d more = Some (d, Err TransportError.MalformedFrame)) ∧
    FrameDecoder_finish d = Err TransportError.MalformedFrame) as Hfailed.
  { intros d Hd. split; [intros more; unfold FrameDecoder_push; by rewrite Hd|].
    unfold FrameDecoder_finish. rewrite Hd. by destruct d as [[? []|] ?]. }
  destruct (reached_decoding _ Hreach) as [Hd|Hd].
  - destruct (push_total decoder input Hd) as (d' & r & Hp & Hr). exists d', r. split; [done|].
    intros e ->. by apply Hfailed.
  - exists decoder, (Err TransportError.MalformedFrame). split; [by apply Hfailed|].
    intros e _. by apply Hfailed.
Qed.

Definition bounded (decoder : FrameDecoder) : Prop :=
  match decoder.(FrameDecoder.state) with
  | DecodeState.Header _ _ => True
  | DecodeState.Body _ expected bytes => Z.of_nat expected + 1 ≤ MAX_FRAME_LENGTH ∧ (length bytes ≤ expected)%nat
  end.

Lemma decoding_bounded decoder : decoding decoder → bounded decoder.
Proof.
  destruct decoder as [[|kind expected bytes] failed]; [done|]. intros (_ & Hv & Hl).
  apply validate_header_ok in Hv as [_ Hr].
  unfold bounded, MAX_CONTROL_BODY_BYTES, MAX_CONTENT_BODY_BYTES, MAX_FRAME_LENGTH in *. simpl. lia.
Qed.

Lemma push_step_bounded decoder input decoder' e :
  decoding decoder → push_step decoder input = (decoder', Err e) → bounded decoder'.
Proof.
  intros Hd%decoding_bounded. destruct decoder as [[bytes filled|kind expected bytes] failed]; unfold push_step; simpl.
  - unfold push_header, header_turn. repeat case_match; by intros [= <- _].
  - unfold push_body. repeat case_match; intros [= <- _]. split; [apply Hd|simpl; lia].
Qed.

Local Transparent push_loop.

Lemma push_loop_bounded fuel decoder input frames decoder' r :
  decoding decoder → push_loop fuel decoder input frames = Some (decoder', r) → bounded decoder'.
Proof.
  revert decoder input frames. induction fuel as [|fuel IH]; intros decoder [|c input] frames Hd; simpl; try done;
    try (intros [= <- _]; by apply decoding_bounded).
  destruct (push_step decoder (c :: input)) as [decoder1 [[rest frame]|e]] eqn:Hs.
  - destruct (push_step_ok _ (c :: input) _ _ _ Hd ltac:(done) Hs) as (Hd1 & _). by apply IH.
  - intros [= <- _]. by eapply push_step_bounded.
Qed.

(** A decoder never waits for, nor holds, a body longer than the frame limit: the length a peer announces is
    judged before anything is allocated for it. *)
Theorem buffered_body_is_bounded decoder kind expected bytes :
  reached decoder → decoder.(FrameDecoder.state) = DecodeState.Body kind expected bytes →
  Z.of_nat expected + 1 ≤ MAX_FRAME_LENGTH ∧ (length bytes ≤ expected)%nat.
Proof.
  intros Hr Hs. assert (bounded decoder) as Hb; [|unfold bounded in Hb; by rewrite Hs in Hb].
  clear Hs. induction Hr as [|decoder input decoder' r Hr IH Hp]; [done|].
  unfold FrameDecoder_push in Hp. destruct (reached_decoding _ Hr) as [Hd|Hf].
  - pose proof Hd as [Hf _]. rewrite Hf in Hp. by eapply push_loop_bounded.
  - rewrite Hf in Hp. by injection Hp as <- _.
Qed.
