(* ===== verification/TransportCorrelation.v ===== *)
(** * Request and subscription correlation

    Models [CorrelationState] of [crates/kaleido-transport/src/control.rs]: the
    identifiers a connection has in flight, the response each request waits
    for, subscriptions with their tombstones, and the bodies announced by a
    content header.  Every method takes and returns the state; a refused call
    may have changed it.  SHA-256 is a library, a parameter here. *)
From stdpp Require Import prelude strings gmap sorting.
From Stdlib Require Import ZArith Lia Ascii.
From S2P Require Import Prelude ProtoBase ProtoContent ProtoRuntime ProtoCommand ProtoProjection TransportControl TransportFrame.

Local Open Scope Z_scope.

(** ** Data *)

Module ExpectedContent.
Record ExpectedContent : Type := mk {
  byte_len : Z;
  digest : string
}.
End ExpectedContent.
Abbreviation ExpectedContent := ExpectedContent.ExpectedContent.

#[export] Instance ExpectedContent_eq_dec : EqDecision ExpectedContent.
Proof. solve_decision. Defined.

Module UnsubscribeDisposition.
Inductive UnsubscribeDisposition : Type :=
| Active
| TombstonedAfterGap.
End UnsubscribeDisposition.
Abbreviation UnsubscribeDisposition := UnsubscribeDisposition.UnsubscribeDisposition.

#[export] Instance UnsubscribeDisposition_eq_dec : EqDecision UnsubscribeDisposition.
Proof. solve_decision. Defined.

Module CorrelationState.
Record CorrelationState : Type := mk {
  last_incoming_request_id : Z;
  last_outgoing_request_id : Z;
  incoming_pending : gset Z;
  outgoing_pending : gmap Z ExpectedResponse;
  subscriptions : gset Z;
  subscription_tombstones : gmap Z bool;
  awaiting_content : gmap Z ExpectedContent
}.
End CorrelationState.
Abbreviation CorrelationState := CorrelationState.CorrelationState.

Definition CorrelationState_set_last_incoming_request_id (v : Z) (r : CorrelationState) : CorrelationState := {|
  CorrelationState.last_incoming_request_id := v;
  CorrelationState.last_outgoing_request_id := r.(CorrelationState.last_outgoing_request_id);
  CorrelationState.incoming_pending := r.(CorrelationState.incoming_pending);
  CorrelationState.outgoing_pending := r.(CorrelationState.outgoing_pending);
  CorrelationState.subscriptions := r.(CorrelationState.subscriptions);
  CorrelationState.subscription_tombstones := r.(CorrelationState.subscription_tombstones);
  CorrelationState.awaiting_content := r.(CorrelationState.awaiting_content)
|}.

Definition CorrelationState_set_last_outgoing_request_id (v : Z) (r : CorrelationState) : CorrelationState := {|
  CorrelationState.last_incoming_request_id := r.(CorrelationState.last_incoming_request_id);
  CorrelationState.last_outgoing_request_id := v;
  CorrelationState.incoming_pending := r.(CorrelationState.incoming_pending);
  CorrelationState.outgoing_pending := r.(CorrelationState.outgoing_pending);
  CorrelationState.subscriptions := r.(CorrelationState.subscriptions);
  CorrelationState.subscription_tombstones := r.(CorrelationState.subscription_tombstones);
  CorrelationState.awaiting_content := r.(CorrelationState.awaiting_content)
|}.

Definition CorrelationState_set_incoming_pending (v : gset Z) (r : CorrelationState) : CorrelationState := {|
  CorrelationState.last_incoming_request_id := r.(CorrelationState.last_incoming_request_id);
  CorrelationState.last_outgoing_request_id := r.(CorrelationState.last_outgoing_request_id);
  CorrelationState.incoming_pending := v;
  CorrelationState.outgoing_pending := r.(CorrelationState.outgoing_pending);
  CorrelationState.subscriptions := r.(CorrelationState.subscriptions);
  CorrelationState.subscription_tombstones := r.(CorrelationState.subscription_tombstones);
  CorrelationState.awaiting_content := r.(CorrelationState.awaiting_content)
|}.

Definition CorrelationState_set_outgoing_pending (v : gmap Z ExpectedResponse) (r : CorrelationState) : CorrelationState := {|
  CorrelationState.last_incoming_request_id := r.(CorrelationState.last_incoming_request_id);
  CorrelationState.last_outgoing_request_id := r.(CorrelationState.last_outgoing_request_id);
  CorrelationState.incoming_pending := r.(CorrelationState.incoming_pending);
  CorrelationState.outgoing_pending := v;
  CorrelationState.subscriptions := r.(CorrelationState.subscriptions);
  CorrelationState.subscription_tombstones := r.(CorrelationState.subscription_tombstones);
  CorrelationState.awaiting_content := r.(CorrelationState.awaiting_content)
|}.

Definition CorrelationState_set_subscriptions (v : gset Z) (r : CorrelationState) : CorrelationState := {|
  CorrelationState.last_incoming_request_id := r.(CorrelationState.last_incoming_request_id);
  CorrelationState.last_outgoing_request_id := r.(CorrelationState.last_outgoing_request_id);
  CorrelationState.incoming_pending := r.(CorrelationState.incoming_pending);
  CorrelationState.outgoing_pending := r.(CorrelationState.outgoing_pending);
  CorrelationState.subscriptions := v;
  CorrelationState.subscription_tombstones := r.(CorrelationState.subscription_tombstones);
  CorrelationState.awaiting_content := r.(CorrelationState.awaiting_content)
|}.

Definition CorrelationState_set_subscription_tombstones (v : gmap Z bool) (r : CorrelationState) : CorrelationState := {|
  CorrelationState.last_incoming_request_id := r.(CorrelationState.last_incoming_request_id);
  CorrelationState.last_outgoing_request_id := r.(CorrelationState.last_outgoing_request_id);
  CorrelationState.incoming_pending := r.(CorrelationState.incoming_pending);
  CorrelationState.outgoing_pending := r.(CorrelationState.outgoing_pending);
  CorrelationState.subscriptions := r.(CorrelationState.subscriptions);
  CorrelationState.subscription_tombstones := v;
  CorrelationState.awaiting_content := r.(CorrelationState.awaiting_content)
|}.

Definition CorrelationState_set_awaiting_content (v : gmap Z ExpectedContent) (r : CorrelationState) : CorrelationState := {|
  CorrelationState.last_incoming_request_id := r.(CorrelationState.last_incoming_request_id);
  CorrelationState.last_outgoing_request_id := r.(CorrelationState.last_outgoing_request_id);
  CorrelationState.incoming_pending := r.(CorrelationState.incoming_pending);
  CorrelationState.outgoing_pending := r.(CorrelationState.outgoing_pending);
  CorrelationState.subscriptions := r.(CorrelationState.subscriptions);
  CorrelationState.subscription_tombstones := r.(CorrelationState.subscription_tombstones);
  CorrelationState.awaiting_content := v
|}.

Definition CorrelationState_default : CorrelationState :=
  CorrelationState.mk 0 0 ∅ ∅ ∅ ∅ ∅.

Definition transport_check := result unit TransportError.

(** ** Operations *)

Section operations.
Context (sha256_hex : list ascii → string).
Implicit Types s : CorrelationState.

Definition pending_count s : Z :=
  Z.of_nat (size s.(CorrelationState.incoming_pending)) + Z.of_nat (size s.(CorrelationState.outgoing_pending)).

Definition subscription_count s : Z := Z.of_nat (size s.(CorrelationState.subscriptions)).

Definition check_pending_limit s : transport_check :=
  if MAX_PENDING_REQUESTS <=? pending_count s then Err TransportError.RateLimited else Ok tt.

Definition begin_incoming_request (request_id : Z) s : CorrelationState * transport_check :=
  match check_pending_limit s with
  | Err e => (s, Err e)
  | Ok _ =>
      if (request_id =? 0) || (request_id <=? s.(CorrelationState.last_incoming_request_id))
      then (s, Err TransportError.MalformedFrame)
      else
        let s := CorrelationState_set_last_incoming_request_id request_id s in
        if bool_decide (request_id ∈ s.(CorrelationState.incoming_pending))
        then (s, Err TransportError.MalformedFrame)
        else (CorrelationState_set_incoming_pending ({[request_id]} ∪ s.(CorrelationState.incoming_pending)) s, Ok tt)
  end.

Definition complete_incoming_request (request_id : Z) s : CorrelationState * transport_check :=
  if (request_id =? 0) || negb (bool_decide (request_id ∈ s.(CorrelationState.incoming_pending)))
  then (s, Err TransportError.MalformedFrame)
  else
    let s := CorrelationState_set_incoming_pending (s.(CorrelationState.incoming_pending) ∖ {[request_id]}) s in
    (CorrelationState_set_awaiting_content (delete request_id s.(CorrelationState.awaiting_content)) s, Ok tt).

Definition begin_outgoing_request (request_id : Z) (expected : ExpectedResponse) s :
    CorrelationState * transport_check :=
  match check_pending_limit s with
  | Err e => (s, Err e)
  | Ok _ =>
      if (request_id =? 0) || (request_id <=? s.(CorrelationState.last_outgoing_request_id))
      then (s, Err TransportError.MalformedFrame)
      else
        let previous := s.(CorrelationState.outgoing_pending) !! request_id in
        let s := CorrelationState_set_last_outgoing_request_id request_id s in
        let s := CorrelationState_set_outgoing_pending
                   (<[request_id := expected]> s.(CorrelationState.outgoing_pending)) s in
        (s, if is_some previous then Err TransportError.MalformedFrame else Ok tt)
  end.

Definition accept_response (frame : ControlFrame) s : CorrelationState * transport_check :=
  match response_shape frame with
  | Err e => (s, Err e)
  | Ok (request_id, actual) =>
      match s.(CorrelationState.outgoing_pending) !! request_id with
      | None => (s, Err TransportError.MalformedFrame)
      | Some expected =>
          (CorrelationState_set_outgoing_pending (delete request_id s.(CorrelationState.outgoing_pending)) s,
           if bool_decide (expected = actual) then Ok tt else Err TransportError.MalformedFrame)
      end
  end.

Definition open_subscription (subscription_id : Z) s : CorrelationState * transport_check :=
  if (subscription_id =? 0) || bool_decide (subscription_id ∈ s.(CorrelationState.subscriptions))
     || is_some (s.(CorrelationState.subscription_tombstones) !! subscription_id)
  then (s, Err TransportError.MalformedFrame)
  else if MAX_ACTIVE_SUBSCRIPTIONS <=? subscription_count s
  then (s, Err TransportError.TooManySubscriptions)
  else (CorrelationState_set_subscriptions ({[subscription_id]} ∪ s.(CorrelationState.subscriptions)) s, Ok tt).

Definition require_subscription (subscription_id : Z) s : transport_check :=
  if negb (subscription_id =? 0) && bool_decide (subscription_id ∈ s.(CorrelationState.subscriptions))
  then Ok tt else Err TransportError.MalformedFrame.

Definition remove_subscription (subscription_id : Z) (acknowledged : bool) s : CorrelationState :=
  let s := CorrelationState_set_subscriptions (s.(CorrelationState.subscriptions) ∖ {[subscription_id]}) s in
  CorrelationState_set_subscription_tombstones
    (<[subscription_id := acknowledged]> s.(CorrelationState.subscription_tombstones)) s.

Definition close_subscription (subscription_id : Z) s : CorrelationState * transport_check :=
  if (subscription_id =? 0) || negb (bool_decide (subscription_id ∈ s.(CorrelationState.subscriptions)))
  then (s, Err TransportError.MalformedFrame)
  else (remove_subscription subscription_id true s, Ok tt).

Definition validate_subscription_gap (error : CanonicalError) : transport_check :=
  if bool_decide (error.(CanonicalError.code) = ErrorCode.CursorGap) && error.(CanonicalError.retriable)
     && is_none error.(CanonicalError.detail_ref)
  then Ok tt else Err TransportError.MalformedFrame.

Definition close_subscription_for_gap (subscription_id : Z) (error : CanonicalError) s :
    CorrelationState * transport_check :=
  match validate_subscription_gap error with
  | Err e => (s, Err e)
  | Ok _ =>
      if (subscription_id =? 0) || negb (bool_decide (subscription_id ∈ s.(CorrelationState.subscriptions)))
      then (s, Err TransportError.MalformedFrame)
      else
        let previous := s.(CorrelationState.subscription_tombstones) !! subscription_id in
        (remove_subscription subscription_id false s,
         if is_some previous then Err TransportError.MalformedFrame else Ok tt)
  end.

Definition unsubscribe (subscription_id : Z) s :
    CorrelationState * result UnsubscribeDisposition TransportError :=
  if subscription_id =? 0 then (s, Err TransportError.MalformedFrame)
  else if bool_decide (subscription_id ∈ s.(CorrelationState.subscriptions))
  then (remove_subscription subscription_id true s, Ok UnsubscribeDisposition.Active)
  else
    match s.(CorrelationState.subscription_tombstones) !! subscription_id with
    | None => (s, Err TransportError.MalformedFrame)
    | Some acknowledged =>
        if (acknowledged : bool) then (s, Err TransportError.MalformedFrame)
        else (CorrelationState_set_subscription_tombstones
                (<[subscription_id := true]> s.(CorrelationState.subscription_tombstones)) s,
              Ok UnsubscribeDisposition.TombstonedAfterGap)
    end.

Definition expect_content (request_id : Z) (request : ContentWriteRequest) s : CorrelationState * transport_check :=
  match ContentWriteRequest_validate request with
  | Err _ => (s, Err TransportError.MalformedFrame)
  | Ok _ =>
      if negb (bool_decide (request_id ∈ s.(CorrelationState.incoming_pending)))
      then (s, Err TransportError.MalformedFrame)
      else
        let previous := s.(CorrelationState.awaiting_content) !! request_id in
        let expected := ExpectedContent.mk request.(ContentWriteRequest.byte_len) request.(ContentWriteRequest.digest) in
        (CorrelationState_set_awaiting_content
           (<[request_id := expected]> s.(CorrelationState.awaiting_content)) s,
         if is_some previous then Err TransportError.MalformedFrame else Ok tt)
  end.

Definition bind_content (frame : Frame) s : CorrelationState * result (Z * list ascii) TransportError :=
  match frame with
  | Frame.Control _ => (s, Err TransportError.MalformedFrame)
  | Frame.Content request_id body =>
      match s.(CorrelationState.awaiting_content) !! request_id with
      | None => (s, Err TransportError.MalformedFrame)
      | Some expected =>
          let s := CorrelationState_set_awaiting_content (delete request_id s.(CorrelationState.awaiting_content)) s in
          let actual_digest := "sha256:" +:+ sha256_hex body in
          if negb (Z.of_nat (length body) =? expected.(ExpectedContent.byte_len))
             || negb (bool_decide (actual_digest = expected.(ExpectedContent.digest)))
          then (CorrelationState_set_incoming_pending (s.(CorrelationState.incoming_pending) ∖ {[request_id]}) s,
                Err TransportError.MalformedFrame)
          else (s, Ok (request_id, body))
      end
  end.

Definition cancel_all s : CorrelationState :=
  CorrelationState.mk s.(CorrelationState.last_incoming_request_id) s.(CorrelationState.last_outgoing_request_id)
    ∅ ∅ ∅ ∅ ∅.
End operations.

(** ** Sequences of calls *)

Section calls.
Context (sha256_hex : list ascii → string).
Implicit Types s : CorrelationState.

Inductive CorrelationCall : Type :=
| BeginIncoming (request_id : Z)
| CompleteIncoming (request_id : Z)
| BeginOutgoing (request_id : Z) (expected : ExpectedResponse)
| AcceptResponse (frame : ControlFrame)
| OpenSubscription (subscription_id : Z)
| CloseSubscription (subscription_id : Z)
| CloseSubscriptionForGap (subscription_id : Z) (error : CanonicalError)
| Unsubscribe (subscription_id : Z)
| ExpectContent (request_id : Z) (request : ContentWriteRequest)
| BindContent (frame : Frame)
| CancelAll.

(** The state after a call, and whether the call was accepted. *)
Definition accept {T} (r : CorrelationState * result T TransportError) : CorrelationState * bool :=
  (r.1, is_ok r.2).

Definition apply_call (call : CorrelationCall) s : CorrelationState * bool :=
  match call with
  | BeginIncoming request_id => accept (begin_incoming_request request_id s)
  | CompleteIncoming request_id => accept (complete_incoming_request request_id s)
  | BeginOutgoing request_id expected => accept (begin_outgoing_request request_id expected s)
  | AcceptResponse frame => accept (accept_response frame s)
  | OpenSubscription subscription_id => accept (open_subscription subscription_id s)
  | CloseSubscription subscription_id => accept (close_subscription subscription_id s)
  | CloseSubscriptionForGap subscription_id error => accept (close_subscription_for_gap subscription_id error s)
  | Unsubscribe subscription_id => accept (unsubscribe subscription_id s)
  | ExpectContent request_id request => accept (expect_content request_id request s)
  | BindContent frame => accept (bind_content sha256_hex frame s)
  | CancelAll => (cancel_all s, true)
  end.

(** The state after all calls, whatever was refused on the way ... *)
Definition run_calls (calls : list CorrelationCall) : CorrelationState :=
  foldl (λ s call, (apply_call call s).1) CorrelationState_default calls.

(** ... and whether none was. *)
Fixpoint all_accepted s (calls : list CorrelationCall) : bool :=
  match calls with
  | [] => true
  | call :: calls => (apply_call call s).2 && all_accepted (apply_call call s).1 calls
  end.

Lemma run_calls_snoc calls call : run_calls (calls ++ [call]) = (apply_call call (run_calls calls)).1.
Proof. unfold run_calls. by rewrite foldl_app. Qed.

Lemma all_accepted_snoc s calls call :
  all_accepted s (calls ++ [call]) =
  all_accepted s calls && (apply_call call (foldl (λ s call, (apply_call call s).1) s calls)).2.
Proof.
  revert s. induction calls as [|c calls IH]; intros s; simpl; [by rewrite andb_comm|].
  by rewrite IH, andb_assoc.
Qed.

Record correlation_inv s : Prop := {
  inv_last : 0 ≤ s.(CorrelationState.last_incoming_request_id) ∧ 0 ≤ s.(CorrelationState.last_outgoing_request_id);
  inv_pending : pending_count s ≤ MAX_PENDING_REQUESTS;
  inv_subscriptions : subscription_count s ≤ MAX_ACTIVE_SUBSCRIPTIONS;
  inv_incoming id : id ∈ s.(CorrelationState.incoming_pending) → 0 < id ≤ s.(CorrelationState.last_incoming_request_id);
  inv_outgoing id : is_Some (s.(CorrelationState.outgoing_pending) !! id) →
    0 < id ≤ s.(CorrelationState.last_outgoing_request_id);
  inv_tombstones id : id ∈ s.(CorrelationState.subscriptions) → s.(CorrelationState.subscription_tombstones) !! id = None;
  inv_awaiting id : is_Some (s.(CorrelationState.awaiting_content) !! id) → id ∈ s.(CorrelationState.incoming_pending)
}.

Lemma size_union_fresh (X : gset Z) x : x ∉ X → size ({[x]} ∪ X) = S (size X).
Proof. intros Hx. rewrite size_union by set_solver. by rewrite size_singleton. Qed.

Lemma size_difference_le (X Y : gset Z) : (size (X ∖ Y) ≤ size X)%nat.
Proof. apply subseteq_size. set_solver. Qed.

Lemma delete_size_le {A} (m : gmap Z A) i : (size (delete i m) ≤ size m)%nat.
Proof. rewrite map_size_delete. case_match; unfold id; lia. Qed.

(** The only accepted begin is of a fresh identifier with room left. *)
Lemma begin_incoming_cases request_id s s' r :
  begin_incoming_request request_id s = (s', r) → correlation_inv s →
  (s' = s ∧ r ≠ Ok tt) ∨
  (r = Ok tt ∧ pending_count s < MAX_PENDING_REQUESTS ∧ s.(CorrelationState.last_incoming_request_id) < request_id ∧
   request_id ∉ s.(CorrelationState.incoming_pending) ∧
   s' = CorrelationState_set_incoming_pending ({[request_id]} ∪ s.(CorrelationState.incoming_pending))
          (CorrelationState_set_last_incoming_request_id request_id s)).
Proof.
  unfold begin_incoming_request, check_pending_limit. intros H Hi. revert H.
  destruct (Z.leb_spec MAX_PENDING_REQUESTS (pending_count s)); [intros [= <- <-]; by left|].
  destruct (Z.eqb_spec request_id 0); simpl; [intros [= <- <-]; by left|].
  destruct (Z.leb_spec request_id (CorrelationState.last_incoming_request_id s)); [intros [= <- <-]; by left|].
  case_bool_decide as Hin; simpl in Hin; [apply (inv_incoming _ Hi) in Hin; lia|].
  intros [= <- <-]. right. done.
Qed.

Lemma begin_incoming_inv request_id s : correlation_inv s → correlation_inv (begin_incoming_request request_id s).1.
Proof.
  intros Hi. destruct (begin_incoming_request request_id s) as [s' r] eqn:E.
  destruct (begin_incoming_cases _ _ _ _ E Hi) as [[-> _]|(_ & Hp & Hl & Hn & ->)]; [done|].
  destruct Hi as [H1 H2 H3 H4 H5 H6 H7]. split; simpl; try done.
  - lia.
  - unfold pending_count in *. simpl. rewrite size_union_fresh by done. lia.
  - intros id. rewrite elem_of_union, elem_of_singleton. intros [->|Hid]; [lia|]. apply H4 in Hid. lia.
  - intros id Hid. apply H7 in Hid. set_solver.
Qed.

Lemma begin_outgoing_cases request_id expected s s' r :
  begin_outgoing_request request_id expected s = (s', r) → correlation_inv s →
  (s' = s ∧ r ≠ Ok tt) ∨
  (r = Ok tt ∧ pending_count s < MAX_PENDING_REQUESTS ∧ s.(CorrelationState.last_outgoing_request_id) < request_id ∧
   s.(CorrelationState.outgoing_pending) !! request_id = None ∧
   s' = CorrelationState_set_outgoing_pending (<[request_id := expected]> s.(CorrelationState.outgoing_pending))
          (CorrelationState_set_last_outgoing_request_id request_id s)).
Proof.
  unfold begin_outgoing_request, check_pending_limit. intros H Hi. revert H.
  destruct (Z.leb_spec MAX_PENDING_REQUESTS (pending_count s)); [intros [= <- <-]; by left|].
  destruct (Z.eqb_spec request_id 0); simpl; [intros [= <- <-]; by left|].
  destruct (Z.leb_spec request_id (CorrelationState.last_outgoing_request_id s)); [intros [= <- <-]; by left|].
  assert (s.(CorrelationState.outgoing_pending) !! request_id = None) as Hn.
  { apply eq_None_not_Some. intros Hs%(inv_outgoing _ Hi). lia. }
  rewrite Hn. intros [= <- <-]. right. done.
Qed.

Lemma begin_outgoing_inv request_id expected s :
  correlation_inv s → correlation_inv (begin_outgoing_request request_id expected s).1.
Proof.
  intros Hi. destruct (begin_outgoing_request request_id expected s) as [s' r] eqn:E.
  destruct (begin_outgoing_cases _ _ _ _ _ E Hi) as [[-> _]|(_ & Hp & Hl & Hn & ->)]; [done|].
  destruct Hi as [H1 H2 H3 H4 H5 H6 H7]. split; simpl; try done.
  - lia.
  - unfold pending_count in *. simpl. rewrite map_size_insert_None by done. lia.
  - intros id. rewrite lookup_insert_is_Some. intros [<-|[_ Hid]]; [lia|]. apply H5 in Hid. lia.
Qed.

(** Whatever is removed from the tables, with the same last identifiers, keeps
    the invariant. *)
Lemma shrink_inv s s' :
  correlation_inv s →
  s'.(CorrelationState.last_incoming_request_id) = s.(CorrelationState.last_incoming_request_id) →
  s'.(CorrelationState.last_outgoing_request_id) = s.(CorrelationState.last_outgoing_request_id) →
  s'.(CorrelationState.incoming_pending) ⊆ s.(CorrelationState.incoming_pending) →
  s'.(CorrelationState.outgoing_pending) ⊆ s.(CorrelationState.outgoing_pending) →
  s'.(CorrelationState.subscriptions) ⊆ s.(CorrelationState.subscriptions) →
  (∀ id, id ∈ s'.(CorrelationState.subscriptions) → s'.(CorrelationState.subscription_tombstones) !! id = None) →
  (∀ id, is_Some (s'.(CorrelationState.awaiting_content) !! id) → id ∈ s'.(CorrelationState.incoming_pending)) →
  correlation_inv s'.
Proof.
  intros [H1 H2 H3 H4 H5 H6 H7] E1 E2 S1 S2 S3 T A. split; rewrite ?E1, ?E2; try done.
  - unfold pending_count in *. apply subseteq_size in S1. apply map_subseteq_size in S2. lia.
  - unfold subscription_count in *. apply subseteq_size in S3. lia.
  - intros id Hid. apply H4. set_solver.
  - intros id [e He]. apply H5. exists e. by eapply lookup_weaken.
Qed.

Lemma complete_incoming_inv request_id s :
  correlation_inv s → correlation_inv (complete_incoming_request request_id s).1.
Proof.
  intros Hi. unfold complete_incoming_request. case_match; [done|]. simpl.
  apply (shrink_inv s _ Hi); simpl; try done; [set_solver|apply Hi|].
  intros id. rewrite lookup_delete_is_Some. intros [Hne Hid%(inv_awaiting _ Hi)]. set_solver.
Qed.

Lemma accept_response_inv frame s : correlation_inv s → correlation_inv (accept_response frame s).1.
Proof.
  intros Hi. unfold accept_response. destruct (response_shape frame) as [[request_id actual]|]; [|done].
  destruct (_ !! request_id) eqn:E; [|done]. simpl.
  apply (shrink_inv s _ Hi); simpl; try done; [apply delete_subseteq|apply Hi..].
Qed.

Lemma open_subscription_inv subscription_id s :
  correlation_inv s → correlation_inv (open_subscription subscription_id s).1.
Proof.
  intros Hi. unfold open_subscription.
  destruct (_ || _) eqn:E; [done|]. rewrite !orb_false_iff, bool_decide_eq_false in E. destruct E as [[Hz Hn] Ht].
  destruct (Z.leb_spec MAX_ACTIVE_SUBSCRIPTIONS (subscription_count s)); [done|].
  destruct Hi as [H1 H2 H3 H4 H5 H6 H7]. split; simpl; try done.
  - unfold subscription_count in *. simpl. rewrite size_union_fresh by done. lia.
  - intros id. rewrite elem_of_union, elem_of_singleton. intros [->|Hid]; [|by apply H6].
    destruct (_ !! subscription_id); done.
Qed.

Lemma remove_subscription_inv subscription_id acknowledged s :
  correlation_inv s → correlation_inv (remove_subscription subscription_id acknowledged s).
Proof.
  intros Hi. unfold remove_subscription.
  apply (shrink_inv s _ Hi); simpl; try done; [set_solver| |apply Hi].
  intros id [Hid Hne]%elem_of_difference. rewrite lookup_insert_ne by set_solver. by apply Hi.
Qed.

Lemma unsubscribe_inv subscription_id s : correlation_inv s → correlation_inv (unsubscribe subscription_id s).1.
Proof.
  intros Hi. unfold unsubscribe. case_match; [done|].
  case_bool_decide as Hin; [by apply remove_subscription_inv|].
  destruct (_ !! subscription_id) as [[]|] eqn:E; try done. simpl.
  apply (shrink_inv s _ Hi); simpl; try done; [|apply Hi].
  intros id Hid. rewrite lookup_insert_ne by congruence. by apply Hi.
Qed.

Lemma expect_content_inv request_id request s :
  correlation_inv s → correlation_inv (expect_content request_id request s).1.
Proof.
  intros Hi. unfold expect_content. destruct (ContentWriteRequest_validate request); [|done].
  case_bool_decide as Hin; [|done]. simpl.
  apply (shrink_inv s _ Hi); simpl; try done; [apply Hi|].
  intros id. rewrite lookup_insert_is_Some. intros [<-|[_ Hid]]; [done|]. by apply Hi.
Qed.

Lemma bind_content_inv frame s : correlation_inv s → correlation_inv (bind_content sha256_hex frame s).1.
Proof.
  intros Hi. unfold bind_content. destruct frame as [|request_id body]; [done|].
  destruct (_ !! request_id) as [expected|] eqn:E; [|done].
  case_match; simpl; apply (shrink_inv s _ Hi); simpl; try done; try (by apply Hi); try set_solver;
    intros id; rewrite lookup_delete_is_Some; intros [Hne Hid%(inv_awaiting _ Hi)]; set_solver.
Qed.

Lemma apply_call_inv call s : correlation_inv s → correlation_inv (apply_call call s).1.
Proof.
  intros Hi. destruct call; simpl.
  - by apply begin_incoming_inv.
  - by apply complete_incoming_inv.
  - by apply begin_outgoing_inv.
  - by apply accept_response_inv.
  - by apply open_subscription_inv.
  - unfold close_subscription. case_match; [done|]. by apply remove_subscription_inv.
  - unfold close_subscription_for_gap. destruct (validate_subscription_gap error); [|done].
    case_match; [done|]. by apply remove_subscription_inv.
  - by apply unsubscribe_inv.
  - by apply expect_content_inv.
  - by apply bind_content_inv.
  - apply (shrink_inv s _ Hi); simpl; try done.
    + apply map_empty_subseteq.
    + intros id. rewrite lookup_empty. by intros [].
Qed.

Lemma run_calls_inv calls : correlation_inv (run_calls calls).
Proof.
  induction calls as [|call calls IH] using rev_ind.
  - split; simpl; try done; intros id; rewrite ?lookup_empty; try (by intros []); set_solver.
  - rewrite run_calls_snoc. by apply apply_call_inv.
Qed.

(** After any sequence of calls, accepted or refused, a connection holds at most 32 requests in flight and 16
    subscriptions, a closed subscription identifier is never active, and a body is awaited only for a request
    in flight. *)
Theorem correlation_is_bounded calls :
  let s := run_calls calls in
  pending_count s ≤ MAX_PENDING_REQUESTS ∧ subscription_count s ≤ MAX_ACTIVE_SUBSCRIPTIONS ∧
  (∀ id, id ∈ s.(CorrelationState.subscriptions) → s.(CorrelationState.subscription_tombstones) !! id = None) ∧
  (∀ id, is_Some (s.(CorrelationState.awaiting_content) !! id) → id ∈ s.(CorrelationState.incoming_pending)).
Proof. intros s. destruct (run_calls_inv calls). done. Qed.

(** ** What an accepted exchange says *)

Definition incoming_ids (calls : list CorrelationCall) : list Z :=
  filter_map (λ call, match call with BeginIncoming request_id => Some request_id | _ => None end) calls.

Definition outgoing_requests (calls : list CorrelationCall) : list (Z * ExpectedResponse) :=
  filter_map (λ call, match call with BeginOutgoing request_id expected => Some (request_id, expected) | _ => None end) calls.

Definition responses (calls : list CorrelationCall) : list (Z * ExpectedResponse) :=
  filter_map (λ call, match call with
                      | AcceptResponse frame => match response_shape frame with Ok shape => Some shape | Err _ => None end
                      | _ => None
                      end) calls.

(** The body is what the header of the same request announced. *)
Definition announced (calls : list CorrelationCall) (request_id : Z) (expected : ExpectedContent) : Prop :=
  ∃ request, ExpectContent request_id request ∈ calls ∧
    expected = ExpectedContent.mk request.(ContentWriteRequest.byte_len) request.(ContentWriteRequest.digest).

Record exchange_inv s calls : Prop := {
  ex_incoming : StronglySorted Z.lt (incoming_ids calls);
  ex_incoming_last id : id ∈ incoming_ids calls → id ≤ s.(CorrelationState.last_incoming_request_id);
  ex_outgoing : StronglySorted Z.lt (outgoing_requests calls).*1;
  ex_outgoing_last id : id ∈ (outgoing_requests calls).*1 → id ≤ s.(CorrelationState.last_outgoing_request_id);
  ex_waiting id expected : s.(CorrelationState.outgoing_pending) !! id = Some expected →
    (id, expected) ∈ outgoing_requests calls ∧ id ∉ (responses calls).*1;
  ex_responses : NoDup (responses calls).*1;
  ex_answered shape : shape ∈ responses calls → shape ∈ outgoing_requests calls;
  ex_awaiting id expected : s.(CorrelationState.awaiting_content) !! id = Some expected → announced calls id expected;
  ex_bound id body : BindContent (Frame.Content id body) ∈ calls →
    announced calls id (ExpectedContent.mk (Z.of_nat (length body)) ("sha256:" +:+ sha256_hex body))
}.

(** A call that only removes from the tables and is none of the recorded ones. *)
Definition unrecorded (call : CorrelationCall) : bool :=
  match call with
  | BeginIncoming _ | BeginOutgoing _ _ | AcceptResponse _ | BindContent _ => false
  | _ => true
  end.

Lemma announced_more calls call id expected : announced calls id expected → announced (calls ++ [call]) id expected.
Proof. intros (request & Hin & ->). exists request. by split; [apply elem_of_app; left|]. Qed.

Lemma exchange_unrecorded s s' calls call :
  exchange_inv s calls → unrecorded call = true →
  s'.(CorrelationState.last_incoming_request_id) = s.(CorrelationState.last_incoming_request_id) →
  s'.(CorrelationState.last_outgoing_request_id) = s.(CorrelationState.last_outgoing_request_id) →
  s'.(CorrelationState.outgoing_pending) ⊆ s.(CorrelationState.outgoing_pending) →
  (∀ id expected, s'.(CorrelationState.awaiting_content) !! id = Some expected → announced (calls ++ [call]) id expected) →
  exchange_inv s' (calls ++ [call]).
Proof.
  intros [H1 H2 H3 H4 H5 H6 H7 H8 H9] Hu E1 E2 S1 A.
  assert (incoming_ids (calls ++ [call]) = incoming_ids calls ∧
          outgoing_requests (calls ++ [call]) = outgoing_requests calls ∧
          responses (calls ++ [call]) = responses calls) as (E3 & E4 & E5).
  { unfold incoming_ids, outgoing_requests, responses. rewrite !filter_map_app.
    destruct call; try done; simpl; by rewrite !app_nil_r. }
  split; rewrite ?E1, ?E2, ?E3, ?E4, ?E5; try done.
  - intros id e He. apply H5. by eapply lookup_weaken.
  - intros id body [Hin|Hin]%elem_of_app; [by apply announced_more, H9|].
    apply list_elem_of_singleton in Hin. by subst call.
Qed.

Lemma sorted_snoc (l : list Z) x :
  StronglySorted Z.lt l → (∀ y, y ∈ l → y < x) → StronglySorted Z.lt (l ++ [x]).
Proof.
  intros Hs Hx. apply StronglySorted_app_2; [|done|repeat constructor].
  intros y z Hy ->%list_elem_of_singleton. by apply Hx.
Qed.

Lemma elem_of_snoc_old {A} (l : list A) x y : x ∈ l → x ∈ l ++ [y].
Proof. intros. apply elem_of_app. by left. Qed.

Lemma exchange_begin_incoming s calls request_id :
  correlation_inv s → exchange_inv s calls → (apply_call (BeginIncoming request_id) s).2 = true →
  exchange_inv (apply_call (BeginIncoming request_id) s).1 (calls ++ [BeginIncoming request_id]).
Proof.
  intros Hi [H1 H2 H3 H4 H5 H6 H7 H8 H9]. simpl.
  destruct (begin_incoming_request request_id s) as [s' r] eqn:E. simpl. intros Hok.
  destruct (begin_incoming_cases _ _ _ _ E Hi) as [[-> Hr]|(_ & _ & Hl & _ & ->)]; [by destruct r as [[]|]|].
  split; unfold incoming_ids, outgoing_requests, responses in *; rewrite ?filter_map_app; simpl; rewrite ?app_nil_r; try done.
  - apply sorted_snoc; [done|]. intros y Hy%H2. lia.
  - intros id [Hid%H2| ->%list_elem_of_singleton]%elem_of_app; lia.
  - intros id e He. by apply announced_more, H8.
  - intros id body [Hin|[=]%list_elem_of_singleton]%elem_of_app. by apply announced_more, H9.
Qed.

Lemma exchange_begin_outgoing s calls request_id expected :
  correlation_inv s → exchange_inv s calls → (apply_call (BeginOutgoing request_id expected) s).2 = true →
  exchange_inv (apply_call (BeginOutgoing request_id expected) s).1 (calls ++ [BeginOutgoing request_id expected]).
Proof.
  intros Hi [H1 H2 H3 H4 H5 H6 H7 H8 H9]. simpl.
  destruct (begin_outgoing_request request_id expected s) as [s' r] eqn:E. simpl. intros Hok.
  destruct (begin_outgoing_cases _ _ _ _ _ E Hi) as [[-> Hr]|(_ & _ & Hl & _ & ->)]; [by destruct r as [[]|]|].
  split; unfold incoming_ids, outgoing_requests, responses in *; rewrite ?filter_map_app; simpl;
    rewrite ?app_nil_r, ?fmap_app; try done.
  - apply sorted_snoc; [done|]. intros y Hy%H4. simpl. lia.
  - intros id [Hid%H4| ->%list_elem_of_singleton]%elem_of_app; simpl; lia.
  - intros id e [[<- <-]|[Hne He%H5]]%lookup_insert_Some.
    + split; [apply elem_of_app; right; by left|]. intros (shape & -> & Hs%H7)%list_elem_of_fmap.
      apply (list_elem_of_fmap_2 fst), H4 in Hs. lia.
    + destruct He. split; [by apply elem_of_snoc_old|done].
  - intros shape Hs%H7. by apply elem_of_snoc_old.
  - intros id e He. by apply announced_more, H8.
  - intros id body [Hin|[=]%list_elem_of_singleton]%elem_of_app. by apply announced_more, H9.
Qed.

Lemma exchange_accept_response s calls frame :
  exchange_inv s calls → (apply_call (AcceptResponse frame) s).2 = true →
  exchange_inv (apply_call (AcceptResponse frame) s).1 (calls ++ [AcceptResponse frame]).
Proof.
  intros [H1 H2 H3 H4 H5 H6 H7 H8 H9]. simpl. unfold accept_response.
  destruct (response_shape frame) as [[request_id actual]|] eqn:Hshape; [|done].
  destruct (_ !! request_id) as [expected|] eqn:Hp; [|done]. simpl.
  case_bool_decide as Heq; [|done]. subst actual. intros _. destruct (H5 _ _ Hp) as [Hreq Hfresh].
  split; unfold incoming_ids, outgoing_requests, responses in *; rewrite ?filter_map_app; simpl;
    rewrite ?Hshape; simpl; rewrite ?app_nil_r, ?fmap_app; try done.
  - intros id e [Hne He%H5]%lookup_delete_Some. destruct He as [? Hn]. split; [done|].
    rewrite elem_of_app. intros [| ->%list_elem_of_singleton]; done.
  - apply NoDup_app. split; [done|]. split; [|apply NoDup_singleton].
    intros x Hx ->%list_elem_of_singleton. done.
  - intros shape [Hs| ->%list_elem_of_singleton]%elem_of_app; [by apply H7|done].
  - intros id e He. by apply announced_more, H8.
  - intros id body [Hin|[=]%list_elem_of_singleton]%elem_of_app. by apply announced_more, H9.
Qed.

Lemma exchange_bind_content s calls frame :
  exchange_inv s calls → (apply_call (BindContent frame) s).2 = true →
  exchange_inv (apply_call (BindContent frame) s).1 (calls ++ [BindContent frame]).
Proof.
  intros [H1 H2 H3 H4 H5 H6 H7 H8 H9]. simpl. unfold bind_content.
  destruct frame as [|request_id body]; [done|].
  destruct (_ !! request_id) as [[byte_len digest]|] eqn:Hp; [|done].
  destruct (_ || _) eqn:Hm; [done|]. intros _. apply orb_false_iff in Hm as [Hlen Hdig].
  apply negb_false_iff in Hlen, Hdig. apply Z.eqb_eq in Hlen. apply bool_decide_eq_true in Hdig. simpl in *.
  split; unfold incoming_ids, outgoing_requests, responses in *; rewrite ?filter_map_app; simpl;
    rewrite ?app_nil_r; try done.
  - intros id e [_ He]%lookup_delete_Some. by apply announced_more, H8.
  - intros id body' [Hin|[= -> ->]%list_elem_of_singleton]%elem_of_app; apply announced_more; [by apply H9|].
    rewrite Hlen, Hdig. by apply H8.
Qed.

Lemma exchange_step s calls call :
  correlation_inv s → exchange_inv s calls → (apply_call call s).2 = true →
  exchange_inv (apply_call call s).1 (calls ++ [call]).
Proof.
  intros Hi Hx Hok.
  assert (∀ id e, s.(CorrelationState.awaiting_content) !! id = Some e → announced (calls ++ [call]) id e) as Hold.
  { intros id e He. by apply announced_more, Hx. }
  destruct call; try (by apply exchange_begin_incoming); try (by apply exchange_begin_outgoing);
    try (by apply exchange_accept_response); try (by apply exchange_bind_content);
    apply (exchange_unrecorded s); try done; revert Hok; simpl;
    unfold complete_incoming_request, open_subscription, close_subscription, close_subscription_for_gap,
      unsubscribe, expect_content, remove_subscription; repeat case_match; simpl; try done.
  - intros _ id e [_ He]%lookup_delete_Some. by apply Hold.
  - intros _ id e [[<- <-]|[_ He]]%lookup_insert_Some; [|by apply Hold].
    exists request. split; [apply elem_of_app; right; by left|done].
  - intros _. apply map_empty_subseteq.
Qed.

(** C31: In every exchange none of whose calls is refused, request identifiers strictly increase in
    each direction, every response answers an earlier request of exactly the expected kind and no
    request is answered twice, and every bound body has the length and digest that a header of the
    same request announced. *)
Theorem accepted_exchange_is_correlated calls :
  all_accepted CorrelationState_default calls = true →
  StronglySorted Z.lt (incoming_ids calls) ∧
  StronglySorted Z.lt (outgoing_requests calls).*1 ∧
  NoDup (responses calls).*1 ∧
  (∀ shape, shape ∈ responses calls → shape ∈ outgoing_requests calls) ∧
  (∀ id body, BindContent (Frame.Content id body) ∈ calls →
     announced calls id (ExpectedContent.mk (Z.of_nat (length body)) ("sha256:" +:+ sha256_hex body))).
Proof.
  intros Hok. assert (exchange_inv (run_calls calls) calls) as Hx; [|by destruct Hx].
  induction calls as [|call calls IH] using rev_ind.
  - split; try (by constructor); intros *; set_solver.
  - rewrite all_accepted_snoc, andb_true_iff in Hok. destruct Hok as [Hc Hl].
    rewrite run_calls_snoc. apply exchange_step; [apply run_calls_inv | by apply IH | done].
Qed.
End calls.
