(* ===== verification/TransportLimits.v ===== *)
(** * Connection stages and limits

    Models [crates/kaleido-transport/src/limits.rs]: the stages a connection
    passes through with their deadlines, and the table that limits connections
    globally, before authentication, per source address and per device. *)
From stdpp Require Import prelude strings gmap.
From Stdlib Require Import ZArith Lia Ascii.
From S2P Require Import Prelude ProtoBase ProtoContent ProtoRuntime ProtoCommand ProtoProjection TransportControl TransportFrame TransportCorrelation.

Local Open Scope Z_scope.

(** ** The stages of a connection *)

Module ConnectionStage.
Inductive ConnectionStage : Type :=
| TlsHandshake
| TransportHello
| UacpHello
| Authentication
| Authenticated
| Closed.
End ConnectionStage.
Abbreviation ConnectionStage := ConnectionStage.ConnectionStage.

#[export] Instance ConnectionStage_eq_dec : EqDecision ConnectionStage.
Proof. solve_decision. Defined.

Module ConnectionAction.
Inductive ConnectionAction : Type :=
| SendPing
| CloseTimeout
| CloseSessionExpired.
End ConnectionAction.
Abbreviation ConnectionAction := ConnectionAction.ConnectionAction.

#[export] Instance ConnectionAction_eq_dec : EqDecision ConnectionAction.
Proof. solve_decision. Defined.

Module IoOperation.
Inductive IoOperation : Type :=
| FrameRead
| FrameWrite.
End IoOperation.
Abbreviation IoOperation := IoOperation.IoOperation.

#[export] Instance IoOperation_eq_dec : EqDecision IoOperation.
Proof. solve_decision. Defined.

Module ConnectionSession.
Record ConnectionSession : Type := mk {
  stage : ConnectionStage;
  stage_deadline_ms : Z;
  authenticated_device : option DeviceId;
  session_expires_at_ms : option Z;
  last_valid_frame_at_ms : Z;
  ping_sent : bool;
  io_deadline : option (IoOperation * Z);
  correlation : CorrelationState
}.
End ConnectionSession.
Abbreviation ConnectionSession := ConnectionSession.ConnectionSession.

Definition ConnectionSession_set_stage (v : ConnectionStage) (r : ConnectionSession) : ConnectionSession := {|
  ConnectionSession.stage := v;
  ConnectionSession.stage_deadline_ms := r.(ConnectionSession.stage_deadline_ms);
  ConnectionSession.authenticated_device := r.(ConnectionSession.authenticated_device);
  ConnectionSession.session_expires_at_ms := r.(ConnectionSession.session_expires_at_ms);
  ConnectionSession.last_valid_frame_at_ms := r.(ConnectionSession.last_valid_frame_at_ms);
  ConnectionSession.ping_sent := r.(ConnectionSession.ping_sent);
  ConnectionSession.io_deadline := r.(ConnectionSession.io_deadline);
  ConnectionSession.correlation := r.(ConnectionSession.correlation)
|}.

Definition ConnectionSession_set_stage_deadline_ms (v : Z) (r : ConnectionSession) : ConnectionSession := {|
  ConnectionSession.stage := r.(ConnectionSession.stage);
  ConnectionSession.stage_deadline_ms := v;
  ConnectionSession.authenticated_device := r.(ConnectionSession.authenticated_device);
  ConnectionSession.session_expires_at_ms := r.(ConnectionSession.session_expires_at_ms);
  ConnectionSession.last_valid_frame_at_ms := r.(ConnectionSession.last_valid_frame_at_ms);
  ConnectionSession.ping_sent := r.(ConnectionSession.ping_sent);
  ConnectionSession.io_deadline := r.(ConnectionSession.io_deadline);
  ConnectionSession.correlation := r.(ConnectionSession.correlation)
|}.

Definition ConnectionSession_set_authenticated_device (v : option DeviceId) (r : ConnectionSession) : ConnectionSession := {|
  ConnectionSession.stage := r.(ConnectionSession.stage);
  ConnectionSession.stage_deadline_ms := r.(ConnectionSession.stage_deadline_ms);
  ConnectionSession.authenticated_device := v;
  ConnectionSession.session_expires_at_ms := r.(ConnectionSession.session_expires_at_ms);
  ConnectionSession.last_valid_frame_at_ms := r.(ConnectionSession.last_valid_frame_at_ms);
  ConnectionSession.ping_sent := r.(ConnectionSession.ping_sent);
  ConnectionSession.io_deadline := r.(ConnectionSession.io_deadline);
  ConnectionSession.correlation := r.(ConnectionSession.correlation)
|}.

Definition ConnectionSession_set_session_expires_at_ms (v : option Z) (r : ConnectionSession) : ConnectionSession := {|
  ConnectionSession.stage := r.(ConnectionSession.stage);
  ConnectionSession.stage_deadline_ms := r.(ConnectionSession.stage_deadline_ms);
  ConnectionSession.authenticated_device := r.(ConnectionSession.authenticated_device);
  ConnectionSession.session_expires_at_ms := v;
  ConnectionSession.last_valid_frame_at_ms := r.(ConnectionSession.last_valid_frame_at_ms);
  ConnectionSession.ping_sent := r.(ConnectionSession.ping_sent);
  ConnectionSession.io_deadline := r.(ConnectionSession.io_deadline);
  ConnectionSession.correlation := r.(ConnectionSession.correlation)
|}.

Definition ConnectionSession_set_last_valid_frame_at_ms (v : Z) (r : ConnectionSession) : ConnectionSession := {|
  ConnectionSession.stage := r.(ConnectionSession.stage);
  ConnectionSession.stage_deadline_ms := r.(ConnectionSession.stage_deadline_ms);
  ConnectionSession.authenticated_device := r.(ConnectionSession.authenticated_device);
  ConnectionSession.session_expires_at_ms := r.(ConnectionSession.session_expires_at_ms);
  ConnectionSession.last_valid_frame_at_ms := v;
  ConnectionSession.ping_sent := r.(ConnectionSession.ping_sent);
  ConnectionSession.io_deadline := r.(ConnectionSession.io_deadline);
  ConnectionSession.correlation := r.(ConnectionSession.correlation)
|}.

Definition ConnectionSession_set_ping_sent (v : bool) (r : ConnectionSession) : ConnectionSession := {|
  ConnectionSession.stage := r.(ConnectionSession.stage);
  ConnectionSession.stage_deadline_ms := r.(ConnectionSession.stage_deadline_ms);
  ConnectionSession.authenticated_device := r.(ConnectionSession.authenticated_device);
  ConnectionSession.session_expires_at_ms := r.(ConnectionSession.session_expires_at_ms);
  ConnectionSession.last_valid_frame_at_ms := r.(ConnectionSession.last_valid_frame_at_ms);
  ConnectionSession.ping_sent := v;
  ConnectionSession.io_deadline := r.(ConnectionSession.io_deadline);
  ConnectionSession.correlation := r.(ConnectionSession.correlation)
|}.

Definition ConnectionSession_set_io_deadline (v : option (IoOperation * Z)) (r : ConnectionSession) : ConnectionSession := {|
  ConnectionSession.stage := r.(ConnectionSession.stage);
  ConnectionSession.stage_deadline_ms := r.(ConnectionSession.stage_deadline_ms);
  ConnectionSession.authenticated_device := r.(ConnectionSession.authenticated_device);
  ConnectionSession.session_expires_at_ms := r.(ConnectionSession.session_expires_at_ms);
  ConnectionSession.last_valid_frame_at_ms := r.(ConnectionSession.last_valid_frame_at_ms);
  ConnectionSession.ping_sent := r.(ConnectionSession.ping_sent);
  ConnectionSession.io_deadline := v;
  ConnectionSession.correlation := r.(ConnectionSession.correlation)
|}.

Definition ConnectionSession_set_correlation (v : CorrelationState) (r : ConnectionSession) : ConnectionSession := {|
  ConnectionSession.stage := r.(ConnectionSession.stage);
  ConnectionSession.stage_deadline_ms := r.(ConnectionSession.stage_deadline_ms);
  ConnectionSession.authenticated_device := r.(ConnectionSession.authenticated_device);
  ConnectionSession.session_expires_at_ms := r.(ConnectionSession.session_expires_at_ms);
  ConnectionSession.last_valid_frame_at_ms := r.(ConnectionSession.last_valid_frame_at_ms);
  ConnectionSession.ping_sent := r.(ConnectionSession.ping_sent);
  ConnectionSession.io_deadline := r.(ConnectionSession.io_deadline);
  ConnectionSession.correlation := v
|}.

Implicit Types s : ConnectionSession.

Definition add_time (now_ms delta_ms : Z) : result Z TransportError :=
  ok_or (checked_add_i64 now_ms delta_ms) TransportError.TimeOverflow.

Definition ConnectionSession_accepted (now_ms : Z) : result ConnectionSession TransportError :=
  let? stage_deadline_ms := add_time now_ms TLS_HANDSHAKE_TIMEOUT_MS in
  Ok (ConnectionSession.mk ConnectionStage.TlsHandshake stage_deadline_ms None None now_ms false None
        CorrelationState_default).

Definition require_stage (expected : ConnectionStage) s : result unit TransportError :=
  if bool_decide (s.(ConnectionSession.stage) = expected) then Ok tt else Err TransportError.AuthenticationFailed.

Definition ConnectionSession_close s : ConnectionSession :=
  ConnectionSession.mk ConnectionStage.Closed s.(ConnectionSession.stage_deadline_ms) None None
    s.(ConnectionSession.last_valid_frame_at_ms) s.(ConnectionSession.ping_sent) None
    (cancel_all s.(ConnectionSession.correlation)).

Definition tls_established (now_ms : Z) s : ConnectionSession * result unit TransportError :=
  match require_stage ConnectionStage.TlsHandshake s with
  | Err e => (s, Err e)
  | Ok _ =>
      let s := ConnectionSession_set_stage ConnectionStage.TransportHello s in
      match add_time now_ms HELLO_TIMEOUT_MS with
      | Err e => (s, Err e)
      | Ok deadline => (ConnectionSession_set_stage_deadline_ms deadline s, Ok tt)
      end
  end.

(** A hello that is accepted moves to the next stage, even when its deadline
    cannot be computed and the call fails. *)
Definition accept_transport_hello (frame : ControlFrame) (now_ms : Z) s : ConnectionSession * result Z TransportError :=
  match require_stage ConnectionStage.TransportHello s with
  | Err e => (s, Err e)
  | Ok _ =>
      match frame with
      | ControlFrame.TransportHello request_id transport_version max_frame_length =>
          if (request_id =? 0) || negb (transport_version_is_compatible transport_version)
             || negb (max_frame_length =? MAX_FRAME_LENGTH)
          then (s, Err TransportError.VersionMismatch)
          else
            let s := ConnectionSession_set_stage ConnectionStage.UacpHello s in
            match add_time now_ms HELLO_TIMEOUT_MS with
            | Err e => (s, Err e)
            | Ok deadline =>
                (ConnectionSession_set_last_valid_frame_at_ms now_ms
                   (ConnectionSession_set_stage_deadline_ms deadline s), Ok request_id)
            end
      | _ => (s, Err TransportError.AuthenticationFailed)
      end
  end.

Definition accept_uacp_hello (frame : ControlFrame) (now_ms : Z) s : ConnectionSession * result Z TransportError :=
  match require_stage ConnectionStage.UacpHello s with
  | Err e => (s, Err e)
  | Ok _ =>
      match frame with
      | ControlFrame.UacpHello request_id protocol_version =>
          if (request_id =? 0) || negb (version_is_compatible protocol_version)
          then (s, Err TransportError.VersionMismatch)
          else
            let s := ConnectionSession_set_stage ConnectionStage.Authentication s in
            match add_time now_ms AUTH_TIMEOUT_MS with
            | Err e => (s, Err e)
            | Ok deadline =>
                (ConnectionSession_set_last_valid_frame_at_ms now_ms
                   (ConnectionSession_set_stage_deadline_ms deadline s), Ok request_id)
            end
      | _ => (s, Err TransportError.AuthenticationFailed)
      end
  end.

Definition is_auth_frame (frame : ControlFrame) : bool :=
  match frame with
  | ControlFrame.PairRequest _ | ControlFrame.ChallengeRequest _ _ | ControlFrame.ChallengeProof _ _ _ => true
  | _ => false
  end.

Definition ensure_auth_frame (frame : ControlFrame) s : result unit TransportError :=
  require_stage ConnectionStage.Authentication s ;?
  if is_auth_frame frame then Ok tt else Err TransportError.AuthenticationFailed.

Definition ConnectionSession_authenticate (device_id : DeviceId) (now_ms : Z) s :
    ConnectionSession * result Z TransportError :=
  match require_stage ConnectionStage.Authentication s with
  | Err e => (s, Err e)
  | Ok _ =>
      if id_is_empty device_id then (s, Err TransportError.AuthenticationFailed)
      else
        match add_time now_ms SESSION_LIFETIME_MS with
        | Err e => (s, Err e)
        | Ok expiry =>
            (ConnectionSession.mk ConnectionStage.Authenticated s.(ConnectionSession.stage_deadline_ms) (Some device_id)
               (Some expiry) now_ms false s.(ConnectionSession.io_deadline) s.(ConnectionSession.correlation),
             Ok expiry)
        end
  end.

Definition is_business_frame (frame : ControlFrame) : bool :=
  match frame with
  | ControlFrame.ProjectionSubscribeFrame _ _ _ | ControlFrame.ProjectionSubscribeAckFrame _ _ _
  | ControlFrame.ProjectionEnvelopeFrame _ _ | ControlFrame.ProjectionSubscriptionClosed _ _
  | ControlFrame.UnsubscribeRequest _ _ | ControlFrame.UnsubscribeAck _ _
  | ControlFrame.ContentWriteHeader _ _ | ControlFrame.ContentWriteResult _ _
  | ControlFrame.ContentReadFrame _ _ | ControlFrame.ContentReadResult _ _
  | ControlFrame.DeviceCommandFrame _ _ | ControlFrame.DeviceCommandAck _ _
  | ControlFrame.Ping _ _ | ControlFrame.Pong _ _ | ControlFrame.TransportError _ _ _ => true
  | _ => false
  end.

Definition session_expired (now_ms : Z) s : bool :=
  is_some_and s.(ConnectionSession.session_expires_at_ms) (λ expiry, expiry <=? now_ms).

Definition ensure_business_frame (frame : ControlFrame) (now_ms : Z) s : ConnectionSession * result unit TransportError :=
  match require_stage ConnectionStage.Authenticated s with
  | Err e => (s, Err e)
  | Ok _ =>
      if session_expired now_ms s then (ConnectionSession_close s, Err TransportError.AuthenticationFailed)
      else if negb (is_business_frame frame) then (s, Err TransportError.AuthenticationFailed)
      else (ConnectionSession_set_ping_sent false (ConnectionSession_set_last_valid_frame_at_ms now_ms s), Ok tt)
  end.

Definition begin_io (operation : IoOperation) (now_ms : Z) s : ConnectionSession * result unit TransportError :=
  if bool_decide (s.(ConnectionSession.stage) = ConnectionStage.Closed) || is_some s.(ConnectionSession.io_deadline)
  then (s, Err TransportError.MalformedFrame)
  else
    match add_time now_ms FRAME_IO_TIMEOUT_MS with
    | Err e => (s, Err e)
    | Ok deadline => (ConnectionSession_set_io_deadline (Some (operation, deadline)) s, Ok tt)
    end.

Definition complete_io (operation : IoOperation) s : ConnectionSession * result unit TransportError :=
  match s.(ConnectionSession.io_deadline) with
  | Some (active, _) =>
      if bool_decide (active = operation) then (ConnectionSession_set_io_deadline None s, Ok tt)
      else (s, Err TransportError.MalformedFrame)
  | None => (s, Err TransportError.MalformedFrame)
  end.

Definition ConnectionSession_poll (now_ms : Z) s : ConnectionSession * option ConnectionAction :=
  if is_some_and s.(ConnectionSession.io_deadline) (λ io, io.2 <=? now_ms)
  then (ConnectionSession_close s, Some ConnectionAction.CloseTimeout)
  else
    match s.(ConnectionSession.stage) with
    | ConnectionStage.Closed => (s, None)
    | ConnectionStage.Authenticated =>
        if session_expired now_ms s then (ConnectionSession_close s, Some ConnectionAction.CloseSessionExpired)
        else
          let idle := saturating_sub_i64 now_ms s.(ConnectionSession.last_valid_frame_at_ms) in
          if IDLE_CLOSE_AFTER_MS <=? idle then (ConnectionSession_close s, Some ConnectionAction.CloseTimeout)
          else if (IDLE_PING_AFTER_MS <=? idle) && negb s.(ConnectionSession.ping_sent)
          then (ConnectionSession_set_ping_sent true s, Some ConnectionAction.SendPing)
          else (s, None)
    | _ =>
        if s.(ConnectionSession.stage_deadline_ms) <=? now_ms
        then (ConnectionSession_close s, Some ConnectionAction.CloseTimeout)
        else (s, None)
    end.

(** ** The connection table *)

(** [std::net::IpAddr], the address as a number. *)
Module IpAddr.
Inductive IpAddr : Type :=
| V4 (address : Z)
| V6 (address : Z).
End IpAddr.
Abbreviation IpAddr := IpAddr.IpAddr.

#[export] Instance IpAddr_eq_dec : EqDecision IpAddr.
Proof. solve_decision. Defined.

Module LimitEntry.
Record LimitEntry : Type := mk {
  source_ip : IpAddr;
  device_id : option DeviceId
}.
End LimitEntry.
Abbreviation LimitEntry := LimitEntry.LimitEntry.

#[export] Instance LimitEntry_eq_dec : EqDecision LimitEntry.
Proof. solve_decision. Defined.

Definition LimitEntry_set_device_id (v : option DeviceId) (r : LimitEntry) : LimitEntry := {|
  LimitEntry.source_ip := r.(LimitEntry.source_ip);
  LimitEntry.device_id := v
|}.

Module ConnectionLimiter.
Record ConnectionLimiter : Type := mk {
  entries : gmap string LimitEntry
}.
End ConnectionLimiter.
Abbreviation ConnectionLimiter := ConnectionLimiter.ConnectionLimiter.

Definition count_entries (p : LimitEntry → bool) (entries : gmap string LimitEntry) : Z :=
  Z.of_nat (size (filter (λ entry, p entry.2 = true) entries)).

Definition pre_auth (entry : LimitEntry) : bool := is_none entry.(LimitEntry.device_id).
Definition from_source (source_ip : IpAddr) (entry : LimitEntry) : bool :=
  bool_decide (entry.(LimitEntry.source_ip) = source_ip).
Definition for_device (device_id : DeviceId) (entry : LimitEntry) : bool :=
  bool_decide (entry.(LimitEntry.device_id) = Some device_id).

Definition ConnectionLimiter_accept (key : string) (source_ip : IpAddr) (limiter : ConnectionLimiter) :
    ConnectionLimiter * result unit TransportError :=
  let entries := limiter.(ConnectionLimiter.entries) in
  if str_is_empty key || is_some (entries !! key) then (limiter, Err TransportError.MalformedFrame)
  else if MAX_GLOBAL_CONNECTIONS <=? Z.of_nat (size entries) then (limiter, Err TransportError.TooManyConnections)
  else if MAX_PRE_AUTH_CONNECTIONS <=? count_entries pre_auth entries
  then (limiter, Err TransportError.TooManyConnections)
  else if MAX_CONNECTIONS_PER_SOURCE_IP <=? count_entries (from_source source_ip) entries
  then (limiter, Err TransportError.TooManyConnections)
  else (ConnectionLimiter.mk (<[key := LimitEntry.mk source_ip None]> entries), Ok tt).

Definition ConnectionLimiter_authenticate (key : string) (device_id : DeviceId) (limiter : ConnectionLimiter) :
    ConnectionLimiter * result unit TransportError :=
  let entries := limiter.(ConnectionLimiter.entries) in
  if id_is_empty device_id then (limiter, Err TransportError.AuthenticationFailed)
  else if MAX_CONNECTIONS_PER_DEVICE <=? count_entries (for_device device_id) entries
  then (limiter, Err TransportError.TooManyConnections)
  else
    match entries !! key with
    | None => (limiter, Err TransportError.MalformedFrame)
    | Some entry =>
        if is_some entry.(LimitEntry.device_id) then (limiter, Err TransportError.MalformedFrame)
        else (ConnectionLimiter.mk (<[key := LimitEntry_set_device_id (Some device_id) entry]> entries), Ok tt)
    end.

Definition ConnectionLimiter_close (key : string) (limiter : ConnectionLimiter) :
    ConnectionLimiter * result unit TransportError :=
  let entries := limiter.(ConnectionLimiter.entries) in
  if is_some (entries !! key) then (ConnectionLimiter.mk (delete key entries), Ok tt)
  else (limiter, Err TransportError.MalformedFrame).

Definition connections_for_device (device_id : DeviceId) (limiter : ConnectionLimiter) : list string :=
  filter_map (λ '(key, entry), if for_device device_id entry then Some key else None)
    (btree_entries limiter.(ConnectionLimiter.entries)).

(** ** The limits hold *)

Inductive LimiterCall : Type :=
| AcceptConnection (key : string) (source_ip : IpAddr)
| AuthenticateConnection (key : string) (device_id : DeviceId)
| CloseConnection (key : string).

Definition apply_limiter_call (limiter : ConnectionLimiter) (call : LimiterCall) : ConnectionLimiter :=
  match call with
  | AcceptConnection key source_ip => (ConnectionLimiter_accept key source_ip limiter).1
  | AuthenticateConnection key device_id => (ConnectionLimiter_authenticate key device_id limiter).1
  | CloseConnection key => (ConnectionLimiter_close key limiter).1
  end.

Definition run_limiter (calls : list LimiterCall) : ConnectionLimiter := foldl apply_limiter_call (ConnectionLimiter.mk ∅) calls.

Lemma count_insert_fresh p key entry entries :
  entries !! key = None → count_entries p (<[key := entry]> entries) = count_entries p entries + Z.b2z (p entry).
Proof.
  intros Hn. unfold count_entries. rewrite map_filter_insert.
  assert (filter (λ e, p e.2 = true) entries !! key = None) as Hf by (apply map_lookup_filter_None; by left).
  destruct (p entry) eqn:Hp.
  - rewrite decide_True, map_size_insert_None by done. simpl. lia.
  - rewrite decide_False by (simpl; congruence). rewrite delete_id by done. simpl. lia.
Qed.

Lemma count_delete p key entry entries :
  entries !! key = Some entry → count_entries p entries = count_entries p (delete key entries) + Z.b2z (p entry).
Proof.
  intros Hk. rewrite <-(count_insert_fresh p key) by apply lookup_delete_eq.
  by rewrite insert_delete_eq, insert_id.
Qed.

Lemma count_update p key entry entry' entries :
  entries !! key = Some entry →
  count_entries p (<[key := entry']> entries) = count_entries p entries - Z.b2z (p entry) + Z.b2z (p entry').
Proof.
  intros Hk. rewrite (count_delete p key entry entries), <-insert_delete_eq, count_insert_fresh; [lia| |done].
  apply lookup_delete_eq.
Qed.

Record limiter_inv (limiter : ConnectionLimiter) : Prop := {
  limit_global : Z.of_nat (size limiter.(ConnectionLimiter.entries)) ≤ MAX_GLOBAL_CONNECTIONS;
  limit_pre_auth : count_entries pre_auth limiter.(ConnectionLimiter.entries) ≤ MAX_PRE_AUTH_CONNECTIONS;
  limit_source source_ip :
    count_entries (from_source source_ip) limiter.(ConnectionLimiter.entries) ≤ MAX_CONNECTIONS_PER_SOURCE_IP;
  limit_device device_id :
    count_entries (for_device device_id) limiter.(ConnectionLimiter.entries) ≤ MAX_CONNECTIONS_PER_DEVICE
}.

Lemma b2z_range b : 0 ≤ Z.b2z b ≤ 1.
Proof. destruct b; simpl; lia. Qed.

Lemma accept_inv key source_ip limiter :
  limiter_inv limiter → limiter_inv (ConnectionLimiter_accept key source_ip limiter).1.
Proof.
  destruct limiter as [entries]. intros Hi. unfold ConnectionLimiter_accept.
  simpl. destruct (_ || _) eqn:Hk; [done|]. apply orb_false_iff in Hk as [_ Hk].
  destruct (Z.leb_spec MAX_GLOBAL_CONNECTIONS (Z.of_nat (size entries))); [done|].
  destruct (Z.leb_spec MAX_PRE_AUTH_CONNECTIONS (count_entries pre_auth entries)); [done|].
  destruct (Z.leb_spec MAX_CONNECTIONS_PER_SOURCE_IP (count_entries (from_source source_ip) entries)); [done|].
  destruct (entries !! key) eqn:Hn; [done|]. destruct Hi as [L1 L2 L3 L4].
  simpl in *. split; simpl; intros; rewrite ?count_insert_fresh by done.
  - rewrite map_size_insert_None by done. lia.
  - pose proof (b2z_range (pre_auth (LimitEntry.mk source_ip None))). lia.
  - unfold from_source at 2. simpl. case_bool_decide; simpl; [subst; lia|]. specialize (L3 source_ip0). lia.
  - unfold for_device at 2. simpl. specialize (L4 device_id). lia.
Qed.

Lemma authenticate_inv key device_id limiter :
  limiter_inv limiter → limiter_inv (ConnectionLimiter_authenticate key device_id limiter).1.
Proof.
  destruct limiter as [entries]. intros Hi. unfold ConnectionLimiter_authenticate. simpl. destruct (id_is_empty device_id); [done|].
  destruct (Z.leb_spec MAX_CONNECTIONS_PER_DEVICE (count_entries (for_device device_id) entries)); [done|].
  destruct (entries !! key) as [[ip [d|]]|] eqn:Hk; [done| |done]. destruct Hi as [L1 L2 L3 L4].
  simpl in *. split; simpl; intros; rewrite ?(count_update _ _ _ _ _ Hk).
  - rewrite map_size_insert_Some by done. done.
  - unfold pre_auth at 2 3. simpl. lia.
  - unfold from_source at 2 3. simpl. specialize (L3 source_ip). lia.
  - unfold for_device at 2 3. simpl. specialize (L4 device_id0). case_bool_decide; simplify_eq; simpl; lia.
Qed.

Lemma close_inv key limiter : limiter_inv limiter → limiter_inv (ConnectionLimiter_close key limiter).1.
Proof.
  destruct limiter as [entries]. intros Hi. unfold ConnectionLimiter_close. simpl. destruct (entries !! key) as [entry|] eqn:Hk; [|done]. simpl.
  destruct Hi as [L1 L2 L3 L4].
  assert (∀ p, count_entries p (delete key entries) ≤ count_entries p entries) as Hle.
  { intros p. rewrite (count_delete p key entry entries) by done. pose proof (b2z_range (p entry)). lia. }
  simpl in *. split; intros; simpl.
  - rewrite map_size_delete_Some by done. lia.
  - specialize (Hle pre_auth). lia.
  - specialize (Hle (from_source source_ip)). specialize (L3 source_ip). lia.
  - specialize (Hle (for_device device_id)). specialize (L4 device_id). lia.
Qed.

(** After any sequence of accepts, authentications and closes, the host has at most 64 connections, 16 of them
    not yet authenticated, 4 from one source address and 2 for one device. *)
Theorem connection_limits_hold calls : limiter_inv (run_limiter calls).
Proof.
  unfold run_limiter. assert (limiter_inv (ConnectionLimiter.mk ∅)) as H0 by (split; intros; vm_compute; done).
  revert H0. generalize (ConnectionLimiter.mk ∅) as limiter.
  induction calls as [|call calls IH]; intros limiter Hi; [done|]. simpl. apply IH.
  destruct call; simpl; [by apply accept_inv | by apply authenticate_inv | by apply close_inv].
Qed.

(** ** Events of a connection *)

Inductive SessionEvent : Type :=
| TlsEstablished (now_ms : Z)
| HelloReceived (frame : ControlFrame) (now_ms : Z)
| UacpHelloReceived (frame : ControlFrame) (now_ms : Z)
| DeviceAuthenticated (device_id : DeviceId) (now_ms : Z)
| BusinessReceived (frame : ControlFrame) (now_ms : Z)
| IoBegun (operation : IoOperation) (now_ms : Z)
| IoCompleted (operation : IoOperation)
| Polled (now_ms : Z)
| SessionClosed
| Correlated (sha256_hex : list ascii → string) (call : CorrelationCall).

Definition apply_event s (event : SessionEvent) : ConnectionSession :=
  match event with
  | TlsEstablished now_ms => (tls_established now_ms s).1
  | HelloReceived frame now_ms => (accept_transport_hello frame now_ms s).1
  | UacpHelloReceived frame now_ms => (accept_uacp_hello frame now_ms s).1
  | DeviceAuthenticated device_id now_ms => (ConnectionSession_authenticate device_id now_ms s).1
  | BusinessReceived frame now_ms => (ensure_business_frame frame now_ms s).1
  | IoBegun operation now_ms => (begin_io operation now_ms s).1
  | IoCompleted operation => (complete_io operation s).1
  | Polled now_ms => (ConnectionSession_poll now_ms s).1
  | SessionClosed => ConnectionSession_close s
  | Correlated sha256_hex call =>
      ConnectionSession_set_correlation (apply_call sha256_hex call s.(ConnectionSession.correlation)).1 s
  end.

Definition event_time (event : SessionEvent) : option Z :=
  match event with
  | TlsEstablished now_ms | HelloReceived _ now_ms | UacpHelloReceived _ now_ms | DeviceAuthenticated _ now_ms
  | BusinessReceived _ now_ms | IoBegun _ now_ms | Polled now_ms => Some now_ms
  | IoCompleted _ | SessionClosed | Correlated _ _ => None
  end.

Definition run_session s (events : list SessionEvent) : ConnectionSession := foldl apply_event s events.

Lemma require_stage_ok expected s : require_stage expected s = Ok tt ↔ s.(ConnectionSession.stage) = expected.
Proof. unfold require_stage. case_bool_decide; naive_solver. Qed.

Lemma add_time_ok now_ms delta_ms t : add_time now_ms delta_ms = Ok t → t = now_ms + delta_ms.
Proof.
  unfold add_time, checked_add_i64. rewrite ok_or_ok. by case_match; intros [= <-].
Qed.

(** ** The connection as a step relation *)

(** The frames that move an unauthenticated connection to its next stage. *)
Inductive advances : SessionEvent → ConnectionStage → ConnectionStage → Prop :=
| advance_tls t : advances (TlsEstablished t) ConnectionStage.TlsHandshake ConnectionStage.TransportHello
| advance_hello request_id version t :
    transport_version_is_compatible version = true →
    advances (HelloReceived (ControlFrame.TransportHello request_id version MAX_FRAME_LENGTH) t)
      ConnectionStage.TransportHello ConnectionStage.UacpHello
| advance_uacp request_id version t :
    version_is_compatible version = true →
    advances (UacpHelloReceived (ControlFrame.UacpHello request_id version) t)
      ConnectionStage.UacpHello ConnectionStage.Authentication.

Record keeps s (event : SessionEvent) (s' : ConnectionSession) : Prop := {
  keeps_device : s'.(ConnectionSession.authenticated_device) = s.(ConnectionSession.authenticated_device);
  keeps_expiry : s'.(ConnectionSession.session_expires_at_ms) = s.(ConnectionSession.session_expires_at_ms);
  keeps_deadline : s'.(ConnectionSession.stage_deadline_ms) = s.(ConnectionSession.stage_deadline_ms) ∨
    ∃ t, event_time event = Some t ∧ s'.(ConnectionSession.stage_deadline_ms) ≤ t + AUTH_TIMEOUT_MS;
  keeps_last : s'.(ConnectionSession.last_valid_frame_at_ms) = s.(ConnectionSession.last_valid_frame_at_ms) ∨
    event_time event = Some s'.(ConnectionSession.last_valid_frame_at_ms);
  keeps_io operation deadline : s'.(ConnectionSession.io_deadline) = Some (operation, deadline) →
    s.(ConnectionSession.io_deadline) = Some (operation, deadline) ∨
    ∃ t, event_time event = Some t ∧ deadline = t + FRAME_IO_TIMEOUT_MS
}.

Inductive session_step s : SessionEvent → ConnectionSession → Prop :=
| step_stay event s' :
    keeps s event s' → s'.(ConnectionSession.stage) = s.(ConnectionSession.stage) → session_step s event s'
| step_close event : session_step s event (ConnectionSession_close s)
| step_advance event s' :
    keeps s event s' → advances event s.(ConnectionSession.stage) s'.(ConnectionSession.stage) →
    session_step s event s'
| step_authenticate device_id t s' :
    s.(ConnectionSession.stage) = ConnectionStage.Authentication → id_is_empty device_id = false →
    s'.(ConnectionSession.stage) = ConnectionStage.Authenticated →
    s'.(ConnectionSession.authenticated_device) = Some device_id →
    s'.(ConnectionSession.session_expires_at_ms) = Some (t + SESSION_LIFETIME_MS) →
    s'.(ConnectionSession.stage_deadline_ms) = s.(ConnectionSession.stage_deadline_ms) →
    s'.(ConnectionSession.last_valid_frame_at_ms) = t →
    s'.(ConnectionSession.io_deadline) = s.(ConnectionSession.io_deadline) →
    session_step s (DeviceAuthenticated device_id t) s'.

Lemma keeps_refl s event : keeps s event s.
Proof. split; auto. Qed.

Lemma stay s event : session_step s event s.
Proof. apply step_stay; [apply keeps_refl|done]. Qed.

Local Hint Resolve stay step_close : core.

Lemma timeouts_le : HELLO_TIMEOUT_MS ≤ AUTH_TIMEOUT_MS.
Proof. done. Qed.

(** Shows that an operation keeps what [keeps] names. *)
Ltac solve_keeps :=
  split; simpl; auto;
  try (right; eexists; split; [reflexivity|]; unfold AUTH_TIMEOUT_MS, HELLO_TIMEOUT_MS in *; lia).

Lemma tls_established_step s t : session_step s (TlsEstablished t) (tls_established t s).1.
Proof.
  unfold tls_established. destruct (require_stage _ s) as [[]|] eqn:Hs; [|by simpl].
  apply require_stage_ok in Hs.
  destruct (add_time t HELLO_TIMEOUT_MS) as [d|] eqn:Ht; [apply add_time_ok in Ht|];
    (apply step_advance; [solve_keeps | simpl; rewrite Hs; constructor]).
Qed.

Lemma hello_step s frame t : session_step s (HelloReceived frame t) (accept_transport_hello frame t s).1.
Proof.
  unfold accept_transport_hello. destruct (require_stage _ s) as [[]|] eqn:Hs; [|by simpl].
  apply require_stage_ok in Hs. destruct frame; simpl; auto.
  destruct (_ || _) eqn:Hv; [by simpl|].
  apply orb_false_iff in Hv as [[_ Hv%negb_false_iff]%orb_false_iff Hm%negb_false_iff].
  apply Z.eqb_eq in Hm as ->.
  destruct (add_time t HELLO_TIMEOUT_MS) as [d|] eqn:Ht; [apply add_time_ok in Ht|];
    (apply step_advance; [solve_keeps | simpl; rewrite Hs; by constructor]).
Qed.

Lemma uacp_hello_step s frame t : session_step s (UacpHelloReceived frame t) (accept_uacp_hello frame t s).1.
Proof.
  unfold accept_uacp_hello. destruct (require_stage _ s) as [[]|] eqn:Hs; [|by simpl].
  apply require_stage_ok in Hs. destruct frame; simpl; auto.
  destruct (_ || _) eqn:Hv; [by simpl|]. apply orb_false_iff in Hv as [_ Hv%negb_false_iff].
  destruct (add_time t AUTH_TIMEOUT_MS) as [d|] eqn:Ht; [apply add_time_ok in Ht|];
    (apply step_advance; [solve_keeps | simpl; rewrite Hs; by constructor]).
Qed.

Lemma authenticate_step s device_id t :
  session_step s (DeviceAuthenticated device_id t) (ConnectionSession_authenticate device_id t s).1.
Proof.
  unfold ConnectionSession_authenticate. destruct (require_stage _ s) as [[]|] eqn:Hs; [|by simpl].
  apply require_stage_ok in Hs. destruct (id_is_empty device_id) eqn:He; [by simpl|].
  destruct (add_time t SESSION_LIFETIME_MS) as [d|] eqn:Ht; [|by simpl].
  apply add_time_ok in Ht as ->. by apply step_authenticate.
Qed.

Lemma poll_step s t : session_step s (Polled t) (ConnectionSession_poll t s).1.
Proof.
  unfold ConnectionSession_poll. destruct (is_some_and _ _); [by simpl|].
  destruct (ConnectionSession.stage s); repeat case_match; simpl; auto.
  apply step_stay; [solve_keeps|done].
Qed.

(** Every operation of the session is a step. *)
Lemma apply_event_step s event : session_step s event (apply_event s event).
Proof.
  destruct event as [t|f t|f t|d t|f t|op t|op|t| |sha call]; simpl.
  - apply tls_established_step.
  - apply hello_step.
  - apply uacp_hello_step.
  - apply authenticate_step.
  - unfold ensure_business_frame. repeat case_match; simpl; auto. apply step_stay; [solve_keeps|done].
  - unfold begin_io. destruct (_ || _); simpl; auto.
    destruct (add_time t FRAME_IO_TIMEOUT_MS) as [d|] eqn:Ht; simpl; auto. apply add_time_ok in Ht as ->.
    apply step_stay; [|done]. split; simpl; auto. intros op' d [= _ <-]. right. by exists t.
  - unfold complete_io. repeat case_match; simpl; auto. apply step_stay; [by solve_keeps|done].
  - apply poll_step.
  - apply step_close.
  - apply step_stay; [solve_keeps|done].
Qed.

(** ** The way to a business frame *)

(** What an open connection in each stage has been through, in order. *)
Inductive milestones : ConnectionStage → list SessionEvent → Prop :=
| milestones_start : milestones ConnectionStage.TlsHandshake []
| milestones_advance event stage stage' steps :
    milestones stage steps → advances event stage stage' → milestones stage' (steps ++ [event]).

Definition on_the_way s (events : list SessionEvent) : Prop :=
  match s.(ConnectionSession.stage) with
  | ConnectionStage.Closed => True
  | ConnectionStage.Authenticated => ∃ steps device_id t,
      milestones ConnectionStage.Authentication steps ∧ id_is_empty device_id = false ∧
      steps ++ [DeviceAuthenticated device_id t] `sublist_of` events ∧
      s.(ConnectionSession.authenticated_device) = Some device_id ∧
      s.(ConnectionSession.session_expires_at_ms) = Some (t + SESSION_LIFETIME_MS)
  | stage => ∃ steps, milestones stage steps ∧ steps `sublist_of` events
  end.

Lemma on_the_way_step s event s' events :
  session_step s event s' → on_the_way s events → on_the_way s' (events ++ [event]).
Proof.
  intros Hstep Hway. unfold on_the_way in *.
  destruct Hstep as [event s' Hk Hst|event|event s' Hk Ha|d t s' Hst He Hst' Hd Hx _ _ _].
  - rewrite Hst. destruct (ConnectionSession.stage s); try done;
      try (destruct Hway as (steps & Hm & Hs); exists steps; split; [done|]; by apply sublist_inserts_r).
    destruct Hway as (steps & d & t & ? & ? & ? & ? & ?). destruct Hk as [-> -> _ _ _].
    exists steps, d, t. repeat split; try done. by apply sublist_inserts_r.
  - done.
  - destruct Ha as [t|r v t Hv|r v t Hv]; destruct Hway as (steps & Hm & Hs); eexists (steps ++ [_]);
      (split; [eapply milestones_advance; [done|by constructor] | by apply sublist_app]).
  - rewrite Hst in Hway. rewrite Hst'. destruct Hway as (steps & Hm & Hs). exists steps, d, t.
    repeat split; try done. by apply sublist_app.
Qed.

Lemma run_on_the_way t0 s0 events :
  ConnectionSession_accepted t0 = Ok s0 → on_the_way (run_session s0 events) events.
Proof.
  intros Hs0. induction events as [|event events IH] using rev_ind.
  - unfold ConnectionSession_accepted in Hs0. destruct (add_time _ _); [|done]. injection Hs0 as <-.
    exists []. by split; [constructor|].
  - unfold run_session. rewrite foldl_app. simpl. eapply on_the_way_step; [apply apply_event_step|done].
Qed.

(** C23: A business frame is accepted only on a connection that has completed, in this order, the
    TLS handshake, a compatible transport hello, a compatible protocol hello and the authentication
    of a device, and only within the session lifetime that started at that authentication. *)
Theorem business_needs_authentication t0 s0 events frame now_ms s' :
  ConnectionSession_accepted t0 = Ok s0 →
  ensure_business_frame frame now_ms (run_session s0 events) = (s', Ok tt) →
  is_business_frame frame = true ∧
  ∃ t1 r2 v2 t2 r3 v3 t3 device_id t4,
    [TlsEstablished t1;
     HelloReceived (ControlFrame.TransportHello r2 v2 MAX_FRAME_LENGTH) t2;
     UacpHelloReceived (ControlFrame.UacpHello r3 v3) t3;
     DeviceAuthenticated device_id t4] `sublist_of` events ∧
    transport_version_is_compatible v2 = true ∧ version_is_compatible v3 = true ∧
    id_is_empty device_id = false ∧
    s'.(ConnectionSession.authenticated_device) = Some device_id ∧
    now_ms < t4 + SESSION_LIFETIME_MS.
Proof.
  intros Hs0 Hb. pose proof (run_on_the_way t0 s0 events Hs0) as Hway. revert Hb Hway.
  generalize (run_session s0 events) as s. intros s. unfold ensure_business_frame, on_the_way, session_expired.
  destruct (require_stage _ s) as [[]|] eqn:Hst; [|done]. apply require_stage_ok in Hst. rewrite Hst.
  intros Hb (steps & device_id & t4 & Hm & Hne & Hsub & Hdev & Hexp). rewrite Hexp in Hb. simpl in Hb.
  destruct (Z.leb_spec (t4 + SESSION_LIFETIME_MS) now_ms); [done|].
  destruct (is_business_frame frame); [|done]. injection Hb as <-. split; [done|].
  inversion Hm as [|e3 st3 ? steps3 Hm3 Ha3]; subst. inversion Ha3; subst.
  inversion Hm3 as [|e2 st2 ? steps2 Hm2 Ha2]; subst. inversion Ha2; subst.
  inversion Hm2 as [|e1 st1 ? steps1 Hm1 Ha1]; subst. inversion Ha1; subst.
  inversion Hm1 as [|e0 st0 ? steps0 Hm0 Ha0]; subst; [|inversion Ha0].
  do 9 eexists. split; [exact Hsub|]. done.
Qed.

(** ** Stalled connections *)

(** Deadlines are close to the last event. *)
Definition timely (t : Z) s : Prop :=
  s.(ConnectionSession.stage) ≠ ConnectionStage.Closed →
  s.(ConnectionSession.stage_deadline_ms) ≤ t + AUTH_TIMEOUT_MS ∧
  i64_min ≤ s.(ConnectionSession.last_valid_frame_at_ms) ≤ t.

Definition event_by (t : Z) (event : SessionEvent) : Prop :=
  ∀ t', event_time event = Some t' → i64_min ≤ t' ≤ t.

Lemma timely_step t s event s' :
  session_step s event s' → event_by t event → timely t s → timely t s'.
Proof.
  intros Hstep He Ht. unfold timely in *.
  assert (keeps s event s' → s.(ConnectionSession.stage) ≠ ConnectionStage.Closed →
          s'.(ConnectionSession.stage_deadline_ms) ≤ t + AUTH_TIMEOUT_MS ∧
          i64_min ≤ s'.(ConnectionSession.last_valid_frame_at_ms) ≤ t) as Hk.
  { intros [_ _ Hd Hl _] Hopen. destruct (Ht Hopen) as [H1 H2].
    split; [destruct Hd as [->|(t' & Ht'%He & Hd)]; lia|]. destruct Hl as [->|Hl%He]; lia. }
  destruct Hstep as [event s' Hks Hst|event|event s' Hks Ha|d t' s' Hst Hne Hst' _ _ Hd Hl _].
  - rewrite Hst. auto.
  - done.
  - intros _. apply Hk; [done|]. by inversion Ha.
  - intros _. rewrite Hd, Hl. destruct Ht as [? _]; [by rewrite Hst|]. specialize (He t' eq_refl). lia.
Qed.

(** C32: A connection on which nothing happens any more does not linger: in whatever stage it is,
    and whatever happened before, the poll ninety seconds after its last event closes it. *)
Theorem stalled_connection_closes t0 s0 events t :
  ConnectionSession_accepted t0 = Ok s0 → i64_min ≤ t0 ≤ t →
  Forall (event_by t) events → t + IDLE_CLOSE_AFTER_MS ≤ i64_max →
  (ConnectionSession_poll (t + IDLE_CLOSE_AFTER_MS) (run_session s0 events)).1.(ConnectionSession.stage) =
  ConnectionStage.Closed.
Proof.
  intros Hs0 Ht0 Hev Hmax.
  assert (timely t (run_session s0 events)) as Ht.
  { unfold run_session. assert (timely t s0) as H0.
    { unfold ConnectionSession_accepted in Hs0. destruct (add_time _ _) eqn:Ha; [|done]. injection Hs0 as <-.
      apply add_time_ok in Ha. intros _. simpl. unfold TLS_HANDSHAKE_TIMEOUT_MS, AUTH_TIMEOUT_MS in *. lia. }
    clear Hs0. revert s0 H0. induction Hev as [|event events He _ IH]; intros s0 H0; [done|]. simpl. apply IH.
    eapply timely_step; [apply apply_event_step|done..]. }
  revert Ht. generalize (run_session s0 events) as s. intros s Ht. unfold ConnectionSession_poll.
  destruct (is_some_and _ _); [done|]. unfold timely in Ht.
  destruct (ConnectionSession.stage s) eqn:Hst; try done.
  all: destruct Ht as [Hd Hl]; [done|].
  all: try (rewrite (proj2 (Z.leb_le _ _)); [done|]; unfold AUTH_TIMEOUT_MS, IDLE_CLOSE_AFTER_MS in *; lia).
  destruct (session_expired _ s); [done|].
  rewrite (proj2 (Z.leb_le IDLE_CLOSE_AFTER_MS _)); [done|].
  unfold saturating_sub_i64, IDLE_CLOSE_AFTER_MS, i64_min, i64_max in *. lia.
Qed.
