(* ===== verification/TransportAuth.v ===== *)
(** * Device authentication

    Models [crates/kaleido-transport/src/auth.rs]: the transcript a device signs,
    the verification of a signature, and the store of challenges that are
    outstanding or consumed.

    P-256 keys and ECDSA signatures are the class [P256]: decoding and encoding
    of keys and signatures, and whether a signature of a text verifies.  Random
    bytes are arguments of the operation that draws them. *)
From stdpp Require Import prelude strings gmap.
From Stdlib Require Import ZArith Lia Ascii.
From S2P Require Import Prelude ProtoBase ProtoContent TransportControl.

Local Open Scope Z_scope.
Local Opaque to_be_bytes from_be_bytes.

(** ** Signatures *)

Class P256 := {
  PublicKey : Type;
  Signature : Type;
  public_key_from_der : list ascii → option PublicKey;
  public_key_to_der : PublicKey → option (list ascii);
  signature_from_der : list ascii → option Signature;
  signature_to_der : Signature → list ascii;
  verifies : PublicKey → list ascii → Signature → bool
}.

Section signatures.
Context `{P256}.

Definition decode_p256_spki (public_key_spki : list ascii) : result PublicKey TransportError :=
  let? public_key := ok_or (public_key_from_der public_key_spki) TransportError.InvalidKeyMaterial in
  let? canonical := ok_or (public_key_to_der public_key) TransportError.InvalidKeyMaterial in
  reject_if (bool_decide (canonical ≠ public_key_spki)) TransportError.InvalidKeyMaterial ;?
  Ok public_key.

Definition validate_p256_spki (public_key_spki : list ascii) : result unit TransportError :=
  decode_p256_spki public_key_spki ;? Ok tt.

Definition verify_transcript_signature (public_key_spki transcript signature_der : list ascii) :
    result unit TransportError :=
  let? key := decode_p256_spki public_key_spki in
  let? signature := ok_or (signature_from_der signature_der) TransportError.AuthenticationFailed in
  reject_if (bool_decide (signature_to_der signature ≠ signature_der)) TransportError.AuthenticationFailed ;?
  reject_if (negb (verifies key transcript signature)) TransportError.AuthenticationFailed.
End signatures.

(** ** The transcript *)

Definition TRANSCRIPT_MAGIC : list ascii := bytes_of "OneKaleidoscope.DeviceAuth.v1".

Module ChallengeTranscript.
Record ChallengeTranscript : Type := mk {
  transport_version : string;
  protocol_version : string;
  host_id : HostId;
  device_id : DeviceId;
  tls_exporter : list ascii;
  challenge_id : list ascii;
  nonce : list ascii;
  expires_at_ms : Z
}.
End ChallengeTranscript.
Abbreviation ChallengeTranscript := ChallengeTranscript.ChallengeTranscript.

#[export] Instance ChallengeTranscript_eq_dec : EqDecision ChallengeTranscript.
Proof. solve_decision. Defined.

Definition append_sized (output : list ascii) (value : string) : result (list ascii) TransportError :=
  reject_if (str_is_empty value) TransportError.AuthenticationFailed ;?
  let length := str_len value in
  reject_if (65535 <? length) TransportError.AuthenticationFailed ;?
  Ok (output ++ to_be_bytes 2 length ++ bytes_of value).

Definition build_transcript (input : ChallengeTranscript) : result (list ascii) TransportError :=
  reject_if
    (negb (transport_version_is_compatible input.(ChallengeTranscript.transport_version))
     || negb (version_is_compatible input.(ChallengeTranscript.protocol_version))
     || id_is_empty input.(ChallengeTranscript.host_id)
     || id_is_empty input.(ChallengeTranscript.device_id)
     || negb (length input.(ChallengeTranscript.tls_exporter) =? 32)%nat
     || negb (length input.(ChallengeTranscript.challenge_id) =? 16)%nat
     || negb (length input.(ChallengeTranscript.nonce) =? 32)%nat)
    TransportError.AuthenticationFailed ;?
  let? transcript := append_sized TRANSCRIPT_MAGIC input.(ChallengeTranscript.transport_version) in
  let? transcript := append_sized transcript input.(ChallengeTranscript.protocol_version) in
  let? transcript := append_sized transcript (id_value input.(ChallengeTranscript.host_id)) in
  let? transcript := append_sized transcript (id_value input.(ChallengeTranscript.device_id)) in
  Ok (transcript ++ input.(ChallengeTranscript.tls_exporter) ++ input.(ChallengeTranscript.challenge_id)
        ++ input.(ChallengeTranscript.nonce) ++ to_be_bytes 8 input.(ChallengeTranscript.expires_at_ms)).

(** ** Challenges *)

Module DeviceChallenge.
Record DeviceChallenge : Type := mk {
  request_id : Z;
  challenge_id : list ascii;
  nonce : list ascii;
  expires_at_ms : Z
}.
End DeviceChallenge.
Abbreviation DeviceChallenge := DeviceChallenge.DeviceChallenge.

#[export] Instance DeviceChallenge_eq_dec : EqDecision DeviceChallenge.
Proof. solve_decision. Defined.

Module ChallengeProof.
Record ChallengeProof : Type := mk {
  request_id : Z;
  challenge_id : list ascii;
  signature_der : list ascii
}.
End ChallengeProof.
Abbreviation ChallengeProof := ChallengeProof.ChallengeProof.

#[export] Instance ChallengeProof_eq_dec : EqDecision ChallengeProof.
Proof. solve_decision. Defined.

Module StoredChallenge.
Record StoredChallenge : Type := mk {
  connection_scope : string;
  request_id : Z;
  transport_version : string;
  protocol_version : string;
  host_id : HostId;
  device_id : DeviceId;
  tls_exporter : list ascii;
  nonce : list ascii;
  expires_at_ms : Z
}.
End StoredChallenge.
Abbreviation StoredChallenge := StoredChallenge.StoredChallenge.

#[export] Instance StoredChallenge_eq_dec : EqDecision StoredChallenge.
Proof. solve_decision. Defined.

Module ChallengeStore.
Record ChallengeStore : Type := mk {
  active : gmap (list ascii) StoredChallenge;
  consumed : gset (string * list ascii)
}.
End ChallengeStore.
Abbreviation ChallengeStore := ChallengeStore.ChallengeStore.

Module IssueChallenge.
Record IssueChallenge : Type := mk {
  connection_scope : string;
  request_id : Z;
  transport_version : string;
  protocol_version : string;
  host_id : HostId;
  device_id : DeviceId;
  tls_exporter : list ascii;
  now_ms : Z
}.
End IssueChallenge.
Abbreviation IssueChallenge := IssueChallenge.IssueChallenge.

#[export] Instance IssueChallenge_eq_dec : EqDecision IssueChallenge.
Proof. solve_decision. Defined.

Definition ChallengeStore_default : ChallengeStore := ChallengeStore.mk ∅ ∅.

Definition validate_challenge_request (connection_scope : string) (request_id : Z) : result unit TransportError :=
  if str_is_empty connection_scope || (request_id =? 0) then Err TransportError.AuthenticationFailed else Ok tt.

Definition stored_of (input : IssueChallenge) (nonce : list ascii) (expires_at_ms : Z) : StoredChallenge :=
  StoredChallenge.mk input.(IssueChallenge.connection_scope) input.(IssueChallenge.request_id)
    input.(IssueChallenge.transport_version) input.(IssueChallenge.protocol_version) input.(IssueChallenge.host_id)
    input.(IssueChallenge.device_id) input.(IssueChallenge.tls_exporter) nonce expires_at_ms.

(** The transcript of an outstanding challenge. *)
Definition transcript_of (stored : StoredChallenge) (challenge_id : list ascii) : ChallengeTranscript :=
  ChallengeTranscript.mk stored.(StoredChallenge.transport_version) stored.(StoredChallenge.protocol_version)
    stored.(StoredChallenge.host_id) stored.(StoredChallenge.device_id) stored.(StoredChallenge.tls_exporter)
    challenge_id stored.(StoredChallenge.nonce) stored.(StoredChallenge.expires_at_ms).

(** [challenge_id] and [nonce] are the 16 and 32 bytes drawn by [OsRng]. *)
Definition ChallengeStore_issue (input : IssueChallenge) (challenge_id nonce : list ascii) (c : ChallengeStore) :
    ChallengeStore * result DeviceChallenge TransportError :=
  match
    validate_challenge_request input.(IssueChallenge.connection_scope) input.(IssueChallenge.request_id) ;?
    let? expires_at_ms := ok_or (checked_add_i64 input.(IssueChallenge.now_ms) CHALLENGE_LIFETIME_MS)
                            TransportError.TimeOverflow in
    let stored := stored_of input nonce expires_at_ms in
    build_transcript (transcript_of stored challenge_id) ;?
    Ok stored
  with
  | Err e => (c, Err e)
  | Ok stored =>
      (ChallengeStore.mk (<[challenge_id := stored]> c.(ChallengeStore.active)) c.(ChallengeStore.consumed),
       Ok (DeviceChallenge.mk input.(IssueChallenge.request_id) challenge_id nonce stored.(StoredChallenge.expires_at_ms)))
  end.

Section verification.
Context `{P256}.

(** The checks on the challenge that was removed. *)
Definition check_proof (connection_scope : string) (proof : ChallengeProof) (public_key_spki : list ascii)
    (revoked : bool) (now_ms : Z) (stored : StoredChallenge) : result DeviceId TransportError :=
  reject_if (bool_decide (stored.(StoredChallenge.connection_scope) ≠ connection_scope)
             || negb (stored.(StoredChallenge.request_id) =? proof.(ChallengeProof.request_id)))
    TransportError.AuthenticationFailed ;?
  reject_if (stored.(StoredChallenge.expires_at_ms) <=? now_ms) TransportError.ChallengeExpired ;?
  reject_if revoked TransportError.AuthenticationFailed ;?
  let? transcript := build_transcript (transcript_of stored proof.(ChallengeProof.challenge_id)) in
  verify_transcript_signature public_key_spki transcript proof.(ChallengeProof.signature_der) ;?
  Ok stored.(StoredChallenge.device_id).

Definition ChallengeStore_verify (connection_scope : string) (proof : ChallengeProof) (public_key_spki : list ascii)
    (revoked : bool) (now_ms : Z) (c : ChallengeStore) : ChallengeStore * result DeviceId TransportError :=
  if bool_decide ((connection_scope, proof.(ChallengeProof.challenge_id)) ∈ c.(ChallengeStore.consumed))
  then (c, Err TransportError.ChallengeReplayed)
  else
    match c.(ChallengeStore.active) !! proof.(ChallengeProof.challenge_id) with
    | None => (c, Err TransportError.AuthenticationFailed)
    | Some stored =>
        (ChallengeStore.mk (delete proof.(ChallengeProof.challenge_id) c.(ChallengeStore.active))
           ({[(stored.(StoredChallenge.connection_scope), proof.(ChallengeProof.challenge_id))]}
              ∪ c.(ChallengeStore.consumed)),
         check_proof connection_scope proof public_key_spki revoked now_ms stored)
    end.
End verification.

Definition cancel_connection (connection_scope : string) (c : ChallengeStore) : ChallengeStore :=
  ChallengeStore.mk
    (filter (λ entry, entry.2.(StoredChallenge.connection_scope) ≠ connection_scope) c.(ChallengeStore.active))
    (filter (λ tombstone, tombstone.1 ≠ connection_scope) c.(ChallengeStore.consumed)).

(** ** The transcript binds every field *)

Local Opaque TRANSCRIPT_MAGIC.

Lemma append_sized_ok output value output' :
  append_sized output value = Ok output' →
  str_len value ≤ 65535 ∧ output' = output ++ to_be_bytes 2 (str_len value) ++ bytes_of value.
Proof. unfold append_sized. destruct (str_is_empty value); [done|]. simpl. destruct (Z.ltb_spec 65535 (str_len value)); [done|]. by intros [= <-]. Qed.

Lemma bytes_of_length s : Z.of_nat (length (bytes_of s)) = str_len s.
Proof. unfold str_len. f_equal. induction s as [|c s IH]; [done|]. simpl. by f_equal. Qed.

Lemma bytes_of_inj a b : bytes_of a = bytes_of b → a = b.
Proof. revert b. induction a as [|c a IH]; intros [|d b]; simpl; try done. intros [= -> ?]. f_equal. by apply IH. Qed.

(** A field that carries its length ends where it ends. *)
Lemma sized_field_inj a b ra rb :
  str_len a ≤ 65535 → str_len b ≤ 65535 →
  to_be_bytes 2 (str_len a) ++ bytes_of a ++ ra = to_be_bytes 2 (str_len b) ++ bytes_of b ++ rb → a = b ∧ ra = rb.
Proof.
  intros Ha Hb [Hlen Hrest]%app_inj_1; [|by rewrite !to_be_bytes_length].
  assert (0 ≤ str_len a ∧ 0 ≤ str_len b) as [??] by (unfold str_len; lia).
  apply (f_equal from_be_bytes) in Hlen. rewrite !from_to_be_bytes in Hlen by (split; [done|]; change (256 ^ Z.of_nat 2) with 65536; lia).
  apply app_inj_1 in Hrest as [Hv Hr]; [|apply Nat2Z.inj; by rewrite !bytes_of_length]. split; [by apply bytes_of_inj|done].
Qed.

Lemma to_be_bytes_mod count z : from_be_bytes (to_be_bytes count z) = z mod 256 ^ Z.of_nat count.
Proof.
  assert (0 < 256 ^ Z.of_nat count) as Hp by (apply Z.pow_pos_nonneg; lia).
  rewrite <-(from_to_be_bytes count (z mod 256 ^ Z.of_nat count)) by (by apply Z.mod_pos_bound).
  f_equal. rewrite (Z_div_mod_eq_full z (256 ^ Z.of_nat count)) at 1. by rewrite Z.mul_comm, to_be_bytes_high.
Qed.

(** The sixty-four bits of a signed integer determine it. *)
Lemma i64_bytes_inj a b : in_i64 a → in_i64 b → to_be_bytes 8 a = to_be_bytes 8 b → a = b.
Proof.
  unfold in_i64, i64_min, i64_max. intros Ha Hb E%(f_equal from_be_bytes). rewrite !to_be_bytes_mod in E.
  change (256 ^ Z.of_nat 8) with 18446744073709551616 in E.
  pose proof (Z_div_mod_eq_full a 18446744073709551616). pose proof (Z_div_mod_eq_full b 18446744073709551616). lia.
Qed.

Lemma build_transcript_ok input transcript :
  build_transcript input = Ok transcript →
  length input.(ChallengeTranscript.tls_exporter) = 32%nat ∧ length input.(ChallengeTranscript.challenge_id) = 16%nat ∧
  length input.(ChallengeTranscript.nonce) = 32%nat ∧
  Forall (λ field, str_len field ≤ 65535)
    [input.(ChallengeTranscript.transport_version); input.(ChallengeTranscript.protocol_version);
     id_value input.(ChallengeTranscript.host_id); id_value input.(ChallengeTranscript.device_id)] ∧
  transcript = TRANSCRIPT_MAGIC
    ++ to_be_bytes 2 (str_len input.(ChallengeTranscript.transport_version)) ++ bytes_of input.(ChallengeTranscript.transport_version)
    ++ to_be_bytes 2 (str_len input.(ChallengeTranscript.protocol_version)) ++ bytes_of input.(ChallengeTranscript.protocol_version)
    ++ to_be_bytes 2 (str_len (id_value input.(ChallengeTranscript.host_id))) ++ bytes_of (id_value input.(ChallengeTranscript.host_id))
    ++ to_be_bytes 2 (str_len (id_value input.(ChallengeTranscript.device_id))) ++ bytes_of (id_value input.(ChallengeTranscript.device_id))
    ++ input.(ChallengeTranscript.tls_exporter) ++ input.(ChallengeTranscript.challenge_id)
    ++ input.(ChallengeTranscript.nonce) ++ to_be_bytes 8 input.(ChallengeTranscript.expires_at_ms).
Proof.
  unfold build_transcript. destruct (_ || _) eqn:Hb; [done|]. rewrite !orb_false_iff, !negb_false_iff, !Nat.eqb_eq in Hb.
  destruct Hb as ((((((_ & _) & _) & _) & He) & Hc) & Hn). simpl.
  destruct (append_sized _ _) as [t1|] eqn:E1; [|done]. apply append_sized_ok in E1 as [L1 ->]. simpl.
  destruct (append_sized _ _) as [t2|] eqn:E2; [|done]. apply append_sized_ok in E2 as [L2 ->]. simpl.
  destruct (append_sized _ _) as [t3|] eqn:E3; [|done]. apply append_sized_ok in E3 as [L3 ->]. simpl.
  destruct (append_sized _ _) as [t4|] eqn:E4; [|done]. apply append_sized_ok in E4 as [L4 ->].
  intros [= <-]. split_and!; [done..| |]; [by repeat constructor|]. by rewrite <-!app_assoc.
Qed.

(** Two challenges with the same signed text are the same challenge: the text a device signs determines the
    versions, the host, the device, the exporter of the TLS connection, the challenge identifier, the nonce
    and the expiry, so a signature made for one connection, host or device cannot be presented for another. *)
Theorem transcript_binds_every_field (a b : ChallengeTranscript) transcript
    (Ha : in_i64 a.(ChallengeTranscript.expires_at_ms)) (Hb : in_i64 b.(ChallengeTranscript.expires_at_ms))
    (Hbuilt_a : build_transcript a = Ok transcript) (Hbuilt_b : build_transcript b = Ok transcript) :
  a = b.
Proof.
  apply build_transcript_ok in Hbuilt_a as (La1 & La2 & La3 & Fa & ->).
  apply build_transcript_ok in Hbuilt_b as (Lb1 & Lb2 & Lb3 & Fb & E). rewrite !Forall_cons in Fa, Fb.
  destruct Fa as (A1 & A2 & A3 & A4 & _), Fb as (B1 & B2 & B3 & B4 & _).
  destruct a as [tv pv [h] [d] ex ch no at_], b as [tv' pv' [h'] [d'] ex' ch' no' at_']; simpl in *.
  apply app_inj_1 in E as [_ E]; [|done]. apply sized_field_inj in E as [-> E]; [|done..]. apply sized_field_inj in E as [-> E]; [|done..].
  apply sized_field_inj in E as [-> E]; [|done..]. apply sized_field_inj in E as [-> E]; [|done..].
  apply app_inj_1 in E as [-> E]; [|congruence]. apply app_inj_1 in E as [-> E]; [|congruence].
  apply app_inj_1 in E as [-> E]; [|congruence]. by rewrite (i64_bytes_inj _ _ Ha Hb E).
Qed.

(** ** What a successful verification rests on *)

Section authentication.
Context `{P256}.

Inductive ChallengeCall : Type :=
| IssueCall (input : IssueChallenge) (challenge_id nonce : list ascii)
| VerifyCall (connection_scope : string) (proof : ChallengeProof) (public_key_spki : list ascii) (revoked : bool) (now_ms : Z)
| CancelCall (connection_scope : string).

Definition apply_challenge (c : ChallengeStore) (call : ChallengeCall) : ChallengeStore :=
  match call with
  | IssueCall input challenge_id nonce => (ChallengeStore_issue input challenge_id nonce c).1
  | VerifyCall scope proof key revoked now_ms => (ChallengeStore_verify scope proof key revoked now_ms c).1
  | CancelCall scope => cancel_connection scope c
  end.

Definition run_challenges (calls : list ChallengeCall) : ChallengeStore :=
  foldl apply_challenge ChallengeStore_default calls.

(** A call that ends the life of the challenge [id] of a connection: it is
    presented there, replaced, or the connection is cancelled. *)
Definition ends_challenge (scope : string) (id : list ascii) (call : ChallengeCall) : bool :=
  match call with
  | IssueCall input challenge_id nonce =>
      bool_decide (challenge_id = id) && is_ok (ChallengeStore_issue input challenge_id nonce ChallengeStore_default).2
  | VerifyCall scope' proof _ _ _ => bool_decide (scope' = scope ∧ proof.(ChallengeProof.challenge_id) = id)
  | CancelCall scope' => bool_decide (scope' = scope)
  end.

(** The challenge was issued by one of the calls, and nothing ended it since. *)
Definition outstanding (calls : list ChallengeCall) (scope : string) (id : list ascii) (stored : StoredChallenge) : Prop :=
  ∃ before input nonce after,
    calls = before ++ IssueCall input id nonce :: after ∧
    input.(IssueChallenge.connection_scope) = scope ∧
    stored = stored_of input nonce (input.(IssueChallenge.now_ms) + CHALLENGE_LIFETIME_MS) ∧
    Forall (λ call, ends_challenge scope id call = false) after.

Lemma issue_result input id nonce c :
  (ChallengeStore_issue input id nonce c).2 = (ChallengeStore_issue input id nonce ChallengeStore_default).2 ∧
  (ChallengeStore_issue input id nonce c).1 =
    if is_ok (ChallengeStore_issue input id nonce ChallengeStore_default).2
    then ChallengeStore.mk (<[id := stored_of input nonce (input.(IssueChallenge.now_ms) + CHALLENGE_LIFETIME_MS)]> c.(ChallengeStore.active))
           c.(ChallengeStore.consumed)
    else c.
Proof.
  unfold ChallengeStore_issue. destruct (validate_challenge_request _ _); [|done]. simpl. unfold checked_add_i64.
  destruct (_ && _); [|done]. simpl. by destruct (build_transcript _).
Qed.

Lemma outstanding_snoc calls call scope id stored :
  outstanding calls scope id stored → ends_challenge scope id call = false → outstanding (calls ++ [call]) scope id stored.
Proof.
  intros (before & input & nonce & after & -> & Hs & Hst & Hf) Hc. exists before, input, nonce, (after ++ [call]).
  split_and!; [by rewrite <-app_assoc|done..|]. apply Forall_app. split; [done|]. by constructor.
Qed.

(** A challenge that is outstanding in the store and not marked as consumed
    for its connection. *)
Lemma active_is_outstanding calls id stored :
  (run_challenges calls).(ChallengeStore.active) !! id = Some stored →
  (stored.(StoredChallenge.connection_scope), id) ∉ (run_challenges calls).(ChallengeStore.consumed) →
  outstanding calls stored.(StoredChallenge.connection_scope) id stored.
Proof.
  unfold run_challenges. revert id stored. induction calls as [|call calls IH] using rev_ind; intros id stored; [done|].
  rewrite foldl_snoc. set (c := foldl apply_challenge ChallengeStore_default calls) in *. destruct call as [input id' nonce|scope proof key revoked now|scope]; simpl.
  - destruct (issue_result input id' nonce c) as [_ ->].
    destruct (is_ok (ChallengeStore_issue input id' nonce ChallengeStore_default).2) eqn:Hok; simpl.
    + intros [[-> <-]|[Hne Ha]]%lookup_insert_Some Hn.
      * exists calls, input, nonce, []. split_and!; done.
      * apply outstanding_snoc; [by apply IH|]. simpl. by rewrite bool_decide_false.
    + intros Ha Hn. apply outstanding_snoc; [by apply IH|]. simpl. by rewrite Hok, andb_false_r.
  - unfold ChallengeStore_verify. case_bool_decide as Hc; simpl.
    + intros Ha Hn. apply outstanding_snoc; [by apply IH|]. simpl. apply bool_decide_eq_false. intros [-> <-]. done.
    + destruct (c.(ChallengeStore.active) !! proof.(ChallengeProof.challenge_id)) as [st|] eqn:Hst; simpl.
      * intros [Hne Ha]%lookup_delete_Some Hn. apply outstanding_snoc; [apply IH; [done|set_solver]|].
        simpl. apply bool_decide_eq_false. by intros [_ ?].
      * intros Ha Hn. apply outstanding_snoc; [by apply IH|]. simpl. apply bool_decide_eq_false. intros [_ <-]. congruence.
  - intros [Ha Hne]%map_lookup_filter_Some Hn. apply outstanding_snoc.
    + apply IH; [done|]. set_solver.
    + simpl in *. apply bool_decide_eq_false. congruence.
Qed.

Lemma check_proof_ok scope proof key revoked now stored device :
  check_proof scope proof key revoked now stored = Ok device →
  stored.(StoredChallenge.connection_scope) = scope ∧ stored.(StoredChallenge.request_id) = proof.(ChallengeProof.request_id) ∧
  now < stored.(StoredChallenge.expires_at_ms) ∧ revoked = false ∧ stored.(StoredChallenge.device_id) = device ∧
  ∃ transcript, build_transcript (transcript_of stored proof.(ChallengeProof.challenge_id)) = Ok transcript ∧
    verify_transcript_signature key transcript proof.(ChallengeProof.signature_der) = Ok tt.
Proof.
  unfold check_proof. case_bool_decide as Hs; [done|].
  destruct (Z.eqb_spec stored.(StoredChallenge.request_id) proof.(ChallengeProof.request_id)); [|done]. simpl.
  destruct (Z.leb_spec stored.(StoredChallenge.expires_at_ms) now); [done|]. destruct revoked; [done|]. simpl.
  destruct (build_transcript _) as [t|] eqn:Ht; [|done]. simpl.
  destruct (verify_transcript_signature _ _ _) as [[]|] eqn:Hv; [|done]. intros [= <-]. split_and!; try done. by exists t.
Qed.

Lemma verified_challenge calls scope proof key revoked now_ms device :
  (ChallengeStore_verify scope proof key revoked now_ms (run_challenges calls)).2 = Ok device →
  revoked = false ∧
  ∃ before input nonce after transcript,
    calls = before ++ IssueCall input proof.(ChallengeProof.challenge_id) nonce :: after ∧
    input.(IssueChallenge.connection_scope) = scope ∧
    input.(IssueChallenge.request_id) = proof.(ChallengeProof.request_id) ∧
    input.(IssueChallenge.device_id) = device ∧
    now_ms < input.(IssueChallenge.now_ms) + CHALLENGE_LIFETIME_MS ∧
    build_transcript (transcript_of (stored_of input nonce (input.(IssueChallenge.now_ms) + CHALLENGE_LIFETIME_MS))
                        proof.(ChallengeProof.challenge_id)) = Ok transcript ∧
    verify_transcript_signature key transcript proof.(ChallengeProof.signature_der) = Ok tt ∧
    Forall (λ call, ends_challenge scope proof.(ChallengeProof.challenge_id) call = false) after.
Proof.
  intros Hverified. unfold ChallengeStore_verify in Hverified. case_bool_decide as Hc; [done|].
  destruct (_ !! _) as [stored|] eqn:Ha; [|done]. simpl in Hverified.
  apply check_proof_ok in Hverified as (Hs & Hr & Ht & -> & Hd & transcript & Hb & Hv). split; [done|].
  destruct (active_is_outstanding calls _ _ Ha) as (before & input & nonce & after & -> & Hscope & -> & Hafter); [by rewrite Hs|].
  simpl in *. rewrite Hs in Hafter. exists before, input, nonce, after, transcript. split_and!; done.
Qed.

(** After any sequence of issued, presented and cancelled challenges, a proof is accepted only for a challenge
    that was issued on the same connection with the same request identifier for the device that is returned,
    less than thirty seconds ago, whose transcript the signature verifies, and which since then has not been
    presented on that connection, replaced or cancelled: a challenge authenticates at most once. *)
Theorem authentication_is_fresh_and_bound calls scope proof key revoked now_ms device
    (Hverified : (ChallengeStore_verify scope proof key revoked now_ms (run_challenges calls)).2 = Ok device) :
  revoked = false ∧
  ∃ before input nonce after transcript,
    calls = before ++ IssueCall input proof.(ChallengeProof.challenge_id) nonce :: after ∧
    input.(IssueChallenge.connection_scope) = scope ∧
    input.(IssueChallenge.request_id) = proof.(ChallengeProof.request_id) ∧
    input.(IssueChallenge.device_id) = device ∧
    now_ms < input.(IssueChallenge.now_ms) + CHALLENGE_LIFETIME_MS ∧
    build_transcript (transcript_of (stored_of input nonce (input.(IssueChallenge.now_ms) + CHALLENGE_LIFETIME_MS))
                        proof.(ChallengeProof.challenge_id)) = Ok transcript ∧
    verify_transcript_signature key transcript proof.(ChallengeProof.signature_der) = Ok tt ∧
    Forall (λ call, ends_challenge scope proof.(ChallengeProof.challenge_id) call = false) after.
Proof. by apply verified_challenge. Qed.
End authentication.
