(* ===== verification/TransportBootstrap.v ===== *)
(** * Pairing links

    Models [crates/kaleido-transport/src/bootstrap.rs] and the key pins of
    [tls.rs]: the link a host shows as a QR code, its canonical text, and the
    grammar of an endpoint, with the address parsers of [std::net].

    Base64 (the alphabet for URLs, without padding) is the class [Base64], and
    the JSON of a link the class [BootstrapCodec]. *)
From stdpp Require Import prelude strings.
From Stdlib Require Import ZArith Lia Ascii.
From S2P Require Import Prelude ProtoBase ProtoContent TransportControl.

Local Open Scope Z_scope.

(** ** Characters *)

Definition has_char (c : ascii) (s : string) : bool := existsb (Ascii.eqb c) (bytes_of s).

(** [str::split_once]. *)
Fixpoint split_once (sep : ascii) (s : string) : option (string * string) :=
  match s with
  | "" => None
  | String c s' =>
      if Ascii.eqb c sep then Some ("", s')
      else match split_once sep s' with
           | Some (before, after) => Some (String c before, after)
           | None => None
           end
  end.

Definition is_ascii (s : string) : bool := forallb (λ c, (code c <? 128)%nat) (bytes_of s).

(** ** [std::net]: the textual form of addresses *)

Definition digit_value (radix : Z) (c : ascii) : option Z :=
  let v := if is_ascii_digit c then Z.of_nat (code c - 48)
           else if between 97 122 c then Z.of_nat (code c - 97 + 10)
           else if between 65 90 c then Z.of_nat (code c - 65 + 10)
           else 36 in
  if v <? radix then Some v else None.

(** The digits at the start: how many, their value, and what follows. *)
Fixpoint read_digits (radix : Z) (count : nat) (acc : Z) (s : string) : nat * Z * string :=
  match s with
  | "" => (count, acc, "")
  | String c s' =>
      match digit_value radix c with
      | Some v => read_digits radix (S count) (acc * radix + v) s'
      | None => (count, acc, s)
      end
  end.

Definition read_number (radix : Z) (max_digits : nat) (allow_zero_prefix : bool) (limit : Z) (s : string) : option string :=
  let '(count, value, rest) := read_digits radix 0 0 s in
  if (count =? 0)%nat || (max_digits <? count)%nat
     || (negb allow_zero_prefix && starts_with "0" s && (1 <? count)%nat) || (limit <? value)
  then None else Some rest.

(** [read_separator]: the separator comes before every part but the first. *)
Definition read_separator (sep : string) (index : nat) (read : string → option string) (s : string) : option string :=
  match index with
  | O => read s
  | S _ => rest ← strip_prefix sep s; read rest
  end.

Definition read_octet : string → option string := read_number 10 3 false 255.

Definition read_ipv4_addr (s : string) : option string :=
  s ← read_separator "." 0 read_octet s;
  s ← read_separator "." 1 read_octet s;
  s ← read_separator "." 2 read_octet s;
  read_separator "." 3 read_octet s.

(** How many groups were read, whether an IPv4 address ended them, what follows. *)
Fixpoint read_groups (index left : nat) (s : string) : nat * bool * string :=
  match left with
  | O => (index, false, s)
  | S left' =>
      match (match left' with O => None | S _ => read_separator ":" index read_ipv4_addr s end) with
      | Some rest => (S (S index), true, rest)
      | None =>
          match read_separator ":" index (read_number 16 4 true 65535) s with
          | Some rest => read_groups (S index) left' rest
          | None => (index, false, s)
          end
      end
  end.

Definition is_ipv4 (s : string) : bool :=
  (str_len s <=? 15) && is_some_and (read_ipv4_addr s) str_is_empty.

Definition is_ipv6 (s : string) : bool :=
  let '(head_size, head_ipv4, rest) := read_groups 0 8 s in
  if (head_size =? 8)%nat then str_is_empty rest
  else if head_ipv4 then false
  else match strip_prefix "::" rest with
       | None => false
       | Some rest => let '(_, _, rest) := read_groups 0 (7 - head_size) rest in str_is_empty rest
       end.

(** ** Endpoints *)

Definition valid_label (label : string) : bool :=
  negb (str_is_empty label) && (str_len label <=? 63) && negb (starts_with "-" label) && negb (ends_with "-" label)
  && forallb (λ byte, is_ascii_alphanumeric byte || Ascii.eqb byte "-") (bytes_of label).

Definition valid_dns_or_ipv4 (host : string) : bool :=
  if is_ipv4 host then true
  else if str_is_empty host || (253 <? str_len host) || starts_with "." host || ends_with "." host then false
  else forallb valid_label (split_on "." host).

Definition valid_port (port : string) : bool :=
  negb (str_is_empty port) && forallb is_ascii_digit (bytes_of port)
  && ((str_len port =? 1) || negb (starts_with "0" port))
  && is_some_and (digits_value 0 port) (λ number, (1 <=? number) && (number <=? 65535)).

(** The host and the port of an endpoint, checked but for the port. *)
Definition endpoint_parts (endpoint : string) : result (string * string) TransportError :=
  match strip_prefix "[" endpoint with
  | Some rest =>
      let? parts := ok_or (split_once "]" rest) TransportError.MalformedFrame in
      let? suffix := ok_or (strip_prefix ":" parts.2) TransportError.MalformedFrame in
      reject_if (has_char "%" parts.1 || negb (is_ipv6 parts.1)) TransportError.MalformedFrame ;?
      Ok (parts.1, suffix)
  | None =>
      reject_if (negb (length (filter_b (Ascii.eqb ":") (bytes_of endpoint)) =? 1)%nat) TransportError.MalformedFrame ;?
      let? parts := ok_or (split_once ":" endpoint) TransportError.MalformedFrame in
      reject_if (negb (valid_dns_or_ipv4 parts.1)) TransportError.MalformedFrame ;?
      Ok parts
  end.

Definition validate_endpoint (endpoint : string) : result unit TransportError :=
  reject_if (str_is_empty endpoint || negb (is_ascii endpoint)
             || existsb (λ c, has_char c endpoint) ["/"; "?"; "#"; "@"]%char) TransportError.MalformedFrame ;?
  let? parts := endpoint_parts endpoint in
  reject_if (str_is_empty parts.1 || negb (valid_port parts.2)) TransportError.MalformedFrame.

(** ** Links *)

Class Base64 := {
  b64_encode : list ascii → string;
  b64_decode : string → option (list ascii)
}.

Definition MAX_BOOTSTRAP_JSON_BYTES : Z := 2048.
Definition URI_PREFIX : string := "onekaleidoscope://pair/v1?data=".
Definition SECRET_LENGTH : nat := 32.

Module PairingBootstrap.
Record PairingBootstrap : Type := mk {
  host_id : HostId;
  endpoint : string;
  host_public_key_pin : string;
  secret : list ascii;
  expires_at_ms : Z
}.
End PairingBootstrap.
Abbreviation PairingBootstrap := PairingBootstrap.PairingBootstrap.

#[export] Instance PairingBootstrap_eq_dec : EqDecision PairingBootstrap.
Proof. solve_decision. Defined.

Module BootstrapWire.
Record BootstrapWire : Type := mk {
  revision : Z;
  host_id : string;
  endpoint : string;
  host_public_key_pin : string;
  secret : string;
  expires_at_ms : Z
}.
End BootstrapWire.
Abbreviation BootstrapWire := BootstrapWire.BootstrapWire.

#[export] Instance BootstrapWire_eq_dec : EqDecision BootstrapWire.
Proof. solve_decision. Defined.

Class BootstrapCodec := {
  json_of_bootstrap : BootstrapWire → option (list ascii);
  bootstrap_of_json : list ascii → option BootstrapWire
}.

Section links.
Context `{Base64}.

(** A pin is the thirty-two bytes of a digest. *)
Definition SpkiPin_parse (encoded : string) : result (list ascii) TransportError :=
  let? digest := ok_or (strip_prefix "sha256:" encoded) TransportError.InvalidKeyMaterial in
  reject_if (negb (str_len digest =? 43) || has_char "=" digest) TransportError.InvalidKeyMaterial ;?
  let? pin := ok_or (b64_decode digest) TransportError.InvalidKeyMaterial in
  reject_if (negb (length pin =? 32)%nat) TransportError.InvalidKeyMaterial ;?
  reject_if (bool_decide (b64_encode pin ≠ digest)) TransportError.InvalidKeyMaterial ;?
  Ok pin.

Definition SpkiPin_encode (pin : list ascii) : string := "sha256:" +:+ b64_encode pin.

Definition validate_bootstrap (bootstrap : PairingBootstrap) : result unit TransportError :=
  reject_if (id_is_empty bootstrap.(PairingBootstrap.host_id)
             || negb (length bootstrap.(PairingBootstrap.secret) =? SECRET_LENGTH)%nat) TransportError.MalformedFrame ;?
  validate_endpoint bootstrap.(PairingBootstrap.endpoint) ;?
  SpkiPin_parse bootstrap.(PairingBootstrap.host_public_key_pin) ;?
  Ok tt.

Definition decode_secret (encoded : string) : result (list ascii) TransportError :=
  reject_if (negb (str_len encoded =? 43) || has_char "=" encoded) TransportError.MalformedFrame ;?
  let? secret := ok_or (b64_decode encoded) TransportError.MalformedFrame in
  reject_if (negb (length secret =? SECRET_LENGTH)%nat || bool_decide (b64_encode secret ≠ encoded)) TransportError.MalformedFrame ;?
  Ok secret.

Context `{BootstrapCodec}.

Definition wire_of (bootstrap : PairingBootstrap) : BootstrapWire :=
  BootstrapWire.mk 1 (id_value bootstrap.(PairingBootstrap.host_id)) bootstrap.(PairingBootstrap.endpoint)
    bootstrap.(PairingBootstrap.host_public_key_pin) (b64_encode bootstrap.(PairingBootstrap.secret))
    bootstrap.(PairingBootstrap.expires_at_ms).

Definition encode_uri (bootstrap : PairingBootstrap) : result string TransportError :=
  validate_bootstrap bootstrap ;?
  let? json := ok_or (json_of_bootstrap (wire_of bootstrap)) TransportError.MalformedFrame in
  reject_if (MAX_BOOTSTRAP_JSON_BYTES <? Z.of_nat (length json)) TransportError.FrameTooLarge ;?
  Ok (URI_PREFIX +:+ b64_encode json).

Definition url_safe (byte : ascii) : bool := is_ascii_alphanumeric byte || Ascii.eqb byte "-" || Ascii.eqb byte "_".

Definition decode_uri (uri : string) : result PairingBootstrap TransportError :=
  let? encoded := ok_or (strip_prefix URI_PREFIX uri) TransportError.MalformedFrame in
  reject_if (str_is_empty encoded || has_char "=" encoded || negb (forallb url_safe (bytes_of encoded)))
    TransportError.MalformedFrame ;?
  let? decoded := ok_or (b64_decode encoded) TransportError.MalformedFrame in
  reject_if ((MAX_BOOTSTRAP_JSON_BYTES <? Z.of_nat (length decoded)) || bool_decide (b64_encode decoded ≠ encoded))
    TransportError.MalformedFrame ;?
  let? wire := ok_or (bootstrap_of_json decoded) TransportError.MalformedFrame in
  let? canonical := ok_or (json_of_bootstrap wire) TransportError.MalformedFrame in
  reject_if (bool_decide (canonical ≠ decoded) || negb (wire.(BootstrapWire.revision) =? 1)) TransportError.MalformedFrame ;?
  let? secret := decode_secret wire.(BootstrapWire.secret) in
  let bootstrap := PairingBootstrap.mk (mkId wire.(BootstrapWire.host_id)) wire.(BootstrapWire.endpoint)
                     wire.(BootstrapWire.host_public_key_pin) secret wire.(BootstrapWire.expires_at_ms) in
  validate_bootstrap bootstrap ;?
  Ok bootstrap.
End links.

(** RFC 4648: the encoding is read back, has four characters for three bytes
    and uses only its alphabet. *)
Class Base64Ok `{Base64} : Prop := {
  b64_decode_encode bytes : b64_decode (b64_encode bytes) = Some bytes;
  b64_length bytes : str_len (b64_encode bytes) = (4 * Z.of_nat (length bytes) + 2) / 3;
  b64_alphabet bytes : forallb url_safe (bytes_of (b64_encode bytes)) = true
}.

(** [serde_json] reads back what it wrote, and never writes nothing. *)
Class BootstrapCodecOk `{BootstrapCodec} : Prop := {
  bootstrap_of_json_of wire json : json_of_bootstrap wire = Some json → bootstrap_of_json json = Some wire;
  bootstrap_json_nonempty wire json : json_of_bootstrap wire = Some json → json ≠ []
}.

Local Opaque URI_PREFIX.

Section round_trip.
Context `{B64 : Base64, Codec : BootstrapCodec}.

Lemma decode_secret_ok encoded secret :
  decode_secret encoded = Ok secret → length secret = SECRET_LENGTH ∧ b64_encode secret = encoded.
Proof.
  unfold decode_secret. destruct (_ || _); [done|]. simpl. destruct (b64_decode encoded) as [s|]; [|done]. simpl.
  destruct (Nat.eqb_spec (length s) SECRET_LENGTH); [|done]. simpl. case_bool_decide as Hb; [done|].
  by intros [= <-].
Qed.

(** Whatever link is read, it is the one text of what it describes. *)
Lemma decoded_link_is_canonical uri bootstrap : decode_uri uri = Ok bootstrap → encode_uri bootstrap = Ok uri.
Proof.
  unfold decode_uri. destruct (strip_prefix URI_PREFIX uri) as [encoded|] eqn:Hp; [|done]. simpl.
  destruct (_ || _); [done|]. simpl. destruct (b64_decode encoded) as [decoded|]; [|done]. simpl.
  destruct (Z.ltb_spec MAX_BOOTSTRAP_JSON_BYTES (Z.of_nat (length decoded))) as [|Hl]; [done|]. simpl.
  case_bool_decide as Hc; [done|]. simpl.
  destruct (bootstrap_of_json decoded) as [wire|]; [|done]. simpl. destruct (json_of_bootstrap wire) as [json|] eqn:Hj; [|done]. simpl.
  case_bool_decide as Hd; [done|]. subst json. simpl. destruct (Z.eqb_spec wire.(BootstrapWire.revision) 1) as [Hr|]; [|done]. simpl.
  destruct (decode_secret _) as [secret|] eqn:Hs; [|done]. apply decode_secret_ok in Hs as [_ Hs]. simpl.
  destruct (validate_bootstrap _) as [[]|] eqn:Hv; [|done]. intros [= <-].
  unfold encode_uri. rewrite Hv. simpl. destruct wire as [r h e p s x]; simpl in *. unfold wire_of. simpl. subst r. rewrite Hs, Hj. simpl.
  destruct (Z.ltb_spec MAX_BOOTSTRAP_JSON_BYTES (Z.of_nat (length decoded))); [lia|]. simpl.
  apply strip_prefix_some in Hp. by rewrite Hc, Hp.
Qed.

Context `{!Base64Ok, !BootstrapCodecOk}.

Lemma no_padding bytes : has_char "=" (b64_encode bytes) = false.
Proof.
  pose proof (b64_alphabet bytes) as Ha. unfold has_char. rewrite forallb_forall in Ha. apply existsb_false. intros c Hc.
  apply Ascii.eqb_neq. intros <-. specialize (Ha _ (proj1 (list_elem_of_In _ _) Hc)). done.
Qed.

Lemma decode_encoded_secret secret : length secret = SECRET_LENGTH → decode_secret (b64_encode secret) = Ok secret.
Proof.
  intros Hl. unfold decode_secret. rewrite b64_length, Hl, no_padding, b64_decode_encode. simpl.
  by rewrite Hl, bool_decide_false by tauto.
Qed.

Lemma encoded_link_is_read bootstrap uri : encode_uri bootstrap = Ok uri → decode_uri uri = Ok bootstrap.
Proof.
  unfold encode_uri. destruct (validate_bootstrap bootstrap) as [[]|] eqn:Hv; [|done]. simpl.
  destruct (json_of_bootstrap (wire_of bootstrap)) as [json|] eqn:Hj; [|done]. simpl.
  destruct (Z.ltb_spec MAX_BOOTSTRAP_JSON_BYTES (Z.of_nat (length json))) as [|Hl]; [done|]. intros [= <-].
  unfold decode_uri. rewrite (proj2 (strip_prefix_some URI_PREFIX _ _) eq_refl). simpl.
  assert (str_is_empty (b64_encode json) = false) as Hne.
  { pose proof (b64_length json) as Hlen. destruct (b64_encode json); [|done].
    destruct json; [by apply bootstrap_json_nonempty in Hj|]. simpl length in Hlen. unfold str_len in Hlen. simpl in Hlen.
    pose proof (Z.div_le_mono 3 (4 * Z.of_nat (S (length json)) + 2) 3 ltac:(lia) ltac:(lia)) as Hd. rewrite Z.div_same in Hd; lia. }
  rewrite Hne, no_padding, b64_alphabet, b64_decode_encode. simpl.
  destruct (Z.ltb_spec MAX_BOOTSTRAP_JSON_BYTES (Z.of_nat (length json))); [lia|]. rewrite bool_decide_false by tauto. simpl.
  rewrite (bootstrap_of_json_of _ _ Hj). simpl. rewrite Hj. simpl. rewrite bool_decide_false by tauto. simpl.
  assert (length bootstrap.(PairingBootstrap.secret) = SECRET_LENGTH) as Hs.
  { unfold validate_bootstrap in Hv. destruct (Nat.eqb_spec (length bootstrap.(PairingBootstrap.secret)) SECRET_LENGTH); [done|].
    by rewrite orb_true_r in Hv. }
  rewrite (decode_encoded_secret _ Hs). simpl. destruct bootstrap as [[h] e p s x]. simpl in *. by rewrite Hv.
Qed.

(** The text of a pairing link is unique: a link is read as a bootstrap exactly when it is the text that the
    bootstrap is written as, so nothing that is read was padded, reordered, re-encoded or altered without
    being refused. *)
Theorem pairing_links_round_trip bootstrap uri : encode_uri bootstrap = Ok uri ↔ decode_uri uri = Ok bootstrap.
Proof. split; [apply encoded_link_is_read|apply decoded_link_is_canonical]. Qed.
End round_trip.
