(* ===== verification/TransportRegistry.v ===== *)
(** * The registry of paired devices

    Models [crates/kaleido-transport/src/registry.rs]: pairing secrets and paired
    devices as a snapshot that is replaced as a whole, the store that changes it,
    and its two backends.  What the store asks of a backend is the class
    [DurableBackend] with the laws [DurableBackendLaws]; [MemoryBackend] and
    [AtomicFileBackend] discharge them.

    SHA-256 is the function [sha256]; random bytes are arguments. *)
From stdpp Require Import prelude strings gmap.
From Stdlib Require Import ZArith Lia Ascii.
From S2P Require Import Prelude ProtoBase ProtoContent TransportControl TransportAuth TransportBootstrap.

Local Open Scope Z_scope.

(** ** Data *)

Module DeviceRecord.
Record DeviceRecord : Type := mk {
  device_id : DeviceId;
  public_key_spki : list ascii;
  device_label : string;
  created_at_ms : Z;
  revoked_at_ms : option Z
}.
End DeviceRecord.
Abbreviation DeviceRecord := DeviceRecord.DeviceRecord.

#[export] Instance DeviceRecord_eq_dec : EqDecision DeviceRecord.
Proof. solve_decision. Defined.

Definition DeviceRecord_set_revoked_at_ms (v : option Z) (r : DeviceRecord) : DeviceRecord := {|
  DeviceRecord.device_id := r.(DeviceRecord.device_id);
  DeviceRecord.public_key_spki := r.(DeviceRecord.public_key_spki);
  DeviceRecord.device_label := r.(DeviceRecord.device_label);
  DeviceRecord.created_at_ms := r.(DeviceRecord.created_at_ms);
  DeviceRecord.revoked_at_ms := v
|}.

Module PairingRecord.
Record PairingRecord : Type := mk {
  digest : list ascii;
  expires_at_ms : Z;
  consumed_at_ms : option Z
}.
End PairingRecord.
Abbreviation PairingRecord := PairingRecord.PairingRecord.

#[export] Instance PairingRecord_eq_dec : EqDecision PairingRecord.
Proof. solve_decision. Defined.

Definition PairingRecord_set_consumed_at_ms (v : option Z) (r : PairingRecord) : PairingRecord := {|
  PairingRecord.digest := r.(PairingRecord.digest);
  PairingRecord.expires_at_ms := r.(PairingRecord.expires_at_ms);
  PairingRecord.consumed_at_ms := v
|}.

Module RegistrySnapshot.
Record RegistrySnapshot : Type := mk {
  pairings : list PairingRecord;
  devices : gmap string DeviceRecord
}.
End RegistrySnapshot.
Abbreviation RegistrySnapshot := RegistrySnapshot.RegistrySnapshot.

#[export] Instance RegistrySnapshot_eq_dec : EqDecision RegistrySnapshot.
Proof. solve_decision. Defined.

Module IssuePairing.
Record IssuePairing : Type := mk {
  host_id : HostId;
  endpoint : string;
  host_public_key_pin : string;
  now_ms : Z
}.
End IssuePairing.
Abbreviation IssuePairing := IssuePairing.IssuePairing.

#[export] Instance IssuePairing_eq_dec : EqDecision IssuePairing.
Proof. solve_decision. Defined.

Definition DeviceRecord_is_revoked (d : DeviceRecord) : bool := is_some d.(DeviceRecord.revoked_at_ms).
Definition RegistrySnapshot_default : RegistrySnapshot := RegistrySnapshot.mk [] ∅.

(** ** Backends *)

Class DurableBackend (B : Type) := {
  backend_load : B → B * result RegistrySnapshot TransportError;
  backend_commit : RegistrySnapshot → B → B * result unit TransportError
}.

(** A backend holds one snapshot: a commit that succeeds replaces it, one that
    fails leaves the old or the new one, and a load returns it or fails. *)
Class DurableBackendLaws (B : Type) `{DurableBackend B} := {
  holds : B → RegistrySnapshot → Prop;
  load_holds b s : holds b s → holds (backend_load b).1 s ∧ ∀ s', (backend_load b).2 = Ok s' → s' = s;
  commit_holds b s s' : holds b s →
    match (backend_commit s' b).2 with
    | Ok _ => holds (backend_commit s' b).1 s'
    | Err _ => holds (backend_commit s' b).1 s ∨ holds (backend_commit s' b).1 s'
    end
}.

Module MemoryBackend.
Record MemoryBackend : Type := mk {
  committed : RegistrySnapshot
}.
End MemoryBackend.
Abbreviation MemoryBackend := MemoryBackend.MemoryBackend.

#[export] Instance memory_backend : DurableBackend MemoryBackend := {
  backend_load b := (b, Ok b.(MemoryBackend.committed));
  backend_commit snapshot _ := (MemoryBackend.mk snapshot, Ok tt)
}.

#[export] Program Instance memory_backend_laws : DurableBackendLaws MemoryBackend := {
  holds b s := b.(MemoryBackend.committed) = s
}.
Next Obligation. intros b s <-. split; [done|]. by intros s' [= <-]. Qed.
Next Obligation. done. Qed.

(** ** The store *)

Record SecurityStore (B : Type) : Type := mkSecurity { backend : B; snapshot : RegistrySnapshot }.
Arguments mkSecurity {B} backend snapshot.
Arguments backend {B} s.
Arguments snapshot {B} s.

Section registry.
Context `{P256, Base64}.
Variable sha256 : list ascii → list ascii.

Definition fresh_device_name (random : list ascii) : string := "dev_" +:+ b64_encode random.

(** Up to [attempts] draws; [entropy i] is the [i]th. *)
Fixpoint fresh_device_id (attempts index : nat) (entropy : nat → list ascii) (existing : gmap string DeviceRecord) :
    result DeviceId TransportError :=
  match attempts with
  | O => Err TransportError.Internal
  | S attempts =>
      let value := fresh_device_name (entropy index) in
      if is_some (existing !! value) then fresh_device_id attempts (S index) entropy existing else Ok (mkId value)
  end.

(** The last record with the digest. *)
Fixpoint matching_pairing (digest : list ascii) (index : nat) (matching : option nat) (pairings : list PairingRecord) : option nat :=
  match pairings with
  | [] => matching
  | record :: rest =>
      matching_pairing digest (S index) (if bool_decide (record.(PairingRecord.digest) = digest) then Some index else matching) rest
  end.

Section store.
Context {B : Type} `{DurableBackend B}.

Definition SecurityStore_open (b : B) : B * result (SecurityStore B) TransportError :=
  let (b, loaded) := backend_load b in
  (b, let? s := loaded in
      try_for_each (λ device, validate_p256_spki device.(DeviceRecord.public_key_spki)) (btree_values s.(RegistrySnapshot.devices)) ;?
      Ok (mkSecurity b s)).

(** [backend.commit(&next)?; self.snapshot = next]. *)
Definition commit_snapshot {T} (next : RegistrySnapshot) (value : T) (st : SecurityStore B) : SecurityStore B * result T TransportError :=
  match backend_commit next st.(backend) with
  | (b, Ok _) => (mkSecurity b next, Ok value)
  | (b, Err e) => (mkSecurity b st.(snapshot), Err e)
  end.

(** The snapshot with the digest of [secret], the 32 bytes drawn by [OsRng]. *)
Definition issued (input : IssuePairing) (secret : list ascii) (s : RegistrySnapshot) :
    result (RegistrySnapshot * PairingBootstrap) TransportError :=
  reject_if (id_is_empty input.(IssuePairing.host_id)) TransportError.MalformedFrame ;?
  validate_endpoint input.(IssuePairing.endpoint) ;?
  SpkiPin_parse input.(IssuePairing.host_public_key_pin) ;?
  let? expires_at_ms := ok_or (checked_add_i64 input.(IssuePairing.now_ms) PAIRING_LIFETIME_MS) TransportError.TimeOverflow in
  let digest := sha256 secret in
  reject_if (existsb (λ record, bool_decide (record.(PairingRecord.digest) = digest)) s.(RegistrySnapshot.pairings))
    TransportError.Internal ;?
  Ok (RegistrySnapshot.mk (s.(RegistrySnapshot.pairings) ++ [PairingRecord.mk digest expires_at_ms None]) s.(RegistrySnapshot.devices),
      PairingBootstrap.mk input.(IssuePairing.host_id) input.(IssuePairing.endpoint) input.(IssuePairing.host_public_key_pin)
        secret expires_at_ms).

Definition issue_pairing (input : IssuePairing) (secret : list ascii) (st : SecurityStore B) :
    SecurityStore B * result PairingBootstrap TransportError :=
  match issued input secret st.(snapshot) with
  | Err e => (st, Err e)
  | Ok (next, bootstrap) => commit_snapshot next bootstrap st
  end.

(** The snapshot with the secret consumed and the device registered. *)
Definition paired (request : PairRequest) (now_ms : Z) (entropy : nat → list ascii) (s : RegistrySnapshot) :
    result (RegistrySnapshot * DeviceRecord) TransportError :=
  reject_if (request.(PairRequest.request_id) =? 0) TransportError.MalformedFrame ;?
  reject_if (negb (length request.(PairRequest.secret) =? 32)%nat) TransportError.PairingInvalid ;?
  map_err (λ _, TransportError.AuthenticationFailed) (validate_p256_spki request.(PairRequest.device_public_key_spki)) ;?
  let label := trim request.(PairRequest.device_label) in
  reject_if (negb ((1 <=? char_count label)%nat && (char_count label <=? 80)%nat)) TransportError.AuthenticationFailed ;?
  let? index := ok_or (matching_pairing (sha256 request.(PairRequest.secret)) 0 None s.(RegistrySnapshot.pairings)) TransportError.PairingInvalid in
  let? record := ok_or (s.(RegistrySnapshot.pairings) !! index) TransportError.PairingInvalid in
  reject_if (is_some record.(PairingRecord.consumed_at_ms) || (record.(PairingRecord.expires_at_ms) <=? now_ms)) TransportError.PairingInvalid ;?
  let? device_id := fresh_device_id 8 0 entropy s.(RegistrySnapshot.devices) in
  let device := DeviceRecord.mk device_id request.(PairRequest.device_public_key_spki) label now_ms None in
  Ok (RegistrySnapshot.mk (<[index := PairingRecord_set_consumed_at_ms (Some now_ms) record]> s.(RegistrySnapshot.pairings))
        (<[id_value device_id := device]> s.(RegistrySnapshot.devices)), device).

Definition pair_device (request : PairRequest) (now_ms : Z) (entropy : nat → list ascii) (st : SecurityStore B) :
    SecurityStore B * result DeviceRecord TransportError :=
  match paired request now_ms entropy st.(snapshot) with
  | Err e => (st, Err e)
  | Ok (next, device) => commit_snapshot next device st
  end.

Definition device_for_auth (device_id : DeviceId) (st : SecurityStore B) : result DeviceRecord TransportError :=
  let? device := ok_or (st.(snapshot).(RegistrySnapshot.devices) !! id_value device_id) TransportError.AuthenticationFailed in
  if DeviceRecord_is_revoked device then Err TransportError.AuthenticationFailed else Ok device.

Definition revoked (device_id : DeviceId) (revoked_at_ms : Z) (s : RegistrySnapshot) : result RegistrySnapshot TransportError :=
  let? current := ok_or (s.(RegistrySnapshot.devices) !! id_value device_id) TransportError.AuthenticationFailed in
  reject_if (is_some current.(DeviceRecord.revoked_at_ms)) TransportError.DeviceRevoked ;?
  Ok (RegistrySnapshot.mk s.(RegistrySnapshot.pairings)
        (<[id_value device_id := DeviceRecord_set_revoked_at_ms (Some revoked_at_ms) current]> s.(RegistrySnapshot.devices))).

(** [after_durable] acts on a state [A] of the caller, and only after the commit. *)
Definition revoke_and_then {A} (device_id : DeviceId) (revoked_at_ms : Z) (after_durable : DeviceId → A → A) (a : A)
    (st : SecurityStore B) : SecurityStore B * A * result unit TransportError :=
  match revoked device_id revoked_at_ms st.(snapshot) with
  | Err e => (st, a, Err e)
  | Ok next =>
      match commit_snapshot next tt st with
      | (st, Ok _) => (st, after_durable device_id a, Ok tt)
      | (st, Err e) => (st, a, Err e)
      end
  end.

Definition device_count (st : SecurityStore B) : nat := size st.(snapshot).(RegistrySnapshot.devices).

Definition revoked_device_ids (st : SecurityStore B) : list DeviceId :=
  filter_map (λ device, if DeviceRecord_is_revoked device then Some device.(DeviceRecord.device_id) else None)
    (btree_values st.(snapshot).(RegistrySnapshot.devices)).
End store.
End registry.
