(* ===== verification/PrivateFiles.v ===== *)
(** * Private files

    Models [crates/kaleido-transport/src/private_file.rs], the [AtomicFileBackend]
    of [registry.rs] and the replacement of a file in [platform/linux.rs]: a file
    is written beside its target, synchronised, and renamed over it.

    A directory is a map from names to contents with a script of faults: each
    call of the system takes one entry, and an entry [Some n] makes it fail, a
    write after [n] bytes.  Permissions are checked by calls that may fail. *)
From stdpp Require Import prelude strings gmap.
From Stdlib Require Import ZArith Lia Ascii.
From S2P Require Import Prelude ProtoBase ProtoContent TransportControl TransportAuth TransportBootstrap TransportRegistry.

Local Open Scope Z_scope.

(** [entropy] yields the bytes of each draw of [OsRng]. *)
Module PrivateDirectory.
Record PrivateDirectory : Type := mk {
  files : gmap string (list ascii);
  faults : list (option nat);
  entropy : nat → list ascii;
  drawn : nat
}.
End PrivateDirectory.
Abbreviation PrivateDirectory := PrivateDirectory.PrivateDirectory.

Definition PrivateDirectory_set_files (v : gmap string (list ascii)) (r : PrivateDirectory) : PrivateDirectory := {|
  PrivateDirectory.files := v;
  PrivateDirectory.faults := r.(PrivateDirectory.faults);
  PrivateDirectory.entropy := r.(PrivateDirectory.entropy);
  PrivateDirectory.drawn := r.(PrivateDirectory.drawn)
|}.

Definition PrivateDirectory_set_faults (v : list (option nat)) (r : PrivateDirectory) : PrivateDirectory := {|
  PrivateDirectory.files := r.(PrivateDirectory.files);
  PrivateDirectory.faults := v;
  PrivateDirectory.entropy := r.(PrivateDirectory.entropy);
  PrivateDirectory.drawn := r.(PrivateDirectory.drawn)
|}.

Definition PrivateDirectory_set_drawn (v : nat) (r : PrivateDirectory) : PrivateDirectory := {|
  PrivateDirectory.files := r.(PrivateDirectory.files);
  PrivateDirectory.faults := r.(PrivateDirectory.faults);
  PrivateDirectory.entropy := r.(PrivateDirectory.entropy);
  PrivateDirectory.drawn := v
|}.

(** An operation of a component whose errors are [F]. *)
Definition vault (F T : Type) : Type := PrivateDirectory → PrivateDirectory * result T F.

#[export] Instance vault_ret F : MRet (vault F) := λ T value d, (d, Ok value).
#[export] Instance vault_bind F : MBind (vault F) := λ T U k m d,
  match m d with
  | (d, Ok value) => k value d
  | (d, Err e) => (d, Err e)
  end.

Definition vault_fail {F T} (e : F) : vault F T := λ d, (d, Err e).
Definition vault_files {F} : vault F (gmap string (list ascii)) := λ d, (d, Ok d.(PrivateDirectory.files)).
Definition vault_put {F} (name : string) (content : list ascii) : vault F unit := λ d,
  (PrivateDirectory_set_files (<[name := content]> d.(PrivateDirectory.files)) d, Ok tt).
Definition vault_drop {F} (name : string) : vault F unit := λ d,
  (PrivateDirectory_set_files (delete name d.(PrivateDirectory.files)) d, Ok tt).
Definition vault_fault {F} : vault F (option nat) := λ d,
  (PrivateDirectory_set_faults (tail d.(PrivateDirectory.faults)) d, Ok (default None (head d.(PrivateDirectory.faults)))).
Definition vault_draw {F} : vault F (list ascii) := λ d,
  (PrivateDirectory_set_drawn (S d.(PrivateDirectory.drawn)) d, Ok (d.(PrivateDirectory.entropy) d.(PrivateDirectory.drawn))).

(** A call that only succeeds or fails, with the error it is mapped to. *)
Definition vault_attempt {F} (e : F) : vault F unit :=
  fault ← vault_fault;
  match fault with
  | None => mret tt
  | Some _ => vault_fail e
  end.

Definition vault_exists {F} (name : string) : vault F bool := files ← vault_files; mret (is_some (files !! name)).

(** *** [platform/linux.rs] *)

Definition prepare_private_directory : vault TransportError unit := vault_attempt TransportError.InsecurePermissions.
Definition verify_private_path : vault TransportError unit := vault_attempt TransportError.InsecurePermissions.

(** [secure_private_file(path, true)] *)
Definition secure_private_file {F} (e : F) (name : string) : vault F unit :=
  present ← vault_exists name;
  if (present : bool) then vault_fail e
  else _ ← vault_attempt e; vault_put name [].

Definition atomic_replace {F} (e : F) (source target : string) : vault F unit :=
  _ ← vault_attempt e;
  files ← vault_files;
  match files !! source with
  | None => vault_fail e
  | Some content =>
      _ ← vault_drop source;
      _ ← vault_put target content;
      _ ← vault_attempt e;
      vault_attempt e
  end.

(** *** The replacement of a private file *)

Definition write_all {F} (e : F) (name : string) (bytes : list ascii) : vault F unit :=
  fault ← vault_fault;
  match fault with
  | None => vault_put name bytes
  | Some written => _ ← vault_put name (take written bytes); vault_fail e
  end.

Definition write_and_replace {F} (e : F) (temporary target : string) (bytes : list ascii) : vault F unit :=
  _ ← write_all e temporary bytes;
  _ ← vault_attempt e;
  atomic_replace e temporary target.

(** [let _ = fs::remove_file(..)] *)
Definition vault_discard {F} (name : string) : vault F unit :=
  fault ← vault_fault;
  match fault with
  | None => vault_drop name
  | Some _ => mret tt
  end.

(** [if result.is_err() { let _ = fs::remove_file(..); }] *)
Definition removing_on_error {F T} (name : string) (op : vault F T) : vault F T := λ d,
  match op d with
  | (d, Ok value) => (d, Ok value)
  | (d, Err e) => ((vault_discard (F := F) name d).1, Err e)
  end.

Section private.
Context `{Base64}.

Definition temporary_file (prefix : string) (random : list ascii) : string := prefix +:+ b64_encode random +:+ ".tmp".

Definition write_private (prefix target : string) (bytes : list ascii) : vault TransportError unit :=
  _ ← prepare_private_directory;
  present ← vault_exists target;
  _ ← (if (present : bool) then verify_private_path else mret tt);
  random ← vault_draw;
  let temporary := temporary_file prefix random in
  _ ← secure_private_file TransportError.Persistence temporary;
  removing_on_error temporary (write_and_replace TransportError.Persistence temporary target bytes).

Definition read_private (target : string) : vault TransportError (option (list ascii)) :=
  present ← vault_exists target;
  if (present : bool) then
    _ ← verify_private_path;
    _ ← vault_attempt TransportError.Persistence;
    _ ← vault_attempt TransportError.Persistence;
    files ← vault_files;
    mret (files !! target)
  else mret None.

Definition PrivateFileStore_load (path : string) : vault TransportError (option (list ascii)) := read_private path.
Definition PrivateFileStore_store (path : string) (bytes : list ascii) : vault TransportError unit := write_private ".private-" path bytes.

Class RegistryCodec := {
  json_of_registry : RegistrySnapshot → option (list ascii);
  registry_of_json : list ascii → option RegistrySnapshot
}.

Context `{RegistryCodec}.

Definition read_snapshot (path : string) : vault TransportError RegistrySnapshot :=
  content ← read_private path;
  match content with
  | None => mret RegistrySnapshot_default
  | Some bytes =>
      match registry_of_json bytes with
      | Some snapshot => mret snapshot
      | None => vault_fail TransportError.InvalidKeyMaterial
      end
  end.

Definition write_snapshot (path : string) (snapshot : RegistrySnapshot) : vault TransportError unit :=
  match json_of_registry snapshot with
  | None => vault_fail TransportError.InvalidKeyMaterial
  | Some bytes => write_private ".registry-" path bytes
  end.
End private.

(** ** What a write leaves behind *)

(** From files in [P], [op] ends with [Q] when it succeeds and with [E] when it fails. *)
Definition vault_triple {F T} (P : gmap string (list ascii) → Prop) (op : vault F T) (Q : T → gmap string (list ascii) → Prop)
    (E : gmap string (list ascii) → Prop) : Prop :=
  ∀ d, P d.(PrivateDirectory.files) →
    match op d with
    | (d', Ok v) => Q v d'.(PrivateDirectory.files)
    | (d', Err _) => E d'.(PrivateDirectory.files)
    end.

Lemma vt_bind {F T U} P (op : vault F T) Q E (k : T → vault F U) R :
  vault_triple P op Q E → (∀ v, vault_triple (Q v) (k v) R E) → vault_triple P (op ≫= k) R E.
Proof.
  intros Hop Hk d Hd. specialize (Hop d Hd). unfold mbind, vault_bind. destruct (op d) as [d' [v|e]]; [|done]. by apply Hk.
Qed.

Lemma vt_ret {F T} P (v : T) Q E : (∀ f, P f → Q v f) → vault_triple P (mret v : vault F T) Q E.
Proof. intros Hq d Hd. by apply Hq. Qed.
Lemma vt_fail {F T} P (e : F) (Q : T → _ → Prop) (E : _ → Prop) : (∀ f, P f → E f) → vault_triple P (vault_fail e) Q E.
Proof. intros He d Hd. by apply He. Qed.
Lemma vt_files {F} P E : vault_triple P (vault_files (F := F)) (λ files f, files = f ∧ P f) E.
Proof. by intros d Hd. Qed.
Lemma vt_put {F} P name content (Q : unit → _ → Prop) E : (∀ f, P f → Q tt (<[name := content]> f)) → vault_triple P (vault_put (F := F) name content) Q E.
Proof. intros Hq d Hd. by apply Hq. Qed.
Lemma vt_drop {F} P name (Q : unit → _ → Prop) E : (∀ f, P f → Q tt (delete name f)) → vault_triple P (vault_drop (F := F) name) Q E.
Proof. intros Hq d Hd. by apply Hq. Qed.
Lemma vt_fault {F} P E : vault_triple P (vault_fault (F := F)) (λ _, P) E.
Proof. by intros d Hd. Qed.
Lemma vt_draw {F} P E : vault_triple P (vault_draw (F := F)) (λ _, P) E.
Proof. by intros d Hd. Qed.
Lemma vt_attempt {F} P (e : F) (E : _ → Prop) : (∀ f, P f → E f) → vault_triple P (vault_attempt e) (λ _, P) E.
Proof.
  intros He. unfold vault_attempt. eapply vt_bind; [apply vt_fault|]. intros [n|]; [by apply vt_fail|by apply vt_ret].
Qed.
Lemma vt_exists {F} P name E : vault_triple P (vault_exists (F := F) name) (λ present f, present = is_some (f !! name) ∧ P f) E.
Proof. by intros d Hd. Qed.

Section replacement.
Context `{Base64}.

(** The file at [target] is the old one, or the new one whole. *)
Definition old_or_new (target : string) (old : option (list ascii)) (bytes : list ascii) (f : gmap string (list ascii)) : Prop :=
  f !! target = old ∨ f !! target = Some bytes.

Lemma write_and_replace_spec {F} (e : F) temporary target old bytes :
  temporary ≠ target →
  vault_triple (λ f, f !! target = old) (write_and_replace e temporary target bytes)
    (λ _ f, f !! target = Some bytes) (old_or_new target old bytes).
Proof.
  intros Hne. unfold write_and_replace.
  eapply (vt_bind _ _ (λ _ f, f !! target = old ∧ f !! temporary = Some bytes)).
  { unfold write_all. eapply vt_bind; [apply vt_fault|]. intros [n|].
    - eapply vt_bind with (Q := λ _ f, f !! target = old); [apply vt_put; intros f Hf; by rewrite lookup_insert_ne|].
      intros ?. apply vt_fail. intros f Hf. by left.
    - apply vt_put. intros f Hf. by rewrite lookup_insert_ne, lookup_insert_eq. }
  intros ?. eapply vt_bind; [apply vt_attempt; intros f [Hf _]; by left|]. intros ?. unfold atomic_replace.
  eapply vt_bind; [apply vt_attempt; intros f [Hf _]; by left|]. intros ?. eapply vt_bind; [apply vt_files|]. intros files. simpl.
  destruct (files !! temporary) as [content|] eqn:Hc; [|apply vt_fail; intros f (-> & Hf & Ht); congruence].
  eapply vt_bind with (Q := λ _ f, f !! target = old ∧ content = bytes).
  { apply vt_drop. intros f (-> & Hf & Ht). rewrite lookup_delete_ne by done. split; [done|congruence]. }
  intros ?. eapply vt_bind with (Q := λ _ f, f !! target = Some bytes).
  { apply vt_put. intros f [_ ->]. by rewrite lookup_insert_eq. }
  intros ?. eapply vt_bind; [apply vt_attempt; intros f Hf; by right|]. intros ?. apply vt_attempt. intros f Hf. by right.
Qed.

Lemma removing_on_error_spec {F T} name target old bytes P (op : vault F T) Q :
  name ≠ target → vault_triple P op Q (old_or_new target old bytes) →
  vault_triple P (removing_on_error name op) Q (old_or_new target old bytes).
Proof.
  intros Hne Hop d Hd. specialize (Hop d Hd). unfold removing_on_error. destruct (op d) as [d' [v|e]]; [done|].
  unfold vault_discard, mbind, vault_bind, vault_fault. simpl. destruct (default None (head d'.(PrivateDirectory.faults))); [done|].
  simpl. unfold old_or_new in *. by rewrite lookup_delete_ne.
Qed.

Lemma write_private_spec prefix target old bytes :
  (∀ random, temporary_file prefix random ≠ target) →
  vault_triple (λ f, f !! target = old) (write_private prefix target bytes) (λ _ f, f !! target = Some bytes) (old_or_new target old bytes).
Proof.
  intros Hne. unfold write_private, prepare_private_directory, verify_private_path.
  eapply vt_bind; [apply vt_attempt; intros f Hf; by left|]. intros ?. eapply vt_bind; [apply vt_exists|]. intros present.
  eapply vt_bind with (Q := λ _ f, f !! target = old).
  { destruct present; [|by apply vt_ret; intros f [_ Hf]].
    intros d [_ Hd]. pose proof (vt_attempt (λ f, f !! target = old) TransportError.InsecurePermissions (old_or_new target old bytes)) as Ha.
    apply Ha; [|done]. intros f Hf. by left. }
  intros ?. eapply vt_bind; [apply vt_draw|]. intros random.
  eapply vt_bind with (Q := λ _ f, f !! target = old).
  { unfold secure_private_file. eapply vt_bind; [apply vt_exists|]. intros []; [apply vt_fail; intros f [_ Hf]; by left|].
    eapply vt_bind; [apply vt_attempt; intros f [_ Hf]; by left|]. intros ?. apply vt_put. intros f [_ Hf]. by rewrite lookup_insert_ne. }
  intros ?. apply removing_on_error_spec; [done|]. by apply write_and_replace_spec.
Qed.

Lemma read_private_spec target old :
  vault_triple (λ f, f !! target = old) (read_private target) (λ content f, f !! target = old ∧ content = old) (λ f, f !! target = old).
Proof.
  unfold read_private, verify_private_path. eapply vt_bind; [apply vt_exists|]. intros [].
  - do 3 (eapply vt_bind; [apply vt_attempt; by intros f [_ Hf]|]; intros ?). eapply vt_bind; [apply vt_files|].
    intros files. apply vt_ret. intros f (-> & _ & Hf). done.
  - apply vt_ret. intros f [Hp Hf]. split; [done|]. rewrite <-Hf. by destruct (f !! target).
Qed.

(** A temporary name ends as no target does. *)
Lemma temporary_file_is_not target prefix random : ends_with ".tmp" target = false → temporary_file prefix random ≠ target.
Proof. intros Ht <-. apply not_true_iff_false in Ht. apply Ht, ends_with_spec. exists (prefix +:+ b64_encode random). unfold temporary_file. by rewrite append_assoc. Qed.
End replacement.

(** ** The file is a lawful backend *)

(** [serde_json] reads back the snapshots it writes. *)
Class RegistryCodecOk `{RegistryCodec} : Prop := {
  registry_of_json_of snapshot bytes : json_of_registry snapshot = Some bytes → registry_of_json bytes = Some snapshot
}.

Module AtomicFileBackend.
Record AtomicFileBackend : Type := mk {
  directory : PrivateDirectory
}.
End AtomicFileBackend.
Abbreviation AtomicFileBackend := AtomicFileBackend.AtomicFileBackend.

Section backend.
Context `{Base64, Codec : RegistryCodec, !RegistryCodecOk}.
Variable path : string.

(** What a load of the file returns. *)
Definition file_holds (f : gmap string (list ascii)) (s : RegistrySnapshot) : Prop :=
  match f !! path with
  | None => s = RegistrySnapshot_default
  | Some bytes => registry_of_json bytes = Some s
  end.

Definition in_directory {T} (op : vault TransportError T) (b : AtomicFileBackend) : AtomicFileBackend * result T TransportError :=
  let (d, r) := op b.(AtomicFileBackend.directory) in (AtomicFileBackend.mk d, r).

Definition atomic_file_backend : DurableBackend AtomicFileBackend := {|
  backend_load := in_directory (read_snapshot path);
  backend_commit snapshot := in_directory (write_snapshot path snapshot)
|}.

Hypothesis path_is_no_temporary : ends_with ".tmp" path = false.

Lemma read_snapshot_spec s :
  vault_triple (λ f, file_holds f s) (read_snapshot path) (λ s' f, file_holds f s ∧ s' = s) (λ f, file_holds f s).
Proof.
  intros d Hd. pose proof (read_private_spec path (d.(PrivateDirectory.files) !! path) d eq_refl) as Hr.
  unfold read_snapshot, mbind, vault_bind. unfold file_holds in *. destruct (read_private path d) as [d' [content|e]]; [|by rewrite Hr].
  destruct Hr as [Hf ->]. destruct (d.(PrivateDirectory.files) !! path) as [bytes|]; [|by subst; simpl; rewrite Hf].
  rewrite Hd. simpl. by rewrite Hf.
Qed.

Lemma write_snapshot_spec s s' :
  vault_triple (λ f, file_holds f s) (write_snapshot path s') (λ _ f, file_holds f s') (λ f, file_holds f s ∨ file_holds f s').
Proof.
  intros d Hd. unfold write_snapshot. destruct (json_of_registry s') as [bytes|] eqn:Hj; [|by left].
  pose proof (write_private_spec ".registry-" path (d.(PrivateDirectory.files) !! path) bytes
                (λ random, temporary_file_is_not path _ random path_is_no_temporary) d eq_refl) as Hw.
  apply registry_of_json_of in Hj. unfold file_holds in *. destruct (write_private _ _ _ d) as [d' [v|e]]; [by rewrite Hw|].
  destruct Hw as [Hw|Hw]; rewrite Hw; [by left|by right].
Qed.

#[local] Existing Instance atomic_file_backend.

Program Definition atomic_file_backend_laws : DurableBackendLaws AtomicFileBackend := {|
  holds b s := file_holds b.(AtomicFileBackend.directory).(PrivateDirectory.files) s
|}.
Next Obligation.
  intros [d] s Hs. pose proof (read_snapshot_spec s d Hs) as Hr. simpl. unfold in_directory. simpl.
  destruct (read_snapshot path d) as [d' [s'|e]]; simpl in *; [|done]. destruct Hr as [Hr ->]. split; [done|]. by intros s2 [= <-].
Qed.
Next Obligation.
  intros [d] s s' Hs. pose proof (write_snapshot_spec s s' d Hs) as Hw. simpl. unfold in_directory. simpl.
  by destruct (write_snapshot path s' d) as [d' [v|e]].
Qed.
End backend.
