(* ===== verification/RegistryProofs.v ===== *)
(** * What the registry promises

    The changes of a snapshot as a step relation, what they preserve, and the
    promises that survive any sequence of calls, failed commits and restarts, for
    every backend that obeys its laws. *)
From stdpp Require Import prelude strings gmap.
From Stdlib Require Import ZArith Lia Ascii.
From S2P Require Import Prelude ProtoBase ProtoContent TransportControl TransportAuth TransportBootstrap TransportRegistry.

Local Open Scope Z_scope.

Lemma matching_pairing_spec digest pairings : ∀ index matching i,
  matching_pairing digest index matching pairings = Some i →
  (∃ r, pairings !! (i - index)%nat = Some r ∧ r.(PairingRecord.digest) = digest ∧ (index ≤ i)%nat) ∨ matching = Some i.
Proof.
  induction pairings as [|r pairings IH]; intros index matching i; simpl; [by right|]. intros Hm%IH.
  destruct Hm as [(r' & Hr & Hd & Hi)|Hm].
  - left. exists r'. split_and!; [|done|lia]. by replace (i - index)%nat with (S (i - S index)) by lia.
  - case_bool_decide as Hd; [|by right]. injection Hm as ->. left. exists r. split_and!; [|done|lia]. by rewrite Nat.sub_diag.
Qed.

Lemma matching_pairing_found digest pairings i :
  matching_pairing digest 0 None pairings = Some i → ∃ r, pairings !! i = Some r ∧ r.(PairingRecord.digest) = digest.
Proof. intros [(r & Hr & Hd & _)|?]%matching_pairing_spec; [|done]. exists r. by rewrite Nat.sub_0_r in Hr. Qed.

(** ** Steps of a snapshot *)

Section steps.
Context `{P256}.

Inductive registry_step (s : RegistrySnapshot) : RegistrySnapshot → Prop :=
| step_issue digest expires_at_ms :
    digest ∉ PairingRecord.digest <$> s.(RegistrySnapshot.pairings) →
    registry_step s (RegistrySnapshot.mk (s.(RegistrySnapshot.pairings) ++ [PairingRecord.mk digest expires_at_ms None])
                       s.(RegistrySnapshot.devices))
| step_pair index record device now_ms :
    s.(RegistrySnapshot.pairings) !! index = Some record → record.(PairingRecord.consumed_at_ms) = None →
    s.(RegistrySnapshot.devices) !! id_value device.(DeviceRecord.device_id) = None →
    validate_p256_spki device.(DeviceRecord.public_key_spki) = Ok tt → device.(DeviceRecord.revoked_at_ms) = None →
    registry_step s
      (RegistrySnapshot.mk (<[index := PairingRecord_set_consumed_at_ms (Some now_ms) record]> s.(RegistrySnapshot.pairings))
         (<[id_value device.(DeviceRecord.device_id) := device]> s.(RegistrySnapshot.devices)))
| step_revoke device revoked_at_ms :
    s.(RegistrySnapshot.devices) !! id_value device.(DeviceRecord.device_id) = Some device →
    registry_step s
      (RegistrySnapshot.mk s.(RegistrySnapshot.pairings)
         (<[id_value device.(DeviceRecord.device_id) := DeviceRecord_set_revoked_at_ms (Some revoked_at_ms) device]> s.(RegistrySnapshot.devices))).

(** Digests are distinct, a device is stored under its identifier, and its key is valid. *)
Record registry_wf (s : RegistrySnapshot) : Prop := {
  wf_digests : NoDup (PairingRecord.digest <$> s.(RegistrySnapshot.pairings));
  wf_devices key device : s.(RegistrySnapshot.devices) !! key = Some device →
    id_value device.(DeviceRecord.device_id) = key ∧ validate_p256_spki device.(DeviceRecord.public_key_spki) = Ok tt
}.

Lemma consumed_digests index record now_ms (pairings : list PairingRecord) :
  pairings !! index = Some record →
  PairingRecord.digest <$> <[index := PairingRecord_set_consumed_at_ms (Some now_ms) record]> pairings = PairingRecord.digest <$> pairings.
Proof. intros Hi. rewrite list_fmap_insert. simpl. apply list_insert_id. by rewrite list_lookup_fmap, Hi. Qed.

Lemma registry_wf_step s s' : registry_wf s → registry_step s s' → registry_wf s'.
Proof.
  intros [Hd Hv] Hs. destruct Hs as [digest at_ Hnew|index record device now Hi Hc Hf Hk Hr|device at_ Hdev]; split; simpl.
  - rewrite fmap_app. apply NoDup_app. split_and!; [done| |apply NoDup_singleton]. simpl. set_solver.
  - done.
  - by rewrite consumed_digests.
  - intros key d [[<- <-]|[_ Hl]]%lookup_insert_Some; [done|by apply Hv].
  - done.
  - intros key d [[<- <-]|[_ Hl]]%lookup_insert_Some; [|by apply Hv]. simpl. split; [done|]. by eapply Hv.
Qed.

(** ** Promises that steps keep *)

(** A pairing secret with this digest was consumed. *)
Definition secret_spent (digest : list ascii) (s : RegistrySnapshot) : Prop :=
  ∃ index record, s.(RegistrySnapshot.pairings) !! index = Some record ∧ record.(PairingRecord.digest) = digest ∧
    is_some record.(PairingRecord.consumed_at_ms) = true.

Definition revoked_in (device_id : DeviceId) (s : RegistrySnapshot) : Prop :=
  ∃ device, s.(RegistrySnapshot.devices) !! id_value device_id = Some device ∧ device.(DeviceRecord.device_id) = device_id ∧
    DeviceRecord_is_revoked device = true.

Lemma secret_spent_step digest s s' : secret_spent digest s → registry_step s s' → secret_spent digest s'.
Proof.
  intros (i & r & Hr & Hd & Hc) Hs. destruct Hs as [d at_ Hnew|index record device now Hi Hn Hf Hk Hrev|device at_ Hdev].
  - exists i, r. split_and!; [|done..]. simpl. by apply lookup_app_l_Some.
  - exists i, r. split_and!; [|done..]. simpl. rewrite list_lookup_insert_ne; [done|]. intros ->. rewrite Hi in Hr. injection Hr as ->.
    by rewrite Hn in Hc.
  - by exists i, r.
Qed.

Lemma revoked_in_step device_id s s' : revoked_in device_id s → registry_step s s' → revoked_in device_id s'.
Proof.
  intros (d & Hl & Hid & Hr) Hs. destruct Hs as [dg at_ Hnew|index record device now Hi Hn Hf Hk Hrev|device at_ Hdev].
  - by exists d.
  - exists d. split_and!; [|done..]. simpl. rewrite lookup_insert_ne; [done|]. intros E. by rewrite E, Hl in Hf.
  - destruct (decide (id_value device.(DeviceRecord.device_id) = id_value device_id)) as [E|E].
    + rewrite E, Hl in Hdev. injection Hdev as ->. eexists. simpl. rewrite E, lookup_insert_eq. split_and!; done.
    + exists d. simpl. rewrite lookup_insert_ne by done. done.
Qed.

(** ** What the operations commit *)

Context `{Base64}.
Variable sha256 : list ascii → list ascii.

Lemma fresh_device_id_fresh attempts entropy existing : ∀ index id,
  fresh_device_id attempts index entropy existing = Ok id → existing !! id_value id = None.
Proof.
  induction attempts as [|n IH]; intros index id; simpl; [done|].
  destruct (existing !! fresh_device_name (entropy index)) eqn:E; simpl; [apply IH|]. by intros [= <-].
Qed.

#[local] Arguments fresh_device_id : simpl never.

Lemma issued_step input secret s s' bootstrap :
  issued sha256 input secret s = Ok (s', bootstrap) → registry_step s s' ∧ s'.(RegistrySnapshot.devices) = s.(RegistrySnapshot.devices).
Proof.
  unfold issued. destruct (id_is_empty _); [done|]. simpl. destruct (validate_endpoint _); [|done]. simpl.
  destruct (SpkiPin_parse _); [|done]. simpl. destruct (checked_add_i64 _ _) as [at_|]; [|done]. simpl.
  destruct (existsb _ _) eqn:E; [done|]. simpl. intros [= <- <-]. split; [|done]. constructor. rewrite list_elem_of_fmap. intros (r & Hd & Hr).
  rewrite existsb_false in E. specialize (E r Hr). by rewrite bool_decide_eq_false, Hd in E.
Qed.

Lemma paired_ok request now_ms entropy s s' device :
  paired sha256 request now_ms entropy s = Ok (s', device) →
  registry_step s s' ∧ ∃ index record,
    s.(RegistrySnapshot.pairings) !! index = Some record ∧ record.(PairingRecord.digest) = sha256 request.(PairRequest.secret) ∧
    record.(PairingRecord.consumed_at_ms) = None ∧ now_ms < record.(PairingRecord.expires_at_ms) ∧
    s'.(RegistrySnapshot.pairings) = <[index := PairingRecord_set_consumed_at_ms (Some now_ms) record]> s.(RegistrySnapshot.pairings) ∧
    s.(RegistrySnapshot.devices) !! id_value device.(DeviceRecord.device_id) = None ∧
    s'.(RegistrySnapshot.devices) = <[id_value device.(DeviceRecord.device_id) := device]> s.(RegistrySnapshot.devices) ∧
    device.(DeviceRecord.public_key_spki) = request.(PairRequest.device_public_key_spki) ∧ device.(DeviceRecord.revoked_at_ms) = None.
Proof.
  unfold paired. destruct (_ =? 0); [done|]. simpl. destruct (_ =? 32)%nat; [|done]. simpl.
  destruct (validate_p256_spki _) as [[]|] eqn:Hk; [|done]. simpl. destruct (_ && _); [|done]. simpl.
  destruct (matching_pairing _ _ _ _) as [index|] eqn:Hm; [|done]. simpl. apply matching_pairing_found in Hm as (record & Hr & Hd).
  rewrite Hr. simpl. destruct (record.(PairingRecord.consumed_at_ms)) eqn:Hc; [done|]. simpl.
  destruct (Z.leb_spec record.(PairingRecord.expires_at_ms) now_ms); [done|]. simpl.
  destruct (fresh_device_id _ _ _ _) as [id|] eqn:Hf; [|done]. simpl. intros [= <- <-]. apply fresh_device_id_fresh in Hf. split.
  - by apply (step_pair s index record (DeviceRecord.mk id _ _ now_ms None) now_ms).
  - by exists index, record.
Qed.

Lemma revoked_ok device_id at_ms s s' :
  revoked device_id at_ms s = Ok s' →
  ∃ device, s.(RegistrySnapshot.devices) !! id_value device_id = Some device ∧ device.(DeviceRecord.revoked_at_ms) = None ∧
    s' = RegistrySnapshot.mk s.(RegistrySnapshot.pairings)
           (<[id_value device_id := DeviceRecord_set_revoked_at_ms (Some at_ms) device]> s.(RegistrySnapshot.devices)).
Proof.
  unfold revoked. destruct (_ !! _) as [device|] eqn:Hl; [|done]. simpl. destruct (device.(DeviceRecord.revoked_at_ms)) eqn:Hr; [done|].
  simpl. intros [= <-]. by exists device.
Qed.

Lemma revoked_step device_id at_ms s s' : registry_wf s → revoked device_id at_ms s = Ok s' → registry_step s s'.
Proof.
  intros Hwf (device & Hl & _ & ->)%revoked_ok. destruct (wf_devices s Hwf _ _ Hl) as [E _]. rewrite <-E in *. by constructor.
Qed.

End steps.

(** ** The registry over calls, failures and restarts *)

Section promises.
Context `{P256, Base64}.
Variable sha256 : list ascii → list ascii.
Context {B : Type} `{Laws : DurableBackendLaws B}.

Inductive RegistryCall : Type :=
| IssueSecret (input : IssuePairing) (secret : list ascii)
| PairDevice (request : PairRequest) (now_ms : Z) (entropy : nat → list ascii)
| RevokeDevice (device_id : DeviceId) (revoked_at_ms : Z)
| Restart.

(** A process that serves the registry, or one that could not open it. *)
Inductive Node : Type :=
| Up (st : SecurityStore B)
| Down (b : B).

Definition node_backend (n : Node) : B :=
  match n with
  | Up st => st.(backend)
  | Down b => b
  end.

Definition restart (n : Node) : Node :=
  match SecurityStore_open (node_backend n) with
  | (_, Ok st) => Up st
  | (b, Err _) => Down b
  end.

Definition apply_registry (n : Node) (call : RegistryCall) : Node :=
  match n, call with
  | _, Restart => restart n
  | Up st, IssueSecret input secret => Up (issue_pairing sha256 input secret st).1
  | Up st, PairDevice request now_ms entropy => Up (pair_device sha256 request now_ms entropy st).1
  | Up st, RevokeDevice device_id at_ms => Up (revoke_and_then device_id at_ms (λ _ (u : unit), u) tt st).1.1
  | Down _, _ => n
  end.

Definition run_registry (n : Node) (calls : list RegistryCall) : Node := foldl apply_registry n calls.

(** What a call would commit. *)
Definition call_changes (call : RegistryCall) (s s' : RegistrySnapshot) : Prop :=
  match call with
  | IssueSecret input secret => ∃ bootstrap, issued sha256 input secret s = Ok (s', bootstrap)
  | PairDevice request now_ms entropy => ∃ device, paired sha256 request now_ms entropy s = Ok (s', device)
  | RevokeDevice device_id at_ms => revoked device_id at_ms s = Ok s'
  | Restart => False
  end.

(** [Q] holds of the snapshot in memory and of the one the backend holds. *)
Definition node_ok (Q : RegistrySnapshot → Prop) (n : Node) : Prop :=
  match n with
  | Up st => Q st.(snapshot)
  | Down _ => True
  end ∧ ∃ s, holds (node_backend n) s ∧ Q s.

Lemma commit_snapshot_ok {T} Q next (value : T) st :
  node_ok Q (Up st) → Q next → node_ok Q (Up (commit_snapshot next value st).1).
Proof.
  intros [Hm (s & Hs & HQ)] Hn. unfold commit_snapshot. pose proof (commit_holds st.(backend) s next Hs) as Hc.
  destruct (backend_commit next st.(backend)) as [b [u|e]]; simpl in *; (split; [done|]); [by exists next|].
  destruct Hc as [Hc|Hc]; [by exists s|by exists next].
Qed.

Lemma restart_ok Q n : node_ok Q n → node_ok Q (restart n).
Proof.
  intros [_ (s & Hs & HQ)]. unfold restart, SecurityStore_open. destruct (load_holds _ _ Hs) as [Hb Hl].
  destruct (backend_load (node_backend n)) as [b [s'|e]]; simpl in *; [|split; [done|by exists s]].
  destruct (try_for_each _ _) as [[]|e]; simpl; (split; [|by exists s]); [|done]. by rewrite (Hl s' eq_refl).
Qed.

Lemma apply_registry_ok Q n call :
  (∀ s s', Q s → call_changes call s s' → Q s') → node_ok Q n → node_ok Q (apply_registry n call).
Proof.
  intros Hstep Hn. destruct n as [st|b], call as [input secret|request now entropy|id at_|]; simpl; try done; try by apply restart_ok.
  - unfold issue_pairing. destruct (issued _ _ _ _) as [[next bs]|] eqn:E; [|done]. apply commit_snapshot_ok; [done|].
    eapply Hstep; [apply Hn|by exists bs].
  - unfold pair_device. destruct (paired _ _ _ _ _) as [[next d]|] eqn:E; [|done]. apply commit_snapshot_ok; [done|].
    eapply Hstep; [apply Hn|by exists d].
  - unfold revoke_and_then. destruct (revoked _ _ _) as [next|] eqn:E; [|done].
    assert (node_ok Q (Up (commit_snapshot next tt st).1)) as Hc by (apply commit_snapshot_ok; [done|]; eapply Hstep; [apply Hn|done]).
    by destruct (commit_snapshot next tt st) as [? [?|?]].
Qed.

Lemma run_registry_ok Q calls : ∀ n,
  (∀ call s s', call ∈ calls → Q s → call_changes call s s' → Q s') → node_ok Q n → node_ok Q (run_registry n calls).
Proof.
  induction calls as [|call calls IH]; intros n Hstep Hn; [done|]. simpl. apply IH.
  - intros call' s s' Hin. apply Hstep. by right.
  - apply apply_registry_ok; [|done]. intros s s'. apply Hstep. by left.
Qed.

Lemma call_changes_step call s s' : registry_wf s → call_changes call s s' → registry_step s s'.
Proof.
  intros Hwf. destruct call; simpl; [intros [? Hc]|intros [? Hc]|intros Hc|done].
  - by eapply issued_step.
  - by eapply paired_ok.
  - by eapply revoked_step.
Qed.

(** Facts that every step keeps hold in every later state. *)
Lemma run_keeps P n calls :
  (∀ s s', P s → registry_step s s' → P s') →
  node_ok (λ s, registry_wf s ∧ P s) n → node_ok (λ s, registry_wf s ∧ P s) (run_registry n calls).
Proof.
  intros HP. apply run_registry_ok. intros call s s' _ [Hwf Hs] Hc. apply call_changes_step in Hc; [|done].
  split; [by eapply registry_wf_step|by eapply HP].
Qed.

(** A well-formed registry opens whenever its snapshot is read. *)
Lemma wf_registry_opens b s b' :
  registry_wf s → backend_load b = (b', Ok s) → (SecurityStore_open b).2 = Ok (mkSecurity b' s).
Proof.
  intros Hwf E. unfold SecurityStore_open. rewrite E. simpl.
  assert (try_for_each (λ device, validate_p256_spki device.(DeviceRecord.public_key_spki)) (btree_values s.(RegistrySnapshot.devices)) = Ok tt) as ->; [|done].
  apply try_for_each_ok. intros device [key Hk]%elem_of_btree_values. by eapply Hwf.
Qed.

Lemma commit_ok_inv {T} next (value v : T) (st st' : SecurityStore B) :
  commit_snapshot next value st = (st', Ok v) → v = value ∧ st'.(snapshot) = next ∧ backend_commit next st.(backend) = (st'.(backend), Ok tt).
Proof. unfold commit_snapshot. destruct (backend_commit next st.(backend)) as [b [[]|e]]; [|done]. by intros [= <- <-]. Qed.

Lemma committed_node_ok {T} Q next (value v : T) st st' :
  node_ok (λ _, True) (Up st) → commit_snapshot next value st = (st', Ok v) → Q next → node_ok Q (Up st').
Proof.
  intros [_ (s & Hs & _)] (_ & Hsnap & Hc)%commit_ok_inv HQ. simpl in Hs. pose proof (commit_holds _ _ next Hs) as Hh. rewrite Hc in Hh.
  split; [by rewrite Hsnap|]. by exists next.
Qed.

Lemma node_ok_weaken (P Q : RegistrySnapshot → Prop) n : (∀ s, P s → Q s) → node_ok P n → node_ok Q n.
Proof. intros HPQ [Hm (s & Hs & HP)]. split; [destruct n; auto|]. exists s. auto. Qed.

Lemma spent_secret_refused digest request now_ms entropy s :
  registry_wf s → secret_spent digest s → sha256 request.(PairRequest.secret) = digest →
  is_ok (paired sha256 request now_ms entropy s) = false.
Proof.
  intros Hwf (i & r & Hi & Hd & Hc) Hsha. destruct (paired sha256 request now_ms entropy s) as [[s' device]|e] eqn:E; [|done].
  apply paired_ok in E as (_ & index & record & Hr & Hrd & Hrc & _).
  assert (i = index) as ->.
  { apply (NoDup_lookup (PairingRecord.digest <$> s.(RegistrySnapshot.pairings)) i index digest); [by apply Hwf|..];
      rewrite list_lookup_fmap; [by rewrite Hi, <-Hd|by rewrite Hr, <-Hsha, <-Hrd]. }
  rewrite Hi in Hr. injection Hr as ->. by rewrite Hrc in Hc.
Qed.

(** Only its revocation changes a registered device. *)
Lemma device_survives call device s s' :
  (∀ at_ms, call ≠ RevokeDevice device.(DeviceRecord.device_id) at_ms) → call_changes call s s' →
  s.(RegistrySnapshot.devices) !! id_value device.(DeviceRecord.device_id) = Some device →
  s'.(RegistrySnapshot.devices) !! id_value device.(DeviceRecord.device_id) = Some device.
Proof.
  intros Hne Hch Hl. destruct call as [i sec|rq n en|id at_ms|]; simpl in Hch; [| | |done].
  - destruct Hch as [bs Hi]. by apply issued_step in Hi as [_ ->].
  - destruct Hch as [d Hi]. apply paired_ok in Hi as (_ & _ & _ & _ & _ & _ & _ & _ & Hnew & -> & _).
    rewrite lookup_insert_ne by congruence. done.
  - apply revoked_ok in Hch as (d & Hd & _ & ->). simpl. rewrite lookup_insert_ne; [done|]. intros E. apply (Hne at_ms).
    f_equal. destruct id, device as [[] ? ? ? ?]. by simpl in E; subst.
Qed.

Lemma registered_device (st : SecurityStore B) device :
  device.(DeviceRecord.revoked_at_ms) = None →
  st.(snapshot).(RegistrySnapshot.devices) !! id_value device.(DeviceRecord.device_id) = Some device →
  device_for_auth device.(DeviceRecord.device_id) st = Ok device.
Proof. intros Hr Hl. unfold device_for_auth, DeviceRecord_is_revoked. rewrite Hl. simpl. by rewrite Hr. Qed.

(** C15: Once a device has been paired, its secret never pairs another device, and until it is
    revoked the device authenticates with the key it was paired with, whatever is issued, paired or
    revoked afterwards, whichever commits fail, and across restarts: as long as the snapshot can be
    read, the registry opens and knows the device. *)
Theorem pairing_is_durable_and_single_use request now_ms entropy (st st' : SecurityStore B) device calls
    (Hwf : node_ok registry_wf (Up st)) (Hpaired : pair_device sha256 request now_ms entropy st = (st', Ok device)) :
  (∀ request' now_ms' entropy' st2,
     run_registry (Up st') calls = Up st2 → sha256 request'.(PairRequest.secret) = sha256 request.(PairRequest.secret) →
     is_ok (pair_device sha256 request' now_ms' entropy' st2).2 = false) ∧
  ((∀ at_ms, RevokeDevice device.(DeviceRecord.device_id) at_ms ∉ calls) →
   (∀ st2, run_registry (Up st') calls = Up st2 → device_for_auth device.(DeviceRecord.device_id) st2 = Ok device) ∧
   (∀ b s, backend_load (node_backend (run_registry (Up st') calls)) = (b, Ok s) →
      ∃ st2, (SecurityStore_open (node_backend (run_registry (Up st') calls))).2 = Ok st2 ∧
        device_for_auth device.(DeviceRecord.device_id) st2 = Ok device)).
Proof.
  unfold pair_device in Hpaired. destruct (paired _ _ _ _ _) as [[next d]|] eqn:E; [|done].
  pose proof (commit_ok_inv _ _ _ _ _ Hpaired) as (<- & _ & _). apply paired_ok in E as [Hstep (index & record & Hr & Hd & Hc & _ & Hp & _ & Hdev & _ & Hrev)].
  assert (registry_wf next) as Hnext by (eapply registry_wf_step; [exact (proj1 Hwf)|done]).
  pose proof (node_ok_weaken _ _ _ (λ _ _, I) Hwf) as Hany. split.
  - intros request' now' entropy' st2 Hrun Hsha.
    destruct (run_keeps (secret_spent (sha256 request.(PairRequest.secret))) (Up st') calls) as [Hm _].
    + intros s s'. apply secret_spent_step.
    + eapply committed_node_ok; [done..|]. split; [done|]. eexists index, _. rewrite Hp, list_lookup_insert_eq by (by eapply lookup_lt_Some). done.
    + rewrite Hrun in Hm. destruct Hm as [Hw Hspent]. pose proof (spent_secret_refused _ request' now' entropy' _ Hw Hspent Hsha) as Hno.
      unfold pair_device. by destruct (paired _ _ _ _ _).
  - intros Hnone.
    assert (node_ok (λ s, registry_wf s ∧ s.(RegistrySnapshot.devices) !! id_value device.(DeviceRecord.device_id) = Some device)
              (run_registry (Up st') calls)) as [Hm (s & Hs & Hw & Hl)].
    { apply run_registry_ok; [|eapply committed_node_ok; [done..|]; split; [done|]; by rewrite Hdev, lookup_insert_eq].
      intros call s s' Hin [Hw Hl] Hch. split; [by eapply registry_wf_step, call_changes_step|].
      eapply device_survives; [|done..]. intros at_ms ->. by eapply Hnone. }
    split.
    + intros st2 Hrun. rewrite Hrun in Hm. destruct Hm as [_ Hm]. by apply registered_device.
    + intros b s2 Hload. destruct (load_holds _ _ Hs) as [_ Hsame]. rewrite Hload in Hsame. rewrite (Hsame s2 eq_refl) in Hload.
      exists (mkSecurity b s). split; [by apply wf_registry_opens|]. by apply registered_device.
Qed.

(** C16: A revocation that succeeds runs its callback exactly once, for the device it revokes, and
    one that fails does not run it; the revocation is final: whatever is issued, paired or revoked
    afterwards, whichever commits fail, and across restarts, the device does not authenticate, is
    listed among the revoked ones, and revoking it again at any time is refused, changes nothing and
    does not run the callback. *)
Theorem revocation_is_final {A} device_id at_ms (after_durable : DeviceId → A → A) a (st st' : SecurityStore B) a' calls
    (Hwf : node_ok registry_wf (Up st)) (Hrevoked : revoke_and_then device_id at_ms after_durable a st = (st', a', Ok tt)) :
  a' = after_durable device_id a ∧
  (∀ id at_ms' a0 (st0 : SecurityStore B), is_ok (revoke_and_then id at_ms' after_durable a0 st0).2 = false →
     (revoke_and_then id at_ms' after_durable a0 st0).1.2 = a0) ∧
  ∀ st2, run_registry (Up st') calls = Up st2 →
    device_for_auth device_id st2 = Err TransportError.AuthenticationFailed ∧
    (∀ at_ms', revoke_and_then device_id at_ms' after_durable a st2 = (st2, a, Err TransportError.DeviceRevoked)) ∧
    device_id ∈ revoked_device_ids st2.
Proof.
  unfold revoke_and_then in Hrevoked. destruct (revoked _ _ _) as [next|] eqn:E; [|done].
  destruct (commit_snapshot next tt st) as [st1 [u|e]] eqn:Hc; [|done]. injection Hrevoked as -> <-. split; [done|]. split.
  { intros id at_ms' a0 st0. unfold revoke_and_then. destruct (revoked id _ _) as [next'|]; [|done].
    by destruct (commit_snapshot next' _ _) as [? []]. }
  intros st2 Hrun.
  assert (registry_wf next) as Hnext by (eapply registry_wf_step; [exact (proj1 Hwf)|]; eapply revoked_step; [exact (proj1 Hwf)|done]).
  apply revoked_ok in E as (device & Hl & _ & ->). destruct Hwf as [Hw Hb]. destruct (wf_devices _ Hw _ _ Hl) as [Hid _].
  destruct (run_keeps (revoked_in device_id) (Up st') calls) as [Hm _].
  - intros s s'. apply revoked_in_step.
  - eapply committed_node_ok; [|done|].
    + split; [done|]. destruct Hb as (s & Hs & _). by exists s.
    + split; [done|]. eexists. simpl. rewrite lookup_insert_eq. split_and!; [done| |done]. simpl.
      destruct device as [[] ? ? ? ?], device_id. by simpl in Hid; subst.
  - rewrite Hrun in Hm. destruct Hm as [_ (d & Hd & Hdid & Hdr)]. split_and!.
    + unfold device_for_auth. rewrite Hd. simpl. by rewrite Hdr.
    + intros at_ms'. unfold revoke_and_then, revoked. rewrite Hd. simpl. unfold DeviceRecord_is_revoked in Hdr. by rewrite Hdr.
    + unfold revoked_device_ids. apply elem_of_filter_map. exists d. rewrite Hdr, Hdid. split; [|done].
      apply elem_of_btree_values. by exists (id_value device_id).
Qed.
End promises.
