(* ===== verification/HostLimits.v ===== *)
(** * Limits on failed authentication

    Models the [AuthFailureLimiter] of [crates/kaleido-hostd/src/server.rs]: the
    failures of each source address and of all of them within a sliding window.
    An [Instant] is a number of milliseconds. *)
From stdpp Require Import prelude strings gmap.
From Stdlib Require Import ZArith Lia Ascii Sorted.
From S2P Require Import Prelude ProtoBase TransportControl TransportLimits.

Local Open Scope Z_scope.

#[export] Instance IpAddr_countable : Countable IpAddr.
Proof.
  refine (inj_countable' (λ ip, match ip with IpAddr.V4 a => inl a | IpAddr.V6 a => inr a end)
            (λ s, match s with inl a => IpAddr.V4 a | inr a => IpAddr.V6 a end) _).
  by intros [].
Defined.

Definition AUTH_FAILURE_WINDOW : Z := 60000.
Definition AUTH_FAILURE_LIMIT : nat := 4.
Definition GLOBAL_AUTH_FAILURE_LIMIT : nat := 32.

Module AuthFailureLimiter.
Record AuthFailureLimiter : Type := mk {
  failures : gmap IpAddr (list Z);
  global_failures : list Z
}.
End AuthFailureLimiter.
Abbreviation AuthFailureLimiter := AuthFailureLimiter.AuthFailureLimiter.

Definition AuthFailureLimiter_default : AuthFailureLimiter := AuthFailureLimiter.mk ∅ [].

(** [Instant::duration_since] is zero for a later instant. *)
Definition has_expired (now failure : Z) : bool := AUTH_FAILURE_WINDOW <=? Z.max 0 (now - failure).

Fixpoint pop_expired (now : Z) (failures : list Z) : list Z :=
  match failures with
  | failure :: rest => if has_expired now failure then pop_expired now rest else failures
  | [] => []
  end.

Definition prune (source : IpAddr) (now : Z) (l : AuthFailureLimiter) : AuthFailureLimiter :=
  match l.(AuthFailureLimiter.failures) !! source with
  | None => l
  | Some failures =>
      let failures := pop_expired now failures in
      AuthFailureLimiter.mk
        (if is_none (head failures) then delete source l.(AuthFailureLimiter.failures)
         else <[source := failures]> l.(AuthFailureLimiter.failures))
        l.(AuthFailureLimiter.global_failures)
  end.

Definition prune_global (now : Z) (l : AuthFailureLimiter) : AuthFailureLimiter :=
  AuthFailureLimiter.mk l.(AuthFailureLimiter.failures) (pop_expired now l.(AuthFailureLimiter.global_failures)).

Definition check_failures (source : IpAddr) (now : Z) (l : AuthFailureLimiter) : AuthFailureLimiter * result unit TransportError :=
  let l := prune_global now (prune source now l) in
  (l, if (GLOBAL_AUTH_FAILURE_LIMIT <=? length l.(AuthFailureLimiter.global_failures))%nat
         || is_some_and (l.(AuthFailureLimiter.failures) !! source) (λ failures, (AUTH_FAILURE_LIMIT <=? length failures)%nat)
      then Err TransportError.RateLimited else Ok tt).

Definition record_failure (source : IpAddr) (now : Z) (l : AuthFailureLimiter) : AuthFailureLimiter :=
  let l := prune_global now (prune source now l) in
  AuthFailureLimiter.mk
    (<[source := default [] (l.(AuthFailureLimiter.failures) !! source) ++ [now]]> l.(AuthFailureLimiter.failures))
    (l.(AuthFailureLimiter.global_failures) ++ [now]).

Definition clear_failures (source : IpAddr) (l : AuthFailureLimiter) : AuthFailureLimiter :=
  AuthFailureLimiter.mk (delete source l.(AuthFailureLimiter.failures)) l.(AuthFailureLimiter.global_failures).

(** ** What the limiter counts *)

Inductive LoginEvent : Type :=
| LoginChecked (source : IpAddr) (at_ : Z)
| LoginFailed (source : IpAddr) (at_ : Z)
| LoginSucceeded (source : IpAddr).

Definition apply_login (l : AuthFailureLimiter) (event : LoginEvent) : AuthFailureLimiter :=
  match event with
  | LoginChecked source at_ => (check_failures source at_ l).1
  | LoginFailed source at_ => record_failure source at_ l
  | LoginSucceeded source => clear_failures source l
  end.

Definition run_logins (history : list LoginEvent) : AuthFailureLimiter := foldl apply_login AuthFailureLimiter_default history.

(** The failures of a source since its last success, and those of all sources. *)
Definition failures_of (source : IpAddr) (history : list LoginEvent) : list Z :=
  foldl (λ failures event,
    match event with
    | LoginFailed source' at_ => if bool_decide (source' = source) then failures ++ [at_] else failures
    | LoginSucceeded source' => if bool_decide (source' = source) then [] else failures
    | LoginChecked _ _ => failures
    end) [] history.

Definition all_failures (history : list LoginEvent) : list Z :=
  filter_map (λ event, match event with LoginFailed _ at_ => Some at_ | _ => None end) history.

Definition recent (now : Z) (failures : list Z) : nat := length (filter_b (λ failure, negb (has_expired now failure)) failures).

Definition login_time (event : LoginEvent) : option Z :=
  match event with
  | LoginChecked _ at_ | LoginFailed _ at_ => Some at_
  | LoginSucceeded _ => None
  end.

(** The times of a history do not decrease; [last] is the latest. *)
Fixpoint ordered_until (from until : Z) (history : list LoginEvent) : Prop :=
  match history with
  | [] => from ≤ until
  | event :: rest =>
      match login_time event with
      | Some at_ => from ≤ at_ ∧ ordered_until at_ until rest
      | None => ordered_until from until rest
      end
  end.

(** [queue] is what is left of the ordered [failures] after expired ones in front. *)
Definition tracks (now : Z) (failures queue : list Z) : Prop :=
  StronglySorted Z.le failures ∧ Forall (λ t, t ≤ now) failures ∧
  ∃ dropped, failures = dropped ++ queue ∧ Forall (λ t, has_expired now t = true) dropped.

Lemma has_expired_later now now' t : now ≤ now' → has_expired now t = true → has_expired now' t = true.
Proof. unfold has_expired. rewrite !Z.leb_le. lia. Qed.

Lemma tracks_later now now' failures queue : now ≤ now' → tracks now failures queue → tracks now' failures queue.
Proof.
  intros Hle (Hs & Hf & dropped & -> & Hd). split_and!; [done|eapply Forall_impl; [done|]; simpl; lia|].
  exists dropped. split; [done|]. eapply Forall_impl; [done|]. intros t. by apply has_expired_later.
Qed.

Lemma pop_expired_split now queue :
  ∃ dropped, queue = dropped ++ pop_expired now queue ∧ Forall (λ t, has_expired now t = true) dropped.
Proof.
  induction queue as [|t queue (dropped & Hq & Hd)]; simpl; [by exists []|]. destruct (has_expired now t) eqn:E; [|by exists []].
  exists (t :: dropped). split; [simpl; by f_equal|by constructor].
Qed.

Lemma tracks_prune now failures queue : tracks now failures queue → tracks now failures (pop_expired now queue).
Proof.
  intros (Hs & Hf & dropped & -> & Hd). split_and!; [done..|]. destruct (pop_expired_split now queue) as (more & Hq & Hm).
  exists (dropped ++ more). rewrite <-app_assoc, <-Hq. split; [done|]. by apply Forall_app.
Qed.

Lemma tracks_push now failures queue : tracks now failures queue → tracks now (failures ++ [now]) (queue ++ [now]).
Proof.
  intros (Hs & Hf & dropped & -> & Hd). split_and!.
  - clear Hd. induction (dropped ++ queue) as [|t l IH]; simpl; [by repeat constructor|]. apply Forall_cons in Hf as [Ht Hf].
    apply StronglySorted_inv in Hs as [Hs Hl]. constructor; [by apply IH|]. apply Forall_app. split; [done|]. by constructor.
  - apply Forall_app. split; [done|]. by constructor.
  - exists dropped. by rewrite app_assoc.
Qed.

(** After its expired front is removed, an ordered queue holds what is recent. *)
Lemma pop_expired_recent now queue : StronglySorted Z.le queue → length (pop_expired now queue) = recent now queue.
Proof.
  unfold recent. induction queue as [|t queue IH]; intros Hs; [done|]. apply StronglySorted_inv in Hs as [Hs Hl]. simpl.
  destruct (has_expired now t) eqn:E; simpl; [by apply IH|]. f_equal. clear IH Hs.
  induction queue as [|u queue IH]; [done|]. apply Forall_cons in Hl as [Hu Hl]. simpl.
  assert (has_expired now u = false) as -> by (revert E; unfold has_expired; rewrite !Z.leb_gt; lia). simpl. by rewrite <-IH.
Qed.

Lemma tracks_recent now failures queue : tracks now failures queue → length (pop_expired now queue) = recent now failures.
Proof.
  intros (Hs & _ & dropped & -> & Hd). rewrite pop_expired_recent.
  - unfold recent. rewrite filter_b_app, length_app. assert (filter_b (λ t, negb (has_expired now t)) dropped = []) as ->; [|done].
    clear Hs. induction Hd as [|t l Ht Hd IH]; [done|]. simpl. by rewrite Ht.
  - induction dropped as [|t l IH]; [done|]. apply StronglySorted_inv in Hs as [Hs _]. apply Forall_cons in Hd as [_ Hd]. by apply IH.
Qed.

Definition queue_of_source (source : IpAddr) (l : AuthFailureLimiter) : list Z := default [] (l.(AuthFailureLimiter.failures) !! source).

Lemma prune_queue source source' now l :
  queue_of_source source' (prune source now l) =
    if bool_decide (source = source') then pop_expired now (queue_of_source source' l) else queue_of_source source' l.
Proof.
  unfold prune, queue_of_source. destruct (l.(AuthFailureLimiter.failures) !! source) as [q|] eqn:Hq.
  - destruct (pop_expired now q) as [|t rest] eqn:E; simpl; case_bool_decide; subst;
      rewrite ?lookup_delete_eq, ?lookup_insert_eq, ?lookup_delete_ne, ?lookup_insert_ne by done; rewrite ?Hq; simpl; by rewrite ?E.
  - case_bool_decide; subst; by rewrite ?Hq.
Qed.

Lemma prune_keeps_global source now l :
  (prune source now l).(AuthFailureLimiter.global_failures) = l.(AuthFailureLimiter.global_failures).
Proof. unfold prune. by destruct (l.(AuthFailureLimiter.failures) !! source). Qed.

Record limiter_tracks (now : Z) (history : list LoginEvent) (l : AuthFailureLimiter) : Prop := {
  track_global : tracks now (all_failures history) l.(AuthFailureLimiter.global_failures);
  track_source source : tracks now (failures_of source history) (queue_of_source source l)
}.

Lemma pruned_tracks now history source l :
  limiter_tracks now history l → limiter_tracks now history (prune_global now (prune source now l)).
Proof.
  intros [Hg Hs]. split.
  - simpl. rewrite prune_keeps_global. by apply tracks_prune.
  - intros source'. change (queue_of_source source' (prune_global now (prune source now l))) with (queue_of_source source' (prune source now l)).
    rewrite prune_queue. case_bool_decide; [|apply Hs]. apply tracks_prune, Hs.
Qed.

Lemma tracks_empty now : tracks now [] [].
Proof. split_and!; [constructor..|]. by exists []. Qed.

Lemma login_history_snoc source history event :
  failures_of source (history ++ [event]) =
    match event with
    | LoginFailed source' at_ => if bool_decide (source' = source) then failures_of source history ++ [at_] else failures_of source history
    | LoginSucceeded source' => if bool_decide (source' = source) then [] else failures_of source history
    | LoginChecked _ _ => failures_of source history
    end.
Proof. unfold failures_of. by rewrite foldl_app. Qed.

Lemma apply_login_tracks now history l event :
  (∀ at_, login_time event = Some at_ → at_ = now) → limiter_tracks now history l →
  limiter_tracks now (history ++ [event]) (apply_login l event).
Proof.
  intros Htime Hl. destruct event as [source at_|source at_|source]; simpl in *.
  - rewrite (Htime _ eq_refl). apply (pruned_tracks now history source) in Hl as [Hg Hs]. split.
    + unfold all_failures. rewrite filter_map_app. simpl. by rewrite app_nil_r.
    + intros s'. rewrite login_history_snoc. apply Hs.
  - rewrite (Htime _ eq_refl). apply (pruned_tracks now history source) in Hl as [Hg Hs]. split.
    + unfold all_failures. rewrite filter_map_app. by apply tracks_push.
    + intros s'. rewrite login_history_snoc. unfold queue_of_source, record_failure. cbn [AuthFailureLimiter.failures]. case_bool_decide; subst.
      * rewrite lookup_insert_eq. apply tracks_push, Hs.
      * rewrite lookup_insert_ne by done. apply Hs.
  - destruct Hl as [Hg Hs]. split.
    + unfold all_failures. rewrite filter_map_app. simpl. by rewrite app_nil_r.
    + intros s'. rewrite login_history_snoc. unfold queue_of_source, clear_failures. simpl. case_bool_decide; subst.
      * rewrite lookup_delete_eq. apply tracks_empty.
      * rewrite lookup_delete_ne by done. apply Hs.
Qed.

Lemma limiter_tracks_later now now' history l : now ≤ now' → limiter_tracks now history l → limiter_tracks now' history l.
Proof. intros Hle [Hg Hs]. split; [by eapply tracks_later|]. intros s. by eapply tracks_later. Qed.

Lemma run_logins_track history : ∀ from until before l,
  ordered_until from until history → limiter_tracks from before l → limiter_tracks until (before ++ history) (foldl apply_login l history).
Proof.
  induction history as [|event history IH]; intros from until before l; simpl.
  - intros Hle Hl. rewrite app_nil_r. by eapply limiter_tracks_later.
  - intros Ho Hl. replace (before ++ event :: history) with ((before ++ [event]) ++ history) by by rewrite <-app_assoc.
    destruct (login_time event) as [at_|] eqn:Ht.
    + destruct Ho as [Hle Ho]. eapply IH; [done|]. apply apply_login_tracks; [|by eapply limiter_tracks_later]. congruence.
    + eapply IH; [done|]. apply apply_login_tracks; [congruence|done].
Qed.

(** After any history of checks, failures and successes at non-decreasing times, an attempt to authenticate is
    let through exactly when fewer than four failures of its source since the last success of the source, and
    fewer than thirty-two failures of all sources, lie within the last sixty seconds: the queues that are
    pruned as they are used agree with the count over the whole history. *)
Theorem failed_logins_are_counted_exactly history source from now (Hordered : ordered_until from now history) :
  (check_failures source now (run_logins history)).2 = Ok tt ↔
  (recent now (failures_of source history) < AUTH_FAILURE_LIMIT)%nat ∧
  (recent now (all_failures history) < GLOBAL_AUTH_FAILURE_LIMIT)%nat.
Proof.
  assert (limiter_tracks now history (run_logins history)) as [Hg Hs].
  { apply (run_logins_track history from now []); [done|]. split; [apply tracks_empty|]. intros s. apply tracks_empty. }
  specialize (Hs source). rewrite <-(tracks_recent _ _ _ Hs), <-(tracks_recent _ _ _ Hg).
  unfold check_failures. cbn [snd prune_global AuthFailureLimiter.failures AuthFailureLimiter.global_failures].
  pose proof (prune_queue source source now (run_logins history)) as Hq. rewrite bool_decide_true in Hq by done. unfold queue_of_source in Hq at 1.
  rewrite prune_keeps_global.
  destruct (Nat.leb_spec GLOBAL_AUTH_FAILURE_LIMIT (length (pop_expired now (run_logins history).(AuthFailureLimiter.global_failures)))) as [Hge|Hlt];
    [split; [done|lia]|]. cbn [orb]. rewrite <-Hq.
  destruct ((prune source now (run_logins history)).(AuthFailureLimiter.failures) !! source) as [q|]; cbn [is_some_and default].
  - destruct (Nat.leb_spec AUTH_FAILURE_LIMIT (length q)); (split; [intros E|intros [Hq2 _]]); [done|by apply Nat.lt_nge in Hq2|by split|done].
  - split; [|done]. intros _. split; [apply Nat.lt_0_succ|done].
Qed.
