(* ===== verification/TransportRemote.v ===== *)
(** * Remote control: frames, links and wake payloads

    Models [crates/kaleido-transport/src/remote.rs]: the closed set of frames that
    hosts and devices exchange with the relay service, the link that hands a
    device its remote route, the correlation of requests with responses, and the
    payload of a push.

    [serde_json] is the class [JsonCodec]: the text of a value, and for a text the
    value it spells as a whole and whether [serde_ignored] met a field that the
    type does not have. *)
From stdpp Require Import prelude strings gmap.
From Stdlib Require Import ZArith Lia Ascii.
From S2P Require Import Prelude ProtoBase ProtoContent TransportControl TransportBootstrap.

Local Open Scope Z_scope.

Class JsonCodec (T : Type) := {
  to_json : T → option (list ascii);
  from_json : list ascii → option (T * bool)
}.

(** What is written is text, and reads back whole with every field known. *)
Class JsonCodecOk (T : Type) `{JsonCodec T} : Prop := {
  to_json_text v json : to_json v = Some json → json ≠ [] ∧ utf8_valid json = true;
  from_json_to v json : to_json v = Some json → from_json json = Some (v, false)
}.

(** ** Constants *)

Definition REMOTE_CONTROL_VERSION : string := "0.1.0".
Definition MAX_REMOTE_CONTROL_FRAME_BYTES : Z := 4096.
Definition MAX_PUSH_PAYLOAD_BYTES : Z := 256.
Definition OPERATION_CLOCK_SKEW_MS : Z := 60000.
Definition OPERATION_REPLAY_WINDOW_MS : Z := 120000.
Definition MIN_PRESENCE_TTL_SECONDS : Z := 15.
Definition DEFAULT_PRESENCE_TTL_SECONDS : Z := 30.
Definition MAX_PRESENCE_TTL_SECONDS : Z := 90.
Definition RANDOM_ID_BYTES : nat := 16.
Definition TOKEN_BYTES : nat := 32.
Definition MAX_ENDPOINT_ID_BYTES : Z := 128.
Definition MAX_RELAY_URL_BYTES : Z := 512.
Definition MAX_PUSH_ADDRESS_BYTES : Z := 512.
Definition REMOTE_BOOTSTRAP_URI_PREFIX : string := "onekaleidoscope://remote/v1?data=".

(** ** Data *)

Module RemotePairingBootstrap.
Record RemotePairingBootstrap : Type := mk {
  route_id : string;
  route_hint : string;
  device_slot_id : string;
  access_token : string;
  host_endpoint_id : string;
  relay_url : string;
  service_endpoint : string;
  service_public_key_pin : string;
  expires_at_ms : Z
}.
End RemotePairingBootstrap.
Abbreviation RemotePairingBootstrap := RemotePairingBootstrap.RemotePairingBootstrap.

#[export] Instance RemotePairingBootstrap_eq_dec : EqDecision RemotePairingBootstrap.
Proof. solve_decision. Defined.

Module RemoteBootstrapWire.
Record RemoteBootstrapWire : Type := mk {
  revision : Z;
  bootstrap : RemotePairingBootstrap
}.
End RemoteBootstrapWire.
Abbreviation RemoteBootstrapWire := RemoteBootstrapWire.RemoteBootstrapWire.

#[export] Instance RemoteBootstrapWire_eq_dec : EqDecision RemoteBootstrapWire.
Proof. solve_decision. Defined.

Module WireErrorCode.
Inductive WireErrorCode : Type :=
| VersionMismatch
| MalformedFrame
| AuthenticationFailed
| RouteUnavailable
| Expired
| Replay
| RateLimited
| LimitExceeded
| Revoked
| Internal.
End WireErrorCode.
Abbreviation WireErrorCode := WireErrorCode.WireErrorCode.

#[export] Instance WireErrorCode_eq_dec : EqDecision WireErrorCode.
Proof. solve_decision. Defined.

Module WirePushProvider.
Inductive WirePushProvider : Type :=
| FcmFid
| ApnsToken.
End WirePushProvider.
Abbreviation WirePushProvider := WirePushProvider.WirePushProvider.

#[export] Instance WirePushProvider_eq_dec : EqDecision WirePushProvider.
Proof. solve_decision. Defined.

Module WirePushAddress.
Record WirePushAddress : Type := mk {
  provider : WirePushProvider;
  opaque_address : string;
  registered_at_ms : Z;
  expires_at_ms : Z
}.
End WirePushAddress.
Abbreviation WirePushAddress := WirePushAddress.WirePushAddress.

#[export] Instance WirePushAddress_eq_dec : EqDecision WirePushAddress.
Proof. solve_decision. Defined.

Module RemoteControlFrame.
Inductive RemoteControlFrame : Type :=
| RemoteHello (request_id : Z) (remote_control_version : string) (max_frame_length : Z)
| RemoteHelloAck (request_id : Z) (remote_control_version : string) (max_frame_length : Z)
| RegisterRoute (request_id : Z) (operation_id : string) (issued_at_ms : Z) (route_id route_hint admin_token host_endpoint_id relay_url : string)
| RouteRegistered (request_id : Z)
| RegisterPresence (request_id : Z) (operation_id : string) (issued_at_ms : Z) (route_id admin_token host_endpoint_id relay_url : string) (ttl_seconds : Z)
| PresenceRegistered (request_id expires_at_ms : Z)
| RegisterDeviceGrant (request_id : Z) (operation_id : string) (issued_at_ms : Z) (route_id device_slot_id access_token admin_token : string)
| DeviceGrantRegistered (request_id : Z)
| ResolveRoute (request_id : Z) (operation_id : string) (issued_at_ms : Z) (route_id device_slot_id access_token : string)
| RouteResolved (request_id : Z) (host_endpoint_id relay_url : string) (expires_at_ms : Z)
| ReplacePushAddress (request_id : Z) (operation_id : string) (issued_at_ms : Z) (route_id device_slot_id access_token : string) (address : WirePushAddress)
| PushAddressReplaced (request_id expires_at_ms : Z)
| DeletePushAddress (request_id : Z) (operation_id : string) (issued_at_ms : Z) (route_id device_slot_id access_token : string)
| PushAddressDeleted (request_id : Z)
| WakeDevice (request_id : Z) (operation_id : string) (issued_at_ms : Z) (route_id device_slot_id admin_token wake_id : string)
| WakeAccepted (request_id : Z)
| RevokeDeviceGrant (request_id : Z) (operation_id : string) (issued_at_ms : Z) (route_id device_slot_id admin_token : string)
| DeviceGrantRevoked (request_id : Z)
| RemoteError (request_id : option Z) (code : WireErrorCode) (retriable : bool).
End RemoteControlFrame.
Abbreviation RemoteControlFrame := RemoteControlFrame.RemoteControlFrame.

#[export] Instance RemoteControlFrame_eq_dec : EqDecision RemoteControlFrame.
Proof. solve_decision. Defined.

Module ExpectedRemoteResponse.
Inductive ExpectedRemoteResponse : Type :=
| RemoteHelloAck
| RouteRegistered
| PresenceRegistered
| DeviceGrantRegistered
| RouteResolved
| PushAddressReplaced
| PushAddressDeleted
| WakeAccepted
| DeviceGrantRevoked.
End ExpectedRemoteResponse.
Abbreviation ExpectedRemoteResponse := ExpectedRemoteResponse.ExpectedRemoteResponse.

#[export] Instance ExpectedRemoteResponse_eq_dec : EqDecision ExpectedRemoteResponse.
Proof. solve_decision. Defined.

Module WakePayload.
Record WakePayload : Type := mk {
  v : string;
  kind : string;
  route : string;
  wake : string
}.
End WakePayload.
Abbreviation WakePayload := WakePayload.WakePayload.

#[export] Instance WakePayload_eq_dec : EqDecision WakePayload.
Proof. solve_decision. Defined.

(** ** Validation *)

Definition remote_parse_version (version : string) : option (Z * Z * Z) :=
  match split_on "." version with
  | major :: rest =>
      major ← parse_version_component major;
      match rest with
      | [] => None
      | minor :: rest =>
          minor ← parse_version_component minor;
          match rest with
          | [] => None
          | patch :: rest =>
              patch ← parse_version_component patch;
              match rest with
              | [] => Some (major, minor, patch)
              | _ :: _ => None
              end
          end
      end
  | [] => None
  end.

Definition remote_version_is_compatible (peer_version : string) : bool :=
  is_some_and (remote_parse_version peer_version) (λ '(major, minor, _), (major =? 0) && (minor =? 1)).

Definition is_ascii_control (c : ascii) : bool := (code c <? 32)%nat || (code c =? 127)%nat.
Definition is_ascii_whitespace (c : ascii) : bool :=
  existsb (Nat.eqb (code c)) [9; 10; 12; 13; 32]%nat.

Definition validate_endpoint_id (endpoint_id : string) : result unit TransportError :=
  reject_if (str_is_empty endpoint_id || (MAX_ENDPOINT_ID_BYTES <? str_len endpoint_id)
             || negb (forallb is_ascii_alphanumeric (bytes_of endpoint_id))) TransportError.MalformedFrame.

Definition validate_relay_url (relay_url : string) : result unit TransportError :=
  reject_if ((MAX_RELAY_URL_BYTES <? str_len relay_url) || negb (starts_with "https://" relay_url)
             || existsb (λ byte, is_ascii_control byte || is_ascii_whitespace byte || Ascii.eqb byte "@" || Ascii.eqb byte "#")
                  (bytes_of relay_url)) TransportError.MalformedFrame.

Definition WirePushAddress_validate (address : WirePushAddress) : result unit TransportError :=
  reject_if (str_is_empty address.(WirePushAddress.opaque_address)
             || (MAX_PUSH_ADDRESS_BYTES <? str_len address.(WirePushAddress.opaque_address))
             || existsb (λ byte, is_ascii_control byte || is_ascii_whitespace byte) (bytes_of address.(WirePushAddress.opaque_address))
             || (address.(WirePushAddress.registered_at_ms) <? 0)
             || (address.(WirePushAddress.expires_at_ms) <=? address.(WirePushAddress.registered_at_ms)))
    TransportError.MalformedFrame.

Definition frame_request_id (frame : RemoteControlFrame) : option Z :=
  match frame with
  | RemoteControlFrame.RemoteHello request_id _ _
  | RemoteControlFrame.RemoteHelloAck request_id _ _
  | RemoteControlFrame.RegisterRoute request_id _ _ _ _ _ _ _
  | RemoteControlFrame.RouteRegistered request_id
  | RemoteControlFrame.RegisterPresence request_id _ _ _ _ _ _ _
  | RemoteControlFrame.PresenceRegistered request_id _
  | RemoteControlFrame.RegisterDeviceGrant request_id _ _ _ _ _ _
  | RemoteControlFrame.DeviceGrantRegistered request_id
  | RemoteControlFrame.ResolveRoute request_id _ _ _ _ _
  | RemoteControlFrame.RouteResolved request_id _ _ _
  | RemoteControlFrame.ReplacePushAddress request_id _ _ _ _ _ _
  | RemoteControlFrame.PushAddressReplaced request_id _
  | RemoteControlFrame.DeletePushAddress request_id _ _ _ _ _
  | RemoteControlFrame.PushAddressDeleted request_id
  | RemoteControlFrame.WakeDevice request_id _ _ _ _ _ _
  | RemoteControlFrame.WakeAccepted request_id
  | RemoteControlFrame.RevokeDeviceGrant request_id _ _ _ _ _
  | RemoteControlFrame.DeviceGrantRevoked request_id => Some request_id
  | RemoteControlFrame.RemoteError request_id _ _ => request_id
  end.

Definition frame_kind (frame : RemoteControlFrame) : string :=
  match frame with
  | RemoteControlFrame.RemoteHello _ _ _ => "remote_hello"
  | RemoteControlFrame.RemoteHelloAck _ _ _ => "remote_hello_ack"
  | RemoteControlFrame.RegisterRoute _ _ _ _ _ _ _ _ => "register_route"
  | RemoteControlFrame.RouteRegistered _ => "route_registered"
  | RemoteControlFrame.RegisterPresence _ _ _ _ _ _ _ _ => "register_presence"
  | RemoteControlFrame.PresenceRegistered _ _ => "presence_registered"
  | RemoteControlFrame.RegisterDeviceGrant _ _ _ _ _ _ _ => "register_device_grant"
  | RemoteControlFrame.DeviceGrantRegistered _ => "device_grant_registered"
  | RemoteControlFrame.ResolveRoute _ _ _ _ _ _ => "resolve_route"
  | RemoteControlFrame.RouteResolved _ _ _ _ => "route_resolved"
  | RemoteControlFrame.ReplacePushAddress _ _ _ _ _ _ _ => "replace_push_address"
  | RemoteControlFrame.PushAddressReplaced _ _ => "push_address_replaced"
  | RemoteControlFrame.DeletePushAddress _ _ _ _ _ _ => "delete_push_address"
  | RemoteControlFrame.PushAddressDeleted _ => "push_address_deleted"
  | RemoteControlFrame.WakeDevice _ _ _ _ _ _ _ => "wake_device"
  | RemoteControlFrame.WakeAccepted _ => "wake_accepted"
  | RemoteControlFrame.RevokeDeviceGrant _ _ _ _ _ _ => "revoke_device_grant"
  | RemoteControlFrame.DeviceGrantRevoked _ => "device_grant_revoked"
  | RemoteControlFrame.RemoteError _ _ _ => "remote_error"
  end.

Section validation.
Context `{Base64}.

(** [generate_remote_id] and [generate_remote_token], of the bytes that were drawn. *)
Definition generate_remote_id (random : list ascii) : string := b64_encode random.
Definition generate_remote_token (random : list ascii) : string := b64_encode random.

Definition validate_canonical_base64 (value : string) (expected_len : nat) : result unit TransportError :=
  let? decoded := ok_or (b64_decode value) TransportError.MalformedFrame in
  reject_if (negb (length decoded =? expected_len)%nat || bool_decide (b64_encode decoded ≠ value)) TransportError.MalformedFrame.

Definition validate_random_id (value : string) : result unit TransportError := validate_canonical_base64 value RANDOM_ID_BYTES.
Definition validate_token (value : string) : result unit TransportError := validate_canonical_base64 value TOKEN_BYTES.

Definition validate_operation (operation_id : string) (issued_at_ms : Z) : result unit TransportError :=
  validate_random_id operation_id ;?
  reject_if (issued_at_ms <? 0) TransportError.MalformedFrame.

Definition validate_device_operation (operation_id : string) (issued_at_ms : Z) (route_id device_slot_id access_token : string) :
    result unit TransportError :=
  validate_operation operation_id issued_at_ms ;?
  validate_random_id route_id ;?
  validate_random_id device_slot_id ;?
  validate_token access_token.

Definition RemoteControlFrame_validate (frame : RemoteControlFrame) : result unit TransportError :=
  reject_if (is_some_and (frame_request_id frame) (λ request_id, request_id =? 0)) TransportError.MalformedFrame ;?
  match frame with
  | RemoteControlFrame.RemoteHello _ remote_control_version max_frame_length
  | RemoteControlFrame.RemoteHelloAck _ remote_control_version max_frame_length =>
      reject_if (negb (remote_version_is_compatible remote_control_version)
                 || negb (max_frame_length =? MAX_REMOTE_CONTROL_FRAME_BYTES)) TransportError.VersionMismatch
  | RemoteControlFrame.RegisterPresence _ operation_id issued_at_ms route_id admin_token host_endpoint_id relay_url ttl_seconds =>
      validate_operation operation_id issued_at_ms ;?
      validate_random_id route_id ;?
      validate_token admin_token ;?
      validate_endpoint_id host_endpoint_id ;?
      validate_relay_url relay_url ;?
      reject_if (negb ((MIN_PRESENCE_TTL_SECONDS <=? ttl_seconds) && (ttl_seconds <=? MAX_PRESENCE_TTL_SECONDS))) TransportError.MalformedFrame
  | RemoteControlFrame.RegisterRoute _ operation_id issued_at_ms route_id route_hint admin_token host_endpoint_id relay_url =>
      validate_operation operation_id issued_at_ms ;?
      validate_random_id route_id ;?
      validate_random_id route_hint ;?
      validate_token admin_token ;?
      validate_endpoint_id host_endpoint_id ;?
      validate_relay_url relay_url
  | RemoteControlFrame.PresenceRegistered _ expires_at_ms
  | RemoteControlFrame.PushAddressReplaced _ expires_at_ms =>
      reject_if (expires_at_ms <? 0) TransportError.MalformedFrame
  | RemoteControlFrame.RegisterDeviceGrant _ operation_id issued_at_ms route_id device_slot_id access_token admin_token =>
      validate_operation operation_id issued_at_ms ;?
      validate_random_id route_id ;?
      validate_random_id device_slot_id ;?
      validate_token access_token ;?
      validate_token admin_token
  | RemoteControlFrame.ResolveRoute _ operation_id issued_at_ms route_id device_slot_id access_token
  | RemoteControlFrame.DeletePushAddress _ operation_id issued_at_ms route_id device_slot_id access_token =>
      validate_device_operation operation_id issued_at_ms route_id device_slot_id access_token
  | RemoteControlFrame.RouteResolved _ host_endpoint_id relay_url expires_at_ms =>
      validate_endpoint_id host_endpoint_id ;?
      validate_relay_url relay_url ;?
      reject_if (expires_at_ms <? 0) TransportError.MalformedFrame
  | RemoteControlFrame.ReplacePushAddress _ operation_id issued_at_ms route_id device_slot_id access_token address =>
      validate_device_operation operation_id issued_at_ms route_id device_slot_id access_token ;?
      WirePushAddress_validate address
  | RemoteControlFrame.RevokeDeviceGrant _ operation_id issued_at_ms route_id device_slot_id admin_token =>
      validate_operation operation_id issued_at_ms ;?
      validate_random_id route_id ;?
      validate_random_id device_slot_id ;?
      validate_token admin_token
  | RemoteControlFrame.WakeDevice _ operation_id issued_at_ms route_id device_slot_id admin_token wake_id =>
      validate_operation operation_id issued_at_ms ;?
      validate_random_id route_id ;?
      validate_random_id device_slot_id ;?
      validate_token admin_token ;?
      validate_random_id wake_id
  | RemoteControlFrame.RouteRegistered _
  | RemoteControlFrame.DeviceGrantRegistered _
  | RemoteControlFrame.PushAddressDeleted _
  | RemoteControlFrame.WakeAccepted _
  | RemoteControlFrame.DeviceGrantRevoked _
  | RemoteControlFrame.RemoteError _ _ _ => Ok tt
  end.

Definition WakePayload_new (route wake : string) : result WakePayload TransportError :=
  validate_random_id route ;?
  validate_random_id wake ;?
  Ok (WakePayload.mk "1" "wake" route wake).

Definition WakePayload_validate (payload : WakePayload) : result unit TransportError :=
  reject_if (bool_decide (payload.(WakePayload.v) ≠ "1") || bool_decide (payload.(WakePayload.kind) ≠ "wake")) TransportError.MalformedFrame ;?
  validate_random_id payload.(WakePayload.route) ;?
  validate_random_id payload.(WakePayload.wake).

Definition validate_remote_bootstrap (bootstrap : RemotePairingBootstrap) : result unit TransportError :=
  validate_random_id bootstrap.(RemotePairingBootstrap.route_id) ;?
  validate_random_id bootstrap.(RemotePairingBootstrap.route_hint) ;?
  validate_random_id bootstrap.(RemotePairingBootstrap.device_slot_id) ;?
  validate_token bootstrap.(RemotePairingBootstrap.access_token) ;?
  validate_endpoint_id bootstrap.(RemotePairingBootstrap.host_endpoint_id) ;?
  validate_relay_url bootstrap.(RemotePairingBootstrap.relay_url) ;?
  validate_endpoint bootstrap.(RemotePairingBootstrap.service_endpoint) ;?
  SpkiPin_parse bootstrap.(RemotePairingBootstrap.service_public_key_pin) ;?
  reject_if (bootstrap.(RemotePairingBootstrap.expires_at_ms) <? 0) TransportError.MalformedFrame.

(** *** The text of frames and payloads *)

(** A text within the limit, and the error for one that is not. *)
Definition within (limit : Z) (bytes : list ascii) : result unit TransportError :=
  if is_none (head bytes) || (limit <? Z.of_nat (length bytes)) || negb (utf8_valid bytes)
  then Err (if limit <? Z.of_nat (length bytes) then TransportError.FrameTooLarge else TransportError.MalformedFrame)
  else Ok tt.

Definition decode_within {T} `{JsonCodec T} (limit : Z) (validate : T → result unit TransportError) (bytes : list ascii) :
    result T TransportError :=
  within limit bytes ;?
  match from_json bytes with
  | None => Err TransportError.MalformedFrame
  | Some (value, ignored) =>
      reject_if ignored TransportError.MalformedFrame ;?
      validate value ;?
      Ok value
  end.

Definition encode_within {T} `{JsonCodec T} (limit : Z) (validate : T → result unit TransportError) (value : T) :
    result (list ascii) TransportError :=
  validate value ;?
  let? encoded := ok_or (to_json value) TransportError.MalformedFrame in
  reject_if (limit <? Z.of_nat (length encoded)) TransportError.FrameTooLarge ;?
  Ok encoded.

Definition RemoteControlFrame_decode `{JsonCodec RemoteControlFrame} : list ascii → result RemoteControlFrame TransportError :=
  decode_within MAX_REMOTE_CONTROL_FRAME_BYTES RemoteControlFrame_validate.

Definition RemoteControlFrame_encode `{JsonCodec RemoteControlFrame} : RemoteControlFrame → result (list ascii) TransportError :=
  encode_within MAX_REMOTE_CONTROL_FRAME_BYTES RemoteControlFrame_validate.

Definition WakePayload_encode `{JsonCodec WakePayload} : WakePayload → result (list ascii) TransportError :=
  encode_within MAX_PUSH_PAYLOAD_BYTES WakePayload_validate.

Definition WakePayload_decode `{JsonCodec WakePayload} : list ascii → result WakePayload TransportError :=
  decode_within MAX_PUSH_PAYLOAD_BYTES WakePayload_validate.

(** *** Links *)

Context `{JsonCodec RemoteBootstrapWire}.

Definition encode_remote_bootstrap (bootstrap : RemotePairingBootstrap) : result string TransportError :=
  validate_remote_bootstrap bootstrap ;?
  let? encoded := ok_or (to_json (RemoteBootstrapWire.mk 1 bootstrap)) TransportError.MalformedFrame in
  reject_if (MAX_BOOTSTRAP_JSON_BYTES <? Z.of_nat (length encoded)) TransportError.FrameTooLarge ;?
  Ok (REMOTE_BOOTSTRAP_URI_PREFIX +:+ b64_encode encoded).

Definition decode_remote_bootstrap (uri : string) : result RemotePairingBootstrap TransportError :=
  let? encoded := ok_or (strip_prefix REMOTE_BOOTSTRAP_URI_PREFIX uri) TransportError.MalformedFrame in
  reject_if (str_is_empty encoded || has_char "=" encoded || negb (forallb url_safe (bytes_of encoded))) TransportError.MalformedFrame ;?
  let? decoded := ok_or (b64_decode encoded) TransportError.MalformedFrame in
  reject_if ((MAX_BOOTSTRAP_JSON_BYTES <? Z.of_nat (length decoded)) || bool_decide (b64_encode decoded ≠ encoded))
    TransportError.MalformedFrame ;?
  let? wire := ok_or (from_json decoded) TransportError.MalformedFrame in
  let wire := wire.1 in
  let? canonical := ok_or (to_json wire) TransportError.MalformedFrame in
  reject_if (bool_decide (canonical ≠ decoded) || negb (wire.(RemoteBootstrapWire.revision) =? 1)) TransportError.MalformedFrame ;?
  validate_remote_bootstrap wire.(RemoteBootstrapWire.bootstrap) ;?
  Ok wire.(RemoteBootstrapWire.bootstrap).
End validation.

(** ** Correlation *)

Module RemoteCorrelationState.
Record RemoteCorrelationState : Type := mk {
  last_incoming_request_id : Z;
  last_outgoing_request_id : Z;
  outgoing : gmap Z ExpectedRemoteResponse
}.
End RemoteCorrelationState.
Abbreviation RemoteCorrelationState := RemoteCorrelationState.RemoteCorrelationState.

Definition RemoteCorrelationState_default : RemoteCorrelationState := RemoteCorrelationState.mk 0 0 ∅.

Definition accept_incoming_request (request_id : Z) (s : RemoteCorrelationState) : RemoteCorrelationState * result unit TransportError :=
  if (request_id =? 0) || (request_id <=? s.(RemoteCorrelationState.last_incoming_request_id))
  then (s, Err TransportError.MalformedFrame)
  else (RemoteCorrelationState.mk request_id s.(RemoteCorrelationState.last_outgoing_request_id) s.(RemoteCorrelationState.outgoing), Ok tt).

Definition register_outgoing_request (request_id : Z) (expected : ExpectedRemoteResponse) (s : RemoteCorrelationState) :
    RemoteCorrelationState * result unit TransportError :=
  if (request_id =? 0) || (request_id <=? s.(RemoteCorrelationState.last_outgoing_request_id))
  then (s, Err TransportError.MalformedFrame)
  else
    (RemoteCorrelationState.mk s.(RemoteCorrelationState.last_incoming_request_id) request_id
       (<[request_id := expected]> s.(RemoteCorrelationState.outgoing)),
     if is_some (s.(RemoteCorrelationState.outgoing) !! request_id) then Err TransportError.MalformedFrame else Ok tt).

(** The response that a frame is. *)
Definition response_kind (frame : RemoteControlFrame) : option ExpectedRemoteResponse :=
  match frame with
  | RemoteControlFrame.RemoteHelloAck _ _ _ => Some ExpectedRemoteResponse.RemoteHelloAck
  | RemoteControlFrame.RouteRegistered _ => Some ExpectedRemoteResponse.RouteRegistered
  | RemoteControlFrame.PresenceRegistered _ _ => Some ExpectedRemoteResponse.PresenceRegistered
  | RemoteControlFrame.DeviceGrantRegistered _ => Some ExpectedRemoteResponse.DeviceGrantRegistered
  | RemoteControlFrame.RouteResolved _ _ _ _ => Some ExpectedRemoteResponse.RouteResolved
  | RemoteControlFrame.PushAddressReplaced _ _ => Some ExpectedRemoteResponse.PushAddressReplaced
  | RemoteControlFrame.PushAddressDeleted _ => Some ExpectedRemoteResponse.PushAddressDeleted
  | RemoteControlFrame.WakeAccepted _ => Some ExpectedRemoteResponse.WakeAccepted
  | RemoteControlFrame.DeviceGrantRevoked _ => Some ExpectedRemoteResponse.DeviceGrantRevoked
  | _ => None
  end.

Definition is_remote_error (frame : RemoteControlFrame) : bool :=
  match frame with
  | RemoteControlFrame.RemoteError _ _ _ => true
  | _ => false
  end.

Definition accept_remote_response (frame : RemoteControlFrame) (s : RemoteCorrelationState) :
    RemoteCorrelationState * result unit TransportError :=
  match
    let? request_id := ok_or (frame_request_id frame) TransportError.MalformedFrame in
    let? expected := ok_or (s.(RemoteCorrelationState.outgoing) !! request_id) TransportError.MalformedFrame in
    reject_if (negb (is_remote_error frame || bool_decide (response_kind frame = Some expected))) TransportError.MalformedFrame ;?
    Ok request_id
  with
  | Err e => (s, Err e)
  | Ok request_id =>
      (RemoteCorrelationState.mk s.(RemoteCorrelationState.last_incoming_request_id) s.(RemoteCorrelationState.last_outgoing_request_id)
         (delete request_id s.(RemoteCorrelationState.outgoing)), Ok tt)
  end.

(** ** Round trips *)

Section round_trips.
Context `{B64 : Base64}.

Lemma decode_encoded {T} `{Codec : JsonCodec T, !JsonCodecOk T} limit (validate : T → result unit TransportError) value bytes :
  encode_within limit validate value = Ok bytes →
  decode_within limit validate bytes = Ok value ∧ 0 < Z.of_nat (length bytes) ≤ limit.
Proof.
  unfold encode_within. rewrite rbind_ok_unit, rbind_ok. intros (Hv & json & Hj & Hrest). simpl_ok. destruct Hrest as [Hl [= <-]].
  destruct (to_json_text _ _ Hj) as [Hne Hu]. unfold decode_within, within.
  rewrite Hu, (proj2 (Z.ltb_ge _ _) Hl), (from_json_to _ _ Hj). destruct json; [done|]. simpl. rewrite Hv. simpl in *. split; [done|lia].
Qed.

Lemma decoded_is_valid {T} `{Codec : JsonCodec T} limit (validate : T → result unit TransportError) value bytes :
  decode_within limit validate bytes = Ok value → validate value = Ok tt ∧ 0 < Z.of_nat (length bytes) ≤ limit.
Proof.
  unfold decode_within, within. destruct (_ || _) eqn:Hw; [done|]. simpl. simpl_ok. destruct Hw as [[[c Hc] Hl] _].
  destruct (from_json bytes) as [[v []]|]; [done| |done]. simpl. rewrite rbind_ok_unit. intros [Hv [= <-]].
  split; [done|]. destruct bytes; [done|]. simpl in *. lia.
Qed.

(** A frame that is sent is received as it is, and only valid frames are sent or received. *)
Lemma remote_frame_round_trip `{Codec : JsonCodec RemoteControlFrame, !JsonCodecOk RemoteControlFrame} frame bytes :
  RemoteControlFrame_encode frame = Ok bytes →
  RemoteControlFrame_decode bytes = Ok frame ∧ RemoteControlFrame_validate frame = Ok tt ∧
  0 < Z.of_nat (length bytes) ≤ MAX_REMOTE_CONTROL_FRAME_BYTES.
Proof.
  intros [Hd Hl]%decode_encoded. split; [done|]. split; [|done]. by apply decoded_is_valid in Hd as [? _].
Qed.

Context `{Codec : JsonCodec RemoteBootstrapWire}.

Lemma decoded_remote_link_is_canonical uri bootstrap :
  decode_remote_bootstrap uri = Ok bootstrap → encode_remote_bootstrap bootstrap = Ok uri.
Proof.
  unfold decode_remote_bootstrap. destruct (strip_prefix REMOTE_BOOTSTRAP_URI_PREFIX uri) as [encoded|] eqn:Hp; [|done]. simpl.
  destruct (_ || _); [done|]. simpl. destruct (b64_decode encoded) as [decoded|]; [|done]. simpl.
  destruct (Z.ltb_spec MAX_BOOTSTRAP_JSON_BYTES (Z.of_nat (length decoded))) as [|Hl]; [done|]. simpl. case_bool_decide as Hc; [done|]. simpl.
  destruct (from_json decoded) as [[[revision b] ignored]|]; [|done]. simpl. destruct (to_json _) as [json|] eqn:Hj; [|done]. simpl.
  case_bool_decide as Hd; [done|]. subst json. simpl. destruct (Z.eqb_spec revision 1) as [->|]; [|done]. simpl.
  rewrite rbind_ok_unit. intros [Hv [= <-]]. unfold encode_remote_bootstrap. rewrite Hv. simpl. rewrite Hj. simpl.
  rewrite (proj2 (Z.ltb_ge _ _) Hl). simpl. apply strip_prefix_some in Hp. by rewrite Hc, Hp.
Qed.

Context `{!Base64Ok, !JsonCodecOk RemoteBootstrapWire}.

Lemma encoded_nonempty json : json ≠ [] → str_is_empty (b64_encode json) = false.
Proof.
  intros Hne. pose proof (b64_length json) as Hlen. destruct (b64_encode json); [|done]. destruct json; [done|].
  unfold str_len in Hlen. cbn [length String.length] in Hlen.
  pose proof (Z.div_le_mono 3 (4 * Z.of_nat (S (length json)) + 2) 3 ltac:(lia) ltac:(lia)) as Hd. rewrite Z.div_same in Hd; lia.
Qed.

Lemma encoded_remote_link_is_read bootstrap uri :
  encode_remote_bootstrap bootstrap = Ok uri → decode_remote_bootstrap uri = Ok bootstrap.
Proof.
  unfold encode_remote_bootstrap. rewrite rbind_ok_unit, rbind_ok. intros (Hv & json & Hj & Hrest). simpl_ok. destruct Hrest as [Hl [= <-]].
  destruct (to_json_text _ _ Hj) as [Hne _].
  unfold decode_remote_bootstrap. rewrite (proj2 (strip_prefix_some REMOTE_BOOTSTRAP_URI_PREFIX _ _) eq_refl). simpl.
  rewrite encoded_nonempty, no_padding, b64_alphabet, b64_decode_encode by done. simpl.
  rewrite (proj2 (Z.ltb_ge _ _) Hl), bool_decide_false by tauto. simpl. rewrite (from_json_to _ _ Hj). simpl. rewrite Hj. simpl.
  rewrite bool_decide_false by tauto. simpl. by rewrite Hv.
Qed.

(** Remote links: exactly the links that are issued are read, as what they were issued for. *)
Theorem remote_links_round_trip bootstrap uri :
  encode_remote_bootstrap bootstrap = Ok uri ↔ decode_remote_bootstrap uri = Ok bootstrap.
Proof. split; [apply encoded_remote_link_is_read|apply decoded_remote_link_is_canonical]. Qed.
End round_trips.
