(* ===== verification/RemoteClient.v ===== *)
(** * The remote control client

    Models [crates/kaleido-transport/src/remote_client.rs]: length-prefixed frames
    on a stream, and one request and its response at a time.

    The pinned TLS stream is the class of its bytes: what the peer has sent, what
    was sent to it, and a script of faults, one entry for each call, where
    [Some n] makes the call fail after [n] bytes. *)
From stdpp Require Import prelude strings gmap.
From Stdlib Require Import ZArith Lia Ascii.
From S2P Require Import Prelude ProtoBase ProtoContent TransportControl TransportBootstrap TransportRemote.

Local Open Scope Z_scope.
Local Opaque to_be_bytes from_be_bytes.

Module RemoteClientError.
Inductive RemoteClientError : Type :=
| Connect
| Security
| Io
| Contract
| Rejected (code : WireErrorCode).
End RemoteClientError.
Abbreviation RemoteClientError := RemoteClientError.RemoteClientError.

#[export] Instance RemoteClientError_eq_dec : EqDecision RemoteClientError.
Proof. solve_decision. Defined.

Definition LENGTH_PREFIX_BYTES : nat := 4.

Module RemoteStream.
Record RemoteStream : Type := mk {
  incoming : list ascii;
  sent : list ascii;
  io_faults : list (option nat)
}.
End RemoteStream.
Abbreviation RemoteStream := RemoteStream.RemoteStream.

Definition stream_fault (s : RemoteStream) : option nat := default None (head s.(RemoteStream.io_faults)).

(** [Read::read_exact] *)
Definition read_exact (count : nat) (s : RemoteStream) : RemoteStream * result (list ascii) RemoteClientError :=
  let available := match stream_fault s with
                   | Some n => (Nat.min n (length s.(RemoteStream.incoming)))
                   | None => length s.(RemoteStream.incoming)
                   end in
  let taken := Nat.min count available in
  (RemoteStream.mk (drop taken s.(RemoteStream.incoming)) s.(RemoteStream.sent) (tail s.(RemoteStream.io_faults)),
   if (available <? count)%nat then Err RemoteClientError.Io else Ok (take count s.(RemoteStream.incoming))).

(** [Write::write_all] *)
Definition stream_write_all (bytes : list ascii) (s : RemoteStream) : RemoteStream * result unit RemoteClientError :=
  match stream_fault s with
  | Some n => (RemoteStream.mk s.(RemoteStream.incoming) (s.(RemoteStream.sent) ++ take n bytes) (tail s.(RemoteStream.io_faults)),
               Err RemoteClientError.Io)
  | None => (RemoteStream.mk s.(RemoteStream.incoming) (s.(RemoteStream.sent) ++ bytes) (tail s.(RemoteStream.io_faults)), Ok tt)
  end.

Definition stream_flush (s : RemoteStream) : RemoteStream * result unit RemoteClientError :=
  (RemoteStream.mk s.(RemoteStream.incoming) s.(RemoteStream.sent) (tail s.(RemoteStream.io_faults)),
   if is_some (stream_fault s) then Err RemoteClientError.Io else Ok tt).

Module RemoteControlClient.
Record RemoteControlClient : Type := mk {
  stream : RemoteStream;
  correlation : RemoteCorrelationState
}.
End RemoteControlClient.
Abbreviation RemoteControlClient := RemoteControlClient.RemoteControlClient.

Section client.
Context `{Base64, JsonCodec RemoteControlFrame}.

Definition read_frame (s : RemoteStream) : RemoteStream * result RemoteControlFrame RemoteClientError :=
  match read_exact LENGTH_PREFIX_BYTES s with
  | (s, Err e) => (s, Err e)
  | (s, Ok prefix) =>
      let length := from_be_bytes prefix in
      if (length =? 0) || (MAX_REMOTE_CONTROL_FRAME_BYTES <? length) then (s, Err RemoteClientError.Contract)
      else
        match read_exact (Z.to_nat length) s with
        | (s, Err e) => (s, Err e)
        | (s, Ok encoded) => (s, map_err (λ _, RemoteClientError.Contract) (RemoteControlFrame_decode encoded))
        end
  end.

Definition write_frame (frame : RemoteControlFrame) (s : RemoteStream) : RemoteStream * result unit RemoteClientError :=
  match RemoteControlFrame_encode frame with
  | Err _ => (s, Err RemoteClientError.Contract)
  | Ok encoded =>
      if u32_max <? Z.of_nat (length encoded) then (s, Err RemoteClientError.Contract)
      else
        match stream_write_all (to_be_bytes 4 (Z.of_nat (length encoded))) s with
        | (s, Err e) => (s, Err e)
        | (s, Ok _) =>
            match stream_write_all encoded s with
            | (s, Err e) => (s, Err e)
            | (s, Ok _) => stream_flush s
            end
        end
  end.

Definition client_request (frame : RemoteControlFrame) (expected : ExpectedRemoteResponse) (c : RemoteControlClient) :
    RemoteControlClient * result RemoteControlFrame RemoteClientError :=
  match frame_request_id frame with
  | None => (c, Err RemoteClientError.Contract)
  | Some request_id =>
      match register_outgoing_request request_id expected c.(RemoteControlClient.correlation) with
      | (correlation, Err _) => (RemoteControlClient.mk c.(RemoteControlClient.stream) correlation, Err RemoteClientError.Contract)
      | (correlation, Ok _) =>
          match write_frame frame c.(RemoteControlClient.stream) with
          | (stream, Err e) => (RemoteControlClient.mk stream correlation, Err e)
          | (stream, Ok _) =>
              match read_frame stream with
              | (stream, Err e) => (RemoteControlClient.mk stream correlation, Err e)
              | (stream, Ok response) =>
                  match accept_remote_response response correlation with
                  | (correlation, Err _) => (RemoteControlClient.mk stream correlation, Err RemoteClientError.Contract)
                  | (correlation, Ok _) =>
                      (RemoteControlClient.mk stream correlation,
                       match response with
                       | RemoteControlFrame.RemoteError _ code _ => Err (RemoteClientError.Rejected code)
                       | _ => Ok response
                       end)
                  end
              end
          end
      end
  end.

Definition client_hello (c : RemoteControlClient) : RemoteControlClient * result unit RemoteClientError :=
  match client_request (RemoteControlFrame.RemoteHello 1 REMOTE_CONTROL_VERSION MAX_REMOTE_CONTROL_FRAME_BYTES)
          ExpectedRemoteResponse.RemoteHelloAck c with
  | (c, Err e) => (c, Err e)
  | (c, Ok response) =>
      (c, match response with
          | RemoteControlFrame.RemoteHelloAck request_id _ _ => reject_if (negb (request_id =? 1)) RemoteClientError.Contract
          | _ => Err RemoteClientError.Contract
          end)
  end.

(** [connect] after the socket is open and the service's pin was verified. *)
Definition client_connected (stream : RemoteStream) : RemoteControlClient * result unit RemoteClientError :=
  client_hello (RemoteControlClient.mk stream RemoteCorrelationState_default).

(** ** Framing *)

Definition framed (encoded : list ascii) : list ascii := to_be_bytes 4 (Z.of_nat (length encoded)) ++ encoded.

Lemma write_frame_sends frame s s' :
  write_frame frame s = (s', Ok tt) →
  ∃ encoded, RemoteControlFrame_encode frame = Ok encoded ∧ s'.(RemoteStream.sent) = s.(RemoteStream.sent) ++ framed encoded ∧
    s'.(RemoteStream.incoming) = s.(RemoteStream.incoming).
Proof.
  unfold write_frame. destruct (RemoteControlFrame_encode frame) as [encoded|]; [|done]. destruct (_ <? _); [done|].
  unfold stream_write_all, stream_flush. destruct (stream_fault s); [done|].
  destruct (stream_fault (RemoteStream.mk _ _ _)); [done|]. destruct (is_some _); [done|]. intros [= <-]. exists encoded. simpl.
  split_and!; [done| |done]. by rewrite <-app_assoc.
Qed.

Lemma read_exact_ok count bytes rest sent faults :
  default None (head faults) = None → length bytes = count →
  read_exact count (RemoteStream.mk (bytes ++ rest) sent faults) = (RemoteStream.mk rest sent (tail faults), Ok bytes).
Proof.
  intros Hf <-. unfold read_exact, stream_fault. simpl. rewrite Hf, length_app, take_app_length.
  rewrite Nat.min_l, drop_app_length by lia. by rewrite (proj2 (Nat.ltb_ge _ _)) by lia.
Qed.

Context `{!JsonCodecOk RemoteControlFrame}.

(** Whatever was sent is the next frame on the peer's side, and nothing more of the stream is read. *)
Lemma read_sent_frame frame encoded rest sent :
  RemoteControlFrame_encode frame = Ok encoded →
  read_frame (RemoteStream.mk (framed encoded ++ rest) sent []) = (RemoteStream.mk rest sent [], Ok frame).
Proof.
  intros He. destruct (remote_frame_round_trip _ _ He) as (Hd & _ & Hl). unfold read_frame, framed, LENGTH_PREFIX_BYTES. rewrite <-app_assoc.
  rewrite (read_exact_ok 4) by (done || apply to_be_bytes_length).
  rewrite from_to_be_bytes by (change (256 ^ Z.of_nat 4) with 4294967296; unfold MAX_REMOTE_CONTROL_FRAME_BYTES in *; lia).
  rewrite (proj2 (Z.eqb_neq _ _)), (proj2 (Z.ltb_ge _ _)) by lia. rewrite Nat2Z.id. cbn [orb tail]. by rewrite read_exact_ok, Hd.
Qed.

(** On a client with no request in flight, a response that is returned answers the request that was sent,
    with the kind that was expected, and no request is in flight afterwards. *)
Theorem client_responses_are_correlated frame expected c c' response
    (Hidle : c.(RemoteControlClient.correlation).(RemoteCorrelationState.outgoing) = ∅)
    (Hok : client_request frame expected c = (c', Ok response)) :
  frame_request_id response = frame_request_id frame ∧ response_kind response = Some expected ∧
  c'.(RemoteControlClient.correlation).(RemoteCorrelationState.outgoing) = ∅.
Proof.
  revert Hok. unfold client_request. destruct (frame_request_id frame) as [request_id|]; [|done].
  unfold register_outgoing_request. destruct (_ || _); [done|]. rewrite Hidle. destruct (is_some _); [done|].
  destruct (write_frame _ _) as [s1 [[]|]]; [|done]. destruct (read_frame s1) as [s2 [resp|]]; [|done].
  unfold accept_remote_response. destruct (frame_request_id resp) as [answered|] eqn:Hid; [|done]. cbn -[lookup delete insert].
  rewrite insert_empty. destruct ({[request_id := expected]} !! answered) as [expected'|] eqn:Hl; [|done]. cbn -[lookup delete insert].
  apply lookup_singleton_Some in Hl as [-> ->].
  destruct (is_remote_error resp) eqn:Herr; [by destruct resp|]. case_bool_decide as Hk; [|done]. cbn -[lookup delete insert]. intros E.
  assert (resp = response) as <- by (destruct resp; simplify_eq/=; done). assert (c' = RemoteControlClient.mk s2 (RemoteCorrelationState.mk
    (RemoteCorrelationState.last_incoming_request_id (RemoteControlClient.correlation c)) answered (delete answered {[answered := expected']}))) as ->
    by (destruct resp; simplify_eq/=; done).
  split_and!; [by rewrite Hid|done|]. simpl. apply delete_singleton_eq.
Qed.
End client.
