(* ===== verification/RelayIds.v ===== *)
(** * Relay: identifiers, errors and pushes

    Models [crates/kaleido-relay/src/ids.rs], [error.rs] and [push.rs]: the fixed
    length identifiers and tokens, the closed set of rejections, push addresses,
    the payload of a wake and the sender's treatment of an answer of FCM.

    SHA-256 is the function [sha256]; random bytes are arguments. *)
From stdpp Require Import prelude strings gmap.
From Stdlib Require Import ZArith Lia Ascii.
From S2P Require Import Prelude ProtoBase ProtoContent TransportControl TransportBootstrap TransportRemote.

Local Open Scope Z_scope.

(** ** Identifiers: [fixed_id!] *)

Inductive FixedKind : Type :=
| KRoute | KDeviceSlot | KOperation | KAccessToken | KRouteAdminToken | KHostEndpoint.

Definition fixed_len (k : FixedKind) : nat :=
  match k with
  | KRoute | KDeviceSlot | KOperation => 16
  | KAccessToken | KRouteAdminToken | KHostEndpoint => 32
  end.

Record FixedId (k : FixedKind) : Type := mkFixed { as_bytes : list ascii }.
Arguments mkFixed {k} as_bytes.
Arguments as_bytes {k} f.

Abbreviation RouteId := (FixedId KRoute).
Abbreviation DeviceSlotId := (FixedId KDeviceSlot).
Abbreviation OperationId := (FixedId KOperation).
Abbreviation AccessToken := (FixedId KAccessToken).
Abbreviation RouteAdminToken := (FixedId KRouteAdminToken).
Abbreviation HostEndpointId := (FixedId KHostEndpoint).

#[export] Instance FixedId_eq_dec k : EqDecision (FixedId k).
Proof. solve_decision. Defined.

#[export] Instance FixedId_countable k : Countable (FixedId k).
Proof. apply (inj_countable' as_bytes mkFixed). by intros []. Defined.

(** Arrays of bytes are ordered as the texts they would be. *)
#[export] Instance FixedId_ord_key k : OrdKey (FixedId k) := λ i, String.string_of_list_ascii (as_bytes i).

Section ids.
Context `{Base64}.

Definition from_opaque (k : FixedKind) (value : string) : option (FixedId k) :=
  decoded ← b64_decode value;
  if (length decoded =? fixed_len k)%nat then Some (mkFixed decoded) else None.

Definition opaque {k} (i : FixedId k) : string := b64_encode (as_bytes i).
End ids.

Definition zero_digest : list ascii := repeat zero 32.

(** ** Errors *)

Module RemoteErrorCode.
Inductive RemoteErrorCode : Type :=
| VersionMismatch
| MalformedFrame
| AuthenticationFailed
| RouteUnavailable
| Expired
| Replay
| RateLimited
| LimitExceeded
| Revoked
| Internal.
End RemoteErrorCode.
Abbreviation RemoteErrorCode := RemoteErrorCode.RemoteErrorCode.

#[export] Instance RemoteErrorCode_eq_dec : EqDecision RemoteErrorCode.
Proof. solve_decision. Defined.

Definition RemoteErrorCode_is_retriable (c : RemoteErrorCode) : bool :=
  match c with
  | RemoteErrorCode.RouteUnavailable | RemoteErrorCode.Expired | RemoteErrorCode.RateLimited | RemoteErrorCode.Internal => true
  | _ => false
  end.

Module RemoteError.
Inductive RemoteError : Type :=
| Rejected (code : RemoteErrorCode)
| UnsafeStorage
| Storage
| Encoding.
End RemoteError.
Abbreviation RemoteError := RemoteError.RemoteError.

#[export] Instance RemoteError_eq_dec : EqDecision RemoteError.
Proof. solve_decision. Defined.

Definition RemoteError_code (e : RemoteError) : RemoteErrorCode :=
  match e with
  | RemoteError.Rejected code => code
  | RemoteError.UnsafeStorage | RemoteError.Storage | RemoteError.Encoding => RemoteErrorCode.Internal
  end.

Module RemoteErrorFrame.
Record RemoteErrorFrame : Type := mk {
  request_id : option Z;
  code : RemoteErrorCode;
  retriable : bool
}.
End RemoteErrorFrame.
Abbreviation RemoteErrorFrame := RemoteErrorFrame.RemoteErrorFrame.

#[export] Instance RemoteErrorFrame_eq_dec : EqDecision RemoteErrorFrame.
Proof. solve_decision. Defined.

Definition RemoteErrorFrame_new (request_id : option Z) (code : RemoteErrorCode) : RemoteErrorFrame :=
  RemoteErrorFrame.mk request_id code (RemoteErrorCode_is_retriable code).

Definition RemoteErrorFrame_from_error (request_id : option Z) (error : RemoteError) : RemoteErrorFrame :=
  RemoteErrorFrame_new request_id (RemoteError_code error).

Definition rejected (code : RemoteErrorCode) : RemoteError := RemoteError.Rejected code.

(** ** Pushes *)

Module PushProvider.
Inductive PushProvider : Type :=
| FcmFid
| ApnsToken.
End PushProvider.
Abbreviation PushProvider := PushProvider.PushProvider.

#[export] Instance PushProvider_eq_dec : EqDecision PushProvider.
Proof. solve_decision. Defined.

Module PushAddress.
Record PushAddress : Type := mk {
  provider : PushProvider;
  opaque_address : string;
  registered_at_ms : Z;
  expires_at_ms : Z
}.
End PushAddress.
Abbreviation PushAddress := PushAddress.PushAddress.

#[export] Instance PushAddress_eq_dec : EqDecision PushAddress.
Proof. solve_decision. Defined.

(** [chars().any(char::is_whitespace)] on UTF-8 bytes. *)
Fixpoint has_whitespace (s : string) : bool :=
  match s with
  | "" => false
  | String a s1 =>
      between 9 13 a || (code a =? 32)%nat
      || match s1 with
         | "" => false
         | String b s2 =>
             ((code a =? 194)%nat && ((code b =? 133)%nat || (code b =? 160)%nat))
             || match s2 with
                | "" => false
                | String c _ =>
                    ((code a =? 225)%nat && (code b =? 154)%nat && (code c =? 128)%nat)
                    || ((code a =? 226)%nat && (code b =? 128)%nat
                        && (between 128 138 c || (code c =? 168)%nat || (code c =? 169)%nat || (code c =? 175)%nat))
                    || ((code a =? 226)%nat && (code b =? 129)%nat && (code c =? 159)%nat)
                    || ((code a =? 227)%nat && (code b =? 128)%nat && (code c =? 128)%nat)
                end
         end
      || has_whitespace s1
  end.

Definition fcm_fid (opaque_address : string) (registered_at_ms expires_at_ms : Z) : option PushAddress :=
  if str_is_empty opaque_address || (4096 <? str_len opaque_address) || has_whitespace opaque_address
     || (expires_at_ms <=? registered_at_ms)
  then None else Some (PushAddress.mk PushProvider.FcmFid opaque_address registered_at_ms expires_at_ms).

Module PushPayload.
Record PushPayload : Type := mk {
  v : string;
  kind : string;
  route : string;
  wake : string
}.
End PushPayload.
Abbreviation PushPayload := PushPayload.PushPayload.

#[export] Instance PushPayload_eq_dec : EqDecision PushPayload.
Proof. solve_decision. Defined.

Definition OPAQUE_HINT_CHARS : nat := 22.
Definition MAX_FCM_ERROR_BYTES : nat := 8192.

Section payload.
Context `{Base64}.

Definition wake_with_id (route : RouteId) (wake : string) : option PushPayload :=
  let route := opaque route in
  if negb (char_count route =? OPAQUE_HINT_CHARS)%nat || negb (char_count wake =? OPAQUE_HINT_CHARS)%nat
  then None else Some (PushPayload.mk "1" "wake" route wake).

Definition PushPayload_wake (route : RouteId) (wake : DeviceSlotId) : option PushPayload := wake_with_id route (opaque wake).
End payload.

Definition PushPayload_is_valid (p : PushPayload) : bool :=
  bool_decide (p.(PushPayload.v) = "1") && bool_decide (p.(PushPayload.kind) = "wake")
  && (char_count p.(PushPayload.route) =? OPAQUE_HINT_CHARS)%nat && (char_count p.(PushPayload.wake) =? OPAQUE_HINT_CHARS)%nat
  && forallb url_safe (bytes_of p.(PushPayload.route)) && forallb url_safe (bytes_of p.(PushPayload.wake)).

Definition to_json_bytes `{JsonCodec PushPayload} (p : PushPayload) : option (list ascii) :=
  if PushPayload_is_valid p then
    bytes ← to_json p;
    if Z.of_nat (length bytes) <=? MAX_PUSH_PAYLOAD_BYTES then Some bytes else None
  else None.

Module FcmMessage.
Record FcmMessage : Type := mk {
  fid : string;
  data : PushPayload
}.
End FcmMessage.
Abbreviation FcmMessage := FcmMessage.FcmMessage.

#[export] Instance FcmMessage_eq_dec : EqDecision FcmMessage.
Proof. solve_decision. Defined.

Definition FcmHttpV1Request_new (fid : string) (payload : PushPayload) : option FcmMessage :=
  _ ← fcm_fid fid 0 1;
  if PushPayload_is_valid payload then Some (FcmMessage.mk fid payload) else None.

Module FcmSendError.
Inductive FcmSendError : Type :=
| Credentials
| InvalidAddress
| InvalidPayload
| Transport
| AuthRejected
| DeleteAddress
| Rejected
| Retryable.
End FcmSendError.
Abbreviation FcmSendError := FcmSendError.FcmSendError.

#[export] Instance FcmSendError_eq_dec : EqDecision FcmSendError.
Proof. solve_decision. Defined.

Definition valid_project_id (value : string) : bool :=
  negb (str_is_empty value) && (str_len value <=? 256) && forallb url_safe (bytes_of value).

(** [status] is the number of the HTTP status. *)
Definition classify_response (status : Z) (body : string) : FcmSendError :=
  if (status =? 404) || str_contains "UNREGISTERED" body then FcmSendError.DeleteAddress
  else if (status =? 401) || (status =? 403) then FcmSendError.AuthRejected
  else if (status =? 429) || ((500 <=? status) && (status <? 600)) then FcmSendError.Retryable
  else FcmSendError.Rejected.

(** The start of an error body; a chunk that is [None] ended the body or failed. *)
Fixpoint read_error_body (body : list ascii) (chunks : list (option (list ascii))) : list ascii :=
  match chunks with
  | Some chunk :: chunks =>
      if (length body <? MAX_FCM_ERROR_BYTES)%nat
      then read_error_body (body ++ take (MAX_FCM_ERROR_BYTES - length body) chunk) chunks
      else body
  | _ => body
  end.

(** What the service does with a message: the answer's status and the chunks of
    its body, or nothing when the request could not be sent. *)
Definition FcmService : Type := FcmMessage → option (Z * list (option (list ascii))).

Definition send_wake `{JsonCodec PushPayload} (credentials : bool) (service : FcmService) (now_ms : Z) (address : PushAddress)
    (payload : PushPayload) : result unit FcmSendError :=
  reject_if (bool_decide (address.(PushAddress.provider) ≠ PushProvider.FcmFid)) FcmSendError.InvalidAddress ;?
  reject_if (address.(PushAddress.expires_at_ms) <=? now_ms) FcmSendError.InvalidAddress ;?
  reject_if (negb (PushPayload_is_valid payload) || is_none (to_json_bytes payload)) FcmSendError.InvalidPayload ;?
  let? request := ok_or (FcmHttpV1Request_new address.(PushAddress.opaque_address) payload) FcmSendError.InvalidPayload in
  reject_if (negb credentials) FcmSendError.Credentials ;?
  let? answer := ok_or (service request) FcmSendError.Transport in
  if (200 <=? answer.1) && (answer.1 <? 300) then Ok tt
  else Err (classify_response answer.1 (String.string_of_list_ascii (read_error_body [] answer.2))).

(** ** Lemmas *)

Section id_lemmas.
Context `{Base64}.

Lemma from_opaque_length k value i : from_opaque k value = Some i → length (as_bytes i) = fixed_len k.
Proof.
  unfold from_opaque. destruct (b64_decode value) as [d|]; [|done]. simpl. destruct (Nat.eqb_spec (length d) (fixed_len k)); [|done].
  by intros [= <-].
Qed.

Lemma from_opaque_opaque `{!Base64Ok} {k} (i : FixedId k) : length (as_bytes i) = fixed_len k → from_opaque k (opaque i) = Some i.
Proof. intros Hl. unfold from_opaque, opaque. rewrite b64_decode_encode. simpl. rewrite Hl, Nat.eqb_refl. by destruct i. Qed.

(** An address that was accepted is accepted again. *)
Lemma fcm_fid_shape text from until address :
  fcm_fid text from until = Some address →
  address.(PushAddress.provider) = PushProvider.FcmFid ∧
  fcm_fid address.(PushAddress.opaque_address) address.(PushAddress.registered_at_ms) address.(PushAddress.expires_at_ms) = Some address.
Proof. unfold fcm_fid. destruct (_ || _) eqn:E; [done|]. intros [= <-]. simpl. by rewrite E. Qed.
End id_lemmas.
