(* ===== verification/RelayRegistry.v ===== *)
(** * Relay: the registry of routes

    Models [crates/kaleido-relay/src/registry.rs]: the routes with their grants,
    revocations and push addresses, the operations on them, and the file that
    holds them.  Every change is made on a copy that is written to the file before
    it replaces the state in memory.

    Presence is not serialised ([#[serde(skip)]]).  The poisoning of a lock is not
    modelled: no operation panics while it holds one. *)
From stdpp Require Import prelude strings gmap.
From Stdlib Require Import ZArith Lia Ascii.
From S2P Require Import Prelude ProtoBase ProtoContent TransportControl TransportBootstrap PrivateFiles TransportRemote RelayIds.

Local Open Scope Z_scope.

Definition MIN_PRESENCE_TTL_SECS : Z := 15.
Definition MAX_PRESENCE_TTL_SECS : Z := 90.
Definition MAX_ROUTES : nat := 1024.
Definition MAX_GRANTS_PER_ROUTE : nat := 128.

(** ** Data *)

Module GrantRecord.
Record GrantRecord : Type := mk {
  token_digest : list ascii
}.
End GrantRecord.
Abbreviation GrantRecord := GrantRecord.GrantRecord.

#[export] Instance GrantRecord_eq_dec : EqDecision GrantRecord.
Proof. solve_decision. Defined.

Module PresenceRecord.
Record PresenceRecord : Type := mk {
  host_endpoint : HostEndpointId;
  relay_url : string;
  expires_at_ms : Z
}.
End PresenceRecord.
Abbreviation PresenceRecord := PresenceRecord.PresenceRecord.

#[export] Instance PresenceRecord_eq_dec : EqDecision PresenceRecord.
Proof. solve_decision. Defined.

Module RouteRecord.
Record RouteRecord : Type := mk {
  route_hint : RouteId;
  host_endpoint : HostEndpointId;
  relay_url : string;
  admin_digest : list ascii;
  grants : gmap DeviceSlotId GrantRecord;
  revoked : gmap DeviceSlotId (list ascii);
  presence : option PresenceRecord
}.
End RouteRecord.
Abbreviation RouteRecord := RouteRecord.RouteRecord.

#[export] Instance RouteRecord_eq_dec : EqDecision RouteRecord.
Proof. solve_decision. Defined.

Definition RouteRecord_set_grants (v : gmap DeviceSlotId GrantRecord) (r : RouteRecord) : RouteRecord := {|
  RouteRecord.route_hint := r.(RouteRecord.route_hint);
  RouteRecord.host_endpoint := r.(RouteRecord.host_endpoint);
  RouteRecord.relay_url := r.(RouteRecord.relay_url);
  RouteRecord.admin_digest := r.(RouteRecord.admin_digest);
  RouteRecord.grants := v;
  RouteRecord.revoked := r.(RouteRecord.revoked);
  RouteRecord.presence := r.(RouteRecord.presence)
|}.

Definition RouteRecord_set_revoked (v : gmap DeviceSlotId (list ascii)) (r : RouteRecord) : RouteRecord := {|
  RouteRecord.route_hint := r.(RouteRecord.route_hint);
  RouteRecord.host_endpoint := r.(RouteRecord.host_endpoint);
  RouteRecord.relay_url := r.(RouteRecord.relay_url);
  RouteRecord.admin_digest := r.(RouteRecord.admin_digest);
  RouteRecord.grants := r.(RouteRecord.grants);
  RouteRecord.revoked := v;
  RouteRecord.presence := r.(RouteRecord.presence)
|}.

Definition RouteRecord_set_presence (v : option PresenceRecord) (r : RouteRecord) : RouteRecord := {|
  RouteRecord.route_hint := r.(RouteRecord.route_hint);
  RouteRecord.host_endpoint := r.(RouteRecord.host_endpoint);
  RouteRecord.relay_url := r.(RouteRecord.relay_url);
  RouteRecord.admin_digest := r.(RouteRecord.admin_digest);
  RouteRecord.grants := r.(RouteRecord.grants);
  RouteRecord.revoked := r.(RouteRecord.revoked);
  RouteRecord.presence := v
|}.

Module RegistryState.
Record RegistryState : Type := mk {
  routes : gmap RouteId RouteRecord;
  pushes : gmap RouteId (gmap DeviceSlotId PushAddress)
}.
End RegistryState.
Abbreviation RegistryState := RegistryState.RegistryState.

#[export] Instance RegistryState_eq_dec : EqDecision RegistryState.
Proof. solve_decision. Defined.

Definition RegistryState_set_routes (v : gmap RouteId RouteRecord) (r : RegistryState) : RegistryState := {|
  RegistryState.routes := v;
  RegistryState.pushes := r.(RegistryState.pushes)
|}.

Definition RegistryState_set_pushes (v : gmap RouteId (gmap DeviceSlotId PushAddress)) (r : RegistryState) : RegistryState := {|
  RegistryState.routes := r.(RegistryState.routes);
  RegistryState.pushes := v
|}.

Definition RegistryState_default : RegistryState := RegistryState.mk ∅ ∅.

Module Registry.
Record Registry : Type := mk {
  state : RegistryState;
  path : option string
}.
End Registry.
Abbreviation Registry := Registry.Registry.

Definition Registry_set_state (v : RegistryState) (r : Registry) : Registry := {|
  Registry.state := v;
  Registry.path := r.(Registry.path)
|}.

Module RouteBootstrap.
Record RouteBootstrap : Type := mk {
  route_id : RouteId;
  admin_token : RouteAdminToken;
  host_endpoint : HostEndpointId;
  relay_url : string
}.
End RouteBootstrap.
Abbreviation RouteBootstrap := RouteBootstrap.RouteBootstrap.

#[export] Instance RouteBootstrap_eq_dec : EqDecision RouteBootstrap.
Proof. solve_decision. Defined.

Module RouteRegistration.
Record RouteRegistration : Type := mk {
  route_id : RouteId;
  route_hint : RouteId;
  admin_token : RouteAdminToken;
  host_endpoint : HostEndpointId;
  relay_url : string
}.
End RouteRegistration.
Abbreviation RouteRegistration := RouteRegistration.RouteRegistration.

#[export] Instance RouteRegistration_eq_dec : EqDecision RouteRegistration.
Proof. solve_decision. Defined.

Module PresenceRegistration.
Record PresenceRegistration : Type := mk {
  route_id : RouteId;
  admin_token : RouteAdminToken;
  host_endpoint : HostEndpointId;
  relay_url : string;
  ttl_secs : Z
}.
End PresenceRegistration.
Abbreviation PresenceRegistration := PresenceRegistration.PresenceRegistration.

#[export] Instance PresenceRegistration_eq_dec : EqDecision PresenceRegistration.
Proof. solve_decision. Defined.

Module DeviceGrant.
Record DeviceGrant : Type := mk {
  route_id : RouteId;
  slot_id : DeviceSlotId;
  access_token : AccessToken
}.
End DeviceGrant.
Abbreviation DeviceGrant := DeviceGrant.DeviceGrant.

#[export] Instance DeviceGrant_eq_dec : EqDecision DeviceGrant.
Proof. solve_decision. Defined.

Module DeviceGrantRegistration.
Record DeviceGrantRegistration : Type := mk {
  route_id : RouteId;
  slot_id : DeviceSlotId;
  access_token : AccessToken;
  admin_token : RouteAdminToken
}.
End DeviceGrantRegistration.
Abbreviation DeviceGrantRegistration := DeviceGrantRegistration.DeviceGrantRegistration.

#[export] Instance DeviceGrantRegistration_eq_dec : EqDecision DeviceGrantRegistration.
Proof. solve_decision. Defined.

Module ResolveResponse.
Record ResolveResponse : Type := mk {
  host_endpoint : HostEndpointId;
  relay_url : string;
  expires_at_ms : Z
}.
End ResolveResponse.
Abbreviation ResolveResponse := ResolveResponse.ResolveResponse.

#[export] Instance ResolveResponse_eq_dec : EqDecision ResolveResponse.
Proof. solve_decision. Defined.

Module BearerIdentity.
Record BearerIdentity : Type := mk {
  route_id : RouteId;
  slot_id : option DeviceSlotId;
  expected_host_endpoint : option HostEndpointId
}.
End BearerIdentity.
Abbreviation BearerIdentity := BearerIdentity.BearerIdentity.

#[export] Instance BearerIdentity_eq_dec : EqDecision BearerIdentity.
Proof. solve_decision. Defined.

Module BearerFailure.
Inductive BearerFailure : Type :=
| Invalid
| Revoked.
End BearerFailure.
Abbreviation BearerFailure := BearerFailure.BearerFailure.

#[export] Instance BearerFailure_eq_dec : EqDecision BearerFailure.
Proof. solve_decision. Defined.

(** ** Validation *)

Definition validate_ttl (ttl_secs : Z) : result unit RemoteError :=
  if (MIN_PRESENCE_TTL_SECS <=? ttl_secs) && (ttl_secs <=? MAX_PRESENCE_TTL_SECS) then Ok tt
  else Err (rejected RemoteErrorCode.MalformedFrame).

Definition registry_validate_relay_url (value : string) : result unit RemoteError :=
  let lower := to_ascii_lowercase value in
  reject_if (negb (starts_with "https://" lower) || str_contains "n0.computer" lower || str_contains "staging" lower
             || has_whitespace value || (2048 <? str_len value)) (rejected RemoteErrorCode.MalformedFrame) ;?
  let authority := default "" (strip_prefix "https://" value) in
  reject_if (str_is_empty authority || starts_with "/" authority) (rejected RemoteErrorCode.MalformedFrame).

Definition digest_matches (left right : list ascii) : bool := bool_decide (left = right).

Definition validate_route (route : RouteRecord) : result unit RemoteError :=
  registry_validate_relay_url route.(RouteRecord.relay_url) ;?
  reject_if ((MAX_GRANTS_PER_ROUTE <? size route.(RouteRecord.grants) + size route.(RouteRecord.revoked))%nat
             || bool_decide (route.(RouteRecord.admin_digest) = zero_digest)) (rejected RemoteErrorCode.Internal) ;?
  try_for_each (λ grant, reject_if (bool_decide (grant.(GrantRecord.token_digest) = zero_digest)) (rejected RemoteErrorCode.Internal))
    (btree_values route.(RouteRecord.grants)).

Definition validate_pushes (s : RegistryState) (entry : RouteId * gmap DeviceSlotId PushAddress) : result unit RemoteError :=
  let? route := ok_or (s.(RegistryState.routes) !! entry.1) (rejected RemoteErrorCode.Internal) in
  try_for_each (λ '(slot_id, address),
    reject_if (is_none (route.(RouteRecord.grants) !! slot_id) || is_some (route.(RouteRecord.revoked) !! slot_id)
               || bool_decide (fcm_fid address.(PushAddress.opaque_address) address.(PushAddress.registered_at_ms)
                                 address.(PushAddress.expires_at_ms) ≠ Some address)) (rejected RemoteErrorCode.Internal))
    (btree_entries entry.2).

Definition registry_validate_state (s : RegistryState) : result unit RemoteError :=
  reject_if (MAX_ROUTES <? size s.(RegistryState.routes))%nat (rejected RemoteErrorCode.LimitExceeded) ;?
  try_for_each validate_route (btree_values s.(RegistryState.routes)) ;?
  try_for_each (validate_pushes s) (btree_entries s.(RegistryState.pushes)).

(** ** The file *)

(** [#[serde(skip)]] on [presence]: neither written nor read. *)
Definition forget_presence (s : RegistryState) : RegistryState :=
  RegistryState_set_routes (RouteRecord_set_presence None <$> s.(RegistryState.routes)) s.

(** A check of permissions: the mode is refused, or a call fails. *)
Definition ensure_owner_only : vault RemoteError unit :=
  fault ← vault_fault;
  match fault with
  | None => mret tt
  | Some O => vault_fail RemoteError.UnsafeStorage
  | Some (S _) => vault_fail RemoteError.Storage
  end.

(** The directory is created when it is not there. *)
Definition prepare_private_parent : vault RemoteError unit :=
  _ ← vault_attempt RemoteError.Storage;
  ensure_owner_only.

Section file.
Context `{Base64, JsonCodec RegistryState}.

Definition write_state (path : string) (s : RegistryState) : vault RemoteError unit :=
  _ ← prepare_private_parent;
  match to_json (forget_presence s) with
  | None => vault_fail RemoteError.Encoding
  | Some bytes =>
      random ← vault_draw;
      let temporary := temporary_file ".relay-registry-" random in
      _ ← secure_private_file RemoteError.Storage temporary;
      _ ← vault_attempt RemoteError.Storage;
      _ ← ensure_owner_only;
      removing_on_error temporary (write_and_replace RemoteError.Storage temporary path bytes)
  end.

Definition read_state (path : string) : vault RemoteError RegistryState :=
  _ ← ensure_owner_only;
  _ ← vault_attempt RemoteError.Storage;
  _ ← vault_attempt RemoteError.Storage;
  files ← vault_files;
  match files !! path with
  | None => vault_fail RemoteError.Storage
  | Some bytes =>
      match from_json bytes with
      | Some (s, _) => mret (forget_presence s)
      | None => vault_fail RemoteError.Encoding
      end
  end.

Definition Registry_open (path : option string) : vault RemoteError Registry :=
  s ← match path with
      | Some path =>
          present ← vault_exists path;
          if (present : bool) then read_state path
          else
            _ ← prepare_private_parent;
            _ ← write_state path RegistryState_default;
            mret RegistryState_default
      | None => mret RegistryState_default
      end;
  match registry_validate_state s with
  | Err e => vault_fail e
  | Ok _ => mret (Registry.mk s path)
  end.

(** [commit]: the registry in memory, and whether the change was made. *)
Definition registry_commit (mutate : RegistryState → result RegistryState RemoteError) (r : Registry) (d : PrivateDirectory) :
    Registry * PrivateDirectory * result unit RemoteError :=
  match mutate r.(Registry.state) with
  | Err e => (r, d, Err e)
  | Ok next =>
      match r.(Registry.path) with
      | None => (Registry_set_state next r, d, Ok tt)
      | Some path =>
          match write_state path next d with
          | (d, Err e) => (r, d, Err e)
          | (d, Ok _) => (Registry_set_state next r, d, Ok tt)
          end
      end
  end.
End file.

(** ** Operations *)

Definition route_of (route_id : RouteId) (s : RegistryState) : result RouteRecord RemoteError :=
  ok_or (s.(RegistryState.routes) !! route_id) (rejected RemoteErrorCode.RouteUnavailable).

Definition put_route (route_id : RouteId) (route : RouteRecord) (s : RegistryState) : RegistryState :=
  RegistryState_set_routes (<[route_id := route]> s.(RegistryState.routes)) s.

Definition remove_push (route_id : RouteId) (slot_id : DeviceSlotId) (s : RegistryState) : RegistryState :=
  match s.(RegistryState.pushes) !! route_id with
  | None => s
  | Some pushes =>
      let pushes := delete slot_id pushes in
      RegistryState_set_pushes
        (if bool_decide (pushes = ∅) then delete route_id s.(RegistryState.pushes)
         else <[route_id := pushes]> s.(RegistryState.pushes)) s
  end.

Section operations.
Context `{Base64, JsonCodec RegistryState}.
Variable sha256 : list ascii → list ascii.
Implicit Types s : RegistryState.

Definition token_digest (token : AccessToken) : list ascii := sha256 (as_bytes token).
Definition admin_digest (token : RouteAdminToken) : list ascii := sha256 (as_bytes token).

(** [if !digest_matches(..) { return Err(rejected(code)) }] *)
Definition require_admin (route : RouteRecord) (token : RouteAdminToken) (code : RemoteErrorCode) : result unit RemoteError :=
  reject_if (negb (digest_matches route.(RouteRecord.admin_digest) (admin_digest token))) (rejected code).

(** *** What each operation does to the state: the closures given to [commit] *)

Definition create_route_in (route_id route_hint : RouteId) (admin_token : RouteAdminToken) (host_endpoint : HostEndpointId)
    (relay_url : string) s : result RegistryState RemoteError :=
  reject_if (is_some (s.(RegistryState.routes) !! route_id)) (rejected RemoteErrorCode.Internal) ;?
  reject_if (MAX_ROUTES <=? size s.(RegistryState.routes))%nat (rejected RemoteErrorCode.LimitExceeded) ;?
  Ok (put_route route_id (RouteRecord.mk route_hint host_endpoint relay_url (admin_digest admin_token) ∅ ∅ None) s).

Definition register_presence_in (registration : PresenceRegistration) (now_ms : Z) s : result RegistryState RemoteError :=
  let? route := route_of registration.(PresenceRegistration.route_id) s in
  require_admin route registration.(PresenceRegistration.admin_token) RemoteErrorCode.AuthenticationFailed ;?
  reject_if (bool_decide (route.(RouteRecord.host_endpoint) ≠ registration.(PresenceRegistration.host_endpoint))
             || bool_decide (route.(RouteRecord.relay_url) ≠ registration.(PresenceRegistration.relay_url)))
    (rejected RemoteErrorCode.AuthenticationFailed) ;?
  Ok (put_route registration.(PresenceRegistration.route_id)
        (RouteRecord_set_presence
           (Some (PresenceRecord.mk registration.(PresenceRegistration.host_endpoint) registration.(PresenceRegistration.relay_url)
                    (saturating_add_u64 now_ms (saturating_mul_u64 registration.(PresenceRegistration.ttl_secs) 1000)))) route) s).

Definition register_route_in (registration : RouteRegistration) s : result RegistryState RemoteError :=
  match s.(RegistryState.routes) !! registration.(RouteRegistration.route_id) with
  | Some route =>
      reject_if (negb (digest_matches route.(RouteRecord.admin_digest) (admin_digest registration.(RouteRegistration.admin_token)))
                 || bool_decide (route.(RouteRecord.route_hint) ≠ registration.(RouteRegistration.route_hint))
                 || bool_decide (route.(RouteRecord.host_endpoint) ≠ registration.(RouteRegistration.host_endpoint))
                 || bool_decide (route.(RouteRecord.relay_url) ≠ registration.(RouteRegistration.relay_url)))
        (rejected RemoteErrorCode.AuthenticationFailed) ;?
      Ok s
  | None =>
      reject_if (MAX_ROUTES <=? size s.(RegistryState.routes))%nat (rejected RemoteErrorCode.LimitExceeded) ;?
      Ok (put_route registration.(RouteRegistration.route_id)
            (RouteRecord.mk registration.(RouteRegistration.route_hint) registration.(RouteRegistration.host_endpoint)
               registration.(RouteRegistration.relay_url) (admin_digest registration.(RouteRegistration.admin_token)) ∅ ∅ None) s)
  end.

Definition grants_full (route : RouteRecord) : bool :=
  (MAX_GRANTS_PER_ROUTE <=? size route.(RouteRecord.grants) + size route.(RouteRecord.revoked))%nat.

Definition grant_device_in (route_id : RouteId) (admin_token : RouteAdminToken) (slot_id : DeviceSlotId) (access_token : AccessToken) s :
    result RegistryState RemoteError :=
  let? route := route_of route_id s in
  require_admin route admin_token RemoteErrorCode.AuthenticationFailed ;?
  reject_if (grants_full route) (rejected RemoteErrorCode.LimitExceeded) ;?
  let route := RouteRecord_set_revoked (delete slot_id route.(RouteRecord.revoked)) route in
  Ok (put_route route_id
        (RouteRecord_set_grants (<[slot_id := GrantRecord.mk (token_digest access_token)]> route.(RouteRecord.grants)) route) s).

Definition register_device_grant_in (registration : DeviceGrantRegistration) s : result RegistryState RemoteError :=
  let slot_id := registration.(DeviceGrantRegistration.slot_id) in
  let? route := route_of registration.(DeviceGrantRegistration.route_id) s in
  require_admin route registration.(DeviceGrantRegistration.admin_token) RemoteErrorCode.AuthenticationFailed ;?
  reject_if (is_some (route.(RouteRecord.revoked) !! slot_id)) (rejected RemoteErrorCode.Revoked) ;?
  let presented := token_digest registration.(DeviceGrantRegistration.access_token) in
  match route.(RouteRecord.grants) !! slot_id with
  | Some existing =>
      reject_if (negb (digest_matches existing.(GrantRecord.token_digest) presented)) (rejected RemoteErrorCode.AuthenticationFailed) ;?
      Ok s
  | None =>
      reject_if (grants_full route) (rejected RemoteErrorCode.LimitExceeded) ;?
      Ok (put_route registration.(DeviceGrantRegistration.route_id)
            (RouteRecord_set_grants (<[slot_id := GrantRecord.mk presented]> route.(RouteRecord.grants)) route) s)
  end.

Definition revoke_device_in (route_id : RouteId) (admin_token : RouteAdminToken) (slot_id : DeviceSlotId) s : result RegistryState RemoteError :=
  let? route := route_of route_id s in
  require_admin route admin_token RemoteErrorCode.AuthenticationFailed ;?
  match route.(RouteRecord.grants) !! slot_id with
  | None => Err (rejected RemoteErrorCode.Revoked)
  | Some grant =>
      let route := RouteRecord_set_grants (delete slot_id route.(RouteRecord.grants)) route in
      let route := RouteRecord_set_revoked (<[slot_id := grant.(GrantRecord.token_digest)]> route.(RouteRecord.revoked)) route in
      Ok (remove_push route_id slot_id (put_route route_id route s))
  end.

(** The grant of a device whose token is presented. *)
Definition granted (route_id : RouteId) (slot_id : DeviceSlotId) (access_token : AccessToken) (code : RemoteErrorCode) s :
    result RouteRecord RemoteError :=
  let? route := route_of route_id s in
  let? grant := ok_or (route.(RouteRecord.grants) !! slot_id) (rejected RemoteErrorCode.RouteUnavailable) in
  reject_if (negb (digest_matches grant.(GrantRecord.token_digest) (token_digest access_token))) (rejected code) ;?
  Ok route.

Definition register_push_in (route_id : RouteId) (slot_id : DeviceSlotId) (access_token : AccessToken) (address : PushAddress) s :
    result RegistryState RemoteError :=
  granted route_id slot_id access_token RemoteErrorCode.AuthenticationFailed s ;?
  Ok (RegistryState_set_pushes
        (<[route_id := <[slot_id := address]> (default ∅ (s.(RegistryState.pushes) !! route_id))]> s.(RegistryState.pushes)) s).

Definition delete_push_in (route_id : RouteId) (slot_id : DeviceSlotId) (access_token : AccessToken) s : result RegistryState RemoteError :=
  granted route_id slot_id access_token RemoteErrorCode.RouteUnavailable s ;?
  Ok (remove_push route_id slot_id s).

Definition delete_push_for_service_in (route_id : RouteId) (slot_id : DeviceSlotId) s : result RegistryState RemoteError :=
  let? route := route_of route_id s in
  reject_if (is_none (route.(RouteRecord.grants) !! slot_id) || is_some (route.(RouteRecord.revoked) !! slot_id))
    (rejected RemoteErrorCode.RouteUnavailable) ;?
  Ok (remove_push route_id slot_id s).

(** *** The methods *)

Definition create_route (host_endpoint : HostEndpointId) (relay_url : string) (route_id : RouteId) (admin_token : RouteAdminToken)
    (route_hint : RouteId) (r : Registry) (d : PrivateDirectory) : Registry * PrivateDirectory * result RouteBootstrap RemoteError :=
  match registry_validate_relay_url relay_url with
  | Err e => (r, d, Err e)
  | Ok _ =>
      match registry_commit (create_route_in route_id route_hint admin_token host_endpoint relay_url) r d with
      | (r, d, Err e) => (r, d, Err e)
      | (r, d, Ok _) => (r, d, Ok (RouteBootstrap.mk route_id admin_token host_endpoint relay_url))
      end
  end.

Definition register_presence (registration : PresenceRegistration) (now_ms : Z) (r : Registry) (d : PrivateDirectory) :
    Registry * PrivateDirectory * result unit RemoteError :=
  match validate_ttl registration.(PresenceRegistration.ttl_secs) ;?
        registry_validate_relay_url registration.(PresenceRegistration.relay_url) with
  | Err e => (r, d, Err e)
  | Ok _ => registry_commit (register_presence_in registration now_ms) r d
  end.

Definition register_route (registration : RouteRegistration) (r : Registry) (d : PrivateDirectory) :
    Registry * PrivateDirectory * result unit RemoteError :=
  match registry_validate_relay_url registration.(RouteRegistration.relay_url) with
  | Err e => (r, d, Err e)
  | Ok _ => registry_commit (register_route_in registration) r d
  end.

Definition grant_device (route_id : RouteId) (admin_token : RouteAdminToken) (slot_id : DeviceSlotId) (access_token : AccessToken)
    (r : Registry) (d : PrivateDirectory) : Registry * PrivateDirectory * result DeviceGrant RemoteError :=
  match registry_commit (grant_device_in route_id admin_token slot_id access_token) r d with
  | (r, d, Err e) => (r, d, Err e)
  | (r, d, Ok _) => (r, d, Ok (DeviceGrant.mk route_id slot_id access_token))
  end.

Definition register_device_grant (registration : DeviceGrantRegistration) : Registry → PrivateDirectory → _ :=
  registry_commit (register_device_grant_in registration).

Definition revoke_device (route_id : RouteId) (admin_token : RouteAdminToken) (slot_id : DeviceSlotId) : Registry → PrivateDirectory → _ :=
  registry_commit (revoke_device_in route_id admin_token slot_id).

Definition register_push (route_id : RouteId) (slot_id : DeviceSlotId) (access_token : AccessToken) (address : PushAddress) (now_ms : Z)
    (r : Registry) (d : PrivateDirectory) : Registry * PrivateDirectory * result unit RemoteError :=
  if bool_decide (address.(PushAddress.provider) ≠ PushProvider.FcmFid) then (r, d, Err (rejected RemoteErrorCode.MalformedFrame))
  else if address.(PushAddress.expires_at_ms) <=? now_ms then (r, d, Err (rejected RemoteErrorCode.Expired))
  else registry_commit (register_push_in route_id slot_id access_token address) r d.

Definition delete_push (route_id : RouteId) (slot_id : DeviceSlotId) (access_token : AccessToken) : Registry → PrivateDirectory → _ :=
  registry_commit (delete_push_in route_id slot_id access_token).

Definition delete_push_for_service (route_id : RouteId) (slot_id : DeviceSlotId) : Registry → PrivateDirectory → _ :=
  registry_commit (delete_push_for_service_in route_id slot_id).

(** *** Queries *)

Definition push_address (route_id : RouteId) (slot_id : DeviceSlotId) (admin_token : RouteAdminToken) s :
    result (option (PushAddress * RouteId)) RemoteError :=
  let? route := route_of route_id s in
  reject_if (negb (digest_matches route.(RouteRecord.admin_digest) (admin_digest admin_token))
             || is_none (route.(RouteRecord.grants) !! slot_id) || is_some (route.(RouteRecord.revoked) !! slot_id))
    (rejected RemoteErrorCode.RouteUnavailable) ;?
  Ok ((λ address, (address, route.(RouteRecord.route_hint))) <$> (s.(RegistryState.pushes) !! route_id ≫= (.!! slot_id))).

Definition resolve (route_id : RouteId) (slot_id : DeviceSlotId) (access_token : AccessToken) (at_ms : Z) s :
    result ResolveResponse RemoteError :=
  let? route := route_of route_id s in
  reject_if (is_some (route.(RouteRecord.revoked) !! slot_id)) (rejected RemoteErrorCode.RouteUnavailable) ;?
  let? grant := ok_or (route.(RouteRecord.grants) !! slot_id) (rejected RemoteErrorCode.RouteUnavailable) in
  reject_if (negb (digest_matches grant.(GrantRecord.token_digest) (token_digest access_token))) (rejected RemoteErrorCode.RouteUnavailable) ;?
  match route.(RouteRecord.presence) with
  | Some presence =>
      if at_ms <=? presence.(PresenceRecord.expires_at_ms)
      then Ok (ResolveResponse.mk presence.(PresenceRecord.host_endpoint) presence.(PresenceRecord.relay_url) presence.(PresenceRecord.expires_at_ms))
      else Err (rejected RemoteErrorCode.RouteUnavailable)
  | None => Err (rejected RemoteErrorCode.RouteUnavailable)
  end.

(** The slot of a route whose token has the digest, the first in order. *)
Definition matching_slot (digest : list ascii) (route : RouteRecord) : option DeviceSlotId :=
  fst <$> find_first (λ entry, digest_matches entry.2.(GrantRecord.token_digest) digest) (btree_entries route.(RouteRecord.grants)).

Fixpoint find_bearer (digest : list ascii) (was_revoked : bool) (routes : list (RouteId * RouteRecord)) : result BearerIdentity BearerFailure :=
  match routes with
  | [] => Err (if was_revoked then BearerFailure.Revoked else BearerFailure.Invalid)
  | (route_id, route) :: routes =>
      if digest_matches route.(RouteRecord.admin_digest) digest
      then Ok (BearerIdentity.mk route_id None (Some route.(RouteRecord.host_endpoint)))
      else
        match matching_slot digest route with
        | Some slot_id => Ok (BearerIdentity.mk route_id (Some slot_id) None)
        | None =>
            find_bearer digest (was_revoked || existsb (λ revoked, digest_matches revoked digest) (btree_values route.(RouteRecord.revoked))) routes
        end
  end.

Definition authenticate_bearer (bearer : string) s : result BearerIdentity BearerFailure :=
  let? bearer := ok_or (from_opaque KAccessToken bearer) BearerFailure.Invalid in
  find_bearer (token_digest bearer) false (btree_entries s.(RegistryState.routes)).

Definition authorize_admin (route_id : RouteId) (admin_token : RouteAdminToken) s : result unit RemoteError :=
  let? route := route_of route_id s in
  require_admin route admin_token RemoteErrorCode.AuthenticationFailed.

Definition authorize_device (route_id : RouteId) (slot_id : DeviceSlotId) (access_token : AccessToken) s : result unit RemoteError :=
  let? route := route_of route_id s in
  reject_if (is_some (route.(RouteRecord.revoked) !! slot_id)) (rejected RemoteErrorCode.Revoked) ;?
  let? grant := ok_or (route.(RouteRecord.grants) !! slot_id) (rejected RemoteErrorCode.RouteUnavailable) in
  reject_if (negb (digest_matches grant.(GrantRecord.token_digest) (token_digest access_token))) (rejected RemoteErrorCode.AuthenticationFailed).
End operations.
