(* ===== verification/RelayRegistryProofs.v ===== *)
(** * What the relay's registry promises

    Calls, failed writes and restarts of the service as sequences, what every
    committed change keeps, and what follows for the file and for devices. *)
From stdpp Require Import prelude strings gmap.
From Stdlib Require Import ZArith Lia Ascii.
From S2P Require Import Prelude ProtoBase ProtoContent TransportControl TransportBootstrap PrivateFiles TransportRemote RelayIds RelayRegistry.

Local Open Scope Z_scope.

(** ** States that can be opened *)

Record push_ok (route : RouteRecord) (slot_id : DeviceSlotId) (address : PushAddress) : Prop := {
  push_granted : is_Some (route.(RouteRecord.grants) !! slot_id);
  push_not_revoked : route.(RouteRecord.revoked) !! slot_id = None;
  push_fcm : fcm_fid address.(PushAddress.opaque_address) address.(PushAddress.registered_at_ms) address.(PushAddress.expires_at_ms) = Some address
}.

Record relay_ok (s : RegistryState) : Prop := {
  relay_size : (size s.(RegistryState.routes) ≤ MAX_ROUTES)%nat;
  relay_route id route : s.(RegistryState.routes) !! id = Some route → validate_route route = Ok tt;
  relay_pushes id pushes : s.(RegistryState.pushes) !! id = Some pushes →
    ∃ route, s.(RegistryState.routes) !! id = Some route ∧
      ∀ slot_id address, pushes !! slot_id = Some address → push_ok route slot_id address;
  relay_disjoint id route slot_id : s.(RegistryState.routes) !! id = Some route →
    is_Some (route.(RouteRecord.grants) !! slot_id) → route.(RouteRecord.revoked) !! slot_id = None
}.

Lemma elem_of_btree_entries {K V} `{EqDecision K, Countable K, OrdKey K} (m : gmap K V) e :
  e ∈ btree_entries m ↔ m !! e.1 = Some e.2.
Proof. rewrite btree_entries_perm. destruct e. apply elem_of_map_to_list. Qed.

Lemma validate_pushes_ok s id pushes :
  validate_pushes s (id, pushes) = Ok tt ↔
  ∃ route, s.(RegistryState.routes) !! id = Some route ∧ ∀ slot_id address, pushes !! slot_id = Some address → push_ok route slot_id address.
Proof.
  unfold validate_pushes. rewrite rbind_ok. simpl. setoid_rewrite ok_or_ok. setoid_rewrite try_for_each_ok.
  split; intros (route & Hr & Hp); exists route; (split; [done|]).
  - intros slot_id address Ha. specialize (Hp (slot_id, address)). rewrite elem_of_btree_entries in Hp. specialize (Hp Ha). simpl in Hp. simpl_ok.
    destruct Hp as [[Hg Hn] Hf]. by split.
  - intros [slot_id address] Ha%elem_of_btree_entries. simpl in Ha. destruct (Hp _ _ Ha) as [[g Hg] Hn Hf]. by rewrite Hg, Hn, Hf, bool_decide_false by tauto.
Qed.

Lemma relay_ok_validates s : relay_ok s → registry_validate_state s = Ok tt.
Proof.
  intros [Hs Hr Hp _]. unfold registry_validate_state. rewrite !rbind_ok_unit, reject_if_ok, Nat.ltb_ge, !try_for_each_ok. split_and!; [done| |].
  - intros route [id Hid]%elem_of_btree_values. by eapply Hr.
  - intros [id pushes] Hid%elem_of_btree_entries. by apply validate_pushes_ok, Hp.
Qed.

(** What a route needs to be valid. *)
Record route_ok (route : RouteRecord) : Prop := {
  route_url : registry_validate_relay_url route.(RouteRecord.relay_url) = Ok tt;
  route_grants : (size route.(RouteRecord.grants) + size route.(RouteRecord.revoked) ≤ MAX_GRANTS_PER_ROUTE)%nat;
  route_admin : route.(RouteRecord.admin_digest) ≠ zero_digest;
  route_tokens slot_id grant : route.(RouteRecord.grants) !! slot_id = Some grant → grant.(GrantRecord.token_digest) ≠ zero_digest
}.

Lemma validate_route_ok route : validate_route route = Ok tt ↔ route_ok route.
Proof.
  unfold validate_route. rewrite !rbind_ok_unit, reject_if_ok, orb_false_iff, Nat.ltb_ge, bool_decide_eq_false, try_for_each_ok. split.
  - intros (Hu & [Hg Ha] & Ht). split; [done..|]. intros slot_id grant Hl.
    specialize (Ht grant (proj2 (elem_of_btree_values _ _) (ex_intro _ slot_id Hl))). by rewrite reject_if_ok, bool_decide_eq_false in Ht.
  - intros [Hu Hg Ha Ht]. split_and!; [done..|]. intros grant [slot_id Hl]%elem_of_btree_values. rewrite reject_if_ok, bool_decide_eq_false. by eapply Ht.
Qed.

(** Inverts a chain of checks that succeeded. *)
Ltac checks_ok := repeat (
  match goal with
  | H : rbind _ _ = Ok _ |- _ => apply rbind_ok in H as (? & ? & H)
  | H : ok_or _ _ = Ok _ |- _ => apply ok_or_ok in H
  | H : reject_if _ _ = Ok ?u |- _ => destruct u; apply reject_if_ok in H
  | H : Ok _ = Ok _ |- _ => injection H as <-
  end).

(** ** Changes *)

Section calls.
Context `{B64 : Base64, Codec : JsonCodec RegistryState}.
Variable sha256 : list ascii → list ascii.

Inductive RelayCall : Type :=
| CreateRoute (host_endpoint : HostEndpointId) (relay_url : string) (route_id : RouteId) (admin_token : RouteAdminToken) (route_hint : RouteId)
| RegisterRoute (registration : RouteRegistration)
| RegisterPresence (registration : PresenceRegistration) (now_ms : Z)
| GrantDevice (route_id : RouteId) (admin_token : RouteAdminToken) (slot_id : DeviceSlotId) (access_token : AccessToken)
| RegisterDeviceGrant (registration : DeviceGrantRegistration)
| RevokeDevice (route_id : RouteId) (admin_token : RouteAdminToken) (slot_id : DeviceSlotId)
| RegisterPush (route_id : RouteId) (slot_id : DeviceSlotId) (access_token : AccessToken) (address : PushAddress) (now_ms : Z)
| DeletePush (route_id : RouteId) (slot_id : DeviceSlotId) (access_token : AccessToken)
| DeletePushForService (route_id : RouteId) (slot_id : DeviceSlotId).

Definition call_relay (call : RelayCall) (r : Registry) (d : PrivateDirectory) : Registry * PrivateDirectory * result unit RemoteError :=
  match call with
  | CreateRoute host_endpoint relay_url route_id admin_token route_hint =>
      let '(r, d, res) := create_route sha256 host_endpoint relay_url route_id admin_token route_hint r d in (r, d, res ;? Ok tt)
  | RegisterRoute registration => register_route sha256 registration r d
  | RegisterPresence registration now_ms => register_presence sha256 registration now_ms r d
  | GrantDevice route_id admin_token slot_id access_token =>
      let '(r, d, res) := grant_device sha256 route_id admin_token slot_id access_token r d in (r, d, res ;? Ok tt)
  | RegisterDeviceGrant registration => register_device_grant sha256 registration r d
  | RevokeDevice route_id admin_token slot_id => revoke_device sha256 route_id admin_token slot_id r d
  | RegisterPush route_id slot_id access_token address now_ms => register_push sha256 route_id slot_id access_token address now_ms r d
  | DeletePush route_id slot_id access_token => delete_push sha256 route_id slot_id access_token r d
  | DeletePushForService route_id slot_id => delete_push_for_service route_id slot_id r d
  end.

(** The change a call makes to the state, its checks included. *)
Definition relay_change (call : RelayCall) (s : RegistryState) : result RegistryState RemoteError :=
  match call with
  | CreateRoute host_endpoint relay_url route_id admin_token route_hint =>
      registry_validate_relay_url relay_url ;? create_route_in sha256 route_id route_hint admin_token host_endpoint relay_url s
  | RegisterRoute registration =>
      registry_validate_relay_url registration.(RouteRegistration.relay_url) ;? register_route_in sha256 registration s
  | RegisterPresence registration now_ms =>
      (validate_ttl registration.(PresenceRegistration.ttl_secs) ;?
       registry_validate_relay_url registration.(PresenceRegistration.relay_url)) ;? register_presence_in sha256 registration now_ms s
  | GrantDevice route_id admin_token slot_id access_token => grant_device_in sha256 route_id admin_token slot_id access_token s
  | RegisterDeviceGrant registration => register_device_grant_in sha256 registration s
  | RevokeDevice route_id admin_token slot_id => revoke_device_in sha256 route_id admin_token slot_id s
  | RegisterPush route_id slot_id access_token address now_ms =>
      reject_if (bool_decide (address.(PushAddress.provider) ≠ PushProvider.FcmFid)) (rejected RemoteErrorCode.MalformedFrame) ;?
      reject_if (address.(PushAddress.expires_at_ms) <=? now_ms) (rejected RemoteErrorCode.Expired) ;?
      register_push_in sha256 route_id slot_id access_token address s
  | DeletePush route_id slot_id access_token => delete_push_in sha256 route_id slot_id access_token s
  | DeletePushForService route_id slot_id => delete_push_for_service_in route_id slot_id s
  end.

Lemma call_relay_commits call r d : call_relay call r d = registry_commit (relay_change call) r d.
Proof.
  destruct call; simpl; unfold register_device_grant, revoke_device, delete_push, delete_push_for_service; try done.
  - unfold create_route, registry_commit; cbn [relay_change]. destruct (registry_validate_relay_url _); [|done]. simpl. destruct (create_route_in _ _ _ _ _ _ _); [|done].
    destruct r.(Registry.path); [|done]. by destruct (write_state _ _ _) as [? [[]|]].
  - unfold register_route, registry_commit; cbn [relay_change]. by destruct (registry_validate_relay_url _).
  - unfold register_presence, registry_commit; cbn [relay_change]. destruct (validate_ttl _); [|done]. simpl. by destruct (registry_validate_relay_url _).
  - unfold grant_device, registry_commit; cbn [relay_change]. destruct (grant_device_in _ _ _ _ _ _); [|done].
    destruct r.(Registry.path); [|done]. by destruct (write_state _ _ _) as [? [[]|]].
  - unfold register_push, registry_commit; cbn [relay_change]. case_bool_decide; [done|]. simpl. by destruct (_ <=? _).
Qed.

(** ** What every change keeps *)

(** The calls carry tokens whose digest is not the reserved one, and addresses
    made by [PushAddress::fcm_fid]. *)
Definition call_sane (call : RelayCall) : Prop :=
  match call with
  | CreateRoute _ _ _ admin_token _ => admin_digest sha256 admin_token ≠ zero_digest
  | RegisterRoute registration => admin_digest sha256 registration.(RouteRegistration.admin_token) ≠ zero_digest
  | GrantDevice _ _ _ access_token => token_digest sha256 access_token ≠ zero_digest
  | RegisterDeviceGrant registration => token_digest sha256 registration.(DeviceGrantRegistration.access_token) ≠ zero_digest
  | RegisterPush _ _ _ address _ =>
      fcm_fid address.(PushAddress.opaque_address) address.(PushAddress.registered_at_ms) address.(PushAddress.expires_at_ms) = Some address
  | _ => True
  end.

(** [regrant id slot]: a revoked slot may be granted again. *)
Inductive relay_step (regrant : RouteId → DeviceSlotId → Prop) (s : RegistryState) : RegistryState → Prop :=
| step_same : relay_step regrant s s
| step_route id hint endpoint url digest :
    s.(RegistryState.routes) !! id = None → (size s.(RegistryState.routes) < MAX_ROUTES)%nat →
    registry_validate_relay_url url = Ok tt → digest ≠ zero_digest →
    relay_step regrant s (put_route id (RouteRecord.mk hint endpoint url digest ∅ ∅ None) s)
| step_presence id route expires_at_ms :
    s.(RegistryState.routes) !! id = Some route →
    relay_step regrant s
      (put_route id (RouteRecord_set_presence
         (Some (PresenceRecord.mk route.(RouteRecord.host_endpoint) route.(RouteRecord.relay_url) expires_at_ms)) route) s)
| step_grant id route slot_id digest :
    s.(RegistryState.routes) !! id = Some route → grants_full route = false → digest ≠ zero_digest →
    (route.(RouteRecord.revoked) !! slot_id = None ∨ regrant id slot_id) →
    relay_step regrant s
      (put_route id (RouteRecord_set_grants (<[slot_id := GrantRecord.mk digest]> route.(RouteRecord.grants))
         (RouteRecord_set_revoked (delete slot_id route.(RouteRecord.revoked)) route)) s)
| step_revoke id route slot_id grant :
    s.(RegistryState.routes) !! id = Some route → route.(RouteRecord.grants) !! slot_id = Some grant →
    relay_step regrant s
      (remove_push id slot_id
         (put_route id (RouteRecord_set_revoked (<[slot_id := grant.(GrantRecord.token_digest)]> route.(RouteRecord.revoked))
            (RouteRecord_set_grants (delete slot_id route.(RouteRecord.grants)) route)) s))
| step_push id route slot_id address :
    s.(RegistryState.routes) !! id = Some route → is_Some (route.(RouteRecord.grants) !! slot_id) →
    fcm_fid address.(PushAddress.opaque_address) address.(PushAddress.registered_at_ms) address.(PushAddress.expires_at_ms) = Some address →
    relay_step regrant s
      (RegistryState_set_pushes (<[id := <[slot_id := address]> (default ∅ (s.(RegistryState.pushes) !! id))]> s.(RegistryState.pushes)) s)
| step_unpush id slot_id : relay_step regrant s (remove_push id slot_id s).

Definition regrants (call : RelayCall) (id : RouteId) (slot_id : DeviceSlotId) : Prop :=
  match call with
  | GrantDevice route_id _ slot _ => route_id = id ∧ slot = slot_id
  | _ => False
  end.

Lemma relay_step_mono (regrant regrant' : RouteId → DeviceSlotId → Prop) s s' :
  (∀ id slot_id, regrant id slot_id → regrant' id slot_id) → relay_step regrant s s' → relay_step regrant' s s'.
Proof using. clear sha256. intros Himp []; econstructor; eauto. naive_solver. Qed.

Lemma set_revoked_id route : RouteRecord_set_revoked route.(RouteRecord.revoked) route = route.
Proof. by destruct route. Qed.

Lemma relay_change_step call s s' : call_sane call → relay_change call s = Ok s' → relay_step (regrants call) s s'.
Proof.
  intros Hsane Hc. destruct call; simpl in *; unfold create_route_in, register_presence_in, grant_device_in, revoke_device_in,
    register_push_in, delete_push_in, delete_push_for_service_in, granted, route_of, require_admin in *; checks_ok.
  - apply step_route; [by apply is_some_false|by apply Nat.leb_gt|by destruct x|done].
  - unfold register_route_in in Hc. destruct (_ !! _) eqn:Hl; checks_ok; [apply step_same|].
    apply step_route; [done|by apply Nat.leb_gt|by destruct x|done].
  - match goal with Hb : bool_decide _ || bool_decide _ = false |- _ => rewrite orb_false_iff, !bool_decide_neq_false in Hb; destruct Hb as [Hend Hurl] end.
    rewrite <-Hend, <-Hurl. by apply step_presence.
  - eapply (step_grant _ s route_id x slot_id (token_digest sha256 access_token)); [done..|by right].
  - unfold register_device_grant_in, route_of, require_admin in Hc. checks_ok.
    destruct (RouteRecord.grants x !! _) eqn:Hl; checks_ok; [apply step_same|].
    match goal with Hn : is_some _ = false |- _ => apply is_some_false in Hn; rewrite <-(set_revoked_id x) at 2; rewrite <-(delete_id _ _ Hn) end.
    apply step_grant; try done. by left.
  - destruct (RouteRecord.grants x !! slot_id) eqn:Hl; [|done]. checks_ok. by eapply step_revoke.
  - simpl_ok. by eapply step_push.
  - apply step_unpush.
  - apply step_unpush.
Qed.

(** *** Well-formedness *)

Lemma remove_push_routes id slot_id s : (remove_push id slot_id s).(RegistryState.routes) = s.(RegistryState.routes).
Proof. unfold remove_push. by destruct (_ !! id). Qed.

Lemma remove_push_lookup id slot_id s id' pushes' :
  (remove_push id slot_id s).(RegistryState.pushes) !! id' = Some pushes' →
  ∃ pushes, s.(RegistryState.pushes) !! id' = Some pushes ∧ pushes' ⊆ pushes ∧ (id' = id → pushes' !! slot_id = None).
Proof.
  unfold remove_push. destruct (s.(RegistryState.pushes) !! id) as [ps|] eqn:Hid; simpl.
  - case_bool_decide; simpl.
    + intros [Hne Hl]%lookup_delete_Some. by exists pushes'.
    + intros [[<- <-]|[Hne Hl]]%lookup_insert_Some; [|by exists pushes'].
      exists ps. split_and!; [done|apply delete_subseteq|]. intros _. apply lookup_delete_eq.
  - intros Hl. exists pushes'. split_and!; [done..|]. intros ->. congruence.
Qed.

(** Pushes of a state whose routes changed only by [new] at [id]. *)
Lemma pushes_of_changed_route id route new s :
  relay_ok s → s.(RegistryState.routes) !! id = Some route →
  (∀ slot_id address, push_ok route slot_id address → push_ok new slot_id address) →
  ∀ id' pushes, s.(RegistryState.pushes) !! id' = Some pushes →
  ∃ route', <[id := new]> s.(RegistryState.routes) !! id' = Some route' ∧
    ∀ slot_id address, pushes !! slot_id = Some address → push_ok route' slot_id address.
Proof.
  intros Hok Hr Hnew id' pushes Hp. destruct (relay_pushes s Hok _ _ Hp) as (route' & Hr' & Hps).
  destruct (decide (id' = id)) as [->|Hne].
  - exists new. rewrite lookup_insert_eq. split; [done|]. intros slot_id address Ha. apply Hnew. rewrite Hr in Hr'. injection Hr' as ->. by apply Hps.
  - exists route'. by rewrite lookup_insert_ne.
Qed.

(** A route that is replaced by a valid one. *)
Lemma relay_ok_put id route new s :
  relay_ok s → s.(RegistryState.routes) !! id = Some route → route_ok new →
  (∀ slot_id address, push_ok route slot_id address → push_ok new slot_id address) →
  (∀ slot_id, is_Some (new.(RouteRecord.grants) !! slot_id) → new.(RouteRecord.revoked) !! slot_id = None) →
  relay_ok (put_route id new s).
Proof.
  intros Hok Hr Hv Hnew Hdis. split; simpl.
  - rewrite map_size_insert_Some by done. apply Hok.
  - intros id' r [[<- <-]|[_ Hl]]%lookup_insert_Some; [by apply validate_route_ok|by eapply Hok].
  - by eapply pushes_of_changed_route.
  - intros id' r slot_id [[<- <-]|[_ Hl]]%lookup_insert_Some; [by apply Hdis|by eapply Hok].
Qed.

Lemma relay_ok_unpush id slot_id s : relay_ok s → relay_ok (remove_push id slot_id s).
Proof.
  intros [Hs Hr Hp Hd]. split; rewrite ?remove_push_routes; [done..| |done]. intros id' pushes' (pushes & Hl & Hsub & _)%remove_push_lookup.
  destruct (Hp _ _ Hl) as (route & Hroute & Hps). exists route. split; [done|]. intros slot' a Ha. apply Hps. by eapply lookup_weaken.
Qed.

Lemma route_ok_granted route slot_id digest :
  route_ok route → grants_full route = false → digest ≠ zero_digest →
  route_ok (RouteRecord_set_grants (<[slot_id := GrantRecord.mk digest]> route.(RouteRecord.grants))
              (RouteRecord_set_revoked (delete slot_id route.(RouteRecord.revoked)) route)).
Proof.
  intros [Hu Hg Ha Ht] Hf%Nat.leb_gt Hd. split; simpl; [done| |done|].
  - pose proof (map_size_insert (M := gmap DeviceSlotId) slot_id (GrantRecord.mk digest) route.(RouteRecord.grants)) as Hi.
    pose proof (map_size_delete (M := gmap DeviceSlotId) slot_id route.(RouteRecord.revoked)) as Hdel.
    rewrite Hi, Hdel. repeat case_match; unfold id; lia.
  - intros slot grant [[_ <-]|[_ Hl]]%lookup_insert_Some; [done|by eapply Ht].
Qed.

Lemma route_ok_revoked route slot_id grant :
  route_ok route → route.(RouteRecord.grants) !! slot_id = Some grant →
  route_ok (RouteRecord_set_revoked (<[slot_id := grant.(GrantRecord.token_digest)]> route.(RouteRecord.revoked))
              (RouteRecord_set_grants (delete slot_id route.(RouteRecord.grants)) route)).
Proof.
  intros [Hu Hg Ha Ht] Hs. split; simpl; [done| |done|].
  - pose proof (map_size_insert (M := gmap DeviceSlotId) slot_id grant.(GrantRecord.token_digest) route.(RouteRecord.revoked)) as Hi.
    pose proof (map_size_delete (M := gmap DeviceSlotId) slot_id route.(RouteRecord.grants)) as Hdel. rewrite Hs in Hdel.
    assert (size route.(RouteRecord.grants) ≠ 0%nat) as Hne by (rewrite map_size_non_empty_iff; intros E; by rewrite E, lookup_empty in Hs).
    rewrite Hi, Hdel. repeat case_match; unfold id; lia.
  - intros slot g [_ Hl]%lookup_delete_Some. by eapply Ht.
Qed.

Lemma relay_ok_revoke id route slot_id grant s :
  relay_ok s → s.(RegistryState.routes) !! id = Some route → route.(RouteRecord.grants) !! slot_id = Some grant →
  relay_ok (remove_push id slot_id
    (put_route id (RouteRecord_set_revoked (<[slot_id := grant.(GrantRecord.token_digest)]> route.(RouteRecord.revoked))
       (RouteRecord_set_grants (delete slot_id route.(RouteRecord.grants)) route)) s)).
Proof.
  intros Hok Hr Hg. pose proof (proj1 (validate_route_ok route) (relay_route s Hok _ _ Hr)) as Hroute.
  split; rewrite ?remove_push_routes; simpl.
  - rewrite map_size_insert_Some by done. apply Hok.
  - intros id' r [[<- <-]|[_ Hl]]%lookup_insert_Some; [by apply validate_route_ok, route_ok_revoked|by eapply Hok].
  - intros id' pushes' (pushes & Hl & Hsub & Hn)%remove_push_lookup. simpl in Hl. destruct (relay_pushes s Hok _ _ Hl) as (r & Hr' & Hps).
    destruct (decide (id' = id)) as [->|Hne]; [|exists r; rewrite lookup_insert_ne by done; split; [done|]; intros slot' a Ha; apply Hps; by eapply lookup_weaken].
    eexists. rewrite lookup_insert_eq. split; [done|]. intros slot' a Ha. rewrite Hr in Hr'. injection Hr' as <-.
    destruct (Hps slot' a) as [Hgr Hnr Hfc]; [by eapply lookup_weaken|]. assert (slot_id ≠ slot') as Hs by (intros ->; rewrite Hn in Ha by done; done).
    split; simpl; [by rewrite lookup_delete_ne|by rewrite lookup_insert_ne|done].
  - intros id' r slot' [[<- <-]|[_ Hl]]%lookup_insert_Some; [|by eapply Hok]. simpl. intros [Hne Hs]%lookup_delete_is_Some.
    rewrite lookup_insert_ne by done. by eapply Hok.
Qed.

Lemma relay_ok_step regrant s s' : relay_ok s → relay_step regrant s s' → relay_ok s'.
Proof.
  intros Hok Hs. assert (∀ id route, s.(RegistryState.routes) !! id = Some route → route_ok route) as Hroutes.
  { intros id route Hl. apply validate_route_ok. by eapply Hok. }
  destruct Hs as [|id hint endpoint url digest Hn Hsz Hu Hd|id route at_ Hr|id route slot digest Hr Hf Hd Hre|id route slot grant Hr Hg|id route slot a Hr Hg Ha|id slot].
  - done.
  - split; simpl.
    + rewrite map_size_insert_None by done. lia.
    + intros id' r [[<- <-]|[_ Hl]]%lookup_insert_Some; [|by eapply Hok]. apply validate_route_ok. split; simpl; [done| |done|].
      * rewrite !map_size_empty. unfold MAX_GRANTS_PER_ROUTE. lia.
      * intros *. by rewrite lookup_empty.
    + intros id' ps Hl. destruct (relay_pushes s Hok _ _ Hl) as (r & Hr & Hps). exists r. rewrite lookup_insert_ne by congruence. done.
    + intros id' r slot [[<- <-]|[_ Hl]]%lookup_insert_Some; [done|by eapply Hok].
  - eapply relay_ok_put; [done..| | |].
    + destruct (Hroutes _ _ Hr). by split.
    + intros slot a [Hg Hn Hf]. by split.
    + intros slot. simpl. by apply (relay_disjoint s Hok _ _ slot Hr).
  - eapply relay_ok_put; [done..| | |].
    + apply route_ok_granted; eauto.
    + intros slot' a [Hg Hn Hfc]. split; simpl; [|by rewrite lookup_delete_None; right|done]. apply lookup_insert_is_Some'. by right.
    + intros slot'. simpl. intros [<-|[Hne Hl]]%lookup_insert_is_Some; [apply lookup_delete_eq|]. rewrite lookup_delete_None. right. by apply (relay_disjoint s Hok _ _ slot' Hr).
  - by eapply relay_ok_revoke.
  - split; simpl; [apply Hok..| |apply Hok]. intros id' ps [[<- <-]|[_ Hl]]%lookup_insert_Some; [|by eapply Hok].
    exists route. split; [done|]. intros slot' a' [[<- <-]|[_ Hl]]%lookup_insert_Some.
    + split; [done| |done]. by apply (relay_disjoint s Hok _ _ slot Hr).
    + destruct (s.(RegistryState.pushes) !! id) as [ps|] eqn:Hps; simpl in Hl; [|by rewrite lookup_empty in Hl].
      destruct (relay_pushes s Hok _ _ Hps) as (r & Hr' & Hall). rewrite Hr in Hr'. injection Hr' as <-. by apply Hall.
  - by apply relay_ok_unpush.
Qed.
End calls.
