(* ===== verification/RelayPromises.v ===== *)
(** * The relay's registry over failures and restarts

    A service that executes calls, whose writes may fail, and that is restarted;
    what its file holds; and the promises that survive all of it: the registry
    opens again, a route keeps the host it was registered for, and a revoked slot
    stays revoked. *)
From stdpp Require Import prelude strings gmap.
From Stdlib Require Import ZArith Lia Ascii.
From S2P Require Import Prelude ProtoBase ProtoContent TransportControl TransportBootstrap PrivateFiles TransportRemote RelayIds RelayRegistry RelayRegistryProofs.

Local Open Scope Z_scope.

(** ** Facts that steps keep *)

(** The slot is revoked and holds no grant. *)
Definition slot_revoked (id : RouteId) (slot_id : DeviceSlotId) (s : RegistryState) : Prop :=
  ∃ route, s.(RegistryState.routes) !! id = Some route ∧ route.(RouteRecord.grants) !! slot_id = None ∧
    is_Some (route.(RouteRecord.revoked) !! slot_id).

(** The route is the one that was registered, and whoever is present on it is its host. *)
Definition route_is (registration : RouteRegistration) (digest : list ascii) (s : RegistryState) : Prop :=
  ∃ route, s.(RegistryState.routes) !! registration.(RouteRegistration.route_id) = Some route ∧
    route.(RouteRecord.route_hint) = registration.(RouteRegistration.route_hint) ∧
    route.(RouteRecord.host_endpoint) = registration.(RouteRegistration.host_endpoint) ∧
    route.(RouteRecord.relay_url) = registration.(RouteRegistration.relay_url) ∧
    route.(RouteRecord.admin_digest) = digest ∧
    ∀ presence, route.(RouteRecord.presence) = Some presence →
      presence.(PresenceRecord.host_endpoint) = registration.(RouteRegistration.host_endpoint) ∧
      presence.(PresenceRecord.relay_url) = registration.(RouteRegistration.relay_url).

(** A fact about one route that every change of that route keeps. *)
Lemma route_fact_step regrant (P : RouteRecord → Prop) id s s' :
  (∀ route at_, P route → P (RouteRecord_set_presence
     (Some (PresenceRecord.mk route.(RouteRecord.host_endpoint) route.(RouteRecord.relay_url) at_)) route)) →
  (∀ route slot digest, P route → route.(RouteRecord.revoked) !! slot = None ∨ regrant id slot →
     P (RouteRecord_set_grants (<[slot := GrantRecord.mk digest]> route.(RouteRecord.grants))
          (RouteRecord_set_revoked (delete slot route.(RouteRecord.revoked)) route))) →
  (∀ route slot grant, P route → route.(RouteRecord.grants) !! slot = Some grant →
     P (RouteRecord_set_revoked (<[slot := grant.(GrantRecord.token_digest)]> route.(RouteRecord.revoked))
          (RouteRecord_set_grants (delete slot route.(RouteRecord.grants)) route))) →
  relay_step regrant s s' →
  (∃ route, s.(RegistryState.routes) !! id = Some route ∧ P route) → ∃ route, s'.(RegistryState.routes) !! id = Some route ∧ P route.
Proof.
  intros Hpres Hgrant Hrevoke Hs (route & Hl & HP).
  assert (∀ id' old new, s.(RegistryState.routes) !! id' = Some old → (id' = id → P old → P new) →
            ∃ r, <[id' := new]> s.(RegistryState.routes) !! id = Some r ∧ P r) as Hput.
  { intros id' old new Hold Hnew. destruct (decide (id' = id)) as [->|Hne]; [|exists route; by rewrite lookup_insert_ne].
    exists new. rewrite lookup_insert_eq. split; [done|]. apply Hnew; [done|]. congruence. }
  destruct Hs as [|id' hint endpoint url digest Hn _ _ _|id' r at_ Hr|id' r slot digest Hr _ _ Hre|id' r slot grant Hr Hg|id' r slot a Hr _ _|id' slot];
    rewrite ?remove_push_routes; simpl; eauto.
  - exists route. rewrite lookup_insert_ne by congruence. done.
  - eapply Hput; [done|]. intros -> ?. by apply Hgrant.
Qed.

Lemma slot_revoked_step regrant id slot_id s s' :
  ¬ regrant id slot_id → relay_step regrant s s' → slot_revoked id slot_id s → slot_revoked id slot_id s'.
Proof.
  intros Hno. apply route_fact_step.
  - by intros route at_ [Hg Hr].
  - intros route slot digest [Hg [x Hr]] Hor. assert (slot ≠ slot_id) as Hne by (intros ->; destruct Hor; [congruence|done]).
    simpl. rewrite lookup_insert_ne, lookup_delete_ne by done. eauto.
  - intros route slot grant [Hg Hr] Hs. assert (slot ≠ slot_id) as Hne by (intros ->; congruence).
    simpl. by rewrite lookup_delete_ne, lookup_insert_ne.
Qed.

Lemma route_is_step regrant registration digest s s' :
  relay_step regrant s s' → route_is registration digest s → route_is registration digest s'.
Proof. apply route_fact_step; try done. intros route at_ (H1 & H2 & H3 & H4 & _). split_and!; [done..|]. by intros presence [= <-]. Qed.

(** Only the registered host is ever present on a route. *)
Definition hosts_are_present (s : RegistryState) : Prop :=
  ∀ id route presence, s.(RegistryState.routes) !! id = Some route → route.(RouteRecord.presence) = Some presence →
    presence.(PresenceRecord.host_endpoint) = route.(RouteRecord.host_endpoint) ∧ presence.(PresenceRecord.relay_url) = route.(RouteRecord.relay_url).

Lemma hosts_are_present_step regrant s s' : relay_step regrant s s' → hosts_are_present s → hosts_are_present s'.
Proof.
  intros Hs Hp. destruct Hs as [|id hint endpoint url digest Hn _ _ _|id r at_ Hr|id r slot digest Hr _ _ Hre|id r slot grant Hr Hg|id r slot a Hr _ _|id slot];
    intros id' route presence; rewrite ?remove_push_routes; simpl; try apply Hp;
    (intros [[<- <-]|[_ Hl]]%lookup_insert_Some; [|by eapply Hp]); simpl; try done.
  - by intros [= <-].
  - by eapply Hp.
  - by eapply Hp.
Qed.

Lemma forget_lookup s id :
  (forget_presence s).(RegistryState.routes) !! id = RouteRecord_set_presence None <$> s.(RegistryState.routes) !! id.
Proof. simpl. apply lookup_fmap. Qed.

Lemma forget_idemp s : forget_presence (forget_presence s) = forget_presence s.
Proof.
  unfold forget_presence, RegistryState_set_routes. simpl. f_equal. rewrite <-map_fmap_compose. apply map_fmap_ext. done.
Qed.

Lemma forget_default : forget_presence RegistryState_default = RegistryState_default.
Proof. unfold forget_presence, RegistryState_set_routes, RegistryState_default. simpl. by rewrite fmap_empty. Qed.

Lemma slot_revoked_forget id slot_id s : slot_revoked id slot_id s → slot_revoked id slot_id (forget_presence s).
Proof. intros (route & Hl & Hs). eexists. rewrite forget_lookup, Hl. split; [done|]. done. Qed.

Lemma route_is_forget registration digest s : route_is registration digest s → route_is registration digest (forget_presence s).
Proof. intros (route & Hl & H1 & H2 & H3 & H4 & _). eexists. rewrite forget_lookup, Hl. split; [done|]. by split_and!. Qed.

Lemma hosts_are_present_forget s : hosts_are_present s → hosts_are_present (forget_presence s).
Proof. intros Hp id route presence. rewrite forget_lookup. by intros (r & Hl & ->)%fmap_Some. Qed.

Lemma relay_ok_forget s : relay_ok s → relay_ok (forget_presence s).
Proof.
  intros [Hs Hr Hp Hd]. split.
  - simpl. by rewrite map_size_fmap.
  - intros id route. rewrite forget_lookup. intros (r & Hl & ->)%fmap_Some. apply Hr, validate_route_ok in Hl as []. apply validate_route_ok. by split.
  - intros id pushes Hl. destruct (Hp id pushes Hl) as (route & Hroute & Hall). eexists. rewrite forget_lookup, Hroute. split; [done|].
    intros slot a Ha. destruct (Hall slot a Ha). by split.
  - intros id route slot. rewrite forget_lookup. intros (r & Hl & ->)%fmap_Some. simpl. by eapply Hd.
Qed.

Lemma relay_ok_default : relay_ok RegistryState_default.
Proof. split; simpl; [rewrite map_size_empty; unfold MAX_ROUTES; lia|intros *; by rewrite lookup_empty..]. Qed.

(** ** The file *)

Section nodes.
Context `{B64 : Base64, Codec : JsonCodec RegistryState, !JsonCodecOk RegistryState}.
Variable sha256 : list ascii → list ascii.
Variable path : string.
Hypothesis path_is_no_temporary : ends_with ".tmp" path = false.

(** What opening the file gives. *)
Definition relay_file (f : gmap string (list ascii)) (s : RegistryState) : Prop :=
  match f !! path with
  | None => s = RegistryState_default
  | Some bytes => ∃ s' ignored, from_json bytes = Some (s', ignored) ∧ s = forget_presence s'
  end.

Lemma relay_file_written bytes s f :
  to_json (forget_presence s) = Some bytes → f !! path = Some bytes → relay_file f (forget_presence s).
Proof. intros Hj%from_json_to Hf. unfold relay_file. rewrite Hf. eexists _, false. split; [done|]. by rewrite forget_idemp. Qed.

Lemma vt_owner P (E : _ → Prop) : (∀ f, P f → E f) → vault_triple P ensure_owner_only (λ _, P) E.
Proof.
  intros He. unfold ensure_owner_only. eapply vt_bind; [apply vt_fault|]. intros [[|n]|]; [by apply vt_fail..|by apply vt_ret].
Qed.

Lemma write_state_spec old s bytes :
  to_json (forget_presence s) = Some bytes →
  vault_triple (λ f, f !! path = old) (write_state path s) (λ _ f, f !! path = Some bytes) (old_or_new path old bytes).
Proof.
  intros Hj. assert (∀ f : gmap string (list ascii), f !! path = old → old_or_new path old bytes f) as Hold by (intros f Hf; by left).
  unfold write_state, prepare_private_parent.
  eapply vt_bind; [eapply vt_bind; [by apply vt_attempt|]; intros ?; by apply vt_owner|]. intros ?. rewrite Hj.
  eapply vt_bind; [apply vt_draw|]. intros random.
  assert (temporary_file ".relay-registry-" random ≠ path) as Hne by by apply temporary_file_is_not.
  eapply vt_bind with (Q := λ _ f, f !! path = old).
  { unfold secure_private_file. eapply vt_bind; [apply vt_exists|]. intros []; [apply vt_fail; intros f [_ Hf]; by apply Hold|].
    eapply vt_bind; [apply vt_attempt; intros f [_ Hf]; by apply Hold|]. intros ?. apply vt_put. intros f [_ Hf]. by rewrite lookup_insert_ne. }
  intros ?. eapply vt_bind; [by apply vt_attempt|]. intros ?. eapply vt_bind; [by apply vt_owner|]. intros ?.
  apply removing_on_error_spec; [done|]. by apply write_and_replace_spec.
Qed.

(** A state that does not serialise is not written. *)
Lemma write_state_unserialised old s :
  to_json (forget_presence s) = None →
  vault_triple (λ f, f !! path = old) (write_state path s) (λ _ _, False) (λ f, f !! path = old).
Proof.
  intros Hj. unfold write_state, prepare_private_parent.
  eapply vt_bind; [eapply vt_bind; [by apply vt_attempt|]; intros ?; by apply vt_owner|]. intros ?. rewrite Hj. by apply vt_fail.
Qed.

Lemma write_state_file s0 s d :
  relay_file d.(PrivateDirectory.files) s0 →
  match write_state path s d with
  | (d', Ok _) => relay_file d'.(PrivateDirectory.files) (forget_presence s) ∧ is_Some (d'.(PrivateDirectory.files) !! path)
  | (d', Err _) =>
      (relay_file d'.(PrivateDirectory.files) s0 ∨ relay_file d'.(PrivateDirectory.files) (forget_presence s)) ∧
      (is_Some (d.(PrivateDirectory.files) !! path) → is_Some (d'.(PrivateDirectory.files) !! path))
  end.
Proof.
  intros Hs0. destruct (to_json (forget_presence s)) as [bytes|] eqn:Hj.
  - pose proof (write_state_spec (d.(PrivateDirectory.files) !! path) s bytes Hj d eq_refl) as Hw.
    destruct (write_state path s d) as [d' [u|e]]; [split; [by eapply relay_file_written|by rewrite Hw]|].
    destruct Hw as [Hw|Hw]; rewrite Hw; (split; [|done]); [left|right; by eapply relay_file_written]. unfold relay_file in *. by rewrite Hw.
  - pose proof (write_state_unserialised (d.(PrivateDirectory.files) !! path) s Hj d eq_refl) as Hw.
    destruct (write_state path s d) as [d' [u|e]]; [done|]. rewrite Hw. split; [|done]. left. unfold relay_file in *. by rewrite Hw.
Qed.

(** ** Nodes *)

Inductive RelayNode : Type :=
| RelayUp (r : Registry) (d : PrivateDirectory)
| RelayDown (d : PrivateDirectory).

Inductive RelayEvent : Type :=
| RelayOp (call : RelayCall)
| RelayRestart.

Definition node_directory (n : RelayNode) : PrivateDirectory :=
  match n with
  | RelayUp _ d | RelayDown d => d
  end.

Definition restart_relay (n : RelayNode) : RelayNode :=
  match Registry_open (Some path) (node_directory n) with
  | (d, Ok r) => RelayUp r d
  | (d, Err _) => RelayDown d
  end.

Definition apply_event (n : RelayNode) (event : RelayEvent) : RelayNode :=
  match event, n with
  | RelayRestart, _ => restart_relay n
  | RelayOp call, RelayUp r d => let '(r, d, _) := call_relay sha256 call r d in RelayUp r d
  | RelayOp _, RelayDown _ => n
  end.

Definition run_relay (n : RelayNode) (events : list RelayEvent) : RelayNode := foldl apply_event n events.

(** [Q] holds in memory and of what the file gives. *)
Definition relay_node_ok (Q : RegistryState → Prop) (n : RelayNode) : Prop :=
  match n with
  | RelayUp r d => r.(Registry.path) = Some path ∧ Q r.(Registry.state) ∧ is_Some (d.(PrivateDirectory.files) !! path)
  | RelayDown _ => True
  end ∧ ∃ s, relay_file (node_directory n).(PrivateDirectory.files) s ∧ relay_ok s ∧ Q s.

Lemma read_state_spec s f0 :
  is_Some (f0 !! path) → relay_file f0 s →
  vault_triple (λ f, f = f0) (read_state path) (λ s' f, s' = s ∧ f = f0) (λ f, f = f0).
Proof.
  intros [bytes Hb] Hf. unfold relay_file in Hf. rewrite Hb in Hf. destruct Hf as (s' & i & Hj & ->). unfold read_state.
  eapply vt_bind; [by apply vt_owner|]. intros ?. do 2 (eapply vt_bind; [by apply vt_attempt|]; intros ?).
  eapply vt_bind; [apply vt_files|]. intros files. destruct (files !! path) as [b|] eqn:Hl; [|by apply vt_fail; intros f [_ ->]].
  destruct (from_json b) as [[s2 i2]|] eqn:Hj2; [|by apply vt_fail; intros f [_ ->]]. apply vt_ret. intros f [-> ->]. split; [|done]. congruence.
Qed.

(** Opening gives what the file holds, and leaves it as it is. *)
Lemma open_relay s d :
  relay_file d.(PrivateDirectory.files) s → relay_ok s →
  match Registry_open (Some path) d with
  | (d', Ok r) => r = Registry.mk s (Some path) ∧ relay_file d'.(PrivateDirectory.files) s ∧ is_Some (d'.(PrivateDirectory.files) !! path)
  | (d', Err _) => relay_file d'.(PrivateDirectory.files) s
  end.
Proof.
  intros Hf Hok. unfold Registry_open, mbind, vault_bind. unfold vault_exists at 1, vault_files at 1, mbind at 1, vault_bind at 1. simpl.
  destruct (d.(PrivateDirectory.files) !! path) as [bytes|] eqn:Hl; simpl.
  - pose proof (read_state_spec s d.(PrivateDirectory.files) ltac:(by rewrite Hl) Hf d eq_refl) as Hr.
    destruct (read_state path d) as [d' [s'|e]]; [|by rewrite Hr]. destruct Hr as [-> Hd']. rewrite (relay_ok_validates s Hok).
    simpl. rewrite Hd', Hl. done.
  - assert (s = RegistryState_default) as -> by (unfold relay_file in Hf; by rewrite Hl in Hf).
    assert (vault_triple (λ f, f = d.(PrivateDirectory.files)) prepare_private_parent (λ _ f, f = d.(PrivateDirectory.files)) (λ f, f = d.(PrivateDirectory.files))) as Hp.
    { unfold prepare_private_parent. eapply vt_bind; [by apply vt_attempt|]. intros ?. by apply vt_owner. }
    specialize (Hp d eq_refl). unfold mbind, vault_bind. destruct (prepare_private_parent d) as [d1 [u|e]]; [|by rewrite Hp].
    rewrite <-Hp in Hf. pose proof (write_state_file RegistryState_default RegistryState_default d1 Hf) as Hw. rewrite forget_default in Hw.
    destruct (write_state path RegistryState_default d1) as [d2 [u2|e]]; [|by destruct Hw as [[?|?] _]].
    simpl. by rewrite (relay_ok_validates _ Hok).
Qed.

(** Opening fails only when a call of the system does. *)
Lemma open_present s d :
  is_Some (d.(PrivateDirectory.files) !! path) → relay_file d.(PrivateDirectory.files) s → relay_ok s → d.(PrivateDirectory.faults) = [] →
  (Registry_open (Some path) d).2 = Ok (Registry.mk s (Some path)).
Proof.
  intros [bytes Hb] Hf Hok Hd. unfold relay_file in Hf. rewrite Hb in Hf. destruct Hf as (s' & i & Hj & ->).
  destruct d as [files faults entropy drawn]; simpl in *; subst faults.
  unfold Registry_open, read_state, ensure_owner_only, vault_attempt, vault_exists, vault_files, vault_fault, mbind, vault_bind. simpl. rewrite Hb. simpl.
  rewrite Hb. simpl. rewrite Hj. simpl. by rewrite (relay_ok_validates _ Hok).
Qed.

(** ** Runs *)

(** [Q] is a fact that the steps of one event and forgetting presence keep. *)
Definition event_keeps (Q : RegistryState → Prop) (event : RelayEvent) : Prop :=
  match event with
  | RelayOp call => call_sane sha256 call ∧ ∀ s s', relay_step (regrants call) s s' → Q s → Q s'
  | RelayRestart => True
  end.

Lemma commit_ok (Q : RegistryState → Prop) call r d r' d' res :
  (∀ s, Q s → Q (forget_presence s)) → event_keeps Q (RelayOp call) →
  relay_node_ok (λ s, relay_ok s ∧ Q s) (RelayUp r d) → call_relay sha256 call r d = (r', d', res) →
  relay_node_ok (λ s, relay_ok s ∧ Q s) (RelayUp r' d') ∧
  (res = Ok tt → relay_change sha256 call r.(Registry.state) = Ok r'.(Registry.state) ∧
                 relay_file d'.(PrivateDirectory.files) (forget_presence r'.(Registry.state))).
Proof.
  intros Hforget [Hsane Hstep] [(Hpath & [Hm HQ] & Hfile) (s & Hs & Hso & [_ HQs])]. rewrite call_relay_commits. unfold registry_commit.
  destruct (relay_change sha256 call r.(Registry.state)) as [next|e] eqn:Hc; [|intros [= <- <- <-]; split; [split; [done|by exists s]|done]].
  apply relay_change_step in Hc as Hst; [|done]. pose proof (relay_ok_step _ _ _ Hm Hst) as Hno. pose proof (Hstep _ _ Hst HQ) as HnQ.
  rewrite Hpath. pose proof (write_state_file s next d Hs) as Hw. destruct (write_state path next d) as [d1 [u|e]]; intros [= <- <- <-].
  - destruct Hw as [Hw Hp]. split; [|done]. split; [done|]. exists (forget_presence next). split_and!; first [done|by apply relay_ok_forget|by apply Hforget].
  - destruct Hw as [Hw Hp]. split; [|done]. split; [split_and!; [done..|by apply Hp]|].
    destruct Hw as [Hw|Hw]; [by exists s|]. exists (forget_presence next). split_and!; first [done|by apply relay_ok_forget|by apply Hforget].
Qed.

Lemma apply_event_ok (Q : RegistryState → Prop) n event :
  (∀ s, Q s → Q (forget_presence s)) → event_keeps Q event →
  relay_node_ok (λ s, relay_ok s ∧ Q s) n → relay_node_ok (λ s, relay_ok s ∧ Q s) (apply_event n event).
Proof.
  intros Hforget Hkeeps Hn. destruct event as [call|]; simpl.
  - destruct n as [r d|d]; [|done]. destruct (call_relay sha256 call r d) as [[r' d'] res] eqn:E.
    by destruct (commit_ok Q _ _ _ _ _ _ Hforget Hkeeps Hn E).
  - unfold restart_relay. destruct Hn as [_ (s & Hs & Hok & [_ HQ])]. pose proof (open_relay s _ Hs Hok) as Ho.
    destruct (Registry_open (Some path) (node_directory n)) as [d' [r|e]].
    + destruct Ho as (-> & Hf & Hp). split; [done|]. by exists s.
    + split; [done|]. by exists s.
Qed.

Lemma run_relay_ok (Q : RegistryState → Prop) n events :
  (∀ s, Q s → Q (forget_presence s)) → (∀ event, event ∈ events → event_keeps Q event) →
  relay_node_ok (λ s, relay_ok s ∧ Q s) n → relay_node_ok (λ s, relay_ok s ∧ Q s) (run_relay n events).
Proof.
  intros Hforget. revert n. induction events as [|event events IH]; intros n Hkeeps Hn; [done|]. simpl. apply IH.
  - intros e He. apply Hkeeps. by right.
  - apply apply_event_ok; [done| |done]. apply Hkeeps. by left.
Qed.
Lemma empty_node d : d.(PrivateDirectory.files) !! path = None → relay_node_ok (λ s, relay_ok s ∧ hosts_are_present s) (RelayDown d).
Proof.
  intros Hd. split; [done|]. exists RegistryState_default. unfold relay_file. simpl. rewrite Hd. split_and!; [done|apply relay_ok_default..|]. intros id route presence. simpl. by rewrite lookup_empty.
Qed.

Definition all_sane (events : list RelayEvent) : Prop := ∀ call, RelayOp call ∈ events → call_sane sha256 call.

Lemma hosts_are_kept events event : all_sane events → event ∈ events → event_keeps hosts_are_present event.
Proof. intros Hs Hin. destruct event; simpl; [|done]. split; [by apply Hs|]. intros s s'. apply hosts_are_present_step. Qed.

(** A node on a directory that was empty. *)
Lemma run_node_ok d events :
  d.(PrivateDirectory.files) !! path = None → all_sane events →
  relay_node_ok (λ s, relay_ok s ∧ hosts_are_present s) (run_relay (RelayDown d) events).
Proof. intros Hd Hs. apply run_relay_ok; [apply hosts_are_present_forget|intros event; by apply hosts_are_kept|by apply empty_node]. Qed.

(** What a call that was committed made of the state holds of the node. *)
Lemma committed_fact (P Q : RegistryState → Prop) call r d r' d' :
  call_sane sha256 call → relay_node_ok (λ s, relay_ok s ∧ P s) (RelayUp r d) → call_relay sha256 call r d = (r', d', Ok tt) →
  (∀ s', relay_change sha256 call r.(Registry.state) = Ok s' → Q s') → (∀ s, Q s → Q (forget_presence s)) →
  relay_node_ok (λ s, relay_ok s ∧ Q s) (RelayUp r' d') ∧ relay_file d'.(PrivateDirectory.files) (forget_presence r'.(Registry.state)).
Proof.
  intros Hs [(Hpath & [Hok HP] & Hf) (s & Hsf & Hso & _)] Hc HQ Hforget.
  destruct (commit_ok (λ _, True) call r d r' d' (Ok tt)) as [[(Hp & [Hok' _] & Hf') _] Hfile]; [done..| |done|].
  { split; [done|]. by exists s. }
  destruct (Hfile eq_refl) as [Hch Hfl]. apply HQ in Hch. split; [|done]. split; [done|]. exists (forget_presence r'.(Registry.state)).
  split_and!; first [done|by apply relay_ok_forget|by apply Hforget].
Qed.

Definition without_faults (d : PrivateDirectory) : PrivateDirectory := PrivateDirectory_set_faults [] d.

(** C22: After any calls, failed writes and restarts of a relay that started without a file, its
    registry is valid and the file can be opened; and after a call that succeeded, opening gives
    exactly the registry in memory, without the presences. *)
Theorem relay_registry_reopens d0 events r d
    (Hempty : d0.(PrivateDirectory.files) !! path = None) (Hsane : all_sane events)
    (Hup : run_relay (RelayDown d0) events = RelayUp r d) :
  registry_validate_state r.(Registry.state) = Ok tt ∧
  (∃ s, (Registry_open (Some path) (without_faults d)).2 = Ok (Registry.mk s (Some path))) ∧
  ∀ call r' d', call_sane sha256 call → call_relay sha256 call r d = (r', d', Ok tt) →
    (Registry_open (Some path) (without_faults d')).2 = Ok (Registry.mk (forget_presence r'.(Registry.state)) (Some path)).
Proof.
  pose proof (run_node_ok d0 events Hempty Hsane) as Hn. rewrite Hup in Hn. split_and!.
  - apply relay_ok_validates, Hn.
  - destruct Hn as [(Hp & _ & Hf) (s & Hs & Hok & _)]. exists s. by apply open_present.
  - intros call r' d' Hc Hcall. destruct (committed_fact _ (λ _, True) call r d r' d' Hc Hn Hcall) as [[(Hp & [Hok _] & Hf) _] Hfl]; [done..|].
    apply open_present; try done. by apply relay_ok_forget.
Qed.

(** ** Revocation *)

Lemma revoke_change route_id admin_token slot_id s s' :
  revoke_device_in sha256 route_id admin_token slot_id s = Ok s' → slot_revoked route_id slot_id s'.
Proof.
  unfold revoke_device_in, route_of, require_admin. intros Hr. checks_ok. destruct (_ !! slot_id) as [grant|] eqn:Hg; [|done]. checks_ok.
  eexists. rewrite remove_push_routes. simpl. rewrite lookup_insert_eq. split; [done|]. simpl. rewrite lookup_delete_eq, lookup_insert_eq. eauto.
Qed.

Lemma find_bearer_sound digest routes was_revoked identity :
  find_bearer digest was_revoked routes = Ok identity →
  ∃ route, (identity.(BearerIdentity.route_id), route) ∈ routes ∧
    match identity.(BearerIdentity.slot_id) with
    | None => route.(RouteRecord.admin_digest) = digest ∧ identity.(BearerIdentity.expected_host_endpoint) = Some route.(RouteRecord.host_endpoint)
    | Some slot_id => ∃ grant, route.(RouteRecord.grants) !! slot_id = Some grant ∧ grant.(GrantRecord.token_digest) = digest
    end.
Proof.
  revert was_revoked. induction routes as [|[id route] routes IH]; intros was; simpl; [done|]. unfold digest_matches at 1.
  case_bool_decide as Ha; [intros [= <-]; exists route; split; [left|done]|].
  unfold matching_slot. destruct (find_first _ _) as [[slot grant]|] eqn:Hf; simpl.
  - intros [= <-]. exists route. split; [left|]. apply find_first_some in Hf as [Hin%elem_of_btree_entries Hd%bool_decide_eq_true]. by exists grant.
  - intros (r & Hin & Hr)%IH. exists r. split; [by right|done].
Qed.

Lemma revoked_slot_is_refused route_id slot_id s :
  slot_revoked route_id slot_id s →
  (∀ token at_ms, resolve sha256 route_id slot_id token at_ms s = Err (rejected RemoteErrorCode.RouteUnavailable)) ∧
  (∀ token, authorize_device sha256 route_id slot_id token s = Err (rejected RemoteErrorCode.Revoked)) ∧
  (∀ token, is_ok (push_address sha256 route_id slot_id token s) = false) ∧
  (∀ token address, is_ok (register_push_in sha256 route_id slot_id token address s) = false) ∧
  (∀ bearer identity, authenticate_bearer sha256 bearer s = Ok identity →
     identity.(BearerIdentity.route_id) = route_id → identity.(BearerIdentity.slot_id) ≠ Some slot_id).
Proof.
  intros (route & Hl & Hg & [digest Hr]). unfold resolve, authorize_device, push_address, register_push_in, granted, route_of. split_and!.
  - intros token at_ms. rewrite Hl. simpl. by rewrite Hr.
  - intros token. rewrite Hl. simpl. by rewrite Hr.
  - intros token. rewrite Hl. simpl. by rewrite Hg, orb_true_r.
  - intros token address. rewrite Hl. simpl. by rewrite Hg.
  - intros bearer identity. unfold authenticate_bearer. destruct (from_opaque KAccessToken bearer) as [token|]; [|done]. simpl.
    intros (route' & Hin%elem_of_btree_entries & Hslot)%find_bearer_sound <- Hs. simpl in Hin. rewrite Hs in Hslot. destruct Hslot as (grant & Hgr & _). congruence.
Qed.

(** A slot whose revocation was committed stays revoked for every query of the registry, over later calls,
    failed writes and restarts, unless the very slot is drawn again for a new device. *)
Theorem revoked_slots_stay_revoked d0 events r d route_id admin_token slot_id r' d' later r2 d2
    (Hempty : d0.(PrivateDirectory.files) !! path = None) (Hsane : all_sane (events ++ later))
    (Hup : run_relay (RelayDown d0) events = RelayUp r d)
    (Hrevoked : revoke_device sha256 route_id admin_token slot_id r d = (r', d', Ok tt))
    (Hnot_drawn : ∀ token access_token, RelayOp (GrantDevice route_id token slot_id access_token) ∉ later)
    (Hlater : run_relay (RelayUp r' d') later = RelayUp r2 d2) :
  let s := r2.(Registry.state) in
  (∀ token at_ms, resolve sha256 route_id slot_id token at_ms s = Err (rejected RemoteErrorCode.RouteUnavailable)) ∧
  (∀ token, authorize_device sha256 route_id slot_id token s = Err (rejected RemoteErrorCode.Revoked)) ∧
  (∀ token, is_ok (push_address sha256 route_id slot_id token s) = false) ∧
  (∀ token address, is_ok (register_push_in sha256 route_id slot_id token address s) = false) ∧
  (∀ bearer identity, authenticate_bearer sha256 bearer s = Ok identity →
     identity.(BearerIdentity.route_id) = route_id → identity.(BearerIdentity.slot_id) ≠ Some slot_id).
Proof.
  apply revoked_slot_is_refused. assert (all_sane events) as Hbefore by (intros call Hin; apply Hsane, elem_of_app; by left).
  pose proof (run_node_ok d0 events Hempty Hbefore) as Hn. rewrite Hup in Hn.
  destruct (committed_fact hosts_are_present (slot_revoked route_id slot_id) (RevokeDevice route_id admin_token slot_id) r d r' d') as [Hn' _]; [done..| |apply slot_revoked_forget|].
  { intros s'. apply revoke_change. }
  apply (run_relay_ok _ _ later) in Hn'; [rewrite Hlater in Hn'; apply Hn'|apply slot_revoked_forget|].
  intros [call|] Hin; [|done]. split; [apply Hsane, elem_of_app; by right|]. intros s s'. apply slot_revoked_step.
  destruct call; simpl; try tauto. intros [-> ->]. by eapply Hnot_drawn.
Qed.

(** ** Routes *)

Lemma register_route_change registration s s' :
  hosts_are_present s → register_route_in sha256 registration s = Ok s' →
  route_is registration (admin_digest sha256 registration.(RouteRegistration.admin_token)) s'.
Proof.
  intros Hpres. unfold register_route_in. destruct (_ !! _) as [route|] eqn:Hl; intros Hr; checks_ok.
  - unfold digest_matches in *. simpl_ok. destruct_and!. exists route. split_and!; try done. intros presence Hp.
    destruct (Hpres _ _ _ Hl Hp) as [-> ->]. done.
  - eexists. simpl. rewrite lookup_insert_eq. split; [done|]. by split_and!.
Qed.

(** C29: Once a route was registered, whoever resolves it, at any later time and across restarts, is
    sent to the host and the relay it was registered for, before the announced expiry; and exactly
    the token it was registered with administers it. *)
Theorem routes_keep_their_host d0 events r d registration r' d' later r2 d2
    (Hempty : d0.(PrivateDirectory.files) !! path = None) (Hsane : all_sane (events ++ RelayOp (RegisterRoute registration) :: later))
    (Hup : run_relay (RelayDown d0) events = RelayUp r d)
    (Hregistered : register_route sha256 registration r d = (r', d', Ok tt))
    (Hlater : run_relay (RelayUp r' d') later = RelayUp r2 d2) :
  let s := r2.(Registry.state) in let route_id := registration.(RouteRegistration.route_id) in
  (∀ slot_id token at_ms response, resolve sha256 route_id slot_id token at_ms s = Ok response →
     response.(ResolveResponse.host_endpoint) = registration.(RouteRegistration.host_endpoint) ∧
     response.(ResolveResponse.relay_url) = registration.(RouteRegistration.relay_url) ∧ at_ms ≤ response.(ResolveResponse.expires_at_ms)) ∧
  (∀ token, authorize_admin sha256 route_id token s = Ok tt ↔
     sha256 (as_bytes token) = sha256 (as_bytes registration.(RouteRegistration.admin_token))).
Proof.
  assert (all_sane events) as Hbefore by (intros call Hin; apply Hsane, elem_of_app; by left).
  pose proof (run_node_ok d0 events Hempty Hbefore) as Hn. rewrite Hup in Hn.
  destruct (committed_fact hosts_are_present (route_is registration (admin_digest sha256 registration.(RouteRegistration.admin_token)))
              (RegisterRoute registration) r d r' d') as [Hn' _]; [|done..| |apply route_is_forget|].
  { apply Hsane. set_solver. }
  { intros s'. simpl. rewrite rbind_ok_unit. intros [_ Hc]. eapply register_route_change, Hc. apply Hn. }
  apply (run_relay_ok _ _ later) in Hn'; [|apply route_is_forget|].
  2: { intros [call|] Hin; [|done]. split; [apply Hsane; set_solver|]. intros s s'. apply route_is_step. }
  rewrite Hlater in Hn'. destruct Hn' as [(_ & [_ (route & Hl & _ & Hend & Hurl & Had & Hpres)] & _) _].
  intros s route_id. unfold resolve, authorize_admin, route_of, require_admin, digest_matches. subst s route_id. rewrite Hl. simpl. split.
  - intros slot_id token at_ms response. destruct (is_some _); [done|]. simpl. destruct (_ !! slot_id); [|done]. simpl. destruct (negb _); [done|]. simpl.
    destruct (route.(RouteRecord.presence)) as [presence|]; [|done]. destruct (Z.leb_spec at_ms presence.(PresenceRecord.expires_at_ms)); [|done].
    intros [= <-]. destruct (Hpres presence eq_refl) as [-> ->]. done.
  - intros token. rewrite reject_if_ok, negb_false_iff, bool_decide_eq_true, Had. done.
Qed.
End nodes.
