(* ===== verification/RelayAdmission.v ===== *)
(** * Relay: admission of connections

    Models [crates/kaleido-relay/src/admission.rs], the access control of
    [iroh_server.rs] and the [ControlAdmission] of [main.rs]: how many connections
    a route and a device may hold, which bearer tokens open one, the byte budget
    of a lease, and the connections a revocation has to close.

    A connection identifier is taken from a counter of sixty-four bits that wraps
    ([AtomicU64::fetch_add]). *)
From stdpp Require Import prelude strings gmap.
From Stdlib Require Import ZArith Lia Ascii.
From S2P Require Import Prelude ProtoBase ProtoContent TransportControl TransportBootstrap TransportLimits HostLimits TransportRemote RelayIds RelayRegistry RelayRegistryProofs RelayPromises.

Local Open Scope Z_scope.

(** ** Data *)

Module AdmissionLimits.
Record AdmissionLimits : Type := mk {
  global_connections : nat;
  route_connections : nat;
  device_connections : nat;
  preauth_connections : nat;
  bytes_per_second : Z;
  burst_bytes : Z;
  idle_timeout_ms : Z
}.
End AdmissionLimits.
Abbreviation AdmissionLimits := AdmissionLimits.AdmissionLimits.

#[export] Instance AdmissionLimits_eq_dec : EqDecision AdmissionLimits.
Proof. solve_decision. Defined.

Definition AdmissionLimits_default : AdmissionLimits := AdmissionLimits.mk 1024 8 2 4 1048576 262144 90000.

Module AdmissionPrincipal.
Record AdmissionPrincipal : Type := mk {
  route_id : RouteId;
  slot_id : option DeviceSlotId
}.
End AdmissionPrincipal.
Abbreviation AdmissionPrincipal := AdmissionPrincipal.AdmissionPrincipal.

#[export] Instance AdmissionPrincipal_eq_dec : EqDecision AdmissionPrincipal.
Proof. solve_decision. Defined.

Module AdmissionState.
Record AdmissionState : Type := mk {
  connections : gmap Z (option AdmissionPrincipal);
  next_id : Z
}.
End AdmissionState.
Abbreviation AdmissionState := AdmissionState.AdmissionState.

Definition AdmissionState_new : AdmissionState := AdmissionState.mk ∅ 1.

Module TokenBucket.
Record TokenBucket : Type := mk {
  tokens : Z;
  last_ms : Z
}.
End TokenBucket.
Abbreviation TokenBucket := TokenBucket.TokenBucket.

Definition TokenBucket_new (capacity : Z) : TokenBucket := TokenBucket.mk capacity 0.

Module ConnectionLease.
Record ConnectionLease : Type := mk {
  id : Z;
  principal : option AdmissionPrincipal;
  limits : AdmissionLimits;
  bucket : TokenBucket
}.
End ConnectionLease.
Abbreviation ConnectionLease := ConnectionLease.ConnectionLease.

Definition ConnectionLease_set_bucket (v : TokenBucket) (r : ConnectionLease) : ConnectionLease := {|
  ConnectionLease.id := r.(ConnectionLease.id);
  ConnectionLease.principal := r.(ConnectionLease.principal);
  ConnectionLease.limits := r.(ConnectionLease.limits);
  ConnectionLease.bucket := v
|}.

(** ** Admission *)

(** [values().filter(p).count()] *)
Definition count_connections (p : option AdmissionPrincipal → bool) (connections : gmap Z (option AdmissionPrincipal)) : nat :=
  length (filter_b p (map_to_list connections).*2).

Definition on_route (route_id : RouteId) (principal : option AdmissionPrincipal) : bool :=
  is_some_and principal (λ value, bool_decide (value.(AdmissionPrincipal.route_id) = route_id)).

Definition on_device (route_id : RouteId) (slot_id : DeviceSlotId) (principal : option AdmissionPrincipal) : bool :=
  is_some_and principal (λ value, bool_decide (value.(AdmissionPrincipal.route_id) = route_id)
                                  && bool_decide (value.(AdmissionPrincipal.slot_id) = Some slot_id)).

Definition check_admission (limits : AdmissionLimits) (principal : option AdmissionPrincipal) (a : AdmissionState) : result unit RemoteError :=
  let connections := a.(AdmissionState.connections) in
  reject_if (limits.(AdmissionLimits.global_connections) <=? size connections)%nat (rejected RemoteErrorCode.LimitExceeded) ;?
  reject_if (is_none principal && (limits.(AdmissionLimits.preauth_connections) <=? count_connections is_none connections)%nat)
    (rejected RemoteErrorCode.LimitExceeded) ;?
  if_some principal (λ principal,
    reject_if (limits.(AdmissionLimits.route_connections)
               <=? count_connections (on_route principal.(AdmissionPrincipal.route_id)) connections)%nat (rejected RemoteErrorCode.LimitExceeded) ;?
    if_some principal.(AdmissionPrincipal.slot_id) (λ slot_id,
      reject_if (limits.(AdmissionLimits.device_connections)
                 <=? count_connections (on_device principal.(AdmissionPrincipal.route_id) slot_id) connections)%nat
        (rejected RemoteErrorCode.LimitExceeded))).

Definition admit_inner (limits : AdmissionLimits) (principal : option AdmissionPrincipal) (a : AdmissionState) :
    AdmissionState * result ConnectionLease RemoteError :=
  match check_admission limits principal a with
  | Err e => (a, Err e)
  | Ok _ =>
      let id := a.(AdmissionState.next_id) in
      (AdmissionState.mk (<[id := principal]> a.(AdmissionState.connections)) ((id + 1) mod 2 ^ 64),
       Ok (ConnectionLease.mk id principal limits (TokenBucket_new limits.(AdmissionLimits.burst_bytes))))
  end.

Definition admit_principal (limits : AdmissionLimits) (principal : AdmissionPrincipal) := admit_inner limits (Some principal).
Definition admit_preauthenticated (limits : AdmissionLimits) := admit_inner limits None.

(** [Drop for ConnectionLease] *)
Definition lease_drop (lease : ConnectionLease) (a : AdmissionState) : AdmissionState :=
  AdmissionState.mk (delete lease.(ConnectionLease.id) a.(AdmissionState.connections)) a.(AdmissionState.next_id).

Definition bearer_code (failure : BearerFailure) : RemoteErrorCode :=
  match failure with
  | BearerFailure.Invalid => RemoteErrorCode.AuthenticationFailed
  | BearerFailure.Revoked => RemoteErrorCode.Revoked
  end.

Section bearer.
Context `{Base64}.
Variable sha256 : list ascii → list ascii.

Definition admit_bearer_for_endpoint (limits : AdmissionLimits) (registry : RegistryState) (bearer : string) (endpoint_id : option (list ascii))
    (a : AdmissionState) : AdmissionState * result ConnectionLease RemoteErrorCode :=
  match map_err bearer_code (authenticate_bearer sha256 bearer registry) with
  | Err code => (a, Err code)
  | Ok identity =>
      if is_some_and identity.(BearerIdentity.expected_host_endpoint) (λ expected, bool_decide (endpoint_id ≠ Some (as_bytes expected)))
      then (a, Err RemoteErrorCode.AuthenticationFailed)
      else
        let (a, admitted) := admit_principal limits (AdmissionPrincipal.mk identity.(BearerIdentity.route_id) identity.(BearerIdentity.slot_id)) a in
        (a, map_err RemoteError_code admitted)
  end.

Definition admit_bearer (limits : AdmissionLimits) (registry : RegistryState) (bearer : string) :=
  admit_bearer_for_endpoint limits registry bearer None.
End bearer.

(** *** The byte budget *)

Definition consume (bytes now_ms : Z) (lease : ConnectionLease) : ConnectionLease * result unit RemoteError :=
  let limits := lease.(ConnectionLease.limits) in
  let bucket := lease.(ConnectionLease.bucket) in
  if limits.(AdmissionLimits.burst_bytes) <? bytes then (lease, Err (rejected RemoteErrorCode.RateLimited))
  else if limits.(AdmissionLimits.idle_timeout_ms) <? saturating_sub_u64 now_ms bucket.(TokenBucket.last_ms)
  then (lease, Err (rejected RemoteErrorCode.Expired))
  else
    let elapsed := saturating_sub_u64 now_ms bucket.(TokenBucket.last_ms) in
    let refill := saturating_mul_u64 elapsed limits.(AdmissionLimits.bytes_per_second) / 1000 in
    let tokens := Z.min (saturating_add_u64 bucket.(TokenBucket.tokens) refill) limits.(AdmissionLimits.burst_bytes) in
    if tokens <? bytes then (ConnectionLease_set_bucket (TokenBucket.mk tokens now_ms) lease, Err (rejected RemoteErrorCode.RateLimited))
    else (ConnectionLease_set_bucket (TokenBucket.mk (tokens - bytes) now_ms) lease, Ok tt).

(** ** The access control of the relay server *)

Module ClientRequest.
Record ClientRequest : Type := mk {
  auth_token : option string;
  endpoint_id : list ascii;
  connection_id : Z
}.
End ClientRequest.
Abbreviation ClientRequest := ClientRequest.ClientRequest.

Module ActiveConnection.
Record ActiveConnection : Type := mk {
  endpoint_id : list ascii;
  lease : ConnectionLease
}.
End ActiveConnection.
Abbreviation ActiveConnection := ActiveConnection.ActiveConnection.

Module IrohAccessControl.
Record IrohAccessControl : Type := mk {
  admission : AdmissionState;
  leases : gmap Z ActiveConnection
}.
End IrohAccessControl.
Abbreviation IrohAccessControl := IrohAccessControl.IrohAccessControl.

Section access.
Context `{Base64}.
Variable sha256 : list ascii → list ascii.
Variable limits : AdmissionLimits.

(** [on_connect] up to the table of leases: the lease, when access is granted. *)
Definition connect_admit (registry : RegistryState) (request : ClientRequest) (c : IrohAccessControl) :
    IrohAccessControl * option ConnectionLease :=
  match request.(ClientRequest.auth_token) with
  | None => (c, None)
  | Some token =>
      let (a, admitted) := admit_bearer_for_endpoint sha256 limits registry token (Some request.(ClientRequest.endpoint_id))
                             c.(IrohAccessControl.admission) in
      (IrohAccessControl.mk a c.(IrohAccessControl.leases), match admitted with Ok lease => Some lease | Err _ => None end)
  end.

(** [leases.insert(..)]: a lease that is replaced is dropped. *)
Definition connect_record (request : ClientRequest) (lease : ConnectionLease) (c : IrohAccessControl) : IrohAccessControl :=
  let connection_id := request.(ClientRequest.connection_id) in
  IrohAccessControl.mk
    (match c.(IrohAccessControl.leases) !! connection_id with
     | Some replaced => lease_drop replaced.(ActiveConnection.lease) c.(IrohAccessControl.admission)
     | None => c.(IrohAccessControl.admission)
     end)
    (<[connection_id := ActiveConnection.mk request.(ClientRequest.endpoint_id) lease]> c.(IrohAccessControl.leases)).

Definition on_connect (registry : RegistryState) (request : ClientRequest) (c : IrohAccessControl) : IrohAccessControl * bool :=
  match connect_admit registry request c with
  | (c, None) => (c, false)
  | (c, Some lease) => (connect_record request lease c, true)
  end.

Definition on_disconnect (connection_id : Z) (c : IrohAccessControl) : IrohAccessControl :=
  match c.(IrohAccessControl.leases) !! connection_id with
  | None => c
  | Some active =>
      IrohAccessControl.mk (lease_drop active.(ActiveConnection.lease) c.(IrohAccessControl.admission))
        (delete connection_id c.(IrohAccessControl.leases))
  end.

Definition of_device (route_id : RouteId) (slot_id : DeviceSlotId) (active : ActiveConnection) : bool :=
  bool_decide (active.(ActiveConnection.lease).(ConnectionLease.principal) = Some (AdmissionPrincipal.mk route_id (Some slot_id))).

Definition endpoints_for_device (route_id : RouteId) (slot_id : DeviceSlotId) (c : IrohAccessControl) : list (list ascii) :=
  filter_map (λ active, if of_device route_id slot_id active then Some active.(ActiveConnection.endpoint_id) else None)
    (map_to_list c.(IrohAccessControl.leases)).*2.

(** [RelayRevoker::disconnect_device]: the server closes every connection of
    these endpoints, and each close is reported to [on_disconnect]. *)
Definition disconnect_device (route_id : RouteId) (slot_id : DeviceSlotId) (c : IrohAccessControl) : IrohAccessControl :=
  let endpoints := endpoints_for_device route_id slot_id c in
  foldr on_disconnect c
    (map_to_list (filter (λ '(_, active), active.(ActiveConnection.endpoint_id) ∈ endpoints) c.(IrohAccessControl.leases))).*1.
End access.

(** ** Control connections *)

Definition MAX_CONTROL_CONNECTIONS : Z := 1024.
Definition MAX_CONTROL_CONNECTIONS_PER_SOURCE : Z := 4.

Module ControlAdmissionState.
Record ControlAdmissionState : Type := mk {
  global : Z;
  sources : gmap IpAddr Z
}.
End ControlAdmissionState.
Abbreviation ControlAdmissionState := ControlAdmissionState.ControlAdmissionState.

Definition control_acquire (source : IpAddr) (s : ControlAdmissionState) : ControlAdmissionState * bool :=
  let source_count := default 0 (s.(ControlAdmissionState.sources) !! source) in
  if (MAX_CONTROL_CONNECTIONS <=? s.(ControlAdmissionState.global)) || (MAX_CONTROL_CONNECTIONS_PER_SOURCE <=? source_count) then (s, false)
  else (ControlAdmissionState.mk (saturating_add_u64 s.(ControlAdmissionState.global) 1)
          (<[source := saturating_add_u64 source_count 1]> s.(ControlAdmissionState.sources)), true).

Definition control_release (source : IpAddr) (s : ControlAdmissionState) : ControlAdmissionState :=
  ControlAdmissionState.mk (saturating_sub_u64 s.(ControlAdmissionState.global) 1)
    (match s.(ControlAdmissionState.sources) !! source with
     | None => s.(ControlAdmissionState.sources)
     | Some count =>
         let count := saturating_sub_u64 count 1 in
         if count =? 0 then delete source s.(ControlAdmissionState.sources) else <[source := count]> s.(ControlAdmissionState.sources)
     end).

(** ** Limits *)

Section counting.
Implicit Types (p : option AdmissionPrincipal → bool) (m : gmap Z (option AdmissionPrincipal)).

Lemma count_permutation p (l k : list (Z * option AdmissionPrincipal)) : l ≡ₚ k → length (filter_b p l.*2) = length (filter_b p k.*2).
Proof. intros Hp. by rewrite (filter_b_Permutation p l.*2 k.*2) by (by apply fmap_Permutation). Qed.

Lemma count_fresh p m id x :
  m !! id = None → count_connections p (<[id := x]> m) = ((if p x then 1 else 0) + count_connections p m)%nat.
Proof.
  intros Hn. unfold count_connections. rewrite (count_permutation p _ ((id, x) :: map_to_list m)) by (by apply map_to_list_insert).
  simpl. by destruct (p x).
Qed.

Lemma admission_count_delete p m id : (count_connections p (delete id m) ≤ count_connections p m)%nat.
Proof.
  destruct (m !! id) as [x|] eqn:E; [|by rewrite delete_id].
  rewrite <-(insert_delete_id m id x E) at 2. rewrite count_fresh by apply lookup_delete_eq. destruct (p x); lia.
Qed.

Lemma count_insert p m id x : (count_connections p (<[id := x]> m) ≤ (if p x then 1 else 0) + count_connections p m)%nat.
Proof. rewrite <-insert_delete_eq, count_fresh by apply lookup_delete_eq. pose proof (admission_count_delete p m id). lia. Qed.

Lemma size_insert_le m id x : (size (<[id := x]> m) ≤ S (size m))%nat.
Proof. rewrite map_size_insert. case_match; unfold Datatypes.id; lia. Qed.

Lemma size_delete_le m id : (size (delete id m) ≤ size m)%nat.
Proof. rewrite map_size_delete. case_match; unfold Datatypes.id; lia. Qed.
End counting.

Record within_limits (limits : AdmissionLimits) (m : gmap Z (option AdmissionPrincipal)) : Prop := {
  limit_global : (size m ≤ limits.(AdmissionLimits.global_connections))%nat;
  limit_preauth : (count_connections is_none m ≤ limits.(AdmissionLimits.preauth_connections))%nat;
  limit_route route_id : (count_connections (on_route route_id) m ≤ limits.(AdmissionLimits.route_connections))%nat;
  limit_device route_id slot_id : (count_connections (on_device route_id slot_id) m ≤ limits.(AdmissionLimits.device_connections))%nat
}.

Lemma within_limits_delete limits m id : within_limits limits m → within_limits limits (delete id m).
Proof.
  intros [Hg Hp Hr Hd]. split; intros.
  - etrans; [apply size_delete_le|done].
  - etrans; [apply admission_count_delete|done].
  - etrans; [apply admission_count_delete|apply Hr].
  - etrans; [apply admission_count_delete|apply Hd].
Qed.

Lemma check_admission_ok limits principal a :
  check_admission limits principal a = Ok tt →
  (size a.(AdmissionState.connections) < limits.(AdmissionLimits.global_connections))%nat ∧
  match principal with
  | None => (count_connections is_none a.(AdmissionState.connections) < limits.(AdmissionLimits.preauth_connections))%nat
  | Some principal =>
      (count_connections (on_route principal.(AdmissionPrincipal.route_id)) a.(AdmissionState.connections)
         < limits.(AdmissionLimits.route_connections))%nat ∧
      ∀ slot_id, principal.(AdmissionPrincipal.slot_id) = Some slot_id →
        (count_connections (on_device principal.(AdmissionPrincipal.route_id) slot_id) a.(AdmissionState.connections)
           < limits.(AdmissionLimits.device_connections))%nat
  end.
Proof.
  unfold check_admission. rewrite !rbind_ok_unit, !reject_if_ok, Nat.leb_gt. intros (Hg & Hp & Hr). split; [done|].
  destruct principal as [[route slot]|]; simpl in *; [|by apply Nat.leb_gt]. rewrite rbind_ok_unit, reject_if_ok, Nat.leb_gt in Hr.
  destruct Hr as [Hr Hd]. split; [done|]. intros slot_id ->. simpl in Hd. by rewrite reject_if_ok, Nat.leb_gt in Hd.
Qed.

Lemma within_limits_admit limits principal a id :
  within_limits limits a.(AdmissionState.connections) → check_admission limits principal a = Ok tt →
  within_limits limits (<[id := principal]> a.(AdmissionState.connections)).
Proof.
  intros [Hg Hp Hr Hd] [Hg' Hk]%check_admission_ok. split.
  - pose proof (size_insert_le a.(AdmissionState.connections) id principal). lia.
  - pose proof (count_insert is_none a.(AdmissionState.connections) id principal). destruct principal; simpl in *; lia.
  - intros route_id. pose proof (count_insert (on_route route_id) a.(AdmissionState.connections) id principal) as Hc. specialize (Hr route_id).
    destruct principal as [principal|]; simpl in *; [|lia]. case_bool_decide as E; [|lia]. subst route_id. lia.
  - intros route_id slot_id. pose proof (count_insert (on_device route_id slot_id) a.(AdmissionState.connections) id principal) as Hc.
    specialize (Hd route_id slot_id). destruct principal as [principal|]; simpl in *; [|lia].
    case_bool_decide as E; simpl in *; [|lia]. case_bool_decide as E2; [|lia]. subst route_id. destruct Hk as [_ Hk]. specialize (Hk slot_id E2). lia.
Qed.

Inductive AdmissionCall : Type :=
| AdmitCall (principal : option AdmissionPrincipal)
| DropCall (lease : ConnectionLease).

Definition apply_admission (limits : AdmissionLimits) (a : AdmissionState) (call : AdmissionCall) : AdmissionState :=
  match call with
  | AdmitCall principal => (admit_inner limits principal a).1
  | DropCall lease => lease_drop lease a
  end.

(** C33: After any admissions, granted or refused, and any drops of leases, the relay holds no more
    connections in all, before authentication, for a route and for a device than its limits allow.
    *)
Theorem relay_limits_hold limits calls :
  within_limits limits (foldl (apply_admission limits) AdmissionState_new calls).(AdmissionState.connections).
Proof.
  assert (∀ a, within_limits limits a.(AdmissionState.connections) →
            within_limits limits (foldl (apply_admission limits) a calls).(AdmissionState.connections)) as Hall.
  { induction calls as [|call calls IH]; intros a Ha; [done|]. simpl. apply IH. destruct call as [principal|lease]; simpl.
    - unfold admit_inner. destruct (check_admission limits principal a) as [[]|] eqn:E; [|done]. by apply within_limits_admit.
    - by apply within_limits_delete. }
  apply Hall. split; intros; unfold count_connections; simpl; rewrite ?map_size_empty, ?map_to_list_empty; simpl; lia.
Qed.

(** ** The byte budget *)

(** The bytes a lease lets through in a sequence of requests [(bytes, now_ms)]. *)
Fixpoint forwarded (lease : ConnectionLease) (requests : list (Z * Z)) : Z :=
  match requests with
  | [] => 0
  | (bytes, now_ms) :: requests =>
      let (lease, r) := consume bytes now_ms lease in
      (if is_ok r then bytes else 0) + forwarded lease requests
  end.

(** Times between [from] and [until] that do not decrease. *)
Fixpoint clock_runs (from until : Z) (requests : list (Z * Z)) : Prop :=
  match requests with
  | [] => from ≤ until
  | (_, now_ms) :: requests => from ≤ now_ms ∧ clock_runs now_ms until requests
  end.

Lemma clock_runs_le from until requests : clock_runs from until requests → from ≤ until.
Proof. revert from. induction requests as [|[b t] l IH]; intros from; simpl; [done|]. intros [H1 H2%IH]. lia. Qed.

(** What may still be forwarded by [until], in thousandths of a byte. *)
Definition allowance (lease : ConnectionLease) (until : Z) : Z :=
  1000 * lease.(ConnectionLease.bucket).(TokenBucket.tokens)
  + lease.(ConnectionLease.limits).(AdmissionLimits.bytes_per_second) * (until - lease.(ConnectionLease.bucket).(TokenBucket.last_ms)).

Definition lease_sane (lease : ConnectionLease) : Prop :=
  0 < lease.(ConnectionLease.limits).(AdmissionLimits.bytes_per_second) ∧ 0 < lease.(ConnectionLease.limits).(AdmissionLimits.burst_bytes) ∧
  0 ≤ lease.(ConnectionLease.bucket).(TokenBucket.tokens) ≤ lease.(ConnectionLease.limits).(AdmissionLimits.burst_bytes).

Lemma consume_within bytes now_ms lease until :
  lease_sane lease → 0 ≤ bytes → lease.(ConnectionLease.bucket).(TokenBucket.last_ms) ≤ now_ms → now_ms ≤ until →
  let (lease', r) := consume bytes now_ms lease in
  lease_sane lease' ∧ lease'.(ConnectionLease.limits) = lease.(ConnectionLease.limits) ∧
  lease'.(ConnectionLease.bucket).(TokenBucket.last_ms) ≤ now_ms ∧
  1000 * (if is_ok r then bytes else 0) + allowance lease' until ≤ allowance lease until.
Proof.
  intros (Hrate & Hburst & Ht) Hb Hl Hu. unfold consume, lease_sane, allowance in *. destruct lease as [id principal limits [tokens last]]. simpl in *.
  destruct (Z.ltb_spec limits.(AdmissionLimits.burst_bytes) bytes); [simpl; split_and!; first [done|lia]|]. destruct (_ <? saturating_sub_u64 now_ms last); [simpl; split_and!; first [done|lia]|].
  unfold saturating_sub_u64, saturating_mul_u64, saturating_add_u64. rewrite Z.max_r by lia.
  set (rate := limits.(AdmissionLimits.bytes_per_second)) in *. set (burst := limits.(AdmissionLimits.burst_bytes)) in *.
  set (refill := Z.min ((now_ms - last) * rate) u64_max / 1000).
  assert (0 ≤ refill ∧ 1000 * refill ≤ (now_ms - last) * rate) as [Hr0 Hr1].
  { subst refill. pose proof (Z.mul_div_le (Z.min ((now_ms - last) * rate) u64_max) 1000). split; [|lia]. apply Z.div_pos; [|lia]. unfold u64_max. nia. }
  assert (0 ≤ Z.min (Z.min (tokens + refill) u64_max) burst ≤ tokens + refill) as Hm by (unfold u64_max; lia).
  set (tokens' := Z.min (Z.min (tokens + refill) u64_max) burst) in *. assert (tokens' ≤ burst) by (subst tokens'; lia).
  destruct (Z.ltb_spec tokens' bytes); simpl; split_and!; try done; try lia; nia.
Qed.

Lemma forwarded_within requests : ∀ lease from until,
  lease_sane lease → Forall (λ request, 0 ≤ request.1) requests →
  lease.(ConnectionLease.bucket).(TokenBucket.last_ms) ≤ from → clock_runs from until requests →
  1000 * forwarded lease requests ≤ allowance lease until.
Proof.
  induction requests as [|[bytes now] requests IH]; intros lease from until Hs Hf Hl Hc; simpl in *.
  - unfold allowance. destruct Hs as (? & ? & ?). nia.
  - destruct Hc as [Hfrom Hc]. rewrite Forall_cons in Hf. destruct Hf as [Hb Hf]. simpl in Hb. pose proof (clock_runs_le _ _ _ Hc).
    pose proof (consume_within bytes now lease until Hs Hb ltac:(lia) ltac:(lia)) as Hw.
    destruct (consume bytes now lease) as [lease' r]. destruct Hw as (Hs' & _ & Hl' & Hw). specialize (IH lease' now until Hs' Hf Hl' Hc). lia.
Qed.

(** A request is refused without a trace, or takes its bytes from a bucket that is no fuller than a burst. *)
Lemma consume_capped bytes now_ms lease :
  (consume bytes now_ms lease).1 = lease ∧ is_ok (consume bytes now_ms lease).2 = false ∨
  (consume bytes now_ms lease).1.(ConnectionLease.bucket).(TokenBucket.last_ms) = now_ms ∧
  (if is_ok (consume bytes now_ms lease).2 then bytes else 0) + (consume bytes now_ms lease).1.(ConnectionLease.bucket).(TokenBucket.tokens)
    ≤ lease.(ConnectionLease.limits).(AdmissionLimits.burst_bytes).
Proof.
  unfold consume. destruct (_ <? bytes); [by left|]. destruct (_ <? saturating_sub_u64 _ _); [by left|]. right.
  set (tokens := Z.min _ _). assert (tokens ≤ lease.(ConnectionLease.limits).(AdmissionLimits.burst_bytes)) by (subst tokens; lia).
  destruct (Z.ltb_spec tokens bytes); simpl; split; [done|lia|done|lia].
Qed.

(** The bytes a lease lets through between two moments are at most its burst and what its rate allows for the
    time between them. *)
Theorem leases_are_rate_limited lease requests start until
    (Hlimits : lease_sane lease) (Hbytes : Forall (λ request, 0 ≤ request.1) requests)
    (Hbefore : lease.(ConnectionLease.bucket).(TokenBucket.last_ms) ≤ start) (Hclock : clock_runs start until requests) :
  let limits := lease.(ConnectionLease.limits) in
  1000 * forwarded lease requests ≤
    1000 * limits.(AdmissionLimits.burst_bytes) + limits.(AdmissionLimits.bytes_per_second) * (until - start).
Proof.
  revert start Hbefore Hclock. induction requests as [|[bytes now] requests IH]; intros start Hl Hc; simpl in *.
  - destruct Hlimits as (? & ? & _). nia.
  - destruct Hc as [Hfrom Hc]. apply Forall_cons in Hbytes as [Hb Hf]. simpl in Hb. pose proof (clock_runs_le _ _ _ Hc) as Hle.
    pose proof (consume_within bytes now lease until Hlimits Hb ltac:(lia) ltac:(lia)) as Hw. pose proof (consume_capped bytes now lease) as Hcap.
    destruct (consume bytes now lease) as [lease' r]. simpl in *. destruct Hw as (Hs' & Hlim & Hl' & _).
    destruct Hcap as [[-> Hr]|[Hlast Hcap]].
    + rewrite Hr. specialize (IH Hf now ltac:(lia) Hc). destruct Hlimits as (? & _). nia.
    + pose proof (forwarded_within requests lease' now until Hs' Hf Hl' Hc) as Hfw. unfold allowance in Hfw. rewrite Hlim, Hlast in Hfw.
      destruct Hlimits as (? & _). nia.
Qed.

(** A lease whose first bytes are accounted later than the idle limit after the epoch of the clock never
    forwards any: its bucket starts at instant zero, every request finds it expired, and a refused request
    does not move it. *)
Theorem fresh_leases_are_expired limits principal id requests
    (Hlate : Forall (λ request, limits.(AdmissionLimits.idle_timeout_ms) < request.2) requests) :
  forwarded (ConnectionLease.mk id principal limits (TokenBucket_new limits.(AdmissionLimits.burst_bytes))) requests = 0.
Proof.
  induction requests as [|[bytes now] requests IH]; [done|]. apply Forall_cons in Hlate as [Hnow Hlate]. cbn -[consume]. unfold consume. simpl in *.
  destruct (_ <? bytes); simpl; [by apply IH|]. unfold saturating_sub_u64.
  rewrite (proj2 (Z.ltb_lt limits.(AdmissionLimits.idle_timeout_ms) (Z.max 0 (now - 0)))) by lia. simpl. by apply IH.
Qed.

(** ** Who is admitted, and what a revocation closes *)

Section admitted.
Context `{B64 : Base64}.
Variable sha256 : list ascii → list ascii.
Variable limits : AdmissionLimits.

(** The token of a principal: the route's administration token from the route's own endpoint, or the token
    granted to the slot. *)
Definition holds_credential (registry : RegistryState) (token : AccessToken) (endpoint_id : list ascii) (principal : AdmissionPrincipal) : Prop :=
  ∃ route, registry.(RegistryState.routes) !! principal.(AdmissionPrincipal.route_id) = Some route ∧
    match principal.(AdmissionPrincipal.slot_id) with
    | None => route.(RouteRecord.admin_digest) = token_digest sha256 token ∧ endpoint_id = as_bytes route.(RouteRecord.host_endpoint)
    | Some slot_id => ∃ grant, route.(RouteRecord.grants) !! slot_id = Some grant ∧ grant.(GrantRecord.token_digest) = token_digest sha256 token
    end.

Lemma admitted_lease registry bearer endpoint_id a a' lease :
  admit_bearer_for_endpoint sha256 limits registry bearer (Some endpoint_id) a = (a', Ok lease) →
  ∃ principal token, lease.(ConnectionLease.principal) = Some principal ∧ from_opaque KAccessToken bearer = Some token ∧
    holds_credential registry token endpoint_id principal ∧ lease.(ConnectionLease.id) = a.(AdmissionState.next_id) ∧
    a'.(AdmissionState.connections) = <[a.(AdmissionState.next_id) := Some principal]> a.(AdmissionState.connections).
Proof.
  unfold admit_bearer_for_endpoint, authenticate_bearer. destruct (from_opaque KAccessToken bearer) as [token|] eqn:Ht; [|done]. simpl.
  destruct (find_bearer _ _ _) as [identity|] eqn:Hf; [|done]. simpl. apply find_bearer_sound in Hf as (route & Hl%elem_of_btree_entries & Hm).
  destruct (is_some_and _ _) eqn:He; [done|]. unfold admit_principal, admit_inner. destruct (check_admission _ _ _); [|done]. simpl. intros [= <- <-]. simpl.
  eexists _, token. split_and!; try done. exists route. simpl. split; [done|]. destruct (identity.(BearerIdentity.slot_id)); [done|].
  destruct Hm as [Ha Hx]. split; [done|]. rewrite Hx in He. simpl in He. apply bool_decide_eq_false, dec_stable in He. congruence.
Qed.

Lemma disconnect_lookup ids c connection_id :
  (foldr on_disconnect c ids).(IrohAccessControl.leases) !! connection_id =
  if bool_decide (connection_id ∈ ids) then None else c.(IrohAccessControl.leases) !! connection_id.
Proof.
  induction ids as [|id ids IH]; [done|]. cbn [foldr]. unfold on_disconnect at 1.
  destruct (decide (connection_id = id)) as [->|Hne].
  - rewrite (bool_decide_true (id ∈ id :: ids)) by left. destruct (_ !! id) as [active|] eqn:E; [|done]. cbn. apply lookup_delete_eq.
  - rewrite (bool_decide_ext (connection_id ∈ id :: ids) (connection_id ∈ ids)) by set_solver.
    destruct (_ !! id) as [active|] eqn:E; [|done]. cbn. by rewrite lookup_delete_ne.
Qed.

(** Once the endpoints of a device are disconnected, none of its recorded connections is left, and no
    connection of an endpoint that the device did not use was closed. *)
Theorem disconnect_closes_the_device route_id slot_id c connection_id active :
  (disconnect_device route_id slot_id c).(IrohAccessControl.leases) !! connection_id = Some active ↔
  c.(IrohAccessControl.leases) !! connection_id = Some active ∧
  ∀ other active', c.(IrohAccessControl.leases) !! other = Some active' → of_device route_id slot_id active' = true →
    active'.(ActiveConnection.endpoint_id) ≠ active.(ActiveConnection.endpoint_id).
Proof.
  unfold disconnect_device. rewrite disconnect_lookup. set (endpoints := endpoints_for_device _ _ _).
  assert (∀ e, e ∈ endpoints ↔ ∃ other active', c.(IrohAccessControl.leases) !! other = Some active' ∧ of_device route_id slot_id active' = true ∧
            active'.(ActiveConnection.endpoint_id) = e) as Hends.
  { intros e. unfold endpoints, endpoints_for_device. rewrite elem_of_filter_map. split.
    - intros (active' & ([other a2] & -> & Hin)%list_elem_of_fmap & He). apply elem_of_map_to_list in Hin. simpl in *. destruct (of_device _ _ a2) eqn:E; [|done].
      exists other, a2. by simplify_eq.
    - intros (other & active' & Hl & Hd & <-). exists active'. rewrite Hd. split; [|done]. apply list_elem_of_fmap. exists (other, active'). split; [done|].
      by apply elem_of_map_to_list. }
  assert (connection_id ∈ (map_to_list (filter (λ '(_, active), active.(ActiveConnection.endpoint_id) ∈ endpoints) c.(IrohAccessControl.leases))).*1 ↔
          ∃ active', c.(IrohAccessControl.leases) !! connection_id = Some active' ∧ active'.(ActiveConnection.endpoint_id) ∈ endpoints) as Hin.
  { rewrite list_elem_of_fmap. split.
    - intros ([id a2] & -> & [Hl He]%elem_of_map_to_list%map_lookup_filter_Some). by exists a2.
    - intros (a2 & Hl & He). exists (connection_id, a2). split; [done|]. apply elem_of_map_to_list, map_lookup_filter_Some. done. }
  case_bool_decide as Hd; rewrite Hin in Hd.
  - split; [done|]. intros [Hl Hno]. destruct Hd as (a2 & Hl2 & (other & active' & Ho & Hdev & He)%Hends). rewrite Hl in Hl2. injection Hl2 as <-.
    by destruct (Hno _ _ Ho Hdev).
  - split; [|by intros [? _]]. intros Hl. split; [done|]. intros other active' Ho Hdev He. apply Hd. exists active. split; [done|]. apply Hends. eauto.
Qed.
(** A connection that the relay accepts presented the token of its principal, from the endpoint of the route
    when it is the token of the route's host, and is recorded with that principal. *)
Theorem accepted_connections_hold_credentials registry request c c'
    (Haccepted : on_connect sha256 limits registry request c = (c', true)) :
  ∃ text token principal active,
    request.(ClientRequest.auth_token) = Some text ∧ from_opaque KAccessToken text = Some token ∧
    holds_credential registry token request.(ClientRequest.endpoint_id) principal ∧
    c'.(IrohAccessControl.leases) !! request.(ClientRequest.connection_id) = Some active ∧
    active.(ActiveConnection.endpoint_id) = request.(ClientRequest.endpoint_id) ∧
    active.(ActiveConnection.lease).(ConnectionLease.principal) = Some principal.
Proof.
  revert Haccepted. unfold on_connect, connect_admit. destruct (request.(ClientRequest.auth_token)) as [text|]; [|done].
  destruct (admit_bearer_for_endpoint _ _ _ _ _ _) as [a [lease|]] eqn:E; [|done]. intros [= <-].
  apply admitted_lease in E as (principal & token & Hp & Ht & Hc & _). eexists text, token, principal, _. unfold connect_record. simpl.
  rewrite lookup_insert_eq. by split_and!.
Qed.

(** A revocation that runs between the two halves of [on_connect], after the lease was granted and before it is
    in the table that [endpoints_for_device] reads, leaves the revoked device connected. *)
Theorem revocation_can_miss_a_connection registry request c c1 lease route_id slot_id admin_token registry'
    (Hadmitted : connect_admit sha256 limits registry request c = (c1, Some lease))
    (Hdevice : lease.(ConnectionLease.principal) = Some (AdmissionPrincipal.mk route_id (Some slot_id)))
    (Hrevoked : revoke_device_in sha256 route_id admin_token slot_id registry = Ok registry') :
  slot_revoked route_id slot_id registry' ∧
  ∃ active, (connect_record request lease (disconnect_device route_id slot_id c1)).(IrohAccessControl.leases)
              !! request.(ClientRequest.connection_id) = Some active ∧ of_device route_id slot_id active = true.
Proof.
  split; [by eapply revoke_change|]. eexists. unfold connect_record. simpl. rewrite lookup_insert_eq. split; [done|].
  unfold of_device. simpl. by rewrite Hdevice, bool_decide_true.
Qed.
End admitted.
