(* ===== verification/RelayControl.v ===== *)
(** * Relay: the control service

    Models [crates/kaleido-relay/src/control.rs] and [protocol.rs]: one connection's
    hello and request numbers, the acceptance of an operation by its clock and the
    cache of operations seen, and what each frame does to the registry.

    [now] is the clock when a frame is handled and [later] the clock when the
    registry reads it again.  The registry's file is in [directory]. *)
From stdpp Require Import prelude strings gmap.
From Stdlib Require Import ZArith Lia Ascii.
From S2P Require Import Prelude ProtoBase ProtoContent TransportControl TransportBootstrap PrivateFiles TransportRemote RelayIds RelayRegistry RelayRegistryProofs.

Local Open Scope Z_scope.

(** ** Operations seen *)

Module ReplayKey.
Record ReplayKey : Type := mk {
  credential_digest : list ascii;
  operation_id : OperationId
}.
End ReplayKey.
Abbreviation ReplayKey := ReplayKey.ReplayKey.

#[export] Instance ReplayKey_eq_dec : EqDecision ReplayKey.
Proof. solve_decision. Defined.

#[export] Instance ReplayKey_countable : Countable ReplayKey.
Proof.
  refine (inj_countable' (λ k, (k.(ReplayKey.credential_digest), k.(ReplayKey.operation_id))) (λ p, ReplayKey.mk p.1 p.2) _). by intros [].
Defined.

(** The entries that are kept, and the verdict on a key. *)
Definition check_and_record (capacity : nat) (ttl_ms : Z) (key : ReplayKey) (now_ms : Z) (entries : gmap ReplayKey Z) :
    gmap ReplayKey Z * result unit RemoteErrorCode :=
  let entries := filter (λ '(_, seen_at), saturating_sub_u64 now_ms seen_at ≤ ttl_ms) entries in
  if is_some (entries !! key) then (entries, Err RemoteErrorCode.Replay)
  else if (capacity <=? size entries)%nat then (entries, Err RemoteErrorCode.LimitExceeded)
  else (<[key := now_ms]> entries, Ok tt).

(** *** [protocol.rs] *)

Definition REQUEST_SKEW_MS : Z := 60000.
Definition REPLAY_TTL_MS : Z := 120000.
Definition REPLAY_CAPACITY : nat := 4096.

(** [RemoteHello::accept], of the version a peer sent. *)
Definition RemoteHello_accept (version : string) : result string RemoteError :=
  if bool_decide (version ≠ REMOTE_CONTROL_VERSION) then Err (rejected RemoteErrorCode.VersionMismatch) else Ok REMOTE_CONTROL_VERSION.

Module RemoteRequest.
Record RemoteRequest : Type := mk {
  version : string;
  request_id : Z;
  operation_id : OperationId;
  issued_at_ms : Z
}.
End RemoteRequest.
Abbreviation RemoteRequest := RemoteRequest.RemoteRequest.

#[export] Instance RemoteRequest_eq_dec : EqDecision RemoteRequest.
Proof. solve_decision. Defined.

Definition RemoteRequest_new (request_id : Z) (operation_id : OperationId) (now_ms : Z) : RemoteRequest :=
  RemoteRequest.mk REMOTE_CONTROL_VERSION request_id operation_id now_ms.

Module RequestTracker.
Record RequestTracker : Type := mk {
  next_request_id : Z;
  replay : gmap ReplayKey Z
}.
End RequestTracker.
Abbreviation RequestTracker := RequestTracker.RequestTracker.

Definition RequestTracker_new : RequestTracker := RequestTracker.mk 1 ∅.

Section tracker.
Variable sha256 : list ascii → list ascii.

Definition RequestTracker_accept (request : RemoteRequest) (credential : list ascii) (now_ms : Z) (t : RequestTracker) :
    RequestTracker * result unit RemoteError :=
  if bool_decide (request.(RemoteRequest.version) ≠ REMOTE_CONTROL_VERSION) then (t, Err (rejected RemoteErrorCode.VersionMismatch))
  else if negb (request.(RemoteRequest.request_id) =? t.(RequestTracker.next_request_id)) then (t, Err (rejected RemoteErrorCode.MalformedFrame))
  else if REQUEST_SKEW_MS <? Z.abs (request.(RemoteRequest.issued_at_ms) - now_ms) then (t, Err (rejected RemoteErrorCode.Expired))
  else
    match check_and_record REPLAY_CAPACITY REPLAY_TTL_MS (ReplayKey.mk (sha256 credential) request.(RemoteRequest.operation_id)) now_ms
            t.(RequestTracker.replay) with
    | (replay, Err code) => (RequestTracker.mk t.(RequestTracker.next_request_id) replay, Err (rejected code))
    | (replay, Ok _) =>
        match checked_add_u64 t.(RequestTracker.next_request_id) 1 with
        | None => (RequestTracker.mk t.(RequestTracker.next_request_id) replay, Err (rejected RemoteErrorCode.MalformedFrame))
        | Some next => (RequestTracker.mk next replay, Ok tt)
        end
    end.
End tracker.

(** ** The service *)

Module ControlConnection.
Record ControlConnection : Type := mk {
  hello_complete : bool;
  last_request_id : Z
}.
End ControlConnection.
Abbreviation ControlConnection := ControlConnection.ControlConnection.

#[export] Instance ControlConnection_eq_dec : EqDecision ControlConnection.
Proof. solve_decision. Defined.

Definition ControlConnection_default : ControlConnection := ControlConnection.mk false 0.

Module WakeDispatch.
Record WakeDispatch : Type := mk {
  route_id : RouteId;
  slot_id : DeviceSlotId;
  address : PushAddress;
  payload : PushPayload
}.
End WakeDispatch.
Abbreviation WakeDispatch := WakeDispatch.WakeDispatch.

#[export] Instance WakeDispatch_eq_dec : EqDecision WakeDispatch.
Proof. solve_decision. Defined.

Module RevokedDevice.
Record RevokedDevice : Type := mk {
  route_id : RouteId;
  slot_id : DeviceSlotId
}.
End RevokedDevice.
Abbreviation RevokedDevice := RevokedDevice.RevokedDevice.

#[export] Instance RevokedDevice_eq_dec : EqDecision RevokedDevice.
Proof. solve_decision. Defined.

Module ControlOutcome.
Record ControlOutcome : Type := mk {
  response : RemoteControlFrame;
  wake : option WakeDispatch;
  revoked_device : option RevokedDevice;
  close_connection : bool
}.
End ControlOutcome.
Abbreviation ControlOutcome := ControlOutcome.ControlOutcome.

#[export] Instance ControlOutcome_eq_dec : EqDecision ControlOutcome.
Proof. solve_decision. Defined.

Module ControlService.
Record ControlService : Type := mk {
  registry : Registry;
  replay : gmap ReplayKey Z;
  directory : PrivateDirectory
}.
End ControlService.
Abbreviation ControlService := ControlService.ControlService.

Definition ControlService_set_replay (v : gmap ReplayKey Z) (r : ControlService) : ControlService := {|
  ControlService.registry := r.(ControlService.registry);
  ControlService.replay := v;
  ControlService.directory := r.(ControlService.directory)
|}.

Definition registry_state (sv : ControlService) : RegistryState := sv.(ControlService.registry).(Registry.state).

Definition wire_code (code : RemoteErrorCode) : WireErrorCode :=
  match code with
  | RemoteErrorCode.VersionMismatch => WireErrorCode.VersionMismatch
  | RemoteErrorCode.MalformedFrame => WireErrorCode.MalformedFrame
  | RemoteErrorCode.AuthenticationFailed => WireErrorCode.AuthenticationFailed
  | RemoteErrorCode.RouteUnavailable => WireErrorCode.RouteUnavailable
  | RemoteErrorCode.Expired => WireErrorCode.Expired
  | RemoteErrorCode.Replay => WireErrorCode.Replay
  | RemoteErrorCode.RateLimited => WireErrorCode.RateLimited
  | RemoteErrorCode.LimitExceeded => WireErrorCode.LimitExceeded
  | RemoteErrorCode.Revoked => WireErrorCode.Revoked
  | RemoteErrorCode.Internal => WireErrorCode.Internal
  end.

Definition map_error (error : RemoteError) : WireErrorCode := wire_code (RemoteError_code error).

Definition map_device_auth_error (error : RemoteError) : WireErrorCode :=
  match RemoteError_code error with
  | RemoteErrorCode.Internal => WireErrorCode.Internal
  | _ => WireErrorCode.RouteUnavailable
  end.

Definition map_admin_auth_error (error : RemoteError) : WireErrorCode :=
  match RemoteError_code error with
  | RemoteErrorCode.Internal => WireErrorCode.Internal
  | _ => WireErrorCode.AuthenticationFailed
  end.

Definition is_connection_fatal (code : WireErrorCode) : bool :=
  match code with
  | WireErrorCode.VersionMismatch | WireErrorCode.MalformedFrame => true
  | _ => false
  end.

Definition is_retriable (code : WireErrorCode) : bool :=
  match code with
  | WireErrorCode.RouteUnavailable | WireErrorCode.Expired | WireErrorCode.RateLimited | WireErrorCode.Internal => true
  | _ => false
  end.

(** Operations of the service that may fail. *)
Definition control (T : Type) : Type := ControlService → ControlService * result T WireErrorCode.

#[export] Instance control_ret : MRet control := λ T value sv, (sv, Ok value).
#[export] Instance control_bind : MBind control := λ T U k m sv,
  match m sv with
  | (sv, Ok value) => k value sv
  | (sv, Err e) => (sv, Err e)
  end.

Definition pure_control {T} (r : result T WireErrorCode) : control T := λ sv, (sv, r).

(** A query of the registry. *)
Definition ask {T} (to_wire : RemoteError → WireErrorCode) (query : RegistryState → result T RemoteError) : control T := λ sv,
  (sv, map_err to_wire (query (registry_state sv))).

(** A change of the registry, with its error. *)
Definition change (op : Registry → PrivateDirectory → Registry * PrivateDirectory * result unit RemoteError) :
    ControlService → ControlService * result unit RemoteError := λ sv,
  let '(registry, directory, r) := op sv.(ControlService.registry) sv.(ControlService.directory) in
  (ControlService.mk registry sv.(ControlService.replay) directory, r).

Definition commit_change (op : Registry → PrivateDirectory → Registry * PrivateDirectory * result unit RemoteError) : control unit := λ sv,
  let (sv, r) := change op sv in (sv, map_err map_error r).

Definition as_i64 (z : Z) : result Z WireErrorCode := if z <=? i64_max then Ok z else Err WireErrorCode.Internal.

Definition convert_push (address : WirePushAddress) : result PushAddress WireErrorCode :=
  reject_if (bool_decide (address.(WirePushAddress.provider) ≠ WirePushProvider.FcmFid)) WireErrorCode.MalformedFrame ;?
  reject_if (address.(WirePushAddress.registered_at_ms) <? 0) WireErrorCode.MalformedFrame ;?
  reject_if (address.(WirePushAddress.expires_at_ms) <? 0) WireErrorCode.MalformedFrame ;?
  ok_or (fcm_fid address.(WirePushAddress.opaque_address) address.(WirePushAddress.registered_at_ms) address.(WirePushAddress.expires_at_ms))
    WireErrorCode.MalformedFrame.

Definition Answer : Type := RemoteControlFrame * option WakeDispatch * option RevokedDevice.

Definition answer (response : RemoteControlFrame) : Answer := (response, None, None).

Section service.
Context `{Base64, JsonCodec RegistryState}.
Variable sha256 : list ascii → list ascii.
Variables now later : Z.

Definition parse {k} (value : string) : result (FixedId k) WireErrorCode := ok_or (from_opaque k value) WireErrorCode.MalformedFrame.
Definition parse_route : string → result RouteId WireErrorCode := parse.
Definition parse_slot : string → result DeviceSlotId WireErrorCode := parse.
Definition parse_access : string → result AccessToken WireErrorCode := parse.
Definition parse_admin : string → result RouteAdminToken WireErrorCode := parse.
Definition parse_endpoint : string → result HostEndpointId WireErrorCode := parse.

(** The key of an operation that is within the clock's tolerance. *)
Definition operation_key (operation_id : string) (issued_at_ms : Z) (credential : string) : result ReplayKey WireErrorCode :=
  reject_if (issued_at_ms <? 0) WireErrorCode.Expired ;?
  reject_if (OPERATION_CLOCK_SKEW_MS <? Z.abs (issued_at_ms - now)) WireErrorCode.Expired ;?
  let? operation_id := parse operation_id in
  Ok (ReplayKey.mk (sha256 (bytes_of credential)) operation_id).

Definition accept_operation (operation_id : string) (issued_at_ms : Z) (credential : string) : control unit := λ sv,
  match operation_key operation_id issued_at_ms credential with
  | Err e => (sv, Err e)
  | Ok key =>
      let (replay, r) := check_and_record REPLAY_CAPACITY OPERATION_REPLAY_WINDOW_MS key now sv.(ControlService.replay) in
      (ControlService_set_replay replay sv, map_err wire_code r)
  end.

(** *** The operations *)

Definition do_register_route (request_id : Z) (operation_id : string) (issued_at_ms : Z)
    (route_id route_hint admin_token host_endpoint_id relay_url : string) : control Answer :=
  _ ← accept_operation operation_id issued_at_ms admin_token;
  route_id ← pure_control (parse_route route_id);
  route_hint ← pure_control (parse_route route_hint);
  admin_token ← pure_control (parse_admin admin_token);
  host_endpoint ← pure_control (parse_endpoint host_endpoint_id);
  _ ← commit_change (register_route sha256 (RouteRegistration.mk route_id route_hint admin_token host_endpoint relay_url));
  mret (answer (RemoteControlFrame.RouteRegistered request_id)).

Definition do_register_presence (request_id : Z) (operation_id : string) (issued_at_ms : Z)
    (route_id admin_token host_endpoint_id relay_url : string) (ttl_seconds : Z) : control Answer :=
  route_id ← pure_control (parse_route route_id);
  admin_token_value ← pure_control (parse_admin admin_token);
  _ ← ask map_admin_auth_error (authorize_admin sha256 route_id admin_token_value);
  _ ← accept_operation operation_id issued_at_ms admin_token;
  host_endpoint ← pure_control (parse_endpoint host_endpoint_id);
  _ ← commit_change (register_presence sha256 (PresenceRegistration.mk route_id admin_token_value host_endpoint relay_url ttl_seconds) later);
  expires_at_ms ← pure_control (as_i64 (saturating_add_u64 now (ttl_seconds * 1000)));
  mret (answer (RemoteControlFrame.PresenceRegistered request_id expires_at_ms)).

Definition do_register_grant (request_id : Z) (operation_id : string) (issued_at_ms : Z)
    (route_id device_slot_id access_token admin_token : string) : control Answer :=
  route_id ← pure_control (parse_route route_id);
  admin_token_value ← pure_control (parse_admin admin_token);
  _ ← ask map_admin_auth_error (authorize_admin sha256 route_id admin_token_value);
  _ ← accept_operation operation_id issued_at_ms admin_token;
  slot_id ← pure_control (parse_slot device_slot_id);
  access_token ← pure_control (parse_access access_token);
  _ ← commit_change (register_device_grant sha256 (DeviceGrantRegistration.mk route_id slot_id access_token admin_token_value));
  mret (answer (RemoteControlFrame.DeviceGrantRegistered request_id)).

(** The route, slot and token of a device's request, once it is authorised and
    its operation is accepted. *)
Definition device_operation (operation_id : string) (issued_at_ms : Z) (route_id device_slot_id access_token : string) :
    control (RouteId * DeviceSlotId * AccessToken) :=
  route_id ← pure_control (parse_route route_id);
  slot_id ← pure_control (parse_slot device_slot_id);
  access_token_value ← pure_control (parse_access access_token);
  _ ← ask map_device_auth_error (authorize_device sha256 route_id slot_id access_token_value);
  _ ← accept_operation operation_id issued_at_ms access_token;
  mret (route_id, slot_id, access_token_value).

Definition do_resolve (request_id : Z) (operation_id : string) (issued_at_ms : Z) (route_id device_slot_id access_token : string) : control Answer :=
  device ← device_operation operation_id issued_at_ms route_id device_slot_id access_token;
  resolved ← ask map_error (resolve sha256 device.1.1 device.1.2 device.2 now);
  expires_at_ms ← pure_control (as_i64 resolved.(ResolveResponse.expires_at_ms));
  mret (answer (RemoteControlFrame.RouteResolved request_id (opaque resolved.(ResolveResponse.host_endpoint))
                  resolved.(ResolveResponse.relay_url) expires_at_ms)).

Definition do_replace_push (request_id : Z) (operation_id : string) (issued_at_ms : Z) (route_id device_slot_id access_token : string)
    (address : WirePushAddress) : control Answer :=
  device ← device_operation operation_id issued_at_ms route_id device_slot_id access_token;
  address ← pure_control (convert_push address);
  _ ← commit_change (register_push sha256 device.1.1 device.1.2 device.2 address later);
  expires_at_ms ← pure_control (as_i64 address.(PushAddress.expires_at_ms));
  mret (answer (RemoteControlFrame.PushAddressReplaced request_id expires_at_ms)).

Definition do_delete_push (request_id : Z) (operation_id : string) (issued_at_ms : Z) (route_id device_slot_id access_token : string) : control Answer :=
  device ← device_operation operation_id issued_at_ms route_id device_slot_id access_token;
  _ ← commit_change (delete_push sha256 device.1.1 device.1.2 device.2);
  mret (answer (RemoteControlFrame.PushAddressDeleted request_id)).

Definition do_wake (request_id : Z) (operation_id : string) (issued_at_ms : Z) (route_id device_slot_id admin_token wake_id : string) : control Answer :=
  route ← pure_control (parse_route route_id);
  slot_id ← pure_control (parse_slot device_slot_id);
  admin_token_value ← pure_control (parse_admin admin_token);
  _ ← ask map_admin_auth_error (authorize_admin sha256 route admin_token_value);
  _ ← accept_operation operation_id issued_at_ms admin_token;
  found ← ask map_error (push_address sha256 route slot_id admin_token_value);
  target ← pure_control (ok_or found WireErrorCode.RouteUnavailable);
  payload ← pure_control (ok_or (wake_with_id target.2 wake_id) WireErrorCode.MalformedFrame);
  mret (RemoteControlFrame.WakeAccepted request_id, Some (WakeDispatch.mk route slot_id target.1 payload), None).

(** A replay of a revocation is let through to find out whether it was carried out. *)
Definition accept_revocation (operation_id : string) (issued_at_ms : Z) (credential : string) : control bool := λ sv,
  match accept_operation operation_id issued_at_ms credential sv with
  | (sv, Ok _) => (sv, Ok false)
  | (sv, Err WireErrorCode.Replay) => (sv, Ok true)
  | (sv, Err e) => (sv, Err e)
  end.

(** The revocation; for a replay, that it was carried out before is as good. *)
Definition revoke_or_replay (route_id : RouteId) (admin_token : RouteAdminToken) (slot_id : DeviceSlotId) (replayed : bool) : control unit := λ sv,
  match change (revoke_device sha256 route_id admin_token slot_id) sv with
  | (sv, Ok _) => (sv, Ok tt)
  | (sv, Err error) =>
      if replayed && bool_decide (RemoteError_code error = RemoteErrorCode.Revoked) then (sv, Ok tt) else (sv, Err (map_error error))
  end.

Definition do_revoke (request_id : Z) (operation_id : string) (issued_at_ms : Z) (route_id device_slot_id admin_token : string) : control Answer :=
  route_id ← pure_control (parse_route route_id);
  slot_id ← pure_control (parse_slot device_slot_id);
  admin_token_value ← pure_control (parse_admin admin_token);
  _ ← ask map_admin_auth_error (authorize_admin sha256 route_id admin_token_value);
  replayed ← accept_revocation operation_id issued_at_ms admin_token;
  _ ← revoke_or_replay route_id admin_token_value slot_id replayed;
  mret (RemoteControlFrame.DeviceGrantRevoked request_id, None, Some (RevokedDevice.mk route_id slot_id)).

Definition operate (frame : RemoteControlFrame) : control Answer :=
  match frame with
  | RemoteControlFrame.RegisterRoute request_id operation_id issued_at_ms route_id route_hint admin_token host_endpoint_id relay_url =>
      do_register_route request_id operation_id issued_at_ms route_id route_hint admin_token host_endpoint_id relay_url
  | RemoteControlFrame.RegisterPresence request_id operation_id issued_at_ms route_id admin_token host_endpoint_id relay_url ttl_seconds =>
      do_register_presence request_id operation_id issued_at_ms route_id admin_token host_endpoint_id relay_url ttl_seconds
  | RemoteControlFrame.RegisterDeviceGrant request_id operation_id issued_at_ms route_id device_slot_id access_token admin_token =>
      do_register_grant request_id operation_id issued_at_ms route_id device_slot_id access_token admin_token
  | RemoteControlFrame.ResolveRoute request_id operation_id issued_at_ms route_id device_slot_id access_token =>
      do_resolve request_id operation_id issued_at_ms route_id device_slot_id access_token
  | RemoteControlFrame.ReplacePushAddress request_id operation_id issued_at_ms route_id device_slot_id access_token address =>
      do_replace_push request_id operation_id issued_at_ms route_id device_slot_id access_token address
  | RemoteControlFrame.DeletePushAddress request_id operation_id issued_at_ms route_id device_slot_id access_token =>
      do_delete_push request_id operation_id issued_at_ms route_id device_slot_id access_token
  | RemoteControlFrame.WakeDevice request_id operation_id issued_at_ms route_id device_slot_id admin_token wake_id =>
      do_wake request_id operation_id issued_at_ms route_id device_slot_id admin_token wake_id
  | RemoteControlFrame.RevokeDeviceGrant request_id operation_id issued_at_ms route_id device_slot_id admin_token =>
      do_revoke request_id operation_id issued_at_ms route_id device_slot_id admin_token
  | _ => pure_control (Err WireErrorCode.MalformedFrame)
  end.

(** *** One frame *)

(** The request number that is next on the connection. *)
Definition expected_request (frame : RemoteControlFrame) (connection : ControlConnection) : result Z WireErrorCode :=
  let? request_id := ok_or (frame_request_id frame) WireErrorCode.MalformedFrame in
  let? expected := ok_or (checked_add_u64 connection.(ControlConnection.last_request_id) 1) WireErrorCode.MalformedFrame in
  reject_if (negb (request_id =? expected)) WireErrorCode.MalformedFrame ;?
  Ok request_id.

Definition handle_inner (connection : ControlConnection) (frame : RemoteControlFrame) (sv : ControlService) :
    ControlConnection * ControlService * result ControlOutcome WireErrorCode :=
  match expected_request frame connection with
  | Err e => (connection, sv, Err e)
  | Ok request_id =>
      if negb connection.(ControlConnection.hello_complete) then
        match frame with
        | RemoteControlFrame.RemoteHello _ remote_control_version max_frame_length =>
            if bool_decide (remote_control_version ≠ REMOTE_CONTROL_VERSION) || negb (max_frame_length =? MAX_REMOTE_CONTROL_FRAME_BYTES)
            then (connection, sv, Err WireErrorCode.VersionMismatch)
            else (ControlConnection.mk true request_id, sv,
                  Ok (ControlOutcome.mk (RemoteControlFrame.RemoteHelloAck request_id REMOTE_CONTROL_VERSION max_frame_length) None None false))
        | _ => (connection, sv, Err WireErrorCode.VersionMismatch)
        end
      else
        let connection := ControlConnection.mk true request_id in
        match operate frame sv with
        | (sv, Err e) => (connection, sv, Err e)
        | (sv, Ok (response, wake, revoked_device)) => (connection, sv, Ok (ControlOutcome.mk response wake revoked_device false))
        end
  end.

Definition handle (connection : ControlConnection) (frame : RemoteControlFrame) (sv : ControlService) :
    ControlConnection * ControlService * ControlOutcome :=
  match handle_inner connection frame sv with
  | (connection, sv, Ok outcome) => (connection, sv, outcome)
  | (connection, sv, Err code) =>
      (connection, sv,
       ControlOutcome.mk (RemoteControlFrame.RemoteError (frame_request_id frame) code (is_retriable code)) None None (is_connection_fatal code))
  end.

Definition delete_unregistered_push (dispatch : WakeDispatch) : control unit :=
  commit_change (delete_push_for_service dispatch.(WakeDispatch.route_id) dispatch.(WakeDispatch.slot_id)).

(** *** One turn of a control connection: [handle_control_connection] *)

Context `{JsonCodec PushPayload}.

Definition fcm_code (error : FcmSendError) : WireErrorCode :=
  match error with
  | FcmSendError.Retryable | FcmSendError.Transport => WireErrorCode.Internal
  | FcmSendError.Credentials | FcmSendError.AuthRejected => WireErrorCode.AuthenticationFailed
  | FcmSendError.DeleteAddress | FcmSendError.InvalidAddress => WireErrorCode.RouteUnavailable
  | FcmSendError.InvalidPayload | FcmSendError.Rejected => WireErrorCode.Internal
  end.

Definition fcm_retriable (error : FcmSendError) : bool :=
  match error with
  | FcmSendError.Retryable | FcmSendError.Transport => true
  | _ => false
  end.

(** The response to a frame once the wake it asks for was sent. *)
Definition dispatch_wake (credentials : bool) (fcm : FcmService) (outcome : ControlOutcome) (sv : ControlService) : ControlService * RemoteControlFrame :=
  match outcome.(ControlOutcome.wake) with
  | None => (sv, outcome.(ControlOutcome.response))
  | Some dispatch =>
      match send_wake credentials fcm later dispatch.(WakeDispatch.address) dispatch.(WakeDispatch.payload) with
      | Ok _ => (sv, outcome.(ControlOutcome.response))
      | Err error =>
          let sv := match error with
                    | FcmSendError.DeleteAddress => (delete_unregistered_push dispatch sv).1
                    | _ => sv
                    end in
          (sv, RemoteControlFrame.RemoteError (frame_request_id outcome.(ControlOutcome.response)) (fcm_code error) (fcm_retriable error))
      end
  end.
End service.
