(* ===== verification/RelayControlProofs.v ===== *)
(** * What the control service promises

    What one frame does to the registry and to the cache of operations, and what
    follows: an operation is carried out once, a route changes only for whoever
    holds its credentials, and which frames are refused. *)
From stdpp Require Import prelude strings gmap.
From Stdlib Require Import ZArith Lia Ascii.
From S2P Require Import Prelude ProtoBase ProtoContent TransportControl TransportBootstrap PrivateFiles TransportRemote RelayIds RelayRegistry RelayRegistryProofs RelayPromises RelayControl.

Local Open Scope Z_scope.

(** The name, time and credential of the operation a frame asks for. *)
Definition frame_operation (frame : RemoteControlFrame) : option (string * Z * string) :=
  match frame with
  | RemoteControlFrame.RegisterRoute _ operation_id issued_at_ms _ _ admin_token _ _ => Some (operation_id, issued_at_ms, admin_token)
  | RemoteControlFrame.RegisterPresence _ operation_id issued_at_ms _ admin_token _ _ _ => Some (operation_id, issued_at_ms, admin_token)
  | RemoteControlFrame.RegisterDeviceGrant _ operation_id issued_at_ms _ _ _ admin_token => Some (operation_id, issued_at_ms, admin_token)
  | RemoteControlFrame.ResolveRoute _ operation_id issued_at_ms _ _ access_token => Some (operation_id, issued_at_ms, access_token)
  | RemoteControlFrame.ReplacePushAddress _ operation_id issued_at_ms _ _ access_token _ => Some (operation_id, issued_at_ms, access_token)
  | RemoteControlFrame.DeletePushAddress _ operation_id issued_at_ms _ _ access_token => Some (operation_id, issued_at_ms, access_token)
  | RemoteControlFrame.WakeDevice _ operation_id issued_at_ms _ _ admin_token _ => Some (operation_id, issued_at_ms, admin_token)
  | RemoteControlFrame.RevokeDeviceGrant _ operation_id issued_at_ms _ _ admin_token => Some (operation_id, issued_at_ms, admin_token)
  | _ => None
  end.

Definition is_revocation (frame : RemoteControlFrame) : bool :=
  match frame with
  | RemoteControlFrame.RevokeDeviceGrant _ _ _ _ _ _ => true
  | _ => false
  end.

Section effects.
Context `{B64 : Base64, Codec : JsonCodec RegistryState}.
Variable sha256 : list ascii → list ascii.

(** The call of the registry a frame asks for. *)
Definition requested_call (later : Z) (frame : RemoteControlFrame) : option RelayCall :=
  match frame with
  | RemoteControlFrame.RegisterRoute _ _ _ route_id route_hint admin_token host_endpoint_id relay_url =>
      route_id ← from_opaque KRoute route_id; route_hint ← from_opaque KRoute route_hint; admin_token ← from_opaque KRouteAdminToken admin_token;
      host_endpoint ← from_opaque KHostEndpoint host_endpoint_id;
      Some (RegisterRoute (RouteRegistration.mk route_id route_hint admin_token host_endpoint relay_url))
  | RemoteControlFrame.RegisterPresence _ _ _ route_id admin_token host_endpoint_id relay_url ttl_seconds =>
      route_id ← from_opaque KRoute route_id; admin_token ← from_opaque KRouteAdminToken admin_token;
      host_endpoint ← from_opaque KHostEndpoint host_endpoint_id;
      Some (RegisterPresence (PresenceRegistration.mk route_id admin_token host_endpoint relay_url ttl_seconds) later)
  | RemoteControlFrame.RegisterDeviceGrant _ _ _ route_id device_slot_id access_token admin_token =>
      route_id ← from_opaque KRoute route_id; admin_token ← from_opaque KRouteAdminToken admin_token;
      slot_id ← from_opaque KDeviceSlot device_slot_id; access_token ← from_opaque KAccessToken access_token;
      Some (RegisterDeviceGrant (DeviceGrantRegistration.mk route_id slot_id access_token admin_token))
  | RemoteControlFrame.ReplacePushAddress _ _ _ route_id device_slot_id access_token address =>
      route_id ← from_opaque KRoute route_id; slot_id ← from_opaque KDeviceSlot device_slot_id; access_token ← from_opaque KAccessToken access_token;
      address ← (match convert_push address with Ok address => Some address | Err _ => None end);
      Some (RegisterPush route_id slot_id access_token address later)
  | RemoteControlFrame.DeletePushAddress _ _ _ route_id device_slot_id access_token =>
      route_id ← from_opaque KRoute route_id; slot_id ← from_opaque KDeviceSlot device_slot_id; access_token ← from_opaque KAccessToken access_token;
      Some (DeletePush route_id slot_id access_token)
  | RemoteControlFrame.RevokeDeviceGrant _ _ _ route_id device_slot_id admin_token =>
      route_id ← from_opaque KRoute route_id; slot_id ← from_opaque KDeviceSlot device_slot_id; admin_token ← from_opaque KRouteAdminToken admin_token;
      Some (RevokeDevice route_id admin_token slot_id)
  | _ => None
  end.

(** The registry is as before, or one requested call was made. *)
Definition registry_effect (later : Z) (frame : RemoteControlFrame) (sv sv' : ControlService) : Prop :=
  (sv'.(ControlService.registry) = sv.(ControlService.registry) ∧ sv'.(ControlService.directory) = sv.(ControlService.directory)) ∨
  ∃ call res, requested_call later frame = Some call ∧
    call_relay sha256 call sv.(ControlService.registry) sv.(ControlService.directory) =
      (sv'.(ControlService.registry), sv'.(ControlService.directory), res).

(** The cache is as before, or the operation of the frame was looked up in it. *)
Definition replay_effect (now : Z) (frame : RemoteControlFrame) (sv sv' : ControlService) : Prop :=
  sv'.(ControlService.replay) = sv.(ControlService.replay) ∨
  ∃ operation_id issued_at_ms credential key, frame_operation frame = Some (operation_id, issued_at_ms, credential) ∧
    operation_key sha256 now operation_id issued_at_ms credential = Ok key ∧
    sv'.(ControlService.replay) = (check_and_record REPLAY_CAPACITY OPERATION_REPLAY_WINDOW_MS key now sv.(ControlService.replay)).1.

(** The operation of a frame was new. *)
Definition accepted_now (now : Z) (frame : RemoteControlFrame) (sv sv' : ControlService) : Prop :=
  ∃ operation_id issued_at_ms credential key, frame_operation frame = Some (operation_id, issued_at_ms, credential) ∧
    operation_key sha256 now operation_id issued_at_ms credential = Ok key ∧
    (check_and_record REPLAY_CAPACITY OPERATION_REPLAY_WINDOW_MS key now sv.(ControlService.replay)).2 = Ok tt ∧
    sv'.(ControlService.replay) = (check_and_record REPLAY_CAPACITY OPERATION_REPLAY_WINDOW_MS key now sv.(ControlService.replay)).1.

Lemma accept_operation_effect now operation_id issued_at_ms credential sv sv' r :
  accept_operation sha256 now operation_id issued_at_ms credential sv = (sv', r) →
  sv'.(ControlService.registry) = sv.(ControlService.registry) ∧ sv'.(ControlService.directory) = sv.(ControlService.directory) ∧
  ((∃ e, operation_key sha256 now operation_id issued_at_ms credential = Err e ∧ r = Err e ∧ sv' = sv) ∨
   ∃ key, operation_key sha256 now operation_id issued_at_ms credential = Ok key ∧
     sv'.(ControlService.replay) = (check_and_record REPLAY_CAPACITY OPERATION_REPLAY_WINDOW_MS key now sv.(ControlService.replay)).1 ∧
     r = map_err wire_code (check_and_record REPLAY_CAPACITY OPERATION_REPLAY_WINDOW_MS key now sv.(ControlService.replay)).2).
Proof.
  unfold accept_operation. destruct (operation_key _ _ _ _ _) as [key|e]; [|intros [= <- <-]; split_and!; [done..|]; left; by exists e].
  destruct (check_and_record _ _ _ _ _) as [replay res] eqn:E. intros [= <- <-]. split_and!; [done..|]. right. exists key. rewrite E. done.
Qed.

Lemma change_effect op sv sv' r :
  change op sv = (sv', r) →
  op sv.(ControlService.registry) sv.(ControlService.directory) = (sv'.(ControlService.registry), sv'.(ControlService.directory), r) ∧
  sv'.(ControlService.replay) = sv.(ControlService.replay).
Proof. unfold change. destruct (op _ _) as [[registry directory] res]. by intros [= <- <-]. Qed.

Lemma commit_change_effect op sv sv' r :
  commit_change op sv = (sv', r) →
  ∃ res, op sv.(ControlService.registry) sv.(ControlService.directory) = (sv'.(ControlService.registry), sv'.(ControlService.directory), res) ∧
  sv'.(ControlService.replay) = sv.(ControlService.replay) ∧ r = map_err map_error res.
Proof. unfold commit_change. destruct (change op sv) as [sv1 res] eqn:E. intros [= <- <-]. apply change_effect in E as [??]. by exists res. Qed.

(** What holds once the operation of a frame was looked up. *)
Definition looked_up (now : Z) (frame : RemoteControlFrame) (sv sv' : ControlService) : Prop :=
  sv'.(ControlService.registry) = sv.(ControlService.registry) ∧ sv'.(ControlService.directory) = sv.(ControlService.directory) ∧
  replay_effect now frame sv sv'.

Lemma looked_up_refl now frame sv : looked_up now frame sv sv.
Proof. split_and!; [done..|by left]. Qed.

(** *** The steps of an operation *)

Lemma pure_bind_inv {T U} (r : result T WireErrorCode) (k : T → control U) sv sv' a :
  (pure_control r ≫= k) sv = (sv', a) → (∃ e, r = Err e ∧ a = Err e ∧ sv' = sv) ∨ (∃ v, r = Ok v ∧ k v sv = (sv', a)).
Proof. unfold mbind, control_bind, pure_control. destruct r as [v|e]; [eauto|]. intros [= <- <-]. eauto. Qed.

Lemma ask_bind_inv {T U} to_wire (query : RegistryState → result T RemoteError) (k : T → control U) sv sv' a :
  (ask to_wire query ≫= k) sv = (sv', a) →
  (∃ e, query (registry_state sv) = Err e ∧ a = Err (to_wire e) ∧ sv' = sv) ∨ (∃ v, query (registry_state sv) = Ok v ∧ k v sv = (sv', a)).
Proof. unfold mbind, control_bind, ask. destruct (query _) as [v|e]; simpl; [eauto|]. intros [= <- <-]. eauto. Qed.

Lemma accept_bind_inv {U} now frame operation_id issued_at_ms credential (k : unit → control U) sv sv' a :
  frame_operation frame = Some (operation_id, issued_at_ms, credential) →
  (accept_operation sha256 now operation_id issued_at_ms credential ≫= k) sv = (sv', a) →
  (is_ok a = false ∧ looked_up now frame sv sv') ∨ (∃ sv1, looked_up now frame sv sv1 ∧ accepted_now now frame sv sv1 ∧ k tt sv1 = (sv', a)).
Proof.
  intros Hf. unfold mbind, control_bind. destruct (accept_operation _ _ _ _ _ _) as [sv1 r] eqn:E.
  apply accept_operation_effect in E as (Hr & Hd & [(e & _ & -> & ->)|(key & Hk & Hrep & ->)]).
  { intros [= <- <-]. left. split; [done|apply looked_up_refl]. }
  assert (looked_up now frame sv sv1) as Hl by (split_and!; [done..|]; right; by eexists _, _, _, key).
  destruct (check_and_record _ _ _ _ _).2 as [[]|code] eqn:Hc; simpl; [|intros [= <- <-]; by left].
  intros Hk1. right. exists sv1. split_and!; [done| |done]. by eexists _, _, _, key.
Qed.

Lemma commit_bind_inv {U} op (k : unit → control U) sv sv' a :
  (commit_change op ≫= k) sv = (sv', a) →
  ∃ sv1 res, op sv.(ControlService.registry) sv.(ControlService.directory) = (sv1.(ControlService.registry), sv1.(ControlService.directory), res) ∧
    sv1.(ControlService.replay) = sv.(ControlService.replay) ∧
    ((∃ e, a = Err e ∧ sv' = sv1) ∨ (res = Ok tt ∧ k tt sv1 = (sv', a))).
Proof.
  unfold mbind, control_bind. destruct (commit_change op sv) as [sv1 r] eqn:E. apply commit_change_effect in E as (res & Hop & Hrep & ->).
  intros Hk. exists sv1, res. split_and!; [done..|]. destruct res as [[]|e]; simpl in Hk; [by right|]. injection Hk as <- <-. eauto.
Qed.

Lemma ret_inv {T} (v : T) sv sv' a : (mret v : control T) sv = (sv', a) → sv' = sv ∧ a = Ok v.
Proof. by intros [= <- <-]. Qed.

Lemma control_bind_assoc {T U V} (m : control T) (f : T → control U) (g : U → control V) sv : ((m ≫= f) ≫= g) sv = (m ≫= λ v, f v ≫= g) sv.
Proof. unfold mbind, control_bind. by destruct (m sv) as [? []]. Qed.

Lemma parse_some {k} value (id : FixedId k) : parse value = Ok id → from_opaque k value = Some id.
Proof. apply ok_or_ok. Qed.

(** How an operation ends: without a change, or with the call it asks for. *)
Inductive operated (now later : Z) (frame : RemoteControlFrame) (sv sv' : ControlService) (answered : bool) : Prop :=
| operated_refused : looked_up now frame sv sv' → answered = false → operated now later frame sv sv' answered
| operated_accepted : accepted_now now frame sv sv' ∨ is_revocation frame → registry_effect later frame sv sv' → replay_effect now frame sv sv' →
    operated now later frame sv sv' answered.

Lemma operated_unchanged now later frame sv sv' answered :
  looked_up now frame sv sv' → accepted_now now frame sv sv' ∨ is_revocation frame → operated now later frame sv sv' answered.
Proof. intros (Hr & Hd & Hrep) Ha. apply operated_accepted; [done|by left|done]. Qed.

Lemma operated_call now later frame sv sv1 sv2 answered call res :
  looked_up now frame sv sv1 → accepted_now now frame sv sv1 ∨ is_revocation frame → requested_call later frame = Some call →
  call_relay sha256 call sv1.(ControlService.registry) sv1.(ControlService.directory) =
    (sv2.(ControlService.registry), sv2.(ControlService.directory), res) →
  sv2.(ControlService.replay) = sv1.(ControlService.replay) → operated now later frame sv sv2 answered.
Proof.
  intros (Hr & Hd & Hrep) Ha Hc Hcall Hsame. apply operated_accepted; [unfold accepted_now in *; by rewrite Hsame| |].
  - right. exists call, res. by rewrite <-Hr, <-Hd.
  - unfold replay_effect. by rewrite Hsame.
Qed.
End effects.

(** Follows an operation of the service step by step. *)
Ltac control_step frame :=
  match goal with
  | H : ((_ ≫= _) ≫= _) _ = _ |- _ => rewrite control_bind_assoc in H
  | H : (pure_control _ ≫= _) _ = _ |- _ => apply pure_bind_inv in H as [(? & ? & -> & ->)|(? & ? & H)]
  | H : (ask _ _ ≫= _) _ = _ |- _ => apply ask_bind_inv in H as [(? & ? & -> & ->)|(? & ? & H)]
  | H : (accept_operation _ _ _ _ _ ≫= _) _ = _ |- _ =>
      apply (accept_bind_inv _ _ frame) in H as [[??]|(? & ? & ? & H)]; [..|reflexivity]
  | H : (commit_change _ ≫= _) _ = _ |- _ => apply commit_bind_inv in H as (? & ? & ? & ? & [(? & -> & ->)|[? H]])
  | H : (mret _ ≫= _) _ = _ |- _ => unfold mbind at 1, control_bind at 1, mret at 1, control_ret at 1 in H; cbn beta iota in H
  | H : mret _ _ = _ |- _ => apply ret_inv in H as [-> ->]
  end.
Ltac control_steps frame := repeat control_step frame.

(** The requested call, from the parts that were parsed. *)
Ltac requested_tac :=
  repeat match goal with H : _ = Ok _ |- _ => first [apply parse_some in H|progress apply ok_or_ok in H] end;
  cbn [requested_call]; repeat match goal with H : from_opaque _ _ = Some _ |- _ => rewrite H; clear H; cbn [mbind option_bind] end;
  try match goal with H : convert_push _ = Ok _ |- _ => rewrite H; cbn [mbind option_bind] end; reflexivity.

Ltac operated_tac :=
  first
  [ by apply operated_refused; [apply looked_up_refl|]
  | by apply operated_refused
  | by apply operated_unchanged; [|left]
  | eapply operated_call; [eassumption|by left|requested_tac|eassumption|eassumption] ].

Section operations.
Context `{B64 : Base64, Codec : JsonCodec RegistryState}.
Variable sha256 : list ascii → list ascii.
Variables now later : Z.

Lemma accept_revocation_inv frame operation_id issued_at_ms credential {U} (k : bool → control U) sv sv' a :
  frame_operation frame = Some (operation_id, issued_at_ms, credential) →
  (accept_revocation sha256 now operation_id issued_at_ms credential ≫= k) sv = (sv', a) →
  (is_ok a = false ∧ looked_up sha256 now frame sv sv') ∨ (∃ sv1 replayed, looked_up sha256 now frame sv sv1 ∧ k replayed sv1 = (sv', a)).
Proof.
  intros Hf. unfold accept_revocation, mbind, control_bind. destruct (accept_operation _ _ _ _ _ _) as [sv1 r] eqn:E.
  destruct (accept_bind_inv sha256 now frame operation_id issued_at_ms credential (λ _, mret tt) sv sv1 (r ;? Ok tt)) as [[_ Hl]|(sv2 & Hl & _ & [= ->])]; [done| | |].
  - unfold mbind, control_bind. rewrite E. by destruct r as [[]|].
  - destruct r as [[]|e]; [eauto|]. destruct e; first [intros Hk; right; by eauto|intros [= <- <-]; by left].
  - destruct r as [[]|e]; [eauto|]. destruct e; first [intros Hk; right; by eauto|intros [= <- <-]; by left].
Qed.

Lemma revoke_or_replay_effect route_id admin_token slot_id replayed sv sv' r :
  revoke_or_replay sha256 route_id admin_token slot_id replayed sv = (sv', r) →
  ∃ res, call_relay sha256 (RevokeDevice route_id admin_token slot_id) sv.(ControlService.registry) sv.(ControlService.directory) =
      (sv'.(ControlService.registry), sv'.(ControlService.directory), res) ∧
    sv'.(ControlService.replay) = sv.(ControlService.replay) ∧
    (r = Ok tt → res = Ok tt ∨ ∃ e, res = Err e ∧ RemoteError_code e = RemoteErrorCode.Revoked).
Proof.
  unfold revoke_or_replay. destruct (change _ sv) as [sv1 res] eqn:E. apply change_effect in E as [Hc Hr]. intros Hres. exists res.
  destruct res as [[]|e]; [injection Hres as <- <-; split_and!; [done..|by left]|].
  destruct (replayed && _) eqn:Hb; injection Hres as <- <-; (split_and!; [done..|]); [|done].
  intros _. right. exists e. apply andb_true_iff in Hb as [_ Hb%bool_decide_eq_true]. done.
Qed.

Lemma operate_operated frame sv sv' a :
  operate sha256 now later frame sv = (sv', a) → operated sha256 now later frame sv sv' (is_ok a).
Proof.
  intros Hop. destruct frame; cbn [operate] in Hop; try (injection Hop as <- <-; by operated_tac);
    unfold do_register_route, do_register_presence, do_register_grant, do_resolve, do_replace_push, do_delete_push, do_wake, do_revoke, device_operation in Hop;
    match goal with |- operated _ _ _ ?f _ _ _ => control_steps f end; try operated_tac.
  apply (accept_revocation_inv (RemoteControlFrame.RevokeDeviceGrant request_id operation_id issued_at_ms route_id device_slot_id admin_token)) in Hop
    as [[Ha Hl]|(sv1 & replayed & Hl & Hop)]; [by apply operated_refused| |done].
  unfold mbind, control_bind in Hop. destruct (revoke_or_replay _ _ _ _ _ _) as [sv2 r] eqn:E. apply revoke_or_replay_effect in E as (res & Hc & Hr & _).
  assert (sv' = sv2) as -> by (destruct r; by injection Hop). eapply operated_call; [done|by right|requested_tac|done..].
Qed.
End operations.

(** ** Frames *)

(** The response is not an error. *)
Definition answered (outcome : ControlOutcome) : bool :=
  match outcome.(ControlOutcome.response) with
  | RemoteControlFrame.RemoteError _ _ _ => false
  | _ => true
  end.

(** A frame on some connection, and the clock when it is handled. *)
Module FrameEvent.
Record FrameEvent : Type := mk {
  connection : ControlConnection;
  now : Z;
  later : Z;
  frame : RemoteControlFrame
}.
End FrameEvent.
Abbreviation FrameEvent := FrameEvent.FrameEvent.

Section frames.
Context `{B64 : Base64, Codec : JsonCodec RegistryState}.
Variable sha256 : list ascii → list ascii.

(** A frame that is no hello is an operation or is refused. *)
Lemma handle_inv now later connection frame sv connection' sv' outcome :
  handle sha256 now later connection frame sv = (connection', sv', outcome) →
  sv' = sv ∧ (answered outcome → frame_operation frame = None) ∨
  ∃ a, operate sha256 now later frame sv = (sv', a) ∧ (is_ok a = false → answered outcome = false) ∧
    ∀ v, a = Ok v → outcome.(ControlOutcome.response) = v.1.1.
Proof.
  unfold handle, handle_inner. destruct (expected_request _ _) as [request_id|e]; [|intros [= <- <- <-]; by left].
  destruct (negb _).
  - destruct frame; try (intros [= <- <- <-]; by left). destruct (_ || _); intros [= <- <- <-]; by left.
  - destruct (operate _ _ _ _ _) as [sv1 [[[response wake] revoked]|e]] eqn:E; intros [= <- <- <-]; right; eexists; split_and!; try done.
    by intros v [= <-].
Qed.

Lemma handle_operated now later connection frame sv connection' sv' outcome :
  is_Some (frame_operation frame) → handle sha256 now later connection frame sv = (connection', sv', outcome) →
  operated sha256 now later frame sv sv' (answered outcome).
Proof.
  intros [op Hop] [[-> Ha]|(a & Ho & Ha & _)]%handle_inv.
  - apply operated_refused; [apply looked_up_refl|]. destruct (answered outcome); [|done]. rewrite Hop in Ha. by specialize (Ha I).
  - apply operate_operated in Ho as [Hl Hf|]; [by apply operated_refused; [|apply Ha]|by apply operated_accepted].
Qed.

(** What a frame does to the registry, and to the cache. *)
Lemma handle_effects now later connection frame sv connection' sv' outcome :
  handle sha256 now later connection frame sv = (connection', sv', outcome) →
  registry_effect sha256 later frame sv sv' ∧ replay_effect sha256 now frame sv sv'.
Proof.
  intros [[-> _]|(a & Ho & _)]%handle_inv; [split; by left|]. apply operate_operated in Ho as [(Hr & Hd & Hrep) _|_ Hr Hrep]; [|done].
  split; [by left|done].
Qed.

(** ** The cache *)

Definition replay_check (key : ReplayKey) (now : Z) (entries : gmap ReplayKey Z) : gmap ReplayKey Z * result unit RemoteErrorCode :=
  check_and_record REPLAY_CAPACITY OPERATION_REPLAY_WINDOW_MS key now entries.

Lemma replay_check_keeps key key' now at_ entries :
  entries !! key = Some at_ → now - at_ ≤ OPERATION_REPLAY_WINDOW_MS → 0 ≤ OPERATION_REPLAY_WINDOW_MS →
  (replay_check key' now entries).1 !! key = Some at_.
Proof.
  intros Hl Hn H0. unfold replay_check, check_and_record. set (kept := filter _ entries).
  assert (kept !! key = Some at_) as Hk.
  { apply map_lookup_filter_Some. split; [done|]. unfold saturating_sub_u64. simpl. lia. }
  destruct (is_some (kept !! key')) eqn:Hs; [done|]. destruct (_ <=? _)%nat; [done|]. simpl. apply is_some_false in Hs.
  rewrite lookup_insert_ne by congruence. done.
Qed.

Lemma replay_check_refuses key now at_ entries :
  entries !! key = Some at_ → now - at_ ≤ OPERATION_REPLAY_WINDOW_MS → 0 ≤ OPERATION_REPLAY_WINDOW_MS →
  (replay_check key now entries).2 = Err RemoteErrorCode.Replay.
Proof.
  intros Hl Hn H0. unfold replay_check, check_and_record.
  assert (filter (λ '(_, seen_at), saturating_sub_u64 now seen_at ≤ OPERATION_REPLAY_WINDOW_MS) entries !! key = Some at_) as ->; [|done].
  apply map_lookup_filter_Some. split; [done|]. unfold saturating_sub_u64. simpl. lia.
Qed.

Lemma replay_check_records key now entries : (replay_check key now entries).2 = Ok tt → (replay_check key now entries).1 !! key = Some now.
Proof.
  unfold replay_check, check_and_record. destruct (is_some _); [done|]. destruct (_ <=? _)%nat; [done|]. intros _. simpl. apply lookup_insert_eq.
Qed.

Definition handle_event (sv : ControlService) (event : FrameEvent) : ControlService :=
  (handle sha256 event.(FrameEvent.now) event.(FrameEvent.later) event.(FrameEvent.connection) event.(FrameEvent.frame) sv).1.2.

Definition handle_events (sv : ControlService) (events : list FrameEvent) : ControlService := foldl handle_event sv events.

(** An entry stays while it is young enough. *)
Lemma handle_events_keep key at_ events sv :
  (∀ event, event ∈ events → event.(FrameEvent.now) - at_ ≤ OPERATION_REPLAY_WINDOW_MS) →
  sv.(ControlService.replay) !! key = Some at_ → (handle_events sv events).(ControlService.replay) !! key = Some at_.
Proof.
  revert sv. induction events as [|event events IH]; intros sv Hn Hl; [done|]. simpl. apply IH; [intros e He; apply Hn; by right|].
  unfold handle_event. destruct (handle _ _ _ _ _ _) as [[connection' sv'] outcome] eqn:E. simpl.
  apply handle_effects in E as [_ [->|(op & issued & credential & key' & _ & _ & ->)]]; [done|].
  apply replay_check_keeps; [done| |done]. apply Hn. by left.
Qed.

Lemma operation_key_fresh now op issued credential key :
  operation_key sha256 now op issued credential = Ok key → Z.abs (issued - now) ≤ OPERATION_CLOCK_SKEW_MS.
Proof. unfold operation_key. intros Hk. checks_ok. match goal with H : (_ <? Z.abs _) = false |- _ => by apply Z.ltb_ge in H end. Qed.

Lemma operation_key_same now now' op issued credential key key' :
  operation_key sha256 now op issued credential = Ok key → operation_key sha256 now' op issued credential = Ok key' → key' = key.
Proof. unfold operation_key. intros H1 H2. checks_ok. congruence. Qed.

(** C13: An operation that was carried out is not carried out again: while the service runs and its
    clock does not go back, a later frame with the same operation identifier, time of issue and
    credential is refused and changes nothing, whichever connection it arrives on and whatever was
    handled in between. The tolerance of the clock and the time an operation is remembered for just
    fit. Revocations, which may be repeated, are excepted. *)
Theorem operations_are_accepted_once sv first connection1 sv1 outcome1 events second connection2 sv2 outcome2 operation
    (Hoperation : frame_operation first.(FrameEvent.frame) = Some operation) (Hfirst : is_revocation first.(FrameEvent.frame) = false)
    (Hdone : handle sha256 first.(FrameEvent.now) first.(FrameEvent.later) first.(FrameEvent.connection) first.(FrameEvent.frame) sv
               = (connection1, sv1, outcome1))
    (Hanswered : answered outcome1 = true)
    (Hclock : ∀ event, event ∈ events ++ [second] → first.(FrameEvent.now) ≤ event.(FrameEvent.now) ≤ second.(FrameEvent.now))
    (Hagain : frame_operation second.(FrameEvent.frame) = Some operation) (Hsecond : is_revocation second.(FrameEvent.frame) = false)
    (Hhandled : handle sha256 second.(FrameEvent.now) second.(FrameEvent.later) second.(FrameEvent.connection) second.(FrameEvent.frame)
                  (handle_events sv1 events) = (connection2, sv2, outcome2)) :
  answered outcome2 = false ∧
  sv2.(ControlService.registry) = (handle_events sv1 events).(ControlService.registry) ∧
  sv2.(ControlService.directory) = (handle_events sv1 events).(ControlService.directory).
Proof.
  assert (accepted_now sha256 second.(FrameEvent.now) second.(FrameEvent.frame) (handle_events sv1 events) sv2 → False) as Hno.
  { intros (op & issued & credential & key & Hf & Hk & Hc & _). rewrite Hagain in Hf. injection Hf as ->.
    apply handle_operated in Hdone; [|by eexists]. destruct Hdone as [_ Ha|Ha _ _]; [congruence|].
    rewrite Hfirst in Ha. destruct Ha as [(op1 & issued1 & credential1 & key1 & Hf1 & Hk1 & Hc1 & Hrep1)|[]]. rewrite Hoperation in Hf1. injection Hf1 as <- <- <-.
    pose proof (operation_key_same _ _ _ _ _ _ _ Hk1 Hk) as ->.
    assert (second.(FrameEvent.now) - first.(FrameEvent.now) ≤ OPERATION_REPLAY_WINDOW_MS) as Hwindow.
    { apply operation_key_fresh in Hk, Hk1. unfold OPERATION_CLOCK_SKEW_MS, OPERATION_REPLAY_WINDOW_MS in *. lia. }
    assert (sv1.(ControlService.replay) !! key1 = Some first.(FrameEvent.now)) as Hl.
    { rewrite Hrep1. by apply replay_check_records. }
    apply (handle_events_keep _ _ events) in Hl; [|intros e He; specialize (Hclock e ltac:(set_solver)); lia].
    apply (replay_check_refuses _ second.(FrameEvent.now)) in Hl; [|done..].
    unfold replay_check in Hl. congruence. }
  apply handle_operated in Hhandled; [|by eexists]. destruct Hhandled as [(Hr & Hd & _) Ha|[?|Hr] _ _]; [done|done|]. by rewrite Hsecond in Hr.
Qed.
End frames.
