(* ===== verification/RelayService.v ===== *)
(** * The relay's service over frames, failures and restarts

    What a frame may change and for whom, the service as a sequence of frames and
    restarts, that such a sequence is one of calls of the registry, and what a
    revocation that was answered means for every later frame. *)
From stdpp Require Import prelude strings gmap.
From Stdlib Require Import ZArith Lia Ascii.
From S2P Require Import Prelude ProtoBase ProtoContent TransportControl TransportBootstrap PrivateFiles TransportRemote RelayIds RelayRegistry RelayRegistryProofs RelayPromises RelayControl RelayControlProofs.

Local Open Scope Z_scope.

(** ** Credentials *)

Definition admin_token_of (frame : RemoteControlFrame) : option string :=
  match frame with
  | RemoteControlFrame.RegisterRoute _ _ _ _ _ admin_token _ _ => Some admin_token
  | RemoteControlFrame.RegisterPresence _ _ _ _ admin_token _ _ _ => Some admin_token
  | RemoteControlFrame.RegisterDeviceGrant _ _ _ _ _ _ admin_token => Some admin_token
  | RemoteControlFrame.RevokeDeviceGrant _ _ _ _ _ admin_token => Some admin_token
  | _ => None
  end.

Definition access_token_of (frame : RemoteControlFrame) : option string :=
  match frame with
  | RemoteControlFrame.ReplacePushAddress _ _ _ _ _ access_token _ => Some access_token
  | RemoteControlFrame.DeletePushAddress _ _ _ _ _ access_token => Some access_token
  | _ => None
  end.

(** The route and the slot a frame names. *)
Definition slot_of `{Base64} (frame : RemoteControlFrame) : option (RouteId * DeviceSlotId) :=
  match frame with
  | RemoteControlFrame.RegisterDeviceGrant _ _ _ route_id device_slot_id _ _
  | RemoteControlFrame.ResolveRoute _ _ _ route_id device_slot_id _
  | RemoteControlFrame.ReplacePushAddress _ _ _ route_id device_slot_id _ _
  | RemoteControlFrame.DeletePushAddress _ _ _ route_id device_slot_id _
  | RemoteControlFrame.WakeDevice _ _ _ route_id device_slot_id _ _
  | RemoteControlFrame.RevokeDeviceGrant _ _ _ route_id device_slot_id _ =>
      route_id ← from_opaque KRoute route_id; slot_id ← from_opaque KDeviceSlot device_slot_id; Some (route_id, slot_id)
  | _ => None
  end.

Section credentials.
Context `{B64 : Base64, Codec : JsonCodec RegistryState}.
Variable sha256 : list ascii → list ascii.

(** The frame carries the administrator's token of the route. *)
Definition holds_admin (frame : RemoteControlFrame) (route : RouteRecord) : Prop :=
  ∃ text token, admin_token_of frame = Some text ∧ from_opaque KRouteAdminToken text = Some token ∧
    sha256 (as_bytes token) = route.(RouteRecord.admin_digest).

(** The frame carries the token of a slot of the route, and only that slot's
    push address differs. *)
Definition changes_own_push (frame : RemoteControlFrame) (route_id : RouteId) (route : RouteRecord) (s s' : RegistryState) : Prop :=
  ∃ text token slot_id grant, access_token_of frame = Some text ∧ from_opaque KAccessToken text = Some token ∧
    slot_of frame = Some (route_id, slot_id) ∧ route.(RouteRecord.grants) !! slot_id = Some grant ∧
    sha256 (as_bytes token) = grant.(GrantRecord.token_digest) ∧
    s'.(RegistryState.routes) = s.(RegistryState.routes) ∧
    ∀ id slot, (id, slot) ≠ (route_id, slot_id) →
      (s'.(RegistryState.pushes) !! id ≫= (.!! slot)) = (s.(RegistryState.pushes) !! id ≫= (.!! slot)).

Definition route_unchanged (route_id : RouteId) (s s' : RegistryState) : Prop :=
  s'.(RegistryState.routes) !! route_id = s.(RegistryState.routes) !! route_id ∧
  s'.(RegistryState.pushes) !! route_id = s.(RegistryState.pushes) !! route_id.

Lemma remove_push_other id slot_id s id' slot :
  (id', slot) ≠ (id, slot_id) →
  ((remove_push id slot_id s).(RegistryState.pushes) !! id' ≫= (.!! slot)) = (s.(RegistryState.pushes) !! id' ≫= (.!! slot)).
Proof.
  intros Hne. unfold remove_push. destruct (s.(RegistryState.pushes) !! id) as [pushes|] eqn:Hl; [|done].
  destruct (decide (id' = id)) as [->|Hid].
  - assert (slot ≠ slot_id) as Hs by congruence. rewrite Hl. simpl. case_bool_decide as He; simpl.
    + rewrite lookup_delete_eq. simpl. by rewrite <-(lookup_delete_ne pushes slot_id slot), He, lookup_empty.
    + rewrite lookup_insert_eq. simpl. by apply lookup_delete_ne.
  - case_bool_decide; simpl; [by rewrite lookup_delete_ne|by rewrite lookup_insert_ne].
Qed.

Lemma remove_push_other_route id slot_id s id' : id' ≠ id → (remove_push id slot_id s).(RegistryState.pushes) !! id' = s.(RegistryState.pushes) !! id'.
Proof.
  intros Hne. unfold remove_push. destruct (_ !! id); [|done]. case_bool_decide; simpl; [by rewrite lookup_delete_ne|by rewrite lookup_insert_ne].
Qed.

Lemma require_admin_digest route token code u :
  require_admin sha256 route token code = Ok u → sha256 (as_bytes token) = route.(RouteRecord.admin_digest).
Proof. unfold require_admin, digest_matches. intros Hr. checks_ok. by apply negb_false_iff, bool_decide_eq_true in Hr. Qed.

Lemma registry_commit_state mutate r d r' d' res :
  registry_commit mutate r d = (r', d', res) →
  r'.(Registry.path) = r.(Registry.path) ∧ (r'.(Registry.state) = r.(Registry.state) ∨ mutate r.(Registry.state) = Ok r'.(Registry.state)).
Proof.
  unfold registry_commit. destruct (mutate _) as [next|e]; [|intros [= <- <- <-]; auto].
  destruct (r.(Registry.path)) eqn:Hp; [|intros [= <- <- <-]; auto]. destruct (write_state _ _ _) as [? []]; intros [= <- <- <-]; auto.
Qed.

(** The route and the administrator's token of a call. *)
Definition admin_call (call : RelayCall) : option (RouteId * RouteAdminToken) :=
  match call with
  | RegisterRoute registration => Some (registration.(RouteRegistration.route_id), registration.(RouteRegistration.admin_token))
  | RegisterPresence registration _ => Some (registration.(PresenceRegistration.route_id), registration.(PresenceRegistration.admin_token))
  | RegisterDeviceGrant registration => Some (registration.(DeviceGrantRegistration.route_id), registration.(DeviceGrantRegistration.admin_token))
  | RevokeDevice route_id admin_token _ => Some (route_id, admin_token)
  | _ => None
  end.

Lemma put_route_other id route s id' : id' ≠ id → route_unchanged id' s (put_route id route s).
Proof. intros Hne. split; [|done]. simpl. by rewrite lookup_insert_ne. Qed.

Lemma remove_push_unchanged id slot_id s s' id' : id' ≠ id → route_unchanged id' s s' → route_unchanged id' s (remove_push id slot_id s').
Proof. intros Hne [Hr Hp]. split; [by rewrite remove_push_routes|by rewrite remove_push_other_route]. Qed.

Lemma admin_change_other call id token s s' id' :
  admin_call call = Some (id, token) → relay_change sha256 call s = Ok s' → id' ≠ id → route_unchanged id' s s'.
Proof.
  intros Hcall Hc Hne. destruct call; try done; injection Hcall as <- <-; cbn [relay_change] in Hc; checks_ok;
    unfold register_route_in, register_presence_in, register_device_grant_in, revoke_device_in, route_of in Hc; checks_ok;
    repeat (case_match; checks_ok; try done); eauto using remove_push_unchanged, put_route_other; done.
Qed.

Lemma admin_change_own call id token s s' route :
  admin_call call = Some (id, token) → relay_change sha256 call s = Ok s' → s.(RegistryState.routes) !! id = Some route →
  sha256 (as_bytes token) = route.(RouteRecord.admin_digest).
Proof.
  intros Hcall Hc Hl. destruct call; try done; injection Hcall as <- <-; cbn [relay_change] in Hc; checks_ok;
    unfold register_route_in, register_presence_in, register_device_grant_in, revoke_device_in, route_of in Hc; rewrite ?Hl in Hc; checks_ok;
    simplify_eq/=; try (by eapply require_admin_digest).
  unfold digest_matches in *. simpl_ok.
  symmetry. tauto.
Qed.

(** A device's change of its push address. *)
Lemma granted_inv route_id slot_id token code s route :
  granted sha256 route_id slot_id token code s = Ok route →
  s.(RegistryState.routes) !! route_id = Some route ∧
  ∃ grant, route.(RouteRecord.grants) !! slot_id = Some grant ∧ sha256 (as_bytes token) = grant.(GrantRecord.token_digest).
Proof.
  unfold granted, route_of, digest_matches. intros Hg. checks_ok. split; [done|]. eexists. split; [done|]. by simpl_ok.
Qed.

(** What one requested call may change. *)
Lemma requested_change later frame call s s' route_id route :
  requested_call later frame = Some call → relay_change sha256 call s = Ok s' → s.(RegistryState.routes) !! route_id = Some route →
  route_unchanged route_id s s' ∨ holds_admin frame route ∨ changes_own_push frame route_id route s s'.
Proof.
  intros Hreq Hc Hl.
  assert (∀ id text token, admin_call call = Some (id, token) → admin_token_of frame = Some text → from_opaque KRouteAdminToken text = Some token →
            route_unchanged route_id s s' ∨ holds_admin frame route) as Hadmin.
  { intros id text token Hcall Ht Hp. destruct (decide (route_id = id)) as [->|Hne]; [right|left; by eapply admin_change_other].
    exists text, token. split_and!; [done..|]. by eapply admin_change_own. }
  destruct frame; cbn [requested_call] in Hreq; try done; repeat (apply bind_Some in Hreq as (? & ? & Hreq)); injection Hreq as <-;
    try (by destruct (Hadmin _ _ _ eq_refl eq_refl ltac:(eassumption)); [left|right; left]); clear Hadmin; cbn [relay_change] in Hc;
    unfold register_push_in, delete_push_in in Hc; checks_ok;
    match goal with Hg : granted _ _ _ _ _ _ = Ok _ |- _ => apply granted_inv in Hg as (Hroute & grant & Hgrant & Hd) end;
    (destruct (decide (route_id = x)) as [->|Hne]; [right; right|left]).
  - simplify_eq. eexists access_token, _, _, grant. split_and!; [done..| |done|done|done|].
    + cbn [slot_of]. repeat match goal with H : from_opaque _ _ = Some _ |- _ => rewrite H; clear H; cbn [mbind option_bind] end. done.
    + intros id slot Hid. simpl. destruct (decide (id = x)) as [->|Hne]; [|by rewrite lookup_insert_ne].
      rewrite lookup_insert_eq. simpl. rewrite lookup_insert_ne by congruence. destruct (RegistryState.pushes s !! x) as [pushes|]; simpl; [done|apply lookup_empty].
  - split; simpl; [done|]. by rewrite lookup_insert_ne.
  - simplify_eq. eexists access_token, _, _, grant. split_and!; [done..| |done|done|apply remove_push_routes|].
    + cbn [slot_of]. repeat match goal with H : from_opaque _ _ = Some _ |- _ => rewrite H; clear H; cbn [mbind option_bind] end. done.
    + intros id slot. apply remove_push_other.
  - by apply remove_push_unchanged.
Qed.

(** C17: A frame leaves a route and its push addresses as they are, unless it carries the
    administrator's token of the route, or it carries the token of a granted slot of the route and
    changes that slot's push address only. *)
Theorem changes_need_credentials now later connection frame sv connection' sv' outcome route_id route
    (Hhandled : handle sha256 now later connection frame sv = (connection', sv', outcome))
    (Hroute : (registry_state sv).(RegistryState.routes) !! route_id = Some route) :
  route_unchanged route_id (registry_state sv) (registry_state sv') ∨ holds_admin frame route ∨
  changes_own_push frame route_id route (registry_state sv) (registry_state sv').
Proof.
  apply handle_effects in Hhandled as [[[Hr _]|(call & res & Hreq & Hcall)] _].
  - left. unfold registry_state. by rewrite Hr.
  - rewrite call_relay_commits in Hcall. apply registry_commit_state in Hcall as [_ [Hs|Hs]].
    + left. unfold registry_state. by rewrite Hs.
    + by eapply requested_change.
Qed.

End credentials.

(** ** The service as a sequence *)

Section service_nodes.
Context `{B64 : Base64, Codec : JsonCodec RegistryState, !JsonCodecOk RegistryState}.
Variable sha256 : list ascii → list ascii.
Variable path : string.
Hypothesis path_is_no_temporary : ends_with ".tmp" path = false.

Inductive ServiceNode : Type :=
| ServiceUp (sv : ControlService)
| ServiceDown (d : PrivateDirectory).

(** A frame on some connection; a push provider that no longer knows an address;
    a stop of the service, wherever it was, and a start. *)
Inductive ServiceEvent : Type :=
| ServiceFrame (event : FrameEvent)
| ServiceUnregistered (dispatch : WakeDispatch)
| ServiceRestart.

Definition service_directory (n : ServiceNode) : PrivateDirectory :=
  match n with
  | ServiceUp sv => sv.(ControlService.directory)
  | ServiceDown d => d
  end.

Definition apply_service (n : ServiceNode) (event : ServiceEvent) : ServiceNode :=
  match event, n with
  | ServiceRestart, _ =>
      match Registry_open (Some path) (service_directory n) with
      | (d, Ok r) => ServiceUp (ControlService.mk r ∅ d)
      | (d, Err _) => ServiceDown d
      end
  | ServiceFrame event, ServiceUp sv => ServiceUp (handle_event sha256 sv event)
  | ServiceUnregistered dispatch, ServiceUp sv => ServiceUp (delete_unregistered_push dispatch sv).1
  | _, ServiceDown _ => n
  end.

Definition run_service (n : ServiceNode) (events : list ServiceEvent) : ServiceNode := foldl apply_service n events.

(** The calls that frames ask for carry tokens with a digest that is not the
    reserved one. *)
Definition frame_sane (event : ServiceEvent) : Prop :=
  match event with
  | ServiceFrame event => ∀ call, requested_call event.(FrameEvent.later) event.(FrameEvent.frame) = Some call → call_sane sha256 call
  | _ => True
  end.

Definition service_sane (events : list ServiceEvent) : Prop := ∀ event, event ∈ events → frame_sane event.

Definition as_relay (n : ServiceNode) : RelayNode :=
  match n with
  | ServiceUp sv => RelayUp sv.(ControlService.registry) sv.(ControlService.directory)
  | ServiceDown d => RelayDown d
  end.

(** Calls a service makes: sane ones, and none that draws a slot again. *)
Definition service_call (event : RelayEvent) : Prop :=
  match event with
  | RelayOp call => call_sane sha256 call ∧ ∀ id slot_id, ¬ regrants call id slot_id
  | RelayRestart => True
  end.

Lemma requested_call_draws_none later frame call id slot_id : requested_call later frame = Some call → ¬ regrants call id slot_id.
Proof. destruct frame; cbn [requested_call]; try done; intros Hreq; repeat (apply bind_Some in Hreq as (? & ? & Hreq)); injection Hreq as <-; simpl; tauto. Qed.

Lemma apply_service_is_relay n event :
  frame_sane event → ∃ calls, Forall service_call calls ∧ as_relay (apply_service n event) = run_relay sha256 path (as_relay n) calls.
Proof.
  intros Hsane. destruct event as [event|dispatch|]; simpl.
  - destruct n as [sv|d]; [|by exists []]. unfold handle_event. destruct (handle _ _ _ _ _ _) as [[connection' sv'] outcome] eqn:E. simpl.
    apply handle_effects in E as [[[Hr Hd]|(call & res & Hreq & Hcall)] _].
    + exists []. split; [constructor|]. simpl. by rewrite Hr, Hd.
    + exists [RelayOp call]. split; [apply Forall_singleton; split; [by apply Hsane|intros *; by eapply requested_call_draws_none]|]. simpl. by rewrite Hcall.
  - destruct n as [sv|d]; [|by exists []]. exists [RelayOp (DeletePushForService dispatch.(WakeDispatch.route_id) dispatch.(WakeDispatch.slot_id))].
    split; [apply Forall_singleton; split; [done|by intros ?? []]|]. unfold delete_unregistered_push. destruct (commit_change _ sv) as [sv' r] eqn:E.
    apply commit_change_effect in E as (res & Hop & _). simpl. by rewrite Hop.
  - exists [RelayRestart]. split; [by apply Forall_singleton|]. simpl. unfold restart_relay.
    assert (node_directory (as_relay n) = service_directory n) as -> by by destruct n. by destruct (Registry_open _ _) as [d [r|e]].
Qed.

Lemma run_service_is_relay n events :
  service_sane events → ∃ calls, Forall service_call calls ∧ as_relay (run_service n events) = run_relay sha256 path (as_relay n) calls.
Proof.
  revert n. induction events as [|event events IH]; intros n Hs; [by exists []|].
  destruct (apply_service_is_relay n event) as (calls1 & Hc1 & H1); [apply Hs; by left|].
  destruct (IH (apply_service n event)) as (calls2 & Hc2 & H2); [intros e He; apply Hs; by right|].
  exists (calls1 ++ calls2). split; [by apply Forall_app|]. simpl. rewrite H2, H1. unfold run_relay. by rewrite foldl_app.
Qed.

(** Facts of the registry that hold of the service. *)
Lemma run_service_ok (Q : RegistryState → Prop) n events :
  (∀ s, Q s → Q (forget_presence s)) → (∀ s s', relay_step (λ _ _, False) s s' → Q s → Q s') → service_sane events →
  relay_node_ok path (λ s, relay_ok s ∧ Q s) (as_relay n) → relay_node_ok path (λ s, relay_ok s ∧ Q s) (as_relay (run_service n events)).
Proof.
  intros Hforget Hstep Hs Hn. destruct (run_service_is_relay n events Hs) as (calls & Hc & ->). apply run_relay_ok; [done..| |done].
  intros event Hin. rewrite Forall_forall in Hc. specialize (Hc event Hin). destruct event as [call|]; [|done]. destruct Hc as [Hsane Hno].
  split; [done|]. intros s s' Hst HQ. eapply Hstep; [|done]. eapply relay_step_mono; [|done]. intros id slot Hre. by eapply Hno.
Qed.

(** ** Errors of the file *)

(** The errors of an operation on files satisfy [P]. *)
Definition fails_with {F T} (P : F → Prop) (op : vault F T) : Prop :=
  ∀ d, match op d with
       | (_, Ok _) => True
       | (_, Err e) => P e
       end.

Lemma fw_bind {F T U} (P : F → Prop) (op : vault F T) (k : T → vault F U) :
  fails_with P op → (∀ v, fails_with P (k v)) → fails_with P (op ≫= k).
Proof. intros Hop Hk d. specialize (Hop d). unfold mbind, vault_bind. destruct (op d) as [d' [v|e]]; [apply Hk|done]. Qed.

Lemma fw_attempt {F} (P : F → Prop) e : P e → fails_with P (vault_attempt e).
Proof. intros He d. unfold vault_attempt, mbind, vault_bind, vault_fault. simpl. by destruct (default _ _). Qed.

Lemma fw_discard {F T} (P : F → Prop) name (op : vault F T) : fails_with P op → fails_with P (removing_on_error name op).
Proof. intros Hop d. specialize (Hop d). unfold removing_on_error. by destruct (op d) as [d' [v|e]]. Qed.

Lemma fw_files {F T} (P : F → Prop) (k : gmap string (list ascii) → vault F T) : (∀ files, fails_with P (k files)) → fails_with P (vault_files ≫= k).
Proof. intros Hk. by apply fw_bind. Qed.

Definition is_storage_error (e : RemoteError) : Prop := RemoteError_code e = RemoteErrorCode.Internal.

Lemma fw_owner : fails_with is_storage_error ensure_owner_only.
Proof. intros d. unfold ensure_owner_only, mbind, vault_bind, vault_fault. simpl. by destruct (default _ _) as [[]|]. Qed.

Lemma fw_write_and_replace temporary target bytes : fails_with is_storage_error (write_and_replace RemoteError.Storage temporary target bytes).
Proof.
  unfold write_and_replace, write_all, atomic_replace. apply fw_bind.
  - apply fw_bind; [done|]. intros [n|]; [by apply fw_bind|done].
  - intros _. apply fw_bind; [by apply fw_attempt|]. intros _. apply fw_bind; [by apply fw_attempt|]. intros _. apply fw_files. intros files.
    destruct (files !! temporary); [|done]. do 2 (apply fw_bind; [done|]; intros _). apply fw_bind; [by apply fw_attempt|]. intros _. by apply fw_attempt.
Qed.

Lemma fw_write_state s : fails_with is_storage_error (write_state path s).
Proof.
  unfold write_state, prepare_private_parent, secure_private_file.
  apply fw_bind; [apply fw_bind; [by apply fw_attempt|intros _; apply fw_owner]|]. intros _. destruct (to_json _); [|done].
  apply fw_bind; [done|]. intros random. apply fw_bind.
  - unfold vault_exists. apply fw_bind; [by apply fw_files|]. intros []; [done|]. apply fw_bind; [by apply fw_attempt|done].
  - intros _. apply fw_bind; [by apply fw_attempt|]. intros _. apply fw_bind; [apply fw_owner|]. intros _. apply fw_discard, fw_write_and_replace.
Qed.

Lemma registry_commit_result mutate r d r' d' res :
  r.(Registry.path) = Some path → registry_commit mutate r d = (r', d', res) →
  match res with
  | Ok _ => mutate r.(Registry.state) = Ok r'.(Registry.state)
  | Err e => r' = r ∧ (mutate r.(Registry.state) = Err e ∨ is_storage_error e)
  end.
Proof.
  intros Hp. unfold registry_commit. rewrite Hp. destruct (mutate _) as [next|e]; [|intros [= <- <- <-]; auto].
  pose proof (fw_write_state next d) as Hw. destruct (write_state path next d) as [d1 [u|e]]; intros [= <- <- <-]; auto.
Qed.

(** ** Revocation *)

(** The slot was granted on the route, and may have been revoked since. *)
Definition slot_known (route_id : RouteId) (slot_id : DeviceSlotId) (s : RegistryState) : Prop :=
  ∃ route, s.(RegistryState.routes) !! route_id = Some route ∧
    (is_Some (route.(RouteRecord.grants) !! slot_id) ∨ is_Some (route.(RouteRecord.revoked) !! slot_id)).

Lemma revoked_or_known route_id admin_token slot_id s e :
  slot_known route_id slot_id s → authorize_admin sha256 route_id admin_token s = Ok tt →
  revoke_device_in sha256 route_id admin_token slot_id s = Err e → slot_revoked route_id slot_id s.
Proof.
  intros (route & Hl & Hknown). unfold authorize_admin, revoke_device_in, route_of. rewrite Hl. simpl. intros ->. simpl.
  destruct (route.(RouteRecord.grants) !! slot_id) eqn:Hg; [done|]. intros _. exists route. split_and!; [done..|]. by destruct Hknown as [[]|].
Qed.

(** A revocation that was answered leaves the slot revoked. *)
Lemma answered_revocation now later request_id operation_id issued_at_ms route slot admin_token route_id slot_id sv sv' v :
  sv.(ControlService.registry).(Registry.path) = Some path →
  slot_of (RemoteControlFrame.RevokeDeviceGrant request_id operation_id issued_at_ms route slot admin_token) = Some (route_id, slot_id) →
  slot_known route_id slot_id (registry_state sv) →
  operate sha256 now later (RemoteControlFrame.RevokeDeviceGrant request_id operation_id issued_at_ms route slot admin_token) sv = (sv', Ok v) →
  slot_revoked route_id slot_id (registry_state sv').
Proof.
  intros Hpath Hslot Hknown Hop. cbn [slot_of operate] in *. apply bind_Some in Hslot as (? & Hr & Hslot). apply bind_Some in Hslot as (? & Hs & [= -> ->]).
  unfold do_revoke in Hop. repeat match type of Hop with (pure_control _ ≫= _) _ = _ => apply pure_bind_inv in Hop as [(? & _ & [=] & _)|(? & ? & Hop)] end.
  repeat match goal with H : _ = Ok _ |- _ => apply parse_some in H end. simplify_eq.
  apply ask_bind_inv in Hop as [(? & _ & [=] & _)|([] & Hauth & Hop)].
  apply (accept_revocation_inv _ _ (RemoteControlFrame.RevokeDeviceGrant request_id operation_id issued_at_ms route slot admin_token)) in Hop
    as [[[=] _]|(sv1 & replayed & (Hreg & _) & Hop)]; [|done].
  unfold mbind, control_bind in Hop. destruct (revoke_or_replay _ _ _ _ _ _) as [sv2 [[]|e]] eqn:E; [|done]. injection Hop as <- _.
  apply revoke_or_replay_effect in E as (res & Hc & _ & Hres). rewrite call_relay_commits, Hreg in Hc. apply registry_commit_result in Hc; [|done].
  destruct (Hres eq_refl) as [->|(e & -> & Hcode)]; [by eapply revoke_change|].
  destruct Hc as [Hsame [Hc|Hc]]; [|unfold is_storage_error in Hc; congruence]. unfold registry_state. rewrite Hsame. by eapply revoked_or_known.
Qed.

Lemma looked_up_state now frame sv sv' : looked_up sha256 now frame sv sv' → registry_state sv' = registry_state sv.
Proof. intros (Hr & _). unfold registry_state. by rewrite Hr. Qed.

(** A revoked slot cannot be registered again. *)
Lemma revoked_slot_grant route_id slot_id access_token admin_token r d r' d' res :
  slot_revoked route_id slot_id r.(Registry.state) →
  register_device_grant sha256 (DeviceGrantRegistration.mk route_id slot_id access_token admin_token) r d = (r', d', res) →
  r' = r ∧ is_ok res = false.
Proof.
  intros (route & Hl & _ & [digest Hd]). unfold register_device_grant, registry_commit, register_device_grant_in, route_of. simpl. rewrite Hl. simpl.
  destruct (require_admin _ _ _ _); simpl; [rewrite Hd; simpl|]; by intros [= <- <- <-].
Qed.

(** A frame that names a revoked slot, other than to revoke it, is refused. *)
Lemma revoked_slot_frames now later frame route_id slot_id sv sv' a :
  slot_of frame = Some (route_id, slot_id) → is_revocation frame = false → slot_revoked route_id slot_id (registry_state sv) →
  operate sha256 now later frame sv = (sv', a) → is_ok a = false ∧ registry_state sv' = registry_state sv.
Proof.
  intros Hslot Hno Hrev Hop. pose proof (revoked_slot_is_refused sha256 route_id slot_id _ Hrev) as (_ & Hauth & Hpush & _).
  destruct frame; try done;
    match type of Hop with operate _ _ _ ?f _ = _ =>
      cbn [slot_of operate] in *; apply bind_Some in Hslot as (? & Hr & Hslot); apply bind_Some in Hslot as (? & Hs & [= -> ->]);
      unfold do_register_grant, do_resolve, do_replace_push, do_delete_push, do_wake, device_operation in Hop; control_steps f
    end; try done;
    repeat match goal with H : _ = Ok _ |- _ => apply parse_some in H end; simplify_eq; try (by rewrite Hauth in *);
    repeat match goal with H : looked_up _ _ _ _ _ |- _ => apply looked_up_state in H end; try done.
  - match goal with Hc : register_device_grant _ _ _ _ = _ |- _ => apply revoked_slot_grant in Hc as [Hreg _]; [|by unfold registry_state in *; congruence] end.
    split; [done|]. unfold registry_state in *. congruence.
  - match goal with Hc : register_device_grant _ _ _ _ = _ |- _ => apply revoked_slot_grant in Hc as [_ [=]]; by unfold registry_state in *; congruence end.
  - match goal with Hp : push_address _ _ _ _ _ = Ok _, He : registry_state _ = registry_state _ |- _ =>
      rewrite He in Hp; match type of Hp with push_address _ _ _ ?token _ = _ => specialize (Hpush token) end; by rewrite Hp in Hpush end.
Qed.

(** *** The file follows the memory *)

Lemma relay_file_unique f s s' : relay_file path f s → relay_file path f s' → s = s'.
Proof. unfold relay_file. destruct (f !! path); [|congruence]. intros (s1 & i1 & H1 & ->) (s2 & i2 & H2 & ->). congruence. Qed.

(** A slot that is revoked in memory is revoked in the file. *)
Definition file_revokes (n : RelayNode) : Prop :=
  match n with
  | RelayUp r d => ∀ s id slot_id, relay_file path d.(PrivateDirectory.files) s → slot_revoked id slot_id r.(Registry.state) → slot_revoked id slot_id s
  | RelayDown _ => True
  end.

Definition node_ok (n : RelayNode) : Prop := relay_node_ok path (λ s, relay_ok s ∧ hosts_are_present s) n ∧ file_revokes n.

Lemma file_revokes_op r d call :
  node_ok (RelayUp r d) → service_call (RelayOp call) → file_revokes (apply_event sha256 path (RelayUp r d) (RelayOp call)).
Proof.
  intros [[(Hpath & _ & _) (s0 & Hs0 & _)] Hf] [Hsane Hno]. simpl. rewrite call_relay_commits. unfold registry_commit. rewrite Hpath.
  destruct (relay_change _ _ _) as [next|e] eqn:Hc; [|exact Hf]. apply relay_change_step in Hc; [|done].
  assert (∀ id slot_id, slot_revoked id slot_id r.(Registry.state) → slot_revoked id slot_id (forget_presence next)) as Hnext.
  { intros id slot_id Hrev. apply slot_revoked_forget. by eapply slot_revoked_step. }
  pose proof (write_state_file path path_is_no_temporary s0 next d Hs0) as Hw. destruct (write_state path next d) as [d1 [u|e]]; intros s id slot_id Hs Hrev.
  - destruct Hw as [Hw _]. rewrite (relay_file_unique _ _ _ Hs Hw). by apply slot_revoked_forget.
  - destruct Hw as [[Hw|Hw] _]; rewrite (relay_file_unique _ _ _ Hs Hw); [by eapply Hf|by apply Hnext].
Qed.

Lemma file_revokes_restart n : node_ok n → file_revokes (restart_relay path n).
Proof.
  intros [[_ (s & Hs & Hok & _)] _]. unfold restart_relay. pose proof (open_relay path path_is_no_temporary s _ Hs Hok) as Ho.
  destruct (Registry_open _ _) as [d' [r|e]]; [|done]. destruct Ho as (-> & Hf & _). intros s' id slot_id Hs'. by rewrite (relay_file_unique _ _ _ Hs' Hf).
Qed.

Lemma apply_event_node_ok n event : service_call event → node_ok n → node_ok (apply_event sha256 path n event).
Proof.
  intros Hcall Hn. split.
  - apply apply_event_ok; [done|apply hosts_are_present_forget| |apply Hn]. destruct event as [call|]; [|done]. split; [apply Hcall|].
    intros s s'. apply hosts_are_present_step.
  - destruct event as [call|]; [|by apply file_revokes_restart]. destruct n as [r d|d]; [by apply file_revokes_op|done].
Qed.

Lemma run_service_node_ok n events : service_sane events → node_ok (as_relay n) → node_ok (as_relay (run_service n events)).
Proof.
  intros Hs Hn. destruct (run_service_is_relay n events Hs) as (calls & Hc & ->). clear Hs. revert Hn. generalize (as_relay n) as m.
  induction Hc as [|event calls Hcall _ IH]; intros m Hm; [done|]. simpl. apply IH. by apply apply_event_node_ok.
Qed.

Lemma first_node_ok d0 : d0.(PrivateDirectory.files) !! path = None → node_ok (as_relay (ServiceDown d0)).
Proof. intros Hd. split; [by apply empty_node|done]. Qed.

(** C7: Once the relay has answered the revocation of a device slot, no later frame that names the
    slot, other than to revoke it, is answered or changes the registry, and no bearer token is that
    slot's: whatever frames of whatever connections come in between, whichever writes of the
    registry fail, and across restarts. That holds for a repeated revocation too, if the slot had
    been granted. *)
Theorem answered_revocations_hold d0 events sv event connection sv1 outcome route_id slot_id between sv2 last connection' sv3 outcome'
    (Hempty : d0.(PrivateDirectory.files) !! path = None) (Hsane : service_sane (events ++ ServiceFrame event :: between))
    (Hup : run_service (ServiceDown d0) events = ServiceUp sv)
    (Hrevocation : is_revocation event.(FrameEvent.frame) = true) (Hslot : slot_of event.(FrameEvent.frame) = Some (route_id, slot_id))
    (Hknown : slot_known route_id slot_id (registry_state sv))
    (Hhandled : handle sha256 event.(FrameEvent.now) event.(FrameEvent.later) event.(FrameEvent.connection) event.(FrameEvent.frame) sv
                  = (connection, sv1, outcome))
    (Hanswered : answered outcome = true)
    (Hbetween : run_service (ServiceUp sv1) between = ServiceUp sv2)
    (Hlast : slot_of last.(FrameEvent.frame) = Some (route_id, slot_id)) (Hasks : is_revocation last.(FrameEvent.frame) = false)
    (Hrefused : handle sha256 last.(FrameEvent.now) last.(FrameEvent.later) last.(FrameEvent.connection) last.(FrameEvent.frame) sv2
                  = (connection', sv3, outcome')) :
  answered outcome' = false ∧ registry_state sv3 = registry_state sv2 ∧
  ∀ bearer identity, authenticate_bearer sha256 bearer (registry_state sv2) = Ok identity →
    identity.(BearerIdentity.route_id) = route_id → identity.(BearerIdentity.slot_id) ≠ Some slot_id.
Proof.
  assert (node_ok (as_relay (ServiceUp sv))) as Hnode.
  { rewrite <-Hup. apply run_service_node_ok; [intros e He; apply Hsane; set_solver|by apply first_node_ok]. }
  assert (slot_revoked route_id slot_id (registry_state sv1)) as Hrev1.
  { apply handle_inv in Hhandled as [[-> Ha]|(a & Hop & Ha & _)].
    - rewrite Hanswered in Ha. specialize (Ha I). by destruct event.(FrameEvent.frame).
    - destruct a as [v|e]; [|by rewrite Ha in Hanswered]. destruct event.(FrameEvent.frame); try done.
      eapply answered_revocation; [apply Hnode|done..]. }
  assert (node_ok (as_relay (ServiceUp sv1))) as Hnode'.
  { assert (ServiceUp sv1 = run_service (ServiceUp sv) [ServiceFrame event]) as -> by (simpl; unfold handle_event; by rewrite Hhandled).
    apply run_service_node_ok; [intros e He; apply Hsane; set_solver|done]. }
  assert (relay_node_ok path (λ s, relay_ok s ∧ slot_revoked route_id slot_id s) (as_relay (ServiceUp sv1))) as Hnode1.
  { destruct Hnode' as [[(Hp & [Hok _] & Hf) (s & Hs & Hso & _)] Hfile]. split; [done|]. exists s. split_and!; [done..|]. by eapply Hfile. }
  apply (run_service_ok _ _ between) in Hnode1; [|apply slot_revoked_forget|intros s s'; apply slot_revoked_step; tauto|intros e He; apply Hsane; set_solver].
  rewrite Hbetween in Hnode1. destruct Hnode1 as [(_ & [_ Hrev] & _) _]. fold (registry_state sv2) in Hrev.
  assert (answered outcome' = false ∧ registry_state sv3 = registry_state sv2) as [Ha Hs].
  { apply handle_inv in Hrefused as [[-> Ha]|(a & Hop & Ha & _)].
    - split; [|done]. destruct (answered outcome'); [|done]. specialize (Ha I). by destruct last.(FrameEvent.frame).
    - eapply revoked_slot_frames in Hop as [Hok Hs]; [|done..]. by split; [apply Ha|]. }
  split_and!; [done..|]. by apply revoked_slot_is_refused.
Qed.
End service_nodes.
