(* ===== verification/RelayFaults.v ===== *)
(** * Where the relay refuses what it should serve

    The names of endpoints a host sends are not those the relay reads, and frames
    that carry no valid credential fill the cache of operations. *)
From stdpp Require Import prelude strings gmap.
From Stdlib Require Import ZArith Lia Ascii.
From S2P Require Import Prelude ProtoBase ProtoContent TransportControl TransportBootstrap PrivateFiles TransportRemote RelayIds RelayRegistry RelayRegistryProofs RelayPromises RelayControl RelayControlProofs RelayService.

Local Open Scope Z_scope.

(** The decoder takes the length the encoder writes: no padding, no rest. *)
Class Base64Strict `{Base64} : Prop := {
  b64_decode_length text bytes : b64_decode text = Some bytes → str_len text = (4 * Z.of_nat (length bytes) + 2) / 3
}.

(** The host that registers a route or its presence. *)
Definition endpoint_of (frame : RemoteControlFrame) : option string :=
  match frame with
  | RemoteControlFrame.RegisterRoute _ _ _ _ _ _ host_endpoint_id _ => Some host_endpoint_id
  | RemoteControlFrame.RegisterPresence _ _ _ _ _ host_endpoint_id _ _ => Some host_endpoint_id
  | _ => None
  end.

Section faults.
Context `{B64 : Base64, !Base64Strict, Codec : JsonCodec RegistryState}.
Variable sha256 : list ascii → list ascii.

Lemma opaque_text_length k text id : from_opaque k text = Some id → str_len text = (4 * Z.of_nat (fixed_len k) + 2) / 3.
Proof.
  unfold from_opaque. intros (bytes & Hd%b64_decode_length & Hl)%bind_Some. case_match eqn:He; [|done]. apply Nat.eqb_eq in He. by rewrite Hd, He.
Qed.

Lemma requested_endpoint later frame call endpoint :
  endpoint_of frame = Some endpoint → requested_call later frame = Some call → str_len endpoint = 43.
Proof.
  intros He Hreq. destruct frame; try done; injection He as <-; cbn [requested_call] in Hreq; repeat (apply bind_Some in Hreq as (? & ? & Hreq));
    match goal with H : from_opaque KHostEndpoint _ = Some _ |- _ => by apply opaque_text_length in H end.
Qed.

(** C38: A route or a presence whose endpoint is not named by exactly 43 characters, as the
    hexadecimal name of a host's key is not, is refused and not registered. *)
Theorem other_endpoint_names_are_refused now later connection frame endpoint sv connection' sv' outcome
    (Hendpoint : endpoint_of frame = Some endpoint) (Hother : str_len endpoint ≠ 43)
    (Hhandled : handle sha256 now later connection frame sv = (connection', sv', outcome)) :
  answered outcome = false ∧ registry_state sv' = registry_state sv.
Proof.
  assert (registry_state sv' = registry_state sv) as Hsame.
  { apply handle_effects in Hhandled as [[[Hr _]|(call & res & Hreq & _)] _]; [unfold registry_state; by rewrite Hr|].
    by apply (requested_endpoint _ _ _ endpoint) in Hreq. }
  split; [|done]. apply handle_inv in Hhandled as [[_ Ha]|(a & Hop & Ha & _)].
  - destruct (answered outcome); [|done]. specialize (Ha I). by destruct frame.
  - apply Ha. destruct frame; try done; match type of Hop with operate _ _ _ ?f _ = _ => injection Hendpoint as <-; cbn [operate] in Hop;
      unfold do_register_route, do_register_presence in Hop; control_steps f end; try done;
      match goal with H : parse_endpoint _ = Ok _ |- _ => by apply parse_some, opaque_text_length in H end.
Qed.

(** ** The cache of operations *)

(** A frame that is read, on a connection that said hello. *)
Definition is_next (connection : ControlConnection) (frame : RemoteControlFrame) : Prop :=
  connection.(ControlConnection.hello_complete) = true ∧ is_ok (expected_request frame connection) = true.

(** A registration of a route that is within the clock's tolerance, and its key. *)
Definition registration_key (event : FrameEvent) (key : ReplayKey) : Prop :=
  match event.(FrameEvent.frame) with
  | RemoteControlFrame.RegisterRoute _ operation_id issued_at_ms _ _ admin_token _ _ =>
      operation_key sha256 event.(FrameEvent.now) operation_id issued_at_ms admin_token = Ok key ∧
      is_next event.(FrameEvent.connection) event.(FrameEvent.frame)
  | _ => False
  end.

Lemma registration_recorded event key sv :
  registration_key event key →
  (handle_event sha256 sv event).(ControlService.replay) = (replay_check key event.(FrameEvent.now) sv.(ControlService.replay)).1.
Proof.
  unfold registration_key, handle_event, handle, handle_inner. destruct event as [connection now later frame]; simpl.
  destruct frame; try done. intros [Hk [Hhello Hnext]]. destruct (expected_request _ _) as [next|]; [|done]. rewrite Hhello. simpl.
  unfold do_register_route, accept_operation. unfold mbind at 1, control_bind at 1. rewrite Hk. fold (replay_check key now sv.(ControlService.replay)).
  destruct (replay_check _ _ _) as [replay [[]|code]]; [|done]. cbn [map_err].
  match goal with |- context [(?m ≫= ?k) ?s] => destruct ((m ≫= k) s) as [sv' a] eqn:E end.
  assert (sv'.(ControlService.replay) = replay) as <-; [|by destruct a as [[[]]|]].
  match goal with |- _ = _ => control_steps RemoteControlFrame.PushAddressDeleted; simpl in *; congruence end.
Qed.

(** The key of the operation a frame carries, when its time is within the
    clock's tolerance. *)
Definition event_key (event : FrameEvent) : option ReplayKey :=
  '(operation_id, issued_at_ms, credential) ← frame_operation event.(FrameEvent.frame);
  match operation_key sha256 event.(FrameEvent.now) operation_id issued_at_ms credential with
  | Ok key => Some key
  | Err _ => None
  end.

(** No entry was recorded before [at_]. *)
Definition recorded_since (at_ : Z) (entries : gmap ReplayKey Z) : Prop := map_Forall (λ _ seen_at, at_ ≤ seen_at) entries.

(** Entries that are young enough are all kept. *)
Lemma young_entries_kept at_ now entries :
  recorded_since at_ entries → now ≤ at_ + OPERATION_REPLAY_WINDOW_MS →
  filter (λ '(_, seen_at), saturating_sub_u64 now seen_at ≤ OPERATION_REPLAY_WINDOW_MS) entries = entries.
Proof.
  intros Hat Hn. apply map_filter_id. intros key seen_at Hl. specialize (Hat _ _ Hl). simpl in Hat.
  unfold saturating_sub_u64, OPERATION_REPLAY_WINDOW_MS in *. lia.
Qed.

(** The cache [later] has what the cache [sooner] has, and keys outside of
    [looked_up] are as before. *)
Record grown (at_ : Z) (looked_up : ReplayKey → Prop) (sooner later : gmap ReplayKey Z) : Prop := {
  grown_young : recorded_since at_ later;
  grown_kept : sooner ⊆ later;
  grown_other key : ¬ looked_up key → sooner !! key = None → later !! key = None
}.

(** A key that is looked up takes a place, unless the cache is full. *)
Lemma lookup_grows at_ key now entries :
  recorded_since at_ entries → at_ ≤ now → now ≤ at_ + OPERATION_REPLAY_WINDOW_MS →
  let later := (replay_check key now entries).1 in
  grown at_ (λ k, k = key) entries later ∧ (is_Some (later !! key) ∨ (REPLAY_CAPACITY ≤ size later)%nat).
Proof.
  intros Hat H0 Hn. unfold replay_check, check_and_record. rewrite (young_entries_kept at_) by done.
  destruct (entries !! key) as [t|] eqn:E; cbn [is_some]; [split; [by split|left; by eexists]|].
  destruct (Nat.leb_spec REPLAY_CAPACITY (size entries)) as [Hfull|_]; [split; [by split|by right]|]. simpl. split.
  - split; [by apply map_Forall_insert_2|by apply insert_subseteq|]. intros k Hk Hl. by rewrite lookup_insert_ne by congruence.
  - left. by rewrite lookup_insert_eq.
Qed.

(** Whatever is handled within the window, the cache only grows. *)
Lemma events_grow at_ events : ∀ sv,
  recorded_since at_ sv.(ControlService.replay) →
  (∀ event, event ∈ events → at_ ≤ event.(FrameEvent.now) ≤ at_ + OPERATION_REPLAY_WINDOW_MS) →
  let later := (handle_events sha256 sv events).(ControlService.replay) in
  grown at_ (λ k, ∃ event, event ∈ events ∧ event_key event = Some k) sv.(ControlService.replay) later ∧
  ∀ event key, event ∈ events → registration_key event key → is_Some (later !! key) ∨ (REPLAY_CAPACITY ≤ size later)%nat.
Proof.
  induction events as [|event events IH]; intros sv Hat Hnow; simpl; [split; [by split|by intros ? ? ?%elem_of_nil]|].
  destruct (Hnow event) as [H0 Hn]; [by left|].
  assert (grown at_ (λ k, event_key event = Some k) sv.(ControlService.replay) (handle_event sha256 sv event).(ControlService.replay)) as Hone.
  { unfold handle_event. destruct (handle _ _ _ _ _ _) as [[connection' sv'] outcome] eqn:E. simpl.
    apply handle_effects in E as [_ [->|(op & issued & credential & key & Hf & Hk & ->)]]; [by split|].
    destruct (lookup_grows at_ key event.(FrameEvent.now) sv.(ControlService.replay) Hat H0 Hn) as [[G1 G2 G3] _]. split; [done..|].
    intros k Hk'. apply G3. intros ->. apply Hk'. unfold event_key. rewrite Hf. simpl. by rewrite Hk. }
  destruct Hone as [G1 G2 G3]. destruct (IH (handle_event sha256 sv event) G1) as [[I1 I2 I3] Hreg]; [intros e He; apply Hnow; by right|].
  split; [split; [done|by etrans|]|].
  - intros k Hk Hl. apply I3; [intros (e & He & Hek); apply Hk; exists e; split; [by right|done]|].
    apply G3; [|done]. intros Hek. apply Hk. exists event. split; [by left|done].
  - intros e key [->|He]%elem_of_cons Hr; [|by apply (Hreg e)].
    destruct (lookup_grows at_ key event.(FrameEvent.now) sv.(ControlService.replay) Hat H0 Hn) as [_ Hk].
    rewrite <-(registration_recorded event key sv Hr) in Hk. destruct Hk as [[t Hk]|Hk]; [left|right].
    + exists t. by eapply lookup_weaken.
    + etrans; [exact Hk|]. by apply map_subseteq_size.
Qed.

(** Enough different registrations fill the cache. *)
Lemma registrations_fill at_ events keys sv :
  recorded_since at_ sv.(ControlService.replay) →
  (∀ event, event ∈ events → at_ ≤ event.(FrameEvent.now) ≤ at_ + OPERATION_REPLAY_WINDOW_MS) →
  NoDup keys → (REPLAY_CAPACITY ≤ length keys)%nat →
  (∀ key, key ∈ keys → ∃ event, event ∈ events ∧ registration_key event key) →
  (REPLAY_CAPACITY ≤ size (handle_events sha256 sv events).(ControlService.replay))%nat.
Proof.
  intros Hat Hnow Hnd Hmany Hsent. destruct (events_grow at_ events sv Hat Hnow) as [_ Hreg].
  set (later := (handle_events sha256 sv events).(ControlService.replay)) in *.
  destruct (Nat.le_gt_cases REPLAY_CAPACITY (size later)) as [?|Hlt]; [done|].
  rewrite <-(size_dom later). etrans; [exact Hmany|]. rewrite <-(size_list_to_set (C := gset ReplayKey) keys Hnd).
  apply subseteq_size. intros key Hk%elem_of_list_to_set. apply elem_of_dom.
  destruct (Hsent key Hk) as (event & Hin & He). destruct (Hreg event key Hin He); [done|lia].
Qed.

(** A full cache refuses every new key. *)
Lemma full_cache at_ now key entries :
  recorded_since at_ entries → (REPLAY_CAPACITY ≤ size entries)%nat → now ≤ at_ + OPERATION_REPLAY_WINDOW_MS → entries !! key = None →
  (replay_check key now entries).2 = Err RemoteErrorCode.LimitExceeded.
Proof.
  intros Hat Hs Hn Hl. unfold replay_check, check_and_record. rewrite (young_entries_kept at_) by done. rewrite Hl. cbn [is_some].
  by rewrite (proj2 (Nat.leb_le _ _) Hs).
Qed.

(** An operation, a revocation too, that a full cache refuses. *)
Lemma limited_operation now later frame operation_id issued_at_ms credential key sv sv' a :
  frame_operation frame = Some (operation_id, issued_at_ms, credential) →
  operation_key sha256 now operation_id issued_at_ms credential = Ok key →
  (replay_check key now sv.(ControlService.replay)).2 = Err RemoteErrorCode.LimitExceeded →
  operate sha256 now later frame sv = (sv', a) → is_ok a = false ∧ registry_state sv' = registry_state sv.
Proof.
  intros Hf Hk Hc Hop. destruct (is_revocation frame) eqn:Hrev.
  - destruct frame; try done. injection Hf as -> -> ->. cbn [operate] in Hop. unfold do_revoke in Hop.
    repeat match goal with
    | H : (pure_control _ ≫= _) _ = _ |- _ => apply pure_bind_inv in H as [(? & _ & -> & ->)|(? & _ & H)]
    | H : (ask _ _ ≫= _) _ = _ |- _ => apply ask_bind_inv in H as [(? & _ & -> & ->)|(? & _ & H)]
    end; try done.
    unfold mbind at 1, control_bind at 1, accept_revocation, accept_operation in Hop. rewrite Hk in Hop.
    fold (replay_check key now sv.(ControlService.replay)) in Hop. destruct (replay_check _ _ _) as [replay r]. simpl in Hc. subst r. by injection Hop as <- <-.
  - apply operate_operated in Hop as [Hl Ha|[Ha|Ha] _ _]; [split; [done|by eapply looked_up_state]| |by rewrite Hrev in Ha].
    destruct Ha as (op & issued & cred & key' & Hf' & Hk' & Hc' & _). rewrite Hf in Hf'. injection Hf' as <- <- <-. rewrite Hk in Hk'. injection Hk' as <-.
    unfold replay_check in Hc. congruence.
Qed.

(** C37: Registrations of routes take a place in the cache of operations before anything in them is
    checked: from a moment at which the cache holds nothing recorded earlier, as when the service
    has just started, and among any other frames, 4096 registrations with different operations that
    were read (the next request of a connection that said hello, with a time within the tolerance),
    whatever credentials they carried, make every operation that is new, a revocation too, be
    refused without effect until 120 seconds after that moment. *)
Theorem registrations_block_the_service sv at_ events keys event key connection' sv' outcome
    (Hyoung : recorded_since at_ sv.(ControlService.replay))
    (Hwithin : ∀ e, e ∈ event :: events → at_ ≤ e.(FrameEvent.now) ≤ at_ + OPERATION_REPLAY_WINDOW_MS)
    (Hdistinct : NoDup keys) (Hmany : (REPLAY_CAPACITY ≤ length keys)%nat)
    (Hsent : ∀ k, k ∈ keys → ∃ e, e ∈ events ∧ registration_key e k)
    (Hkey : event_key event = Some key) (Hnew : sv.(ControlService.replay) !! key = None)
    (Hother : ∀ e, e ∈ events → event_key e ≠ Some key)
    (Hhandled : handle sha256 event.(FrameEvent.now) event.(FrameEvent.later) event.(FrameEvent.connection) event.(FrameEvent.frame)
                  (handle_events sha256 sv events) = (connection', sv', outcome)) :
  answered outcome = false ∧ registry_state sv' = registry_state (handle_events sha256 sv events).
Proof.
  assert (∀ e, e ∈ events → at_ ≤ e.(FrameEvent.now) ≤ at_ + OPERATION_REPLAY_WINDOW_MS) as Hnow by (intros e He; apply Hwithin; by right).
  pose proof (registrations_fill at_ events keys sv Hyoung Hnow Hdistinct Hmany Hsent) as Hfull.
  destruct (events_grow at_ events sv Hyoung Hnow) as [[G1 _ G3] _].
  assert ((handle_events sha256 sv events).(ControlService.replay) !! key = None) as Hl.
  { apply G3; [|done]. intros (e & He & Hek). by apply (Hother e). }
  apply (full_cache at_ event.(FrameEvent.now) key) in Hl; [|done..|apply Hwithin; by left].
  unfold event_key in Hkey. apply bind_Some in Hkey as ([[operation_id issued_at_ms] credential] & Hop & Hkey).
  destruct (operation_key _ _ _ _ _) as [k|] eqn:Hok; [|done]. injection Hkey as ->.
  apply handle_inv in Hhandled as [[-> Ha]|(a & Ho & Ha & _)].
  - split; [|done]. destruct (answered outcome); [|done]. specialize (Ha I). congruence.
  - eapply limited_operation in Ho as [Hr Hs]; [|done..]. by split; [apply Ha|].
Qed.
End faults.
