(* ===== verification/HostRemote.v ===== *)
(** * Host: the remote control plane

    Models [crates/kaleido-hostd/src/remote_control.rs]: the route, the device
    slots and the outbox of revocations a host keeps in a private file, its JSON,
    and the requests it makes to the relay's control service.

    What is drawn at random is an argument.  The connection is any
    [RemoteControlExchange]; [PinnedRemoteControlSession] is the one of the
    product, over the client of [remote_client.rs]. *)
From stdpp Require Import prelude strings gmap.
From Stdlib Require Import ZArith Lia Ascii.
From S2P Require Import Prelude ProtoBase ProtoContent TransportControl TransportBootstrap TransportRemote RemoteClient PrivateFiles.

Local Open Scope Z_scope.

(** ** Data *)

Definition PRESENCE_TTL_SECONDS : Z := DEFAULT_PRESENCE_TTL_SECONDS.
Definition MAX_REMOTE_DEVICES : nat := 128.
Definition MAX_WAKE_REQUESTS_PER_MINUTE : nat := 4.
Definition STATE_REVISION : Z := 1.
Definition WAKE_WINDOW_MS : Z := 60000.
Definition MAX_DEVICE_ID_BYTES : Z := 256.

(** The path of the state file is kept apart. *)
Module RemoteControlConfig.
Record RemoteControlConfig : Type := mk {
  service_endpoint : string;
  service_public_key_pin : string;
  host_endpoint_id : string;
  relay_url : string
}.
End RemoteControlConfig.
Abbreviation RemoteControlConfig := RemoteControlConfig.RemoteControlConfig.

#[export] Instance RemoteControlConfig_eq_dec : EqDecision RemoteControlConfig.
Proof. solve_decision. Defined.

Module RemoteControlError.
Inductive RemoteControlError : Type :=
| Configuration
| Storage
| CorruptState
| ServiceIdentity
| Unavailable
| Rejected
| Contract
| UnknownDevice
| Revoked
| DeviceLimit
| WakeRateLimited
| Clock.
End RemoteControlError.
Abbreviation RemoteControlError := RemoteControlError.RemoteControlError.

#[export] Instance RemoteControlError_eq_dec : EqDecision RemoteControlError.
Proof. solve_decision. Defined.

Module DeviceStatus.
Inductive DeviceStatus : Type :=
| PendingGrant
| Registered
| RevokePending
| Revoked.
End DeviceStatus.
Abbreviation DeviceStatus := DeviceStatus.DeviceStatus.

#[export] Instance DeviceStatus_eq_dec : EqDecision DeviceStatus.
Proof. solve_decision. Defined.

Module SlotRecord.
Record SlotRecord : Type := mk {
  slot_id : string;
  access_token : option string;
  status : DeviceStatus
}.
End SlotRecord.
Abbreviation SlotRecord := SlotRecord.SlotRecord.

#[export] Instance SlotRecord_eq_dec : EqDecision SlotRecord.
Proof. solve_decision. Defined.

Definition SlotRecord_set_status (v : DeviceStatus) (r : SlotRecord) : SlotRecord := {|
  SlotRecord.slot_id := r.(SlotRecord.slot_id);
  SlotRecord.access_token := r.(SlotRecord.access_token);
  SlotRecord.status := v
|}.

Definition SlotRecord_set_access_token (v : option string) (r : SlotRecord) : SlotRecord := {|
  SlotRecord.slot_id := r.(SlotRecord.slot_id);
  SlotRecord.access_token := v;
  SlotRecord.status := r.(SlotRecord.status)
|}.

Module PendingRevoke.
Record PendingRevoke : Type := mk {
  device_id : string;
  slot_id : string;
  operation_id : string;
  enqueued_at_ms : Z
}.
End PendingRevoke.
Abbreviation PendingRevoke := PendingRevoke.PendingRevoke.

#[export] Instance PendingRevoke_eq_dec : EqDecision PendingRevoke.
Proof. solve_decision. Defined.

Module DurableState.
Record DurableState : Type := mk {
  route_id : string;
  route_hint : string;
  admin_token : string;
  service_endpoint : string;
  service_public_key_pin : string;
  host_endpoint_id : string;
  relay_url : string;
  devices : gmap string SlotRecord;
  revoke_outbox : list PendingRevoke
}.
End DurableState.
Abbreviation DurableState := DurableState.DurableState.

#[export] Instance DurableState_eq_dec : EqDecision DurableState.
Proof. solve_decision. Defined.

Definition DurableState_set_devices (v : gmap string SlotRecord) (r : DurableState) : DurableState := {|
  DurableState.route_id := r.(DurableState.route_id);
  DurableState.route_hint := r.(DurableState.route_hint);
  DurableState.admin_token := r.(DurableState.admin_token);
  DurableState.service_endpoint := r.(DurableState.service_endpoint);
  DurableState.service_public_key_pin := r.(DurableState.service_public_key_pin);
  DurableState.host_endpoint_id := r.(DurableState.host_endpoint_id);
  DurableState.relay_url := r.(DurableState.relay_url);
  DurableState.devices := v;
  DurableState.revoke_outbox := r.(DurableState.revoke_outbox)
|}.

Definition DurableState_set_revoke_outbox (v : list PendingRevoke) (r : DurableState) : DurableState := {|
  DurableState.route_id := r.(DurableState.route_id);
  DurableState.route_hint := r.(DurableState.route_hint);
  DurableState.admin_token := r.(DurableState.admin_token);
  DurableState.service_endpoint := r.(DurableState.service_endpoint);
  DurableState.service_public_key_pin := r.(DurableState.service_public_key_pin);
  DurableState.host_endpoint_id := r.(DurableState.host_endpoint_id);
  DurableState.relay_url := r.(DurableState.relay_url);
  DurableState.devices := r.(DurableState.devices);
  DurableState.revoke_outbox := v
|}.

Module RevokeCompletion.
Record RevokeCompletion : Type := mk {
  device_id : DeviceId;
  device_slot_id : string
}.
End RevokeCompletion.
Abbreviation RevokeCompletion := RevokeCompletion.RevokeCompletion.

#[export] Instance RevokeCompletion_eq_dec : EqDecision RevokeCompletion.
Proof. solve_decision. Defined.

Definition DeviceStatus_as_str (s : DeviceStatus) : string :=
  match s with
  | DeviceStatus.PendingGrant => "pending_grant"
  | DeviceStatus.Registered => "registered"
  | DeviceStatus.RevokePending => "revoke_pending"
  | DeviceStatus.Revoked => "revoked"
  end.

Definition DeviceStatus_parse (value : string) : result DeviceStatus RemoteControlError :=
  if String.eqb value "pending_grant" then Ok DeviceStatus.PendingGrant
  else if String.eqb value "registered" then Ok DeviceStatus.Registered
  else if String.eqb value "revoke_pending" then Ok DeviceStatus.RevokePending
  else if String.eqb value "revoked" then Ok DeviceStatus.Revoked
  else Err RemoteControlError.CorruptState.

Definition map_client_error (error : RemoteClientError) : RemoteControlError :=
  match error with
  | RemoteClientError.Security => RemoteControlError.ServiceIdentity
  | RemoteClientError.Rejected WireErrorCode.Revoked => RemoteControlError.Revoked
  | RemoteClientError.Rejected _ => RemoteControlError.Rejected
  | RemoteClientError.Contract => RemoteControlError.Contract
  | RemoteClientError.Connect | RemoteClientError.Io => RemoteControlError.Unavailable
  end.

(** ** JSON *)

(** [serde_json::Value]; a number that is no integer is kept as its text. *)
Inductive JsonValue : Type :=
| JsonNull
| JsonBool (value : bool)
| JsonInteger (value : Z)
| JsonFloat (text : string)
| JsonString (value : string)
| JsonArray (values : list JsonValue)
| JsonObject (fields : gmap string JsonValue).

Definition object_of (fields : list (string * JsonValue)) : JsonValue := JsonObject (list_to_map fields).

Definition device_to_value (entry : string * SlotRecord) : JsonValue :=
  object_of [("device_id", JsonString entry.1); ("slot_id", JsonString entry.2.(SlotRecord.slot_id));
             ("access_token", match entry.2.(SlotRecord.access_token) with None => JsonNull | Some value => JsonString value end);
             ("status", JsonString (DeviceStatus_as_str entry.2.(SlotRecord.status)))].

Definition pending_to_value (pending : PendingRevoke) : JsonValue :=
  object_of [("device_id", JsonString pending.(PendingRevoke.device_id)); ("slot_id", JsonString pending.(PendingRevoke.slot_id));
             ("operation_id", JsonString pending.(PendingRevoke.operation_id));
             ("enqueued_at_ms", JsonInteger pending.(PendingRevoke.enqueued_at_ms))].

Definition state_to_value (s : DurableState) : JsonValue :=
  object_of [("revision", JsonInteger STATE_REVISION); ("route_id", JsonString s.(DurableState.route_id));
             ("route_hint", JsonString s.(DurableState.route_hint)); ("admin_token", JsonString s.(DurableState.admin_token));
             ("service_endpoint", JsonString s.(DurableState.service_endpoint));
             ("service_public_key_pin", JsonString s.(DurableState.service_public_key_pin));
             ("host_endpoint_id", JsonString s.(DurableState.host_endpoint_id)); ("relay_url", JsonString s.(DurableState.relay_url));
             ("devices", JsonArray (map device_to_value (btree_entries s.(DurableState.devices))));
             ("revoke_outbox", JsonArray (map pending_to_value s.(DurableState.revoke_outbox)))].

Definition exact_object (value : JsonValue) (fields : list string) : result (gmap string JsonValue) RemoteControlError :=
  match value with
  | JsonObject object =>
      reject_if (negb (size object =? length fields)%nat || existsb (λ field, is_none (object !! field)) fields) RemoteControlError.CorruptState ;?
      Ok object
  | _ => Err RemoteControlError.CorruptState
  end.

Definition json_string (object : gmap string JsonValue) (field : string) : result string RemoteControlError :=
  match object !! field with
  | Some (JsonString value) => Ok value
  | _ => Err RemoteControlError.CorruptState
  end.

Definition json_optional_string (object : gmap string JsonValue) (field : string) : result (option string) RemoteControlError :=
  match object !! field with
  | Some JsonNull => Ok None
  | Some (JsonString value) => Ok (Some value)
  | _ => Err RemoteControlError.CorruptState
  end.

(** [Value::as_i64] *)
Definition json_integer (object : gmap string JsonValue) (field : string) : result Z RemoteControlError :=
  match object !! field with
  | Some (JsonInteger value) => if (i64_min <=? value) && (value <=? i64_max) then Ok value else Err RemoteControlError.CorruptState
  | _ => Err RemoteControlError.CorruptState
  end.

Definition json_array (object : gmap string JsonValue) (field : string) : result (list JsonValue) RemoteControlError :=
  match object !! field with
  | Some (JsonArray values) => Ok values
  | _ => Err RemoteControlError.CorruptState
  end.

Definition parse_device (devices : gmap string SlotRecord) (value : JsonValue) : result (gmap string SlotRecord) RemoteControlError :=
  let? object := exact_object value ["device_id"; "slot_id"; "access_token"; "status"] in
  let? device_id := json_string object "device_id" in
  let? slot_id := json_string object "slot_id" in
  let? access_token := json_optional_string object "access_token" in
  let? text := json_string object "status" in
  let? status := DeviceStatus_parse text in
  reject_if (is_some (devices !! device_id)) RemoteControlError.CorruptState ;?
  Ok (<[device_id := SlotRecord.mk slot_id access_token status]> devices).

Definition parse_pending (outbox : list PendingRevoke) (value : JsonValue) : result (list PendingRevoke) RemoteControlError :=
  let? object := exact_object value ["device_id"; "slot_id"; "operation_id"; "enqueued_at_ms"] in
  let? device_id := json_string object "device_id" in
  let? slot_id := json_string object "slot_id" in
  let? operation_id := json_string object "operation_id" in
  let? enqueued_at_ms := json_integer object "enqueued_at_ms" in
  Ok (outbox ++ [PendingRevoke.mk device_id slot_id operation_id enqueued_at_ms]).

Definition state_fields : list string :=
  ["revision"; "route_id"; "route_hint"; "admin_token"; "service_endpoint"; "service_public_key_pin"; "host_endpoint_id"; "relay_url";
   "devices"; "revoke_outbox"].

(** The fields of a state, before it is validated. *)
Definition value_to_state (value : JsonValue) : result DurableState RemoteControlError :=
  let? root := exact_object value state_fields in
  let? revision := json_integer root "revision" in
  reject_if (negb (revision =? STATE_REVISION)) RemoteControlError.CorruptState ;?
  let? device_values := json_array root "devices" in
  let? devices := try_fold parse_device ∅ device_values in
  let? pending_values := json_array root "revoke_outbox" in
  let? revoke_outbox := try_fold parse_pending [] pending_values in
  let? route_id := json_string root "route_id" in
  let? route_hint := json_string root "route_hint" in
  let? admin_token := json_string root "admin_token" in
  let? service_endpoint := json_string root "service_endpoint" in
  let? service_public_key_pin := json_string root "service_public_key_pin" in
  let? host_endpoint_id := json_string root "host_endpoint_id" in
  let? relay_url := json_string root "relay_url" in
  Ok (DurableState.mk route_id route_hint admin_token service_endpoint service_public_key_pin host_endpoint_id relay_url devices revoke_outbox).

(** ** Validation *)

Definition validate_host_endpoint_id (value : string) : result unit RemoteControlError :=
  reject_if (str_is_empty value || (128 <? str_len value) || negb (forallb is_ascii_alphanumeric (bytes_of value))) RemoteControlError.Configuration.

Definition validate_self_hosted_relay (value : string) : result unit RemoteControlError :=
  let lower := to_ascii_lowercase value in
  reject_if (negb (starts_with "https://" lower) || str_contains "staging" lower || str_contains "n0.computer" lower
             || str_contains "n0.iroh" lower || str_contains "iroh.link" lower
             || existsb (λ byte, is_ascii_whitespace byte || is_ascii_control byte || Ascii.eqb byte "@" || Ascii.eqb byte "#")
                  (bytes_of value)) RemoteControlError.Configuration.

Definition validate_device_id (value : string) : result unit RemoteControlError :=
  reject_if (str_is_empty value || (MAX_DEVICE_ID_BYTES <? str_len value)
             || existsb (λ byte, is_ascii_control byte || is_ascii_whitespace byte) (bytes_of value)) RemoteControlError.Contract.

Definition corrupt {T E} (r : result T E) : result T RemoteControlError := map_err (λ _, RemoteControlError.CorruptState) r.

(** What a device of a status keeps. *)
Definition should_have_token (status : DeviceStatus) : bool :=
  match status with
  | DeviceStatus.PendingGrant | DeviceStatus.Registered => true
  | _ => false
  end.

Definition DurableState_matches_config (s : DurableState) (config : RemoteControlConfig) : bool :=
  bool_decide (s.(DurableState.service_endpoint) = config.(RemoteControlConfig.service_endpoint))
  && bool_decide (s.(DurableState.service_public_key_pin) = config.(RemoteControlConfig.service_public_key_pin))
  && bool_decide (s.(DurableState.host_endpoint_id) = config.(RemoteControlConfig.host_endpoint_id))
  && bool_decide (s.(DurableState.relay_url) = config.(RemoteControlConfig.relay_url)).

Definition config_of (s : DurableState) : RemoteControlConfig :=
  RemoteControlConfig.mk s.(DurableState.service_endpoint) s.(DurableState.service_public_key_pin) s.(DurableState.host_endpoint_id)
    s.(DurableState.relay_url).

Section plane.
Context `{Base64, JsonCodec RemoteControlFrame, JsonCodec JsonValue, JsonCodec RemoteBootstrapWire}.

Definition validate_config (config : RemoteControlConfig) : result unit RemoteControlError :=
  map_err (λ _, RemoteControlError.Configuration) (validate_endpoint config.(RemoteControlConfig.service_endpoint)) ;?
  map_err (λ _, RemoteControlError.Configuration) (SpkiPin_parse config.(RemoteControlConfig.service_public_key_pin)) ;?
  validate_host_endpoint_id config.(RemoteControlConfig.host_endpoint_id) ;?
  validate_self_hosted_relay config.(RemoteControlConfig.relay_url).

(** Slots are distinct, and a token is kept as long as it may be used. *)
Definition validate_slot (s : DurableState) (slots : list string) (entry : string * SlotRecord) : result unit RemoteControlError :=
  let record := entry.2 in
  corrupt (validate_device_id entry.1) ;?
  corrupt (validate_random_id record.(SlotRecord.slot_id)) ;?
  reject_if (bool_decide (record.(SlotRecord.slot_id) ∈ slots)) RemoteControlError.CorruptState ;?
  reject_if (negb (Bool.eqb (should_have_token record.(SlotRecord.status)) (is_some record.(SlotRecord.access_token)))) RemoteControlError.CorruptState ;?
  match record.(SlotRecord.access_token) with
  | None => Ok tt
  | Some access_token =>
      corrupt (RemoteControlFrame_encode (RemoteControlFrame.RegisterDeviceGrant 2 s.(DurableState.route_hint) 0 s.(DurableState.route_id)
                 record.(SlotRecord.slot_id) access_token s.(DurableState.admin_token))) ;? Ok tt
  end.

Definition validate_pending (s : DurableState) (seen : list string) (pending : PendingRevoke) : result unit RemoteControlError :=
  corrupt (validate_device_id pending.(PendingRevoke.device_id)) ;?
  corrupt (validate_random_id pending.(PendingRevoke.slot_id)) ;?
  corrupt (validate_random_id pending.(PendingRevoke.operation_id)) ;?
  reject_if ((pending.(PendingRevoke.enqueued_at_ms) <? 0) || bool_decide (pending.(PendingRevoke.device_id) ∈ seen)) RemoteControlError.CorruptState ;?
  let? record := ok_or (s.(DurableState.devices) !! pending.(PendingRevoke.device_id)) RemoteControlError.CorruptState in
  reject_if (bool_decide (record.(SlotRecord.status) ≠ DeviceStatus.RevokePending)
             || bool_decide (record.(SlotRecord.slot_id) ≠ pending.(PendingRevoke.slot_id))) RemoteControlError.CorruptState.

Definition host_validate_state (s : DurableState) : result unit RemoteControlError :=
  corrupt (validate_random_id s.(DurableState.route_id)) ;?
  corrupt (validate_random_id s.(DurableState.route_hint)) ;?
  corrupt (validate_config (config_of s)) ;?
  corrupt (RemoteControlFrame_encode (RemoteControlFrame.RegisterPresence 2 s.(DurableState.route_hint) 0 s.(DurableState.route_id)
             s.(DurableState.admin_token) s.(DurableState.host_endpoint_id) s.(DurableState.relay_url) PRESENCE_TTL_SECONDS)) ;?
  reject_if (MAX_REMOTE_DEVICES <? size s.(DurableState.devices))%nat RemoteControlError.CorruptState ;?
  try_for_each_seen (λ entry, entry.2.(SlotRecord.slot_id)) (validate_slot s) [] (btree_entries s.(DurableState.devices)) ;?
  try_for_each_seen PendingRevoke.device_id (validate_pending s) [] s.(DurableState.revoke_outbox) ;?
  try_for_each (λ entry : string * SlotRecord,
    reject_if (negb (Bool.eqb (bool_decide (entry.2.(SlotRecord.status) = DeviceStatus.RevokePending))
                        (bool_decide (entry.1 ∈ map PendingRevoke.device_id s.(DurableState.revoke_outbox))))) RemoteControlError.CorruptState)
    (btree_entries s.(DurableState.devices)).

Definition parse_state (bytes : list ascii) : result DurableState RemoteControlError :=
  reject_if (bool_decide (bytes = []) || (1048576 <? Z.of_nat (length bytes))) RemoteControlError.CorruptState ;?
  let? value := ok_or (from_json bytes) RemoteControlError.CorruptState in
  let? s := value_to_state value.1 in
  host_validate_state s ;?
  Ok s.

(** *** The file *)

(** [map_err(|_| ..)] on an operation of files. *)
Definition vault_map_err {F G T} (e : F → G) (op : vault F T) : vault G T := λ d, let (d, r) := op d in (d, map_err e r).

Definition storage {T} (op : vault TransportError T) : vault RemoteControlError T := vault_map_err (λ _, RemoteControlError.Storage) op.

Definition PrivateFileStore_new (path : string) : vault TransportError unit :=
  _ ← prepare_private_directory;
  present ← vault_exists path;
  if (present : bool) then verify_private_path else mret tt.

Definition lift_vault {F T} (r : result T F) : vault F T := λ d, (d, r).

Definition persist_state (path : string) (s : DurableState) : vault RemoteControlError unit :=
  match to_json (state_to_value s) with
  | None => vault_fail RemoteControlError.Storage
  | Some encoded => storage (PrivateFileStore_store path encoded)
  end.

(** The bytes of the route's name and hint and of its token. *)
Definition DurableState_new (config : RemoteControlConfig) (route hint token : list ascii) : DurableState :=
  DurableState.mk (generate_remote_id route) (generate_remote_id hint) (generate_remote_token token)
    config.(RemoteControlConfig.service_endpoint) config.(RemoteControlConfig.service_public_key_pin)
    config.(RemoteControlConfig.host_endpoint_id) config.(RemoteControlConfig.relay_url) ∅ [].

(** [RemoteControlPlane::open]: the state it starts with. *)
Definition open_state (path : string) (config : RemoteControlConfig) (route hint token : list ascii) : vault RemoteControlError DurableState :=
  _ ← lift_vault (validate_config config);
  _ ← storage (PrivateFileStore_new path);
  content ← storage (PrivateFileStore_load path);
  s ← match content with
      | Some bytes => lift_vault (parse_state bytes)
      | None =>
          let generated := DurableState_new config route hint token in
          _ ← lift_vault (host_validate_state generated);
          _ ← persist_state path generated;
          committed ← storage (PrivateFileStore_load path);
          match committed with
          | None => vault_fail RemoteControlError.Storage
          | Some bytes => lift_vault (parse_state bytes)
          end
      end;
  if DurableState_matches_config s config then mret s else vault_fail RemoteControlError.Configuration.
End plane.

(** ** The connection *)

(** [trait RemoteControlExchange] *)
Class RemoteControlExchange (C : Type) := {
  next_request_id : C → result Z RemoteControlError;
  exchange : RemoteControlFrame → ExpectedRemoteResponse → C → C * result RemoteControlFrame RemoteControlError
}.

Module PinnedRemoteControlSession.
Record PinnedRemoteControlSession : Type := mk {
  client : RemoteControlClient;
  next_id : Z;
  usable : bool
}.
End PinnedRemoteControlSession.
Abbreviation PinnedRemoteControlSession := PinnedRemoteControlSession.PinnedRemoteControlSession.

Section pinned.
Context `{Base64, JsonCodec RemoteControlFrame}.

Definition session_exchange (frame : RemoteControlFrame) (expected : ExpectedRemoteResponse) (c : PinnedRemoteControlSession) :
    PinnedRemoteControlSession * result RemoteControlFrame RemoteControlError :=
  if negb c.(PinnedRemoteControlSession.usable) || bool_decide (frame_request_id frame ≠ Some c.(PinnedRemoteControlSession.next_id))
  then (c, Err RemoteControlError.Contract)
  else
    let following := checked_add_u64 c.(PinnedRemoteControlSession.next_id) 1 in
    match client_request frame expected c.(PinnedRemoteControlSession.client) with
    | (client, Err e) => (PinnedRemoteControlSession.mk client c.(PinnedRemoteControlSession.next_id) false, Err (map_client_error e))
    | (client, Ok response) =>
        (match following with
         | Some following => PinnedRemoteControlSession.mk client following true
         | None => PinnedRemoteControlSession.mk client c.(PinnedRemoteControlSession.next_id) false
         end, Ok response)
    end.

#[export] Instance pinned_exchange : RemoteControlExchange PinnedRemoteControlSession := {|
  next_request_id c := if c.(PinnedRemoteControlSession.usable) then Ok c.(PinnedRemoteControlSession.next_id) else Err RemoteControlError.Contract;
  exchange := session_exchange
|}.

(** [RemoteControlPlane::connect] once the socket is open. *)
Definition session_connected (stream : RemoteStream) : result PinnedRemoteControlSession RemoteControlError :=
  match client_connected stream with
  | (_, Err e) => Err (map_client_error e)
  | (client, Ok _) => Ok (PinnedRemoteControlSession.mk client 2 true)
  end.
End pinned.

(** ** The plane *)

Module RemoteControlPlane.
Record RemoteControlPlane : Type := mk {
  path : string;
  state : DurableState;
  wake_history : gmap string (list Z)
}.
End RemoteControlPlane.
Abbreviation RemoteControlPlane := RemoteControlPlane.RemoteControlPlane.

Definition RemoteControlPlane_set_state (v : DurableState) (r : RemoteControlPlane) : RemoteControlPlane := {|
  RemoteControlPlane.path := r.(RemoteControlPlane.path);
  RemoteControlPlane.state := v;
  RemoteControlPlane.wake_history := r.(RemoteControlPlane.wake_history)
|}.

Definition RemoteControlPlane_set_wake_history (v : gmap string (list Z)) (r : RemoteControlPlane) : RemoteControlPlane := {|
  RemoteControlPlane.path := r.(RemoteControlPlane.path);
  RemoteControlPlane.state := r.(RemoteControlPlane.state);
  RemoteControlPlane.wake_history := v
|}.

(** A plane with its directory and the connection it is given. *)
Record HostNode (C : Type) : Type := mkHost { host_plane : RemoteControlPlane; host_directory : PrivateDirectory; host_connection : C }.
Arguments mkHost {C} host_plane host_directory host_connection.
Arguments host_plane {C} h.
Arguments host_directory {C} h.
Arguments host_connection {C} h.

Definition host (C T : Type) : Type := HostNode C → HostNode C * result T RemoteControlError.

#[export] Instance host_ret C : MRet (host C) := λ T value h, (h, Ok value).
#[export] Instance host_bind C : MBind (host C) := λ T U k m h,
  match m h with
  | (h, Ok value) => k value h
  | (h, Err e) => (h, Err e)
  end.

Definition pure_host {C T} (r : result T RemoteControlError) : host C T := λ h, (h, r).

(** A query of the state. *)
Definition ask_host {C T} (query : DurableState → result T RemoteControlError) : host C T := λ h,
  (h, query h.(host_plane).(RemoteControlPlane.state)).

Definition device_of (device_id : DeviceId) (s : DurableState) : result SlotRecord RemoteControlError :=
  ok_or (s.(DurableState.devices) !! id_value device_id) RemoteControlError.UnknownDevice.

Definition active_credential (device_id : DeviceId) (s : DurableState) : result (string * string) RemoteControlError :=
  let? record := device_of device_id s in
  reject_if (bool_decide (record.(SlotRecord.status) = DeviceStatus.RevokePending) || bool_decide (record.(SlotRecord.status) = DeviceStatus.Revoked))
    RemoteControlError.Revoked ;?
  let? token := ok_or record.(SlotRecord.access_token) RemoteControlError.CorruptState in
  Ok (record.(SlotRecord.slot_id), token).

Definition pending_revoke_count (p : RemoteControlPlane) : nat := length p.(RemoteControlPlane.state).(DurableState.revoke_outbox).

(** The slot of a device, and whether it is of no use any more. *)
Definition device_slot (device_id : DeviceId) (p : RemoteControlPlane) : option (string * bool) :=
  (λ record, (record.(SlotRecord.slot_id), bool_decide (record.(SlotRecord.status) ≠ DeviceStatus.Registered))) <$>
  p.(RemoteControlPlane.state).(DurableState.devices) !! id_value device_id.

(** *** Changes of the state: the closures given to [commit] *)

Definition add_device (device_id : DeviceId) (slot token : string) (s : DurableState) : result DurableState RemoteControlError :=
  Ok (DurableState_set_devices (<[id_value device_id := SlotRecord.mk slot (Some token) DeviceStatus.PendingGrant]> s.(DurableState.devices)) s).

Definition mark_registered (device_id : DeviceId) (s : DurableState) : result DurableState RemoteControlError :=
  let? record := device_of device_id s in
  reject_if (bool_decide (record.(SlotRecord.status) ≠ DeviceStatus.PendingGrant)) RemoteControlError.Contract ;?
  Ok (DurableState_set_devices (<[id_value device_id := SlotRecord_set_status DeviceStatus.Registered record]> s.(DurableState.devices)) s).

Definition mark_revoke_pending (device_id : DeviceId) (pending : PendingRevoke) (s : DurableState) : result DurableState RemoteControlError :=
  let? record := device_of device_id s in
  Ok (DurableState_set_revoke_outbox (s.(DurableState.revoke_outbox) ++ [pending])
        (DurableState_set_devices
           (<[id_value device_id := SlotRecord_set_access_token None (SlotRecord_set_status DeviceStatus.RevokePending record)]> s.(DurableState.devices)) s)).

Definition mark_revoked (pending : PendingRevoke) (s : DurableState) : result DurableState RemoteControlError :=
  let? front := ok_or (head s.(DurableState.revoke_outbox)) RemoteControlError.Contract in
  reject_if (bool_decide (front.(PendingRevoke.device_id) ≠ pending.(PendingRevoke.device_id))
             || bool_decide (front.(PendingRevoke.slot_id) ≠ pending.(PendingRevoke.slot_id))
             || bool_decide (front.(PendingRevoke.operation_id) ≠ pending.(PendingRevoke.operation_id))) RemoteControlError.Contract ;?
  let? record := ok_or (s.(DurableState.devices) !! pending.(PendingRevoke.device_id)) RemoteControlError.UnknownDevice in
  reject_if (bool_decide (record.(SlotRecord.status) ≠ DeviceStatus.RevokePending)
             || bool_decide (record.(SlotRecord.slot_id) ≠ pending.(PendingRevoke.slot_id))) RemoteControlError.Contract ;?
  Ok (DurableState_set_revoke_outbox (tail s.(DurableState.revoke_outbox))
        (DurableState_set_devices
           (<[pending.(PendingRevoke.device_id) := SlotRecord_set_status DeviceStatus.Revoked record]> s.(DurableState.devices)) s)).

Section operations.
Context `{Base64, JsonCodec RemoteControlFrame, JsonCodec JsonValue, JsonCodec RemoteBootstrapWire}.
Context {C : Type} `{!RemoteControlExchange C}.

(** [commit]: the file is written before the new state is checked. *)
Definition host_commit (mutate : DurableState → result DurableState RemoteControlError) : host C unit := λ h,
  let plane := h.(host_plane) in
  match mutate plane.(RemoteControlPlane.state) with
  | Err e => (h, Err e)
  | Ok candidate =>
      match persist_state plane.(RemoteControlPlane.path) candidate h.(host_directory) with
      | (d, Err e) => (mkHost plane d h.(host_connection), Err e)
      | (d, Ok _) =>
          match host_validate_state candidate with
          | Err e => (mkHost plane d h.(host_connection), Err e)
          | Ok _ => (mkHost (RemoteControlPlane_set_state candidate plane) d h.(host_connection), Ok tt)
          end
      end
  end.

(** [next_request_id] and [exchange], for the frame made of the number. *)
Definition host_request (frame : Z → DurableState → RemoteControlFrame) (expected : ExpectedRemoteResponse) : host C RemoteControlFrame := λ h,
  match next_request_id h.(host_connection) with
  | Err e => (h, Err e)
  | Ok request_id =>
      let (c, r) := exchange (frame request_id h.(host_plane).(RemoteControlPlane.state)) expected h.(host_connection) in
      (mkHost h.(host_plane) h.(host_directory) c, r)
  end.

Definition check_clock (issued_at_ms : Z) : host C unit := pure_host (reject_if (issued_at_ms <? 0) RemoteControlError.Clock).

(** [matches!(response, ..)] *)
Definition require_kind (expected : ExpectedRemoteResponse) (response : RemoteControlFrame) : host C unit :=
  pure_host (reject_if (bool_decide (response_kind response ≠ Some expected)) RemoteControlError.Contract).

Definition host_register_route (operation : list ascii) (issued_at_ms : Z) : host C unit :=
  _ ← check_clock issued_at_ms;
  response ← host_request (λ request_id s,
    RemoteControlFrame.RegisterRoute request_id (generate_remote_id operation) issued_at_ms s.(DurableState.route_id) s.(DurableState.route_hint)
      s.(DurableState.admin_token) s.(DurableState.host_endpoint_id) s.(DurableState.relay_url)) ExpectedRemoteResponse.RouteRegistered;
  require_kind ExpectedRemoteResponse.RouteRegistered response.

Definition refresh_presence (operation : list ascii) (issued_at_ms : Z) : host C Z :=
  _ ← check_clock issued_at_ms;
  response ← host_request (λ request_id s,
    RemoteControlFrame.RegisterPresence request_id (generate_remote_id operation) issued_at_ms s.(DurableState.route_id) s.(DurableState.admin_token)
      s.(DurableState.host_endpoint_id) s.(DurableState.relay_url) PRESENCE_TTL_SECONDS) ExpectedRemoteResponse.PresenceRegistered;
  match response with
  | RemoteControlFrame.PresenceRegistered _ expires_at_ms =>
      _ ← pure_host (reject_if (expires_at_ms <=? issued_at_ms) RemoteControlError.Contract);
      mret expires_at_ms
  | _ => pure_host (Err RemoteControlError.Contract)
  end.

Definition pairing_uri (device_id : DeviceId) (expires_at_ms : Z) (s : DurableState) : result string RemoteControlError :=
  let? credential := active_credential device_id s in
  map_err (λ _, RemoteControlError.Contract)
    (encode_remote_bootstrap
       (RemotePairingBootstrap.mk s.(DurableState.route_id) s.(DurableState.route_hint) credential.1 credential.2 s.(DurableState.host_endpoint_id)
          s.(DurableState.relay_url) s.(DurableState.service_endpoint) s.(DurableState.service_public_key_pin) expires_at_ms)).

(** A new device is given its slot and token before the service is told. *)
Definition assign_slot (slot token : list ascii) (device_id : DeviceId) : host C unit := λ h,
  let devices := h.(host_plane).(RemoteControlPlane.state).(DurableState.devices) in
  if is_some (devices !! id_value device_id) then (h, Ok tt)
  else if (MAX_REMOTE_DEVICES <=? size devices)%nat then (h, Err RemoteControlError.DeviceLimit)
  else host_commit (add_device device_id (generate_remote_id slot) (generate_remote_token token)) h.

Definition grant_slot (operation : list ascii) (device_id : DeviceId) (issued_at_ms : Z) : host C unit :=
  credential ← ask_host (active_credential device_id);
  response ← host_request (λ request_id s,
    RemoteControlFrame.RegisterDeviceGrant request_id (generate_remote_id operation) issued_at_ms s.(DurableState.route_id) credential.1 credential.2
      s.(DurableState.admin_token)) ExpectedRemoteResponse.DeviceGrantRegistered;
  _ ← require_kind ExpectedRemoteResponse.DeviceGrantRegistered response;
  host_commit (mark_registered device_id).

Definition register_device_and_issue_pairing (slot token operation : list ascii) (device_id : DeviceId) (issued_at_ms bootstrap_expires_at_ms : Z) :
    host C string :=
  _ ← pure_host (validate_device_id (id_value device_id));
  _ ← pure_host (reject_if ((issued_at_ms <? 0) || (bootstrap_expires_at_ms <=? issued_at_ms)) RemoteControlError.Clock);
  _ ← assign_slot slot token device_id;
  record ← ask_host (device_of device_id);
  _ ← match record.(SlotRecord.status) with
      | DeviceStatus.RevokePending | DeviceStatus.Revoked => pure_host (Err RemoteControlError.Revoked)
      | DeviceStatus.PendingGrant => grant_slot operation device_id issued_at_ms
      | DeviceStatus.Registered => mret tt
      end;
  ask_host (pairing_uri device_id bootstrap_expires_at_ms).

Definition enqueue_revoke_after_local_registry (operation : list ascii) (device_id : DeviceId) (enqueued_at_ms : Z) : host C unit :=
  _ ← check_clock enqueued_at_ms;
  existing ← ask_host (device_of device_id);
  match existing.(SlotRecord.status) with
  | DeviceStatus.RevokePending | DeviceStatus.Revoked => mret tt
  | _ =>
      host_commit (mark_revoke_pending device_id
        (PendingRevoke.mk (id_value device_id) existing.(SlotRecord.slot_id) (generate_remote_id operation) enqueued_at_ms))
  end.

(** One device of a list of revoked ones: how many were enqueued. *)
Definition reconcile_one (operation : list ascii) (device_id : DeviceId) (reconciled_at_ms enqueued : Z) : host C Z := λ h,
  match h.(host_plane).(RemoteControlPlane.state).(DurableState.devices) !! id_value device_id with
  | None => (h, Ok enqueued)
  | Some record =>
      match record.(SlotRecord.status) with
      | DeviceStatus.RevokePending | DeviceStatus.Revoked => (h, Ok enqueued)
      | _ =>
          (_ ← enqueue_revoke_after_local_registry operation device_id reconciled_at_ms;
           pure_host (ok_or (checked_add_u64 enqueued 1) RemoteControlError.DeviceLimit)) h
      end
  end.

Fixpoint reconcile_each (revoked_devices : list (DeviceId * list ascii)) (reconciled_at_ms enqueued : Z) : host C Z :=
  match revoked_devices with
  | [] => mret enqueued
  | (device_id, operation) :: revoked_devices =>
      enqueued ← reconcile_one operation device_id reconciled_at_ms enqueued;
      reconcile_each revoked_devices reconciled_at_ms enqueued
  end.

(** Each device comes with what is drawn for its revocation. *)
Definition reconcile_local_revocations (revoked_devices : list (DeviceId * list ascii)) (reconciled_at_ms : Z) : host C Z :=
  _ ← check_clock reconciled_at_ms;
  reconcile_each revoked_devices reconciled_at_ms 0.

(** The relay's word that the slot is revoked is as good as its answer. *)
Definition request_revoke (pending : PendingRevoke) (issued_at_ms : Z) : host C unit := λ h,
  match next_request_id h.(host_connection) with
  | Err e => (h, Err e)
  | Ok request_id =>
      let s := h.(host_plane).(RemoteControlPlane.state) in
      let (c, r) := exchange (RemoteControlFrame.RevokeDeviceGrant request_id pending.(PendingRevoke.operation_id) issued_at_ms
                                s.(DurableState.route_id) pending.(PendingRevoke.slot_id) s.(DurableState.admin_token))
                      ExpectedRemoteResponse.DeviceGrantRevoked h.(host_connection) in
      let h := mkHost h.(host_plane) h.(host_directory) c in
      match r with
      | Ok response => require_kind ExpectedRemoteResponse.DeviceGrantRevoked response h
      | Err RemoteControlError.Revoked => (h, Ok tt)
      | Err e => (h, Err e)
      end
  end.

Definition flush_next_revoke (issued_at_ms : Z) : host C (option RevokeCompletion) :=
  _ ← check_clock issued_at_ms;
  front ← ask_host (λ s, Ok (head s.(DurableState.revoke_outbox)));
  match front with
  | None => mret None
  | Some pending =>
      _ ← request_revoke pending issued_at_ms;
      _ ← host_commit (mark_revoked pending);
      mret (Some (RevokeCompletion.mk (mkId pending.(PendingRevoke.device_id)) pending.(PendingRevoke.slot_id)))
  end.

(** The wake is counted before it is sent. *)
Definition count_wake (device_id : DeviceId) (issued_at_ms : Z) : host C unit := λ h,
  let plane := h.(host_plane) in
  let history := default [] (plane.(RemoteControlPlane.wake_history) !! id_value device_id) in
  let remember history := mkHost (RemoteControlPlane_set_wake_history (<[id_value device_id := history]> plane.(RemoteControlPlane.wake_history)) plane)
                            h.(host_directory) h.(host_connection) in
  if existsb (λ seen_at, issued_at_ms <? seen_at) history then (remember history, Err RemoteControlError.Clock)
  else
    let history := filter_b (λ seen_at, saturating_sub_i64 issued_at_ms seen_at <? WAKE_WINDOW_MS) history in
    if (MAX_WAKE_REQUESTS_PER_MINUTE <=? length history)%nat then (remember history, Err RemoteControlError.WakeRateLimited)
    else (remember (history ++ [issued_at_ms]), Ok tt).

Definition wake_device (operation wake : list ascii) (device_id : DeviceId) (issued_at_ms : Z) : host C unit :=
  _ ← check_clock issued_at_ms;
  record ← ask_host (device_of device_id);
  _ ← pure_host (reject_if (bool_decide (record.(SlotRecord.status) ≠ DeviceStatus.Registered)) RemoteControlError.Revoked);
  _ ← count_wake device_id issued_at_ms;
  response ← host_request (λ request_id s,
    RemoteControlFrame.WakeDevice request_id (generate_remote_id operation) issued_at_ms s.(DurableState.route_id) record.(SlotRecord.slot_id)
      s.(DurableState.admin_token) (generate_remote_id wake)) ExpectedRemoteResponse.WakeAccepted;
  require_kind ExpectedRemoteResponse.WakeAccepted response.
End operations.
