(* ===== verification/HostRemoteProofs.v ===== *)
(** * Host: what the remote control plane keeps

    The state file reads back as what was written, whichever way a write of it
    ended, and what is said of a device only ever moves on: granted, registered,
    to be revoked, revoked. *)
From stdpp Require Import prelude strings gmap.
From Stdlib Require Import ZArith Lia Ascii.
From S2P Require Import Prelude ProtoBase ProtoContent TransportControl TransportBootstrap TransportRemote RemoteClient PrivateFiles HostRemote.

Local Open Scope Z_scope.

(** ** The state as JSON *)

Lemma DeviceStatus_round_trip status : DeviceStatus_parse (DeviceStatus_as_str status) = Ok status.
Proof. by destruct status. Qed.

(** An object has the fields it was made of. *)
Lemma exact_object_of fields names :
  bool_decide (NoDup names) = true → fields.*1 = names → exact_object (object_of fields) names = Ok (list_to_map fields).
Proof.
  intros Hnd%bool_decide_eq_true <-. unfold exact_object, object_of. rewrite map_size_list_to_map, length_fmap, Nat.eqb_refl by done. simpl.
  replace (existsb _ _) with false; [done|]. symmetry. apply existsb_false. intros name Hin. apply is_none_false.
  apply list_elem_of_fmap in Hin as ([name' value] & -> & Hin). exists value. by apply elem_of_list_to_map_1.
Qed.

(** Evaluates the fields of an object whose names are given. *)
Ltac json_fields :=
  unfold json_string, json_optional_string, json_integer, json_array, exact_object, object_of; cbn [list_to_map foldr uncurry curry fst snd];
  repeat first [rewrite lookup_insert_eq | rewrite lookup_insert_ne by done | progress cbn [rbind]].

Lemma parse_device_value devices device_id record :
  devices !! device_id = None → parse_device devices (device_to_value (device_id, record)) = Ok (<[device_id := record]> devices).
Proof.
  intros Hn. destruct record as [slot token status]. unfold parse_device, device_to_value.
  rewrite exact_object_of by reflexivity.
  cbn [rbind]. json_fields. destruct token; json_fields; rewrite DeviceStatus_round_trip; simpl; by rewrite Hn.
Qed.

Definition i64_time (pending : PendingRevoke) : Prop := i64_min ≤ pending.(PendingRevoke.enqueued_at_ms) ≤ i64_max.

Lemma parse_pending_value outbox pending :
  i64_time pending → parse_pending outbox (pending_to_value pending) = Ok (outbox ++ [pending]).
Proof.
  intros Ht. destruct pending as [device slot operation at_ms]. unfold i64_time in Ht. simpl in Ht. unfold parse_pending, pending_to_value.
  rewrite exact_object_of by reflexivity.
  cbn [rbind]. json_fields. cbn [PendingRevoke.enqueued_at_ms].
  by rewrite (proj2 (Z.leb_le i64_min at_ms)), (proj2 (Z.leb_le at_ms i64_max)) by lia.
Qed.

Lemma parse_devices_values entries devices :
  NoDup entries.*1 → (∀ entry, entry ∈ entries → devices !! entry.1 = None) →
  try_fold parse_device devices (map device_to_value entries) = Ok (list_to_map entries ∪ devices).
Proof.
  revert devices. induction entries as [|[device_id record] entries IH]; intros devices Hnd Hfree; [simpl; by rewrite map_empty_union|].
  apply NoDup_cons in Hnd as [Hnot Hnd]. cbn [map try_fold]. rewrite parse_device_value by (apply (Hfree (device_id, record)); by left). simpl.
  rewrite IH; [|done|].
  - f_equal. simpl. rewrite <-insert_union_l, <-insert_union_r; [done|]. by apply not_elem_of_list_to_map_1.
  - intros entry Hin. rewrite lookup_insert_ne; [apply Hfree; by right|]. intros ->. apply Hnot, list_elem_of_fmap. by exists entry.
Qed.

Lemma parse_pending_values pendings outbox :
  Forall i64_time pendings → try_fold parse_pending outbox (map pending_to_value pendings) = Ok (outbox ++ pendings).
Proof.
  revert outbox. induction pendings as [|pending pendings IH]; intros outbox Ht; [by rewrite app_nil_r|].
  apply Forall_cons in Ht as [Ht Hts]. cbn [map try_fold]. rewrite parse_pending_value by done. simpl. rewrite IH by done. by rewrite <-app_assoc.
Qed.

Lemma NoDup_btree_entries (m : gmap string SlotRecord) : NoDup (btree_entries m).*1.
Proof. rewrite btree_entries_perm. apply NoDup_fst_map_to_list. Qed.

Lemma list_to_map_btree (m : gmap string SlotRecord) : list_to_map (btree_entries m) = m.
Proof. rewrite <-(list_to_map_to_list m) at 2. apply list_to_map_proper; [apply NoDup_btree_entries|apply btree_entries_perm]. Qed.

Lemma forall_btree_entries (P : string * SlotRecord → Prop) (m : gmap string SlotRecord) :
  (∀ entry, entry ∈ btree_entries m → P entry) ↔ ∀ device_id record, m !! device_id = Some record → P (device_id, record).
Proof.
  setoid_rewrite btree_entries_perm. split; intros Hall.
  - intros device_id record Hl. by apply Hall, elem_of_map_to_list.
  - intros [device_id record] Hin%elem_of_map_to_list. by apply Hall.
Qed.

Lemma value_to_state_to_value s : Forall i64_time s.(DurableState.revoke_outbox) → value_to_state (state_to_value s) = Ok s.
Proof.
  intros Ht. destruct s as [route hint admin endpoint pin host relay devices outbox]. simpl in Ht. unfold value_to_state, state_to_value.
  rewrite exact_object_of by reflexivity.
  cbn [rbind]. json_fields. cbn -[map device_to_value pending_to_value try_fold lookup insert]. json_fields.
  rewrite parse_devices_values, map_union_empty, parse_pending_values, list_to_map_btree by first [done|apply NoDup_btree_entries|by intros; rewrite lookup_empty]. done.
Qed.

(** ** Valid states *)

Definition is_revoke_pending (record : SlotRecord) : Prop := record.(SlotRecord.status) = DeviceStatus.RevokePending.

Section validity.
#[local] Opaque validate_device_id.
Context `{Base64, JsonCodec RemoteControlFrame}.

Definition route_ok (s : DurableState) : Prop :=
  validate_random_id s.(DurableState.route_id) = Ok tt ∧ validate_random_id s.(DurableState.route_hint) = Ok tt ∧
  validate_config (config_of s) = Ok tt ∧
  is_ok (RemoteControlFrame_encode (RemoteControlFrame.RegisterPresence 2 s.(DurableState.route_hint) 0 s.(DurableState.route_id)
           s.(DurableState.admin_token) s.(DurableState.host_endpoint_id) s.(DurableState.relay_url) PRESENCE_TTL_SECONDS)) = true.

Definition grant_encodes (s : DurableState) (slot token : string) : Prop :=
  is_ok (RemoteControlFrame_encode (RemoteControlFrame.RegisterDeviceGrant 2 s.(DurableState.route_hint) 0 s.(DurableState.route_id)
           slot token s.(DurableState.admin_token))) = true.

Definition slot_ok (s : DurableState) (entry : string * SlotRecord) : Prop :=
  validate_device_id entry.1 = Ok tt ∧ validate_random_id entry.2.(SlotRecord.slot_id) = Ok tt ∧
  should_have_token entry.2.(SlotRecord.status) = is_some entry.2.(SlotRecord.access_token) ∧
  ∀ token, entry.2.(SlotRecord.access_token) = Some token → grant_encodes s entry.2.(SlotRecord.slot_id) token.

Definition pending_ok (s : DurableState) (pending : PendingRevoke) : Prop :=
  validate_device_id pending.(PendingRevoke.device_id) = Ok tt ∧ validate_random_id pending.(PendingRevoke.slot_id) = Ok tt ∧
  validate_random_id pending.(PendingRevoke.operation_id) = Ok tt ∧ 0 ≤ pending.(PendingRevoke.enqueued_at_ms) ∧
  ∃ record, s.(DurableState.devices) !! pending.(PendingRevoke.device_id) = Some record ∧ is_revoke_pending record ∧
    record.(SlotRecord.slot_id) = pending.(PendingRevoke.slot_id).

(** What [validate_state] accepts. *)
Definition state_valid (s : DurableState) : Prop :=
  route_ok s ∧ (size s.(DurableState.devices) ≤ MAX_REMOTE_DEVICES)%nat ∧
  NoDup (map (λ entry, entry.2.(SlotRecord.slot_id)) (btree_entries s.(DurableState.devices))) ∧
  (∀ device_id record, s.(DurableState.devices) !! device_id = Some record → slot_ok s (device_id, record)) ∧
  NoDup (map PendingRevoke.device_id s.(DurableState.revoke_outbox)) ∧
  (∀ pending, pending ∈ s.(DurableState.revoke_outbox) → pending_ok s pending) ∧
  ∀ device_id record, s.(DurableState.devices) !! device_id = Some record →
    (is_revoke_pending record ↔ device_id ∈ map PendingRevoke.device_id s.(DurableState.revoke_outbox)).

Lemma corrupt_ok {T E} (r : result T E) v : corrupt r = Ok v ↔ r = Ok v.
Proof. apply map_err_ok. Qed.

Lemma corrupt_encode (r : result (list ascii) TransportError) : (corrupt r ;? Ok tt) = Ok tt ↔ is_ok r = true.
Proof. by destruct r. Qed.

Lemma validate_slot_ok s slots entry :
  validate_slot s slots entry = Ok tt ↔ (entry.2.(SlotRecord.slot_id) ∉ slots) ∧ slot_ok s entry.
Proof.
  unfold validate_slot, slot_ok. rewrite !rbind_ok_unit, !corrupt_ok, !reject_if_ok, bool_decide_eq_false, negb_false_iff, Bool.eqb_true_iff.
  destruct (entry.2.(SlotRecord.access_token)) as [token|]; [rewrite corrupt_encode|]; unfold grant_encodes; naive_solver.
Qed.

Lemma validate_pending_ok s seen pending :
  validate_pending s seen pending = Ok tt ↔ (pending.(PendingRevoke.device_id) ∉ seen) ∧ pending_ok s pending.
Proof.
  unfold validate_pending, pending_ok, is_revoke_pending.
  rewrite !rbind_ok_unit, !corrupt_ok, reject_if_ok, orb_false_iff, bool_decide_eq_false, Z.ltb_ge, rbind_ok.
  setoid_rewrite ok_or_ok. setoid_rewrite reject_if_ok. setoid_rewrite orb_false_iff. setoid_rewrite bool_decide_eq_false.
  split.
  - intros (H1 & H2 & H3 & [H4 H5] & record & H6 & H7 & H8). apply dec_stable in H7, H8. eauto 10.
  - intros (H1 & H2 & H3 & H4 & H5 & record & H6 & H7 & H8). split_and!; [done..|]. exists record. split_and!; [done|tauto|tauto].
Qed.

Lemma bool_decide_same P Q `{!Decision P, !Decision Q} : bool_decide P = bool_decide Q ↔ (P ↔ Q).
Proof. do 2 case_bool_decide; naive_solver. Qed.

Lemma host_validate_state_ok s : host_validate_state s = Ok tt ↔ state_valid s.
Proof.
  unfold host_validate_state, state_valid, route_ok. set (frame := RemoteControlFrame_encode _).
  rewrite !rbind_ok_unit, !corrupt_ok. destruct frame as [bytes|e]; [|naive_solver]. cbn [corrupt map_err rbind is_ok].
  rewrite !rbind_ok_unit, reject_if_ok, Nat.ltb_ge, try_for_each_ok.
  rewrite (try_for_each_seen_nil_ok _ (slot_ok s)), (try_for_each_seen_nil_ok _ (pending_ok s)) by first [apply validate_slot_ok|apply validate_pending_ok].
  rewrite !forall_btree_entries. unfold is_revoke_pending. cbn [fst snd]. setoid_rewrite reject_if_ok. setoid_rewrite negb_false_iff.
  setoid_rewrite Bool.eqb_true_iff. setoid_rewrite bool_decide_same. unfold fmap, list_fmap. naive_solver.
Qed.
End validity.

(** ** The file *)

Section file.
Context `{B64 : Base64, Frames : JsonCodec RemoteControlFrame, Values : JsonCodec JsonValue, !JsonCodecOk JsonValue}.
Variable path : string.
Hypothesis path_is_no_temporary : ends_with ".tmp" path = false.

(** The file holds the text of a state. *)
Definition host_file (f : gmap string (list ascii)) (s : DurableState) : Prop :=
  ∃ bytes, f !! path = Some bytes ∧ to_json (state_to_value s) = Some bytes.

Lemma vt_map_err {F G T} (e : F → G) P (op : vault F T) Q E : vault_triple P op Q E → vault_triple P (vault_map_err e op) Q E.
Proof. intros Hop d Hd. specialize (Hop d Hd). unfold vault_map_err. by destruct (op d) as [d' [v|x]]. Qed.

Lemma vt_weaken {F T} P (op : vault F T) (Q Q' : T → _ → Prop) (E E' : _ → Prop) :
  vault_triple P op Q E → (∀ v f, Q v f → Q' v f) → (∀ f, E f → E' f) → vault_triple P op Q' E'.
Proof. intros Hop HQ HE d Hd. specialize (Hop d Hd). destruct (op d) as [d' [v|x]]; auto. Qed.

Lemma vt_lift {F T} P (r : result T F) (Q : T → _ → Prop) (E : _ → Prop) :
  (∀ v f, r = Ok v → P f → Q v f) → (∀ f, P f → E f) → vault_triple P (lift_vault r) Q E.
Proof. intros HQ HE d Hd. unfold lift_vault. destruct r; auto. Qed.

Lemma persist_state_spec s old :
  vault_triple (λ f, f !! path = old) (persist_state path s) (λ _ f, host_file f s) (λ f, f !! path = old ∨ host_file f s).
Proof.
  unfold persist_state. destruct (to_json (state_to_value s)) as [bytes|] eqn:Hj; [|apply vt_fail; auto].
  apply vt_map_err. eapply vt_weaken.
  - apply (write_private_spec _ path old bytes). intros random. by apply temporary_file_is_not.
  - intros u f Hf. by exists bytes.
  - intros f [Hf|Hf]; [by left|]. right. by exists bytes.
Qed.

(** A state that was written is the one that is read, if any is. *)
Lemma parse_written s f bytes :
  Forall i64_time s.(DurableState.revoke_outbox) → host_file f s → f !! path = Some bytes →
  parse_state bytes = (reject_if (1048576 <? Z.of_nat (length bytes)) RemoteControlError.CorruptState ;? host_validate_state s ;? Ok s).
Proof.
  intros Ht (bytes' & Hl & Hj) Hb. simplify_eq. unfold parse_state. destruct (to_json_text _ _ Hj) as [Hne _].
  rewrite bool_decide_false by done. rewrite (from_json_to _ _ Hj). cbn [orb ok_or rbind fst]. by rewrite value_to_state_to_value by done.
Qed.

Lemma parse_written_ok s f bytes s' :
  Forall i64_time s.(DurableState.revoke_outbox) → host_file f s → f !! path = Some bytes → parse_state bytes = Ok s' → s' = s ∧ state_valid s.
Proof.
  intros Ht Hf Hb. rewrite (parse_written s f) by done. rewrite !rbind_ok_unit. intros (_ & Hv & [= <-]). split; [done|].
  by apply host_validate_state_ok.
Qed.

Lemma store_new_spec old : vault_triple (λ f, f !! path = old) (PrivateFileStore_new path) (λ _ f, f !! path = old) (λ f, f !! path = old).
Proof.
  unfold PrivateFileStore_new, prepare_private_directory, verify_private_path. eapply vt_bind; [by apply vt_attempt|]. intros ?.
  eapply vt_bind; [apply vt_exists|]. intros []; [|by apply vt_ret; intros f [_ Hf]].
  eapply vt_weaken; [apply vt_attempt; intros f Hf; exact Hf|by intros u f [_ Hf]|by intros f [_ Hf]].
Qed.

(** The plane opens on a file with the state of the file. *)
Lemma open_written config route hint token s f :
  Forall i64_time s.(DurableState.revoke_outbox) → host_file f s →
  vault_triple (λ f', f' !! path = f !! path) (open_state path config route hint token) (λ s' f', f' !! path = f !! path ∧ s' = s ∧ state_valid s)
    (λ f', f' !! path = f !! path).
Proof.
  intros Ht Hf. unfold open_state, storage. eapply vt_bind; [by apply (vt_lift _ _ (λ _ f', f' !! path = f !! path))|]. intros ?.
  eapply vt_bind; [apply vt_map_err, store_new_spec|]. intros ?. eapply vt_bind; [apply vt_map_err, read_private_spec|]. intros content.
  eapply vt_bind with (Q := λ s' f', f' !! path = f !! path ∧ s' = s ∧ state_valid s).
  - destruct Hf as (bytes & Hl & Hj). rewrite Hl. destruct content as [content|]; [|intros d [_ [=]]].
    apply vt_lift; [|by intros ? [? _]]. intros s' f' Hp [Hf' [= ->]]. split; [done|]. eapply (parse_written_ok s f'); [done|by exists bytes|done..].
  - intros s'. destruct (DurableState_matches_config s' config); [by apply vt_ret|apply vt_fail; by intros f' [? _]].
Qed.

(** On an empty directory it opens with a new state and leaves it in the file, or leaves none or that one. *)
Lemma open_fresh config route hint token :
  let fresh := DurableState_new config route hint token in
  vault_triple (λ f, f !! path = None) (open_state path config route hint token) (λ s f, host_file f fresh ∧ s = fresh ∧ state_valid fresh)
    (λ f, f !! path = None ∨ host_file f fresh ∧ state_valid fresh).
Proof.
  intros fresh. unfold open_state, storage. eapply vt_bind; [apply (vt_lift _ _ (λ _ f, f !! path = None)); auto|]. intros ?.
  eapply vt_bind; [eapply vt_weaken; [apply vt_map_err, (store_new_spec None)|done|auto]|]. intros ?.
  eapply vt_bind; [eapply vt_weaken; [apply vt_map_err, (read_private_spec path None)|done|auto]|]. intros content. cbn beta.
  eapply vt_bind with (Q := λ s f, host_file f fresh ∧ s = fresh ∧ state_valid fresh).
  - destruct content as [content|]; [intros d [_ [=]]|].
    eapply vt_bind with (Q := λ _ f, f !! path = None ∧ state_valid fresh); [apply vt_lift; [|by intros f [Hf _]; left]|].
    { intros [] f Hv [Hf _]. split; [done|]. by apply host_validate_state_ok. }
    intros ?. eapply vt_bind with (Q := λ _ f, host_file f fresh ∧ state_valid fresh).
    { intros d [Hd Hv]. fold fresh. pose proof (persist_state_spec fresh None d Hd) as Hw. destruct (persist_state path fresh d) as [d' [u|e]]; [done|].
      destruct Hw; [by left|by right]. }
    intros ? d [Hf Hv]. pose proof (read_private_spec path (d.(PrivateDirectory.files) !! path) d eq_refl) as Hr.
    unfold mbind, vault_bind, vault_map_err, PrivateFileStore_load. destruct (read_private path d) as [d' [content|e]]; simpl;
      unfold host_file in *; [destruct Hr as [Hr ->]|rewrite Hr; by right].
    destruct Hf as (bytes & Hl & Hj). rewrite Hl in *. unfold lift_vault. destruct (parse_state bytes) as [s|e] eqn:Hp; [|right; split; [by exists bytes|done]].
    apply (parse_written_ok fresh d.(PrivateDirectory.files)) in Hp as [-> _]; [|done|by exists bytes|done]. split_and!; try done. by exists bytes.
  - intros s. destruct (DurableState_matches_config s config); [by apply vt_ret|apply vt_fail; intros f (? & _ & ?); by right].
Qed.
End file.
