(* ===== verification/HostRevocation.v ===== *)
(** * Host: revocations of remote devices

    The remote control plane over sequences of its operations, of failures and of
    restarts: the devices it keeps only move on, a revocation stays in the outbox
    until the service has confirmed it, and what it is confirmed by.

    [RevocationService] is what the plane relies on of the other side of its
    connection; [RelayLink] gives it for the relay. *)
From stdpp Require Import prelude strings gmap.
From Stdlib Require Import ZArith Lia Ascii.
From S2P Require Import Prelude ProtoBase ProtoContent TransportControl TransportBootstrap TransportRemote RemoteClient PrivateFiles HostRemote HostRemoteProofs.

Local Open Scope Z_scope.

(** ** The other side *)

(** What happens to a connection and what is behind it while the host makes no
    request, and that it is gone when the host stops.  [slot_known]: the service
    has granted the slot at some time; [slot_refused]: it has revoked it. *)
Class RevocationService (C : Type) := {
  link_event : Type;
  link_step : link_event → C → C;
  link_drop : C → C;
  link_ok : C → Prop;
  service_knows : string → string → C → Prop;
  service_refuses : string → string → C → Prop
}.

Definition link_later {C} `{RevocationService C} (c c' : C) : Prop :=
  link_ok c' ∧ (∀ route slot, service_knows route slot c → service_knows route slot c') ∧
  ∀ route slot, service_refuses route slot c → service_refuses route slot c'.

Class RevocationServiceLaws (C : Type) `{RemoteControlExchange C, RevocationService C} : Prop := {
  exchange_later frame expected c : link_ok c → link_later c (exchange frame expected c).1;
  step_later event c : link_ok c → link_later c (link_step event c);
  drop_later c : link_ok c → link_later c (link_drop c);
  granted_is_known request_id operation_id issued_at_ms route slot token admin_token c c' response :
    link_ok c →
    exchange (RemoteControlFrame.RegisterDeviceGrant request_id operation_id issued_at_ms route slot token admin_token)
      ExpectedRemoteResponse.DeviceGrantRegistered c = (c', Ok response) →
    response_kind response = Some ExpectedRemoteResponse.DeviceGrantRegistered → service_knows route slot c';
  revoked_is_refused request_id operation_id issued_at_ms route slot admin_token c c' r :
    link_ok c → service_knows route slot c →
    exchange (RemoteControlFrame.RevokeDeviceGrant request_id operation_id issued_at_ms route slot admin_token)
      ExpectedRemoteResponse.DeviceGrantRevoked c = (c', r) →
    match r with
    | Ok response => response_kind response = Some ExpectedRemoteResponse.DeviceGrantRevoked
    | Err e => e = RemoteControlError.Revoked
    end → service_refuses route slot c'
}.

(** ** Moving on *)

Definition status_rank (status : DeviceStatus) : nat :=
  match status with
  | DeviceStatus.PendingGrant => 0
  | DeviceStatus.Registered => 1
  | DeviceStatus.RevokePending => 2
  | DeviceStatus.Revoked => 3
  end.

Definition record_later (record record' : SlotRecord) : Prop :=
  record'.(SlotRecord.slot_id) = record.(SlotRecord.slot_id) ∧
  (status_rank record.(SlotRecord.status) ≤ status_rank record'.(SlotRecord.status))%nat.

Definition same_route (s s' : DurableState) : Prop :=
  s'.(DurableState.route_id) = s.(DurableState.route_id) ∧ s'.(DurableState.route_hint) = s.(DurableState.route_hint) ∧
  s'.(DurableState.admin_token) = s.(DurableState.admin_token) ∧ config_of s' = config_of s.

(** [s'] keeps the route and every device of [s], with its slot. *)
Definition state_later (s s' : DurableState) : Prop :=
  same_route s s' ∧
  ∀ device_id record, s.(DurableState.devices) !! device_id = Some record →
    ∃ record', s'.(DurableState.devices) !! device_id = Some record' ∧ record_later record record'.

#[export] Instance record_later_preorder : PreOrder record_later.
Proof. split; [by intros record; split|]. intros r1 r2 r3 [H1 H2] [H3 H4]. split; [congruence|lia]. Qed.

#[export] Instance state_later_preorder : PreOrder state_later.
Proof.
  split.
  - intros s. split; [by split_and!|]. intros device_id record Hl. by exists record.
  - intros s1 s2 s3 [(R1 & R2 & R3 & R4) H12] [(R5 & R6 & R7 & R8) H23]. split; [split_and!; congruence|]. intros device_id record Hl.
    destruct (H12 _ _ Hl) as (record2 & Hl2 & Hr). destruct (H23 _ _ Hl2) as (record3 & Hl3 & Hr'). exists record3. split; [done|]. by etrans.
Qed.

(** Replacing the record of a device by a later one. *)
Lemma put_device_later device_id record s s' outbox :
  (∀ old, s.(DurableState.devices) !! device_id = Some old → record_later old record) →
  s' = DurableState_set_revoke_outbox outbox (DurableState_set_devices (<[device_id := record]> s.(DurableState.devices)) s) →
  state_later s s'.
Proof.
  intros Hold ->. split; [by split_and!|]. intros id old Hl. simpl. destruct (decide (id = device_id)) as [->|Hne].
  - rewrite lookup_insert_eq. eauto.
  - rewrite lookup_insert_ne by done. exists old. by split.
Qed.

(** ** Runs *)

Inductive HostMachine (C : Type) : Type :=
| HostUp (h : HostNode C)
| HostDown (d : PrivateDirectory) (c : C).
Arguments HostUp {C} h.
Arguments HostDown {C} d c.

(** The operations of the plane, with what they draw; what happens to the
    connection; a stop, wherever the host was, and a start. *)
Inductive HostEvent (L : Type) : Type :=
| HostRoute (operation : list ascii) (issued_at_ms : Z)
| HostPresence (operation : list ascii) (issued_at_ms : Z)
| HostPair (slot token operation : list ascii) (device_id : DeviceId) (issued_at_ms bootstrap_expires_at_ms : Z)
| HostRevoke (operation : list ascii) (device_id : DeviceId) (enqueued_at_ms : Z)
| HostReconcile (revoked_devices : list (DeviceId * list ascii)) (reconciled_at_ms : Z)
| HostFlush (issued_at_ms : Z)
| HostWake (operation wake : list ascii) (device_id : DeviceId) (issued_at_ms : Z)
| HostLink (event : L)
| HostRestart (config : RemoteControlConfig) (route hint token : list ascii).
Arguments HostRoute {L} operation issued_at_ms.
Arguments HostPresence {L} operation issued_at_ms.
Arguments HostPair {L} slot token operation device_id issued_at_ms bootstrap_expires_at_ms.
Arguments HostRevoke {L} operation device_id enqueued_at_ms.
Arguments HostReconcile {L} revoked_devices reconciled_at_ms.
Arguments HostFlush {L} issued_at_ms.
Arguments HostWake {L} operation wake device_id issued_at_ms.
Arguments HostLink {L} event.
Arguments HostRestart {L} config route hint token.

(** Times are [i64]. *)
Definition typed_event {L} (event : HostEvent L) : Prop :=
  match event with
  | HostRevoke _ _ at_ms | HostReconcile _ at_ms => at_ms ≤ i64_max
  | _ => True
  end.

Section runs.
Context `{B64 : Base64, Frames : JsonCodec RemoteControlFrame, Values : JsonCodec JsonValue, !JsonCodecOk JsonValue, Links : JsonCodec RemoteBootstrapWire}.
Context {C : Type} `{Exchange : !RemoteControlExchange C, Service : !RevocationService C}.
Variable path : string.

Definition machine_directory (n : HostMachine C) : PrivateDirectory :=
  match n with
  | HostUp h => h.(host_directory)
  | HostDown d _ => d
  end.

Definition machine_connection (n : HostMachine C) : C :=
  match n with
  | HostUp h => h.(host_connection)
  | HostDown _ c => c
  end.

(** [RemoteControlPlane::open] by a process that has no connection yet. *)
Definition restart_host (config : RemoteControlConfig) (route hint token : list ascii) (n : HostMachine C) : HostMachine C :=
  let c := link_drop (machine_connection n) in
  match open_state path config route hint token (machine_directory n) with
  | (d, Ok s) => HostUp (mkHost (RemoteControlPlane.mk path s ∅) d c)
  | (d, Err _) => HostDown d c
  end.

Definition host_operation (event : HostEvent link_event) (h : HostNode C) : HostNode C :=
  match event with
  | HostRoute operation issued_at_ms => (host_register_route operation issued_at_ms h).1
  | HostPresence operation issued_at_ms => (refresh_presence operation issued_at_ms h).1
  | HostPair slot token operation device_id issued_at_ms expires_at_ms =>
      (register_device_and_issue_pairing slot token operation device_id issued_at_ms expires_at_ms h).1
  | HostRevoke operation device_id enqueued_at_ms => (enqueue_revoke_after_local_registry operation device_id enqueued_at_ms h).1
  | HostReconcile revoked_devices reconciled_at_ms => (reconcile_local_revocations revoked_devices reconciled_at_ms h).1
  | HostFlush issued_at_ms => (flush_next_revoke issued_at_ms h).1
  | HostWake operation wake device_id issued_at_ms => (wake_device operation wake device_id issued_at_ms h).1
  | HostLink event => mkHost h.(host_plane) h.(host_directory) (link_step event h.(host_connection))
  | HostRestart _ _ _ _ => h
  end.

Definition host_step (n : HostMachine C) (event : HostEvent link_event) : HostMachine C :=
  match event, n with
  | HostRestart config route hint token, _ => restart_host config route hint token n
  | _, HostUp h => HostUp (host_operation event h)
  | HostLink event, HostDown d c => HostDown d (link_step event c)
  | _, HostDown _ _ => n
  end.

Definition run_host (n : HostMachine C) (events : list (HostEvent link_event)) : HostMachine C := foldl host_step n events.

(** ** The invariant *)

Definition host_memory (h : HostNode C) : DurableState := h.(host_plane).(RemoteControlPlane.state).

Definition registered_at (s : DurableState) (device_id : string) (slot : string) : Prop :=
  ∃ record, s.(DurableState.devices) !! device_id = Some record ∧ record.(SlotRecord.slot_id) = slot ∧
    record.(SlotRecord.status) = DeviceStatus.Registered.

(** What the state [base] said of its registered devices holds on: the service
    knows their slots, and refuses them once they are revoked in [s]. *)
Definition follows (base : option DurableState) (c : C) (s : DurableState) : Prop :=
  match base with
  | None => True
  | Some s0 =>
      state_later s0 s ∧
      ∀ device_id record, s.(DurableState.devices) !! device_id = Some record → registered_at s0 device_id record.(SlotRecord.slot_id) →
        service_knows s.(DurableState.route_id) record.(SlotRecord.slot_id) c ∧
        (record.(SlotRecord.status) = DeviceStatus.Revoked → service_refuses s.(DurableState.route_id) record.(SlotRecord.slot_id) c)
  end.

Definition plane_ok (base : option DurableState) (c : C) (s : DurableState) : Prop :=
  Forall i64_time s.(DurableState.revoke_outbox) ∧
  (∀ device_id slot, registered_at s device_id slot → service_knows s.(DurableState.route_id) slot c) ∧
  follows base c s.

(** The file is at most one change ahead. *)
Definition file_near (m f : DurableState) : Prop :=
  state_later m f ∧
  ∀ device_id record record', m.(DurableState.devices) !! device_id = Some record → f.(DurableState.devices) !! device_id = Some record' →
    record'.(SlotRecord.status) = DeviceStatus.Revoked → (2 ≤ status_rank record.(SlotRecord.status))%nat.

Definition node_ok (base : option DurableState) (h : HostNode C) : Prop :=
  h.(host_plane).(RemoteControlPlane.path) = path ∧ link_ok h.(host_connection) ∧ state_valid (host_memory h) ∧
  plane_ok base h.(host_connection) (host_memory h) ∧
  ∃ f, host_file path h.(host_directory).(PrivateDirectory.files) f ∧ plane_ok base h.(host_connection) f ∧ file_near (host_memory h) f.

Definition machine_ok (base : option DurableState) (n : HostMachine C) : Prop :=
  match n with
  | HostUp h => node_ok base h
  | HostDown d c =>
      link_ok c ∧
      (base = None ∧ d.(PrivateDirectory.files) !! path = None ∨
       ∃ f, host_file path d.(PrivateDirectory.files) f ∧ plane_ok base c f)
  end.

Lemma file_near_refl s : file_near s s.
Proof. split; [done|]. intros device_id record record' H1 H2 Hr. simplify_eq. rewrite Hr. simpl. lia. Qed.

Lemma plane_ok_later base c c' s : link_later c c' → plane_ok base c s → plane_ok base c' s.
Proof.
  intros (_ & Hk & Hr) (Ht & Hreg & Hf). split_and!; [done|by eauto|]. destruct base as [s0|]; [|done]. destruct Hf as [Hlater Hf].
  split; [done|]. intros device_id record Hl Hreg0. destruct (Hf _ _ Hl Hreg0). auto.
Qed.

(** The base may be moved to the state in memory. *)
Lemma rebase h : node_ok None h → node_ok (Some (host_memory h)) h.
Proof.
  intros (Hp & Hlink & Hv & (Ht & Hreg & _) & f & Hf & (Htf & Hregf & _) & Hnear).
  split_and!; try done.
  - split_and!; [done..|]. split; [done|]. intros device_id record Hl Hr. split; [by eapply Hreg|]. intros Hs. destruct Hr as (record' & Hl' & _ & Hs').
    congruence.
  - exists f. split_and!; [done| |done]. destruct Hnear as [[(Hroute & Hrest) Hlater] Hnear]. split_and!; [done..|]. split; [split; [by split|done]|].
    intros device_id record Hl Hr. split; [rewrite Hroute; by eapply Hreg|]. destruct Hr as (record0 & Hl0 & Hslot & Hs0). intros Hs.
    specialize (Hnear _ _ _ Hl0 Hl Hs). rewrite Hs0 in Hnear. simpl in Hnear. lia.
Qed.

(** ** Changes of the state *)

Definition put_device (device_id : string) (record : SlotRecord) (outbox : list PendingRevoke) (s : DurableState) : DurableState :=
  DurableState_set_revoke_outbox outbox (DurableState_set_devices (<[device_id := record]> s.(DurableState.devices)) s).

(** A record is put in the place of [old], or of none. *)
Record put_is_ok (base : option DurableState) (c : C) (m : DurableState) (device_id : string) (old : option SlotRecord) (record : SlotRecord) : Prop := {
  put_old : m.(DurableState.devices) !! device_id = old;
  put_moves_on before : old = Some before → record_later before record;
  put_new : old = None → status_rank record.(SlotRecord.status) = 0%nat;
  put_known : record.(SlotRecord.status) = DeviceStatus.Registered → service_knows m.(DurableState.route_id) record.(SlotRecord.slot_id) c;
  put_revoked : record.(SlotRecord.status) = DeviceStatus.Revoked →
    (∃ before, old = Some before ∧ 2 ≤ status_rank before.(SlotRecord.status))%nat ∧
    ∀ s0, base = Some s0 → registered_at s0 device_id record.(SlotRecord.slot_id) →
      service_refuses m.(DurableState.route_id) record.(SlotRecord.slot_id) c
}.

Lemma put_device_ok base c m device_id old record outbox :
  plane_ok base c m → put_is_ok base c m device_id old record → Forall i64_time outbox →
  plane_ok base c (put_device device_id record outbox m) ∧ file_near m (put_device device_id record outbox m).
Proof.
  intros (_ & Hreg & Hf) [Hold Hmoves Hnew Hknown Hrevoked] Ht.
  assert (state_later m (put_device device_id record outbox m)) as Hlater.
  { eapply put_device_later; [|done]. intros before Hb. apply Hmoves. congruence. }
  split.
  - split_and!; [done| |].
    + intros id slot (r & Hl & <- & Hs). simpl in *. apply lookup_insert_Some in Hl as [[<- <-]|[_ Hl]]; [auto|]. apply (Hreg id). by exists r.
    + destruct base as [s0|]; [|done]. destruct Hf as [Hl0 Hf]. split; [by etrans|]. intros id r Hl Hr. simpl in *.
      apply lookup_insert_Some in Hl as [[<- <-]|[_ Hl]]; [|by apply (Hf id)]. destruct Hr as (r0 & Hr0 & Hslot & Hs0).
      destruct (proj2 Hl0 _ _ Hr0) as (before & Hb & Hslot' & _). destruct (Hmoves before ltac:(congruence)) as [Hsame _].
      split; [|intros Hs; apply (proj2 (Hrevoked Hs) s0); [done|by exists r0]]. rewrite Hsame. apply (Hf device_id before Hb). by exists r0; rewrite <-Hslot', <-Hsame.
  - split; [done|]. intros id r r' Hl Hl' Hs. simpl in *. apply lookup_insert_Some in Hl' as [[<- <-]|[_ Hl']].
    + destruct (Hrevoked Hs) as [(before & Hb & Hrank) _]. congruence.
    + simplify_eq. rewrite Hs. simpl. lia.
Qed.

(** ** Operations *)

Hypothesis path_is_no_temporary : ends_with ".tmp" path = false.

Lemma commit_keeps base mutate h :
  node_ok base h → (∀ s, mutate (host_memory h) = Ok s → plane_ok base h.(host_connection) s ∧ file_near (host_memory h) s) →
  node_ok base (host_commit mutate h).1 ∧ ((host_commit mutate h).2 = Ok tt → mutate (host_memory h) = Ok (host_memory (host_commit mutate h).1)).
Proof.
  intros (Hp & Hlink & Hv & Hm & f & Hf & Hok & Hnear) Hnext. unfold host_commit. fold (host_memory h).
  destruct (mutate (host_memory h)) as [s|e] eqn:E; [|split; [|done]; split_and!; eauto 10]. destruct (Hnext s eq_refl) as [Hs Hsn]. rewrite Hp.
  pose proof (persist_state_spec path path_is_no_temporary s (h.(host_directory).(PrivateDirectory.files) !! path) h.(host_directory) eq_refl) as Hw.
  destruct (persist_state path s _) as [d [u|e]].
  - destruct (host_validate_state s) as [[]|e] eqn:Hvs.
    + split; [|done]. split_and!; [done|done|by apply host_validate_state_ok|done|]. exists s. split_and!; [done..|apply file_near_refl].
    + split; [|done]. split_and!; [done..|]. by exists s.
  - split; [|done]. split_and!; [done..|]. destruct Hw as [Hw|Hw]; [exists f|by exists s]. split_and!; try done. destruct Hf as (bytes & Hl & Hj).
    exists bytes. simpl. by rewrite Hw.
Qed.

Context `{!RevocationServiceLaws C}.

Lemma reconnected base h c' : node_ok base h → link_later h.(host_connection) c' → node_ok base (mkHost h.(host_plane) h.(host_directory) c').
Proof.
  intros (Hp & Hlink & Hv & Hm & f & Hf & Hok & Hnear) Hl. split_and!; [done|apply Hl|done|by eapply plane_ok_later|].
  exists f. split_and!; [done|by eapply plane_ok_later|done].
Qed.

Lemma request_inv base frame expected h h' r :
  node_ok base h → host_request frame expected h = (h', r) →
  node_ok base h' ∧ host_memory h' = host_memory h ∧ link_later h.(host_connection) h'.(host_connection) ∧
  match r with
  | Ok response => ∃ request_id, exchange (frame request_id (host_memory h)) expected h.(host_connection) = (h'.(host_connection), Ok response)
  | Err e => next_request_id h.(host_connection) = Err e ∨
             ∃ request_id, exchange (frame request_id (host_memory h)) expected h.(host_connection) = (h'.(host_connection), Err e)
  end.
Proof.
  intros Hn. unfold host_request. destruct (next_request_id _) as [request_id|e] eqn:Hid.
  - fold (host_memory h). pose proof (exchange_later (frame request_id (host_memory h)) expected h.(host_connection) (proj1 (proj2 Hn))) as Hl.
    destruct (exchange _ _ _) as [c' res] eqn:Hx. intros [= <- <-]. simpl in *. split_and!; [by apply reconnected|done..|].
    destruct res; eauto.
  - intros [= <- <-]. split_and!; [done..| |by left]. split; [apply Hn|done].
Qed.

Definition keeps {T} (base : option DurableState) (op : host C T) : Prop := ∀ h, node_ok base h → node_ok base (op h).1.

Lemma host_keeps_bind {T U} base (op : host C T) (k : T → host C U) : keeps base op → (∀ v, keeps base (k v)) → keeps base (op ≫= k).
Proof. intros Hop Hk h Hh. specialize (Hop h Hh). unfold mbind, host_bind. destruct (op h) as [h' [v|e]]; [by apply Hk|done]. Qed.

Lemma keeps_pure {T} base (r : result T RemoteControlError) : keeps base (pure_host r).
Proof. by intros h Hh. Qed.

Lemma host_keeps_ret {T} base (v : T) : keeps base (mret v : host C T).
Proof. by intros h Hh. Qed.

Lemma keeps_ask {T} base (query : DurableState → result T RemoteControlError) : keeps base (ask_host query).
Proof. by intros h Hh. Qed.

Lemma keeps_request base frame expected : keeps base (host_request frame expected).
Proof. intros h Hh. destruct (host_request frame expected h) as [h' r] eqn:E. by apply (request_inv base) in E as [Hn _]. Qed.

Lemma keeps_wake base device_id issued_at_ms : keeps base (count_wake device_id issued_at_ms).
Proof. intros h Hh. unfold count_wake. repeat case_match; done. Qed.

Lemma keeps_clock base issued_at_ms : keeps base (check_clock issued_at_ms).
Proof. apply keeps_pure. Qed.

Lemma keeps_kind base expected response : keeps base (require_kind expected response).
Proof. apply keeps_pure. Qed.

Create HintDb host_keeps.
#[local] Hint Resolve host_keeps_bind keeps_pure host_keeps_ret keeps_ask keeps_request keeps_wake keeps_clock keeps_kind : host_keeps.

Lemma keeps_route base operation issued_at_ms : keeps base (host_register_route operation issued_at_ms).
Proof. unfold host_register_route. auto with host_keeps. Qed.

Lemma keeps_presence base operation issued_at_ms : keeps base (refresh_presence operation issued_at_ms).
Proof. unfold refresh_presence. repeat (apply host_keeps_bind; [auto with host_keeps|intros ?]). case_match; auto with host_keeps. Qed.

Lemma keeps_wake_device base operation wake device_id issued_at_ms : keeps base (wake_device operation wake device_id issued_at_ms).
Proof. unfold wake_device. auto 10 with host_keeps. Qed.

Lemma keeps_assign base slot token device_id : keeps base (assign_slot slot token device_id).
Proof.
  intros h Hh. unfold assign_slot. destruct (is_some _) eqn:Hs; [done|]. destruct (_ <=? _)%nat; [done|]. apply is_some_false in Hs.
  apply commit_keeps; [done|]. intros s [= <-]. apply (put_device_ok _ _ _ _ None); [apply Hh| |apply Hh]. by split.
Qed.

Lemma keeps_revoke base operation device_id at_ms : at_ms ≤ i64_max → keeps base (enqueue_revoke_after_local_registry operation device_id at_ms).
Proof.
  intros Ht h Hh. unfold enqueue_revoke_after_local_registry, check_clock, pure_host, ask_host, mbind, host_bind. 
  destruct (Z.ltb_spec at_ms 0) as [|H0]; [done|]. cbn [reject_if]. fold (host_memory h). unfold device_of.
  destruct (DurableState.devices (host_memory h) !! id_value device_id) as [record|] eqn:Hl; [|done]. cbn [ok_or].
  assert (∀ s, mark_revoke_pending device_id (PendingRevoke.mk (id_value device_id) record.(SlotRecord.slot_id) (generate_remote_id operation) at_ms)
                 (host_memory h) = Ok s → (status_rank record.(SlotRecord.status) ≤ 2)%nat →
               plane_ok base h.(host_connection) s ∧ file_near (host_memory h) s) as Hnext.
  { intros s. unfold mark_revoke_pending, device_of. rewrite Hl. intros [= <-] Hrank. eapply (put_device_ok _ _ _ _ (Some record)); [apply Hh| |].
    - split; try done. by intros before [= <-].
    - apply Forall_app. split; [apply Hh|]. apply Forall_singleton. unfold i64_time, i64_min. simpl. lia. }
  destruct (record.(SlotRecord.status)) eqn:Hs; try done; apply commit_keeps; try done; intros s Hm; apply Hnext; try done; simpl; lia.
Qed.

Lemma keeps_reconcile base revoked_devices at_ms : at_ms ≤ i64_max → keeps base (reconcile_local_revocations revoked_devices at_ms).
Proof.
  intros Ht. unfold reconcile_local_revocations. apply host_keeps_bind; [auto with host_keeps|]. intros _. generalize 0 as enqueued.
  induction revoked_devices as [|[device_id operation] revoked_devices IH]; intros enqueued; [apply host_keeps_ret|]. cbn [reconcile_each]. apply host_keeps_bind; [|apply IH].
  intros h Hh. unfold reconcile_one. destruct (_ !! _) as [record|]; [|done].
  pose proof (host_keeps_bind base _ (λ _, pure_host (ok_or (checked_add_u64 enqueued 1) RemoteControlError.DeviceLimit))
                (keeps_revoke base operation device_id at_ms Ht) (λ _, keeps_pure base _) h Hh) as Hk.
  by destruct (record.(SlotRecord.status)).
Qed.

(** A device that is registered is one the service has granted. *)
Lemma keeps_grant base operation device_id issued_at_ms : keeps base (grant_slot operation device_id issued_at_ms).
Proof.
  intros h Hh. unfold grant_slot, mbind, host_bind, ask_host at 1. fold (host_memory h).
  destruct (active_credential device_id (host_memory h)) as [[slot token]|e] eqn:Hc; [|done].
  destruct (host_request _ _ h) as [h1 [response|e]] eqn:Hr; apply (request_inv base) in Hr as (Hn & Hmem & _ & Hx); try done.
  unfold require_kind, pure_host. case_bool_decide as Hk; [done|]. cbn [reject_if]. destruct Hx as [request_id Hx].
  apply commit_keeps; [done|]. rewrite Hmem. intros s. unfold mark_registered, device_of. unfold active_credential, device_of in Hc.
  destruct (DurableState.devices (host_memory h) !! id_value device_id) as [record|] eqn:Hl; [|done]. cbn [ok_or rbind] in *.
  intros [Hs [= <-]]%rbind_ok_unit. apply reject_if_ok, bool_decide_eq_false, dec_stable in Hs.
  rewrite !bool_decide_false in Hc by congruence. cbn [orb reject_if rbind] in Hc. destruct (record.(SlotRecord.access_token)); [|done]. injection Hc as <- <-.
  rewrite <-Hmem. eapply (put_device_ok _ _ _ _ (Some record)); [apply Hn| |apply Hn]. rewrite Hmem. split; try done.
  - intros before [= <-]. split; [done|]. rewrite Hs. simpl. lia.
  - intros _. eapply granted_is_known; [|exact Hx|done]. apply Hh.
Qed.

Lemma keeps_pair base slot token operation device_id issued_at_ms expires_at_ms :
  keeps base (register_device_and_issue_pairing slot token operation device_id issued_at_ms expires_at_ms).
Proof.
  unfold register_device_and_issue_pairing. do 2 (apply host_keeps_bind; [auto with host_keeps|]; intros _). apply host_keeps_bind; [apply keeps_assign|]. intros _.
  apply host_keeps_bind; [auto with host_keeps|]. intros record. apply host_keeps_bind; [|auto with host_keeps]. intros _ || idtac.
  destruct (record.(SlotRecord.status)); auto using keeps_grant with host_keeps.
Qed.

(** What a revocation that went through means. *)
Lemma request_revoke_inv base pending issued_at_ms h h' r :
  node_ok base h → request_revoke pending issued_at_ms h = (h', r) →
  node_ok base h' ∧ host_memory h' = host_memory h ∧
  (r = Ok tt → service_knows (host_memory h).(DurableState.route_id) pending.(PendingRevoke.slot_id) h.(host_connection) →
   service_refuses (host_memory h).(DurableState.route_id) pending.(PendingRevoke.slot_id) h'.(host_connection)).
Proof.
  intros Hh. unfold request_revoke. destruct (next_request_id _) as [request_id|e]; [|by intros [= <- <-]]. fold (host_memory h).
  set (frame := RemoteControlFrame.RevokeDeviceGrant _ _ _ _ _ _).
  pose proof (exchange_later frame ExpectedRemoteResponse.DeviceGrantRevoked h.(host_connection) (proj1 (proj2 Hh))) as Hl.
  destruct (exchange _ _ _) as [c res] eqn:Hx. intros Hr. simpl in Hl.
  assert (h' = mkHost h.(host_plane) h.(host_directory) c) as -> by (destruct res as [|[]]; by injection Hr).
  split_and!; [by apply reconnected|done|]. intros -> Hk. eapply revoked_is_refused; [apply Hh|done|exact Hx|].
  destruct res as [response|e]; [|by destruct e]. unfold require_kind, pure_host in Hr. by case_bool_decide as Hkind.
Qed.

Definition revoked_at (s : DurableState) (device_id slot : string) : Prop :=
  ∃ record, s.(DurableState.devices) !! device_id = Some record ∧ record.(SlotRecord.slot_id) = slot ∧
    record.(SlotRecord.status) = DeviceStatus.Revoked.

Lemma mark_revoked_inv pending s s' :
  mark_revoked pending s = Ok s' →
  ∃ record, s.(DurableState.devices) !! pending.(PendingRevoke.device_id) = Some record ∧ is_revoke_pending record ∧
    record.(SlotRecord.slot_id) = pending.(PendingRevoke.slot_id) ∧
    s' = put_device pending.(PendingRevoke.device_id) (SlotRecord_set_status DeviceStatus.Revoked record) (tail s.(DurableState.revoke_outbox)) s.
Proof.
  unfold mark_revoked. rewrite rbind_ok. intros (front & _ & Hr). rewrite rbind_ok_unit, rbind_ok in Hr. destruct Hr as (_ & record & Hl & Hr).
  rewrite rbind_ok_unit, reject_if_ok, orb_false_iff, !bool_decide_eq_false in Hr. destruct Hr as [[Hs Hslot] [= <-]].
  apply ok_or_ok in Hl. apply dec_stable in Hs, Hslot. by exists record.
Qed.

Lemma flush_inv base issued_at_ms h h' r :
  node_ok base h → flush_next_revoke issued_at_ms h = (h', r) →
  node_ok base h' ∧
  ∀ completion, r = Ok (Some completion) →
    revoked_at (host_memory h') (id_value completion.(RevokeCompletion.device_id)) completion.(RevokeCompletion.device_slot_id).
Proof.
  intros Hh. unfold flush_next_revoke, check_clock, pure_host, ask_host, mbind, host_bind. destruct (issued_at_ms <? 0); [by intros [= <- <-]|].
  cbn [reject_if]. fold (host_memory h). destruct (head _) as [pending|]; [|by intros [= <- <-]].
  destruct (request_revoke pending issued_at_ms h) as [h1 res] eqn:Hq. apply (request_revoke_inv base) in Hq as (Hn & Hmem & Hrefuses); [|done].
  destruct res as [[]|e]; [|by intros [= <- <-]]. specialize (Hrefuses eq_refl).
  pose proof (commit_keeps base (mark_revoked pending) h1 Hn) as Hc. rewrite Hmem in Hc. destruct Hc as [Hc Hres].
  { intros s (record & Hl & Hs & Hslot & ->)%mark_revoked_inv. rewrite <-Hmem. eapply (put_device_ok _ _ _ _ (Some record)); [apply Hn| |].
    - rewrite Hmem. split; try done.
      + intros before [= <-]. split; [done|]. rewrite Hs. simpl. lia.
      + intros _. split; [exists record; split; [done|]; rewrite Hs; simpl; lia|]. intros s0 -> Hreg. simpl in *. rewrite Hslot in *. apply Hrefuses.
        destruct Hh as (_ & _ & _ & (_ & _ & _ & Hf) & _). rewrite <-Hslot in *. by apply (Hf _ _ Hl).
    - destruct Hn as (_ & _ & _ & (Ht & _) & _). destruct (DurableState.revoke_outbox (host_memory h1)); [done|]. by apply Forall_cons in Ht as [_ Ht]. }
  destruct (host_commit (mark_revoked pending) h1) as [h2 [[]|e]] eqn:Hh2; simpl in *; [|by intros [= <- <-]].
  intros [= <- <-]. split; [done|]. intros completion [= <-]. destruct (mark_revoked_inv _ _ _ (Hres eq_refl)) as (record & Hl & Hs & Hslot & ->).
  exists (SlotRecord_set_status DeviceStatus.Revoked record). simpl. by rewrite lookup_insert_eq.
Qed.

Lemma host_operation_ok base event h : typed_event event → node_ok base h → node_ok base (host_operation event h).
Proof.
  intros Ht Hh. destruct event; simpl in *; try done.
  - by apply keeps_route.
  - by apply keeps_presence.
  - by apply keeps_pair.
  - by apply keeps_revoke.
  - by apply keeps_reconcile.
  - destruct (flush_next_revoke _ h) as [h' r] eqn:E. by apply (flush_inv base) in E as [Hn _].
  - by apply keeps_wake_device.
  - apply reconnected; [done|]. apply step_later, Hh.
Qed.

(** A state with no device is in order. *)
Lemma plane_ok_new c config route hint token : plane_ok None c (DurableState_new config route hint token).
Proof. split_and!; [constructor| |done]. intros device_id slot (record & Hl & _). simpl in Hl. by rewrite lookup_empty in Hl. Qed.

Lemma restart_host_ok base config route hint token n : machine_ok base n → machine_ok base (restart_host config route hint token n).
Proof.
  intros Hn. set (d := machine_directory n). set (c := machine_connection n).
  assert (link_ok c ∧ (base = None ∧ d.(PrivateDirectory.files) !! path = None ∨
            ∃ f, host_file path d.(PrivateDirectory.files) f ∧ plane_ok base c f)) as [Hc Hfile].
  { destruct n as [h|d' c']; [|done]. destruct Hn as (_ & Hc & _ & _ & f & Hf & Hok & _). split; [done|]. right. by exists f. }
  pose proof (drop_later c Hc) as Hl. unfold restart_host. fold d c. destruct Hfile as [[-> Hnone]|(f & Hf & Hok)].
  - pose proof (open_fresh path path_is_no_temporary config route hint token d Hnone) as Ho. cbn zeta in Ho.
    destruct (open_state path config route hint token d) as [d' [s|e]].
    + destruct Ho as (Hf & -> & Hv). split_and!; [done|apply Hl|done|apply plane_ok_new|]. eexists. split_and!; [done|apply plane_ok_new|apply file_near_refl].
    + split; [apply Hl|]. destruct Ho as [Ho|[Ho _]]; [by left|]. right. eexists. split; [done|apply plane_ok_new].
  - pose proof (open_written path config route hint token f _ (proj1 Hok) Hf d eq_refl) as Ho.
    apply (plane_ok_later _ _ _ _ Hl) in Hok. destruct Hf as (bytes & Hb & Hj). rewrite Hb in Ho.
    destruct (open_state path config route hint token d) as [d' [s|e]].
    + destruct Ho as (Hf & -> & Hv). split_and!; [done|apply Hl|done..|]. exists f. split_and!; [by exists bytes|done|apply file_near_refl].
    + split; [apply Hl|]. right. exists f. split; [by exists bytes|done].
Qed.

Lemma host_step_ok base n event : typed_event event → machine_ok base n → machine_ok base (host_step n event).
Proof.
  intros Ht Hn. destruct event; try (by apply restart_host_ok); (destruct n as [h|d c]; [by apply host_operation_ok|]); try done.
  destruct Hn as [Hc Hn]. split; [by apply step_later|]. destruct Hn as [Hn|(f & Hf & Hok)]; [by left|]. right. exists f. split; [done|].
  eapply plane_ok_later; [by apply step_later|done].
Qed.

Lemma run_host_ok base n events : Forall typed_event events → machine_ok base n → machine_ok base (run_host n events).
Proof. intros Ht. revert n. induction Ht as [|event events He _ IH]; intros n Hn; [done|]. simpl. by apply IH, host_step_ok. Qed.

Lemma first_machine_ok d c : link_ok c → d.(PrivateDirectory.files) !! path = None → machine_ok None (HostDown d c).
Proof. intros Hc Hd. split; [done|]. by left. Qed.

(** What a run from a node leaves of its state. *)
Lemma run_is_later h events h' :
  node_ok None h → Forall typed_event events → run_host (HostUp h) events = HostUp h' → node_ok (Some (host_memory h)) h'.
Proof. intros Hh Ht Hr. pose proof (run_host_ok (Some (host_memory h)) (HostUp h) events Ht (rebase h Hh)) as Hm. by rewrite Hr in Hm. Qed.

(** ** Revocations stay *)

Definition is_gone (s : DurableState) (device_id slot : string) : Prop :=
  ∃ record, s.(DurableState.devices) !! device_id = Some record ∧ record.(SlotRecord.slot_id) = slot ∧
    (2 ≤ status_rank record.(SlotRecord.status))%nat.

Lemma is_gone_later s s' device_id slot : state_later s s' → is_gone s device_id slot → is_gone s' device_id slot.
Proof.
  intros [_ Hl] (record & Hr & <- & Hrank). destruct (Hl _ _ Hr) as (record' & Hr' & Hslot & Hle). exists record'. split_and!; [done..|lia].
Qed.

Lemma enqueue_inv base operation device_id at_ms h h' :
  at_ms ≤ i64_max → node_ok base h → enqueue_revoke_after_local_registry operation device_id at_ms h = (h', Ok tt) →
  ∃ record, (host_memory h).(DurableState.devices) !! id_value device_id = Some record ∧
    is_gone (host_memory h') (id_value device_id) record.(SlotRecord.slot_id).
Proof.
  intros Ht Hh. unfold enqueue_revoke_after_local_registry, check_clock, pure_host, ask_host, mbind, host_bind.
  destruct (Z.ltb_spec at_ms 0) as [|H0]; [done|]. cbn [reject_if]. fold (host_memory h). unfold device_of.
  destruct (DurableState.devices (host_memory h) !! id_value device_id) as [record|] eqn:Hl; [|done]. cbn [ok_or]. intros He. exists record. split; [done|].
  assert (∀ pending, host_commit (mark_revoke_pending device_id pending) h = (h', Ok tt) → is_gone (host_memory h') (id_value device_id) record.(SlotRecord.slot_id)) as Hc.
  { intros pending. unfold host_commit. fold (host_memory h). unfold mark_revoke_pending at 1, device_of. rewrite Hl. cbn [ok_or rbind].
    destruct (persist_state _ _ _) as [d [u|e]]; [|done]. destruct (host_validate_state _); [|done]. intros [= <-]. eexists. simpl.
    rewrite lookup_insert_eq. split_and!; [done..|]. simpl. lia. }
  destruct (record.(SlotRecord.status)) eqn:Hs; try (by eapply Hc); injection He as <-; exists record; split_and!; try done; rewrite Hs; simpl; lia.
Qed.

(** A device that is gone has no token, and its revocation is in the outbox until it is revoked. *)
Lemma gone_in_valid_state s device_id slot :
  state_valid s → is_gone s device_id slot →
  ∃ record, s.(DurableState.devices) !! device_id = Some record ∧ record.(SlotRecord.slot_id) = slot ∧ record.(SlotRecord.access_token) = None ∧
    (record.(SlotRecord.status) = DeviceStatus.Revoked ∨
     is_revoke_pending record ∧ ∃ pending, pending ∈ s.(DurableState.revoke_outbox) ∧ pending.(PendingRevoke.device_id) = device_id ∧
       pending.(PendingRevoke.slot_id) = slot).
Proof.
  intros (_ & _ & _ & Hslots & _ & Hpend & Hout) (record & Hl & <- & Hrank). exists record. destruct (Hslots _ _ Hl) as (_ & _ & Htok & _). simpl in Htok.
  assert (record.(SlotRecord.access_token) = None) as Hnone.
  { destruct (record.(SlotRecord.status)); simpl in *; try lia; by destruct (record.(SlotRecord.access_token)). }
  split_and!; [done..|]. destruct (record.(SlotRecord.status)) eqn:Hs; simpl in Hrank; try lia; [|by left]. right. split; [done|].
  apply (Hout _ _ Hl) in Hs as Hin. apply list_elem_of_fmap in Hin as (pending & -> & Hin). exists pending. split_and!; [done..|].
  destruct (Hpend _ Hin) as (_ & _ & _ & _ & record' & Hl' & _ & Hslot). congruence.
Qed.

(** Neither a link nor a wake is for a device that is gone. *)
Lemma gone_is_refused slot token operation wake device_id issued_at_ms expires_at_ms slot_id h :
  is_gone (host_memory h) (id_value device_id) slot_id →
  is_ok (register_device_and_issue_pairing slot token operation device_id issued_at_ms expires_at_ms h).2 = false ∧
  is_ok (wake_device operation wake device_id issued_at_ms h).2 = false.
Proof.
  intros (record & Hl & _ & Hrank). split.
  - unfold register_device_and_issue_pairing, pure_host, mbind, host_bind. destruct (validate_device_id _) as [[]|]; [|done].
    destruct (reject_if _ _) as [[]|]; [|done]. unfold assign_slot. fold (host_memory h). rewrite Hl. cbn [is_some]. unfold ask_host at 1, device_of at 1.
    fold (host_memory h). rewrite Hl. cbn [ok_or]. by destruct (record.(SlotRecord.status)); simpl in Hrank; try lia.
  - unfold wake_device, check_clock, pure_host, ask_host, mbind, host_bind. destruct (reject_if _ _) as [[]|]; [|done]. fold (host_memory h).
    unfold device_of. rewrite Hl. cbn [ok_or]. rewrite bool_decide_true; [done|]. intros Hs. rewrite Hs in Hrank. simpl in Hrank. lia.
Qed.

(** C14: Once enqueue_revoke_after_local_registry has succeeded for a device, then, whatever the
    host does afterwards, whichever writes of its state and whichever exchanges with the relay fail,
    and however often it restarts, every host that is up again keeps the device with the same slot
    and no token, as revoked or with its revocation still in the outbox, and neither issues a
    pairing link for it nor wakes it. The connection is any that satisfies the interface of the
    relay. *)
Theorem enqueued_revocations_stay d0 c0 events h operation device_id at_ms h1 more h2
    (Hlink : link_ok c0) (Hempty : d0.(PrivateDirectory.files) !! path = None) (Htyped : Forall typed_event (events ++ more)) (Htime : at_ms ≤ i64_max)
    (Hup : run_host (HostDown d0 c0) events = HostUp h)
    (Henqueued : enqueue_revoke_after_local_registry operation device_id at_ms h = (h1, Ok tt))
    (Hmore : run_host (HostUp h1) more = HostUp h2) :
  (∃ before record,
     (host_memory h).(DurableState.devices) !! id_value device_id = Some before ∧
     (host_memory h2).(DurableState.devices) !! id_value device_id = Some record ∧
     record.(SlotRecord.slot_id) = before.(SlotRecord.slot_id) ∧ record.(SlotRecord.access_token) = None ∧
     (record.(SlotRecord.status) = DeviceStatus.Revoked ∨
      is_revoke_pending record ∧ ∃ pending, pending ∈ (host_memory h2).(DurableState.revoke_outbox) ∧
        pending.(PendingRevoke.device_id) = id_value device_id ∧ pending.(PendingRevoke.slot_id) = before.(SlotRecord.slot_id))) ∧
  ∀ slot token operation' wake issued_at_ms expires_at_ms,
    is_ok (register_device_and_issue_pairing slot token operation' device_id issued_at_ms expires_at_ms h2).2 = false ∧
    is_ok (wake_device operation' wake device_id issued_at_ms h2).2 = false.
Proof.
  apply Forall_app in Htyped as [Ht1 Ht2]. pose proof (run_host_ok None _ events Ht1 (first_machine_ok _ _ Hlink Hempty)) as Hh. rewrite Hup in Hh.
  destruct (enqueue_inv None operation device_id at_ms h h1 Htime Hh Henqueued) as (before & Hb & Hgone).
  pose proof (keeps_revoke None operation device_id at_ms Htime h Hh) as Hh1. rewrite Henqueued in Hh1. simpl in Hh1.
  destruct (run_is_later h1 more h2 Hh1 Ht2 Hmore) as (_ & _ & Hv & (_ & _ & Hlater & _) & _).
  apply (is_gone_later _ _ _ _ Hlater) in Hgone. split; [|intros *; by eapply gone_is_refused].
  destruct (gone_in_valid_state _ _ _ Hv Hgone) as (record & Hl & Hslot & Htok & Hst). by exists before, record.
Qed.

(** A revocation of a registered device that was completed has reached the service, for good. *)
Lemma completed_revocations_reach_the_service d0 c0 events h device_id slot more h1 issued_at_ms h2 completion later h3 :
  link_ok c0 → d0.(PrivateDirectory.files) !! path = None → Forall typed_event (events ++ more ++ later) →
  run_host (HostDown d0 c0) events = HostUp h → registered_at (host_memory h) device_id slot → run_host (HostUp h) more = HostUp h1 →
  flush_next_revoke issued_at_ms h1 = (h2, Ok (Some completion)) → id_value completion.(RevokeCompletion.device_id) = device_id →
  run_host (HostUp h2) later = HostUp h3 →
  completion.(RevokeCompletion.device_slot_id) = slot ∧ link_ok h3.(host_connection) ∧
  service_refuses (host_memory h).(DurableState.route_id) slot h3.(host_connection).
Proof.
  intros Hlink Hempty Ht Hup Hreg Hmore Hflush Hid Hlater. rewrite !Forall_app in Ht. destruct Ht as (Ht1 & Ht2 & Ht3).
  pose proof (run_host_ok None _ events Ht1 (first_machine_ok _ _ Hlink Hempty)) as Hh. rewrite Hup in Hh.
  pose proof (run_is_later h more h1 Hh Ht2 Hmore) as Hh1. destruct (flush_inv _ _ _ _ _ Hh1 Hflush) as [Hh2 Hdone].
  destruct (Hdone _ eq_refl) as (record & Hl & Hslot & Hs). rewrite Hid in Hl.
  assert (node_ok None h2) as Hn2.
  { destruct Hh2 as (Hp & Hc & Hv & (Ht & Hk & _) & f & Hf & (Htf & Hkf & _) & Hnear). split_and!; try done. by exists f. }
  destruct (run_is_later h2 later h3 Hn2 Ht3 Hlater) as (_ & _ & _ & (_ & _ & Hst & _) & _).
  pose proof (run_host_ok _ (HostUp h2) later Ht3 Hh2) as Hh3. rewrite Hlater in Hh3.
  destruct Hh3 as (_ & Hc3 & _ & (_ & _ & Hst3 & Hf3) & _). destruct Hh2 as (_ & _ & _ & (_ & _ & Hst2 & _) & _).
  destruct (proj2 Hst _ _ Hl) as (record3 & Hl3 & Hslot3 & Hrank). rewrite Hs in Hrank.
  destruct Hreg as (r0 & Hr0 & <- & Hs0). destruct (proj2 Hst2 _ _ Hr0) as (r2 & Hr2 & Hrs2 & _).
  assert (record3.(SlotRecord.slot_id) = r0.(SlotRecord.slot_id)) as Hsame by congruence. split_and!; [congruence|done|].
  rewrite <-Hsame, <-(proj1 (proj1 Hst3)). apply (Hf3 _ _ Hl3); [by exists r0|].
  destruct (record3.(SlotRecord.status)); simpl in Hrank; (lia || done).
Qed.
End runs.
