(* ===== verification/HostReopen.v ===== *)
(** * Host: the state file of the remote control plane opens again

    Whatever a host did and whichever write of its state failed, the file it left
    is one it opens, with every device it knew of, as long as the identifiers it
    drew are new. *)
From stdpp Require Import prelude strings gmap.
From Stdlib Require Import ZArith Lia Ascii.
From S2P Require Import Prelude ProtoBase ProtoContent TransportControl TransportBootstrap TransportRemote RemoteClient PrivateFiles RelayPromises HostRemote HostRemoteProofs HostRevocation.

Local Open Scope Z_scope.

(** ** Changes keep a state valid *)

Definition slots_of (devices : gmap string SlotRecord) : list string := map (λ entry, entry.2.(SlotRecord.slot_id)) (btree_entries devices).

Lemma slots_of_perm devices : slots_of devices ≡ₚ (map_to_list (SlotRecord.slot_id <$> devices)).*2.
Proof. unfold slots_of. rewrite btree_entries_perm, map_to_list_fmap, <-list_fmap_compose. done. Qed.

Lemma slots_of_replace devices device_id old record :
  devices !! device_id = Some old → record.(SlotRecord.slot_id) = old.(SlotRecord.slot_id) →
  slots_of (<[device_id := record]> devices) ≡ₚ slots_of devices.
Proof.
  intros Hl Hs. rewrite !slots_of_perm, fmap_insert, Hs, insert_id; [done|]. by rewrite lookup_fmap, Hl.
Qed.

Lemma slots_of_add devices device_id record :
  devices !! device_id = None → slots_of (<[device_id := record]> devices) ≡ₚ record.(SlotRecord.slot_id) :: slots_of devices.
Proof. intros Hl. unfold slots_of. by rewrite !btree_entries_perm, map_to_list_insert. Qed.

Lemma elem_of_slots devices slot : slot ∈ slots_of devices ↔ ∃ device_id record, devices !! device_id = Some record ∧ record.(SlotRecord.slot_id) = slot.
Proof.
  unfold slots_of. rewrite btree_entries_perm. change (map ?f ?l) with (f <$> l). rewrite list_elem_of_fmap. split.
  - intros ([device_id record] & -> & Hin%elem_of_map_to_list). eauto.
  - intros (device_id & record & Hl & <-). exists (device_id, record). split; [done|]. by apply elem_of_map_to_list.
Qed.

Section validity.
Context `{B64 : Base64, !Base64Ok, Frames : JsonCodec RemoteControlFrame}.

Lemma generated_id_is_valid random : length random = RANDOM_ID_BYTES → validate_random_id (generate_remote_id random) = Ok tt.
Proof.
  intros Hl. unfold validate_random_id, validate_canonical_base64, generate_remote_id. rewrite b64_decode_encode. simpl.
  rewrite Hl, Nat.eqb_refl, bool_decide_false by tauto. done.
Qed.

(** An entry of an outbox is one of another device that was there, or the one of this device. *)
Definition pending_for (device_id : string) (record : SlotRecord) (m : DurableState) (pending : PendingRevoke) : Prop :=
  pending ∈ m.(DurableState.revoke_outbox) ∧ pending.(PendingRevoke.device_id) ≠ device_id ∨
  pending.(PendingRevoke.device_id) = device_id ∧ is_revoke_pending record ∧ record.(SlotRecord.slot_id) = pending.(PendingRevoke.slot_id) ∧
  validate_random_id pending.(PendingRevoke.operation_id) = Ok tt ∧ 0 ≤ pending.(PendingRevoke.enqueued_at_ms).

Lemma replace_valid m device_id old record outbox :
  state_valid m → m.(DurableState.devices) !! device_id = Some old → record.(SlotRecord.slot_id) = old.(SlotRecord.slot_id) →
  should_have_token record.(SlotRecord.status) = is_some record.(SlotRecord.access_token) →
  (∀ token, record.(SlotRecord.access_token) = Some token → old.(SlotRecord.access_token) = Some token) →
  NoDup (map PendingRevoke.device_id outbox) → (∀ pending, pending ∈ outbox → pending_for device_id record m pending) →
  (is_revoke_pending record ↔ device_id ∈ map PendingRevoke.device_id outbox) →
  (∀ pending, pending ∈ m.(DurableState.revoke_outbox) → pending.(PendingRevoke.device_id) ≠ device_id → pending ∈ outbox) →
  state_valid (put_device device_id record outbox m).
Proof.
  intros (Hroute & Hsize & Hslots & Hok & Hnd & Hpend & Hout) Hl Hslot Htok Hsame Hnd' Hfrom Hiff Hkeep.
  pose proof (Hok _ _ Hl) as (Hid & Hrand & _ & Henc). unfold put_device.
  split_and!; [done| | | |done| |].
  - simpl. by rewrite map_size_insert_Some by eauto.
  - simpl. change (NoDup (slots_of (<[device_id:=record]> (DurableState.devices m)))). by rewrite slots_of_replace.
  - intros id r Hr. simpl in Hr. apply lookup_insert_Some in Hr as [[<- <-]|[_ Hr]]; [|by apply Hok]. split_and!; simpl; [done|by rewrite Hslot|done|].
    intros token Ht. rewrite Hslot. by apply Henc, Hsame.
  - intros pending Hin. destruct (Hfrom _ Hin) as [[Hin' Hne]|(Heq & Hrp & Hps & Hop & Hat)].
    + destruct (Hpend _ Hin') as (H1 & H2 & H3 & H4 & r & Hr & H5 & H6). split_and!; [done..|]. exists r. simpl. by rewrite lookup_insert_ne.
    + split_and!; [by rewrite Heq|by rewrite <-Hps, Hslot|done..|]. exists record. simpl. by rewrite Heq, lookup_insert_eq.
  - intros id r Hr. simpl in Hr. simpl. apply lookup_insert_Some in Hr as [[<- <-]|[Hne Hr]]; [done|]. rewrite (Hout _ _ Hr).
    change (map ?f ?l) with (f <$> l). rewrite !list_elem_of_fmap. split; intros (pending & -> & Hin); exists pending; (split; [done|]).
    + by apply Hkeep.
    + destruct (Hfrom _ Hin) as [[Hin' _]|[Heq _]]; [done|]. by rewrite Heq in Hne.
Qed.

Lemma add_valid m device_id slot token :
  state_valid m → m.(DurableState.devices) !! device_id = None → (size m.(DurableState.devices) < MAX_REMOTE_DEVICES)%nat →
  validate_device_id device_id = Ok tt → validate_random_id slot = Ok tt → slot ∉ slots_of m.(DurableState.devices) → grant_encodes m slot token →
  state_valid (put_device device_id (SlotRecord.mk slot (Some token) DeviceStatus.PendingGrant) m.(DurableState.revoke_outbox) m).
Proof.
  intros (Hroute & Hsize & Hslots & Hok & Hnd & Hpend & Hout) Hl Hlt Hid Hrand Hfresh Henc. unfold put_device.
  split_and!; [done| | | |done| |].
  - simpl. rewrite map_size_insert_None by done. lia.
  - simpl. change (NoDup (slots_of (<[device_id:=SlotRecord.mk slot (Some token) DeviceStatus.PendingGrant]> (DurableState.devices m)))).
    rewrite slots_of_add by done. by apply NoDup_cons.
  - intros id r Hr. simpl in Hr. apply lookup_insert_Some in Hr as [[<- <-]|[_ Hr]]; [|by apply Hok]. split_and!; simpl; try done.
    by intros token' [= <-].
  - intros pending Hin. destruct (Hpend _ Hin) as (H1 & H2 & H3 & H4 & r & Hr & H5 & H6). split_and!; [done..|]. exists r. simpl.
    rewrite lookup_insert_ne by congruence. done.
  - intros id r Hr. simpl in Hr. simpl. apply lookup_insert_Some in Hr as [[<- <-]|[Hne Hr]]; [|by apply Hout]. split; [done|].
    change (map ?f ?l) with (f <$> l). intros (pending & -> & Hin)%list_elem_of_fmap. destruct (Hpend _ Hin) as (_ & _ & _ & _ & r & Hr & _). congruence.
Qed.

(** The devices of the outbox are those that wait for their revocation. *)
Lemma pending_is_revoke_pending m pending :
  state_valid m → pending ∈ m.(DurableState.revoke_outbox) →
  ∃ record, m.(DurableState.devices) !! pending.(PendingRevoke.device_id) = Some record ∧ is_revoke_pending record.
Proof. intros (_ & _ & _ & _ & _ & Hpend & _) Hin. destruct (Hpend _ Hin) as (_ & _ & _ & _ & r & Hr & H5 & _). eauto. Qed.

Lemma mark_registered_valid device_id m m' : state_valid m → mark_registered device_id m = Ok m' → state_valid m'.
Proof.
  intros Hv. unfold mark_registered, device_of. destruct (m.(DurableState.devices) !! id_value device_id) as [old|] eqn:Hl; [|done]. cbn [ok_or rbind].
  intros [Hs [= <-]]%rbind_ok_unit. apply reject_if_ok, bool_decide_eq_false, dec_stable in Hs.
  assert (∀ pending, pending ∈ m.(DurableState.revoke_outbox) → pending.(PendingRevoke.device_id) ≠ id_value device_id) as Hnot.
  { intros pending Hin Heq. destruct (pending_is_revoke_pending m pending Hv Hin) as (r & Hr & Hp). rewrite Heq in Hr. unfold is_revoke_pending in Hp. congruence. }
  pose proof Hv as (_ & _ & _ & Hok & Hnd & _ & Hout). destruct (Hok _ _ Hl) as (_ & _ & Htok & _). simpl in Htok. rewrite Hs in Htok.
  apply (replace_valid m (id_value device_id) old); try done.
  - intros pending Hin. left. by auto.
  - split; [done|]. change (map ?f ?l) with (f <$> l). intros (pending & Heq & Hin)%list_elem_of_fmap. by destruct (Hnot _ Hin).
Qed.

Lemma mark_revoke_pending_valid device_id record operation at_ms m m' :
  state_valid m → m.(DurableState.devices) !! id_value device_id = Some record → (status_rank record.(SlotRecord.status) < 2)%nat →
  length operation = RANDOM_ID_BYTES → 0 ≤ at_ms →
  mark_revoke_pending device_id (PendingRevoke.mk (id_value device_id) record.(SlotRecord.slot_id) (generate_remote_id operation) at_ms) m = Ok m' →
  state_valid m'.
Proof.
  intros Hv Hl Hrank Hop Hat. unfold mark_revoke_pending, device_of. rewrite Hl. intros [= <-].
  assert (∀ pending, pending ∈ m.(DurableState.revoke_outbox) → pending.(PendingRevoke.device_id) ≠ id_value device_id) as Hnot.
  { intros pending Hin Heq. destruct (pending_is_revoke_pending m pending Hv Hin) as (r & Hr & Hp). rewrite Heq, Hl in Hr. injection Hr as <-.
    rewrite Hp in Hrank. simpl in Hrank. lia. }
  pose proof Hv as (_ & _ & _ & _ & Hnd & _ & _). apply (replace_valid m (id_value device_id) record); try done.
  - change (map ?f ?l) with (f <$> l). rewrite fmap_app. apply NoDup_app. split_and!; [done| |by apply NoDup_singleton].
    intros id (pending & -> & Hin)%list_elem_of_fmap Heq%list_elem_of_singleton. by destruct (Hnot _ Hin).
  - intros pending [Hin| ->%list_elem_of_singleton]%elem_of_app; [left; by auto|]. right. simpl. split_and!; try done. by apply generated_id_is_valid.
  - split; [|done]. intros _. change (map ?f ?l) with (f <$> l). rewrite fmap_app. apply elem_of_app. right. by left.
  - intros pending Hin _. apply elem_of_app. by left.
Qed.

Lemma mark_revoked_valid pending m m' : state_valid m → mark_revoked pending m = Ok m' → state_valid m'.
Proof.
  intros Hv Hm. pose proof Hm as (record & Hl & Hs & Hslot & ->)%mark_revoked_inv. unfold mark_revoked in Hm. apply rbind_ok in Hm as (front & Hf & Hm).
  apply ok_or_ok in Hf. apply rbind_ok_unit in Hm as [Hsame _]. apply reject_if_ok in Hsame.
  rewrite !orb_false_iff, !bool_decide_eq_false in Hsame. destruct Hsame as [[Hid _] _]. apply dec_stable in Hid.
  pose proof Hv as (_ & _ & _ & Hok & Hnd & _ & _). destruct (m.(DurableState.revoke_outbox)) as [|front' rest] eqn:Hout; [done|]. injection Hf as <-. simpl in Hnd.
  apply NoDup_cons in Hnd as [Hnot Hnd]. destruct (Hok _ _ Hl) as (_ & _ & Htok & _). simpl in Htok. rewrite Hs in Htok. simpl.
  apply (replace_valid m pending.(PendingRevoke.device_id) record); try done.
  - intros p Hin. left. rewrite Hout. split; [by right|]. intros Heq. apply Hnot. rewrite Hid, <-Heq. change (map ?f ?l) with (f <$> l). apply list_elem_of_fmap. by exists p.
  - rewrite <-Hid. split; [done|]. done.
  - intros p Hin Hne. rewrite Hout in Hin. apply elem_of_cons in Hin as [->|Hin]; [congruence|done].
Qed.
End validity.

(** ** Runs *)

Section reopening.
Context `{B64 : Base64, !Base64Ok, Frames : JsonCodec RemoteControlFrame, Values : JsonCodec JsonValue, !JsonCodecOk JsonValue}.
Context `{Links : JsonCodec RemoteBootstrapWire}.
Context {C : Type} `{Exchange : !RemoteControlExchange C, Service : !RevocationService C}.
Variable path : string.
Hypothesis path_is_no_temporary : ends_with ".tmp" path = false.

(** The text of a valid state is within the limit the reader sets. *)
Hypothesis states_fit : ∀ s bytes, state_valid s → to_json (state_to_value s) = Some bytes → Z.of_nat (length bytes) ≤ 1048576.

(** Identifiers that are drawn have their length, a new slot is new, and its grant is a frame. *)
Definition good_draw (s : DurableState) (event : HostEvent link_event) : Prop :=
  match event with
  | HostPair slot token _ _ _ _ =>
      length slot = RANDOM_ID_BYTES ∧ generate_remote_id slot ∉ slots_of s.(DurableState.devices) ∧
      grant_encodes s (generate_remote_id slot) (generate_remote_token token)
  | HostRevoke operation _ at_ms => length operation = RANDOM_ID_BYTES ∧ at_ms ≤ i64_max
  | HostReconcile revoked_devices at_ms => Forall (λ entry, length entry.2 = RANDOM_ID_BYTES) revoked_devices ∧ at_ms ≤ i64_max
  | _ => True
  end.

Fixpoint good_run (n : HostMachine C) (events : list (HostEvent link_event)) : Prop :=
  match events with
  | [] => True
  | event :: events =>
      match n with
      | HostUp h => good_draw (host_memory h) event
      | HostDown _ _ => True
      end ∧ good_run (host_step path n event) events
  end.

Definition sound (s : DurableState) : Prop := state_valid s ∧ Forall i64_time s.(DurableState.revoke_outbox).

Definition durable (h : HostNode C) : Prop :=
  h.(host_plane).(RemoteControlPlane.path) = path ∧ sound (host_memory h) ∧
  ∃ f, host_file path h.(host_directory).(PrivateDirectory.files) f ∧ sound f ∧ state_later (host_memory h) f.

Definition machine_durable (n : HostMachine C) : Prop :=
  match n with
  | HostUp h => durable h
  | HostDown d _ => d.(PrivateDirectory.files) !! path = None ∨ ∃ f, host_file path d.(PrivateDirectory.files) f ∧ sound f
  end.

Lemma commit_durable mutate h :
  durable h → (∀ s, mutate (host_memory h) = Ok s → sound s ∧ state_later (host_memory h) s) → durable (host_commit mutate h).1.
Proof.
  intros (Hp & Hm & f & Hf & Hok & Hnear) Hnext. unfold host_commit. fold (host_memory h).
  destruct (mutate (host_memory h)) as [s|e] eqn:E; [|split_and!; eauto 10]. destruct (Hnext s eq_refl) as [Hs Hsn]. rewrite Hp.
  pose proof (persist_state_spec path path_is_no_temporary s (h.(host_directory).(PrivateDirectory.files) !! path) h.(host_directory) eq_refl) as Hw.
  destruct (persist_state path s _) as [d [u|e]].
  - destruct (host_validate_state s) as [[]|e]; [split_and!; [done..|]; by exists s|]. split_and!; [done..|]. by exists s.
  - split_and!; [done..|]. destruct Hw as [Hw|Hw]; [exists f|by exists s]. split_and!; try done. destruct Hf as (bytes & Hl & Hj).
    exists bytes. simpl. by rewrite Hw.
Qed.

(** An operation keeps the file in order when the memory is [m], or without regard to it. *)
Definition sustains {T} (op : host C T) : Prop := ∀ h, durable h → durable (op h).1.

Lemma sustains_bind {T U} (op : host C T) (k : T → host C U) : sustains op → (∀ v, sustains (k v)) → sustains (op ≫= k).
Proof. intros Hop Hk h Hh. specialize (Hop h Hh). unfold mbind, host_bind. destruct (op h) as [h' [v|e]]; [by apply Hk|done]. Qed.

Lemma sustains_pure {T} (r : result T RemoteControlError) : sustains (pure_host r).
Proof. by intros h Hh. Qed.
Lemma sustains_ret {T} (v : T) : sustains (mret v : host C T).
Proof. by intros h Hh. Qed.
Lemma sustains_ask {T} (query : DurableState → result T RemoteControlError) : sustains (ask_host query).
Proof. by intros h Hh. Qed.
Lemma sustains_clock at_ms : sustains (check_clock at_ms).
Proof. by intros h Hh. Qed.
Lemma sustains_kind expected response : sustains (require_kind expected response).
Proof. by intros h Hh. Qed.
Lemma sustains_request frame expected : sustains (host_request frame expected).
Proof. intros h Hh. unfold host_request. destruct (next_request_id _); [|done]. by destruct (exchange _ _ _). Qed.
Lemma sustains_wake device_id issued_at_ms : sustains (count_wake device_id issued_at_ms).
Proof. intros h Hh. unfold count_wake. repeat case_match; done. Qed.

Create HintDb host_sustains.
#[local] Hint Resolve sustains_bind sustains_pure sustains_ret sustains_ask sustains_clock sustains_kind sustains_request sustains_wake : host_sustains.

Lemma put_later m device_id old record outbox :
  m.(DurableState.devices) !! device_id = Some old → record_later old record → state_later m (put_device device_id record outbox m).
Proof. intros Hl Hr. eapply put_device_later; [|done]. intros before Hb. congruence. Qed.

Lemma sustains_grant operation device_id issued_at_ms : sustains (grant_slot operation device_id issued_at_ms).
Proof.
  unfold grant_slot. apply sustains_bind; [auto with host_sustains|]. intros credential. apply sustains_bind; [auto with host_sustains|]. intros response.
  apply sustains_bind; [auto with host_sustains|]. intros _ h Hh. apply commit_durable; [done|]. intros s Hm. destruct Hh as (_ & [Hv Ht] & _).
  split; [split; [by eapply mark_registered_valid|]|]; unfold mark_registered, device_of in Hm;
    destruct (_ !! id_value device_id) as [old|] eqn:Hl; try done; cbn [ok_or rbind] in Hm; apply rbind_ok_unit in Hm as [Hs [= <-]]; [done|].
  apply reject_if_ok, bool_decide_eq_false, dec_stable in Hs. apply (put_later _ _ old _ _ Hl). split; [done|]. rewrite Hs. simpl. lia.
Qed.

Lemma sustains_revoke operation device_id at_ms :
  length operation = RANDOM_ID_BYTES → at_ms ≤ i64_max → sustains (enqueue_revoke_after_local_registry operation device_id at_ms).
Proof.
  intros Hop Ht h Hh. unfold enqueue_revoke_after_local_registry, check_clock, pure_host, ask_host, mbind, host_bind.
  destruct (Z.ltb_spec at_ms 0) as [|H0]; [done|]. cbn [reject_if]. fold (host_memory h). unfold device_of.
  destruct (DurableState.devices (host_memory h) !! id_value device_id) as [record|] eqn:Hl; [|done]. cbn [ok_or].
  assert (∀ s, mark_revoke_pending device_id (PendingRevoke.mk (id_value device_id) record.(SlotRecord.slot_id) (generate_remote_id operation) at_ms)
                 (host_memory h) = Ok s → (status_rank record.(SlotRecord.status) < 2)%nat → sound s ∧ state_later (host_memory h) s) as Hnext.
  { intros s Hm Hrank. destruct Hh as (_ & [Hv Hts] & _). split; [split; [by eapply mark_revoke_pending_valid|]|];
      unfold mark_revoke_pending, device_of in Hm; rewrite Hl in Hm; injection Hm as <-; simpl.
    - apply Forall_app. split; [done|]. apply Forall_singleton. unfold i64_time, i64_min. simpl. lia.
    - apply (put_later _ _ record _ _ Hl). split; [done|]. simpl. lia. }
  destruct (record.(SlotRecord.status)) eqn:Hs; try done; apply commit_durable; try done; intros s Hm; apply Hnext; try done; simpl; lia.
Qed.

Lemma sustains_reconcile revoked_devices at_ms :
  Forall (λ entry, length entry.2 = RANDOM_ID_BYTES) revoked_devices → at_ms ≤ i64_max → sustains (reconcile_local_revocations revoked_devices at_ms).
Proof.
  intros Hd Ht. unfold reconcile_local_revocations. apply sustains_bind; [auto with host_sustains|]. intros _. generalize 0 as enqueued.
  induction Hd as [|[device_id operation] revoked_devices Hop _ IH]; intros enqueued; [apply sustains_ret|]. cbn [reconcile_each].
  apply sustains_bind; [|apply IH]. intros h Hh. unfold reconcile_one. destruct (_ !! _) as [record|]; [|done].
  pose proof (sustains_bind _ (λ _, pure_host (ok_or (checked_add_u64 enqueued 1) RemoteControlError.DeviceLimit))
                (sustains_revoke operation device_id at_ms Hop Ht) (λ _, sustains_pure _) h Hh) as Hk.
  by destruct (record.(SlotRecord.status)).
Qed.

Lemma sustains_flush issued_at_ms : sustains (flush_next_revoke issued_at_ms).
Proof.
  unfold flush_next_revoke. apply sustains_bind; [auto with host_sustains|]. intros _. apply sustains_bind; [auto with host_sustains|]. intros [pending|];
    [|auto with host_sustains]. apply sustains_bind.
  - intros h Hh. unfold request_revoke. destruct (next_request_id _); [|done]. destruct (exchange _ _ _) as [c [response|e]]; [done|]. by destruct e.
  - intros _. apply sustains_bind; [|auto with host_sustains]. intros h Hh. apply commit_durable; [done|]. intros s Hm. destruct Hh as (_ & [Hv Ht] & _).
    split; [split; [by eapply mark_revoked_valid|]|]; apply mark_revoked_inv in Hm as (record & Hl & Hs & _ & ->).
    + simpl. destruct (DurableState.revoke_outbox (host_memory h)); [done|]. by apply Forall_cons in Ht as [_ Ht].
    + apply (put_later _ _ record _ _ Hl). split; [done|]. rewrite Hs. simpl. lia.
Qed.

Lemma assign_durable slot token device_id h :
  durable h → validate_device_id (id_value device_id) = Ok tt → length slot = RANDOM_ID_BYTES →
  generate_remote_id slot ∉ slots_of (host_memory h).(DurableState.devices) → grant_encodes (host_memory h) (generate_remote_id slot) (generate_remote_token token) →
  durable (assign_slot slot token device_id h).1.
Proof.
  intros Hh Hid Hlen Hfresh Henc. unfold assign_slot. fold (host_memory h). destruct (is_some _) eqn:Hs; [done|]. apply is_some_false in Hs.
  destruct (Nat.leb_spec MAX_REMOTE_DEVICES (size (DurableState.devices (host_memory h)))) as [|Hsize]; [done|].
  apply commit_durable; [done|]. intros s [= <-]. destruct Hh as (_ & [Hv Ht] & _). split; [split; [|done]|].
  - apply (add_valid (host_memory h)); try done. by apply generated_id_is_valid.
  - eapply put_device_later; [|done]. intros before Hb. congruence.
Qed.

Lemma pair_durable slot token operation device_id issued_at_ms expires_at_ms h :
  durable h → good_draw (host_memory h) (HostPair slot token operation device_id issued_at_ms expires_at_ms) →
  durable (register_device_and_issue_pairing slot token operation device_id issued_at_ms expires_at_ms h).1.
Proof.
  intros Hh (Hlen & Hfresh & Henc). unfold register_device_and_issue_pairing. unfold mbind at 1, host_bind at 1, pure_host at 1.
  destruct (validate_device_id (id_value device_id)) as [[]|e] eqn:Hid; [|done]. unfold mbind at 1, host_bind at 1, pure_host at 1.
  destruct (reject_if _ _); [|done]. unfold mbind at 1, host_bind at 1. pose proof (assign_durable slot token device_id h Hh Hid Hlen Hfresh Henc) as Ha.
  destruct (assign_slot slot token device_id h) as [h' [u|e]]; [|done]. revert h' Ha. fold (sustains (T := string)).
  match goal with |- ∀ h', durable (h', _).1 → durable (?op h').1 => change (sustains op) end.
  apply sustains_bind; [auto with host_sustains|]. intros record. apply sustains_bind; [|auto with host_sustains].
  destruct (record.(SlotRecord.status)); auto using sustains_grant with host_sustains.
Qed.

Lemma operation_durable event h : durable h → good_draw (host_memory h) event → durable (host_operation event h).
Proof.
  intros Hh Hg. destruct event; cbn [host_operation]; try done.
  - unfold host_register_route. revert h Hh Hg. intros h Hh _. apply (sustains_bind _ _ (sustains_clock _)); [|done]. auto with host_sustains.
  - revert h Hh Hg. intros h Hh _. unfold refresh_presence. revert h Hh.
    match goal with |- ∀ h, durable h → durable (?op h).1 => change (sustains op) end.
    repeat (apply sustains_bind; [auto with host_sustains|intros ?]). case_match; auto with host_sustains.
  - by apply pair_durable.
  - destruct Hg. by apply sustains_revoke.
  - destruct Hg. by apply sustains_reconcile.
  - by apply sustains_flush.
  - revert h Hh Hg. intros h Hh _. unfold wake_device. revert h Hh.
    match goal with |- ∀ h, durable h → durable (?op h).1 => change (sustains op) end. auto 10 with host_sustains.
Qed.

Lemma restart_durable config route hint token n : machine_durable n → machine_durable (restart_host path config route hint token n).
Proof.
  intros Hn. set (d := machine_directory n).
  assert (d.(PrivateDirectory.files) !! path = None ∨ ∃ f, host_file path d.(PrivateDirectory.files) f ∧ sound f) as Hfile.
  { destruct n as [h|d' c']; [|done]. destruct Hn as (_ & _ & f & Hf & Hok & _). right. by exists f. }
  unfold restart_host. fold d. destruct Hfile as [Hnone|(f & Hf & Hok)].
  - pose proof (open_fresh path path_is_no_temporary config route hint token d Hnone) as Ho. cbn zeta in Ho.
    destruct (open_state path config route hint token d) as [d' [s|e]].
    + destruct Ho as (Hf & -> & Hv). split_and!; [done|by split|]. eexists. by split_and!; [done|split|].
    + destruct Ho as [Ho|[Ho Hv]]; [by left|]. right. eexists. by split; [done|split].
  - pose proof (open_written path config route hint token f _ (proj2 Hok) Hf d eq_refl) as Ho. destruct Hf as (bytes & Hb & Hj). rewrite Hb in Ho.
    destruct (open_state path config route hint token d) as [d' [s|e]].
    + destruct Ho as (Hf & -> & Hv). split_and!; [done..|]. exists f. split_and!; [by exists bytes|done|done].
    + right. exists f. split; [by exists bytes|done].
Qed.

Lemma run_durable n events : machine_durable n → good_run n events → machine_durable (run_host path n events).
Proof.
  revert n. induction events as [|event events IH]; intros n Hn Hg; [done|]. destruct Hg as [Hg Hgs]. simpl. apply IH; [|done].
  destruct event; try (by apply restart_durable); (destruct n as [h|d c]; [by apply operation_durable|done]).
Qed.

(** Opening does not fail when no call of the system does. *)
Lemma open_without_faults route hint token s d :
  d.(PrivateDirectory.faults) = [] → host_file path d.(PrivateDirectory.files) s → sound s →
  (open_state path (config_of s) route hint token d).2 = Ok s.
Proof.
  intros Hd Hf [Hv Ht]. pose proof Hf as (bytes & Hl & Hj). pose proof Hv as ((_ & _ & Hconfig & _) & _).
  unfold open_state, storage, vault_map_err, lift_vault, mbind, vault_bind. rewrite Hconfig.
  unfold PrivateFileStore_new, PrivateFileStore_load, read_private, prepare_private_directory, verify_private_path, vault_attempt, vault_exists, vault_files,
    vault_fault, mbind, vault_bind, mret, vault_ret.
  cbn -[parse_state DurableState_matches_config lookup]. repeat (first [rewrite Hd|rewrite Hl]; cbn -[parse_state DurableState_matches_config lookup]).
  rewrite (parse_written path s d.(PrivateDirectory.files)) by done. rewrite (proj2 (Z.ltb_ge _ _)) by by eapply states_fit.
  rewrite (proj2 (host_validate_state_ok s) Hv). cbn [reject_if rbind]. unfold DurableState_matches_config. simpl. by rewrite !bool_decide_true.
Qed.

(** C25: After any sequence of operations and restarts, with writes of the state that fail at any
    call, the file the host left is one it opens when no call fails: the route is the same, and
    every device it had in memory is there with its slot and at least its status; the state in
    memory is valid throughout. Identifiers that are drawn must be new, grants must fit a frame and
    states the size limit of the file. *)
Theorem remote_state_reopens d0 c0 events h route hint token
    (Hempty : d0.(PrivateDirectory.files) !! path = None) (Hgood : good_run (HostDown d0 c0) events)
    (Hup : run_host path (HostDown d0 c0) events = HostUp h) :
  host_validate_state (host_memory h) = Ok tt ∧
  ∃ s, (open_state path (config_of (host_memory h)) route hint token (without_faults h.(host_directory))).2 = Ok s ∧ state_later (host_memory h) s.
Proof.
  pose proof (run_durable (HostDown d0 c0) events (or_introl Hempty) Hgood) as Hn. rewrite Hup in Hn.
  destruct Hn as (_ & [Hv _] & f & Hf & Hok & Hlater). split; [by apply host_validate_state_ok|]. exists f. split; [|done].
  destruct Hlater as [(_ & _ & _ & Hconfig) _]. rewrite <-Hconfig. by apply open_without_faults.
Qed.

(** A change that is written and then found invalid is reported as an error, and the file it leaves is never opened again. *)
Theorem invalid_commit_blocks_opening mutate (h : HostNode C) s d e
    (Hpath : h.(host_plane).(RemoteControlPlane.path) = path) (Hmutate : mutate (host_memory h) = Ok s)
    (Htimes : Forall i64_time s.(DurableState.revoke_outbox)) (Hwritten : persist_state path s h.(host_directory) = (d, Ok tt))
    (Hinvalid : host_validate_state s = Err e) :
  host_commit mutate h = (mkHost h.(host_plane) d h.(host_connection), Err e) ∧
  ∀ config route hint token faults, is_ok (open_state path config route hint token (PrivateDirectory_set_faults faults d)).2 = false.
Proof.
  split.
  - unfold host_commit. fold (host_memory h). rewrite Hmutate, Hpath, Hwritten, Hinvalid. done.
  - intros config route hint token faults.
    pose proof (persist_state_spec path path_is_no_temporary s _ h.(host_directory) eq_refl) as Hf. rewrite Hwritten in Hf.
    pose proof (open_written path config route hint token s d.(PrivateDirectory.files) Htimes Hf (PrivateDirectory_set_faults faults d) eq_refl) as Ho.
    destruct (open_state _ _ _ _ _ _) as [d' [s'|e']]; [|done]. destruct Ho as (_ & _ & Hv%host_validate_state_ok). congruence.
Qed.
End reopening.
