(* ===== verification/RelayLink.v ===== *)
(** * The host and the relay together

    The connection of a host's remote control plane with the relay's control
    service as its other side: the worker of the relay that serves a connection
    ([handle_control_connection] of [crates/kaleido-relay/src/main.rs]), the bytes
    that get through in each direction, and what a completed revocation of the
    host means at the relay.

    Everything else that reaches the relay, from other hosts and devices, late
    copies of this host's own frames and restarts included, is a [ServiceEvent]. *)
From stdpp Require Import prelude strings gmap.
From Stdlib Require Import ZArith Lia Ascii.
From S2P Require Import Prelude ProtoBase ProtoContent TransportControl TransportBootstrap TransportRemote RemoteClient PrivateFiles RelayIds RelayRegistry RelayRegistryProofs RelayPromises RelayControl RelayControlProofs RelayService HostRemote HostRemoteProofs HostRevocation.

Local Open Scope Z_scope.
Local Opaque to_be_bytes from_be_bytes.

(** ** What a frame is on the wire *)

Section wire.
Context `{B64 : Base64, Frames : JsonCodec RemoteControlFrame}.

Lemma read_exact_inv count s s' bytes :
  read_exact count s = (s', Ok bytes) → s.(RemoteStream.incoming) = bytes ++ s'.(RemoteStream.incoming) ∧ length bytes = count.
Proof.
  unfold read_exact. set (available := match stream_fault s with Some n => Nat.min n _ | None => _ end).
  assert (available ≤ length s.(RemoteStream.incoming))%nat as Ha by (unfold available; destruct (stream_fault s); lia).
  destruct (Nat.ltb_spec available count) as [|Hc]; [done|]. intros [= <- <-]. simpl. rewrite Nat.min_l by done.
  split; [by rewrite take_drop|]. rewrite length_take. lia.
Qed.

(** What is read is a whole frame. *)
Lemma read_frame_inv s s' frame :
  read_frame s = (s', Ok frame) →
  ∃ encoded, s.(RemoteStream.incoming) = framed encoded ++ s'.(RemoteStream.incoming) ∧ RemoteControlFrame_decode encoded = Ok frame ∧
    Z.of_nat (length encoded) ≤ u32_max.
Proof.
  unfold read_frame. destruct (read_exact LENGTH_PREFIX_BYTES s) as [s1 [prefix|]] eqn:H1; [|done].
  apply read_exact_inv in H1 as [Hin Hlen]. unfold LENGTH_PREFIX_BYTES in Hlen.
  destruct (_ || _); [done|]. destruct (read_exact (Z.to_nat (from_be_bytes prefix)) s1) as [s2 [encoded|]] eqn:H2; [|done].
  apply read_exact_inv in H2 as [Hin2 Hlen2]. intros [= <- Hd]. apply map_err_ok in Hd. exists encoded.
  pose proof (from_be_bytes_range prefix) as Hrange. rewrite Hlen in Hrange. change (256 ^ Z.of_nat 4) with 4294967296 in Hrange.
  split_and!; [|done|unfold u32_max; lia]. rewrite Hin, Hin2. unfold framed. rewrite Hlen2, Z2Nat.id by lia. rewrite <-Hlen, to_from_be_bytes. by rewrite <-app_assoc.
Qed.

(** No frame is a proper part of another. *)
Lemma framed_prefix encoded encoded' rest :
  Z.of_nat (length encoded) ≤ u32_max → Z.of_nat (length encoded') ≤ u32_max →
  framed encoded ++ rest `prefix_of` framed encoded' → encoded = encoded'.
Proof.
  intros H1 H2 [more Heq]. unfold framed in Heq. rewrite <-!app_assoc in Heq.
  apply app_inj_1 in Heq as [Hlen Heq]; [|by rewrite !to_be_bytes_length].
  apply (f_equal from_be_bytes) in Hlen. rewrite !from_to_be_bytes in Hlen by (change (256 ^ Z.of_nat 4) with 4294967296; unfold u32_max in *; lia).
  apply (f_equal (take (length encoded))) in Heq. rewrite take_app_length, take_ge in Heq by lia. done.
Qed.

(** What is sent of a frame, however it ends. *)
Lemma write_frame_sends_prefix frame s :
  ∃ part, (write_frame frame s).1.(RemoteStream.sent) = s.(RemoteStream.sent) ++ part ∧
    (part = [] ∨ ∃ encoded, RemoteControlFrame_encode frame = Ok encoded ∧ part `prefix_of` framed encoded).
Proof.
  unfold write_frame. destruct (RemoteControlFrame_encode frame) as [encoded|]; [|exists []; rewrite app_nil_r; auto].
  destruct (_ <? _); [exists []; rewrite app_nil_r; auto|]. unfold stream_write_all. destruct (stream_fault s) as [n|]; simpl.
  { eexists. split; [done|]. right. exists encoded. split; [done|]. unfold framed. apply prefix_app_r. apply prefix_take. }
  destruct (stream_fault _) as [n|]; simpl.
  { eexists. rewrite <-app_assoc. split; [done|]. right. exists encoded. split; [done|]. unfold framed. apply prefix_app, prefix_take. }
  exists (framed encoded). split; [by rewrite <-app_assoc|]. right. by exists encoded.
Qed.

Lemma read_frame_sent s : (read_frame s).1.(RemoteStream.sent) = s.(RemoteStream.sent).
Proof. unfold read_frame, read_exact. repeat case_match; by simplify_eq/=. Qed.

Lemma client_request_sends frame expected c :
  ∃ part, (client_request frame expected c).1.(RemoteControlClient.stream).(RemoteStream.sent) =
            c.(RemoteControlClient.stream).(RemoteStream.sent) ++ part ∧
    (part = [] ∨ ∃ encoded, RemoteControlFrame_encode frame = Ok encoded ∧ part `prefix_of` framed encoded).
Proof.
  unfold client_request. destruct (frame_request_id frame); [|exists []; rewrite app_nil_r; auto].
  destruct (register_outgoing_request _ _ _) as [correlation []]; [|exists []; rewrite app_nil_r; auto].
  pose proof (write_frame_sends_prefix frame c.(RemoteControlClient.stream)) as (part & Hs & Hp).
  destruct (write_frame _ _) as [s1 []]; simpl in Hs; [|by exists part]. exists part. split; [|done]. rewrite <-Hs, <-(read_frame_sent s1).
  destruct (read_frame s1) as [s2 []]; [|done]. by destruct (accept_remote_response _ _) as [? []].
Qed.

(** The response is the frame that was read, and an error of the service is what it says. *)
Lemma client_request_reads frame expected c c' r :
  client_request frame expected c = (c', r) →
  match r with
  | Ok response => ∃ s1 s2, s1.(RemoteStream.incoming) = c.(RemoteControlClient.stream).(RemoteStream.incoming) ∧ read_frame s1 = (s2, Ok response)
  | Err (RemoteClientError.Rejected code) =>
      ∃ s1 s2 id retriable, s1.(RemoteStream.incoming) = c.(RemoteControlClient.stream).(RemoteStream.incoming) ∧
        read_frame s1 = (s2, Ok (RemoteControlFrame.RemoteError id code retriable))
  | Err _ => True
  end.
Proof.
  unfold client_request. destruct (frame_request_id frame); [|by intros [= <- <-]].
  destruct (register_outgoing_request _ _ _) as [correlation []]; [|by intros [= <- <-]].
  destruct (write_frame _ _) as [s1 [[]|e]] eqn:Hw.
  - apply write_frame_sends in Hw as (_ & _ & _ & Hin). destruct (read_frame s1) as [s2 [response|e]] eqn:Hr.
    + destruct (accept_remote_response _ _) as [? []]; [|by intros [= <- <-]]. intros [= <- <-]. destruct response; eauto 10.
    + intros [= <- <-]. destruct e; try done. unfold read_frame, read_exact in Hr. repeat case_match; simplify_eq/=; by destruct (RemoteControlFrame_decode _).
  - intros [= <- <-]. destruct e; try done. unfold write_frame, stream_write_all, stream_flush in Hw. repeat case_match; simplify_eq/=.
Qed.

Context `{!JsonCodecOk RemoteControlFrame}.

(** What is read of the part of a frame that gets through is that frame. *)
Lemma read_part_of frame part n s s' frame' :
  (part = [] ∨ ∃ encoded, RemoteControlFrame_encode frame = Ok encoded ∧ part `prefix_of` framed encoded) →
  s.(RemoteStream.incoming) = take n part → read_frame s = (s', Ok frame') → frame' = frame.
Proof.
  intros Hpart Hin (encoded' & Hin' & Hd & Hlen)%read_frame_inv. rewrite Hin in Hin'.
  destruct Hpart as [->|(encoded & He & Hpre)].
  - rewrite take_nil in Hin'. unfold framed in Hin'. apply (f_equal length) in Hin'. rewrite !length_app, to_be_bytes_length in Hin'. simpl in Hin'. lia.
  - destruct (remote_frame_round_trip _ _ He) as (Hd' & _ & Hl). assert (encoded' = encoded) as ->; [|congruence].
    eapply (framed_prefix _ _ s'.(RemoteStream.incoming)); [done|unfold MAX_REMOTE_CONTROL_FRAME_BYTES, u32_max in *; lia|].
    rewrite <-Hin'. etrans; [apply prefix_take|done].
Qed.
End wire.

(** ** One connection of the relay *)

Definition MAX_CONTROL_FRAMES_PER_CONNECTION : nat := 16.

(** How many frames it will serve yet. *)
Module ControlWorker.
Record ControlWorker : Type := mk {
  connection : ControlConnection;
  remaining : nat
}.
End ControlWorker.
Abbreviation ControlWorker := ControlWorker.ControlWorker.

(** The clock, the push service and the calls on the stream during a turn. *)
Module TurnInput.
Record TurnInput : Type := mk {
  now : Z;
  later : Z;
  credentials : bool;
  fcm : FcmService;
  worker_faults : list (option nat)
}.
End TurnInput.
Abbreviation TurnInput := TurnInput.TurnInput.

Section worker.
Context `{B64 : Base64, Frames : JsonCodec RemoteControlFrame, Codec : JsonCodec RegistryState, Payloads : JsonCodec PushPayload}.
Variable sha256 : list ascii → list ascii.

(** One turn of the loop of [handle_control_connection]: the worker, [None] once
    it has ended, and the device whose relayed connections are closed. *)
Definition control_turn (input : TurnInput) (w : ControlWorker) (stream : RemoteStream) (sv : ControlService) :
    option ControlWorker * RemoteStream * ControlService * option RevokedDevice :=
  match w.(ControlWorker.remaining) with
  | O => (None, stream, sv, None)
  | S remaining =>
      match read_frame stream with
      | (stream, Err _) => (None, stream, sv, None)
      | (stream, Ok frame) =>
          let '(connection, sv, outcome) := handle sha256 input.(TurnInput.now) input.(TurnInput.later) w.(ControlWorker.connection) frame sv in
          let (sv, response) := dispatch_wake input.(TurnInput.later) input.(TurnInput.credentials) input.(TurnInput.fcm) outcome sv in
          match write_frame response stream with
          | (stream, Err _) => (None, stream, sv, None)
          | (stream, Ok _) =>
              (if outcome.(ControlOutcome.close_connection) then None else Some (ControlWorker.mk connection remaining), stream, sv,
               outcome.(ControlOutcome.revoked_device))
          end
      end
  end.
End worker.

(** ** The link *)

(** How many bytes of a request and of its response get through. *)
Module Delivery.
Record Delivery : Type := mk {
  turn : TurnInput;
  arrives : nat;
  returned : nat;
  client_faults : list (option nat)
}.
End Delivery.
Abbreviation Delivery := Delivery.Delivery.

(** The script has an entry for each exchange; one without is lost. *)
Module RelayLink.
Record RelayLink : Type := mk {
  session : PinnedRemoteControlSession;
  worker : option ControlWorker;
  relay : ServiceNode;
  script : list Delivery
}.
End RelayLink.
Abbreviation RelayLink := RelayLink.RelayLink.

Definition RelayLink_set_session (v : PinnedRemoteControlSession) (r : RelayLink) : RelayLink := {|
  RelayLink.session := v;
  RelayLink.worker := r.(RelayLink.worker);
  RelayLink.relay := r.(RelayLink.relay);
  RelayLink.script := r.(RelayLink.script)
|}.

Definition RelayLink_set_worker (v : option ControlWorker) (r : RelayLink) : RelayLink := {|
  RelayLink.session := r.(RelayLink.session);
  RelayLink.worker := v;
  RelayLink.relay := r.(RelayLink.relay);
  RelayLink.script := r.(RelayLink.script)
|}.

Definition RelayLink_set_relay (v : ServiceNode) (r : RelayLink) : RelayLink := {|
  RelayLink.session := r.(RelayLink.session);
  RelayLink.worker := r.(RelayLink.worker);
  RelayLink.relay := v;
  RelayLink.script := r.(RelayLink.script)
|}.

Definition session_on (incoming : list ascii) (faults : list (option nat)) (session : PinnedRemoteControlSession) : PinnedRemoteControlSession :=
  PinnedRemoteControlSession.mk
    (RemoteControlClient.mk (RemoteStream.mk incoming [] faults) session.(PinnedRemoteControlSession.client).(RemoteControlClient.correlation))
    session.(PinnedRemoteControlSession.next_id) session.(PinnedRemoteControlSession.usable).

Inductive LinkEvent : Type :=
| LinkService (event : ServiceEvent)
| LinkConnect (delivery : Delivery)
| LinkTimeout.

Section link.
Context `{B64 : Base64, Frames : JsonCodec RemoteControlFrame, Codec : JsonCodec RegistryState, Payloads : JsonCodec PushPayload}.
Variable sha256 : list ascii → list ascii.
Variable path : string.

(** What the relay makes of the bytes that arrive, and the bytes it answers with. *)
Definition relay_turn (input : TurnInput) (request : list ascii) (l : RelayLink) : RelayLink * list ascii :=
  match request, l.(RelayLink.worker), l.(RelayLink.relay) with
  | _ :: _, Some w, ServiceUp sv =>
      let '(w, stream, sv, _) := control_turn sha256 input w (RemoteStream.mk request [] input.(TurnInput.worker_faults)) sv in
      (RelayLink_set_relay (ServiceUp sv) (RelayLink_set_worker w l), stream.(RemoteStream.sent))
  | _, _, _ => (l, [])
  end.

(** The host sends its request, the relay serves what arrives of it, and the host
    reads what comes back. *)
Definition link_exchange (frame : RemoteControlFrame) (expected : ExpectedRemoteResponse) (l : RelayLink) :
    RelayLink * result RemoteControlFrame RemoteControlError :=
  match l.(RelayLink.script) with
  | [] =>
      let (session, r) := session_exchange frame expected (session_on [] [] l.(RelayLink.session)) in (RelayLink_set_session session l, r)
  | delivery :: script =>
      let faults := delivery.(Delivery.client_faults) in
      let sending := (session_exchange frame expected (session_on [] faults l.(RelayLink.session))).1 in
      let sent := sending.(PinnedRemoteControlSession.client).(RemoteControlClient.stream).(RemoteStream.sent) in
      let (l, response) := relay_turn delivery.(Delivery.turn) (take delivery.(Delivery.arrives) sent) l in
      let (session, r) := session_exchange frame expected (session_on (take delivery.(Delivery.returned) response) faults l.(RelayLink.session)) in
      (RelayLink.mk session l.(RelayLink.worker) l.(RelayLink.relay) script, r)
  end.

#[export] Instance relay_link_exchange : RemoteControlExchange RelayLink := {|
  next_request_id l := next_request_id l.(RelayLink.session);
  exchange := link_exchange
|}.

(** A host that stops, or connects again, gives up its session. *)
Definition relay_link_drop (l : RelayLink) : RelayLink :=
  RelayLink_set_session
    (PinnedRemoteControlSession.mk l.(RelayLink.session).(PinnedRemoteControlSession.client) l.(RelayLink.session).(PinnedRemoteControlSession.next_id) false)
    (RelayLink_set_worker None l).

(** [connect]: a new worker of the relay, and the exchange of hellos. *)
Definition link_connect (delivery : Delivery) (l : RelayLink) : RelayLink :=
  let l := RelayLink_set_worker (Some (ControlWorker.mk ControlConnection_default MAX_CONTROL_FRAMES_PER_CONNECTION)) l in
  let faults := delivery.(Delivery.client_faults) in
  let sent := (client_connected (RemoteStream.mk [] [] faults)).1.(RemoteControlClient.stream).(RemoteStream.sent) in
  let (l, response) := relay_turn delivery.(Delivery.turn) (take delivery.(Delivery.arrives) sent) l in
  match session_connected (RemoteStream.mk (take delivery.(Delivery.returned) response) [] faults) with
  | Ok session => RelayLink_set_session session l
  | Err _ => relay_link_drop l
  end.

Definition relay_link_step (event : LinkEvent) (l : RelayLink) : RelayLink :=
  match event with
  | LinkService event =>
      RelayLink_set_relay (apply_service sha256 path l.(RelayLink.relay) event)
        (RelayLink_set_worker (match event with ServiceRestart => None | _ => l.(RelayLink.worker) end) l)
  | LinkConnect delivery => link_connect delivery l
  | LinkTimeout => RelayLink_set_worker None l
  end.
End link.

(** ** The relay behind the link *)

Section link_proofs.
Context `{B64 : Base64, Frames : JsonCodec RemoteControlFrame, !JsonCodecOk RemoteControlFrame}.
Context `{Codec : JsonCodec RegistryState, !JsonCodecOk RegistryState, Payloads : JsonCodec PushPayload}.
Variable sha256 : list ascii → list ascii.
Variable path : string.
Hypothesis path_is_no_temporary : ends_with ".tmp" path = false.
Hypothesis digests_are_not_reserved : ∀ bytes, sha256 bytes ≠ zero_digest.

Lemma every_frame_is_sane event : frame_sane sha256 event.
Proof.
  destruct event as [event| |]; [|done..]. intros call Hreq. destruct event.(FrameEvent.frame); cbn [requested_call] in Hreq; try done;
    repeat (apply bind_Some in Hreq as (? & ? & Hreq)); injection Hreq as <-; simpl; try done; try apply digests_are_not_reserved.
  destruct (convert_push address) as [push|] eqn:Hp; [|done]. simplify_eq. unfold convert_push in Hp. checks_ok.
  unfold fcm_fid in *. repeat case_match; simplify_eq/=; congruence.
Qed.

Lemma every_run_is_sane events : service_sane sha256 events.
Proof. intros event _. apply every_frame_is_sane. Qed.

Lemma dispatch_wake_run later credentials fcm outcome sv :
  ∃ events, ServiceUp (dispatch_wake later credentials fcm outcome sv).1 = run_service sha256 path (ServiceUp sv) events.
Proof.
  unfold dispatch_wake. destruct (outcome.(ControlOutcome.wake)) as [dispatch|]; [|by exists []].
  destruct (send_wake _ _ _ _ _) as [|error]; [by exists []|]. destruct error; try (by exists []). by exists [ServiceUnregistered dispatch].
Qed.

Lemma control_turn_run input w stream sv :
  ∃ events, ServiceUp (control_turn sha256 input w stream sv).1.2 = run_service sha256 path (ServiceUp sv) events.
Proof.
  unfold control_turn. destruct (w.(ControlWorker.remaining)); [by exists []|]. destruct (read_frame stream) as [stream1 [frame|]]; [|by exists []].
  destruct (handle _ _ _ _ _ _) as [[connection sv1] outcome] eqn:Hh.
  destruct (dispatch_wake_run input.(TurnInput.later) input.(TurnInput.credentials) input.(TurnInput.fcm) outcome sv1) as [events Hd].
  destruct (dispatch_wake _ _ _ _ _) as [sv2 response]. simpl in Hd.
  exists (ServiceFrame (FrameEvent.mk w.(ControlWorker.connection) input.(TurnInput.now) input.(TurnInput.later) frame) :: events).
  simpl. unfold handle_event. simpl. rewrite Hh. simpl. unfold run_service in *. rewrite <-Hd. by destruct (write_frame _ _) as [? []].
Qed.

Lemma relay_turn_run input request l :
  (∃ events, (relay_turn sha256 input request l).1.(RelayLink.relay) = run_service sha256 path l.(RelayLink.relay) events) ∧
  (relay_turn sha256 input request l).1.(RelayLink.session) = l.(RelayLink.session).
Proof.
  unfold relay_turn. destruct request as [|byte request]; [by split; [exists []|]|]. destruct (l.(RelayLink.worker)) as [w|]; [|by split; [exists []|]].
  destruct (l.(RelayLink.relay)) as [sv|d] eqn:Hr; [|split; [exists []; exact Hr|done]].
  pose proof (control_turn_run input w (RemoteStream.mk (byte :: request) [] input.(TurnInput.worker_faults)) sv) as [events He].
  destruct (control_turn _ _ _ _ _) as [[[w' stream] sv'] revoked]. split; [by exists events|done].
Qed.

(** The worker served the frame and answered with the response. *)
Definition served (frame response : RemoteControlFrame) (l l' : RelayLink) : Prop :=
  ∃ input connection sv connection' sv1 outcome sv2,
    l.(RelayLink.relay) = ServiceUp sv ∧ l'.(RelayLink.relay) = ServiceUp sv2 ∧
    handle sha256 input.(TurnInput.now) input.(TurnInput.later) connection frame sv = (connection', sv1, outcome) ∧
    dispatch_wake input.(TurnInput.later) input.(TurnInput.credentials) input.(TurnInput.fcm) outcome sv1 = (sv2, response).

Lemma nothing_to_read s s' frame : s.(RemoteStream.incoming) = [] → read_frame s ≠ (s', Ok frame).
Proof.
  intros Hin (encoded & Hin' & _)%read_frame_inv. rewrite Hin in Hin'. apply (f_equal length) in Hin'. unfold framed in Hin'.
  rewrite !length_app, to_be_bytes_length in Hin'. simpl in Hin'. lia.
Qed.

Lemma nothing_to_read_take s s' frame m bytes : s.(RemoteStream.incoming) = take m bytes → bytes = [] → read_frame s ≠ (s', Ok frame).
Proof. intros Hin ->. rewrite take_nil in Hin. by apply nothing_to_read. Qed.

Lemma relay_turn_serves frame input part n l m s s' response :
  (part = [] ∨ ∃ encoded, RemoteControlFrame_encode frame = Ok encoded ∧ part `prefix_of` framed encoded) →
  s.(RemoteStream.incoming) = take m (relay_turn sha256 input (take n part) l).2 → read_frame s = (s', Ok response) →
  served frame response l (relay_turn sha256 input (take n part) l).1.
Proof.
  intros Hpart. unfold relay_turn. destruct (take n part) as [|byte request] eqn:Hreq; [intros Hin Hr; by destruct (nothing_to_read_take _ _ _ _ _ Hin eq_refl Hr)|].
  destruct (l.(RelayLink.worker)) as [w|]; [|intros Hin Hr; by destruct (nothing_to_read_take _ _ _ _ _ Hin eq_refl Hr)].
  destruct (l.(RelayLink.relay)) as [sv|d] eqn:Hrelay; [|intros Hin Hr; by destruct (nothing_to_read_take _ _ _ _ _ Hin eq_refl Hr)].
  unfold control_turn. destruct (w.(ControlWorker.remaining)) as [|remaining]; [intros Hin Hr; by destruct (nothing_to_read_take _ _ _ _ _ Hin eq_refl Hr)|].
  destruct (read_frame _) as [stream1 [frame'|]] eqn:Hread.
  all: pose proof (read_frame_sent (RemoteStream.mk (byte :: request) [] input.(TurnInput.worker_faults))) as Hsent; rewrite Hread in Hsent; simpl in Hsent.
  2: { intros Hin Hr. by destruct (nothing_to_read_take _ _ _ _ _ Hin Hsent Hr). }
  apply (read_part_of frame part n) in Hread as ->; [|done|done].
  destruct (handle _ _ _ _ _ _) as [[connection' sv1] outcome] eqn:Hh. destruct (dispatch_wake _ _ _ _ _) as [sv2 response'] eqn:Hd.
  pose proof (write_frame_sends_prefix response' stream1) as (part' & Hp' & Hpre'). rewrite Hsent in Hp'.
  destruct (write_frame response' stream1) as [stream2 wres]. simpl in Hp'. intros Hin Hr.
  assert (response = response') as ->.
  { apply (read_part_of response' part' m) in Hr; [done..|]. rewrite Hin, <-Hp'. by destruct wres. }
  exists input, w.(ControlWorker.connection), sv, connection', sv1, outcome, sv2. split_and!; [done| |done..]. by destruct wres.
Qed.

(** What the host makes of an exchange was said by the relay. *)
Lemma link_exchange_served frame expected l l' r :
  link_exchange sha256 frame expected l = (l', r) →
  match r with
  | Ok response => served frame response l l'
  | Err RemoteControlError.Revoked => ∃ id retriable, served frame (RemoteControlFrame.RemoteError id WireErrorCode.Revoked retriable) l l'
  | Err _ => True
  end.
Proof.
  unfold link_exchange. destruct (l.(RelayLink.script)) as [|delivery script].
  - unfold session_exchange. destruct (_ || _); [by intros [= <- <-]|]. destruct (client_request _ _ _) as [c cr] eqn:Hc. apply client_request_reads in Hc.
    destruct cr as [response|e].
    + destruct Hc as (s1 & s2 & Hin & Hr). by destruct (nothing_to_read _ _ _ Hin Hr).
    + intros [= <- <-]. destruct e as [| | | |code]; try done. destruct code; try done. destruct Hc as (s1 & s2 & ? & ? & Hin & Hr). by destruct (nothing_to_read _ _ _ Hin Hr).
  - set (faults := delivery.(Delivery.client_faults)). set (sent := (session_exchange _ _ _).1.(PinnedRemoteControlSession.client).(RemoteControlClient.stream).(RemoteStream.sent)).
    assert (sent = [] ∨ ∃ encoded, RemoteControlFrame_encode frame = Ok encoded ∧ sent `prefix_of` framed encoded) as Hsent.
    { unfold sent, session_exchange. destruct (_ || _); [by left|].
      pose proof (client_request_sends frame expected (session_on [] faults l.(RelayLink.session)).(PinnedRemoteControlSession.client)) as (part & Hs & Hp).
      destruct (client_request _ _ _) as [c cr]. simpl in Hs. destruct cr; simpl; [destruct (checked_add_u64 _ _); simpl|]; by rewrite Hs. }
    clearbody sent. pose proof (relay_turn_serves frame delivery.(Delivery.turn) sent delivery.(Delivery.arrives) l delivery.(Delivery.returned)) as Hserve.
    destruct (relay_turn sha256 _ _ l) as [l1 reply]. simpl in Hserve.
    unfold session_exchange. destruct (_ || _); [by intros [= <- <-]|]. destruct (client_request _ _ _) as [c cr] eqn:Hc. apply client_request_reads in Hc.
    destruct cr as [response|e].
    + destruct Hc as (s1 & s2 & Hin & Hr). apply (Hserve s1 s2) in Hr; [|done|done]. intros [= <- <-]. exact Hr.
    + intros [= <- <-]. destruct e as [| | | |code]; try done. destruct code; try done. destruct Hc as (s1 & s2 & id & retriable & Hin & Hr).
      apply (Hserve s1 s2) in Hr; [|done|done]. exists id, retriable. exact Hr.
Qed.

(** ** What the relay keeps of a slot *)

Lemma slot_known_step regrant id slot_id s s' : relay_step regrant s s' → slot_known id slot_id s → slot_known id slot_id s'.
Proof.
  apply route_fact_step.
  - done.
  - intros route slot digest Hk _. simpl. destruct (decide (slot = slot_id)) as [->|Hne]; [left; rewrite lookup_insert_eq; eauto|].
    by rewrite lookup_insert_ne, lookup_delete_ne.
  - intros route slot grant Hk Hg. simpl. destruct (decide (slot = slot_id)) as [->|Hne]; [right; rewrite lookup_insert_eq; eauto|].
    by rewrite lookup_delete_ne, lookup_insert_ne.
Qed.

Lemma slot_known_forget id slot_id s : slot_known id slot_id s → slot_known id slot_id (forget_presence s).
Proof. intros (route & Hl & Hs). eexists. rewrite forget_lookup, Hl. split; [done|]. done. Qed.

Definition relay_says (fact : RouteId → DeviceSlotId → RegistryState → Prop) (route slot : string) (l : RelayLink) : Prop :=
  ∃ route_id slot_id, from_opaque KRoute route = Some route_id ∧ from_opaque KDeviceSlot slot = Some slot_id ∧
    relay_node_ok path (λ s, relay_ok s ∧ fact route_id slot_id s) (as_relay l.(RelayLink.relay)).

#[export] Instance relay_revocation_service : RevocationService RelayLink := {|
  link_step := relay_link_step sha256 path;
  link_drop := relay_link_drop;
  link_ok l := RelayService.node_ok path (as_relay l.(RelayLink.relay));
  service_knows := relay_says slot_known;
  service_refuses := relay_says slot_revoked
|}.

Lemma link_run_later (l l' : RelayLink) events :
  link_ok l → l'.(RelayLink.relay) = run_service sha256 path l.(RelayLink.relay) events → link_later l l'.
Proof.
  intros Hok Hrun. split_and!.
  - simpl. rewrite Hrun. apply run_service_node_ok; [done|apply every_run_is_sane|done].
  - intros route slot (route_id & slot_id & Hr & Hs & Hn). exists route_id, slot_id. split_and!; [done..|]. rewrite Hrun.
    apply run_service_ok; [done|apply slot_known_forget|intros s s'; apply slot_known_step|apply every_run_is_sane|done].
  - intros route slot (route_id & slot_id & Hr & Hs & Hn). exists route_id, slot_id. split_and!; [done..|]. rewrite Hrun.
    apply run_service_ok; [done|apply slot_revoked_forget|intros s s'; apply slot_revoked_step; tauto|apply every_run_is_sane|done].
Qed.

Lemma link_exchange_later frame expected (l : RelayLink) : link_ok l → link_later l (link_exchange sha256 frame expected l).1.
Proof.
  intros Hok. unfold link_exchange. destruct (l.(RelayLink.script)) as [|delivery script].
  - destruct (session_exchange _ _ _) as [session r]. by apply (link_run_later _ _ []).
  - match goal with |- context [relay_turn sha256 ?input ?request l] => destruct (relay_turn_run input request l) as [[events He] _];
      destruct (relay_turn sha256 input request l) as [l1 response] end.
    destruct (session_exchange _ _ _) as [session r]. by apply (link_run_later _ _ events).
Qed.

Lemma relay_step_later event (l : RelayLink) : link_ok l → link_later l (relay_link_step sha256 path event l).
Proof.
  intros Hok. destruct event as [event|delivery|]; simpl.
  - by apply (link_run_later _ _ [event]).
  - unfold link_connect. match goal with |- context [relay_turn sha256 ?input ?request ?l1] => destruct (relay_turn_run input request l1) as [[events He] _];
      destruct (relay_turn sha256 input request l1) as [l2 response] end.
    destruct (session_connected _); by apply (link_run_later _ _ events).
  - by apply (link_run_later _ _ []).
Qed.

(** *** A grant that was answered *)

Lemma dispatch_wake_inv later credentials fcm outcome sv sv' response :
  dispatch_wake later credentials fcm outcome sv = (sv', response) →
  sv' = sv ∧ response = outcome.(ControlOutcome.response) ∨
  ∃ id code retriable, response = RemoteControlFrame.RemoteError id code retriable ∧ code ≠ WireErrorCode.Revoked.
Proof.
  unfold dispatch_wake. destruct (outcome.(ControlOutcome.wake)) as [dispatch|]; [|intros [= <- <-]; by left].
  destruct (send_wake _ _ _ _ _) as [|error]; intros [= <- <-]; [by left|]. right. eexists _, _, _. split; [done|]. by destruct error.
Qed.

Lemma register_grant_change registration s s' :
  register_device_grant_in sha256 registration s = Ok s' →
  slot_known registration.(DeviceGrantRegistration.route_id) registration.(DeviceGrantRegistration.slot_id) s'.
Proof.
  unfold register_device_grant_in, route_of, require_admin. intros Hr. checks_ok. destruct (RouteRecord.grants _ !! _) as [grant|] eqn:Hg; checks_ok.
  - eexists. split; [done|]. left. eauto.
  - eexists. simpl. rewrite lookup_insert_eq. split; [done|]. left. simpl. rewrite lookup_insert_eq. eauto.
Qed.

Lemma answered_grant now later request_id operation_id issued_at_ms route slot token admin_token sv sv' v :
  RelayService.node_ok path (as_relay (ServiceUp sv)) →
  operate sha256 now later (RemoteControlFrame.RegisterDeviceGrant request_id operation_id issued_at_ms route slot token admin_token) sv = (sv', Ok v) →
  ∃ route_id slot_id, from_opaque KRoute route = Some route_id ∧ from_opaque KDeviceSlot slot = Some slot_id ∧
    relay_node_ok path (λ s, relay_ok s ∧ slot_known route_id slot_id s) (as_relay (ServiceUp sv')).
Proof.
  intros [Hn _]. cbn [operate]. unfold do_register_grant. intros Hop.
  repeat match type of Hop with (pure_control _ ≫= _) _ = _ => apply pure_bind_inv in Hop as [(? & _ & [=] & _)|(? & ? & Hop)] end.
  apply ask_bind_inv in Hop as [(? & _ & [=] & _)|([] & _ & Hop)].
  eapply (accept_bind_inv sha256 now (RemoteControlFrame.RegisterDeviceGrant request_id operation_id issued_at_ms route slot token admin_token)) in Hop
    as [[[=] _]|(sv1 & (Hreg & Hdir & _) & _ & Hop)]; [|done].
  repeat match type of Hop with (pure_control _ ≫= _) _ = _ => apply pure_bind_inv in Hop as [(? & _ & [=] & _)|(? & ? & Hop)] end.
  apply commit_bind_inv in Hop as (sv2 & res & Hcall & _ & [(? & [=] & _)|[-> Hop]]). injection Hop as <- _.
  repeat match goal with H : _ = Ok _ |- _ => apply parse_some in H end. rewrite Hreg, Hdir in Hcall.
  match type of Hcall with register_device_grant _ ?registration _ _ = _ => set (call := RegisterDeviceGrant registration) end.
  eexists _, _. split_and!; [done..|].
  apply (committed_fact sha256 path path_is_no_temporary hosts_are_present _ call sv.(ControlService.registry) sv.(ControlService.directory)); try done.
  - apply digests_are_not_reserved.
  - intros s'. apply register_grant_change.
  - apply slot_known_forget.
Qed.

(** *** A revocation that was answered, or refused because there is no grant *)

Lemma handle_error now later connection frame sv connection' sv' outcome id retriable :
  handle sha256 now later connection frame sv = (connection', sv', outcome) →
  outcome.(ControlOutcome.response) = RemoteControlFrame.RemoteError id WireErrorCode.Revoked retriable →
  is_revocation frame → operate sha256 now later frame sv = (sv', Err WireErrorCode.Revoked).
Proof.
  intros Hh Hout Hrev. unfold handle, handle_inner in Hh. destruct (expected_request frame connection) as [request_id|e] eqn:He.
  - destruct (negb _); [destruct frame; simplify_eq/=; done|]. destruct (operate _ _ _ _ _) as [sv1 [[[response wake] revoked]|e]] eqn:Hop; simplify_eq/=; [|done].
    destruct frame; try done. cbn [operate] in Hop. unfold do_revoke, mbind, control_bind, mret, control_ret in Hop. repeat case_match; simplify_eq/=.
  - unfold expected_request in He. destruct (frame_request_id frame); simplify_eq/=. destruct (checked_add_u64 _ _); simplify_eq/=. destruct (negb _); simplify_eq/=.
Qed.

Lemma parse_error {k} value e : parse (k := k) value = Err e → e = WireErrorCode.MalformedFrame.
Proof. unfold parse. by destruct (from_opaque k value); intros [= <-]. Qed.

Lemma accept_revocation_error now operation_id issued_at_ms credential sv :
  (accept_revocation sha256 now operation_id issued_at_ms credential sv).2 ≠ Err WireErrorCode.Revoked.
Proof.
  unfold accept_revocation. destruct (accept_operation _ _ _ _ _ _) as [sv1 r] eqn:E.
  apply accept_operation_effect in E as (_ & _ & [(e & Hk & -> & _)|(key & _ & _ & ->)]).
  - unfold operation_key, parse in Hk. destruct (issued_at_ms <? 0); simplify_eq/=; [done|]. destruct (_ <? _); simplify_eq/=; [done|].
    destruct (from_opaque _ _); simplify_eq/=. done.
  - unfold check_and_record. repeat case_match; simplify_eq/=; done.
Qed.

Lemma refused_revocation now later request_id operation_id issued_at_ms route slot admin_token route_id slot_id sv sv' :
  sv.(ControlService.registry).(Registry.path) = Some path →
  slot_of (RemoteControlFrame.RevokeDeviceGrant request_id operation_id issued_at_ms route slot admin_token) = Some (route_id, slot_id) →
  slot_known route_id slot_id (registry_state sv) →
  operate sha256 now later (RemoteControlFrame.RevokeDeviceGrant request_id operation_id issued_at_ms route slot admin_token) sv =
    (sv', Err WireErrorCode.Revoked) →
  slot_revoked route_id slot_id (registry_state sv').
Proof.
  intros Hpath Hslot Hknown Hop. cbn [slot_of operate] in *. apply bind_Some in Hslot as (? & Hr & Hslot). apply bind_Some in Hslot as (? & Hs & [= -> ->]).
  unfold do_revoke in Hop.
  repeat match type of Hop with (pure_control _ ≫= _) _ = _ => apply pure_bind_inv in Hop as [(e & He & [= <-] & _)|(? & ? & Hop)];
    [by apply parse_error in He|] end.
  repeat match goal with H : _ = Ok _ |- _ => apply parse_some in H end. simplify_eq.
  apply ask_bind_inv in Hop as [(e & _ & He & _)|([] & Hauth & Hop)]; [by unfold map_admin_auth_error in He; destruct (RemoteError_code e)|].
  pose proof (accept_revocation_error now operation_id issued_at_ms admin_token sv) as Hacc.
  unfold mbind at 1, control_bind at 1 in Hop. destruct (accept_revocation _ _ _ _ _ sv) as [sv1 [replayed|e]] eqn:E; [|simpl in *; congruence].
  assert (sv1.(ControlService.registry) = sv.(ControlService.registry)) as Hreg.
  { unfold accept_revocation in E. destruct (accept_operation _ _ _ _ _ sv) as [sv2 r] eqn:E2. apply accept_operation_effect in E2 as (Hreg & _).
    destruct r as [|[]]; congruence. }
  unfold mbind, control_bind in Hop. destruct (revoke_or_replay _ _ _ _ _ sv1) as [sv2 [[]|e]] eqn:E2; [done|]. injection Hop as <- ->.
  unfold revoke_or_replay in E2. destruct (change _ sv1) as [sv3 res] eqn:E3. apply change_effect in E3 as [Hc _].
  destruct res as [|error]; [done|].
  assert (sv3 = sv2 ∧ RemoteError_code error = RemoteErrorCode.Revoked) as [-> Hcode].
  { destruct (replayed && _); [done|]. injection E2 as <- He. split; [done|]. unfold map_error in He. by destruct (RemoteError_code error). }
  eapply registry_commit_result in Hc as [Hsame [Hm|Hm]]; [|unfold is_storage_error in Hm; congruence|by rewrite Hreg].
  unfold registry_state. rewrite Hsame, Hreg. rewrite Hreg in Hm. by eapply revoked_or_known.
Qed.

(** A slot that is revoked in memory is revoked for good. *)
Lemma revoked_in_memory (l : RelayLink) sv route slot route_id slot_id :
  link_ok l → l.(RelayLink.relay) = ServiceUp sv → from_opaque KRoute route = Some route_id → from_opaque KDeviceSlot slot = Some slot_id →
  slot_revoked route_id slot_id (registry_state sv) → service_refuses route slot l.
Proof.
  intros Hok Hup Hr Hs Hrev. exists route_id, slot_id. split_and!; [done..|]. simpl in Hok. rewrite Hup in *.
  destruct Hok as [[(Hp & [Hok _] & Hf) (s & Hsf & Hso & _)] Hfile]. split; [done|]. exists s. split_and!; [done..|]. by eapply Hfile.
Qed.

#[export] Instance relay_revocation_laws : RevocationServiceLaws RelayLink (H := relay_link_exchange sha256).
Proof.
  split.
  - intros frame expected l. apply link_exchange_later.
  - intros event l. apply relay_step_later.
  - intros l Hok. by apply (link_run_later _ _ []).
  - intros request_id operation_id issued_at_ms route slot token admin_token l l' response Hok Hx Hkind.
    pose proof Hx as (input & connection & sv & connection' & sv1 & outcome & sv2 & Hup & Hup' & Hh & Hd)%link_exchange_served.
    apply dispatch_wake_inv in Hd as [[-> ->]|(id & code & retriable & -> & _)]; [|done].
    assert (answered outcome = true) as Ha by (unfold answered; by destruct (outcome.(ControlOutcome.response))).
    apply handle_inv in Hh as [[_ Hno]|(a & Hop & Hans & _)]; [by specialize (Hno ltac:(by rewrite Ha))|].
    destruct a as [v|e]; [|by rewrite (Hans eq_refl) in Ha]. simpl in Hok. rewrite Hup in Hok.
    destruct (answered_grant _ _ _ _ _ _ _ _ _ _ _ _ Hok Hop) as (route_id & slot_id & Hr & Hs & Hn). exists route_id, slot_id. by rewrite Hup'.
  - intros request_id operation_id issued_at_ms route slot admin_token l l' r Hok (route_id & slot_id & Hr & Hs & Hknown) Hx Hres.
    pose proof (link_exchange_later (RemoteControlFrame.RevokeDeviceGrant request_id operation_id issued_at_ms route slot admin_token)
                  ExpectedRemoteResponse.DeviceGrantRevoked l Hok) as [Hok' _]. simpl in Hx. rewrite Hx in Hok'. simpl in Hok'.
    assert (slot_of (RemoteControlFrame.RevokeDeviceGrant request_id operation_id issued_at_ms route slot admin_token) = Some (route_id, slot_id)) as Hslot
      by (cbn [slot_of]; by rewrite Hr; simpl; rewrite Hs).
    apply link_exchange_served in Hx. destruct r as [response|e].
    + destruct Hx as (input & connection & sv & connection' & sv1 & outcome & sv2 & Hup & Hup' & Hh & Hd).
      apply dispatch_wake_inv in Hd as [[-> ->]|(id & code & retriable & -> & _)]; [|done].
      assert (answered outcome = true) as Ha by (unfold answered; by destruct (outcome.(ControlOutcome.response))).
      apply handle_inv in Hh as [[_ Hno]|(a & Hop & Hans & _)]; [by specialize (Hno ltac:(by rewrite Ha))|].
      destruct a as [v|e]; [|by rewrite (Hans eq_refl) in Ha]. rewrite Hup in *. destruct Hknown as [(Hp & [_ Hkn] & _) _].
      eapply revoked_in_memory; [done..|]. by eapply answered_revocation.
    + subst e. destruct Hx as (id & retriable & input & connection & sv & connection' & sv1 & outcome & sv2 & Hup & Hup' & Hh & Hd).
      apply dispatch_wake_inv in Hd as [[-> Hout]|(id' & code & retriable' & [= <- <- <-] & Hne)]; [|done].
      apply (handle_error _ _ _ _ _ _ _ _ id retriable) in Hh; [|done|done]. rewrite Hup in *. destruct Hknown as [(Hp & [_ Hkn] & _) _].
      eapply revoked_in_memory; [done..|]. by eapply refused_revocation.
Qed.
End link_proofs.

(** ** Host and relay *)

Section together.
Context `{B64 : Base64, Frames : JsonCodec RemoteControlFrame, !JsonCodecOk RemoteControlFrame, Values : JsonCodec JsonValue, !JsonCodecOk JsonValue}.
Context `{Links : JsonCodec RemoteBootstrapWire, Codec : JsonCodec RegistryState, !JsonCodecOk RegistryState, Payloads : JsonCodec PushPayload}.
Variable sha256 : list ascii → list ascii.
Variables state_path registry_path : string.
Hypothesis state_is_no_temporary : ends_with ".tmp" state_path = false.
Hypothesis registry_is_no_temporary : ends_with ".tmp" registry_path = false.
Hypothesis digests_are_not_reserved : ∀ bytes, sha256 bytes ≠ zero_digest.

#[local] Instance linked_exchange : RemoteControlExchange RelayLink := relay_link_exchange sha256.
#[local] Instance linked_service : RevocationService RelayLink := relay_revocation_service sha256 registry_path.
#[local] Instance linked_laws : RevocationServiceLaws RelayLink :=
  relay_revocation_laws sha256 registry_path registry_is_no_temporary digests_are_not_reserved.

Definition run_linked : HostMachine RelayLink → list (HostEvent LinkEvent) → HostMachine RelayLink := run_host state_path.

(** C6: Host and relay composed over a wire that may lose any part of a request or of a response:
    when a device that the host had registered is reported as revoked by flush_next_revoke, the
    relay refuses every frame that names its slot, other than one that revokes it again, without
    changing its registry, and admits no bearer for it, then and ever after, whatever the host,
    other clients and late frames do and however often either side restarts. Both start on
    directories without their files, and no token has the reserved digest of zeros. *)
Theorem completed_revocations_hold_at_the_relay d0 l0 dr events h device_id slot more h1 issued_at_ms h2 completion later h3 sv
    (Hhost : d0.(PrivateDirectory.files) !! state_path = None)
    (Hrelay : l0.(RelayLink.relay) = ServiceDown dr) (Hregistry : dr.(PrivateDirectory.files) !! registry_path = None)
    (Htyped : Forall typed_event (events ++ more ++ later))
    (Hup : run_linked (HostDown d0 l0) events = HostUp h) (Hregistered : registered_at (host_memory h) device_id slot)
    (Hmore : run_linked (HostUp h) more = HostUp h1)
    (Hflush : flush_next_revoke issued_at_ms h1 = (h2, Ok (Some completion)))
    (Hdevice : id_value completion.(RevokeCompletion.device_id) = device_id)
    (Hlater : run_linked (HostUp h2) later = HostUp h3) (Hserving : h3.(host_connection).(RelayLink.relay) = ServiceUp sv) :
  completion.(RevokeCompletion.device_slot_id) = slot ∧
  ∃ route_id slot_id,
    from_opaque KRoute (host_memory h).(DurableState.route_id) = Some route_id ∧ from_opaque KDeviceSlot slot = Some slot_id ∧
    (∀ now later connection frame, slot_of frame = Some (route_id, slot_id) → is_revocation frame = false →
       answered (handle sha256 now later connection frame sv).2 = false ∧
       registry_state (handle sha256 now later connection frame sv).1.2 = registry_state sv) ∧
    ∀ bearer identity, authenticate_bearer sha256 bearer (registry_state sv) = Ok identity →
      identity.(BearerIdentity.route_id) = route_id → identity.(BearerIdentity.slot_id) ≠ Some slot_id.
Proof.
  assert (link_ok l0) as Hlink by (simpl; rewrite Hrelay; by apply first_node_ok).
  destruct (completed_revocations_reach_the_service (Exchange := linked_exchange) (Service := linked_service) state_path state_is_no_temporary d0 l0 events h device_id slot more h1 issued_at_ms h2 completion later h3)
    as (Hslot & _ & route_id & slot_id & Hr & Hs & Hn); [done..|].
  split; [done|]. exists route_id, slot_id. split_and!; [done..| |]; rewrite Hserving in Hn; destruct Hn as [(_ & [_ Hrev] & _) _].
  - intros now later' connection frame Hof Hno. destruct (handle _ _ _ _ _ _) as [[connection' sv'] outcome] eqn:Hh. simpl.
    apply handle_inv in Hh as [[-> Ha]|(a & Hop & Ha & _)].
    + split; [|done]. destruct (answered outcome); [|done]. specialize (Ha I). by destruct frame.
    + eapply revoked_slot_frames in Hop as [Hok Hst]; [|done..]. by split; [apply Ha|].
  - by apply revoked_slot_is_refused.
Qed.
End together.
