(* ===== verification/HostAuth.v ===== *)
(** * The authentication of a connection

    Models [crates/kaleido-hostd/src/server.rs] from the TLS handshake to the
    business loop: the two hellos, pairing, and the challenge of a known device
    ([handle_connection], [authenticate], [authentication_failed]).

    A connection thread shares the registry, the challenges, the limiter and the
    count of failures with the other threads and takes a lock for each use.  Here
    each use first lets the other threads act: [others] lists what they do before
    each lock.  What the peer sends, the outcome of each write, and the clocks
    are part of the state; random bytes are arguments. *)
From stdpp Require Import prelude strings gmap.
From Stdlib Require Import ZArith Lia Ascii.
From S2P Require Import Prelude ProtoBase ProtoContent ProtoRuntime ProtoCommand ProtoProjection TransportControl TransportFrame TransportCorrelation TransportLimits TransportAuth TransportBootstrap TransportRegistry RegistryProofs HostLimits.

Local Open Scope Z_scope.

Module LanServerError.
Inductive LanServerError : Type :=
| Socket
| Tls
| Transport
| Broker
| WorkerStopped
| Remote.
End LanServerError.
Abbreviation LanServerError := LanServerError.LanServerError.

#[export] Instance LanServerError_eq_dec : EqDecision LanServerError.
Proof. solve_decision. Defined.

Definition TRANSPORT_VERSION : string := "0.1.0".

Definition error_code (error : TransportError) : TransportErrorCode :=
  match error with
  | TransportError.VersionMismatch => TransportErrorCode.VersionMismatch
  | TransportError.MalformedFrame => TransportErrorCode.MalformedFrame
  | TransportError.FrameTooLarge => TransportErrorCode.FrameTooLarge
  | TransportError.RateLimited => TransportErrorCode.RateLimited
  | TransportError.PairingInvalid => TransportErrorCode.PairingInvalid
  | TransportError.AuthenticationFailed => TransportErrorCode.AuthenticationFailed
  | TransportError.ChallengeExpired => TransportErrorCode.ChallengeExpired
  | TransportError.ChallengeReplayed => TransportErrorCode.ChallengeReplayed
  | TransportError.DeviceRevoked => TransportErrorCode.DeviceRevoked
  | TransportError.TooManyConnections => TransportErrorCode.TooManyConnections
  | TransportError.TooManySubscriptions => TransportErrorCode.RateLimited
  | TransportError.Persistence | TransportError.InvalidKeyMaterial | TransportError.InsecurePermissions
  | TransportError.Internal | TransportError.TimeOverflow => TransportErrorCode.Internal
  end.

Definition map_transport (error : TransportError) : LanServerError := LanServerError.Transport.

Definition control_request_id (frame : ControlFrame) : option Z :=
  match frame with
  | ControlFrame.PairRequest request => Some request.(PairRequest.request_id)
  | ControlFrame.ChallengeRequest request_id _ | ControlFrame.ChallengeProof request_id _ _ => Some request_id
  | _ => None
  end.

Definition hello_request_id (frame : ControlFrame) : option Z :=
  match frame with
  | ControlFrame.TransportHello request_id _ _ | ControlFrame.UacpHello request_id _ => Some request_id
  | _ => None
  end.

(** ** Shared and own state *)

Section host_auth.
Context `{P256, Base64}.
Variable sha256 : list ascii → list ascii.
Context {B : Type} `{DurableBackend B}.

Record ServerShared : Type := mkShared {
  registry : SecurityStore B;
  challenges : ChallengeStore;
  limiter : ConnectionLimiter;
  auth_failures : AuthFailureLimiter
}.

(** One use of the shared state by another thread. *)
Inductive SharedCall : Type :=
| OtherChallenge (call : ChallengeCall)
| OtherIssue (input : IssuePairing) (secret : list ascii)
| OtherPair (request : PairRequest) (now_ms : Z) (entropy : nat → list ascii)
| OtherRevoke (device_id : DeviceId) (at_ms : Z)
| OtherLimiter (call : LimiterCall)
| OtherLogin (event : LoginEvent).

Definition set_registry (r : SecurityStore B) (sh : ServerShared) : ServerShared :=
  mkShared r sh.(challenges) sh.(limiter) sh.(auth_failures).
Definition set_challenges (c : ChallengeStore) (sh : ServerShared) : ServerShared :=
  mkShared sh.(registry) c sh.(limiter) sh.(auth_failures).
Definition set_limiter (l : ConnectionLimiter) (sh : ServerShared) : ServerShared :=
  mkShared sh.(registry) sh.(challenges) l sh.(auth_failures).
Definition set_auth_failures (f : AuthFailureLimiter) (sh : ServerShared) : ServerShared :=
  mkShared sh.(registry) sh.(challenges) sh.(limiter) f.

Definition apply_shared (sh : ServerShared) (call : SharedCall) : ServerShared :=
  match call with
  | OtherChallenge call => set_challenges (apply_challenge sh.(challenges) call) sh
  | OtherIssue input secret => set_registry (issue_pairing sha256 input secret sh.(registry)).1 sh
  | OtherPair request now_ms entropy => set_registry (pair_device sha256 request now_ms entropy sh.(registry)).1 sh
  | OtherRevoke device_id at_ms => set_registry (revoke_and_then device_id at_ms (λ _ (u : unit), u) tt sh.(registry)).1.1 sh
  | OtherLimiter call => set_limiter (apply_limiter_call sh.(limiter) call) sh
  | OtherLogin event => set_auth_failures (apply_login sh.(auth_failures) event) sh
  end.

(** The state of a connection thread. *)
Record Thread : Type := mkThread {
  shared : ServerShared;
  others : list (list SharedCall);
  session : ConnectionSession;
  last_request_id : Z;
  inbox : list (result ControlFrame LanServerError);
  written : list ControlFrame;
  write_faults : list (option LanServerError);
  wall_clock : nat → Z;
  instants : nat → Z;
  readings : nat
}.

Definition thread_shared (sh : ServerShared) (th : Thread) : Thread :=
  mkThread sh th.(others) th.(session) th.(last_request_id) th.(inbox) th.(written) th.(write_faults) th.(wall_clock)
    th.(instants) th.(readings).
Definition thread_others (o : list (list SharedCall)) (th : Thread) : Thread :=
  mkThread th.(shared) o th.(session) th.(last_request_id) th.(inbox) th.(written) th.(write_faults) th.(wall_clock)
    th.(instants) th.(readings).
Definition thread_session (s : ConnectionSession) (th : Thread) : Thread :=
  mkThread th.(shared) th.(others) s th.(last_request_id) th.(inbox) th.(written) th.(write_faults) th.(wall_clock)
    th.(instants) th.(readings).
Definition thread_request (id : Z) (th : Thread) : Thread :=
  mkThread th.(shared) th.(others) th.(session) id th.(inbox) th.(written) th.(write_faults) th.(wall_clock)
    th.(instants) th.(readings).
Definition thread_inbox (frames : list (result ControlFrame LanServerError)) (th : Thread) : Thread :=
  mkThread th.(shared) th.(others) th.(session) th.(last_request_id) frames th.(written) th.(write_faults) th.(wall_clock)
    th.(instants) th.(readings).
Definition thread_written (frames : list ControlFrame) (faults : list (option LanServerError)) (th : Thread) : Thread :=
  mkThread th.(shared) th.(others) th.(session) th.(last_request_id) th.(inbox) frames faults th.(wall_clock)
    th.(instants) th.(readings).
Definition thread_readings (n : nat) (th : Thread) : Thread :=
  mkThread th.(shared) th.(others) th.(session) th.(last_request_id) th.(inbox) th.(written) th.(write_faults) th.(wall_clock)
    th.(instants) n.

(** ** The monad of a connection thread *)

Definition serve (T : Type) : Type := Thread → Thread * result T LanServerError.

#[local] Instance serve_ret : MRet serve := λ T value th, (th, Ok value).
#[local] Instance serve_bind : MBind serve := λ T U k m th,
  match m th with
  | (th, Ok value) => k value th
  | (th, Err e) => (th, Err e)
  end.

Definition serve_fail {T} (e : LanServerError) : serve T := λ th, (th, Err e).
Definition serve_lift {T} (r : result T LanServerError) : serve T := λ th, (th, r).

(** [lock(..)]: the other threads act, then [op] runs alone. *)
Definition locked {A} (op : ServerShared → ServerShared * A) : serve A := λ th,
  let sh := foldl apply_shared th.(shared) (default [] (head th.(others))) in
  let (sh, value) := op sh in
  (thread_others (tail th.(others)) (thread_shared sh th), Ok value).

Definition on_session {T} (op : ConnectionSession → ConnectionSession * result T TransportError) : serve T := λ th,
  let (s, r) := op th.(session) in (thread_session s th, map_err map_transport r).

Definition now_ms : serve Z := λ th, (thread_readings (S th.(readings)) th, Ok (th.(wall_clock) th.(readings))).
Definition instant_now : serve Z := λ th, (thread_readings (S th.(readings)) th, Ok (th.(instants) th.(readings))).

(** [read_control_until]: the next frame of the peer, or why there is none. *)
Definition read_control : serve ControlFrame := λ th,
  match th.(inbox) with
  | [] => (th, Err LanServerError.Socket)
  | frame :: rest => (thread_inbox rest th, frame)
  end.

(** [write_control_until] *)
Definition write_control (frame : ControlFrame) : serve unit := λ th,
  match th.(write_faults) with
  | Some e :: rest => (thread_written th.(written) rest th, Err e)
  | faults => (thread_written (th.(written) ++ [frame]) (tail faults) th, Ok tt)
  end.

Definition write_transport_error (request_id : option Z) (error : TransportError) (retriable : bool) : serve unit :=
  write_control (ControlFrame.TransportError request_id (error_code error) retriable).

Definition require_monotonic_request (request_id : Z) : serve unit := λ th,
  if (request_id =? 0) || (request_id <=? th.(last_request_id)) then (th, Err LanServerError.Transport)
  else (thread_request request_id th, Ok tt).

(** ** Authentication *)

(** The random bytes an authentication may draw. *)
Record AuthRandom : Type := mkRandom { random_challenge : list ascii; random_nonce : list ascii; random_device : nat → list ascii }.

Definition note_failure (source_ip : IpAddr) : serve unit :=
  now ← instant_now;
  locked (λ sh, (set_auth_failures (record_failure source_ip now sh.(auth_failures)) sh, tt)).

Definition authentication_failed {T} (source_ip : IpAddr) (request_id : Z) : serve T :=
  _ ← note_failure source_ip;
  _ ← write_transport_error (Some request_id) TransportError.AuthenticationFailed false;
  serve_fail (map_transport TransportError.AuthenticationFailed).

(** The end of both ways in: a place for the device, the session, the answer. *)
Definition accept_device (connection_scope : string) (source_ip : IpAddr) (request_id : Z) (device_id : DeviceId)
    (answer : Z → ControlFrame) : serve DeviceId :=
  placed ← locked (λ sh, let (l, r) := ConnectionLimiter_authenticate connection_scope device_id sh.(limiter) in (set_limiter l sh, r));
  match placed with
  | Err error =>
      _ ← write_transport_error (Some request_id) error true;
      serve_fail (map_transport error)
  | Ok _ =>
      now ← now_ms;
      expires_at_ms ← on_session (ConnectionSession_authenticate device_id now);
      _ ← write_control (answer expires_at_ms);
      _ ← locked (λ sh, (set_auth_failures (clear_failures source_ip sh.(auth_failures)) sh, tt));
      mret device_id
  end.

Definition authenticate_pairing (random : AuthRandom) (host_id : HostId) (request : PairRequest) (connection_scope : string)
    (source_ip : IpAddr) : serve DeviceId :=
  let request_id := request.(PairRequest.request_id) in
  _ ← require_monotonic_request request_id;
  now ← now_ms;
  paired ← locked (λ sh, let (r, device) := pair_device sha256 request now random.(random_device) sh.(registry) in (set_registry r sh, device));
  match paired with
  | Err error =>
      _ ← note_failure source_ip;
      _ ← write_transport_error (Some request_id) error false;
      serve_fail (map_transport error)
  | Ok device =>
      accept_device connection_scope source_ip request_id device.(DeviceRecord.device_id) (λ expires_at_ms,
        ControlFrame.PairResponse (PairResponse.mk request_id device.(DeviceRecord.device_id) host_id TRANSPORT_VERSION
                                     PROTOCOL_VERSION connection_scope expires_at_ms))
  end.

(** [ChallengeStore::verify], and for an unknown device the consumption of its
    challenge with an invalid key. *)
Definition verify_proof (connection_scope : string) (proof : ChallengeProof) (device : option DeviceRecord) : serve (option DeviceId) :=
  match device with
  | Some device =>
      now ← now_ms;
      verified ← locked (λ sh,
        let (c, r) := ChallengeStore_verify connection_scope proof device.(DeviceRecord.public_key_spki) false now sh.(challenges) in
        (set_challenges c sh, r));
      mret (match verified with Ok device_id => Some device_id | Err _ => None end)
  | None =>
      now ← now_ms;
      _ ← locked (λ sh, (set_challenges (ChallengeStore_verify connection_scope proof [] false now sh.(challenges)).1 sh, tt));
      mret None
  end.

Definition authenticate_challenge (random : AuthRandom) (host_id : HostId) (request_id : Z) (device_id : DeviceId)
    (connection_scope : string) (tls_exporter : list ascii) (source_ip : IpAddr) : serve DeviceId :=
  _ ← require_monotonic_request request_id;
  device ← locked (λ sh, (sh, match device_for_auth device_id sh.(registry) with Ok device => Some device | Err _ => None end));
  now ← now_ms;
  issued ← locked (λ sh,
    let (c, r) := ChallengeStore_issue
      (IssueChallenge.mk connection_scope request_id TRANSPORT_VERSION PROTOCOL_VERSION host_id device_id tls_exporter now)
      random.(random_challenge) random.(random_nonce) sh.(challenges) in
    (set_challenges c sh, map_err map_transport r));
  challenge ← serve_lift issued;
  _ ← write_control (ControlFrame.DeviceChallenge request_id challenge.(DeviceChallenge.challenge_id)
                       challenge.(DeviceChallenge.nonce) challenge.(DeviceChallenge.expires_at_ms));
  frame ← read_control;
  match frame with
  | ControlFrame.ChallengeProof proof_request_id challenge_id signature_der =>
      if negb (proof_request_id =? request_id) then authentication_failed source_ip request_id
      else
        authenticated ← verify_proof connection_scope (ChallengeProof.mk proof_request_id challenge_id signature_der) device;
        match authenticated with
        | None => authentication_failed source_ip request_id
        | Some authenticated =>
            accept_device connection_scope source_ip request_id authenticated (λ expires_at_ms,
              ControlFrame.AuthAccepted request_id connection_scope expires_at_ms)
        end
  | _ => authentication_failed source_ip request_id
  end.

Definition authenticate (random : AuthRandom) (host_id : HostId) (auth : ControlFrame) (connection_scope : string)
    (tls_exporter : list ascii) (source_ip : IpAddr) : serve DeviceId :=
  now ← instant_now;
  allowed ← locked (λ sh, let (f, r) := check_failures source_ip now sh.(auth_failures) in (set_auth_failures f sh, r));
  match allowed with
  | Err error =>
      _ ← write_transport_error (control_request_id auth) error false;
      serve_fail (map_transport error)
  | Ok _ =>
      match auth with
      | ControlFrame.PairRequest request => authenticate_pairing random host_id request connection_scope source_ip
      | ControlFrame.ChallengeRequest request_id device_id =>
          authenticate_challenge random host_id request_id device_id connection_scope tls_exporter source_ip
      | _ => _ ← note_failure source_ip; serve_fail LanServerError.Transport
      end
  end.

(** ** From the handshake to the business loop *)

Definition greet (accept : ControlFrame → Z → ConnectionSession → ConnectionSession * result Z TransportError)
    (answer : Z → ControlFrame) : serve unit :=
  hello ← read_control;
  now ← now_ms;
  accepted ← (λ th, let (s, r) := accept hello now th.(session) in (thread_session s th, Ok r)) : serve (result Z TransportError);
  match accepted with
  | Err error =>
      _ ← write_transport_error (hello_request_id hello) error false;
      serve_fail (map_transport error)
  | Ok request_id =>
      _ ← require_monotonic_request request_id;
      write_control (answer request_id)
  end.

(** [handle_connection] up to [business_loop], once TLS is established and its
    exporter known. *)
Definition admit_connection (random : AuthRandom) (host_id : HostId) (connection_scope : string) (tls_exporter : list ascii)
    (source_ip : IpAddr) : serve DeviceId :=
  now ← now_ms;
  _ ← on_session (tls_established now);
  _ ← greet accept_transport_hello (λ request_id, ControlFrame.TransportHelloAck request_id TRANSPORT_VERSION MAX_FRAME_LENGTH);
  _ ← greet accept_uacp_hello (λ request_id, ControlFrame.UacpHelloAck request_id PROTOCOL_VERSION);
  auth ← read_control;
  _ ← (λ th, (th, map_err map_transport (ensure_auth_frame auth th.(session)))) : serve unit;
  authenticate random host_id auth connection_scope tls_exporter source_ip.
End host_auth.
