(* ===== verification/HostAuthProofs.v ===== *)
(** * What an authenticated connection rests on

    Whatever the other threads do meanwhile, a connection is authenticated only
    for a device that was just paired on it, or that signed the challenge of this
    very connection with the key the registry holds for it. *)
From stdpp Require Import prelude strings gmap.
From Stdlib Require Import ZArith Lia Ascii.
From S2P Require Import Prelude ProtoBase ProtoContent ProtoRuntime ProtoCommand ProtoProjection TransportControl TransportFrame TransportCorrelation TransportLimits TransportAuth TransportBootstrap TransportRegistry RegistryProofs HostLimits HostAuth.

Local Open Scope Z_scope.

Section host_auth_proofs.
Context `{P256, Base64}.
Variable sha256 : list ascii → list ascii.
Context {B : Type} `{DurableBackend B}.

#[local] Existing Instance serve_ret.
#[local] Existing Instance serve_bind.

Implicit Types th : @Thread B.

Lemma serve_bind_ok {T U} (m : serve T) (k : T → serve U) th th' v :
  (m ≫= k) th = (th', Ok v) → ∃ th1 a, m th = (th1, Ok a) ∧ k a th1 = (th', Ok v).
Proof. unfold mbind, serve_bind. destruct (m th) as [th1 [a|e]]; [|done]. intros Hk. by exists th1, a. Qed.

(** What a step outside the locks leaves alone. *)
Definition same_shared th th' : Prop := th'.(shared) = th.(shared) ∧ th'.(others) = th.(others).
Definition same_clock th th' : Prop := th'.(wall_clock) = th.(wall_clock) ∧ th'.(readings) = th.(readings).

Lemma locked_ok {A} (op : ServerShared → ServerShared * A) th th' v :
  locked sha256 op th = (th', Ok v) →
  ∃ sh, op (foldl (apply_shared sha256) th.(shared) (default [] (head th.(others)))) = (sh, v) ∧
    th' = thread_others (tail th.(others)) (thread_shared sh th).
Proof. unfold locked. destruct (op _) as [sh a]. intros [= <- <-]. by exists sh. Qed.

Lemma write_ok frame th th' v : write_control frame th = (th', Ok v) → same_shared th th' ∧ th'.(session) = th.(session) ∧ th'.(inbox) = th.(inbox) ∧ same_clock th th'.
Proof. unfold write_control. destruct th.(write_faults) as [|[e|] rest]; [|done|]; by intros [= <- _]. Qed.

Lemma monotonic_ok id th th' v :
  require_monotonic_request id th = (th', Ok v) → same_shared th th' ∧ th'.(session) = th.(session) ∧ th'.(inbox) = th.(inbox) ∧ same_clock th th'.
Proof. unfold require_monotonic_request. destruct (_ || _); [done|]. by intros [= <- _]. Qed.

Lemma authentication_failed_fails {T} ip id th th' (v : T) : authentication_failed sha256 ip id th ≠ (th', Ok v).
Proof.
  intros (th1 & a & _ & E)%serve_bind_ok. by apply serve_bind_ok in E as (th2 & b & _ & E).
Qed.

Lemma session_authenticated device now s s' expiry :
  ConnectionSession_authenticate device now s = (s', Ok expiry) →
  s'.(ConnectionSession.stage) = ConnectionStage.Authenticated ∧ s'.(ConnectionSession.authenticated_device) = Some device.
Proof.
  unfold ConnectionSession_authenticate. destruct (require_stage _ _); [|done]. destruct (id_is_empty device); [done|].
  destruct (add_time _ _); [|done]. by intros [= <- _].
Qed.

Lemma accept_device_ok scope ip id device answer th th' device' :
  accept_device sha256 scope ip id device answer th = (th', Ok device') →
  device' = device ∧ th'.(session).(ConnectionSession.stage) = ConnectionStage.Authenticated ∧
  th'.(session).(ConnectionSession.authenticated_device) = Some device.
Proof.
  intros (th1 & placed & _ & E)%serve_bind_ok. destruct placed as [[]|error]; [|by apply serve_bind_ok in E as (? & ? & _ & E)].
  apply serve_bind_ok in E as (th2 & now & _ & E). apply serve_bind_ok in E as (th3 & expiry & Hs & E).
  apply serve_bind_ok in E as (th4 & [] & Hw & E). apply serve_bind_ok in E as (th5 & [] & Hl & E). injection E as <- <-.
  unfold on_session in Hs. destruct (ConnectionSession_authenticate device now th2.(session)) as [s [x|e]] eqn:Ha; [|done].
  injection Hs as <- <-. apply session_authenticated in Ha. apply write_ok in Hw as (_ & Hw & _). apply locked_ok in Hl as (sh & _ & ->).
  simpl in *. rewrite Hw. done.
Qed.

(** ** The registry a connection meets *)

(** The registry after the other threads acted before the first [n] locks. *)
Definition registry_at (n : nat) th : SecurityStore B :=
  (foldl (apply_shared sha256) th.(shared) (concat (take n th.(others)))).(registry).

Lemma foldl_registry calls : ∀ sh sh' : ServerShared,
  sh.(registry) = sh'.(registry) →
  (foldl (apply_shared sha256) sh calls).(registry) = (foldl (apply_shared sha256) sh' calls).(registry).
Proof.
  induction calls as [|call calls IH]; intros sh sh' E; [done|]. simpl. apply IH. destruct call; simpl; congruence.
Qed.

Lemma registry_after_lock th sh n :
  sh.(registry) = (foldl (apply_shared sha256) th.(shared) (default [] (head th.(others)))).(registry) →
  registry_at n (thread_others (tail th.(others)) (thread_shared sh th)) = registry_at (S n) th.
Proof.
  intros E. unfold registry_at. simpl. destruct th.(others) as [|calls rest]; simpl in *; [rewrite take_nil; simpl; done|].
  rewrite foldl_app. by apply foldl_registry.
Qed.

(** ** The challenges of a connection *)

(** Another thread does not issue challenges for this connection. *)
Definition foreign (scope : string) (call : SharedCall) : Prop :=
  match call with
  | OtherChallenge (IssueCall input _ _) => input.(IssueChallenge.connection_scope) ≠ scope
  | _ => True
  end.

(** The challenges arose from calls among which those for the connection are [own]. *)
Definition challenges_from (scope : string) (own : IssueChallenge → list ascii → list ascii → Prop) (c : ChallengeStore) : Prop :=
  ∃ calls, c = run_challenges calls ∧
    ∀ input id nonce, IssueCall input id nonce ∈ calls → input.(IssueChallenge.connection_scope) = scope → own input id nonce.

Lemma challenges_from_call scope own c call :
  challenges_from scope own c →
  match call with
  | IssueCall input id nonce => input.(IssueChallenge.connection_scope) = scope → own input id nonce
  | _ => True
  end → challenges_from scope own (apply_challenge c call).
Proof.
  intros (calls & -> & Hown) Hcall. exists (calls ++ [call]). split; [by unfold run_challenges; rewrite foldl_snoc|].
  intros input id nonce [Hin| <-%list_elem_of_singleton]%elem_of_app; [by apply Hown|done].
Qed.

Lemma challenges_from_others scope own calls : ∀ sh,
  challenges_from scope own sh.(challenges) → Forall (foreign scope) calls →
  challenges_from scope own (foldl (apply_shared sha256) sh calls).(challenges).
Proof.
  induction calls as [|call calls IH]; intros sh Hc Hf; [done|]. apply Forall_cons in Hf as [Hcall Hf]. simpl. apply IH; [|done].
  destruct call as [c| | | | |]; simpl; try done. apply challenges_from_call; [done|]. by destruct c.
Qed.

Definition undisturbed (scope : string) th : Prop := Forall (Forall (foreign scope)) th.(others).

Lemma undisturbed_head scope th : undisturbed scope th → Forall (foreign scope) (default [] (head th.(others))).
Proof. unfold undisturbed. destruct th.(others); [constructor|]. by intros [? _]%Forall_cons. Qed.
Lemma undisturbed_tail scope th sh : undisturbed scope th → undisturbed scope (thread_others (tail th.(others)) (thread_shared sh th)).
Proof. unfold undisturbed. simpl. destruct th.(others); [done|]. by intros [_ ?]%Forall_cons. Qed.

(** The signature that lets a device in, of a challenge issued at [issued_at] and
    checked at [verified_at]. *)
Definition signed_challenge (host_id : HostId) (device : DeviceId) (tls_exporter : list ascii) (random : AuthRandom)
    (key signature : list ascii) (issued_at verified_at : Z) : Prop :=
  verified_at < issued_at + CHALLENGE_LIFETIME_MS ∧
  ∃ transcript,
    build_transcript (ChallengeTranscript.mk TRANSPORT_VERSION PROTOCOL_VERSION host_id device tls_exporter
                        random.(random_challenge) random.(random_nonce) (issued_at + CHALLENGE_LIFETIME_MS)) = Ok transcript ∧
    verify_transcript_signature key transcript signature = Ok tt.

Lemma verified_proof scope own proof device th th' authenticated :
  challenges_from scope own th.(shared).(challenges) → undisturbed scope th →
  verify_proof sha256 scope proof device th = (th', Ok (Some authenticated)) →
  ∃ record input nonce transcript,
    device = Some record ∧ own input proof.(ChallengeProof.challenge_id) nonce ∧
    input.(IssueChallenge.request_id) = proof.(ChallengeProof.request_id) ∧ input.(IssueChallenge.device_id) = authenticated ∧
    th.(wall_clock) th.(readings) < input.(IssueChallenge.now_ms) + CHALLENGE_LIFETIME_MS ∧
    build_transcript (transcript_of (stored_of input nonce (input.(IssueChallenge.now_ms) + CHALLENGE_LIFETIME_MS))
                        proof.(ChallengeProof.challenge_id)) = Ok transcript ∧
    verify_transcript_signature record.(DeviceRecord.public_key_spki) transcript proof.(ChallengeProof.signature_der) = Ok tt.
Proof.
  intros Hc Hu. destruct device as [record|]; simpl.
  - intros (th1 & now & E1 & E)%serve_bind_ok. injection E1 as <- <-. apply serve_bind_ok in E as (th2 & verified & Hl & E).
    apply locked_ok in Hl as (sh & Hop & ->). simpl in Hop.
    destruct (ChallengeStore_verify _ _ _ _ _ _) as [c r] eqn:Hv. injection Hop as <- <-. destruct r as [device_id|]; [|done].
    injection E as _ ->.
    destruct (challenges_from_others scope own (default [] (head th.(others))) th.(shared)) as (calls & Hcalls & Hown);
      [done|by apply undisturbed_head|]. rewrite Hcalls in Hv.
    destruct (verified_challenge calls scope proof record.(DeviceRecord.public_key_spki) false (th.(wall_clock) th.(readings)) authenticated)
      as (_ & before & input & nonce & after & transcript & -> & Hs & Hr & Hd & Ht & Hb & Hsig & _); [by rewrite Hv|].
    exists record, input, nonce, transcript. split_and!; try done. apply Hown; [|done].
    apply elem_of_app. right. by left.
  - intros (th1 & now & _ & E)%serve_bind_ok. by apply serve_bind_ok in E as (th2 & [] & _ & E).
Qed.

Lemma challenge_ok random host_id request_id device_id scope tls_exporter ip th th' device :
  challenges_from scope (λ _ _ _, False) th.(shared).(challenges) → undisturbed scope th →
  authenticate_challenge sha256 random host_id request_id device_id scope tls_exporter ip th = (th', Ok device) →
  device = device_id ∧ th'.(session).(ConnectionSession.stage) = ConnectionStage.Authenticated ∧
  th'.(session).(ConnectionSession.authenticated_device) = Some device ∧
  ∃ record signature, device_for_auth device (registry_at 1 th) = Ok record ∧
    head th.(inbox) = Some (Ok (ControlFrame.ChallengeProof request_id random.(random_challenge) signature)) ∧
    signed_challenge host_id device tls_exporter random record.(DeviceRecord.public_key_spki) signature
      (th.(wall_clock) th.(readings)) (th.(wall_clock) (S th.(readings))).
Proof.
  intros Hc Hu (th1 & [] & E1 & E)%serve_bind_ok. apply monotonic_ok in E1 as ([Hsh Hot] & _ & Hin & Hclock & Hread).
  apply serve_bind_ok in E as (th2 & known & E2 & E). apply locked_ok in E2 as (sh2 & Hop2 & ->). injection Hop2 as <- Hknown.
  apply serve_bind_ok in E as (th3 & issued_at & E3 & E). injection E3 as <- <-.
  apply serve_bind_ok in E as (th4 & issued & E4 & E). apply locked_ok in E4 as (sh4 & Hop4 & ->). simpl in Hop4.
  set (input := IssueChallenge.mk _ _ _ _ _ _ _ _) in Hop4. destruct (ChallengeStore_issue input _ _ _) as [c r] eqn:Hissue. injection Hop4 as <- <-.
  apply serve_bind_ok in E as (th5 & challenge & E5 & E). unfold serve_lift in E5. injection E5 as <- Hr.
  apply serve_bind_ok in E as (th6 & [] & E6 & E). apply write_ok in E6 as ([Hsh6 Hot6] & _ & Hin6 & Hclock6 & Hread6). simpl in Hsh6, Hot6, Hin6, Hclock6, Hread6.
  apply serve_bind_ok in E as (th7 & frame & E7 & E). unfold read_control in E7. rewrite Hin6, Hin in E7.
  destruct th.(inbox) as [|incoming inbox'] eqn:Hinbox; [done|]. injection E7 as <- ->.
  destruct frame as [| | | | | | | |rid cid sig| | | | | | | | | | | | | | | |]; try by apply authentication_failed_fails in E.
  destruct (Z.eqb_spec rid request_id) as [->|]; [|by apply authentication_failed_fails in E]. simpl in E.
  apply serve_bind_ok in E as (th8 & authenticated & E8 & E). destruct authenticated as [authenticated|]; [|by apply authentication_failed_fails in E].
  apply accept_device_ok in E as (-> & Hstage & Hdev).
  rewrite Hsh, Hot in *. set (after1 := foldl (apply_shared sha256) th.(shared) (default [] (head th.(others)))) in *.
  set (own := λ i id nonce, (i : IssueChallenge) = input ∧ id = random.(random_challenge) ∧ nonce = random.(random_nonce)).
  eapply (verified_proof scope own) in E8 as (record & i & nonce & transcript & Hrec & (-> & Hcid & ->) & _ & Hdid & Ht & Hb & Hsig).
  - simpl in *. subst cid. assert (authenticated = device_id) as -> by done. split_and!; [done..|]. exists record, sig. split_and!.
    + rewrite Hrec in Hknown. unfold registry_at.
      assert (foldl (apply_shared sha256) th.(shared) (concat (take 1 th.(others))) = after1) as ->
        by (subst after1; destruct th.(others); simpl; by rewrite ?app_nil_r, ?take_0).
      destruct (device_for_auth device_id after1.(registry)); [|done]. congruence.
    + done.
    + unfold input in Hb, Ht. cbn in Hb, Ht. rewrite Hclock6, Hread6, ?Hclock, ?Hread in Ht. rewrite ?Hclock, ?Hread in Hb.
      split; [done|by exists transcript].
  - simpl. rewrite Hsh6. simpl.
    assert (challenges_from scope own (foldl (apply_shared sha256) after1 (default [] (head (tail th.(others))))).(challenges)) as Hc2.
    { apply challenges_from_others.
      - apply challenges_from_others; [|by apply undisturbed_head]. destruct Hc as (calls & -> & Hno). exists calls. split; [done|].
        intros i id n Hi Hs. by destruct (Hno i id n Hi Hs).
      - by apply (undisturbed_head scope (thread_others (tail th.(others)) (thread_shared after1 th))), undisturbed_tail. }
    pose proof (challenges_from_call scope own _ (IssueCall input random.(random_challenge) random.(random_nonce)) Hc2) as Hc3.
    simpl in Hc3. rewrite Hissue in Hc3. by apply Hc3.
  - unfold undisturbed in *. simpl. rewrite Hot6. simpl. apply Forall_tail, Forall_tail. done.
Qed.

Lemma pairing_ok random host_id request scope ip th th' device :
  authenticate_pairing sha256 random host_id request scope ip th = (th', Ok device) →
  th'.(session).(ConnectionSession.stage) = ConnectionStage.Authenticated ∧
  th'.(session).(ConnectionSession.authenticated_device) = Some device ∧
  ∃ record, (pair_device sha256 request (th.(wall_clock) th.(readings)) random.(random_device) (registry_at 1 th)).2 = Ok record ∧
    device = record.(DeviceRecord.device_id).
Proof.
  intros (th1 & [] & E1 & E)%serve_bind_ok. apply monotonic_ok in E1 as ([Hsh Hot] & _ & _ & Hclock & Hread).
  apply serve_bind_ok in E as (th2 & now & E2 & E). injection E2 as <- <-.
  apply serve_bind_ok in E as (th3 & outcome & E3 & E). apply locked_ok in E3 as (sh & Hop & ->). simpl in Hop. rewrite Hsh, Hot in Hop.
  destruct (pair_device _ _ _ _ _) as [r d] eqn:Hp. injection Hop as <- <-.
  destruct d as [record|error].
  - apply accept_device_ok in E as (-> & Hst & Hdev). split_and!; [done..|]. exists record. split; [|done].
    rewrite <-Hclock, <-Hread. unfold registry_at.
    assert (foldl (apply_shared sha256) th.(shared) (concat (take 1 th.(others))) =
            foldl (apply_shared sha256) th.(shared) (default [] (head th.(others)))) as ->
      by (destruct th.(others); simpl; by rewrite ?app_nil_r, ?take_0). by rewrite Hp.
  - apply serve_bind_ok in E as (? & ? & _ & E). by apply serve_bind_ok in E as (? & ? & _ & E).
Qed.

(** What lets a device in, by the frame that asks for it. *)
Definition proved_identity (random : AuthRandom) (host_id : HostId) (auth : ControlFrame) (tls_exporter : list ascii) (device : DeviceId) th : Prop :=
  match auth with
  | ControlFrame.PairRequest request =>
      ∃ record, (pair_device sha256 request (th.(wall_clock) (S th.(readings))) random.(random_device) (registry_at 2 th)).2 = Ok record ∧
        device = record.(DeviceRecord.device_id)
  | ControlFrame.ChallengeRequest request_id device_id =>
      device = device_id ∧ ∃ record signature, device_for_auth device (registry_at 2 th) = Ok record ∧
        head th.(inbox) = Some (Ok (ControlFrame.ChallengeProof request_id random.(random_challenge) signature)) ∧
        signed_challenge host_id device tls_exporter random record.(DeviceRecord.public_key_spki) signature
          (th.(wall_clock) (S th.(readings))) (th.(wall_clock) (S (S th.(readings))))
  | _ => False
  end.

Lemma authenticate_ok random host_id auth scope tls_exporter ip th th' device :
  challenges_from scope (λ _ _ _, False) th.(shared).(challenges) → undisturbed scope th →
  authenticate sha256 random host_id auth scope tls_exporter ip th = (th', Ok device) →
  th'.(session).(ConnectionSession.stage) = ConnectionStage.Authenticated ∧
  th'.(session).(ConnectionSession.authenticated_device) = Some device ∧
  proved_identity random host_id auth tls_exporter device th.
Proof.
  intros Hc Hu (th1 & now & E1 & E)%serve_bind_ok. injection E1 as <- <-.
  apply serve_bind_ok in E as (th2 & allowed & E2 & E). apply locked_ok in E2 as (sh & Hop & ->). cbn beta in Hop.
  destruct (check_failures _ _ _) as [f r]. injection Hop as <- <-. destruct r as [[]|error]; [|by apply serve_bind_ok in E as (? & ? & _ & E)].
  set (th1 := thread_readings _ th) in E.
  assert (∀ n, registry_at n (thread_others (tail th1.(others)) (thread_shared
            (set_auth_failures f (foldl (apply_shared sha256) th.(shared) (default [] (head th.(others))))) th1)) = registry_at (S n) th) as Hreg.
  { intros n. rewrite (registry_after_lock th1); [|done]. done. }
  destruct auth as [| | | |request| |request_id device_id| | | | | | | | | | | | | | | | | |];
    try by apply serve_bind_ok in E as (? & ? & _ & E).
  - apply pairing_ok in E. by rewrite Hreg in E.
  - apply challenge_ok in E as (-> & Hst & Hdev & record & signature & Hknown & Hin & Hsig).
    + rewrite Hreg in Hknown. split_and!; [done..|]. split; [done|]. by exists record, signature.
    + simpl. apply challenges_from_others; [done|]. by apply undisturbed_head.
    + by apply (undisturbed_tail scope th1).
Qed.

(** C5: Whatever the other threads do between its locks, a connection is authenticated only for a
    device that the registry, as it was at that moment, paired on this connection with a valid
    secret, or knew as not revoked and whose registered key verifies a signature, presented as the
    next frame, of the transcript of this connection: the host, the device, the exporter of the TLS
    session, and the challenge and nonce drawn for it, verified at a reading of the clock less than
    thirty seconds after the reading at which they were drawn. A pairing secret is checked at the
    reading of the clock taken for it. No challenge of another connection has the scope of this one.
    *)
Theorem accepted_devices_proved_themselves random host_id auth scope tls_exporter ip th th' device
    (Hfresh : challenges_from scope (λ _ _ _, False) th.(shared).(challenges)) (Hothers : undisturbed scope th)
    (Haccepted : authenticate sha256 random host_id auth scope tls_exporter ip th = (th', Ok device)) :
  th'.(session).(ConnectionSession.stage) = ConnectionStage.Authenticated ∧
  th'.(session).(ConnectionSession.authenticated_device) = Some device ∧
  proved_identity random host_id auth tls_exporter device th.
Proof. by eapply authenticate_ok. Qed.

(** ** Revoked devices *)

Lemma pair_steps request now entropy (r : SecurityStore B) :
  (pair_device sha256 request now entropy r).1.(snapshot) = r.(snapshot) ∨
  registry_step r.(snapshot) (pair_device sha256 request now entropy r).1.(snapshot).
Proof.
  unfold pair_device. destruct (paired _ _ _ _ _) as [[next d]|] eqn:E; [|by left]. apply paired_ok in E as [Hs _].
  unfold commit_snapshot. destruct (backend_commit _ _) as [b [u|e]]; [by right|by left].
Qed.

Lemma shared_steps sh call :
  registry_wf sh.(registry).(snapshot) →
  (apply_shared sha256 sh call).(registry).(snapshot) = sh.(registry).(snapshot) ∨
  registry_step sh.(registry).(snapshot) (apply_shared sha256 sh call).(registry).(snapshot).
Proof.
  intros Hwf. destruct call as [c|input secret|request now entropy|id at_ms|c|e]; simpl; try by left.
  - unfold issue_pairing. destruct (issued _ _ _ _) as [[next bs]|] eqn:E; [|by left]. apply issued_step in E as [Hs _].
    unfold commit_snapshot. destruct (backend_commit _ _) as [b [u|e]]; [by right|by left].
  - apply pair_steps.
  - unfold revoke_and_then. destruct (revoked _ _ _) as [next|] eqn:E; [|by left]. apply revoked_step in E; [|done].
    unfold commit_snapshot. destruct (backend_commit _ _) as [b [u|e]]; [by right|by left].
Qed.

Lemma revoked_in_shared device calls : ∀ sh : ServerShared,
  registry_wf sh.(registry).(snapshot) → revoked_in device sh.(registry).(snapshot) →
  registry_wf (foldl (apply_shared sha256) sh calls).(registry).(snapshot) ∧ revoked_in device (foldl (apply_shared sha256) sh calls).(registry).(snapshot).
Proof.
  induction calls as [|call calls IH]; intros sh Hwf Hr; [done|]. simpl. destruct (shared_steps sh call Hwf) as [E|Hs].
  - apply IH; by rewrite E.
  - apply IH; [by eapply registry_wf_step|by eapply revoked_in_step].
Qed.

(** C18: A device that the registry holds as revoked when a connection starts to authenticate is
    never the device that the connection is authenticated for, by pairing or by challenge, whatever
    the other threads do to the registry meanwhile. *)
Theorem revoked_devices_stay_out random host_id auth scope tls_exporter ip th device
    (Hfresh : challenges_from scope (λ _ _ _, False) th.(shared).(challenges)) (Hothers : undisturbed scope th)
    (Hwf : registry_wf th.(shared).(registry).(snapshot)) (Hrevoked : revoked_in device th.(shared).(registry).(snapshot)) :
  (authenticate sha256 random host_id auth scope tls_exporter ip th).2 ≠ Ok device.
Proof.
  intros E. destruct (authenticate sha256 random host_id auth scope tls_exporter ip th) as [th' r] eqn:Ha. simpl in E. subst r.
  apply authenticate_ok in Ha as (_ & _ & Hid); [|done..].
  destruct (revoked_in_shared device (concat (take 2 th.(others))) th.(shared) Hwf Hrevoked) as [Hwf2 (d & Hd & Hdid & Hdr)].
  destruct auth; try done; simpl in Hid.
  - destruct Hid as (record & Hp & ->). unfold pair_device in Hp. destruct (paired _ _ _ _ _) as [[next dev]|] eqn:Hpd; [|done].
    apply paired_ok in Hpd as (_ & _ & _ & _ & _ & _ & _ & _ & Hnone & _). unfold commit_snapshot in Hp.
    destruct (backend_commit _ _) as [b [u|e]]; [|done]. injection Hp as ->. unfold registry_at in Hnone. congruence.
  - destruct Hid as (-> & record & signature & Hk & _). unfold device_for_auth, registry_at in Hk. rewrite Hd in Hk. simpl in Hk. by rewrite Hdr in Hk.
Qed.
End host_auth_proofs.
