(* ===== verification/ClientPath.v ===== *)
(** * Path selection and reconnect backoff of the client

    Models [crates/kaleido-core/src/path.rs] and [reconnect.rs]: the state
    machine that tries the local network, a peer path and the relay in order,
    and the doubling delay between rounds. *)
From stdpp Require Import prelude.
From Stdlib Require Import ZArith Lia.
From S2P Require Import Prelude ProtoRuntime.

Local Open Scope Z_scope.

(** ** Path selection *)

Module PathAttempt.
Inductive PathAttempt : Type :=
| Lan
| PeerToPeer
| Relay.
End PathAttempt.
Abbreviation PathAttempt := PathAttempt.PathAttempt.

#[export] Instance PathAttempt_eq_dec : EqDecision PathAttempt.
Proof. solve_decision. Defined.

Definition PathAttempt_ALL : list PathAttempt := [PathAttempt.Lan; PathAttempt.PeerToPeer; PathAttempt.Relay].

Definition PathAttempt_reachability (attempt : PathAttempt) : HostReachability :=
  match attempt with
  | PathAttempt.Lan => HostReachability.LanDirect
  | PathAttempt.PeerToPeer => HostReachability.PeerToPeer
  | PathAttempt.Relay => HostReachability.Relayed
  end.

Module PathStatus.
Inductive PathStatus : Type :=
| Offline (at_ms : Z)
| Connecting (attempt : PathAttempt) (at_ms : Z)
| Online (reachability : HostReachability) (since_ms : Z).
End PathStatus.
Abbreviation PathStatus := PathStatus.PathStatus.

#[export] Instance PathStatus_eq_dec : EqDecision PathStatus.
Proof. solve_decision. Defined.

Definition PathStatus_reachability (status : PathStatus) : HostReachability :=
  match status with
  | PathStatus.Offline _ | PathStatus.Connecting _ _ => HostReachability.Offline
  | PathStatus.Online reachability _ => reachability
  end.

Definition PathStatus_at_ms (status : PathStatus) : Z :=
  match status with
  | PathStatus.Offline at_ms | PathStatus.Connecting _ at_ms => at_ms
  | PathStatus.Online _ since_ms => since_ms
  end.

Definition PathStatus_is_online (status : PathStatus) : bool :=
  match status with
  | PathStatus.Online _ _ => true
  | _ => false
  end.

Module PathMachine.
Record PathMachine : Type := mk {
  epoch : Z;
  next_attempt : nat;
  status : PathStatus
}.
End PathMachine.
Abbreviation PathMachine := PathMachine.PathMachine.

#[export] Instance PathMachine_eq_dec : EqDecision PathMachine.
Proof. solve_decision. Defined.

Definition PathMachine_set_status (v : PathStatus) (r : PathMachine) : PathMachine := {|
  PathMachine.epoch := r.(PathMachine.epoch);
  PathMachine.next_attempt := r.(PathMachine.next_attempt);
  PathMachine.status := v
|}.

Definition PathMachine_new (now_ms : Z) : PathMachine := PathMachine.mk 0 0 (PathStatus.Offline now_ms).

Definition PathMachine_start (epoch now_ms : Z) (m : PathMachine) : PathMachine * PathAttempt :=
  (PathMachine.mk epoch 0 (PathStatus.Connecting PathAttempt.Lan now_ms), PathAttempt.Lan).

Definition current_attempt (m : PathMachine) : option PathAttempt :=
  match m.(PathMachine.status) with
  | PathStatus.Connecting attempt _ => Some attempt
  | _ => None
  end.

Definition PathMachine_failed (epoch now_ms : Z) (m : PathMachine) : PathMachine * option PathAttempt :=
  if negb (epoch =? m.(PathMachine.epoch)) then (m, None)
  else
    let next := S m.(PathMachine.next_attempt) in
    let exhausted :=
      (PathMachine.mk m.(PathMachine.epoch) (length PathAttempt_ALL) (PathStatus.Offline now_ms), None) in
    if Nat.leb (length PathAttempt_ALL) next then exhausted
    else
      match PathAttempt_ALL !! next with
      | None => exhausted
      | Some attempt =>
          (PathMachine.mk m.(PathMachine.epoch) next (PathStatus.Connecting attempt now_ms), Some attempt)
      end.

Definition PathMachine_established (attempt : PathAttempt) (epoch now_ms : Z) (m : PathMachine) : PathMachine * bool :=
  if negb (epoch =? m.(PathMachine.epoch)) || negb (bool_decide (current_attempt m = Some attempt))
  then (m, false)
  else (PathMachine_set_status (PathStatus.Online (PathAttempt_reachability attempt) now_ms) m, true).

Definition network_changed (epoch now_ms : Z) (m : PathMachine) : PathMachine * PathAttempt :=
  PathMachine_start epoch now_ms m.

Definition PathMachine_offline (now_ms : Z) (m : PathMachine) : PathMachine :=
  PathMachine_set_status (PathStatus.Offline now_ms) m.

(** ** Reconnect backoff *)

(** Durations are milliseconds here; the largest [Duration] is [u64::MAX]
    seconds and a fraction. *)
Definition INITIAL_DELAY : Z := 250.
Definition MAX_DELAY : Z := 30000.
Definition checked_mul_duration (d factor : Z) : option Z :=
  if d * factor <? (u64_max + 1) * 1000 then Some (d * factor) else None.

Module ReconnectBackoff.
Record ReconnectBackoff : Type := mk {
  next : Z
}.
End ReconnectBackoff.
Abbreviation ReconnectBackoff := ReconnectBackoff.ReconnectBackoff.

#[export] Instance ReconnectBackoff_eq_dec : EqDecision ReconnectBackoff.
Proof. solve_decision. Defined.

Definition ReconnectBackoff_default : ReconnectBackoff := ReconnectBackoff.mk INITIAL_DELAY.

Definition ReconnectBackoff_reset (b : ReconnectBackoff) : ReconnectBackoff := ReconnectBackoff.mk INITIAL_DELAY.

Definition next_delay (b : ReconnectBackoff) : ReconnectBackoff * Z :=
  let delay := b.(ReconnectBackoff.next) in
  (ReconnectBackoff.mk (Z.min (default MAX_DELAY (checked_mul_duration b.(ReconnectBackoff.next) 2)) MAX_DELAY), delay).

Definition current_delay (b : ReconnectBackoff) : Z := b.(ReconnectBackoff.next).

(** ** Events and rounds *)

Inductive PathEvent : Type :=
| Started (epoch now_ms : Z)
| NetworkChanged (epoch now_ms : Z)
| AttemptFailed (epoch now_ms : Z)
| AttemptEstablished (attempt : PathAttempt) (epoch now_ms : Z)
| WentOffline (now_ms : Z).

Definition apply_path (m : PathMachine) (event : PathEvent) : PathMachine :=
  match event with
  | Started epoch now_ms => (PathMachine_start epoch now_ms m).1
  | NetworkChanged epoch now_ms => (network_changed epoch now_ms m).1
  | AttemptFailed epoch now_ms => (PathMachine_failed epoch now_ms m).1
  | AttemptEstablished attempt epoch now_ms => (PathMachine_established attempt epoch now_ms m).1
  | WentOffline now_ms => PathMachine_offline now_ms m
  end.

Definition run_path (now_ms : Z) (events : list PathEvent) : PathMachine :=
  foldl apply_path (PathMachine_new now_ms) events.

(** The network generation of a sequence of events: the one last started, zero
    before any. *)
Definition generation (events : list PathEvent) : Z :=
  foldl (λ epoch event, match event with Started e _ | NetworkChanged e _ => e | _ => epoch end) 0 events.

(** How many attempts of the current round were reported as failed. *)
Definition failures (events : list PathEvent) : nat :=
  (foldl (λ '(epoch, n) event,
     match event with
     | Started e _ | NetworkChanged e _ => (e, 0%nat)
     | AttemptFailed e _ => if e =? epoch then (epoch, S n) else (epoch, n)
     | _ => (epoch, n)
     end) (0, 0%nat) events).2.

(** ** Online is earned *)

Lemma generation_snoc events event :
  generation (events ++ [event]) =
  match event with Started e _ | NetworkChanged e _ => e | _ => generation events end.
Proof. unfold generation. by rewrite foldl_app. Qed.

Lemma failures_snoc events event :
  failures (events ++ [event]) =
  match event with
  | Started _ _ | NetworkChanged _ _ => 0%nat
  | AttemptFailed e _ => if e =? generation events then S (failures events) else failures events
  | _ => failures events
  end.
Proof.
  unfold failures. rewrite foldl_app. simpl.
  assert (∀ acc n, (foldl (λ '(epoch, n) event,
     match event with
     | Started e _ | NetworkChanged e _ => (e, 0%nat)
     | AttemptFailed e _ => if e =? epoch then (epoch, S n) else (epoch, n)
     | _ => (epoch, n)
     end) (acc, n) events).1 =
     foldl (λ epoch event, match event with Started e _ | NetworkChanged e _ => e | _ => epoch end) acc events) as Hg.
  { induction events as [|e events IH]; intros acc n; [done|]. simpl. destruct e; try apply IH. case_match; apply IH. }
  specialize (Hg 0 0%nat). unfold generation. rewrite <-Hg.
  destruct (foldl _ _ _) as [epoch n]. simpl. destruct event; try done. by case_match.
Qed.

(** The machine knows its generation and how far its round has come. *)
Lemma run_path_round now_ms events :
  (run_path now_ms events).(PathMachine.epoch) = generation events ∧
  (run_path now_ms events).(PathMachine.next_attempt) = Nat.min (failures events) 3 ∧
  ∀ attempt, current_attempt (run_path now_ms events) = Some attempt → PathAttempt_ALL !! failures events = Some attempt.
Proof.
  induction events as [|event events (IH1 & IH2 & IH3)] using rev_ind; [done|].
  unfold run_path in *. rewrite foldl_app, generation_snoc, failures_snoc. simpl.
  revert IH1 IH2 IH3. generalize (foldl apply_path (PathMachine_new now_ms) events) as m. intros m H1 H2 H3.
  destruct event as [e t|e t|e t|a e t|t]; simpl.
  - split; [done|]. split; [done|]. by intros a [= <-].
  - split; [done|]. split; [done|]. by intros a [= <-].
  - unfold PathMachine_failed. rewrite H1. destruct (Z.eqb_spec e (generation events)); [|done]. cbn [negb].
    destruct (Nat.leb_spec (length PathAttempt_ALL) (S (PathMachine.next_attempt m))) as [Hl|Hl]; simpl in Hl |- *.
    + split; [done|]. split; [lia|done].
    + destruct m as [e' n st]. simpl in *. subst n.
      destruct (failures events) as [|[|f]]; simpl in *; [..|lia].
      all: split; [done|]; split; [done|]; by intros a [= <-].
  - unfold PathMachine_established. destruct (_ || _); simpl; [done|]. split; [done|]. by split.
  - done.
Qed.

(** The client reports a host as online only because the attempt it was making reported success, for the
    current network generation, and nothing of that generation failed since; the attempt is the local network,
    the peer path or the relay according to how many attempts of the round had failed before it. *)
Theorem online_is_earned now_ms events reachability since_ms :
  (run_path now_ms events).(PathMachine.status) = PathStatus.Online reachability since_ms →
  ∃ before attempt epoch after,
    events = before ++ AttemptEstablished attempt epoch since_ms :: after ∧
    reachability = PathAttempt_reachability attempt ∧
    epoch = generation before ∧ PathAttempt_ALL !! failures before = Some attempt ∧
    generation events = epoch ∧ failures events = failures before.
Proof.
  induction events as [|event events IH] using rev_ind; [done|].
  pose proof (run_path_round now_ms events) as (H1 & _ & H3). revert IH H1 H3.
  unfold run_path. rewrite foldl_app, generation_snoc, failures_snoc. simpl.
  generalize (foldl apply_path (PathMachine_new now_ms) events) as m. intros m IH H1 H3.
  assert (PathMachine.status m = PathStatus.Online reachability since_ms →
    ∃ before attempt epoch after, events ++ [event] = before ++ AttemptEstablished attempt epoch since_ms :: after ∧
      reachability = PathAttempt_reachability attempt ∧
      epoch = generation before ∧ PathAttempt_ALL !! failures before = Some attempt ∧
      generation events = epoch ∧ failures events = failures before) as Hold.
  { intros Hs. destruct (IH Hs) as (before & attempt & epoch & after & -> & H).
    exists before, attempt, epoch, (after ++ [event]). by rewrite <-app_assoc. }
  destruct event as [e t|e t|e t|a e t|t]; simpl; try done.
  - unfold PathMachine_failed. rewrite H1. destruct (Z.eqb_spec e (generation events)); [|done]. cbn [negb].
    by repeat case_match.
  - unfold PathMachine_established.
    destruct (_ || _) eqn:Hg; [done|]. intros [= <- <-].
    apply orb_false_iff in Hg as [He%negb_false_iff Ha%negb_false_iff].
    apply Z.eqb_eq in He. apply bool_decide_eq_true in Ha. subst e.
    exists events, a, (PathMachine.epoch m), []. rewrite H1, (H3 a) by done. done.
Qed.

(** ** Delays *)

Fixpoint delays (count : nat) (b : ReconnectBackoff) : list Z :=
  match count with
  | O => []
  | S count => let '(b, delay) := next_delay b in delay :: delays count b
  end.

(** The delays between reconnect attempts are 250 ms, then twice the previous one, and never more than 30 s,
    without overflow. *)
Theorem backoff_doubles_to_its_cap count n delay :
  delays count ReconnectBackoff_default !! n = Some delay →
  delay = Z.min (INITIAL_DELAY * 2 ^ Z.of_nat n) MAX_DELAY.
Proof.
  assert (∀ count n k delay, 0 ≤ k →
    delays count (ReconnectBackoff.mk (Z.min (INITIAL_DELAY * 2 ^ k) MAX_DELAY)) !! n = Some delay →
    delay = Z.min (INITIAL_DELAY * 2 ^ (k + Z.of_nat n)) MAX_DELAY) as H.
  { clear. induction count as [|count IH]; intros n k delay Hk; [done|]. simpl.
    destruct n as [|n]; simpl; [intros [= <-]; by rewrite Z.add_0_r|].
    replace (k + Z.of_nat (S n)) with ((k + 1) + Z.of_nat n) by lia. intros Hd. apply (IH n (k + 1)); [lia|].
    rewrite <-Hd. do 3 f_equal.
    unfold checked_mul_duration, INITIAL_DELAY, MAX_DELAY, u64_max.
    rewrite (proj2 (Z.ltb_lt _ _)) by lia. simpl. rewrite Z.pow_add_r, Z.pow_1_r by lia. lia. }
  intros Hd. rewrite (H count n 0 delay); [by rewrite Z.add_0_l|done|exact Hd].
Qed.
