(* ===== verification/ClientCache.v ===== *)
(** * The projection cache of the client

    Models [crates/kaleido-core/src/cache.rs]: the last good view of each
    projection key, in memory and in one file per view; applying pushes and
    current snapshots, invalidation, and the cold start that reads the
    directory back.  The directory is a map from file names to contents;
    creating, writing, reading, renaming, listing and removing can fail.  The JSON codec and SHA-256 are parameters. *)
From stdpp Require Import prelude strings gmap.
From Stdlib Require Import ZArith Lia Ascii.
From S2P Require Import Prelude ProtoBase ProtoContent ProtoProjection ProtoEffect CanonState ReadModelBuild DurableLog ProjectionJournal.

Local Open Scope Z_scope.

(** ** Data *)

Module CacheApply.
Inductive CacheApply : Type :=
| Applied
| RefreshRequired.
End CacheApply.
Abbreviation CacheApply := CacheApply.CacheApply.

#[export] Instance CacheApply_eq_dec : EqDecision CacheApply.
Proof. solve_decision. Defined.

Module CacheError.
Inductive CacheError : Type :=
| Io (operation : string)
| Malformed
| Contract (violation : ContractViolation)
| Encoding
| SnapshotCursorMismatch.
End CacheError.
Abbreviation CacheError := CacheError.CacheError.

(** [files] is the cache directory. *)
Module ProjectionCache.
Record ProjectionCache : Type := mk {
  files : gmap string string;
  current : gmap ProjectionKey ProjectionEnvelope
}.
End ProjectionCache.
Abbreviation ProjectionCache := ProjectionCache.ProjectionCache.

Definition ProjectionCache_set_files (v : gmap string string) (r : ProjectionCache) : ProjectionCache := {|
  ProjectionCache.files := v;
  ProjectionCache.current := r.(ProjectionCache.current)
|}.

Definition ProjectionCache_set_current (v : gmap ProjectionKey ProjectionEnvelope) (r : ProjectionCache) : ProjectionCache := {|
  ProjectionCache.files := r.(ProjectionCache.files);
  ProjectionCache.current := v
|}.

(** What the file system does to one call: whether a file is created, how much
    of it is written when the write fails, whether the rename succeeds, whether
    the directory can be listed, and which files can be removed. *)
Module CacheIo.
Record CacheIo : Type := mk {
  creates : bool;
  writes : option nat;
  renames : bool;
  lists : bool;
  removes : string → bool
}.
End CacheIo.
Abbreviation CacheIo := CacheIo.CacheIo.

(** What it does to a cold start: whether the directory is created and listed,
    which files can be read and which can be removed. *)
Module OpenIo.
Record OpenIo : Type := mk {
  makes_directory : bool;
  lists_directory : bool;
  reads : string → bool;
  drops : string → bool
}.
End OpenIo.
Abbreviation OpenIo := OpenIo.OpenIo.

Definition clean_cache_io : CacheIo := CacheIo.mk true None true true (λ _, true).

Definition cache_contract {T} (r : result T ContractViolation) : result T CacheError := map_err CacheError.Contract r.

(** ** Names *)

(** [Path::extension] is [json]: a dot that does not begin the name, and [json]. *)
Definition has_json_extension (name : string) : bool :=
  ends_with ".json" name && negb (bool_decide (name = ".json")).

Section cache.
Context `{EnvelopeCodec} (hex_digest : string → string).
(** The [projection_version] of a JSON value; [None] when it is not JSON. *)
Context (header_version : string → option (option Z)).

Implicit Types c : ProjectionCache.

Definition cache_key_digest (key : ProjectionKey) : string := hex_digest (encode_key key).

Definition cache_file_name (envelope : ProjectionEnvelope) : string :=
  cache_key_digest envelope.(ProjectionEnvelope.key) +:+ "-" +:+
  padded envelope.(ProjectionEnvelope.cursor).(Cursor.seq) +:+ ".json".

Definition temporary_name (name : string) (attempt : nat) : string := name +:+ "." +:+ decimal attempt +:+ ".tmp".

(** The first candidate that does not exist yet. *)
Definition temporary_path (files : gmap string string) (name : string) : result string CacheError :=
  ok_or (find_first (λ candidate, negb (is_some (files !! candidate))) (temporary_name name <$> seq 0 32))
        (CacheError.Io "create").

(** ** Removing files *)

(** Removal stops at the first file that cannot be removed. *)
Fixpoint remove_files (operation : string) (removes : string → bool) (names : list string) (files : gmap string string) :
    gmap string string * result unit CacheError :=
  match names with
  | [] => (files, Ok tt)
  | name :: names =>
      if removes name then remove_files operation removes names (delete name files)
      else (files, Err (CacheError.Io operation))
  end.

(** The files of a key, all but [keep]. *)
Definition key_files (key : ProjectionKey) (keep : option string) (files : gmap string string) : list string :=
  filter_b (λ name, negb (bool_decide (keep = Some name)) && starts_with (cache_key_digest key) name
                    && ends_with ".json" name) (btree_keys files).

Definition remove_superseded (io : CacheIo) (key : ProjectionKey) (keep : string) c :
    ProjectionCache * result unit CacheError :=
  if negb io.(CacheIo.lists) then (c, Err (CacheError.Io "read"))
  else
    let '(files, r) := remove_files "compact" io.(CacheIo.removes)
                         (key_files key (Some keep) c.(ProjectionCache.files)) c.(ProjectionCache.files) in
    (ProjectionCache_set_files files c, r).

Definition invalidate (io : CacheIo) (key : ProjectionKey) c : ProjectionCache * result unit CacheError :=
  let c := ProjectionCache_set_current (delete key c.(ProjectionCache.current)) c in
  if negb io.(CacheIo.lists) then (c, Err (CacheError.Io "read"))
  else
    let '(files, r) := remove_files "invalidate" io.(CacheIo.removes)
                         (key_files key None c.(ProjectionCache.files)) c.(ProjectionCache.files) in
    (ProjectionCache_set_files files c, r).

(** ** Writing a view *)

(** What is left of the temporary file when the call gives up on it. *)
Definition abandon (io : CacheIo) (temporary content : string) c : ProjectionCache :=
  if io.(CacheIo.removes) temporary then c
  else ProjectionCache_set_files (<[temporary := content]> c.(ProjectionCache.files)) c.

Definition persist (io : CacheIo) (envelope : ProjectionEnvelope) c : ProjectionCache * result unit CacheError :=
  let final := cache_file_name envelope in
  match temporary_path c.(ProjectionCache.files) final with
  | Err e => (c, Err e)
  | Ok temporary =>
      let encoded := encode_envelope envelope in
      if negb io.(CacheIo.creates) then (c, Err (CacheError.Io "create"))
      else
        match io.(CacheIo.writes) with
        | Some written => (abandon io temporary (str_take written encoded) c, Err (CacheError.Io "write"))
        | None =>
            if negb io.(CacheIo.renames) then (abandon io temporary encoded c, Err (CacheError.Io "commit"))
            else
              let key := envelope.(ProjectionEnvelope.key) in
              let c := ProjectionCache_set_files (<[final := encoded]> c.(ProjectionCache.files)) c in
              let c := ProjectionCache_set_current (<[key := envelope]> c.(ProjectionCache.current)) c in
              remove_superseded io key final c
        end
  end.

(** ** Applying pushes and snapshots *)

Definition applied {T} (r : ProjectionCache * result unit CacheError) (value : T) : ProjectionCache * result T CacheError :=
  (r.1, r.2 ;? Ok value).

Definition ProjectionCache_apply (io : CacheIo) (envelope : ProjectionEnvelope) c :
    ProjectionCache * result CacheApply CacheError :=
  match cache_contract (ProjectionEnvelope_validate_for_transport envelope) with
  | Err e => (c, Err e)
  | Ok _ =>
      if negb (envelope.(ProjectionEnvelope.projection_version) =? PROJECTION_VERSION)
      then applied (invalidate io envelope.(ProjectionEnvelope.key) c) CacheApply.RefreshRequired
      else
        match if_some (c.(ProjectionCache.current) !! envelope.(ProjectionEnvelope.key)) (λ previous,
                cache_contract (validate_projection_sequence envelope.(ProjectionEnvelope.key)
                                  previous.(ProjectionEnvelope.cursor) [envelope])) with
        | Err e => (c, Err e)
        | Ok _ => applied (persist io envelope c) CacheApply.Applied
        end
  end.

Definition apply_current (io : CacheIo) (envelope : ProjectionEnvelope) (expected_cursor : Cursor) c :
    ProjectionCache * result CacheApply CacheError :=
  match cache_contract (ProjectionEnvelope_validate_for_transport envelope) with
  | Err e => (c, Err e)
  | Ok _ =>
      if negb (bool_decide (envelope.(ProjectionEnvelope.cursor) = expected_cursor))
      then (c, Err CacheError.SnapshotCursorMismatch)
      else if negb (envelope.(ProjectionEnvelope.projection_version) =? PROJECTION_VERSION)
      then applied (invalidate io envelope.(ProjectionEnvelope.key) c) CacheApply.RefreshRequired
      else applied (persist io envelope c) CacheApply.Applied
  end.

Definition cached c (key : ProjectionKey) : option ProjectionEnvelope := c.(ProjectionCache.current) !! key.

Definition since c (key : ProjectionKey) : option Cursor := ProjectionEnvelope.cursor <$> cached c key.

(** ** Cold start *)

(** One file of the directory, in the order of the names. *)
Definition load_file (io : OpenIo) (files : gmap string string)
    (state : gmap string string * gmap ProjectionKey ProjectionEnvelope) (name : string) :
    result (gmap string string * gmap ProjectionKey ProjectionEnvelope) (gmap string string * CacheError) :=
  let '(files_now, current) := state in
  if negb (io.(OpenIo.reads) name) then Err (files_now, CacheError.Io "read") else
  let bytes := default "" (files !! name) in
  match header_version bytes with
  | None => Err (files_now, CacheError.Malformed)
  | Some version =>
      if negb (bool_decide (version = Some PROJECTION_VERSION)) then
        if io.(OpenIo.drops) name then Ok (delete name files_now, current)
        else Err (files_now, CacheError.Io "invalidate")
      else
        match decode_envelope bytes with
        | None => Err (files_now, CacheError.Malformed)
        | Some envelope =>
            match ProjectionEnvelope_validate_for_transport envelope with
            | Err violation => Err (files_now, CacheError.Contract violation)
            | Ok _ =>
                if negb (bool_decide (name = cache_file_name envelope)) then Err (files_now, CacheError.Malformed)
                else
                  match current !! envelope.(ProjectionEnvelope.key) with
                  | None => Ok (files_now, <[envelope.(ProjectionEnvelope.key) := envelope]> current)
                  | Some previous =>
                      if bool_decide (envelope.(ProjectionEnvelope.cursor) = previous.(ProjectionEnvelope.cursor)) then
                        if bool_decide (envelope = previous) then Ok (files_now, current)
                        else Err (files_now, CacheError.Malformed)
                      else if previous.(ProjectionEnvelope.cursor).(Cursor.seq) <?
                              envelope.(ProjectionEnvelope.cursor).(Cursor.seq)
                      then Ok (files_now, <[envelope.(ProjectionEnvelope.key) := envelope]> current)
                      else Ok (files_now, current)
                  end
            end
        end
  end.

(** The cache, or the error and the directory as it was left. *)
Definition ProjectionCache_open (io : OpenIo) (files : gmap string string) :
    result ProjectionCache (gmap string string * CacheError) :=
  reject_if (negb io.(OpenIo.makes_directory)) (files, CacheError.Io "create") ;?
  reject_if (negb io.(OpenIo.lists_directory)) (files, CacheError.Io "read") ;?
  let paths := filter_b has_json_extension (btree_keys files) in
  let? state := try_fold (load_file io files) (files, ∅) paths in
  Ok (ProjectionCache.mk state.1 state.2).
End cache.

(** ** The directory and the memory agree *)

Lemma tmp_is_not_json p : ends_with ".json" (p +:+ ".tmp") = false.
Proof.
  apply not_true_iff_false. rewrite ends_with_spec. intros [q Hq].
  assert ("p" = "n")%char; [|done].
  apply (append_last_char (p +:+ ".tm") (q +:+ ".jso")). by rewrite !append_assoc.
Qed.

Section agreement.
Context `{EnvelopeCodec} (hex_digest : string → string) (header_version : string → option (option Z)).
Context (views : ProjectionEnvelope → Prop).

(** The keys of the views in use. *)
Definition keys (key : ProjectionKey) : Prop := ∃ envelope, views envelope ∧ envelope.(ProjectionEnvelope.key) = key.

(** [serde_json] reads back the views in use; SHA-256 has 64 hexadecimal digits
    and tells their keys apart. *)
Class CacheCodecOk : Prop := {
  decode_encode_view envelope : views envelope → decode_envelope (encode_envelope envelope) = Some envelope;
  header_of_view envelope :
    views envelope → header_version (encode_envelope envelope) = Some (Some envelope.(ProjectionEnvelope.projection_version));
  digest_length s : String.length (hex_digest s) = 64%nat;
  digest_tells_apart k1 k2 :
    keys k1 → keys k2 → cache_key_digest hex_digest k1 = cache_key_digest hex_digest k2 → k1 = k2
}.
Context `{CacheCodecOk}.

Notation file_of := (cache_file_name hex_digest).
Implicit Types c : ProjectionCache.

(** A view the cache may hold. *)
Definition good_view (envelope : ProjectionEnvelope) : Prop :=
  views envelope ∧ ProjectionEnvelope_validate_for_transport envelope = Ok tt ∧
  envelope.(ProjectionEnvelope.projection_version) = PROJECTION_VERSION.

Lemma good_view_key envelope : good_view envelope → keys envelope.(ProjectionEnvelope.key).
Proof. intros (Hv & _). by exists envelope. Qed.

Definition not_newer (envelope current : ProjectionEnvelope) : Prop :=
  envelope = current ∨
  envelope.(ProjectionEnvelope.cursor).(Cursor.seq) < current.(ProjectionEnvelope.cursor).(Cursor.seq).

(** The view in memory is on disk; of a key that is not in doubt, every other view
    on disk is older. *)
Record cache_inv (doubt : gset ProjectionKey) c : Prop := {
  cache_current key envelope :
    c.(ProjectionCache.current) !! key = Some envelope →
    envelope.(ProjectionEnvelope.key) = key ∧ good_view envelope ∧
    c.(ProjectionCache.files) !! file_of envelope = Some (encode_envelope envelope);
  cache_files name content :
    c.(ProjectionCache.files) !! name = Some content → ends_with ".json" name = true →
    ∃ envelope, name = file_of envelope ∧ content = encode_envelope envelope ∧ good_view envelope ∧
      (envelope.(ProjectionEnvelope.key) ∉ doubt → ∃ current,
         c.(ProjectionCache.current) !! envelope.(ProjectionEnvelope.key) = Some current ∧ not_newer envelope current)
}.

Lemma file_of_json envelope : ends_with ".json" (file_of envelope) = true.
Proof.
  apply ends_with_spec.
  exists (cache_key_digest hex_digest envelope.(ProjectionEnvelope.key) +:+ "-" +:+
          padded envelope.(ProjectionEnvelope.cursor).(Cursor.seq)).
  unfold cache_file_name. by rewrite !append_assoc.
Qed.

Lemma file_of_extension envelope : has_json_extension (file_of envelope) = true.
Proof using All.
  unfold has_json_extension. rewrite file_of_json. simpl. apply negb_true_iff, bool_decide_eq_false.
  unfold cache_file_name, cache_key_digest. pose proof (digest_length (encode_key (ProjectionEnvelope.key envelope))) as Hl.
  by destruct (hex_digest _) as [|a1 [|a2 [|a3 [|a4 [|a5 [|a6 d]]]]]].
Qed.

(** A name that starts with the digest of a key is a file of that key. *)
Lemma file_of_key key envelope :
  keys key → good_view envelope → starts_with (cache_key_digest hex_digest key) (file_of envelope) = true →
  envelope.(ProjectionEnvelope.key) = key.
Proof using All.
  intros Hk Hg [r Hr]%starts_with_spec. apply digest_tells_apart; [by apply good_view_key|done|]. unfold cache_file_name in Hr.
  apply append_inj_length in Hr as [-> _]; [done|]. unfold cache_key_digest. by rewrite !digest_length.
Qed.

Lemma file_of_same_key e1 e2 : good_view e1 → good_view e2 → file_of e1 = file_of e2 →
  e1.(ProjectionEnvelope.key) = e2.(ProjectionEnvelope.key).
Proof using All.
  intros H1 H2 He. apply file_of_key; [by apply good_view_key|done|]. rewrite He. apply starts_with_spec.
  unfold cache_file_name. by eexists.
Qed.

Lemma encode_view_inj e1 e2 : good_view e1 → good_view e2 → encode_envelope e1 = encode_envelope e2 → e1 = e2.
Proof using All.
  intros (V1 & _) (V2 & _) He. pose proof (decode_encode_view e1 V1) as H1. rewrite He, decode_encode_view in H1 by done.
  by injection H1.
Qed.

(** Removing files leaves a part of the directory, and none of the files when
    all can be removed. *)
Lemma remove_files_spec operation removes names files :
  let files' := (remove_files operation removes names files).1 in
  (∀ name content, files' !! name = Some content → files !! name = Some content) ∧
  (∀ name content, files !! name = Some content → name ∉ names → files' !! name = Some content) ∧
  ((remove_files operation removes names files).2 = Ok tt → ∀ name, name ∈ names → files' !! name = None).
Proof.
  revert files. induction names as [|n names IH]; intros files; simpl.
  - split; [done|]. split; [done|]. intros _ name Hn%elem_of_nil. done.
  - destruct (removes n) eqn:Er; simpl.
    + destruct (IH (delete n files)) as (I1 & I2 & I3). split; [|split].
      * intros name content [_ Hc]%I1%lookup_delete_Some. done.
      * intros name content Hc [Hne Hn]%not_elem_of_cons. apply I2; [|done]. by rewrite lookup_delete_ne.
      * intros Hall name [->|Hn]%elem_of_cons; [|by apply I3].
        destruct (_ !! n) eqn:E; [|done]. apply I1 in E. by rewrite lookup_delete_eq in E.
    + by split_and!.
Qed.

Lemma elem_of_key_files key keep files name :
  name ∈ key_files hex_digest key keep files ↔
  is_Some (files !! name) ∧ keep ≠ Some name ∧ starts_with (cache_key_digest hex_digest key) name = true ∧
  ends_with ".json" name = true.
Proof.
  unfold key_files. rewrite elem_of_filter_b, elem_of_btree_keys, !andb_true_iff, negb_true_iff, bool_decide_eq_false.
  tauto.
Qed.

(** A directory that lost old views of one key still agrees. *)
Lemma cache_inv_shrink doubt files files' current :
  cache_inv doubt (ProjectionCache.mk files current) →
  (∀ name content, files' !! name = Some content → files !! name = Some content) →
  (∀ key envelope, current !! key = Some envelope → files' !! file_of envelope = Some (encode_envelope envelope)) →
  cache_inv doubt (ProjectionCache.mk files' current).
Proof.
  intros [I1 I2] Hsub Hkeep. split; simpl in *.
  - intros key e He. destruct (I1 key e He) as (? & ? & _). by split_and!; [..|eapply Hkeep].
  - intros name content Hc. apply I2. by apply Hsub.
Qed.

Lemma temporary_path_fresh files name temporary :
  temporary_path files name = Ok temporary → files !! temporary = None ∧ ends_with ".json" temporary = false.
Proof.
  unfold temporary_path. rewrite ok_or_ok. intros Hf. apply find_first_some in Hf as [Hin Hn].
  apply negb_true_iff in Hn. split; [by destruct (files !! temporary)|].
  apply list_elem_of_fmap in Hin as (attempt & -> & _). unfold temporary_name.
  assert (name +:+ "." +:+ decimal attempt +:+ ".tmp" = (name +:+ "." +:+ decimal attempt) +:+ ".tmp") as ->
    by by rewrite !append_assoc.
  apply tmp_is_not_json.
Qed.

(** A file that is not a view does not matter. *)
Lemma cache_inv_other doubt files current name content :
  cache_inv doubt (ProjectionCache.mk files current) → files !! name = None → ends_with ".json" name = false →
  cache_inv doubt (ProjectionCache.mk (<[name := content]> files) current).
Proof.
  intros [I1 I2] Hn Hj. split; simpl in *.
  - intros key e He. destruct (I1 key e He) as (? & ? & Hf). split_and!; [done..|].
    rewrite lookup_insert_ne; [done|]. intros ->. congruence.
  - intros name' content' [[<- _]|[Hne Hc]]%lookup_insert_Some Hj'; [congruence|]. by apply I2.
Qed.

Lemma cache_inv_doubt doubt key c : cache_inv doubt c → cache_inv (doubt ∪ {[key]}) c.
Proof.
  intros [I1 I2]. split; [done|]. intros name content Hc Hj. destruct (I2 name content Hc Hj) as (e & ? & ? & ? & Hd).
  exists e. split_and!; [done..|]. intros Hn. apply Hd. set_solver.
Qed.

(** A key is not in doubt once its files are checked. *)
Lemma cache_inv_settle doubt key c :
  cache_inv doubt c →
  (∀ envelope, c.(ProjectionCache.files) !! file_of envelope = Some (encode_envelope envelope) → good_view envelope →
     envelope.(ProjectionEnvelope.key) = key → c.(ProjectionCache.current) !! key = Some envelope) →
  cache_inv (doubt ∖ {[key]}) c.
Proof.
  intros [I1 I2] Hkey. split; [done|]. intros name content Hc Hj. destruct (I2 name content Hc Hj) as (e & -> & -> & Hg & Hd).
  exists e. split_and!; [done..|]. intros Hn. destruct (decide (e.(ProjectionEnvelope.key) = key)) as [Hk|Hk].
  - exists e. rewrite Hk. split; [by apply Hkey|by left].
  - apply Hd. set_solver.
Qed.

(** The new view, before the superseded ones are removed. *)
Lemma cache_inv_insert doubt files current envelope :
  cache_inv doubt (ProjectionCache.mk files current) → good_view envelope →
  (∀ previous, current !! envelope.(ProjectionEnvelope.key) = Some previous →
     previous.(ProjectionEnvelope.cursor).(Cursor.seq) < envelope.(ProjectionEnvelope.cursor).(Cursor.seq)) →
  cache_inv doubt (ProjectionCache.mk (<[file_of envelope := encode_envelope envelope]> files)
               (<[envelope.(ProjectionEnvelope.key) := envelope]> current)).
Proof using All.
  intros [I1 I2] Hg Hfwd. split; simpl in *.
  - intros key e [[<- <-]|[Hne He]]%lookup_insert_Some; [by rewrite lookup_insert_eq|].
    destruct (I1 key e He) as (Hk & Hge & Hf). split_and!; [done..|].
    rewrite lookup_insert_ne; [done|]. intros Heq. apply Hne.
    rewrite <-Hk. by apply file_of_same_key.
  - intros name content [[<- <-]|[Hne Hc]]%lookup_insert_Some Hj.
    + exists envelope. split_and!; [done..|]. intros _. exists envelope. rewrite lookup_insert_eq. split; [done|by left].
    + destruct (I2 name content Hc Hj) as (e & -> & -> & Hge & Hd). exists e. split_and!; [done..|].
      intros (cur & Hcur & Hn)%Hd.
      destruct (decide (e.(ProjectionEnvelope.key) = envelope.(ProjectionEnvelope.key))) as [Hk|Hk].
      * exists envelope. rewrite Hk, lookup_insert_eq. split; [done|]. right.
        rewrite Hk in Hcur. specialize (Hfwd cur Hcur). destruct Hn as [->|]; lia.
      * exists cur. by rewrite lookup_insert_ne.
Qed.

Lemma file_of_starts envelope : starts_with (cache_key_digest hex_digest envelope.(ProjectionEnvelope.key)) (file_of envelope) = true.
Proof. apply starts_with_spec. unfold cache_file_name. by eexists. Qed.

Lemma persist_inv doubt io envelope c :
  cache_inv doubt c → good_view envelope →
  (∀ previous, c.(ProjectionCache.current) !! envelope.(ProjectionEnvelope.key) = Some previous →
     previous.(ProjectionEnvelope.cursor).(Cursor.seq) < envelope.(ProjectionEnvelope.cursor).(Cursor.seq)) →
  let r := persist hex_digest io envelope c in
  cache_inv doubt r.1 ∧ (r.2 = Ok tt → cache_inv (doubt ∖ {[envelope.(ProjectionEnvelope.key)]}) r.1).
Proof using All.
  destruct c as [files current]. intros Hi Hg Hfwd. unfold persist. simpl in *.
  destruct (temporary_path files (file_of envelope)) as [temporary|] eqn:Et; [|done].
  apply temporary_path_fresh in Et as [Hfresh Htmp].
  assert (∀ content, cache_inv doubt (abandon io temporary content (ProjectionCache.mk files current))) as Hgive.
  { intros content. unfold abandon. destruct (CacheIo.removes io temporary); [done|]. by apply cache_inv_other. }
  destruct (CacheIo.creates io); simpl; [|done]. destruct (CacheIo.writes io); simpl; [by split; [apply Hgive|]|].
  destruct (CacheIo.renames io); simpl; [|by split; [apply Hgive|]].
  pose proof (cache_inv_insert doubt files current envelope Hi Hg Hfwd) as Hnew.
  unfold remove_superseded. destruct (CacheIo.lists io); [|done]. simpl.
  set (names := key_files _ _ _ _).
  pose proof (remove_files_spec "compact" (CacheIo.removes io) names
                (<[file_of envelope := encode_envelope envelope]> files)) as (R1 & R2 & R3).
  destruct (remove_files _ _ _ _) as [files' r]. simpl in *.
  match goal with |- ?G ∧ _ => assert G as Hinv end.
  { eapply cache_inv_shrink; [exact Hnew|exact R1|]. intros key e He. simpl in He.
    apply R2; [by eapply (cache_current _ _ Hnew)|].
    intros (_ & Hkeep & Hstart & _)%elem_of_key_files. destruct (cache_current _ _ Hnew key e He) as (Hk & Hge & _).
    apply file_of_key in Hstart; [|by apply good_view_key|done]. rewrite Hk in Hstart.
    rewrite Hstart, lookup_insert_eq in He. by injection He as <-. }
  split; [done|]. intros ->. apply cache_inv_settle; [done|]. simpl. intros e Hf Hge Hk. rewrite lookup_insert_eq. f_equal.
  destruct (decide (file_of e = file_of envelope)) as [Heq|Hne].
  - apply R1 in Hf. rewrite Heq, lookup_insert_eq in Hf. injection Hf as Hf. by apply encode_view_inj.
  - exfalso. assert (file_of e ∈ names) as Hin.
    { apply elem_of_key_files. split_and!; [by eexists; apply R1|congruence| |apply file_of_json]. rewrite <-Hk. apply file_of_starts. }
    specialize (R3 eq_refl _ Hin). congruence.
Qed.

Lemma invalidate_inv doubt io key c :
  cache_inv doubt c → keys key →
  let r := invalidate hex_digest io key c in
  cache_inv (doubt ∪ {[key]}) r.1 ∧ (r.2 = Ok tt → cache_inv (doubt ∖ {[key]}) r.1).
Proof using All.
  destruct c as [files current]. intros [I1 I2] Hkey.
  assert (∀ files', (∀ name content, files' !! name = Some content → files !! name = Some content) →
    (∀ e, e.(ProjectionEnvelope.key) ≠ key → good_view e → is_Some (files !! file_of e) → files' !! file_of e = files !! file_of e) →
    cache_inv (doubt ∪ {[key]}) (ProjectionCache.mk files' (delete key current))) as Hkept.
  { intros files' Hsub Hother. split; simpl in *.
    - intros k e [Hne He]%lookup_delete_Some. destruct (I1 k e He) as (Hk & Hg & Hf). split_and!; [done..|].
      rewrite Hother; [done|congruence|done|by eexists].
    - intros name content Hc Hj. destruct (I2 name content (Hsub _ _ Hc) Hj) as (e & -> & -> & Hg & Hd).
      exists e. split_and!; [done..|]. intros Hn. destruct Hd as (cur & Hcur & Hold); [set_solver|].
      exists cur. rewrite lookup_delete_ne; [done|set_solver]. }
  unfold invalidate. simpl in *. destruct (CacheIo.lists io); simpl; [|split; [by apply Hkept|done]].
  set (names := key_files _ _ _ _).
  pose proof (remove_files_spec "invalidate" (CacheIo.removes io) names files) as (R1 & R2 & R3).
  destruct (remove_files _ _ _ _) as [files' r]. simpl in *.
  match goal with |- ?G ∧ _ => assert G as Hinv end.
  { apply Hkept; [done|]. intros e Hne Hg [content Hf]. rewrite Hf. apply R2; [done|].
    intros (_ & _ & Hstart & _)%elem_of_key_files. by apply file_of_key in Hstart. }
  split; [done|]. intros ->. replace (doubt ∖ {[key]}) with ((doubt ∪ {[key]}) ∖ {[key]}) by set_solver.
  apply cache_inv_settle; [done|]. simpl. intros e Hf Hg Hk. exfalso.
  assert (file_of e ∈ names) as Hin.
  { apply elem_of_key_files. split_and!; [by eexists; apply R1|done| |apply file_of_json]. rewrite <-Hk. apply file_of_starts. }
  specialize (R3 eq_refl _ Hin). congruence.
Qed.

(** ** Sequences of pushes and snapshots *)

Inductive CacheCall : Type :=
| Push (io : CacheIo) (envelope : ProjectionEnvelope)
| Snapshot (io : CacheIo) (envelope : ProjectionEnvelope) (expected_cursor : Cursor).

Definition run_cache c (call : CacheCall) : ProjectionCache * result CacheApply CacheError :=
  match call with
  | Push io envelope => ProjectionCache_apply hex_digest io envelope c
  | Snapshot io envelope expected_cursor => apply_current hex_digest io envelope expected_cursor c
  end.

Definition apply_cache c (call : CacheCall) : ProjectionCache := (run_cache c call).1.

Definition call_view (call : CacheCall) : ProjectionEnvelope :=
  match call with Push _ envelope | Snapshot _ envelope _ => envelope end.

(** A call of the client: its view is in use; a snapshot is ahead of what is
    cached, as the check of the acknowledgement requires. *)
Definition cache_call_ok c (call : CacheCall) : Prop :=
  views (call_view call) ∧
  match call with
  | Push _ _ => True
  | Snapshot _ envelope expected_cursor => ∀ previous,
      c.(ProjectionCache.current) !! envelope.(ProjectionEnvelope.key) = Some previous →
      previous.(ProjectionEnvelope.cursor).(Cursor.seq) < expected_cursor.(Cursor.seq)
  end.

(** A key is in doubt from a failed call with another projection version, which
    may have dropped the view from memory and not from the directory, until a
    call for it succeeds. *)
Definition doubt_after (doubt : gset ProjectionKey) c (call : CacheCall) : gset ProjectionKey :=
  let envelope := call_view call in
  match (run_cache c call).2 with
  | Ok _ => doubt ∖ {[envelope.(ProjectionEnvelope.key)]}
  | Err _ => if envelope.(ProjectionEnvelope.projection_version) =? PROJECTION_VERSION then doubt
             else doubt ∪ {[envelope.(ProjectionEnvelope.key)]}
  end.

(** The life of a cache, with the keys in doubt: calls and cold starts. *)
Inductive cache_run : gset ProjectionKey → ProjectionCache → Prop :=
| cache_run_start : cache_run ∅ (ProjectionCache.mk ∅ ∅)
| cache_run_call doubt c call :
    cache_run doubt c → cache_call_ok c call → cache_run (doubt_after doubt c call) (apply_cache c call)
| cache_run_restart doubt c io c' :
    cache_run doubt c → ProjectionCache_open hex_digest header_version io c.(ProjectionCache.files) = Ok c' →
    cache_run ∅ c'.

(** The result of a part of a call decides whether its key is in doubt. *)
Lemma applied_inv {T} doubt key r (value : T) :
  cache_inv doubt r.1 ∧ (r.2 = Ok tt → cache_inv (doubt ∖ {[key]}) r.1) →
  match (applied r value).2 with
  | Ok _ => cache_inv (doubt ∖ {[key]}) (applied r value).1
  | Err _ => cache_inv doubt (applied r value).1
  end.
Proof. intros [Hi Hok]. unfold applied. simpl. destruct (r.2) as [[]|]; simpl; [by apply Hok|done]. Qed.

Lemma call_persists_inv doubt io envelope c :
  cache_inv doubt c → good_view envelope →
  (∀ previous, c.(ProjectionCache.current) !! envelope.(ProjectionEnvelope.key) = Some previous →
     previous.(ProjectionEnvelope.cursor).(Cursor.seq) < envelope.(ProjectionEnvelope.cursor).(Cursor.seq)) →
  let r := applied (persist hex_digest io envelope c) CacheApply.Applied in
  cache_inv (match r.2 with
             | Ok _ => doubt ∖ {[envelope.(ProjectionEnvelope.key)]}
             | Err _ => doubt
             end) r.1.
Proof using All.
  intros Hi Hg Hfwd r. pose proof (applied_inv doubt _ _ CacheApply.Applied (persist_inv doubt io envelope c Hi Hg Hfwd)) as Ha.
  subst r. by destruct (applied _ _).2.
Qed.

Lemma call_invalidates_inv doubt io key c :
  cache_inv doubt c → keys key →
  let r := applied (invalidate hex_digest io key c) CacheApply.RefreshRequired in
  cache_inv (match r.2 with Ok _ => doubt ∖ {[key]} | Err _ => doubt ∪ {[key]} end) r.1.
Proof using All.
  intros Hi Hk r. destruct (invalidate_inv doubt io key c Hi Hk) as [Hd Hok].
  subst r. unfold applied. simpl. destruct ((invalidate _ _ _ _).2) as [[]|]; simpl; [by apply Hok|done].
Qed.

Lemma apply_cache_inv doubt c call :
  cache_inv doubt c → cache_call_ok c call → cache_inv (doubt_after doubt c call) (apply_cache c call).
Proof using All.
  intros Hi [Hk Hfwd]. unfold doubt_after, apply_cache.
  assert (keys (call_view call).(ProjectionEnvelope.key)) as Hkey by by exists (call_view call).
  destruct call as [io e|io e cursor]; simpl in *; unfold ProjectionCache_apply, apply_current;
    (destruct (ProjectionEnvelope_validate_for_transport e) as [[]|] eqn:Ht; simpl;
       [|destruct (_ =? _); [done|by apply cache_inv_doubt]]).
  - destruct (Z.eqb_spec (ProjectionEnvelope.projection_version e) PROJECTION_VERSION) as [Heq|Hne]; simpl;
      [|by apply call_invalidates_inv].
    destruct (if_some _ _) as [[]|] eqn:Hs; [|done]. apply call_persists_inv; [done|by split_and!|].
    rewrite if_some_ok in Hs. intros previous Hp. specialize (Hs previous Hp).
    unfold cache_contract in Hs. rewrite map_err_ok in Hs. unfold validate_projection_sequence in Hs.
    rewrite rbind_ok_unit in Hs. destruct Hs as [_ Hs]. apply projection_sequence_from_ok in Hs as [Hrun _].
    apply envelope_run_cons in Hrun as [(_ & _ & ->) _]. lia.
  - case_bool_decide as Hc; simpl; [|destruct (_ =? _); [done|by apply cache_inv_doubt]]. subst cursor.
    destruct (Z.eqb_spec (ProjectionEnvelope.projection_version e) PROJECTION_VERSION) as [Heq|Hne]; simpl;
      [|by apply call_invalidates_inv].
    apply call_persists_inv; [done|by split_and!|done].
Qed.

(** ** Cold start *)

(** The views loaded from some of the files: the newest of each key. *)
Record loaded (files : gmap string string) (names : list string) (current : gmap ProjectionKey ProjectionEnvelope) : Prop := {
  loaded_from key e : current !! key = Some e →
    e.(ProjectionEnvelope.key) = key ∧ good_view e ∧ files !! file_of e = Some (encode_envelope e);
  loaded_newest name e : name ∈ names → name = file_of e → files !! name = Some (encode_envelope e) →
    good_view e → ∃ a, current !! e.(ProjectionEnvelope.key) = Some a ∧
      e.(ProjectionEnvelope.cursor).(Cursor.seq) ≤ a.(ProjectionEnvelope.cursor).(Cursor.seq)
}.

Lemma loaded_more files names current current' e :
  loaded files names current → good_view e → files !! file_of e = Some (encode_envelope e) →
  (∀ key x, current' !! key = Some x →
     x.(ProjectionEnvelope.key) = key ∧ good_view x ∧ files !! file_of x = Some (encode_envelope x)) →
  (∀ key a, current !! key = Some a → ∃ a', current' !! key = Some a' ∧
     a.(ProjectionEnvelope.cursor).(Cursor.seq) ≤ a'.(ProjectionEnvelope.cursor).(Cursor.seq)) →
  (∃ a', current' !! e.(ProjectionEnvelope.key) = Some a' ∧
     e.(ProjectionEnvelope.cursor).(Cursor.seq) ≤ a'.(ProjectionEnvelope.cursor).(Cursor.seq)) →
  loaded files (names ++ [file_of e]) current'.
Proof using All.
  intros [L1 L2] Hg Hf H1 H2 H3. split; [done|]. intros name x [Hin|Hin]%elem_of_app Hname Hx Hgx.
  - destruct (L2 name x Hin Hname Hx Hgx) as (a & Ha & Hle). destruct (H2 _ a Ha) as (a' & Ha' & Hle').
    exists a'. split; [done|lia].
  - apply list_elem_of_singleton in Hin. rewrite Hin, Hf in Hx. injection Hx as Hx.
    by rewrite <-(encode_view_inj e x).
Qed.

Lemma loaded_insert files names current e :
  loaded files names current → good_view e → files !! file_of e = Some (encode_envelope e) →
  (∀ a, current !! e.(ProjectionEnvelope.key) = Some a →
     a.(ProjectionEnvelope.cursor).(Cursor.seq) ≤ e.(ProjectionEnvelope.cursor).(Cursor.seq)) →
  loaded files (names ++ [file_of e]) (<[e.(ProjectionEnvelope.key) := e]> current).
Proof using All.
  intros HL Hg Hf Hmax. apply (loaded_more _ _ current); try done.
  - intros key x [[<- <-]|[_ Hx]]%lookup_insert_Some; [done|]. by apply (loaded_from _ _ _ HL).
  - intros key a Ha. destruct (decide (key = e.(ProjectionEnvelope.key))) as [->|Hne].
    + exists e. rewrite lookup_insert_eq. split; [done|]. by apply Hmax.
    + exists a. rewrite lookup_insert_ne by done. split; [done|lia].
  - exists e. by rewrite lookup_insert_eq.
Qed.

Lemma load_file_ok io files names current e :
  io.(OpenIo.reads) (file_of e) = true → loaded files names current → good_view e → files !! file_of e = Some (encode_envelope e) →
  ∃ current', load_file hex_digest header_version io files (files, current) (file_of e) = Ok (files, current') ∧
    loaded files (names ++ [file_of e]) current'.
Proof using All.
  intros Hread HL Hg Hf. unfold load_file. rewrite Hread, Hf. simpl. pose proof Hg as (Hk & Ht & Hv). rewrite header_of_view by done.
  rewrite Hv, bool_decide_true, decode_encode_view, Ht, bool_decide_true by done. simpl.
  destruct (current !! e.(ProjectionEnvelope.key)) as [a|] eqn:Ea.
  2: { eexists. split; [done|]. apply loaded_insert; try done. intros a Ha. congruence. }
  assert (a.(ProjectionEnvelope.cursor) = e.(ProjectionEnvelope.cursor) → e = a) as Hsame.
  { intros Hc. destruct (loaded_from _ _ _ HL _ _ Ea) as (Hka & Hga & Hfa). apply encode_view_inj; [done..|].
    unfold cache_file_name in Hf, Hfa. rewrite Hka, Hc, Hf in Hfa. by injection Hfa. }
  assert (e.(ProjectionEnvelope.cursor).(Cursor.seq) ≤ a.(ProjectionEnvelope.cursor).(Cursor.seq) →
          loaded files (names ++ [file_of e]) current) as Hskip.
  { intros Hle. apply (loaded_more _ _ current); try done; [apply HL|intros key x Hx; exists x; split; [done|lia]|].
    by exists a. }
  case_bool_decide as Hc.
  - rewrite bool_decide_true by (by apply Hsame). exists current. split; [done|]. apply Hskip. rewrite Hc. lia.
  - destruct (Z.ltb_spec a.(ProjectionEnvelope.cursor).(Cursor.seq) e.(ProjectionEnvelope.cursor).(Cursor.seq)).
    + eexists. split; [done|]. apply loaded_insert; try done. intros a' Ha'. rewrite Ea in Ha'. injection Ha' as <-. lia.
    + exists current. split; [done|]. by apply Hskip.
Qed.

(** Reading the views of a directory ends with the newest of each key, or at a
    file that cannot be read. *)
Lemma load_files_spec io files names :
  (∀ name, name ∈ names → ∃ e, name = file_of e ∧ good_view e ∧ files !! name = Some (encode_envelope e)) →
  (∃ current, try_fold (load_file hex_digest header_version io files) (files, ∅) names = Ok (files, current) ∧
     loaded files names current) ∨
  (∃ name, io.(OpenIo.reads) name = false) ∧
  try_fold (load_file hex_digest header_version io files) (files, ∅) names = Err (files, CacheError.Io "read").
Proof using All.
  induction names as [|name names IH] using rev_ind; intros Hn.
  - left. exists ∅. split; [done|]. split; [intros key e; by rewrite lookup_empty|]. intros name e Hin%elem_of_nil. done.
  - rewrite try_fold_snoc.
    destruct IH as [(current & Hc & HL)|[Hunread Hc]]; [intros; apply Hn; apply elem_of_app; by left| |right; split; [done|by rewrite Hc]].
    destruct (Hn name) as (e & -> & Hg & Hf); [apply elem_of_app; right; by left|]. rewrite Hc.
    destruct (io.(OpenIo.reads) (file_of e)) eqn:Er.
    + left. destruct (load_file_ok io files names current e Er HL Hg Hf) as (current' & Hl & HL'). exists current'. split; [exact Hl|done].
    + right. split; [by eexists|]. simpl. by rewrite Er.
Qed.

(** The newest views of a directory are not in doubt. *)
Lemma loaded_inv files names current :
  (∀ name content, files !! name = Some content → ends_with ".json" name = true →
     ∃ e, name = file_of e ∧ content = encode_envelope e ∧ good_view e) →
  (∀ e, is_Some (files !! file_of e) → file_of e ∈ names) →
  loaded files names current → cache_inv ∅ (ProjectionCache.mk files current).
Proof using All.
  intros Hfiles Hnames [L1 L2]. split; simpl; [done|]. intros name content Hc Hj.
  destruct (Hfiles name content Hc Hj) as (e & -> & -> & Hg). exists e. split_and!; [done..|]. intros _.
  destruct (L2 (file_of e) e) as (a & Ha & Hle); [apply Hnames; by eexists|done..|]. exists a. split; [done|].
  destruct (L1 _ _ Ha) as (Hka & Hga & Hfa).
  destruct (decide (e.(ProjectionEnvelope.cursor).(Cursor.seq) = a.(ProjectionEnvelope.cursor).(Cursor.seq))) as [Heq|]; [left|right; lia].
  apply encode_view_inj; [done..|].
  assert (file_of e = file_of a) as Hn by (unfold cache_file_name; by rewrite Hka, Heq). rewrite Hn, Hfa in Hc. by injection Hc.
Qed.

(** The file system lets the cold start read the directory. *)
Definition opens (io : OpenIo) : Prop :=
  io.(OpenIo.makes_directory) = true ∧ io.(OpenIo.lists_directory) = true ∧ ∀ name, io.(OpenIo.reads) name = true.

(** What a cold start makes of a directory that agrees. *)
Lemma open_spec doubt c io :
  cache_inv doubt c →
  let r := ProjectionCache_open hex_digest header_version io c.(ProjectionCache.files) in
  (opens io → is_ok r = true) ∧ (∀ files' e, r = Err (files', e) → files' = c.(ProjectionCache.files)) ∧
  ∀ c', r = Ok c' → c'.(ProjectionCache.files) = c.(ProjectionCache.files) ∧ cache_inv ∅ c'.
Proof using All.
  intros [I1 I2] r. subst r. unfold ProjectionCache_open.
  destruct (io.(OpenIo.makes_directory)) eqn:E1; [|split_and!; [intros (E & _); congruence|by intros ? ? [= <- _]|done]].
  destruct (io.(OpenIo.lists_directory)) eqn:E2; [|split_and!; [intros (_ & E & _); congruence|by intros ? ? [= <- _]|done]]. simpl.
  set (names := filter_b _ _).
  assert (∀ name, name ∈ names ↔ is_Some (c.(ProjectionCache.files) !! name) ∧ has_json_extension name = true) as Hnames.
  { intros name. subst names. by rewrite elem_of_filter_b, elem_of_btree_keys. }
  destruct (load_files_spec io c.(ProjectionCache.files) names) as [(current & -> & HL)|[[name Hun] ->]].
  { intros name [[content Hc] Hx]%Hnames. unfold has_json_extension in Hx. apply andb_true_iff in Hx as [Hx _].
    destruct (I2 name content Hc Hx) as (e & -> & -> & Hg & _). by exists e. }
  - simpl. split_and!; [done..|]. intros c' [= <-]. split; [done|]. eapply loaded_inv; [| |exact HL].
    + intros n content Hc Hj. destruct (I2 n content Hc Hj) as (e & -> & -> & Hg & _). by exists e.
    + intros e He. apply Hnames. split; [done|apply file_of_extension].
  - simpl. split_and!; [|by intros ? ? [= <- _]|done]. intros (_ & _ & E). by rewrite E in Hun.
Qed.

Lemma cache_run_inv doubt c : cache_run doubt c → cache_inv doubt c.
Proof using All.
  induction 1 as [|doubt c call _ IH Hok|doubt c io c' _ IH Hopen]; [|by apply apply_cache_inv|].
  - split; simpl; intros; by rewrite lookup_empty in *.
  - by eapply (open_spec doubt c io IH).
Qed.

(** Two caches on one directory: what is not in doubt is the same, and what the
    first holds the second has, or something newer. *)
Lemma same_files_current doubt c c' :
  cache_inv doubt c → cache_inv ∅ c' → c'.(ProjectionCache.files) = c.(ProjectionCache.files) →
  (∀ key, key ∉ doubt → c'.(ProjectionCache.current) !! key = c.(ProjectionCache.current) !! key) ∧
  ∀ key e, c.(ProjectionCache.current) !! key = Some e → ∃ e', c'.(ProjectionCache.current) !! key = Some e' ∧ not_newer e e'.
Proof using All.
  intros [I1 I2] [J1 J2] Hf.
  assert (∀ key e, c.(ProjectionCache.current) !! key = Some e →
    ∃ e', c'.(ProjectionCache.current) !! key = Some e' ∧ not_newer e e') as Hnewer.
  { intros key e He. destruct (I1 key e He) as (<- & Hg & Hfile). rewrite <-Hf in Hfile.
    destruct (J2 _ _ Hfile (file_of_json e)) as (x & _ & Hx & Hgx & Hd). apply encode_view_inj in Hx as <-; [|done..].
    apply Hd. set_solver. }
  split; [|exact Hnewer]. intros key Hkey. destruct (c'.(ProjectionCache.current) !! key) as [a|] eqn:Ea.
  - destruct (J1 key a Ea) as (Hka & Hga & Hfa). rewrite Hf in Hfa.
    destruct (I2 _ _ Hfa (file_of_json a)) as (x & _ & Hx & Hgx & Hd). apply encode_view_inj in Hx as <-; [|done..].
    rewrite Hka in Hd. destruct (Hd Hkey) as (cur & Hcur & Hn). rewrite Hcur. f_equal.
    destruct (Hnewer key cur Hcur) as (a' & Ha' & Hn'). rewrite Ea in Ha'. injection Ha' as <-.
    destruct Hn as [?|?], Hn' as [?|?]; try congruence; lia.
  - destruct (c.(ProjectionCache.current) !! key) as [e|] eqn:Ee; [|done]. destruct (Hnewer key e Ee) as (? & ? & _). congruence.
Qed.

(** C24: Whatever writes, renames and clean-ups fail on the way, after any pushes, any snapshots
    that were ahead of the cached view and any earlier cold starts, the cold start of the client
    succeeds when its directory can be created, listed and read, and never changes the directory. It
    reads back exactly the views that were in memory, except for keys in doubt: a view in memory may
    then come back as a newer one, and a dropped view may return. A key is in doubt from a failed
    call for it with another projection version until a call for it succeeds or the client starts
    again. The codec must decode the views, and the digests of their keys have 64 digits and be
    distinct. *)
Theorem cache_reopens doubt c io :
  cache_run doubt c →
  let opened := ProjectionCache_open hex_digest header_version io c.(ProjectionCache.files) in
  (opens io → is_ok opened = true) ∧
  (∀ files' e, opened = Err (files', e) → files' = c.(ProjectionCache.files)) ∧
  ∀ c', opened = Ok c' →
    c'.(ProjectionCache.files) = c.(ProjectionCache.files) ∧
    (∀ key, key ∉ doubt → cached c' key = cached c key) ∧
    ∀ key e, cached c key = Some e → ∃ e', cached c' key = Some e' ∧
      (e' = e ∨ e.(ProjectionEnvelope.cursor).(Cursor.seq) < e'.(ProjectionEnvelope.cursor).(Cursor.seq)).
Proof using All.
  intros Hi%cache_run_inv opened. destruct (open_spec doubt c io Hi) as (Hok & Herr & Hopen). split_and!; [done..|].
  intros c' Hc'. destruct (Hopen c' Hc') as [Hf Hi']. destruct (same_files_current doubt c c' Hi Hi' Hf) as [Hsame Hnewer].
  split_and!; [done..|]. intros key e He. destruct (Hnewer key e He) as (e' & He' & [->|Hlt]); exists e'; split; auto.
Qed.
End agreement.
