(* ===== verification/ClientWorker.v ===== *)
(** * The subscriptions of the client worker

    Models the part of [crates/kaleido-core/src/mobile.rs] that runs on the
    worker thread over one authenticated connection: requests and the wait for
    their responses, pushes for the active subscriptions, the synchronisation
    of a new or resumed subscription, and the wait between reconnects.

    The connection is the list of frames that will still arrive and the frames
    sent; when no frame is left a wait ends by its deadline.  The disk of the
    cache is the list of outcomes of its next writes.  The callbacks of the
    application are recorded in the order they are called. *)
From stdpp Require Import prelude strings gmap.
From Stdlib Require Import ZArith Lia Ascii.
From S2P Require Import Prelude ProtoBase ProtoContent ProtoRuntime ProtoCommand ProtoEffect ProtoProjection CanonState ReadModelBuild DurableLog ProjectionJournal TransportControl TransportFrame ClientPath ClientCache.

Local Open Scope Z_scope.

(** ** Data *)

Module MobileClientError.
Inductive MobileClientError : Type :=
| Storage
| NotPaired
| NotConnected
| AlreadyConnected
| Authentication
| Contract
| RemoteRejected
| RemoteUnavailable
| WorkerStopped
| IdentifierExhausted.
End MobileClientError.
Abbreviation MobileClientError := MobileClientError.MobileClientError.

#[export] Instance MobileClientError_eq_dec : EqDecision MobileClientError.
Proof. solve_decision. Defined.

Module CallbackEvent.
Inductive CallbackEvent : Type :=
| OnProjection (envelope : ProjectionEnvelope)
| OnError (error : CanonicalError)
| OnClosed (error : option CanonicalError).
End CallbackEvent.
Abbreviation CallbackEvent := CallbackEvent.CallbackEvent.

(** What was sent: a control frame, or a content body for a request. *)
Module Sent.
Inductive Sent : Type :=
| Control (frame : ControlFrame)
| Content (request_id : Z) (body : list ascii).
End Sent.
Abbreviation Sent := Sent.Sent.

Module WireConnection.
Record WireConnection : Type := mk {
  incoming : list Frame;
  sent : list Sent;
  writable : bool
}.
End WireConnection.
Abbreviation WireConnection := WireConnection.WireConnection.

Module Worker.
Record Worker : Type := mk {
  wire : WireConnection;
  next_request_id : Z;
  callbacks : gmap Z ProjectionKey;
  current_snapshots : gmap Z Cursor;
  cache : ProjectionCache;
  disk : list CacheIo;
  delivered : list (Z * CallbackEvent)
}.
End Worker.
Abbreviation Worker := Worker.Worker.

Definition Worker_set_wire (v : WireConnection) (r : Worker) : Worker := {|
  Worker.wire := v;
  Worker.next_request_id := r.(Worker.next_request_id);
  Worker.callbacks := r.(Worker.callbacks);
  Worker.current_snapshots := r.(Worker.current_snapshots);
  Worker.cache := r.(Worker.cache);
  Worker.disk := r.(Worker.disk);
  Worker.delivered := r.(Worker.delivered)
|}.

Definition Worker_set_next_request_id (v : Z) (r : Worker) : Worker := {|
  Worker.wire := r.(Worker.wire);
  Worker.next_request_id := v;
  Worker.callbacks := r.(Worker.callbacks);
  Worker.current_snapshots := r.(Worker.current_snapshots);
  Worker.cache := r.(Worker.cache);
  Worker.disk := r.(Worker.disk);
  Worker.delivered := r.(Worker.delivered)
|}.

Definition Worker_set_callbacks (v : gmap Z ProjectionKey) (r : Worker) : Worker := {|
  Worker.wire := r.(Worker.wire);
  Worker.next_request_id := r.(Worker.next_request_id);
  Worker.callbacks := v;
  Worker.current_snapshots := r.(Worker.current_snapshots);
  Worker.cache := r.(Worker.cache);
  Worker.disk := r.(Worker.disk);
  Worker.delivered := r.(Worker.delivered)
|}.

Definition Worker_set_current_snapshots (v : gmap Z Cursor) (r : Worker) : Worker := {|
  Worker.wire := r.(Worker.wire);
  Worker.next_request_id := r.(Worker.next_request_id);
  Worker.callbacks := r.(Worker.callbacks);
  Worker.current_snapshots := v;
  Worker.cache := r.(Worker.cache);
  Worker.disk := r.(Worker.disk);
  Worker.delivered := r.(Worker.delivered)
|}.

Definition Worker_set_cache (v : ProjectionCache) (r : Worker) : Worker := {|
  Worker.wire := r.(Worker.wire);
  Worker.next_request_id := r.(Worker.next_request_id);
  Worker.callbacks := r.(Worker.callbacks);
  Worker.current_snapshots := r.(Worker.current_snapshots);
  Worker.cache := v;
  Worker.disk := r.(Worker.disk);
  Worker.delivered := r.(Worker.delivered)
|}.

Definition Worker_set_disk (v : list CacheIo) (r : Worker) : Worker := {|
  Worker.wire := r.(Worker.wire);
  Worker.next_request_id := r.(Worker.next_request_id);
  Worker.callbacks := r.(Worker.callbacks);
  Worker.current_snapshots := r.(Worker.current_snapshots);
  Worker.cache := r.(Worker.cache);
  Worker.disk := v;
  Worker.delivered := r.(Worker.delivered)
|}.

Definition Worker_set_delivered (v : list (Z * CallbackEvent)) (r : Worker) : Worker := {|
  Worker.wire := r.(Worker.wire);
  Worker.next_request_id := r.(Worker.next_request_id);
  Worker.callbacks := r.(Worker.callbacks);
  Worker.current_snapshots := r.(Worker.current_snapshots);
  Worker.cache := r.(Worker.cache);
  Worker.disk := r.(Worker.disk);
  Worker.delivered := v
|}.

(** ** A state and error monad for the worker *)

Definition worker (T : Type) : Type := Worker → Worker * result T MobileClientError.

#[export] Instance worker_ret : MRet worker := λ T value w, (w, Ok value).
#[export] Instance worker_bind : MBind worker := λ T U k m w,
  match m w with
  | (w, Ok value) => k value w
  | (w, Err e) => (w, Err e)
  end.

Definition fail_with {T} (e : MobileClientError) : worker T := λ w, (w, Err e).
Definition get {T} (field : Worker → T) : worker T := λ w, (w, Ok (field w)).
Definition update (change : Worker → Worker) : worker unit := λ w, (change w, Ok tt).
Definition lift {T} (r : result T MobileClientError) : worker T := λ w, (w, r).
Definition contract_or {T E} (r : result T E) : worker T := lift (map_err (λ _, MobileClientError.Contract) r).

Definition deliver (subscription_id : Z) (event : CallbackEvent) : worker unit :=
  update (λ w, Worker_set_delivered (w.(Worker.delivered) ++ [(subscription_id, event)]) w).
Definition drop_callback (subscription_id : Z) : worker unit :=
  update (λ w, Worker_set_callbacks (delete subscription_id w.(Worker.callbacks)) w).
Definition drop_snapshot (subscription_id : Z) : worker unit :=
  update (λ w, Worker_set_current_snapshots (delete subscription_id w.(Worker.current_snapshots)) w).

Section worker.
Context `{ControlCodec} `{EnvelopeCodec} (hex_digest : string → string) (now_ms : Z).

(** ** The wire *)

Definition take_request_id : worker Z :=
  current ← get Worker.next_request_id;
  next ← lift (ok_or (checked_add_u64 current 1) MobileClientError.IdentifierExhausted);
  _ ← update (Worker_set_next_request_id next);
  mret current.

Definition put_sent (item : Sent) : worker unit :=
  update (λ w, Worker_set_wire (WireConnection.mk w.(Worker.wire).(WireConnection.incoming)
    (w.(Worker.wire).(WireConnection.sent) ++ [item]) w.(Worker.wire).(WireConnection.writable)) w).

Definition send_control (frame : ControlFrame) : worker unit :=
  _ ← lift (map_err (λ _, MobileClientError.WorkerStopped) (encode_control frame));
  writable ← get (λ w, w.(Worker.wire).(WireConnection.writable));
  if (writable : bool) then put_sent (Sent.Control frame) else fail_with MobileClientError.WorkerStopped.

Definition send_content (request_id : Z) (body : list ascii) : worker unit :=
  _ ← lift (map_err (λ _, MobileClientError.WorkerStopped) (encode_content request_id body));
  writable ← get (λ w, w.(Worker.wire).(WireConnection.writable));
  if (writable : bool) then put_sent (Sent.Content request_id body) else fail_with MobileClientError.WorkerStopped.

(** ** Pushes *)

Definition cursor_gap : CanonicalError := CanonicalError.mk ErrorCode.CursorGap true None now_ms.

(** One call into the locked cache, with the next outcome of the disk. *)
Definition with_cache (call : CacheIo → ProjectionCache → ProjectionCache * result CacheApply CacheError) : worker CacheApply :=
  λ w,
    let io := default clean_cache_io (head w.(Worker.disk)) in
    let '(cache, r) := call io w.(Worker.cache) in
    (Worker_set_disk (tail w.(Worker.disk)) (Worker_set_cache cache w), map_err (λ _, MobileClientError.Contract) r).

Definition apply_projection (subscription_id : Z) (envelope : ProjectionEnvelope) : worker unit :=
  active ← get (λ w, w.(Worker.callbacks) !! subscription_id);
  expected_key ← lift (ok_or active MobileClientError.Contract);
  if negb (bool_decide (expected_key = envelope.(ProjectionEnvelope.key))) then fail_with MobileClientError.Contract
  else
    snapshot ← get (λ w, w.(Worker.current_snapshots) !! subscription_id);
    _ ← drop_snapshot subscription_id;
    applied ← with_cache (λ io,
      match snapshot with
      | Some expected_cursor => apply_current hex_digest io envelope expected_cursor
      | None => ProjectionCache_apply hex_digest io envelope
      end);
    match applied with
    | CacheApply.Applied => deliver subscription_id (CallbackEvent.OnProjection envelope)
    | CacheApply.RefreshRequired =>
        _ ← drop_callback subscription_id;
        _ ← deliver subscription_id (CallbackEvent.OnError cursor_gap);
        _ ← deliver subscription_id (CallbackEvent.OnClosed (Some cursor_gap));
        fail_with MobileClientError.Contract
    end.

Definition handle_unsolicited (frame : Frame) : worker unit :=
  control ← contract_or (Frame_decode_control frame);
  match control with
  | ControlFrame.ProjectionEnvelopeFrame subscription_id envelope => apply_projection subscription_id envelope
  | ControlFrame.ProjectionSubscriptionClosed subscription_id error =>
      if negb (bool_decide (error.(CanonicalError.code) = ErrorCode.CursorGap)) || negb error.(CanonicalError.retriable)
         || is_some error.(CanonicalError.detail_ref)
      then fail_with MobileClientError.Contract
      else
        active ← get (λ w, w.(Worker.callbacks) !! subscription_id);
        _ ← lift (ok_or active MobileClientError.Contract);
        _ ← drop_callback subscription_id;
        _ ← drop_snapshot subscription_id;
        _ ← deliver subscription_id (CallbackEvent.OnError error);
        deliver subscription_id (CallbackEvent.OnClosed (Some error))
  | ControlFrame.Ping request_id nonce => send_control (ControlFrame.Pong request_id nonce)
  | ControlFrame.TransportError _ _ _ => fail_with MobileClientError.RemoteRejected
  | _ => fail_with MobileClientError.Contract
  end.

(** ** Waiting for a response *)

(** The frames up to the response are handled as pushes; when none is left the
    deadline ends the wait. *)
Fixpoint wait_frames {T} (select : ControlFrame → option T) (frames : list Frame) : worker T :=
  match frames with
  | [] => fail_with MobileClientError.WorkerStopped
  | frame :: rest =>
      _ ← update (λ w, Worker_set_wire (WireConnection.mk rest w.(Worker.wire).(WireConnection.sent)
                                          w.(Worker.wire).(WireConnection.writable)) w);
      selected ← match frame with
                 | Frame.Control bytes =>
                     control ← contract_or (ControlFrame_decode bytes);
                     mret (select control)
                 | Frame.Content _ _ => mret None
                 end;
      match selected with
      | Some value => mret value
      | None => _ ← handle_unsolicited frame; wait_frames select rest
      end
  end.

Definition wait_for {T} (select : ControlFrame → option T) : worker T :=
  frames ← get (λ w, w.(Worker.wire).(WireConnection.incoming));
  wait_frames select frames.

(** ** Synchronising a subscription *)

Definition validate_synchronized_cursor (outcome : ProjectionSubscribeOutcome) (since : option Cursor)
    (synchronized_cursor : Cursor) : result unit MobileClientError :=
  match outcome with
  | ProjectionSubscribeOutcome.CurrentFollows current_cursor =>
      reject_if (synchronized_cursor.(Cursor.seq) <? current_cursor.(Cursor.seq)) MobileClientError.Contract
  | ProjectionSubscribeOutcome.Resumed _ =>
      reject_if (match since with
                 | None => true
                 | Some cursor => synchronized_cursor.(Cursor.seq) <? cursor.(Cursor.seq)
                 end) MobileClientError.Contract
  | ProjectionSubscribeOutcome.Rejected _ => Err MobileClientError.Contract
  end.

Definition select_ack (request_id subscription_id : Z) (frame : ControlFrame) : option ProjectionSubscribeAck :=
  match frame with
  | ControlFrame.ProjectionSubscribeAckFrame found found_subscription ack =>
      if (found =? request_id) && (found_subscription =? subscription_id) then Some ack else None
  | _ => None
  end.

Definition select_pong (barrier_request_id : Z) (frame : ControlFrame) : option unit :=
  match frame with
  | ControlFrame.Pong request_id nonce =>
      if (request_id =? barrier_request_id) && (nonce =? barrier_request_id) then Some tt else None
  | _ => None
  end.

(** Subscribe, and the acknowledgement that answers. *)
Definition request_subscription (subscription_id request_id : Z) (subscribe : ProjectionSubscribe) :
    worker ProjectionSubscribeAck :=
  _ ← send_control (ControlFrame.ProjectionSubscribeFrame request_id subscription_id subscribe);
  ack ← wait_for (select_ack request_id subscription_id);
  _ ← contract_or (ProjectionSubscribeAck_validate_for ack subscribe);
  mret ack.

(** The ordered barrier: a ping, whose pong follows the initial views. *)
Definition synchronize (subscribe : ProjectionSubscribe) (outcome : ProjectionSubscribeOutcome) : worker unit :=
  barrier_request_id ← take_request_id;
  _ ← send_control (ControlFrame.Ping barrier_request_id barrier_request_id);
  _ ← wait_for (select_pong barrier_request_id);
  cursor ← get (λ w, ClientCache.since w.(Worker.cache) subscribe.(ProjectionSubscribe.key));
  synchronized_cursor ← lift (ok_or cursor MobileClientError.Contract);
  lift (validate_synchronized_cursor outcome subscribe.(ProjectionSubscribe.since) synchronized_cursor).

Definition note_snapshot (subscription_id : Z) (outcome : ProjectionSubscribeOutcome) : worker unit :=
  match outcome with
  | ProjectionSubscribeOutcome.CurrentFollows current_cursor =>
      update (λ w, Worker_set_current_snapshots (<[subscription_id := current_cursor]> w.(Worker.current_snapshots)) w)
  | _ => mret tt
  end.

(** The subscription is dropped and its callback told why. *)
Definition reject_subscription (subscription_id : Z) (error : CanonicalError) : worker unit :=
  active ← get (λ w, w.(Worker.callbacks) !! subscription_id);
  match active with
  | Some _ =>
      _ ← drop_callback subscription_id;
      _ ← deliver subscription_id (CallbackEvent.OnError error);
      deliver subscription_id (CallbackEvent.OnClosed (Some error))
  | None => mret tt
  end.

(** The closure of the [Subscribe] command. *)
Definition subscribe_exchange (subscription_id request_id : Z) (subscribe : ProjectionSubscribe) : worker unit :=
  ack ← request_subscription subscription_id request_id subscribe;
  _ ← note_snapshot subscription_id ack.(ProjectionSubscribeAck.outcome);
  match ack.(ProjectionSubscribeAck.outcome) with
  | ProjectionSubscribeOutcome.Rejected error =>
      _ ← reject_subscription subscription_id error;
      fail_with MobileClientError.RemoteRejected
  | outcome => synchronize subscribe outcome
  end.

(** A failed exchange leaves no trace of the subscription; its error is the reply. *)
Definition settle (subscription_id : Z) (exchange : worker unit) : worker (result unit MobileClientError) := λ w,
  match exchange w with
  | (w, Ok _) => (w, Ok (Ok tt))
  | (w, Err e) =>
      (Worker_set_current_snapshots (delete subscription_id w.(Worker.current_snapshots))
         (Worker_set_callbacks (delete subscription_id w.(Worker.callbacks)) w), Ok (Err e))
  end.

(** [WorkerCommand::Subscribe]: the value is the reply sent to the caller. *)
Definition execute_subscribe (subscription_id : Z) (subscribe : ProjectionSubscribe) :
    worker (result unit MobileClientError) :=
  request_id ← take_request_id;
  _ ← update (λ w, Worker_set_callbacks
                (<[subscription_id := subscribe.(ProjectionSubscribe.key)]> w.(Worker.callbacks)) w);
  settle subscription_id (subscribe_exchange subscription_id request_id subscribe).

Definition resume_subscription (key : ProjectionKey) : worker ProjectionSubscribe :=
  since ← get (λ w, ClientCache.since w.(Worker.cache) key);
  mret (ProjectionSubscribe.mk key since).

(** One turn of [resubscribe_all]. *)
Definition resubscribe (subscription_id : Z) : worker unit :=
  active ← get (λ w, w.(Worker.callbacks) !! subscription_id);
  match active with
  | None => mret tt
  | Some key =>
      subscribe ← resume_subscription key;
      request_id ← take_request_id;
      ack ← request_subscription subscription_id request_id subscribe;
      match ack.(ProjectionSubscribeAck.outcome) with
      | ProjectionSubscribeOutcome.Rejected error =>
          _ ← reject_subscription subscription_id error;
          drop_snapshot subscription_id
      | outcome =>
          _ ← note_snapshot subscription_id outcome;
          synchronize subscribe outcome
      end
  end.

Fixpoint resubscribe_each (subscriptions : list Z) : worker unit :=
  match subscriptions with
  | [] => mret tt
  | subscription_id :: rest => _ ← resubscribe subscription_id; resubscribe_each rest
  end.

(** The subscriptions in the order of their identifiers. *)
Definition resubscribe_all : worker unit :=
  subscriptions ← get (λ w, sort_by_key id (map_to_list w.(Worker.callbacks)).*1);
  resubscribe_each subscriptions.

(** ** The other commands of the caller *)

(** A command replies with the outcome of its exchange and does not end the
    worker. *)
Definition reply {T} (exchange : worker T) : worker (result T MobileClientError) :=
  λ w, let '(w, r) := exchange w in (w, Ok r).

Definition execute_unsubscribe (subscription_id : Z) : worker (result unit MobileClientError) :=
  reply (
    request_id ← take_request_id;
    _ ← send_control (ControlFrame.UnsubscribeRequest request_id subscription_id);
    _ ← wait_for (λ frame, match frame with
                           | ControlFrame.UnsubscribeAck found found_subscription =>
                               if (found =? request_id) && (found_subscription =? subscription_id) then Some tt else None
                           | _ => None
                           end);
    active ← get (λ w, w.(Worker.callbacks) !! subscription_id);
    _ ← match active with
        | Some _ => _ ← drop_callback subscription_id; deliver subscription_id (CallbackEvent.OnClosed None)
        | None => mret tt
        end;
    drop_snapshot subscription_id).

Definition execute_submit (request : DeviceCommandRequest) : worker (result CommandAck MobileClientError) :=
  reply (
    request_id ← take_request_id;
    _ ← send_control (ControlFrame.DeviceCommandFrame request_id request);
    wait_for (λ frame, match frame with
                       | ControlFrame.DeviceCommandAck found ack => if found =? request_id then Some ack else None
                       | _ => None
                       end)).

Definition execute_write (request : ContentWriteRequest) (bytes : list ascii) :
    worker (result ContentWriteResponse MobileClientError) :=
  reply (
    _ ← contract_or (ContentWriteRequest_validate request);
    request_id ← take_request_id;
    _ ← send_control (ControlFrame.ContentWriteHeader request_id request);
    _ ← send_content request_id bytes;
    wait_for (λ frame, match frame with
                       | ControlFrame.ContentWriteResult found response => if found =? request_id then Some response else None
                       | _ => None
                       end)).

Definition execute_read (request : ContentReadRequest) : worker (result ContentReadResponse MobileClientError) :=
  reply (
    _ ← contract_or (ContentReadRequest_validate request);
    request_id ← take_request_id;
    _ ← send_control (ControlFrame.ContentReadFrame request_id request);
    wait_for (λ frame, match frame with
                       | ControlFrame.ContentReadResult found response => if found =? request_id then Some response else None
                       | _ => None
                       end)).
End worker.

(** ** The wait between reconnects *)

Definition WORKER_POLL : Z := 100.

Module WaitCommand.
Inductive WaitCommand : Type :=
| Shutdown
| NetworkEpoch (epoch : Z)
| Other.
End WaitCommand.
Abbreviation WaitCommand := WaitCommand.WaitCommand.

#[export] Instance WaitCommand_eq_dec : EqDecision WaitCommand.
Proof. solve_decision. Defined.

(** The inner loop of [reconnect_worker]: [now] and the arrival times of the
    commands count from its start.  A poll that times out leaves the loop. *)
Fixpoint reconnect_wait (deadline now : Z) (arrivals : list (Z * WaitCommand)) (path : PathMachine) (backoff : ReconnectBackoff) :
    bool * Z * PathMachine * ReconnectBackoff :=
  if deadline <=? now then (true, now, path, backoff)
  else
    let wait := Z.min (deadline - now) WORKER_POLL in
    match arrivals with
    | (at_ms, command) :: arrivals =>
        if now + wait <? at_ms then (true, now + wait, path, backoff)
        else
          let now := Z.max now at_ms in
          match command with
          | WaitCommand.Shutdown => (false, now, path, backoff)
          | WaitCommand.NetworkEpoch epoch =>
              if negb (epoch =? path.(PathMachine.epoch))
              then reconnect_wait deadline now arrivals (network_changed epoch now path).1 (ReconnectBackoff_reset backoff)
              else reconnect_wait deadline now arrivals path backoff
          | WaitCommand.Other => reconnect_wait deadline now arrivals path backoff
          end
    | [] => (true, now + wait, path, backoff)
    end.

(** The wait before a reconnect does not honour the backoff: when no command arrives, the first poll that
    times out leaves the loop, so every attempt starts 100 ms after the previous one whatever the delay of the
    backoff is. *)
Theorem reconnect_wait_is_cut_short count n delay path backoff :
  delays count ReconnectBackoff_default !! n = Some delay →
  reconnect_wait delay 0 [] path backoff = (true, WORKER_POLL, path, backoff).
Proof.
  intros Hd. assert (INITIAL_DELAY ≤ delay) as Hmin.
  { revert n Hd. assert (∀ b n, INITIAL_DELAY ≤ b.(ReconnectBackoff.next) →
      delays count b !! n = Some delay → INITIAL_DELAY ≤ delay) as H; [|by intros n; apply H].
    induction count as [|count IH]; intros b n Hb; [done|]. simpl.
    destruct n as [|n]; simpl; [by intros [= <-]|]. apply IH. simpl. unfold checked_mul_duration.
    unfold INITIAL_DELAY, MAX_DELAY in *. case_match; simpl; lia. }
  unfold INITIAL_DELAY in Hmin. simpl. rewrite (proj2 (Z.leb_gt _ _)) by lia.
  unfold WORKER_POLL. repeat f_equal. lia.
Qed.

(** ** Catching up with the host *)

Section catching_up.
Context `{ControlCodec} `{EnvelopeCodec} (hex_digest : string → string) (now_ms : Z).

Definition carries (frame : Frame) (control : ControlFrame) : Prop := Frame_decode_control frame = Ok control.

(** What the host writes for a subscription, before it reads the next request
    ([handle_business_frame]). *)
Definition serve_subscription (j : ProjectionJournal) (request : ProjectionSubscribe) (at_ms request_id subscription_id : Z) :
    result (list ControlFrame) StateError :=
  let? replay := replay j request at_ms in
  Ok (ControlFrame.ProjectionSubscribeAckFrame request_id subscription_id replay.(ProjectionReplay.ack) ::
      (ControlFrame.ProjectionEnvelopeFrame subscription_id <$> replay.(ProjectionReplay.envelopes))).

Definition serve_ping (request_id nonce : Z) : ControlFrame := ControlFrame.Pong request_id nonce.

(** No temporary file was left behind. *)
Definition no_leftovers (c : ProjectionCache) : Prop :=
  ∀ name, is_Some (c.(ProjectionCache.files) !! name) → ends_with ".json" name = true.

Lemma remove_all_ok operation names files :
  (remove_files operation (λ _, true) names files).2 = Ok tt.
Proof. revert files. induction names as [|n names IH]; intros files; [done|]. simpl. apply IH. Qed.

Lemma persist_clean envelope c :
  no_leftovers c →
  ∃ c', persist hex_digest clean_cache_io envelope c = (c', Ok tt) ∧ no_leftovers c' ∧
    c'.(ProjectionCache.current) = <[envelope.(ProjectionEnvelope.key) := envelope]> c.(ProjectionCache.current).
Proof.
  intros Hc. unfold persist.
  assert (∃ temporary, temporary_path c.(ProjectionCache.files) (cache_file_name hex_digest envelope) = Ok temporary) as [t ->].
  { unfold temporary_path. simpl. destruct (_ !! temporary_name _ 0) as [x|] eqn:E; [|by eexists].
    assert (ends_with ".json" (temporary_name (cache_file_name hex_digest envelope) 0) = true) as Hj by (apply Hc; by eexists).
    unfold temporary_name in Hj.
    assert (∀ name, name +:+ "." +:+ decimal 0 +:+ ".tmp" = (name +:+ "." +:+ decimal 0) +:+ ".tmp") as Ha
      by (intros; by rewrite !append_assoc).
    by rewrite Ha, tmp_is_not_json in Hj. }
  simpl. unfold remove_superseded. simpl. set (names := key_files _ _ _ _).
  pose proof (remove_all_ok "compact" names
    (<[cache_file_name hex_digest envelope := encode_envelope envelope]> c.(ProjectionCache.files))) as Hok.
  pose proof (remove_files_spec "compact" (λ _, true) names
    (<[cache_file_name hex_digest envelope := encode_envelope envelope]> c.(ProjectionCache.files))) as (R1 & _ & _).
  destruct (remove_files _ _ _ _) as [files' r]. simpl in *. subst r. eexists. split; [done|]. split; [|done].
  intros name [content Hn]. simpl in Hn. apply R1 in Hn.
  apply lookup_insert_Some in Hn as [[<- _]|[_ Hn]]; [apply file_of_json | apply Hc; by eexists].
Qed.

(** A view that continues what is cached, or the snapshot that was announced. *)
Definition expected_view (w : Worker) (subscription_id : Z) (envelope : ProjectionEnvelope) : Prop :=
  ProjectionEnvelope_validate_for_transport envelope = Ok tt ∧
  envelope.(ProjectionEnvelope.projection_version) = PROJECTION_VERSION ∧
  match w.(Worker.current_snapshots) !! subscription_id with
  | Some cursor => envelope.(ProjectionEnvelope.cursor) = cursor
  | None => ∀ previous, cached w.(Worker.cache) envelope.(ProjectionEnvelope.key) = Some previous →
      validate_projection_sequence envelope.(ProjectionEnvelope.key) previous.(ProjectionEnvelope.cursor) [envelope] = Ok tt
  end.

(** The worker after some views of a subscription. *)
Record viewed (w : Worker) (subscription_id : Z) (views : list ProjectionEnvelope) (w' : Worker) : Prop := {
  viewed_sent : w'.(Worker.wire).(WireConnection.sent) = w.(Worker.wire).(WireConnection.sent);
  viewed_writable : w'.(Worker.wire).(WireConnection.writable) = w.(Worker.wire).(WireConnection.writable);
  viewed_next : w'.(Worker.next_request_id) = w.(Worker.next_request_id);
  viewed_callbacks : w'.(Worker.callbacks) = w.(Worker.callbacks);
  viewed_snapshots : w'.(Worker.current_snapshots) !! subscription_id =
    if views is [] then w.(Worker.current_snapshots) !! subscription_id else None;
  viewed_other other : other ≠ subscription_id →
    w'.(Worker.current_snapshots) !! other = w.(Worker.current_snapshots) !! other;
  viewed_disk : w'.(Worker.disk) = [];
  viewed_leftovers : no_leftovers w'.(Worker.cache);
  viewed_cached key : w.(Worker.callbacks) !! subscription_id = Some key →
    cached w'.(Worker.cache) key = option_or (last views) (cached w.(Worker.cache) key);
  viewed_delivered : w'.(Worker.delivered) =
    w.(Worker.delivered) ++ ((λ view, (subscription_id, CallbackEvent.OnProjection view)) <$> views)
}.

Lemma apply_projection_ok w subscription_id envelope :
  w.(Worker.callbacks) !! subscription_id = Some envelope.(ProjectionEnvelope.key) →
  w.(Worker.disk) = [] → no_leftovers w.(Worker.cache) → expected_view w subscription_id envelope →
  ∃ w', apply_projection hex_digest now_ms subscription_id envelope w = (w', Ok tt) ∧
    viewed w subscription_id [envelope] w' ∧ w'.(Worker.wire) = w.(Worker.wire).
Proof.
  intros Hcb Hdisk Hl (Ht & Hv & Hexp).
  destruct (persist_clean envelope w.(Worker.cache) Hl) as (c' & Hp & Hl' & Hcur).
  assert (∃ w', apply_projection hex_digest now_ms subscription_id envelope w = (w', Ok tt) ∧
    w' = Worker_set_delivered (w.(Worker.delivered) ++ [(subscription_id, CallbackEvent.OnProjection envelope)])
           (Worker_set_disk [] (Worker_set_cache c'
              (Worker_set_current_snapshots (delete subscription_id w.(Worker.current_snapshots)) w)))) as (w' & Hw & ->).
  { unfold apply_projection, mbind, worker_bind, get, lift, drop_snapshot, update, with_cache. simpl. rewrite Hcb. simpl.
    rewrite bool_decide_true by done. simpl. rewrite Hdisk. simpl.
    destruct (w.(Worker.current_snapshots) !! subscription_id) as [cursor|].
    - unfold apply_current. rewrite Ht. simpl. rewrite bool_decide_true by done. simpl.
      rewrite (proj2 (Z.eqb_eq _ _)) by done. simpl. rewrite Hp. simpl. by eexists.
    - unfold ProjectionCache_apply. rewrite Ht. simpl. rewrite (proj2 (Z.eqb_eq _ _)) by done. simpl.
      assert (if_some (w.(Worker.cache).(ProjectionCache.current) !! envelope.(ProjectionEnvelope.key)) (λ previous,
        cache_contract (validate_projection_sequence envelope.(ProjectionEnvelope.key)
          previous.(ProjectionEnvelope.cursor) [envelope])) = Ok tt) as ->.
      { apply if_some_ok. intros previous Hprev. unfold cache_contract. apply map_err_ok. by apply Hexp. }
      rewrite Hp. simpl. by eexists. }
  eexists. split; [exact Hw|]. split; [|done]. split; simpl; try done.
  - by rewrite lookup_delete_eq.
  - intros other Hne. by rewrite lookup_delete_ne.
  - intros key Hk. rewrite Hcb in Hk. injection Hk as <-. unfold cached. by rewrite Hcur, lookup_insert_eq.
Qed.

(** Views in the order the client expects them. *)
Definition expected_views (w : Worker) (subscription_id : Z) (key : ProjectionKey) (views : list ProjectionEnvelope) : Prop :=
  (∀ view, view ∈ views → view.(ProjectionEnvelope.key) = key ∧
     view.(ProjectionEnvelope.projection_version) = PROJECTION_VERSION ∧
     ProjectionEnvelope_validate_for_transport view = Ok tt) ∧
  match w.(Worker.current_snapshots) !! subscription_id with
  | Some cursor => ∃ view, views = [view] ∧ view.(ProjectionEnvelope.cursor) = cursor
  | None =>
      match cached w.(Worker.cache) key with
      | Some previous => validate_projection_sequence key previous.(ProjectionEnvelope.cursor) views = Ok tt
      | None => views = []
      end
  end.

Lemma expected_views_cons w subscription_id key view views :
  expected_views w subscription_id key (view :: views) →
  view.(ProjectionEnvelope.key) = key ∧ expected_view w subscription_id view ∧
  ∀ w', w.(Worker.callbacks) !! subscription_id = Some key → viewed w subscription_id [view] w' →
    expected_views w' subscription_id key views.
Proof.
  intros [Hall Hseq]. destruct (Hall view) as (Hk & Hv & Ht); [by left|]. split; [done|].
  unfold expected_view, expected_views. rewrite Hk.
  destruct (w.(Worker.current_snapshots) !! subscription_id) as [cursor|].
  - destruct Hseq as (view' & [= <- ->] & Hc). split; [by split_and!|]. intros w' Hcb Hw.
    split; [by intros x Hx%elem_of_nil|]. rewrite (viewed_snapshots _ _ _ _ Hw).
    rewrite (viewed_cached _ _ _ _ Hw key Hcb). simpl. unfold validate_projection_sequence.
    unfold ProjectionEnvelope_validate_for_transport in Ht. rewrite Hk, rbind_ok_unit in Ht. destruct Ht as [-> _]. done.
  - destruct (cached w.(Worker.cache) key) as [previous|] eqn:Ec; [|done].
    unfold validate_projection_sequence in Hseq |- *. rewrite rbind_ok_unit in Hseq. destruct Hseq as [Hkv Hseq].
    apply projection_sequence_from_ok in Hseq as [Hrun Hlen].
    apply envelope_run_cons in Hrun as [(_ & _ & Hc) Hrun]. split.
    + split_and!; [done..|]. intros p [= <-]. rewrite Hkv. cbn [rbind].
      apply projection_sequence_from_ok. split; [apply envelope_run_cons; split; [done|by intros i x Hx]|].
      right. destruct Hlen as [|Hlen]; [done|]. simpl in *. lia.
    + intros w' Hcb Hw. split; [intros x Hx; apply Hall; by right|].
      rewrite (viewed_snapshots _ _ _ _ Hw), (viewed_cached _ _ _ _ Hw key Hcb). simpl. rewrite Hkv. cbn [rbind].
      apply projection_sequence_from_ok. rewrite Hc. split; [done|].
      destruct Hlen as [|Hlen]; [done|]. simpl in Hlen. destruct views; [by left|]. right. simpl in *. lia.
Qed.

Lemma viewed_trans w subscription_id view views w1 w2 :
  is_Some (w.(Worker.callbacks) !! subscription_id) →
  viewed w subscription_id [view] w1 → viewed w1 subscription_id views w2 → viewed w subscription_id (view :: views) w2.
Proof.
  intros [key Hk] [A1 A2 A3 A4 A5 A6 A7 A8 A9 A10] [B1 B2 B3 B4 B5 B6 B7 B8 B9 B10].
  split; rewrite ?B1, ?B2, ?B3, ?B4, ?B7; try done.
  - rewrite B5, A5. by destruct views.
  - intros other Hne. by rewrite B6, A6.
  - intros key' Hk'. rewrite B9, A9 by (by rewrite ?A4). simpl. by rewrite last_cons; destruct (last views).
  - rewrite B10, A10, <-app_assoc. done.
Qed.

(** Frames that carry the expected views, then the response that is waited for. *)
Lemma wait_views {T} (select : ControlFrame → option T) subscription_id key response sent value rest views :
  (∀ envelope, select (ControlFrame.ProjectionEnvelopeFrame subscription_id envelope) = None) →
  carries response sent → select sent = Some value →
  ∀ frames w,
  w.(Worker.callbacks) !! subscription_id = Some key → w.(Worker.disk) = [] → no_leftovers w.(Worker.cache) →
  Forall2 carries frames (ControlFrame.ProjectionEnvelopeFrame subscription_id <$> views) →
  expected_views w subscription_id key views →
  ∃ w', wait_frames hex_digest now_ms select (frames ++ response :: rest) w = (w', Ok value) ∧
    viewed w subscription_id views w' ∧ w'.(Worker.wire).(WireConnection.incoming) = rest.
Proof.
  intros Hskip Hresp Hsel. induction views as [|view views IH]; intros frames w Hcb Hdisk Hl Hf Hexp.
  - inversion Hf; subst. simpl. unfold mbind, worker_bind, update, contract_or, lift. simpl.
    unfold carries, Frame_decode_control in Hresp. destruct response as [bytes|]; [|done]. rewrite Hresp. simpl.
    rewrite Hsel. eexists. split; [done|]. split; [|done]. split; simpl; try done. by rewrite app_nil_r.
  - inversion Hf as [|frame ? frames' ? Hframe Hframes]; subst. simpl.
    destruct (expected_views_cons _ _ _ _ _ Hexp) as (Hk & Hone & Hrest).
    unfold mbind at 1, worker_bind at 1, update at 1.
    set (w1 := Worker_set_wire _ w).
    destruct (apply_projection_ok w1 subscription_id view) as (w2 & Hap & Hv2 & Hwire2); try done; [by rewrite Hk|].
    assert (viewed w subscription_id [view] w2) as Hv.
    { destruct Hv2. by split. }
    destruct (IH frames' w2) as (w3 & Hwait & Hv3 & Hin3); try done.
    { by rewrite (viewed_callbacks _ _ _ _ Hv). }
    { apply Hv. }
    { apply Hv. }
    { by apply Hrest. }
    exists w3. split; [|split; [by eapply viewed_trans|done]].
    pose proof Hframe as Hdec. unfold carries, Frame_decode_control in Hdec. destruct frame as [bytes|]; [|done].
    unfold mbind, worker_bind, contract_or, lift. rewrite Hdec. simpl. rewrite Hskip.
    unfold handle_unsolicited, mbind, worker_bind, contract_or, lift. rewrite Hframe. simpl. by rewrite Hap.
Qed.

(** The host answers with views unless the cursor is ahead of its head. *)
Lemma replay_not_rejected j request at_ms r e error :
  journal_wf j → replay j request at_ms = Ok r → current j request.(ProjectionSubscribe.key) = Some e →
  e.(ProjectionEnvelope.cursor).(Cursor.seq) < u64_max →
  (∀ s, request.(ProjectionSubscribe.since) = Some s → s.(Cursor.seq) ≤ e.(ProjectionEnvelope.cursor).(Cursor.seq)) →
  r.(ProjectionReplay.ack).(ProjectionSubscribeAck.outcome) ≠ ProjectionSubscribeOutcome.Rejected error.
Proof.
  intros Hj Hr Hcur Hmax Hs. unfold replay in Hr. rewrite rbind_ok_unit in Hr. destruct Hr as [_ Hr].
  unfold head_cursor in Hr. rewrite Hcur in Hr. simpl in Hr. rewrite rbind_ok in Hr. destruct Hr as (floor & _ & Hr).
  rewrite rbind_ok in Hr. destruct Hr as (ack & Hd & Hr). rewrite rbind_ok in Hr. destruct Hr as (es & _ & [= <-]). simpl.
  rewrite map_err_ok in Hd. unfold decide_projection_subscription in Hd.
  rewrite !rbind_ok_unit, rbind_ok in Hd. destruct Hd as (_ & _ & outcome & Ho & [= <-]). simpl.
  unfold subscription_outcome in Ho. destruct (request.(ProjectionSubscribe.since)) as [s|]; [|by injection Ho as <-].
  specialize (Hs s eq_refl). rewrite (proj2 (Z.ltb_ge _ _)) in Ho by lia.
  unfold Cursor_next, checked_add_u64 in Ho. rewrite (proj2 (Z.leb_le _ _)) in Ho by lia. simpl in Ho.
  case_match; by injection Ho as <-.
Qed.

(** A worker on a healthy connection, about to subscribe. *)
Record ready (w : Worker) (subscription_id : Z) (request : ProjectionSubscribe) : Prop := {
  ready_disk : w.(Worker.disk) = [];
  ready_leftovers : no_leftovers w.(Worker.cache);
  ready_writable : w.(Worker.wire).(WireConnection.writable) = true;
  ready_identifiers : w.(Worker.next_request_id) + 2 ≤ u64_max;
  ready_snapshot : w.(Worker.current_snapshots) !! subscription_id = None;
  ready_subscribe : is_ok (encode_control
    (ControlFrame.ProjectionSubscribeFrame w.(Worker.next_request_id) subscription_id request)) = true;
  ready_ping : is_ok (encode_control
    (ControlFrame.Ping (w.(Worker.next_request_id) + 1) (w.(Worker.next_request_id) + 1))) = true
}.

Lemma take_request_id_ok w : w.(Worker.next_request_id) + 1 ≤ u64_max →
  take_request_id w = (Worker_set_next_request_id (w.(Worker.next_request_id) + 1) w, Ok w.(Worker.next_request_id)).
Proof.
  intros Hn. unfold take_request_id, mbind, worker_bind, get, lift, update. simpl. unfold checked_add_u64.
  by rewrite (proj2 (Z.leb_le _ _)) by lia.
Qed.

Lemma send_control_ok w frame :
  is_ok (encode_control frame) = true → w.(Worker.wire).(WireConnection.writable) = true →
  send_control frame w =
  (Worker_set_wire (WireConnection.mk w.(Worker.wire).(WireConnection.incoming)
     (w.(Worker.wire).(WireConnection.sent) ++ [Sent.Control frame]) true) w, Ok tt).
Proof.
  intros He Hw. unfold send_control, mbind, worker_bind, get, lift. destruct (encode_control frame); [|done]. simpl.
  rewrite Hw. unfold put_sent, update. by rewrite Hw.
Qed.

Lemma bind_ok {T U} (m : worker T) (k : T → worker U) w w1 value :
  m w = (w1, Ok value) → (m ≫= k) w = k value w1.
Proof. intros Hm. unfold mbind, worker_bind. by rewrite Hm. Qed.

(** The first frame is the response. *)
Lemma wait_first {T} (select : ControlFrame → option T) w frame control value rest :
  carries frame control → select control = Some value → w.(Worker.wire).(WireConnection.incoming) = frame :: rest →
  wait_for hex_digest now_ms select w =
  (Worker_set_wire (WireConnection.mk rest w.(Worker.wire).(WireConnection.sent)
                      w.(Worker.wire).(WireConnection.writable)) w, Ok value).
Proof.
  intros Hc Hsel Hin. unfold wait_for, mbind, worker_bind, get. rewrite Hin. simpl.
  unfold mbind, worker_bind, update, contract_or, lift. unfold carries, Frame_decode_control in Hc.
  destruct frame as [bytes|]; [|done]. rewrite Hc. simpl. by rewrite Hsel.
Qed.

(** The request and the acknowledgement that answers it. *)
Lemma request_subscription_ok w subscription_id request_id request frame ack rest :
  is_ok (encode_control (ControlFrame.ProjectionSubscribeFrame request_id subscription_id request)) = true →
  w.(Worker.wire).(WireConnection.writable) = true →
  w.(Worker.wire).(WireConnection.incoming) = frame :: rest →
  carries frame (ControlFrame.ProjectionSubscribeAckFrame request_id subscription_id ack) →
  ProjectionSubscribeAck_validate_for ack request = Ok tt →
  ∃ sent, request_subscription hex_digest now_ms subscription_id request_id request w =
    (Worker_set_wire (WireConnection.mk rest sent true) w, Ok ack).
Proof.
  intros He Hw Hin Hc Hv. unfold request_subscription. rewrite (bind_ok _ _ _ _ _ (send_control_ok w _ He Hw)).
  erewrite bind_ok by (eapply wait_first; [exact Hc|by simpl; rewrite !Z.eqb_refl|done]).
  unfold mbind, worker_bind, contract_or, lift. rewrite Hv. by eexists.
Qed.

(** The barrier, once the views the acknowledgement promised follow. *)
Lemma synchronize_ok w subscription_id request outcome frames views pong rest view :
  w.(Worker.callbacks) !! subscription_id = Some request.(ProjectionSubscribe.key) →
  w.(Worker.disk) = [] → no_leftovers w.(Worker.cache) → w.(Worker.wire).(WireConnection.writable) = true →
  w.(Worker.next_request_id) + 1 ≤ u64_max →
  is_ok (encode_control (ControlFrame.Ping w.(Worker.next_request_id) w.(Worker.next_request_id))) = true →
  w.(Worker.wire).(WireConnection.incoming) = frames ++ pong :: rest →
  Forall2 carries frames (ControlFrame.ProjectionEnvelopeFrame subscription_id <$> views) →
  carries pong (serve_ping w.(Worker.next_request_id) w.(Worker.next_request_id)) →
  expected_views w subscription_id request.(ProjectionSubscribe.key) views →
  option_or (last views) (cached w.(Worker.cache) request.(ProjectionSubscribe.key)) = Some view →
  validate_synchronized_cursor outcome request.(ProjectionSubscribe.since) view.(ProjectionEnvelope.cursor) = Ok tt →
  ∃ w', synchronize hex_digest now_ms request outcome w = (w', Ok tt) ∧
    cached w'.(Worker.cache) request.(ProjectionSubscribe.key) = Some view ∧
    w'.(Worker.callbacks) = w.(Worker.callbacks) ∧ w'.(Worker.wire).(WireConnection.incoming) = rest ∧
    w'.(Worker.delivered) =
      w.(Worker.delivered) ++ ((λ view, (subscription_id, CallbackEvent.OnProjection view)) <$> views).
Proof.
  intros Hcb Hdisk Hl Hwr Hn Hping Hin Hf Hp Hexp Hview Hsync. unfold synchronize.
  rewrite (bind_ok _ _ _ _ _ (take_request_id_ok w Hn)).
  rewrite (bind_ok _ _ _ _ _ (send_control_ok (Worker_set_next_request_id _ w) _ Hping Hwr)).
  match goal with |- context [(wait_for _ _ _ ≫= _) ?s] => set (w2 := s) end.
  destruct (wait_views (select_pong w.(Worker.next_request_id)) subscription_id request.(ProjectionSubscribe.key) pong
    (serve_ping w.(Worker.next_request_id) w.(Worker.next_request_id)) tt rest views) with (frames := frames) (w := w2)
    as (w3 & Hwait & Hv3 & Hin3); try done.
  { by simpl; rewrite !Z.eqb_refl. }
  assert (wait_for hex_digest now_ms (select_pong w.(Worker.next_request_id)) w2 = (w3, Ok tt)) as Hw.
  { rewrite <-Hwait, <-Hin. done. }
  erewrite bind_ok by exact Hw.
  pose proof (viewed_cached _ _ _ _ Hv3 _ Hcb) as Hc. subst w2. simpl in Hc. rewrite Hview in Hc.
  exists w3. unfold mbind, worker_bind, get, lift, since. rewrite Hc. simpl. rewrite Hsync.
  split; [done|]. split; [done|]. split; [apply Hv3|]. split; [done|apply Hv3].
Qed.

(** Where a view of a history is found. *)
Lemma history_position key es x :
  history_wf key es → x ∈ es →
  es !! Z.to_nat x.(ProjectionEnvelope.cursor).(Cursor.seq) = Some x ∧
  0 ≤ x.(ProjectionEnvelope.cursor).(Cursor.seq) < Z.of_nat (length es).
Proof.
  intros Hw [i Hi]%list_elem_of_lookup. destruct (history_run _ _ Hw i x Hi) as (_ & _ & ->).
  pose proof (lookup_lt_Some _ _ _ Hi). rewrite Z.add_0_l, Nat2Z.id. split; [done|lia].
Qed.

(** The views after a cursor end in the current one, or there are none and the
    view of the cursor is the current one. *)
Lemma history_rest key es x e :
  history_wf key es → x ∈ es → last es = Some e →
  option_or (last (drop (Z.to_nat (x.(ProjectionEnvelope.cursor).(Cursor.seq) + 1)) es)) (Some x) = Some e.
Proof.
  intros Hw Hx Hlast. destruct (history_position _ _ _ Hw Hx) as [Hi Hr].
  set (n := Z.to_nat (x.(ProjectionEnvelope.cursor).(Cursor.seq) + 1)).
  rewrite last_lookup, length_drop, lookup_drop. rewrite last_lookup in Hlast.
  destruct (decide (n < length es)%nat) as [Hn|Hn].
  - replace (n + pred (length es - n))%nat with (pred (length es)) by lia. by rewrite Hlast.
  - rewrite lookup_ge_None_2 by lia. simpl.
    replace (Z.to_nat x.(ProjectionEnvelope.cursor).(Cursor.seq)) with (pred (length es)) in Hi by lia. congruence.
Qed.

(** What the caller of [MobileClient::subscribe] hands to the worker. *)
Definition subscribe_request (w : Worker) (key : ProjectionKey) : ProjectionSubscribe :=
  ProjectionSubscribe.mk key (since w.(Worker.cache) key).

(** The worker once the subscription is registered and its request answered. *)
Definition registered (w : Worker) (subscription_id : Z) (key : ProjectionKey) (snapshots : gmap Z Cursor)
    (incoming : list Frame) (sent : list Sent) : Worker :=
  Worker.mk (WireConnection.mk incoming sent true) (w.(Worker.next_request_id) + 1)
    (<[subscription_id := key]> w.(Worker.callbacks)) snapshots w.(Worker.cache) w.(Worker.disk) w.(Worker.delivered).

(** The client shows the view [e] of the key, and has told the application. *)
Definition caught_up (w : Worker) (subscription_id : Z) (key : ProjectionKey) (e : ProjectionEnvelope) (rest : list Frame)
    (w' : Worker) : Prop :=
  cached w'.(Worker.cache) key = Some e ∧ w'.(Worker.callbacks) !! subscription_id = Some key ∧
  w'.(Worker.wire).(WireConnection.incoming) = rest ∧
  ∃ views, w'.(Worker.delivered) =
    w.(Worker.delivered) ++ ((λ view, (subscription_id, CallbackEvent.OnProjection view)) <$> views).

Lemma registered_synchronizes w subscription_id key snapshots outcome frames views pong rest sent e :
  let w1 := registered w subscription_id key snapshots (frames ++ pong :: rest) sent in
  ready w subscription_id (subscribe_request w key) →
  Forall2 carries frames (ControlFrame.ProjectionEnvelopeFrame subscription_id <$> views) →
  carries pong (serve_ping (w.(Worker.next_request_id) + 1) (w.(Worker.next_request_id) + 1)) →
  expected_views w1 subscription_id key views →
  option_or (last views) (cached w.(Worker.cache) key) = Some e →
  validate_synchronized_cursor outcome (since w.(Worker.cache) key) e.(ProjectionEnvelope.cursor) = Ok tt →
  ∃ w', synchronize hex_digest now_ms (subscribe_request w key) outcome w1 = (w', Ok tt) ∧
    caught_up w subscription_id key e rest w'.
Proof.
  intros w1 [Hdisk Hl Hwr Hids Hsnap Hsub Hping] Hf Hp Hexp Hlast Hsync.
  destruct (synchronize_ok w1 subscription_id (subscribe_request w key) outcome frames views pong rest e)
    as (w' & Hsy & Hc & Hcb & Hi & Hd); try done; [by simpl; rewrite lookup_insert_eq|simpl; lia|].
  exists w'. split; [done|]. split_and!; try done; [by rewrite Hcb; simpl; rewrite lookup_insert_eq|by exists views].
Qed.

(** Every view of a history is one the client takes. *)
Lemma history_views key es view :
  history_wf key es → view ∈ es → view.(ProjectionEnvelope.projection_version) = PROJECTION_VERSION →
  view.(ProjectionEnvelope.key) = key ∧ view.(ProjectionEnvelope.projection_version) = PROJECTION_VERSION ∧
  ProjectionEnvelope_validate_for_transport view = Ok tt.
Proof.
  intros Hw [i Hi]%list_elem_of_lookup Hv. by destruct (history_run _ _ Hw i view Hi) as (? & ? & _).
Qed.

(** The cached view of a client that follows the journal is behind its head. *)
Lemma since_in_history w key es e s :
  history_wf key es → last es = Some e → (∀ x, cached w.(Worker.cache) key = Some x → x ∈ es) →
  since w.(Worker.cache) key = Some s →
  ∃ x, cached w.(Worker.cache) key = Some x ∧ x ∈ es ∧ x.(ProjectionEnvelope.cursor) = s ∧
    0 ≤ s.(Cursor.seq) ≤ e.(ProjectionEnvelope.cursor).(Cursor.seq).
Proof.
  intros Hw Hlast Hfrom. unfold since. rewrite fmap_Some. intros (x & Hx & ->). exists x.
  pose proof (Hfrom x Hx) as Hxin. destruct (history_position _ _ _ Hw Hxin) as [_ Hr].
  destruct (history_last key es Hw) as (e' & He' & Hc). assert (e' = e) as -> by congruence.
  split_and!; (done || lia).
Qed.

(** C3: A subscription synchronises the client with the host: for every well-formed journal with a
    view of a valid key, and every client whose cached view of the key, if any, came from that
    journal, the exchange of request, acknowledgement, views and barrier succeeds and leaves the
    client with exactly the current view of the host, whether it resumes after its own cursor or
    takes the current snapshot. The views are of the client's projection version and the newest
    cursor is below the largest u64; the frames of the host arrive in order and decode, on a wire
    that can be written to; the cache directory has no faults and no leftover temporary files, two
    more request identifiers are free, the two requests can be encoded, and no snapshot is awaited
    for the subscription. *)
Theorem subscriber_catches_up j at_ms w subscription_id key e answer frames rest
    (Hj : journal_wf j) (Hk : ProjectionKey_validate key = Ok tt)
    (Hcur : current j key = Some e) (Hmax : e.(ProjectionEnvelope.cursor).(Cursor.seq) < u64_max)
    (Hver : ∀ x, x ∈ entries_of j key → x.(ProjectionEnvelope.projection_version) = PROJECTION_VERSION)
    (Hfrom : ∀ x, cached w.(Worker.cache) key = Some x → x ∈ entries_of j key)
    (Hready : ready w subscription_id (subscribe_request w key))
    (Hserve : serve_subscription j (subscribe_request w key) at_ms w.(Worker.next_request_id) subscription_id = Ok answer)
    (Hframes : Forall2 carries frames
                 (answer ++ [serve_ping (w.(Worker.next_request_id) + 1) (w.(Worker.next_request_id) + 1)]))
    (Hin : w.(Worker.wire).(WireConnection.incoming) = frames ++ rest) :
  ∃ w', execute_subscribe hex_digest now_ms subscription_id (subscribe_request w key) w = (w', Ok (Ok tt)) ∧
    caught_up w subscription_id key e rest w'.
Proof.
  unfold current in Hcur. destruct (j.(ProjectionJournal.entries) !! key) as [es|] eqn:Ees; [|done]. simpl in Hcur.
  pose proof (journal_histories j Hj key es Ees) as Hw.
  assert (entries_of j key = es) as Hes by (unfold entries_of; by rewrite Ees). rewrite Hes in Hver, Hfrom.
  pose proof (since_in_history w key es e) as Hsince.
  destruct (replay_serves_subscription j (subscribe_request w key) at_ms Hj Hk) as (r & Hr & Hval & Hout).
  { intros s Hs. destruct (Hsince s) as (x & _ & _ & _ & ?); try done. split; lia. }
  unfold serve_subscription in Hserve. rewrite Hr in Hserve. simpl in Hserve. injection Hserve as <-.
  simpl in Hframes. apply Forall2_cons_inv_r in Hframes as (fa & fs & Hack & Hrest & ->).
  apply Forall2_app_inv_r in Hrest as (fv & fp & Hviews & Hpong & ->).
  apply Forall2_cons_inv_r in Hpong as (pong & ? & Hp & ->%Forall2_nil_inv_r & ->).
  rewrite <-app_comm_cons, <-app_assoc in Hin. simpl in Hin. pose proof Hready as [_ _ Hwr Hids Hsnap Hsub _].
  unfold execute_subscribe. rewrite (bind_ok _ _ _ _ _ (take_request_id_ok w ltac:(lia))).
  unfold mbind at 1, worker_bind at 1, update at 1, settle, subscribe_exchange.
  match goal with |- context [Worker_set_callbacks ?c ?s] => set (w1 := Worker_set_callbacks c s) end.
  destruct (request_subscription_ok w1 subscription_id w.(Worker.next_request_id) (subscribe_request w key) fa
    r.(ProjectionReplay.ack) (fv ++ pong :: rest)) as (sent & Hreq); try done.
  rewrite (bind_ok _ _ _ _ _ Hreq). cbv beta.
  destruct (r.(ProjectionReplay.ack).(ProjectionSubscribeAck.outcome)) as [c|c|error] eqn:Eo.
  - destruct Hout as (s & Hs & Henv & Hseq). simpl in Henv. destruct (Hsince s) as (x & Hx & Hxin & Hxc & Hsr); try done.
    destruct (registered_synchronizes w subscription_id key w.(Worker.current_snapshots)
      (ProjectionSubscribeOutcome.Resumed c) fv r.(ProjectionReplay.envelopes) pong rest sent e) as (w' & Hsy & Hup); try done.
    + split; [|simpl; by rewrite Hsnap, Hx, Hxc]. intros view Hv. rewrite Henv, Hes in Hv. apply subseteq_drop in Hv.
      by apply (history_views key es), Hver.
    + rewrite Hx, Henv, Hes, <-Hxc. by apply (history_rest key).
    + simpl in Hs. rewrite Hs. apply reject_if_ok, Z.ltb_ge. lia.
    + exists w'. split; [|done]. match goal with |- context [(note_snapshot ?i ?o ≫= ?k) ?s] =>
        assert ((note_snapshot i o ≫= k) s = (w', Ok tt)) as -> by exact Hsy; done end.
  - destruct Hout as (e' & He' & Hc' & Henv).
    assert (e' = e) as -> by (unfold current in He'; simpl in He'; rewrite Ees in He'; simpl in He'; congruence).
    destruct (registered_synchronizes w subscription_id key (<[subscription_id := c]> w.(Worker.current_snapshots))
      (ProjectionSubscribeOutcome.CurrentFollows c) fv [e] pong rest sent e) as (w' & Hsy & Hup); try done.
    + by rewrite <-Henv.
    + split; [|simpl; rewrite lookup_insert_eq; by exists e]. intros view ->%list_elem_of_singleton.
      apply last_Some_elem_of in Hcur. by apply (history_views key es), Hver.
    + simpl. apply reject_if_ok, Z.ltb_ge. by rewrite Hc'.
    + exists w'. split; [|done]. match goal with |- context [(note_snapshot ?i ?o ≫= ?k) ?s] =>
        assert ((note_snapshot i o ≫= k) s = (w', Ok tt)) as -> by exact Hsy; done end.
  - exfalso. apply (replay_not_rejected j (subscribe_request w key) at_ms r e error); try done.
    + unfold current. simpl. by rewrite Ees.
    + intros s Hs. destruct (Hsince s) as (x & _ & _ & _ & ?); try done. lia.
Qed.

(** When a client has two active subscriptions to one projection key, they share one cached cursor: the first
    delivery of a push is applied, and the same push for the second subscription is refused as a repeated
    cursor, which closes the whole connection. *)
Theorem duplicate_subscription_drops_connection w first second envelope frame1 frame2
    (Hne : first ≠ second)
    (H1 : w.(Worker.callbacks) !! first = Some envelope.(ProjectionEnvelope.key))
    (H2 : w.(Worker.callbacks) !! second = Some envelope.(ProjectionEnvelope.key))
    (Hs : w.(Worker.current_snapshots) !! second = None)
    (Hdisk : w.(Worker.disk) = []) (Hl : no_leftovers w.(Worker.cache))
    (Hexp : expected_view w first envelope)
    (Hf1 : carries frame1 (ControlFrame.ProjectionEnvelopeFrame first envelope))
    (Hf2 : carries frame2 (ControlFrame.ProjectionEnvelopeFrame second envelope)) :
  ∃ w1 w2, handle_unsolicited hex_digest now_ms frame1 w = (w1, Ok tt) ∧
    handle_unsolicited hex_digest now_ms frame2 w1 = (w2, Err MobileClientError.Contract).
Proof.
  destruct (apply_projection_ok w first envelope) as (w1 & Hap & Hv & _); try done.
  assert (∀ frame subscription_id s, carries frame (ControlFrame.ProjectionEnvelopeFrame subscription_id envelope) →
    handle_unsolicited hex_digest now_ms frame s = apply_projection hex_digest now_ms subscription_id envelope s) as Hh.
  { intros frame i s Hf. unfold handle_unsolicited, mbind, worker_bind, contract_or, lift. by rewrite Hf. }
  exists w1. rewrite (Hh _ _ _ Hf1), (Hh _ _ _ Hf2), Hap.
  pose proof Hexp as (Ht & Hver & _).
  pose proof (viewed_cached _ _ _ _ Hv _ H1) as Hc. simpl in Hc.
  pose proof (viewed_other _ _ _ _ Hv second ltac:(done)) as Hs'. rewrite Hs in Hs'.
  pose proof (viewed_callbacks _ _ _ _ Hv) as Hcb.
  unfold apply_projection, mbind, worker_bind, get, lift, drop_snapshot, update, with_cache. rewrite Hcb, H2. simpl.
  rewrite bool_decide_true by done. simpl. rewrite Hs'. simpl. unfold ProjectionCache_apply. rewrite Ht. simpl.
  rewrite (proj2 (Z.eqb_eq _ _)) by done. simpl. unfold cached in Hc. rewrite Hc. simpl.
  assert (ProjectionKey_validate envelope.(ProjectionEnvelope.key) = Ok tt) as Hk.
  { unfold ProjectionEnvelope_validate_for_transport in Ht. rewrite rbind_ok_unit in Ht. apply Ht. }
  unfold validate_projection_sequence. rewrite Hk. simpl. rewrite Ht. simpl.
  rewrite bool_decide_false by tauto. simpl. rewrite bool_decide_true by done. simpl. by eexists.
Qed.
End catching_up.
