(* ===== verification/Witnesses.v ===== *)
(** * Witnesses

    Concrete values on which the hypotheses of the theorems hold: a small
    deployment (one host, one runtime, one project, one session), the effects
    that build it, and one lemma per theorem that applies it there. *)
From stdpp Require Import prelude strings gmap.
From Stdlib Require Import ZArith Lia Relations.
From S2P Require Import Prelude ProtoBase ProtoContent ProtoRuntime ProtoTurn ProtoQueue ProtoWorkflow ProtoAttention ProtoCommand ProtoEffect ProtoProjection CanonState CanonInvariants CanonContent ReadModelBuild ReadModelFanout DurableLog ProjectionJournal StoreInterface CommandOutbox OutboxProofs JournalReadModels CanonStore StoreProofs StoreReload StoreDisk.

Local Open Scope Z_scope.

(** ** A small deployment *)

Module Sample.

Definition hid : HostId := mkId "hst_1".
Definition rid : ProviderRuntimeId := mkId "rt_1".
Definition pid : ProjectId := mkId "prj_1".
Definition sid : SessionId := mkId "ses_1".
Definition tid : TurnId := mkId "trn_1".
Definition iid : ItemId := mkId "itm_1".
Definition cid : CommandId := mkId "cmd_1".
Definition aid : AttentionId := mkId "att_1".
Definition wid : WorkflowId := mkId "wfl_1".

Definition secret (name : string) : ContentRef := sample_ref name Sensitivity.Sensitive None.

Definition handle (kind : ProviderBindingKind) : ProviderBindingHandle :=
  ProviderBindingHandle.mk (mkId "bnd_abcdefgh") rid kind.

Definition observed : CapabilityEvidence :=
  CapabilityEvidence.mk EvidenceSource.ObservedInTraffic 1 None.

Definition supported (c : Capability) : CapabilityEntry := CapabilityEntry.mk c CapabilityState.Supported observed.

Definition capabilities (extra : list Capability) : RuntimeCapabilities :=
  RuntimeCapabilities.mk rid 1 (supported <$> [Capability.LiveObserve; Capability.TurnSteer] ++ extra).

Definition controlled : RuntimeCapabilities := capabilities [Capability.LiveControl].

Definition host : Host :=
  Host.mk hid "studio" HostPlatform.Linux HostReachability.LanDirect "0.5.0" 1.

Definition runtime : ProviderRuntime :=
  ProviderRuntime.mk rid hid ProviderFamily.Codex None LaunchSurface.BrokerLaunched
    (ConnectionState.Connected 1) (capabilities []) None.

Definition project : Project :=
  Project.mk pid "demo" [ProjectBinding.mk (mkId "pbd_1") pid rid (secret "cnt_root")]
    (SessionCounts.mk 0 0 0 0 0) 0 0 1.

Definition session (live : LiveBinding) : Session :=
  Session.mk sid pid (mkId "pbd_1") OwnershipMode.BrokerManaged
    (HistorySource.mk HistorySourceKind.BrokerLog None observed) live SessionStatus.Idle None 1 1 1
    None 0 0 false (Some (handle ProviderBindingKind.Session)).

Definition unbound : Session := session (LiveBinding.NotBound LiveUnboundReason.NeverStarted).
Definition controlling : Session := session (LiveBinding.Controlling rid 5 observed).

Definition turn : Turn :=
  Turn.mk tid sid TurnStatus.Running (TurnOrigin.RemoteCommand cid) (Some 3) None [] None None.

Definition item : Item :=
  Item.mk iid sid tid 0 ItemStatus.InProgress
    (ItemBody.AgentMessage (secret "cnt_msg") MessagePhase.Commentary) 4 4 None.

Definition entry (name : string) (position : Z) : QueueEntry :=
  QueueEntry.mk (mkId name) sid position QueueIntent.NewTurn (secret "cnt_queue") QueueState.Pending true 5 5.

Definition approval : ApprovalRequest :=
  ApprovalRequest.mk "req_1" iid (JoinState.Joined iid)
    [DecisionOption.mk "allow" "Allow" DecisionSemantics.Allow;
     DecisionOption.mk "deny" "Deny" DecisionSemantics.Deny]
    (secret "cnt_sum") None (handle ProviderBindingKind.InteractionRequest).

Definition attention : AttentionItem :=
  AttentionItem.mk aid hid pid (Some sid) (Some tid) None (AttentionSubject.Approval approval)
    AttentionState.Open 6 (Some 100).

Definition reply (option_id : string) : AttentionResponse :=
  AttentionResponse.mk aid (Some sid) "req_1" (Some 100) (Some option_id) None [].

Definition accepted_locally : CommandAck := CommandAck.mk cid (CommandOutcome.AcceptedLocally None) 2.

Definition accepted_by_runtime : CommandAck :=
  CommandAck.mk cid (CommandOutcome.AcceptedByRuntime sid RuntimeAcceptanceKind.PromptTurn
                       (handle ProviderBindingKind.RuntimeAcknowledgement)) 4.

Definition effects : list StateEffect :=
  [StateEffect.HostUpserted host; StateEffect.RuntimeUpserted runtime; StateEffect.ProjectUpserted project;
   StateEffect.SessionUpserted unbound; StateEffect.CommandAcknowledged accepted_locally;
   StateEffect.TurnUpserted turn; StateEffect.CommandAcknowledged accepted_by_runtime;
   StateEffect.CapabilitiesUpdated controlled; StateEffect.SessionUpserted controlling;
   StateEffect.ItemUpserted item; StateEffect.QueueEntryUpserted (entry "que_1" 0);
   StateEffect.QueueEntryUpserted (entry "que_2" 1); StateEffect.AttentionUpserted attention].

(** Apply validated effects in order, keeping the last state. *)
Fixpoint run (s : CanonicalState) (l : list StateEffect) : option CanonicalState :=
  match l with
  | [] => Some s
  | e :: rest =>
      if is_ok (StateEffect_validate_for_log e) then
        match CanonicalState_apply s e with
        | (s', Ok _) => run s' rest
        | (_, Err _) => None
        end
      else None
  end.

Lemma run_logged s l s' : logged s → run s l = Some s' → logged s'.
Proof.
  revert s. induction l as [|e l IH]; intros s Hl; simpl; [by intros [= <-]|].
  destruct (is_ok _) eqn:Hv; [|done]. destruct (CanonicalState_apply s e) as [s1 [[]|]] eqn:Ha; [|done].
  apply is_ok_unit in Hv. intros Hr. eapply IH, Hr. by eapply logged_step.
Qed.

Definition state : CanonicalState := default CanonicalState_default (run CanonicalState_default effects).

Lemma state_logged : logged state.
Proof.
  assert (is_some (run CanonicalState_default effects) = true) as H by (vm_compute; reflexivity).
  unfold state. destruct (run CanonicalState_default effects) as [s|] eqn:E; [|done].
  eapply run_logged; [apply logged_init|apply E].
Qed.

Lemma state_reachable : reachable state.
Proof. apply logged_reachable, state_logged. Qed.

(** The state after one more effect. *)
Definition after (e : StateEffect) : CanonicalState := (CanonicalState_apply state e).1.

Definition snapshot : SessionSnapshot :=
  match session_snapshot state sid with
  | Ok s => s
  | Err _ => SessionSnapshot.mk unbound [] [] [] [] controlled
  end.
End Sample.
Import Sample.

(** A lookup known to succeed, and its value. *)
Lemma found {A} (d : A) (o : option A) : is_some o = true → o = Some (default d o).
Proof. by destruct o. Qed.

Lemma after_ok e : is_ok (CanonicalState_apply state e).2 = true → CanonicalState_apply state e = (after e, Ok tt).
Proof. unfold after. by destruct (CanonicalState_apply state e) as [s [[]|]]. Qed.

(** ** Content *)

Definition sample_chunk (offset : Z) (text : string) (next : option Z) : ContentReadChunk :=
  ContentReadChunk.mk (mkId "cnt_1") offset (bytes_of text) next (is_none next) sample_digest.

Lemma read_chain_reassembles_witness :
  take 2 (drop 3 (chain_body [sample_chunk 0 "abc" (Some 3); sample_chunk 3 "de" None])) = bytes_of "de".
Proof.
  apply (proj2 (read_chain_reassembles (mkId "cnt_1") [sample_chunk 0 "abc" (Some 3); sample_chunk 3 "de" None]
    ltac:(eapply read_chain_more; [by_vm|reflexivity..|apply read_chain_last; by_vm || reflexivity]))
    (sample_chunk 3 "de" None)). right. left.
Defined.

(** ** Capabilities and sessions *)

Lemma validated_session_live_is_observed_witness :
  ∃ rid' e, live_evidence controlling.(Session.live_binding) = Some (rid', e) ∧
    e.(CapabilityEvidence.source) = EvidenceSource.ObservedInTraffic.
Proof.
  destruct (validated_session_live_is_observed controlling controlled ltac:(by_vm) eq_refl)
    as (rid' & e & H1 & H2 & _). by exists rid', e.
Defined.

(** ** Queues *)

Lemma validate_queue_reorder_exact_witness :
  [mkId "que_2"; mkId "que_1"] ≡ₚ QueueEntry.id <$> pending_of sid [entry "que_1" 0; entry "que_2" 1].
Proof.
  apply (validate_queue_reorder_exact sid [mkId "que_2"; mkId "que_1"] [entry "que_1" 0; entry "que_2" 1]).
  - apply (bool_decide_unpack _). by_vm.
  - by_vm.
Defined.

Definition sample_ack : SteerAcknowledgement :=
  SteerAcknowledgement.mk EvidenceSource.ObservedInTraffic rid sid tid
    (handle ProviderBindingKind.RuntimeAcknowledgement) 7.

Definition sample_steer : QueueEntry :=
  QueueEntry.mk (mkId "que_3") sid 0 QueueIntent.SteerActiveTurn (secret "cnt_queue")
    (QueueState.DeliveredAsSteer rid tid (handle ProviderBindingKind.RuntimeAcknowledgement) 7 sample_ack)
    false 5 7.

Lemma delivered_steer_is_proved_witness : sample_steer.(QueueEntry.editable) = false.
Proof. eapply (delivered_steer_is_proved sample_steer tid controlled); [by_vm|reflexivity]. Defined.

(** ** Workflows *)

Lemma completion_requires_running_witness :
  StepState.Running ≠ StepState.Completed ∧
  (validate_transition StepState.Review WorkflowAction.Skip StepState.Completed ≠ Ok tt).
Proof.
  assert (clos_refl_trans _ unstarted_move StepState.Draft StepState.Running) as Hpath.
  { apply (rt_trans _ _ _ StepState.Ready); apply rt_step; (split; [|done]);
      apply (step_moves_by WorkflowAction.Advance); by_vm. }
  destruct (completion_requires_running StepState.Draft StepState.Running ltac:(done) ltac:(done) Hpath)
    as (_ & H & Hact).
  split; [exact H|]. intros Hv. specialize (Hact _ _ Hv). discriminate Hact.
Defined.

(** ** Attention *)

Lemma check_reply_exact_witness :
  reply_binds attention (reply "allow") 50 ∧ AttentionItem_check_reply attention (reply "never") 50 ≠ Ok tt.
Proof.
  split; [apply (check_reply_exact attention (reply "allow") 50); by_vm|].
  intros H. apply (check_reply_exact attention (reply "never") 50) in H; [|by_vm].
  destruct H as [_ (_ & Ho & _)]. destruct (Ho "never" eq_refl) as [_ [?|Hin]]; [done|].
  repeat (apply elem_of_cons in Hin as [Hin|Hin]; [done|]). by apply elem_of_nil in Hin.
Defined.

Lemma accepted_reply_is_recordable_witness :
  AttentionItem_validate (answered_by attention (reply "allow") 50 cid) = Ok tt ∧
  AttentionItem_check_reply (answered_by attention (reply "allow") 50 cid) (reply "deny") 60 =
    Err ReplyRejection.NotOpen.
Proof.
  destruct (accepted_reply_is_recordable attention (reply "allow") 50 cid 60 (reply "deny")) as [H1 H2];
    [by_vm|by_vm|done|]. split; [exact H1|]. apply H2. reflexivity.
Defined.

Definition sample_gate_request : WorkflowGateRequest :=
  WorkflowGateRequest.mk "req_g" (mkId "stp_1") (secret "cnt_gate") [] true.

Definition sample_gate : AttentionItem :=
  AttentionItem.mk aid hid pid None None (Some wid) (AttentionSubject.WorkflowGate sample_gate_request)
    AttentionState.Open 6 None.

Definition sample_gate_reply : AttentionResponse :=
  AttentionResponse.mk aid None "req_g" None (Some "anything") None [].

Lemma gate_without_options_accepts_any_option_witness :
  AttentionItem_check_reply sample_gate sample_gate_reply 50 = Ok tt.
Proof.
  apply (gate_without_options_accepts_any_option sample_gate sample_gate_reply 50 sample_gate_request "anything");
    [by_vm|reflexivity|reflexivity|by split|reflexivity|reflexivity|reflexivity|done].
Defined.

Lemma refresh_approval_join_exact_witness :
  AttentionItem_validate (AttentionItem_refresh_approval_join attention [item] true) = Ok tt.
Proof. apply (refresh_approval_join_exact attention [item] true approval); [by_vm|reflexivity]. Defined.

(** ** Effects and snapshots *)

Definition sample_record (seq at_ms : Z) : LogRecord :=
  LogRecord.mk (Cursor.mk seq) (StreamKey.Session sid) at_ms
    (StateEffect.SessionStatusChanged sid SessionStatus.Idle).

Lemma sample_records_in_range : cursors_in_range [sample_record 4 10; sample_record 5 11].
Proof.
  intros r Hr. repeat (apply elem_of_cons in Hr as [->|Hr]; [unfold in_u64, u64_max; simpl; lia|]).
  by apply elem_of_nil in Hr.
Qed.

Lemma verify_contiguous_exact_witness :
  (sample_record 4 10).(LogRecord.stream) = (sample_record 5 11).(LogRecord.stream).
Proof.
  apply (proj1 (verify_contiguous_exact [sample_record 4 10; sample_record 5 11] sample_records_in_range)
           ltac:(by_vm) 0%nat 1%nat _ _ eq_refl eq_refl).
Defined.

Definition sample_envelope : SnapshotEnvelope :=
  SnapshotEnvelope.mk (StreamKey.Session sid) (Cursor.mk 3) (SnapshotPayload.Session snapshot).

Lemma validate_replay_window_exact_witness :
  run_from (StreamKey.Session sid) 4 [sample_record 4 10; sample_record 5 11].
Proof.
  apply (proj1 (validate_replay_window_exact sample_envelope [sample_record 4 10; sample_record 5 11]
    sample_records_in_range) ltac:(by_vm)).
Defined.

Lemma validated_snapshot_partitions_items_witness :
  listed_items snapshot ≡ₚ Item.id <$> snapshot.(SessionSnapshot.items).
Proof. apply (validated_snapshot_partitions_items snapshot). by_vm. Defined.

Lemma validated_snapshot_queue_is_dense_witness :
  QueueEntry.position <$> pending_in_order snapshot = seqZ 0 (Z.of_nat (length (pending_in_order snapshot))).
Proof. apply (validated_snapshot_queue_is_dense snapshot). by_vm. Defined.

(** ** Canonical state *)

Definition sample_effect : StateEffect := StateEffect.SessionStatusChanged sid SessionStatus.Idle.

Lemma applied_session_fields_are_derived_witness :
  (default unbound ((after sample_effect).(CanonicalState.sessions) !! sid)).(Session.status) =
  derive_session_status (status_inputs (after sample_effect) sid).
Proof.
  apply (applied_session_fields_are_derived state sample_effect (after sample_effect) sid);
    [apply after_ok; by_vm|apply found; by_vm].
Defined.

Lemma applied_project_counts_witness :
  (default project ((after sample_effect).(CanonicalState.projects) !! pid))
    .(Project.session_counts).(SessionCounts.total) =
  u32_of_count (length (sessions_of_project (after sample_effect) pid)).
Proof.
  destruct (applied_project_counts state sample_effect (after sample_effect) pid
    (default project ((after sample_effect).(CanonicalState.projects) !! pid))
    ltac:(apply after_ok; by_vm) ltac:(apply found; by_vm)) as [-> _]. reflexivity.
Defined.

Lemma reachable_states_are_well_formed_witness : state_wf state.
Proof. apply (reachable_states_are_well_formed state state_reachable). Defined.

Definition sample_orphan : StateEffect :=
  StateEffect.ItemUpserted (Item.mk iid sid (mkId "trn_unknown") 0 ItemStatus.InProgress
    (ItemBody.AgentMessage (secret "cnt_msg") MessagePhase.Commentary) 4 4 None).

Lemma refused_effect_changes_nothing_witness : after sample_orphan = state.
Proof.
  apply (refused_effect_changes_nothing state sample_orphan (after sample_orphan)
    (StateError.UnknownTurn (mkId "trn_unknown")) state_reachable).
  unfold after. rewrite (surjective_pairing (CanonicalState_apply state sample_orphan)) at 1.
  f_equal; by_vm.
Defined.

Definition sample_completion : StateEffect :=
  StateEffect.TurnUpserted (Turn.mk tid sid TurnStatus.Completed (TurnOrigin.RemoteCommand cid) None (Some 9)
    [] None None).

Lemma turns_only_grow_witness :
  ∃ t', (after sample_completion).(CanonicalState.turns) !! tid = Some t' ∧
        (default turn (state.(CanonicalState.turns) !! tid)).(Turn.item_ids) `prefix_of` t'.(Turn.item_ids).
Proof.
  destruct (turns_only_grow state sample_completion (after sample_completion) tid
    (default turn (state.(CanonicalState.turns) !! tid)) state_reachable
    ltac:(apply after_ok; by_vm) ltac:(apply found; by_vm)) as (t' & ? & _ & _ & ? & _).
  exists t'. split; assumption.
Defined.

Lemma runtime_acceptance_is_unique_and_correlated_witness :
  ∃ k t, state.(CanonicalState.turns) !! k = Some t ∧ t.(Turn.session_id) = sid ∧
         t.(Turn.origin) = TurnOrigin.RemoteCommand cid.
Proof.
  apply (runtime_acceptance_is_unique_and_correlated state state_reachable 1 accepted_by_runtime sid
    RuntimeAcceptanceKind.PromptTurn (handle ProviderBindingKind.RuntimeAcknowledgement));
    [by_vm|reflexivity|reflexivity].
Defined.

Lemma control_requires_runtime_acceptance_witness :
  ∃ ack kind h, ack ∈ state.(CanonicalState.acks) ∧
    ack.(CommandAck.outcome) = CommandOutcome.AcceptedByRuntime sid kind h.
Proof.
  destruct (proj1 (control_requires_runtime_acceptance state state_reachable) sid
    (default unbound (state.(CanonicalState.sessions) !! sid)) ltac:(apply found; by_vm) ltac:(by_vm))
    as (r & ack & kind & h & _ & ? & ? & _). exists ack, kind, h. split; assumption.
Defined.

Definition sample_order : list QueueEntryId := [mkId "que_2"; mkId "que_1"].

Lemma reordered_queue_follows_order_witness :
  reorderable_entries (queue_of (after (StateEffect.QueueReordered sid sample_order)) sid) = sample_order.
Proof.
  apply (reordered_queue_follows_order state sid sample_order _ state_reachable);
    [by_vm|apply after_ok; by_vm].
Defined.

Lemma reachable_content_is_private_witness :
  let r := default (secret "none") (content_ref state (mkId "cnt_msg")) in
  r.(ContentRef.preview) = None ∨ from_artifact state r ∨ from_turn_error state r.
Proof.
  assert (default (secret "none") (content_ref state (mkId "cnt_msg")) ∈ content_refs state) as Hin.
  { apply (find_first_some (λ reference, bool_decide (reference.(ContentRef.content_id) = mkId "cnt_msg"))).
    apply found. by_vm. }
  destruct (reachable_content_is_private state state_logged _ Hin) as [(_ & ? & _)|H];
    [left; assumption|right; assumption].
Defined.

(** ** The read models *)

Lemma transcript_fanout_complete_witness :
  view_of (after sample_completion) (ProjectionKey.Transcript (mkId "ses_9")) =
    view_of state (ProjectionKey.Transcript (mkId "ses_9")) ∨
  ProjectionKey.Transcript (mkId "ses_9") ∈ affected_keys state (after sample_completion) sample_completion.
Proof.
  apply (transcript_fanout_complete state sample_completion (after sample_completion) (mkId "ses_9") state_reachable).
  - apply after_ok. by_vm.
  - intros x Hx. discriminate Hx.
Defined.

Lemma attention_inbox_is_open_by_expiry_witness :
  NoDup (attention_inbox state hid).(AttentionInboxView.entries).
Proof. apply (attention_inbox_is_open_by_expiry state hid state_reachable). Defined.

Definition sample_step : Step :=
  Step.mk (mkId "stp_1") wid "build" StepRole.Implement
    (StepAssignment.mk (RuntimeSelector.mk ProviderFamily.Codex [Capability.TurnSteer] None) (mkId "pbd_1") (secret "cnt_tree"))
    [] [] [] CompletionCondition.HumanApproved None None StepState.Ready 0 [].

Lemma board_step_unblocked_iff_witness :
  (board_step state (Some project) sample_step).(WorkflowBoardStep.blockers) = [] ∧
  (board_step state None sample_step).(WorkflowBoardStep.blockers) ≠ [].
Proof.
  split.
  - apply (board_step_unblocked_iff state (Some project) sample_step state_reachable). split_and!.
    + reflexivity.
    + intros d Hd. by apply elem_of_nil in Hd.
    + intros c ->%list_elem_of_singleton. eexists. split; [apply (found runtime); by_vm|by_vm].
    + intros k a Hk. discriminate Hk.
  - intros H. apply (board_step_unblocked_iff state None sample_step state_reachable) in H.
    destruct H as (_ & _ & H & _). destruct (H Capability.TurnSteer) as (r & Hr & _); [left|]. discriminate Hr.
Defined.

(** Two sessions, and an item of one that joins a turn of the other. *)
Definition second_session : Session :=
  Session.mk (mkId "ses_2") pid (mkId "pbd_1") OwnershipMode.BrokerManaged
    (HistorySource.mk HistorySourceKind.BrokerLog None observed) (LiveBinding.NotBound LiveUnboundReason.NeverStarted)
    SessionStatus.Idle None 1 1 1 None 0 0 false None.

Definition two_sessions : CanonicalState := after (StateEffect.SessionUpserted second_session).

Lemma two_sessions_reachable : reachable two_sessions.
Proof. eapply reachable_step; [apply state_reachable|]. apply after_ok. by_vm. Qed.

Definition misplaced : Item :=
  Item.mk (mkId "itm_2") (mkId "ses_2") tid 1 ItemStatus.InProgress
    (ItemBody.AgentMessage (secret "cnt_msg") MessagePhase.Commentary) 4 4 None.

Definition poisoned := CanonicalState_apply two_sessions (StateEffect.ItemUpserted misplaced).

Lemma applied_pair (p : CanonicalState * result unit StateError) : is_ok p.2 = true → p = (p.1, Ok tt).
Proof. by destruct p as [? [[]|]]. Qed.

Lemma misplaced_item_blocks_transcript_witness :
  is_ok (StateEffect_validate_for_log (StateEffect.ItemUpserted misplaced)) = true ∧
  is_ok (build_projection poisoned.1 (ProjectionKey.Transcript sid)) = false ∧
  is_ok (build_projection (CanonicalState_apply poisoned.1 (StateEffect.SessionStatusChanged sid SessionStatus.Idle)).1
           (ProjectionKey.Transcript sid)) = false.
Proof.
  split; [by_vm|].
  destruct (misplaced_item_blocks_transcript two_sessions misplaced poisoned.1
    (default turn (two_sessions.(CanonicalState.turns) !! tid)) two_sessions_reachable) as (_ & H1 & H2).
  - unfold poisoned. apply applied_pair. by_vm.
  - apply found. by_vm.
  - vm_compute. discriminate.
  - by_vm.
  - split; [exact H1|]. apply (H2 SessionStatus.Idle). apply applied_pair. by_vm.
Defined.

(** A project that moves the binding of a session to another runtime. *)
Definition second_runtime : ProviderRuntime :=
  ProviderRuntime.mk (mkId "rt_2") hid ProviderFamily.Codex None LaunchSurface.BrokerLaunched
    (ConnectionState.Connected 1) (RuntimeCapabilities.mk (mkId "rt_2") 1 []) None.

Definition rebound : CanonicalState :=
  default state (run CanonicalState_default
    [StateEffect.HostUpserted host; StateEffect.RuntimeUpserted runtime; StateEffect.RuntimeUpserted second_runtime;
     StateEffect.ProjectUpserted project; StateEffect.SessionUpserted second_session]).

Definition moved_project : Project :=
  Project.mk pid "demo" [ProjectBinding.mk (mkId "pbd_1") pid (mkId "rt_2") (secret "cnt_root")]
    (SessionCounts.mk 0 0 0 0 0) 0 0 1.

Definition moved := CanonicalState_apply rebound (StateEffect.ProjectUpserted moved_project).

Lemma project_fanout_misses_input_queue_witness :
  ProjectionKey.InputQueue (mkId "ses_2") ∉ affected_keys rebound moved.1 (StateEffect.ProjectUpserted moved_project).
Proof.
  apply (project_fanout_misses_input_queue rebound moved_project moved.1 (mkId "ses_2")
    (default second_session (rebound.(CanonicalState.sessions) !! mkId "ses_2"))
    (ProjectBinding.mk (mkId "pbd_1") pid (mkId "rt_2") (secret "cnt_root"))
    (default second_runtime (rebound.(CanonicalState.runtimes) !! mkId "rt_2"))).
  - unfold moved. apply applied_pair. by_vm.
  - apply found. by_vm.
  - by_vm.
  - by_vm.
  - by_vm.
  - apply found. by_vm.
  - vm_compute. discriminate.
Defined.

(** ** The log, the journal and the store *)

(** A codec that knows a fixed list of values, each written as one letter. *)
Fixpoint letter_of `{EqDecision A} (table : list A) (r : A) (n : nat) : string :=
  match table with
  | [] => "?"
  | x :: rest => if decide (x = r) then String (Ascii.ascii_of_nat n) "" else letter_of rest r (S n)
  end.

Definition letter_find `{EqDecision A} (table : list A) (line : string) : option A :=
  find_first (λ r, bool_decide (letter_of table r 97 = line)) table.

Lemma letter_codec `{EqDecision A} (table : list A) : forallb (λ r, bool_decide (
    letter_find table (letter_of table r 97) = Some r) &&
    negb (contains_b newline (bytes_of (letter_of table r 97))) &&
    bool_decide (strip_cr (letter_of table r 97) = letter_of table r 97) &&
    negb (is_blank (letter_of table r 97))) table = true →
  Forall (line_codec (λ r, letter_of table r 97) (letter_find table)) table.
Proof.
  intros H. apply Forall_forall. intros r Hr. apply list_elem_of_In in Hr.
  rewrite forallb_forall in H. specialize (H r Hr).
  rewrite !andb_true_iff, !bool_decide_eq_true, !negb_true_iff, contains_b_false in H.
  destruct H as [[[? ?] ?] ?]. by split.
Qed.

Lemma commit_pair {A B E} (p : A * result B E) (c : B) : p.2 = Ok c → p = (p.1, Ok c).
Proof. destruct p. simpl. by intros ->. Qed.

(** A result known to succeed, and its value. *)
Definition unwrap_or {A E} (d : A) (r : result A E) : A := match r with Ok a => a | Err _ => d end.

Lemma unwrap_ok {A E} (d : A) (r : result A E) : is_ok r = true → r = Ok (unwrap_or d r).
Proof. by destruct r. Qed.

Definition error_of {A E} (r : result A E) : option E := match r with Ok _ => None | Err e => Some e end.

Lemma refused_pair {A B E} (p : A * result B E) (e : E) : error_of p.2 = Some e → p = (p.1, Err e).
Proof. destruct p as [? []]; simpl; [done|]. by intros [= ->]. Qed.

(** The records the examples below write. *)
Definition first_record : LogRecord :=
  LogRecord.mk Cursor_START (StreamKey.Host hid) 100 (StateEffect.HostUpserted host).
Definition second_record : LogRecord :=
  LogRecord.mk (Cursor.mk 1) (StreamKey.Host hid) 101 (StateEffect.RuntimeUpserted runtime).
Definition retried_record : LogRecord :=
  LogRecord.mk (Cursor.mk 1) (StreamKey.Host hid) 200 (StateEffect.RuntimeUpserted runtime).
Definition record_table : list LogRecord :=
  [first_record; second_record; retried_record; collision_record "a/b" 0 1; collision_record "a_b" 0 2].

#[local] Instance sample_codec : Codec := {|
  encode := λ r, letter_of record_table r 97; decode := letter_find record_table |}.

Lemma sample_codec_ok : Forall codec_ok record_table.
Proof. apply letter_codec. by_vm. Qed.

Lemma codec_ok_of r : r ∈ record_table → codec_ok r.
Proof. apply Forall_forall, sample_codec_ok. Qed.

(** *** The journal *)

(** A digest function without collisions. *)
Definition plain_digest (s : string) : string := s.

Definition runtime_key : ProjectionKey := ProjectionKey.RuntimeCapability hid rid.
Definition index_key : ProjectionKey := ProjectionKey.ProjectIndex hid.

Definition built (key : ProjectionKey) : ProjectionPayload :=
  match build_projection state key with
  | Ok payload => payload
  | Err _ => ProjectionPayload.ProjectIndex (ProjectIndexView.mk hid HostReachability.LanDirect [])
  end.

(** The project index before the runtime was known. *)
Definition older : ProjectionPayload :=
  match build_projection (default state (run CanonicalState_default (take 1 effects))) index_key with
  | Ok payload => payload
  | Err _ => built index_key
  end.

Definition envelope (key : ProjectionKey) (seq : Z) (payload : ProjectionPayload) : ProjectionEnvelope :=
  ProjectionEnvelope.mk PROJECTION_VERSION key (Cursor.mk seq) payload.

Definition envelope_table : list ProjectionEnvelope :=
  [envelope index_key 0 older; envelope index_key 1 (built index_key); envelope runtime_key 0 (built runtime_key)].

(** The views of the host and its runtime alone. *)
Definition inbox_key : ProjectionKey := ProjectionKey.AttentionInbox hid.

Definition early (key : ProjectionKey) : ProjectionPayload :=
  unwrap_or older (build_projection (default state (run CanonicalState_default (take 2 effects))) key).

Definition early_table : list ProjectionEnvelope :=
  [envelope index_key 1 (early index_key); envelope inbox_key 0 (early inbox_key);
   envelope runtime_key 0 (early runtime_key)].

#[local] Instance sample_envelope_codec : EnvelopeCodec := {|
  encode_envelope := λ e, letter_of (envelope_table ++ early_table) e 97;
  decode_envelope := letter_find (envelope_table ++ early_table);
  encode_key := λ key, match key with
    | ProjectionKey.ProjectIndex _ => "index" | ProjectionKey.AttentionInbox _ => "inbox" | _ => "runtime" end |}.

Lemma all_envelopes_ok : Forall (line_codec encode_envelope decode_envelope) (envelope_table ++ early_table).
Proof. apply letter_codec. by_vm. Qed.

Lemma envelope_codec_ok : Forall (line_codec encode_envelope decode_envelope) envelope_table.
Proof. exact (proj1 (proj1 (Forall_app _ _ _) all_envelopes_ok)). Qed.

Definition journal0 : ProjectionJournal := ProjectionJournal.mk true 2 ∅ ∅.
Definition sample_journal : ProjectionJournal :=
  foldl (λ j kp, (record plain_digest j IoOutcome.Written kp.1 kp.2).1) journal0
    [(index_key, older); (runtime_key, built runtime_key); (index_key, built index_key)].

Lemma sample_recorded : recorded plain_digest sample_journal.
Proof.
  unfold sample_journal. cbn [foldl]. repeat (apply recorded_step; [|left; reflexivity]). apply recorded_open. discriminate.
Qed.

Lemma sample_journal_wf : journal_wf sample_journal.
Proof. apply (recorded_ok plain_digest sample_journal sample_recorded). Qed.

(** What [sample_journal] holds. *)
Definition sample_histories : list (ProjectionKey * list ProjectionEnvelope) :=
  [(index_key, take 2 envelope_table); (runtime_key, drop 2 envelope_table)].

Lemma sample_entries key es :
  sample_journal.(ProjectionJournal.entries) !! key = Some es →
  key = index_key ∧ es = take 2 envelope_table ∨ key = runtime_key ∧ es = drop 2 envelope_table.
Proof.
  assert (sample_journal.(ProjectionJournal.entries) = list_to_map sample_histories) as ->.
  { apply (bool_decide_unpack _). by_vm. }
  intros H%elem_of_list_to_map_2. unfold sample_histories in H. rewrite !elem_of_cons, elem_of_nil in H.
  destruct H as [H|[H|[]]]; apply pair_eq in H; [left|right]; exact H.
Qed.

Lemma journal_reopens_witness :
  open_with_retention plain_digest sample_journal.(ProjectionJournal.files) 2 = Ok sample_journal.
Proof.
  apply (journal_reopens plain_digest sample_journal sample_recorded).
  - intros k1 k2 [es1 H1%sample_entries] [es2 H2%sample_entries] Hp.
    destruct H1 as [[-> _]|[-> _]], H2 as [[-> _]|[-> _]]; reflexivity || (vm_compute in Hp; discriminate Hp).
  - intros key. by destruct key.
  - intros key es Hes%sample_entries. apply Forall_forall. intros e He.
    apply (proj1 (Forall_forall _ _) envelope_codec_ok).
    destruct Hes as [[_ ->]|[_ ->]]; [exact (subseteq_take _ _ e He)|exact (subseteq_drop _ _ e He)].
Defined.

Definition sample_request (since : option Cursor) : ProjectionSubscribe := ProjectionSubscribe.mk index_key since.

Lemma subscription_decision_is_accepted_witness :
  ∃ ack, decide_projection_subscription (sample_request (Some (Cursor.mk 1))) (Cursor.mk 0) (Cursor.mk 1) 7 = Ok ack ∧
    ProjectionSubscribeAck_validate_for ack (sample_request (Some (Cursor.mk 1))) = Ok tt.
Proof.
  destruct (subscription_decision_is_accepted (sample_request (Some (Cursor.mk 1))) (Cursor.mk 0) (Cursor.mk 1) 7)
    as (ack & H1 & H2 & _); [by_vm|simpl; lia|]. exists ack. split; assumption.
Defined.

Lemma replay_serves_subscription_witness :
  ∃ r, replay sample_journal (sample_request (Some (Cursor.mk 0))) 7 = Ok r ∧
    ProjectionSubscribeAck_validate_for r.(ProjectionReplay.ack) (sample_request (Some (Cursor.mk 0))) = Ok tt.
Proof.
  destruct (replay_serves_subscription sample_journal (sample_request (Some (Cursor.mk 0))) 7 sample_journal_wf)
    as (r & H1 & H2 & _); [by_vm|intros since [= <-]; by split|].
  exists r. split; assumption.
Defined.

(** A journal that lost the last view of the index. *)
Definition lagging_journal : ProjectionJournal :=
  ProjectionJournal_set_entries (<[index_key := take 1 envelope_table]> sample_journal.(ProjectionJournal.entries))
    sample_journal.

Lemma reconcile_repairs_prefixes_witness :
  ∃ j', reconcile plain_digest lagging_journal [IoOutcome.Written] sample_journal = (j', Ok tt) ∧
    j'.(ProjectionJournal.entries) = sample_journal.(ProjectionJournal.entries).
Proof.
  apply (reconcile_repairs_prefixes plain_digest lagging_journal [IoOutcome.Written] sample_journal sample_journal_wf);
    [by repeat constructor|].
  intros key es. unfold lagging_journal. cbn [ProjectionJournal_set_entries ProjectionJournal.entries].
  intros [[<- <-]|[_ Hes]]%lookup_insert_Some.
  - exists (take 2 envelope_table). split; [by_vm|]. by exists [envelope index_key 1 (built index_key)].
  - exists es. split; [exact Hes|reflexivity].
Defined.

(** *** The store *)

#[local] Instance sample_read_models : ReadModels := journal_read_models plain_digest.
#[local] Instance sample_laws : @ReadModelsLaws sample_read_models := journal_read_models_laws plain_digest.

Definition empty_journal : @Journal sample_read_models := new_journal.

Definition some_digest : string := "0123456789abcdef0123456789abcdef0123456789abcdef0123456789abcdef".
Definition side_table : list IdempotencyRecord :=
  [IdempotencyRecord.mk IDEMPOTENCY_FORMAT_VERSION some_digest cid].

#[local] Instance sample_side_codec : SideTableCodec := {|
  encode_side := λ r, letter_of side_table r 97; decode_side := letter_find side_table |}.

Definition history : list LogRecord := [first_record; second_record].

Lemma history_codec : Forall codec_ok history.
Proof. repeat (apply Forall_cons; split; [apply codec_ok_of; set_solver|]). by apply Forall_nil. Qed.

(** The second commit loses the append of its first view. *)
Definition sample_tick : Tick := mkTick 100 IoOutcome.Written [].
Definition lossy_tick : Tick := mkTick 100 IoOutcome.Written [IoOutcome.NotOpened].
Definition store0 : CanonicalStore := store_open empty_journal.
Definition commit1 := apply_trusted_commit store0 sample_tick (StateEffect.HostUpserted host).
Definition commit2 := apply_trusted_commit commit1.1 sample_tick (StateEffect.RuntimeUpserted runtime).
Definition commit2_lossy := apply_trusted_commit commit1.1 lossy_tick (StateEffect.RuntimeUpserted runtime).
Definition keyed := record_idempotency commit2_lossy.1 IoOutcome.Written some_digest cid.

Definition no_commit : StateCommit := {| records := []; projections := [] |}.
Definition commit_made : result StateCommit StateError → StateCommit := unwrap_or no_commit.

Lemma first_committed : committed empty_journal commit1.1 [first_record].
Proof.
  replace [first_record] with ([] ++ written_by store0 100 (StateEffect.HostUpserted host)) by by_vm.
  apply committed_commit; [apply committed_open|apply Forall_nil; done].
Qed.

Lemma history_committed ios : Forall clean_io ios →
  committed empty_journal (apply_trusted_commit commit1.1 (mkTick 100 IoOutcome.Written ios)
    (StateEffect.RuntimeUpserted runtime)).1 history.
Proof.
  intros Hio. replace history with ([first_record] ++ written_by commit1.1 100
    (StateEffect.RuntimeUpserted runtime)) by by_vm.
  apply committed_commit; [apply first_committed|exact Hio].
Qed.

Lemma keyed_committed : committed empty_journal keyed.1 history.
Proof.
  apply committed_key; [apply history_committed|by_vm|by_vm|].
  - apply Forall_singleton. by right.
  - assert (Forall (line_codec encode_side decode_side) side_table) as H by (apply letter_codec; by_vm).
    by inversion H.
Qed.

Lemma history_safe : ∀ r, r ∈ history → safe_identifier (stream_identifier r.(LogRecord.stream)).
Proof.
  intros r Hr. assert (r.(LogRecord.stream) = StreamKey.Host hid) as ->.
  { repeat (apply elem_of_cons in Hr as [->|Hr]; [reflexivity|]). by apply elem_of_nil in Hr. }
  intros c Hc. simpl in Hc. repeat (apply elem_of_cons in Hc as [->|Hc]; [by_vm|]). by apply elem_of_nil in Hc.
Qed.

(** What the replay of [history] leaves in the journal. *)
Definition early_histories : list (ProjectionKey * list ProjectionEnvelope) :=
  [(index_key, [envelope index_key 0 older; envelope index_key 1 (early index_key)]);
   (inbox_key, [envelope inbox_key 0 (early inbox_key)]); (runtime_key, [envelope runtime_key 0 (early runtime_key)])].

Definition implied_entries : gmap ProjectionKey (list ProjectionEnvelope) :=
  unwrap_or ∅ (let? r := @replay_all (journal_read_models plain_digest) no_views history in
               Ok r.(replayed_expected).(ProjectionJournal.entries)).

Lemma implied_entries_are key es : implied_entries !! key = Some es → (key, es) ∈ early_histories.
Proof.
  assert (implied_entries = list_to_map early_histories) as -> by (apply (bool_decide_unpack _); by_vm).
  apply elem_of_list_to_map_2.
Qed.

Lemma history_views_storable : views_storable plain_digest history.
Proof.
  intros r Hr. assert (r.(replayed_expected).(ProjectionJournal.entries) = implied_entries) as E.
  { unfold implied_entries. change (@replay_all (journal_read_models plain_digest) no_views history = Ok r) in Hr. by rewrite Hr. }
  split.
  - intros k1 k2. rewrite E. intros [es1 H1%implied_entries_are] [es2 H2%implied_entries_are] Hp.
    unfold early_histories in H1, H2. rewrite !elem_of_cons, elem_of_nil in H1. rewrite !elem_of_cons, elem_of_nil in H2.
    destruct H1 as [[= -> _]|[[= -> _]|[[= -> _]|[]]]], H2 as [[= -> _]|[[= -> _]|[[= -> _]|[]]]]; reflexivity || (vm_compute in Hp; discriminate Hp).
  - intros key es. rewrite E. intros H%implied_entries_are. apply Forall_forall. intros e He.
    apply (proj1 (Forall_forall _ _) all_envelopes_ok). unfold early_histories in H. rewrite !elem_of_cons, elem_of_nil in H.
    destruct H as [[= _ ->]|[[= _ ->]|[[= _ ->]|[]]]]; revert He; unfold envelope_table, early_table;
      simpl; rewrite !elem_of_cons, ?elem_of_nil; tauto.
Qed.

(** A store that must recover is reloaded from its files with its read models
    repaired. *)
Lemma reload_converges_witness :
  keyed.1.(store_recovery_required) = true ∧
  ∃ implied journal',
    load_from_files plain_digest keyed.1.(store_log) keyed.1.(store_journal).(ProjectionJournal.files)
        keyed.1.(store_idempotency_file) [] =
      Ok (mkStore keyed.1.(store_log) journal' keyed.1.(store_state) keyed.1.(store_cursors)
          keyed.1.(store_last_appended_at_ms) keyed.1.(store_idempotency) keyed.1.(store_idempotency_file) false) ∧
    journal'.(ProjectionJournal.entries) = implied.(ProjectionJournal.entries).
Proof.
  split; [by_vm|].
  destruct (reload_converges plain_digest keyed.1 history []) as (implied & journal' & _ & H & He & _);
    [exact keyed_committed|vm_compute; discriminate|exact history_safe|exact history_codec|exact history_views_storable
    |intros key; by destruct key|apply Forall_nil; exact I|].
  exists implied, journal'. split; [exact H|exact He].
Defined.

Lemma read_all_returns_history_witness :
  read_all (foldl (λ log r, (append log r IoOutcome.Written).1) ∅ history) = Ok history.
Proof.
  destruct (committed_inv empty_journal commit2.1 history (history_committed [] ltac:(by apply Forall_nil))).
  apply (read_all_returns_history history history_safe); assumption || apply history_codec.
Defined.

Lemma commits_extend_their_stream_witness :
  second_record.(LogRecord.cursor).(Cursor.seq) = 1 ∧
  first_record.(LogRecord.appended_at_ms) < second_record.(LogRecord.appended_at_ms).
Proof.
  destruct (commits_extend_their_stream empty_journal commit1.1 [first_record] sample_tick
    (StateEffect.RuntimeUpserted runtime) commit2.1 (commit_made commit2.2) second_record) as (_ & _ & H1 & H2 & _).
  - apply first_committed.
  - apply commit_pair, unwrap_ok. by_vm.
  - by_vm.
  - split; [exact H1|]. apply H2. left.
Defined.

Lemma sanitised_names_can_collide_witness :
  stream_file_name (StreamKey.Session (mkId "a/b")) = stream_file_name (StreamKey.Session (mkId "a_b")).
Proof. apply (sanitised_names_can_collide 1 2); apply codec_ok_of; set_solver. Defined.

Lemma failed_commit_is_contained_witness :
  (apply_trusted_commit store0 (mkTick 100 (IoOutcome.Failed 1) []) (StateEffect.HostUpserted host)).1.(store_state) =
  CanonicalState_default.
Proof.
  set (c := apply_trusted_commit store0 (mkTick 100 (IoOutcome.Failed 1) []) (StateEffect.HostUpserted host)).
  destruct (failed_commit_is_contained store0 (mkTick 100 (IoOutcome.Failed 1) []) (StateEffect.HostUpserted host) c.1
    (StateError.Io (stream_file_name (StreamKey.Host hid)))) as [E|[(p & b & _ & _ & E & _)|(p & _ & _ & _ & E)]].
  - subst c. apply refused_pair. by_vm.
  - rewrite E. reflexivity.
  - rewrite E. reflexivity.
  - specialize (E sample_tick (StateEffect.HostUpserted host)). apply (f_equal (λ p, is_ok p.2)) in E.
    subst c. vm_compute in E. discriminate E.
Defined.

Lemma batches_never_accept_locally_witness :
  local_acks (apply_all store0 [(sample_tick, StateEffect.HostUpserted host)]).1.(store_state) = [].
Proof.
  apply (batches_never_accept_locally store0 [(sample_tick, StateEffect.HostUpserted host)] _
    (apply_all store0 [(sample_tick, StateEffect.HostUpserted host)]).2).
  apply surjective_pairing.
Defined.

(** *** Commands *)

(** A store holding the sample state. *)
Definition sample_store : CanonicalStore := mkStore ∅ empty_journal state ∅ 50 ∅ "" false.

Definition sample_command : CommandEnvelope :=
  CommandEnvelope.mk (mkId "cmd_2") "key-1" (Actor.Human (mkId "dev_1")) 60 (Some 90)
    (Command.RespondAttention (reply "allow")).

Definition sample_env : SubmitEnv := mkSubmitEnv sample_tick sample_tick IoOutcome.Written.

Definition submitted := submit_command plain_digest sample_store sample_env sample_command 60.

Definition sample_answer : CommandAck := CommandAck.mk (mkId "cmd_2") (CommandOutcome.AcceptedLocally None) 60.

Lemma submitted_ok :
  submit_command plain_digest sample_store sample_env sample_command 60 = (submitted.1, Ok sample_answer).
Proof. fold submitted. apply commit_pair. by_vm. Qed.

Definition after_submission : CanonicalStore := (apply_trusted_commit submitted.1 sample_tick (StateEffect.HostUpserted host)).1.

Lemma submission_is_idempotent_witness :
  submit_command plain_digest after_submission sample_env sample_command 70 =
    (after_submission, Ok (CommandAck.mk (mkId "cmd_2") (CommandOutcome.Duplicate (mkId "cmd_2")) 70)).
Proof.
  apply (submission_is_idempotent plain_digest sample_store sample_env sample_command 60 submitted.1 sample_answer submitted_ok).
  - apply later_commit, later_same.
  - reflexivity.
  - reflexivity.
  - by_vm.
Defined.

Lemma preview_agrees_with_submission_witness :
  (preview_device_admission plain_digest state (λ _, false) sample_command 60).1 = sample_answer.
Proof.
  apply (preview_agrees_with_submission plain_digest sample_store sample_env sample_command 60 (λ _, false)
    submitted.1 sample_answer); [reflexivity|by_vm|reflexivity|exact submitted_ok].
Defined.

Lemma device_envelope_is_bound_witness :
  CommandEnvelope_expired_at sample_command 60 = false.
Proof.
  apply (device_envelope_is_bound (mkId "dev_1") sample_command
    (DeviceCommandRequest.mk "key-1" (Some 30) (Command.RespondAttention (reply "allow"))) 60); by_vm.
Defined.

(** *** The failed append *)

Definition prepared2 : Prepared :=
  unwrap_or (mkPrepared CanonicalState_default [] first_record)
    (prepare_commit commit1.1 100 (StateEffect.RuntimeUpserted runtime)).

Lemma retry_after_failed_append_breaks_reload_witness :
  ∃ st2 c, apply_trusted_commit (apply_trusted_commit commit1.1 (mkTick 100 (IoOutcome.Failed 2) [])
      (StateEffect.RuntimeUpserted runtime)).1 (mkTick 200 IoOutcome.Written []) (StateEffect.RuntimeUpserted runtime) = (st2, Ok c) ∧
    load_replayed st2.(store_log) empty_journal "" [] = Err (StateError.Contract (ContractViolation.CursorRepeated 1)).
Proof.
  destruct (@retry_after_failed_append_breaks_reload sample_codec sample_read_models sample_laws sample_side_codec
    empty_journal no_views commit1.1 [first_record] (StateEffect.RuntimeUpserted runtime) 100 200 prepared2)
    as (_ & _ & st2 & c & r2 & Ha & _ & _ & Hcur & Hload).
  - reflexivity.
  - split_and!; [reflexivity..|]. split; [|done]. intros key es. simpl. by rewrite lookup_empty.
  - exact first_committed.
  - vm_compute. reflexivity.
  - apply unwrap_ok. by_vm.
  - vm_compute. discriminate.
  - assert (prepared_record prepared2 = second_record) as -> by by_vm. exact history_safe.
  - assert (prepared_record prepared2 = second_record) as -> by by_vm. exact history_codec.
  - assert (next_timestamp commit1.1 200 = Ok 200) as -> by by_vm.
    assert (prepared_record prepared2 = second_record) as -> by by_vm. intros at_ms [= <-].
    apply codec_ok_of. change (retried_record ∈ record_table). set_solver.
  - assert (prepared_record prepared2 = second_record) as E by by_vm. rewrite E in Hcur, Ha.
    exists st2, c. split; [exact Ha|]. rewrite (Hload empty_journal "" []), Hcur. reflexivity.
Defined.

(** ** The outbox *)

Definition flat_digest (_ : string) : string := some_digest.

Definition outbox_record (status : OutboxStatus) : OutboxRecord :=
  OutboxRecord.mk OUTBOX_FORMAT_VERSION some_digest some_digest sample_command sample_answer status.

Definition outbox_table : list OutboxRecord :=
  outbox_record <$> [OutboxStatus.Ready; OutboxStatus.Claimed; OutboxStatus.Completed].

#[local] Instance sample_outbox_codec : OutboxCodec := {|
  encode_outbox := λ r, letter_of outbox_table r 97; decode_outbox := letter_find outbox_table;
  encode_request := λ _ _, "request" |}.

Definition sample_ticket : DispatchTicket := DispatchTicket.mk (mkId "cmd_2") some_digest.

Definition admit_sample : IoOutcome * outbox_op :=
  (IoOutcome.Written, OpInsert OutboxStatus.Ready some_digest some_digest sample_command sample_answer).
Definition admitted_ops : list (IoOutcome * outbox_op) := [admit_sample; (IoOutcome.NotOpened, OpClaim sample_ticket)].
Definition finished_ops : list (IoOutcome * outbox_op) :=
  admitted_ops ++ [(IoOutcome.Written, OpClaim sample_ticket); (IoOutcome.Written, OpClaim sample_ticket);
                   (IoOutcome.Written, OpComplete sample_ticket)].

Definition exec (ops : list (IoOutcome * outbox_op)) : DeviceCommandOutbox * list outbox_event :=
  foldl (λ acc x, let s := outbox_step flat_digest acc.1 x.1 x.2 in (s.1, acc.2 ++ s.2)) (empty_outbox, []) ops.

Lemma exec_run ops :
  Forall (λ x, match x.2 with OpInsert status _ _ _ _ => initial_status status | _ => True end) ops →
  outbox_run flat_digest (exec ops).1 (exec ops).2 ops.
Proof.
  induction ops as [|[io op] ops IH] using rev_ind; intros Hops; [apply run_empty|].
  rewrite Forall_app, Forall_singleton in Hops. destruct Hops as [Hops Hop]. unfold exec. rewrite foldl_app. simpl.
  apply run_step; [by apply IH|]. intros status kd rd envelope ack ->. exact Hop.
Qed.

Lemma admitted_run : outbox_run flat_digest (exec admitted_ops).1 (exec admitted_ops).2 admitted_ops.
Proof. apply exec_run. repeat (apply Forall_cons; split; [done|]). by apply Forall_nil. Qed.

Lemma finished_run : outbox_run flat_digest (exec finished_ops).1 (exec finished_ops).2 finished_ops.
Proof. apply exec_run. repeat (apply Forall_cons; split; [done|]). by apply Forall_nil. Qed.

Lemma outbox_record_admissible status : admissible flat_digest (outbox_record status).
Proof.
  split; [intros index; destruct status; by_vm|].
  assert (Forall (line_codec encode_outbox decode_outbox) outbox_table) as Hall by (apply letter_codec; by_vm).
  apply (proj1 (Forall_forall _ _) Hall), list_elem_of_fmap_2. destruct status; set_solver.
Qed.

Lemma ops_clean ops : ops = admitted_ops ∨ ops = finished_ops →
  Forall (λ x, clean_io x.1 ∧ admissible_op flat_digest x.2) ops.
Proof.
  assert (∀ io op, (io, op) ∈ finished_ops → clean_io io ∧ admissible_op flat_digest op) as Hall.
  { intros io op Hin. unfold finished_ops, admitted_ops in Hin. rewrite elem_of_app, !elem_of_cons, !elem_of_nil in Hin.
    destruct Hin as [[[= -> ->]|[[= -> ->]|[]]]|[[= -> ->]|[[= -> ->]|[[= -> ->]|[]]]]];
      (split; [first [by left|by right]|]); try exact I; intros status; apply outbox_record_admissible. }
  intros [->| ->]; apply Forall_forall; intros [io op] Hin; apply Hall; [|exact Hin].
  unfold finished_ops. apply elem_of_app. by left.
Qed.

Lemma commands_are_dispatched_at_most_once_witness :
  events_of (mkId "cmd_2") (exec finished_ops).2 ∈ lifecycle (mkId "cmd_2") OutboxStatus.Completed ∧
  (length (filter_b (λ e, match e with Dispatched c => bool_decide (c = mkId "cmd_2") | _ => false end)
     (exec finished_ops).2) ≤ 1)%nat.
Proof.
  destruct (commands_are_dispatched_at_most_once flat_digest _ _ _ (mkId "cmd_2") finished_run) as [_ H].
  split; [apply (bool_decide_unpack _); by_vm|exact H].
Defined.

Lemma outbox_reopens_witness :
  DeviceCommandOutbox_open flat_digest (exec finished_ops).1.(DeviceCommandOutbox.file) = Ok (exec finished_ops).1.
Proof. apply (outbox_reopens flat_digest _ _ _ finished_run). apply ops_clean. by right. Defined.

Lemma pending_commands_can_be_claimed_witness :
  ∃ o', claim flat_digest (exec admitted_ops).1 IoOutcome.Written sample_ticket = (o', Ok sample_command).
Proof.
  destruct (pending_commands_can_be_claimed flat_digest _ _ _ (PendingDispatch.mk sample_ticket sample_command)
    admitted_run) as (o' & H1 & _); [apply (bool_decide_unpack _); by_vm|]. exists o'. exact H1.
Defined.

Lemma retried_claim_breaks_outbox_witness :
  ∃ o1, claim flat_digest (exec admitted_ops).1 (IoOutcome.Failed 2) sample_ticket = (o1, Err (StateError.Io OUTBOX_FILE)).
Proof.
  destruct (retried_claim_breaks_outbox flat_digest _ _ _ some_digest (outbox_record OutboxStatus.Ready) admitted_run)
    as (o1 & o2 & n & H1 & _); [apply ops_clean; by left|by_vm|reflexivity|]. exists o1. exact H1.
Defined.

Definition question_reply : AttentionResponse :=
  AttentionResponse.mk aid (Some sid) "req_1" (Some 100) None None
    [QuestionAnswer.mk "q1" [] (Some (secret "cnt_answer"))].

Definition question_record : OutboxRecord :=
  OutboxRecord.mk OUTBOX_FORMAT_VERSION some_digest some_digest
    (CommandEnvelope.mk (mkId "cmd_3") "key-3" (Actor.Human (mkId "dev_1")) 60 None (Command.RespondAttention question_reply))
    (CommandAck.mk (mkId "cmd_3") (CommandOutcome.AcceptedLocally None) 60) OutboxStatus.Ready.

Lemma question_answer_bodies_are_unprotected_witness :
  check_outbox_record flat_digest 0 question_record = Ok tt ∧
  mkId "cnt_answer" ∉ referenced_content_ids (DeviceCommandOutbox.mk "" {[ some_digest := question_record ]}).
Proof.
  split; [by_vm|].
  apply (question_answer_bodies_are_unprotected (DeviceCommandOutbox.mk "" {[ some_digest := question_record ]})
    some_digest question_record question_reply (QuestionAnswer.mk "q1" [] (Some (secret "cnt_answer"))) (secret "cnt_answer"));
    [reflexivity|reflexivity|left|reflexivity|reflexivity].
Defined.
