(* ===== verification/ClientWitnesses.v ===== *)
(** * Witnesses for the transport and the client

    Concrete frames, connections and caches on which the hypotheses of the
    theorems about the wire and the client hold. *)
From stdpp Require Import prelude strings gmap.
From Stdlib Require Import ZArith Lia Ascii.
From S2P Require Import Prelude ProtoBase ProtoContent ProtoRuntime ProtoTurn ProtoEffect ProtoProjection CanonState ReadModelBuild DurableLog ProjectionJournal TransportControl TransportFrame TransportCorrelation TransportLimits ClientPath ClientCache ClientWorker Witnesses.
Import Sample.

Local Open Scope Z_scope.

(** ** Frames *)

(** A codec that knows one control frame. *)
Definition ping_text : list ascii := bytes_of "ping".

#[local] Instance ping_codec : ControlCodec := {|
  json_of_control := λ frame, match frame with ControlFrame.Ping 1 2 => Some ping_text | _ => None end;
  control_of_json := λ bytes, if bool_decide (bytes = ping_text) then Some (ControlFrame.Ping 1 2, false, []) else None;
  json_end := λ rest, bool_decide (rest = []) |}.

#[local] Instance ping_codec_ok : ControlCodecOk.
Proof.
  assert (∀ frame body, json_of_control frame = Some body → frame = ControlFrame.Ping 1 2 ∧ body = ping_text) as Hp.
  { intros frame body. cbn. repeat case_match; try done. by intros [= <-]. }
  split; intros frame body [-> ->]%Hp; [by split|]. exists []. by split.
Qed.

Definition messages : list Message := [ControlMessage (ControlFrame.Ping 1 2); ContentMessage 9 (bytes_of "payload")].
Definition wires : list (list ascii) := (λ m, match encode_message m with Ok w => w | Err _ => [] end) <$> messages.

Lemma messages_cross_the_wire_witness :
  ∃ decoder frames,
    feed FrameDecoder_new [take 3 (concat wires); drop 3 (concat wires)] = Some (decoder, Ok frames) ∧
    FrameDecoder_finish decoder = Ok tt ∧ Forall2 delivers messages frames.
Proof.
  apply (messages_cross_the_wire messages wires).
  - repeat constructor. all: cbv; congruence.
  - repeat constructor.
  - by_vm.
Defined.

(** A decoder in the middle of a content frame. *)
Definition half_decoder : FrameDecoder :=
  match FrameDecoder_push FrameDecoder_new (take 12 (nth 1 wires [])) with Some (d, _) => d | None => FrameDecoder_new end.

Lemma half_reached : reached half_decoder.
Proof.
  eapply (reached_push FrameDecoder_new (take 12 (nth 1 wires []))); [constructor|]. by_vm.
Qed.

Lemma push_terminates_witness :
  ∃ decoder' r, FrameDecoder_push half_decoder (drop 12 (nth 1 wires [])) = Some (decoder', r).
Proof.
  destruct (push_terminates half_decoder (drop 12 (nth 1 wires [])) half_reached) as (d & r & H & _).
  exists d, r. exact H.
Defined.

Lemma buffered_body_is_bounded_witness : Z.of_nat 15 + 1 ≤ MAX_FRAME_LENGTH.
Proof.
  destruct half_decoder.(FrameDecoder.state) as [|kind expected bytes] eqn:E; [vm_compute in E; discriminate E|].
  destruct (buffered_body_is_bounded half_decoder kind expected bytes half_reached E) as [H _].
  vm_compute in E. injection E as _ E _. subst expected. exact H.
Defined.

(** ** Correlation *)

Definition body : list ascii := bytes_of "body".
Definition one_digest (bytes : list ascii) : string :=
  "0123456789abcdef0123456789abcdef0123456789abcdef0123456789abcdef".
Definition write_request : ContentWriteRequest :=
  ContentWriteRequest.mk ContentKind.PlainText 4 ("sha256:" +:+ one_digest body).

Definition exchange : list CorrelationCall :=
  [BeginIncoming 3; BeginOutgoing 1 (ExpectedResponse.Pong 5); ExpectContent 3 write_request;
   BindContent (Frame.Content 3 body); CompleteIncoming 3; AcceptResponse (ControlFrame.Pong 1 5)].

Lemma accepted_exchange_is_correlated_witness :
  NoDup (responses exchange).*1 ∧
  announced exchange 3 (ExpectedContent.mk (Z.of_nat (length body)) ("sha256:" +:+ one_digest body)).
Proof.
  destruct (accepted_exchange_is_correlated one_digest exchange) as (_ & _ & H1 & _ & H2); [by_vm|].
  split; [exact H1|]. apply H2. unfold exchange. rewrite !elem_of_cons. tauto.
Defined.

(** ** Connections *)

Definition device : DeviceId := mkId "dev_1".
Definition session0 : ConnectionSession :=
  match ConnectionSession_accepted 0 with
  | Ok s => s
  | Err _ => ConnectionSession.mk ConnectionStage.Closed 0 None None 0 false None CorrelationState_default
  end.

Definition handshake : list SessionEvent :=
  [TlsEstablished 1; HelloReceived (ControlFrame.TransportHello 1 "0.1.0" MAX_FRAME_LENGTH) 2;
   UacpHelloReceived (ControlFrame.UacpHello 2 "0.5.0") 3; DeviceAuthenticated device 4].

Lemma business_needs_authentication_witness :
  ∃ s' device_id t4, ensure_business_frame (ControlFrame.Ping 5 6) 100 (run_session session0 handshake) = (s', Ok tt) ∧
    s'.(ConnectionSession.authenticated_device) = Some device_id ∧ 100 < t4 + SESSION_LIFETIME_MS.
Proof.
  destruct (ensure_business_frame (ControlFrame.Ping 5 6) 100 (run_session session0 handshake)) as [s' r] eqn:E.
  assert (r = Ok tt) as -> by (vm_compute in E; congruence).
  destruct (business_needs_authentication 0 session0 handshake (ControlFrame.Ping 5 6) 100 s' eq_refl E)
    as (_ & t1 & r2 & v2 & t2 & r3 & v3 & t3 & d & t4 & _ & _ & _ & _ & Hd & Ht).
  exists s', d, t4. split; [reflexivity|]. split; assumption.
Defined.

Lemma stalled_connection_closes_witness :
  (ConnectionSession_poll (10 + IDLE_CLOSE_AFTER_MS) (run_session session0 handshake)).1.(ConnectionSession.stage) =
  ConnectionStage.Closed.
Proof.
  apply (stalled_connection_closes 0 session0 handshake 10).
  - reflexivity.
  - unfold i64_min. lia.
  - repeat (apply Forall_cons; split; [intros t [= <-]; unfold i64_min; lia|]). apply Forall_nil. exact I.
  - unfold IDLE_CLOSE_AFTER_MS, i64_max. lia.
Defined.

(** ** Paths *)

Definition path_events : list PathEvent :=
  [Started 7 1; AttemptFailed 7 2; AttemptEstablished PathAttempt.PeerToPeer 7 3; AttemptFailed 6 4].

Lemma online_is_earned_witness : ∃ before attempt epoch after,
  path_events = before ++ AttemptEstablished attempt epoch 3 :: after ∧ epoch = generation before.
Proof.
  destruct (online_is_earned 0 path_events HostReachability.PeerToPeer 3) as (b & a & ep & af & H1 & _ & H2 & _);
    [reflexivity|]. exists b, a, ep, af. split; assumption.
Defined.

Lemma backoff_doubles_to_its_cap_witness : 30000 = Z.min (INITIAL_DELAY * 2 ^ Z.of_nat 8) MAX_DELAY.
Proof. apply (backoff_doubles_to_its_cap 10 8). reflexivity. Defined.

Lemma reconnect_wait_is_cut_short_witness :
  reconnect_wait 30000 0 [] (PathMachine_new 0) ReconnectBackoff_default =
  (true, WORKER_POLL, PathMachine_new 0, ReconnectBackoff_default).
Proof. apply (reconnect_wait_is_cut_short 10 8). reflexivity. Defined.

(** ** The cache *)

(** Digests of 64 digits that tell the two keys apart. *)
Definition wide_digest (s : string) : string :=
  if bool_decide (s = "index") then one_digest [] else "a" +:+ String.substring 1 63 (one_digest []).

#[local] Instance view_codec : EnvelopeCodec := {|
  encode_envelope := sample_envelope_codec.(encode_envelope);
  decode_envelope := sample_envelope_codec.(decode_envelope);
  encode_key := λ key, match key with ProjectionKey.ProjectIndex _ => "index" | _ => "runtime" end |}.

Definition view_header (content : string) : option (option Z) := Some (Some PROJECTION_VERSION).
Definition sample_views (e : ProjectionEnvelope) : Prop := e ∈ envelope_table.

#[local] Instance sample_cache_codec : CacheCodecOk wide_digest view_header sample_views.
Proof.
  split.
  - intros e He. apply (proj1 (Forall_forall _ _) envelope_codec_ok e He).
  - intros e He. unfold sample_views, envelope_table in He. rewrite !elem_of_cons, elem_of_nil in He.
    by destruct He as [->|[->|[->|[]]]].
  - intros s. unfold wide_digest. by case_bool_decide.
  - intros k1 k2 (e1 & H1 & <-) (e2 & H2 & <-). unfold sample_views, envelope_table in H1, H2.
    rewrite !elem_of_cons, elem_of_nil in H1, H2. intros Hd.
    destruct H1 as [->|[->|[->|[]]]], H2 as [->|[->|[->|[]]]]; reflexivity || (vm_compute in Hd; discriminate Hd).
Qed.

Definition view (n : nat) : ProjectionEnvelope := nth n envelope_table (envelope index_key 0 older).
Definition failing_io : CacheIo := CacheIo.mk true (Some 1%nat) true true (λ _, false).
Definition push1 : CacheCall := Push clean_cache_io (view 0).
Definition push2 : CacheCall := Push failing_io (view 1).
Definition cache1 : ProjectionCache := apply_cache wide_digest (ProjectionCache.mk ∅ ∅) push1.
Definition cache2 : ProjectionCache := apply_cache wide_digest cache1 push2.
Definition doubt1 : gset ProjectionKey := doubt_after wide_digest ∅ (ProjectionCache.mk ∅ ∅) push1.
Definition doubt2 : gset ProjectionKey := doubt_after wide_digest doubt1 cache1 push2.

Lemma cache2_run : cache_run wide_digest view_header sample_views doubt2 cache2.
Proof.
  apply cache_run_call; [apply cache_run_call; [constructor|]|];
    (split; [unfold sample_views, view, envelope_table; simpl; rewrite !elem_of_cons; tauto|exact I]).
Qed.

Definition clean_open_io : OpenIo := OpenIo.mk true true (λ _, true) (λ _, true).

Lemma cache_reopens_witness :
  ∃ c', ProjectionCache_open wide_digest view_header clean_open_io cache2.(ProjectionCache.files) = Ok c' ∧
    cached c' index_key = Some (view 0).
Proof.
  destruct (cache_reopens wide_digest view_header sample_views doubt2 cache2 clean_open_io cache2_run) as (Hok & _ & Hopen).
  assert (opens clean_open_io) as Hio by (split_and!; reflexivity). specialize (Hok Hio).
  destruct (ProjectionCache_open wide_digest view_header clean_open_io cache2.(ProjectionCache.files)) as [c'|e]; [|discriminate Hok].
  exists c'. split; [reflexivity|]. destruct (Hopen c' eq_refl) as (_ & Hsame & _). rewrite Hsame; [by_vm|].
  apply (bool_decide_unpack _). by_vm.
Defined.

(** ** The worker *)

Definition sample_since : Cursor := Cursor.mk 0.
Definition answer : list ControlFrame :=
  match serve_subscription sample_journal (ProjectionSubscribe.mk index_key (Some sample_since)) 7 4 1 with
  | Ok frames => frames
  | Err _ => []
  end.

(** A codec that writes every frame and reads the three of the exchange. *)
Definition letter_frame (n : nat) : Frame := Frame.Control [Ascii.ascii_of_nat n].
#[local] Instance wire_codec : ControlCodec := {|
  json_of_control := λ _, Some (bytes_of "x");
  control_of_json := λ bytes,
    match bytes with
    | [c] =>
        let n := code c in
        if Nat.eqb n 97 then Some (nth 0 answer (ControlFrame.Pong 5 5), false, [])
        else if Nat.eqb n 98 then Some (nth 1 answer (ControlFrame.Pong 5 5), false, [])
        else if Nat.eqb n 99 then Some (ControlFrame.Pong 5 5, false, [])
        else if Nat.eqb n 100 then Some (ControlFrame.ProjectionEnvelopeFrame 2 (view 1), false, [])
        else None
    | _ => None
    end;
  json_end := λ rest, bool_decide (rest = []) |}.

Definition wire_frames : list Frame := letter_frame <$> [97; 98; 99]%nat.

Definition worker0 : Worker :=
  Worker.mk (WireConnection.mk wire_frames [] true) 4 ∅ ∅ cache1 [] [].

Lemma answer_two : answer = [nth 0 answer (ControlFrame.Pong 5 5); nth 1 answer (ControlFrame.Pong 5 5)].
Proof. by_vm. Qed.

Lemma cache1_leftovers : no_leftovers cache1.
Proof.
  assert (cache1.(ProjectionCache.files) = {[ cache_file_name wide_digest (view 0) := encode_envelope (view 0) ]}) as Hf by by_vm.
  intros name. rewrite Hf. intros [content [<- _]%lookup_singleton_Some]. by_vm.
Qed.

Lemma subscriber_catches_up_witness :
  ∃ w', execute_subscribe wide_digest 7 1 (subscribe_request worker0 index_key) worker0 = (w', Ok (Ok tt)) ∧
    caught_up worker0 1 index_key (view 1) [] w'.
Proof.
  apply (subscriber_catches_up wide_digest 7 sample_journal 7 worker0 1 index_key (view 1) answer wire_frames []).
  - exact sample_journal_wf.
  - by_vm.
  - by_vm.
  - by_vm.
  - assert (entries_of sample_journal index_key = take 2 envelope_table) as -> by by_vm.
    intros x. unfold envelope_table. cbn [take]. rewrite !elem_of_cons, elem_of_nil. by intros [->|[->|[]]].
  - assert (cached worker0.(Worker.cache) index_key = Some (view 0)) as -> by by_vm. intros x Hx.
    assert (x = view 0) as -> by congruence.
    assert (entries_of sample_journal index_key = take 2 envelope_table) as -> by by_vm. left.
  - split; [reflexivity|exact cache1_leftovers|reflexivity|vm_compute; discriminate|reflexivity|by_vm|by_vm].
  - by_vm.
  - rewrite answer_two. repeat constructor.
  - reflexivity.
Defined.

(** Two subscriptions to one key. *)
Definition worker1 : Worker :=
  Worker.mk (WireConnection.mk [] [] true) 4 {[ 1 := index_key; 2 := index_key ]} ∅ cache1 [] [].

Lemma duplicate_subscription_drops_connection_witness :
  ∃ w1 w2, handle_unsolicited wide_digest 7 (letter_frame 98) worker1 = (w1, Ok tt) ∧
    handle_unsolicited wide_digest 7 (letter_frame 100) w1 = (w2, Err MobileClientError.Contract).
Proof.
  apply (duplicate_subscription_drops_connection wide_digest 7 worker1 1 2 (view 1)).
  - discriminate.
  - by_vm.
  - by_vm.
  - by_vm.
  - reflexivity.
  - exact cache1_leftovers.
  - split; [by_vm|]. split; [by_vm|].
    replace (worker1.(Worker.current_snapshots) !! 1) with (@None Cursor) by by_vm. cbv iota.
    assert (cached worker1.(Worker.cache) (ProjectionEnvelope.key (view 1)) = Some (view 0)) as -> by by_vm.
    intros p Hp. assert (p = view 0) as -> by congruence. by_vm.
  - by_vm.
  - by_vm.
Defined.
