(* ===== verification/ContentWitnesses.v ===== *)
(** * Witnesses for the bodies on disk

    A small body, a digest that tells it from every other, and a codec that
    knows the one ownership record it leads to. *)
From stdpp Require Import prelude strings gmap.
From Stdlib Require Import ZArith Lia Ascii.
From S2P Require Import Prelude ProtoBase ProtoContent CanonState DurableLog ContentFiles ContentProofs.

Local Open Scope Z_scope.

Definition digest_char (c : ascii) : string := String.string_of_list_ascii (replicate 64 c).

(** Distinguishes the body and the device of the examples. *)
Definition body_text : string := "a small body".
Definition small_digest (s : string) : string :=
  digest_char (if bool_decide (s = body_text) then "a"%char else "b"%char).

Lemma small_digest_collision other : small_digest other = small_digest body_text → other = body_text.
Proof.
  unfold small_digest. rewrite (bool_decide_eq_true_2 (body_text = body_text)) by done.
  by case_bool_decide.
Qed.

Definition phone : DeviceId := mkId "phone".
Definition body_request : ContentWriteRequest :=
  ContentWriteRequest.mk ContentKind.PlainText 12 ("sha256:" +:+ digest_char "a").
Definition body_record : OwnershipRecord :=
  OwnershipRecord.mk 1 (digest_char "b")
    (ContentRef.mk (mkId (digest_char "a")) ContentKind.PlainText 12 ("sha256:" +:+ digest_char "a") None
       Sensitivity.Sensitive ContentAvailability.Stored) 1000 601000.

#[local] Instance record_codec : OwnershipCodec := {|
  encode_owner := λ record, if bool_decide (record = body_record) then "owned" else "?";
  decode_owner := λ line, if bool_decide (line = "owned") then Some body_record else None |}.

Definition uploaded : ContentStore * result ContentWriteResponse StateError :=
  write_for_device small_digest 7 phone body_request body_text 1000 (ContentStore.mk (Disk.mk ∅ [] 0) ∅).

Lemma uploads_read_back_witness :
  ∃ chunks,
    read_through small_digest 13
      (run_content small_digest 7 uploaded.1 [(CleanUp 2000 ∅, [Some 0%nat]); (CleanUp 3000 ∅, [])])
      phone (mkId (digest_char "a")) 5 4000 0 = Some chunks ∧
    read_chain (mkId (digest_char "a")) 0 chunks ∧ chain_body chunks = bytes_of body_text.
Proof.
  apply (uploads_read_back small_digest 7 [(CleanUp 500 ∅, [])] [(CleanUp 2000 ∅, [Some 0%nat]); (CleanUp 3000 ∅, [])] []
           phone body_request body_text 1000 4000 5 _ uploaded.1 body_record.(OwnershipRecord.content_ref) eq_refl).
  - by_vm.
  - rewrite !Forall_cons. split_and!; [..|by apply Forall_nil]; intros now [= <-]; unfold DEVICE_CONTENT_TTL_MS; lia.
  - reflexivity.
  - vm_compute. split; discriminate.
  - exact small_digest_collision.
Defined.

Definition first_read : ContentReadRequest := ContentReadRequest.mk (mkId (digest_char "a")) 0 5.

Lemma reads_are_authorised_witness :
  ∃ owner write bytes now_ms faults,
    (Upload owner write bytes now_ms, faults) ∈ [(Upload phone body_request body_text 1000, [] : list (option nat))] ∧
    device_digest small_digest owner = device_digest small_digest phone ∧
    mkId (small_digest bytes) = first_read.(ContentReadRequest.content_id) ∧ 4000 < now_ms + DEVICE_CONTENT_TTL_MS.
Proof.
  eapply (reads_are_authorised small_digest 7 [(Upload phone body_request body_text 1000, [])] phone first_read 4000).
  vm_compute. reflexivity.
Defined.

(** There is no file yet, and renaming the complete one fails: it waits under its
    own name. *)
Definition fresh_disk : Disk := Disk.mk ∅ [None; None; None; None; None; Some 0%nat] 3.
Definition owned : gmap (string * ContentId) OwnershipRecord := {[ owner_key body_record := body_record ]}.

Lemma ownership_rewrite_is_atomic_witness :
  ∃ m, (ContentStore_open (Disk_set_faults [] (rewrite_ownership 7 owned fresh_disk).1)).2 = Ok m ∧
    (m = ∅ ∨ m = owned) ∧ ((rewrite_ownership 7 owned fresh_disk).2 = Ok tt → m = owned).
Proof.
  apply (ownership_rewrite_is_atomic 7 owned ∅ fresh_disk).
  - intros name _. reflexivity.
  - reflexivity.
  - apply map_Forall_singleton. split; [reflexivity|]. split; [|intros line; reflexivity].
    split; [by_vm| |by_vm..]. assert (bytes_of (encode_owner body_record) = bytes_of "owned") as -> by by_vm.
    cbn. rewrite !elem_of_cons, elem_of_nil. naive_solver.
  - apply surjective_pairing.
Defined.
