(* ===== verification/DeviceWitnesses.v ===== *)
(** * Witnesses for the device operations of the store

    A store with the sample state, a reply and an interruption by one device. *)
From stdpp Require Import prelude strings gmap.
From Stdlib Require Import ZArith Lia.
From S2P Require Import Prelude ProtoBase ProtoContent ProtoRuntime ProtoTurn ProtoQueue ProtoWorkflow ProtoAttention ProtoCommand ProtoEffect ProtoProjection CanonState CanonInvariants DurableLog ProjectionJournal ContentFiles CommandOutbox OutboxProofs StoreInterface JournalReadModels CanonStore StoreProofs DeviceStore DeviceProofs DeviceReceipts DeviceRecovery Witnesses ContentWitnesses.
Import Sample.

Local Open Scope Z_scope.

#[local] Existing Instances sample_codec sample_envelope_codec sample_read_models sample_laws sample_side_codec sample_outbox_codec record_codec.

Definition device : DeviceId := mkId "dev_1".
Definition no_content : ContentStore := ContentStore.mk (Disk.mk ∅ [] 0) ∅.
Definition sample_host : HostStore := mkHost sample_store empty_outbox no_content.

(** The request of [sample_command], and the same request a little later. *)
Definition reply_request : DeviceCommandRequest :=
  DeviceCommandRequest.mk "key-1" (Some 30) (Command.RespondAttention (reply "allow")).
Definition repeated_command : CommandEnvelope :=
  CommandEnvelope.mk (mkId "cmd_9") "key-1" (Actor.Human device) 70 (Some 100) (Command.RespondAttention (reply "allow")).

Definition written_admit : AdmitEnv := mkAdmitEnv IoOutcome.Written sample_env IoOutcome.Written.
Definition admitted := admit_device_command plain_digest written_admit device sample_command reply_request 60 sample_host.
Definition admission : DeviceCommandAdmission := unwrap_or (mkAdmission sample_answer None []) admitted.2.

Lemma admitted_ok : admit_device_command plain_digest written_admit device sample_command reply_request 60 sample_host = (admitted.1, Ok admission).
Proof. fold admitted. apply commit_pair, unwrap_ok. by_vm. Qed.

Lemma requests_are_admitted_once_witness :
  admit_device_command plain_digest written_admit device repeated_command reply_request 70 admitted.1 =
    (admitted.1, Ok (mkAdmission (CommandAck.mk (mkId "cmd_9") (CommandOutcome.Duplicate (mkId "cmd_2")) 70) None [])).
Proof.
  apply (requests_are_admitted_once plain_digest 7 written_admit written_admit device sample_command repeated_command reply_request
    reply_request 60 70 sample_host admitted.1 admission [] admitted_ok).
  - by_vm.
  - reflexivity.
  - split; [by_vm|]. split; by_vm.
  - by_vm.
Defined.

(** An interruption from admission to completion. *)
Definition interruption : CommandEnvelope :=
  CommandEnvelope.mk (mkId "cmd_5") "key-5" (Actor.Human device) 60 None (Command.InterruptTurn sid tid).
Definition interruption_request : DeviceCommandRequest := DeviceCommandRequest.mk "key-5" None (Command.InterruptTurn sid tid).
Definition interruption_ack : CommandAck := CommandAck.mk (mkId "cmd_5") (CommandOutcome.AcceptedLocally None) 60.
Definition interruption_result : CommandAck :=
  CommandAck.mk (mkId "cmd_5") (CommandOutcome.Rejected (canonical_error ErrorCode.RuntimeUnavailable true 65)) 65.
Definition interruption_key : string := device_command_key_digest plain_digest device "key-5".
Definition interruption_record (status : OutboxStatus) : OutboxRecord :=
  OutboxRecord.mk OUTBOX_FORMAT_VERSION interruption_key (device_request_digest plain_digest interruption_request) interruption
    interruption_ack status.
Definition interruption_ticket : DispatchTicket := ticket_of plain_digest (interruption_record OutboxStatus.Ready).
Definition result_effects : list (Tick * StateEffect) := [(sample_tick, StateEffect.CommandAcknowledged interruption_result)].

Definition interruption_calls : list HostCall :=
  [CallApply ((λ e, (sample_tick, e)) <$> take 4 effects);
   CallAdmit written_admit device interruption interruption_request 60;
   CallClaim IoOutcome.Written interruption_ticket; CallFinish IoOutcome.Written interruption_ticket result_effects].
Definition finished_host : HostStore := run_calls plain_digest 7 interruption_calls (host_open empty_journal no_content).

Definition completed_record : OutboxRecord := interruption_record OutboxStatus.Completed.

Lemma completed_commands_have_receipts_witness :
  ∃ ack, ack ∈ finished_host.(canonical).(store_state).(CanonicalState.acks) ∧
    ack.(CommandAck.command_id) = completed_record.(OutboxRecord.envelope).(CommandEnvelope.command_id) ∧
    is_terminal ack.(CommandAck.outcome) = true ∧
    closes completed_record.(OutboxRecord.envelope).(CommandEnvelope.body) ack.(CommandAck.outcome) = true.
Proof.
  refine (completed_commands_have_receipts plain_digest 7 empty_journal no_content interruption_calls interruption_key
    completed_record _ _ _ _).
  - by_vm.
  - reflexivity.
  - reflexivity.
  - reflexivity.
Defined.

(** A reply that is cut short when its acknowledgement is appended. *)
Definition failing_admit : AdmitEnv :=
  mkAdmitEnv IoOutcome.Written (mkSubmitEnv sample_tick (mkTick 100 IoOutcome.NotOpened []) IoOutcome.Written) IoOutcome.Written.
Definition interrupted := admit_device_command plain_digest failing_admit device sample_command reply_request 60 sample_host.
Definition memory_journal : ProjectionJournal := ProjectionJournal.mk false 2 ∅ ∅.

Lemma sample_healthy : healthy sample_store (memory_journal : @Journal sample_read_models) 2.
Proof.
  split.
  - reflexivity.
  - split; [reflexivity|]. split; [reflexivity|]. split; [|discriminate]. intros key es Hes. cbn in Hes.
    rewrite lookup_empty in Hes. discriminate.
  - intros key. vm_compute. discriminate.
  - intros stream c. cbn. rewrite lookup_empty. discriminate.
  - vm_compute. split; discriminate.
Qed.

Lemma interrupted_admission_recovers_witness :
  ∃ recovery h3,
    recovery ∈ admission_recoveries plain_digest interrupted.1.(device_outbox) ∧
    recover_each plain_digest (λ _, mkRecoverEnv (written_env 200 200) IoOutcome.Written) [recovery]
      (mkHost sample_store interrupted.1.(device_outbox) no_content) = (h3, Ok tt) ∧
    h3.(canonical).(store_state) = admitted.1.(canonical).(store_state) ∧
    h3.(canonical).(store_idempotency) = admitted.1.(canonical).(store_idempotency) ∧
    h3.(device_outbox).(DeviceCommandOutbox.by_key) = admitted.1.(device_outbox).(DeviceCommandOutbox.by_key).
Proof.
  apply (interrupted_admission_recovers plain_digest written_admit failing_admit device sample_command reply_request 60 sample_host
    admitted.1 admission interrupted.1 (StateError.Io (stream_file_name (StreamKey.Host hid))) sample_store no_content memory_journal 200 200).
  - exact state_reachable.
  - split; intros *; cbn; rewrite lookup_empty; discriminate.
  - by_vm.
  - by_vm.
  - by_vm.
  - by_vm.
  - exact admitted_ok.
  - by_vm.
  - reflexivity.
  - apply refused_pair. by_vm.
  - by_vm.
  - left. reflexivity.
  - exact sample_healthy.
  - vm_compute. discriminate.
  - vm_compute. discriminate.
Defined.

(** A claimed interruption whose result arrives. *)
Definition claimed_host : HostStore :=
  run_calls plain_digest 7 [CallAdmit written_admit device interruption interruption_request 60;
                            CallClaim IoOutcome.Written interruption_ticket] sample_host.
Definition applied := apply_all claimed_host.(canonical) result_effects.

Lemma claimed_host_wf : outbox_wf claimed_host.(device_outbox).(DeviceCommandOutbox.by_key).
Proof.
  destruct (run_calls_outbox plain_digest 7 [CallAdmit written_admit device interruption interruption_request 60;
    CallClaim IoOutcome.Written interruption_ticket] sample_host) as [ev Hs].
  destruct (steps_run _ _ _ _ Hs [] [] (run_empty _)) as [ops Hrun]. eapply outbox_run_wf, Hrun.
Qed.

Lemma closed_interruption_blocks_load_witness :
  (finish_dispatch plain_digest IoOutcome.NotOpened interruption_ticket result_effects claimed_host).2 = Err (StateError.Io OUTBOX_FILE) ∧
  ∀ log journal side outbox_file st2 o2,
    load_replayed log journal side [] = Ok st2 → st2.(store_state) = applied.1.(store_state) →
    DeviceCommandOutbox_open plain_digest outbox_file = Ok o2 →
    o2.(DeviceCommandOutbox.by_key) = claimed_host.(device_outbox).(DeviceCommandOutbox.by_key) →
    is_ok (load_store plain_digest 7 log no_content.(ContentStore.disk) journal outbox_file side [] (λ _, mkRecoverEnv (written_env 200 200) IoOutcome.Written) 300) = false.
Proof.
  destruct (closed_interruption_blocks_load plain_digest 7 claimed_host interruption_ticket result_effects interruption_key
    (interruption_record OutboxStatus.Claimed) sid tid applied.1 (unwrap_or [] applied.2)) as (Hfinish & Hload).
  - exact claimed_host_wf.
  - by_vm.
  - by_vm.
  - reflexivity.
  - reflexivity.
  - reflexivity.
  - by_vm.
  - by_vm.
  - fold applied. apply commit_pair, unwrap_ok. by_vm.
  - split; [rewrite Hfinish; reflexivity|]. intros log journal side outbox_file st2 o2. apply Hload.
Defined.

(** A second reply while the first one is in flight. *)
Definition second_reply : CommandEnvelope :=
  CommandEnvelope.mk (mkId "cmd_6") "key-6" (Actor.Human device) 60 None (Command.RespondAttention (reply "deny")).
Definition busy_host : HostStore := mkHost sample_store admitted.1.(device_outbox) no_content.
Definition second_accepted : CommandAck := CommandAck.mk (mkId "cmd_6") (CommandOutcome.AcceptedLocally None) 60.

Lemma refused_reply_blocks_load_witness :
  ∃ h3, recover_admission plain_digest (written_env 200 200)
    (AdmissionRecovery.mk interruption_ticket second_reply
       (CommandAck.mk (mkId "cmd_6") (rejected ErrorCode.ApprovalAlreadyAnswered 60) 60) true) busy_host =
    (h3, Err StateError.CommandOutboxDiverged).
Proof.
  destruct (refused_reply_blocks_load plain_digest busy_host second_reply (reply "deny") attention 60 interruption_ticket memory_journal
    200 200 (after (StateEffect.CommandAcknowledged second_accepted))) as (Hp & h3 & H & _).
  - reflexivity.
  - reflexivity.
  - by_vm.
  - reflexivity.
  - by_vm.
  - by_vm.
  - by_vm.
  - by_vm.
  - by_vm.
  - split; [by_vm|apply after_ok; by_vm|by_vm|by_vm].
  - exact sample_healthy.
  - vm_compute. discriminate.
  - vm_compute. discriminate.
  - exists h3. rewrite Hp in H. exact H.
Defined.
