(* ===== verification/AuthWitnesses.v ===== *)
(** * Witnesses for pairing and authentication

    Base64 for URLs as RFC 4648 has it, a toy signature scheme, and one device
    that pairs, authenticates and is revoked. *)
From stdpp Require Import prelude strings gmap.
From Stdlib Require Import ZArith Lia Ascii.
From S2P Require Import Prelude ProtoBase ProtoContent ProtoRuntime DurableLog TransportControl TransportFrame TransportCorrelation TransportLimits TransportAuth TransportBootstrap TransportRegistry RegistryProofs HostLimits HostAuth HostAuthProofs AdapterIdentity.

Local Open Scope Z_scope.

Module Base64Url.

(** ** Base64 *)

Definition alphabet : list ascii := bytes_of "ABCDEFGHIJKLMNOPQRSTUVWXYZabcdefghijklmnopqrstuvwxyz0123456789-_".

Definition digit (sextet : Z) : ascii := default "A"%char (alphabet !! Z.to_nat sextet).
Definition undigit (c : ascii) : option Z := Z.of_nat <$> (fst <$> list_find (λ d, d = c) alphabet).

Definition octet (z : Z) : ascii := ascii_of_nat (Z.to_nat z).
Definition value (c : ascii) : Z := Z.of_nat (nat_of_ascii c).

Fixpoint encode (bytes : list ascii) : list ascii :=
  match bytes with
  | a :: b :: c :: rest =>
      [digit (value a / 4); digit (value a mod 4 * 16 + value b / 16); digit (value b mod 16 * 4 + value c / 64);
       digit (value c mod 64)] ++ encode rest
  | [a; b] => [digit (value a / 4); digit (value a mod 4 * 16 + value b / 16); digit (value b mod 16 * 4)]
  | [a] => [digit (value a / 4); digit (value a mod 4 * 16)]
  | [] => []
  end.

(** The bits that are left over must be zero. *)
Fixpoint decode (text : list ascii) : option (list ascii) :=
  match text with
  | p :: q :: r :: s :: rest =>
      x ← undigit p; y ← undigit q; z ← undigit r; t ← undigit s; more ← decode rest;
      Some (octet (x * 4 + y / 16) :: octet (y mod 16 * 16 + z / 4) :: octet (z mod 4 * 64 + t) :: more)
  | [p; q; r] =>
      x ← undigit p; y ← undigit q; z ← undigit r;
      if z mod 4 =? 0 then Some [octet (x * 4 + y / 16); octet (y mod 16 * 16 + z / 4)] else None
  | [p; q] => x ← undigit p; y ← undigit q; if y mod 16 =? 0 then Some [octet (x * 4 + y / 16)] else None
  | [_] => None
  | [] => Some []
  end.

Lemma undigit_digit z : 0 ≤ z < 64 → undigit (digit z) = Some z.
Proof.
  intros Hz. assert (forallb (λ n, bool_decide (undigit (digit (Z.of_nat n)) = Some (Z.of_nat n))) (seq 0 64) = true) as Hall by by_vm.
  rewrite forallb_forall in Hall. specialize (Hall (Z.to_nat z)). rewrite Z2Nat.id in Hall by lia.
  rewrite bool_decide_eq_true in Hall. apply Hall, in_seq. lia.
Qed.

Lemma digit_safe z : url_safe (digit z) = true.
Proof.
  assert (forallb url_safe alphabet = true) as Hall by by_vm. rewrite forallb_forall in Hall. unfold digit.
  destruct (alphabet !! Z.to_nat z) as [c|] eqn:E; [|done]. apply Hall, list_elem_of_In. by eapply list_elem_of_lookup_2.
Qed.

Lemma value_range c : 0 ≤ value c < 256.
Proof. unfold value. pose proof (nat_ascii_bounded c). lia. Qed.

Lemma octet_value c z : z = value c → octet z = c.
Proof. intros ->. unfold octet, value. by rewrite Nat2Z.id, ascii_nat_embedding. Qed.

Lemma three_bytes (P : list ascii → Prop) :
  P [] → (∀ a, P [a]) → (∀ a b, P [a; b]) → (∀ a b c rest, P rest → P (a :: b :: c :: rest)) → ∀ l, P l.
Proof. intros P0 P1 P2 P3. fix IH 1. intros [|a [|b [|c rest]]]; [done..|]. apply P3, IH. Qed.

Ltac sextets := repeat match goal with c : ascii |- _ => pose proof (value_range c); generalize dependent (value c); intros end; lia.

Lemma decode_encode bytes : decode (encode bytes) = Some bytes.
Proof.
  induction bytes as [|a|a b|a b c rest IH] using three_bytes; [done|..];
    (pose proof (value_range a)); try (pose proof (value_range b)); try (pose proof (value_range c)); cbn [encode app decode];
    rewrite !undigit_digit by (Z.div_mod_to_equations; lia); cbn [mbind option_bind]; rewrite ?IH; cbn [mbind option_bind].
  1,2: rewrite (proj2 (Z.eqb_eq _ 0)) by (Z.div_mod_to_equations; lia). all: repeat f_equal; apply octet_value; Z.div_mod_to_equations; lia.
Qed.

Lemma length_encode bytes : Z.of_nat (length (encode bytes)) = (4 * Z.of_nat (length bytes) + 2) / 3.
Proof.
  induction bytes as [|a|a b|a b c rest IH] using three_bytes; [done..|]. cbn [encode app length].
  rewrite !Nat2Z.inj_succ, IH. Z.div_mod_to_equations. lia.
Qed.

Lemma encode_safe bytes : forallb url_safe (encode bytes) = true.
Proof. induction bytes as [|a|a b|a b c rest IH] using three_bytes; [done|..]; cbn [encode app forallb]; by rewrite !digit_safe. Qed.
End Base64Url.

#[export] Instance base64_url : Base64 := {|
  b64_encode bytes := String.string_of_list_ascii (Base64Url.encode bytes);
  b64_decode text := Base64Url.decode (bytes_of text)
|}.

Lemma bytes_of_string_of l : bytes_of (String.string_of_list_ascii l) = l.
Proof. induction l as [|c l IH]; [done|]. simpl. by rewrite IH. Qed.

#[export] Instance base64_url_ok : Base64Ok.
Proof.
  split; intros bytes; cbn; rewrite ?bytes_of_string_of.
  - apply Base64Url.decode_encode.
  - rewrite <-Base64Url.length_encode, <-bytes_of_length. by rewrite bytes_of_string_of.
  - apply Base64Url.encode_safe.
Qed.

(** ** Links *)

(** A text with one field on a line. *)
Definition lines_of_wire (wire : BootstrapWire) : string :=
  let line (s : string) := s +:+ String newline "" in
  line (decimal (Z.to_nat wire.(BootstrapWire.revision))) +:+ line wire.(BootstrapWire.host_id) +:+ line wire.(BootstrapWire.endpoint)
    +:+ line wire.(BootstrapWire.host_public_key_pin) +:+ line wire.(BootstrapWire.secret)
    +:+ decimal (Z.to_nat wire.(BootstrapWire.expires_at_ms)).

Definition wire_of_lines (text : string) : option BootstrapWire :=
  match split_on newline text with
  | [revision; host_id; endpoint; pin; secret; expires] =>
      r ← digits_value 0 revision; x ← digits_value 0 expires; Some (BootstrapWire.mk r host_id endpoint pin secret x)
  | _ => None
  end.

#[local] Instance line_codec : BootstrapCodec := {|
  json_of_bootstrap wire := if bool_decide (wire_of_lines (lines_of_wire wire) = Some wire) then Some (bytes_of (lines_of_wire wire)) else None;
  bootstrap_of_json json := wire_of_lines (String.string_of_list_ascii json)
|}.

Lemma string_of_bytes_of s : String.string_of_list_ascii (bytes_of s) = s.
Proof. induction s as [|c s IH]; [done|]. simpl. by rewrite IH. Qed.

#[local] Instance line_codec_ok : BootstrapCodecOk.
Proof.
  split; cbn; intros wire json; case_bool_decide as Hw; try done; intros [= <-]; [by rewrite string_of_bytes_of|].
  intros Hnil. apply (f_equal String.string_of_list_ascii) in Hnil. rewrite string_of_bytes_of in Hnil. cbn in Hnil. by rewrite Hnil in Hw.
Qed.

Definition hst : HostId := mkId "hst_1".
Definition blob (n : nat) : list ascii := replicate n "k"%char.

Definition bootstrap : PairingBootstrap :=
  PairingBootstrap.mk hst "[fe80::1]:7443" (SpkiPin_encode (blob 32)) (blob 32) 5000.
Definition link : string := match encode_uri bootstrap with Ok uri => uri | Err _ => "" end.

Lemma pairing_links_round_trip_witness : decode_uri link = Ok bootstrap.
Proof. apply (pairing_links_round_trip bootstrap link). by_vm. Defined.

(** ** Challenges *)

(** A key signs a text by writing itself before it. *)
#[local] Instance toy_p256 : P256 := {|
  PublicKey := list ascii; Signature := list ascii;
  public_key_from_der der := if bool_decide (der = []) then None else Some der;
  public_key_to_der key := Some key;
  signature_from_der := Some; signature_to_der signature := signature;
  verifies key text signature := bool_decide (signature = key ++ text)
|}.

Definition dev : DeviceId := mkId "dev_1".
Definition key : list ascii := bytes_of "key".

Definition transcript (device : DeviceId) (at_ms : Z) : ChallengeTranscript :=
  ChallengeTranscript.mk "0.1.0" PROTOCOL_VERSION hst device (blob 32) (blob 16) (blob 32) at_ms.
Definition signed (device : DeviceId) (at_ms : Z) : list ascii :=
  match build_transcript (transcript device at_ms) with Ok bytes => bytes | Err _ => [] end.

Lemma transcript_binds_every_field_witness : transcript dev 5 = transcript dev 5.
Proof. apply (transcript_binds_every_field _ _ (signed dev 5)); try by_vm. all: by split; vm_compute. Defined.

Definition issue : IssueChallenge := IssueChallenge.mk "con_1" 7 "0.1.0" PROTOCOL_VERSION hst dev (blob 32) 1000.
Definition proof : ChallengeProof := ChallengeProof.mk 7 (blob 16) (key ++ signed dev (1000 + CHALLENGE_LIFETIME_MS)).
Definition challenge_calls : list ChallengeCall := [CancelCall "con_1"; IssueCall issue (blob 16) (blob 32); CancelCall "con_2"].

Lemma authentication_is_fresh_and_bound_witness :
  ∃ input, input.(IssueChallenge.connection_scope) = "con_1" ∧ 2000 < input.(IssueChallenge.now_ms) + CHALLENGE_LIFETIME_MS.
Proof.
  destruct (@authentication_is_fresh_and_bound toy_p256 challenge_calls "con_1" proof key false 2000 dev ltac:(by_vm))
    as (_ & before & input & nonce & after & text & _ & Hs & _ & _ & Ht & _).
  exists input. split; assumption.
Defined.

(** ** The registry *)

Definition plain (bytes : list ascii) : list ascii := bytes.
Definition invitation : IssuePairing := IssuePairing.mk hst "host.example:7443" (SpkiPin_encode (blob 32)) 0.
Definition request : PairRequest := PairRequest.mk 7 (blob 32) key " my phone ".
Definition entropy (n : nat) : list ascii := blob (16 + n).

Definition empty_registry : SecurityStore MemoryBackend := mkSecurity (MemoryBackend.mk RegistrySnapshot_default) RegistrySnapshot_default.
Definition invited : SecurityStore MemoryBackend := (issue_pairing plain invitation (blob 32) empty_registry).1.
Definition registered : SecurityStore MemoryBackend * result DeviceRecord TransportError := pair_device plain request 100 entropy invited.
Definition phone : DeviceRecord := DeviceRecord.mk (mkId (fresh_device_name (entropy 0))) key "my phone" 100 None.

Lemma registered_ok : pair_device plain request 100 entropy invited = (registered.1, Ok phone).
Proof. vm_compute. reflexivity. Qed.

Lemma empty_ok : node_ok registry_wf (Up empty_registry).
Proof.
  assert (registry_wf RegistrySnapshot_default) as Hwf by (split; [apply NoDup_nil_2|]; intros k d; cbn; rewrite lookup_empty; discriminate).
  split; [exact Hwf|]. exists RegistrySnapshot_default. split; [reflexivity|exact Hwf].
Qed.

Lemma node_steps calls : node_ok registry_wf (run_registry plain (Up empty_registry) calls).
Proof.
  apply run_registry_ok; [|exact empty_ok]. intros call s s' _ Hwf Hc. eapply registry_wf_step; [exact Hwf|].
  by eapply call_changes_step.
Qed.

Lemma invited_ok : node_ok registry_wf (Up invited).
Proof. exact (node_steps [IssueSecret invitation (blob 32)]). Qed.
Lemma paired_ok_node : node_ok registry_wf (Up registered.1).
Proof. exact (node_steps [IssueSecret invitation (blob 32); PairDevice request 100 entropy]). Qed.

Lemma pairing_is_durable_and_single_use_witness :
  is_ok (pair_device plain request 101 entropy registered.1).2 = false ∧
  device_for_auth phone.(DeviceRecord.device_id) registered.1 = Ok phone.
Proof.
  destruct (pairing_is_durable_and_single_use plain request 100 entropy invited registered.1 phone [] invited_ok registered_ok)
    as [Honce Hkept].
  split; [exact (Honce request 101 entropy registered.1 eq_refl eq_refl)|].
  destruct (Hkept (λ at_ms, not_elem_of_nil _)) as [Hnow _]. exact (Hnow registered.1 eq_refl).
Defined.

Definition expelled := revoke_and_then phone.(DeviceRecord.device_id) 200 (λ _ (n : nat), S n) 0%nat registered.1.

Lemma revocation_is_final_witness :
  expelled.1.2 = 1%nat ∧ device_for_auth phone.(DeviceRecord.device_id) expelled.1.1 = Err TransportError.AuthenticationFailed.
Proof.
  destruct (revocation_is_final plain phone.(DeviceRecord.device_id) 200 (λ _ (n : nat), S n) 0%nat registered.1 expelled.1.1 expelled.1.2 [Restart]
    paired_ok_node ltac:(vm_compute; reflexivity)) as (Honce & _ & Hfinal).
  split; [exact Honce|]. exact (proj1 (Hfinal expelled.1.1 ltac:(vm_compute; reflexivity))).
Defined.

(** ** Logins *)

Definition phone_ip : IpAddr := IpAddr.V4 7.
Definition failures : list LoginEvent := [LoginChecked phone_ip 1; LoginFailed phone_ip 2; LoginSucceeded phone_ip; LoginFailed phone_ip 3].

Lemma failed_logins_are_counted_exactly_witness : (check_failures phone_ip 4 (run_logins failures)).2 = Ok tt.
Proof. apply (failed_logins_are_counted_exactly failures phone_ip 0 4); [cbn; lia|]. vm_compute. lia. Defined.

(** ** A connection *)

Definition registry_of (st : SecurityStore MemoryBackend) : ServerShared :=
  mkShared st ChallengeStore_default (ConnectionLimiter.mk {["con_1" := LimitEntry.mk phone_ip None]}) AuthFailureLimiter_default.

Definition greeted : ConnectionSession :=
  ConnectionSession.mk ConnectionStage.Authentication 10000 None None 0 false None CorrelationState_default.

(** The phone answers its challenge at 1000 while another connection is closed. *)
Definition answer : ControlFrame :=
  ControlFrame.ChallengeProof 9 (blob 16) (key ++ signed phone.(DeviceRecord.device_id) (1000 + CHALLENGE_LIFETIME_MS)).
Definition random : AuthRandom := mkRandom (blob 16) (blob 32) entropy.
Definition knock : ControlFrame := ControlFrame.ChallengeRequest 9 phone.(DeviceRecord.device_id).
Definition connection (st : SecurityStore MemoryBackend) : Thread :=
  mkThread (registry_of st) [[]; [OtherChallenge (CancelCall "con_2")]] greeted 8 [Ok answer] [] [] (λ _, 1000) (λ _, 1000) 0.

Lemma connection_fresh st : challenges_from "con_1" (λ _ _ _, False) (connection st).(shared).(challenges).
Proof. exists []. split; [reflexivity|]. by intros input id nonce ?%elem_of_nil. Qed.
Lemma connection_undisturbed st : undisturbed "con_1" (connection st).
Proof. by repeat constructor. Qed.

Definition admitted := authenticate plain random hst knock "con_1" (blob 32) phone_ip (connection registered.1).

Lemma accepted_devices_proved_themselves_witness :
  admitted.2 = Ok phone.(DeviceRecord.device_id) ∧
  proved_identity plain random hst knock (blob 32) phone.(DeviceRecord.device_id) (connection registered.1).
Proof.
  assert (admitted.2 = Ok phone.(DeviceRecord.device_id)) as Hok by by_vm. split; [exact Hok|].
  apply (accepted_devices_proved_themselves plain random hst knock "con_1" (blob 32) phone_ip (connection registered.1) admitted.1).
  - apply connection_fresh.
  - apply connection_undisturbed.
  - rewrite <-Hok. apply surjective_pairing.
Defined.

Lemma revoked_devices_stay_out_witness :
  (authenticate plain random hst knock "con_1" (blob 32) phone_ip (connection expelled.1.1)).2 ≠ Ok phone.(DeviceRecord.device_id).
Proof.
  apply (revoked_devices_stay_out plain random hst knock "con_1" (blob 32) phone_ip (connection expelled.1.1)).
  - apply connection_fresh.
  - apply connection_undisturbed.
  - exact (proj1 (node_steps [IssueSecret invitation (blob 32); PairDevice request 100 entropy;
                              RevokeDevice phone.(DeviceRecord.device_id) 200])).
  - exists (DeviceRecord_set_revoked_at_ms (Some 200) phone). split_and!; by_vm.
Defined.

(** ** Minted identifiers *)

Definition zeros (_ : string) : string := String.string_of_list_ascii (replicate 64 "0"%char).

Lemma minted_handles_are_valid_witness :
  ProviderBindingHandle_validate_for
    (binding_handle zeros (IdentityMint.mk "salt") (mkId "rtm_1") ProviderBindingKind.Turn "seed") ProviderBindingKind.Turn = Ok tt.
Proof. apply minted_handles_are_valid; [intros s; split; by_vm|by_vm]. Defined.
