(* ===== verification/RelayWitnesses.v ===== *)
(** * Witnesses for the relay

    A relay that starts on an empty directory, serves one host and one device,
    and revokes the device.  The registry's JSON is that of the states the runs
    pass through, and the digest is the identity. *)
From stdpp Require Import prelude strings gmap.
From Stdlib Require Import ZArith Lia Ascii.
From S2P Require Import Prelude ProtoBase ProtoContent TransportControl TransportAuth TransportBootstrap PrivateFiles TransportRemote RelayIds RelayRegistry RelayRegistryProofs RelayPromises RelayAdmission RelayControl RelayControlProofs RelayService RelayFaults AuthWitnesses.

Local Open Scope Z_scope.

Definition toy_sha256 (bytes : list ascii) : list ascii := bytes.

(** ** Names *)

Definition name16 {k} (c : ascii) : FixedId k := mkFixed (repeat c 16).
Definition name32 {k} (c : ascii) : FixedId k := mkFixed (repeat c 32).

Definition the_route : RouteId := name16 "r".
Definition the_hint : RouteId := name16 "h".
Definition the_slot : DeviceSlotId := name16 "s".
Definition the_admin : RouteAdminToken := name32 "a".
Definition the_access : AccessToken := name32 "t".
Definition the_host : HostEndpointId := name32 "e".
Definition the_url : string := "https://relay.example/".
Definition operation (c : ascii) : string := opaque (name16 (k := KOperation) c).

(** ** States and their text *)

Definition or_default (r : result RegistryState RemoteError) : RegistryState :=
  match r with
  | Ok s => s
  | Err _ => RegistryState_default
  end.

Definition the_registration : RouteRegistration := RouteRegistration.mk the_route the_hint the_admin the_host the_url.
Definition registered_state : RegistryState := or_default (register_route_in toy_sha256 the_registration RegistryState_default).
Definition granted_state : RegistryState :=
  or_default (register_device_grant_in toy_sha256 (DeviceGrantRegistration.mk the_route the_slot the_access the_admin) registered_state).
Definition revoked_state : RegistryState := or_default (revoke_device_in toy_sha256 the_route the_admin the_slot granted_state).

Definition known_states : list RegistryState := [RegistryState_default; registered_state; granted_state; revoked_state].

Definition index_text (n : nat) : list ascii := bytes_of (decimal n).

#[local] Instance known_codec : JsonCodec RegistryState := {|
  to_json s := index_text <$> (fst <$> list_find (λ known, known = s) known_states);
  from_json json :=
    n ← fst <$> list_find (λ entry, index_text entry = json) (seq 0 (length known_states));
    s ← known_states !! n; Some (s, false)
|}.

#[local] Instance known_codec_ok : JsonCodecOk RegistryState.
Proof.
  split; intros v json; cbn [to_json known_codec]; rewrite fmap_Some; intros (n & Hn & ->); apply fmap_Some in Hn as ([n' known] & Hf & ->);
    apply list_find_Some in Hf as (Hl & Heq & _); simpl in Heq; subst known; pose proof (lookup_lt_Some _ _ _ Hl) as Hn; simpl in Hn;
    (destruct n' as [|[|[|[|]]]]; [..|lia]); injection Hl as <-; try (split; [done|by_vm]); by_vm.
Qed.

(** ** Frames *)

Definition frame_at (now : Z) (frame : RemoteControlFrame) : FrameEvent :=
  FrameEvent.mk (ControlConnection.mk true (default 1 (frame_request_id frame) - 1)) now now frame.

Definition registering : FrameEvent := frame_at 1000
  (RemoteControlFrame.RegisterRoute 2 (operation "1") 1000 (opaque the_route) (opaque the_hint) (opaque the_admin) (opaque the_host) the_url).
Definition granting : FrameEvent := frame_at 1001
  (RemoteControlFrame.RegisterDeviceGrant 3 (operation "2") 1001 (opaque the_route) (opaque the_slot) (opaque the_access) (opaque the_admin)).
Definition appearing : FrameEvent := frame_at 1001
  (RemoteControlFrame.RegisterPresence 4 (operation "5") 1001 (opaque the_route) (opaque the_admin) (opaque the_host) the_url 60).
Definition revoking : FrameEvent := frame_at 1002
  (RemoteControlFrame.RevokeDeviceGrant 4 (operation "3") 1002 (opaque the_route) (opaque the_slot) (opaque the_admin)).
Definition resolving : FrameEvent := frame_at 1003
  (RemoteControlFrame.ResolveRoute 2 (operation "4") 1003 (opaque the_route) (opaque the_slot) (opaque the_access)).

Definition empty_directory : PrivateDirectory := PrivateDirectory.mk ∅ [] (λ n, repeat (ascii_of_nat n) 16) 0.
Definition registry_file : string := "registry.json".

Definition run := run_service toy_sha256 registry_file.
Definition up (n : ServiceNode) : ControlService :=
  match n with
  | ServiceUp sv => sv
  | ServiceDown d => ControlService.mk (Registry.mk RegistryState_default None) ∅ d
  end.

Definition served : list ServiceEvent := [ServiceRestart; ServiceFrame registering; ServiceFrame granting; ServiceFrame appearing].
Definition served_service : ControlService := up (run (ServiceDown empty_directory) served).

(** The outcome of a frame, in parts. *)
Definition connection_after (event : FrameEvent) (sv : ControlService) : ControlConnection :=
  (handle toy_sha256 event.(FrameEvent.now) event.(FrameEvent.later) event.(FrameEvent.connection) event.(FrameEvent.frame) sv).1.1.
Definition service_after (event : FrameEvent) (sv : ControlService) : ControlService :=
  (handle toy_sha256 event.(FrameEvent.now) event.(FrameEvent.later) event.(FrameEvent.connection) event.(FrameEvent.frame) sv).1.2.
Definition outcome_of (event : FrameEvent) (sv : ControlService) : ControlOutcome :=
  (handle toy_sha256 event.(FrameEvent.now) event.(FrameEvent.later) event.(FrameEvent.connection) event.(FrameEvent.frame) sv).2.

Lemma handled event sv :
  handle toy_sha256 event.(FrameEvent.now) event.(FrameEvent.later) event.(FrameEvent.connection) event.(FrameEvent.frame) sv =
  (connection_after event sv, service_after event sv, outcome_of event sv).
Proof. unfold connection_after, service_after, outcome_of. by destruct (handle _ _ _ _ _ _) as [[]]. Qed.

Lemma frame_sane_computed event :
  match requested_call event.(FrameEvent.later) event.(FrameEvent.frame) with Some call => call_sane toy_sha256 call | None => True end →
  frame_sane toy_sha256 (ServiceFrame event).
Proof. intros Hc call Hreq. by rewrite Hreq in Hc. Qed.

Lemma run_is_sane : service_sane toy_sha256 (served ++ ServiceFrame revoking :: [ServiceRestart]).
Proof.
  intros event Hin. cbn [served app] in Hin.
  repeat (apply elem_of_cons in Hin as [->|Hin]; [first [exact I|apply frame_sane_computed; vm_compute; first [exact I|congruence]]|]).
  by apply elem_of_nil in Hin.
Qed.

Definition revoked_service : ControlService := service_after revoking served_service.
Definition restarted_service : ControlService := up (run (ServiceUp revoked_service) [ServiceRestart]).

Definition is_up (n : ServiceNode) : bool :=
  match n with
  | ServiceUp _ => true
  | ServiceDown _ => false
  end.

Lemma up_when n : is_up n = true → n = ServiceUp (up n).
Proof. by destruct n. Qed.

Lemma served_up : run (ServiceDown empty_directory) served = ServiceUp served_service.
Proof. apply up_when. by_vm. Qed.
Lemma restarted_up : run (ServiceUp revoked_service) [ServiceRestart] = ServiceUp restarted_service.
Proof. apply up_when. by_vm. Qed.
Lemma revoking_handled :
  handle toy_sha256 revoking.(FrameEvent.now) revoking.(FrameEvent.later) revoking.(FrameEvent.connection) revoking.(FrameEvent.frame) served_service =
  (connection_after revoking served_service, revoked_service, outcome_of revoking served_service).
Proof. apply handled. Qed.
Lemma slot_is_known : slot_known the_route the_slot (registry_state served_service).
Proof. eexists. split; [by_vm|]. left. eexists. by_vm. Qed.
Lemma revocation_is_answered : answered (outcome_of revoking served_service) = true.
Proof. by_vm. Qed.
Lemma path_is_fine : ends_with ".tmp" registry_file = false.
Proof. by_vm. Qed.
Lemma slot_is_named event :
  event = revoking ∨ event = resolving → slot_of event.(FrameEvent.frame) = Some (the_route, the_slot).
Proof. intros [->| ->]; by_vm. Qed.
Lemma directory_is_empty : empty_directory.(PrivateDirectory.files) !! registry_file = None.
Proof. by_vm. Qed.

Lemma answered_revocations_hold_witness :
  answered (outcome_of revoking served_service) = true ∧ answered (outcome_of resolving restarted_service) = false ∧
  answered (outcome_of resolving served_service) = true.
Proof.
  split; [exact revocation_is_answered|]. split; [|by_vm].
  apply (answered_revocations_hold toy_sha256 registry_file path_is_fine empty_directory served served_service revoking
           (connection_after revoking served_service) revoked_service (outcome_of revoking served_service)
           the_route the_slot [ServiceRestart] restarted_service resolving
           (connection_after resolving restarted_service) (service_after resolving restarted_service) (outcome_of resolving restarted_service)
           directory_is_empty run_is_sane served_up eq_refl (slot_is_named _ (or_introl eq_refl))
           slot_is_known revoking_handled revocation_is_answered restarted_up (slot_is_named _ (or_intror eq_refl)) eq_refl
           (handled resolving restarted_service)).
Defined.

(** ** Operations *)

Definition booted : ControlService := up (run (ServiceDown empty_directory) [ServiceRestart]).
Definition registered_service : ControlService := service_after registering booted.
Definition repeated : FrameEvent := FrameEvent.mk registering.(FrameEvent.connection) 50000 50000 registering.(FrameEvent.frame).
Definition after_granting : ControlService := handle_events toy_sha256 registered_service [granting].

Lemma registering_is_answered : answered (outcome_of registering booted) = true.
Proof. by_vm. Qed.
Lemma clock_is_monotone : ∀ event, event ∈ [granting] ++ [repeated] → registering.(FrameEvent.now) ≤ event.(FrameEvent.now) ≤ repeated.(FrameEvent.now).
Proof.
  intros event Hin. cbn [app] in Hin. repeat (apply elem_of_cons in Hin as [->|Hin]; [simpl; lia|]). by apply elem_of_nil in Hin.
Qed.

Lemma operations_are_accepted_once_witness :
  answered (outcome_of registering booted) = true ∧ answered (outcome_of repeated after_granting) = false.
Proof.
  split; [exact registering_is_answered|].
  apply (operations_are_accepted_once toy_sha256 booted registering (connection_after registering booted) registered_service
           (outcome_of registering booted) [granting] repeated (connection_after repeated after_granting) (service_after repeated after_granting)
           (outcome_of repeated after_granting) (operation "1", 1000, opaque the_admin)
           eq_refl eq_refl (handled registering booted) registering_is_answered clock_is_monotone eq_refl eq_refl (handled repeated after_granting)).
Defined.

Definition registered_record : RouteRecord := RouteRecord.mk the_hint the_host the_url (admin_digest toy_sha256 the_admin) ∅ ∅ None.

Lemma route_is_registered : (registry_state registered_service).(RegistryState.routes) !! the_route = Some registered_record.
Proof. by_vm. Qed.

Lemma changes_need_credentials_witness :
  route_unchanged the_route (registry_state registered_service) (registry_state (service_after granting registered_service)) ∨
  holds_admin toy_sha256 granting.(FrameEvent.frame) registered_record ∨
  changes_own_push toy_sha256 granting.(FrameEvent.frame) the_route registered_record
    (registry_state registered_service) (registry_state (service_after granting registered_service)).
Proof.
  apply (changes_need_credentials toy_sha256 _ _ _ _ _ _ _ _ the_route registered_record (handled granting registered_service) route_is_registered).
Defined.

(** ** The registry *)

Definition calls : list RelayEvent := [RelayRestart; RelayOp (RegisterRoute the_registration)].
Definition run_calls := run_relay toy_sha256 registry_file.
Definition registry_of (n : RelayNode) : Registry :=
  match n with
  | RelayUp r _ => r
  | RelayDown _ => Registry.mk RegistryState_default None
  end.

Definition called : RelayNode := run_calls (RelayDown empty_directory) calls.
Lemma called_up : called = RelayUp (registry_of called) (node_directory called).
Proof. by_vm. Qed.

Definition opened : RelayNode := run_calls (RelayDown empty_directory) [RelayRestart].
Lemma opened_up : run_calls (RelayDown empty_directory) [RelayRestart] = RelayUp (registry_of opened) (node_directory opened).
Proof. by_vm. Qed.

Definition later_calls : list RelayEvent :=
  [RelayOp (RegisterDeviceGrant (DeviceGrantRegistration.mk the_route the_slot the_access the_admin));
   RelayOp (RegisterPresence (PresenceRegistration.mk the_route the_admin the_host the_url 60) 1000)].
Definition granted_run : RelayNode := run_calls called later_calls.

Lemma registered_up :
  register_route toy_sha256 the_registration (registry_of opened) (node_directory opened) = (registry_of called, node_directory called, Ok tt).
Proof. by_vm. Qed.
Lemma granted_up : run_calls (RelayUp (registry_of called) (node_directory called)) later_calls = RelayUp (registry_of granted_run) (node_directory granted_run).
Proof. by_vm. Qed.

Lemma all_calls_are_sane : all_sane toy_sha256 ([RelayRestart] ++ RelayOp (RegisterRoute the_registration) :: later_calls).
Proof.
  intros call Hin. unfold later_calls in Hin. cbn [app] in Hin.
  repeat (apply elem_of_cons in Hin as [Heq|Hin]; [first [discriminate|injection Heq as ->; vm_compute; first [exact I|congruence]]|]).
  by apply elem_of_nil in Hin.
Qed.

Lemma calls_are_sane : all_sane toy_sha256 calls.
Proof. intros call Hin. apply all_calls_are_sane. unfold calls in Hin. set_solver. Qed.

Lemma relay_registry_reopens_witness :
  registry_validate_state (registry_of called).(Registry.state) = Ok tt ∧
  ∃ s, (Registry_open (Some registry_file) (without_faults (node_directory called))).2 = Ok (Registry.mk s (Some registry_file)).
Proof.
  destruct (relay_registry_reopens toy_sha256 registry_file path_is_fine empty_directory calls (registry_of called) (node_directory called)
    directory_is_empty calls_are_sane called_up) as (Hv & Ho & _). by split.
Defined.

Definition resolved := resolve toy_sha256 the_route the_slot the_access 1001 (registry_of granted_run).(Registry.state).
Definition response : ResolveResponse := ResolveResponse.mk the_host the_url 61000.
Lemma resolved_ok : resolved = Ok response.
Proof. by_vm. Qed.

Lemma routes_keep_their_host_witness : resolved = Ok response ∧ response.(ResolveResponse.host_endpoint) = the_host.
Proof.
  split; [exact resolved_ok|].
  apply (proj1 (routes_keep_their_host toy_sha256 registry_file path_is_fine empty_directory [RelayRestart] (registry_of opened) (node_directory opened)
    the_registration (registry_of called) (node_directory called) later_calls (registry_of granted_run) (node_directory granted_run)
    directory_is_empty all_calls_are_sane opened_up registered_up granted_up) the_slot the_access 1001 response resolved_ok).
Defined.

(** ** Endpoints and the cache of operations *)

Lemma four_chars (P : list ascii → Prop) :
  P [] → (∀ a, P [a]) → (∀ a b, P [a; b]) → (∀ a b c, P [a; b; c]) → (∀ a b c d rest, P rest → P (a :: b :: c :: d :: rest)) → ∀ l, P l.
Proof. intros P0 P1 P2 P3 P4. fix IH 1. intros [|a [|b [|c [|d rest]]]]; [done..|]. apply P4, IH. Qed.

Lemma decode_length text bytes : Base64Url.decode text = Some bytes → Z.of_nat (length text) = (4 * Z.of_nat (length bytes) + 2) / 3.
Proof.
  revert bytes. induction text as [|a|a b|a b c|a b c d rest IH] using four_chars; intros bytes; cbn [Base64Url.decode]; intros Hd;
    repeat (apply bind_Some in Hd as (? & ? & Hd)); repeat (case_match; try done); simplify_eq/=; try done.
  match goal with H : Base64Url.decode rest = Some _ |- _ => pose proof (IH _ H) end. Z.div_mod_to_equations. lia.
Qed.

#[local] Instance base64_url_strict : Base64Strict.
Proof. split. intros text bytes Hd%decode_length. by rewrite <-Hd, <-bytes_of_length. Qed.

(** A host sends its key in hexadecimal. *)
Definition hex_name : string := "6565656565656565656565656565656565656565656565656565656565656565".
Definition hex_registering : FrameEvent := frame_at 1000
  (RemoteControlFrame.RegisterRoute 2 (operation "1") 1000 (opaque the_route) (opaque the_hint) (opaque the_admin) hex_name the_url).

Lemma other_endpoint_names_are_refused_witness :
  answered (outcome_of hex_registering booted) = false ∧ answered (outcome_of registering booted) = true.
Proof.
  split; [|exact registering_is_answered].
  apply (other_endpoint_names_are_refused toy_sha256 _ _ _ hex_registering.(FrameEvent.frame) hex_name _ _ _ (outcome_of hex_registering booted) eq_refl ltac:(by vm_compute)
    (handled hex_registering booted)).
Defined.

Definition junk_id (n : nat) : OperationId := mkFixed (ascii_of_nat (n / 256) :: ascii_of_nat (n mod 256) :: repeat zero 14).
Definition junk_token : RouteAdminToken := name32 "x".
Definition junk_key (n : nat) : ReplayKey := ReplayKey.mk (toy_sha256 (bytes_of (opaque junk_token))) (junk_id n).
Definition junk (n : nat) : FrameEvent := frame_at 1000
  (RemoteControlFrame.RegisterRoute 2 (opaque (junk_id n)) 1000 (opaque the_route) (opaque the_hint) (opaque junk_token) hex_name the_url).

Definition junk_numbers : list nat := seq 0 REPLAY_CAPACITY.
Definition junk_events : list FrameEvent := junk <$> junk_numbers.
Definition junk_keys : list ReplayKey := junk_key <$> junk_numbers.

Lemma junk_has_key n : operation_key toy_sha256 1000 (opaque (junk_id n)) 1000 (opaque junk_token) = Ok (junk_key n).
Proof. unfold operation_key, parse. by rewrite (from_opaque_opaque (junk_id n)). Qed.

Lemma junk_is_sent key : key ∈ junk_keys → ∃ event, event ∈ junk_events ∧ registration_key toy_sha256 event key.
Proof.
  intros (n & -> & Hn)%list_elem_of_fmap. exists (junk n). split; [by apply list_elem_of_fmap_2|]. split; [apply junk_has_key|done].
Qed.

Lemma junk_is_new : NoDup junk_keys.
Proof.
  apply NoDup_fmap_2_strong; [|apply NoDup_ListNoDup, seq_NoDup]. intros x y Hx Hy [= H1 H2].
  assert (∀ n, n ∈ junk_numbers → n / 256 < 256 ∧ n mod 256 < 256)%nat as Hsmall.
  { intros n Hn%elem_of_seq. unfold REPLAY_CAPACITY in Hn. split; [apply Nat.Div0.div_lt_upper_bound; lia|apply Nat.mod_upper_bound; lia]. }
  apply (f_equal nat_of_ascii) in H1, H2. destruct (Hsmall x Hx), (Hsmall y Hy). rewrite !nat_ascii_embedding in H1, H2 by done.
  change (x / 256 = y / 256)%nat in H1. change (x mod 256 = y mod 256)%nat in H2.
  pose proof (Nat.div_mod_eq x 256). pose proof (Nat.div_mod_eq y 256). lia.
Qed.

Definition revoking_key : ReplayKey := ReplayKey.mk (toy_sha256 (bytes_of (opaque the_admin))) (name16 "3").
Definition fresh_service : ControlService := up (run (ServiceUp served_service) [ServiceRestart]).
Abbreviation blocked_service := (handle_events toy_sha256 fresh_service junk_events).

Lemma service_is_fresh : recorded_since 1000 fresh_service.(ControlService.replay) ∧ fresh_service.(ControlService.replay) !! revoking_key = None.
Proof. assert (fresh_service.(ControlService.replay) = ∅) as -> by by_vm. split; [apply map_Forall_empty|by rewrite lookup_empty]. Qed.
Lemma revocation_is_due : answered (outcome_of revoking fresh_service) = true.
Proof. by_vm. Qed.
Lemma junk_is_in_time : ∀ event, event ∈ revoking :: junk_events → 1000 ≤ event.(FrameEvent.now) ≤ 1000 + OPERATION_REPLAY_WINDOW_MS.
Proof. unfold OPERATION_REPLAY_WINDOW_MS. intros event [->|(n & -> & _)%list_elem_of_fmap]%elem_of_cons; simpl; lia. Qed.
Lemma junk_is_enough : (REPLAY_CAPACITY ≤ length junk_keys)%nat.
Proof. unfold junk_keys, junk_numbers. by rewrite length_fmap, length_seq. Qed.

Lemma revoking_has_key : event_key toy_sha256 revoking = Some revoking_key.
Proof. by_vm. Qed.
Lemma revoking_is_new : ∀ event, event ∈ junk_events → event_key toy_sha256 event ≠ Some revoking_key.
Proof.
  intros event (n & -> & _)%list_elem_of_fmap. unfold event_key. cbn [frame_operation FrameEvent.frame junk frame_at FrameEvent.now mbind option_bind].
  rewrite junk_has_key. intros [=].
Qed.
Lemma registrations_block_the_service_witness :
  answered (outcome_of revoking fresh_service) = true ∧ answered (outcome_of revoking blocked_service) = false.
Proof.
  split; [exact revocation_is_due|].
  exact (proj1 (registrations_block_the_service toy_sha256 fresh_service 1000 junk_events junk_keys revoking revoking_key
           (connection_after revoking blocked_service) (service_after revoking blocked_service) (outcome_of revoking blocked_service)
           (proj1 service_is_fresh) junk_is_in_time junk_is_new junk_is_enough junk_is_sent revoking_has_key (proj2 service_is_fresh) revoking_is_new
           (handled revoking blocked_service))).
Defined.
