(* ===== verification/HostRemoteWitnesses.v ===== *)
(** * Witnesses for the remote control plane

    A host and a relay that start on empty directories: the host registers its
    route and a device, revokes the device, restarts, and has the revocation
    confirmed; the relay restarts.  The texts of frames and states are numbers in
    a table of those the run passes through. *)
From stdpp Require Import prelude strings gmap.
From Stdlib Require Import ZArith Lia Ascii.
From S2P Require Import Prelude ProtoBase ProtoContent TransportControl TransportBootstrap TransportRemote RemoteClient PrivateFiles RelayIds RelayRegistry RelayRegistryProofs RelayPromises RelayControl RelayControlProofs RelayService HostRemote HostRemoteProofs HostRevocation HostReopen RelayLink AuthWitnesses.

Local Open Scope Z_scope.

(** ** Codecs from tables *)

Section table.
Context {T : Type} (same : T → T → bool) (table : list T).

Definition table_text (n : nat) : list ascii := repeat "0"%char (S n).

Definition table_codec : JsonCodec T := {|
  to_json v := table_text <$> (fst <$> list_find (λ known, same known v = true) table);
  from_json json := (λ v, (v, false)) <$> table !! pred (length json)
|}.

Lemma utf8_table_text n : utf8_valid (table_text n) = true.
Proof. unfold table_text. induction (S n) as [|m IH]; [done|]. simpl. exact IH. Qed.

Lemma table_codec_ok : (∀ v w, same v w = true → v = w) → JsonCodecOk T (H := table_codec).
Proof.
  intros Hsound. split; intros v json; cbn [to_json from_json table_codec]; intros (n & Hn & ->)%fmap_Some; apply fmap_Some in Hn as ([n' known] & Hf & ->);
    apply list_find_Some in Hf as (Hl & Heq & _); apply Hsound in Heq as ->; cbn [fst].
  - split; [done|]. apply utf8_table_text.
  - unfold table_text. rewrite repeat_length. simpl. by rewrite Hl.
Qed.
End table.

Definition decided {T} `{EqDecision T} (v w : T) : bool := bool_decide (v = w).

Lemma decided_sound {T} `{EqDecision T} (v w : T) : decided v w = true → v = w.
Proof. apply bool_decide_eq_true. Qed.

(** Equality of JSON values, down to some depth. *)
Fixpoint json_same (depth : nat) (v w : JsonValue) : bool :=
  match depth, v, w with
  | S _, JsonNull, JsonNull => true
  | S _, JsonInteger a, JsonInteger b => a =? b
  | S _, JsonString a, JsonString b => String.eqb a b
  | S depth, JsonArray a, JsonArray b => bool_decide (length a = length b) && forallb (λ pair, json_same depth pair.1 pair.2) (zip a b)
  | S depth, JsonObject a, JsonObject b =>
      let a := map_to_list a in
      let b := map_to_list b in
      bool_decide (length a = length b) && forallb (λ pair, String.eqb pair.1.1 pair.2.1 && json_same depth pair.1.2 pair.2.2) (zip a b)
  | _, _, _ => false
  end.

Lemma same_lists {A} (same : A → A → bool) (a b : list A) :
  (∀ v w, same v w = true → v = w) → bool_decide (length a = length b) && forallb (λ pair, same pair.1 pair.2) (zip a b) = true → a = b.
Proof.
  intros Hs [Hlen%bool_decide_eq_true Hall]%andb_true_iff. revert b Hlen Hall. induction a as [|x a IH]; intros [|y b] Hlen Hall; try done.
  simpl in Hall. apply andb_true_iff in Hall as [Hx Hall]. f_equal; [by apply Hs|]. apply IH; [by injection Hlen|done].
Qed.

Lemma json_same_sound depth v w : json_same depth v w = true → v = w.
Proof.
  revert v w. induction depth as [|depth IH]; [done|]. intros [| | | | |a|a] [| | | | |b|b]; try done; cbn [json_same].
  - by intros ->%Z.eqb_eq.
  - by intros ->%String.eqb_eq.
  - intros Hs. f_equal. by apply (same_lists (json_same depth)).
  - intros Hs. f_equal. apply map_to_list_inj.
    enough (map_to_list a = map_to_list b) as -> by done.
    apply (same_lists (λ x y, String.eqb x.1 y.1 && json_same depth x.2 y.2)); [|done].
    intros [k x] [k' y] [Hk%String.eqb_eq Hx]%andb_true_iff. simpl in *. f_equal; [done|by apply IH].
Qed.

(** ** Names and draws *)

Definition toy_digest (bytes : list ascii) : list ascii := take 32 ("#"%char :: bytes).

Lemma toy_digest_is_not_reserved bytes : toy_digest bytes ≠ zero_digest.
Proof. done. Qed.

Definition draw16 (c : ascii) : list ascii := repeat c 16.
Definition draw32 (c : ascii) : list ascii := repeat c 32.

Definition the_device : DeviceId := mkId "tablet".
Definition the_config : RemoteControlConfig :=
  RemoteControlConfig.mk "relay.example:4433" ("sha256:" +:+ b64_encode (draw32 "k")) (b64_encode (draw32 "e")) "https://relay.example/".

(** ** The states of the host *)

Definition or_same (f : DurableState → result DurableState RemoteControlError) (s : DurableState) : DurableState :=
  match f s with
  | Ok s => s
  | Err _ => s
  end.

Definition pending_revoke : PendingRevoke := PendingRevoke.mk "tablet" (generate_remote_id (draw16 "s")) (generate_remote_id (draw16 "3")) 1002.

Definition fresh_host : DurableState := DurableState_new the_config (draw16 "r") (draw16 "h") (draw32 "a").
Definition assigned_host : DurableState := or_same (add_device the_device (generate_remote_id (draw16 "s")) (generate_remote_token (draw32 "t"))) fresh_host.
Definition registered_host : DurableState := or_same (mark_registered the_device) assigned_host.
Definition revoking_host : DurableState := or_same (mark_revoke_pending the_device pending_revoke) registered_host.
Definition revoked_host : DurableState := or_same (mark_revoked pending_revoke) revoking_host.

#[local] Instance host_values : JsonCodec JsonValue :=
  table_codec (json_same 4) (map state_to_value [fresh_host; assigned_host; registered_host; revoking_host; revoked_host]).
#[local] Instance host_values_ok : JsonCodecOk JsonValue := table_codec_ok _ _ (json_same_sound 4).

(** ** Frames *)

Definition the_route_name : string := generate_remote_id (draw16 "r").
Definition the_hint_name : string := generate_remote_id (draw16 "h").
Definition the_slot_name : string := generate_remote_id (draw16 "s").
Definition the_admin_name : string := generate_remote_token (draw32 "a").
Definition the_access_name : string := generate_remote_token (draw32 "t").
Definition the_host_name : string := the_config.(RemoteControlConfig.host_endpoint_id).
Definition the_url : string := the_config.(RemoteControlConfig.relay_url).

Definition known_frames : list RemoteControlFrame :=
  [RemoteControlFrame.RemoteHello 1 REMOTE_CONTROL_VERSION MAX_REMOTE_CONTROL_FRAME_BYTES;
   RemoteControlFrame.RemoteHelloAck 1 REMOTE_CONTROL_VERSION MAX_REMOTE_CONTROL_FRAME_BYTES;
   RemoteControlFrame.RegisterPresence 2 the_hint_name 0 the_route_name the_admin_name the_host_name the_url PRESENCE_TTL_SECONDS;
   RemoteControlFrame.RegisterDeviceGrant 2 the_hint_name 0 the_route_name the_slot_name the_access_name the_admin_name;
   RemoteControlFrame.RegisterRoute 2 (generate_remote_id (draw16 "1")) 1000 the_route_name the_hint_name the_admin_name the_host_name the_url;
   RemoteControlFrame.RouteRegistered 2;
   RemoteControlFrame.RegisterDeviceGrant 3 (generate_remote_id (draw16 "2")) 1001 the_route_name the_slot_name the_access_name the_admin_name;
   RemoteControlFrame.DeviceGrantRegistered 3;
   RemoteControlFrame.RevokeDeviceGrant 2 (generate_remote_id (draw16 "3")) 1003 the_route_name the_slot_name the_admin_name;
   RemoteControlFrame.DeviceGrantRevoked 2;
   RemoteControlFrame.RemoteError (Some 2) WireErrorCode.Revoked false].

#[local] Instance known_frames_codec : JsonCodec RemoteControlFrame := table_codec decided known_frames.
#[local] Instance known_frames_ok : JsonCodecOk RemoteControlFrame := table_codec_ok _ _ decided_sound.

(** ** The states of the relay *)

Definition or_default (r : result RegistryState RemoteError) : RegistryState :=
  match r with
  | Ok s => s
  | Err _ => RegistryState_default
  end.

Definition relay_route : RouteId := mkFixed (draw16 "r").
Definition relay_slot : DeviceSlotId := mkFixed (draw16 "s").
Definition relay_admin : RouteAdminToken := mkFixed (draw32 "a").
Definition relay_access : AccessToken := mkFixed (draw32 "t").

Definition relay_registered : RegistryState :=
  or_default (register_route_in toy_digest (RouteRegistration.mk relay_route (mkFixed (draw16 "h")) relay_admin (mkFixed (draw32 "e")) the_url) RegistryState_default).
Definition relay_granted : RegistryState :=
  or_default (register_device_grant_in toy_digest (DeviceGrantRegistration.mk relay_route relay_slot relay_access relay_admin) relay_registered).
Definition relay_revoked : RegistryState := or_default (revoke_device_in toy_digest relay_route relay_admin relay_slot relay_granted).

#[local] Instance relay_states : JsonCodec RegistryState := table_codec decided [RegistryState_default; relay_registered; relay_granted; relay_revoked].
#[local] Instance relay_states_ok : JsonCodecOk RegistryState := table_codec_ok _ _ decided_sound.

(** No link is printed and no push is sent. *)
#[local] Instance no_links : JsonCodec RemoteBootstrapWire := {| to_json _ := None; from_json _ := None |}.
#[local] Instance no_payloads : JsonCodec PushPayload := {| to_json _ := None; from_json _ := None |}.

(** ** The run *)

Definition state_file : string := "remote.json".
Definition registry_file : string := "registry.json".

Lemma state_file_is_fine : ends_with ".tmp" state_file = false.
Proof. by_vm. Qed.
Lemma registry_file_is_fine : ends_with ".tmp" registry_file = false.
Proof. by_vm. Qed.

Definition empty_directory : PrivateDirectory := PrivateDirectory.mk ∅ [] (λ n, repeat (ascii_of_nat n) 16) 0.

(** Everything gets through. *)
Definition delivered (now : Z) : Delivery := Delivery.mk (TurnInput.mk now now false (λ _, None) []) 5000 5000 [].

Definition no_session : PinnedRemoteControlSession :=
  PinnedRemoteControlSession.mk (RemoteControlClient.mk (RemoteStream.mk [] [] []) RemoteCorrelationState_default) 2 false.
Definition first_link (script : list Delivery) : RelayLink := RelayLink.mk no_session None (ServiceDown empty_directory) script.

Definition opening : HostEvent LinkEvent := HostRestart the_config (draw16 "r") (draw16 "h") (draw32 "a").

Definition registering : list (HostEvent LinkEvent) :=
  [HostLink (LinkService ServiceRestart); opening; HostLink (LinkConnect (delivered 1000)); HostRoute (draw16 "1") 1000;
   HostPair (draw16 "s") (draw32 "t") (draw16 "2") the_device 1001 9000].
Definition revoking : list (HostEvent LinkEvent) :=
  [HostRevoke (draw16 "3") the_device 1002; opening; HostLink (LinkConnect (delivered 1002))].
Definition restarting : list (HostEvent LinkEvent) := [HostLink (LinkService ServiceRestart)].

Definition linked := run_linked toy_digest state_file registry_file.

Definition host_of (n : HostMachine RelayLink) : HostNode RelayLink :=
  match n with
  | HostUp h => h
  | HostDown d c => mkHost (RemoteControlPlane.mk state_file fresh_host ∅) d c
  end.
Definition host_is_up (n : HostMachine RelayLink) : bool :=
  match n with
  | HostUp _ => true
  | HostDown _ _ => false
  end.

Lemma host_up_when n : host_is_up n = true → n = HostUp (host_of n).
Proof. by destruct n. Qed.

Definition the_script : list Delivery := [delivered 1000; delivered 1001; delivered 1003].
Definition host_registered : HostNode RelayLink := host_of (linked (HostDown empty_directory (first_link the_script)) registering).
Definition host_enqueued : HostNode RelayLink := host_of (linked (HostUp host_registered) revoking).
Definition flushed : HostNode RelayLink * result (option RevokeCompletion) RemoteControlError :=
  flush_next_revoke (RemoteControlExchange0 := linked_exchange toy_digest) 1003 host_enqueued.
Definition host_finished : HostNode RelayLink := host_of (linked (HostUp flushed.1) restarting).

Definition relay_of (n : ServiceNode) : ControlService :=
  match n with
  | ServiceUp sv => sv
  | ServiceDown d => ControlService.mk (Registry.mk RegistryState_default None) ∅ d
  end.

Definition the_completion : RevokeCompletion := RevokeCompletion.mk the_device the_slot_name.

Lemma host_registered_up : linked (HostDown empty_directory (first_link the_script)) registering = HostUp host_registered.
Proof. apply host_up_when. by_vm. Qed.
Lemma enqueued_up : linked (HostUp host_registered) revoking = HostUp host_enqueued.
Proof. apply host_up_when. by_vm. Qed.
Lemma finished_up : linked (HostUp flushed.1) restarting = HostUp host_finished.
Proof. apply host_up_when. by_vm. Qed.
Lemma flush_completes : flush_next_revoke (RemoteControlExchange0 := linked_exchange toy_digest) 1003 host_enqueued = (flushed.1, Ok (Some the_completion)).
Proof. assert (flushed.2 = Ok (Some the_completion)) as <- by by_vm. apply surjective_pairing. Qed.
Lemma device_is_registered : registered_at (host_memory host_registered) "tablet" the_slot_name.
Proof. eexists. split; [by_vm|]. split; by_vm. Qed.

Definition relay_finished : ControlService := relay_of host_finished.(host_connection).(RelayLink.relay).
Lemma relay_is_serving : host_finished.(host_connection).(RelayLink.relay) = ServiceUp relay_finished.
Proof.
  assert (∀ n, match n with ServiceUp _ => true | ServiceDown _ => false end = true → n = ServiceUp (relay_of n)) as Hup by by intros [].
  apply Hup. by_vm.
Qed.
Lemma run_is_typed : Forall typed_event (registering ++ revoking ++ restarting).
Proof. repeat (apply Forall_cons; split; [first [exact I|vm_compute; congruence]|]). apply Forall_nil, I. Qed.

Lemma completed_revocations_hold_at_the_relay_witness :
  the_completion.(RevokeCompletion.device_slot_id) = the_slot_name ∧
  ∃ route_id slot_id,
    from_opaque KRoute (host_memory host_registered).(DurableState.route_id) = Some route_id ∧ from_opaque KDeviceSlot the_slot_name = Some slot_id ∧
    (∀ now later connection frame, slot_of frame = Some (route_id, slot_id) → is_revocation frame = false →
       answered (handle toy_digest now later connection frame relay_finished).2 = false ∧
       registry_state (handle toy_digest now later connection frame relay_finished).1.2 = registry_state relay_finished) ∧
    ∀ bearer identity, authenticate_bearer toy_digest bearer (registry_state relay_finished) = Ok identity →
      identity.(BearerIdentity.route_id) = route_id → identity.(BearerIdentity.slot_id) ≠ Some slot_id.
Proof.
  apply (completed_revocations_hold_at_the_relay toy_digest state_file registry_file state_file_is_fine registry_file_is_fine toy_digest_is_not_reserved
           empty_directory (first_link the_script) empty_directory registering host_registered "tablet" the_slot_name revoking host_enqueued 1003
           flushed.1 the_completion restarting host_finished relay_finished eq_refl eq_refl eq_refl run_is_typed host_registered_up device_is_registered
           enqueued_up flush_completes eq_refl finished_up relay_is_serving).
Defined.

(** ** Revocations stay *)

Definition enqueued : HostNode RelayLink * result unit RemoteControlError :=
  enqueue_revoke_after_local_registry (draw16 "3") the_device 1002 host_registered.
Lemma enqueue_succeeds : enqueue_revoke_after_local_registry (draw16 "3") the_device 1002 host_registered = (enqueued.1, Ok tt).
Proof. assert (enqueued.2 = Ok tt) as <- by by_vm. apply surjective_pairing. Qed.
Definition host_reopened : HostNode RelayLink := host_of (linked (HostUp enqueued.1) [opening]).
Lemma reopened_up : linked (HostUp enqueued.1) [opening] = HostUp host_reopened.
Proof. apply host_up_when. by_vm. Qed.
Lemma short_run_is_typed : Forall typed_event (registering ++ [opening]).
Proof. repeat (apply Forall_cons; split; [first [exact I|vm_compute; congruence]|]). apply Forall_nil, I. Qed.
Lemma time_fits : 1002 ≤ i64_max.
Proof. vm_compute. congruence. Qed.
Lemma first_link_ok : link_ok (RevocationService := linked_service toy_digest registry_file) (first_link the_script).
Proof. by apply first_node_ok. Qed.

Lemma enqueued_revocations_stay_witness :
  (∃ before record,
     (host_memory host_registered).(DurableState.devices) !! "tablet" = Some before ∧
     (host_memory host_reopened).(DurableState.devices) !! "tablet" = Some record ∧
     record.(SlotRecord.slot_id) = before.(SlotRecord.slot_id) ∧ record.(SlotRecord.access_token) = None ∧
     (record.(SlotRecord.status) = DeviceStatus.Revoked ∨
      is_revoke_pending record ∧ ∃ pending, pending ∈ (host_memory host_reopened).(DurableState.revoke_outbox) ∧
        pending.(PendingRevoke.device_id) = "tablet" ∧ pending.(PendingRevoke.slot_id) = before.(SlotRecord.slot_id))) ∧
  ∀ slot token operation' wake issued_at_ms expires_at_ms,
    is_ok (register_device_and_issue_pairing (RemoteControlExchange0 := linked_exchange toy_digest)
             slot token operation' the_device issued_at_ms expires_at_ms host_reopened).2 = false ∧
    is_ok (wake_device (RemoteControlExchange0 := linked_exchange toy_digest) operation' wake the_device issued_at_ms host_reopened).2 = false.
Proof.
  apply (enqueued_revocations_stay (Exchange := linked_exchange toy_digest) (Service := linked_service toy_digest registry_file)
           state_file state_file_is_fine (RevocationServiceLaws0 := linked_laws toy_digest registry_file registry_file_is_fine toy_digest_is_not_reserved)
           empty_directory (first_link the_script) registering host_registered (draw16 "3") the_device 1002 enqueued.1 [opening] host_reopened
           first_link_ok eq_refl short_run_is_typed time_fits host_registered_up enqueue_succeeds reopened_up).
Defined.

(** ** A registration that arrives late

    The grant of a device is lost on its way, the device is revoked, and the relay,
    which knows no such slot, says that it is revoked: the host is done with it.
    The grant that was under way is then served like any other. *)

Definition lost (now : Z) : Delivery := Delivery.mk (TurnInput.mk now now false (λ _, None) []) 0 0 [].
Definition racing_script : list Delivery := [delivered 1000; lost 1001; delivered 1003].
Definition host_raced : HostNode RelayLink :=
  host_of (linked (HostUp (host_of (linked (HostDown empty_directory (first_link racing_script)) registering))) revoking).
Definition race_flushed := flush_next_revoke (RemoteControlExchange0 := linked_exchange toy_digest) 1003 host_raced.
Definition late_grant : FrameEvent :=
  FrameEvent.mk (ControlConnection.mk true 2) 1004 1004
    (RemoteControlFrame.RegisterDeviceGrant 3 (generate_remote_id (draw16 "2")) 1001 the_route_name the_slot_name the_access_name the_admin_name).
Definition relay_raced : ControlService :=
  handle_event toy_digest (relay_of race_flushed.1.(host_connection).(RelayLink.relay)) late_grant.

(** The host's record says revoked, and the relay lets the device in. *)
Theorem late_registration_outlives_revocation :
  race_flushed.2 = Ok (Some the_completion) ∧ revoked_at (host_memory race_flushed.1) "tablet" the_slot_name ∧
  authorize_device toy_digest relay_route relay_slot relay_access (registry_state relay_raced) = Ok tt.
Proof. split_and!; [by_vm| |by_vm]. eexists. split; [by_vm|]. split; by_vm. Qed.

(** ** Reopening *)

Definition good_drawb (s : DurableState) (event : HostEvent LinkEvent) : bool :=
  match event with
  | HostPair slot token _ _ _ _ =>
      (length slot =? RANDOM_ID_BYTES)%nat && bool_decide (generate_remote_id slot ∉ slots_of s.(DurableState.devices)) &&
      is_ok (RemoteControlFrame_encode (RemoteControlFrame.RegisterDeviceGrant 2 s.(DurableState.route_hint) 0 s.(DurableState.route_id)
               (generate_remote_id slot) (generate_remote_token token) s.(DurableState.admin_token)))
  | HostRevoke operation _ at_ms => (length operation =? RANDOM_ID_BYTES)%nat && (at_ms <=? i64_max)
  | HostReconcile _ _ => false
  | _ => true
  end.

#[local] Existing Instance linked_service.

Fixpoint good_runb (n : HostMachine RelayLink) (events : list (HostEvent LinkEvent)) : bool :=
  match events with
  | [] => true
  | event :: events =>
      match n with
      | HostUp h => good_drawb (host_memory h) event
      | HostDown _ _ => true
      end && good_runb (linked n [event]) events
  end.

Lemma good_drawb_sound s event : good_drawb s event = true → good_draw (Service := linked_service toy_digest registry_file) s event.
Proof.
  destruct event; simpl; try done.
  - intros [[Hl%Nat.eqb_eq Hf%bool_decide_eq_true]%andb_true_iff He]%andb_true_iff. by split_and!.
  - intros [Hl%Nat.eqb_eq Ht%Z.leb_le]%andb_true_iff. by split.
Qed.

Lemma good_runb_sound n events :
  good_runb n events = true →
  good_run (Exchange := linked_exchange toy_digest) (Service := linked_service toy_digest registry_file) state_file n events.
Proof.
  revert n. induction events as [|event events IH]; intros n Hg; [done|]. simpl in Hg. apply andb_true_iff in Hg as [Hd Hg].
  split; [destruct n; [by apply good_drawb_sound|done]|by apply IH].
Qed.

Definition whole_run : list (HostEvent LinkEvent) := registering ++ [HostRevoke (draw16 "3") the_device 1002].
Definition host_whole : HostNode RelayLink := host_of (linked (HostDown empty_directory (first_link the_script)) whole_run).
Lemma whole_up : linked (HostDown empty_directory (first_link the_script)) whole_run = HostUp host_whole.
Proof. apply host_up_when. by_vm. Qed.
Lemma whole_is_good :
  good_run (Exchange := linked_exchange toy_digest) (Service := linked_service toy_digest registry_file) state_file
    (HostDown empty_directory (first_link the_script)) whole_run.
Proof. apply good_runb_sound. by_vm. Qed.
Lemma table_fits s bytes : state_valid s → to_json (state_to_value s) = Some bytes → Z.of_nat (length bytes) ≤ 1048576.
Proof.
  intros _ (n & Hn & ->)%fmap_Some. apply fmap_Some in Hn as ([n' known] & Hf & ->). apply list_find_Some in Hf as (Hl & _).
  apply lookup_lt_Some in Hl. simpl in *. unfold table_text. rewrite repeat_length. lia.
Qed.

Lemma remote_state_reopens_witness :
  host_validate_state (host_memory host_whole) = Ok tt ∧
  ∃ s, (open_state state_file (config_of (host_memory host_whole)) [] [] [] (without_faults host_whole.(host_directory))).2 = Ok s ∧
    state_later (host_memory host_whole) s.
Proof.
  apply (remote_state_reopens (Exchange := linked_exchange toy_digest) (Service := linked_service toy_digest registry_file) state_file state_file_is_fine
           table_fits empty_directory (first_link the_script) whole_run host_whole [] [] [] eq_refl whole_is_good whole_up).
Defined.
