(* ===== verification/BrokerWitnesses.v ===== *)
(** * Witnesses for the broker

    A host with one runtime, a subscriber to its index of projects, and a
    dispatch whose completion cannot be written. *)
From stdpp Require Import prelude strings gmap.
From Stdlib Require Import ZArith Lia.
From S2P Require Import Prelude ProtoBase ProtoContent ProtoRuntime ProtoTurn ProtoQueue ProtoWorkflow ProtoAttention ProtoCommand ProtoEffect ProtoProjection CanonState CanonInvariants ReadModelBuild DurableLog ProjectionJournal ContentFiles CommandOutbox OutboxProofs StoreInterface JournalReadModels CanonStore StoreProofs AdapterIdentity DeviceStore DeviceProofs HostBroker BrokerProofs Witnesses ContentWitnesses DeviceWitnesses.
Import Sample.

Local Open Scope Z_scope.

#[local] Existing Instances sample_codec sample_envelope_codec sample_side_codec sample_outbox_codec record_codec.
#[local] Hint Extern 0 ReadModels => exact (journal_read_models plain_digest) : typeclass_instances.

Definition small_host : HostStore := mkHost commit2.1 empty_outbox no_content.
Definition small_broker : BrokerState plain_digest := broker_of plain_digest small_host hid.

Definition watch : ProjectionSubscribe := ProjectionSubscribe.mk runtime_key None.
Definition subscribed := subscribe_with_capacity plain_digest watch 5 2 small_broker.
Definition subscription : BrokerSubscription :=
  unwrap_or (mkSubscription 0 (ProjectionReplay.mk (ProjectionSubscribeAck.mk runtime_key
    (ProjectionSubscribeOutcome.Rejected (gap_error 0))) [])) subscribed.2.

Definition broker_calls : list BrokerCall :=
  [BrokerApply sample_tick (StateEffect.RuntimeUpserted (ProviderRuntime_set_capabilities (capabilities [Capability.HistoryList]) runtime)) 6; BrokerReceive 1; BrokerUnsubscribe 7].

Lemma small_journal_wf : journal_wf small_broker.(broker_store plain_digest).(canonical).(store_journal).
Proof.
  pose proof (commit_grown plain_digest store0 sample_tick (StateEffect.HostUpserted host)) as G1.
  pose proof (commit_grown plain_digest commit1.1 sample_tick (StateEffect.RuntimeUpserted runtime)) as G2.
  apply (grown_wf _ _ _ G2), (grown_wf _ _ _ G1). split; [|discriminate]. intros key es Hes. cbn in Hes.
  rewrite lookup_empty in Hes. discriminate.
Qed.

Lemma subscribed_ok : subscribe_with_capacity plain_digest watch 5 2 small_broker = (subscribed.1, Ok subscription).
Proof. fold subscribed. apply commit_pair, unwrap_ok. by_vm. Qed.

Lemma subscribers_miss_nothing_witness :
  let (b2, got) := run_broker plain_digest 7 subscription.(subscription_token) broker_calls subscribed.1 in
  ∃ skip sent closing m,
    b2.(mailboxes plain_digest) !! subscription.(subscription_token) = Some m ∧
    got ++ m.(MailboxState.events) = projected sent ++ closing ∧
    closing_of m closing ∧
    subscription.(subscription_replay).(ProjectionReplay.envelopes) ++ sent `prefix_of` drop skip (broker_history plain_digest b2 runtime_key) ∧
    match b2.(subscribers plain_digest) !! subscription.(subscription_token) with
    | Some _ => m.(MailboxState.closed) = false ∧
        (broker_fenced plain_digest b2 = false →
         subscription.(subscription_replay).(ProjectionReplay.envelopes) ++ sent = drop skip (broker_history plain_digest b2 runtime_key))
    | None => m.(MailboxState.closed) = true ∨ BrokerUnsubscribe subscription.(subscription_token) ∈ broker_calls
    end.
Proof.
  apply (subscribers_miss_nothing plain_digest 7 small_broker watch 5 2 subscribed.1 subscription broker_calls small_journal_wf).
  - intros since. discriminate.
  - exact subscribed_ok.
  - intros error. vm_compute. discriminate.
  - repeat split.
Defined.

(** The view is handed out. *)
Example broker_hands_out_views :
  length (run_broker plain_digest 7 subscription.(subscription_token) broker_calls subscribed.1).2 = 1%nat.
Proof. by_vm. Qed.

Definition claimed_broker : BrokerState plain_digest := broker_of plain_digest claimed_host hid.
Definition finished := broker_finish_dispatch plain_digest IoOutcome.Written interruption_ticket result_effects 70 claimed_broker.

Lemma unreported_batch_leaves_gap_witness :
  ∃ b'' e, broker_finish_dispatch plain_digest IoOutcome.NotOpened interruption_ticket result_effects 70 claimed_broker = (b'', Err e) ∧
    (∀ key, broker_history plain_digest b'' key = broker_history plain_digest finished.1 key) ∧
    broker_fenced plain_digest b'' = broker_fenced plain_digest finished.1 ∧
    b''.(mailboxes plain_digest) = claimed_broker.(mailboxes plain_digest) ∧
    b''.(subscribers plain_digest) = claimed_broker.(subscribers plain_digest).
Proof.
  apply (unreported_batch_leaves_gap plain_digest claimed_broker interruption_ticket result_effects 70 finished.1 (unwrap_or [] finished.2)).
  fold finished. apply commit_pair, unwrap_ok. by_vm.
Defined.
